(* ===== verification/_CoqProject ===== *)
-Q . S2P
Prelude.v
PyValue.v
Contracts.v
ReceiptStore.v
ExecutionKernel.v
PyTime.v
Sql.v
SettingsRebind.v
VaultRegistry.v
DimensionState.v
RegistryStore.v
RegistryProps.v
RegistryRoundtrip.v
RebindProps.v
RegistryFiles.v
RegistryTransaction.v
RegistryCommit.v
EffectLease.v
EffectLeaseStates.v
EffectLeaseLogic.v
EffectLeaseSections.v
EffectLeaseReconcile.v
EffectLeaseProps.v
EffectLeaseSystem.v
LeaseRegistryStore.v
DispatcherStore.v
Leases.v
Queue.v
DispatcherInv.v
DispatcherProps.v
BatchOperations.v
BatchProps.v
BatchInterleaving.v
StateAxes.v
Commitments.v
MemoryCandidate.v
ReviewQueue.v
ReviewBoard.v
ReviewDecisions.v
ReviewDecisionProps.v
ProvisionalMemory.v
MemoryRecall.v
MemoryReview.v
PollBackoff.v
ActiveContext.v
ContextSelection.v
ContextProps.v
VaultDimensions.v
DimensionProps.v
Health.v
HealthContract.v
HealthProps.v
GovernedWrite.v
Procs.v
Placement.v
PlacementProps.v
PlacementRecovery.v
PlacementOperations.v
DeliveryContracts.v
DeliveryEvidence.v
DeliveryReducer.v
DeliveryApproval.v
DeliveryCompiler.v
DeliveryGraph.v
DeliveryScreen.v
DeliverySteps.v
DeliveryRuns.v
DeliveryLedger.v
DeliveryTotal.v
DeliveryGates.v
DeliveryProps.v
DeliveryPlanProps.v
DeliveryPlanTotal.v
DeliveryExample.v
