(* ===== verification/Prelude.v ===== *)
(** * Verification of the agentic-pkm runtime

    The repository is a personal-knowledge runtime written in Python.  Some of
    its parts carry rules that data must survive crashes, retries and
    concurrent callers, or decide what an agent may do; this library models
    them from the sources:

    - the operation kernel ([src/app/operations]): a request to change the
      vault passes admission gates, is reserved in a receipt journal, is handed
      to the operation's owner at most once and is finalized; repeated or
      interrupted requests are replayed or reconciled from the journal;
    - batches ([src/app/operations/batch_operations.py]): frozen lists of such
      requests, confirmed by a digest, executed item by item through the
      kernel, cancellable at any time, with their progress in the same journal;
    - the dispatcher ([src/app/dispatcher]): agents claim, renew, release,
      review and complete tasks under expiring leases kept in SQLite, while a
      sweep reclaims expired leases and GitHub snapshots overwrite the rest;
      polling and the classification of review evidence decide a merge;
    - agent memory ([src/app/agent_memory]): candidates wait in a review queue
      shared by several vault bindings, decisions are kept in SQLite and may
      be materialized once, unreviewed notes are reconciled from Markdown and
      receipts, and recall is guarded and recorded;
    - active contexts ([src/app/vault/active_context_v1.py],
      [src/app/governance/binding_authority.py], [src/app/instance]): a session
      selects vault bindings and holds a bearer; every request resolves it to
      an immutable snapshot whose bindings are authorized one by one, with a
      generation that moves when the facts underneath change;
    - write governance ([src/app/health_contract.py], [src/app/write_guard.py],
      [src/app/governance/governed_write.py]): concurrent health evaluations
      publish an ordered snapshot, the guard refuses writes by its state, and
      an admitted write gets a token that is bound to an active context,
      checked before the effect and answered by an authority receipt;
    - note placement ([src/app/knowledge/placement.py],
      [src/app/operations/placement_operations.py]): a note is moved through a
      sequence of system calls that may stop anywhere, with a private record
      and private links from which a later attempt completes it;
    - the vault registry ([src/app/instance/vault_registry.py],
      settings_rebind.py, background_intent.py, vault_dimensions.py): the
      durable document of an instance's vaults with its many writers, the
      journalled files underneath it and the vault dimensions stored in it;
    - binding effect leases ([src/app/instance/binding_effect_lease.py]):
      shared and exclusive effect windows across processes, kept in the
      registry, in kernel locks and in a journal;
    - delivery runs ([src/app/builderops/delivery_reducer.py],
      delivery_orchestration_contracts.py): a pure reducer drives the Issues of
      an approved plan through claim, work, checks, review, merge and closure
      on admitted evidence, and accounts for every effect it authorized; the
      plan comes from a pure compiler (delivery_plan_compiler.py) of an
      approved initiation and a snapshot of its Issues;
    - the domain vocabularies ([src/app/domain]): review state and maturity of
      artifacts, and commitments with their receipt-gated state changes.

    The batch coordinator calls the kernel, the kernel calls the receipt store
    and the owners; the dispatcher's queue and services call its leases and its
    store; the memory review endpoint decides in the queue and records in the
    decision store, which the queue consults when a candidate comes in again;
    the context service reads the registry, asks the authority and keeps the
    resolver in the selection store; a decision token is issued on the health
    contract's snapshot and bound to the resolver's; placements are handlers of
    the kernel; dimensions and effect leases are clients of the registry; the
    delivery reducer runs what the plan compiler returns; the domain functions
    stand alone.

    ** Files

    - [Prelude]: results with exceptions ([res]), shared tactics and lemmas.
    - [PyValue]: dynamically typed values and the built-ins used on them
      (truthiness, [==], [dict], [str], [json.dumps]).
    - [Contracts] (operations/contracts.py): the operation envelope, one record
      per dataclass, [X_to_dict] and [X_from_dict] for its two methods.
    - [ReceiptStore] (the stores of operations/execution_kernel.py): the
      protocol as the class [ReceiptStore], what its clients rely on as the
      class [ReceiptStoreSpec], and the in-memory and JSON-file stores as
      instances of both.  An operation of the file store may fail before or
      after the atomic replacement ([io_fault]).
    - [ExecutionKernel] (operations/execution_kernel.py): [execute] on a
      [world], which is the store and the trace of owner calls.  [admission],
      [admitted], [run_owner] and [unfinalized] are consecutive parts of
      [_execute]; [recovery_decision] and [reconciled] are parts of
      [_reconcile].
    - [BatchOperations] (operations/batch_operations.py): the coordinator over
      the journal's JSON document.  [freeze] is [preview] up to its lock,
      [start_item] and [finish_item] are the two locked sections of an
      iteration of [execute], [authenticate] the body of [_load].
      [BatchProps] holds the frame of its sections and the properties of one
      call; [BatchInterleaving] runs the sections on a journal other users
      write between any two of their journal calls ([SharedJournal]).
    - [PyTime]: UTC instants in microseconds, ISO 8601 printing and parsing.
    - [Sql]: the state monad with exceptions, tables keyed by text and the
      statements issued on them.
    - [DispatcherStore] (dispatcher/models.py, store.py, events.py,
      schema.py): rows, tables, transactions, the task upsert and its merge
      rules for synchronized tasks.
    - [Leases] (dispatcher/leases.py), [Queue] (dispatcher/queue.py,
      services.py and the status table of signboard.py): every operation on
      tasks, leases and cleanup guards.
    - [DispatcherInv]: the lease invariant and its preservation by every
      operation.  [DispatcherProps]: the dispatcher's properties.
    - [StateAxes] (domain/state_axes.py), [Commitments]
      (domain/commitments.py): the domain functions and their properties.
    - [MemoryCandidate] (agent_memory/candidate.py): the candidate model.
    - [ReviewQueue] (agent_memory/review_queue.py): the queue.  What it asks of
      the decision store is the class [DecisionReader] with its law
      [DecisionReaderSpec].  [ReviewBoard]: an abstract board per binding, the
      queue's invariant and its refinement of the board.
    - [ReviewDecisions] (agent_memory/review_decision_store.py): the table and
      its transactions, an instance of [DecisionReader]; [promotion_first] and
      [promotion_second] are the two transactions of
      [promotion_materialization_transaction].  [ReviewDecisionProps]: its
      properties and its composition with the queue.
    - [ProvisionalMemory] (agent_memory/provisional_memory.py): the validated
      models and [rebuild_provisional_memory].
    - [MemoryRecall] (agent_memory/promotion.py, recall_explanation.py,
      authority_guard.py, recall_activation.py): promotion outcomes, the
      authority of recalled memory and the recorded recall.
    - [MemoryReview] (api/routes/companion.py): the branches of
      [post_memory_review_decision] over queue and store.
    - [PollBackoff] (dispatcher/poll_backoff.py): [poll_until], the paginated
      fetch and [parse_codex_verdict]; [collect_evidence] and [judge] are its
      two halves.
    - [ActiveContext] (vault/active_context_v1.py,
      governance/binding_authority.py): the snapshot with its parts and the
      registry's authorizer.
    - [ContextSelection] (instance/context_selection.py,
      instance/active_context_service.py): the selection store, the resolver
      ([select], [resolve_members], [deny], [snapshot_of] and [publish] are
      consecutive parts of [_resolve_unlocked]) and the service's entry points
      over a registry read afresh at every load.  [ContextProps]: their
      properties.
    - [Health] (the state machine of health_contract.py) with its properties;
      [HealthContract] (the contract of health_contract.py, write_guard.py,
      api/routes/health_contract.py, events/outbox.py): [down_readings],
      [down_snapshot], [read_up], [up_snapshot], [overridden] are parts of
      [_db_down_snapshot] and [_evaluate].  [HealthProps]: evaluations as
      threads ([eval_step] runs one locked section; run alone they are
      [_evaluate]) and what holds in every interleaving.
    - [GovernedWrite] (governance/governed_write.py): tokens, their validation
      and authority receipts.
    - [Procs]: programs of system calls ([prog]) and their weakest
      preconditions under interference.  [Placement] (knowledge/placement.py,
      instance/context_bound_write.py): the placement, [do_reserved] to
      [do_retiring] being the branches of [_advance].  [PlacementProps],
      [PlacementRecovery]: what holds at every call, and recovery.
      [PlacementOperations] (operations/placement_operations.py): the handler.
    - [SettingsRebind] (instance/settings_rebind.py, background_intent.py),
      [VaultRegistry] (the document of instance/vault_registry.py),
      [DimensionState] (the stored form of instance/vault_dimensions.py),
      [RegistryStore] (the operations of [VaultRegistryStore]);
      [RegistryProps], [RegistryRoundtrip], [RebindProps]: their properties.
    - [RegistryFiles] (the files of vault_registry.py): rendering, journal,
      recovery; [RegistryTransaction], [RegistryCommit]: a write is all or
      nothing, from bytes up to snapshots.
    - [VaultDimensions] (the service of instance/vault_dimensions.py and its
      entry points in active_context_service.py); [DimensionProps].
    - [EffectLease] (instance/binding_effect_lease.py): the sections of an
      attempt; the registry they use is the class [LeaseRegistry] with its law,
      of which [LeaseRegistryStore] makes the registry store an instance.
      [EffectLeaseStates], [EffectLeaseLogic], [EffectLeaseSections],
      [EffectLeaseReconcile], [EffectLeaseProps]: states, a logic of sections
      and what every section keeps; [EffectLeaseSystem]: many processes.
    - [DeliveryContracts], [DeliveryEvidence]
      (builderops/delivery_orchestration_contracts.py): the contracts with
      their validators and derived identities, and the resolution of evidence.
      [DeliveryReducer] (builderops/delivery_reducer.py): admission, the
      transition matrix, every handler, the lifecycle commands and the
      materialization of effects.  [DeliverySteps], [DeliveryRuns],
      [DeliveryLedger]: what one step changes, runs as sequences of admitted
      events and commands, and the invariant of the ledgers.  [DeliveryTotal],
      [DeliveryGates], [DeliveryProps]: the properties.
      [DeliveryApproval] (the same contracts file): initiations, and plans
      against them.  [DeliveryCompiler] (builderops/delivery_plan_compiler.py):
      snapshots, every check with its refusal, cycles, overlaps, waves,
      exclusions and the compiled plan.  [DeliveryGraph]: the search for
      cycles, the propagation of refusals and waves.  [DeliveryScreen]: what an
      Issue without a refusal passed.  [DeliveryPlanProps],
      [DeliveryPlanTotal]: compiled plans, their runs, and that the compiler
      answers.  [DeliveryExample]: a compiled plan and its run from claim to
      delivery, to which the theorems are applied.

    ** Conventions

    Calls that only compute return [res]; calls on shared state are in the
    monad [ST], whose state survives an exception.  Frozen dataclasses are
    records; [Any] and JSON documents are [pyval]; a [str] holds the code
    points 0-255.  Messages of exceptions are kept without their interpolated
    parts.  Injected callables, as the kernel's resolver, policy evaluator,
    token validator, version checker and owner handlers, are fields of a
    record and may answer anything or raise.  SHA-256 is a parameter (a
    function from text to text; no property assumes more of it than that).
    Readings of the clock and random identifiers are arguments, one per
    reading, so a property over all arguments covers every clock.  Locks
    (thread locks, file locks, [BEGIN IMMEDIATE]) are the atomicity of the
    call or section they guard; sections that hold no common lock are separate
    steps, and the interleaving properties quantify over all their orders.  Two
    exceptions are stated where they matter: the dispatcher calls that span
    several transactions ([DispatcherInv.undisturbed_call]) and the calls of
    the kernel among themselves, which the lock of their request id serializes.
    Fuel is used in two places.  In the mutual recursion of
    [validate_reducer_event_evidence] and [validate_reducer_effect_evidence]
    every effect on the chain is older than the one before, so one level per
    supplied effect is enough ([DeliverySteps.evidence_settled] shows that more
    changes nothing).  The [while] loops of the plan compiler get one round per
    Issue, the search for a cycle one visit per dependency
    ([DeliveryGraph.propagate_spec], [build_waves_spec] and [search_decides]
    show that this is enough).  Every other loop of the modelled code runs over
    a list or a range, so the functions are structurally recursive and total.
    Models with validators are a record and a function [X_make] that runs
    them; UUIDs are their canonical text.  What the decision store and the
    provisional models take from the host (path resolution, the local time
    zone, SHA-256 and the JSON form of a time) is the record [host].
    Floats are the Standard Library's [spec_float] at binary64.
    Where the order of system calls matters the code is a tree or sequence of
    them: [prog] for placements (any process may act between two calls, a call
    may fail, the program may never be resumed; a fault never claims that a
    name is missing or taken; [fsync] is a call that may fail, so process
    crashes are covered and power loss is not), [tx] for registry writes and
    [lx] for lease sections (a schedule lets each step happen, fail or kill the
    process).  The registry above its files is its front matter with a write
    that may fail before or after its commit; one call reads one state of the
    vault roots.  That front matter is what the rendered text reads back as
    holds only of readable snapshots ([RegistryCommit.readable]), which the
    theorems that depend on it assume: texts without surrounding white space,
    and YAML without three dashes in a row.  YAML and JSON readers are
    parameters with their round trip as hypothesis.  A lease attempt whose lock is lost loses it between steps, and
    a calm call is one that meets no fault.  Field constraints of pydantic in
    the delivery contracts (non-empty text, patterns, positive numbers) are
    only types here; the model validators are definitions, and parsing a
    contract again is running them again.  Timestamps of the contracts are
    compared as text, as the code does.  [fromisoformat] reads the extended
    ISO 8601 format with seconds, which is what the program writes; the other
    spellings Python accepts count as malformed.  [casefold] is [lower], which
    agrees with it on ASCII.  The verifier of product readiness answers with a
    verdict; an exception of it is not modelled.

    ** What the theorems show

    - Kernel: the owner runs at most once per request id in any sequence of
      calls with any faults, also after a crash; it runs only inside a live,
      unrevoked delegation that names operation and targets and under an
      admitting decision; success is answered only when durably recorded;
      a committed source effect is never forgotten; rebinding a request id
      conflicts; a replay returns the recorded outcome.  Both stores give one
      reservation per id.  Requests and outcomes survive serialization.
    - Batches: whatever other users of the journal do between the journal
      calls of a section (kernel calls in any phase among them), once a
      cancellation has returned no item is started that nobody had reserved
      before and no later kernel call runs its handler, and nothing counts as
      applied without the owner's receipts; nothing starts without the
      confirmed digest; recovery never loses observed
      evidence; what a preview admits, and that it can be confirmed; the
      counts and the status are exact.
    - Dispatcher: in every state reached by calls that are one transaction, and
      by undisturbed calls of several, a live lease belongs to one task and
      agrees with it; live leases block claims, survive the sweep and can
      be renewed by their holder; expired ones are reclaimed; snapshots do not
      touch leased work nor reopen closed work; selection returns a least
      eligible task; guards exclude; the two comparisons of instants, as text
      in SQL and as datetimes in Python, agree.  Two lemmas record
      behaviour the sources do not intend: the unfenced write of [release] and
      [unblock] on leased work.
    - Polling: the loop is bounded in attempts and sleeps; a fetch ends within
      a bound given by the page limit whatever the server answers; a pass is
      given only on complete evidence without a blocking finding.
    - Memory review: the shared queue gives every binding but the compatibility
      binding the board it would have alone; only promoted entries are recalled; a refused decision is
      rolled back exactly; decisions only progress, stay readable and are
      materialized at most once; decided candidates do not come back; a review
      request is recorded in queue and store or in neither.  A candidate id
      with surrounding white space is recorded but not found again.
    - Memory use: reconciliation does not depend on the order of receipts and
      is readable exactly for completed notes; promotion follows the decision;
      only asserted, accepted, current policy or preference memory authorizes
      a mutation; a recall is handed out only with its receipt.
    - Active contexts: a bearer means, for its whole life, the session it was
      created for, its generation only grows and it never outlives its expiry;
      while one selection is resolved, equal generations mean equal identities;
      a request's snapshot contains exactly the selected, registered and
      authorized bindings.  A run records that a denied resolution forgets the
      identity, after which a generation is reused.
    - Health and writes: the state is a closed form of the accepted samples;
      the history is bounded and current; an ordinary write passes only on a
      snapshot made by an evaluation that is at least as new and found the
      database up; an incident is captured once per outage; one timestamp
      without an offset makes every evaluation raise.  Issued tokens admit
      exactly their effect, bound tokens exactly their context, and a receipt
      leads back to the decision of the guard.
    - Placement: whatever fails, stops or interferes, no call gives an existing
      file outside the service's own state directory up, the note's inode stays reachable until the move is durably
      committed, an undisturbed recovery completes the move, and the answer
      that nothing was applied is true.
    - Registry: the write of a readable snapshot is atomic over its five files
      under any interruption of it and of its recoveries; what a call returned,
      if it is readable, is what its bytes and later loads read back.  Two
      lemmas record what happens otherwise: three dashes in a value cut the
      document off, and the interrupted write of a padded vault name is refused
      by every recovery.  Also,
      the settings rebind record only advances; updates of dimensions act as
      one step on the registry they commit to, and members stay registered.
    - Effect leases: exclusive windows exclude every other, nobody overtakes a
      waiting exclusive request, what crashed processes leave is recovered and
      entry succeeds again, and the registry store serves what the leases rely
      on.
    - Delivery runs: from any reachable state the reducer answers without
      raising; a delivered Issue passed every gate in order, at one pull
      request and head; a cancelled run reports every effect it ever proposed
      that is not proven uncommitted; a worker is launched once per Issue.
      Short runs record that the claim a resume proposes is refused when it
      succeeds, and that a late failure hides a committed claim.
    - Delivery plans: the compiler answers on every valid initiation with
      orderly exclusions, with a plan or with refusals; each requested Issue is
      planned or refused, never both; a planned Issue passed every check and no
      two of them touch overlapping paths; in every run of a compiled plan no
      effect of an Issue is proposed before its dependencies are delivered.
      Three initiations record exclusions on which the compiler raises.
    - Domain: normalization lands in the canonical vocabularies and is stable;
      promotion payloads are coherent and normalization of them idempotent;
      commitment mutations need a complete receipt; the commitment query is a
      stable descending sort.

    Every property with hypotheses is applied at a concrete run, in the module
    [...Run] at the end of its file.

    ** Not modelled

    Code whose effects lie outside the program: GitHub synchronization, the
    command line and HTTP front ends, process containment, model calls,
    embeddings, file watching and database migrations.  The owners behind the
    kernel's handlers appear as its parameters, and so does the writer that
    materializes a promoted memory.  Of [post_memory_review_decision] the part
    after the promotion is recorded is left out, and of
    dispatcher/poll_backoff.py the reading of Retry-After headers and the call
    of the gh program.  What a health evaluation reads (settings, stores, the
    index, the outbox file, the watcher's heartbeat) is given.  The derivation
    of the principal is left out.  Of the registry the migration of legacy
    documents, the scalar rollback session and the activation of a settings
    rebind are left out, of the leases the detection of forks and of process
    identities, and the ownership ledger beside the registry.  Of the delivery
    contracts the receipts, runtime observations and the replay of sidecar
    files are left out; the text grammar of Issue contracts
    (issue_contract_validation.py) is a parameter of the compiler.  Operation
    owners other than placement, the materialization of promoted memory and its
    retrieval, the dispatcher's verification runs and release channels keep
    their logic in files, subprocesses and service calls and are not modelled. *)
From Stdlib Require Import QArith.
From stdpp Require Export base tactics option list strings gmap pretty.
#[export] Set Warnings "-notation-overridden".

(** ** Exceptions and results

    A Python call either returns a value or raises.  The exception classes are
    the ones the modelled code raises or lets escape; the payload is the
    message (or the missing key).  [RegistryException] is [RegistryError] and its
    subclasses, [DimensionResolutionError] one with fields of its own.  A denied binding carries the fields of its
    verdict and of the invalidation descriptor attached to the error. *)
Inductive registry_error : Type :=
  | RegistryErr | RevisionConflict | DefaultConflict | CapabilityNotReady
  | BackgroundIntentErr | VaultDimensionErr | ParseErr | SecurityErr.
Inductive exn : Type :=
  | ValueError (msg : string)
  | KeyError (key : string)
  | TypeError (msg : string)
  | AttributeError (msg : string)
  | OSError (msg : string)
  | FileNotFoundError
  | FileExistsError
  | KnowledgeCapabilityError (msg : string)
  | KnowledgeWriteConflict (msg : string)
  | RegistryException (cls : registry_error) (msg : string)
  | DimensionResolutionError (reason dimension_id : string) (vault_binding_id : option string)
  | IntegrityError (msg : string)
  | AssertionError (msg : string)
  | BatchStateUnavailable (msg : string)
  | ReviewQueueError (msg : string)
  | PromotionError (msg : string)
  | ReviewDecisionStoreError (msg : string)
  | HTTPException (status : Z) (error : string)
  | BindingAuthorizationError (verdict : string * string * string * string)
      (invalidation : string * Z * Z * string * string)
  | OtherException (msg : string).

Inductive res (A : Type) : Type :=
  | Ok (a : A)
  | Raise (e : exn).
Arguments Ok {A} a.
Arguments Raise {A} e.

#[export] Instance registry_error_eq_dec : EqDecision registry_error.
Proof. solve_decision. Defined.
#[export] Instance exn_eq_dec : EqDecision exn.
Proof. solve_decision. Defined.
#[export] Instance res_eq_dec {A} `{EqDecision A} : EqDecision (res A).
Proof. solve_decision. Defined.

#[export] Instance res_ret : MRet res := @Ok.
#[export] Instance res_bind : MBind res := fun A B f c =>
  match c with Ok a => f a | Raise e => Raise e end.
#[export] Instance res_fmap : FMap res := fun A B f c =>
  match c with Ok a => Ok (f a) | Raise e => Raise e end.

#[export] Instance Ok_inj A : Inj (=) (=) (@Ok A).
Proof. by intros x y [= ->]. Qed.

(** [sequence] for a comprehension whose element expression can raise: the
    first exception, left to right, wins. *)
Fixpoint mapM_res {A B} (f : A -> res B) (l : list A) : res (list B) :=
  match l with
  | [] => Ok []
  | x :: l => y ← f x; ys ← mapM_res f l; Ok (y :: ys)
  end.

Definition is_ok {A} (r : res A) : bool := match r with Ok _ => true | Raise _ => false end.

Lemma bind_ok {A B} (f : A -> res B) (c : res A) b :
  (c ≫= f) = Ok b <-> exists a, c = Ok a /\ f a = Ok b.
Proof. destruct c as [a|e]; simpl; split; [eauto| |done|]; naive_solver. Qed.

Lemma mapM_res_map {A B} (f : A -> res B) (g : A -> B) (l : list A) :
  Forall (fun x => f x = Ok (g x)) l -> mapM_res f l = Ok (map g l).
Proof. induction 1 as [|x l Hx _ IH]; simpl; [done|]. by rewrite Hx; simpl; rewrite IH. Qed.

(** ** Tactics *)

(** Case analysis on every [match]/[if] that blocks the goal or a hypothesis,
    keeping the equation. *)
Ltac split_match :=
  match goal with
  | |- context [match ?x with _ => _ end] =>
      match x with context [match _ with _ => _ end] => fail 1 | _ => destruct x eqn:? end
  | H : context [match ?x with _ => _ end] |- _ =>
      match x with context [match _ with _ => _ end] => fail 1 | _ => destruct x eqn:? end
  end.
Ltac split_matches := repeat (split_match; simplify_eq/=).

(** One bind of a successful computation: its value and its equation. *)
Tactic Notation "bound" hyp(H) "as" simple_intropattern(x) simple_intropattern(E) :=
  apply bind_ok in H as (x & E & H).

(** Booleans to propositions. *)
Ltac bool_prop :=
  repeat match goal with
  | H : (_ && _)%bool = true |- _ => apply andb_true_iff in H as [? ?]
  | H : (_ || _)%bool = false |- _ => apply orb_false_iff in H as [? ?]
  | H : negb _ = true |- _ => apply negb_true_iff in H
  | H : negb _ = false |- _ => apply negb_false_iff in H
  | H : String.eqb _ _ = true |- _ => apply String.eqb_eq in H
  | H : String.eqb _ _ = false |- _ => apply String.eqb_neq in H
  | H : bool_decide _ = true |- _ => apply bool_decide_eq_true in H
  | H : bool_decide _ = false |- _ => apply bool_decide_eq_false in H
  end.

(** Facts that close the leaves of proofs about dicts and strings. *)
Create HintDb pkm discriminated.

(** ** Generic lemmas on lists *)

Lemma existsb_eqb_In (s : string) l : existsb (String.eqb s) l = true <-> s ∈ l.
Proof.
  rewrite existsb_exists. split.
  - intros (x & Hin & ->%String.eqb_eq). by apply list_elem_of_In.
  - intros Hin. exists s. split; [by apply list_elem_of_In|apply String.eqb_refl].
Qed.

(** [tuple(dict.fromkeys(l))]: drop later duplicates, keep first-seen order. *)
Fixpoint dedup_from (seen l : list string) : list string :=
  match l with
  | [] => []
  | x :: l => if existsb (String.eqb x) seen then dedup_from seen l
              else x :: dedup_from (x :: seen) l
  end.
Definition dict_fromkeys (l : list string) : list string := dedup_from [] l.

Lemma dedup_from_elem seen l x : x ∈ dedup_from seen l <-> x ∈ l /\ x ∉ seen.
Proof.
  revert seen. induction l as [|y l IH]; intros seen; simpl.
  - split; [inversion 1 | intros [H _]; inversion H].
  - destruct (existsb (String.eqb y) seen) eqn:E.
    + apply existsb_eqb_In in E. rewrite IH, elem_of_cons. naive_solver.
    + assert (y ∉ seen) by (intros H%existsb_eqb_In; congruence).
      rewrite elem_of_cons, IH, !elem_of_cons.
      destruct (decide (x = y)); naive_solver.
Qed.

Lemma dedup_from_NoDup seen l : NoDup (dedup_from seen l).
Proof.
  revert seen. induction l as [|y l IH]; intros seen; simpl; [constructor|].
  destruct (existsb (String.eqb y) seen); [apply IH|].
  constructor; [|apply IH]. rewrite dedup_from_elem, elem_of_cons. naive_solver.
Qed.

(** ** Ordered dicts

    A [dict] with keys of any decidable type: an association list in insertion
    order.  [od_set] replaces in place or appends, [od_pop] is [pop(k, None)]. *)
Section OrderedDict.
Context {K V : Type} `{EqDecision K}.

Fixpoint od_get (d : list (K * V)) (k : K) : option V :=
  match d with
  | [] => None
  | (k', v) :: d => if decide (k = k') then Some v else od_get d k
  end.
Fixpoint od_set (d : list (K * V)) (k : K) (v : V) : list (K * V) :=
  match d with
  | [] => [(k, v)]
  | (k', w) :: d => if decide (k = k') then (k', v) :: d else (k', w) :: od_set d k v
  end.
Definition od_pop (d : list (K * V)) (k : K) : list (K * V) :=
  List.filter (fun kv => negb (bool_decide (k = fst kv))) d.

Lemma od_get_set d k k' v :
  od_get (od_set d k v) k' = if decide (k = k') then Some v else od_get d k'.
Proof.
  induction d as [|[j w] d IH]; simpl; repeat case_decide; simplify_eq/=;
    repeat case_decide; congruence.
Qed.

Lemma od_get_pop d k k' :
  od_get (od_pop d k) k' = if decide (k = k') then None else od_get d k'.
Proof.
  induction d as [|[j w] d IH]; simpl; [by case_decide|].
  case_bool_decide; simpl; rewrite ?IH; repeat case_decide; congruence.
Qed.

Lemma od_get_elem d k v : od_get d k = Some v -> (k, v) ∈ d.
Proof.
  induction d as [|[j w] d IH]; simpl; [done|]. case_decide.
  - intros [= ->]. subst. by left.
  - intros ?. right. auto.
Qed.

Lemma od_set_elem d k v kv : kv ∈ od_set d k v -> kv = (k, v) \/ kv ∈ d.
Proof.
  induction d as [|[j w] d IH]; simpl.
  - rewrite list_elem_of_singleton. auto.
  - case_decide; subst; rewrite !elem_of_cons; naive_solver.
Qed.

Lemma od_pop_elem d k kv : kv ∈ od_pop d k -> kv ∈ d /\ k <> fst kv.
Proof.
  unfold od_pop. rewrite !list_elem_of_In, filter_In, negb_true_iff.
  intros [? ?%bool_decide_eq_false]. auto.
Qed.

Lemma od_set_keys d k v :
  map fst (od_set d k v) = if decide (k ∈ map fst d) then map fst d else map fst d ++ [k].
Proof.
  induction d as [|[j w] d IH]; cbn [od_set map fst app].
  { rewrite decide_False; [done|]. apply not_elem_of_nil. }
  destruct (decide (k = j)) as [->|Hne]; cbn [map fst].
  - rewrite decide_True; [done|]. by left.
  - rewrite IH. destruct (decide (k ∈ map fst d)) as [Hin|Hout].
    + rewrite decide_True; [done|]. by right.
    + rewrite decide_False; [done|]. rewrite elem_of_cons. naive_solver.
Qed.

(** Overwriting in place, appending and removing the last insertion. *)
Lemma od_set_set d k v w : od_set (od_set d k v) k w = od_set d k w.
Proof.
  induction d as [|[j x] d IH]; simpl; [by rewrite decide_True|].
  destruct (decide (k = j)); simpl; [by rewrite decide_True|].
  rewrite decide_False by done. by rewrite IH.
Qed.
Lemma od_set_get d k v : od_get d k = Some v -> od_set d k v = d.
Proof.
  induction d as [|[j x] d IH]; simpl; [done|].
  case_decide; [by intros [= ->]|]. intros E. by rewrite IH.
Qed.
Lemma od_set_new d k v : od_get d k = None -> od_set d k v = d ++ [(k, v)].
Proof.
  induction d as [|[j x] d IH]; simpl; [done|]. case_decide; [done|]. intros E. by rewrite IH.
Qed.
Lemma od_pop_new d k v : od_get d k = None -> od_pop (d ++ [(k, v)]) k = d.
Proof.
  unfold od_pop. induction d as [|[j x] d IH]; simpl; [by rewrite bool_decide_true|].
  case_decide; [done|]. intros E. rewrite bool_decide_false by done. simpl. by rewrite IH.
Qed.
Lemma od_set_app d d' k v : is_Some (od_get d k) -> od_set (d ++ d') k v = od_set d k v ++ d'.
Proof.
  induction d as [|[j x] d IH]; simpl; [by intros []|].
  case_decide; [done|]. intros E. simpl. by rewrite IH.
Qed.
End OrderedDict.
