(* ===== verification/PyValue.v ===== *)
(** * Python values

    The dynamically typed values the modelled code passes around ([Any],
    [Mapping[str, Any]], JSON documents), with the built-in operations the
    sources use: truthiness, [==], [dict] lookup and update, [str()],
    [str.strip], [str.lower] and [json.dumps].

    A [str] is a [String.string]: its characters are the code points 0-255.
    A [dict] is an insertion-ordered association list with [str] keys.  A
    finite [float] carries its exact rational value and the text [repr] prints
    for it.  Sets, non-[str] keys, infinities and NaN are not representable. *)
From Stdlib Require Import QArith Ascii Sorted.
From S2P Require Import Prelude.

Inductive pyval : Type :=
  | PNone
  | PBool (b : bool)
  | PInt (z : Z)
  | PFloat (q : Q) (repr : string)
  | PStr (s : string)
  | PList (l : list pyval)
  | PTuple (l : list pyval)
  | PDict (d : list (string * pyval)).

Abbreviation pydict := (list (string * pyval)).

(** Induction through the nested lists. *)
Section pyval_ind.
Context (P : pyval -> Prop).
Context (HNone : P PNone) (HBool : forall b, P (PBool b)) (HInt : forall z, P (PInt z))
  (HFloat : forall q r, P (PFloat q r)) (HStr : forall s, P (PStr s))
  (HList : forall l, Forall P l -> P (PList l))
  (HTuple : forall l, Forall P l -> P (PTuple l))
  (HDict : forall d, Forall (fun kv => P (snd kv)) d -> P (PDict d)).

Fixpoint pyval_deep_ind (v : pyval) : P v :=
  match v with
  | PNone => HNone
  | PBool b => HBool b
  | PInt z => HInt z
  | PFloat q r => HFloat q r
  | PStr s => HStr s
  | PList l => HList l ((fix go l := match l return Forall P l with
      | [] => Forall_nil_2 _ | x :: l => Forall_cons_2 _ _ _ (pyval_deep_ind x) (go l) end) l)
  | PTuple l => HTuple l ((fix go l := match l return Forall P l with
      | [] => Forall_nil_2 _ | x :: l => Forall_cons_2 _ _ _ (pyval_deep_ind x) (go l) end) l)
  | PDict d => HDict d ((fix go d := match d return Forall (fun kv => P (snd kv)) d with
      | [] => Forall_nil_2 _
      | kv :: d => Forall_cons_2 _ kv _ (pyval_deep_ind (snd kv)) (go d) end) d)
  end.
End pyval_ind.

#[export] Instance Q_eq_dec : EqDecision Q.
Proof. solve_decision. Defined.

#[export] Instance pyval_eq_dec : EqDecision pyval.
Proof.
  refine (fix go (a b : pyval) : Decision (a = b) :=
    match a, b with
    | PNone, PNone => left eq_refl
    | PBool x, PBool y => cast_if (decide (x = y))
    | PInt x, PInt y => cast_if (decide (x = y))
    | PFloat x r, PFloat y s => cast_if_and (decide (x = y)) (decide (r = s))
    | PStr x, PStr y => cast_if (decide (x = y))
    | PList x, PList y => cast_if (@decide (x = y) (@list_eq_dec _ go x y))
    | PTuple x, PTuple y => cast_if (@decide (x = y) (@list_eq_dec _ go x y))
    | PDict x, PDict y =>
        cast_if (@decide (x = y) (@list_eq_dec _ (@prod_eq_dec _ _ _ go) x y))
    | _, _ => right _
    end); clear go; abstract congruence.
Defined.

(** ** dict *)

Fixpoint dict_get {A} (d : list (string * A)) (k : string) : option A :=
  match d with
  | [] => None
  | (k', v) :: d => if String.eqb k k' then Some v else dict_get d k
  end.

(** [d[k] = v]: replaces in place, or appends. *)
Fixpoint dict_set {A} (d : list (string * A)) (k : string) (v : A) : list (string * A) :=
  match d with
  | [] => [(k, v)]
  | (k', w) :: d => if String.eqb k k' then (k', v) :: d else (k', w) :: dict_set d k v
  end.

(** [d.pop(k, None)]. *)
Fixpoint dict_pop {A} (d : list (string * A)) (k : string) : list (string * A) :=
  match d with
  | [] => []
  | (k', w) :: d => if String.eqb k k' then dict_pop d k else (k', w) :: dict_pop d k
  end.

(** [{**d, **e}]. *)
Definition dict_merge {A} (d e : list (string * A)) : list (string * A) :=
  foldl (fun acc kv => dict_set acc (fst kv) (snd kv)) d e.

Definition dict_mem {A} (d : list (string * A)) (k : string) : bool :=
  match dict_get d k with Some _ => true | None => false end.

(** [d.get(k)]: [None] when absent. *)
Definition get (d : pydict) (k : string) : pyval := default PNone (dict_get d k).

Lemma dict_get_set_eq {A} (d : list (string * A)) k v : dict_get (dict_set d k v) k = Some v.
Proof.
  induction d as [|[k' w] d IH]; simpl; [by rewrite String.eqb_refl|].
  destruct (String.eqb k k') eqn:E; simpl; by rewrite E.
Qed.

Lemma dict_get_set_ne {A} (d : list (string * A)) k k' v :
  k <> k' -> dict_get (dict_set d k v) k' = dict_get d k'.
Proof.
  intros Hne. assert (E : String.eqb k' k = false) by (by apply String.eqb_neq).
  induction d as [|[j w] d IH]; simpl; [by rewrite E|].
  destruct (String.eqb k j) eqn:Ej; simpl.
  - apply String.eqb_eq in Ej as <-. by rewrite E.
  - by rewrite IH.
Qed.

Lemma dict_get_pop_eq {A} (d : list (string * A)) k : dict_get (dict_pop d k) k = None.
Proof.
  induction d as [|[j w] d IH]; simpl; [done|].
  destruct (String.eqb k j) eqn:Ej; simpl; [done|by rewrite Ej].
Qed.

Lemma dict_get_pop_ne {A} (d : list (string * A)) k k' :
  k <> k' -> dict_get (dict_pop d k) k' = dict_get d k'.
Proof.
  intros Hne. induction d as [|[j w] d IH]; simpl; [done|].
  destruct (String.eqb k j) eqn:Ej; simpl.
  - apply String.eqb_eq in Ej as <-. rewrite IH.
    by rewrite (proj2 (String.eqb_neq k' k)).
  - by rewrite IH.
Qed.

Lemma dict_get_set {A} (d : list (string * A)) k k' v :
  dict_get (dict_set d k v) k' = if decide (k = k') then Some v else dict_get d k'.
Proof. case_decide; subst; [apply dict_get_set_eq|by apply dict_get_set_ne]. Qed.

Lemma dict_get_pop {A} (d : list (string * A)) k k' :
  dict_get (dict_pop d k) k' = if decide (k = k') then None else dict_get d k'.
Proof. case_decide; subst; [apply dict_get_pop_eq|by apply dict_get_pop_ne]. Qed.

Lemma dict_set_same {A} (d : list (string * A)) k v : dict_get d k = Some v -> dict_set d k v = d.
Proof.
  induction d as [|[j w] d IH]; simpl; [done|]. destruct (String.eqb k j).
  - by intros [= ->].
  - intros H. by rewrite IH.
Qed.
Lemma dict_pop_absent {A} (d : list (string * A)) k : dict_get d k = None -> dict_pop d k = d.
Proof.
  induction d as [|[j w] d IH]; simpl; [done|]. destruct (String.eqb k j); [done|].
  intros H. by rewrite IH.
Qed.
#[export] Hint Resolve dict_get_set_eq dict_get_pop_eq dict_set_same dict_pop_absent : pkm.

Lemma get_set d k k' v : get (dict_set d k v) k' = if decide (k = k') then v else get d k'.
Proof. unfold get. rewrite dict_get_set. by case_decide. Qed.

Lemma get_pop d k k' : get (dict_pop d k) k' = if decide (k = k') then PNone else get d k'.
Proof. unfold get. rewrite dict_get_pop. by case_decide. Qed.

(** ** Truthiness, isinstance, equality *)

Definition num (v : pyval) : option Q :=
  match v with
  | PBool b => Some (if b then 1 else 0)%Q
  | PInt z => Some (inject_Z z)
  | PFloat q _ => Some q
  | _ => None
  end.

Definition truthy (v : pyval) : bool :=
  match v with
  | PNone => false
  | PBool b => b
  | PInt z => negb (Z.eqb z 0)
  | PFloat q _ => negb (Qeq_bool q 0)
  | PStr s => negb (String.eqb s "")
  | PList l | PTuple l => match l with [] => false | _ => true end
  | PDict d => match d with [] => false | _ => true end
  end.

Definition is_none (v : pyval) : bool := match v with PNone => true | _ => false end.
Definition is_str (v : pyval) : bool := match v with PStr _ => true | _ => false end.
Definition is_mapping (v : pyval) : bool := match v with PDict _ => true | _ => false end.
Definition is_list (v : pyval) : bool := match v with PList _ => true | _ => false end.

(** [isinstance(v, int)]: [bool] is a subclass of [int]. *)
Definition is_int (v : pyval) : bool :=
  match v with PInt _ | PBool _ => true | _ => false end.

(** [isinstance(v, (list, tuple, set))]. *)
Definition as_seq (v : pyval) : option (list pyval) :=
  match v with PList l | PTuple l => Some l | _ => None end.

Definition py_or (v w : pyval) : pyval := if truthy v then v else w.

(** [a == b].  Numbers compare by value across [bool], [int] and [float];
    dicts compare without regard to order. *)
Fixpoint py_eqb (a b : pyval) {struct a} : bool :=
  match a, b with
  | PNone, PNone => true
  | PStr s, PStr t => String.eqb s t
  | PList xs, PList ys | PTuple xs, PTuple ys =>
      (fix go xs ys := match xs, ys with
        | [], [] => true
        | x :: xs, y :: ys => py_eqb x y && go xs ys
        | _, _ => false end) xs ys
  | PDict xs, PDict ys =>
      Nat.eqb (length xs) (length ys) &&
      (fix go xs := match xs with
        | [] => true
        | (k, v) :: xs =>
            match dict_get ys k with Some w => py_eqb v w | None => false end && go xs
        end) xs
  | _, _ => match num a, num b with Some p, Some q => Qeq_bool p q | _, _ => false end
  end.

(** [a in l]. *)
Definition py_in (a : pyval) (l : list pyval) : bool := existsb (py_eqb a) l.

Lemma py_eqb_str (s : string) (v : pyval) : py_eqb v (PStr s) = true <-> v = PStr s.
Proof.
  destruct v; simpl; try (split; [|intros]; congruence);
    try (destruct (num _); simpl; split; congruence).
  rewrite String.eqb_eq. split; congruence.
Qed.

Lemma py_eqb_str_l (s : string) (v : pyval) : py_eqb (PStr s) v = true <-> v = PStr s.
Proof. destruct v; simpl; rewrite ?String.eqb_eq; split; congruence. Qed.

Lemma py_in_str (s : string) (l : list pyval) : py_in (PStr s) l = true <-> PStr s ∈ l.
Proof.
  unfold py_in. rewrite existsb_exists. split.
  - intros (x & Hin & ->%py_eqb_str_l). by apply list_elem_of_In.
  - intros Hin. exists (PStr s). split; [by apply list_elem_of_In|by apply py_eqb_str].
Qed.

(** ** str *)

Definition code (c : ascii) : N := N_of_ascii c.

(** [str.isspace] on the code points 0-255. *)
Definition is_space (c : ascii) : bool :=
  let n := code c in
  ((9 <=? n) && (n <=? 13) || (28 <=? n) && (n <=? 32) || (n =? 133) || (n =? 160))%N%bool.

Fixpoint lstrip (s : string) : string :=
  match s with
  | EmptyString => EmptyString
  | String c r => if is_space c then lstrip r else s
  end.

Fixpoint str_rev (acc s : string) : string :=
  match s with EmptyString => acc | String c r => str_rev (String c acc) r end.

Definition strip (s : string) : string := str_rev "" (lstrip (str_rev "" (lstrip s))).

(** [str.lower] on the code points 0-255: A-Z and the Latin-1 capitals. *)
Definition lower_char (c : ascii) : ascii :=
  let n := code c in
  if ((65 <=? n) && (n <=? 90) || (192 <=? n) && (n <=? 222) && negb (n =? 215))%N%bool
  then ascii_of_N (n + 32) else c.

Fixpoint lower (s : string) : string :=
  match s with EmptyString => EmptyString | String c r => String (lower_char c) (lower r) end.

Fixpoint startswith (p s : string) : bool :=
  match p, s with
  | EmptyString, _ => true
  | String c p, String d s => Ascii.eqb c d && startswith p s
  | _, _ => false
  end.

Lemma append_cons c (a b : string) : String c a +:+ b = String c (a +:+ b).
Proof. reflexivity. Qed.
Lemma append_char c (s : string) : String c "" +:+ s = String c s.
Proof. reflexivity. Qed.
Lemma append_nil_r (s : string) : s +:+ "" = s.
Proof. induction s as [|c s IH]; [done|]. by rewrite append_cons, IH. Qed.
Lemma append_assoc (a b c : string) : (a +:+ b) +:+ c = a +:+ (b +:+ c).
Proof. induction a as [|x a IH]; [done|]. by rewrite !append_cons, IH. Qed.
Lemma append_inj (p a b : string) : p +:+ a = p +:+ b -> a = b.
Proof. induction p as [|c p IH]; [done|]. rewrite !append_cons. intros [= H]. auto. Qed.
Lemma startswith_app p s : startswith p (p +:+ s) = true.
Proof. induction p as [|c p IH]; simpl; [done|]. by rewrite Ascii.eqb_refl. Qed.

Lemma str_rev_acc acc s : str_rev acc s = str_rev "" s +:+ acc.
Proof.
  revert acc. induction s as [|c s IH]; intros acc; [done|]. cbn [str_rev].
  rewrite (IH (String c acc)), (IH (String c "")). by rewrite append_assoc.
Qed.
Lemma str_rev_app a b : str_rev "" (a +:+ b) = str_rev "" b +:+ str_rev "" a.
Proof.
  induction a as [|c a IH]; [symmetry; apply append_nil_r|].
  rewrite append_cons. cbn [str_rev].
  by rewrite str_rev_acc, IH, (str_rev_acc (String c "") a), <- append_assoc.
Qed.
Lemma str_rev_involutive s : str_rev "" (str_rev "" s) = s.
Proof.
  induction s as [|c s IH]; [done|]. cbn [str_rev]. by rewrite (str_rev_acc (String c "")), str_rev_app, IH.
Qed.

(** The first character, if any, is not a space. *)
Definition head_ok (s : string) : Prop :=
  match s with EmptyString => True | String c _ => is_space c = false end.

Lemma lstrip_head s : head_ok (lstrip s).
Proof. induction s as [|c s IH]; simpl; [done|]. by destruct (is_space c) eqn:E. Qed.
Lemma lstrip_id s : head_ok s -> lstrip s = s.
Proof. destruct s as [|c s]; simpl; [done|]. by intros ->. Qed.
Lemma lstrip_suffix s : exists p, s = p +:+ lstrip s.
Proof.
  induction s as [|c s [p IH]]; [by exists ""|]. simpl. destruct (is_space c).
  - exists (String c p). by rewrite append_cons, <- IH.
  - by exists "".
Qed.

Lemma strip_idem s : strip (strip s) = strip s.
Proof.
  unfold strip. set (a := lstrip s).
  assert (Ha : head_ok a) by apply lstrip_head.
  destruct (lstrip_suffix (str_rev "" a)) as [p Hp]. set (b := lstrip (str_rev "" a)) in *.
  apply (f_equal (str_rev "")) in Hp. rewrite str_rev_involutive, str_rev_app in Hp.
  rewrite (lstrip_id (str_rev "" b)).
  - rewrite str_rev_involutive, (lstrip_id b); [done|apply lstrip_head].
  - destruct (str_rev "" b) as [|c t]; [done|]. rewrite Hp in Ha. exact Ha.
Qed.

(** A change of characters that keeps the spaces commutes with [strip]. *)
Fixpoint str_map (f : ascii -> ascii) (s : string) : string :=
  match s with EmptyString => EmptyString | String c s => String (f c) (str_map f s) end.
Lemma str_map_app f a b : str_map f (a +:+ b) = str_map f a +:+ str_map f b.
Proof. induction a as [|c a IH]; [done|]. rewrite append_cons. cbn [str_map]. by rewrite IH. Qed.
Lemma str_map_rev f s : str_map f (str_rev "" s) = str_rev "" (str_map f s).
Proof.
  induction s as [|c s IH]; [done|]. cbn [str_rev str_map].
  by rewrite (str_rev_acc (String c "")), str_map_app, IH, (str_rev_acc (String _ "")).
Qed.
Lemma str_map_strip f s :
  (forall c, is_space (f c) = is_space c) -> str_map f (strip s) = strip (str_map f s).
Proof.
  intros H. assert (Hl : forall s, str_map f (lstrip s) = lstrip (str_map f s)).
  { intros u. induction u as [|c u IH]; cbn; [done|]. rewrite H. by destruct (is_space c). }
  unfold strip. by rewrite str_map_rev, Hl, str_map_rev, Hl.
Qed.

(** [p in s] for strings. *)
Fixpoint substring (p s : string) : bool :=
  startswith p s || match s with EmptyString => false | String _ s => substring p s end.

Fixpoint str_drop (n : nat) (s : string) : string :=
  match n, s with
  | O, _ => s
  | S n, String _ s => str_drop n s
  | S _, EmptyString => EmptyString
  end.
Fixpoint str_take (n : nat) (s : string) : string :=
  match n, s with
  | O, _ | _, EmptyString => EmptyString
  | S n, String c s => String c (str_take n s)
  end.

Fixpoint join (sep : string) (l : list string) : string :=
  match l with
  | [] => ""
  | [x] => x
  | x :: l => x +:+ sep +:+ join sep l
  end.

Definition hex_digit (n : N) : ascii := ascii_of_N (if (n <? 10)%N then 48 + n else 87 + n).
Definition hex2 (c : ascii) : string :=
  String (hex_digit (code c / 16)) (String (hex_digit (code c mod 16)) "").

Definition dquote : ascii := "034"%char.
Definition squote : ascii := "039"%char.
Definition backslash : ascii := "092"%char.

Fixpoint concat_map (f : ascii -> string) (s : string) : string :=
  match s with EmptyString => EmptyString | String c r => f c +:+ concat_map f r end.

Definition esc (c : ascii) : string := String backslash (String c "").

(** The body of [repr(s)] once its quote character is chosen. *)
Definition repr_char (q : ascii) (c : ascii) : string :=
  let n := code c in
  if Ascii.eqb c q || Ascii.eqb c backslash then esc c
  else if (n =? 10)%N then esc "n"%char
  else if (n =? 13)%N then esc "r"%char
  else if (n =? 9)%N then esc "t"%char
  else if ((n <? 32) || (127 <=? n) && (n <=? 160) || (n =? 173))%N%bool
  then String backslash (String "x"%char (hex2 c))
  else String c "".

Definition has_char (c : ascii) (s : string) : bool := substring (String c "") s.

Definition repr_str (s : string) : string :=
  let q := if has_char squote s && negb (has_char dquote s) then dquote else squote in
  String q (concat_map (repr_char q) s +:+ String q "").

Fixpoint repr (v : pyval) : string :=
  match v with
  | PNone => "None"
  | PBool b => if b then "True" else "False"
  | PInt z => pretty z
  | PFloat _ r => r
  | PStr s => repr_str s
  | PList l => "[" +:+ join ", " (map repr l) +:+ "]"
  | PTuple l =>
      match l with
      | [x] => "(" +:+ repr x +:+ ",)"
      | _ => "(" +:+ join ", " (map repr l) +:+ ")"
      end
  | PDict d =>
      "{" +:+ join ", " (map (fun kv => repr_str (fst kv) +:+ ": " +:+ repr (snd kv)) d) +:+ "}"
  end.

(** [str(v)]. *)
Definition py_str (v : pyval) : string := match v with PStr s => s | _ => repr v end.

(** ** json *)

(** [sort_keys=True]: a stable sort of the items by key. *)
Fixpoint ins_key {A} (kv : string * A) (d : list (string * A)) : list (string * A) :=
  match d with
  | [] => [kv]
  | kv' :: d' => if String.leb (fst kv) (fst kv') then kv :: d else kv' :: ins_key kv d'
  end.
Fixpoint sort_keys {A} (d : list (string * A)) : list (string * A) :=
  match d with [] => [] | kv :: d => ins_key kv (sort_keys d) end.

Definition json_char (ensure_ascii : bool) (c : ascii) : string :=
  let n := code c in
  if Ascii.eqb c dquote || Ascii.eqb c backslash then esc c
  else if (n =? 10)%N then esc "n"%char
  else if (n =? 13)%N then esc "r"%char
  else if (n =? 9)%N then esc "t"%char
  else if (n =? 8)%N then esc "b"%char
  else if (n =? 12)%N then esc "f"%char
  else if ((n <? 32) || ensure_ascii && (126 <? n))%N%bool
  then String backslash ("u00" +:+ hex2 c)
  else String c "".

Definition json_str (ensure_ascii : bool) (s : string) : string :=
  String dquote (concat_map (json_char ensure_ascii) s +:+ String dquote "").

(** [json.dumps(v, sort_keys=True, separators=(isep, ksep), ensure_ascii=ea)]. *)
Fixpoint json_dumps (isep ksep : string) (ea : bool) (v : pyval) : string :=
  match v with
  | PNone => "null"
  | PBool b => if b then "true" else "false"
  | PInt z => pretty z
  | PFloat _ r => r
  | PStr s => json_str ea s
  | PList l | PTuple l => "[" +:+ join isep (map (json_dumps isep ksep ea) l) +:+ "]"
  | PDict d =>
      "{" +:+ join isep (map (fun kt => json_str ea (fst kt) +:+ ksep +:+ snd kt)
                (sort_keys (map (fun kv => (fst kv, json_dumps isep ksep ea (snd kv))) d)))
      +:+ "}"
  end.

(** The value a document written with [sort_keys=True] parses back to: keys
    sorted at every level and tuples read back as lists. *)
Fixpoint json_norm (v : pyval) : pyval :=
  match v with
  | PList l | PTuple l => PList (map json_norm l)
  | PDict d => PDict (sort_keys (map (fun kv => (fst kv, json_norm (snd kv))) d))
  | _ => v
  end.
Definition json_norm_dict (d : pydict) : pydict :=
  sort_keys (map (fun kv => (fst kv, json_norm (snd kv))) d).

(** ** Attribute and item access that can raise *)

(** [v[k]] for a string key. *)
Definition getitem (v : pyval) (k : string) : res pyval :=
  match v with
  | PDict d => match dict_get d k with Some w => Ok w | None => Raise (KeyError k) end
  | _ => Raise (TypeError "indices must be integers")
  end.

(** [v.get(k, dflt)]. *)
Definition getattr_get (v : pyval) (k : string) (dflt : pyval) : res pyval :=
  match v with
  | PDict d => Ok (default dflt (dict_get d k))
  | _ => Raise (AttributeError "get")
  end.

(** [k in v] for a string [k]. *)
Definition contains (v : pyval) (k : string) : res bool :=
  match v with
  | PDict d => Ok (dict_mem d k)
  | PList l | PTuple l => Ok (py_in (PStr k) l)
  | PStr s => Ok (substring k s)
  | _ => Raise (TypeError "argument is not iterable")
  end.

(** [dict(v)]: a mapping is copied; a sequence is read as key/value pairs. *)
Fixpoint dict_of_pairs (l : list pyval) (acc : pydict) : res pydict :=
  match l with
  | [] => Ok acc
  | x :: l =>
      match x with
      | PList [PStr k; v] | PTuple [PStr k; v] => dict_of_pairs l (dict_set acc k v)
      | PStr (String a (String b EmptyString)) =>
          dict_of_pairs l (dict_set acc (String a "") (PStr (String b "")))
      | PList _ | PTuple _ | PStr _ | PDict _ =>
          Raise (ValueError "dictionary update sequence element has the wrong length")
      | _ => Raise (TypeError "cannot convert dictionary update sequence element to a sequence")
      end
  end.

Definition py_dict (v : pyval) : res pydict :=
  match v with
  | PDict d => Ok d
  | PList l | PTuple l => dict_of_pairs l []
  | PStr "" => Ok []
  | PStr _ => Raise (ValueError "dictionary update sequence element has the wrong length")
  | _ => Raise (TypeError "object is not iterable")
  end.

(** Iteration [for x in v]. *)
Fixpoint chars (s : string) : list pyval :=
  match s with EmptyString => [] | String c s => PStr (String c "") :: chars s end.
Definition py_iter (v : pyval) : res (list pyval) :=
  match v with
  | PList l | PTuple l => Ok l
  | PDict d => Ok (map (fun kv => PStr (fst kv)) d)
  | PStr s => Ok (chars s)
  | _ => Raise (TypeError "object is not iterable")
  end.

(** ** Lemmas on sorted documents *)

Lemma dict_get_ins {A} (kv : string * A) d k :
  dict_get (ins_key kv d) k = dict_get (kv :: d) k.
Proof.
  destruct kv as [j v]. induction d as [|[j' v'] d IH]; [done|]; cbn [ins_key fst].
  destruct (String.leb j j') eqn:L; [done|]. simpl in *. rewrite IH.
  destruct (String.eqb k j) eqn:E1, (String.eqb k j') eqn:E2; try done.
  bool_prop; subst. destruct (String.leb_total j' j'); congruence.
Qed.

Lemma dict_get_sort {A} (d : list (string * A)) k : dict_get (sort_keys d) k = dict_get d k.
Proof.
  induction d as [|[j v] d IH]; [done|]. simpl sort_keys. rewrite dict_get_ins. simpl.
  by rewrite IH.
Qed.

Lemma dict_get_map {A B} (f : A -> B) (d : list (string * A)) k :
  dict_get (map (fun kv => (fst kv, f (snd kv))) d) k = f <$> dict_get d k.
Proof. induction d as [|[j v] d IH]; [done|]. simpl. by destruct (String.eqb k j). Qed.

(** Reading a key of a stored document gives the stored form of that key's value. *)
Lemma json_norm_dict_get d k : dict_get (json_norm_dict d) k = json_norm <$> dict_get d k.
Proof. unfold json_norm_dict. by rewrite dict_get_sort, dict_get_map. Qed.
Lemma get_norm d k : get (json_norm_dict d) k = json_norm (get d k).
Proof. unfold get. rewrite json_norm_dict_get. by destruct (dict_get d k). Qed.

Definition key_sorted {A} (d : list (string * A)) : Prop :=
  StronglySorted (fun a b => String.leb (fst a) (fst b) = true) d.

Lemma leb_trans a b c : String.leb a b = true -> String.leb b c = true -> String.leb a c = true.
Proof.
  intros Hab Hbc. apply Is_true_true. etrans; [apply Is_true_true, Hab|apply Is_true_true, Hbc].
Qed.

Lemma leb_false a b : String.leb a b = false -> String.leb b a = true.
Proof. intros H. destruct (String.leb_total a b) as [?|?]; congruence. Qed.

Lemma ins_key_elem {A} (kv x : string * A) d : x ∈ ins_key kv d <-> x = kv \/ x ∈ d.
Proof.
  induction d as [|y d IH]; simpl; [by rewrite elem_of_cons|].
  destruct (String.leb (fst kv) (fst y)); rewrite !elem_of_cons; [done|]. rewrite IH. tauto.
Qed.

Lemma ins_key_sorted {A} (kv : string * A) d : key_sorted d -> key_sorted (ins_key kv d).
Proof.
  unfold key_sorted. induction 1 as [|y d Hs IH Hall]; simpl.
  - repeat constructor.
  - destruct (String.leb (fst kv) (fst y)) eqn:L.
    + constructor; [by constructor|]. constructor; [done|].
      eapply Forall_impl; [exact Hall|]. intros z Hz. by eapply leb_trans.
    + constructor; [done|]. apply Forall_forall. intros z.
      intros [->|Hz]%ins_key_elem; [by apply leb_false|].
      by apply (proj1 (Forall_forall _ _) Hall).
Qed.

Lemma sort_keys_sorted {A} (d : list (string * A)) : key_sorted (sort_keys d).
Proof. induction d; simpl; [constructor|by apply ins_key_sorted]. Qed.

Lemma sort_keys_id {A} (d : list (string * A)) : key_sorted d -> sort_keys d = d.
Proof.
  induction 1 as [|y d Hs IH Hall]; simpl; [done|]. rewrite IH.
  destruct d as [|z d]; [done|]. simpl. inversion Hall as [|?? Hz]; subst. by rewrite Hz.
Qed.

Lemma ins_key_map {A B} (f : A -> B) (kv : string * A) d :
  ins_key (fst kv, f (snd kv)) (map (fun kv => (fst kv, f (snd kv))) d)
  = map (fun kv => (fst kv, f (snd kv))) (ins_key kv d).
Proof.
  induction d as [|y d IH]; simpl; [done|].
  destruct (String.leb (fst kv) (fst y)); simpl; [done|]. by rewrite IH.
Qed.

Lemma sort_keys_map {A B} (f : A -> B) (d : list (string * A)) :
  sort_keys (map (fun kv => (fst kv, f (snd kv))) d)
  = map (fun kv => (fst kv, f (snd kv))) (sort_keys d).
Proof. induction d as [|y d IH]; [done|]. simpl. rewrite IH. apply ins_key_map. Qed.

Lemma sort_keys_idem {A} (d : list (string * A)) : sort_keys (sort_keys d) = sort_keys d.
Proof. apply sort_keys_id, sort_keys_sorted. Qed.

(** Storing a stored document changes nothing more. *)
Lemma json_norm_idem v : json_norm (json_norm v) = json_norm v.
Proof.
  induction v as [| | | | |l IH|l IH|d IH] using pyval_deep_ind; simpl; try done; f_equal.
  1, 2: rewrite map_map; by apply map_ext_Forall.
  rewrite (sort_keys_map json_norm (sort_keys _)), sort_keys_idem.
  rewrite <- (sort_keys_map json_norm), map_map. f_equal.
  apply map_ext_Forall. eapply Forall_impl; [exact IH|]. intros [k w] E; simpl in *. by rewrite E.
Qed.

Lemma json_norm_dict_idem d : json_norm_dict (json_norm_dict d) = json_norm_dict d.
Proof.
  pose proof (json_norm_idem (PDict d)) as H. simpl in H. by injection H.
Qed.
