(* ===== verification/Contracts.v ===== *)
(** * The [ygg.operation.v1] vocabulary (src/app/operations/contracts.py)

    The frozen dataclasses of the operation envelope with their [to_dict] and
    [from_dict] methods.  A [Mapping[str, Any]] field is a [pydict]; a field
    typed [str | int | None] is a [pyval], because [from_dict] stores whatever
    it reads.  [from_dict] can raise, so it returns a [res].

    The file ends with the round trips: directly ([from_dict] after [to_dict])
    and through the JSON journal, which sorts keys and reads tuples back as
    lists. *)
From S2P Require Import Prelude PyValue.

(** ** Enumerations *)

Inductive OperationStatus : Type :=
  | SUCCEEDED | REJECTED | CONFLICTED | NOT_FOUND | INVALID | NOT_SUPPORTED
  | NOT_ACKNOWLEDGED | RECOVERY_REQUIRED | CONVERGENCE_PENDING | DEGRADED_READ.

Inductive CapabilitySupport : Type := SUPPORTED | POLICY_DISABLED | UNAVAILABLE.

Inductive SourceEffectStatus : Type := NOT_APPLIED | COMMITTED | UNKNOWN.

Inductive ConvergenceState : Type :=
  | NOT_REQUIRED | PENDING | CONVERGED | DEGRADED | REBUILD_REQUIRED.

Inductive ReceiptStatus : Type := RECEIPT_PENDING | RECEIPT_COMMITTED | RECEIPT_FAILED.

#[export] Instance OperationStatus_eq_dec : EqDecision OperationStatus.
Proof. solve_decision. Defined.
#[export] Instance SourceEffectStatus_eq_dec : EqDecision SourceEffectStatus.
Proof. solve_decision. Defined.
#[export] Instance ConvergenceState_eq_dec : EqDecision ConvergenceState.
Proof. solve_decision. Defined.
#[export] Instance ReceiptStatus_eq_dec : EqDecision ReceiptStatus.
Proof. solve_decision. Defined.
#[export] Instance CapabilitySupport_eq_dec : EqDecision CapabilitySupport.
Proof. solve_decision. Defined.

(** [member.value]. *)
Definition OperationStatus_value (s : OperationStatus) : string :=
  match s with
  | SUCCEEDED => "succeeded"
  | REJECTED => "rejected"
  | CONFLICTED => "conflicted"
  | NOT_FOUND => "not_found"
  | INVALID => "invalid"
  | NOT_SUPPORTED => "not_supported"
  | NOT_ACKNOWLEDGED => "not_acknowledged"
  | RECOVERY_REQUIRED => "recovery_required"
  | CONVERGENCE_PENDING => "convergence_pending"
  | DEGRADED_READ => "degraded_read"
  end.
Definition SourceEffectStatus_value (s : SourceEffectStatus) : string :=
  match s with
  | NOT_APPLIED => "not_applied" | COMMITTED => "committed" | UNKNOWN => "unknown"
  end.
Definition ConvergenceState_value (s : ConvergenceState) : string :=
  match s with
  | NOT_REQUIRED => "not_required" | PENDING => "pending" | CONVERGED => "converged"
  | DEGRADED => "degraded" | REBUILD_REQUIRED => "rebuild_required"
  end.
Definition ReceiptStatus_value (s : ReceiptStatus) : string :=
  match s with
  | RECEIPT_PENDING => "pending" | RECEIPT_COMMITTED => "committed"
  | RECEIPT_FAILED => "failed"
  end.

(** [EnumClass(v)]: the member with that value, [ValueError] otherwise. *)
Definition enum_lookup {A} (value : A -> string) (members : list A) (v : pyval) : res A :=
  match v with
  | PStr s =>
      match List.find (fun m => String.eqb s (value m)) members with
      | Some m => Ok m
      | None => Raise (ValueError "not a valid enum value")
      end
  | _ => Raise (ValueError "not a valid enum value")
  end.

Definition OperationStatus_of : pyval -> res OperationStatus :=
  enum_lookup OperationStatus_value
    [SUCCEEDED; REJECTED; CONFLICTED; NOT_FOUND; INVALID; NOT_SUPPORTED;
     NOT_ACKNOWLEDGED; RECOVERY_REQUIRED; CONVERGENCE_PENDING; DEGRADED_READ].
Definition SourceEffectStatus_of : pyval -> res SourceEffectStatus :=
  enum_lookup SourceEffectStatus_value [NOT_APPLIED; COMMITTED; UNKNOWN].
Definition ConvergenceState_of : pyval -> res ConvergenceState :=
  enum_lookup ConvergenceState_value
    [NOT_REQUIRED; PENDING; CONVERGED; DEGRADED; REBUILD_REQUIRED].
Definition ReceiptStatus_of : pyval -> res ReceiptStatus :=
  enum_lookup ReceiptStatus_value [RECEIPT_PENDING; RECEIPT_COMMITTED; RECEIPT_FAILED].

(** ** Dataclasses *)

Record OperationContext : Type := mkContext {
  ctx_active_context_ref : string;
  ctx_vault_generation : pyval;
  ctx_extensions : pydict }.

Record OperationProvenance : Type := mkProvenance {
  prov_actor : string;
  prov_client : string;
  prov_surface : string;
  prov_delegation : option pydict;
  prov_extensions : pydict }.

Record OperationConvergence : Type := mkConvergence {
  conv_source_effect : SourceEffectStatus;
  conv_store : ConvergenceState;
  conv_index : ConvergenceState;
  conv_link : ConvergenceState;
  conv_extensions : pydict }.

Record OperationItemOutcome : Type := mkItem {
  item_resource_id : option string;
  item_status : option OperationStatus;
  item_input_version : pyval;
  item_resulting_version : pyval;
  item_payload : pydict;
  item_extensions : pydict }.

Record OperationConflict : Type := mkConflict {
  cf_resource_id : option string;
  cf_expected_version : pyval;
  cf_observed_version : pyval;
  cf_payload : pydict;
  cf_extensions : pydict }.

Record OperationReceipt : Type := mkReceipt {
  rc_receipt_id : option string;
  rc_status : ReceiptStatus;
  rc_payload : pydict;
  rc_extensions : pydict }.

Record OperationRecovery : Type := mkRecovery {
  rv_action : string;
  rv_instructions : option string;
  rv_payload : pydict;
  rv_extensions : pydict }.

Record OperationRequest : Type := mkRequest {
  rq_operation_id : string;
  rq_request_id : string;
  rq_context : OperationContext;
  rq_targets : list pydict;
  rq_arguments : pydict;
  rq_operation_version : string;
  rq_mode : string;
  rq_expected_version : pyval;
  rq_delegation : option pydict;
  rq_batch_policy : option pydict;
  rq_provenance : option OperationProvenance;
  rq_extensions : pydict }.

Record OperationOutcome : Type := mkOutcome {
  oc_request_id : string;
  oc_status : OperationStatus;
  oc_operation_id : string;
  oc_context : OperationContext;
  oc_provenance : option OperationProvenance;
  oc_convergence : option OperationConvergence;
  oc_items : list OperationItemOutcome;
  oc_conflict : option OperationConflict;
  oc_receipt : option OperationReceipt;
  oc_recovery : option OperationRecovery;
  oc_warnings : list string;
  oc_extensions : pydict }.

Record CapabilityAvailability : Type := mkCapability {
  cap_operation_id : string;
  cap_support : CapabilitySupport;
  cap_reason : option string;
  cap_operation_version : string;
  cap_extensions : pydict }.

Record CapabilityDiscovery : Type := mkDiscovery {
  disc_capabilities : list CapabilityAvailability }.

Definition for_operation (d : CapabilityDiscovery) (operation_id : string)
    : option CapabilityAvailability :=
  List.find (fun item => String.eqb (cap_operation_id item) operation_id)
    (disc_capabilities d).

(** ** [to_dict] *)

Definition opt_dict (d : option pydict) : pyval :=
  match d with None => PNone | Some d => PDict d end.
Definition opt_str (s : option string) : pyval :=
  match s with None => PNone | Some s => PStr s end.
Definition opt_map {A} (f : A -> pydict) (x : option A) : pyval :=
  match x with None => PNone | Some x => PDict (f x) end.

Definition OperationContext_to_dict (x : OperationContext) : pydict :=
  [("active_context_ref", PStr (ctx_active_context_ref x));
   ("vault_generation", ctx_vault_generation x);
   ("extensions", PDict (ctx_extensions x))].

Definition OperationProvenance_to_dict (x : OperationProvenance) : pydict :=
  [("actor", PStr (prov_actor x));
   ("client", PStr (prov_client x));
   ("surface", PStr (prov_surface x));
   ("delegation", opt_dict (prov_delegation x));
   ("extensions", PDict (prov_extensions x))].

Definition OperationConvergence_to_dict (x : OperationConvergence) : pydict :=
  [("source_effect", PStr (SourceEffectStatus_value (conv_source_effect x)));
   ("store", PStr (ConvergenceState_value (conv_store x)));
   ("index", PStr (ConvergenceState_value (conv_index x)));
   ("link", PStr (ConvergenceState_value (conv_link x)));
   ("extensions", PDict (conv_extensions x))].

Definition OperationItemOutcome_to_dict (x : OperationItemOutcome) : pydict :=
  [("resource_id", opt_str (item_resource_id x));
   ("status", opt_str (OperationStatus_value <$> item_status x));
   ("input_version", item_input_version x);
   ("resulting_version", item_resulting_version x);
   ("payload", PDict (item_payload x));
   ("extensions", PDict (item_extensions x))].

Definition OperationConflict_to_dict (x : OperationConflict) : pydict :=
  [("resource_id", opt_str (cf_resource_id x));
   ("expected_version", cf_expected_version x);
   ("observed_version", cf_observed_version x);
   ("payload", PDict (cf_payload x));
   ("extensions", PDict (cf_extensions x))].

Definition OperationReceipt_to_dict (x : OperationReceipt) : pydict :=
  [("receipt_id", opt_str (rc_receipt_id x));
   ("status", PStr (ReceiptStatus_value (rc_status x)));
   ("payload", PDict (rc_payload x));
   ("extensions", PDict (rc_extensions x))].

Definition OperationRecovery_to_dict (x : OperationRecovery) : pydict :=
  [("action", PStr (rv_action x));
   ("instructions", opt_str (rv_instructions x));
   ("payload", PDict (rv_payload x));
   ("extensions", PDict (rv_extensions x))].

Definition OperationRequest_to_dict (x : OperationRequest) : pydict :=
  [("operation_id", PStr (rq_operation_id x));
   ("operation_version", PStr (rq_operation_version x));
   ("request_id", PStr (rq_request_id x));
   ("context", PDict (OperationContext_to_dict (rq_context x)));
   ("targets", PList (map PDict (rq_targets x)));
   ("arguments", PDict (rq_arguments x));
   ("mode", PStr (rq_mode x));
   ("expected_version", rq_expected_version x);
   ("delegation", opt_dict (rq_delegation x));
   ("batch_policy", opt_dict (rq_batch_policy x));
   ("provenance", opt_map OperationProvenance_to_dict (rq_provenance x));
   ("extensions", PDict (rq_extensions x))].

Definition OperationOutcome_to_dict (x : OperationOutcome) : pydict :=
  [("request_id", PStr (oc_request_id x));
   ("status", PStr (OperationStatus_value (oc_status x)));
   ("operation_id", PStr (oc_operation_id x));
   ("context", PDict (OperationContext_to_dict (oc_context x)));
   ("provenance", opt_map OperationProvenance_to_dict (oc_provenance x));
   ("convergence", opt_map OperationConvergence_to_dict (oc_convergence x));
   ("items", PList (map (fun i => PDict (OperationItemOutcome_to_dict i)) (oc_items x)));
   ("conflict", opt_map OperationConflict_to_dict (oc_conflict x));
   ("receipt", opt_map OperationReceipt_to_dict (oc_receipt x));
   ("recovery", opt_map OperationRecovery_to_dict (oc_recovery x));
   ("warnings", PList (map PStr (oc_warnings x)));
   ("extensions", PDict (oc_extensions x))].

(** ** [from_dict] *)

(** [None if value.get(k) is None else f(value[k])]. *)
Definition opt_field {A} (value : pyval) (k : string) (f : pyval -> res A) : res (option A) :=
  v ← getattr_get value k PNone;
  if is_none v then Ok None else (w ← getitem value k; Some <$> f w).

Definition as_str (v : pyval) : res string := Ok (py_str v).

(** [dict(value.get(k, {}))]. *)
Definition dict_field (value : pyval) (k : string) : res pydict :=
  v ← getattr_get value k (PDict []); py_dict v.

Definition OperationContext_from_dict (value : pyval) : res OperationContext :=
  r ← getitem value "active_context_ref";
  g ← getattr_get value "vault_generation" PNone;
  e ← dict_field value "extensions";
  Ok (mkContext (py_str r) g e).

Definition OperationProvenance_from_dict (value : pyval) : res OperationProvenance :=
  a ← getitem value "actor";
  c ← getitem value "client";
  s ← getitem value "surface";
  d ← opt_field value "delegation" py_dict;
  e ← dict_field value "extensions";
  Ok (mkProvenance (py_str a) (py_str c) (py_str s) d e).

Definition OperationConvergence_from_dict (value : pyval) : res OperationConvergence :=
  let state k :=
    v ← getattr_get value k (PStr (ConvergenceState_value NOT_REQUIRED));
    ConvergenceState_of v in
  s ← getitem value "source_effect";
  s ← SourceEffectStatus_of s;
  st ← state "store";
  ix ← state "index";
  lk ← state "link";
  e ← dict_field value "extensions";
  Ok (mkConvergence s st ix lk e).

Definition OperationItemOutcome_from_dict (value : pyval) : res OperationItemOutcome :=
  b ← contains value "payload";
  if negb b then (d ← py_dict value; Ok (mkItem None None PNone PNone d []))
  else
    status ← getattr_get value "status" PNone;
    r ← opt_field value "resource_id" as_str;
    s ← (if is_none status then Ok None else Some <$> OperationStatus_of status);
    i ← getattr_get value "input_version" PNone;
    o ← getattr_get value "resulting_version" PNone;
    p ← dict_field value "payload";
    e ← dict_field value "extensions";
    Ok (mkItem r s i o p e).

Definition OperationConflict_from_dict (value : pyval) : res OperationConflict :=
  b ← contains value "payload";
  if negb b then (d ← py_dict value; Ok (mkConflict None PNone PNone d []))
  else
    r ← opt_field value "resource_id" as_str;
    x ← getattr_get value "expected_version" PNone;
    o ← getattr_get value "observed_version" PNone;
    p ← dict_field value "payload";
    e ← dict_field value "extensions";
    Ok (mkConflict r x o p e).

Definition OperationReceipt_from_dict (value : pyval) : res OperationReceipt :=
  b ← contains value "payload";
  if negb b then (d ← py_dict value; Ok (mkReceipt None RECEIPT_PENDING d []))
  else
    r ← opt_field value "receipt_id" as_str;
    s ← getattr_get value "status" (PStr (ReceiptStatus_value RECEIPT_PENDING));
    s ← ReceiptStatus_of s;
    p ← dict_field value "payload";
    e ← dict_field value "extensions";
    Ok (mkReceipt r s p e).

Definition OperationRecovery_from_dict (value : pyval) : res OperationRecovery :=
  a ← getitem value "action";
  i ← opt_field value "instructions" as_str;
  p ← dict_field value "payload";
  e ← dict_field value "extensions";
  Ok (mkRecovery (py_str a) i p e).

Definition OperationRequest_from_dict (value : pyval) : res OperationRequest :=
  o ← getitem value "operation_id";
  r ← getitem value "request_id";
  c ← getitem value "context";
  c ← OperationContext_from_dict c;
  ts ← getattr_get value "targets" (PTuple []);
  ts ← py_iter ts;
  ts ← mapM_res py_dict ts;
  a ← dict_field value "arguments";
  v ← getattr_get value "operation_version" (PStr "ygg.operation.v1");
  m ← getattr_get value "mode" (PStr "execute");
  x ← getattr_get value "expected_version" PNone;
  d ← opt_field value "delegation" py_dict;
  b ← opt_field value "batch_policy" py_dict;
  p ← opt_field value "provenance" OperationProvenance_from_dict;
  e ← dict_field value "extensions";
  Ok (mkRequest (py_str o) (py_str r) c ts a (py_str v) (py_str m) x d b p e).

Definition OperationOutcome_from_dict (value : pyval) : res OperationOutcome :=
  r ← getitem value "request_id";
  s ← getitem value "status";
  s ← OperationStatus_of s;
  o ← getitem value "operation_id";
  c ← getitem value "context";
  c ← OperationContext_from_dict c;
  p ← opt_field value "provenance" OperationProvenance_from_dict;
  g ← opt_field value "convergence" OperationConvergence_from_dict;
  its ← getattr_get value "items" (PTuple []);
  its ← py_iter its;
  its ← mapM_res OperationItemOutcome_from_dict its;
  cf ← opt_field value "conflict" OperationConflict_from_dict;
  rc ← opt_field value "receipt" OperationReceipt_from_dict;
  rv ← opt_field value "recovery" OperationRecovery_from_dict;
  ws ← getattr_get value "warnings" (PTuple []);
  ws ← py_iter ws;
  e ← dict_field value "extensions";
  Ok (mkOutcome (py_str r) s (py_str o) c p g its cf rc rv (map py_str ws) e).

(** ** What the JSON journal keeps of a record *)

Definition OperationContext_norm (x : OperationContext) : OperationContext :=
  mkContext (ctx_active_context_ref x) (json_norm (ctx_vault_generation x))
    (json_norm_dict (ctx_extensions x)).
Definition OperationProvenance_norm (x : OperationProvenance) : OperationProvenance :=
  mkProvenance (prov_actor x) (prov_client x) (prov_surface x)
    (json_norm_dict <$> prov_delegation x) (json_norm_dict (prov_extensions x)).
Definition OperationConvergence_norm (x : OperationConvergence) : OperationConvergence :=
  mkConvergence (conv_source_effect x) (conv_store x) (conv_index x) (conv_link x)
    (json_norm_dict (conv_extensions x)).
Definition OperationItemOutcome_norm (x : OperationItemOutcome) : OperationItemOutcome :=
  mkItem (item_resource_id x) (item_status x) (json_norm (item_input_version x))
    (json_norm (item_resulting_version x)) (json_norm_dict (item_payload x))
    (json_norm_dict (item_extensions x)).
Definition OperationConflict_norm (x : OperationConflict) : OperationConflict :=
  mkConflict (cf_resource_id x) (json_norm (cf_expected_version x))
    (json_norm (cf_observed_version x)) (json_norm_dict (cf_payload x))
    (json_norm_dict (cf_extensions x)).
Definition OperationReceipt_norm (x : OperationReceipt) : OperationReceipt :=
  mkReceipt (rc_receipt_id x) (rc_status x) (json_norm_dict (rc_payload x))
    (json_norm_dict (rc_extensions x)).
Definition OperationRecovery_norm (x : OperationRecovery) : OperationRecovery :=
  mkRecovery (rv_action x) (rv_instructions x) (json_norm_dict (rv_payload x))
    (json_norm_dict (rv_extensions x)).
Definition OperationOutcome_norm (x : OperationOutcome) : OperationOutcome :=
  mkOutcome (oc_request_id x) (oc_status x) (oc_operation_id x)
    (OperationContext_norm (oc_context x)) (OperationProvenance_norm <$> oc_provenance x)
    (OperationConvergence_norm <$> oc_convergence x)
    (map OperationItemOutcome_norm (oc_items x)) (OperationConflict_norm <$> oc_conflict x)
    (OperationReceipt_norm <$> oc_receipt x) (OperationRecovery_norm <$> oc_recovery x)
    (oc_warnings x) (json_norm_dict (oc_extensions x)).

Definition OperationRequest_norm (x : OperationRequest) : OperationRequest :=
  mkRequest (rq_operation_id x) (rq_request_id x) (OperationContext_norm (rq_context x))
    (map json_norm_dict (rq_targets x)) (json_norm_dict (rq_arguments x))
    (rq_operation_version x) (rq_mode x) (json_norm (rq_expected_version x))
    (json_norm_dict <$> rq_delegation x) (json_norm_dict <$> rq_batch_policy x)
    (OperationProvenance_norm <$> rq_provenance x) (json_norm_dict (rq_extensions x)).

(** ** Round trips *)

Lemma getitem_norm d k :
  getitem (PDict (json_norm_dict d)) k
  = match dict_get d k with Some w => Ok (json_norm w) | None => Raise (KeyError k) end.
Proof. unfold getitem. rewrite json_norm_dict_get. by destruct (dict_get d k). Qed.
Lemma getattr_get_norm d k dflt :
  getattr_get (PDict (json_norm_dict d)) k dflt
  = Ok (match dict_get d k with Some w => json_norm w | None => dflt end).
Proof. unfold getattr_get. rewrite json_norm_dict_get. by destruct (dict_get d k). Qed.
Lemma contains_norm d k : contains (PDict (json_norm_dict d)) k = Ok (dict_mem d k).
Proof. unfold contains, dict_mem. rewrite json_norm_dict_get. by destruct (dict_get d k). Qed.
Lemma json_norm_PDict d : json_norm (PDict d) = PDict (json_norm_dict d).
Proof. reflexivity. Qed.
#[global] Opaque json_norm_dict.

Lemma OperationStatus_roundtrip s : OperationStatus_of (PStr (OperationStatus_value s)) = Ok s.
Proof. by destruct s. Qed.
Lemma SourceEffectStatus_roundtrip s :
  SourceEffectStatus_of (PStr (SourceEffectStatus_value s)) = Ok s.
Proof. by destruct s. Qed.
Lemma ConvergenceState_roundtrip s :
  ConvergenceState_of (PStr (ConvergenceState_value s)) = Ok s.
Proof. by destruct s. Qed.
Lemma ReceiptStatus_roundtrip s : ReceiptStatus_of (PStr (ReceiptStatus_value s)) = Ok s.
Proof. by destruct s. Qed.

(** Unfold the readers on a written document, in plain or stored form. *)
Ltac read_doc :=
  unfold opt_field, dict_field, as_str;
  repeat (rewrite ?getitem_norm, ?getattr_get_norm, ?contains_norm, ?json_norm_PDict,
            ?OperationStatus_roundtrip, ?SourceEffectStatus_roundtrip,
            ?ConvergenceState_roundtrip, ?ReceiptStatus_roundtrip;
          cbn -[json_norm_dict OperationStatus_of SourceEffectStatus_of ConvergenceState_of
                ReceiptStatus_of]).

Lemma OperationContext_json x :
  OperationContext_from_dict (PDict (json_norm_dict (OperationContext_to_dict x)))
  = Ok (OperationContext_norm x).
Proof. unfold OperationContext_from_dict. read_doc. done. Qed.

Lemma OperationProvenance_json x :
  OperationProvenance_from_dict (PDict (json_norm_dict (OperationProvenance_to_dict x)))
  = Ok (OperationProvenance_norm x).
Proof. destruct x as [? ? ? [?|] ?]; unfold OperationProvenance_from_dict; by read_doc. Qed.

Lemma OperationConvergence_json x :
  OperationConvergence_from_dict (PDict (json_norm_dict (OperationConvergence_to_dict x)))
  = Ok (OperationConvergence_norm x).
Proof. destruct x; unfold OperationConvergence_from_dict; by read_doc. Qed.

Lemma OperationItemOutcome_json x :
  OperationItemOutcome_from_dict (PDict (json_norm_dict (OperationItemOutcome_to_dict x)))
  = Ok (OperationItemOutcome_norm x).
Proof.
  destruct x as [[?|] [?|] ? ? ? ?]; unfold OperationItemOutcome_from_dict; by read_doc.
Qed.

Lemma OperationConflict_json x :
  OperationConflict_from_dict (PDict (json_norm_dict (OperationConflict_to_dict x)))
  = Ok (OperationConflict_norm x).
Proof. destruct x as [[?|] ? ? ? ?]; unfold OperationConflict_from_dict; by read_doc. Qed.

Lemma OperationReceipt_json x :
  OperationReceipt_from_dict (PDict (json_norm_dict (OperationReceipt_to_dict x)))
  = Ok (OperationReceipt_norm x).
Proof. destruct x as [[?|] ? ? ?]; unfold OperationReceipt_from_dict; by read_doc. Qed.

Lemma OperationRecovery_json x :
  OperationRecovery_from_dict (PDict (json_norm_dict (OperationRecovery_to_dict x)))
  = Ok (OperationRecovery_norm x).
Proof. destruct x as [? [?|] ? ?]; unfold OperationRecovery_from_dict; by read_doc. Qed.

Lemma warnings_json (l : list string) : map py_str (map json_norm (map PStr l)) = l.
Proof. induction l as [|x l IH]; simpl; [done|]. by rewrite IH. Qed.

Lemma items_json l :
  mapM_res OperationItemOutcome_from_dict
    (map json_norm (map (fun i => PDict (OperationItemOutcome_to_dict i)) l))
  = Ok (map OperationItemOutcome_norm l).
Proof.
  induction l as [|x l IH]; [done|]. cbn [map mapM_res]. rewrite json_norm_PDict.
  rewrite OperationItemOutcome_json. simpl. by rewrite IH.
Qed.

Lemma opt_field_json {A} (to_dict : A -> pydict) (from : pyval -> res A) (norm : A -> A)
    (rt : forall x, from (PDict (json_norm_dict (to_dict x))) = Ok (norm x)) d k x :
  dict_get d k = Some (opt_map to_dict x) ->
  opt_field (PDict (json_norm_dict d)) k from = Ok (norm <$> x).
Proof.
  intros H. unfold opt_field. rewrite getattr_get_norm, getitem_norm, H.
  destruct x as [x|]; [|done]. cbn [opt_map]. rewrite json_norm_PDict. simpl. by rewrite rt.
Qed.

(** An outcome written to the journal and read back is the outcome in stored form. *)
Lemma OperationOutcome_json x :
  OperationOutcome_from_dict (json_norm (PDict (OperationOutcome_to_dict x)))
  = Ok (OperationOutcome_norm x).
Proof.
  rewrite json_norm_PDict. unfold OperationOutcome_from_dict.
  rewrite (opt_field_json _ _ _ OperationProvenance_json _ _ (oc_provenance x)) by done.
  rewrite (opt_field_json _ _ _ OperationConvergence_json _ _ (oc_convergence x)) by done.
  rewrite (opt_field_json _ _ _ OperationConflict_json _ _ (oc_conflict x)) by done.
  rewrite (opt_field_json _ _ _ OperationReceipt_json _ _ (oc_receipt x)) by done.
  rewrite (opt_field_json _ _ _ OperationRecovery_json _ _ (oc_recovery x)) by done.
  unfold dict_field. rewrite !getitem_norm, !getattr_get_norm.
  cbn -[json_norm_dict OperationStatus_of OperationContext_from_dict OperationContext_to_dict mapM_res json_norm
        OperationItemOutcome_to_dict].
  change (json_norm (PStr ?s)) with (PStr s). rewrite OperationStatus_roundtrip.
  cbn -[json_norm_dict OperationContext_from_dict OperationContext_to_dict mapM_res json_norm
        OperationItemOutcome_to_dict].
  rewrite !json_norm_PDict, OperationContext_json.
  cbn -[json_norm_dict mapM_res OperationItemOutcome_to_dict].
  rewrite items_json. cbn -[json_norm_dict]. rewrite warnings_json. by destruct x.
Qed.

Lemma targets_json (l : list pydict) :
  mapM_res py_dict (map json_norm (map PDict l)) = Ok (map json_norm_dict l).
Proof.
  induction l as [|x l IH]; [done|]. cbn [map mapM_res]. rewrite json_norm_PDict. simpl.
  by rewrite IH.
Qed.

(** A request frozen into a JSON document and read back is the request in
    stored form. *)
Lemma OperationRequest_json x :
  OperationRequest_from_dict (json_norm (PDict (OperationRequest_to_dict x)))
  = Ok (OperationRequest_norm x).
Proof.
  rewrite json_norm_PDict. unfold OperationRequest_from_dict.
  rewrite (opt_field_json _ _ _ OperationProvenance_json _ _ (rq_provenance x)) by done.
  unfold dict_field, opt_field. rewrite !getitem_norm, !getattr_get_norm.
  cbn -[json_norm_dict OperationContext_from_dict OperationContext_to_dict mapM_res json_norm].
  rewrite !json_norm_PDict, OperationContext_json.
  cbn -[json_norm_dict mapM_res].
  rewrite targets_json. destruct x as [? ? ? ? ? ? ? ? [?|] [?|] ? ?]; done.
Qed.

Lemma OperationOutcome_norm_idem x :
  OperationOutcome_norm (OperationOutcome_norm x) = OperationOutcome_norm x.
Proof.
  destruct x as [a b c [? ? ?] p g l f r v w e]; unfold OperationOutcome_norm; cbn.
  f_equal; rewrite ?json_norm_dict_idem; try done.
  - unfold OperationContext_norm; cbn. by rewrite json_norm_idem, json_norm_dict_idem.
  - destruct p as [[? ? ? [?|] ?]|]; cbn; unfold OperationProvenance_norm; cbn;
      by rewrite ?json_norm_dict_idem.
  - destruct g as [[]|]; cbn; unfold OperationConvergence_norm; cbn;
      by rewrite ?json_norm_dict_idem.
  - rewrite map_map. apply map_ext. intros []. unfold OperationItemOutcome_norm; cbn.
    by rewrite !json_norm_idem, !json_norm_dict_idem.
  - destruct f as [[]|]; cbn; unfold OperationConflict_norm; cbn;
      by rewrite ?json_norm_dict_idem, ?json_norm_idem.
  - destruct r as [[]|]; cbn; unfold OperationReceipt_norm; cbn;
      by rewrite ?json_norm_dict_idem.
  - destruct v as [[]|]; cbn; unfold OperationRecovery_norm; cbn;
      by rewrite ?json_norm_dict_idem.
Qed.

(** *** The plain round trip *)

Lemma OperationContext_rt x :
  OperationContext_from_dict (PDict (OperationContext_to_dict x)) = Ok x.
Proof. by destruct x. Qed.
Lemma OperationProvenance_rt x :
  OperationProvenance_from_dict (PDict (OperationProvenance_to_dict x)) = Ok x.
Proof. by destruct x as [? ? ? [?|] ?]. Qed.
Lemma OperationConvergence_rt x :
  OperationConvergence_from_dict (PDict (OperationConvergence_to_dict x)) = Ok x.
Proof. destruct x; unfold OperationConvergence_from_dict; by read_doc. Qed.
Lemma OperationItemOutcome_rt x :
  OperationItemOutcome_from_dict (PDict (OperationItemOutcome_to_dict x)) = Ok x.
Proof.
  destruct x as [[?|] [?|] ? ? ? ?]; unfold OperationItemOutcome_from_dict; by read_doc.
Qed.
Lemma OperationConflict_rt x :
  OperationConflict_from_dict (PDict (OperationConflict_to_dict x)) = Ok x.
Proof. by destruct x as [[?|] ? ? ? ?]. Qed.
Lemma OperationReceipt_rt x :
  OperationReceipt_from_dict (PDict (OperationReceipt_to_dict x)) = Ok x.
Proof. destruct x as [[?|] ? ? ?]; unfold OperationReceipt_from_dict; by read_doc. Qed.
Lemma OperationRecovery_rt x :
  OperationRecovery_from_dict (PDict (OperationRecovery_to_dict x)) = Ok x.
Proof. by destruct x as [? [?|] ? ?]. Qed.

Lemma mapM_res_rt {A} (f : A -> pyval) (g : pyval -> res A) l :
  (forall x, g (f x) = Ok x) -> mapM_res g (map f l) = Ok l.
Proof. intros H. induction l as [|x l IH]; simpl; [done|]. rewrite H; simpl. by rewrite IH. Qed.

Lemma opt_map_rt {A} (to_dict : A -> pydict) (from : pyval -> res A)
    (rt : forall x, from (PDict (to_dict x)) = Ok x) d k x :
  dict_get d k = Some (opt_map to_dict x) -> opt_field (PDict d) k from = Ok x.
Proof.
  intros H. unfold opt_field, getattr_get, getitem. rewrite H.
  destruct x as [x|]; [|done]. simpl. by rewrite rt.
Qed.

(** Writing a request as a dict and reading it back gives the request. *)
Lemma OperationRequest_rt x :
  OperationRequest_from_dict (PDict (OperationRequest_to_dict x)) = Ok x.
Proof.
  unfold OperationRequest_from_dict.
  rewrite (opt_map_rt _ _ OperationProvenance_rt _ _ (rq_provenance x)) by done.
  cbn -[OperationContext_from_dict OperationContext_to_dict mapM_res opt_field].
  rewrite OperationContext_rt. cbn -[mapM_res opt_field].
  rewrite mapM_res_rt by done. destruct x as [? ? ? ? ? ? ? ? [?|] [?|] ? ?]; done.
Qed.

(** Writing an outcome as a dict and reading it back gives the outcome. *)
Lemma OperationOutcome_rt x :
  OperationOutcome_from_dict (PDict (OperationOutcome_to_dict x)) = Ok x.
Proof.
  unfold OperationOutcome_from_dict.
  rewrite (opt_map_rt _ _ OperationProvenance_rt _ _ (oc_provenance x)) by done.
  rewrite (opt_map_rt _ _ OperationConvergence_rt _ _ (oc_convergence x)) by done.
  rewrite (opt_map_rt _ _ OperationConflict_rt _ _ (oc_conflict x)) by done.
  rewrite (opt_map_rt _ _ OperationReceipt_rt _ _ (oc_receipt x)) by done.
  rewrite (opt_map_rt _ _ OperationRecovery_rt _ _ (oc_recovery x)) by done.
  cbn -[OperationContext_from_dict OperationContext_to_dict mapM_res OperationStatus_of
        OperationItemOutcome_to_dict].
  rewrite OperationStatus_roundtrip. cbn -[OperationContext_from_dict
    OperationContext_to_dict mapM_res OperationItemOutcome_to_dict].
  rewrite OperationContext_rt. cbn -[mapM_res OperationItemOutcome_to_dict].
  rewrite mapM_res_rt by apply OperationItemOutcome_rt. simpl. rewrite map_map.
  destruct x; simpl. by rewrite map_id.
Qed.

(** C40: the envelope survives serialization.  Reading back what [to_dict] of
    an outcome or a request wrote gives the same value; reading it back
    through a JSON file gives it in stored form (keys sorted, tuples as
    lists), which for outcomes a second trip leaves as it is. *)
Theorem envelope_roundtrip x r :
  OperationOutcome_from_dict (PDict (OperationOutcome_to_dict x)) = Ok x
  /\ OperationOutcome_from_dict (json_norm (PDict (OperationOutcome_to_dict x)))
     = Ok (OperationOutcome_norm x)
  /\ OperationOutcome_norm (OperationOutcome_norm x) = OperationOutcome_norm x
  /\ OperationRequest_from_dict (PDict (OperationRequest_to_dict r)) = Ok r
  /\ OperationRequest_from_dict (json_norm (PDict (OperationRequest_to_dict r)))
     = Ok (OperationRequest_norm r).
Proof.
  split; [apply OperationOutcome_rt|]. split; [apply OperationOutcome_json|].
  split; [apply OperationOutcome_norm_idem|].
  split; [apply OperationRequest_rt|apply OperationRequest_json].
Qed.
