(* ===== verification/ReceiptStore.v ===== *)
(** * Receipt stores (src/app/operations/execution_kernel.py, [ReceiptStore])

    The [ReceiptStore] protocol is a class of operations, [ReceiptStore], with
    what the kernel relies on as a second class, [ReceiptStoreSpec].  The two
    implementations of the source are instances: [InMemoryReceiptStore] (a
    dict) and [JsonReceiptStore] (a JSON file replaced atomically).

    Every operation runs under the store's lock, so it is one atomic step; the
    theorems on sequences of steps therefore cover interleaved callers.  The
    JSON store's I/O can fail: [jf_faults] says, per operation, whether it
    fails before the file is replaced or after (the directory [fsync]). *)
From S2P Require Import Prelude PyValue Contracts.

Record StoredOutcome : Type := mkStored {
  st_intent_digest : pyval;
  st_outcome : OperationOutcome;
  st_in_flight : bool }.

Inductive reservation : Type := RESERVED | REPLAY | CONFLICT.

#[export] Instance reservation_eq_dec : EqDecision reservation.
Proof. solve_decision. Defined.

(** ** The protocol and its contract *)

Class ReceiptStore (S : Type) : Type := {
  rs_lookup : string -> S -> res (option StoredOutcome) * S;
  rs_reserve : string -> pyval -> OperationOutcome -> S ->
               res (reservation * StoredOutcome) * S;
  rs_finalize : string -> pyval -> OperationOutcome -> S -> res unit * S;
  (** [isinstance(store, JsonReceiptStore)]. *)
  rs_is_json : bool }.

(** [rs_view s id] is the record a read of [id] returns; [rs_keep] is what the
    medium keeps of a record (the identity in memory, the stored JSON form on
    disk). *)
Class ReceiptStoreSpec (S : Type) `{!ReceiptStore S} : Type := {
  rs_view : S -> string -> option StoredOutcome;
  rs_keep : StoredOutcome -> StoredOutcome;
  rs_keep_idem x : rs_keep (rs_keep x) = rs_keep x;
  rs_keep_status x : oc_status (st_outcome (rs_keep x)) = oc_status (st_outcome x);
  rs_keep_digest x s : st_intent_digest x = PStr s -> st_intent_digest (rs_keep x) = PStr s;
  rs_keep_source x :
    conv_source_effect <$> oc_convergence (st_outcome (rs_keep x))
    = conv_source_effect <$> oc_convergence (st_outcome x);
  rs_lookup_spec id s r s' :
    rs_lookup id s = (r, s') ->
    (forall j, rs_view s' j = rs_view s j) /\
    match r with Ok o => o = rs_view s id | Raise _ => True end;
  rs_reserve_spec id dg p s r s' :
    rs_reserve id dg p s = (r, s') ->
    let same := forall j, rs_view s' j = rs_view s j in
    let updated := rs_view s id = None /\ rs_view s' id = Some (rs_keep (mkStored dg p true)) /\
                   forall j, j <> id -> rs_view s' j = rs_keep <$> rs_view s j in
    match r with
    | Ok (RESERVED, st) => st = mkStored dg p true /\ updated
    | Ok (REPLAY, st) => rs_view s id = Some st /\ py_eqb (st_intent_digest st) dg = true /\ same
    | Ok (CONFLICT, st) =>
        rs_view s id = Some st /\ py_eqb (st_intent_digest st) dg = false /\ same
    | Raise _ => same \/ updated
    end;
  rs_finalize_spec id dg o s r s' :
    rs_finalize id dg o s = (r, s') ->
    let same := forall j, rs_view s' j = rs_view s j in
    let updated := rs_view s' id = Some (rs_keep (mkStored dg o false)) /\
                   forall j, j <> id -> rs_view s' j = rs_keep <$> rs_view s j in
    match r with Ok _ => updated | Raise _ => same \/ updated end }.

(** ** [InMemoryReceiptStore] *)

Record InMemoryReceiptStore : Type := mkMem { mem_records : gmap string StoredOutcome }.

Definition mem_lookup (request_id : string) (s : InMemoryReceiptStore)
    : res (option StoredOutcome) * InMemoryReceiptStore :=
  (Ok (mem_records s !! request_id), s).

Definition mem_reserve (request_id : string) (intent_digest : pyval)
    (pending : OperationOutcome) (s : InMemoryReceiptStore)
    : res (reservation * StoredOutcome) * InMemoryReceiptStore :=
  match mem_records s !! request_id with
  | Some prior =>
      (Ok ((if negb (py_eqb (st_intent_digest prior) intent_digest) then CONFLICT else REPLAY),
           prior), s)
  | None =>
      let stored := mkStored intent_digest pending true in
      (Ok (RESERVED, stored), mkMem (<[request_id := stored]> (mem_records s)))
  end.

Definition mem_finalize (request_id : string) (intent_digest : pyval)
    (outcome : OperationOutcome) (s : InMemoryReceiptStore)
    : res unit * InMemoryReceiptStore :=
  (Ok tt, mkMem (<[request_id := mkStored intent_digest outcome false]> (mem_records s))).

#[export] Instance mem_store : ReceiptStore InMemoryReceiptStore := {|
  rs_lookup := mem_lookup;
  rs_reserve := mem_reserve;
  rs_finalize := mem_finalize;
  rs_is_json := false |}.

#[export] Program Instance mem_store_spec : ReceiptStoreSpec InMemoryReceiptStore := {|
  rs_view s id := mem_records s !! id;
  rs_keep x := x |}.
Next Obligation. done. Qed.
Next Obligation. done. Qed.
Next Obligation. done. Qed.
Next Obligation. done. Qed.
Next Obligation. intros id s r s' [= <- <-]. done. Qed.
Next Obligation.
  intros id dg p s r s'; simpl; unfold mem_reserve.
  destruct (mem_records s !! id) as [prior|] eqn:E.
  - destruct (py_eqb _ dg) eqn:Eq; intros [= <- <-]; done.
  - intros [= <- <-]; simpl. split; [done|]. split; [done|].
    split; [by rewrite lookup_insert_eq|]. intros j Hj.
    rewrite lookup_insert_ne by done. by destruct (mem_records s !! j).
Qed.
Next Obligation.
  intros id dg o s r s' [= <- <-]; simpl. split; [by rewrite lookup_insert_eq|].
  intros j Hj. rewrite lookup_insert_ne by done. by destruct (mem_records s !! j).
Qed.

(** ** [JsonReceiptStore] *)

Inductive io_fault : Type := IoOk | IoFailBefore | IoFailAfter.

#[export] Instance io_fault_eq_dec : EqDecision io_fault.
Proof. solve_decision. Defined.

(** The ledger file (its parsed document, [None] when it does not exist) and
    the faults of the coming operations. *)
Record JsonReceiptStore : Type := mkJson {
  jf_file : option pyval;
  jf_faults : list io_fault }.

Definition next_fault (s : JsonReceiptStore) : io_fault * JsonReceiptStore :=
  match jf_faults s with
  | [] => (IoOk, s)
  | f :: fs => (f, mkJson (jf_file s) fs)
  end.

Definition read_record (value : pyval) : res StoredOutcome :=
  d ← getitem value "intent_digest";
  o ← getitem value "outcome";
  o ← OperationOutcome_from_dict o;
  f ← getattr_get value "in_flight" (PBool false);
  Ok (mkStored d o (truthy f)).

Definition read_item (kv : string * pyval) : res (string * StoredOutcome) :=
  r ← read_record (snd kv); Ok (fst kv, r).

(** [_read]. *)
Definition _read (file : option pyval) : res (list (string * StoredOutcome)) :=
  match file with
  | None => Ok []
  | Some (PDict raw) => mapM_res read_item raw
  | Some _ => Raise (AttributeError "items")
  end.

Definition write_record (r : StoredOutcome) : pydict :=
  [("intent_digest", st_intent_digest r);
   ("outcome", PDict (OperationOutcome_to_dict (st_outcome r)));
   ("in_flight", PBool (st_in_flight r))].

(** [_write]: the document the replaced file holds. *)
Definition _write (records : list (string * StoredOutcome)) : option pyval :=
  Some (json_norm (PDict (map (fun kv => (fst kv, PDict (write_record (snd kv)))) records))).

Definition json_lookup (request_id : string) (s : JsonReceiptStore)
    : res (option StoredOutcome) * JsonReceiptStore :=
  let '(f, s) := next_fault s in
  match f with
  | IoFailBefore => (Raise (OSError "journal I/O"), s)
  | _ => ((fun recs => dict_get recs request_id) <$> _read (jf_file s), s)
  end.

Definition json_reserve (request_id : string) (intent_digest : pyval)
    (pending : OperationOutcome) (s : JsonReceiptStore)
    : res (reservation * StoredOutcome) * JsonReceiptStore :=
  let '(f, s) := next_fault s in
  match f with
  | IoFailBefore => (Raise (OSError "journal I/O"), s)
  | _ =>
      match _read (jf_file s) with
      | Raise e => (Raise e, s)
      | Ok records =>
          match dict_get records request_id with
          | Some prior =>
              (Ok ((if negb (py_eqb (st_intent_digest prior) intent_digest)
                    then CONFLICT else REPLAY), prior), s)
          | None =>
              let stored := mkStored intent_digest pending true in
              let s := mkJson (_write (dict_set records request_id stored)) (jf_faults s) in
              match f with
              | IoFailAfter => (Raise (OSError "journal I/O"), s)
              | _ => (Ok (RESERVED, stored), s)
              end
          end
      end
  end.

Definition json_finalize (request_id : string) (intent_digest : pyval)
    (outcome : OperationOutcome) (s : JsonReceiptStore) : res unit * JsonReceiptStore :=
  let '(f, s) := next_fault s in
  match f with
  | IoFailBefore => (Raise (OSError "journal I/O"), s)
  | _ =>
      match _read (jf_file s) with
      | Raise e => (Raise e, s)
      | Ok records =>
          let s := mkJson (_write (dict_set records request_id
                             (mkStored intent_digest outcome false))) (jf_faults s) in
          match f with
          | IoFailAfter => (Raise (OSError "journal I/O"), s)
          | _ => (Ok tt, s)
          end
      end
  end.

#[export] Instance json_store : ReceiptStore JsonReceiptStore := {|
  rs_lookup := json_lookup;
  rs_reserve := json_reserve;
  rs_finalize := json_finalize;
  rs_is_json := true |}.

(** What the file keeps of a record. *)
Definition StoredOutcome_norm (r : StoredOutcome) : StoredOutcome :=
  mkStored (json_norm (st_intent_digest r)) (OperationOutcome_norm (st_outcome r))
    (st_in_flight r).

Definition json_view (s : JsonReceiptStore) (id : string) : option StoredOutcome :=
  match _read (jf_file s) with Ok recs => dict_get recs id | Raise _ => None end.

Lemma read_record_json r :
  read_record (json_norm (PDict (write_record r))) = Ok (StoredOutcome_norm r).
Proof.
  rewrite json_norm_PDict. unfold read_record. rewrite !getitem_norm, getattr_get_norm.
  cbn -[OperationOutcome_from_dict json_norm json_norm_dict OperationOutcome_to_dict].
  rewrite OperationOutcome_json. destruct r as [? ? []]; reflexivity.
Qed.

Lemma read_items_json (l : list (string * StoredOutcome)) :
  mapM_res read_item (map (fun kv => (fst kv, json_norm (PDict (write_record (snd kv))))) l)
  = Ok (map (fun kv => (fst kv, StoredOutcome_norm (snd kv))) l).
Proof.
  induction l as [|[k r] l IH]; [done|].
  change (mapM_res read_item (map _ ((k, r) :: l))) with
    (y ← (x ← read_record (json_norm (PDict (write_record r))); Ok (k, x));
     ys ← mapM_res read_item
            (map (fun kv => (fst kv, json_norm (PDict (write_record (snd kv))))) l);
     Ok (y :: ys)).
  by rewrite read_record_json, IH.
Qed.

Lemma json_norm_dict_map {A} (f : A -> pyval) (l : list (string * A)) :
  json_norm_dict (map (fun kv => (fst kv, f (snd kv))) l)
  = map (fun kv => (fst kv, json_norm (f (snd kv)))) (sort_keys l).
Proof.
  with_strategy transparent [json_norm_dict] unfold json_norm_dict.
  rewrite map_map. exact (sort_keys_map (fun x => json_norm (f x)) l).
Qed.

(** Reading back a written ledger returns every record in stored form. *)
Lemma read_write recs :
  _read (_write recs)
  = Ok (map (fun kv => (fst kv, StoredOutcome_norm (snd kv))) (sort_keys recs)).
Proof.
  unfold _write. rewrite json_norm_PDict. rewrite (json_norm_dict_map (fun r => PDict (write_record r))).
  apply read_items_json.
Qed.

Lemma json_view_write recs fs id :
  json_view (mkJson (_write recs) fs) id = StoredOutcome_norm <$> dict_get recs id.
Proof. unfold json_view; cbn [jf_file]. by rewrite read_write, dict_get_map, dict_get_sort. Qed.

Lemma next_fault_file s : jf_file (snd (next_fault s)) = jf_file s.
Proof. unfold next_fault. by destruct (jf_faults s). Qed.

Lemma json_view_fault s f s1 : next_fault s = (f, s1) -> forall j, json_view s1 j = json_view s j.
Proof.
  intros H j. pose proof (next_fault_file s) as E. rewrite H in E. simpl in E.
  unfold json_view. by rewrite E.
Qed.

Lemma StoredOutcome_norm_idem r :
  StoredOutcome_norm (StoredOutcome_norm r) = StoredOutcome_norm r.
Proof.
  destruct r. unfold StoredOutcome_norm; cbn [st_intent_digest st_outcome st_in_flight].
  by rewrite json_norm_idem, OperationOutcome_norm_idem.
Qed.

(** What a rewrite of the ledger with one record set does to the view. *)
Lemma json_view_set s f s1 recs id st fs :
  next_fault s = (f, s1) -> _read (jf_file s1) = Ok recs ->
  let s2 := mkJson (_write (dict_set recs id st)) fs in
  json_view s2 id = Some (StoredOutcome_norm st) /\
  forall j, j <> id -> json_view s2 j = StoredOutcome_norm <$> json_view s j.
Proof.
  intros Hf Hr s2. split.
  - unfold s2. by rewrite json_view_write, dict_get_set_eq.
  - intros j Hj. unfold s2. rewrite json_view_write, dict_get_set_ne by done.
    rewrite <- (json_view_fault _ _ _ Hf). unfold json_view. by rewrite Hr.
Qed.

#[export] Program Instance json_store_spec : ReceiptStoreSpec JsonReceiptStore := {|
  rs_view := json_view;
  rs_keep := StoredOutcome_norm |}.
Next Obligation. apply StoredOutcome_norm_idem. Qed.
Next Obligation. done. Qed.
Next Obligation. intros x s H. simpl. by rewrite H. Qed.
Next Obligation. intros x. simpl. by destruct (oc_convergence (st_outcome x)). Qed.
Next Obligation.
  intros id s r s'; simpl; unfold json_lookup. destruct (next_fault s) as [f s1] eqn:Hf.
  pose proof (json_view_fault _ _ _ Hf) as V. intros H.
  assert (s' = s1) as -> by (destruct f; congruence). split; [exact V|].
  destruct f; simplify_eq/=; try done; rewrite <- V; unfold json_view;
    by destruct (_read (jf_file s1)).
Qed.
Next Obligation.
  intros id dg p s r s'; simpl; unfold json_reserve. destruct (next_fault s) as [f s1] eqn:Hf.
  pose proof (json_view_fault _ _ _ Hf) as V.
  destruct (decide (f = IoFailBefore)) as [->|Hne]; [intros [= <- <-]; by left|].
  destruct (_read (jf_file s1)) as [recs|e] eqn:Hr.
  2: { destruct f; intros [= <- <-]; try done; by left. }
  assert (Hid : json_view s id = dict_get recs id)
    by (rewrite <- V; unfold json_view; by rewrite Hr).
  destruct (dict_get recs id) as [prior|] eqn:Hp.
  - destruct (py_eqb _ dg) eqn:Eq; destruct f; intros [= <- <-]; done.
  - destruct (json_view_set s f s1 recs id (mkStored dg p true) (jf_faults s1) Hf Hr) as [H1 H2].
    destruct f; intros [= <- <-]; try done. by right.
Qed.
Next Obligation.
  intros id dg o s r s'; simpl; unfold json_finalize. destruct (next_fault s) as [f s1] eqn:Hf.
  pose proof (json_view_fault _ _ _ Hf) as V.
  destruct (decide (f = IoFailBefore)) as [->|Hne]; [intros [= <- <-]; by left|].
  destruct (_read (jf_file s1)) as [recs|e] eqn:Hr.
  2: { destruct f; intros [= <- <-]; try done; by left. }
  destruct (json_view_set s f s1 recs id (mkStored dg o false) (jf_faults s1) Hf Hr) as [H1 H2].
  destruct f; intros [= <- <-]; try done. by right.
Qed.

(** ** Interleaved callers

    The calls of any number of threads and processes, in the order the locks
    serialize them. *)

Inductive store_op : Type :=
  | OpLookup (request_id : string)
  | OpReserve (request_id : string) (intent_digest : pyval) (pending : OperationOutcome)
  | OpFinalize (request_id : string) (intent_digest : pyval) (outcome : OperationOutcome).

Section interleaving.
Context {S : Type} `{!ReceiptStore S}.

(** One step; the answer records the id a caller was told it reserved. *)
Definition store_step (op : store_op) (s : S) : option string * S :=
  match op with
  | OpLookup id => (None, snd (rs_lookup id s))
  | OpReserve id dg p =>
      match rs_reserve id dg p s with
      | (Ok (RESERVED, _), s') => (Some id, s')
      | (_, s') => (None, s')
      end
  | OpFinalize id dg o => (None, snd (rs_finalize id dg o s))
  end.

(** The number of callers told they reserved [id]. *)
Fixpoint reservations (id : string) (ops : list store_op) (s : S) : nat :=
  match ops with
  | [] => 0
  | op :: ops =>
      let '(r, s') := store_step op s in
      (if decide (r = Some id) then 1 else 0) + reservations id ops s'
  end.

Context `{!ReceiptStoreSpec S}.

(** A record, once there, stays. *)
Lemma rs_finalize_mono id dg o s r s' j :
  rs_finalize id dg o s = (r, s') -> is_Some (rs_view s j) -> is_Some (rs_view s' j).
Proof.
  intros H%rs_finalize_spec [x Hx]. cbn zeta in H.
  assert (D : (forall j, rs_view s' j = rs_view s j) \/
    (rs_view s' id = Some (rs_keep (mkStored dg o false)) /\
     forall j, j <> id -> rs_view s' j = rs_keep <$> rs_view s j)) by (destruct r; tauto).
  destruct D as [D|[D1 D2]]; [rewrite D; eauto|].
  destruct (decide (j = id)) as [->|Hne]; [rewrite D1; eauto|].
  rewrite D2, Hx by done; simpl; eauto.
Qed.

Lemma rs_reserve_mono id dg p s r s' j :
  rs_reserve id dg p s = (r, s') -> is_Some (rs_view s j) -> is_Some (rs_view s' j).
Proof.
  intros H%rs_reserve_spec [x Hx]. cbn zeta in H.
  assert (D : (forall j, rs_view s' j = rs_view s j) \/
    (rs_view s id = None /\ rs_view s' id = Some (rs_keep (mkStored dg p true)) /\
     forall j, j <> id -> rs_view s' j = rs_keep <$> rs_view s j))
    by (destruct r as [[[] ?]|]; tauto).
  destruct D as [D|(D0 & D1 & D2)]; [rewrite D; eauto|].
  destruct (decide (j = id)) as [->|Hne]; [rewrite D1; eauto|].
  rewrite D2, Hx by done; simpl; eauto.
Qed.

Lemma rs_lookup_view id s r s' j : rs_lookup id s = (r, s') -> rs_view s' j = rs_view s j.
Proof. intros [H _]%rs_lookup_spec. apply H. Qed.

Lemma store_step_mono op s r s' j :
  store_step op s = (r, s') -> is_Some (rs_view s j) -> is_Some (rs_view s' j).
Proof.
  destruct op as [id|id dg p|id dg o]; simpl; intros H Hj.
  - destruct (rs_lookup id s) as [? s1] eqn:E; simplify_eq/=.
    by rewrite (rs_lookup_view _ _ _ _ _ E).
  - destruct (rs_reserve id dg p s) as [a s1] eqn:E.
    assert (s' = s1) as -> by (destruct a as [[[] ?]|]; congruence).
    by eapply rs_reserve_mono.
  - destruct (rs_finalize id dg o s) as [? s1] eqn:E; simplify_eq/=.
    by eapply rs_finalize_mono.
Qed.

Lemma store_step_reserved op s id s' :
  store_step op s = (Some id, s') -> rs_view s id = None /\ is_Some (rs_view s' id).
Proof.
  destruct op as [?|id' dg p|?]; simpl; try done.
  destruct (rs_reserve id' dg p s) as [a s1] eqn:E.
  destruct a as [[[] ?]|]; intros [= -> <-].
  apply rs_reserve_spec in E as (_ & H1 & H2 & _). rewrite H2. eauto.
Qed.

Lemma reservations_taken id ops s : is_Some (rs_view s id) -> reservations id ops s = 0.
Proof.
  revert s. induction ops as [|op ops IH]; intros s Hs; simpl; [done|].
  destruct (store_step op s) as [r s'] eqn:E.
  rewrite IH by (by eapply store_step_mono). case_decide; [|done]. subst r.
  apply store_step_reserved in E as [H _]. rewrite H in Hs. by destruct Hs.
Qed.

(** Reservations are exclusive.  For every receipt store that keeps the
    interface's laws (both implementations do), however the callers of any
    number of processes interleave and whatever I/O fails, at most one of
    them is told that it reserved a given request id. *)
Theorem one_reservation_per_id id ops s : reservations id ops s <= 1.
Proof.
  revert s. induction ops as [|op ops IH]; intros s; simpl; [lia|].
  destruct (store_step op s) as [r s'] eqn:E. case_decide; [|apply IH].
  subst r. apply store_step_reserved in E as [_ H]. by rewrite reservations_taken.
Qed.
End interleaving.

(** ** The journal without faults *)

Lemma json_reserve_written id dg p s st s' :
  jf_faults s = [] -> json_reserve id dg p s = (Ok (RESERVED, st), s') ->
  exists recs, s' = mkJson (_write recs) [].
Proof.
  intros Hf. unfold json_reserve, next_fault. rewrite Hf.
  destruct (_read (jf_file s)) as [recs|]; [|done].
  destruct (dict_get recs id); intros H; simplify_eq; [by destruct (py_eqb _ _)|].
  rewrite Hf. eauto.
Qed.

Lemma json_finalize_written id dg o recs :
  exists recs', json_finalize id dg o (mkJson (_write recs) []) = (Ok tt, mkJson (_write recs') [])
    /\ dict_get recs' id = Some (mkStored dg o false).
Proof.
  unfold json_finalize, next_fault. cbn [jf_faults jf_file]. rewrite read_write.
  eexists. split; [reflexivity|]. apply dict_get_set_eq.
Qed.

Lemma json_lookup_written id recs :
  json_lookup id (mkJson (_write recs) [])
  = (Ok (StoredOutcome_norm <$> dict_get recs id), mkJson (_write recs) []).
Proof.
  unfold json_lookup, next_fault. cbn [jf_faults jf_file]. rewrite read_write. simpl.
  by rewrite dict_get_map, dict_get_sort.
Qed.
