(* ===== verification/ExecutionKernel.v ===== *)
(** * The operation execution kernel (src/app/operations/execution_kernel.py)

    [OperationExecutionKernel.execute] admits one operation, reserves its
    request id in the receipt store, calls the owner's handler at most once
    and finalizes the receipt; a later call with the same request id replays
    or reconciles.

    The injected callables are fields of [kernel]: each may return or raise.
    [execute] threads a [world]: the receipt store and the trace of the owner
    calls made so far.  [time()] is the argument [now]; [sha256(...).hexdigest()]
    is the parameter [sha256_hex].  The effect window of the JSON store is a
    lock and has no state of its own. *)
From Stdlib Require Import QArith.
From S2P Require Import Prelude PyValue Contracts ReceiptStore.

(** ** Data *)

Record PolicyDecision : Type := mkDecision {
  pd_admitted : bool;
  pd_policy_version : string;
  pd_reason : option string;
  pd_decision_token : option string }.

Definition PolicyDecision_allowed (policy_version decision_token : string) : PolicyDecision :=
  mkDecision true policy_version None (Some decision_token).
Definition PolicyDecision_denied (policy_version reason : string) : PolicyDecision :=
  mkDecision false policy_version (Some reason) None.

Record OwnerExecutionResult : Type := mkResult {
  or_status : OperationStatus;
  or_items : list pydict;
  or_warnings : list string;
  or_effect_id : pyval;
  or_effect_receipt : pyval;
  or_convergence : option OperationConvergence }.

Definition OwnerExecutionResult_succeeded (items : list pydict) (effect_id effect_receipt : pyval)
    : OwnerExecutionResult :=
  mkResult SUCCEEDED items [] effect_id effect_receipt None.
Definition OwnerExecutionResult_ambiguous : OwnerExecutionResult :=
  mkResult RECOVERY_REQUIRED [] ["owner outcome requires receipt reconciliation"] PNone PNone None.
Definition OwnerExecutionResult_failed (warning : string) : OwnerExecutionResult :=
  mkResult NOT_ACKNOWLEDGED [] [warning] PNone PNone None.

Abbreviation OwnerHandler := (OperationRequest -> res OwnerExecutionResult).

Record kernel : Type := mkKernel {
  k_context_resolver : OperationContext -> res bool;
  k_policy_evaluator : OperationRequest -> pydict -> res PolicyDecision;
  k_handlers : list (string * OwnerHandler);
  k_version_checker : OperationRequest -> res bool;
  k_token_validator : OperationRequest -> PolicyDecision -> res bool }.

(** [dataclasses.replace] on an outcome and on a request. *)
Definition with_status (s : OperationStatus) (o : OperationOutcome) : OperationOutcome :=
  mkOutcome (oc_request_id o) s (oc_operation_id o) (oc_context o) (oc_provenance o)
    (oc_convergence o) (oc_items o) (oc_conflict o) (oc_receipt o) (oc_recovery o)
    (oc_warnings o) (oc_extensions o).
Definition with_convergence (c : option OperationConvergence) (o : OperationOutcome) :=
  mkOutcome (oc_request_id o) (oc_status o) (oc_operation_id o) (oc_context o)
    (oc_provenance o) c (oc_items o) (oc_conflict o) (oc_receipt o) (oc_recovery o)
    (oc_warnings o) (oc_extensions o).
Definition with_receipt (r : option OperationReceipt) (o : OperationOutcome) :=
  mkOutcome (oc_request_id o) (oc_status o) (oc_operation_id o) (oc_context o)
    (oc_provenance o) (oc_convergence o) (oc_items o) (oc_conflict o) r (oc_recovery o)
    (oc_warnings o) (oc_extensions o).
Definition with_warnings (w : list string) (o : OperationOutcome) :=
  mkOutcome (oc_request_id o) (oc_status o) (oc_operation_id o) (oc_context o)
    (oc_provenance o) (oc_convergence o) (oc_items o) (oc_conflict o) (oc_receipt o)
    (oc_recovery o) w (oc_extensions o).
Definition with_extensions (e : pydict) (o : OperationOutcome) :=
  mkOutcome (oc_request_id o) (oc_status o) (oc_operation_id o) (oc_context o)
    (oc_provenance o) (oc_convergence o) (oc_items o) (oc_conflict o) (oc_receipt o)
    (oc_recovery o) (oc_warnings o) e.
Definition rq_with_delegation (d : option pydict) (r : OperationRequest) : OperationRequest :=
  mkRequest (rq_operation_id r) (rq_request_id r) (rq_context r) (rq_targets r)
    (rq_arguments r) (rq_operation_version r) (rq_mode r) (rq_expected_version r) d
    (rq_batch_policy r) (rq_provenance r) (rq_extensions r).
Definition rq_with_batch_policy (b : option pydict) (r : OperationRequest) : OperationRequest :=
  mkRequest (rq_operation_id r) (rq_request_id r) (rq_context r) (rq_targets r)
    (rq_arguments r) (rq_operation_version r) (rq_mode r) (rq_expected_version r)
    (rq_delegation r) b (rq_provenance r) (rq_extensions r).
Definition rc_with_status (s : ReceiptStatus) (r : OperationReceipt) : OperationReceipt :=
  mkReceipt (rc_receipt_id r) s (rc_payload r) (rc_extensions r).

(** ** Helpers *)

Definition _stable_nonempty_identity (value : pyval) : bool :=
  match value with PStr s => negb (String.eqb (strip s) "") | _ => false end.

Definition _valid_batch_policy (value : pyval) : bool := is_mapping value && truthy value.

Definition _with_delegated_batch_policy (request : OperationRequest) (delegation : pydict)
    : OperationRequest :=
  if Nat.ltb 1 (length (rq_targets request))
     && negb (_valid_batch_policy (opt_dict (rq_batch_policy request)))
     && _valid_batch_policy (get delegation "batch_policy")
  then match get delegation "batch_policy" with
       | PDict d => rq_with_batch_policy (Some d) request
       | _ => request
       end
  else request.

Definition _effect_receipt_ref (value : pyval) : pyval :=
  match value with
  | PDict d =>
      let receipt_id := get d "receipt_id" in
      if _stable_nonempty_identity receipt_id then PStr (py_str receipt_id) else PNone
  | _ => PNone
  end.

(** The owner metadata fields of a [write] receipt that may cross into the
    kernel receipt (a set in the source; listed here in its order). *)
Definition write_fields : list string :=
  ["owner"; "source_receipt"; "policy_decision"; "decision_token"; "authority_receipt";
   "input_version"; "resulting_version"; "projection_repair"; "effect_state"; "intent_digest"].

Definition _effect_receipt_extensions (value : pyval) : pydict :=
  match value with
  | PDict v =>
      (match get v "archival" with PDict d => [("archival", PDict d)] | _ => [] end) ++
      (match get v "placement" with PDict d => [("placement", PDict d)] | _ => [] end) ++
      (match get v "write" with
       | PDict w =>
           [("write", PDict (omap (fun k => (fun x => (k, x)) <$> dict_get w k) write_fields))]
       | _ => []
       end)
  | _ => []
  end.

Definition _receipt (request : OperationRequest) (policy_version : string)
    (intent_digest : pyval) (state : string) (delegation : option pydict)
    (effect_id effect_receipt : pyval) : OperationReceipt :=
  let dget k := match delegation with None => PNone | Some d => get d k end in
  mkReceipt
    (if is_none (dget "receipt_ref") then None else Some (py_str (dget "receipt_ref")))
    (if String.eqb state "completed" || String.eqb state "convergence_pending"
     then RECEIPT_COMMITTED else RECEIPT_PENDING)
    [("request_id", PStr (rq_request_id request));
     ("operation_id", PStr (rq_operation_id request));
     ("operation_version", PStr (rq_operation_version request));
     ("context_ref", PStr (ctx_active_context_ref (rq_context request)));
     ("vault_generation", ctx_vault_generation (rq_context request));
     ("policy_version", PStr policy_version);
     ("principal", dget "principal");
     ("client", dget "client");
     ("surface", dget "surface");
     ("delegation_ref", dget "receipt_ref");
     ("effect_id", if _stable_nonempty_identity effect_id then effect_id else PNone);
     ("effect_receipt_ref", _effect_receipt_ref effect_receipt);
     ("intent_digest", intent_digest);
     ("state", PStr state);
     ("recovery", if String.eqb state "recovery_required"
                  then PStr "read_receipt_before_retry" else PNone)]
    (_effect_receipt_extensions effect_receipt).

Definition _has_durable_owner_effect_receipt (result : OwnerExecutionResult) : bool :=
  _stable_nonempty_identity (or_effect_id result)
  && is_mapping (or_effect_receipt result)
  && negb (is_none (_effect_receipt_ref (or_effect_receipt result))).

Definition _operation_status (value : pyval) : option OperationStatus :=
  if is_none value then None
  else match OperationStatus_of (PStr (py_str value)) with Ok s => Some s | Raise _ => None end.

Definition redact_allowed : list string := ["artifact_id"; "status"; "version"; "result_version"].

Definition _redact_items (items : list pydict) : list OperationItemOutcome :=
  map (fun item =>
    mkItem
      (if is_none (get item "artifact_id") then None
       else Some (py_str (get item "artifact_id")))
      (_operation_status (get item "status"))
      (get item "version")
      (get item "result_version")
      (map (fun kv => (fst kv,
              if existsb (String.eqb (fst kv)) redact_allowed then snd kv
              else PStr "[redacted]")) item)
      []) items.

Definition _outcome (request : OperationRequest) (status : OperationStatus)
    (items : list OperationItemOutcome) (receipt : option OperationReceipt)
    (warnings : list string) : OperationOutcome :=
  mkOutcome (rq_request_id request) status (rq_operation_id request) (rq_context request)
    (rq_provenance request) None items None receipt None warnings [].

(** The refusals and summaries that carry only a warning. *)
Definition warn (request : OperationRequest) (status : OperationStatus) (w : string)
    : OperationOutcome := _outcome request status [] None [w].

(** ** Admission *)

Definition is_nonempty_str (v : pyval) : bool :=
  match v with PStr s => negb (String.eqb s "") | _ => false end.

Definition target_ids (request : OperationRequest) : list pyval :=
  map (fun target => get target "artifact_id") (rq_targets request).

(** The complement of the disjunction that refuses a delegation. *)
Definition delegation_admits (now : Q) (request : OperationRequest) (delegation : pydict)
    (stable_target_ids : list string) : bool :=
  py_eqb (get delegation "active_context_ref")
         (PStr (ctx_active_context_ref (rq_context request)))
  && py_eqb (get delegation "vault_generation") (ctx_vault_generation (rq_context request))
  && match as_seq (get delegation "operation_ids") with
     | Some l => py_in (PStr (rq_operation_id request)) l
     | None => false
     end
  && is_nonempty_str (get delegation "policy_version")
  && forallb (fun field => is_nonempty_str (get delegation field))
       ["principal"; "client"; "surface"; "receipt_ref"; "authority_class"]
  && match as_seq (get delegation "target_ids") with
     | Some admitted =>
         forallb (fun t => existsb (String.eqb t) (map py_str admitted)) stable_target_ids
     | None => false
     end
  && match get delegation "max_targets" with
     | PInt z => negb (z <? Z.of_nat (length stable_target_ids))%Z
     | PBool b => negb ((if b then 1 else 0) <? Z.of_nat (length stable_target_ids))%Z
     | _ => false
     end
  && match as_seq (get delegation "allowed_effects") with
     | Some l => py_in (PStr (rq_operation_id request)) l
     | None => false
     end
  && match num (get delegation "expires_at") with
     | Some e => negb (Qle_bool e now)
     | None => false
     end
  && match get delegation "revoked" with PBool false => true | _ => false end.

Definition _precondition_refusal (K : kernel) (now : Q) (request : OperationRequest)
    (delegation : option pydict) : option OperationOutcome :=
  if String.eqb (ctx_active_context_ref (rq_context request)) ""
     || String.eqb (rq_operation_id request) "" || String.eqb (rq_request_id request) ""
  then Some (warn request INVALID "operation, request, and explicit context are required")
  else if negb (match k_context_resolver K (rq_context request) with
                | Ok b => b | Raise _ => false end)
  then Some (warn request REJECTED "active context is unavailable")
  else match delegation with
  | None => Some (warn request REJECTED "bounded delegation is required")
  | Some delegation =>
      let target_ids := target_ids request in
      if negb (forallb _stable_nonempty_identity target_ids)
      then Some (warn request REJECTED "every target requires a stable artifact identity")
      else
        let stable_target_ids := map py_str target_ids in
        if negb (delegation_admits now request delegation stable_target_ids)
        then Some (warn request REJECTED "delegation does not admit this operation")
        else
          let request_batch_policy := opt_dict (rq_batch_policy request) in
          let delegation_batch_policy := get delegation "batch_policy" in
          let many := Nat.ltb 1 (length stable_target_ids) in
          if many && negb (_valid_batch_policy request_batch_policy
                           || _valid_batch_policy delegation_batch_policy)
          then Some (warn request REJECTED
                       "a valid batch policy is required for multiple targets")
          else if many && (_valid_batch_policy request_batch_policy
                           && _valid_batch_policy delegation_batch_policy
                           && negb (py_eqb request_batch_policy delegation_batch_policy))
          then Some (warn request REJECTED "batch policy is not bound by delegation")
          else if negb (String.eqb (rq_operation_version request) "ygg.operation.v1")
          then Some (warn request NOT_SUPPORTED "unsupported operation version")
          else None
  end.

(** ** Owner results *)

Definition _owner_outcome (request : OperationRequest) (policy_version : string)
    (intent_digest : pyval) (result : OwnerExecutionResult) (delegation : pydict)
    : OperationOutcome :=
  let receipt state :=
    Some (_receipt request policy_version intent_digest state (Some delegation)
            (or_effect_id result) (or_effect_receipt result)) in
  let items := _redact_items (or_items result) in
  match or_status result with
  | SUCCEEDED | CONVERGENCE_PENDING =>
      if negb (_has_durable_owner_effect_receipt result)
      then _outcome request RECOVERY_REQUIRED items (receipt "recovery_required")
             (or_warnings result ++
              ["owner success is missing a durable effect receipt or stable effect identity";
               "read receipt before retry"])
      else _outcome request (or_status result) items
             (receipt (if decide (or_status result = SUCCEEDED)
                       then "completed" else "convergence_pending"))
             (or_warnings result)
  | RECOVERY_REQUIRED =>
      _outcome request (or_status result) items (receipt "recovery_required")
        (or_warnings result ++ ["read receipt before retry"])
  | _ =>
      _outcome request (or_status result) items (receipt "not_acknowledged") (or_warnings result)
  end.

(** ** Execution *)

(** A call of the owner: the ordinary handler, or the reconciliation seam. *)
Inductive owner_call : Type :=
  | CallHandler (request : OperationRequest)
  | CallReconcile (request : OperationRequest).

Section kernel.
Context (sha256_hex : string -> string).

(** [json.dumps(..., sort_keys=True, separators=(",", ":"))] then the digest. *)
Definition digest (v : pyval) : string := sha256_hex (json_dumps "," ":" true v).

Definition _intent_digest (request : OperationRequest) (delegation : pydict) : pyval :=
  PStr (digest (PDict [("request", PDict (OperationRequest_to_dict request));
                       ("delegation", PDict delegation)])).

Definition _decision_digest (decision : PolicyDecision) : pyval :=
  PStr (digest (PDict [("policy_version", PStr (pd_policy_version decision));
                       ("decision_token", opt_str (pd_decision_token decision))])).

Context {S : Type} `{!ReceiptStore S}.

Record world : Type := mkWorld { w_store : S; w_trace : list owner_call }.

Definition on_store {A} (f : S -> A * S) (w : world) : A * world :=
  let '(a, s) := f (w_store w) in (a, mkWorld s (w_trace w)).
Definition log (c : owner_call) (w : world) : world :=
  mkWorld (w_store w) (w_trace w ++ [c]).

(** The convergence journaled before a recovery attempt. *)
Definition recovery_convergence (c : option OperationConvergence) : OperationConvergence :=
  match c with
  | None => mkConvergence UNKNOWN REBUILD_REQUIRED REBUILD_REQUIRED REBUILD_REQUIRED []
  | Some c =>
      if decide (conv_source_effect c = COMMITTED) then c
      else mkConvergence UNKNOWN REBUILD_REQUIRED REBUILD_REQUIRED REBUILD_REQUIRED
             (conv_extensions c)
  end.

(** The decision under which recovery is admitted now, if it is. *)
Definition recovery_decision (K : kernel) (now : Q) (request : OperationRequest)
    (delegation : pydict) : option PolicyDecision :=
  match _precondition_refusal K now request (Some delegation) with
  | Some _ => None
  | None =>
      match k_policy_evaluator K request delegation with
      | Raise _ => None
      | Ok decision =>
          if pd_admitted decision
             && py_eqb (PStr (pd_policy_version decision)) (get delegation "policy_version")
             && match k_token_validator K request decision with
                | Ok b => b | Raise _ => false end
          then Some decision else None
      end
  end.

Definition is_committed (c : option OperationConvergence) : bool :=
  match c with
  | Some c => bool_decide (conv_source_effect c = COMMITTED)
  | None => false
  end.

(** What the owner's reconciliation answer amounts to: an outcome to
    finalize, or the journaled attempt returned as unresolved. *)
Definition reconciled (request : OperationRequest) (delegation : pydict)
    (prior : StoredOutcome) (result : res OwnerExecutionResult)
    : OperationOutcome + OperationOutcome :=
  let unresolved :=
    inr (with_warnings (oc_warnings (st_outcome prior) ++
           ["owner receipt reconciliation remains unresolved"])
           (with_status RECOVERY_REQUIRED (st_outcome prior))) in
  match result, getitem (PDict delegation) "policy_version" with
  | Ok result, Ok policy_version =>
      let outcome := _owner_outcome request (py_str policy_version)
                       (st_intent_digest prior) result delegation in
      let outcome :=
        with_extensions
          (dict_set (oc_extensions outcome) "admission_decision_digest"
             (get (oc_extensions (st_outcome prior)) "admission_decision_digest"))
          (with_convergence (or_convergence result) outcome) in
      let retained :=
        with_warnings (oc_warnings (st_outcome prior) ++ or_warnings result)
          (with_status RECOVERY_REQUIRED (st_outcome prior)) in
      if bool_decide (or_status result ∈ [REJECTED; INVALID; NOT_FOUND; NOT_SUPPORTED])
      then inr (with_extensions
                  (dict_set (oc_extensions (st_outcome prior)) "recovery_admission"
                     (PStr (OperationStatus_value (or_status result)))) retained)
      else if is_none (or_effect_receipt result)
              || is_committed (oc_convergence (st_outcome prior))
                 && negb (is_committed (oc_convergence outcome))
      then inr retained
      else inl outcome
  | _, _ => unresolved
  end.

Definition _reconcile (K : kernel) (now : Q) (request : OperationRequest)
    (delegation : pydict) (prior : StoredOutcome) (reconcile : OwnerHandler)
    (owner_request : OperationRequest) (w : world) : OperationOutcome * world :=
  let po := st_outcome prior in
  let refuse ext warning :=
    with_warnings (oc_warnings po ++ [warning])
      (with_extensions (match ext with
                        | Some e => dict_set (oc_extensions po) "recovery_admission" (PStr e)
                        | None => oc_extensions po end)
        (with_status RECOVERY_REQUIRED po)) in
  if negb rs_is_json
  then (refuse None "native recovery requires the durable receipt journal", w)
  else match recovery_decision K now request delegation with
  | None =>
      (refuse (Some "refused")
         "current recovery admission refused; historical effect truth retained", w)
  | Some decision =>
      let captured := get (oc_extensions po) "admission_decision_digest" in
      if negb (truthy captured) || negb (py_eqb (_decision_digest decision) captured)
      then (refuse (Some "decision_rebinding_refused")
              "recovery cannot replace the originally captured kernel decision", w)
      else
        let pending :=
          with_warnings (dict_fromkeys (oc_warnings po ++
             ["native recovery may start; reconcile its current receipt before another attempt"]))
            (with_receipt (rc_with_status RECEIPT_PENDING <$> oc_receipt po)
              (with_convergence (Some (recovery_convergence (oc_convergence po)))
                (with_status RECOVERY_REQUIRED po))) in
        let '(r, w) := on_store (rs_finalize (rq_request_id request)
                                   (st_intent_digest prior) pending) w in
        match r with
        | Raise _ =>
            (refuse None "recovery attempt was not durably reserved; owner was not called", w)
        | Ok _ =>
            let prior := mkStored (st_intent_digest prior) pending true in
            let w := log (CallReconcile owner_request) w in
            match reconciled request delegation prior (reconcile owner_request) with
            | inr o => (o, w)
            | inl outcome =>
                let '(r, w) := on_store (rs_finalize (rq_request_id request)
                                           (st_intent_digest prior) outcome) w in
                match r with
                | Ok _ => (outcome, w)
                | Raise _ =>
                    (with_warnings (oc_warnings outcome ++
                       ["reconciled owner evidence is known; kernel persistence remains pending"])
                       (with_receipt (rc_with_status RECEIPT_PENDING <$> oc_receipt outcome)
                         (with_status RECOVERY_REQUIRED outcome)), w)
                end
            end
        end
  end.

(** The owner call and the outcome it leads to, before finalization. *)
Definition run_owner (K : kernel) (request owner_request : OperationRequest)
    (decision : PolicyDecision) (intent_digest : pyval) (delegation : pydict) (w : world)
    : OperationOutcome * world :=
  match dict_get (k_handlers K) (rq_operation_id request) with
  | None =>
      (_outcome request NOT_SUPPORTED []
         (Some (_receipt request (pd_policy_version decision) intent_digest "not_supported"
                  None PNone PNone)) [], w)
  | Some handler =>
      let owner_result :=
        match handler owner_request with
        | Ok r => r
        | Raise _ => OwnerExecutionResult_ambiguous
        end in
      (with_convergence (or_convergence owner_result)
         (_owner_outcome request (pd_policy_version decision) intent_digest owner_result
            delegation),
       log (CallHandler owner_request) w)
  end.

(** [replace(outcome, ...)] after a failed finalization. *)
Definition unfinalized (outcome : OperationOutcome) : OperationOutcome :=
  with_warnings (oc_warnings outcome ++ ["owner result requires durable receipt reconciliation"])
    (with_receipt
       ((fun r => mkReceipt (rc_receipt_id r) RECEIPT_PENDING
           (dict_merge (rc_payload r)
              [("state", PStr "applied_receipt_pending");
               ("recovery", PStr "read_receipt_before_retry")]) (rc_extensions r))
        <$> oc_receipt outcome)
      (with_status RECOVERY_REQUIRED outcome)).

Definition bind_decision (bind_owner_delegation : bool) (decision : PolicyDecision)
    (o : OperationOutcome) : OperationOutcome :=
  if bind_owner_delegation
  then with_extensions (dict_set (oc_extensions o) "admission_decision_digest"
                          (_decision_digest decision)) o
  else o.

(** Policy, token and version gates. *)
Definition admission (K : kernel) (request : OperationRequest) (delegation : pydict)
    : PolicyDecision + OperationOutcome :=
  match k_policy_evaluator K request delegation with
  | Raise _ => inr (warn request REJECTED "policy evaluation is unavailable")
  | Ok decision =>
      if negb (pd_admitted decision)
      then inr (warn request REJECTED
                  (match pd_reason decision with
                   | Some (String c s) => String c s
                   | _ => "policy denied operation" end))
      else if negb (py_eqb (PStr (pd_policy_version decision))
                      (get delegation "policy_version"))
      then inr (warn request REJECTED "delegation policy version is stale")
      else if negb (match k_token_validator K request decision with
                    | Ok b => b | Raise _ => false end)
      then inr (warn request REJECTED "decision token is missing or invalid")
      else if negb (match k_version_checker K request with
                    | Ok b => b | Raise _ => false end)
      then inr (warn request CONFLICTED "version precondition failed")
      else inl decision
  end.

(** Reservation, owner call and finalization of an admitted operation. *)
Definition admitted (K : kernel) (request owner_request : OperationRequest)
    (decision : PolicyDecision) (intent_digest : pyval) (delegation : pydict)
    (bind_owner_delegation : bool) (w : world) : OperationOutcome * world :=
  let pending :=
    _outcome request RECOVERY_REQUIRED []
      (Some (_receipt request (pd_policy_version decision) intent_digest
               "applied_receipt_pending" (Some delegation) PNone PNone))
      ["owner effect may have started; reconcile receipt before retry"] in
  let pending :=
    if bind_owner_delegation
    then with_extensions [("admission_decision_digest", _decision_digest decision)] pending
    else pending in
  let '(r, w) := on_store (rs_reserve (rq_request_id request) intent_digest pending) w in
  match r with
  | Raise _ =>
      (warn request RECOVERY_REQUIRED
         "receipt ledger is unavailable; owner effect was not started", w)
  | Ok (REPLAY, stored) => (st_outcome stored, w)
  | Ok (CONFLICT, _) =>
      (warn request CONFLICTED "request_id is already bound to different intent", w)
  | Ok (RESERVED, _) =>
      let '(outcome, w) :=
        run_owner K request owner_request decision intent_digest delegation w in
      let outcome := bind_decision bind_owner_delegation decision outcome in
      let '(r, w) := on_store (rs_finalize (rq_request_id request) intent_digest outcome) w in
      match r with Ok _ => (outcome, w) | Raise _ => (unfinalized outcome, w) end
  end.

Definition _execute (K : kernel) (now : Q) (request : OperationRequest)
    (delegation : option pydict) (reconcile : option OwnerHandler)
    (bind_owner_delegation : bool) (w : world) : OperationOutcome * world :=
  match match delegation with Some d => Some d | None => rq_delegation request end with
  | None => (warn request REJECTED "bounded delegation is required", w)
  | Some delegation =>
      let request := _with_delegated_batch_policy request delegation in
      let intent_digest := _intent_digest request delegation in
      let owner_request :=
        if bind_owner_delegation then rq_with_delegation (Some delegation) request
        else request in
      let '(r, w) := on_store (rs_lookup (rq_request_id request)) w in
      match r with
      | Raise _ =>
          (warn request RECOVERY_REQUIRED
             "receipt ledger is unavailable; owner effect was not started", w)
      | Ok (Some prior) =>
          if py_eqb (st_intent_digest prior) intent_digest
          then match reconcile with
               | Some reconcile =>
                   if bool_decide (oc_status (st_outcome prior)
                                   ∈ [RECOVERY_REQUIRED; NOT_ACKNOWLEDGED])
                   then _reconcile K now request delegation prior reconcile owner_request w
                   else (st_outcome prior, w)
               | None => (st_outcome prior, w)
               end
          else (warn request CONFLICTED "request_id is already bound to different intent", w)
      | Ok None =>
          match _precondition_refusal K now request (Some delegation) with
          | Some refusal => (refusal, w)
          | None =>
              match admission K request delegation with
              | inr refusal => (refusal, w)
              | inl decision =>
                  admitted K request owner_request decision intent_digest delegation
                    bind_owner_delegation w
              end
          end
      end
  end.

(** The public entry point: the effect window is a lock around [_execute]. *)
Definition execute (K : kernel) (now : Q) (request : OperationRequest)
    (delegation : option pydict) (reconcile : option OwnerHandler)
    (bind_owner_delegation : bool) (w : world) : OperationOutcome * world :=
  _execute K now request delegation reconcile bind_owner_delegation w.
End kernel.

Arguments world S : clear implicits.
Arguments mkWorld {S} w_store w_trace.
Arguments w_store {S} w.
Arguments w_trace {S} w.

(** ** Properties *)

Section properties.
Context (sha256_hex : string -> string).
Context {S : Type} `{!ReceiptStore S} `{!ReceiptStoreSpec S}.
Implicit Types (w : world S).

Abbreviation view w id := (rs_view (w_store w) id).
Abbreviation execute := (execute sha256_hex).

(** The owner call a step makes, if any, with what the store said. *)
Definition step_shape (request : OperationRequest) (w w' : world S) : Prop :=
  w_trace w' = w_trace w
  \/ (exists r, w_trace w' = w_trace w ++ [CallReconcile r])
  \/ (exists r, w_trace w' = w_trace w ++ [CallHandler r]
      /\ rq_request_id r = rq_request_id request
      /\ view w (rq_request_id request) = None
      /\ is_Some (view w' (rq_request_id request))).

Definition view_mono (w w' : world S) : Prop :=
  forall j, is_Some (view w j) -> is_Some (view w' j).

Lemma batch_policy_request_id r d :
  rq_request_id (_with_delegated_batch_policy r d) = rq_request_id r.
Proof. unfold _with_delegated_batch_policy. by repeat case_match. Qed.

Lemma batch_policy_targets r d :
  rq_targets (_with_delegated_batch_policy r d) = rq_targets r.
Proof. unfold _with_delegated_batch_policy. by repeat case_match. Qed.
Lemma batch_policy_operation_id r d :
  rq_operation_id (_with_delegated_batch_policy r d) = rq_operation_id r.
Proof. unfold _with_delegated_batch_policy. by repeat case_match. Qed.

Lemma on_store_finalize id dg o w r w' :
  on_store (rs_finalize id dg o) w = (r, w') ->
  w_trace w' = w_trace w /\ view_mono w w' /\ rs_finalize id dg o (w_store w) = (r, w_store w').
Proof.
  unfold on_store. destruct (rs_finalize id dg o (w_store w)) as [a s] eqn:E.
  intros [= <- <-]. split; [done|]. split; [|done]. intros j. simpl.
  by eapply rs_finalize_mono.
Qed.

Lemma on_store_reserve id dg o w r w' :
  on_store (rs_reserve id dg o) w = (r, w') ->
  w_trace w' = w_trace w /\ view_mono w w' /\ rs_reserve id dg o (w_store w) = (r, w_store w').
Proof.
  unfold on_store. destruct (rs_reserve id dg o (w_store w)) as [a s] eqn:E.
  intros [= <- <-]. split; [done|]. split; [|done]. intros j. simpl.
  by eapply rs_reserve_mono.
Qed.

Lemma on_store_lookup id w r w' :
  on_store (rs_lookup id) w = (r, w') ->
  w_trace w' = w_trace w /\ (forall j, view w' j = view w j) /\
  rs_lookup id (w_store w) = (r, w_store w').
Proof.
  unfold on_store. destruct (rs_lookup id (w_store w)) as [a s] eqn:E.
  intros [= <- <-]. split; [done|]. split; [|done]. intros j. simpl.
  by eapply rs_lookup_view.
Qed.

Lemma _reconcile_step K now rq d prior rec orq w o w' :
  _reconcile sha256_hex K now rq d prior rec orq w = (o, w') ->
  view_mono w w' /\
  (w_trace w' = w_trace w \/ w_trace w' = w_trace w ++ [CallReconcile orq]).
Proof.
  unfold _reconcile. intros H.
  destruct (negb rs_is_json); [simplify_eq; split; [by intros ?|by left]|].
  destruct (recovery_decision _ _ _ _) as [dec|]; [|simplify_eq; split; [by intros ?|by left]].
  destruct (_ || _); [simplify_eq; split; [by intros ?|by left]|].
  destruct (on_store _ w) as [r1 w1] eqn:E1.
  apply on_store_finalize in E1 as (T1 & M1 & _).
  destruct r1; [|simplify_eq; split; [done|by left]].
  destruct (reconciled _ _ _ _) as [oc|oc].
  2: { simplify_eq. split; [exact M1|]. right. simpl. by rewrite T1. }
  destruct (on_store _ (log _ w1)) as [r2 w2] eqn:E2.
  apply on_store_finalize in E2 as (T2 & M2 & _). simpl in T2.
  assert (w' = w2) as -> by (destruct r2; congruence).
  split; [intros j Hj; apply M2, M1, Hj|]. right. by rewrite T2, T1.
Qed.

Lemma run_owner_step K rq orq dec dg d w o w' :
  run_owner K rq orq dec dg d w = (o, w') ->
  w_store w' = w_store w /\
  (w_trace w' = w_trace w \/ w_trace w' = w_trace w ++ [CallHandler orq]).
Proof.
  unfold run_owner. intros H. destruct (dict_get _ _); simplify_eq/=; split; auto.
Qed.

Lemma admitted_step K rq orq dec dg d b w o w' :
  rq_request_id orq = rq_request_id rq ->
  admitted sha256_hex K rq orq dec dg d b w = (o, w') ->
  view_mono w w' /\ step_shape rq w w'.
Proof.
  intros Hid. unfold admitted. cbv zeta. destruct (on_store _ w) as [r1 w1] eqn:E1.
  apply on_store_reserve in E1 as (T1 & M1 & R1). intros H.
  destruct r1 as [[[] st]|e]; try (simplify_eq; split; [done|by left]).
  destruct (run_owner _ _ _ _ _ _ w1) as [oc w2] eqn:E2.
  apply run_owner_step in E2 as [S2 T2].
  destruct (on_store _ w2) as [r3 w3] eqn:E3.
  apply on_store_finalize in E3 as (T3 & M3 & _).
  assert (w' = w3) as -> by (destruct r3; congruence).
  assert (M : view_mono w w3) by (intros j Hj; apply M3; rewrite S2; by apply M1).
  split; [done|]. apply rs_reserve_spec in R1 as (_ & N & Y & _).
  destruct T2 as [T2|T2]; [left; congruence|]. right. right. exists orq.
  rewrite T3, T2, T1. repeat split; try done. apply M3. rewrite S2, Y. eauto.
Qed.

(** What one call of [execute] can do to the store and to the trace. *)
Lemma execute_step K now rq d rec b w o w' :
  execute K now rq d rec b w = (o, w') -> view_mono w w' /\ step_shape rq w w'.
Proof.
  unfold ExecutionKernel.execute, _execute.
  destruct (match d with Some _ => _ | None => _ end) as [dl|];
    [|intros [= <- <-]; split; [by intros ?|by left]].
  cbv zeta. destruct (on_store _ w) as [r1 w1] eqn:E1.
  apply on_store_lookup in E1 as (T1 & V1 & _).
  assert (M1 : view_mono w w1) by (intros j; by rewrite V1).
  intros H. destruct r1 as [[prior|]|e]; [| |simplify_eq; split; [done|by left]].
  - destruct (py_eqb _ _); [|simplify_eq; split; [done|by left]].
    destruct rec as [rec|]; [|simplify_eq; split; [done|by left]].
    destruct (bool_decide _); [|simplify_eq; split; [done|by left]].
    apply _reconcile_step in H as [M2 T2]. split; [intros j Hj; by apply M2, M1|].
    destruct T2 as [T2|T2]; [left; congruence|right; left; eexists; by rewrite T2, T1].
  - destruct (_precondition_refusal _ _ _ _); [simplify_eq; split; [done|by left]|].
    destruct (admission _ _ _) as [dec|ref]; [|simplify_eq; split; [done|by left]].
    apply admitted_step in H as [M2 T2]; [|by destruct b].
    split; [intros j Hj; by apply M2, M1|]. unfold step_shape in *.
    rewrite T1, V1, batch_policy_request_id in T2. exact T2.
Qed.

(** *** Sequences of calls

    Each call brings its own callables, clock and arguments, so policies,
    delegations and handlers may change between calls. *)
Record exec_call : Type := mkCall {
  ec_kernel : kernel;
  ec_now : Q;
  ec_request : OperationRequest;
  ec_delegation : option pydict;
  ec_reconcile : option OwnerHandler;
  ec_bind : bool }.

Definition exec_one (w : world S) (c : exec_call) : world S :=
  snd (execute (ec_kernel c) (ec_now c) (ec_request c) (ec_delegation c)
         (ec_reconcile c) (ec_bind c) w).
Definition exec_all (w : world S) (cs : list exec_call) : world S := foldl exec_one w cs.

Definition is_handler_call (id : string) (c : owner_call) : bool :=
  match c with CallHandler r => String.eqb (rq_request_id r) id | CallReconcile _ => false end.
Definition handler_calls (id : string) (w : world S) : nat :=
  length (List.filter (is_handler_call id) (w_trace w)).

Lemma exec_one_calls id w c :
  view_mono w (exec_one w c) /\
  (handler_calls id (exec_one w c) = handler_calls id w
   \/ handler_calls id (exec_one w c) = Datatypes.S (handler_calls id w)
      /\ view w id = None /\ is_Some (view (exec_one w c) id)).
Proof.
  unfold exec_one, handler_calls. destruct (execute _ _ _ _ _ _ w) as [o w'] eqn:E.
  apply execute_step in E as [M T]. cbn [snd]. split; [done|].
  destruct T as [->|[[r ->]|(r & -> & Hr & N & Y)]]; [by left| |].
  - left. rewrite List.filter_app, length_app. simpl. lia.
  - rewrite List.filter_app, length_app. simpl.
    destruct (String.eqb (rq_request_id r) id) eqn:Eq; simpl; [|left; lia].
    apply String.eqb_eq in Eq as <-. right. rewrite Hr. split; [lia|done].
Qed.

(** With a record on file the ordinary handler is out of reach. *)
Lemma handler_calls_recorded id w cs :
  is_Some (view w id) -> handler_calls id (exec_all w cs) = handler_calls id w.
Proof.
  revert w. induction cs as [|c cs IH]; intros w Hw; simpl; [done|].
  destruct (exec_one_calls id w c) as [M [E|(_ & N & _)]].
  - rewrite IH by (by apply M). done.
  - rewrite N in Hw. by destruct Hw.
Qed.

Lemma handler_calls_bound id w cs :
  handler_calls id (exec_all w cs) <= Datatypes.S (handler_calls id w).
Proof.
  revert w. induction cs as [|c cs IH]; intros w; simpl; [lia|].
  destruct (exec_one_calls id w c) as [M [E|(E & N & Y)]].
  - etrans; [apply IH|]. by rewrite E.
  - fold (exec_all (exec_one w c) cs). rewrite handler_calls_recorded by done. lia.
Qed.

(** C1: the owner's handler runs at most once per request id, in every
    sequence of [execute] calls, whatever the callables answer, whichever
    handlers, policies and delegations the calls bring and whichever store
    operations fail. *)
Theorem handler_at_most_once id s cs :
  handler_calls id (exec_all (mkWorld s []) cs) <= 1.
Proof. apply (handler_calls_bound id (mkWorld s []) cs). Qed.

(** Once a record exists for a request id - in particular the in-flight
    reservation a crash left behind - no later call reaches the ordinary
    handler for it again. *)
Theorem crash_never_reruns_owner id w cs :
  is_Some (view w id) -> handler_calls id (exec_all w cs) = handler_calls id w.
Proof. apply handler_calls_recorded. Qed.

(** *** Admission *)

(** Everything the gates promise about a call that reached the handler. *)
Definition admitted_call (K : kernel) (now : Q) (rq : OperationRequest) (d : pydict) : Prop :=
  let rq := _with_delegated_batch_policy rq d in
  _precondition_refusal K now rq (Some d) = None /\
  exists dec, k_policy_evaluator K rq d = Ok dec /\ pd_admitted dec = true /\
    get d "policy_version" = PStr (pd_policy_version dec) /\
    k_token_validator K rq dec = Ok true /\ k_version_checker K rq = Ok true.

Lemma admission_inl K rq d dec :
  admission K rq d = inl dec ->
  k_policy_evaluator K rq d = Ok dec /\ pd_admitted dec = true /\
  get d "policy_version" = PStr (pd_policy_version dec) /\
  k_token_validator K rq dec = Ok true /\ k_version_checker K rq = Ok true.
Proof.
  unfold admission. intros H.
  destruct (k_policy_evaluator K rq d) as [dec'|]; [|done].
  destruct (pd_admitted dec') eqn:A; cbn [negb] in H; [|done].
  destruct (py_eqb _ _) eqn:V; cbn [negb] in H; [|done].
  destruct (k_token_validator K rq dec') as [[]|] eqn:T; simpl in H; try done.
  destruct (k_version_checker K rq) as [[]|] eqn:C; simpl in H; try done.
  simplify_eq. apply py_eqb_str_l in V. done.
Qed.

Lemma execute_handler_admitted K now rq d rec b w o w' r :
  execute K now rq d rec b w = (o, w') -> w_trace w' = w_trace w ++ [CallHandler r] ->
  exists dl, match d with Some x => Some x | None => rq_delegation rq end = Some dl /\
    admitted_call K now rq dl.
Proof.
  unfold ExecutionKernel.execute, _execute.
  assert (N : forall c, w_trace w <> w_trace w ++ [c])
    by (intros c H%(f_equal length); rewrite length_app in H; simpl in H; lia).
  destruct (match d with Some _ => _ | None => _ end) as [dl|]; [|intros [= <- <-] Q; by apply N in Q].
  cbv zeta. destruct (on_store _ w) as [r1 w1] eqn:E1.
  apply on_store_lookup in E1 as (T1 & V1 & _). rewrite <- T1 in N. rewrite <- T1. intros H HT.
  destruct r1 as [[prior|]|e]; [| |simplify_eq; by apply N in HT].
  - destruct (py_eqb _ _); [|simplify_eq; by apply N in HT].
    destruct rec as [rec|]; [|simplify_eq; by apply N in HT].
    destruct (bool_decide _); [|simplify_eq; by apply N in HT].
    apply _reconcile_step in H as [_ [T|T]]; rewrite T in HT; [by apply N in HT|].
    by apply app_inj_tail in HT as [_ [=]].
  - destruct (_precondition_refusal _ _ _ _) eqn:P; [simplify_eq; by apply N in HT|].
    destruct (admission _ _ _) as [dec|ref] eqn:A; [|simplify_eq; by apply N in HT].
    exists dl. split; [done|]. split; [done|]. exists dec. by apply admission_inl.
Qed.

Lemma precondition_admits K now rq d :
  _precondition_refusal K now rq (Some d) = None ->
  forallb _stable_nonempty_identity (target_ids rq) = true /\
  delegation_admits now rq d (map py_str (target_ids rq)) = true.
Proof. unfold _precondition_refusal. intros H. repeat case_match; bool_prop; done. Qed.

(** C2: an owner is called only inside a live, unrevoked delegation that
    names the operation and every target, under a policy decision that
    admitted it: the handler was reached only if the delegation is not
    revoked, expires after the current time, lists the operation among its
    allowed effects and every target among its targets, and carries the
    version of the admitting policy decision. *)
Theorem handler_only_when_delegated K now rq d rec b w o w' r :
  execute K now rq d rec b w = (o, w') -> w_trace w' = w_trace w ++ [CallHandler r] ->
  exists dl e l ts,
    match d with Some x => Some x | None => rq_delegation rq end = Some dl
    /\ get dl "revoked" = PBool false
    /\ num (get dl "expires_at") = Some e /\ (now < e)%Q
    /\ as_seq (get dl "allowed_effects") = Some l /\ PStr (rq_operation_id rq) ∈ l
    /\ as_seq (get dl "target_ids") = Some ts
    /\ (forall t, t ∈ rq_targets rq -> exists i, get t "artifact_id" = PStr i /\ i ∈ map py_str ts)
    /\ exists dec, k_policy_evaluator K (_with_delegated_batch_policy rq dl) dl = Ok dec
       /\ pd_admitted dec = true /\ get dl "policy_version" = PStr (pd_policy_version dec).
Proof.
  intros H T. destruct (execute_handler_admitted _ _ _ _ _ _ _ _ _ _ H T)
    as (dl & Hd & P & dec & Hdec & Ha & Hv & _ & _).
  apply precondition_admits in P as [St Ad].
  unfold delegation_admits, target_ids in *.
  rewrite batch_policy_targets in *. rewrite batch_policy_operation_id in *. bool_prop.
  destruct (as_seq (get dl "allowed_effects")) as [l|] eqn:El; [|done].
  destruct (as_seq (get dl "target_ids")) as [ts|] eqn:Et; [|done].
  destruct (num (get dl "expires_at")) as [e|] eqn:Ee; [|done].
  exists dl, e, l, ts. rewrite El, Et, Ee. split_and!; try done.
  - destruct (get dl "revoked") as [|[]| | | | | |]; done.
  - apply Qnot_le_lt. rewrite <- Qle_bool_iff. bool_prop. congruence.
  - by apply py_in_str.
  - intros t Ht%list_elem_of_In. rewrite forallb_forall in St.
    specialize (St _ (in_map (fun t => get t "artifact_id") _ _ Ht)).
    destruct (get t "artifact_id") as [| | | |i| | |] eqn:Ei; try done.
    exists i. split; [done|].
    match goal with H : forallb _ (map py_str _) = true |- _ => rewrite forallb_forall in H;
      specialize (H i) end.
    apply existsb_eqb_In. match goal with H : _ -> existsb _ _ = true |- _ => apply H end.
    apply in_map_iff. exists (PStr i). split; [done|].
    apply in_map_iff. exists t. done.
  - eauto.
Qed.

(** *** Acknowledgement *)

Definition recorded (st : OperationStatus) (w : world S) (id : string) : Prop :=
  exists x, view w id = Some x /\ oc_status (st_outcome x) = st.

Lemma on_store_finalize_recorded id dg o w w' u :
  on_store (rs_finalize id dg o) w = (Ok u, w') -> recorded (oc_status o) w' id.
Proof.
  intros (_ & _ & F)%on_store_finalize. apply rs_finalize_spec in F as [F _].
  eexists. split; [exact F|]. by rewrite rs_keep_status.
Qed.

Lemma _reconcile_recorded K now rq d prior rec orq w o w' :
  _reconcile sha256_hex K now rq d prior rec orq w = (o, w') ->
  oc_status o = RECOVERY_REQUIRED \/ recorded (oc_status o) w' (rq_request_id rq).
Proof.
  unfold _reconcile. intros H.
  destruct (negb rs_is_json); [simplify_eq; by left|].
  destruct (recovery_decision _ _ _ _) as [dec|]; [|simplify_eq; by left].
  destruct (_ || _); [simplify_eq; by left|].
  destruct (on_store _ w) as [r1 w1] eqn:E1. destruct r1; [|simplify_eq; by left].
  destruct (reconciled _ _ _ _) as [oc|oc] eqn:R.
  - destruct (on_store _ (log _ w1)) as [r2 w2] eqn:E2.
    destruct r2 as [u|]; simplify_eq; [|by left]. right.
    by apply on_store_finalize_recorded in E2.
  - simplify_eq. left. unfold reconciled in R. repeat case_match; simplify_eq; done.
Qed.

Lemma admitted_recorded K rq orq dec dg d b w o w' :
  admitted sha256_hex K rq orq dec dg d b w = (o, w') ->
  oc_status o = RECOVERY_REQUIRED \/ oc_status o = CONFLICTED
  \/ recorded (oc_status o) w' (rq_request_id rq).
Proof.
  unfold admitted. cbv zeta. destruct (on_store _ w) as [r1 w1] eqn:E1.
  apply on_store_reserve in E1 as (_ & _ & R1). intros H.
  destruct r1 as [[[] st]|e]; simplify_eq; auto.
  - destruct (run_owner _ _ _ _ _ _ w1) as [oc w2] eqn:E2.
    destruct (on_store _ w2) as [[u|] w3] eqn:E3; simplify_eq; auto.
    apply on_store_finalize_recorded in E3. auto.
  - apply rs_reserve_spec in R1 as (R1 & _ & V). right; right. eexists.
    rewrite V. by rewrite R1.
Qed.

(** Success is never acknowledged without a durable record of it: when
    [execute] answers SUCCEEDED (or CONVERGENCE_PENDING), the store holds a
    record for the request id with that same status. *)
Theorem success_is_durably_recorded K now rq d rec b w o w' :
  execute K now rq d rec b w = (o, w') ->
  oc_status o = SUCCEEDED \/ oc_status o = CONVERGENCE_PENDING ->
  exists x, view w' (rq_request_id rq) = Some x /\ oc_status (st_outcome x) = oc_status o.
Proof.
  unfold ExecutionKernel.execute, _execute. intros H Ho.
  assert (W : forall r st m, o = warn r st m -> st = SUCCEEDED \/ st = CONVERGENCE_PENDING)
    by (intros ? ? ? ->; done).
  destruct (match d with Some _ => _ | None => _ end) as [dl|]; [|naive_solver].
  cbv zeta in H. destruct (on_store _ w) as [r1 w1] eqn:E1.
  apply on_store_lookup in E1 as (_ & V1 & L1). apply rs_lookup_spec in L1 as [_ L1].
  rewrite batch_policy_request_id in L1.
  destruct r1 as [[prior|]|e]; [| |naive_solver].
  - assert (P : view w1 (rq_request_id rq) = Some prior) by (by rewrite V1).
    destruct (py_eqb _ _); [|naive_solver].
    destruct rec as [rec|]; [|simplify_eq; eauto].
    destruct (bool_decide _); [|simplify_eq; eauto].
    apply _reconcile_recorded in H as [H|H]; [rewrite H in Ho; naive_solver|].
    by rewrite batch_policy_request_id in H.
  - destruct (_precondition_refusal _ _ _ _) eqn:P.
    { exfalso. unfold _precondition_refusal in P. repeat case_match; simplify_eq; naive_solver. }
    destruct (admission _ _ _) as [dec|ref] eqn:A.
    2: { exfalso. unfold admission in A. repeat case_match; simplify_eq; naive_solver. }
    apply admitted_recorded in H as [H|[H|H]]; [rewrite H in Ho; naive_solver..|].
    by rewrite batch_policy_request_id in H.
Qed.

(** *** Source effects *)

Definition committed_at (w : world S) (id : string) : Prop :=
  exists x, view w id = Some x /\ is_committed (oc_convergence (st_outcome x)) = true.

Lemma is_committed_keep x :
  is_committed (oc_convergence (st_outcome (rs_keep x)))
  = is_committed (oc_convergence (st_outcome x)).
Proof.
  pose proof (rs_keep_source x) as H. unfold is_committed.
  destruct (oc_convergence (st_outcome (rs_keep x))) as [c|],
    (oc_convergence (st_outcome x)) as [c'|]; simplify_eq/=; [|done].
  by rewrite H.
Qed.

Lemma is_committed_recovery c :
  is_committed c = true -> is_committed (Some (recovery_convergence c)) = true.
Proof.
  destruct c as [c|]; [|done]. unfold is_committed, recovery_convergence. intros H.
  bool_prop. rewrite H. simpl. by rewrite H.
Qed.

Lemma finalize_committed id dg o w r w' j :
  on_store (rs_finalize id dg o) w = (r, w') -> committed_at w j ->
  (j = id -> is_committed (oc_convergence o) = true) -> committed_at w' j.
Proof.
  intros (_ & _ & F)%on_store_finalize (x & Hx & Cx) Ho. apply rs_finalize_spec in F.
  cbn zeta in F.
  assert (D : (forall j, view w' j = view w j) \/
    (view w' id = Some (rs_keep (mkStored dg o false)) /\
     forall j, j <> id -> view w' j = rs_keep <$> view w j)) by (destruct r; tauto).
  destruct D as [D|[D1 D2]]; [exists x; by rewrite D|].
  destruct (decide (j = id)) as [->|Hne].
  - eexists. split; [exact D1|]. rewrite is_committed_keep. by apply Ho.
  - exists (rs_keep x). rewrite D2, Hx by done. split; [done|]. by rewrite is_committed_keep.
Qed.

Lemma reserve_committed id dg o w r w' j :
  on_store (rs_reserve id dg o) w = (r, w') -> committed_at w j -> committed_at w' j.
Proof.
  intros (_ & _ & F)%on_store_reserve (x & Hx & Cx). apply rs_reserve_spec in F.
  cbn zeta in F.
  assert (D : (forall j, view w' j = view w j) \/
    (view w id = None /\ forall j, j <> id -> view w' j = rs_keep <$> view w j))
    by (destruct r as [[[] ?]|]; tauto).
  destruct D as [D|[D1 D2]]; [exists x; by rewrite D|].
  exists (rs_keep x). rewrite D2, Hx by congruence. split; [done|]. by rewrite is_committed_keep.
Qed.

Lemma _reconcile_committed K now rq d prior rec orq w o w' j :
  _reconcile sha256_hex K now rq d prior rec orq w = (o, w') ->
  view w (rq_request_id rq) = Some prior -> committed_at w j -> committed_at w' j.
Proof.
  unfold _reconcile. intros H Hp Hj.
  assert (Cp : j = rq_request_id rq -> is_committed (oc_convergence (st_outcome prior)) = true).
  { intros ->. destruct Hj as (x & Hx & Cx). congruence. }
  destruct (negb rs_is_json); [by simplify_eq|].
  destruct (recovery_decision _ _ _ _) as [dec|]; [|by simplify_eq].
  destruct (_ || _); [by simplify_eq|].
  destruct (on_store _ w) as [r1 w1] eqn:E1.
  assert (C1 : committed_at w1 j).
  { eapply finalize_committed; [exact E1|done|]. intros Hid. simpl.
    by apply is_committed_recovery, Cp. }
  destruct r1; [|by simplify_eq].
  destruct (reconciled _ _ _ _) as [oc|oc] eqn:R; [|by simplify_eq].
  destruct (on_store _ (log _ w1)) as [r2 w2] eqn:E2.
  assert (w' = w2) as -> by (destruct r2; congruence).
  eapply finalize_committed; [exact E2|exact C1|]. intros Hid.
  unfold reconciled in R. cbn [st_outcome oc_convergence with_warnings with_receipt
    with_convergence] in R. rewrite is_committed_recovery in R by auto.
  destruct (rec orq) as [res|]; [|done]. destruct (getitem _ _); [|done].
  destruct (bool_decide _); [done|].
  destruct (is_committed _) eqn:Ec in R; [|by rewrite orb_true_r in R].
  destruct (is_none _); simpl in R; [done|]. by simplify_eq.
Qed.

Lemma execute_committed K now rq d rec b w o w' j :
  execute K now rq d rec b w = (o, w') -> committed_at w j -> committed_at w' j.
Proof.
  unfold ExecutionKernel.execute, _execute. intros H Hj.
  destruct (match d with Some _ => _ | None => _ end) as [dl|]; [|by simplify_eq].
  cbv zeta in H. destruct (on_store _ w) as [r1 w1] eqn:E1.
  apply on_store_lookup in E1 as (_ & V1 & L1). apply rs_lookup_spec in L1 as [_ L1].
  assert (C1 : committed_at w1 j) by (destruct Hj as (x & ? & ?); exists x; by rewrite V1).
  destruct r1 as [[prior|]|e]; [| |by simplify_eq].
  - destruct (py_eqb _ _); [|by simplify_eq]. destruct rec as [rec|]; [|by simplify_eq].
    destruct (bool_decide _); [|by simplify_eq].
    eapply _reconcile_committed; [exact H|by rewrite V1|done].
  - destruct (_precondition_refusal _ _ _ _); [by simplify_eq|].
    destruct (admission _ _ _) as [dec|ref]; [|by simplify_eq].
    unfold admitted in H. cbv zeta in H. destruct (on_store _ w1) as [r2 w2] eqn:E2.
    assert (C2 : committed_at w2 j) by (by eapply reserve_committed).
    destruct r2 as [[[] st]|]; try by simplify_eq.
    destruct (run_owner _ _ _ _ _ _ w2) as [oc w3] eqn:E3. apply run_owner_step in E3 as [S3 _].
    destruct (on_store _ w3) as [r4 w4] eqn:E4.
    assert (w' = w4) as -> by (destruct r4; congruence).
    eapply finalize_committed; [exact E4|by (destruct C2 as (x & ? & ?); exists x; by rewrite S3)|].
    intros ->. apply on_store_reserve in E2 as (_ & _ & R2).
    apply rs_reserve_spec in R2 as (_ & N & _). destruct C1 as (x & Hx & _).
    rewrite N in Hx. done.
Qed.

(** C3: a source effect recorded as COMMITTED is never lost: through any
    sequence of calls, recoveries and their weaker answers included, the
    record of that request id keeps a COMMITTED source effect. *)
Theorem committed_effect_is_retained id w cs :
  (exists x, view w id = Some x /\ is_committed (oc_convergence (st_outcome x)) = true) ->
  exists x, view (exec_all w cs) id = Some x
    /\ is_committed (oc_convergence (st_outcome x)) = true.
Proof.
  change (committed_at w id -> committed_at (exec_all w cs) id). revert w.
  induction cs as [|c cs IH]; intros w Hw; simpl; [done|]. apply IH. unfold exec_one.
  destruct (execute _ _ _ _ _ _ w) as [o w'] eqn:E. by eapply execute_committed.
Qed.

(** *** Conflicts *)

(** A request id stays bound to its first intent: a call that carries a
    different intent digest answers CONFLICTED (or, when the ledger cannot
    be read, RECOVERY_REQUIRED), reaches no owner and changes no record. *)
Theorem rebound_request_conflicts K now rq d rec b w o w' x :
  execute K now rq (Some d) rec b w = (o, w') ->
  view w (rq_request_id rq) = Some x ->
  py_eqb (st_intent_digest x)
    (_intent_digest sha256_hex (_with_delegated_batch_policy rq d) d) = false ->
  (oc_status o = CONFLICTED \/ oc_status o = RECOVERY_REQUIRED)
  /\ w_trace w' = w_trace w /\ (forall j, view w' j = view w j).
Proof.
  unfold ExecutionKernel.execute, _execute. intros H Hx Hd. cbv zeta in H.
  destruct (on_store _ w) as [r1 w1] eqn:E1.
  apply on_store_lookup in E1 as (T1 & V1 & L1). apply rs_lookup_spec in L1 as [_ L1].
  rewrite batch_policy_request_id in L1. rewrite Hx in L1.
  destruct r1 as [o1|e]; [|simplify_eq; auto]. subst o1. rewrite Hd in H. simplify_eq; auto.
Qed.
End properties.

Arguments exec_call : clear implicits.

(** ** Replay from the journal *)

Section replay.
Context (sha256_hex : string -> string).

(** What the journal holds after a call that reached the handler. *)
Lemma json_handler_recorded K now rq d rec b (w : world JsonReceiptStore) o w' r :
  jf_faults (w_store w) = [] ->
  execute sha256_hex K now rq (Some d) rec b w = (o, w') ->
  w_trace w' = w_trace w ++ [CallHandler r] ->
  exists recs, w_store w' = mkJson (_write recs) []
    /\ dict_get recs (rq_request_id rq)
       = Some (mkStored (_intent_digest sha256_hex (_with_delegated_batch_policy rq d) d) o false).
Proof.
  intros Hf. unfold execute, _execute.
  assert (N : forall c, w_trace w <> w_trace w ++ [c])
    by (intros c H%(f_equal length); rewrite length_app in H; simpl in H; lia).
  cbv zeta. destruct (on_store _ w) as [r1 w1] eqn:E1.
  assert (F1 : jf_faults (w_store w1) = []).
  { unfold on_store in E1. simpl in E1. unfold json_lookup, next_fault in E1.
    rewrite Hf in E1. by simplify_eq. }
  destruct (on_store_lookup _ _ _ _ E1) as (T1 & V1 & _). rewrite <- T1 in N. rewrite <- T1. intros H HT.
  destruct r1 as [[prior|]|e]; [| |simplify_eq; by apply N in HT].
  - destruct (py_eqb _ _); [|simplify_eq; by apply N in HT].
    destruct rec as [rec|]; [|simplify_eq; by apply N in HT].
    destruct (bool_decide _); [|simplify_eq; by apply N in HT].
    destruct (_reconcile_step _ _ _ _ _ _ _ _ _ _ _ H) as [_ [T|T]];
      rewrite T in HT; [by apply N in HT|].
    by apply app_inj_tail in HT as [_ [=]].
  - destruct (_precondition_refusal _ _ _ _); [simplify_eq; by apply N in HT|].
    destruct (admission _ _ _) as [dec|ref]; [|simplify_eq; by apply N in HT].
    unfold admitted in H. cbv zeta in H. destruct (on_store _ w1) as [r2 w2] eqn:E2.
    destruct (on_store_reserve _ _ _ _ _ _ E2) as (T2 & _ & R2).
    destruct r2 as [[[] st]|];
      try (simplify_eq; rewrite T2 in HT; by apply N in HT).
    apply (json_reserve_written _ _ _ _ _ _ F1) in R2 as [recs R2].
    destruct (run_owner _ _ _ _ _ _ w2) as [oc w3] eqn:E3. apply run_owner_step in E3 as [S3 _].
    rewrite batch_policy_request_id in H. unfold on_store in H. rewrite S3, R2 in H.
    destruct (json_finalize_written (rq_request_id rq)
      (_intent_digest sha256_hex (_with_delegated_batch_policy rq d) d)
      (bind_decision sha256_hex b dec oc) recs) as (recs' & Ef & Hg).
    cbn [rs_finalize json_store] in H. rewrite Ef in H. simplify_eq. eauto.
Qed.

(** A call that ran the owner is answered from the journal ever after:
    with the same request and delegation, and whatever the policy, the
    clock and the handlers have become, [execute] returns the recorded
    outcome, calls no owner and leaves the journal as it is. *)
Theorem replay_returns_recorded_outcome K now rq d rec b (w : world JsonReceiptStore) o w' r
    K2 now2 b2 :
  jf_faults (w_store w) = [] ->
  execute sha256_hex K now rq (Some d) rec b w = (o, w') ->
  w_trace w' = w_trace w ++ [CallHandler r] ->
  execute sha256_hex K2 now2 rq (Some d) None b2 w' = (OperationOutcome_norm o, w').
Proof.
  intros Hf H T. destruct (json_handler_recorded _ _ _ _ _ _ _ _ _ _ Hf H T)
    as (recs & Hs & Hg).
  unfold execute, _execute. cbv zeta. rewrite batch_policy_request_id.
  unfold on_store. cbn [rs_lookup json_store]. rewrite Hs, json_lookup_written, Hg.
  cbn [fmap option_fmap option_map StoredOutcome_norm st_intent_digest st_outcome].
  unfold _intent_digest at 1. cbn [json_norm].
  rewrite (proj2 (py_eqb_str_l _ _)) by reflexivity.
  rewrite <- Hs. by destruct w'.
Qed.
End replay.

(** ** A concrete run *)

Module KernelRun.
Definition sha (s : string) : string := s.
Definition context : OperationContext := mkContext "ctx" (PStr "g1") [].
Definition request : OperationRequest :=
  mkRequest "artifact.update" "r1" context [[("artifact_id", PStr "a1")]]
    [("body", PStr "text")] "ygg.operation.v1" "execute" (PStr "v1") None None None [].
Definition delegation : pydict :=
  [("active_context_ref", PStr "ctx"); ("vault_generation", PStr "g1");
   ("operation_ids", PList [PStr "artifact.update"]); ("policy_version", PStr "p1");
   ("principal", PStr "human"); ("client", PStr "cli"); ("surface", PStr "vault");
   ("receipt_ref", PStr "d1"); ("authority_class", PStr "owner");
   ("target_ids", PList [PStr "a1"]); ("max_targets", PInt 1);
   ("allowed_effects", PList [PStr "artifact.update"]); ("expires_at", PInt 100);
   ("revoked", PBool false)].
Definition committed : OperationConvergence :=
  mkConvergence COMMITTED CONVERGED CONVERGED CONVERGED [].
Definition success : OwnerExecutionResult :=
  mkResult SUCCEEDED [[("artifact_id", PStr "a1"); ("body", PStr "text")]] []
    (PStr "e1") (PDict [("receipt_id", PStr "rc1")]) (Some committed).
Definition kern (h : OwnerHandler) : kernel :=
  mkKernel (fun _ => Ok true) (fun _ _ => Ok (PolicyDecision_allowed "p1" "tok"))
    [("artifact.update", h)] (fun _ => Ok true) (fun _ _ => Ok true).
Definition good : kernel := kern (fun _ => Ok success).
Definition empty : world JsonReceiptStore := mkWorld (mkJson None []) [].
Definition call : exec_call := mkCall good 50 request (Some delegation) None true.
Definition after : world JsonReceiptStore := exec_all sha empty [call].

(** The handler runs once although the request is submitted three times. *)
Lemma handler_at_most_once_witness :
  handler_calls "r1" (exec_all sha empty [call; call; call]) = 1
  /\ handler_calls "r1" (exec_all sha empty [call; call; call]) <= 1.
Proof.
  split; [vm_compute; reflexivity|].
  exact (handler_at_most_once sha "r1" (mkJson None []) [call; call; call]).
Defined.

(** A process that died between reservation and finalization. *)
Definition crashed : world JsonReceiptStore :=
  mkWorld (snd (json_reserve "r1" (_intent_digest sha request delegation)
                  (warn request RECOVERY_REQUIRED "pending") (mkJson None []))) [].

Lemma crash_never_reruns_owner_witness :
  handler_calls "r1" (exec_all sha crashed [call; call]) = handler_calls "r1" crashed.
Proof.
  apply (crash_never_reruns_owner sha "r1" crashed [call; call]).
  vm_compute. eexists. reflexivity.
Defined.

Lemma handler_only_when_delegated_witness :
  exists dl e l ts,
    Some delegation = Some dl
    /\ get dl "revoked" = PBool false
    /\ num (get dl "expires_at") = Some e /\ (50 < e)%Q
    /\ as_seq (get dl "allowed_effects") = Some l /\ PStr (rq_operation_id request) ∈ l
    /\ as_seq (get dl "target_ids") = Some ts
    /\ (forall t, t ∈ rq_targets request ->
          exists i, get t "artifact_id" = PStr i /\ i ∈ map py_str ts)
    /\ exists dec,
         k_policy_evaluator good (_with_delegated_batch_policy request dl) dl = Ok dec
         /\ pd_admitted dec = true /\ get dl "policy_version" = PStr (pd_policy_version dec).
Proof.
  refine (handler_only_when_delegated sha good 50 request (Some delegation) None true empty
            (fst (execute sha good 50 request (Some delegation) None true empty)) after
            (rq_with_delegation (Some delegation) request) _ _).
  - vm_compute. reflexivity.
  - vm_compute. reflexivity.
Defined.

Lemma success_is_durably_recorded_witness :
  exists x, rs_view (w_store after) "r1" = Some x /\ oc_status (st_outcome x) = SUCCEEDED.
Proof.
  refine (success_is_durably_recorded sha good 50 request (Some delegation) None true empty
            (fst (execute sha good 50 request (Some delegation) None true empty)) after _ _).
  - vm_compute. reflexivity.
  - left. vm_compute. reflexivity.
Defined.

(** An owner that committed the source but could not confirm the rest, then
    a recovery whose owner no longer proves the effect. *)
Definition unsure : OwnerExecutionResult :=
  mkResult RECOVERY_REQUIRED [] [] (PStr "e1") (PDict [("receipt_id", PStr "rc1")])
    (Some committed).
Definition after_unsure : world JsonReceiptStore :=
  exec_all sha empty
    [mkCall (kern (fun _ => Ok unsure)) 50 request (Some delegation) None true].
Definition doubtful : OwnerHandler := fun _ =>
  Ok (mkResult RECOVERY_REQUIRED [] [] PNone (PDict []) None).
Definition recover : exec_call := mkCall good 60 request (Some delegation) (Some doubtful) true.

Lemma committed_effect_is_retained_witness :
  w_trace (exec_all sha after_unsure [recover; recover]) <> w_trace after_unsure
  /\ exists x, rs_view (w_store (exec_all sha after_unsure [recover; recover])) "r1" = Some x
    /\ is_committed (oc_convergence (st_outcome x)) = true.
Proof.
  split; [vm_compute; discriminate|].
  apply (committed_effect_is_retained sha "r1" after_unsure [recover; recover]).
  vm_compute. eexists. split; reflexivity.
Defined.

Definition other : OperationRequest :=
  mkRequest "artifact.update" "r1" context [[("artifact_id", PStr "a1")]]
    [("body", PStr "other text")] "ygg.operation.v1" "execute" (PStr "v1") None None None [].

Lemma rebound_request_conflicts_witness :
  let '(o, w') := execute sha good 60 other (Some delegation) None true after in
  (oc_status o = CONFLICTED \/ oc_status o = RECOVERY_REQUIRED)
  /\ w_trace w' = w_trace after
  /\ (forall j, rs_view (w_store w') j = rs_view (w_store after) j).
Proof.
  destruct (execute sha good 60 other (Some delegation) None true after) as [o w'] eqn:E.
  destruct (rs_view (w_store after) "r1") as [x|] eqn:V.
  - apply (rebound_request_conflicts sha good 60 other delegation None true after o w' x E V).
    vm_compute in V. injection V as <-. vm_compute. reflexivity.
  - vm_compute in V. discriminate V.
Defined.

(** Replay under a policy that now denies everything. *)
Definition denying : kernel :=
  mkKernel (fun _ => Ok false) (fun _ _ => Ok (PolicyDecision_denied "p2" "no")) []
    (fun _ => Ok false) (fun _ _ => Ok false).

Lemma replay_returns_recorded_outcome_witness :
  execute sha denying 1000 request (Some delegation) None false after
  = (OperationOutcome_norm
       (fst (execute sha good 50 request (Some delegation) None true empty)), after).
Proof.
  refine (replay_returns_recorded_outcome sha good 50 request delegation None true empty
            (fst (execute sha good 50 request (Some delegation) None true empty)) after
            (rq_with_delegation (Some delegation) request) denying 1000 false _ _ _).
  - reflexivity.
  - vm_compute. reflexivity.
  - vm_compute. reflexivity.
Defined.
End KernelRun.
