(* ===== verification/PyTime.v ===== *)
(** * Timestamps

    The dispatcher stores timestamps as text.  [datetime.isoformat] with
    [timespec="microseconds"] writes the present, [timespec="seconds"] writes
    expiries, [datetime.fromisoformat] reads both, and SQLite compares the
    texts themselves.  A [datetime] is its wall-clock microseconds since
    0001-01-01T00:00 and its UTC offset in minutes ([None]: naive).

    [fromisoformat] is modelled on the extended format with a full date, hours,
    minutes and seconds, an optional six-digit fraction and an optional
    [+HH:MM]/[-HH:MM] offset; other spellings raise [ValueError] here.

    The file shows that the two texts read back to what was written and that
    comparing them as text agrees with comparing the instants. *)
From Stdlib Require Import Ascii ZArith Lia.
From S2P Require Import Prelude PyValue.
Open Scope Z_scope.

Record datetime : Type := mkDatetime { dt_us : Z; dt_offset : option Z }.

(** The instant, in microseconds, of an aware datetime. *)
Definition instant (d : datetime) : option Z :=
  match dt_offset d with Some o => Some (dt_us d - o * 60000000) | None => None end.

Definition day_us : Z := 86400000000.
(** [datetime.max] is the end of year 9999. *)
Definition max_us : Z := 3652059 * day_us.
Definition in_range (t : Z) : Prop := 0 <= t < max_us.

(** ** The calendar ([date.fromordinal], [date.toordinal]) *)

Definition is_leap (y : Z) : bool :=
  (y mod 4 =? 0) && (negb (y mod 100 =? 0) || (y mod 400 =? 0)).

(** Year and zero-based day of the year of the zero-based day number [n]. *)
Definition year_doy (n : Z) : Z * Z :=
  let n400 := n / 146097 in
  let n := n mod 146097 in
  let n100 := n / 36524 in
  let n := n mod 36524 in
  let n4 := n / 1461 in
  let n := n mod 1461 in
  let n1 := n / 365 in
  let n := n mod 365 in
  let y := n400 * 400 + 1 + n100 * 100 + n4 * 4 + n1 in
  if (n1 =? 4) || (n100 =? 4) then (y - 1, 365) else (y, n).

Definition days_before_month (leap : bool) (m : Z) : Z :=
  let l := if leap then 1 else 0 in
  if m <=? 1 then 0 else if m =? 2 then 31 else
  l + (if m =? 3 then 59 else if m =? 4 then 90 else if m =? 5 then 120
       else if m =? 6 then 151 else if m =? 7 then 181 else if m =? 8 then 212
       else if m =? 9 then 243 else if m =? 10 then 273 else if m =? 11 then 304 else 334).

Definition month_day (leap : bool) (doy : Z) : Z * Z :=
  let month := Z.shiftr (doy + 50) 5 in
  let month := if days_before_month leap month >? doy then month - 1 else month in
  (month, doy - days_before_month leap month + 1).

Definition ymd (n : Z) : Z * Z * Z :=
  let '(y, doy) := year_doy n in
  let '(m, d) := month_day (is_leap y) doy in
  (y, m, d).

(** Zero-based day number of a date. *)
Definition ordinal (y m d : Z) : Z :=
  (y - 1) * 365 + (y - 1) / 4 - (y - 1) / 100 + (y - 1) / 400
  + days_before_month (is_leap y) m + d - 1.

(** ** Text *)

Definition digit (n : Z) : ascii := ascii_of_N (48 + Z.to_N n).
Definition pad2 (n : Z) : string := String (digit (n / 10)) (String (digit (n mod 10)) "").
Definition pad4 (n : Z) : string := pad2 (n / 100) +:+ pad2 (n mod 100).
Definition pad6 (n : Z) : string := pad2 (n / 10000) +:+ pad4 (n mod 10000).

Definition iso_date (n : Z) : string :=
  let '(y, m, d) := ymd n in pad4 y +:+ "-" +:+ pad2 m +:+ "-" +:+ pad2 d.
(** [HH:MM:SS] of a second of the day. *)
Definition iso_clock (s : Z) : string :=
  pad2 (s / 3600) +:+ ":" +:+ pad2 (s / 60 mod 60) +:+ ":" +:+ pad2 (s mod 60).
Definition iso_offset (o : option Z) : string :=
  match o with
  | None => ""
  | Some o =>
      (if o <? 0 then "-" else "+") +:+ pad2 (Z.abs o / 60) +:+ ":" +:+ pad2 (Z.abs o mod 60)
  end.

Definition iso_seconds (t : Z) : string :=
  iso_date (t / day_us) +:+ "T" +:+ iso_clock (t / 1000000 mod 86400).

(** [isoformat(timespec="seconds")] and [isoformat(timespec="microseconds")]. *)
Definition isoformat_s (d : datetime) : string :=
  iso_seconds (dt_us d) +:+ iso_offset (dt_offset d).
Definition isoformat_us (d : datetime) : string :=
  iso_seconds (dt_us d) +:+ "." +:+ pad6 (dt_us d mod 1000000) +:+ iso_offset (dt_offset d).

(** ** Reading *)

Definition digit_val (c : ascii) : option Z :=
  let n := Z.of_N (code c) in
  if (48 <=? n) && (n <=? 57) then Some (n - 48) else None.

(** The first [k] characters, all digits, as a number. *)
Fixpoint take_num (k : nat) (acc : Z) (s : string) : option (Z * string) :=
  match k, s with
  | O, _ => Some (acc, s)
  | S k, String c s =>
      match digit_val c with Some v => take_num k (10 * acc + v) s | None => None end
  | S _, EmptyString => None
  end.

Definition take_char (c : ascii) (s : string) : option string :=
  match s with String d s => if Ascii.eqb c d then Some s else None | _ => None end.

Definition days_in_month (y m : Z) : Z :=
  if m =? 12 then 31
  else days_before_month (is_leap y) (m + 1) - days_before_month (is_leap y) m.

Definition parse_offset (s : string) : option (option Z) :=
  match s with
  | EmptyString => Some None
  | String c s =>
      sign ← (if Ascii.eqb c "+"%char then Some 1
              else if Ascii.eqb c "-"%char then Some (-1) else None);
      '(h, s) ← take_num 2 0 s;
      s ← take_char ":"%char s;
      '(m, s) ← take_num 2 0 s;
      if String.eqb s "" && (h <=? 23) && (m <=? 59) then Some (Some (sign * (h * 60 + m)))
      else None
  end.

Definition parse_fraction (s : string) : option (Z * string) :=
  match take_char "."%char s with
  | Some s => take_num 6 0 s
  | None => Some (0, s)
  end.

(** [datetime.fromisoformat]; [None] is its [ValueError]. *)
Definition fromisoformat (s : string) : option datetime :=
  '(y, s) ← take_num 4 0 s;
  s ← take_char "-"%char s;
  '(m, s) ← take_num 2 0 s;
  s ← take_char "-"%char s;
  '(d, s) ← take_num 2 0 s;
  s ← match s with String _ s => Some s | EmptyString => None end;
  '(hh, s) ← take_num 2 0 s;
  s ← take_char ":"%char s;
  '(mm, s) ← take_num 2 0 s;
  s ← take_char ":"%char s;
  '(ss, s) ← take_num 2 0 s;
  '(us, s) ← parse_fraction s;
  off ← parse_offset s;
  if (1 <=? y) && (1 <=? m) && (m <=? 12) && (1 <=? d) && (d <=? days_in_month y m)
     && (hh <=? 23) && (mm <=? 59) && (ss <=? 59)
  then Some (mkDatetime (ordinal y m d * day_us + (hh * 3600 + mm * 60 + ss) * 1000000 + us) off)
  else None.

(** [s.replace("Z", "+00:00")]. *)
Fixpoint replace_Z (s : string) : string :=
  match s with
  | EmptyString => ""
  | String c s => if Ascii.eqb c "Z"%char then "+00:00" +:+ replace_Z s
                  else String c (replace_Z s)
  end.

(** [a <= b] between datetimes: a naive one does not compare with an aware one. *)
Definition datetime_le (a b : datetime) : res bool :=
  match instant a, instant b with
  | Some x, Some y => Ok (x <=? y)
  | None, None => Ok (dt_us a <=? dt_us b)
  | _, _ => Raise (TypeError "can't compare offset-naive and offset-aware datetimes")
  end.

Example iso_epoch :
  isoformat_us (mkDatetime (719162 * day_us + 3723000004) (Some 0))
  = "1970-01-01T01:02:03.000004+00:00".
Proof. vm_compute. reflexivity. Qed.
Example parse_epoch :
  fromisoformat "1970-01-01T01:02:03.000004+00:00"
  = Some (mkDatetime (719162 * day_us + 3723000004) (Some 0)).
Proof. vm_compute. reflexivity. Qed.
Example parse_leap_day : fromisoformat "2023-02-29T00:00:00+00:00" = None.
Proof. vm_compute. reflexivity. Qed.

(** ** The calendar is monotone and invertible *)

Lemma year_doy_bounds n y d :
  0 <= n -> year_doy n = (y, d) -> 1 <= y /\ 0 <= d <= 365.
Proof.
  intros Hn. unfold year_doy.
  destruct ((_ =? 4) || (_ =? 4)) eqn:E; intros [= <- <-]; split;
    try (apply orb_false_iff in E as [?%Z.eqb_neq ?%Z.eqb_neq]);
    Z.div_mod_to_equations; lia.
Qed.

(** The day number is recovered from the year and the day of the year. *)
Lemma year_doy_ordinal n y d :
  0 <= n -> year_doy n = (y, d) ->
  n = (y - 1) * 365 + (y - 1) / 4 - (y - 1) / 100 + (y - 1) / 400 + d.
Proof.
  intros Hn. unfold year_doy.
  pose proof (Z.div_mod n 146097 ltac:(lia)) as E1.
  pose proof (Z.mod_pos_bound n 146097 ltac:(lia)) as B1.
  set (q := n / 146097) in *. set (r := n mod 146097) in *.
  pose proof (Z.div_mod r 36524 ltac:(lia)) as E2.
  pose proof (Z.mod_pos_bound r 36524 ltac:(lia)) as B2.
  set (c := r / 36524) in *. set (r2 := r mod 36524) in *.
  pose proof (Z.div_mod r2 1461 ltac:(lia)) as E3.
  pose proof (Z.mod_pos_bound r2 1461 ltac:(lia)) as B3.
  set (f := r2 / 1461) in *. set (r3 := r2 mod 1461) in *.
  pose proof (Z.div_mod r3 365 ltac:(lia)) as E4.
  pose proof (Z.mod_pos_bound r3 365 ltac:(lia)) as B4.
  set (o := r3 / 365) in *. set (r4 := r3 mod 365) in *.
  assert (0 <= o <= 4) by lia. assert (0 <= f <= 24) by lia. assert (0 <= c <= 4) by lia.
  destruct (Z.eqb_spec o 4) as [Eo|Eo]; [|destruct (Z.eqb_spec c 4) as [Ec|Ec]];
    simpl; intros [= <- <-].
  - replace ((q * 400 + 1 + c * 100 + f * 4 + o - 1 - 1) / 4) with (q * 100 + c * 25 + f)
      by (Z.div_mod_to_equations; lia).
    replace ((q * 400 + 1 + c * 100 + f * 4 + o - 1 - 1) / 100) with (q * 4 + c)
      by (Z.div_mod_to_equations; lia).
    replace ((q * 400 + 1 + c * 100 + f * 4 + o - 1 - 1) / 400) with q
      by (Z.div_mod_to_equations; lia).
    lia.
  - assert (f = 0) by lia. assert (o = 0) by lia.
    replace ((q * 400 + 1 + c * 100 + f * 4 + o - 1 - 1) / 4) with (q * 100 + 99)
      by (Z.div_mod_to_equations; lia).
    replace ((q * 400 + 1 + c * 100 + f * 4 + o - 1 - 1) / 100) with (q * 4 + 3)
      by (Z.div_mod_to_equations; lia).
    replace ((q * 400 + 1 + c * 100 + f * 4 + o - 1 - 1) / 400) with q
      by (Z.div_mod_to_equations; lia).
    lia.
  - replace ((q * 400 + 1 + c * 100 + f * 4 + o - 1) / 4) with (q * 100 + c * 25 + f)
      by (Z.div_mod_to_equations; lia).
    replace ((q * 400 + 1 + c * 100 + f * 4 + o - 1) / 100) with (q * 4 + c)
      by (Z.div_mod_to_equations; lia).
    replace ((q * 400 + 1 + c * 100 + f * 4 + o - 1) / 400) with q
      by (Z.div_mod_to_equations; lia).
    lia.
Qed.

Definition days_before_year (y : Z) : Z :=
  (y - 1) * 365 + (y - 1) / 4 - (y - 1) / 100 + (y - 1) / 400.
Definition leap_day (y : Z) : Z := if is_leap y then 1 else 0.

Lemma days_before_year_succ y :
  days_before_year (y + 1) = days_before_year y + 365 + leap_day y.
Proof.
  unfold days_before_year, leap_day, is_leap.
  destruct (Z.eqb_spec (y mod 4) 0), (Z.eqb_spec (y mod 100) 0), (Z.eqb_spec (y mod 400) 0);
    simpl; Z.div_mod_to_equations; lia.
Qed.

Lemma days_before_year_mono y y' : y <= y' -> days_before_year y <= days_before_year y'.
Proof. unfold days_before_year. intros. Z.div_mod_to_equations. lia. Qed.

(** The last day of the year exists only in leap years. *)
Lemma year_doy_leap n y d : 0 <= n -> year_doy n = (y, d) -> d <= 364 + leap_day y.
Proof.
  intros Hn E. pose proof (year_doy_ordinal _ _ _ Hn E) as O1.
  destruct (year_doy_bounds _ _ _ Hn E) as [? ?].
  destruct (decide (d = 365)) as [->|]; [|unfold leap_day; case_match; lia].
  unfold year_doy in E. destruct (_ || _) eqn:B.
  2: { injection E as _ E2. pose proof (Z.mod_pos_bound
         (((n mod 146097) mod 36524) mod 1461) 365 ltac:(lia)). lia. }
  injection E as E1. unfold leap_day, is_leap. apply orb_true_iff in B.
  assert (L : y mod 4 = 0 /\ (y mod 100 <> 0 \/ y mod 400 = 0)).
  { rewrite !Z.eqb_eq in B. clear O1. destruct B as [B|B];
      [split; [|left]|split; [|right]]; Z.div_mod_to_equations; lia. }
  destruct L as [-> [L|L]].
  - apply Z.eqb_neq in L. rewrite L. simpl. lia.
  - rewrite L, orb_true_r. simpl. lia.
Qed.

Definition month_ok (leap : bool) (doy : Z) : bool :=
  let '(m, d) := month_day leap doy in
  (1 <=? m) && (m <=? 12) && (1 <=? d)
  && (d <=? (if m =? 12 then 31 else days_before_month leap (m + 1) - days_before_month leap m))
  && (days_before_month leap m + d - 1 =? doy).

Lemma month_table :
  forallb (fun n => month_ok false (Z.of_nat n)) (seq 0 365) = true /\
  forallb (fun n => month_ok true (Z.of_nat n)) (seq 0 366) = true.
Proof. split; vm_compute; reflexivity. Qed.

Lemma month_day_ok leap doy :
  0 <= doy <= 364 + (if leap : bool then 1 else 0) -> month_ok leap doy = true.
Proof.
  intros H. destruct month_table as [T1 T2]. rewrite forallb_forall in T1, T2.
  replace doy with (Z.of_nat (Z.to_nat doy)) by lia.
  destruct leap; [apply T2|apply T1]; apply in_seq; lia.
Qed.

(** ** Order of the calendar fields *)

Definition lex (c d : comparison) : comparison := match c with Eq => d | _ => c end.

Lemma lex_mixed a a' b b' w :
  0 <= b < w -> 0 <= b' < w -> lex (a ?= a') (b ?= b') = (a * w + b ?= a' * w + b').
Proof.
  intros Hb Hb'. unfold lex. destruct (Z.compare_spec a a') as [->|H|H]; symmetry.
  - destruct (Z.compare_spec b b'); [apply Z.compare_eq_iff|apply Z.compare_lt_iff
      |apply Z.compare_gt_iff]; lia.
  - apply Z.compare_lt_iff. nia.
  - apply Z.compare_gt_iff. nia.
Qed.

Lemma ymd_spec n y m d :
  0 <= n -> ymd n = (y, m, d) ->
  1 <= y /\ 1 <= m <= 12 /\ 1 <= d <= 31 /\ d <= days_in_month y m /\ ordinal y m d = n.
Proof.
  intros Hn. unfold ymd. destruct (year_doy n) as [y' doy] eqn:E.
  pose proof (year_doy_leap _ _ _ Hn E). pose proof (year_doy_ordinal _ _ _ Hn E).
  destruct (year_doy_bounds _ _ _ Hn E) as [? ?].
  pose proof (month_day_ok (is_leap y') doy) as M. unfold leap_day in *.
  specialize (M ltac:(lia)). unfold month_ok in M.
  destruct (month_day (is_leap y') doy) as [m' d'] eqn:Em. intros [= <- <- <-].
  bool_prop. repeat match goal with
  | H : (_ <=? _) = true |- _ => apply Z.leb_le in H
  | H : (_ =? _) = true |- _ => apply Z.eqb_eq in H end.
  split_and!; try done.
  - unfold month_day in Em. unfold days_before_month in *. destruct (is_leap y');
      repeat (case_match; try lia).
  - unfold ordinal. lia.
Qed.

Lemma days_before_month_mono l m m' :
  m <= m' -> days_before_month l m <= days_before_month l m'.
Proof.
  intros. unfold days_before_month. destruct l;
    repeat match goal with
    | |- context [?x <=? ?y] => destruct (Z.leb_spec x y); try lia
    | |- context [?x =? ?y] => destruct (Z.eqb_spec x y); try lia
    end.
Qed.

Lemma days_before_month_lt l m m' d y :
  is_leap y = l -> 1 <= m <= 12 -> 1 <= m' <= 12 -> m < m' -> d <= days_in_month y m ->
  days_before_month l m + d <= days_before_month l m'.
Proof.
  intros Hl Hm Hm' Hlt. unfold days_in_month. rewrite Hl.
  destruct (Z.eqb_spec m 12); [lia|].
  pose proof (days_before_month_mono l (m + 1) m' ltac:(lia)). lia.
Qed.

Lemma days_before_month_bound y m d :
  1 <= m <= 12 -> d <= days_in_month y m ->
  days_before_month (is_leap y) m + d <= 365 + leap_day y.
Proof.
  intros Hm. unfold days_in_month, leap_day. destruct (Z.eqb_spec m 12) as [->|].
  - destruct (is_leap y); cbn; lia.
  - pose proof (days_before_month_mono (is_leap y) (m + 1) 12 ltac:(lia)) as M.
    assert (days_before_month (is_leap y) 12 = 334 + (if is_leap y then 1 else 0))
      by (by destruct (is_leap y)). lia.
Qed.

Lemma days_before_month_nonneg l m : 0 <= days_before_month l m.
Proof. unfold days_before_month. destruct l; repeat case_match; lia. Qed.

Lemma ordinal_eq y m d :
  ordinal y m d = days_before_year y + (days_before_month (is_leap y) m + d - 1).
Proof. unfold ordinal, days_before_year. lia. Qed.

Lemma ymd_lt n n' y m d y' m' d' :
  0 <= n -> 0 <= n' -> ymd n = (y, m, d) -> ymd n' = (y', m', d') ->
  y < y' \/ (y = y' /\ (m < m' \/ (m = m' /\ d < d'))) -> n < n'.
Proof.
  intros Hn Hn' E E' H.
  destruct (ymd_spec _ _ _ _ Hn E) as (? & ? & ? & ? & <-).
  destruct (ymd_spec _ _ _ _ Hn' E') as (? & ? & ? & ? & <-). rewrite !ordinal_eq.
  destruct H as [H|[<- [H|[<- H]]]]; [| |lia].
  - pose proof (days_before_month_bound y m d). pose proof (days_before_year_succ y).
    pose proof (days_before_year_mono (y + 1) y' ltac:(lia)).
    pose proof (days_before_month_nonneg (is_leap y') m'). lia.
  - pose proof (days_before_month_lt _ m m' d y eq_refl). lia.
Qed.

Lemma ymd_compare n n' y m d y' m' d' :
  0 <= n -> 0 <= n' -> ymd n = (y, m, d) -> ymd n' = (y', m', d') ->
  lex (y ?= y') (lex (m ?= m') (d ?= d')) = (n ?= n').
Proof.
  intros Hn Hn' E E'. unfold lex. symmetry.
  pose proof (ymd_lt _ _ _ _ _ _ _ _ Hn Hn' E E') as L.
  pose proof (ymd_lt _ _ _ _ _ _ _ _ Hn' Hn E' E) as G.
  destruct (Z.compare_spec y y'); [destruct (Z.compare_spec m m');
    [destruct (Z.compare_spec d d')|..]|..];
    try (apply Z.compare_lt_iff, L; lia); try (apply Z.compare_gt_iff, G; lia).
  apply Z.compare_eq_iff. subst. destruct (ymd_spec _ _ _ _ Hn E) as (_ & _ & _ & _ & <-).
  by destruct (ymd_spec _ _ _ _ Hn' E') as (_ & _ & _ & _ & <-).
Qed.

(** ** Order of the text *)

Lemma code_digit n : 0 <= n < 10 -> code (digit n) = (48 + Z.to_N n)%N.
Proof. intros. unfold code, digit. apply N_ascii_embedding. lia. Qed.

Lemma compare_digit a b s t :
  0 <= a < 10 -> 0 <= b < 10 ->
  String.compare (String (digit a) s) (String (digit b) t)
  = lex (a ?= b) (String.compare s t).
Proof.
  intros Ha Hb. simpl. unfold Ascii.compare. fold (code (digit a)) (code (digit b)).
  rewrite !code_digit by done. unfold lex.
  replace (48 + Z.to_N a ?= 48 + Z.to_N b)%N with (a ?= b); [by destruct (a ?= b)|].
  destruct (Z.compare_spec a b); symmetry;
    [apply N.compare_eq_iff|apply N.compare_lt_iff|apply N.compare_gt_iff]; lia.
Qed.

Lemma lex_assoc a b c : lex (lex a b) c = lex a (lex b c).
Proof. by destruct a. Qed.

Lemma lex_digits a b k :
  0 < k -> lex (a / k ?= b / k) (a mod k ?= b mod k) = (a ?= b).
Proof.
  intros Hk. rewrite (lex_mixed _ _ _ _ k) by (apply Z.mod_pos_bound; lia).
  f_equal; rewrite (Z.mul_comm _ k), <- Z.div_mod; lia.
Qed.

Lemma compare_pad2 a b s t :
  0 <= a < 100 -> 0 <= b < 100 ->
  String.compare (pad2 a +:+ s) (pad2 b +:+ t) = lex (a ?= b) (String.compare s t).
Proof.
  intros Ha Hb. unfold pad2.
  change (String ?c (String ?d "") +:+ ?s) with (String c (String d s)).
  rewrite !compare_digit by (Z.div_mod_to_equations; lia).
  by rewrite <- lex_assoc, lex_digits by lia.
Qed.

Lemma compare_pad4 a b s t :
  0 <= a < 10000 -> 0 <= b < 10000 ->
  String.compare (pad4 a +:+ s) (pad4 b +:+ t) = lex (a ?= b) (String.compare s t).
Proof.
  intros Ha Hb. unfold pad4. rewrite !append_assoc.
  rewrite !compare_pad2 by (Z.div_mod_to_equations; lia).
  by rewrite <- lex_assoc, lex_digits by lia.
Qed.

Lemma compare_cons c s t : String.compare (String c s) (String c t) = String.compare s t.
Proof. simpl. unfold Ascii.compare. by rewrite N.compare_refl. Qed.

Lemma ymd_year_bound n y m d : 0 <= n < 3652059 -> ymd n = (y, m, d) -> y <= 9999.
Proof.
  intros Hn E. destruct (ymd_spec _ _ _ _ (proj1 Hn) E) as (? & ? & ? & ? & O1).
  rewrite ordinal_eq in O1. pose proof (days_before_month_nonneg (is_leap y) m).
  destruct (Z.le_gt_cases y 9999) as [|G]; [done|].
  pose proof (days_before_year_mono 10000 y ltac:(lia)) as M.
  assert (days_before_year 10000 = 3652059) by (vm_compute; reflexivity). lia.
Qed.

Lemma day_of_range t : in_range t -> 0 <= t / day_us < 3652059.
Proof. unfold in_range, max_us, day_us. intros. Z.div_mod_to_equations. lia. Qed.

Lemma compare_iso_date n n' s s' :
  0 <= n < 3652059 -> 0 <= n' < 3652059 ->
  String.compare (iso_date n +:+ s) (iso_date n' +:+ s') = lex (n ?= n') (String.compare s s').
Proof.
  intros Hn Hn'. unfold iso_date.
  destruct (ymd n) as [[y m] d] eqn:E, (ymd n') as [[y' m'] d'] eqn:E'.
  destruct (ymd_spec _ _ _ _ (proj1 Hn) E) as (? & ? & ? & _).
  destruct (ymd_spec _ _ _ _ (proj1 Hn') E') as (? & ? & ? & _).
  pose proof (ymd_year_bound _ _ _ _ Hn E). pose proof (ymd_year_bound _ _ _ _ Hn' E').
  rewrite !append_assoc, compare_pad4, !append_char, compare_cons by lia.
  rewrite compare_pad2, compare_cons, compare_pad2 by lia.
  rewrite <- (ymd_compare n n' _ _ _ _ _ _ (proj1 Hn) (proj1 Hn') E E').
  by rewrite !lex_assoc.
Qed.

Lemma compare_iso_clock x y s s' :
  0 <= x < 86400 -> 0 <= y < 86400 ->
  String.compare (iso_clock x +:+ s) (iso_clock y +:+ s') = lex (x ?= y) (String.compare s s').
Proof.
  intros Hx Hy. unfold iso_clock.
  rewrite !append_assoc, compare_pad2, !append_char, compare_cons
    by (Z.div_mod_to_equations; lia).
  rewrite compare_pad2, compare_cons, compare_pad2 by (Z.div_mod_to_equations; lia).
  replace (x / 3600) with (x / 60 / 60) by (by rewrite Z.div_div by lia).
  replace (y / 3600) with (y / 60 / 60) by (by rewrite Z.div_div by lia).
  by rewrite <- lex_assoc, lex_digits, <- lex_assoc, lex_digits by lia.
Qed.

Lemma compare_iso_seconds t t' s s' :
  in_range t -> in_range t' ->
  String.compare (iso_seconds t +:+ s) (iso_seconds t' +:+ s')
  = lex (t / 1000000 ?= t' / 1000000) (String.compare s s').
Proof.
  intros Ht Ht'. pose proof (day_of_range _ Ht). pose proof (day_of_range _ Ht').
  unfold iso_seconds. rewrite !append_assoc, compare_iso_date, !append_char, compare_cons by done.
  rewrite compare_iso_clock by (apply Z.mod_pos_bound; lia). rewrite <- lex_assoc. f_equal.
  unfold day_us in *.
  replace (t / 86400000000) with (t / 1000000 / 86400) by (by rewrite Z.div_div by lia).
  replace (t' / 86400000000) with (t' / 1000000 / 86400) by (by rewrite Z.div_div by lia).
  apply lex_digits. lia.
Qed.

(** An aware UTC datetime. *)
Definition utc (t : Z) : datetime := mkDatetime t (Some 0).

(** A seconds text sorts before a microseconds text exactly when its second
    has begun: the text order used by SQLite agrees with the clock. *)
Lemma text_before e n :
  in_range e -> in_range n ->
  String.ltb (isoformat_s (utc e)) (isoformat_us (utc n)) = (e / 1000000 * 1000000 <=? n).
Proof.
  intros He Hn. unfold String.ltb, isoformat_s, isoformat_us. cbn [utc dt_us dt_offset].
  rewrite compare_iso_seconds by done. unfold lex.
  assert (C : forall u, String.compare (iso_offset (Some 0)) ("." +:+ u) = Lt) by reflexivity.
  destruct (Z.compare_spec (e / 1000000) (n / 1000000)) as [H|H|H]; rewrite ?C; symmetry;
    [apply Z.leb_le|apply Z.leb_le|apply Z.leb_gt]; Z.div_mod_to_equations; lia.
Qed.

Lemma text_after e n :
  in_range e -> in_range n ->
  String.ltb (isoformat_us (utc n)) (isoformat_s (utc e)) = (n <? e / 1000000 * 1000000).
Proof.
  intros He Hn. unfold String.ltb, isoformat_s, isoformat_us. cbn [utc dt_us dt_offset].
  rewrite compare_iso_seconds by done. unfold lex.
  assert (C : forall u, String.compare ("." +:+ u) (iso_offset (Some 0)) = Gt) by reflexivity.
  destruct (Z.compare_spec (n / 1000000) (e / 1000000)) as [H|H|H]; rewrite ?C; symmetry;
    [apply Z.ltb_ge|apply Z.ltb_lt|apply Z.ltb_ge]; Z.div_mod_to_equations; lia.
Qed.

(** ** Reading back what was written *)

Lemma digit_val_digit n : 0 <= n < 10 -> digit_val (digit n) = Some n.
Proof.
  intros H. unfold digit_val. rewrite code_digit by done.
  rewrite (proj2 (Z.leb_le 48 _)), (proj2 (Z.leb_le _ 57)) by lia. simpl. f_equal. lia.
Qed.

Lemma take_num_pad2 k acc n s :
  0 <= n < 100 -> take_num (S (S k)) acc (pad2 n +:+ s) = take_num k (100 * acc + n) s.
Proof.
  intros H. unfold pad2.
  change (String ?c (String ?d "") +:+ ?s) with (String c (String d s)). cbn [take_num].
  rewrite !digit_val_digit by (Z.div_mod_to_equations; lia). f_equal.
  Z.div_mod_to_equations. lia.
Qed.

Lemma take_num2 n s : 0 <= n < 100 -> take_num 2 0 (pad2 n +:+ s) = Some (n, s).
Proof. intros. by rewrite take_num_pad2. Qed.

Lemma take_num_pad4 acc n s :
  0 <= n < 10000 -> take_num 4 acc (pad4 n +:+ s) = Some (10000 * acc + n, s).
Proof.
  intros H. unfold pad4. rewrite append_assoc, !take_num_pad2 by (Z.div_mod_to_equations; lia).
  simpl. do 2 f_equal. Z.div_mod_to_equations. lia.
Qed.

Lemma take_num4 n s : 0 <= n < 10000 -> take_num 4 0 (pad4 n +:+ s) = Some (n, s).
Proof. intros. by rewrite take_num_pad4. Qed.

Lemma take_num_pad6 n s :
  0 <= n < 1000000 -> take_num 6 0 (pad6 n +:+ s) = Some (n, s).
Proof.
  intros H. unfold pad6. rewrite append_assoc, take_num_pad2, take_num_pad4
    by (Z.div_mod_to_equations; lia).
  do 2 f_equal. Z.div_mod_to_equations. lia.
Qed.

Lemma take_char_eq c s : take_char c (String c s) = Some s.
Proof. unfold take_char. by rewrite Ascii.eqb_refl. Qed.

(** The common prefix of the two texts, followed by [s]. *)
Lemma fromisoformat_iso t s us off :
  in_range t -> parse_fraction s = Some (us, iso_offset off) ->
  parse_offset (iso_offset off) = Some off ->
  fromisoformat (iso_seconds t +:+ s)
  = Some (mkDatetime (t / 1000000 * 1000000 + us) off).
Proof.
  intros Ht Hf Ho. pose proof (day_of_range _ Ht) as Hd.
  unfold fromisoformat, iso_seconds, iso_date, iso_clock.
  destruct (ymd (t / day_us)) as [[y m] d] eqn:E.
  destruct (ymd_spec _ _ _ _ (proj1 Hd) E) as (? & ? & ? & Hdim & Hord).
  pose proof (ymd_year_bound _ _ _ _ Hd E).
  set (c := t / 1000000 mod 86400).
  assert (Hc : 0 <= c < 86400) by (apply Z.mod_pos_bound; lia).
  rewrite !append_assoc, take_num4 by lia. cbn [mbind option_bind].
  rewrite !append_char, take_char_eq. cbn [mbind option_bind].
  rewrite take_num2 by lia. cbn [mbind option_bind].
  rewrite take_char_eq. cbn [mbind option_bind].
  rewrite take_num2 by lia. cbn [mbind option_bind].
  rewrite take_num2 by (Z.div_mod_to_equations; lia). cbn [mbind option_bind].
  rewrite take_char_eq. cbn [mbind option_bind].
  rewrite take_num2 by (Z.div_mod_to_equations; lia). cbn [mbind option_bind].
  rewrite take_char_eq. cbn [mbind option_bind].
  rewrite take_num2 by (Z.div_mod_to_equations; lia). cbn [mbind option_bind].
  rewrite Hf. cbn [mbind option_bind]. rewrite Ho. cbn [mbind option_bind].
  assert (Q1 : c / 3600 <= 23) by (Z.div_mod_to_equations; lia).
  assert (Q2 : c / 60 mod 60 <= 59) by (Z.div_mod_to_equations; lia).
  assert (Q3 : c mod 60 <= 59) by (Z.div_mod_to_equations; lia).
  rewrite (proj2 (Z.leb_le 1 y)), (proj2 (Z.leb_le 1 m)), (proj2 (Z.leb_le m 12)),
    (proj2 (Z.leb_le 1 d)), (proj2 (Z.leb_le d _) Hdim), (proj2 (Z.leb_le _ 23) Q1),
    (proj2 (Z.leb_le _ 59) Q2), (proj2 (Z.leb_le _ 59) Q3) by lia.
  simpl andb. cbv iota. do 2 f_equal. rewrite Hord. f_equal. clear -Hc. unfold day_us.
  assert (Hs : c / 3600 * 3600 + c / 60 mod 60 * 60 + c mod 60 = c)
    by (Z.div_mod_to_equations; lia).
  rewrite Hs. unfold c. Z.div_mod_to_equations. lia.
Qed.

(** A microseconds text reads back to the instant it was written from. *)
Lemma fromisoformat_us t : in_range t -> fromisoformat (isoformat_us (utc t)) = Some (utc t).
Proof.
  intros Ht. unfold isoformat_us. cbn [utc dt_us dt_offset].
  rewrite (fromisoformat_iso _ _ (t mod 1000000) (Some 0)); [|done| |reflexivity].
  - unfold utc. do 2 f_equal. Z.div_mod_to_equations. lia.
  - unfold parse_fraction. rewrite append_cons, take_char_eq.
    apply take_num_pad6, Z.mod_pos_bound. lia.
Qed.

(** A seconds text reads back to the beginning of its second. *)
Lemma fromisoformat_s t :
  in_range t -> fromisoformat (isoformat_s (utc t)) = Some (utc (t / 1000000 * 1000000)).
Proof.
  intros Ht. unfold isoformat_s. cbn [utc dt_us dt_offset].
  rewrite (fromisoformat_iso _ _ 0 (Some 0)); [|done|reflexivity|reflexivity].
  unfold utc. by rewrite Z.add_0_r.
Qed.

(** [replace("Z", "+00:00")] leaves these texts alone. *)
Lemma replace_Z_app a b : replace_Z (a +:+ b) = replace_Z a +:+ replace_Z b.
Proof.
  induction a as [|c a IH]; [done|].
  change (String c a +:+ b) with (String c (a +:+ b)). cbn [replace_Z]. rewrite IH.
  destruct (Ascii.eqb c "Z"%char); [|done]. by rewrite append_assoc.
Qed.

Lemma replace_Z_digit n s : 0 <= n < 10 -> replace_Z (String (digit n) s) = String (digit n) (replace_Z s).
Proof.
  intros Hn. cbn [replace_Z]. destruct (Ascii.eqb _ _) eqn:E; [|done].
  apply Ascii.eqb_eq in E. apply (f_equal code) in E. rewrite code_digit in E by done.
  change (code "Z"%char) with 90%N in E. lia.
Qed.

Lemma replace_Z_pad2 n : 0 <= n < 100 -> replace_Z (pad2 n) = pad2 n.
Proof.
  intros Hn. unfold pad2. by rewrite !replace_Z_digit by (Z.div_mod_to_equations; lia).
Qed.

Lemma replace_Z_iso_seconds t : in_range t -> replace_Z (iso_seconds t) = iso_seconds t.
Proof.
  intros Ht. pose proof (day_of_range _ Ht) as Hd.
  unfold iso_seconds, iso_date, iso_clock, pad4.
  destruct (ymd (t / day_us)) as [[y m] d] eqn:E.
  destruct (ymd_spec _ _ _ _ (proj1 Hd) E) as (? & ? & ? & _ & _).
  pose proof (ymd_year_bound _ _ _ _ Hd E).
  assert (0 <= t / 1000000 mod 86400 < 86400) by (apply Z.mod_pos_bound; lia).
  rewrite !replace_Z_app, !replace_Z_pad2 by (Z.div_mod_to_equations; lia). done.
Qed.

Lemma replace_Z_us t : in_range t -> replace_Z (isoformat_us (utc t)) = isoformat_us (utc t).
Proof.
  intros Ht. unfold isoformat_us. cbn [utc dt_us dt_offset].
  rewrite replace_Z_app, replace_Z_iso_seconds by done. f_equal.
  assert (0 <= t mod 1000000 < 1000000) by (apply Z.mod_pos_bound; lia).
  unfold pad6, pad4. rewrite !replace_Z_app, !replace_Z_pad2 by (Z.div_mod_to_equations; lia). done.
Qed.

Lemma replace_Z_s t : in_range t -> replace_Z (isoformat_s (utc t)) = isoformat_s (utc t).
Proof.
  intros Ht. unfold isoformat_s. cbn [utc dt_us dt_offset].
  by rewrite replace_Z_app, replace_Z_iso_seconds by done.
Qed.

(** The second an instant falls in. *)
Definition floor_s (t : Z) : Z := t / 1000000 * 1000000.

(** ** [isoformat()], [astimezone] and [str.replace] *)

(** [isoformat()]: the microseconds are printed only when there are some. *)
Definition isoformat (d : datetime) : string :=
  if dt_us d mod 1000000 =? 0 then isoformat_s d else isoformat_us d.

(** [d.astimezone(timezone.utc)]; [local] gives the offset of a naive local
    time, in minutes. *)
Definition astimezone_utc (local : Z -> Z) (d : datetime) : res datetime :=
  let o := match dt_offset d with Some o => o | None => local (dt_us d) end in
  let t := dt_us d - o * 60000000 in
  if (0 <=? t) && (t <? max_us) then Ok (utc t) else Raise (OtherException "OverflowError").

(** [s.replace(old, new)] for a non-empty [old]; [skip] characters belong to
    an occurrence already replaced. *)
Fixpoint str_replace (old new : string) (skip : nat) (s : string) : string :=
  match s with
  | EmptyString => ""
  | String c s' =>
      match skip with
      | S n => str_replace old new n s'
      | O => if startswith old s then new +:+ str_replace old new (String.length old - 1) s'
             else String c (str_replace old new 0 s')
      end
  end.

Example replace_offset : str_replace "+00:00" "Z" 0 "1970+00:00+00:00x" = "1970ZZx".
Proof. reflexivity. Qed.

Definition ends_with_Z (s : string) : bool :=
  String.eqb (str_drop (String.length s - 1) s) "Z".

(** A text without the first character of [old] is copied. *)
Fixpoint lacks (c : ascii) (s : string) : bool :=
  match s with EmptyString => true | String d s => negb (Ascii.eqb c d) && lacks c s end.

Lemma lacks_app c a b : lacks c (a +:+ b) = lacks c a && lacks c b.
Proof. induction a as [|d a IH]; [done|]. rewrite append_cons. simpl. by rewrite IH, andb_assoc. Qed.

Lemma str_replace_lacks c old new p s :
  lacks c p = true ->
  str_replace (String c old) new 0 (p +:+ s) = p +:+ str_replace (String c old) new 0 s.
Proof.
  induction p as [|d p IH]; [done|]. rewrite !append_cons. cbn [lacks]. intros [H Hp]%andb_true_iff.
  apply negb_true_iff in H. cbn [str_replace startswith].
  replace (Ascii.eqb c d && startswith old (p +:+ s)) with false by (by rewrite H).
  by rewrite IH.
Qed.

Lemma lacks_pad2 c n : (code c < 48)%N -> 0 <= n < 100 -> lacks c (pad2 n) = true.
Proof.
  intros Hc Hn. assert (D : forall k, 0 <= k < 10 -> Ascii.eqb c (digit k) = false).
  { intros k Hk. apply Ascii.eqb_neq. intros ->. rewrite code_digit in Hc by done. lia. }
  unfold pad2. cbn [lacks]. by rewrite !D by (Z.div_mod_to_equations; lia).
Qed.

Lemma lacks_iso_seconds t : in_range t -> lacks "+" (iso_seconds t) = true.
Proof.
  intros Ht. pose proof (day_of_range _ Ht) as Hd.
  unfold iso_seconds, iso_date, iso_clock, pad4.
  destruct (ymd (t / day_us)) as [[y m] d] eqn:E.
  destruct (ymd_spec _ _ _ _ (proj1 Hd) E) as (? & ? & ? & _ & _).
  pose proof (ymd_year_bound _ _ _ _ Hd E).
  assert (0 <= t / 1000000 mod 86400 < 86400) by (apply Z.mod_pos_bound; lia).
  rewrite !lacks_app, !lacks_pad2 by (done || (Z.div_mod_to_equations; lia)). done.
Qed.

(** The text of an instant up to its offset. *)
Definition iso_stem (t : Z) : string :=
  iso_seconds t +:+ (if t mod 1000000 =? 0 then "" else "." +:+ pad6 (t mod 1000000)).

Lemma isoformat_stem t : isoformat (utc t) = iso_stem t +:+ "+00:00".
Proof.
  unfold isoformat, iso_stem. cbn [utc dt_us]. destruct (t mod 1000000 =? 0); unfold isoformat_s, isoformat_us;
    cbn [utc dt_us dt_offset]; by rewrite !append_assoc.
Qed.

Lemma lacks_iso_stem t : in_range t -> lacks "+" (iso_stem t) = true.
Proof.
  intros Ht. unfold iso_stem. rewrite lacks_app, lacks_iso_seconds by done.
  assert (0 <= t mod 1000000 < 1000000) by (apply Z.mod_pos_bound; lia).
  destruct (t mod 1000000 =? 0); [done|]. unfold pad6, pad4.
  rewrite !lacks_app, !lacks_pad2 by (done || (Z.div_mod_to_equations; lia)). done.
Qed.

(** Written with a [Z] for the offset. *)
Lemma isoformat_Z t : in_range t ->
  str_replace "+00:00" "Z" 0 (isoformat (utc t)) = iso_stem t +:+ "Z".
Proof.
  intros Ht. rewrite isoformat_stem.
  rewrite (str_replace_lacks "+" "00:00") by (by apply lacks_iso_stem). done.
Qed.

Lemma fromisoformat_stem t : in_range t -> fromisoformat (iso_stem t +:+ "+00:00") = Some (utc t).
Proof.
  intros Ht. unfold iso_stem. rewrite append_assoc.
  rewrite (fromisoformat_iso _ _ (t mod 1000000) (Some 0)); [|done| |reflexivity].
  - unfold utc. do 2 f_equal. Z.div_mod_to_equations. lia.
  - destruct (Z.eqb_spec (t mod 1000000) 0) as [->|]; [done|].
    unfold parse_fraction. rewrite append_assoc, append_cons, take_char_eq.
    apply take_num_pad6, Z.mod_pos_bound. lia.
Qed.

Lemma ends_with_Z_app s : ends_with_Z (s +:+ "Z") = true.
Proof.
  unfold ends_with_Z. induction s as [|c s IH]; [done|]. rewrite append_cons.
  replace (String.length (String c (s +:+ "Z")) - 1)%nat with (S (String.length (s +:+ "Z") - 1)); [done|].
  simpl. destruct s; [done|]. rewrite append_cons. simpl. lia.
Qed.
Lemma str_take_init s c : str_take (String.length (s +:+ String c "") - 1) (s +:+ String c "") = s.
Proof.
  induction s as [|d s IH]; [done|]. rewrite append_cons.
  replace (String.length (String d (s +:+ String c "")) - 1)%nat
    with (S (String.length (s +:+ String c "") - 1)); [cbn [str_take]; by rewrite IH|].
  simpl. destruct s; [done|]. rewrite append_cons. simpl. lia.
Qed.
