(* ===== verification/Sql.v ===== *)
(** * Stateful calls and tables

    [ST W] is the monad of calls that read and change a shared state [W] and
    may raise: the state survives the exception, as it does in Python.

    A table with a TEXT primary key is the list of its rows in insertion order
    ([rowid]).  [select_by], [update_where], [upsert] are the statements the
    dispatcher issues ([SELECT ... WHERE key = ?], [UPDATE ... WHERE], [INSERT
    ... ON CONFLICT DO UPDATE]); [order_by] is a stable [ORDER BY]. *)
From Stdlib Require Import Sorted Permutation.
From S2P Require Import Prelude PyValue.

(** ** The state monad with exceptions *)

Definition ST (W A : Type) : Type := W -> res A * W.

#[export] Instance ST_ret W : MRet (ST W) := fun A a w => (Ok a, w).
#[export] Instance ST_bind W : MBind (ST W) := fun A B f c w =>
  match c w with
  | (Ok a, w) => f a w
  | (Raise e, w) => (Raise e, w)
  end.

Definition st_raise {W A} (e : exn) : ST W A := fun w => (Raise e, w).
Definition st_get {W} : ST W W := fun w => (Ok w, w).
Definition st_modify {W} (f : W -> W) : ST W unit := fun w => (Ok tt, f w).
Definition st_lift {W A} (r : res A) : ST W A := fun w => (r, w).
(** [if c: raise e]. *)
Definition guard_not {W} (c : bool) (e : exn) : ST W unit :=
  if c then st_raise e else mret tt.
(** [try: m except ...: h]. *)
Definition st_catch {W A} (m : ST W A) (h : exn -> ST W A) : ST W A := fun w =>
  match m w with
  | (Ok a, w) => (Ok a, w)
  | (Raise e, w) => h e w
  end.

Lemma st_bind_ok {W A B} (c : ST W A) (f : A -> ST W B) w b w' :
  (c ≫= f) w = (Ok b, w') ->
  exists a w1, c w = (Ok a, w1) /\ f a w1 = (Ok b, w').
Proof.
  unfold mbind, ST_bind. destruct (c w) as [[a|e] w1] eqn:E; [|done].
  intros H. by exists a, w1.
Qed.

Lemma st_bind_raise {W A B} (c : ST W A) (f : A -> ST W B) w e w' :
  (c ≫= f) w = (Raise e, w') ->
  c w = (Raise e, w') \/ exists a w1, c w = (Ok a, w1) /\ f a w1 = (Raise e, w').
Proof.
  unfold mbind, ST_bind. destruct (c w) as [[a|e'] w1] eqn:E; intros H.
  - right. by exists a, w1.
  - left. by injection H as <- <-.
Qed.

(** Forward execution of a bind whose first call is known. *)
Lemma st_run {W A B} (c : ST W A) (f : A -> ST W B) w a w1 :
  c w = (Ok a, w1) -> (c ≫= f) w = f a w1.
Proof. unfold mbind, ST_bind. by intros ->. Qed.
Lemma st_run_raise {W A B} (c : ST W A) (f : A -> ST W B) w e w1 :
  c w = (Raise e, w1) -> (c ≫= f) w = (Raise e, w1).
Proof. unfold mbind, ST_bind. by intros ->. Qed.

Lemma guard_not_ok {W} c e (w : W) u w' :
  guard_not c e w = (Ok u, w') -> c = false /\ w' = w.
Proof. unfold guard_not. destruct c; intros [= <-]; done. Qed.

Lemma guard_not_true {W} c e (w : W) : c = true -> guard_not c e w = (Raise e, w).
Proof. by intros ->. Qed.
Lemma guard_not_false {W} c e (w : W) : c = false -> guard_not c e w = (Ok tt, w).
Proof. by intros ->. Qed.

Lemma st_lift_ok {W A} (r : res A) (w : W) a w' :
  st_lift r w = (Ok a, w') -> r = Ok a /\ w' = w.
Proof. by intros [= -> ->]. Qed.

(** Inversion of a successful run. *)
Ltac st_inv :=
  repeat match goal with
  | H : (_ ≫= _) _ = (Ok _, _) |- _ =>
      let a := fresh "a" in let w := fresh "w" in
      apply st_bind_ok in H as (a & w & ? & ?)
  | H : guard_not _ _ _ = (Ok _, _) |- _ => apply guard_not_ok in H as [? ->]
  | H : st_lift _ _ = (Ok _, _) |- _ => apply st_lift_ok in H as [? ->]
  | H : st_get _ = (Ok _, _) |- _ => injection H as <- <-
  | H : st_modify _ _ = (Ok _, _) |- _ => injection H as <- <-
  | H : mret _ _ = (Ok _, _) |- _ => injection H as <- <-
  | H : st_raise _ _ = (Ok _, _) |- _ => discriminate H
  end.

(** One bind of a successful run: its value, the state after it, its equation. *)
Tactic Notation "run" hyp(E) "as" simple_intropattern(a) ident(w) simple_intropattern(E1) :=
  apply st_bind_ok in E as (a & w & E1 & E).

Lemma st_bind_cases {W A B} (c : ST W A) (f : A -> ST W B) w r w' :
  (c ≫= f) w = (r, w') ->
  (exists a w1, c w = (Ok a, w1) /\ f a w1 = (r, w')) \/ exists e, c w = (Raise e, w') /\ r = Raise e.
Proof.
  unfold mbind, ST_bind. destruct (c w) as [[a|e] w1] eqn:E; intros H.
  - left. by exists a, w1.
  - right. exists e. by injection H as <- <-.
Qed.
(** The same for a run that may fail: the second goal has the failure. *)
Tactic Notation "cases" hyp(E) "as" simple_intropattern(a) ident(w) simple_intropattern(E1) :=
  apply st_bind_cases in E as [(a & w & E1 & E)|(? & E1 & E)].

(** ** Tables *)

Section Table.
Context {A : Type} (key : A -> string).

Fixpoint select_by (k : string) (l : list A) : option A :=
  match l with
  | [] => None
  | r :: l => if String.eqb (key r) k then Some r else select_by k l
  end.

(** [UPDATE ... SET f WHERE p]. *)
Definition update_where (p : A -> bool) (f : A -> A) (l : list A) : list A :=
  map (fun r => if p r then f r else r) l.

(** [cursor.rowcount] of that statement. *)
Fixpoint count_where (p : A -> bool) (l : list A) : nat :=
  match l with
  | [] => 0
  | r :: l => (if p r then 1 else 0) + count_where p l
  end.

(** [INSERT new ON CONFLICT(key) DO UPDATE SET upd]. *)
Fixpoint upsert (upd : A -> A) (new : A) (l : list A) : list A :=
  match l with
  | [] => [new]
  | r :: l => if String.eqb (key r) (key new) then upd r :: l else r :: upsert upd new l
  end.

(** [DELETE ... WHERE key = ?]. *)
Definition delete_by (k : string) (l : list A) : list A :=
  List.filter (fun r => negb (String.eqb (key r) k)) l.

Definition unique_key (l : list A) : Prop := NoDup (map key l).

Lemma select_by_some k l r : select_by k l = Some r -> r ∈ l /\ key r = k.
Proof.
  induction l as [|x l IH]; simpl; [done|]. destruct (String.eqb (key x) k) eqn:E.
  - intros [= <-]. bool_prop. by rewrite elem_of_cons; auto.
  - intros [? ?]%IH. by rewrite elem_of_cons; auto.
Qed.

Lemma select_by_key k l r : select_by k l = Some r -> key r = k.
Proof. intros [_ ?]%select_by_some. done. Qed.

Lemma select_by_none k l : select_by k l = None <-> k ∉ map key l.
Proof.
  induction l as [|x l IH]; simpl.
  - split; [intros _ H; inversion H|done].
  - destruct (String.eqb (key x) k) eqn:E; bool_prop.
    + split; [done|]. intros H. destruct H. rewrite <- E. left.
    + rewrite IH, not_elem_of_cons. naive_solver.
Qed.

Lemma select_by_unique l r : unique_key l -> r ∈ l -> select_by (key r) l = Some r.
Proof.
  unfold unique_key. induction l as [|x l IH]; simpl; [intros _ H; inversion H|].
  intros [Hx Hn]%NoDup_cons [->|H]%elem_of_cons; [by rewrite String.eqb_refl|].
  destruct (String.eqb (key x) (key r)) eqn:E; bool_prop; [|auto].
  destruct Hx. rewrite E. by apply list_elem_of_fmap_2.
Qed.

Lemma update_where_keys p f l :
  (forall r, key (f r) = key r) -> map key (update_where p f l) = map key l.
Proof.
  intros Hf. unfold update_where. rewrite map_map. apply map_ext.
  intros r. by destruct (p r).
Qed.

Lemma select_update k p f l :
  (forall r, key (f r) = key r) ->
  select_by k (update_where p f l) = (fun r => if p r then f r else r) <$> select_by k l.
Proof.
  intros Hf. induction l as [|x l IH]; simpl; [done|].
  assert (key (if p x then f x else x) = key x) as -> by (by destruct (p x)).
  by destruct (String.eqb (key x) k).
Qed.

Lemma count_where_zero p l : count_where p l = 0 <-> Forall (fun r => p r = false) l.
Proof.
  induction l as [|x l IH]; simpl; [done|]. rewrite Forall_cons, <- IH.
  destruct (p x); simpl; split; [lia|intros [? ?]; done|auto|tauto].
Qed.

(** On a primary key at most one row matches, the one a lookup returns. *)
Lemma count_where_key p k l :
  unique_key l -> (forall r, p r = true -> key r = k) ->
  count_where p l = match select_by k l with Some r => if p r then 1 else 0 | None => 0 end.
Proof.
  unfold unique_key. intros Hu Hp. induction l as [|x l IH]; simpl; [done|].
  apply NoDup_cons in Hu as [Hx Hu]. specialize (IH Hu).
  destruct (String.eqb (key x) k) eqn:E; bool_prop.
  - assert (count_where p l = 0) as ->; [|lia].
    apply count_where_zero, Forall_forall. intros r Hr. apply not_true_is_false.
    intros ?%Hp. destruct Hx. rewrite E, <- H. by apply list_elem_of_fmap_2.
  - destruct (p x) eqn:Ep; [apply Hp in Ep; done|]. by rewrite IH.
Qed.

Lemma upsert_keys upd new l :
  (forall r, key r = key new -> key (upd r) = key r) ->
  map key (upsert upd new l)
  = if bool_decide (key new ∈ map key l) then map key l else map key l ++ [key new].
Proof.
  intros Hu. induction l as [|x l IH]; simpl; [done|].
  destruct (String.eqb (key x) (key new)) eqn:E; bool_prop; simpl.
  - rewrite Hu by done. rewrite bool_decide_eq_true_2; [done|]. rewrite E. left.
  - rewrite IH. assert (B : bool_decide (key new ∈ key x :: map key l)
      = bool_decide (key new ∈ map key l)).
    { apply bool_decide_ext. rewrite elem_of_cons. naive_solver. }
    rewrite B. by destruct (bool_decide (key new ∈ map key l)).
Qed.

Lemma upsert_unique upd new l :
  (forall r, key r = key new -> key (upd r) = key r) -> unique_key l -> unique_key (upsert upd new l).
Proof.
  intros Hu Hn. unfold unique_key. rewrite upsert_keys by done. case_bool_decide; [done|].
  apply NoDup_app. split_and!; [done| |apply NoDup_singleton].
  intros k Hk ->%list_elem_of_singleton. done.
Qed.

Lemma select_upsert k upd new l :
  (forall r, key r = key new -> key (upd r) = key r) ->
  select_by k (upsert upd new l)
  = if String.eqb (key new) k
    then Some (match select_by k l with Some r => upd r | None => new end)
    else select_by k l.
Proof.
  intros Hu. induction l as [|x l IH]; simpl; [done|].
  destruct (String.eqb (key x) (key new)) eqn:E; bool_prop; simpl.
  - rewrite Hu, E by done. by destruct (String.eqb (key new) k).
  - rewrite IH. destruct (String.eqb (key x) k) eqn:E2; [|done]. bool_prop.
    destruct (String.eqb (key new) k) eqn:E3; bool_prop; [congruence|done].
Qed.

Lemma select_app k l l' :
  select_by k (l ++ l') = match select_by k l with Some r => Some r | None => select_by k l' end.
Proof. induction l as [|x l IH]; simpl; [done|]. by destruct (String.eqb (key x) k). Qed.

Lemma select_delete k j l :
  select_by k (delete_by j l) = if String.eqb j k then None else select_by k l.
Proof.
  unfold delete_by. induction l as [|x l IH]; simpl; [by destruct (String.eqb j k)|].
  destruct (String.eqb (key x) j) eqn:E; bool_prop; simpl; rewrite IH.
  - subst j. by destruct (String.eqb (key x) k).
  - destruct (String.eqb (key x) k) eqn:E2; [|done]. bool_prop.
    destruct (String.eqb j k) eqn:E3; bool_prop; [congruence|done].
Qed.

Lemma delete_unique k l : unique_key l -> unique_key (delete_by k l).
Proof.
  unfold unique_key, delete_by. induction l as [|x l IH]; simpl; [done|].
  intros [Hx Hn]%NoDup_cons. destruct (negb _); simpl; [|auto].
  apply NoDup_cons. split; [|auto]. intros (r & E & H)%list_elem_of_fmap.
  apply Hx. rewrite E. apply list_elem_of_In, filter_In in H as [H _].
  apply list_elem_of_fmap_2. by apply list_elem_of_In.
Qed.

Lemma insert_unique r l : unique_key l -> select_by (key r) l = None -> unique_key (l ++ [r]).
Proof.
  intros Hn Hs%select_by_none. unfold unique_key. rewrite map_app. apply NoDup_app.
  split_and!; [done| |apply NoDup_singleton]. by intros k Hk ->%list_elem_of_singleton.
Qed.
End Table.

(** The key of the rows a [WHERE key = k AND ...] matches. *)
Ltac keyed := intros; cbv beta in *; bool_prop; done.

(** ** [ORDER BY] *)

Section OrderBy.
Context {A : Type} (leb : A -> A -> bool).

Fixpoint order_ins (x : A) (l : list A) : list A :=
  match l with
  | [] => [x]
  | y :: l' => if leb x y then x :: l else y :: order_ins x l'
  end.
(** A stable sort: equal rows keep their order. *)
Fixpoint order_by (l : list A) : list A :=
  match l with [] => [] | x :: l => order_ins x (order_by l) end.

Lemma order_ins_perm x l : Permutation (order_ins x l) (x :: l).
Proof.
  induction l as [|y l IH]; simpl; [done|]. destruct (leb x y); [done|].
  rewrite IH. apply perm_swap.
Qed.
Lemma order_by_perm l : Permutation (order_by l) l.
Proof. induction l as [|x l IH]; simpl; [done|]. by rewrite order_ins_perm, IH. Qed.
Lemma order_by_elem x l : x ∈ order_by l <-> x ∈ l.
Proof. by rewrite order_by_perm. Qed.

Context (leb_total : forall x y, leb x y = false -> leb y x = true)
  (leb_trans : forall x y z, leb x y = true -> leb y z = true -> leb x z = true).

Lemma order_by_sorted l : StronglySorted (fun x y => leb x y = true) (order_by l).
Proof.
  induction l as [|x l IH]; simpl; [constructor|].
  induction IH as [|y l' Hs IH Hall]; simpl; [repeat constructor|].
  destruct (leb x y) eqn:E.
  - constructor; [by constructor|]. constructor; [done|].
    eapply Forall_impl; [exact Hall|]. intros z Hz. by eapply leb_trans.
  - constructor; [done|]. apply Forall_forall. intros z. rewrite order_ins_perm, elem_of_cons.
    intros [->|Hz]; [auto|]. by apply (proj1 (Forall_forall _ _) Hall).
Qed.

(** [ORDER BY ... LIMIT 1] returns a least row. *)
Lemma order_by_head_least l x :
  head (order_by l) = Some x -> x ∈ l /\ Forall (fun y => leb x y = true) l.
Proof.
  destruct (order_by l) as [|y s] eqn:E; [done|]. intros [= ->].
  assert (Hin : x ∈ l) by (apply order_by_elem; rewrite E; left). split; [done|].
  pose proof (order_by_sorted l) as Hs. rewrite E in Hs. inversion Hs as [|?? _ Hall]; subst.
  apply Forall_forall. intros z. rewrite <- order_by_elem, E, elem_of_cons.
  intros [->|Hz]; [|by apply (proj1 (Forall_forall _ _) Hall)].
  destruct (leb x x) eqn:Er; [done|]. rewrite (leb_total x x Er) in Er. done.
Qed.

Lemma order_by_nil l : order_by l = [] -> l = [].
Proof. intros E. apply Permutation_nil. rewrite <- E. apply order_by_perm. Qed.
End OrderBy.

(** An update restricted to one key, seen through lookups. *)
Lemma select_update_key {A} (key : A -> string) p f k l :
  (forall r, p r = true -> key r = k) -> (forall r, key (f r) = key r) ->
  forall j, select_by key j (update_where p f l)
  = if String.eqb k j then (fun r => if p r then f r else r) <$> select_by key j l
    else select_by key j l.
Proof.
  intros Hp Hf j. rewrite select_update by done. destruct (String.eqb k j) eqn:E; [done|].
  bool_prop. destruct (select_by key j l) as [r|] eqn:S; [|done]. simpl. f_equal.
  apply select_by_key in S. destruct (p r) eqn:P; [|done]. apply Hp in P. congruence.
Qed.

Lemma update_target {A} (key : A -> string) p f k l l' r :
  l' = update_where p f l ->
  (forall r, p r = true -> key r = k) -> (forall r, key (f r) = key r) ->
  select_by key k l = Some r -> p r = true ->
  select_by key k l' = Some (f r) /\ forall j, j <> k -> select_by key j l' = select_by key j l.
Proof.
  intros -> Hp Hf Hs Hr. split.
  - rewrite (select_update_key key p f k) by done. by rewrite String.eqb_refl, Hs; simpl; rewrite Hr.
  - intros j Hj. rewrite (select_update_key key p f k) by done.
    by rewrite (proj2 (String.eqb_neq k j)).
Qed.
