(* ===== verification/SettingsRebind.v ===== *)
(** * Settings rebind record and background intent

    src/app/instance/settings_rebind.py (the durable record, its checksum and
    the legacy form before it) and src/app/instance/background_intent.py (the
    durable background-binding intent): value objects with their payloads.
    Both are read back strictly; RebindProps.v has their round trips. *)
From S2P Require Import Prelude PyValue.
Open Scope Z_scope.

Definition RegistryError (msg : string) : exn := RegistryException RegistryErr msg.
Definition raise_if (c : bool) (e : exn) : res unit := if c then Raise e else Ok tt.

Definition str_or_none (o : option string) : pyval := match o with Some s => PStr s | None => PNone end.

(** [set(d) == set(l)] for the keys of a dict. *)
Definition same_keys (d : pydict) (l : list string) : bool :=
  forallb (fun kv => existsb (String.eqb (fst kv)) l) d && forallb (dict_mem d) l.

(** [v in {...}] for a set of strings: an unhashable value raises. *)
Fixpoint hashable (v : pyval) : bool :=
  match v with
  | PList _ | PDict _ => false
  | PTuple l => forallb hashable l
  | _ => true
  end.
Definition in_set (v : pyval) (l : list string) : res bool :=
  if hashable v then Ok (py_in v (map PStr l)) else Raise (TypeError "unhashable type").

(** ** The settings rebind record *)

Definition SETTINGS_REBIND_SCHEMA : string := "settings_rebind.v1".
Definition SETTINGS_REBIND_SCHEMA_REVISION : Z := 1.
Definition MINIMUM_SETTINGS_REBIND_RUNTIME_KEY : string := "minimum_settings_rebind_runtime".
Definition MINIMUM_SETTINGS_REBIND_RUNTIME : string := "1".
Definition _LEGACY_FIELDS : list string :=
  ["schema"; "schemaRevision"; "desiredRevision"; "appliedRevision"; "phase"; "lifecyclePosture";
   "priorBindingId"; "candidateBindingId"; "checksum"].
Definition _ORIGINAL_FIELDS : list string := "reloadRevision" :: _LEGACY_FIELDS.
Definition _SCALAR_FIELDS : list string := "scalarDrainRevision" :: _LEGACY_FIELDS.
Definition _FIELDS : list string := "scalarDrainRevision" :: _ORIGINAL_FIELDS.
Definition _PHASE_POSTURES : list (string * string) :=
  [("dormant", "dormant"); ("prepared", "watcher"); ("committed", "watcher");
   ("no_lifecycle", "no_lifecycle"); ("cancelled", "watcher")].

Definition _revision (value : pyval) : res Z :=
  match value with
  | PInt z => if z <? 0 then Raise (RegistryError "settings rebind revision must be a non-negative integer") else Ok z
  | _ => Raise (RegistryError "settings rebind revision must be a non-negative integer")
  end.
Definition _binding_id (value : pyval) : res (option string) :=
  match value with
  | PNone => Ok None
  | PStr s =>
      if String.eqb (strip s) "" || negb (String.eqb s (strip s))
      then Raise (RegistryError "settings rebind must be a non-blank binding id") else Ok (Some s)
  | _ => Raise (RegistryError "settings rebind must be a non-blank binding id")
  end.

Record SettingsRebindRecord : Type := mkRebind {
  sb_schema_revision : Z;
  sb_desired_revision : Z;
  sb_applied_revision : Z;
  sb_phase : string;
  sb_lifecycle_posture : string;
  sb_prior_binding_id : option string;
  sb_candidate_binding_id : option string;
  sb_reload_revision : option Z;
  sb_scalar_drain_revision : option Z }.
#[export] Instance SettingsRebindRecord_eq_dec : EqDecision SettingsRebindRecord.
Proof. solve_decision. Defined.

Definition rebind_dormant (binding_id : option string) : SettingsRebindRecord :=
  mkRebind SETTINGS_REBIND_SCHEMA_REVISION 0 0 "dormant" "dormant" binding_id binding_id (Some 0) (Some 0).

Section Rebind.
Context (sha256_hex : string -> string).

Definition _checksum (payload : pydict) : string := sha256_hex (json_dumps "," ":" true (PDict payload)).

Definition unsigned_payload (r : SettingsRebindRecord) : pydict :=
  [("schema", PStr SETTINGS_REBIND_SCHEMA);
   ("schemaRevision", PInt (sb_schema_revision r));
   ("desiredRevision", PInt (sb_desired_revision r));
   ("appliedRevision", PInt (sb_applied_revision r));
   ("phase", PStr (sb_phase r));
   ("lifecyclePosture", PStr (sb_lifecycle_posture r));
   ("priorBindingId", str_or_none (sb_prior_binding_id r));
   ("candidateBindingId", str_or_none (sb_candidate_binding_id r));
   ("reloadRevision", PInt (default 0 (sb_reload_revision r)));
   ("scalarDrainRevision", PInt (default 0 (sb_scalar_drain_revision r)))].
Definition rebind_as_payload (r : SettingsRebindRecord) : pydict :=
  dict_set (unsigned_payload r) "checksum" (PStr (_checksum (unsigned_payload r))).

(** [value.get(k)] as a revision when the key is present. *)
Definition optional_revision (d : pydict) (k : string) (limit : Z) (msg : string) : res (option Z) :=
  if dict_mem d k then
    r ← _revision (get d k);
    _ ← raise_if (limit <? r) (RegistryError msg);
    Ok (Some r)
  else Ok None.

Definition rebind_from_payload (value : pyval) : res SettingsRebindRecord :=
  match value with
  | PDict d =>
      _ ← raise_if (negb (same_keys d _FIELDS || same_keys d _ORIGINAL_FIELDS || same_keys d _SCALAR_FIELDS
                          || same_keys d _LEGACY_FIELDS))
            (RegistryError "settings rebind record has an invalid shape");
      _ ← raise_if (negb (py_eqb (get d "schema") (PStr SETTINGS_REBIND_SCHEMA)))
            (RegistryError "settings rebind record has an invalid schema");
      schema_revision ← _revision (get d "schemaRevision");
      _ ← raise_if (negb (schema_revision =? SETTINGS_REBIND_SCHEMA_REVISION))
            (RegistryError "settings rebind record has an incompatible schema revision");
      desired ← _revision (get d "desiredRevision");
      applied ← _revision (get d "appliedRevision");
      _ ← raise_if (desired <? applied)
            (RegistryError "settings rebind applied revision exceeds desired revision");
      match get d "phase" with
      | PStr phase =>
          match dict_get _PHASE_POSTURES phase with
          | None => Raise (RegistryError "settings rebind record has an invalid phase")
          | Some posture =>
              _ ← raise_if (negb (py_eqb (get d "lifecyclePosture") (PStr posture)))
                    (RegistryError "settings rebind phase and lifecycle posture disagree");
              _ ← raise_if (String.eqb phase "dormant" && negb ((desired =? 0) && (applied =? 0)))
                    (RegistryError "dormant settings rebind revisions must be zero");
              _ ← raise_if (String.eqb phase "prepared" && negb (applied <? desired))
                    (RegistryError "prepared settings rebind requires unapplied desired revision");
              _ ← raise_if (existsb (String.eqb phase) ["committed"; "no_lifecycle"; "cancelled"]
                            && negb (desired =? applied))
                    (RegistryError "completed settings rebind revisions must match");
              prior ← _binding_id (get d "priorBindingId");
              candidate ← _binding_id (get d "candidateBindingId");
              reload ← optional_revision d "reloadRevision" applied
                         "settings rebind reload revision exceeds applied revision";
              drain ← optional_revision d "scalarDrainRevision" desired
                         "settings rebind scalar drain revision exceeds desired revision";
              match get d "checksum" with
              | PStr supplied =>
                  _ ← raise_if (negb (Nat.eqb (String.length supplied) 64)
                                || negb (String.eqb supplied (_checksum (dict_pop d "checksum"))))
                        (RegistryError "settings rebind checksum is invalid");
                  Ok (mkRebind schema_revision desired applied phase posture prior candidate reload drain)
              | _ => Raise (RegistryError "settings rebind checksum is invalid")
              end
          end
      | _ => Raise (RegistryError "settings rebind record has an invalid phase")
      end
  | _ => Raise (RegistryError "settings rebind record has an invalid shape")
  end.
End Rebind.

(** The binding one entry of the legacy form names. *)
Definition provisional_entry (d : pydict) (name : string) : res (option string) :=
  match get d name with
  | PNone => Ok None
  | PDict entry =>
      b ← _binding_id (get entry "vaultBindingId");
      match b with
      | None => Raise (RegistryError "settings rebind has no provisional binding id")
      | Some b => Ok (Some b)
      end
  | _ => Raise (RegistryError "settings rebind entry must be a mapping")
  end.
Definition provisional_binding_id (value : pyval) : res (option string) :=
  match value with
  | PDict d =>
      _ ← raise_if (negb (py_eqb (get d "schema") (PStr SETTINGS_REBIND_SCHEMA))
                    || negb (forallb (fun kv => existsb (String.eqb (fst kv))
                                        ["schema"; "prior"; "candidate"; "applied"]) d))
            (RegistryError "settings rebind record has an invalid pre-floor shape");
      prior ← provisional_entry d "prior";
      candidate ← provisional_entry d "candidate";
      applied ← provisional_entry d "applied";
      match dict_fromkeys (option_list prior ++ option_list candidate ++ option_list applied) with
      | [] => Ok None
      | [b] => Ok (Some b)
      | _ => Raise (RegistryError "settings rebind provisional bindings disagree")
      end
  | _ => Raise (RegistryError "settings rebind record has an invalid pre-floor shape")
  end.

(** ** The background intent *)

Definition BACKGROUND_INTENT_SCHEMA : string := "agentic-pkm.background-binding-intent.v1".
Definition BACKGROUND_INTENT_KEY : string := "backgroundIntent".
Definition INTENT_MODES : list string := ["compatibility"; "explicit"].
Definition HANDOFF_STATES : list string := ["pending"; "complete"].
Definition INTENT_PROVENANCES : list string :=
  ["mvr06_floor_cutover"; "compatibility_handoff"; "compatibility_default"; "background_intent"].

Record BackgroundBindingIntent : Type := mkIntent {
  bi_revision : Z;
  bi_mode : string;
  bi_compatibility_handoff : string;
  bi_compatibility_binding_id : option string;
  bi_background_vault_binding_ids : list string;
  bi_provenance : string }.
#[export] Instance BackgroundBindingIntent_eq_dec : EqDecision BackgroundBindingIntent.
Proof. solve_decision. Defined.

Definition staged_compatibility : BackgroundBindingIntent :=
  mkIntent 1 "compatibility" "pending" None [] "mvr06_floor_cutover".
Definition explicit_empty (i : BackgroundBindingIntent) : bool :=
  String.eqb (bi_mode i) "explicit" && bool_decide (bi_background_vault_binding_ids i = []).

Definition intent_as_payload (i : BackgroundBindingIntent) : pydict :=
  [("schema", PStr BACKGROUND_INTENT_SCHEMA);
   ("revision", PInt (bi_revision i));
   ("mode", PStr (bi_mode i));
   ("compatibilityHandoff", PStr (bi_compatibility_handoff i));
   ("compatibilityBindingId", str_or_none (bi_compatibility_binding_id i));
   ("backgroundVaultBindingIds", PList (map PStr (bi_background_vault_binding_ids i)));
   ("provenance", PStr (bi_provenance i))].

Definition intent_fields : list string := map fst (intent_as_payload staged_compatibility).

(** [list(members) == sorted(set(members))]. *)
Fixpoint canonical_members (l : list string) : bool :=
  match l with
  | x :: (y :: _) as l' => String.ltb x y && canonical_members l'
  | _ => true
  end.

Definition BackgroundIntentError (msg : string) : exn := RegistryException BackgroundIntentErr msg.

Definition text_items (v : pyval) : option (list string) :=
  match v with
  | PList l => mapM (fun x => match x with
                              | PStr s => if String.eqb (strip s) "" then None else Some s
                              | _ => None
                              end) l
  | _ => None
  end.

Definition intent_from_payload (payload : pyval) : res BackgroundBindingIntent :=
  match payload with
  | PDict d =>
      _ ← raise_if (negb (forallb (dict_mem d) intent_fields))
            (BackgroundIntentError "partial background intent");
      _ ← raise_if (negb (forallb (fun kv => existsb (String.eqb (fst kv)) intent_fields) d))
            (BackgroundIntentError "background intent has unknown fields");
      _ ← raise_if (negb (py_eqb (get d "schema") (PStr BACKGROUND_INTENT_SCHEMA)))
            (BackgroundIntentError "unknown background intent schema");
      match get d "revision" with
      | PInt revision =>
          _ ← raise_if (revision <? 1) (BackgroundIntentError "background intent revision is invalid");
          mode_ok ← in_set (get d "mode") INTENT_MODES;
          _ ← raise_if (negb mode_ok) (BackgroundIntentError "background intent mode is invalid");
          handoff_ok ← in_set (get d "compatibilityHandoff") HANDOFF_STATES;
          _ ← raise_if (negb handoff_ok) (BackgroundIntentError "background intent handoff state is invalid");
          compatibility ← match get d "compatibilityBindingId" with
                          | PNone => Ok None
                          | PStr s => if String.eqb (strip s) ""
                                      then Raise (BackgroundIntentError "background intent compatibility binding is invalid")
                                      else Ok (Some s)
                          | _ => Raise (BackgroundIntentError "background intent compatibility binding is invalid")
                          end;
          match text_items (get d "backgroundVaultBindingIds") with
          | None => Raise (BackgroundIntentError "background intent members are invalid")
          | Some members =>
              _ ← raise_if (negb (canonical_members members))
                    (BackgroundIntentError "background intent members are not canonical");
              provenance_ok ← in_set (get d "provenance") INTENT_PROVENANCES;
              _ ← raise_if (negb provenance_ok) (BackgroundIntentError "background intent provenance is invalid");
              let mode := py_str (get d "mode") in
              let handoff := py_str (get d "compatibilityHandoff") in
              _ ← (if String.eqb mode "compatibility" then
                     _ ← raise_if (bool_decide (members <> []))
                           (BackgroundIntentError "compatibility intent cannot carry explicit members");
                     raise_if (String.eqb handoff "pending" && bool_decide (is_Some compatibility))
                       (BackgroundIntentError "a pending compatibility handoff cannot materialize a binding")
                   else
                     _ ← raise_if (negb (String.eqb handoff "complete"))
                           (BackgroundIntentError "explicit intent requires the completed compatibility handoff");
                     raise_if (bool_decide (is_Some compatibility))
                       (BackgroundIntentError "explicit intent cannot retain a compatibility binding"));
              Ok (mkIntent revision mode handoff compatibility members (py_str (get d "provenance")))
          end
      | _ => Raise (BackgroundIntentError "background intent revision is invalid")
      end
  | _ => Raise (BackgroundIntentError "background intent must be a mapping")
  end.
