(* ===== verification/VaultRegistry.v ===== *)
(** * The vault registry document

    src/app/instance/vault_registry.py: the snapshot of an instance's vault
    registry, its validation and its form as the front matter of the registry
    file, and src/app/instance/filesystem_identity.py.

    The front matter is the dict that [yaml.safe_load] gives back for what
    [yaml.safe_dump] wrote: [yaml_norm] reads tuples back as lists (true of a
    text without the fence in it, see [RegistryCommit.fence_truncates]).  The
    identity of a vault root is read from the file system; [root] gives what
    one call sees ([None] is a FilesystemIdentityError).  An [int] field that
    holds a [bool] is kept as the number it equals. *)
From S2P Require Import Prelude PyValue SettingsRebind.
Open Scope Z_scope.

Definition CURRENT_REGISTRY_SCHEMA : string := "agentic-pkm.instance-vault-registry.v1".
Definition FOREGROUND_REGISTRY_SCHEMA : string := "agentic-pkm.instance-vault-registry.v2".
Definition BACKGROUND_INTENT_REGISTRY_SCHEMA : string := "agentic-pkm.instance-vault-registry.v3".
Definition SUPPORTED_REGISTRY_SCHEMAS : list string :=
  [CURRENT_REGISTRY_SCHEMA; FOREGROUND_REGISTRY_SCHEMA; BACKGROUND_INTENT_REGISTRY_SCHEMA].
Definition MINIMUM_RUNTIME_SCHEMA_KEY : string := "minimumRuntimeSchema".
Definition MVR05_MINIMUM_RUNTIME_SCHEMA : string := "mvr-05".
Definition MVR06_MINIMUM_RUNTIME_SCHEMA : string := "mvr-06".
Definition MVR06_FLOOR_RECEIPT_KEY : string := "mvr06FloorCutover".
Definition MVR06_FLOOR_RECEIPT_SCHEMA : string := "agentic-pkm.mvr06-runtime-floor.v1".
Definition APP_LOCAL_SCHEMA : string := "design-handoff.app-local.v1".
Definition REGISTRY_AUTHORITY_DORMANT : string := "dormant".
Definition REGISTRY_AUTHORITY_ACTIVE : string := "active".
Definition SCALAR_ROLLBACK_SCHEMA : string := "agentic-pkm.scalar-rollback-floor.v1".
Definition ROLL_FORWARD_LINEAGE_SCHEMA : string := "agentic-pkm.scalar-roll-forward-lineage.v1".
Definition DEFAULT_PROVENANCE_EXPLICIT : string := "explicit_default_command".
Definition DEFAULT_PROVENANCE_FIRST_INITIALIZE : string := "first_vault_initialize".
Definition DEFAULT_PROVENANCE_FIRST_OPEN_EXISTING : string := "first_open_existing".
Definition DEFAULT_PROVENANCE_LEGACY_UNLABELLED : string := "legacy_unlabelled_adoption".
Definition DEFAULT_VAULT_PROVENANCES : list string :=
  [DEFAULT_PROVENANCE_EXPLICIT; "legacy_last_active_migration"; DEFAULT_PROVENANCE_LEGACY_UNLABELLED;
   DEFAULT_PROVENANCE_FIRST_INITIALIZE; DEFAULT_PROVENANCE_FIRST_OPEN_EXISTING; "roll_forward_restored"].
Definition _REGISTRY_FIELDS : list string :=
  ["schema"; "authority"; "revision"; "appInstallId"; "lastActiveVaultRef"; "defaultVaultBindingId";
   "defaultVaultProvenance"; "registrations"; "removalTombstones"; "transferLineage"; "settingsRebind"].
Definition _REGISTRATION_FIELDS : list string :=
  ["ref"; "path"; "vaultId"; "vaultName"; "localInstanceId"; "lastOpenedAt"].
Definition _BINDING_EFFECT_LEASE_SCHEMA : string := "agentic-pkm.binding-effect-lease.v1".

Definition RegistryDefaultConflict (msg : string) : exn := RegistryException DefaultConflict msg.

(** ** Data *)

Record VaultRegistration : Type := mkRegistration {
  vg_vault_binding_id : string;
  vg_ref : string;
  vg_path : string;
  vg_vault_id : option string;
  vg_local_instance_id : option string;
  vg_vault_name : option string;
  vg_last_opened_at : option string;
  vg_extensions : pydict }.
Record RemovalTombstone : Type := mkTombstone {
  rt_vault_binding_id : string;
  rt_ref : string;
  rt_path : string;
  rt_vault_id : option string;
  rt_local_instance_id : option string;
  rt_content_epoch : Z }.
Record TransferLineage : Type := mkLineage {
  tl_source_binding_id : string;
  tl_destination_binding_id : string;
  tl_local_instance_id : option string;
  tl_vault_id : option string;
  tl_source_channel_id : string;
  tl_destination_channel_id : string;
  tl_source_registry_revision : Z;
  tl_destination_registry_revision : Z;
  tl_ownership_transfer_id : string }.
Record RegistrySnapshot : Type := mkRegistry {
  rg_schema : string;
  rg_authority : string;
  rg_revision : Z;
  rg_app_install_id : string;
  rg_last_active_vault_ref : option string;
  rg_registrations : list (string * VaultRegistration);
  rg_removal_tombstones : list (string * RemovalTombstone);
  rg_transfer_lineage : list TransferLineage;
  rg_settings_rebind : option pydict;
  rg_extensions : pydict;
  rg_default_vault_binding_id : option string;
  rg_default_vault_provenance : option string }.
Definition is_active (s : RegistrySnapshot) : bool := String.eqb (rg_authority s) REGISTRY_AUTHORITY_ACTIVE.

Definition _optional_str (v : pyval) : option string :=
  let text := if is_none v then "" else strip (py_str v) in
  if String.eqb text "" then None else Some text.
Definition opt_mem {A} (o : option string) (d : list (string * A)) : bool :=
  match o with Some k => dict_mem d k | None => false end.

(** ** Roots *)

Record FilesystemRootIdentity : Type := mkRoot {
  fr_canonical_path : string;
  fr_device : option Z;
  fr_inode : option Z }.
Definition materialized (r : FilesystemRootIdentity) : bool :=
  bool_decide (is_Some (fr_device r)) && bool_decide (is_Some (fr_inode r)).
Definition same_filesystem_root (left right : FilesystemRootIdentity) : bool :=
  String.eqb (fr_canonical_path left) (fr_canonical_path right)
  || materialized left && materialized right
     && bool_decide (fr_device left = fr_device right) && bool_decide (fr_inode left = fr_inode right).

(** ** Binding effect leases *)

Definition non_blank (v : pyval) : bool :=
  match v with PStr s => negb (String.eqb (strip s) "") | _ => false end.
Definition positive (v : pyval) : bool := match v with PInt z => 0 <? z | _ => false end.

Definition _validate_binding_effect_holder (value : pyval) (mode : string) : res pydict :=
  match value with
  | PDict d =>
      if same_keys d ["holderId"; "pid"; "processStart"; "ticket"; "mode"]
         && non_blank (get d "holderId") && positive (get d "pid") && non_blank (get d "processStart")
         && positive (get d "ticket") && py_eqb (get d "mode") (PStr mode)
      then Ok d else Raise (RegistryError "binding effect lease state has an invalid holder")
  | _ => Raise (RegistryError "binding effect lease state has an invalid holder")
  end.

Definition lease_fields : list string :=
  ["schema"; "vaultBindingId"; "generation"; "nextTicket"; "sharedHolders"; "exclusivePending"; "exclusiveHolder"].
Definition ticket_of (holder : pydict) : Z := match get holder "ticket" with PInt z => z | _ => 0 end.

Definition _validate_binding_effect_lease_state (vault_binding_id : string) (value : pyval) : res pydict :=
  match value with
  | PDict d =>
      _ ← raise_if (negb (same_keys d lease_fields))
            (RegistryError "binding effect lease state has an invalid shape");
      _ ← raise_if (negb (py_eqb (get d "schema") (PStr _BINDING_EFFECT_LEASE_SCHEMA)))
            (RegistryError "binding effect lease state has an invalid schema");
      _ ← raise_if (negb (py_eqb (get d "vaultBindingId") (PStr vault_binding_id)))
            (RegistryError "binding effect lease state has a mismatched binding");
      match get d "generation", get d "nextTicket" with
      | PInt generation, PInt next_ticket =>
          _ ← raise_if ((generation <? 0) || (next_ticket <=? 0))
                (RegistryError "binding effect lease state has an invalid generation");
          match get d "sharedHolders", get d "exclusivePending" with
          | PList raw_shared, PList raw_pending =>
              shared ← mapM_res (fun item => _validate_binding_effect_holder item "shared") raw_shared;
              pending ← mapM_res (fun item => _validate_binding_effect_holder item "pending") raw_pending;
              exclusive ← match get d "exclusiveHolder" with
                          | PNone => Ok None
                          | raw => h ← _validate_binding_effect_holder raw "exclusive"; Ok (Some h)
                          end;
              let holders := shared ++ pending ++ option_list exclusive in
              let holder_ids := map (fun item => py_str (get item "holderId")) holders in
              let tickets := map ticket_of holders in
              _ ← raise_if (negb (bool_decide (NoDup holder_ids)) || negb (bool_decide (NoDup tickets)))
                    (RegistryError "binding effect lease state has duplicate holders");
              _ ← raise_if (bool_decide (is_Some exclusive) && bool_decide (shared <> []))
                    (RegistryError "binding effect lease state overlaps shared and exclusive holders");
              _ ← raise_if (existsb (fun t => next_ticket <=? t) tickets)
                    (RegistryError "binding effect lease state ticket is outside its sequence");
              Ok [("schema", PStr _BINDING_EFFECT_LEASE_SCHEMA); ("vaultBindingId", PStr vault_binding_id);
                  ("generation", PInt generation); ("nextTicket", PInt next_ticket);
                  ("sharedHolders", PList (map PDict shared)); ("exclusivePending", PList (map PDict pending));
                  ("exclusiveHolder", match exclusive with Some h => PDict h | None => PNone end)]
          | _, _ => Raise (RegistryError "binding effect lease state holders must be lists")
          end
      | _, _ => Raise (RegistryError "binding effect lease state has an invalid generation")
      end
  | _ => Raise (RegistryError "binding effect lease state has an invalid shape")
  end.

Fixpoint lease_states_ok {A} (registrations : list (string * A)) (states : pydict) : res unit :=
  match states with
  | [] => Ok tt
  | (binding_id, value) :: states =>
      _ ← raise_if (negb (dict_mem registrations binding_id))
            (RegistryError "binding effect lease state names an unknown binding");
      _ ← _validate_binding_effect_lease_state binding_id value;
      lease_states_ok registrations states
  end.
Definition _validate_binding_effect_lease_extension {A} (extensions : pydict)
    (registrations : list (string * A)) : res unit :=
  match get extensions "bindingEffectLeases" with
  | PNone => Ok tt
  | PDict states => lease_states_ok registrations states
  | _ => Raise (RegistryError "binding effect lease state must be a mapping")
  end.

(** ** Defaults *)

Definition _assert_default_is_resolvable (default_vault_binding_id default_vault_provenance : option string)
    (registrations : list (string * VaultRegistration)) : res unit :=
  match default_vault_binding_id with
  | None =>
      raise_if (bool_decide (is_Some default_vault_provenance))
        (RegistryDefaultConflict "default provenance is present without an explicit default binding")
  | Some binding_id =>
      _ ← raise_if (negb (dict_mem registrations binding_id))
            (RegistryDefaultConflict "explicit instance default is not registered");
      raise_if (negb (match default_vault_provenance with
                      | Some p => existsb (String.eqb p) DEFAULT_VAULT_PROVENANCES
                      | None => false
                      end)) (RegistryDefaultConflict "unsupported default provenance")
  end.

(** The default, its provenance and the extensions, which may gain the lineage of an untrusted default. *)
Definition _read_default_from_frontmatter (frontmatter : pydict)
    (registrations : list (string * VaultRegistration)) (extensions : pydict)
  : res (option string * option string * pydict) :=
  let binding_id := _optional_str (get frontmatter "defaultVaultBindingId") in
  let provenance := _optional_str (get frontmatter "defaultVaultProvenance") in
  match binding_id, provenance with
  | Some b, None =>
      if dict_mem registrations b then Ok (Some b, Some DEFAULT_PROVENANCE_LEGACY_UNLABELLED, extensions)
      else Ok (None, None, dict_set extensions "legacyDefaultVaultBindingId" (PStr b))
  | _, _ =>
      _ ← _assert_default_is_resolvable binding_id provenance registrations;
      Ok (binding_id, provenance, extensions)
  end.

Definition _validate_mvr06_floor_receipt (receipt : pyval) : res unit :=
  match receipt with
  | PDict d =>
      _ ← raise_if (negb (same_keys d ["schema"; "previousRegistrySchema"; "previousMinimumRuntimeSchema"]
                          && py_eqb (get d "schema") (PStr MVR06_FLOOR_RECEIPT_SCHEMA)))
            (RegistryError "MVR-06 runtime floor receipt is invalid");
      known ← in_set (get d "previousRegistrySchema") [CURRENT_REGISTRY_SCHEMA; FOREGROUND_REGISTRY_SCHEMA];
      raise_if (negb known
                || negb (py_eqb (get d "previousMinimumRuntimeSchema") (PStr MVR05_MINIMUM_RUNTIME_SCHEMA)))
        (RegistryError "MVR-06 runtime floor receipt is invalid")
  | _ => Raise (RegistryError "MVR-06 runtime floor receipt is invalid")
  end.

(** ** Rows of the document *)

Definition without (fields : list string) (d : pydict) : pydict :=
  List.filter (fun kv => negb (existsb (String.eqb (fst kv)) fields)) d.

Definition _registration_to_frontmatter (item : VaultRegistration) : pydict :=
  dict_merge (vg_extensions item)
    [("ref", PStr (vg_ref item)); ("path", PStr (vg_path item)); ("vaultId", str_or_none (vg_vault_id item));
     ("vaultName", str_or_none (vg_vault_name item));
     ("localInstanceId", str_or_none (vg_local_instance_id item));
     ("lastOpenedAt", str_or_none (vg_last_opened_at item))].
Definition _registration_from_frontmatter (binding_id : string) (raw : pydict) : res VaultRegistration :=
  match _optional_str (get raw "ref"), _optional_str (get raw "path") with
  | Some ref, Some path =>
      Ok (mkRegistration binding_id ref path (_optional_str (get raw "vaultId"))
            (_optional_str (get raw "localInstanceId")) (_optional_str (get raw "vaultName"))
            (_optional_str (get raw "lastOpenedAt")) (without _REGISTRATION_FIELDS raw))
  | _, _ => Raise (RegistryError "registration requires ref and path")
  end.

(** An [isinstance(v, int)] value as a number. *)
Definition as_int (v : pyval) : option Z :=
  match v with PInt z => Some z | PBool b => Some (if b then 1 else 0) | _ => None end.

Definition _tombstone_to_frontmatter (item : RemovalTombstone) : pydict :=
  [("ref", PStr (rt_ref item)); ("path", PStr (rt_path item)); ("vaultId", str_or_none (rt_vault_id item));
   ("localInstanceId", str_or_none (rt_local_instance_id item)); ("contentEpoch", PInt (rt_content_epoch item))].
Definition _tombstone_from_frontmatter (binding_id : string) (raw : pydict) : res RemovalTombstone :=
  match _optional_str (get raw "ref"), _optional_str (get raw "path"), as_int (get raw "contentEpoch") with
  | Some ref, Some path, Some epoch =>
      _ ← raise_if (epoch <? 1) (RegistryError "removal tombstone is invalid");
      Ok (mkTombstone binding_id ref path (_optional_str (get raw "vaultId"))
            (_optional_str (get raw "localInstanceId")) epoch)
  | _, _, _ => Raise (RegistryError "removal tombstone is invalid")
  end.

Definition _transfer_lineage_to_frontmatter (item : TransferLineage) : pydict :=
  [("sourceBindingId", PStr (tl_source_binding_id item));
   ("destinationBindingId", PStr (tl_destination_binding_id item));
   ("localInstanceId", str_or_none (tl_local_instance_id item)); ("vaultId", str_or_none (tl_vault_id item));
   ("sourceChannelId", PStr (tl_source_channel_id item));
   ("destinationChannelId", PStr (tl_destination_channel_id item));
   ("sourceRegistryRevision", PInt (tl_source_registry_revision item));
   ("destinationRegistryRevision", PInt (tl_destination_registry_revision item));
   ("ownershipTransferId", PStr (tl_ownership_transfer_id item))].
Definition _transfer_lineage_from_frontmatter (raw : pyval) : res TransferLineage :=
  match raw with
  | PDict raw =>
      match _optional_str (get raw "sourceBindingId"), _optional_str (get raw "destinationBindingId") with
      | Some source, Some destination =>
          match _optional_str (get raw "sourceChannelId"), _optional_str (get raw "destinationChannelId"),
                _optional_str (get raw "ownershipTransferId"), as_int (get raw "sourceRegistryRevision"),
                as_int (get raw "destinationRegistryRevision") with
          | Some source_channel, Some destination_channel, Some transfer_id, Some source_revision,
            Some destination_revision =>
              Ok (mkLineage source destination (_optional_str (get raw "localInstanceId"))
                    (_optional_str (get raw "vaultId")) source_channel destination_channel source_revision
                    destination_revision transfer_id)
          | _, _, _, _, _ => Raise (RegistryError "transfer lineage entry is incomplete")
          end
      | _, _ => Raise (RegistryError "transfer lineage entry requires source and destination")
      end
  | _ => Raise (RegistryError "transfer lineage entry must be a mapping")
  end.

(** ** Registrations *)

Definition _validate_registration (registration : VaultRegistration) : res unit :=
  _ ← raise_if (String.eqb (strip (vg_vault_binding_id registration)) "")
        (RegistryError "vault_binding_id is required");
  raise_if (String.eqb (strip (vg_ref registration)) "" || String.eqb (strip (vg_path registration)) "")
    (RegistryError "registration ref and path are required").

Section Document.
Context (sha256_hex : string -> string) (root : string -> option FilesystemRootIdentity).

Definition _root_identity (value : string) : res FilesystemRootIdentity :=
  match root value with
  | Some identity => Ok identity
  | None => Raise (RegistryError "cannot resolve filesystem identity")
  end.

Fixpoint clashes_with (candidate : VaultRegistration) (identity : FilesystemRootIdentity)
    (registrations : list (string * VaultRegistration)) : res unit :=
  match registrations with
  | [] => Ok tt
  | (binding_id, item) :: registrations =>
      if String.eqb binding_id (vg_vault_binding_id candidate) then clashes_with candidate identity registrations
      else
        _ ← raise_if (String.eqb (vg_ref item) (vg_ref candidate)) (RegistryError "registry ref collision");
        other ← _root_identity (vg_path item);
        _ ← raise_if (same_filesystem_root other identity) (RegistryError "registry path identity collision");
        clashes_with candidate identity registrations
  end.
Definition _assert_registration_unique (candidate : VaultRegistration)
    (registrations : list (string * VaultRegistration)) : res unit :=
  identity ← _root_identity (vg_path candidate);
  clashes_with candidate identity registrations.

(** ** The document *)

Definition fields_of (snapshot : RegistrySnapshot) : pydict :=
  [("schema", PStr (rg_schema snapshot));
   ("authority", PStr (rg_authority snapshot));
   ("revision", PInt (rg_revision snapshot));
   ("appInstallId", PStr (rg_app_install_id snapshot));
   ("lastActiveVaultRef", str_or_none (rg_last_active_vault_ref snapshot));
   ("defaultVaultBindingId", str_or_none (rg_default_vault_binding_id snapshot));
   ("defaultVaultProvenance", str_or_none (rg_default_vault_provenance snapshot));
   ("registrations", PDict (map (fun kv => (fst kv, PDict (_registration_to_frontmatter (snd kv))))
                              (sort_keys (rg_registrations snapshot))));
   ("removalTombstones", PDict (map (fun kv => (fst kv, PDict (_tombstone_to_frontmatter (snd kv))))
                                  (sort_keys (rg_removal_tombstones snapshot))));
   ("transferLineage", PList (map (fun item => PDict (_transfer_lineage_to_frontmatter item))
                                (rg_transfer_lineage snapshot)));
   ("settingsRebind", match rg_settings_rebind snapshot with Some d => PDict d | None => PNone end)].
Definition _frontmatter_from_snapshot (snapshot : RegistrySnapshot) : pydict :=
  dict_merge (rg_extensions snapshot) (fields_of snapshot).

(** [frontmatter.get(k) or {}] where a mapping is required. *)
Definition mapping_or_empty (v : pyval) (msg : string) : res pydict :=
  match py_or v (PDict []) with PDict d => Ok d | _ => Raise (RegistryError msg) end.

Fixpoint read_registrations (raw : pydict) (registrations : list (string * VaultRegistration))
  : res (list (string * VaultRegistration)) :=
  match raw with
  | [] => Ok registrations
  | (binding_id, PDict row) :: raw =>
      registration ← _registration_from_frontmatter binding_id row;
      _ ← _validate_registration registration;
      _ ← _assert_registration_unique registration registrations;
      read_registrations raw (dict_set registrations (vg_vault_binding_id registration) registration)
  | _ => Raise (RegistryError "registration must be a mapping")
  end.
Fixpoint read_tombstones (raw : pydict) (tombstones : list (string * RemovalTombstone))
  : res (list (string * RemovalTombstone)) :=
  match raw with
  | [] => Ok tombstones
  | (binding_id, PDict row) :: raw =>
      tombstone ← _tombstone_from_frontmatter binding_id row;
      read_tombstones raw (dict_set tombstones binding_id tombstone)
  | _ => Raise (RegistryError "removal tombstone must be a mapping")
  end.

(** [v in d] for a dict: an unhashable value raises. *)
Definition in_dict {A} (v : pyval) (d : list (string * A)) : res bool := in_set v (map fst d).

(** A retired rollback target is accepted with the evidence of its transfer. *)
Definition retired_target (floor : pydict) (extensions : pydict)
    (tombstones : list (string * RemovalTombstone)) (lineage : list TransferLineage) : res bool :=
  if negb (is_none (get floor "targetVaultBindingId")) then Ok false else
  buried ← in_dict (get floor "retiredTargetBindingId") tombstones;
  if negb buried then Ok false else
  if negb (existsb (fun item => py_eqb (PStr (tl_ownership_transfer_id item)) (get floor "retiredByTransfer")
                                && py_eqb (PStr (tl_source_binding_id item)) (get floor "retiredTargetBindingId"))
             lineage) then Ok false else
  foreground ← getattr_get (py_or (get extensions "runtimeFloors") (PDict [])) "minimumForegroundOwnership" PNone;
  Ok (py_eqb foreground (PStr "mvr05c.v1")).

Definition digest_field (v : pyval) : bool :=
  match v with PStr s => Nat.eqb (String.length s) 64 | _ => false end.
Definition check_rollback_floor (extensions : pydict) (revision : Z)
    (registrations : list (string * VaultRegistration)) (tombstones : list (string * RemovalTombstone))
    (lineage : list TransferLineage) : res unit :=
  let invalid := RegistryError "active registry scalar rollback floor is invalid" in
  match get extensions "scalarRollback" with
  | PDict floor =>
      _ ← raise_if (negb (py_eqb (get floor "schema") (PStr SCALAR_ROLLBACK_SCHEMA))) invalid;
      _ ← (if opt_mem (_optional_str (get floor "targetVaultBindingId")) registrations then Ok tt else
           retired ← retired_target floor extensions tombstones lineage;
           raise_if (negb retired) invalid);
      raise_if (negb (py_eqb (get floor "forkRegistryRevision") (PInt revision)
                      && py_eqb (get floor "gatewayPreflight") (PStr "authenticated-mutation-filter")
                      && py_eqb (get floor "nativeGuardPreflight") (PStr "deny-by-default")
                      && py_eqb (get floor "rollForwardLineage") (PStr ROLL_FORWARD_LINEAGE_SCHEMA)
                      && forallb (fun k => digest_field (get floor k))
                           ["composePolicySha256"; "gatewayPolicySha256"; "nativeLauncherSha256"])) invalid
  | _ => Raise invalid
  end.

(** The runtime floors against the schema and the background intent. *)
Definition check_runtime_floors (schema : string) (extensions floors : pydict) : res unit :=
  let foreground := get floors "minimumForegroundOwnership" in
  let mvr06 := py_eqb (get floors MINIMUM_RUNTIME_SCHEMA_KEY) (PStr MVR06_MINIMUM_RUNTIME_SCHEMA) in
  let v3 := String.eqb schema BACKGROUND_INTENT_REGISTRY_SCHEMA in
  _ ← raise_if (xorb v3 mvr06) (RegistryError "MVR-06 runtime floor requires its qualified registry schema");
  _ ← raise_if (negb v3 && xorb (String.eqb schema FOREGROUND_REGISTRY_SCHEMA) (py_eqb foreground (PStr "mvr05c.v1")))
        (RegistryError "foreground ownership floor requires its qualified registry schema");
  _ ← raise_if (negb (is_none foreground) && negb (py_eqb foreground (PStr "mvr05c.v1")))
        (RegistryError "foreground ownership runtime floor is incompatible");
  _ ← (if mvr06 then _validate_mvr06_floor_receipt (get floors MVR06_FLOOR_RECEIPT_KEY)
       else raise_if (dict_mem floors MVR06_FLOOR_RECEIPT_KEY)
              (RegistryError "MVR-06 floor receipt requires the MVR-06 runtime floor"));
  match get extensions BACKGROUND_INTENT_KEY with
  | PNone => Ok tt
  | raw_intent =>
      _ ← raise_if (negb mvr06) (RegistryError "background intent requires the MVR-06 runtime floor");
      _ ← intent_from_payload raw_intent;
      Ok tt
  end.

Definition known_binding {A B} (registrations : list (string * A)) (tombstones : list (string * B))
    (binding_id : option string) : bool :=
  match binding_id with
  | None => true
  | Some b => dict_mem registrations b || dict_mem tombstones b
  end.
Definition check_settings_rebind (settings_rebind : option pydict) (floors : pydict)
    (registrations : list (string * VaultRegistration)) (tombstones : list (string * RemovalTombstone)) : res unit :=
  match _optional_str (get floors MINIMUM_SETTINGS_REBIND_RUNTIME_KEY), settings_rebind with
  | None, None => Ok tt
  | None, Some rebind =>
      if dict_mem rebind "schemaRevision" then
        _ ← rebind_from_payload sha256_hex (PDict rebind);
        Raise (RegistryError "settings rebind record requires its runtime floor")
      else _ ← provisional_binding_id (PDict rebind); Ok tt
  | Some settings_floor, _ =>
      _ ← raise_if (negb (String.eqb settings_floor MINIMUM_SETTINGS_REBIND_RUNTIME))
            (RegistryError "settings rebind runtime floor is incompatible");
      match settings_rebind with
      | Some rebind =>
          _ ← raise_if (negb (dict_mem rebind "schemaRevision"))
                (RegistryError "settings rebind runtime floor requires its dormant record");
          parsed ← rebind_from_payload sha256_hex (PDict rebind);
          raise_if (negb (known_binding registrations tombstones (sb_prior_binding_id parsed)
                          && known_binding registrations tombstones (sb_candidate_binding_id parsed)))
            (RegistryError "settings rebind record names an unknown binding")
      | None => Raise (RegistryError "settings rebind runtime floor requires its dormant record")
      end
  end.

Definition one_of (o : option string) (l : list string) : bool :=
  match o with Some s => existsb (String.eqb s) l | None => false end.

Definition _snapshot_from_frontmatter (frontmatter : pydict) : res RegistrySnapshot :=
  let schema := _optional_str (get frontmatter "schema") in
  _ ← raise_if (negb (one_of schema SUPPORTED_REGISTRY_SCHEMAS)) (RegistryError "registry schema mismatch");
  let authority := _optional_str (get frontmatter "authority") in
  _ ← raise_if (negb (one_of authority [REGISTRY_AUTHORITY_DORMANT; REGISTRY_AUTHORITY_ACTIVE]))
        (RegistryError "unsupported registry authority state");
  match as_int (default (PInt 0) (dict_get frontmatter "revision")) with
  | None => Raise (RegistryError "registry revision must be a non-negative integer")
  | Some revision =>
      _ ← raise_if (revision <? 0) (RegistryError "registry revision must be a non-negative integer");
      raw_registrations ← mapping_or_empty (get frontmatter "registrations")
                            "registry registrations must be a mapping";
      registrations ← read_registrations raw_registrations [];
      raw_tombstones ← mapping_or_empty (get frontmatter "removalTombstones")
                         "registry removalTombstones must be a mapping";
      tombstones ← read_tombstones raw_tombstones [];
      match py_or (get frontmatter "transferLineage") (PList []) with
      | PList raw_lineage =>
          lineage ← mapM_res _transfer_lineage_from_frontmatter raw_lineage;
          match _optional_str (get frontmatter "appInstallId") with
          | None => Raise (RegistryError "registry appInstallId is required")
          | Some app_install_id =>
              let extensions := without _REGISTRY_FIELDS frontmatter in
              _ ← _validate_binding_effect_lease_extension extensions registrations;
              _ ← (if one_of authority [REGISTRY_AUTHORITY_ACTIVE]
                   then check_rollback_floor extensions revision registrations tombstones lineage else Ok tt);
              settings_rebind ← match get frontmatter "settingsRebind" with
                                | PNone => Ok None
                                | PDict d => Ok (Some d)
                                | _ => Raise (RegistryError "settingsRebind must be a mapping")
                                end;
              floors ← mapping_or_empty (get extensions "runtimeFloors") "runtime floors are invalid";
              _ ← check_runtime_floors (default "" schema) extensions floors;
              _ ← check_settings_rebind settings_rebind floors registrations tombstones;
              '(default_id, provenance, extensions) ←
                 _read_default_from_frontmatter frontmatter registrations extensions;
              Ok (mkRegistry (default "" schema) (default "" authority) revision app_install_id
                    (_optional_str (get frontmatter "lastActiveVaultRef")) registrations tombstones lineage
                    settings_rebind extensions default_id provenance)
          end
      | _ => Raise (RegistryError "registry transferLineage must be a list")
      end
  end.

(** The legacy view exported beside the registry: its front matter. *)
Definition _rollback_export_payload (snapshot : RegistrySnapshot) (selected_binding_id : option string)
    (selected_runtime_path : option string) : res pydict :=
  selected ← match selected_binding_id with
             | None =>
                 if is_active snapshot then
                   match get (rg_extensions snapshot) "scalarRollback" with
                   | PDict floor =>
                       _ ← raise_if (negb (py_eqb (get floor "schema") (PStr SCALAR_ROLLBACK_SCHEMA)))
                             (RegistryError "active registry is missing scalar rollback floor");
                       Ok (_optional_str (get floor "targetVaultBindingId"))
                   | _ => Raise (RegistryError "active registry is missing scalar rollback floor")
                   end
                 else Ok None
             | Some b => Ok (Some b)
             end;
  '(items, last_active) ←
     match selected with
     | Some b =>
         match dict_get (rg_registrations snapshot) b with
         | None => Raise (RegistryError "scalar rollback target is not registered")
         | Some item => Ok ([item], Some (vg_ref item))
         end
     | None => Ok (map snd (rg_registrations snapshot), rg_last_active_vault_ref snapshot)
     end;
  let known item := PDict
    [("path", PStr (match selected, selected_runtime_path with
                    | Some b, Some p => if String.eqb (vg_vault_binding_id item) b then p else vg_path item
                    | _, _ => vg_path item
                    end));
     ("vaultId", str_or_none (vg_vault_id item)); ("vaultName", str_or_none (vg_vault_name item));
     ("localInstanceId", str_or_none (vg_local_instance_id item));
     ("lastOpenedAt", str_or_none (vg_last_opened_at item))] in
  Ok [("schema", PStr APP_LOCAL_SCHEMA); ("scope", PStr "app-local");
      ("appInstallId", PStr (rg_app_install_id snapshot));
      ("lastActiveVaultRef", str_or_none last_active);
      ("knownVaults", PDict (dict_merge [] (sort_keys (map (fun item => (vg_ref item, known item)) items))));
      ("mvrRegistrySchema", PStr (rg_schema snapshot)); ("mvrRegistryRevision", PInt (rg_revision snapshot));
      ("mvrRollbackBindingId", str_or_none selected)].
End Document.

(** The value read back from a YAML document: tuples are lists. *)
Fixpoint yaml_norm (v : pyval) : pyval :=
  match v with
  | PList l | PTuple l => PList (map yaml_norm l)
  | PDict d => PDict (map (fun kv => (fst kv, yaml_norm (snd kv))) d)
  | _ => v
  end.
Definition yaml_norm_dict (d : pydict) : pydict := map (fun kv => (fst kv, yaml_norm (snd kv))) d.
