(* ===== verification/DimensionState.v ===== *)
(** * Stored vault dimensions

    src/app/instance/vault_dimensions.py: a dimension is a named, ordered list
    of vault bindings in the registry's [dimensions] extension.  This file has
    the record, the reading and writing of the extension and the repair a
    removed registration makes; the service on top is [VaultDimensions]. *)
From Stdlib Require Import Ascii.
From S2P Require Import Prelude PyValue SettingsRebind.
Open Scope Z_scope.

Definition VaultDimensionError (msg : string) : exn := RegistryException VaultDimensionErr msg.

Definition DIMENSION_SCHEMA : string := "agentic-pkm.instance-vault-dimensions.v1".
Definition MAX_DISPLAY_NAME_LENGTH : nat := 128.
Definition MAX_MEMBERS : nat := 64.
Definition MAX_DIMENSIONS : nat := 256.

Record VaultDimension : Type := mkDimension {
  vd_dimension_id : string;
  vd_display_name : string;
  vd_revision : Z;
  vd_members : list string;
  vd_last_repair : option pydict }.
#[export] Instance VaultDimension_eq_dec : EqDecision VaultDimension.
Proof. solve_decision. Defined.

(** ** Validation *)

(** [a-z0-9]. *)
Definition id_start (c : ascii) : bool :=
  let n := code c in ((97 <=? n) && (n <=? 122) || (48 <=? n) && (n <=? 57))%N.
(** [a-z0-9._-]. *)
Definition id_char (c : ascii) : bool :=
  id_start c || Ascii.eqb c "." || Ascii.eqb c "_" || Ascii.eqb c "-".
Fixpoint str_forall (p : ascii -> bool) (s : string) : bool :=
  match s with EmptyString => true | String c s => p c && str_forall p s end.
(** [^[a-z0-9][a-z0-9._-]{0,63}$] on text without surrounding white space. *)
Definition _DIMENSION_ID_PATTERN (s : string) : bool :=
  match s with
  | EmptyString => false
  | String c s => id_start c && str_forall id_char s && Nat.leb (String.length s) 63
  end.
Definition _validate_dimension_id (value : string) : res string :=
  let normalized := strip value in
  _ ← raise_if (negb (_DIMENSION_ID_PATTERN normalized))
        (VaultDimensionError "dimension_id must be 1-64 chars of [a-z0-9._-] starting alphanumeric");
  Ok normalized.

Definition control_char (c : ascii) : bool := ((code c <? 32) || (code c =? 127))%N.
Definition _validate_display_name (value : string) : res string :=
  let normalized := strip value in
  _ ← raise_if (String.eqb normalized "") (VaultDimensionError "dimension display name is required");
  _ ← raise_if (Nat.ltb MAX_DISPLAY_NAME_LENGTH (String.length normalized))
        (VaultDimensionError "dimension display name exceeds 128 characters");
  _ ← raise_if (negb (str_forall (fun c => negb (control_char c)) normalized))
        (VaultDimensionError "dimension display name cannot contain control characters");
  Ok normalized.

Fixpoint ordered_members (members ordered : list string) : res (list string) :=
  match members with
  | [] => Ok ordered
  | raw :: members =>
      let member := strip raw in
      _ ← raise_if (String.eqb member "") (VaultDimensionError "a dimension member must be a vault_binding_id");
      _ ← raise_if (existsb (String.eqb member) ordered) (VaultDimensionError "duplicate dimension member");
      ordered_members members (ordered ++ [member])
  end.
Definition _validate_members (members : list string) : res (list string) :=
  ordered ← ordered_members members [];
  _ ← raise_if (Nat.ltb MAX_MEMBERS (length ordered)) (VaultDimensionError "a dimension holds at most 64 members");
  Ok ordered.

(** ** Reading and writing *)

Definition parse_dimension (dimension_id : string) (value : pyval) : res VaultDimension :=
  match value with
  | PDict d =>
      match (match get d "revision" with PInt z => Some z | PBool b => Some (if b then 1 else 0) | _ => None end) with
      | Some revision =>
          _ ← raise_if (revision <? 1) (VaultDimensionError "dimension revision must be a positive integer");
          match py_or (get d "members") (PList []) with
          | PList raw_members =>
              last_repair ← match get d "lastRepair" with
                            | PNone => Ok None
                            | PDict r => Ok (Some r)
                            | _ => Raise (VaultDimensionError "dimension lastRepair must be a mapping")
                            end;
              display_name ← _validate_display_name (py_str (py_or (get d "displayName") (PStr dimension_id)));
              members ← _validate_members (map py_str raw_members);
              Ok (mkDimension dimension_id display_name revision members last_repair)
          | _ => Raise (VaultDimensionError "dimension members must be a list")
          end
      | None => Raise (VaultDimensionError "dimension revision must be a positive integer")
      end
  | _ => Raise (VaultDimensionError "dimension must be a mapping")
  end.
Fixpoint parse_entries (entries : pydict) (parsed : list (string * VaultDimension))
  : res (list (string * VaultDimension)) :=
  match entries with
  | [] => Ok parsed
  | (key, value) :: entries =>
      dimension_id ← _validate_dimension_id key;
      dimension ← parse_dimension dimension_id value;
      parse_entries entries (dict_set parsed dimension_id dimension)
  end.
Definition parse_dimensions (extensions : pydict) : res (list (string * VaultDimension)) :=
  match get extensions "dimensions" with
  | PNone => Ok []
  | PDict [] => Ok []
  | PDict raw =>
      _ ← raise_if (negb (py_eqb (get raw "schema") (PStr DIMENSION_SCHEMA)))
            (VaultDimensionError "registry dimensions state carries an unsupported schema");
      match py_or (get raw "entries") (PDict []) with
      | PDict entries => parse_entries entries []
      | _ => Raise (VaultDimensionError "registry dimension entries must be a mapping")
      end
  | _ => Raise (VaultDimensionError "registry dimensions state must be a mapping")
  end.

Definition serialize_dimension (d : VaultDimension) : pydict :=
  [("displayName", PStr (vd_display_name d)); ("revision", PInt (vd_revision d));
   ("members", PList (map PStr (vd_members d)))]
  ++ match vd_last_repair d with Some r => [("lastRepair", PDict r)] | None => [] end.
Definition serialize_dimensions (dimensions : list (string * VaultDimension)) : pydict :=
  [("schema", PStr DIMENSION_SCHEMA);
   ("entries", PDict (map (fun kv => (fst kv, PDict (serialize_dimension (snd kv)))) (sort_keys dimensions)))].

(** ** Repair after a removed registration *)

Definition repaired_revision (v : pyval) : Z :=
  match v with
  | PInt z => (if 1 <=? z then z else 1) + 1
  | _ => 1 + 1
  end.
(** The repaired entry, or [None] when the entry does not list the binding. *)
Definition repair_entry (vault_binding_id : string) (registry_revision : Z) (value : pyval) : option pydict :=
  match value with
  | PDict d =>
      match get d "members" with
      | PList members =>
          if py_in (PStr vault_binding_id) members then
            Some (dict_set (dict_set (dict_set d
              "members" (PList (List.filter (fun m => negb (py_eqb m (PStr vault_binding_id))) members)))
              "revision" (PInt (repaired_revision (get d "revision"))))
              "lastRepair" (PDict [("reason", PStr "registration_removed");
                                   ("removedVaultBindingId", PStr vault_binding_id);
                                   ("registryRevision", PInt registry_revision)]))
          else None
      | _ => None
      end
  | _ => None
  end.
Definition repair_entries (vault_binding_id : string) (registry_revision : Z) (entries : pydict) : pydict :=
  map (fun kv => (fst kv, match repair_entry vault_binding_id registry_revision (snd kv) with
                          | Some d => PDict d
                          | None => snd kv
                          end)) entries.
(** The extensions after the repair and the ids of the repaired dimensions. *)
Definition repair_dimensions_for_removed_binding (extensions : pydict) (vault_binding_id : string)
    (registry_revision : Z) : pydict * list string :=
  match get extensions "dimensions" with
  | PDict raw =>
      if negb (py_eqb (get raw "schema") (PStr DIMENSION_SCHEMA)) then (extensions, []) else
      match get raw "entries" with
      | PDict entries =>
          (dict_set extensions "dimensions"
             (PDict (dict_set raw "entries" (PDict (repair_entries vault_binding_id registry_revision entries)))),
           map fst (sort_keys (List.filter (fun kv =>
             bool_decide (is_Some (repair_entry vault_binding_id registry_revision (snd kv)))) entries)))
      | _ => (extensions, [])
      end
  | _ => (extensions, [])
  end.
