(* ===== verification/RegistryStore.v ===== *)
(** * The registry store

    src/app/instance/vault_registry.py: the operations of [VaultRegistryStore]
    on the registry of one instance.  The state is the front matter of the
    registry file (the files underneath are in RegistryFiles.v; that a document
    reads back as its front matter needs a YAML text without the fence, see
    [RegistryCommit.legible] and [RegistryCommit.fence_truncates]) and whether a
    scalar rollback session is open.

    Every operation runs under the registry lock.  What one call meets is a
    [call_env]: whether the caller has the storage capability, whether the lock
    can be taken, the roots the file system shows, and how the write ends.  A
    failed write leaves the old registry, or the new one when the failure came
    after its commit. *)
From Stdlib Require Import Ascii QArith.
From S2P Require Import Prelude PyValue Sql SettingsRebind VaultRegistry DimensionState.
Open Scope Z_scope.

Inductive write_fault : Type :=
  | Written
  | NotWritten (e : exn)
  | WrittenThenFailed (e : exn).

Record call_env : Type := mkEnv {
  ce_capability : bool;
  ce_lock : option exn;
  ce_root : string -> option FilesystemRootIdentity;
  ce_write : write_fault;
  ce_initial_write : write_fault;
  ce_uuid : string }.

Record registry : Type := mkRegistryState {
  rs_document : option pydict;
  rs_session : bool }.

(** ** Snapshots *)

Definition CapabilityNotReadyError (msg : string) : exn := RegistryException CapabilityNotReady msg.
Definition RegistryRevisionConflict (msg : string) : exn := RegistryException RevisionConflict msg.

Definition _empty_snapshot (uuid : string) : RegistrySnapshot :=
  mkRegistry CURRENT_REGISTRY_SCHEMA REGISTRY_AUTHORITY_DORMANT 0 ("app-" +:+ uuid) None [] [] [] None [] None None.

(** [dataclasses.replace] on the fields the operations change. *)
Definition with_revision (revision : Z) (extensions : pydict) (s : RegistrySnapshot) : RegistrySnapshot :=
  mkRegistry (rg_schema s) (rg_authority s) revision (rg_app_install_id s) (rg_last_active_vault_ref s)
    (rg_registrations s) (rg_removal_tombstones s) (rg_transfer_lineage s) (rg_settings_rebind s) extensions
    (rg_default_vault_binding_id s) (rg_default_vault_provenance s).
Definition with_extensions (extensions : pydict) (s : RegistrySnapshot) : RegistrySnapshot :=
  with_revision (rg_revision s) extensions s.
Definition with_schema (schema : string) (s : RegistrySnapshot) : RegistrySnapshot :=
  mkRegistry schema (rg_authority s) (rg_revision s) (rg_app_install_id s) (rg_last_active_vault_ref s)
    (rg_registrations s) (rg_removal_tombstones s) (rg_transfer_lineage s) (rg_settings_rebind s) (rg_extensions s)
    (rg_default_vault_binding_id s) (rg_default_vault_provenance s).
Definition with_authority (authority : string) (s : RegistrySnapshot) : RegistrySnapshot :=
  mkRegistry (rg_schema s) authority (rg_revision s) (rg_app_install_id s) (rg_last_active_vault_ref s)
    (rg_registrations s) (rg_removal_tombstones s) (rg_transfer_lineage s) (rg_settings_rebind s) (rg_extensions s)
    (rg_default_vault_binding_id s) (rg_default_vault_provenance s).
Definition with_bindings (registrations : list (string * VaultRegistration)) (s : RegistrySnapshot)
  : RegistrySnapshot :=
  mkRegistry (rg_schema s) (rg_authority s) (rg_revision s) (rg_app_install_id s) (rg_last_active_vault_ref s)
    registrations (rg_removal_tombstones s) (rg_transfer_lineage s) (rg_settings_rebind s) (rg_extensions s)
    (rg_default_vault_binding_id s) (rg_default_vault_provenance s).
Definition with_history (tombstones : list (string * RemovalTombstone)) (lineage : list TransferLineage)
    (s : RegistrySnapshot) : RegistrySnapshot :=
  mkRegistry (rg_schema s) (rg_authority s) (rg_revision s) (rg_app_install_id s) (rg_last_active_vault_ref s)
    (rg_registrations s) tombstones lineage (rg_settings_rebind s) (rg_extensions s)
    (rg_default_vault_binding_id s) (rg_default_vault_provenance s).
Definition with_default (binding_id provenance : option string) (s : RegistrySnapshot) : RegistrySnapshot :=
  mkRegistry (rg_schema s) (rg_authority s) (rg_revision s) (rg_app_install_id s) (rg_last_active_vault_ref s)
    (rg_registrations s) (rg_removal_tombstones s) (rg_transfer_lineage s) (rg_settings_rebind s) (rg_extensions s)
    binding_id provenance.
Definition with_last_active (ref : option string) (s : RegistrySnapshot) : RegistrySnapshot :=
  mkRegistry (rg_schema s) (rg_authority s) (rg_revision s) (rg_app_install_id s) ref
    (rg_registrations s) (rg_removal_tombstones s) (rg_transfer_lineage s) (rg_settings_rebind s) (rg_extensions s)
    (rg_default_vault_binding_id s) (rg_default_vault_provenance s).
Definition with_rebind (record : pydict) (s : RegistrySnapshot) : RegistrySnapshot :=
  mkRegistry (rg_schema s) (rg_authority s) (rg_revision s) (rg_app_install_id s) (rg_last_active_vault_ref s)
    (rg_registrations s) (rg_removal_tombstones s) (rg_transfer_lineage s) (Some record) (rg_extensions s)
    (rg_default_vault_binding_id s) (rg_default_vault_provenance s).

Definition stamped (extensions floor : pydict) (revision : Z) : pydict :=
  dict_set extensions "scalarRollback" (PDict (dict_set floor "forkRegistryRevision" (PInt revision))).
(** The rollback floor of an active registry follows the revision. *)
Definition fork_revision (active : bool) (revision : Z) (extensions : pydict) : res pydict :=
  if active then
    match get extensions "scalarRollback" with
    | PDict floor => Ok (stamped extensions floor revision)
    | _ => Raise (RegistryError "active registry scalar rollback floor is invalid")
    end
  else Ok extensions.
(** The same where the code indexes instead of checking. *)
Definition fork_revision_unchecked (active : bool) (revision : Z) (extensions : pydict) : res pydict :=
  if active then
    match dict_get extensions "scalarRollback" with
    | Some (PDict floor) => Ok (stamped extensions floor revision)
    | Some _ => Raise (TypeError "object is not a mapping")
    | None => Raise (KeyError "scalarRollback")
    end
  else Ok extensions.

Definition _with_registrations (current : RegistrySnapshot) (registrations : list (string * VaultRegistration))
  : res RegistrySnapshot :=
  let next_revision := rg_revision current + 1 in
  extensions ← fork_revision (is_active current) next_revision (rg_extensions current);
  Ok (with_bindings registrations (with_revision next_revision extensions current)).

Definition _assert_revision (current : RegistrySnapshot) (expected : option Z) : res unit :=
  match expected with
  | Some e => raise_if (negb (rg_revision current =? e)) (RegistryRevisionConflict "reload before retry")
  | None => Ok tt
  end.

(** Equality of registrations as dataclasses. *)
Definition registration_eqb (a b : VaultRegistration) : bool :=
  bool_decide (vg_vault_binding_id a = vg_vault_binding_id b) && bool_decide (vg_ref a = vg_ref b)
  && bool_decide (vg_path a = vg_path b) && bool_decide (vg_vault_id a = vg_vault_id b)
  && bool_decide (vg_local_instance_id a = vg_local_instance_id b)
  && bool_decide (vg_vault_name a = vg_vault_name b) && bool_decide (vg_last_opened_at a = vg_last_opened_at b)
  && py_eqb (PDict (vg_extensions a)) (PDict (vg_extensions b)).

(** [int(v)]: digits may be grouped by single underscores; a float is truncated. *)
Fixpoint int_digits (acc : Z) (after_digit : bool) (s : string) : option Z :=
  match s with
  | EmptyString => if after_digit then Some acc else None
  | String c s =>
      let n := Z.of_N (code c) in
      if (48 <=? n) && (n <=? 57) then int_digits (10 * acc + (n - 48)) true s
      else if Ascii.eqb c "_" && after_digit then int_digits acc false s else None
  end.
Definition int_text (s : string) : option Z :=
  match strip s with
  | String "-" s => Z.opp <$> int_digits 0 false s
  | String "+" s => int_digits 0 false s
  | s => int_digits 0 false s
  end.
Definition py_int (v : pyval) : res Z :=
  match v with
  | PInt z => Ok z
  | PBool b => Ok (if b then 1 else 0)
  | PFloat q _ => Ok (Z.quot (QArith_base.Qnum q) (Zpos (QArith_base.Qden q)))
  | PStr s => match int_text s with Some z => Ok z | None => Raise (ValueError "invalid literal for int()") end
  | _ => Raise (TypeError "int() argument must be a string or a number")
  end.

(** ** Reading and writing under the lock *)

Section Store.
Context (sha256_hex : string -> string).

(** What the reader of a malformed registry is told: no last-good copy says more. *)
Definition corrupt : exn := RegistryError "registry is corrupt and no unambiguous last-good snapshot exists".
Definition _read_current_locked (env : call_env) : ST registry RegistrySnapshot := fun w =>
  match rs_document w with
  | None => (Raise corrupt, w)
  | Some document =>
      match _snapshot_from_frontmatter sha256_hex (ce_root env) document with
      | Ok snapshot => (Ok snapshot, w)
      | Raise (RegistryException SecurityErr msg) => (Raise (RegistryException SecurityErr msg), w)
      | Raise (RegistryException _ _) | Raise (OSError _) => (Raise corrupt, w)
      | Raise e => (Raise e, w)
      end
  end.

Definition _snapshot_payload (env : call_env) (snapshot : RegistrySnapshot) : res pydict :=
  let frontmatter := _frontmatter_from_snapshot snapshot in
  _ ← _snapshot_from_frontmatter sha256_hex (ce_root env) frontmatter;
  Ok (yaml_norm_dict frontmatter).

Definition _write_locked (env : call_env) (fault : write_fault) (snapshot : RegistrySnapshot)
  : ST registry unit :=
  _ ← guard_not (negb (existsb (String.eqb (rg_schema snapshot)) SUPPORTED_REGISTRY_SCHEMAS
                       && existsb (String.eqb (rg_authority snapshot))
                            [REGISTRY_AUTHORITY_DORMANT; REGISTRY_AUTHORITY_ACTIVE]))
        (RegistryError "unsupported registry schema or authority state");
  payload ← st_lift (_snapshot_payload env snapshot);
  _ ← st_lift (_rollback_export_payload snapshot None None);
  match fault with
  | NotWritten e => st_raise e
  | Written => st_modify (fun w => mkRegistryState (Some payload) (rs_session w))
  | WrittenThenFailed e => _ ← st_modify (fun w => mkRegistryState (Some payload) (rs_session w)); st_raise e
  end.

Definition _restore_or_initialize_missing_locked (env : call_env) : ST registry RegistrySnapshot :=
  let snapshot := _empty_snapshot (ce_uuid env) in
  _ ← _write_locked env (ce_initial_write env) snapshot;
  mret snapshot.

Definition read_or_initialize (env : call_env) : ST registry RegistrySnapshot := fun w =>
  match rs_document w with
  | None => _restore_or_initialize_missing_locked env w
  | Some _ => _read_current_locked env w
  end.

Definition _locked {A} (env : call_env) (body : ST registry A) : ST registry A :=
  match ce_lock env with Some e => st_raise e | None => body end.
Definition _assert_no_scalar_rollback_session_locked : ST registry unit :=
  w ← st_get;
  guard_not (rs_session w)
    (CapabilityNotReadyError "authenticated scalar rollback session blocks current registry writers").
Definition _require_storage_mutation_capability (env : call_env) : ST registry unit :=
  guard_not (negb (ce_capability env))
    (CapabilityNotReadyError "private MVR storage mutation capability is required").

Definition load (env : call_env) : ST registry RegistrySnapshot := _locked env (read_or_initialize env).

(** Write [updated] and return it. *)
Definition commit (env : call_env) (updated : RegistrySnapshot) : ST registry RegistrySnapshot :=
  _ ← _write_locked env (ce_write env) updated; mret updated.

(** The opening of every writer that needs an existing registry. *)
Definition begin_update (env : call_env) (expected_revision : option Z) : ST registry RegistrySnapshot :=
  _ ← _assert_no_scalar_rollback_session_locked;
  current ← _read_current_locked env;
  _ ← st_lift (_assert_revision current expected_revision);
  mret current.

(** ** Registrations and the default *)

Definition register (env : call_env) (registration : VaultRegistration) (expected_revision : option Z)
    (first_default_provenance : option string) : ST registry RegistrySnapshot :=
  _ ← _require_storage_mutation_capability env;
  _ ← st_lift (_validate_registration registration);
  _ ← guard_not (match first_default_provenance with
                 | Some p => negb (existsb (String.eqb p)
                     [DEFAULT_PROVENANCE_FIRST_INITIALIZE; DEFAULT_PROVENANCE_FIRST_OPEN_EXISTING])
                 | None => false
                 end) (RegistryError "unsupported first-default provenance");
  _locked env (
    _ ← _assert_no_scalar_rollback_session_locked;
    current ← read_or_initialize env;
    _ ← st_lift (_assert_revision current expected_revision);
    _ ← guard_not (match dict_get (rg_registrations current) (vg_vault_binding_id registration) with
                   | Some existing => negb (registration_eqb existing registration)
                   | None => false
                   end) (RegistryError "vault_binding_id collision");
    _ ← st_lift (_assert_registration_unique (ce_root env) registration (rg_registrations current));
    updated ← st_lift (_with_registrations current
                (dict_set (rg_registrations current) (vg_vault_binding_id registration) registration));
    updated ← match first_default_provenance with
              | None => mret updated
              | Some provenance =>
                  _ ← guard_not (bool_decide (rg_registrations current <> [])
                                 || bool_decide (is_Some (rg_default_vault_binding_id current)))
                        (RegistryDefaultConflict "the first-vault default producer requires an empty registry");
                  mret (with_default (Some (vg_vault_binding_id registration)) (Some provenance) updated)
              end;
    commit env updated).

Definition set_instance_default (env : call_env) (vault_binding_id : option string) (provenance : string)
    (expected_revision : option Z) : ST registry RegistrySnapshot :=
  _ ← _require_storage_mutation_capability env;
  let target := _optional_str (str_or_none vault_binding_id) in
  _ ← guard_not (bool_decide (is_Some target) && negb (existsb (String.eqb provenance) DEFAULT_VAULT_PROVENANCES))
        (RegistryError "unsupported default provenance");
  _locked env (
    current ← begin_update env expected_revision;
    _ ← guard_not (bool_decide (is_Some target) && negb (opt_mem target (rg_registrations current)))
          (RegistryError "unknown vault_binding_id");
    updated ← st_lift (_with_registrations current (rg_registrations current));
    commit env (with_default target (match target with Some _ => Some provenance | None => None end) updated)).

(** A recorded identity of a registration does not change. *)
Definition identity_changed (old new : option string) : bool :=
  match old with Some _ => negb (bool_decide (new = old)) | None => false end.
Definition update_registration (env : call_env) (registration : VaultRegistration) (expected_revision : option Z)
  : ST registry RegistrySnapshot :=
  _ ← _require_storage_mutation_capability env;
  _ ← st_lift (_validate_registration registration);
  _locked env (
    current ← begin_update env expected_revision;
    match dict_get (rg_registrations current) (vg_vault_binding_id registration) with
    | None => st_raise (RegistryError "unknown vault_binding_id")
    | Some existing =>
        _ ← guard_not (identity_changed (vg_vault_id existing) (vg_vault_id registration)
                       || identity_changed (vg_local_instance_id existing) (vg_local_instance_id registration))
              (RegistryError "stable registration identity cannot change");
        _ ← st_lift (_assert_registration_unique (ce_root env) registration (rg_registrations current));
        updated ← st_lift (_with_registrations current
                    (dict_set (rg_registrations current) (vg_vault_binding_id registration) registration));
        commit env updated
    end).

(** A vault as the picker knows it. *)
Record KnownVaultRef : Type := mkKnownVault {
  kv_ref : string;
  kv_path : string;
  kv_vault_id : option string;
  kv_vault_name : option string;
  kv_local_instance_id : option string;
  kv_last_opened_at : option string }.

(** [x not in (None, y)]. *)
Definition contradicts (x y : option string) : bool := negb (bool_decide (x = None) || bool_decide (x = y)).
Definition opened (registration : VaultRegistration) (item : KnownVaultRef) : VaultRegistration :=
  mkRegistration (vg_vault_binding_id registration) (vg_ref registration) (vg_path registration)
    (vg_vault_id registration) (vg_local_instance_id registration) (kv_vault_name item) (kv_last_opened_at item)
    (vg_extensions registration).

(** [resolve] is [Path(p).expanduser().resolve(strict=True)]. *)
Definition remember_registration (env : call_env) (resolve : string -> res string) (vault_binding_id : string)
    (item : KnownVaultRef) (make_active : bool) : ST registry RegistrySnapshot :=
  _ ← _require_storage_mutation_capability env;
  _locked env (
    current ← begin_update env None;
    _ ← guard_not (negb (is_active current)) (CapabilityNotReadyError "active registry authority is required");
    match dict_get (rg_registrations current) vault_binding_id with
    | None => st_raise (RegistryError "remembered vault binding is not registered")
    | Some registration =>
        let mismatch := RegistryError "remembered vault identity does not match active registration" in
        _ ← guard_not (negb (String.eqb (kv_ref item) (vg_ref registration))) mismatch;
        item_path ← st_lift (resolve (kv_path item));
        registration_path ← st_lift (resolve (vg_path registration));
        _ ← guard_not (negb (String.eqb item_path registration_path)
                       || contradicts (kv_vault_id item) (vg_vault_id registration)
                       || contradicts (kv_local_instance_id item) (vg_local_instance_id registration)) mismatch;
        let next_revision := rg_revision current + 1 in
        extensions ← st_lift (fork_revision true next_revision (rg_extensions current));
        commit env (with_last_active (if make_active then Some (vg_ref registration) else rg_last_active_vault_ref current)
          (with_bindings (dict_set (rg_registrations current) vault_binding_id (opened registration item))
             (with_revision next_revision extensions current)))
    end).

(** ** Removal *)

(** The retirement of a binding that moved to another channel. *)
Definition retire (current : RegistrySnapshot) (vault_binding_id : string) (lineage : TransferLineage)
    (updated : RegistrySnapshot) : res RegistrySnapshot :=
  foreground ← getattr_get (py_or (get (rg_extensions current) "runtimeFloors") (PDict []))
                 "minimumForegroundOwnership" PNone;
  _ ← raise_if (negb (String.eqb (tl_source_binding_id lineage) vault_binding_id) || negb (truthy foreground))
        (RegistryError "transfer retirement requires the foreground ownership floor");
  match dict_get (rg_registrations current) vault_binding_id with
  | None => Raise (KeyError vault_binding_id)
  | Some source =>
      epoch ← py_int (default (PInt 1) (dict_get (vg_extensions source) "contentEpoch"));
      let tombstone := mkTombstone (vg_vault_binding_id source) (vg_ref source) (vg_path source)
        (vg_vault_id source) (vg_local_instance_id source) epoch in
      let updated := with_history (dict_set (rg_removal_tombstones updated) vault_binding_id tombstone)
        (rg_transfer_lineage current ++ [lineage]) updated in
      let extensions := match get (rg_extensions updated) "bindingEffectLeases" with
        | PDict states => dict_set (rg_extensions updated) "bindingEffectLeases" (PDict (dict_pop states vault_binding_id))
        | _ => rg_extensions updated
        end in
      extensions ← match get (rg_extensions current) "scalarRollback" with
        | PDict floor =>
            if py_eqb (get floor "targetVaultBindingId") (PStr vault_binding_id) then
              match get extensions "scalarRollback" with
              | PDict next => Ok (dict_set extensions "scalarRollback" (PDict (dict_merge next
                  [("targetVaultBindingId", PNone); ("retiredTargetBindingId", PStr vault_binding_id);
                   ("retiredByTransfer", PStr (tl_ownership_transfer_id lineage))])))
              | _ => Raise (TypeError "object is not a mapping")
              end
            else Ok extensions
        | _ => Ok extensions
        end;
      Ok (with_extensions extensions updated)
  end.

(** The default after a removal: replaced, cleared or untouched. *)
Definition settle_default (current : RegistrySnapshot) (vault_binding_id : string) (replacement : option string)
    (clear_default : bool) (updated : RegistrySnapshot) : res RegistrySnapshot :=
  let removes_default := bool_decide (rg_default_vault_binding_id current = Some vault_binding_id) in
  match replacement with
  | Some b =>
      _ ← raise_if (String.eqb b vault_binding_id
                    || negb (dict_mem (dict_pop (rg_registrations current) vault_binding_id) b))
            (RegistryDefaultConflict "replacement default must be another current registration");
      _ ← raise_if (negb removes_default)
            (RegistryDefaultConflict "a replacement default is only valid when removing the current default");
      Ok (with_default (Some b) (Some DEFAULT_PROVENANCE_EXPLICIT) updated)
  | None =>
      if removes_default then
        _ ← raise_if (negb clear_default)
              (RegistryDefaultConflict "removing the current instance default requires an explicit clear_default or one authorized replacement binding");
        Ok (with_default None None updated)
      else
        _ ← raise_if clear_default
              (RegistryDefaultConflict "clear_default is only valid when removing the current default");
        Ok updated
  end.

Definition remove_registration (env : call_env) (vault_binding_id : string) (expected_revision : option Z)
    (clear_default : bool) (replacement_default_binding_id : option string)
    (transfer_lineage : option TransferLineage) : ST registry RegistrySnapshot :=
  _ ← _require_storage_mutation_capability env;
  let replacement := _optional_str (str_or_none replacement_default_binding_id) in
  _ ← guard_not (clear_default && bool_decide (is_Some replacement))
        (RegistryDefaultConflict "default removal takes either an explicit clear or one replacement, not both");
  _locked env (
    current ← begin_update env expected_revision;
    _ ← guard_not (negb (dict_mem (rg_registrations current) vault_binding_id))
          (RegistryError "unknown vault_binding_id");
    _ ← guard_not (is_active current
                   && match get (rg_extensions current) "scalarRollback" with
                      | PDict floor => bool_decide (_optional_str (get floor "targetVaultBindingId") = Some vault_binding_id)
                      | _ => false
                      end
                   && bool_decide (transfer_lineage = None))
          (RegistryDefaultConflict "removing the MVR-01C scalar rollback target requires an explicit authorized floor retarget");
    let registrations := dict_pop (rg_registrations current) vault_binding_id in
    updated ← st_lift (_with_registrations current registrations);
    updated ← match transfer_lineage with
              | None => mret updated
              | Some lineage => st_lift (retire current vault_binding_id lineage updated)
              end;
    let updated := with_extensions (fst (repair_dimensions_for_removed_binding (rg_extensions updated)
                                           vault_binding_id (rg_revision updated))) updated in
    updated ← st_lift (settle_default current vault_binding_id replacement clear_default updated);
    commit env updated).

(** ** Wholesale transitions and extension slots *)

Fixpoint validated_registrations (env : call_env) (registrations validated : list (string * VaultRegistration))
  : res (list (string * VaultRegistration)) :=
  match registrations with
  | [] => Ok validated
  | (binding_id, registration) :: registrations =>
      _ ← raise_if (negb (String.eqb binding_id (vg_vault_binding_id registration)))
            (RegistryError "registration key does not match vault_binding_id");
      _ ← _validate_registration registration;
      _ ← _assert_registration_unique (ce_root env) registration validated;
      validated_registrations env registrations (dict_set validated binding_id registration)
  end.

Definition commit_state (env : call_env) (registrations : list (string * VaultRegistration))
    (removal_tombstones : option (list (string * RemovalTombstone)))
    (transfer_lineage : option (list TransferLineage)) (extensions : option pydict) (expected_revision : option Z)
  : ST registry RegistrySnapshot :=
  _ ← _require_storage_mutation_capability env;
  _locked env (
    current ← begin_update env expected_revision;
    validated ← st_lift (validated_registrations env registrations []);
    let next_revision := rg_revision current + 1 in
    let next_extensions := default (rg_extensions current) extensions in
    _ ← guard_not (negb (py_eqb (get next_extensions "bindingEffectLeases")
                                (get (rg_extensions current) "bindingEffectLeases")))
          (RegistryError "binding effect lease state requires its dedicated producer");
    next_extensions ← st_lift (fork_revision (is_active current) next_revision next_extensions);
    _ ← guard_not (bool_decide (is_Some (rg_default_vault_binding_id current))
                   && negb (opt_mem (rg_default_vault_binding_id current) validated))
          (RegistryDefaultConflict "committed registration state would leave the instance default dangling");
    commit env (with_history (default (rg_removal_tombstones current) removal_tombstones)
      (default (rg_transfer_lineage current) transfer_lineage)
      (with_bindings validated (with_revision next_revision next_extensions current)))).

Definition set_dimension_state (env : call_env) (dimensions : pydict) (expected_revision : option Z)
  : ST registry RegistrySnapshot :=
  _ ← _require_storage_mutation_capability env;
  _locked env (
    current ← begin_update env expected_revision;
    updated ← st_lift (_with_registrations current (rg_registrations current));
    commit env (with_extensions (dict_set (rg_extensions updated) "dimensions" (PDict dimensions)) updated)).

Definition remove_dimension_state (env : call_env) (expected_revision : Z) : ST registry RegistrySnapshot :=
  _ ← _require_storage_mutation_capability env;
  _locked env (
    current ← begin_update env (Some expected_revision);
    _ ← guard_not (negb (dict_mem (rg_extensions current) "dimensions"))
          (RegistryError "registry dimensions recovery requires a dimensions slot");
    updated ← st_lift (_with_registrations current (rg_registrations current));
    commit env (with_extensions (dict_pop (rg_extensions updated) "dimensions") updated)).

(** The one writer that keeps the revision. *)
Definition set_binding_effect_lease_state (env : call_env) (vault_binding_id : string) (state : pyval)
    (expected_revision : option Z) : ST registry RegistrySnapshot :=
  _ ← _require_storage_mutation_capability env;
  _ ← guard_not (String.eqb (strip vault_binding_id) "") (RegistryError "vault_binding_id is required");
  validated ← st_lift (_validate_binding_effect_lease_state vault_binding_id state);
  _locked env (
    current ← begin_update env expected_revision;
    _ ← guard_not (negb (dict_mem (rg_registrations current) vault_binding_id))
          (RegistryError "binding effect lease state names an unknown binding");
    states ← st_lift (mapping_or_empty (get (rg_extensions current) "bindingEffectLeases")
               "binding effect lease state must be a mapping");
    commit env (with_extensions (dict_set (rg_extensions current) "bindingEffectLeases"
      (PDict (dict_set states vault_binding_id (PDict validated)))) current)).

(** A floor a generic writer may repeat but not change. *)
Definition keep_floor (current incoming : pydict) (key : string) (msg : string) : res pydict :=
  _ ← raise_if (negb (is_none (get incoming key)) && negb (py_eqb (get incoming key) (get current key)))
        (RegistryError msg);
  match dict_get current key with
  | Some v => Ok (dict_set incoming key v)
  | None => Raise (KeyError key)
  end.
Definition set_extension_state (load_env env : call_env) (principal_state background_state runtime_floors : pydict)
    (expected_revision : option Z) : ST registry RegistrySnapshot :=
  _ ← _require_storage_mutation_capability env;
  current ← load load_env;
  _ ← st_lift (_assert_revision current expected_revision);
  current_floors ← st_lift (mapping_or_empty (get (rg_extensions current) "runtimeFloors") "runtime floors are invalid");
  floors ← st_lift (if is_none (get current_floors MINIMUM_SETTINGS_REBIND_RUNTIME_KEY) then Ok runtime_floors
                    else keep_floor current_floors runtime_floors MINIMUM_SETTINGS_REBIND_RUNTIME_KEY
                           "settings rebind runtime floor cannot be changed by a legacy extension writer");
  floors ← st_lift (if py_eqb (get current_floors MINIMUM_RUNTIME_SCHEMA_KEY) (PStr MVR06_MINIMUM_RUNTIME_SCHEMA) then
                      let msg := "MVR-06 runtime floor cannot be changed by a legacy extension writer" in
                      floors ← keep_floor current_floors floors MINIMUM_RUNTIME_SCHEMA_KEY msg;
                      keep_floor current_floors floors MVR06_FLOOR_RECEIPT_KEY msg
                    else Ok floors);
  commit_state env (rg_registrations current) None None
    (Some (dict_merge (rg_extensions current)
       [("principalState", PDict principal_state); ("backgroundState", PDict background_state);
        ("runtimeFloors", PDict floors)]))
    (Some (rg_revision current)).

(** ** Runtime floors and the background intent *)

Definition advance_foreground_ownership_floor (env : call_env) : ST registry RegistrySnapshot :=
  _ ← _require_storage_mutation_capability env;
  _locked env (
    current ← begin_update env None;
    if String.eqb (rg_schema current) FOREGROUND_REGISTRY_SCHEMA then mret current else
    let mvr06 := String.eqb (rg_schema current) BACKGROUND_INTENT_REGISTRY_SCHEMA in
    foreground ← (if mvr06 then st_lift (getattr_get (py_or (get (rg_extensions current) "runtimeFloors") (PDict []))
                                           "minimumForegroundOwnership" PNone)
                  else mret PNone);
    if mvr06 && py_eqb foreground (PStr "mvr05c.v1") then mret current else
    floors ← st_lift (match default (PDict []) (dict_get (rg_extensions current) "runtimeFloors") with
                      | PDict floors => Ok floors
                      | _ => Raise (TypeError "object is not a mapping")
                      end);
    let extensions := dict_set (rg_extensions current) "runtimeFloors"
      (PDict (dict_set floors "minimumForegroundOwnership" (PStr "mvr05c.v1"))) in
    let revision := rg_revision current + 1 in
    extensions ← st_lift (fork_revision_unchecked (is_active current) revision extensions);
    commit env (with_schema (if mvr06 then BACKGROUND_INTENT_REGISTRY_SCHEMA else FOREGROUND_REGISTRY_SCHEMA)
                  (with_revision revision extensions current))).

Definition advance_mvr06_runtime_floor (env : call_env) : ST registry RegistrySnapshot :=
  _ ← _require_storage_mutation_capability env;
  _locked env (
    current ← begin_update env None;
    floors ← st_lift (mapping_or_empty (get (rg_extensions current) "runtimeFloors") "runtime floors are invalid");
    let minimum := get floors MINIMUM_RUNTIME_SCHEMA_KEY in
    if py_eqb minimum (PStr MVR06_MINIMUM_RUNTIME_SCHEMA) then mret current else
    _ ← guard_not (negb (py_eqb minimum (PStr MVR05_MINIMUM_RUNTIME_SCHEMA))
                   || negb (is_mapping (get floors "mvr05CutoverFence")))
          (CapabilityNotReadyError "the MVR-06 floor requires the recorded MVR-05 channel fence");
    let next_floors := dict_set (dict_set floors MINIMUM_RUNTIME_SCHEMA_KEY (PStr MVR06_MINIMUM_RUNTIME_SCHEMA))
      MVR06_FLOOR_RECEIPT_KEY (PDict [("schema", PStr MVR06_FLOOR_RECEIPT_SCHEMA);
        ("previousRegistrySchema", PStr (rg_schema current));
        ("previousMinimumRuntimeSchema", PStr MVR05_MINIMUM_RUNTIME_SCHEMA)]) in
    let revision := rg_revision current + 1 in
    extensions ← st_lift (fork_revision_unchecked (is_active current) revision
                            (dict_set (rg_extensions current) "runtimeFloors" (PDict next_floors)));
    commit env (with_schema BACKGROUND_INTENT_REGISTRY_SCHEMA (with_revision revision extensions current))).

Definition compensate_mvr06_runtime_floor (env : call_env) (expected_revision : Z) : ST registry RegistrySnapshot :=
  _ ← _require_storage_mutation_capability env;
  _locked env (
    current ← begin_update env (Some expected_revision);
    floors ← st_lift (match py_or (get (rg_extensions current) "runtimeFloors") (PDict []) with
                      | PDict floors =>
                          _ ← raise_if (negb (py_eqb (get floors MINIMUM_RUNTIME_SCHEMA_KEY)
                                                     (PStr MVR06_MINIMUM_RUNTIME_SCHEMA)))
                                (RegistryError "no MVR-06 runtime floor is recorded");
                          Ok floors
                      | _ => Raise (RegistryError "no MVR-06 runtime floor is recorded")
                      end);
    _ ← guard_not (dict_mem (rg_extensions current) BACKGROUND_INTENT_KEY)
          (RegistryError "an MVR-06 floor with committed background intent cannot be compensated");
    receipt ← st_lift (getitem (PDict floors) MVR06_FLOOR_RECEIPT_KEY);
    previous ← st_lift (getitem receipt "previousMinimumRuntimeSchema");
    let next_floors := dict_pop (dict_set floors MINIMUM_RUNTIME_SCHEMA_KEY previous) MVR06_FLOOR_RECEIPT_KEY in
    let revision := rg_revision current + 1 in
    extensions ← st_lift (fork_revision_unchecked (is_active current) revision
                            (dict_set (rg_extensions current) "runtimeFloors" (PDict next_floors)));
    schema ← st_lift (getitem receipt "previousRegistrySchema");
    commit env (with_schema (py_str schema) (with_revision revision extensions current))).

Definition install_background_intent (env : call_env) (intent : BackgroundBindingIntent)
    (expected_revision : option Z) : ST registry RegistrySnapshot :=
  _ ← _require_storage_mutation_capability env;
  _locked env (
    current ← begin_update env expected_revision;
    _ ← guard_not (negb match py_or (get (rg_extensions current) "runtimeFloors") (PDict []) with
                        | PDict floors => py_eqb (get floors MINIMUM_RUNTIME_SCHEMA_KEY)
                                                 (PStr MVR06_MINIMUM_RUNTIME_SCHEMA)
                        | _ => false
                        end)
          (CapabilityNotReadyError "the MVR-06 runtime floor must commit before the first intent field");
    match get (rg_extensions current) BACKGROUND_INTENT_KEY with
    | PNone =>
        _ ← guard_not (negb (bool_decide (intent = staged_compatibility)))
              (CapabilityNotReadyError "only the staged compatibility intent is installable before the MVR-06B supervisor handoff");
        let revision := rg_revision current + 1 in
        extensions ← st_lift (fork_revision_unchecked (is_active current) revision
                       (dict_set (rg_extensions current) BACKGROUND_INTENT_KEY (PDict (intent_as_payload intent))));
        commit env (with_revision revision extensions current)
    | existing =>
        recorded ← st_lift (intent_from_payload existing);
        if bool_decide (recorded = intent) then mret current
        else st_raise (RegistryError "background intent is initialized exactly once")
    end).

(** ** The settings rebind record *)

Definition rebind_value (s : RegistrySnapshot) : pyval :=
  match rg_settings_rebind s with Some d => PDict d | None => PNone end.
Definition _validate_settings_rebind_binding (snapshot : RegistrySnapshot) (binding_id : option string) : res unit :=
  raise_if (negb (known_binding (rg_registrations snapshot) (rg_removal_tombstones snapshot) binding_id))
    (RegistryError "settings rebind record names an unknown binding").
(** [a or b] on optional texts. *)
Definition str_or (a b : option string) : option string :=
  match a with Some s => if String.eqb s "" then b else a | None => b end.

Definition install_settings_rebind_dormant (env : call_env) (binding_id : option string)
  : ST registry RegistrySnapshot :=
  _ ← _require_storage_mutation_capability env;
  let requested := _optional_str (str_or_none binding_id) in
  _locked env (
    _ ← _assert_no_scalar_rollback_session_locked;
    current ← read_or_initialize env;
    floors ← st_lift (mapping_or_empty (get (rg_extensions current) "runtimeFloors") "runtime floors are invalid");
    match _optional_str (get floors MINIMUM_SETTINGS_REBIND_RUNTIME_KEY) with
    | Some existing_floor =>
        _ ← guard_not (negb (String.eqb existing_floor MINIMUM_SETTINGS_REBIND_RUNTIME))
              (RegistryError "settings rebind runtime floor is incompatible");
        installed ← st_lift (rebind_from_payload sha256_hex (rebind_value current));
        _ ← guard_not (bool_decide (is_Some requested)
                       && negb (bool_decide (requested = sb_prior_binding_id installed)
                                || bool_decide (requested = sb_candidate_binding_id installed)))
              (RegistryError "installed settings rebind record does not match the requested binding");
        mret current
    | None =>
        provisional ← st_lift (match rg_settings_rebind current with
                               | Some d => provisional_binding_id (PDict d)
                               | None => Ok None
                               end);
        _ ← guard_not (bool_decide (is_Some requested) && bool_decide (is_Some provisional)
                       && negb (bool_decide (requested = provisional)))
              (RegistryError "settings rebind provisional binding cannot be replaced");
        let selected := str_or (str_or provisional requested) (rg_default_vault_binding_id current) in
        _ ← st_lift (_validate_settings_rebind_binding current selected);
        let next_revision := rg_revision current + 1 in
        extensions ← st_lift (fork_revision (is_active current) next_revision
          (dict_set (rg_extensions current) "runtimeFloors"
             (PDict (dict_set floors MINIMUM_SETTINGS_REBIND_RUNTIME_KEY (PStr MINIMUM_SETTINGS_REBIND_RUNTIME)))));
        commit env (with_rebind (rebind_as_payload sha256_hex (rebind_dormant selected))
                      (with_revision next_revision extensions current))
    end).

Definition with_reload (r : option Z) (b : SettingsRebindRecord) : SettingsRebindRecord :=
  mkRebind (sb_schema_revision b) (sb_desired_revision b) (sb_applied_revision b) (sb_phase b)
    (sb_lifecycle_posture b) (sb_prior_binding_id b) (sb_candidate_binding_id b) r (sb_scalar_drain_revision b).
Definition with_phase_posture (applied : Z) (phase posture : string) (b : SettingsRebindRecord) : SettingsRebindRecord :=
  mkRebind (sb_schema_revision b) (sb_desired_revision b) applied phase posture (sb_prior_binding_id b)
    (sb_candidate_binding_id b) (sb_reload_revision b) (sb_scalar_drain_revision b).

Definition reload_only_advance (requested existing : SettingsRebindRecord) : bool :=
  bool_decide (sb_reload_revision requested = Some (sb_desired_revision requested))
  && negb (bool_decide (sb_reload_revision requested = sb_reload_revision existing))
  && bool_decide (with_reload (sb_reload_revision existing) requested = existing).
Definition completed_watcher_retirement (requested existing : SettingsRebindRecord) : bool :=
  String.eqb (sb_phase existing) "committed"
  && bool_decide (sb_reload_revision existing = Some (sb_desired_revision existing))
  && String.eqb (sb_phase requested) "no_lifecycle" && String.eqb (sb_lifecycle_posture requested) "no_lifecycle"
  && bool_decide (sb_reload_revision requested = sb_reload_revision existing)
  && bool_decide (with_phase_posture (sb_applied_revision requested) "committed" "watcher" requested = existing).
Definition cancelled_precommit (requested existing : SettingsRebindRecord) : bool :=
  String.eqb (sb_phase existing) "prepared" && String.eqb (sb_phase requested) "cancelled"
  && String.eqb (sb_lifecycle_posture requested) "watcher"
  && (sb_applied_revision requested =? sb_desired_revision existing)
  && bool_decide (sb_reload_revision requested = Some (sb_desired_revision existing))
  && bool_decide (sb_scalar_drain_revision requested = sb_scalar_drain_revision existing)
  && bool_decide (sb_prior_binding_id requested = sb_prior_binding_id existing).

Definition set_settings_rebind_state (env : call_env) (payload : pydict) (expected_revision : option Z)
  : ST registry RegistrySnapshot :=
  _ ← _require_storage_mutation_capability env;
  requested ← st_lift (rebind_from_payload sha256_hex (PDict payload));
  _locked env (
    current ← begin_update env expected_revision;
    _ ← guard_not (negb match py_or (get (rg_extensions current) "runtimeFloors") (PDict []) with
                        | PDict floors => py_eqb (get floors MINIMUM_SETTINGS_REBIND_RUNTIME_KEY)
                                                 (PStr MINIMUM_SETTINGS_REBIND_RUNTIME)
                        | _ => false
                        end) (RegistryError "settings rebind runtime floor is not installed");
    existing ← st_lift (rebind_from_payload sha256_hex (rebind_value current));
    _ ← guard_not ((sb_desired_revision requested <? sb_desired_revision existing)
                   || (sb_applied_revision requested <? sb_applied_revision existing))
          (RegistryError "settings rebind revisions must be monotonic");
    _ ← guard_not ((sb_desired_revision requested =? sb_desired_revision existing)
                   && (sb_applied_revision requested =? sb_applied_revision existing)
                   && negb (bool_decide (requested = existing))
                   && negb (reload_only_advance requested existing)
                   && negb (completed_watcher_retirement requested existing)
                   && negb (cancelled_precommit requested existing))
          (RegistryError "settings rebind state cannot change without a revision advance");
    if bool_decide (requested = existing) then mret current else
    _ ← st_lift (_validate_settings_rebind_binding current (sb_prior_binding_id requested));
    _ ← st_lift (_validate_settings_rebind_binding current (sb_candidate_binding_id requested));
    let next_revision := rg_revision current + 1 in
    extensions ← st_lift (fork_revision (is_active current) next_revision (rg_extensions current));
    commit env (with_rebind (rebind_as_payload sha256_hex requested)
                  (with_revision next_revision extensions current))).

(** [reload] is the outcome of the callback. *)
Definition complete_settings_rebind_reload (env : call_env) (desired_revision : Z) (reload : res unit)
  : ST registry RegistrySnapshot :=
  _ ← _require_storage_mutation_capability env;
  _locked env (
    current ← begin_update env None;
    match rg_settings_rebind current with
    | None => st_raise (RegistryError "settings rebind record is not installed")
    | Some record =>
        rebind ← st_lift (rebind_from_payload sha256_hex (PDict record));
        _ ← guard_not (negb (sb_desired_revision rebind =? desired_revision))
              (RegistryError "settings rebind reload revision does not match durable authority");
        _ ← guard_not (negb (existsb (String.eqb (sb_phase rebind)) ["committed"; "no_lifecycle"]))
              (RegistryError "settings rebind reload requires a committed revision");
        if bool_decide (sb_reload_revision rebind = Some desired_revision) then mret current else
        _ ← guard_not (negb (bool_decide (sb_reload_revision rebind = None)
                             || bool_decide (sb_reload_revision rebind = Some 0)))
              (RegistryError "settings rebind reload revision cannot advance from an unexpected value");
        _ ← st_lift reload;
        let next_revision := rg_revision current + 1 in
        extensions ← st_lift (fork_revision (is_active current) next_revision (rg_extensions current));
        commit env (with_rebind (rebind_as_payload sha256_hex (with_reload (Some desired_revision) rebind))
                      (with_revision next_revision extensions current))
    end).

(** The selection that a rebind commits: the registration it opens. *)
Definition selected_candidate (resolve : string -> res string) (current : RegistrySnapshot)
    (rebind : SettingsRebindRecord) (selection : option KnownVaultRef) : res (option (string * VaultRegistration)) :=
  match sb_candidate_binding_id rebind, selection with
  | None, Some _ => Raise (RegistryError "no-target settings rebind cannot carry a selection")
  | None, None => Ok None
  | Some candidate_id, _ =>
      match dict_get (rg_registrations current) candidate_id with
      | None => Raise (RegistryError "settings rebind candidate binding is not registered")
      | Some registration =>
          match selection with
          | None => Raise (RegistryError "selected settings rebind candidate is missing")
          | Some item =>
              match (p ← resolve (kv_path item); q ← resolve (vg_path registration); Ok (p, q)) with
              | Raise (OSError _) | Raise FileNotFoundError =>
                  Raise (RegistryError "settings rebind candidate path is unavailable")
              | Raise e => Raise e
              | Ok (selection_path, registration_path) =>
                  _ ← raise_if (negb (String.eqb (kv_ref item) (vg_ref registration))
                        || negb (String.eqb selection_path registration_path)
                        || bool_decide (is_Some (vg_vault_id registration))
                           && contradicts (kv_vault_id item) (vg_vault_id registration)
                        || bool_decide (is_Some (vg_local_instance_id registration))
                           && contradicts (kv_local_instance_id item) (vg_local_instance_id registration))
                        (RegistryError "settings rebind selection identity does not match candidate");
                  Ok (Some (candidate_id, opened registration item))
              end
          end
      end
  end.

Definition commit_settings_rebind_selection (env : call_env) (resolve : string -> res string) (desired_revision : Z)
    (selection : option KnownVaultRef) (default_change : option (option string * option string))
  : ST registry RegistrySnapshot :=
  _ ← _require_storage_mutation_capability env;
  _locked env (
    current ← begin_update env None;
    match rg_settings_rebind current with
    | None => st_raise (RegistryError "settings rebind record is not installed")
    | Some record =>
        rebind ← st_lift (rebind_from_payload sha256_hex (PDict record));
        _ ← guard_not (negb (existsb (String.eqb (sb_phase rebind)) ["prepared"; "no_lifecycle"])
                       || negb (sb_desired_revision rebind =? desired_revision))
              (RegistryError "settings rebind selection commit requires the matching prepared/no_lifecycle revision");
        chosen ← st_lift (selected_candidate resolve current rebind selection);
        let without_lifecycle := String.eqb (sb_phase rebind) "no_lifecycle" in
        let committed := with_phase_posture (sb_desired_revision rebind)
          (if without_lifecycle then "no_lifecycle" else "committed")
          (if without_lifecycle then "no_lifecycle" else "watcher") rebind in
        let next_revision := rg_revision current + 1 in
        extensions ← st_lift (fork_revision (is_active current) next_revision (rg_extensions current));
        let registrations := match chosen with
          | Some (b, r) => dict_set (rg_registrations current) b r
          | None => rg_registrations current
          end in
        let last_active := match default_change, chosen with
          | None, Some (_, r) => Some (vg_ref r)
          | _, _ => rg_last_active_vault_ref current
          end in
        let updated := with_last_active last_active (with_bindings registrations
          (with_rebind (rebind_as_payload sha256_hex committed) (with_revision next_revision extensions current))) in
        commit env (match default_change with
                    | Some (b, p) => with_default b p updated
                    | None => updated
                    end)
    end).

(** ** Activation *)

Record RegistryActivationProof : Type := mkProof {
  ap_rollback_exporter : bool;
  ap_rollback_transformer : bool;
  ap_previous_image_preflight : bool;
  ap_rollback_vault_binding_id : option string;
  ap_authenticated_gateway : bool;
  ap_native_guard : bool;
  ap_roll_forward_lineage : bool;
  ap_compose_policy_sha256 : option string;
  ap_gateway_policy_sha256 : option string;
  ap_native_launcher_sha256 : option string }.

Definition policy_digest (o : option string) : res string :=
  match _optional_str (str_or_none o) with
  | Some s => if Nat.eqb (String.length s) 64 then Ok s
              else Raise (CapabilityNotReadyError "MVR-01C authority cutover requires bound rollback policy digests")
  | None => Raise (CapabilityNotReadyError "MVR-01C authority cutover requires bound rollback policy digests")
  end.

Definition require_authoritative_activation (env : call_env) (proof : RegistryActivationProof)
    (expected_revision : option Z) : ST registry RegistrySnapshot :=
  _ ← guard_not (negb (ap_rollback_exporter proof && ap_rollback_transformer proof
                       && ap_previous_image_preflight proof))
        (CapabilityNotReadyError "MVR-01B rollback exporter/transformer and previous-image preflight are required before registry authority activation");
  _ ← guard_not (negb (ap_authenticated_gateway proof && ap_native_guard proof && ap_roll_forward_lineage proof))
        (CapabilityNotReadyError "MVR-01C authority cutover requires gateway, native guard, and roll-forward lineage preflight");
  compose ← st_lift (policy_digest (ap_compose_policy_sha256 proof));
  gateway ← st_lift (policy_digest (ap_gateway_policy_sha256 proof));
  launcher ← st_lift (policy_digest (ap_native_launcher_sha256 proof));
  _ ← _require_storage_mutation_capability env;
  let target := _optional_str (str_or_none (ap_rollback_vault_binding_id proof)) in
  _locked env (
    current ← begin_update env expected_revision;
    if is_active current then
      match get (rg_extensions current) "scalarRollback" with
      | PDict floor =>
          if py_eqb (get floor "targetVaultBindingId") (str_or_none target) then mret current
          else st_raise (RegistryError "registry authority is already active with another rollback floor")
      | _ => st_raise (RegistryError "registry authority is already active with another rollback floor")
      end
    else
      _ ← guard_not (bool_decide (rg_registrations current = []))
            (CapabilityNotReadyError "registry authority activation requires one registration");
      target ← match target, rg_registrations current with
               | Some b, _ => mret b
               | None, [(b, _)] => mret b
               | None, _ => st_raise (CapabilityNotReadyError "one explicit rollback_vault_binding_id is required for multiple registrations")
               end;
      match dict_get (rg_registrations current) target with
      | None => st_raise (RegistryError "rollback target is not a current registration")
      | Some registration =>
          let revision := rg_revision current + 1 in
          let floor := [("schema", PStr SCALAR_ROLLBACK_SCHEMA); ("targetVaultBindingId", PStr target);
            ("targetRef", PStr (vg_ref registration)); ("targetPath", PStr (vg_path registration));
            ("forkRegistryRevision", PInt revision); ("gatewayPreflight", PStr "authenticated-mutation-filter");
            ("nativeGuardPreflight", PStr "deny-by-default");
            ("rollForwardLineage", PStr ROLL_FORWARD_LINEAGE_SCHEMA); ("composePolicySha256", PStr compose);
            ("gatewayPolicySha256", PStr gateway); ("nativeLauncherSha256", PStr launcher)] in
          commit env (with_authority REGISTRY_AUTHORITY_ACTIVE
            (with_revision revision (dict_set (rg_extensions current) "scalarRollback" (PDict floor)) current))
      end).
End Store.
