(* ===== verification/RegistryProps.v ===== *)
(** * What the registry's writers may change

    Every call of the registry store as a [registry_call], the part of the
    document its clients rely on (revision, registered bindings, stored
    dimensions), and the change each call makes to it: [call_steps].  A write
    that is not a lease write advances the revision, so two registries of one
    history with the same revision agree on that part. *)
From S2P Require Import Prelude PyValue Sql SettingsRebind VaultRegistry DimensionState RegistryStore.
Open Scope Z_scope.

(** ** Calls *)

Inductive registry_call : Type :=
  | CallLoad
  | CallRegister (registration : VaultRegistration) (expected : option Z) (provenance : option string)
  | CallDefault (binding : option string) (provenance : string) (expected : option Z)
  | CallUpdate (registration : VaultRegistration) (expected : option Z)
  | CallRemember (resolve : string -> res string) (binding : string) (item : KnownVaultRef) (make_active : bool)
  | CallRemove (binding : string) (expected : option Z) (clear_default : bool) (replacement : option string)
      (lineage : option TransferLineage)
  | CallCommitState (registrations : list (string * VaultRegistration))
      (tombstones : option (list (string * RemovalTombstone))) (lineage : option (list TransferLineage))
      (extensions : option pydict) (expected : option Z)
  | CallSetDimensions (dimensions : pydict) (expected : option Z)
  | CallDropDimensions (expected : Z)
  | CallLease (binding : string) (state : pyval) (expected : option Z)
  | CallExtensions (load_env : call_env) (principal_state background_state floors : pydict) (expected : option Z)
  | CallForegroundFloor
  | CallRuntimeFloor
  | CallCompensate (expected : Z)
  | CallIntent (intent : BackgroundBindingIntent) (expected : option Z)
  | CallInstallRebind (binding : option string)
  | CallRebindState (payload : pydict) (expected : option Z)
  | CallReload (desired : Z) (reload : res unit)
  | CallSelection (resolve : string -> res string) (desired : Z) (selection : option KnownVaultRef)
      (default_change : option (option string * option string))
  | CallActivate (proof : RegistryActivationProof) (expected : option Z).

Section Calls.
Context (sha256_hex : string -> string).

Definition run_call (env : call_env) (c : registry_call) : ST registry RegistrySnapshot :=
  match c with
  | CallLoad => load sha256_hex env
  | CallRegister r e p => register sha256_hex env r e p
  | CallDefault b p e => set_instance_default sha256_hex env b p e
  | CallUpdate r e => update_registration sha256_hex env r e
  | CallRemember f b i a => remember_registration sha256_hex env f b i a
  | CallRemove b e c r l => remove_registration sha256_hex env b e c r l
  | CallCommitState r t l x e => commit_state sha256_hex env r t l x e
  | CallSetDimensions d e => set_dimension_state sha256_hex env d e
  | CallDropDimensions e => remove_dimension_state sha256_hex env e
  | CallLease b s e => set_binding_effect_lease_state sha256_hex env b s e
  | CallExtensions le p b f e => set_extension_state sha256_hex le env p b f e
  | CallForegroundFloor => advance_foreground_ownership_floor sha256_hex env
  | CallRuntimeFloor => advance_mvr06_runtime_floor sha256_hex env
  | CallCompensate e => compensate_mvr06_runtime_floor sha256_hex env e
  | CallIntent i e => install_background_intent sha256_hex env i e
  | CallInstallRebind b => install_settings_rebind_dormant sha256_hex env b
  | CallRebindState p e => set_settings_rebind_state sha256_hex env p e
  | CallReload d r => complete_settings_rebind_reload sha256_hex env d r
  | CallSelection f d s x => commit_settings_rebind_selection sha256_hex env f d s x
  | CallActivate p e => require_authoritative_activation sha256_hex env p e
  end.

(** ** Runs that only read until they write once *)

Definition keeps {A} (m : ST registry A) : Prop := forall w r w', m w = (r, w') -> w' = w.
(** With [strict] the call succeeds only by writing. *)
Definition only {A} (strict : bool) (m : ST registry A) (w : registry) (R : registry -> Prop) : Prop :=
  forall r w', m w = (r, w') -> w' = w /\ (strict = true -> exists e, r = Raise e) \/ R w'.

Lemma still_lift {A} (r : res A) : keeps (st_lift r).
Proof. by intros w r' w' [= _ ->]. Qed.
Lemma still_guard c e : keeps (guard_not c e).
Proof. intros w r w'. unfold guard_not. destruct c; by intros [= _ ->]. Qed.
Lemma still_ret {A} (a : A) : keeps (mret a).
Proof. by intros w r w' [= _ ->]. Qed.
Lemma still_bind {A B} (m : ST registry A) (f : A -> ST registry B) :
  keeps m -> (forall a, keeps (f a)) -> keeps (m ≫= f).
Proof.
  intros Hm Hf w r w' [(a & w1 & E1 & E)|(e & E & _)]%st_bind_cases; [|by apply Hm in E].
  apply Hm in E1 as ->. by apply Hf in E.
Qed.
Lemma keeps_read env : keeps (_read_current_locked sha256_hex env).
Proof.
  intros w r w'. unfold _read_current_locked. destruct (rs_document w) as [d|]; [|by intros [= _ ->]].
  destruct (_snapshot_from_frontmatter _ _ _) as [s|e]; [by intros [= _ ->]|].
  destruct e; try (by intros [= _ ->]). destruct cls; by intros [= _ ->].
Qed.
Lemma keeps_session : keeps _assert_no_scalar_rollback_session_locked.
Proof. intros w r w'. apply (still_guard (rs_session w)). Qed.
Lemma keeps_begin env e : keeps (begin_update sha256_hex env e).
Proof.
  unfold begin_update. apply still_bind; [apply keeps_session|intros _].
  apply still_bind; [apply keeps_read|intros s]. apply still_bind; [apply still_lift|intros _; apply still_ret].
Qed.

Lemma only_keeps {A} (m : ST registry A) w R : keeps m -> only false m w R.
Proof. intros H r w' E. left. by apply H in E. Qed.
Lemma only_raise {A} strict e w R : only strict (@st_raise registry A e) w R.
Proof. intros r w' [= <- <-]. left. eauto. Qed.
Lemma only_bind {A B} strict (m : ST registry A) (f : A -> ST registry B) w R :
  keeps m -> (forall a, m w = (Ok a, w) -> only strict (f a) w R) -> only strict (m ≫= f) w R.
Proof.
  intros Hm Hf r w' [(a & w1 & E1 & E)|(e & E & ->)]%st_bind_cases.
  - pose proof (Hm _ _ _ E1) as ->. exact (Hf a E1 _ _ E).
  - left. apply Hm in E. eauto.
Qed.

(** What a successful read says. *)
Lemma read_ok env w s w' : _read_current_locked sha256_hex env w = (Ok s, w') ->
  exists d, rs_document w = Some d /\ _snapshot_from_frontmatter sha256_hex (ce_root env) d = Ok s.
Proof.
  unfold _read_current_locked. destruct (rs_document w) as [d|] eqn:E; [|done].
  destruct (_snapshot_from_frontmatter _ _ _) as [s'|e] eqn:Es.
  - intros [= <- _]. by exists d.
  - destruct e; try done. by destruct cls.
Qed.
(** [s] was read from [w] under the expected revision [e]. *)
Definition has_read (env : call_env) (e : option Z) (w : registry) (s : RegistrySnapshot) : Prop :=
  rs_session w = false
  /\ (exists d, rs_document w = Some d /\ _snapshot_from_frontmatter sha256_hex (ce_root env) d = Ok s)
  /\ match e with Some z => rg_revision s = z | None => True end.
Lemma begin_ok env e w s w' : begin_update sha256_hex env e w = (Ok s, w') -> has_read env e w s.
Proof.
  unfold begin_update. intros E. run E as u w1 E1. unfold _assert_no_scalar_rollback_session_locked in E1.
  run E1 as w2 w3 E2. injection E2 as <- <-. apply guard_not_ok in E1 as [Hs ->].
  run E as s' w4 E3. pose proof (keeps_read _ _ _ _ E3) as ->. apply read_ok in E3.
  run E as u' w5 E4. apply st_lift_ok in E4 as [Ea ->]. injection E as <- <-.
  split; [done|split; [done|]]. destruct e as [z|]; [|done]. unfold _assert_revision, raise_if in Ea.
  destruct (Z.eqb_spec (rg_revision s') z); [done|discriminate].
Qed.

Lemma write_ok env f s w r w' : _write_locked sha256_hex env f s w = (r, w') ->
  w' = w /\ (exists e, r = Raise e) \/
  exists p, _snapshot_payload sha256_hex env s = Ok p /\ w' = mkRegistryState (Some p) (rs_session w).
Proof.
  unfold _write_locked. intros E. cases E as u w1 E1; [|left; split; [by apply still_guard in E1|by eexists]].
  pose proof (still_guard _ _ _ _ _ E1) as ->.
  cases E as p w2 E2; [|left; split; [by apply still_lift in E2|by eexists]].
  apply st_lift_ok in E2 as [Ep ->].
  cases E as x w3 E3; [|left; split; [by apply still_lift in E3|by eexists]]. apply st_lift_ok in E3 as [_ ->].
  destruct f; simpl in E.
  - injection E as <- <-. right. by exists p.
  - injection E as <- <-. left. eauto.
  - injection E as <- <-. right. by exists p.
Qed.
Lemma only_commit env s w R :
  (forall p, _snapshot_payload sha256_hex env s = Ok p -> R (mkRegistryState (Some p) (rs_session w))) ->
  only true (commit sha256_hex env s) w R.
Proof.
  intros H r w'. unfold commit. intros [(a & w1 & E1 & E)|(e & E & ->)]%st_bind_cases.
  - injection E as _ <-. apply write_ok in E1 as [[_ (e & ?)]|(p & Ep & ->)]; [done|auto].
  - apply write_ok in E as [[-> _]|(p & Ep & ->)]; eauto.
Qed.
Lemma only_lax {A} strict (m : ST registry A) w R : only true m w R -> only strict m w R.
Proof. intros H r w' E. destruct (H _ _ E) as [[-> He]|]; auto. Qed.
Lemma only_locked {A} strict env (m : ST registry A) w R : only strict m w R -> only strict (_locked env m) w R.
Proof. intros H. unfold _locked. destruct (ce_lock env); [apply only_raise|done]. Qed.
End Calls.

(** Walk through a call up to its write; what was read on the way stays in the context. *)
Create HintDb registry discriminated.
#[export] Hint Resolve still_lift still_guard still_ret keeps_read keeps_session keeps_begin : registry.
Ltac registry_fact H :=
  first
  [ apply begin_ok in H
  | apply guard_not_ok in H as [H _]
  | apply st_lift_ok in H as [H _]
  | idtac ].
Ltac track :=
  lazymatch goal with
  | |- only _ (mbind _ (mret _)) _ _ => idtac
  | |- only _ (mbind _ _) _ _ =>
      apply only_bind; [solve [eauto with registry]|]; let a := fresh "a" in let H := fresh "H" in intros a H;
      registry_fact H; cbv beta zeta
  | |- only _ (_locked _ _) _ _ => apply only_locked
  | |- only _ (commit _ _ _) _ _ => apply only_lax, only_commit
  | |- only _ (mret _) _ _ => apply only_keeps; apply still_ret
  | |- only _ (st_raise _) _ _ => apply only_raise
  end.

(** ** The part of the document that clients rely on *)

Definition doc_bindings (d : pydict) : pydict :=
  match py_or (get d "registrations") (PDict []) with PDict r => r | _ => [] end.
Definition doc_revision (d : pydict) : Z := default 0 (as_int (default (PInt 0) (dict_get d "revision"))).
Definition doc_dimensions (d : pydict) : pyval := get d "dimensions".
Definition dims_of (s : RegistrySnapshot) : pyval := get (rg_extensions s) "dimensions".

(** A snapshot that says what the document says. *)
Definition agrees (d : pydict) (s : RegistrySnapshot) : Prop :=
  rg_revision s = doc_revision d
  /\ (forall b, dict_mem (rg_registrations s) b = dict_mem (doc_bindings d) b)
  /\ dims_of s = doc_dimensions d.

Lemma dict_mem_set {A} (d : list (string * A)) k v b : dict_mem (dict_set d k v) b = String.eqb k b || dict_mem d b.
Proof.
  unfold dict_mem. rewrite dict_get_set. case_decide as E; [subst; by rewrite String.eqb_refl|].
  by rewrite (proj2 (String.eqb_neq k b)).
Qed.
Lemma dict_mem_pop {A} (d : list (string * A)) k b : dict_mem (dict_pop d k) b = negb (String.eqb k b) && dict_mem d b.
Proof.
  unfold dict_mem. rewrite dict_get_pop. case_decide as E; [subst; by rewrite String.eqb_refl|].
  by rewrite (proj2 (String.eqb_neq k b)).
Qed.
Lemma dict_mem_cons {A} (kv : string * A) d b : dict_mem (kv :: d) b = String.eqb (fst kv) b || dict_mem d b.
Proof.
  destruct kv as [k v]. unfold dict_mem. simpl. destruct (String.eqb_spec b k) as [->|N].
  - by rewrite String.eqb_refl.
  - by rewrite (proj2 (String.eqb_neq k b)).
Qed.

Lemma dict_set_keys {A} (d : list (string * A)) k v :
  map fst (dict_set d k v) = if existsb (String.eqb k) (map fst d) then map fst d else map fst d ++ [k].
Proof.
  induction d as [|[j w] d IH]; simpl; [done|]. destruct (String.eqb k j) eqn:E; simpl; [done|].
  rewrite IH. by destruct (existsb _ _).
Qed.
Lemma dict_set_new {A} (d : list (string * A)) k v : k ∉ map fst d -> dict_set d k v = d ++ [(k, v)].
Proof.
  induction d as [|[j w] d IH]; simpl; [done|]. intros [Hn Hd]%not_elem_of_cons.
  rewrite (proj2 (String.eqb_neq k j)) by done. by rewrite IH.
Qed.
Lemma ins_key_perm {A} (kv : string * A) d : ins_key kv d ≡ₚ kv :: d.
Proof.
  induction d as [|x d IH]; simpl; [done|]. destruct (String.leb _ _); [done|]. rewrite IH. constructor.
Qed.
Lemma sort_keys_perm {A} (d : list (string * A)) : sort_keys d ≡ₚ d.
Proof. induction d as [|x d IH]; simpl; [done|]. by rewrite ins_key_perm, IH. Qed.
Lemma raise_if_ok c e u : raise_if c e = Ok u -> c = false.
Proof. by destruct c. Qed.
Lemma yaml_norm_idem v : yaml_norm (yaml_norm v) = yaml_norm v.
Proof.
  induction v as [| | | | |l IH|l IH|d IH] using pyval_deep_ind; simpl; try done; f_equal;
    rewrite map_map; apply map_ext_Forall; [done..|].
  eapply Forall_impl; [exact IH|]. intros [k w] E. simpl in *. by rewrite E.
Qed.

Lemma get_without fields d k : existsb (String.eqb k) fields = false -> get (without fields d) k = get d k.
Proof.
  intros Hk. unfold get. f_equal. induction d as [|[j v] d IH]; simpl; [done|].
  destruct (existsb (String.eqb j) fields) eqn:E; simpl; rewrite IH; [|done].
  destruct (String.eqb_spec k j) as [->|]; [congruence|done].
Qed.
Lemma get_yaml d k : get (yaml_norm_dict d) k = yaml_norm (get d k).
Proof.
  unfold get, yaml_norm_dict. rewrite (dict_get_map yaml_norm). by destruct (dict_get d k).
Qed.

(** A field of the front matter; a slot that is not a field. *)
Lemma frontmatter_other s k : existsb (String.eqb k) _REGISTRY_FIELDS = false ->
  get (_frontmatter_from_snapshot s) k = get (rg_extensions s) k.
Proof.
  intros H. unfold _frontmatter_from_snapshot, dict_merge. cbn [fields_of foldl fst snd].
  cbn [existsb _REGISTRY_FIELDS] in H. bool_prop. rewrite !get_set.
  repeat rewrite decide_False by congruence. done.
Qed.
Ltac frontmatter_field :=
  unfold _frontmatter_from_snapshot, dict_merge; cbn [fields_of foldl fst snd];
  rewrite ?dict_get_set, ?get_set;
  repeat first [rewrite decide_True by reflexivity | rewrite decide_False by discriminate]; reflexivity.
Lemma frontmatter_revision s : dict_get (_frontmatter_from_snapshot s) "revision" = Some (PInt (rg_revision s)).
Proof. frontmatter_field. Qed.
Lemma frontmatter_registrations s : get (_frontmatter_from_snapshot s) "registrations"
  = PDict (map (fun kv => (fst kv, PDict (_registration_to_frontmatter (snd kv)))) (sort_keys (rg_registrations s))).
Proof. frontmatter_field. Qed.

Section Views.
Context (sha256_hex : string -> string).

Lemma payload_agrees env s p : _snapshot_payload sha256_hex env s = Ok p ->
  rg_revision s = doc_revision p
  /\ (forall b, dict_mem (rg_registrations s) b = dict_mem (doc_bindings p) b)
  /\ doc_dimensions p = yaml_norm (dims_of s).
Proof.
  unfold _snapshot_payload. intros H. bound H as s' E. injection H as <-. split; [|split].
  - unfold doc_revision, yaml_norm_dict. by rewrite (dict_get_map yaml_norm), frontmatter_revision.
  - intros b. unfold doc_bindings. rewrite get_yaml, frontmatter_registrations. simpl.
    destruct (sort_keys (rg_registrations s)) as [|kv l] eqn:Es; simpl.
    + unfold dict_mem. rewrite <- (dict_get_sort (rg_registrations s)), Es. done.
    + change (dict_mem (rg_registrations s) b = dict_mem (map (fun kv => (fst kv, yaml_norm (snd kv)))
        (map (fun kv => (fst kv, PDict (_registration_to_frontmatter (snd kv)))) (kv :: l))) b).
      unfold dict_mem. rewrite (dict_get_map yaml_norm).
      rewrite (dict_get_map (fun r => PDict (_registration_to_frontmatter r))), <- Es, dict_get_sort.
      by destruct (dict_get _ b).
  - unfold doc_dimensions, dims_of. by rewrite get_yaml, frontmatter_other.
Qed.

Lemma read_registrations_mem root raw acc l b : read_registrations root raw acc = Ok l ->
  dict_mem l b = dict_mem acc b || dict_mem raw b.
Proof.
  revert acc. induction raw as [|[k v] raw IH]; intros acc; simpl.
  { intros [= ->]. by rewrite orb_false_r. }
  destruct v; try done. intros H. bound H as r Er. bound H as u Eu. bound H as u' Eu'.
  apply IH in H. rewrite H, dict_mem_set, dict_mem_cons. simpl.
  unfold _registration_from_frontmatter in Er. split_matches. simpl.
  destruct (String.eqb k b), (dict_mem acc b); done.
Qed.

Lemma read_default_dims fm regs ext o p ext' : _read_default_from_frontmatter fm regs ext = Ok (o, p, ext') ->
  get ext' "dimensions" = get ext "dimensions".
Proof.
  unfold _read_default_from_frontmatter. intros H. destruct (_optional_str (get fm "defaultVaultBindingId")) as [b|].
  - destruct (_optional_str (get fm "defaultVaultProvenance")).
    + bound H as u Eu. by injection H as _ _ <-.
    + destruct (dict_mem regs b); injection H as _ _ <-; [done|]. by rewrite get_set.
  - bound H as u Eu. by injection H as _ _ <-.
Qed.

Lemma parse_agrees root d s : _snapshot_from_frontmatter sha256_hex root d = Ok s -> agrees d s.
Proof.
  unfold _snapshot_from_frontmatter. intros H. bound H as u1 E1. bound H as u2 E2.
  destruct (as_int _) as [rev|] eqn:Erev; [|done]. bound H as u3 E3. bound H as raw Eraw. bound H as regs Eregs.
  bound H as rawt Et. bound H as tomb Etomb. destruct (py_or (get d "transferLineage") _); try done.
  bound H as lin Elin. destruct (_optional_str (get d "appInstallId")); [|done]. bound H as u4 E4. bound H as u5 E5.
  bound H as reb Ereb. bound H as floors Ef. bound H as u6 E6. bound H as u7 E7.
  bound H as [[o p] ext] Ed. injection H as <-. split; [|split]; simpl.
  - unfold doc_revision. by rewrite Erev.
  - intros b. rewrite (read_registrations_mem _ _ _ _ b Eregs). unfold doc_bindings.
    unfold mapping_or_empty in Eraw. destruct (py_or (get d "registrations") _); try done. by injection Eraw as ->.
  - unfold dims_of, doc_dimensions. simpl. rewrite (read_default_dims _ _ _ _ _ _ Ed). by apply get_without.
Qed.
End Views.

(** ** The change a call makes *)

(** The dimensions slot after the repair for a removed binding. *)
Definition repaired_slot (v : pyval) (b : string) (revision : Z) : pyval :=
  get (fst (repair_dimensions_for_removed_binding [("dimensions", v)] b revision)) "dimensions".
Lemma repair_slot ext b revision :
  get (fst (repair_dimensions_for_removed_binding ext b revision)) "dimensions"
  = repaired_slot (get ext "dimensions") b revision.
Proof.
  unfold repaired_slot, repair_dimensions_for_removed_binding.
  change (get [("dimensions", get ext "dimensions")] "dimensions") with (get ext "dimensions").
  destruct (get ext "dimensions") as [| | | | | | |raw] eqn:E; cbn [fst]; try (by rewrite E).
  destruct (negb _); cbn [fst]; [by rewrite E|].
  destruct (get raw "entries"); cbn [fst]; try (by rewrite E). by rewrite !get_set.
Qed.

Definition grows (s s' : RegistrySnapshot) : Prop :=
  forall b, dict_mem (rg_registrations s) b = true -> dict_mem (rg_registrations s') b = true.

(** The calls that neither drop a binding nor touch the dimensions. *)
Definition growing (c : registry_call) : bool :=
  match c with
  | CallRemove _ _ _ _ _ | CallCommitState _ _ _ _ _ | CallSetDimensions _ _ | CallDropDimensions _
  | CallLease _ _ _ => false
  | _ => true
  end.
Inductive change (c : registry_call) (s s' : RegistrySnapshot) : Prop :=
  | ch_grow : growing c = true -> rg_revision s' = rg_revision s + 1 -> grows s s' -> dims_of s' = dims_of s -> change c s s'
  | ch_remove b e cd rp l : c = CallRemove b e cd rp l -> rg_revision s' = rg_revision s + 1 ->
      (forall x, dict_mem (rg_registrations s') x = negb (String.eqb b x) && dict_mem (rg_registrations s) x) ->
      dims_of s' = repaired_slot (dims_of s) b (rg_revision s') -> change c s s'
  | ch_dims d e : c = CallSetDimensions d e -> rg_revision s' = rg_revision s + 1 ->
      rg_registrations s' = rg_registrations s -> dims_of s' = PDict d -> change c s s'
  | ch_drop e : c = CallDropDimensions e -> rg_revision s' = rg_revision s + 1 ->
      rg_registrations s' = rg_registrations s -> dims_of s' = PNone -> change c s s'
  | ch_commit r t l x e : c = CallCommitState r t l x e -> rg_revision s' = rg_revision s + 1 ->
      (forall b, dict_mem (rg_registrations s') b = dict_mem r b) ->
      dims_of s' = get (default (rg_extensions s) x) "dimensions" -> change c s s'
  | ch_lease b v e : c = CallLease b v e -> rg_revision s' = rg_revision s ->
      rg_registrations s' = rg_registrations s -> dims_of s' = dims_of s -> change c s s'.

Lemma grows_refl s s' : rg_registrations s' = rg_registrations s -> grows s s'.
Proof. intros E b. by rewrite E. Qed.
Lemma grows_set s s' k v : rg_registrations s' = dict_set (rg_registrations s) k v -> grows s s'.
Proof. intros E b. rewrite E, dict_mem_set. intros ->. apply orb_true_r. Qed.

Lemma fork_dims active revision ext ext' :
  fork_revision active revision ext = Ok ext' -> get ext' "dimensions" = get ext "dimensions".
Proof.
  unfold fork_revision, stamped. destruct active; [|by intros [= ->]].
  destruct (get ext "scalarRollback"); try done. intros [= <-]. by rewrite get_set.
Qed.
Lemma fork_unchecked_dims active revision ext ext' :
  fork_revision_unchecked active revision ext = Ok ext' -> get ext' "dimensions" = get ext "dimensions".
Proof.
  unfold fork_revision_unchecked, stamped. destruct active; [|by intros [= ->]].
  destruct (dict_get ext "scalarRollback") as [v|]; [|done]. destruct v; try done. intros [= <-]. by rewrite get_set.
Qed.
Lemma with_registrations_ok s regs s' : _with_registrations s regs = Ok s' ->
  rg_revision s' = rg_revision s + 1 /\ rg_registrations s' = regs /\ dims_of s' = dims_of s.
Proof.
  unfold _with_registrations. intros H. bound H as ext E. injection H as <-. unfold dims_of. simpl.
  by rewrite (fork_dims _ _ _ _ E).
Qed.
Lemma retire_ok s b l u u' : retire s b l u = Ok u' ->
  rg_revision u' = rg_revision u /\ rg_registrations u' = rg_registrations u /\ dims_of u' = dims_of u.
Proof.
  unfold retire. intros H. bound H as f Ef. bound H as x Ex.
  destruct (dict_get _ b) as [source|]; [|done]. bound H as epoch Ee. bound H as ext Eext. injection H as <-.
  split; [done|split; [done|]]. unfold dims_of. simpl.
  assert (E : get ext "dimensions" = get (match get (rg_extensions u) "bindingEffectLeases" with
     | PDict states => dict_set (rg_extensions u) "bindingEffectLeases" (PDict (dict_pop states b))
     | _ => rg_extensions u end) "dimensions").
  { simpl in Eext. destruct (get (rg_extensions s) "scalarRollback"); try (by injection Eext as <-).
    destruct (py_eqb _ _); [|by injection Eext as <-].
    destruct (get _ "scalarRollback") in Eext; try done. injection Eext as <-. by rewrite get_set. }
  rewrite E. destruct (get (rg_extensions u) "bindingEffectLeases"); try done. by rewrite get_set.
Qed.
Lemma settle_default_ok s b rp cd u u' : settle_default s b rp cd u = Ok u' ->
  rg_revision u' = rg_revision u /\ rg_registrations u' = rg_registrations u /\ rg_extensions u' = rg_extensions u.
Proof.
  unfold settle_default. intros H. destruct rp.
  - bound H as x1 E1. bound H as x2 E2. by injection H as <-.
  - destruct (bool_decide _); bound H as x1 E1; by injection H as <-.
Qed.
Lemma validated_mem env regs acc l b : validated_registrations env regs acc = Ok l ->
  dict_mem l b = dict_mem acc b || dict_mem regs b.
Proof.
  revert acc. induction regs as [|[k r] regs IH]; intros acc; simpl.
  { intros [= ->]. by rewrite orb_false_r. }
  intros H. bound H as u1 E1. bound H as u2 E2. bound H as u3 E3. apply IH in H.
  rewrite H, dict_mem_set, dict_mem_cons. simpl. destruct (String.eqb k b), (dict_mem acc b); done.
Qed.

Section Steps.
Context (sha256_hex : string -> string).

Inductive wstep (c : registry_call) (w : registry) : registry -> Prop :=
  | ws_init env p : rs_document w = None ->
      _snapshot_payload sha256_hex env (_empty_snapshot (ce_uuid env)) = Ok p ->
      wstep c w (mkRegistryState (Some p) (rs_session w))
  | ws_write env d s s' p : rs_document w = Some d -> agrees d s ->
      _snapshot_payload sha256_hex env s' = Ok p -> change c s s' ->
      wstep c w (mkRegistryState (Some p) (rs_session w)).

(** A write after an opening read. *)
Lemma step_write strict c w env e s s' : has_read sha256_hex env e w s -> change c s s' ->
  only strict (commit sha256_hex env s') w (wstep c w).
Proof.
  intros (_ & (d & Ed & Es) & _) Hc. apply only_lax, only_commit. intros p Ep. eapply ws_write; eauto using parse_agrees.
Qed.

Lemma default_step env b p e w :
  only true (run_call sha256_hex env (CallDefault b p e)) w (wstep (CallDefault b p e) w).
Proof.
  simpl. unfold set_instance_default. do 6 track. eapply step_write; [exact H1|].
  apply with_registrations_ok in H3 as (Hr & Hb & Hd). by apply ch_grow; simpl; [| |apply grows_refl|].
Qed.

Lemma update_step env r e w : only false (run_call sha256_hex env (CallUpdate r e)) w (wstep (CallUpdate r e) w).
Proof.
  simpl. unfold update_registration. do 4 track.
  destruct (dict_get _ _) as [existing|]; [|track]. do 3 track. eapply step_write; [exact H1|].
  apply with_registrations_ok in H4 as (Hr & Hb & Hd). by apply ch_grow; [| |eapply grows_set|].
Qed.

Lemma remember_step env f b i a w :
  only false (run_call sha256_hex env (CallRemember f b i a)) w (wstep (CallRemember f b i a) w).
Proof.
  simpl. unfold remember_registration. do 4 track.
  destruct (dict_get _ _) as [registration|]; [|track]. do 5 track. eapply step_write; [exact H0|].
  apply fork_dims in H6. by apply ch_grow; simpl; [| |eapply grows_set|].
Qed.

Lemma remove_step env b e cd rp l w :
  only true (run_call sha256_hex env (CallRemove b e cd rp l)) w (wstep (CallRemove b e cd rp l) w).
Proof.
  simpl. unfold remove_registration. do 7 track. apply with_registrations_ok in H4 as (Hr & Hb & Hd).
  apply only_bind; [destruct l; eauto with registry|]. intros u Hu.
  assert (Hu' : rg_revision u = rg_revision a1 + 1 /\ rg_registrations u = dict_pop (rg_registrations a1) b
                /\ dims_of u = dims_of a1).
  { destruct l; [|injection Hu as <-; done]. apply st_lift_ok in Hu as [Hu _]. apply retire_ok in Hu as (E1 & E2 & E3).
    by rewrite E1, E2, E3. }
  clear Hu. destruct Hu' as (Hr' & Hb' & Hd').
  set (u1 := with_extensions _ u). apply only_bind; [eauto with registry|].
  intros u2 Hu2. apply st_lift_ok in Hu2 as [Hu2 _]. apply settle_default_ok in Hu2 as (Hr2 & Hb2 & Hd2).
  eapply step_write; [exact H1|].
  assert (Erev : rg_revision u1 = rg_revision u) by done.
  eapply ch_remove; [reflexivity| | |].
  - by rewrite Hr2.
  - intros x. rewrite Hb2. change (rg_registrations u1) with (rg_registrations u). by rewrite Hb', dict_mem_pop.
  - unfold dims_of. rewrite Hd2, Hr2. subst u1. simpl. rewrite repair_slot. unfold dims_of in Hd'. by rewrite Hd'.
Qed.

Lemma commit_state_step env r t l x e w :
  only true (run_call sha256_hex env (CallCommitState r t l x e)) w (wstep (CallCommitState r t l x e) w).
Proof.
  simpl. unfold commit_state. do 7 track. eapply step_write; [exact H0|].
  eapply ch_commit; [reflexivity|done| |].
  - intros b. simpl. by rewrite (validated_mem _ _ _ _ b H1).
  - unfold dims_of. simpl. by rewrite (fork_dims _ _ _ _ H3).
Qed.

Lemma set_dimensions_step env d e w :
  only true (run_call sha256_hex env (CallSetDimensions d e)) w (wstep (CallSetDimensions d e) w).
Proof.
  simpl. unfold set_dimension_state. do 4 track. eapply step_write; [exact H0|].
  apply with_registrations_ok in H1 as (Hr & Hb & Hd).
  eapply ch_dims; [reflexivity|done|done|]. unfold dims_of. simpl. by rewrite get_set.
Qed.
Lemma drop_dimensions_step env e w :
  only false (run_call sha256_hex env (CallDropDimensions e)) w (wstep (CallDropDimensions e) w).
Proof.
  simpl. unfold remove_dimension_state. do 5 track. eapply step_write; [exact H0|].
  apply with_registrations_ok in H2 as (Hr & Hb & Hd).
  eapply ch_drop; [reflexivity|done|done|]. unfold dims_of. simpl. by rewrite get_pop.
Qed.

Lemma lease_step env b v e w : only false (run_call sha256_hex env (CallLease b v e)) w (wstep (CallLease b v e) w).
Proof.
  simpl. unfold set_binding_effect_lease_state. do 7 track. eapply step_write; [exact H2|].
  eapply ch_lease; [reflexivity|done|done|]. unfold dims_of. simpl. by rewrite get_set.
Qed.

Lemma foreground_step env w : only false (run_call sha256_hex env CallForegroundFloor) w (wstep CallForegroundFloor w).
Proof.
  simpl. unfold advance_foreground_ownership_floor. do 3 track. destruct (String.eqb _ _); [track|].
  apply only_bind; [destruct (String.eqb _ _); eauto with registry|]. intros f _.
  destruct (_ && _); [track|]. do 2 track. eapply step_write; [exact H0|]. apply fork_unchecked_dims in H2.
  rewrite get_set in H2. by apply ch_grow; simpl; [| |apply grows_refl|].
Qed.
Lemma runtime_floor_step env w : only false (run_call sha256_hex env CallRuntimeFloor) w (wstep CallRuntimeFloor w).
Proof.
  simpl. unfold advance_mvr06_runtime_floor. do 4 track. destruct (py_eqb _ _); [track|]. do 2 track.
  eapply step_write; [exact H0|]. apply fork_unchecked_dims in H3. rewrite get_set in H3.
  by apply ch_grow; simpl; [| |apply grows_refl|].
Qed.
Lemma compensate_step env e w : only false (run_call sha256_hex env (CallCompensate e)) w (wstep (CallCompensate e) w).
Proof.
  simpl. unfold compensate_mvr06_runtime_floor. do 9 track. eapply step_write; [exact H0|].
  apply fork_unchecked_dims in H5. rewrite get_set in H5. by apply ch_grow; simpl; [| |apply grows_refl|].
Qed.
Lemma intent_step env i e w : only false (run_call sha256_hex env (CallIntent i e)) w (wstep (CallIntent i e) w).
Proof.
  simpl. unfold install_background_intent. do 4 track.
  destruct (get _ BACKGROUND_INTENT_KEY).
  2-8: track; destruct (bool_decide _); track.
  do 2 track. eapply step_write; [exact H0|]. apply fork_unchecked_dims in H3. rewrite get_set in H3.
  by apply ch_grow; simpl; [| |apply grows_refl|].
Qed.
Lemma rebind_state_step env p e w :
  only false (run_call sha256_hex env (CallRebindState p e)) w (wstep (CallRebindState p e) w).
Proof.
  simpl. unfold set_settings_rebind_state. do 8 track. destruct (bool_decide _); [track|]. do 3 track.
  eapply step_write; [exact H1|]. apply fork_dims in H8. by apply ch_grow; simpl; [| |apply grows_refl|].
Qed.
Lemma reload_step env d r w : only false (run_call sha256_hex env (CallReload d r)) w (wstep (CallReload d r) w).
Proof.
  simpl. unfold complete_settings_rebind_reload. do 3 track. destruct (rg_settings_rebind _); [|track].
  do 3 track. destruct (bool_decide _); [track|]. do 3 track. eapply step_write; [exact H0|].
  apply fork_dims in H6. by apply ch_grow; simpl; [| |apply grows_refl|].
Qed.
Lemma selection_step env f d s x w :
  only false (run_call sha256_hex env (CallSelection f d s x)) w (wstep (CallSelection f d s x) w).
Proof.
  simpl. unfold commit_settings_rebind_selection. do 3 track. destruct (rg_settings_rebind _); [|track].
  do 4 track. eapply step_write; [exact H0|]. apply fork_dims in H4.
  apply ch_grow; [done| | |].
  - by destruct x as [[? ?]|].
  - destruct a3 as [[b r]|]; [eapply grows_set|apply grows_refl]; by destruct x as [[? ?]|].
  - unfold dims_of. by destruct x as [[? ?]|].
Qed.
Lemma activate_step env p e w : only false (run_call sha256_hex env (CallActivate p e)) w (wstep (CallActivate p e) w).
Proof.
  simpl. unfold require_authoritative_activation. do 8 track. destruct (is_active _).
  { destruct (get _ "scalarRollback"); try track. destruct (py_eqb _ _); track. }
  track. apply only_bind.
  { destruct (_optional_str _); [eauto with registry|].
    destruct (rg_registrations _) as [|[? ?] [|]]; [apply still_lift|eauto with registry|apply still_lift]. }
  intros target _. destruct (dict_get _ _); [|track]. eapply step_write; [exact H5|].
  apply ch_grow; simpl; [done|done|by apply grows_refl|]. unfold dims_of. simpl. by rewrite get_set.
Qed.

(** ** Calls that may initialize the registry first *)

Lemma read_or_initialize_steps c env w r w1 : read_or_initialize sha256_hex env w = (r, w1) ->
  rtc (wstep c) w w1 /\ forall s, r = Ok s -> exists d, rs_document w1 = Some d /\ agrees d s.
Proof.
  unfold read_or_initialize. destruct (rs_document w) as [d|] eqn:Ed.
  - intros E. pose proof (keeps_read _ _ _ _ _ E) as ->. split; [done|]. intros s ->.
    apply read_ok in E as (d' & Ed' & Es). exists d'. split; [done|]. by eapply parse_agrees.
  - unfold _restore_or_initialize_missing_locked. intros E.
    assert (Hw : forall p, _snapshot_payload sha256_hex env (_empty_snapshot (ce_uuid env)) = Ok p ->
      wstep c w (mkRegistryState (Some p) (rs_session w))) by (intros p Ep; by eapply ws_init).
    apply st_bind_cases in E as [(u & w2 & E1 & E)|(e & E & ->)].
    + injection E as <- <-. apply write_ok in E1 as [[_ (e & Hr)]|(p & Ep & ->)]; [done|].
      split; [by apply rtc_once, Hw|]. intros s [= <-]. exists p. split; [done|].
      apply payload_agrees in Ep as (H1 & H2 & H3). split; [done|split; [done|]]. by rewrite H3.
    + split; [|done]. apply write_ok in E as [[-> _]|(p & Ep & ->)]; [done|]. by apply rtc_once, Hw.
Qed.

Lemma after_read c env w (f : RegistrySnapshot -> ST registry RegistrySnapshot) r w' :
  (forall s w1 d, rs_document w1 = Some d -> agrees d s -> only false (f s) w1 (wstep c w1)) ->
  (read_or_initialize sha256_hex env ≫= f) w = (r, w') -> rtc (wstep c) w w'.
Proof.
  intros Hf [(s & w1 & E1 & E)|(e & E & _)]%st_bind_cases.
  - apply (read_or_initialize_steps c) in E1 as [H1 H2]. destruct (H2 _ eq_refl) as (d & Ed & Hd).
    destruct (Hf s w1 d Ed Hd _ _ E) as [[-> _]|H]; [done|]. etrans; [exact H1|by apply rtc_once].
  - by apply (read_or_initialize_steps c) in E as [H1 _].
Qed.
Lemma step_write_agrees strict c w env d s s' : rs_document w = Some d -> agrees d s -> change c s s' ->
  only strict (commit sha256_hex env s') w (wstep c w).
Proof. intros Ed Hd Hc. apply only_lax, only_commit. intros p Ep. by eapply ws_write. Qed.

Lemma steps_bind c {A} (m : ST registry A) (f : A -> ST registry RegistrySnapshot) w r w' :
  keeps m -> (forall a, f a w = (r, w') -> rtc (wstep c) w w') -> (m ≫= f) w = (r, w') -> rtc (wstep c) w w'.
Proof.
  intros Hm Hf [(a & w1 & E1 & E)|(e & E & _)]%st_bind_cases.
  - apply Hm in E1 as ->. eauto.
  - by apply Hm in E as ->.
Qed.
Lemma steps_locked c env (m : ST registry RegistrySnapshot) w r w' :
  (m w = (r, w') -> rtc (wstep c) w w') -> _locked env m w = (r, w') -> rtc (wstep c) w w'.
Proof. unfold _locked. destruct (ce_lock env); [|done]. by intros _ [= _ <-]. Qed.

Lemma register_steps env x e p w r w' : run_call sha256_hex env (CallRegister x e p) w = (r, w') ->
  rtc (wstep (CallRegister x e p)) w w'.
Proof.
  simpl. unfold register. do 3 (apply steps_bind; [eauto with registry|intros _]).
  apply steps_locked. apply steps_bind; [eauto with registry|intros _]. apply after_read. intros s w1 d Ed Hd.
  do 4 track. apply with_registrations_ok in H2 as (Hr & Hb & Hdim).
  apply only_bind.
  { destruct p; [|eauto with registry]. apply still_bind; eauto with registry. }
  intros u Hu. eapply step_write_agrees; [exact Ed|exact Hd|].
  assert (Hu' : rg_revision u = rg_revision a2 /\ rg_registrations u = rg_registrations a2
    /\ rg_extensions u = rg_extensions a2).
  { destruct p; [|by injection Hu as <-]. run Hu as y w2 Hy. by injection Hu as <-. }
  destruct Hu' as (E1 & E2 & E3). apply ch_grow; [done|by rewrite E1| |].
  - eapply grows_set. by rewrite E2, Hb.
  - unfold dims_of. by rewrite E3.
Qed.

Lemma install_rebind_steps env b w r w' : run_call sha256_hex env (CallInstallRebind b) w = (r, w') ->
  rtc (wstep (CallInstallRebind b)) w w'.
Proof.
  simpl. unfold install_settings_rebind_dormant. apply steps_bind; [eauto with registry|intros _].
  apply steps_locked. apply steps_bind; [eauto with registry|intros _]. apply after_read. intros s w1 d Ed Hd.
  track. destruct (_optional_str (get _ _)); [do 4 track|]. do 4 track.
  eapply step_write_agrees; [exact Ed|exact Hd|]. apply fork_dims in H3. rewrite get_set in H3.
  by apply ch_grow; simpl; [| |apply grows_refl|].
Qed.

(** The extension writer keeps what it loaded before. *)
Lemma dict_merge_dims ext p b f :
  get (dict_merge ext [("principalState", p); ("backgroundState", b); ("runtimeFloors", f)]) "dimensions"
  = get ext "dimensions".
Proof. unfold dict_merge. simpl. by rewrite !get_set. Qed.

Lemma change_as_extensions c' c s s' : growing c = true -> (exists r t l x e, c' = CallCommitState r t l x e /\
    (forall b, dict_mem (rg_registrations s) b = true -> dict_mem r b = true) /\
    get (default (rg_extensions s) x) "dimensions" = dims_of s) ->
  change c' s s' -> change c s s'.
Proof.
  intros Hg (r & t & l & x & e & -> & Hr & Hx) [[=]|? ? ? ? ? [=]|? ? [=]|? [=]|r' t' l' x' e' [= <- <- <- <- <-] H1 H2 H3|? ? ? [=]].
  apply ch_grow; [done|done| |by rewrite H3]. intros b Hb. rewrite H2. by apply Hr.
Qed.

Lemma load_steps c env w r w' : load sha256_hex env w = (r, w') ->
  rtc (wstep c) w w' /\ forall s, r = Ok s -> exists d, rs_document w' = Some d /\ agrees d s.
Proof.
  unfold load, _locked. destruct (ce_lock env).
  - intros [= <- <-]. by split.
  - apply read_or_initialize_steps.
Qed.

Lemma extensions_steps le env p b f e w r w' : run_call sha256_hex env (CallExtensions le p b f e) w = (r, w') ->
  rtc (wstep (CallExtensions le p b f e)) w w'.
Proof.
  simpl. unfold set_extension_state. apply steps_bind; [eauto with registry|intros _].
  intros [(s & w1 & E1 & E)|(er & E & _)]%st_bind_cases.
  2: by apply (load_steps (CallExtensions le p b f e)) in E as [H _].
  apply (load_steps (CallExtensions le p b f e)) in E1 as [H1 H2]. destruct (H2 _ eq_refl) as (d & Ed & Hd).
  etrans; [exact H1|]. revert E. do 4 (apply steps_bind; [eauto with registry|intros ?]).
  intros E. apply (commit_state_step env) in E as [[-> _]|H]; [done|]. apply rtc_once.
  inversion H as [env' p' Ed'|env' d' s1 s2 p' Ed' Hd' Ep' Hc]; subst; [congruence|].
  eapply ws_write; [exact Ed'|exact Hd'|exact Ep'|]. eapply change_as_extensions; [done| |exact Hc].
  assert (d' = d) as -> by congruence. destruct Hd as (_ & Hm & Hdd), Hd' as (_ & Hm' & Hdd').
  do 5 eexists. split; [reflexivity|]. split.
  - intros x. by rewrite Hm', <- Hm.
  - cbn [from_option id]. rewrite dict_merge_dims. unfold dims_of in *. by rewrite Hdd, Hdd'.
Qed.

(** Every call of the store, however it ends, is a sequence of such writes. *)
Lemma call_steps env c w r w' : run_call sha256_hex env c w = (r, w') -> rtc (wstep c) w w'.
Proof.
  assert (Honce : forall c', only false (run_call sha256_hex env c') w (wstep c' w) ->
    run_call sha256_hex env c' w = (r, w') -> rtc (wstep c') w w').
  { intros c' H E. destruct (H _ _ E) as [[-> _]|H']; [done|by apply rtc_once]. }
  destruct c; first [ by apply register_steps | by apply install_rebind_steps | by apply extensions_steps
    | by intros [? _]%(load_steps CallLoad)
    | apply Honce; auto using only_lax, default_step, update_step, remember_step, remove_step, commit_state_step,
        set_dimensions_step, drop_dimensions_step, lease_step, foreground_step, runtime_floor_step, compensate_step,
        intent_step, rebind_state_step, reload_step, selection_step, activate_step ].
Qed.
End Steps.
