(* ===== verification/RegistryRoundtrip.v ===== *)
(** * The registry document round-trips

    A canonical snapshot (texts without surrounding white space, extensions
    that use no field of the document, plain values) that the store commits is
    what every later load reads, its registrations and tombstones in key
    order.  What a load returns is canonical. *)
From S2P Require Import Prelude PyValue Sql SettingsRebind VaultRegistry DimensionState RegistryStore RegistryProps.
Open Scope Z_scope.

(** ** Canonical values *)

Definition text (s : string) : Prop := strip s = s /\ s <> "".
Definition opt_text (o : option string) : Prop := match o with Some s => text s | None => True end.
(** An extension dict beside the given fields. *)
Definition beside (fields : list string) (d : pydict) : Prop := without fields d = d /\ yaml_norm_dict d = d.

Definition registration_ok (k : string) (r : VaultRegistration) : Prop :=
  vg_vault_binding_id r = k /\ text (vg_ref r) /\ text (vg_path r) /\ opt_text (vg_vault_id r)
  /\ opt_text (vg_local_instance_id r) /\ opt_text (vg_vault_name r) /\ opt_text (vg_last_opened_at r)
  /\ beside _REGISTRATION_FIELDS (vg_extensions r).
Definition tombstone_ok (k : string) (t : RemovalTombstone) : Prop :=
  rt_vault_binding_id t = k /\ text (rt_ref t) /\ text (rt_path t) /\ opt_text (rt_vault_id t)
  /\ opt_text (rt_local_instance_id t).
Definition lineage_ok (l : TransferLineage) : Prop :=
  text (tl_source_binding_id l) /\ text (tl_destination_binding_id l) /\ opt_text (tl_local_instance_id l)
  /\ opt_text (tl_vault_id l) /\ text (tl_source_channel_id l) /\ text (tl_destination_channel_id l)
  /\ text (tl_ownership_transfer_id l).
Definition keyed {A} (ok : string -> A -> Prop) (l : list (string * A)) : Prop :=
  NoDup (map fst l) /\ Forall (fun kv => ok (fst kv) (snd kv)) l.

Record canonical (s : RegistrySnapshot) : Prop := mkCanonical {
  can_schema : text (rg_schema s);
  can_authority : text (rg_authority s);
  can_install : text (rg_app_install_id s);
  can_last_active : opt_text (rg_last_active_vault_ref s);
  can_registrations : keyed registration_ok (rg_registrations s);
  can_tombstones : keyed tombstone_ok (rg_removal_tombstones s);
  can_lineage : Forall lineage_ok (rg_transfer_lineage s);
  can_rebind : match rg_settings_rebind s with Some d => yaml_norm_dict d = d | None => True end;
  can_extensions : beside _REGISTRY_FIELDS (rg_extensions s);
  can_default : opt_text (rg_default_vault_binding_id s) /\ opt_text (rg_default_vault_provenance s)
    /\ (is_Some (rg_default_vault_binding_id s) <-> is_Some (rg_default_vault_provenance s)) }.

(** The snapshot with its mappings in key order. *)
Definition in_key_order (s : RegistrySnapshot) : RegistrySnapshot :=
  mkRegistry (rg_schema s) (rg_authority s) (rg_revision s) (rg_app_install_id s) (rg_last_active_vault_ref s)
    (sort_keys (rg_registrations s)) (sort_keys (rg_removal_tombstones s)) (rg_transfer_lineage s)
    (rg_settings_rebind s) (rg_extensions s) (rg_default_vault_binding_id s) (rg_default_vault_provenance s).

(** ** Reading fields back *)

Lemma optional_text s : text s -> _optional_str (PStr s) = Some s.
Proof.
  intros [Hs Hn]. unfold _optional_str. cbn [is_none py_str]. rewrite Hs. by rewrite (proj2 (String.eqb_neq s "")).
Qed.
Lemma optional_opt o : opt_text o -> _optional_str (str_or_none o) = o.
Proof. destruct o; [apply optional_text|done]. Qed.
Lemma optional_is_text v s : _optional_str v = Some s -> text s.
Proof.
  unfold _optional_str. destruct (String.eqb_spec (if is_none v then "" else strip (py_str v)) ""); [done|].
  intros [= <-]. split; [|done]. destruct (is_none v); [done|apply strip_idem].
Qed.
Lemma optional_is_opt v : opt_text (_optional_str v).
Proof. destruct (_optional_str v) eqn:E; [by eapply optional_is_text|done]. Qed.

Lemma without_set fields d k v : existsb (String.eqb k) fields = true -> without fields (dict_set d k v) = without fields d.
Proof.
  intros Hk. induction d as [|[j w] d IH]; simpl; [by rewrite Hk|].
  destruct (String.eqb_spec k j) as [->|N]; simpl; [by rewrite Hk|]. destruct (negb _); [by rewrite IH|done].
Qed.
Lemma without_merge fields d e : Forall (fun kv => existsb (String.eqb (fst kv)) fields = true) e ->
  without fields (dict_merge d e) = without fields d.
Proof.
  unfold dict_merge. revert d. induction e as [|[k v] e IH]; intros d H; simpl; [done|].
  inversion_clear H. rewrite IH by done. by apply without_set.
Qed.
Lemma without_idem fields d : without fields (without fields d) = without fields d.
Proof.
  induction d as [|[k v] d IH]; simpl; [done|]. destruct (negb _) eqn:E; simpl; [rewrite E; by rewrite IH|done].
Qed.
Lemma without_plain fields d : yaml_norm_dict d = d -> yaml_norm_dict (without fields d) = without fields d.
Proof.
  unfold yaml_norm_dict. induction d as [|[k v] d IH]; simpl; [done|]. intros [= E1 E2].
  destruct (negb _); simpl; [rewrite E1|]; by rewrite IH.
Qed.

Lemma registration_roundtrip k r : registration_ok k r ->
  _registration_from_frontmatter k (_registration_to_frontmatter r) = Ok r.
Proof.
  intros (Hk & Hr & Hp & H1 & H2 & H3 & H4 & [Hx _]). unfold _registration_from_frontmatter.
  assert (E : forall a v, dict_get [("ref", PStr (vg_ref r)); ("path", PStr (vg_path r));
    ("vaultId", str_or_none (vg_vault_id r)); ("vaultName", str_or_none (vg_vault_name r));
    ("localInstanceId", str_or_none (vg_local_instance_id r));
    ("lastOpenedAt", str_or_none (vg_last_opened_at r))] a = Some v -> get (_registration_to_frontmatter r) a = v).
  { intros a v. unfold _registration_to_frontmatter, dict_merge. cbn [foldl fst snd dict_get]. rewrite !get_set.
    repeat (case_decide; [subst; simpl; by intros [= <-]|]). 
    repeat (match goal with |- context [String.eqb a ?x] => rewrite (proj2 (String.eqb_neq a x)) by congruence end). done. }
  rewrite !(E "ref" _ eq_refl), (E "path" _ eq_refl), (E "vaultId" _ eq_refl), (E "vaultName" _ eq_refl),
    (E "localInstanceId" _ eq_refl), (E "lastOpenedAt" _ eq_refl).
  rewrite !optional_text, !optional_opt by done. unfold _registration_to_frontmatter.
  rewrite without_merge by (by repeat constructor). rewrite Hx. destruct r; simpl in *. by subst.
Qed.
Lemma tombstone_roundtrip k t : tombstone_ok k t -> 1 <= rt_content_epoch t ->
  _tombstone_from_frontmatter k (_tombstone_to_frontmatter t) = Ok t.
Proof.
  intros (Hk & Hr & Hp & H1 & H2) He. destruct t as [b ref path vid lid epoch]. cbn in Hk, Hr, Hp, H1, H2, He. subst b.
  unfold _tombstone_from_frontmatter, _tombstone_to_frontmatter, get. cbn -[_optional_str str_or_none Z.ltb].
  rewrite !optional_text, !optional_opt by done. by rewrite (proj2 (Z.ltb_ge epoch 1) He).
Qed.
Lemma lineage_roundtrip l : lineage_ok l -> _transfer_lineage_from_frontmatter (PDict (_transfer_lineage_to_frontmatter l)) = Ok l.
Proof.
  destruct l as [s d i v sc dc sr dr t]. intros (H1 & H2 & H3 & H4 & H5 & H6 & H7). cbn in H1, H2, H3, H4, H5, H6, H7.
  unfold _transfer_lineage_from_frontmatter, _transfer_lineage_to_frontmatter, get. cbn -[_optional_str str_or_none Z.ltb].
  by rewrite !optional_text, !optional_opt by done.
Qed.

(** ** Mappings *)

Lemma keyed_sort {A} (ok : string -> A -> Prop) l : keyed ok l -> keyed ok (sort_keys l).
Proof. intros [Hn Hf]. split; by rewrite (sort_keys_perm l). Qed.
Lemma keyed_set {A} (ok : string -> A -> Prop) l k v : keyed ok l -> ok k v -> keyed ok (dict_set l k v).
Proof.
  intros [Hn Hf] Hv. split.
  - rewrite dict_set_keys. destruct (existsb _ _) eqn:E; [done|]. apply NoDup_app. split; [done|].
    split; [|apply NoDup_singleton]. intros x Hx ->%list_elem_of_singleton. apply existsb_eqb_In in Hx. congruence.
  - clear Hn. induction Hf as [|[j w] l Hj Hf IH]; simpl; [by repeat constructor|].
    destruct (String.eqb_spec k j) as [<-|]; by constructor.
Qed.
(** One row of a mapping is left to read. *)
Lemma keyed_snoc {A} (acc : list (string * A)) k v l :
  NoDup (map fst (acc ++ (k, v) :: l)) -> dict_set acc k v = acc ++ [(k, v)] /\ NoDup (map fst ((acc ++ [(k, v)]) ++ l)).
Proof.
  intros Hn. split; [|by rewrite <- app_assoc]. apply dict_set_new. intros Hk.
  rewrite map_app in Hn. apply NoDup_app in Hn as (_ & Hd & _). apply (Hd k Hk). by left.
Qed.

Section Read.
Context (root : string -> option FilesystemRootIdentity).

Lemma read_registrations_back l acc out : Forall (fun kv => registration_ok (fst kv) (snd kv)) l ->
  NoDup (map fst (acc ++ l)) ->
  read_registrations root (map (fun kv => (fst kv, PDict (_registration_to_frontmatter (snd kv)))) l) acc = Ok out ->
  out = acc ++ l.
Proof.
  intros Hf. revert acc. induction Hf as [|[k r] l Hr Hf IH]; intros acc Hn; simpl.
  { intros [= ->]. by rewrite app_nil_r. }
  rewrite (registration_roundtrip k r Hr). cbn [mbind res_bind]. intros H. bound H as u1 E1. bound H as u2 E2.
  destruct Hr as [Hk _]. simpl in Hk. rewrite Hk in H. apply keyed_snoc in Hn as [Es Hn]. rewrite Es in H.
  rewrite (IH _ Hn H). by rewrite <- app_assoc.
Qed.
Lemma read_tombstones_back l acc out : Forall (fun kv => tombstone_ok (fst kv) (snd kv)) l ->
  NoDup (map fst (acc ++ l)) ->
  read_tombstones (map (fun kv => (fst kv, PDict (_tombstone_to_frontmatter (snd kv)))) l) acc = Ok out ->
  out = acc ++ l.
Proof.
  intros Hf. revert acc. induction Hf as [|[k t] l Ht Hf IH]; intros acc Hn; simpl.
  { intros [= ->]. by rewrite app_nil_r. }
  intros H. bound H as t' E. assert (t' = t) as ->.
  { destruct (Z.ltb_spec (rt_content_epoch t) 1) as [L|L].
    - exfalso. destruct (_tombstone_to_frontmatter t) eqn:D; [by destruct t|]. rewrite <- D in E.
      unfold _tombstone_from_frontmatter in E. split_matches. bound E as u Eu.
      apply raise_if_ok in Eu. destruct t; cbn in *; simplify_eq. apply Z.ltb_ge in Eu. lia.
    - rewrite (tombstone_roundtrip k t Ht L) in E. congruence. }
  apply keyed_snoc in Hn as [Es Hn]. rewrite Es in H. rewrite (IH _ Hn H). by rewrite <- app_assoc.
Qed.
Lemma read_lineage_back l : Forall lineage_ok l ->
  mapM_res _transfer_lineage_from_frontmatter (map (fun item => PDict (_transfer_lineage_to_frontmatter item)) l) = Ok l.
Proof.
  induction 1 as [|x l Hx Hf IH]; [done|]. cbn [map mapM_res]. rewrite (lineage_roundtrip x Hx).
  cbn [mbind res_bind]. by rewrite IH.
Qed.
End Read.

(** [x or {}] of a mapping, [x or []] of a list. *)
Lemma mapping_of_dict d msg : mapping_or_empty (PDict d) msg = Ok d.
Proof. by destruct d. Qed.
Lemma list_or_empty l : py_or (PList l) (PList []) = PList l.
Proof. by destruct l. Qed.

(** ** The document *)

Section Document.
Context (sha256_hex : string -> string) (root : string -> option FilesystemRootIdentity).

Lemma default_back s regs o p ext ext' : canonical s ->
  _read_default_from_frontmatter (_frontmatter_from_snapshot s) regs ext = Ok (o, p, ext') ->
  o = rg_default_vault_binding_id s /\ p = rg_default_vault_provenance s /\ ext' = ext.
Proof.
  intros Hc. destruct (can_default _ Hc) as (H1 & H2 & H3). unfold _read_default_from_frontmatter.
  assert (get (_frontmatter_from_snapshot s) "defaultVaultBindingId" = str_or_none (rg_default_vault_binding_id s)) as ->
    by frontmatter_field.
  assert (get (_frontmatter_from_snapshot s) "defaultVaultProvenance" = str_or_none (rg_default_vault_provenance s)) as ->
    by frontmatter_field.
  rewrite !optional_opt by done. intros H.
  destruct (rg_default_vault_binding_id s) as [b|], (rg_default_vault_provenance s) as [q|].
  - bound H as u Eu. by simplify_eq.
  - destruct (proj1 H3) as [? [=]]. by eexists.
  - by destruct (proj2 H3 ltac:(by eexists)).
  - bound H as u Eu. by simplify_eq.
Qed.

Lemma frontmatter_reads_back s s' : canonical s ->
  _snapshot_from_frontmatter sha256_hex root (_frontmatter_from_snapshot s) = Ok s' -> s' = in_key_order s.
Proof.
  intros Hc. pose proof Hc as [Hs Ha Hi Hl Hr Ht Hg Hb Hx Hd]. unfold _snapshot_from_frontmatter.
  assert (get (_frontmatter_from_snapshot s) "schema" = PStr (rg_schema s)) as -> by frontmatter_field.
  assert (get (_frontmatter_from_snapshot s) "authority" = PStr (rg_authority s)) as -> by frontmatter_field.
  assert (get (_frontmatter_from_snapshot s) "appInstallId" = PStr (rg_app_install_id s)) as -> by frontmatter_field.
  assert (get (_frontmatter_from_snapshot s) "lastActiveVaultRef" = str_or_none (rg_last_active_vault_ref s)) as ->
    by frontmatter_field.
  assert (get (_frontmatter_from_snapshot s) "removalTombstones" = PDict (map (fun kv =>
    (fst kv, PDict (_tombstone_to_frontmatter (snd kv)))) (sort_keys (rg_removal_tombstones s)))) as -> by frontmatter_field.
  assert (get (_frontmatter_from_snapshot s) "transferLineage" = PList (map (fun item =>
    PDict (_transfer_lineage_to_frontmatter item)) (rg_transfer_lineage s))) as -> by frontmatter_field.
  assert (get (_frontmatter_from_snapshot s) "settingsRebind" = match rg_settings_rebind s with
    | Some d => PDict d | None => PNone end) as -> by frontmatter_field.
  rewrite frontmatter_registrations, frontmatter_revision, !mapping_of_dict, list_or_empty.
  rewrite !optional_text, optional_opt, read_lineage_back by done.
  assert (without _REGISTRY_FIELDS (_frontmatter_from_snapshot s) = rg_extensions s) as ->.
  { unfold _frontmatter_from_snapshot. rewrite without_merge by (by repeat constructor). apply Hx. }
  cbn [mbind res_bind as_int default from_option id]. intros H.
  bound H as u1 E1. bound H as u2 E2. bound H as u3 E3. bound H as regs Eregs. bound H as tomb Etomb.
  bound H as u4 E4. bound H as u5 E5. bound H as reb Ereb. bound H as floors Ef. bound H as u6 E6. bound H as u7 E7.
  bound H as [[o p] ext] Ed. injection H as <-.
  apply (default_back _ _ _ _ _ _ Hc) in Ed as (-> & -> & ->).
  apply read_registrations_back in Eregs as ->; [|apply (keyed_sort _ _ Hr)..].
  apply read_tombstones_back in Etomb as ->; [|apply (keyed_sort _ _ Ht)..].
  assert (reb = rg_settings_rebind s) as -> by (destruct (rg_settings_rebind s); congruence). done.
Qed.
End Document.

(** ** Plain documents *)

Lemma yaml_set d k v : yaml_norm_dict (dict_set d k v) = dict_set (yaml_norm_dict d) k (yaml_norm v).
Proof.
  unfold yaml_norm_dict. induction d as [|[j w] d IH]; simpl; [done|]. destruct (String.eqb k j); simpl; [done|by rewrite IH].
Qed.
Lemma yaml_merge d e : yaml_norm_dict (dict_merge d e) = dict_merge (yaml_norm_dict d) (yaml_norm_dict e).
Proof.
  unfold dict_merge. revert d. induction e as [|[k v] e IH]; intros d; simpl; [done|]. by rewrite IH, yaml_set.
Qed.
Lemma yaml_str o : yaml_norm (str_or_none o) = str_or_none o.
Proof. by destruct o. Qed.
Lemma yaml_rows {A} (row : A -> pydict) l : Forall (fun kv => yaml_norm_dict (row (snd kv)) = row (snd kv)) l ->
  yaml_norm (PDict (map (fun kv => (fst kv, PDict (row (snd kv)))) l)) = PDict (map (fun kv => (fst kv, PDict (row (snd kv)))) l).
Proof.
  intros H. simpl. f_equal. induction H as [|[k x] l Hx Hl IH]; simpl; [done|]. rewrite IH. simpl in Hx.
  unfold yaml_norm_dict in Hx. by rewrite Hx.
Qed.
Lemma registration_plain r : yaml_norm_dict (vg_extensions r) = vg_extensions r ->
  yaml_norm_dict (_registration_to_frontmatter r) = _registration_to_frontmatter r.
Proof.
  intros H. unfold _registration_to_frontmatter. rewrite yaml_merge, H. f_equal. unfold yaml_norm_dict. simpl.
  by rewrite !yaml_str.
Qed.
Lemma frontmatter_plain s : canonical s -> yaml_norm_dict (_frontmatter_from_snapshot s) = _frontmatter_from_snapshot s.
Proof.
  intros Hc. unfold _frontmatter_from_snapshot. rewrite yaml_merge, (proj2 (can_extensions _ Hc)). f_equal.
  unfold fields_of, yaml_norm_dict at 1. cbn [map fst snd].
  rewrite (yaml_rows _registration_to_frontmatter), (yaml_rows _tombstone_to_frontmatter); [|apply Forall_true|].
  - rewrite !yaml_str. repeat f_equal.
    + simpl. rewrite map_map. f_equal. apply map_ext. intros l. simpl. by rewrite !yaml_str.
    + pose proof (can_rebind _ Hc) as Hb. destruct (rg_settings_rebind s); simpl; [|done]. by f_equal.
  - intros [k t]. unfold yaml_norm_dict. simpl. by rewrite !yaml_str.
  - eapply Forall_impl; [apply (keyed_sort _ _ (can_registrations _ Hc))|].
    intros [k r] (_ & _ & _ & _ & _ & _ & _ & [_ Hx]). by apply registration_plain.
Qed.

(** ** Reading one's writes *)

Section Back.
Context (sha256_hex : string -> string).

(** The registry says what the snapshot says: it is [w0] and was read, or the
    snapshot was written. *)
Definition stands (env : call_env) (w0 : registry) (s : RegistrySnapshot) (w : registry) : Prop :=
  canonical s -> exists d s', rs_document w = Some d /\ _snapshot_from_frontmatter sha256_hex (ce_root env) d = Ok s'
    /\ (s' = s /\ w = w0 \/ s' = in_key_order s /\ d = _frontmatter_from_snapshot s).
Definition yields (env : call_env) (w0 : registry) (m : ST registry RegistrySnapshot) (w : registry) : Prop :=
  forall s w', m w = (Ok s, w') -> stands env w0 s w'.

Lemma write_stands env w0 f s w u w' : _write_locked sha256_hex env f s w = (Ok u, w') -> stands env w0 s w'.
Proof.
  intros [[_ (e & ?)]|(p & Ep & ->)]%write_ok Hc; [done|]. unfold _snapshot_payload in Ep. bound Ep as s' E.
  injection Ep as <-. rewrite (frontmatter_plain s Hc). exists (_frontmatter_from_snapshot s), s'.
  split; [done|split; [done|]]. right. split; [|done]. by eapply frontmatter_reads_back.
Qed.
Lemma yields_commit env w0 s w : yields env w0 (commit sha256_hex env s) w.
Proof. unfold commit. intros s' w' E. run E as u w1 E1. injection E as <- <-. by eapply write_stands. Qed.
Lemma yields_raise env w0 e w : yields env w0 (st_raise e) w.
Proof. done. Qed.
Lemma yields_ret env w0 s w : stands env w0 s w -> yields env w0 (mret s) w.
Proof. by intros H s' w' [= <- <-]. Qed.
Lemma yields_bind env w0 {A} (m : ST registry A) f w :
  (forall a w1, m w = (Ok a, w1) -> yields env w0 (f a) w1) -> yields env w0 (m ≫= f) w.
Proof. intros H s w' E. run E as a w1 E1. exact (H _ _ E1 _ _ E). Qed.
Lemma yields_kept env w0 {A} (m : ST registry A) f w : keeps m -> (forall a, m w = (Ok a, w) -> yields env w0 (f a) w) ->
  yields env w0 (m ≫= f) w.
Proof. intros Hm H. apply yields_bind. intros a w1 E. pose proof (Hm _ _ _ E) as ->. auto. Qed.
Lemma yields_locked env w0 m w : yields env w0 m w -> yields env w0 (_locked env m) w.
Proof. intros H. unfold _locked. by destruct (ce_lock env). Qed.
Lemma read_stands env e w s : has_read sha256_hex env e w s -> stands env w s w.
Proof. intros (_ & (d & Ed & Es) & _) _. exists d, s. auto. Qed.
Lemma yields_read_or_initialize env w : yields env w (read_or_initialize sha256_hex env) w.
Proof.
  intros s w' E. unfold read_or_initialize in E. destruct (rs_document w) as [d|] eqn:Ed.
  - pose proof (keeps_read _ _ _ _ _ E) as ->. apply read_ok in E as (d' & Ed' & Es). intros _. exists d', s. auto.
  - unfold _restore_or_initialize_missing_locked in E. run E as u w1 E1. injection E as <- <-. by eapply write_stands.
Qed.

Lemma keeps_if {A} (c : bool) (m m' : ST registry A) : keeps m -> keeps m' -> keeps (if c then m else m').
Proof. by destruct c. Qed.
Hint Resolve keeps_if : registry.

(** Walk to the commit, or to the return of what was read. *)
Ltac yield :=
  lazymatch goal with
  | |- yields _ _ (read_or_initialize _ _) _ => apply yields_read_or_initialize
  | |- yields _ _ (mbind _ _) _ =>
      first
      [ apply yields_kept; [solve [eauto with registry]|]
      | apply yields_bind ];
      intros; cbv beta zeta
  | |- yields _ _ (_locked _ _) _ => apply yields_locked
  | |- yields _ _ (commit _ _ _) _ => apply yields_commit
  | |- yields _ _ (st_raise _) _ => apply yields_raise
  | |- yields _ _ (mret _) _ => apply yields_ret
  | |- yields _ _ (match ?x with _ => _ end) _ => destruct x
  | H : begin_update _ _ _ _ = (Ok ?s, _) |- stands _ _ ?s _ => exact (read_stands _ _ _ _ (begin_ok _ _ _ _ _ _ H))
  | H : read_or_initialize _ _ _ = (Ok ?s, ?w) |- stands _ _ ?s ?w => exact (yields_read_or_initialize _ _ _ _ H)
  end.

Lemma call_yields env c w : yields env w (run_call sha256_hex env c) w.
Proof.
  destruct c; cbn [run_call]; unfold load, register, set_instance_default, update_registration, remember_registration,
    remove_registration, commit_state, set_dimension_state, remove_dimension_state, set_binding_effect_lease_state,
    set_extension_state, advance_foreground_ownership_floor, advance_mvr06_runtime_floor,
    compensate_mvr06_runtime_floor, install_background_intent, install_settings_rebind_dormant,
    set_settings_rebind_state, complete_settings_rebind_reload, commit_settings_rebind_selection,
    require_authoritative_activation; repeat yield.
  unfold commit_state. repeat yield.
Qed.

End Back.

(** ** What a load returns is canonical *)

Lemma get_plain d k : yaml_norm_dict d = d -> yaml_norm (get d k) = get d k.
Proof. intros E. by rewrite <- get_yaml, E. Qed.
Lemma plain_cons k v d : yaml_norm_dict ((k, v) :: d) = (k, v) :: d -> yaml_norm v = v /\ yaml_norm_dict d = d.
Proof. by intros [= E1 E2]. Qed.
Lemma plain_mapping v msg d : mapping_or_empty v msg = Ok d -> yaml_norm v = v -> yaml_norm_dict d = d.
Proof.
  unfold mapping_or_empty, py_or. intros H E. destruct (truthy v); [destruct v; simplify_eq|by simplify_eq].
  by injection E.
Qed.

Section Canonical.
Context (sha256_hex : string -> string) (root : string -> option FilesystemRootIdentity).

Lemma registration_canonical k raw r : yaml_norm_dict raw = raw -> _registration_from_frontmatter k raw = Ok r ->
  registration_ok k r.
Proof.
  intros Hp H. unfold _registration_from_frontmatter in H.
  destruct (_optional_str (get raw "ref")) as [ref|] eqn:E1; [|done].
  destruct (_optional_str (get raw "path")) as [path|] eqn:E2; [|done]. injection H as <-.
  apply optional_is_text in E1, E2. unfold registration_ok, beside. simpl.
  eauto 12 using optional_is_opt, without_idem, without_plain.
Qed.
Lemma tombstone_canonical k raw t : _tombstone_from_frontmatter k raw = Ok t -> tombstone_ok k t.
Proof.
  unfold _tombstone_from_frontmatter. intros H. destruct (_optional_str (get raw "ref")) as [ref|] eqn:E1; [|done].
  destruct (_optional_str (get raw "path")) as [path|] eqn:E2; [|done]. destruct (as_int _); [|done].
  bound H as u Eu. injection H as <-. apply optional_is_text in E1, E2. unfold tombstone_ok. simpl.
  eauto 12 using optional_is_opt.
Qed.
Lemma lineage_canonical raw l : _transfer_lineage_from_frontmatter raw = Ok l -> lineage_ok l.
Proof.
  unfold _transfer_lineage_from_frontmatter. destruct raw; try done. intros H.
  destruct (_optional_str (get d "sourceBindingId")) eqn:E1, (_optional_str (get d "destinationBindingId")) eqn:E2; try done.
  destruct (_optional_str (get d "sourceChannelId")) eqn:E3, (_optional_str (get d "destinationChannelId")) eqn:E4,
    (_optional_str (get d "ownershipTransferId")) eqn:E5, (as_int (get d "sourceRegistryRevision")),
    (as_int (get d "destinationRegistryRevision")); try done.
  injection H as <-. apply optional_is_text in E1, E2, E3, E4, E5. unfold lineage_ok. simpl.
  eauto 12 using optional_is_opt.
Qed.
Lemma read_registrations_canonical raw acc l : yaml_norm_dict raw = raw -> keyed registration_ok acc ->
  read_registrations root raw acc = Ok l -> keyed registration_ok l.
Proof.
  revert acc. induction raw as [|[k v] raw IH]; intros acc Hp Ha; simpl; [by intros [= ->]|].
  apply plain_cons in Hp as [Hv Hp]. destruct v; try done. injection Hv as Hv. intros H.
  bound H as r Er. bound H as u1 E1. bound H as u2 E2. apply (registration_canonical _ _ _ Hv) in Er.
  refine (IH _ Hp _ H). destruct (proj1 Er). by apply keyed_set.
Qed.
Lemma read_tombstones_canonical raw acc l : keyed tombstone_ok acc ->
  read_tombstones raw acc = Ok l -> keyed tombstone_ok l.
Proof.
  revert acc. induction raw as [|[k v] raw IH]; intros acc Ha; simpl; [by intros [= ->]|].
  destruct v; try done. intros H. bound H as t Et. apply tombstone_canonical in Et.
  refine (IH _ _ H). by apply keyed_set.
Qed.
Lemma read_lineage_canonical raw l : mapM_res _transfer_lineage_from_frontmatter raw = Ok l -> Forall lineage_ok l.
Proof.
  revert l. induction raw as [|x raw IH]; intros l; cbn [mapM_res]; [by intros [= <-]|].
  intros H. bound H as y Ey. bound H as ys Eys. injection H as <-. constructor; [by eapply lineage_canonical|auto].
Qed.
Lemma keyed_nil {A} (ok : string -> A -> Prop) : keyed ok [].
Proof. split; constructor. Qed.
Lemma beside_set fields d k v : beside fields d -> existsb (String.eqb k) fields = false -> yaml_norm v = v -> beside fields (dict_set d k v).
Proof.
  intros [H1 H2] Hk Hv. split; [|by rewrite yaml_set, H2, Hv]. clear Hv. clear H2. revert H1. induction d as [|[j w] d IH]; simpl.
  { by rewrite Hk. }
  intros H. destruct (existsb (String.eqb j) fields) eqn:E; simpl in H.
  { exfalso. assert (L : (length (without fields d) <= length d)%nat).
    { clear. induction d as [|[i x] d IH]; simpl; [done|]. destruct (negb _); simpl; lia. }
    rewrite H in L. simpl in L. lia. }
  injection H as H. destruct (String.eqb_spec k j) as [<-|]; simpl; [by rewrite Hk; simpl; rewrite H|].
  rewrite E. simpl. by rewrite IH.
Qed.
Lemma default_canonical fm regs ext o p ext' : beside _REGISTRY_FIELDS ext ->
  _read_default_from_frontmatter fm regs ext = Ok (o, p, ext') ->
  beside _REGISTRY_FIELDS ext' /\ opt_text o /\ opt_text p /\ (is_Some o <-> is_Some p).
Proof.
  unfold _read_default_from_frontmatter. intros Hx H.
  pose proof (optional_is_opt (get fm "defaultVaultBindingId")) as Ho.
  pose proof (optional_is_opt (get fm "defaultVaultProvenance")) as Hp.
  destruct (_optional_str (get fm "defaultVaultBindingId")) as [b|], (_optional_str (get fm "defaultVaultProvenance")) as [q|].
  - bound H as u Eu. simplify_eq. split; [done|]. repeat split; [apply Ho|apply Ho|apply Hp|apply Hp|eauto..].
  - destruct (dict_mem regs b); simplify_eq.
    + split; [done|]. split; [done|]. split; [by split|]. split; eauto.
    + split; [by apply beside_set|]. repeat split; by intros [? ?].
  - bound H as u Eu. done.
  - bound H as u Eu. simplify_eq. split; [done|]. repeat split; by intros [? ?].
Qed.

Lemma parse_canonical d s : yaml_norm_dict d = d -> _snapshot_from_frontmatter sha256_hex root d = Ok s -> canonical s.
Proof.
  unfold _snapshot_from_frontmatter. intros Hp H. bound H as u1 E1. bound H as u2 E2.
  destruct (_optional_str (get d "schema")) as [schema|] eqn:Es; [|done].
  destruct (_optional_str (get d "authority")) as [authority|] eqn:Ea; [|done].
  destruct (as_int _) as [rev|] eqn:Erev; [|done]. bound H as u3 E3. bound H as raw Eraw. bound H as regs Eregs.
  bound H as rawt Et. bound H as tomb Etomb. destruct (py_or (get d "transferLineage") _); try done.
  bound H as lin Elin. destruct (_optional_str (get d "appInstallId")) as [app|] eqn:Ei; [|done].
  bound H as u4 E4. bound H as u5 E5. bound H as reb Ereb. bound H as floors Ef. bound H as u6 E6. bound H as u7 E7.
  bound H as [[o p] ext] Ed. injection H as <-.
  apply optional_is_text in Es, Ea, Ei. apply default_canonical in Ed as (Hx & Hd);
    [|split; [apply without_idem|by apply without_plain]].
  constructor; simpl; try done.
  - apply optional_is_opt.
  - refine (read_registrations_canonical _ _ _ _ (keyed_nil _) Eregs). refine (plain_mapping _ _ _ Eraw _). by apply get_plain.
  - exact (read_tombstones_canonical _ _ _ (keyed_nil _) Etomb).
  - by eapply read_lineage_canonical.
  - pose proof (get_plain d "settingsRebind" Hp) as Hg. destruct (get d "settingsRebind"); try done.
    + by injection Ereb as <-.
    + injection Ereb as <-. by injection Hg.
Qed.
End Canonical.

(** A load of a document that YAML can hold returns a canonical snapshot. *)
Lemma load_canonical sha256_hex env w d s w' : rs_document w = Some d -> yaml_norm_dict d = d ->
  load sha256_hex env w = (Ok s, w') -> canonical s.
Proof.
  intros Ed Hp E. unfold load, _locked in E. destruct (ce_lock env); [done|]. unfold read_or_initialize in E. rewrite Ed in E.
  apply read_ok in E as (d' & Ed' & Es). simplify_eq. by eapply parse_canonical.
Qed.

(** ** A run *)

Module RegistryRun.
Definition sha (x : string) : string := "d".
Definition env : call_env := mkEnv true None (fun p => Some (mkRoot p None None)) Written Written "u1".
Definition first_vault : VaultRegistration :=
  mkRegistration "b1" "home" "/home/vault" (Some "v1") None (Some "Home") None [("contentEpoch", PInt 2)].
Definition opened_first := Eval vm_compute in
  run_call sha env (CallRegister first_vault (Some 0) (Some DEFAULT_PROVENANCE_FIRST_OPEN_EXISTING)) (mkRegistryState None false).
Definition recorded : RegistrySnapshot := Eval vm_compute in
  match fst opened_first with Ok s => s | Raise _ => _empty_snapshot "u1" end.
Lemma recorded_canonical : canonical recorded.
Proof.
  refine (load_canonical sha env (snd opened_first) _ recorded (snd opened_first) _ _ _);
    vm_compute; reflexivity.
Qed.
End RegistryRun.
