(* ===== verification/RebindProps.v ===== *)
(** * The settings rebind record only advances

    The durable record of a settings rebind inside the registry: what is read
    back from its payload, and that no call of the store takes its revisions
    back or changes it at equal revisions, except for the two changes the code
    allows there (the reload is recorded; a completed watcher is retired). *)
From S2P Require Import Prelude PyValue Sql SettingsRebind VaultRegistry DimensionState RegistryStore RegistryProps RegistryRoundtrip.
Open Scope Z_scope.

(** ** Records *)

Definition id_ok (o : option string) : Prop := match o with Some s => String.eqb (strip s) "" || negb (String.eqb s (strip s)) = false | None => True end.
Definition revision_ok (limit : Z) (o : option Z) : Prop := match o with Some x => 0 <= x <= limit | None => True end.
Record rebind_ok (r : SettingsRebindRecord) : Prop := mkRebindOk {
  ro_schema : sb_schema_revision r = SETTINGS_REBIND_SCHEMA_REVISION;
  ro_order : 0 <= sb_applied_revision r <= sb_desired_revision r;
  ro_posture : dict_get _PHASE_POSTURES (sb_phase r) = Some (sb_lifecycle_posture r);
  ro_prepared : sb_phase r = "prepared" -> sb_applied_revision r < sb_desired_revision r;
  ro_completed : existsb (String.eqb (sb_phase r)) ["committed"; "no_lifecycle"; "cancelled"] = true ->
    sb_desired_revision r = sb_applied_revision r;
  ro_bindings : id_ok (sb_prior_binding_id r) /\ id_ok (sb_candidate_binding_id r);
  ro_revisions : revision_ok (sb_applied_revision r) (sb_reload_revision r)
    /\ revision_ok (sb_desired_revision r) (sb_scalar_drain_revision r) }.

(** The record as a payload of today says it: a revision that was left out is zero. *)
Definition fill (r : SettingsRebindRecord) : SettingsRebindRecord :=
  mkRebind (sb_schema_revision r) (sb_desired_revision r) (sb_applied_revision r) (sb_phase r)
    (sb_lifecycle_posture r) (sb_prior_binding_id r) (sb_candidate_binding_id r)
    (Some (default 0 (sb_reload_revision r))) (Some (default 0 (sb_scalar_drain_revision r))).

Lemma revision_value v z : _revision v = Ok z -> v = PInt z /\ 0 <= z.
Proof. unfold _revision. destruct v; try done. destruct (Z.ltb_spec z0 0); [done|]. by intros [= ->]. Qed.
Lemma binding_value v o : _binding_id v = Ok o -> v = str_or_none o /\ id_ok o.
Proof.
  unfold _binding_id. destruct v; try done; [by intros [= <-]|]. destruct (_ || _) eqn:E; [done|]. by intros [= <-].
Qed.
Lemma optional_revision_ok d k limit msg o : optional_revision d k limit msg = Ok o ->
  revision_ok limit o /\ (dict_mem d k = true -> exists z, o = Some z /\ get d k = PInt z).
Proof.
  unfold optional_revision. destruct (dict_mem d k); [|by intros [= <-]].
  intros H. bound H as z E. bound H as u Eu. injection H as <-. apply revision_value in E as [E Hz].
  apply raise_if_ok, Z.ltb_ge in Eu. split; [simpl; lia|eauto].
Qed.

Section Records.
Context (sha256_hex : string -> string).

(** What a payload that is read says. *)
Lemma rebind_payload_says v r : rebind_from_payload sha256_hex v = Ok r -> exists d, v = PDict d /\ rebind_ok r
  /\ dict_mem d "schemaRevision" = true
  /\ get d "schemaRevision" = PInt (sb_schema_revision r) /\ get d "desiredRevision" = PInt (sb_desired_revision r)
  /\ get d "appliedRevision" = PInt (sb_applied_revision r) /\ get d "phase" = PStr (sb_phase r)
  /\ get d "lifecyclePosture" = PStr (sb_lifecycle_posture r)
  /\ get d "priorBindingId" = str_or_none (sb_prior_binding_id r)
  /\ get d "candidateBindingId" = str_or_none (sb_candidate_binding_id r)
  /\ (dict_mem d "reloadRevision" = true -> exists z, sb_reload_revision r = Some z /\ get d "reloadRevision" = PInt z)
  /\ (dict_mem d "scalarDrainRevision" = true ->
        exists z, sb_scalar_drain_revision r = Some z /\ get d "scalarDrainRevision" = PInt z).
Proof.
  unfold rebind_from_payload. destruct v as [| | | | | | |d]; try done. intros H.
  bound H as u1 E1. bound H as u2 E2. bound H as sr Esr. bound H as u3 E3. bound H as de Ede. bound H as ap Eap.
  bound H as u4 E4. destruct (get d "phase") as [| | | |phase| | |] eqn:Eph; try done.
  destruct (dict_get _PHASE_POSTURES phase) as [posture|] eqn:Epo; [|done].
  bound H as u5 E5. bound H as u6 E6. bound H as u7 E7. bound H as u8 E8. bound H as prior Ep. bound H as cand Ec.
  bound H as reload Er. bound H as drain Edr. destruct (get d "checksum"); try done. bound H as u9 E9. injection H as <-.
  apply revision_value in Esr as [Hsr _], Ede as [Hde _], Eap as [Hap Hap0].
  apply binding_value in Ep as [Hp Hpo], Ec as [Hc Hco]. apply optional_revision_ok in Er as [Hr1 Hr2], Edr as [Hd1 Hd2].
  apply raise_if_ok in E3, E4, E5, E7, E8. apply Z.ltb_ge in E4. apply negb_false_iff, Z.eqb_eq in E3.
  exists d. split; [done|]. split; [constructor; simpl; try done; try lia|].
  - intros ->. simpl in E7. apply negb_false_iff, Z.ltb_lt in E7. lia.
  - intros Hx. change (existsb (String.eqb phase) ["committed"; "no_lifecycle"; "cancelled"] = true) in Hx. rewrite Hx in E8. simpl in E8. by apply negb_false_iff, Z.eqb_eq in E8.
  - assert (Hl : get d "lifecyclePosture" = PStr posture).
    { apply negb_false_iff in E5. destruct (get d "lifecyclePosture"); try done. by apply String.eqb_eq in E5 as ->. }
    split; [|by repeat (split; [done|])]. unfold dict_mem, get in *. by destruct (dict_get d "schemaRevision").
Qed.

(** A record written and read again. *)
Lemma rebind_reads_back r r' : rebind_from_payload sha256_hex (PDict (rebind_as_payload sha256_hex r)) = Ok r' -> r' = fill r.
Proof.
  intros (d & [= <-] & Hok & _ & H1 & H2 & H3 & H4 & Hl & H5 & H6 & H7 & H8)%rebind_payload_says.
  destruct (H7 eq_refl) as (z & Hz & Ez), (H8 eq_refl) as (y & Hy & Ey).
  destruct r' as [a1 a2 a3 a4 a5 a6 a7 a8 a9]. unfold fill. cbn in *. subst.
  assert (Hinj : forall o o', str_or_none o = str_or_none o' -> o = o') by (intros [] []; simpl; congruence).
  f_equal; try congruence; by apply Hinj.
Qed.
Lemma payload_plain r : yaml_norm (PDict (rebind_as_payload sha256_hex r)) = PDict (rebind_as_payload sha256_hex r).
Proof. cbn. by rewrite !yaml_str. Qed.
End Records.

(** ** Advances *)

(** What a write may do to the record. *)
Definition advance (r r' : SettingsRebindRecord) : Prop :=
  sb_desired_revision r <= sb_desired_revision r' /\ sb_applied_revision r <= sb_applied_revision r'
  /\ (sb_desired_revision r' = sb_desired_revision r -> sb_applied_revision r' = sb_applied_revision r ->
       fill r' = fill r \/ fill r' = fill (with_reload (Some (sb_desired_revision r)) r)
       \/ sb_phase r = "committed" /\ sb_reload_revision r = Some (sb_desired_revision r)
          /\ fill r' = fill (with_phase_posture (sb_applied_revision r) "no_lifecycle" "no_lifecycle" r)).
Lemma advance_refl r : advance r r.
Proof. split; [lia|]. split; [lia|]. by left. Qed.
Lemma advance_fill r r' : advance r r' -> advance r (fill r').
Proof. done. Qed.

(** The exception for a cancelled preparation never applies: a prepared record
    has a revision left to apply, so a request with the same revisions does not
    name the desired one as applied. *)
Lemma cancellation_dead requested existing : rebind_ok existing ->
  sb_applied_revision requested = sb_applied_revision existing -> cancelled_precommit requested existing = false.
Proof.
  intros Hok Ha. unfold cancelled_precommit. destruct (String.eqb_spec (sb_phase existing) "prepared") as [Hp|]; [|done].
  apply (ro_prepared _ Hok) in Hp. destruct (Z.eqb_spec (sb_applied_revision requested) (sb_desired_revision existing)); [lia|].
  by rewrite !andb_false_r.
Qed.

Ltac simplify_record :=
  repeat match goal with H : @eq SettingsRebindRecord _ _ |- _ => injection H; clear H; intros end; simplify_eq.
Lemma accepted_advances requested existing : rebind_ok existing ->
  (sb_desired_revision requested <? sb_desired_revision existing)
    || (sb_applied_revision requested <? sb_applied_revision existing) = false ->
  (sb_desired_revision requested =? sb_desired_revision existing)
    && (sb_applied_revision requested =? sb_applied_revision existing)
    && negb (bool_decide (requested = existing)) && negb (reload_only_advance requested existing)
    && negb (completed_watcher_retirement requested existing) && negb (cancelled_precommit requested existing) = false ->
  advance existing requested.
Proof.
  intros Hok H1 H2. apply orb_false_iff in H1 as [Hd%Z.ltb_ge Ha%Z.ltb_ge]. split; [done|]. split; [done|].
  intros Ed Ea. rewrite (cancellation_dead _ _ Hok Ea), Ed, Ea, !Z.eqb_refl in H2. cbn [andb negb] in H2.
  destruct (bool_decide_reflect (requested = existing)) as [->|_]; [by left|]. right. cbn [negb andb] in H2.
  destruct (reload_only_advance requested existing) eqn:Er.
  - left. unfold reload_only_advance in Er. bool_prop. destruct requested, existing; unfold with_reload, fill in *; cbn in *.
    simplify_record. done.
  - right. cbn [negb andb] in H2. destruct (completed_watcher_retirement requested existing) eqn:Ec; [|done].
    unfold completed_watcher_retirement in Ec. bool_prop. destruct requested, existing; unfold with_phase_posture, fill in *; cbn in *.
    simplify_record. done.
Qed.

(** ** Calls *)

Section Calls.
Context (sha256_hex : string -> string).

(** The registry holds this record, in a document that YAML can hold. *)
Definition records (w : registry) (r : SettingsRebindRecord) : Prop :=
  exists d, rs_document w = Some d /\ yaml_norm_dict d = d /\ rebind_from_payload sha256_hex (get d "settingsRebind") = Ok r.

Lemma read_default_floors fm regs ext o p ext' : _read_default_from_frontmatter fm regs ext = Ok (o, p, ext') ->
  get ext' "runtimeFloors" = get ext "runtimeFloors".
Proof.
  unfold _read_default_from_frontmatter. intros H. destruct (_optional_str (get fm "defaultVaultBindingId")) as [b|].
  - destruct (_optional_str (get fm "defaultVaultProvenance")).
    + bound H as u Eu. by injection H as _ _ <-.
    + destruct (dict_mem regs b); injection H as _ _ <-; [done|]. by rewrite get_set.
  - bound H as u Eu. by injection H as _ _ <-.
Qed.
Lemma parse_rebind root d s : _snapshot_from_frontmatter sha256_hex root d = Ok s ->
  rebind_value s = get d "settingsRebind"
  /\ forall p, get d "settingsRebind" = PDict p -> dict_mem p "schemaRevision" = true ->
     exists r floors, rebind_from_payload sha256_hex (PDict p) = Ok r
       /\ mapping_or_empty (get (rg_extensions s) "runtimeFloors") "runtime floors are invalid" = Ok floors
       /\ is_Some (_optional_str (get floors MINIMUM_SETTINGS_REBIND_RUNTIME_KEY)).
Proof.
  unfold _snapshot_from_frontmatter. intros H. bound H as u1 E1. bound H as u2 E2.
  destruct (as_int _) as [rev|] eqn:Erev; [|done]. bound H as u3 E3. bound H as raw Eraw. bound H as regs Eregs.
  bound H as rawt Et. bound H as tomb Etomb. destruct (py_or (get d "transferLineage") _); try done.
  bound H as lin Elin. destruct (_optional_str (get d "appInstallId")); [|done]. bound H as u4 E4. bound H as u5 E5.
  bound H as reb Ereb. bound H as floors Ef. bound H as u6 E6. bound H as u7 E7.
  bound H as [[o p] ext] Ed. injection H as <-. apply read_default_floors in Ed. split.
  - unfold rebind_value. simpl. by destruct (get d "settingsRebind"); simplify_eq.
  - intros p' Hp Hm. rewrite Hp in Ereb. injection Ereb as <-. unfold check_settings_rebind in E7.
    destruct (_optional_str (get floors MINIMUM_SETTINGS_REBIND_RUNTIME_KEY)) eqn:Efl.
    + bound E7 as v1 F1. bound E7 as v2 F2. bound E7 as r F3. exists r, floors. simpl. rewrite Ed, Efl. eauto.
    + rewrite Hm in E7. bound E7 as r F. done.
Qed.

Context (w : registry) (r : SettingsRebindRecord) (Hw : records w r).

(** What the call leaves behind. *)
Definition advanced (w' : registry) : Prop := exists r', records w' r' /\ advance r r'.
Definition safe {A} (m : ST registry A) : Prop := only false m w advanced.

Lemma frontmatter_rebind s : get (_frontmatter_from_snapshot s) "settingsRebind" = rebind_value s.
Proof. frontmatter_field. Qed.
Lemma read_record env e s : has_read sha256_hex env e w s -> rebind_from_payload sha256_hex (rebind_value s) = Ok r.
Proof.
  intros (_ & (d & Ed & Es) & _). destruct Hw as (d' & Ed' & _ & Er). simplify_eq.
  by rewrite (proj1 (parse_rebind _ _ _ Es)).
Qed.
(** A write leaves a record that is read back, when the value written is plain. *)
Lemma written_record env s p : _snapshot_payload sha256_hex env s = Ok p -> yaml_norm (rebind_value s) = rebind_value s ->
  yaml_norm_dict p = p /\ get p "settingsRebind" = rebind_value s
  /\ forall q, rebind_value s = PDict q -> dict_mem q "schemaRevision" = true ->
     exists r', rebind_from_payload sha256_hex (PDict q) = Ok r'.
Proof.
  unfold _snapshot_payload. intros H Hp. bound H as s' Es. injection H as <-. split; [|split].
  - unfold yaml_norm_dict. rewrite map_map. apply map_ext. intros [k v]. simpl. by rewrite yaml_norm_idem.
  - by rewrite get_yaml, frontmatter_rebind.
  - intros q Hq Hm. destruct (proj2 (parse_rebind _ _ _ Es) q) as (r' & _ & Hr & _); [|done|eauto].
    by rewrite frontmatter_rebind.
Qed.
Lemma safe_commit_kept env s s' : rebind_from_payload sha256_hex (rebind_value s) = Ok r ->
  yaml_norm (rebind_value s) = rebind_value s -> rg_settings_rebind s' = rg_settings_rebind s ->
  safe (commit sha256_hex env s').
Proof.
  intros Hr Hn Hs. apply only_lax, only_commit. intros p Ep. exists r. split; [|apply advance_refl].
  assert (Hv : rebind_value s' = rebind_value s) by (unfold rebind_value; by rewrite Hs).
  apply written_record in Ep as (Hp & Hg & _); [|by rewrite Hv]. exists p. by rewrite Hg, Hv.
Qed.
Lemma safe_commit_new env s' r' : rg_settings_rebind s' = Some (rebind_as_payload sha256_hex r') -> advance r r' ->
  safe (commit sha256_hex env s').
Proof.
  intros Hs Ha. apply only_lax, only_commit. intros p Ep.
  assert (Hv : rebind_value s' = PDict (rebind_as_payload sha256_hex r')) by (unfold rebind_value; by rewrite Hs).
  apply written_record in Ep as (Hp & Hg & Hr); [|rewrite Hv; apply payload_plain].
  destruct (Hr _ Hv eq_refl) as [r1 E1]. pose proof (rebind_reads_back _ _ _ E1) as ->.
  exists (fill r'). split; [|by apply advance_fill]. exists p. by rewrite Hg, Hv.
Qed.
Lemma read_plain env e s : has_read sha256_hex env e w s -> yaml_norm (rebind_value s) = rebind_value s.
Proof.
  intros (_ & (d & Ed & Es) & _). destruct Hw as (d' & Ed' & Hp & _). simplify_eq.
  rewrite (proj1 (parse_rebind _ _ _ Es)). by apply get_plain.
Qed.
Lemma safe_kept env e s s' : has_read sha256_hex env e w s -> rg_settings_rebind s' = rg_settings_rebind s ->
  safe (commit sha256_hex env s').
Proof. intros Hs. apply safe_commit_kept; [by eapply read_record|by eapply read_plain]. Qed.

Lemma with_registrations_rebind s l s' : _with_registrations s l = Ok s' -> rg_settings_rebind s' = rg_settings_rebind s.
Proof. unfold _with_registrations. intros H. bound H as x E. by injection H as <-. Qed.
Lemma retire_rebind s b l u u' : retire s b l u = Ok u' -> rg_settings_rebind u' = rg_settings_rebind u.
Proof.
  unfold retire. intros H. bound H as x E. bound H as y F. destruct (dict_get _ b); [|done]. bound H as z G.
  bound H as t I. by injection H as <-.
Qed.
Lemma settle_rebind s b rp cd u u' : settle_default s b rp cd u = Ok u' -> rg_settings_rebind u' = rg_settings_rebind u.
Proof.
  unfold settle_default. destruct rp; [intros H; bound H as x E; bound H as y F; by injection H as <-|].
  destruct (bool_decide _); intros H; bound H as x E; by injection H as <-.
Qed.
(** The registry is there, so nothing is initialized. *)
Lemma safe_read_or_initialize {A} env (f : RegistrySnapshot -> ST registry A) :
  (forall s, (exists d, rs_document w = Some d /\ _snapshot_from_frontmatter sha256_hex (ce_root env) d = Ok s) -> safe (f s)) ->
  safe (read_or_initialize sha256_hex env ≫= f).
Proof.
  intros H x w' E. destruct Hw as (d & Ed & _).
  assert (Er : read_or_initialize sha256_hex env w = _read_current_locked sha256_hex env w)
    by (unfold read_or_initialize; by rewrite Ed).
  apply st_bind_cases in E as [(s & w1 & E1 & E)|(e & E & ->)]; rewrite Er in *.
  - pose proof (keeps_read _ _ _ _ _ E1) as ->. apply read_ok in E1. exact (H s E1 _ _ E).
  - left. split; [by apply keeps_read in E|done].
Qed.
Lemma kept_from env0 env s s' : (exists d, rs_document w = Some d /\ _snapshot_from_frontmatter sha256_hex (ce_root env0) d = Ok s) ->
  rg_settings_rebind s' = rg_settings_rebind s -> safe (commit sha256_hex env s').
Proof.
  intros (d & Ed & Es) Hs. destruct Hw as (d' & Ed' & Hp & Er). simplify_eq.
  pose proof (proj1 (parse_rebind _ _ _ Es)) as Hv. eapply safe_commit_kept; [by rewrite Hv|rewrite Hv; by apply get_plain|done].
Qed.

Lemma safe_load {A} env (f : RegistrySnapshot -> ST registry A) : (forall s, safe (f s)) -> safe (load sha256_hex env ≫= f).
Proof.
  intros H. unfold load, _locked. destruct (ce_lock env); [apply only_raise|]. apply safe_read_or_initialize. auto.
Qed.
Lemma safe_read_alone env : safe (read_or_initialize sha256_hex env).
Proof.
  intros x w' E. unfold read_or_initialize in E. destruct Hw as (d & Ed & _). rewrite Ed in E.
  left. split; [by apply keeps_read in E|done].
Qed.
Lemma only_ret_bind {A B} strict (a : A) (f : A -> ST registry B) R : only strict (f a) w R -> only strict (mret a ≫= f) w R.
Proof. done. Qed.
Lemma only_assoc {A B C} strict (m : ST registry A) (f : A -> ST registry B) (g : B -> ST registry C) R :
  only strict (m ≫= fun a => f a ≫= g) w R -> only strict ((m ≫= f) ≫= g) w R.
Proof.
  intros H x w' E. apply H. rewrite <- E. unfold mbind, ST_bind. by destruct (m w) as [[a|e] w1].
Qed.

(** Walk to the write. *)
Ltac walk := repeat
  lazymatch goal with
  | |- safe _ => unfold safe
  | |- only _ (read_or_initialize _ _) _ _ => apply safe_read_alone
  | |- only _ (mbind _ (load _ _)) _ _ => apply safe_load; intros
  | |- only _ (commit_state _ _ _ _ _ _ _) _ _ => unfold commit_state
  | |- only _ (mbind _ (mret _)) _ _ => apply only_ret_bind
  | |- only _ (mbind _ (mbind _ _)) _ _ => apply only_assoc
  | |- only _ (mbind _ (read_or_initialize _ _)) _ _ => apply safe_read_or_initialize; intros
  | |- only _ (mbind _ (match ?x with _ => _ end)) _ _ => destruct x
  | |- only _ (mbind _ _) _ _ => track
  | |- only _ (_locked _ _) _ _ => track
  | |- only _ (mret _) _ _ => track
  | |- only _ (st_raise _) _ _ => track
  | |- only _ (match ?x with _ => _ end) _ _ => destruct x
  | H : has_read _ _ _ _ ?s |- only _ (commit _ _ _) _ _ => eapply safe_kept; [exact H|]; cbn [with_default with_bindings with_revision with_extensions with_history with_last_active with_schema with_authority rg_settings_rebind]
  | H : exists d, _ |- only _ (commit _ _ _) _ _ => eapply kept_from; [exact H|]; cbn [with_default with_bindings with_revision with_extensions with_history with_last_active with_schema with_authority rg_settings_rebind]
  end.

Ltac kept :=
  repeat match goal with
  | H : _with_registrations _ _ = Ok _ |- _ => apply with_registrations_rebind in H
  | H : retire _ _ _ _ = Ok _ |- _ => apply retire_rebind in H
  | H : settle_default _ _ _ _ _ = Ok _ |- _ => apply settle_rebind in H; cbn in H
  end; congruence.

Lemma other_calls_safe env c :
  match c with
  | CallInstallRebind _ | CallRebindState _ _ | CallReload _ _ | CallSelection _ _ _ _ => True
  | _ => safe (run_call sha256_hex env c)
  end.
Proof.
  unfold safe. destruct c; cbn [run_call]; try exact I; unfold load, register, set_instance_default,
    update_registration, remember_registration, remove_registration, commit_state, set_dimension_state,
    remove_dimension_state, set_binding_effect_lease_state, set_extension_state, advance_foreground_ownership_floor,
    advance_mvr06_runtime_floor, compensate_mvr06_runtime_floor, install_background_intent,
    require_authoritative_activation; walk; kept.
Qed.
Lemma install_safe env b : safe (run_call sha256_hex env (CallInstallRebind b)).
Proof.
  unfold safe. simpl. unfold install_settings_rebind_dormant. do 3 track. apply safe_read_or_initialize. intros s (d & Ed & Es).
  unfold safe. track. destruct Hw as (d' & Ed' & Hp & Er). simplify_eq.
  destruct (rebind_payload_says _ _ _ Er) as (p & Hd & _ & Hm & _).
  destruct (proj2 (parse_rebind _ _ _ Es) p Hd Hm) as (r' & floors & _ & Hf & [fl Hfl]).
  assert (a1 = floors) as -> by congruence. rewrite Hfl. walk.
Qed.

Lemma state_safe env p e : safe (run_call sha256_hex env (CallRebindState p e)).
Proof.
  unfold safe. simpl. unfold set_settings_rebind_state. do 8 track.
  pose proof (read_record _ _ _ H1) as Hr. assert (a3 = r) as -> by congruence.
  destruct (rebind_payload_says _ _ _ Hr) as (q & _ & Hok & _).
  pose proof (accepted_advances _ _ Hok H4 H5). case_bool_decide; [track|]. do 3 track.
  eapply safe_commit_new; [reflexivity|done].
Qed.

Lemma record_value (s : RegistrySnapshot) d : rg_settings_rebind s = Some d -> PDict d = rebind_value s.
Proof. unfold rebind_value. by intros ->. Qed.
Lemma reload_safe env n x : safe (run_call sha256_hex env (CallReload n x)).
Proof.
  unfold safe. simpl. unfold complete_settings_rebind_reload. do 3 track.
  destruct (rg_settings_rebind a0) as [d|] eqn:Es; [|track]. do 3 track. rewrite (record_value _ _ Es) in H1.
  rewrite (read_record _ _ _ H0) in H1. injection H1 as <-. apply negb_false_iff, Z.eqb_eq in H2 as <-.
  case_bool_decide; [track|]. do 3 track. eapply safe_commit_new; [reflexivity|].
  split; [simpl; lia|]. split; [simpl; lia|]. intros _ _. right. by left.
Qed.
Lemma selection_safe env f n s x : safe (run_call sha256_hex env (CallSelection f n s x)).
Proof.
  unfold safe. simpl. unfold commit_settings_rebind_selection. do 3 track.
  destruct (rg_settings_rebind a0) as [d|] eqn:Es; [|track]. do 4 track. rewrite (record_value _ _ Es) in H1.
  pose proof (read_record _ _ _ H0) as Hr. rewrite Hr in H1. injection H1 as <-.
  destruct (rebind_payload_says _ _ _ Hr) as (q & _ & Hok & _). pose proof (ro_order _ Hok) as Ho.
  eapply (safe_commit_new env _ (with_phase_posture (sb_desired_revision r)
    (if String.eqb (sb_phase r) "no_lifecycle" then "no_lifecycle" else "committed")
    (if String.eqb (sb_phase r) "no_lifecycle" then "no_lifecycle" else "watcher") r)); [by destruct x as [[]|]|].
  split; [simpl; lia|]. split; [simpl; lia|]. simpl. intros _ Ha.
  apply orb_false_iff in H2 as [Hph _]. apply negb_false_iff in Hph. cbn [existsb] in Hph.
  destruct (String.eqb_spec (sb_phase r) "prepared") as [Hp|_]; [apply (ro_prepared _ Hok) in Hp; lia|].
  destruct (String.eqb_spec (sb_phase r) "no_lifecycle") as [Hn|_]; [|done]. left.
  pose proof (ro_posture _ Hok) as Hpo. rewrite Hn in Hpo. destruct r; cbn in *. by simplify_eq.
Qed.
Lemma call_safe env c x w' : run_call sha256_hex env c w = (x, w') -> advanced w'.
Proof.
  intros E. assert (Hs : safe (run_call sha256_hex env c)).
  { pose proof (other_calls_safe env c) as Ho. destruct c; first [exact Ho | apply install_safe | apply state_safe | apply reload_safe | apply selection_safe]. }
  destruct (Hs _ _ E) as [[-> _]|]; [|done]. exists r. split; [done|apply advance_refl].
Qed.
End Calls.

(** ** Histories *)

Section Histories.
Context (sha256_hex : string -> string).

(** The registry after some calls, whatever they returned. *)
Fixpoint after_calls (calls : list (call_env * registry_call)) (w : registry) : registry :=
  match calls with
  | [] => w
  | (env, c) :: calls => after_calls calls (snd (run_call sha256_hex env c w))
  end.
Definition revisions_le (r r' : SettingsRebindRecord) : Prop :=
  sb_desired_revision r <= sb_desired_revision r' /\ sb_applied_revision r <= sb_applied_revision r'.

Lemma after_calls_records calls w r : records sha256_hex w r ->
  exists r', records sha256_hex (after_calls calls w) r' /\ revisions_le r r'.
Proof.
  revert w r. induction calls as [|[env c] calls IH]; intros w r Hw; simpl.
  { exists r. split; [done|]. split; lia. }
  destruct (run_call sha256_hex env c w) as [x w1] eqn:E. destruct (call_safe _ _ _ Hw _ _ _ _ E) as (r1 & H1 & Ha1 & Ha2 & _).
  destruct (IH _ _ H1) as (r2 & H2 & Hl1 & Hl2). exists r2. split; [done|]. split; lia.
Qed.

End Histories.

(** ** A run *)

Module RebindRun.
Definition sha (x : string) : string := "0123456789012345678901234567890123456789012345678901234567890123".
Definition env : call_env := mkEnv true None (fun p => Some (mkRoot p None None)) Written Written "u1".
Definition w0 : registry := Eval vm_compute in
  after_calls sha [(env, CallRegister (mkRegistration "b1" "home" "/home" None None None None []) None None);
                   (env, CallInstallRebind None)] (mkRegistryState None false).
Definition record (desired applied : Z) (phase : string) (reload : option Z) : SettingsRebindRecord :=
  mkRebind 1 desired applied phase "watcher" None (Some "b1") reload (Some 0).
Definition prepare : registry_call := CallRebindState (rebind_as_payload sha (record 1 0 "prepared" (Some 0))) None.
Definition choose : registry_call :=
  CallSelection (fun p => Ok p) 1 (Some (mkKnownVault "home" "/home" None None None None)) None.
Definition w2 : registry := Eval vm_compute in after_calls sha [(env, prepare); (env, choose)] w0.
Definition w3 : registry := Eval vm_compute in snd (run_call sha env (CallReload 1 (Ok tt)) w2).
Lemma w0_records : records sha w0 (rebind_dormant None).
Proof. eexists. split; [reflexivity|]. split; vm_compute; reflexivity. Qed.
End RebindRun.
