(* ===== verification/RegistryFiles.v ===== *)
(** * The files of the vault registry

    src/app/instance/vault_registry.py below the registry operations: the text
    of a registry document, the five files of a generation (the registry, its
    last good copy with its checksum, the legacy export, the scalar rollback
    session), the journal of a write and its recovery.

    A program is a [tx]: every step on the disk takes the next entry of a
    schedule, which lets the step happen, makes it raise, or kills the process
    there ([Dead]: no handler runs).  An empty schedule lets everything happen.
    Replacing a file is a step of its own between the writing of the temporary
    file and the chmod and fsync behind it.  Checks of owner and mode are steps
    that may raise.

    Files are byte strings; the journal is kept as the document it holds.  YAML
    is a parameter: [safe_dump] gives a text, [safe_load] the value read back
    ([None] is a YAMLError).  [json_loads] reads the session file ([None] is a
    JSONDecodeError). *)
From Stdlib Require Import Ascii.
From S2P Require Import Prelude PyValue Sql SettingsRebind VaultRegistry DimensionState RegistryStore.
Open Scope Z_scope.

Definition RegistryParseError (msg : string) : exn := RegistryException ParseErr msg.
Definition _TRANSACTION_SCHEMA : string := "agentic-pkm.instance-vault-registry-transaction.v1".

(** ** Text *)

Definition nl : string := String "010" EmptyString.

(** [s[n:]]. *)
Fixpoint str_drop (n : nat) (s : string) : string :=
  match n, s with
  | S n, String _ s => str_drop n s
  | _, s => s
  end.
(** [s.split(sep, 1)]: what is before and after the first [sep]. *)
Fixpoint cut (sep s : string) : option (string * string) :=
  if startswith sep s then Some ("", str_drop (String.length sep) s) else
  match s with
  | EmptyString => None
  | String c s => '(a, b) ← cut sep s; Some (String c a, b)
  end.

(** [text.splitlines()], for the first characters of each line: every break
    ends a line, so that a CR LF also gives an empty one. *)
Definition line_break (c : ascii) : bool :=
  existsb (fun n => N.eqb (code c) n) [10; 13; 11; 12; 28; 29; 30]%N.
Definition wide_breaks : list string :=
  [String "194" (String "133" EmptyString); String "226" (String "128" (String "168" EmptyString));
   String "226" (String "128" (String "169" EmptyString))].
Fixpoint after_breaks (s : string) : list string :=
  match s with
  | EmptyString => []
  | String c rest =>
      (if line_break c then [rest] else [])
      ++ map (fun w => str_drop (String.length w) s)
           (List.filter (fun w => startswith w s) wide_breaks)
      ++ after_breaks rest
  end.
(** The text from each line on. *)
Definition line_starts (s : string) : list string := s :: after_breaks s.
Fixpoint conflict_markers (in_conflict saw_separator : bool) (lines : list string) : bool :=
  match lines with
  | [] => false
  | line :: lines =>
      if startswith "<<<<<<<" line then conflict_markers true false lines
      else if in_conflict && startswith "=======" line then conflict_markers in_conflict true lines
      else if in_conflict && saw_separator && startswith ">>>>>>>" line then true
      else conflict_markers in_conflict saw_separator lines
  end.

(** A file read in text mode: CR LF and CR are LF. *)
Fixpoint universal_newlines (s : string) : string :=
  match s with
  | EmptyString => EmptyString
  | String c rest =>
      if N.eqb (code c) 13 then
        match rest with
        | String d tail => if N.eqb (code d) 10 then universal_newlines rest else String "010" (universal_newlines rest)
        | EmptyString => nl
        end
      else String c (universal_newlines rest)
  end.

(** Whether the bytes are ASCII, or UTF-8. *)
Definition within (lo hi : N) (c : ascii) : bool := N.leb lo (code c) && N.leb (code c) hi.
Fixpoint is_ascii (s : string) : bool :=
  match s with EmptyString => true | String c s => within 0 127 c && is_ascii s end.
Definition tail_byte : ascii -> bool := within 128 191.
Fixpoint utf8 (s : string) : bool :=
  match s with
  | EmptyString => true
  | String a s =>
      if within 0 127 a then utf8 s
      else match s with
      | String b s =>
          if within 194 223 a then tail_byte b && utf8 s
          else match s with
          | String c s =>
              if N.eqb (code a) 224 then within 160 191 b && tail_byte c && utf8 s
              else if N.eqb (code a) 237 then within 128 159 b && tail_byte c && utf8 s
              else if within 225 239 a then tail_byte b && tail_byte c && utf8 s
              else match s with
              | String d s =>
                  (if N.eqb (code a) 240 then within 144 191 b
                   else if N.eqb (code a) 244 then within 128 143 b else within 241 243 a && tail_byte b)
                  && tail_byte c && tail_byte d && utf8 s
              | EmptyString => false
              end
          | EmptyString => false
          end
      | EmptyString => false
      end
  end.

(** ** Base64 *)

Definition b64_alphabet : string := "ABCDEFGHIJKLMNOPQRSTUVWXYZabcdefghijklmnopqrstuvwxyz0123456789+/".
Definition bits6 : Type := (bool * bool * bool) * (bool * bool * bool).
Definition bit (b : bool) : nat := if b then 1%nat else 0%nat.
Definition b64_index (x : bits6) : nat :=
  let '((a, b, c), (d, e, f)) := x in (32 * bit a + 16 * bit b + 8 * bit c + 4 * bit d + 2 * bit e + bit f)%nat.
Definition b64_char (x : bits6) : ascii := default "="%char (String.get (b64_index x) b64_alphabet).
Definition b64_bits (n : nat) : bits6 :=
  ((Nat.testbit n 5, Nat.testbit n 4, Nat.testbit n 3), (Nat.testbit n 2, Nat.testbit n 1, Nat.testbit n 0)).
Definition b64_value (c : ascii) : option bits6 := b64_bits <$> String.index 0 (String c EmptyString) b64_alphabet.

Fixpoint b64encode (s : string) : string :=
  match s with
  | EmptyString => EmptyString
  | String (Ascii a0 a1 a2 a3 a4 a5 a6 a7) s =>
      let first := b64_char ((a7, a6, a5), (a4, a3, a2)) in
      match s with
      | EmptyString => String first (String (b64_char ((a1, a0, false), (false, false, false))) "==")
      | String (Ascii b0 b1 b2 b3 b4 b5 b6 b7) s =>
          let second := b64_char ((a1, a0, b7), (b6, b5, b4)) in
          match s with
          | EmptyString => String first (String second (String (b64_char ((b3, b2, b1), (b0, false, false))) "="))
          | String (Ascii c0 c1 c2 c3 c4 c5 c6 c7) s =>
              String first (String second (String (b64_char ((b3, b2, b1), (b0, c7, c6)))
                (String (b64_char ((c5, c4, c3), (c2, c1, c0))) (b64encode s))))
          end
      end
  end.
(** [base64.b64decode(s, validate=True)]: [None] is a binascii.Error. *)
Fixpoint b64decode (s : string) : option string :=
  match s with
  | EmptyString => Some EmptyString
  | String w (String x (String y (String z s))) =>
      '((a7, a6, a5), (a4, a3, a2)) ← b64_value w;
      '((a1, a0, b7), (b6, b5, b4)) ← b64_value x;
      let a := Ascii a0 a1 a2 a3 a4 a5 a6 a7 in
      if Ascii.eqb y "=" then
        if Ascii.eqb z "=" && String.eqb s "" then Some (String a EmptyString) else None
      else
        '((b3, b2, b1), (b0, c7, c6)) ← b64_value y;
        let b := Ascii b0 b1 b2 b3 b4 b5 b6 b7 in
        if Ascii.eqb z "=" then if String.eqb s "" then Some (String a (String b EmptyString)) else None
        else
          '((c5, c4, c3), (c2, c1, c0)) ← b64_value z;
          rest ← b64decode s;
          Some (String a (String b (String (Ascii c0 c1 c2 c3 c4 c5 c6 c7) rest)))
  | _ => None
  end.

(** ** Generations *)

Inductive artifact : Type := Main | Snapshot | Checksum | RollbackExport | ScalarSession.
#[export] Instance artifact_eq_dec : EqDecision artifact.
Proof. solve_decision. Defined.
#[export] Instance artifact_countable : Countable artifact.
Proof.
  apply (inj_countable (fun a => match a with Main => 0 | Snapshot => 1 | Checksum => 2 | RollbackExport => 3 | ScalarSession => 4 end)
    (fun z => match z with 0 => Some Main | 1 => Some Snapshot | 2 => Some Checksum | 3 => Some RollbackExport
              | 4 => Some ScalarSession | _ => None end)).
  by intros [].
Defined.
(** [_transaction_artifacts()]. *)
Definition _transaction_artifacts : list (string * artifact) :=
  [("main", Main); ("snapshot", Snapshot); ("checksum", Checksum); ("rollback_export", RollbackExport);
   ("scalar_rollback_session", ScalarSession)].
(** The files that are there. *)
Abbreviation generation := (gmap artifact string).

(** A mapping of [bytes | None] as the files that are there. *)
Definition gather (l : list (artifact * option string)) : generation :=
  foldr (fun ao g => match snd ao with Some p => <[fst ao := p]> g | None => g end) ∅ l.

Inductive journal_file : Type :=
  | NotJson
  | Json (document : pyval).
Record disk : Type := mkDisk { dk_files : generation; dk_journal : option journal_file }.

(** ** Programs *)

Inductive tick : Type := Go | Fail (e : exn) | Kill.
Inductive outcome (A : Type) : Type :=
  | Returned (a : A)
  | Raised (e : exn)
  | Dead.
Arguments Returned {A} a.
Arguments Raised {A} e.
Arguments Dead {A}.

Definition tx (A : Type) : Type := list tick * disk -> outcome A * (list tick * disk).
#[global] Instance tx_ret : MRet tx := fun A a w => (Returned a, w).
#[global] Instance tx_bind : MBind tx := fun A B f m w =>
  match m w with
  | (Returned a, w) => f a w
  | (Raised e, w) => (Raised e, w)
  | (Dead, w) => (Dead, w)
  end.
Definition tx_raise {A} (e : exn) : tx A := fun w => (Raised e, w).
Definition tx_lift {A} (r : res A) : tx A := fun w => (match r with Ok a => Returned a | Raise e => Raised e end, w).
Definition tx_guard (c : bool) (e : exn) : tx unit := if c then tx_raise e else mret tt.
(** [except Exception]: a killed process handles nothing. *)
Definition tx_catch {A} (m : tx A) (handler : exn -> tx A) : tx A := fun w =>
  match m w with
  | (Raised e, w) => handler e w
  | r => r
  end.
Definition step {A} (f : disk -> A * disk) : tx A := fun w =>
  let '(ticks, d) := w in
  match ticks with
  | [] => let '(a, d) := f d in (Returned a, ([], d))
  | Go :: ticks => let '(a, d) := f d in (Returned a, (ticks, d))
  | Fail e :: ticks => (Raised e, (ticks, d))
  | Kill :: ticks => (Dead, (ticks, d))
  end.
Definition look {A} (f : disk -> A) : tx A := step (fun d => (f d, d)).
(** A step that only may fail. *)
Definition touch : tx unit := look (fun _ => tt).
Fixpoint tx_foreach {A} (l : list A) (body : A -> tx unit) : tx unit :=
  match l with
  | [] => mret tt
  | a :: l => _ ← body a; tx_foreach l body
  end.

Definition put_file (a : artifact) (payload : string) : tx unit :=
  step (fun d => (tt, mkDisk (<[a := payload]> (dk_files d)) (dk_journal d))).
Definition unlink_file (a : artifact) : tx unit :=
  step (fun d => (tt, mkDisk (delete a (dk_files d)) (dk_journal d))).
Definition set_journal (j : option journal_file) : tx unit := step (fun d => (tt, mkDisk (dk_files d) j)).

(** ** Writing *)

Definition _atomic_private_write (a : artifact) (payload : string) : tx unit :=
  _ ← touch; _ ← put_file a payload; touch.
Definition write_journal (document : pyval) : tx unit := _ ← touch; _ ← set_journal (Some (Json document)); touch.
Definition _read_previous_transaction_file (a : artifact) : tx (option string) := look (fun d => dk_files d !! a).

Definition _apply_generation (g : generation) : tx unit :=
  tx_foreach [Snapshot; Checksum; RollbackExport; Main; ScalarSession] (fun a =>
    match g !! a with
    | None =>
        present ← look (fun d => bool_decide (is_Some (dk_files d !! a)));
        if present : bool then
          _ ← _read_previous_transaction_file a;
          _ ← unlink_file a;
          touch
        else mret tt
    | Some payload => _atomic_private_write a payload
    end).
Definition _verify_generation (g : generation) : tx unit :=
  tx_foreach (map snd _transaction_artifacts) (fun a =>
    actual ← _read_previous_transaction_file a;
    tx_guard (negb (bool_decide (actual = g !! a))) (RegistryError "registry transaction verification failed")).
Definition _clear_transaction_journal : tx unit := _ ← set_journal None; touch.

Definition is_os_error (e : exn) : bool :=
  match e with OSError _ | FileNotFoundError | FileExistsError => true | _ => false end.

Section Files.
Context (sha256_hex : string -> string) (root : string -> option FilesystemRootIdentity)
  (safe_dump : pydict -> string) (safe_load : string -> option pyval) (json_loads : string -> option pyval).

Definition encode_artifact (o : option string) : pyval :=
  match o with
  | None => PNone
  | Some payload => PDict [("payload", PStr (b64encode payload)); ("sha256", PStr (sha256_hex payload))]
  end.
Definition _encode_generation (g : generation) : pydict :=
  map (fun na => (fst na, encode_artifact (g !! snd na))) _transaction_artifacts.
Definition _transaction_manifest (phase : string) (previous next_generation : generation) : pyval :=
  PDict [("schema", PStr _TRANSACTION_SCHEMA); ("phase", PStr phase);
         ("previous", PDict (_encode_generation previous)); ("next", PDict (_encode_generation next_generation))].

(** The files of the journalled write of [next_generation], which [_write_locked] makes. *)
Definition write_generation (next_generation : generation -> generation) : tx unit :=
  main ← _read_previous_transaction_file Main;
  snapshot ← _read_previous_transaction_file Snapshot;
  checksum ← _read_previous_transaction_file Checksum;
  export ← _read_previous_transaction_file RollbackExport;
  session ← _read_previous_transaction_file ScalarSession;
  let previous := gather
    [(Main, main); (Snapshot, snapshot); (Checksum, checksum); (RollbackExport, export); (ScalarSession, session)] in
  let next := next_generation previous in
  let prepared := _transaction_manifest "prepared" previous next in
  _ ← write_journal prepared;
  _ ← tx_catch
        (_ ← _apply_generation next; write_journal (_transaction_manifest "committed" previous next))
        (fun e =>
           _ ← tx_catch
                 (_ ← write_journal prepared; _ ← _apply_generation previous; _ ← _verify_generation previous;
                  _clear_transaction_journal)
                 (fun _ => tx_raise (RegistryError "registry transaction failed and rollback could not restore prior state"));
           tx_raise e);
  tx_catch (_ ← _verify_generation next; _clear_transaction_journal)
    (fun e => if is_os_error e then mret tt else tx_raise e).

(** ** Documents *)

Definition _split_rendered (text : string) : res (pydict * string) :=
  _ ← raise_if (conflict_markers false false (line_starts text))
        (RegistryParseError "registry contains Git conflict markers");
  _ ← raise_if (negb (startswith ("---" +:+ nl) text)) (RegistryParseError "registry is missing YAML frontmatter");
  match ('(_, rest) ← cut "---" text; cut "---" rest) with
  | None => Raise (RegistryParseError "registry frontmatter is malformed")
  | Some (yaml, rest) =>
      match safe_load yaml with
      | None => Raise (RegistryParseError "registry YAML is invalid")
      | Some data =>
          match py_or data (PDict []) with
          | PDict d => Ok (d, if startswith nl rest then str_drop 1 rest else rest)
          | _ => Raise (RegistryParseError "registry frontmatter must be a mapping")
          end
      end
  end.
Definition _render_markdown_settings (frontmatter : pydict) (body : string) : string :=
  let normalized_body := if startswith nl body then body else nl +:+ body in
  let normalized_body := if startswith nl (str_rev "" normalized_body) then normalized_body else normalized_body +:+ nl in
  "---" +:+ nl +:+ strip (safe_dump frontmatter) +:+ nl +:+ "---" +:+ nl +:+ normalized_body.

Definition registry_body : string :=
  "# Instance Vault Registry" +:+ nl
  +:+ "Mechanical instance-local state; registration does not grant vault authority." +:+ nl.
Definition export_body : string :=
  "# Legacy Registry Rollback Export" +:+ nl
  +:+ "Generated from the latest committed registry revision." +:+ nl.
(** The bytes of the registry and of its legacy export. *)
Definition payload_bytes (snapshot : RegistrySnapshot) : res string :=
  let frontmatter := _frontmatter_from_snapshot snapshot in
  _ ← _snapshot_from_frontmatter sha256_hex root frontmatter;
  Ok (_render_markdown_settings frontmatter registry_body).
Definition export_bytes (snapshot : RegistrySnapshot) : res string :=
  frontmatter ← _rollback_export_payload snapshot None None;
  Ok (_render_markdown_settings frontmatter export_body).
Definition checksum_bytes (payload : string) : string := sha256_hex payload +:+ nl.
(** The front matter of a file. *)
Definition _read_document (bytes : string) : res pydict :=
  _ ← raise_if (negb (utf8 bytes)) (OtherException "UnicodeDecodeError");
  '(frontmatter, _) ← _split_rendered (universal_newlines bytes);
  Ok frontmatter.
(** The snapshot that decoded bytes hold. *)
Definition read_bytes (bytes : string) : res RegistrySnapshot :=
  _ ← raise_if (negb (utf8 bytes)) (OtherException "UnicodeDecodeError");
  '(frontmatter, _) ← _split_rendered bytes;
  _snapshot_from_frontmatter sha256_hex root frontmatter.

(** ** Recovery *)

Definition decode_artifact (value : pyval) : res (option string) :=
  match value with
  | PNone => Ok None
  | PDict d =>
      _ ← raise_if (negb (same_keys d ["payload"; "sha256"])) (RegistryError "registry transaction artifact is malformed");
      match get d "payload", get d "sha256" with
      | PStr encoded, PStr expected_digest =>
          match b64decode encoded with
          | None => Raise (RegistryError "registry transaction artifact encoding is invalid")
          | Some payload =>
              _ ← raise_if (negb (String.eqb (sha256_hex payload) expected_digest))
                    (RegistryError "registry transaction artifact digest is invalid");
              Ok (Some payload)
          end
      | _, _ => Raise (RegistryError "registry transaction artifact is malformed")
      end
  | _ => Raise (RegistryError "registry transaction artifact is malformed")
  end.
Fixpoint decode_artifacts (l : list (string * artifact)) (d : pydict) : res generation :=
  match l with
  | [] => Ok ∅
  | (name, a) :: l =>
      o ← (if dict_mem d name then decode_artifact (get d name) else Ok None);
      rest ← decode_artifacts l d;
      Ok (match o with Some payload => <[a := payload]> rest | None => rest end)
  end.
Definition _decode_generation (value : pyval) : res generation :=
  match value with
  | PDict d =>
      _ ← raise_if (negb (same_keys d (map fst _transaction_artifacts)
                          || same_keys d ["main"; "snapshot"; "checksum"]
                          || same_keys d ["main"; "snapshot"; "checksum"; "rollback_export"]))
            (RegistryError "registry transaction generation is malformed");
      decode_artifacts _transaction_artifacts d
  | _ => Raise (RegistryError "registry transaction generation is malformed")
  end.

Definition session_shape (bytes : string) : res unit :=
  match json_loads bytes with
  | None => Raise (ValueError "JSONDecodeError")
  | Some (PDict session) =>
      raise_if (negb (is_mapping (get session "payload") && is_mapping (get session "authentication")))
        (RegistryError "registry transaction scalar rollback session is invalid")
  | Some _ => Raise (RegistryError "registry transaction scalar rollback session is invalid")
  end.
Definition next_contents (payload : string) (export session : option string) : res unit :=
  parsed ← read_bytes payload;
  _ ← match export with
      | None => Ok tt
      | Some bytes =>
          expected ← export_bytes parsed;
          raise_if (negb (String.eqb bytes expected)) (RegistryError "registry transaction rollback export is invalid")
      end;
  match session with None => Ok tt | Some bytes => session_shape bytes end.
Definition _validate_next_generation (g : generation) : res unit :=
  match g !! Main, g !! Checksum with
  | Some payload, Some checksum =>
      _ ← raise_if (negb (bool_decide (g !! Snapshot = Some payload)))
            (RegistryError "registry transaction next generation is incomplete");
      _ ← raise_if (negb (String.eqb checksum (checksum_bytes payload)))
            (RegistryError "registry transaction next generation checksum is invalid");
      match next_contents payload (g !! RollbackExport) (g !! ScalarSession) with
      | Ok u => Ok u
      | Raise (RegistryException _ _) | Raise (OtherException _) =>
          Raise (RegistryError "registry transaction next generation payload is invalid")
      | Raise (TypeError _) | Raise (ValueError _) => Raise (RegistryError "registry transaction scalar rollback session is invalid")
      | Raise e => Raise e
      end
  | _, _ => Raise (RegistryError "registry transaction next generation is incomplete")
  end.
Definition _assert_current_generation_belongs_to_transaction (previous next : generation) : tx unit :=
  tx_foreach (map snd _transaction_artifacts) (fun a =>
    current ← _read_previous_transaction_file a;
    tx_guard (negb (bool_decide (current = previous !! a) || bool_decide (current = next !! a)))
      (RegistryError "registry transaction artifact diverged outside journal")).

(** What the journal says to do: the generation to install, and the other one. *)
Definition read_manifest (document : pyval) : res (generation * generation * bool) :=
  match document with
  | PDict d =>
      _ ← raise_if (negb (same_keys d ["schema"; "phase"; "previous"; "next"]))
            (RegistryError "registry transaction journal is malformed");
      let invalid := RegistryError "registry transaction journal schema or phase is invalid" in
      _ ← raise_if (negb (py_eqb (get d "schema") (PStr _TRANSACTION_SCHEMA))) invalid;
      known ← in_set (get d "phase") ["prepared"; "committed"];
      _ ← raise_if (negb known) invalid;
      previous ← _decode_generation (get d "previous");
      next ← _decode_generation (get d "next");
      Ok (previous, next, py_eqb (get d "phase") (PStr "prepared"))
  | _ => Raise (RegistryError "registry transaction journal is malformed")
  end.
Definition _recover_transaction_locked : tx unit :=
  journal ← look dk_journal;
  match journal with
  | None => mret tt
  | Some NotJson => tx_raise (RegistryError "registry transaction journal is corrupt")
  | Some (Json document) =>
      _ ← touch;
      '(previous, next, prepared) ← tx_lift (read_manifest document);
      _ ← tx_lift (_validate_next_generation next);
      _ ← _assert_current_generation_belongs_to_transaction previous next;
      let target := if prepared : bool then previous else next in
      _ ← _apply_generation target;
      _ ← _verify_generation target;
      _clear_transaction_journal
  end.

(** ** A snapshot's files *)

Definition next_generation (payload export : string) (retire_scalar_session : bool) (previous : generation) : generation :=
  gather [(Main, Some payload); (Snapshot, Some payload); (Checksum, Some (checksum_bytes payload));
          (RollbackExport, Some export);
          (ScalarSession, if retire_scalar_session then None else previous !! ScalarSession)].
(** The whole of [_write_locked]. *)
Definition write_files (snapshot : RegistrySnapshot) (retire_scalar_session : bool) : tx unit :=
  _ ← tx_guard (negb (existsb (String.eqb (rg_schema snapshot)) SUPPORTED_REGISTRY_SCHEMAS
                      && existsb (String.eqb (rg_authority snapshot))
                           [REGISTRY_AUTHORITY_DORMANT; REGISTRY_AUTHORITY_ACTIVE]))
        (RegistryError "unsupported registry schema or authority state");
  payload ← tx_lift (payload_bytes snapshot);
  export ← tx_lift (export_bytes snapshot);
  write_generation (next_generation payload export retire_scalar_session).

(** ** Reading with the last good copy *)

Definition _load_verified_snapshot_locked : tx (option (RegistrySnapshot * string)) :=
  copy ← look (fun d => dk_files d !! Snapshot);
  sum ← look (fun d => dk_files d !! Checksum);
  match copy, sum with
  | Some payload, Some checksum =>
      _ ← touch;
      _ ← tx_guard (negb (is_ascii checksum)) (OtherException "UnicodeDecodeError");
      let expected := strip checksum in
      if String.eqb expected "" || negb (String.eqb (sha256_hex payload) expected) then mret None else
      match read_bytes payload with
      | Ok snapshot => mret (Some (snapshot, payload))
      | Raise (RegistryException _ _) | Raise (OtherException _) => mret None
      | Raise e => tx_raise e
      end
  | _, _ => mret None
  end.
(** The last good copy put back in place. *)
Definition reinstall (snapshot : RegistrySnapshot) (payload : string) : tx RegistrySnapshot :=
  _ ← _atomic_private_write Main payload;
  export ← tx_lift (export_bytes snapshot);
  _ ← _atomic_private_write RollbackExport export;
  mret snapshot.
Definition recoverable (e : exn) : bool :=
  match e with
  | RegistryException SecurityErr _ => false
  | RegistryException _ _ => true
  | e => is_os_error e
  end.
Definition read_current (recover : bool) : tx RegistrySnapshot :=
  tx_catch
    (_ ← touch;
     main ← look (fun d => dk_files d !! Main);
     match main with
     | None => tx_raise (RegistryError "required registry path is missing")
     | Some bytes => tx_lift (frontmatter ← _read_document bytes; _snapshot_from_frontmatter sha256_hex root frontmatter)
     end)
    (fun e =>
       if negb (recoverable e && recover) then tx_raise e else
       recovered ← _load_verified_snapshot_locked;
       match recovered with
       | None => tx_raise (RegistryError "registry is corrupt and no unambiguous last-good snapshot exists")
       | Some (snapshot, payload) => reinstall snapshot payload
       end).
Definition restore_or_initialize (uuid : string) : tx RegistrySnapshot :=
  recovered ← _load_verified_snapshot_locked;
  match recovered with
  | Some (snapshot, payload) => reinstall snapshot payload
  | None =>
      left ← look (fun d => bool_decide (is_Some (dk_files d !! Snapshot)) || bool_decide (is_Some (dk_files d !! Checksum)));
      _ ← tx_guard left (RegistryError "registry main is missing and no unambiguous last-good snapshot exists");
      _ ← write_files (_empty_snapshot uuid) false;
      mret (_empty_snapshot uuid)
  end.
Definition _ensure_rollback_export_locked : tx unit :=
  main ← look (fun d => dk_files d !! Main);
  match main with
  | None => mret tt
  | Some bytes =>
      document ← tx_catch (_ ← touch; frontmatter ← tx_lift (_read_document bytes); mret (Some frontmatter))
                   (fun e => match e with
                             | RegistryException ParseErr _ => mret None
                             | e => if is_os_error e then mret None else tx_raise e
                             end);
      match document with
      | None => mret tt
      | Some frontmatter =>
          if negb (one_of (_optional_str (get frontmatter "schema")) SUPPORTED_REGISTRY_SCHEMAS) then mret tt else
          match _snapshot_from_frontmatter sha256_hex root frontmatter with
          | Raise (RegistryException _ _) => mret tt
          | Raise e => tx_raise e
          | Ok snapshot =>
              expected ← tx_lift (export_bytes snapshot);
              _ ← touch;
              if is_active snapshot then mret tt else
              export ← look (fun d => dk_files d !! RollbackExport);
              if bool_decide (export = Some expected) then mret tt
              else _atomic_private_write RollbackExport expected
          end
      end
  end.

(** [load]: every locked section starts by finishing an interrupted write. *)
Definition load_files (uuid : string) : tx RegistrySnapshot :=
  _ ← touch;
  _ ← _recover_transaction_locked;
  _ ← _ensure_rollback_export_locked;
  present ← look (fun d => bool_decide (is_Some (dk_files d !! Main)));
  if present : bool then read_current true else restore_or_initialize uuid.
End Files.
