(* ===== verification/RegistryTransaction.v ===== *)
(** * A registry write is all or nothing

    The journal reads back as it was written; whatever happens to a write, to
    the recoveries after it and to their disk, the generation is decided: one
    undisturbed recovery leaves exactly the files before the write or exactly
    the files of the write. *)
From Stdlib Require Import Ascii.
From S2P Require Import Prelude PyValue Sql SettingsRebind VaultRegistry DimensionState RegistryStore RegistryProps RegistryFiles.
Open Scope Z_scope.

(** ** The journal reads back *)

Lemma b64_char_value x : b64_value (b64_char x) = Some x.
Proof. by destruct x as [[[[] []] []] [[[] []] []]]. Qed.
Lemma b64_char_pad x : Ascii.eqb (b64_char x) "=" = false.
Proof. by destruct x as [[[[] []] []] [[[] []] []]]. Qed.
Ltac b64_step := repeat (rewrite ?b64_char_value, ?b64_char_pad; cbn [mbind option_bind]).
Lemma b64_roundtrip s : b64decode (b64encode s) = Some s.
Proof.
  assert (H : forall n s, (String.length s <= n)%nat -> b64decode (b64encode s) = Some s); [|by apply (H (String.length s))].
  clear s. induction n as [|n IH]; intros s Hl; [by destruct s; simpl in Hl; [|lia]|].
  destruct s as [|[a0 a1 a2 a3 a4 a5 a6 a7] [|[b0 b1 b2 b3 b4 b5 b6 b7] [|[c0 c1 c2 c3 c4 c5 c6 c7] s]]].
  - done.
  - cbn [b64encode b64decode]. b64_step. done.
  - cbn [b64encode b64decode]. b64_step. done.
  - cbn [b64encode b64decode]. b64_step. rewrite IH by (simpl in Hl; lia). done.
Qed.

Section Journal.
Context (sha256_hex : string -> string).

Lemma artifact_roundtrip o : decode_artifact sha256_hex (encode_artifact sha256_hex o) = Ok o.
Proof.
  destruct o as [p|]; [|done]. unfold decode_artifact, encode_artifact. simpl. unfold get. simpl.
  rewrite b64_roundtrip. by rewrite String.eqb_refl.
Qed.
Lemma gather_all g : gather (map (fun na => (snd na, g !! snd na)) _transaction_artifacts) = g.
Proof.
  apply map_eq. intros i. unfold gather. simpl.
  destruct (g !! Main) eqn:E1, (g !! Snapshot) eqn:E2, (g !! Checksum) eqn:E3, (g !! RollbackExport) eqn:E4,
    (g !! ScalarSession) eqn:E5, i; by simplify_map_eq.
Qed.
Lemma decode_gather (g : generation) (l : list (string * artifact)) d :
  (forall na, na ∈ l -> dict_mem d (fst na) = true /\ get d (fst na) = encode_artifact sha256_hex (g !! snd na)) ->
  decode_artifacts sha256_hex l d = Ok (gather (map (fun na => (snd na, g !! snd na)) l)).
Proof.
  induction l as [|[n a] l IH]; intros H; simpl; [done|]. destruct (H (n, a)) as [H1 H2]; [by left|]. simpl in H1, H2.
  rewrite H1, H2, artifact_roundtrip. cbn [mbind res_bind]. rewrite IH; [done|]. intros na Hin. apply H. by right.
Qed.
Lemma generation_roundtrip g : _decode_generation sha256_hex (PDict (_encode_generation sha256_hex g)) = Ok g.
Proof.
  unfold _decode_generation. assert (same_keys (_encode_generation sha256_hex g) (map fst _transaction_artifacts) = true) as -> by done.
  cbn [orb negb raise_if mbind res_bind]. rewrite (decode_gather g), gather_all; [done|].
  intros na Hin. unfold _transaction_artifacts in Hin. set_unfold. naive_solver.
Qed.
Lemma manifest_roundtrip prepared g g' :
  read_manifest sha256_hex (_transaction_manifest sha256_hex (if prepared : bool then "prepared" else "committed") g g')
  = Ok (g, g', prepared).
Proof.
  unfold read_manifest, _transaction_manifest. unfold get.
  cbn [dict_get String.eqb Ascii.eqb Bool.eqb default from_option id].
  rewrite !generation_roundtrip. by destruct prepared.
Qed.
End Journal.

(** ** Runs of programs

    [spec q m d Q]: whatever the schedule, [m] started on [d] ends as [Q] says;
    with [q] only undisturbed schedules are meant. *)
Definition calm (ticks : list tick) : Prop := Forall (eq Go) ticks.
Definition spec {A} (q : Prop) (m : tx A) (d : disk) (Q : outcome A -> disk -> Prop) : Prop :=
  forall ticks o ticks' d', (q -> calm ticks) -> m (ticks, d) = (o, (ticks', d')) -> (q -> calm ticks') /\ Q o d'.
Definition returns {A} (o : outcome A) : Prop := exists a, o = Returned a.

Section Rules.
Context (q : Prop).

Lemma spec_mono {A} (m : tx A) d (Q Q' : outcome A -> disk -> Prop) :
  (forall o d, Q o d -> Q' o d) -> spec q m d Q -> spec q m d Q'.
Proof. intros HQ H t o t' d' Ht E. destruct (H _ _ _ _ Ht E). auto. Qed.
Lemma spec_ret {A} (a : A) d (Q : outcome A -> disk -> Prop) : Q (Returned a) d -> spec q (mret a) d Q.
Proof. intros H t o t' d' Ht [= <- <- <-]. auto. Qed.
Lemma spec_raise {A} e d (Q : outcome A -> disk -> Prop) : Q (Raised e) d -> spec q (tx_raise e) d Q.
Proof. intros H t o t' d' Ht [= <- <- <-]. auto. Qed.
Lemma spec_bind {A B} (m : tx A) (f : A -> tx B) d Q :
  spec q m d (fun o d' => match o with Returned a => spec q (f a) d' Q | Raised e => Q (Raised e) d' | Dead => Q Dead d' end) ->
  spec q (m ≫= f) d Q.
Proof.
  intros H t o t' d' Ht E. unfold mbind, tx_bind in E. destruct (m (t, d)) as [o1 [t1 d1]] eqn:E1.
  destruct (H _ _ _ _ Ht E1) as [Ht1 H1]. destruct o1; [by apply (H1 _ _ _ _ Ht1 E)|by simplify_eq..].
Qed.
Lemma spec_catch {A} (m : tx A) h d Q :
  spec q m d (fun o d' => match o with Raised e => spec q (h e) d' Q | o => Q o d' end) -> spec q (tx_catch m h) d Q.
Proof.
  intros H t o t' d' Ht E. unfold tx_catch in E. destruct (m (t, d)) as [o1 [t1 d1]] eqn:E1.
  destruct (H _ _ _ _ Ht E1) as [Ht1 H1]. destruct o1; [by simplify_eq|by apply (H1 _ _ _ _ Ht1 E)|by simplify_eq].
Qed.
Lemma spec_step {A} (f : disk -> A * disk) d (Q : outcome A -> disk -> Prop) :
  Q (Returned (fst (f d))) (snd (f d)) -> (~ q -> (forall e, Q (Raised e) d) /\ Q Dead d) -> spec q (step f) d Q.
Proof.
  intros H1 H2 t o t' d' Ht E. unfold step in E. destruct (f d) as [a d1]. simpl in H1.
  destruct t as [|[|e|] t].
  - simplify_eq. auto.
  - simplify_eq. split; [|done]. intros Hq. specialize (Ht Hq). by inversion Ht.
  - assert (Hq : ~ q) by (intros Hq; specialize (Ht Hq); by inversion Ht). simplify_eq. split; [done|]. by apply H2.
  - assert (Hq : ~ q) by (intros Hq; specialize (Ht Hq); by inversion Ht). simplify_eq. split; [done|]. by apply H2.
Qed.
Lemma spec_look {A} (f : disk -> A) d (Q : outcome A -> disk -> Prop) :
  Q (Returned (f d)) d -> (~ q -> (forall e, Q (Raised e) d) /\ Q Dead d) -> spec q (look f) d Q.
Proof. exact (spec_step (fun d => (f d, d)) d Q). Qed.

(** A loop that treats each item once. *)
Lemma spec_foreach {A} (l : list A) (body : A -> tx unit) (I : list A -> disk -> Prop) d (Q : outcome unit -> disk -> Prop) :
  (forall done a rest d, done ++ a :: rest = l -> I done d ->
    spec q (body a) d (fun o d' => match o with Returned _ => I (done ++ [a]) d' | o => Q o d' end)) ->
  (forall d, I l d -> Q (Returned tt) d) -> I [] d -> spec q (tx_foreach l body) d Q.
Proof.
  intros Hb HQ. assert (H : forall rest done d, done ++ rest = l -> I done d -> spec q (tx_foreach rest body) d Q).
  { induction rest as [|a rest IH]; intros dn d1 Hl HI; cbn [tx_foreach].
    - apply spec_ret, HQ. by rewrite app_nil_r in Hl; subst.
    - apply spec_bind. eapply spec_mono; [|by eapply Hb]. intros [[]|e|] d2 H2; [|done..].
      apply (IH (dn ++ [a])); [by rewrite <- app_assoc|done]. }
  intros HI. by apply (H l []).
Qed.
End Rules.

(** ** Generations on disk *)

Definition between (previous next : generation) (d : disk) : Prop :=
  forall a, dk_files d !! a = previous !! a \/ dk_files d !! a = next !! a.

Section Steps.
Context (q : Prop).

(** [d'] is [d] with some files replaced by those of [g]. *)
Definition toward (g : generation) (d d' : disk) : Prop :=
  dk_journal d' = dk_journal d /\ forall a, dk_files d' !! a = dk_files d !! a \/ dk_files d' !! a = g !! a.
Lemma toward_refl g d : toward g d d.
Proof. split; auto. Qed.
Lemma toward_trans g d1 d2 d3 : toward g d1 d2 -> toward g d2 d3 -> toward g d1 d3.
Proof.
  intros [H1 H2] [H3 H4]. split; [congruence|]. intros a. destruct (H4 a) as [->|]; [apply H2|auto].
Qed.

Lemma write_spec a p d (Q : outcome unit -> disk -> Prop) :
  Q (Returned tt) (mkDisk (<[a := p]> (dk_files d)) (dk_journal d)) ->
  (~ q -> (forall e, Q (Raised e) d) /\ Q Dead d) ->
  (~ q -> (forall e, Q (Raised e) (mkDisk (<[a := p]> (dk_files d)) (dk_journal d)))
          /\ Q Dead (mkDisk (<[a := p]> (dk_files d)) (dk_journal d))) ->
  spec q (_atomic_private_write a p) d Q.
Proof.
  intros H1 H2 H3. unfold _atomic_private_write. apply spec_bind, spec_look; [|done].
  apply spec_bind, spec_step; [|done]. by apply spec_look.
Qed.
Lemma journal_spec j d (Q : outcome unit -> disk -> Prop) :
  Q (Returned tt) (mkDisk (dk_files d) (Some (Json j))) ->
  (~ q -> (forall e, Q (Raised e) d) /\ Q Dead d) ->
  (~ q -> (forall e, Q (Raised e) (mkDisk (dk_files d) (Some (Json j)))) /\ Q Dead (mkDisk (dk_files d) (Some (Json j)))) ->
  spec q (write_journal j) d Q.
Proof.
  intros H1 H2 H3. unfold write_journal. apply spec_bind, spec_look; [|done].
  apply spec_bind, spec_step; [|done]. by apply spec_look.
Qed.

Lemma apply_spec g d (Q : outcome unit -> disk -> Prop) :
  (Q (Returned tt) (mkDisk g (dk_journal d))) ->
  (~ q -> forall d', toward g d d' -> (forall e, Q (Raised e) d') /\ Q Dead d') ->
  spec q (_apply_generation g) d Q.
Proof.
  intros HR HF. unfold _apply_generation.
  apply (spec_foreach q _ _ (fun l d' => toward g d d' /\ forall a, a ∈ l -> dk_files d' !! a = g !! a)).
  - intros dn a rest d1 _ [Ht Hd]. destruct (g !! a) as [p|] eqn:Eg.
    + assert (Ht' : toward g d (mkDisk (<[a := p]> (dk_files d1)) (dk_journal d1))).
      { eapply toward_trans; [exact Ht|]. split; [done|]. intros b. simpl. destruct (decide (a = b)) as [<-|].
        - right. by rewrite lookup_insert_eq.
        - left. by rewrite lookup_insert_ne. }
      apply write_spec; [|intros Hq; by apply HF|intros Hq; by apply HF].
      split; [done|]. intros b [Hb|Hb%list_elem_of_singleton]%elem_of_app; simpl.
      * destruct (decide (a = b)) as [<-|]; [by rewrite lookup_insert_eq|rewrite lookup_insert_ne by done; auto].
      * subst. by rewrite lookup_insert_eq.
    + apply spec_bind, spec_look; [|intros Hq; by apply HF]. case_bool_decide as Hx; simpl.
      * apply spec_bind, spec_look; [|intros Hq; by apply HF].
        assert (Ht' : toward g d (mkDisk (delete a (dk_files d1)) (dk_journal d1))).
        { eapply toward_trans; [exact Ht|]. split; [done|]. intros b. simpl. destruct (decide (a = b)) as [<-|].
          - right. by rewrite lookup_delete_eq.
          - left. by rewrite lookup_delete_ne. }
        apply spec_bind, spec_step; [|intros Hq; by apply HF]. apply spec_look; [|intros Hq; by apply HF].
        split; [done|]. intros b [Hb|Hb%list_elem_of_singleton]%elem_of_app; simpl.
        -- destruct (decide (a = b)) as [<-|]; [by rewrite lookup_delete_eq|rewrite lookup_delete_ne by done; auto].
        -- subst. by rewrite lookup_delete_eq.
      * apply spec_ret. split; [done|]. intros b [Hb|Hb%list_elem_of_singleton]%elem_of_app; [auto|subst].
        rewrite Eg. by apply eq_None_not_Some.
  - intros d' [[Hj _] Hall]. assert (d' = mkDisk g (dk_journal d)) as ->; [|done].
    destruct d' as [f j]. simpl in *. subst j. f_equal. apply map_eq. intros a. apply Hall. destruct a; set_solver.
  - split; [apply toward_refl|]. intros a []%not_elem_of_nil.
Qed.
Lemma verify_spec g d (Q : outcome unit -> disk -> Prop) :
  (dk_files d = g -> Q (Returned tt) d) -> (~ (q /\ dk_files d = g) -> (forall e, Q (Raised e) d) /\ Q Dead d) ->
  spec q (_verify_generation g) d Q.
Proof.
  intros HR HF. unfold _verify_generation.
  apply (spec_foreach q _ _ (fun l d' => d' = d /\ forall a, a ∈ l -> dk_files d !! a = g !! a)).
  - intros dn a rest d1 _ [-> Hd]. apply spec_bind, spec_look; [|intros Hq; apply HF; tauto].
    case_bool_decide as Hx; simpl.
    + apply spec_ret. split; [done|]. intros b [Hb|Hb%list_elem_of_singleton]%elem_of_app; [auto|by subst].
    + apply spec_raise, HF. intros [_ E]. by rewrite E in Hx.
  - intros d' [-> Hall]. apply HR, map_eq. intros a. apply Hall. destruct a; set_solver.
  - split; [done|]. intros a []%not_elem_of_nil.
Qed.
Lemma belongs_spec g g' d (Q : outcome unit -> disk -> Prop) : between g g' d ->
  Q (Returned tt) d -> (~ q -> (forall e, Q (Raised e) d) /\ Q Dead d) ->
  spec q (_assert_current_generation_belongs_to_transaction g g') d Q.
Proof.
  intros Hb HR HF. unfold _assert_current_generation_belongs_to_transaction.
  apply (spec_foreach q _ _ (fun l d' => d' = d)); [|by intros d' ->|done].
  intros dn a rest d1 _ ->. apply spec_bind, spec_look; [|done].
  destruct (Hb a) as [E|E]; rewrite E; rewrite (bool_decide_true _ eq_refl), ?orb_true_r; by apply spec_ret.
Qed.
Lemma clear_spec d (Q : outcome unit -> disk -> Prop) : Q (Returned tt) (mkDisk (dk_files d) None) ->
  (~ q -> (forall e, Q (Raised e) d) /\ Q Dead d) ->
  (~ q -> (forall e, Q (Raised e) (mkDisk (dk_files d) None)) /\ Q Dead (mkDisk (dk_files d) None)) ->
  spec q _clear_transaction_journal d Q.
Proof. intros H1 H2 H3. unfold _clear_transaction_journal. apply spec_bind, spec_step; [|done]. by apply spec_look. Qed.
End Steps.

(** ** Decided disks *)

Section Transaction.
Context (sha256_hex : string -> string) (root : string -> option FilesystemRootIdentity)
  (safe_dump : pydict -> string) (safe_load : string -> option pyval) (json_loads : string -> option pyval).
Abbreviation recover := (_recover_transaction_locked sha256_hex root safe_dump safe_load json_loads).

Definition settled (g : generation) (d : disk) : Prop := dk_journal d = None /\ dk_files d = g.
Definition journalled (prepared : bool) (previous next : generation) (d : disk) : Prop :=
  dk_journal d = Some (Json (_transaction_manifest sha256_hex (if prepared then "prepared" else "committed") previous next))
  /\ between previous next d.
(** Recovery leads to [g]. *)
Definition decided (previous next g : generation) (d : disk) : Prop :=
  settled g d \/ exists prepared : bool, journalled prepared previous next d /\ g = if prepared then previous else next.

Lemma toward_between previous next g d d' : g = previous \/ g = next -> between previous next d -> toward g d d' ->
  between previous next d'.
Proof.
  intros Hg Hb [_ Ht] a. destruct (Ht a) as [-> | ->]; [apply Hb|]. destruct Hg as [-> | ->]; auto.
Qed.
Lemma toward_journalled prepared previous next g d d' : g = previous \/ g = next -> journalled prepared previous next d ->
  toward g d d' -> journalled prepared previous next d'.
Proof. intros Hg [Hj Hb] Ht. split; [|by eapply toward_between]. destruct Ht as [-> _]. done. Qed.

Section Recovery.
Context (previous next : generation)
  (next_valid : _validate_next_generation sha256_hex root safe_dump safe_load json_loads next = Ok tt).

Lemma recover_spec q g d : decided previous next g d ->
  spec q recover d (fun o d' => decided previous next g d' /\ (q -> o = Returned tt) /\ (o = Returned tt -> settled g d')).
Proof.
  intros Hd. unfold _recover_transaction_locked.
  assert (HF : forall d' (o : outcome unit), ~ q -> decided previous next g d' -> o <> Returned tt ->
    decided previous next g d' /\ (q -> o = Returned tt) /\ (o = Returned tt -> settled g d')) by tauto.
  apply spec_bind, spec_look; [|intros Hq; split; [intros e|]; by apply HF].
  destruct Hd as [[Hj Hf]|(prepared & Hjd & Hg)].
  - rewrite Hj. apply spec_ret. split; [by left|done].
  - assert (Hd : forall d', journalled prepared previous next d' -> decided previous next g d')
      by (intros d' Hd'; right; by exists prepared).
    assert (HF' : forall d', ~ q -> journalled prepared previous next d' ->
      (forall e : exn, decided previous next g d' /\ (q -> @Raised unit e = Returned tt) /\ (@Raised unit e = Returned tt -> settled g d'))
      /\ decided previous next g d' /\ (q -> @Dead unit = Returned tt) /\ (@Dead unit = Returned tt -> settled g d'))
      by (intros d' Hq Hd'; split; [intros e|]; apply HF; auto).
    rewrite (proj1 Hjd). apply spec_bind, spec_look; [|auto].
    apply spec_bind. unfold tx_lift. rewrite manifest_roundtrip. apply spec_ret.
    apply spec_bind. rewrite next_valid. apply spec_ret.
    apply spec_bind, belongs_spec; [exact (proj2 Hjd)| |auto]. rewrite <- Hg.
    assert (Ht : g = previous \/ g = next) by (destruct prepared; auto).
    apply spec_bind, apply_spec; [|intros Hq d' Hto; apply HF'; [done|by eapply toward_journalled]].
    assert (Hjd' : journalled prepared previous next (mkDisk g (dk_journal d)))
      by (eapply toward_journalled; [exact Ht|exact Hjd|by split; auto]).
    apply spec_bind, verify_spec; [intros _|intros Hn; apply HF'; [tauto|done]].
    assert (Hs : settled g (mkDisk g None)) by done.
    apply clear_spec; simpl; [|auto|].
    + split; [by left|done].
    + intros Hq. split; [intros e|]; (split; [by left|]; tauto).
Qed.
End Recovery.

Section Write.
Context (q : Prop) (previous next : generation).
Definition either (d : disk) : Prop := decided previous next previous d \/ decided previous next next d.
Lemma journalled_either prepared d : journalled prepared previous next d -> either d.
Proof. destruct prepared; [left|right]; right; eauto. Qed.
Lemma journalled_again prepared prepared' d : journalled prepared previous next d ->
  journalled prepared' previous next (mkDisk (dk_files d)
    (Some (Json (_transaction_manifest sha256_hex (if prepared' then "prepared" else "committed") previous next)))).
Proof. intros [_ Hb]. by split. Qed.
Lemma journalled_apply prepared g d : g = previous \/ g = next -> journalled prepared previous next d ->
  journalled prepared previous next (mkDisk g (dk_journal d)).
Proof. intros Hg Hd. eapply toward_journalled; [exact Hg|exact Hd|by split; auto]. Qed.

(** Undoing a failed write. *)
Definition undo : tx unit :=
  _ ← write_journal (_transaction_manifest sha256_hex "prepared" previous next);
  _ ← _apply_generation previous; _ ← _verify_generation previous; _clear_transaction_journal.
Lemma undo_spec prepared d : journalled prepared previous next d -> spec q undo d (fun _ d' => either d').
Proof.
  intros Hd. pose proof (journalled_again _ true _ Hd) as Hd1. unfold undo.
  apply spec_bind, journal_spec; [|by eauto using journalled_either..].
  apply spec_bind, apply_spec.
  2: { intros _ d' Ht. assert (either d'); [|done]. eapply (journalled_either true), toward_journalled; [by left|exact Hd1|exact Ht]. }
  pose proof (journalled_apply true previous _ (or_introl eq_refl) Hd1) as Hd2. simpl in Hd2.
  apply spec_bind, verify_spec; [intros _|by eauto using journalled_either].
  assert (either (mkDisk previous None)) by (left; by left).
  apply clear_spec; simpl; eauto using journalled_either.
Qed.
(** The write proper: the new files, then the commit. *)
Definition attempt : tx unit :=
  _ ← _apply_generation next; write_journal (_transaction_manifest sha256_hex "committed" previous next).
Lemma attempt_spec d : journalled true previous next d -> spec q attempt d (fun o d' =>
  (exists prepared, journalled prepared previous next d') /\ (q -> o = Returned tt)
  /\ (o = Returned tt -> journalled false previous next d' /\ dk_files d' = next)).
Proof.
  intros Hd. unfold attempt. apply spec_bind, apply_spec.
  2: { intros Hq d' Ht. assert (exists prepared, journalled prepared previous next d') as Hx.
       { exists true. eapply toward_journalled; [by right|exact Hd|exact Ht]. }
       split; [intros e|]; (split; [exact Hx|]; done). }
  pose proof (journalled_apply true next _ (or_intror eq_refl) Hd) as Hd1.
  pose proof (journalled_again _ false _ Hd1) as Hd2. simpl in Hd2.
  apply journal_spec; simpl; [by eauto|..]; (intros Hq; split; [intros e|]; (split; [by eauto|done])).
Qed.
End Write.

Lemma gathered g : gather [(Main, g !! Main); (Snapshot, g !! Snapshot); (Checksum, g !! Checksum);
  (RollbackExport, g !! RollbackExport); (ScalarSession, g !! ScalarSession)] = g.
Proof. exact (gather_all g). Qed.

Lemma write_generation_spec q next_of previous d : settled previous d ->
  spec q (write_generation sha256_hex next_of) d (fun o d' =>
    either previous (next_of previous) d' /\ (returns o -> decided previous (next_of previous) (next_of previous) d')
    /\ (q -> o = Returned tt /\ settled (next_of previous) d')).
Proof.
  intros [Hj Hf]. unfold write_generation.
  assert (H0 : forall next, either previous next d) by (intros; left; by left).
  assert (HR : forall o, ~ q -> ~ returns o -> either previous (next_of previous) d /\
    (returns o -> decided previous (next_of previous) (next_of previous) d) /\ (q -> o = Returned tt /\ settled (next_of previous) d))
    by (intros o Hq Ho; split; [done|]; tauto).
  assert (HN : forall e : exn, ~ returns (@Raised unit e)) by (by intros e [? ?]).
  assert (HD : ~ returns (@Dead unit)) by (by intros [? ?]).
  do 5 (apply spec_bind, spec_look; [|auto]). cbv zeta. rewrite gathered, Hf.
  set (next := next_of previous) in *.
  assert (Hd1 : journalled true previous next (mkDisk (dk_files d) (Some (Json (_transaction_manifest sha256_hex "prepared" previous next))))).
  { split; [done|]. intros a. left. simpl. by rewrite Hf. }
  pose proof (journalled_either _ _ _ _ Hd1) as He1.
  apply spec_bind, journal_spec; [|auto|intros Hq; split; [intros e|]; (split; [done|]; split; [first [by intros []%HN | by intros []%HD]|tauto])].
  apply spec_bind, spec_catch. eapply spec_mono; [|apply (attempt_spec q previous next _ Hd1)].
  intros o d2 ((prepared & Hd2) & Hc & Ho). destruct o as [[]|e|].
  - destruct (Ho eq_refl) as [Hd3 Hf3]. assert (Hdec : decided previous next next d2) by (right; by exists false).
    assert (Hset : settled next (mkDisk (dk_files d2) None)) by done.
    apply spec_catch, spec_bind, verify_spec; [intros _|].
    + apply clear_spec; simpl.
      * split; [right; by left|]. split; [by left|done].
      * intros Hq. split; [intros e|split; [by right|tauto]]. destruct (is_os_error e).
        -- apply spec_ret. split; [by right|]. tauto.
        -- apply spec_raise. split; [by right|]. tauto.
      * intros Hq. assert (decided previous next next (mkDisk (dk_files d2) None)) by (by left).
        split; [intros e|split; [by right|tauto]]. destruct (is_os_error e).
        -- apply spec_ret. split; [by right|]. tauto.
        -- apply spec_raise. split; [by right|]. tauto.
    + intros Hn. split; [intros e|split; [by right|tauto]]. destruct (is_os_error e).
      * apply spec_ret. split; [by right|]. tauto.
      * apply spec_raise. split; [by right|]. tauto.
  - assert (Hq : ~ q) by (intros Hq; specialize (Hc Hq); done).
    apply spec_bind, spec_catch. eapply spec_mono; [|apply (undo_spec q previous next _ _ Hd2)].
    intros [[]|e'|] d3 He3.
    + apply spec_raise. split; [done|]. split; [by intros []%HN|tauto].
    + apply spec_raise. split; [done|]. split; [by intros []%HN|tauto].
    + split; [done|]. tauto.
  - split; [by eapply journalled_either|]. split; [tauto|]. intros Hq. by specialize (Hc Hq).
Qed.
End Transaction.
