(* ===== verification/RegistryCommit.v ===== *)
(** * From snapshots to files and back

    The text of a registry document reads back as its front matter, unless the
    YAML contains the fence; what a call of the store returns is what its bytes
    read back as; the files of a readable snapshot are a generation that
    recovery accepts, and a write of it is all or nothing.  The last module
    shows a registration with a padded name, of which the latter is not true. *)
From Stdlib Require Import Ascii.
From S2P Require Import Prelude PyValue Sql SettingsRebind VaultRegistry DimensionState RegistryStore RegistryProps RegistryRoundtrip RegistryFiles RegistryTransaction.
Open Scope Z_scope.

(** ** Fences *)

Definition fence : string := "---".
Lemma app_str_assoc (a b c : string) : (a +:+ b) +:+ c = a +:+ (b +:+ c).
Proof. induction a as [|x a IH]; [done|]. simpl. unfold String.app in *. f_equal. exact IH. Qed.
Lemma cut_fence y : cut fence (fence +:+ y) = Some ("", y).
Proof. done. Qed.
(** A line that does not start with the fence does not start with it when more lines follow. *)
Lemma startswith_line a z : startswith fence (a +:+ nl +:+ z) = startswith fence a.
Proof.
  destruct a as [|c1 [|c2 [|c3 a]]]; simpl; [done|by rewrite ?andb_false_r..|done].
Qed.
Lemma cut_unfold sep c s : cut sep (String c s) = if startswith sep (String c s) then Some ("", str_drop (String.length sep) (String c s))
  else '(a, b) ← cut sep s; Some (String c a, b).
Proof. done. Qed.
Lemma cut_line a y : cut fence a = None -> cut fence (a +:+ nl +:+ fence +:+ y) = Some (a +:+ nl, y).
Proof.
  induction a as [|c a IH]; [done|]. rewrite cut_unfold. intros H.
  change (String c a +:+ nl +:+ fence +:+ y) with (String c (a +:+ nl +:+ fence +:+ y)). rewrite cut_unfold.
  change (String c (a +:+ nl +:+ fence +:+ y)) with (String c a +:+ nl +:+ (fence +:+ y)). rewrite startswith_line.
  destruct (startswith fence (String c a)); [done|]. rewrite IH; [done|]. by destruct (cut fence a) as [[]|].
Qed.
Lemma startswith_longer sep a b : startswith sep a = true -> startswith sep (a +:+ b) = true /\ str_drop (String.length sep) (a +:+ b) = str_drop (String.length sep) a +:+ b.
Proof.
  revert a. induction sep as [|x sep IH]; intros a H; [by destruct a|]. destruct a as [|y a]; [done|].
  simpl in H. apply andb_true_iff in H as [H1 H2]. destruct (IH a H2) as [H3 H4]. simpl. by rewrite H1.
Qed.
Lemma cut_head c s : Ascii.eqb "-" c = false -> cut fence (String c s) = '(a, b) ← cut fence s; Some (String c a, b).
Proof. intros H. rewrite cut_unfold. unfold fence at 1. cbn [startswith]. by rewrite H. Qed.

(** ** Rendering *)

Section Rendering.
Context (safe_dump : pydict -> string) (safe_load : string -> option pyval).

(** The YAML text of a front matter. *)
Definition yaml_text (frontmatter : pydict) : string := strip (safe_dump frontmatter).
(** The document does not use the fence inside its YAML and reads back. *)
Definition legible (frontmatter : pydict) (body : string) : Prop :=
  cut fence (yaml_text frontmatter) = None
  /\ conflict_markers false false (line_starts (_render_markdown_settings safe_dump frontmatter body)) = false
  /\ safe_load (nl +:+ yaml_text frontmatter +:+ nl) = Some (PDict (yaml_norm_dict frontmatter)).

Lemma rendered_cut frontmatter body : exists rest,
  _render_markdown_settings safe_dump frontmatter body = fence +:+ nl +:+ yaml_text frontmatter +:+ nl +:+ fence +:+ nl +:+ rest.
Proof. eexists. reflexivity. Qed.
Lemma split_legible frontmatter body : legible frontmatter body -> exists rest,
  _split_rendered safe_load (_render_markdown_settings safe_dump frontmatter body) = Ok (yaml_norm_dict frontmatter, rest).
Proof.
  intros (Hc & Hm & Hl). destruct (rendered_cut frontmatter body) as [rest Er]. rewrite Er in *.
  unfold _split_rendered. rewrite Hm. cbn [raise_if mbind res_bind].
  change (startswith ("---" +:+ nl) (fence +:+ nl +:+ yaml_text frontmatter +:+ nl +:+ fence +:+ nl +:+ rest)) with true.
  cbn [negb raise_if mbind res_bind]. change "---" with fence. rewrite cut_fence. cbn [mbind option_bind].
  change (nl +:+ yaml_text frontmatter +:+ nl +:+ fence +:+ nl +:+ rest)
    with (String "010" (yaml_text frontmatter +:+ nl +:+ fence +:+ (nl +:+ rest))).
  rewrite cut_head by done. rewrite cut_line by done. cbn [mbind option_bind].
  change (String "010" (yaml_text frontmatter +:+ nl)) with (nl +:+ yaml_text frontmatter +:+ nl). rewrite Hl.
  destruct (yaml_norm_dict frontmatter); simpl; eauto.
Qed.

Lemma cut_longer s a b z : cut fence s = Some (a, b) -> cut fence (s +:+ z) = Some (a, b +:+ z).
Proof.
  revert a. induction s as [|c s IH]; intros a H; [done|]. rewrite cut_unfold in H.
  destruct (startswith fence (String c s)) eqn:E.
  - injection H as <- <-. destruct (startswith_longer _ _ z E) as [E1 E2].
    change (String c s +:+ z) with (String c (s +:+ z)) in *. rewrite cut_unfold, E1. by rewrite E2.
  - destruct (cut fence s) as [[a' b']|] eqn:Ec; [|done]. injection H as <- <-.
    change (String c s +:+ z) with (String c (s +:+ z)). rewrite cut_unfold.
    assert (startswith fence (String c (s +:+ z)) = false) as ->.
    { destruct s as [|c2 [|c3 s]]; [done|simpl in Ec; by rewrite andb_false_r in Ec|]. exact E. }
    by rewrite (IH a' eq_refl).
Qed.

(** A fence inside the YAML ends it there: whatever the front matter says from
    that point on, the text reads back as if it were not there. *)
Lemma fence_truncates frontmatter body a b : cut fence (yaml_text frontmatter) = Some (a, b) ->
  forall d rest, _split_rendered safe_load (_render_markdown_settings safe_dump frontmatter body) = Ok (d, rest) ->
  safe_load (nl +:+ a) = Some (PDict d) \/ d = [].
Proof.
  intros Hc d rest. destruct (rendered_cut frontmatter body) as [rest' Er]. rewrite Er.
  unfold _split_rendered. intros H. bound H as u1 E1. bound H as u2 E2. change "---" with fence in H.
  rewrite cut_fence in H. cbn [mbind option_bind] in H.
  change (nl +:+ yaml_text frontmatter +:+ nl +:+ fence +:+ nl +:+ rest')
    with (String "010" (yaml_text frontmatter +:+ (nl +:+ fence +:+ nl +:+ rest'))) in H.
  rewrite cut_head, (cut_longer _ _ _ _ Hc) in H by done. cbn [mbind option_bind] in H.
  change (String "010" a) with (nl +:+ a) in H. destruct (safe_load (nl +:+ a)) as [v|]; [|done].
  unfold py_or in H. destruct (truthy v); [|right; by injection H]. left. destruct v; try done. by injection H as -> _.
Qed.
End Rendering.

(** ** The legacy export *)

Lemma sorted_unique {A} (l l' : list (string * A)) : key_sorted l -> key_sorted l' -> NoDup (map fst l) -> l ≡ₚ l' -> l = l'.
Proof.
  unfold key_sorted. intros Hl. revert l'. induction Hl as [|x l Hs IH Hx]; intros l' Hl' Hn Hp.
  { by apply Permutation_nil_l in Hp. }
  destruct Hl' as [|y l' Hs' Hy]; [by apply Permutation_nil_r in Hp|]. assert (x = y) as ->.
  { assert (Hxy : x ∈ y :: l') by (rewrite <- Hp; by left). assert (Hyx : y ∈ x :: l) by (rewrite Hp; by left).
    apply elem_of_cons in Hxy as [->|Hxy]; [done|]. apply elem_of_cons in Hyx as [->|Hyx]; [done|].
    rewrite Forall_forall in Hx, Hy. specialize (Hx _ Hyx). specialize (Hy _ Hxy).
    pose proof (String.leb_antisym _ _ Hx Hy) as Ek. simpl in Hn. apply NoDup_cons in Hn as [Hn _].
    destruct Hn. rewrite Ek. apply list_elem_of_fmap. by exists y. }
  simpl in Hn. apply NoDup_cons in Hn as [_ Hn]. f_equal. apply IH; [done..|]. by apply Permutation_cons_inv in Hp.
Qed.

Section Commit.
Context (sha256_hex : string -> string) (root : string -> option FilesystemRootIdentity).

Definition refs (regs : list (string * VaultRegistration)) : list string := map (fun kr => vg_ref (snd kr)) regs.
Lemma clash_free c identity regs : clashes_with root c identity regs = Ok tt ->
  forall k r, (k, r) ∈ regs -> k <> vg_vault_binding_id c -> vg_ref r <> vg_ref c.
Proof.
  induction regs as [|[j x] regs IH]; [by intros _ k r []%not_elem_of_nil|]. cbn [clashes_with].
  destruct (String.eqb_spec j (vg_vault_binding_id c)) as [->|N]; intros H k r [[= -> ->]|Hin]%elem_of_cons Hk; [done|by eapply IH|..].
  - bound H as u1 E1. apply raise_if_ok in E1. by apply String.eqb_neq in E1.
  - bound H as u1 E1. bound H as o Eo. bound H as u2 E2. by eapply IH.
Qed.
Lemma read_refs l acc out : Forall (fun kv => registration_ok (fst kv) (snd kv)) l -> NoDup (map fst (acc ++ l)) ->
  NoDup (refs acc) ->
  read_registrations root (map (fun kv => (fst kv, PDict (_registration_to_frontmatter (snd kv)))) l) acc = Ok out ->
  NoDup (refs out).
Proof.
  intros Hf. revert acc. induction Hf as [|[k r] l Hr Hf IH]; intros acc Hn Ha; simpl; [by intros [= ->]|].
  rewrite (registration_roundtrip k r Hr). cbn [mbind res_bind]. intros H. bound H as u1 E1. bound H as u2 E2.
  pose proof (proj1 Hr) as Hk. simpl in Hk. rewrite Hk in H. pose proof Hn as Hn'. apply keyed_snoc in Hn as [Es Hn]. rewrite Es in H.
  apply (IH _ Hn); [|done]. unfold refs. rewrite map_app. apply NoDup_app. split; [exact Ha|]. split; [|apply NoDup_singleton].
  intros x Hx Hx'. simpl in Hx'. apply list_elem_of_singleton in Hx'. subst x.
  apply list_elem_of_fmap in Hx as ([j y] & Ey & Hy). simpl in Ey. destruct u2.
  unfold _assert_registration_unique in E2. bound E2 as o Eo. refine (clash_free _ _ _ E2 j y Hy _ (eq_sym Ey)).
  rewrite Hk. intros ->. rewrite map_app in Hn'. apply NoDup_app in Hn' as (_ & Hd & _). apply (Hd k); [|by left].
  apply list_elem_of_fmap. by exists (k, y).
Qed.

Lemma sort_by_ref {A} (f : VaultRegistration -> A) regs : NoDup (refs regs) ->
  sort_keys (map (fun item => (vg_ref item, f item)) (map snd (sort_keys regs)))
  = sort_keys (map (fun item => (vg_ref item, f item)) (map snd regs)).
Proof.
  intros Hn. assert (Hp : map snd (sort_keys regs) ≡ₚ map snd regs) by (by rewrite sort_keys_perm).
  apply sorted_unique; [apply sort_keys_sorted..| |].
  - rewrite (sort_keys_perm (map _ (map snd (sort_keys regs)))). rewrite map_map. simpl. rewrite Hp, map_map. exact Hn.
  - rewrite (sort_keys_perm (map _ (map snd (sort_keys regs)))), (sort_keys_perm (map _ (map snd regs))). by rewrite Hp.
Qed.
(** The export of a snapshot does not depend on the order of its registrations. *)
Lemma export_ordered s p q : NoDup (refs (rg_registrations s)) ->
  _rollback_export_payload (in_key_order s) p q = _rollback_export_payload s p q.
Proof.
  intros Hn. unfold _rollback_export_payload. cbn [in_key_order rg_registrations rg_extensions rg_app_install_id
    rg_last_active_vault_ref rg_schema rg_revision]. change (is_active (in_key_order s)) with (is_active s).
  destruct (match p with Some _ => _ | None => _ end) as [selected|e]; [|done]. cbn [mbind res_bind].
  destruct selected as [b|]; [by rewrite dict_get_sort|]. cbn [mbind res_bind]. by rewrite (sort_by_ref _ _ Hn).
Qed.

Lemma parsed_refs s s' : canonical s ->
  _snapshot_from_frontmatter sha256_hex root (_frontmatter_from_snapshot s) = Ok s' -> NoDup (refs (rg_registrations s)).
Proof.
  intros Hc. unfold _snapshot_from_frontmatter. rewrite frontmatter_registrations, mapping_of_dict. intros H.
  bound H as u1 E1. bound H as u2 E2. destruct (as_int _); [|done]. bound H as u3 E3. cbn [mbind res_bind] in H.
  bound H as regs Eregs. pose proof Eregs as Eback. destruct (keyed_sort _ _ (can_registrations _ Hc)) as [Hn Hf].
  apply read_registrations_back in Eback as ->; [|done..]. apply read_refs in Eregs; [|done|done|constructor].
  simpl in Eregs. unfold refs in *. by rewrite sort_keys_perm in Eregs.
Qed.

Context (safe_dump : pydict -> string) (safe_load : string -> option pyval) (json_loads : string -> option pyval).

(** What the bytes of a snapshot read back as. *)
Lemma bytes_read_back s payload : canonical s -> legible safe_dump safe_load (_frontmatter_from_snapshot s) registry_body ->
  payload_bytes sha256_hex root safe_dump s = Ok payload -> utf8 payload = true ->
  read_bytes sha256_hex root safe_load payload = Ok (in_key_order s)
  /\ export_bytes safe_dump (in_key_order s) = export_bytes safe_dump s.
Proof.
  intros Hc Hl Hp Hu. unfold payload_bytes in Hp. bound Hp as s' Es. injection Hp as <-.
  pose proof (frontmatter_reads_back _ _ _ _ Hc Es) as ->. split.
  - unfold read_bytes. rewrite Hu. cbn [negb raise_if mbind res_bind]. destruct (split_legible _ _ _ _ Hl) as [rest ->].
    cbn [mbind res_bind]. by rewrite (frontmatter_plain s Hc).
  - unfold export_bytes. rewrite export_ordered; [done|]. by eapply parsed_refs.
Qed.

(** The files of a snapshot are what recovery accepts. *)
Lemma next_accepted s payload export retire previous : canonical s ->
  legible safe_dump safe_load (_frontmatter_from_snapshot s) registry_body ->
  payload_bytes sha256_hex root safe_dump s = Ok payload -> utf8 payload = true ->
  export_bytes safe_dump s = Ok export ->
  (retire = false -> forall bytes, previous !! ScalarSession = Some bytes -> session_shape json_loads bytes = Ok tt) ->
  _validate_next_generation sha256_hex root safe_dump safe_load json_loads (next_generation sha256_hex payload export retire previous) = Ok tt.
Proof.
  intros Hc Hl Hp Hu He Hs. destruct (bytes_read_back s payload Hc Hl Hp Hu) as [Hr Hx].
  unfold _validate_next_generation, next_generation, gather. simpl.
  set (g0 := match (if retire then _ else _) with Some p => _ | None => _ end).
  assert (G : g0 !! ScalarSession = (if retire then None else previous !! ScalarSession)).
  { subst g0. destruct retire; [done|]. destruct (previous !! ScalarSession); by simplify_map_eq. }
  simplify_map_eq. rewrite (bool_decide_true _ eq_refl), String.eqb_refl. cbn [negb raise_if mbind res_bind].
  unfold next_contents. rewrite Hr. cbn [mbind res_bind]. rewrite Hx, He. cbn [mbind res_bind].
  rewrite String.eqb_refl. cbn [negb raise_if mbind res_bind]. rewrite G.
  destruct retire; [done|]. destruct (previous !! ScalarSession) as [bytes|] eqn:E; [|done]. by rewrite (Hs eq_refl bytes eq_refl).
Qed.

(** A session that stays is one that recovery accepts. *)
Definition session_ok (retire : bool) (g : generation) : Prop :=
  retire = false -> forall bytes, g !! ScalarSession = Some bytes -> session_shape json_loads bytes = Ok tt.
(** The document of the snapshot can be read back by its text. *)
Definition readable (s : RegistrySnapshot) : Prop :=
  canonical s /\ legible safe_dump safe_load (_frontmatter_from_snapshot s) registry_body
  /\ forall payload, payload_bytes sha256_hex root safe_dump s = Ok payload -> utf8 payload = true /\ universal_newlines payload = payload.
(** The files are those of the snapshot. *)
Definition holds_files (s : RegistrySnapshot) (retire : bool) (previous g : generation) : Prop :=
  exists payload export, payload_bytes sha256_hex root safe_dump s = Ok payload /\ export_bytes safe_dump s = Ok export
    /\ g = next_generation sha256_hex payload export retire previous.


(** ** Reading the files of a snapshot *)

Lemma document_read_back s payload : canonical s -> legible safe_dump safe_load (_frontmatter_from_snapshot s) registry_body ->
  payload_bytes sha256_hex root safe_dump s = Ok payload -> utf8 payload = true -> universal_newlines payload = payload ->
  _read_document safe_load payload = Ok (yaml_norm_dict (_frontmatter_from_snapshot s))
  /\ _snapshot_from_frontmatter sha256_hex root (yaml_norm_dict (_frontmatter_from_snapshot s)) = Ok (in_key_order s).
Proof.
  intros Hc Hl Hp Hu Hn. unfold payload_bytes in Hp. bound Hp as s' Es. injection Hp as <-.
  pose proof (frontmatter_reads_back _ _ _ _ Hc Es) as ->. split; [|by rewrite (frontmatter_plain s Hc)].
  unfold _read_document. rewrite Hu, Hn. cbn [negb raise_if mbind res_bind]. by destruct (split_legible _ _ _ _ Hl) as [rest ->].
Qed.
(** The next load returns the snapshot, its entries in key order, and leaves the files as they are. *)
Lemma load_settled s retire previous g d uuid : readable s -> holds_files s retire previous g -> settled g d ->
  load_files sha256_hex root safe_dump safe_load json_loads uuid ([], d) = (Returned (in_key_order s), ([], d)).
Proof.
  intros (Hc & Hl & Hu) (payload & export & Hp & He & ->) [Hj Hf]. destruct (Hu _ Hp) as [Hu1 Hu2].
  destruct (document_read_back s payload Hc Hl Hp Hu1 Hu2) as [Hd Hs].
  destruct (bytes_read_back s payload Hc Hl Hp Hu1) as [_ Hx]. rewrite He in Hx.
  assert (Hm : dk_files d !! Main = Some payload) by (rewrite Hf; unfold next_generation, gather; simpl; by simplify_map_eq).
  assert (Hxf : dk_files d !! RollbackExport = Some export) by (rewrite Hf; unfold next_generation, gather; simpl; by simplify_map_eq).
  assert (Henv : _ensure_rollback_export_locked sha256_hex root safe_dump safe_load ([], d) = (Returned tt, ([], d))).
  { unfold _ensure_rollback_export_locked. unfold mbind at 1, tx_bind at 1. simpl. rewrite Hm.
    unfold mbind at 1, tx_bind at 1, tx_catch. unfold mbind at 1, tx_bind at 1. simpl. unfold mbind at 1, tx_bind at 1, tx_lift at 1.
    rewrite Hd. cbn [mret tx_ret]. destruct (negb _); [done|]. rewrite Hs. unfold mbind at 1, tx_bind at 1, tx_lift. rewrite Hx.
    unfold mbind at 1, tx_bind at 1. simpl. destruct (is_active _); [done|]. unfold mbind, tx_bind. simpl.
    rewrite Hxf. by rewrite bool_decide_true. }
  unfold load_files. unfold mbind at 1, tx_bind at 1. simpl. unfold mbind at 1, tx_bind at 1, _recover_transaction_locked.
  unfold mbind at 1, tx_bind at 1. simpl. rewrite Hj. cbn [mret tx_ret]. unfold mbind at 1, tx_bind at 1. rewrite Henv.
  unfold mbind at 1, tx_bind at 1. simpl. rewrite bool_decide_true by (rewrite Hm; eauto).
  unfold read_current, tx_catch. unfold mbind at 1, tx_bind at 1. simpl. unfold mbind at 1, tx_bind at 1. simpl. rewrite Hm.
  unfold tx_lift. rewrite Hd. cbn [mbind res_bind]. by rewrite Hs.
Qed.

(** ** Reading one's writes *)

(** What a reader makes of the bytes of the main file. *)
Definition main_reads (bytes : string) : res RegistrySnapshot :=
  frontmatter ← _read_document safe_load bytes; _snapshot_from_frontmatter sha256_hex root frontmatter.
(** The bytes hold the document of the registry. *)
Definition holds_document (w : registry) (bytes : string) : Prop :=
  exists d, rs_document w = Some d /\ _read_document safe_load bytes = Ok d.

(** C12: What a call of the registry store returns is what the next reader finds in the file.  Take any call (a load, a
    registration, a change of default, a removal, a wholesale transition, a write of dimensions, leases, floors, intent
    or rebind record, an activation) that returns a snapshot whose document reads back: its texts carry no surrounding
    white space and its extensions use no field of the document ([canonical]), and the rendered text is UTF-8 that YAML
    reads back, with no carriage return, no Git conflict markers and no three dashes in a row inside the YAML
    ([readable]; [fence_truncates] says what three dashes do).  If the call wrote, the rendered bytes of the snapshot
    are split and parsed back into the document of the registry; and from whatever bytes hold that document, a reader
    under the same vault roots gets the snapshot, its registrations and tombstones in key order.  So does a later
    [load]. *)
Theorem read_your_writes env c w s w' : ce_root env = root ->
  run_call sha256_hex env c w = (Ok s, w') -> readable s ->
  (w' <> w -> exists payload, payload_bytes sha256_hex root safe_dump s = Ok payload /\ holds_document w' payload)
  /\ exists s', (s' = s \/ s' = in_key_order s)
     /\ (forall bytes, holds_document w' bytes -> main_reads bytes = Ok s')
     /\ forall env', ce_root env' = root -> ce_lock env' = None -> load sha256_hex env' w' = (Ok s', w').
Proof.
  intros Er E (Hc & Hl & Hu). destruct (call_yields _ _ _ _ _ _ E Hc) as (d & s' & Ed & Es & H). rewrite Er in Es. split.
  - intros Hw. destruct H as [[_ ->]|[-> ->]]; [done|].
    assert (Hp : payload_bytes sha256_hex root safe_dump s
                 = Ok (_render_markdown_settings safe_dump (_frontmatter_from_snapshot s) registry_body))
      by (unfold payload_bytes; by rewrite Es).
    eexists. split; [exact Hp|]. exists (_frontmatter_from_snapshot s). split; [done|]. destruct (Hu _ Hp) as [H1 H2].
    rewrite <- (frontmatter_plain s Hc) at 2. by apply (document_read_back s).
  - exists s'. split; [tauto|]. split.
    + intros bytes (d' & Ed' & Hb). unfold main_reads. rewrite Hb. cbn [mbind res_bind]. by simplify_eq.
    + intros env' Hr Hk. unfold load, _locked, read_or_initialize, _read_current_locked. by rewrite Hk, Ed, Hr, Es.
Qed.

(** ** Writes that are disturbed *)

Abbreviation recover := (_recover_transaction_locked sha256_hex root safe_dump safe_load json_loads).
(** Recoveries that may be disturbed, one after the other. *)
Fixpoint recoveries (attempts : list (list tick)) (d : disk) : disk :=
  match attempts with
  | [] => d
  | ticks :: attempts => recoveries attempts (snd (snd (recover (ticks, d))))
  end.
Lemma recoveries_decided previous next g attempts d :
  _validate_next_generation sha256_hex root safe_dump safe_load json_loads next = Ok tt ->
  decided sha256_hex previous next g d -> decided sha256_hex previous next g (recoveries attempts d).
Proof.
  intros Hv. revert d. induction attempts as [|t attempts IH]; intros d Hd; simpl; [done|]. apply IH.
  destruct (recover (t, d)) as [o [t' d']] eqn:E.
  exact (proj1 (proj2 (recover_spec _ _ _ _ _ _ _ Hv False g d Hd _ _ _ _ ltac:(done) E))).
Qed.
Lemma recovered previous next g attempts d :
  _validate_next_generation sha256_hex root safe_dump safe_load json_loads next = Ok tt ->
  decided sha256_hex previous next g d ->
  let final := recover ([], recoveries attempts d) in fst final = Returned tt /\ settled g (snd (snd final)).
Proof.
  intros Hv Hd final. apply (recoveries_decided _ _ _ attempts) in Hd; [|done].
  subst final. destruct (recover ([], recoveries attempts d)) as [o [t' d']] eqn:E.
  destruct (recover_spec _ _ _ _ _ _ _ Hv True g _ Hd _ _ _ _ ltac:(intros _; constructor) E) as (_ & _ & H1 & H2). auto.
Qed.

(** Whether recovered files are the old ones, or the new ones and load as the snapshot. *)
Definition outcome_of (s : RegistrySnapshot) (retire : bool) (previous : generation) (o : outcome unit) (d : disk) : Prop :=
  (settled previous d /\ ~ returns o)
  \/ (exists g, settled g d /\ holds_files s retire previous g)
     /\ forall uuid, load_files sha256_hex root safe_dump safe_load json_loads uuid ([], d) = (Returned (in_key_order s), ([], d)).
Lemma outcome_new s retire previous o d g : readable s -> settled g d -> holds_files s retire previous g -> outcome_of s retire previous o d.
Proof. intros Hr Hd Hg. right. split; [by exists g|]. intros uuid. by eapply load_settled. Qed.

(** Nothing was written: recovery has nothing to do. *)
Lemma settled_recover q g d : settled g d -> spec q recover d (fun o d' => settled g d' /\ (q -> o = Returned tt)).
Proof.
  intros Hd. unfold _recover_transaction_locked.
  apply spec_bind, spec_look; [|intros Hq; split; [intros e|]; (split; [done|tauto])].
  rewrite (proj1 Hd). by apply spec_ret.
Qed.
Lemma settled_recoveries g attempts d : settled g d -> settled g (recoveries attempts d).
Proof.
  revert d. induction attempts as [|t attempts IH]; intros d Hd; simpl; [done|]. apply IH.
  destruct (recover (t, d)) as [o [t' d']] eqn:E.
  exact (proj1 (proj2 (settled_recover False g d Hd _ _ _ _ ltac:(done) E))).
Qed.
Lemma refused s retire previous d e attempts : settled previous d ->
  let final := recover ([], recoveries attempts d) in
  fst final = Returned tt /\ outcome_of s retire previous (Raised e) (snd (snd final)).
Proof.
  intros Hd final. apply (settled_recoveries _ attempts) in Hd. subst final.
  destruct (recover ([], recoveries attempts d)) as [o [t' d']] eqn:E.
  destruct (settled_recover True _ _ Hd _ _ _ _ ltac:(intros _; constructor) E) as (_ & H1 & H2).
  split; [auto|]. left. split; [done|by intros [? ?]].
Qed.

(** C13: A write of a readable snapshot is all or nothing.  Take settled files, a snapshot whose document reads back
    ([readable]: canonical texts without surrounding white space, extensions that use no field of the document, a
    rendered text that YAML reads back, with no three dashes inside it) and, unless the write retires it, a session file
    that recovery accepts ([session_ok]).  The code does not enforce the first: [padded_name_blocks_recovery] shows a
    registration it accepts whose interrupted write recovery refuses for good.  Under these conditions, whatever happens
    to the write (any step fails, or the process dies at any step) and to any number of recoveries after it, one
    undisturbed recovery succeeds, removes the journal and leaves exactly the five files there were before or exactly
    the five files of the new snapshot, which load as that snapshot; after a write that returned, the new ones. *)
Theorem registry_write_is_atomic s retire previous d ticks o ticks' d' attempts :
  settled previous d -> readable s -> session_ok retire previous ->
  write_files sha256_hex root safe_dump s retire (ticks, d) = (o, (ticks', d')) ->
  let final := recover ([], recoveries attempts d') in
  fst final = Returned tt /\ outcome_of s retire previous o (snd (snd final)).
Proof.
  intros Hd Hr Hs E. pose proof Hr as (Hc & Hl & Hu). unfold write_files in E.
  destruct (negb _); [by injection E as <- <- <-; apply refused|]. cbn [tx_guard] in E. unfold mbind at 1, tx_bind at 1 in E. simpl in E.
  unfold mbind at 1, tx_bind at 1, tx_lift at 1 in E.
  destruct (payload_bytes sha256_hex root safe_dump s) as [payload|e] eqn:Ep; [|by injection E as <- <- <-; apply refused].
  unfold mbind at 1, tx_bind at 1, tx_lift at 1 in E.
  destruct (export_bytes safe_dump s) as [export|e] eqn:Ee; [|by injection E as <- <- <-; apply refused].
  set (next := next_generation sha256_hex payload export retire previous).
  assert (Hv : _validate_next_generation sha256_hex root safe_dump safe_load json_loads next = Ok tt)
    by (apply (next_accepted s); auto; by apply Hu).
  assert (Hn : holds_files s retire previous next) by (by exists payload, export).
  destruct (write_generation_spec sha256_hex False _ _ _ Hd _ _ _ _ ltac:(done) E) as (_ & He & Hret & _). fold next in He, Hret.
  destruct He as [He|He]; [destruct o as [u|e|]|].
  - destruct (recovered _ _ _ attempts _ Hv (Hret (ex_intro _ _ eq_refl))) as [H1 H2]. split; [done|]. by apply (outcome_new _ _ _ _ _ next).
  - destruct (recovered _ _ _ attempts _ Hv He) as [H1 H2]. split; [done|]. left. split; [done|by intros [? ?]].
  - destruct (recovered _ _ _ attempts _ Hv He) as [H1 H2]. split; [done|]. left. split; [done|by intros [? ?]].
  - destruct (recovered _ _ _ attempts _ Hv He) as [H1 H2]. split; [done|]. by apply (outcome_new _ _ _ _ _ next).
Qed.
End Commit.

Module CommitRun.
Definition here (p : string) : option FilesystemRootIdentity := Some (mkRoot p None None).
Definition saved : RegistrySnapshot := RegistryRun.recorded.
(** A dumper and a loader that know one document. *)
Definition dump (frontmatter : pydict) : string := "schema: registry" +:+ nl.
Definition load_yaml (text : string) : option pyval :=
  if String.eqb text (nl +:+ "schema: registry" +:+ nl) then Some (PDict (yaml_norm_dict (_frontmatter_from_snapshot saved))) else None.
Definition no_json (text : string) : option pyval := None.
Definition fresh : disk := mkDisk ∅ None.
(** The write dies between the last good copy and its checksum; the first recovery dies as well. *)
Definition killed : list tick := repeat Go 12 ++ [Kill].
Definition after := Eval vm_compute in write_files RegistryRun.sha here dump saved false (killed, fresh).
Lemma saved_readable : readable RegistryRun.sha here dump load_yaml saved.
Proof.
  split; [exact RegistryRun.recorded_canonical|]. split; [split; [|split]; vm_compute; reflexivity|].
  intros payload [= <-]. vm_compute. split; reflexivity.
Qed.
Lemma registry_write_is_atomic_run :
  dk_files (snd (snd after)) <> ∅ /\
  (let final := _recover_transaction_locked RegistryRun.sha here dump load_yaml no_json
     ([], recoveries RegistryRun.sha here dump load_yaml no_json [repeat Go 9 ++ [Kill]] (snd (snd after))) in
   fst final = Returned tt /\ settled ∅ (snd (snd final))).
Proof.
  split; [vm_compute; discriminate|].
  destruct (registry_write_is_atomic RegistryRun.sha here dump load_yaml no_json saved false ∅ fresh killed
    (fst after) (fst (snd after)) (snd (snd after)) [repeat Go 9 ++ [Kill]]) as [H [[H1 _]|[[g [Hg (payload & export & Hp & He & ->)]] _]]].
  - split; reflexivity.
  - exact saved_readable.
  - intros _ bytes E. discriminate E.
  - vm_compute. reflexivity.
  - split; [exact H|exact H1].
  - exfalso. destruct Hg as [_ Hg]. apply (f_equal (fun g : generation => g !! Main)) in Hg. vm_compute in Hg. discriminate Hg.
Defined.

(** The first registration has just been written. *)
Lemma read_your_writes_run :
  (exists payload, payload_bytes RegistryRun.sha here dump saved = Ok payload
     /\ holds_document load_yaml (snd RegistryRun.opened_first) payload)
  /\ exists s', rg_revision s' = 1 /\ rg_default_vault_binding_id s' = Some "b1"
     /\ load RegistryRun.sha RegistryRun.env (snd RegistryRun.opened_first) = (Ok s', snd RegistryRun.opened_first).
Proof.
  destruct (read_your_writes RegistryRun.sha here dump load_yaml RegistryRun.env
    (CallRegister RegistryRun.first_vault (Some 0) (Some DEFAULT_PROVENANCE_FIRST_OPEN_EXISTING)) (mkRegistryState None false) saved
    (snd RegistryRun.opened_first) eq_refl ltac:(vm_compute; reflexivity) saved_readable) as [H1 (s' & Hs & _ & H2)].
  split; [apply H1; discriminate|]. exists s'. split; [|split; [|by apply H2]]; destruct Hs as [-> | ->]; vm_compute; reflexivity.
Defined.
End CommitRun.

(** ** A padded name

    [_validate_registration] accepts a vault name with surrounding white space.
    The registry file reads back with the name stripped, the legacy export
    beside it was rendered with the padded one: recovery renders the export of
    what it read, finds another text and refuses, on every attempt. *)
Module PaddedRun.
Definition here (p : string) : option FilesystemRootIdentity := Some (mkRoot p None None).
Definition padded_vault : VaultRegistration :=
  mkRegistration "b1" "home" "/home/vault" (Some "v1") None (Some " Home ") None [].
Definition opened := Eval vm_compute in
  run_call RegistryRun.sha RegistryRun.env (CallRegister padded_vault (Some 0) (Some DEFAULT_PROVENANCE_FIRST_OPEN_EXISTING))
    (mkRegistryState None false).
Definition padded : RegistrySnapshot := Eval vm_compute in
  match fst opened with Ok s => s | Raise _ => _empty_snapshot "u1" end.
(** A dumper that tells documents apart and a loader that reads back what it dumped. *)
Definition dump (frontmatter : pydict) : string := json_dumps ", " ": " false (PDict frontmatter).
Definition load_yaml (text : string) : option pyval :=
  if String.eqb text (nl +:+ yaml_text dump (_frontmatter_from_snapshot padded) +:+ nl)
  then Some (PDict (yaml_norm_dict (_frontmatter_from_snapshot padded))) else None.
(** The write dies after it has put the last good copy in place. *)
Definition stuck : disk := Eval vm_compute in
  snd (snd (write_files RegistryRun.sha here dump padded false (repeat Go 12 ++ [Kill], CommitRun.fresh))).
Abbreviation recover := (_recover_transaction_locked RegistryRun.sha here dump load_yaml CommitRun.no_json).

Lemma stuck_recover ticks : snd (snd (recover (ticks, stuck))) = stuck /\ fst (recover (ticks, stuck)) <> Returned tt.
Proof.
  destruct ticks as [|[|e|] [|[|e'|] ticks]]; vm_compute; (split; [reflexivity|discriminate]).
Qed.

(** The registration is valid, the text of its document reads back, the write is interrupted, and then no recovery
    ever succeeds: every later load raises. *)
Lemma padded_name_blocks_recovery :
  _validate_registration padded_vault = Ok tt
  /\ _read_document load_yaml (_render_markdown_settings dump (_frontmatter_from_snapshot padded) registry_body)
     = Ok (_frontmatter_from_snapshot padded)
  /\ (forall attempts, fst (recover ([], recoveries RegistryRun.sha here dump load_yaml CommitRun.no_json attempts stuck))
       <> Returned tt)
  /\ forall uuid, fst (load_files RegistryRun.sha here dump load_yaml CommitRun.no_json uuid ([], stuck))
       = Raised (RegistryError "registry transaction next generation payload is invalid").
Proof.
  split; [reflexivity|]. split; [vm_compute; reflexivity|]. split; [|intros uuid; vm_compute; reflexivity].
  assert (H : forall attempts, recoveries RegistryRun.sha here dump load_yaml CommitRun.no_json attempts stuck = stuck).
  { intros attempts. induction attempts as [|t attempts IH]; cbn [recoveries]; [done|].
    by rewrite (proj1 (stuck_recover t)). }
  intros attempts. rewrite H. apply stuck_recover.
Qed.
End PaddedRun.
