(* ===== verification/EffectLease.v ===== *)
(** * Binding effect leases

    src/app/instance/binding_effect_lease.py: shared and exclusive effect
    windows on one binding, across processes.

    The lock of the state file makes every [_state_locked] section exclusive, so
    the program is a sequence of sections ([lx]), each run by one attempt.  What
    a section meets is a schedule with an entry per step: kernel locks that
    vanish before it because their process is gone, what a call of the registry
    meets, and whether the step happens, raises before or after its effect, or
    is the last one of its process.  Behind the end of the schedule nothing
    goes wrong.

    Kernel locks: [w_gate] holds who has the gate of the binding locked and how,
    [w_activity] the activity files by holder id and whether their holder still
    has them locked.  Probes of a section lock and unlock inside it; since locks
    are only taken under the state lock they are conditions on these maps.
    Holder ids are fresh (uuid4) and stand for the activity file named by their
    digest.  The registry is an interface ([LeaseRegistry]); the ownership fence
    around a section is a step that may raise.  Forks are not modelled. *)
From S2P Require Import Prelude PyValue Sql SettingsRebind VaultRegistry RegistryFiles.
Open Scope Z_scope.

Definition LEASE_SCHEMA : string := "agentic-pkm.binding-effect-lease.v1".
Definition JOURNAL_SCHEMA : string := "agentic-pkm.binding-effect-lease-journal.v1".
Definition BindingEffectLeaseError (msg : string) : exn := OtherException msg.

(** ** Lease states *)

Record _HolderState : Type := mkHolder {
  ho_id : string;
  ho_pid : Z;
  ho_process_start : string;
  ho_ticket : Z;
  ho_mode : string }.
#[export] Instance holder_eq_dec : EqDecision _HolderState.
Proof. solve_decision. Defined.
Record _LeaseState : Type := mkLease {
  le_generation : Z;
  le_next_ticket : Z;
  le_shared : list _HolderState;
  le_pending : list _HolderState;
  le_exclusive : option _HolderState }.
#[export] Instance lease_eq_dec : EqDecision _LeaseState.
Proof. solve_decision. Defined.

Definition _empty_state : _LeaseState := mkLease 0 1 [] [] None.
Definition le_holders (s : _LeaseState) : list _HolderState := le_shared s ++ le_pending s ++ option_list (le_exclusive s).

Definition holder_value (h : _HolderState) : pyval :=
  PDict [("holderId", PStr (ho_id h)); ("pid", PInt (ho_pid h)); ("processStart", PStr (ho_process_start h));
         ("ticket", PInt (ho_ticket h)); ("mode", PStr (ho_mode h))].
Definition state_value (vault_binding_id : string) (s : _LeaseState) : pyval :=
  PDict [("schema", PStr LEASE_SCHEMA); ("vaultBindingId", PStr vault_binding_id);
         ("generation", PInt (le_generation s)); ("nextTicket", PInt (le_next_ticket s));
         ("sharedHolders", PList (map holder_value (le_shared s)));
         ("exclusivePending", PList (map holder_value (le_pending s)));
         ("exclusiveHolder", match le_exclusive s with Some h => holder_value h | None => PNone end)].

Definition invalid_holder : exn := BindingEffectLeaseError "binding effect lease holder is invalid".
Definition read_holder (next_ticket : Z) (seen : list _HolderState) (v : pyval) : res _HolderState :=
  match v with
  | PDict d =>
      _ ← raise_if (negb (same_keys d ["holderId"; "pid"; "processStart"; "ticket"; "mode"])) invalid_holder;
      match get d "holderId", get d "pid", get d "processStart", get d "ticket" with
      | PStr holder_id, PInt pid, PStr process_start, PInt ticket =>
          _ ← raise_if (String.eqb holder_id "" || (pid <=? 0) || String.eqb process_start "" || (ticket <=? 0)
                        || (next_ticket <=? ticket) || existsb (fun h => String.eqb (ho_id h) holder_id) seen
                        || existsb (fun h => ho_ticket h =? ticket) seen) invalid_holder;
          match get d "mode" with
          | PStr mode => Ok (mkHolder holder_id pid process_start ticket mode)
          | _ => Ok (mkHolder holder_id pid process_start ticket "")
          end
      | _, _, _, _ => Raise invalid_holder
      end
  | _ => Raise invalid_holder
  end.
(** The holders read, behind those already seen. *)
Fixpoint read_holders (next_ticket : Z) (seen : list _HolderState) (l : list pyval) : res (list _HolderState) :=
  match l with
  | [] => Ok []
  | v :: l =>
      h ← read_holder next_ticket seen v;
      rest ← read_holders next_ticket (seen ++ [h]) l;
      Ok (h :: rest)
  end.
Definition other_mode (mode : string) (l : list _HolderState) : bool :=
  existsb (fun h => negb (String.eqb (ho_mode h) mode)) l.

Definition _validate_state (vault_binding_id : string) (value : pyval) : res _LeaseState :=
  match value with
  | PDict d =>
      _ ← raise_if (negb (same_keys d lease_fields) || negb (py_eqb (get d "schema") (PStr LEASE_SCHEMA)))
            (BindingEffectLeaseError "binding effect lease state has an invalid shape");
      _ ← raise_if (negb (py_eqb (get d "vaultBindingId") (PStr vault_binding_id)))
            (BindingEffectLeaseError "binding effect lease state binding mismatch");
      let invalid := BindingEffectLeaseError "binding effect lease state values are invalid" in
      match get d "generation", get d "nextTicket", get d "sharedHolders", get d "exclusivePending" with
      | PInt generation, PInt next_ticket, PList raw_shared, PList raw_pending =>
          _ ← raise_if ((generation <? 0) || (next_ticket <=? 0)) invalid;
          raw_exclusive ← match get d "exclusiveHolder" with
                          | PNone => Ok []
                          | PDict e => Ok [PDict e]
                          | _ => Raise invalid
                          end;
          shared ← read_holders next_ticket [] raw_shared;
          pending ← read_holders next_ticket shared raw_pending;
          exclusive ← read_holders next_ticket (shared ++ pending) raw_exclusive;
          _ ← raise_if (other_mode "shared" shared)
                (BindingEffectLeaseError "binding effect shared holder mode is invalid");
          _ ← raise_if (other_mode "pending" pending)
                (BindingEffectLeaseError "binding effect pending holder mode is invalid");
          _ ← raise_if (other_mode "exclusive" exclusive)
                (BindingEffectLeaseError "binding effect exclusive holder mode is invalid");
          _ ← raise_if (bool_decide (exclusive <> []) && bool_decide (shared <> []))
                (BindingEffectLeaseError "binding effect lease state overlaps holders");
          Ok (mkLease generation next_ticket shared pending (head exclusive))
      | _, _, _, _ => Raise invalid
      end
  | _ => Raise (BindingEffectLeaseError "binding effect lease state is not a mapping")
  end.

(** ** The registry as the leases use it *)

Class LeaseRegistry (R : Type) : Type := {
  (** What a call meets, and a call that meets nothing. *)
  lr_call : Type;
  lr_calm : lr_call;
  (** [load().extensions.get("bindingEffectLeases")]. *)
  lr_load : lr_call -> ST R pyval;
  (** [set_binding_effect_lease_state]. *)
  lr_set : lr_call -> string -> pyval -> ST R unit }.

(** The state of the binding in what the registry holds. *)
Definition state_in (vault_binding_id : string) (extension : pyval) : res _LeaseState :=
  match py_or extension (PDict []) with
  | PDict states =>
      match get states vault_binding_id with
      | PNone => Ok _empty_state
      | value => _validate_state vault_binding_id value
      end
  | _ => Raise (BindingEffectLeaseError "registry binding effect lease state is invalid")
  end.

(** ** Sections *)

Inductive lock_mode : Type := LOCK_SH | LOCK_EX.
#[export] Instance lock_mode_eq_dec : EqDecision lock_mode.
Proof. solve_decision. Defined.

Section Leases.
Context {R : Type} `{LR : LeaseRegistry R}.

Record world : Type := mkWorld {
  w_state : option journal_file;
  w_journal : option journal_file;
  w_registry : R;
  w_activity : gmap string bool;
  w_gate : gmap string lock_mode }.

Definition set_state (f : option journal_file) (w : world) : world :=
  mkWorld f (w_journal w) (w_registry w) (w_activity w) (w_gate w).
Definition set_lease_journal (f : option journal_file) (w : world) : world :=
  mkWorld (w_state w) f (w_registry w) (w_activity w) (w_gate w).
Definition set_registry (r : R) (w : world) : world :=
  mkWorld (w_state w) (w_journal w) r (w_activity w) (w_gate w).
Definition set_activity (a : gmap string bool) (w : world) : world :=
  mkWorld (w_state w) (w_journal w) (w_registry w) a (w_gate w).
Definition set_gate (g : gmap string lock_mode) (w : world) : world :=
  mkWorld (w_state w) (w_journal w) (w_registry w) (w_activity w) g.

(** A lock of a process that is gone vanishes. *)
Inductive lost : Type := LostGate (h : string) | LostActivity (h : string).
Definition unlock_activity (h : string) (a : gmap string bool) : gmap string bool :=
  match a !! h with Some _ => <[h := false]> a | None => a end.
Definition lose (alive : string -> bool) (l : lost) (w : world) : world :=
  match l with
  | LostGate h => if alive h then w else set_gate (delete h (w_gate w)) w
  | LostActivity h => if alive h then w else set_activity (unlock_activity h (w_activity w)) w
  end.

Inductive act : Type := Happens | FailsBefore (e : exn) | FailsAfter (e : exn) | Dies.
Record lease_tick : Type := mkTick { tk_lost : list lost; tk_call : lr_call; tk_act : act }.

(** The local variables of [_acquire] that its [finally] reads. *)
Record locals : Type := mkLocals { lv_pending : option _HolderState; lv_activity : bool; lv_held : bool }.

Section Steps.
Context (alive : string -> bool).

Definition lx (A : Type) : Type := list lease_tick * (locals * world) -> outcome A * (list lease_tick * (locals * world)).
#[global] Instance lx_ret : MRet lx := fun A a w => (Returned a, w).
#[global] Instance lx_bind : MBind lx := fun A B f m w =>
  match m w with
  | (Returned a, w) => f a w
  | (Raised e, w) => (Raised e, w)
  | (Dead, w) => (Dead, w)
  end.
Definition lx_raise {A} (e : exn) : lx A := fun w => (Raised e, w).
Definition lx_lift {A} (r : res A) : lx A := fun w => (match r with Ok a => Returned a | Raise e => Raised e end, w).
Definition lx_catch {A} (m : lx A) (handler : exn -> lx A) : lx A := fun w =>
  match m w with
  | (Raised e, w) => handler e w
  | r => r
  end.
(** [try: m finally: cleanup]. *)
Definition lx_finally {A} (m : lx A) (cleanup : lx unit) : lx A := fun w =>
  match m w with
  | (Returned a, w) => (_ ← cleanup; mret a) w
  | (Raised e, w) => (_ ← cleanup; lx_raise e) w
  | (Dead, w) => (Dead, w)
  end.
Definition to_outcome {A} (r : res A) : outcome A := match r with Ok a => Returned a | Raise e => Raised e end.
Definition lstep {A} (f : lr_call -> world -> res A * world) : lx A := fun s =>
  let '(ticks, (lv, w)) := s in
  match ticks with
  | [] => let '(r, w) := f lr_calm w in (to_outcome r, ([], (lv, w)))
  | t :: ticks =>
      let w := foldl (fun w l => lose alive l w) w (tk_lost t) in
      match tk_act t with
      | Happens => let '(r, w) := f (tk_call t) w in (to_outcome r, (ticks, (lv, w)))
      | FailsBefore e => (Raised e, (ticks, (lv, w)))
      | FailsAfter e => let '(_, w) := f (tk_call t) w in (Raised e, (ticks, (lv, w)))
      | Dies => (Dead, (ticks, (lv, w)))
      end
  end.
Definition lupdate (f : world -> world) : lx unit := lstep (fun _ w => (Ok tt, f w)).
Definition llook {A} (f : world -> A) : lx A := lstep (fun _ w => (Ok (f w), w)).
(** A step that only may fail. *)
Definition ltouch : lx unit := llook (fun _ => tt).
Definition get_locals : lx locals := fun s => (Returned (fst (snd s)), s).
Definition set_locals (lv : locals) : lx unit := fun '(ticks, (_, w)) => (Returned tt, (ticks, (lv, w))).
Fixpoint lx_foreach {A} (l : list A) (body : A -> lx unit) : lx unit :=
  match l with
  | [] => mret tt
  | a :: l => _ ← body a; lx_foreach l body
  end.
Fixpoint lx_filter {A} (l : list A) (body : A -> lx bool) : lx (list A) :=
  match l with
  | [] => mret []
  | a :: l => b ← body a; rest ← lx_filter l body; mret (if b : bool then a :: rest else rest)
  end.
Definition lx_guard (c : bool) (e : exn) : lx unit := if c then lx_raise e else mret tt.

(** ** State, journal and registry *)

Context (vault_binding_id : string).

Definition put_state (s : _LeaseState) : lx unit :=
  _ ← ltouch; _ ← lupdate (set_state (Some (Json (state_value vault_binding_id s)))); ltouch.
Definition put_journal (document : pyval) : lx unit :=
  _ ← ltouch; _ ← lupdate (set_lease_journal (Some (Json document))); ltouch.
Definition unlink_journal : lx unit := _ ← lupdate (set_lease_journal None); ltouch.
Definition journal_value (previous next : _LeaseState) : pyval :=
  PDict [("schema", PStr JOURNAL_SCHEMA); ("vaultBindingId", PStr vault_binding_id);
         ("previous", state_value vault_binding_id previous); ("next", state_value vault_binding_id next)].

Definition _registry_state : lx _LeaseState :=
  extension ← lstep (fun c w => let '(r, reg) := lr_load c (w_registry w) in (r, set_registry reg w));
  lx_lift (state_in vault_binding_id extension).
Definition store_state (s : _LeaseState) : lx unit :=
  lstep (fun c w => let '(r, reg) := lr_set c vault_binding_id (state_value vault_binding_id s) (w_registry w) in
                    (r, set_registry reg w)).

Definition read_journal (f : journal_file) : res (_LeaseState * _LeaseState) :=
  let invalid := BindingEffectLeaseError "binding effect lease journal is invalid" in
  match f with
  | Json (PDict d) =>
      _ ← raise_if (negb (py_eqb (get d "schema") (PStr JOURNAL_SCHEMA))
                    || negb (py_eqb (get d "vaultBindingId") (PStr vault_binding_id))) invalid;
      _ ← raise_if (negb (dict_mem d "previous")) invalid;
      previous ← _validate_state vault_binding_id (get d "previous");
      _ ← raise_if (negb (dict_mem d "next")) invalid;
      next ← _validate_state vault_binding_id (get d "next");
      Ok (previous, next)
  | _ => Raise invalid
  end.
Definition _recover_journal_locked : lx unit :=
  journal ← llook w_journal;
  match journal with
  | None => mret tt
  | Some f =>
      _ ← ltouch;
      '(previous, next) ← lx_lift (read_journal f);
      current ← _registry_state;
      recovered ← (if bool_decide (current = next) then mret next
                   else if bool_decide (current = previous) then mret previous
                   else lx_raise (BindingEffectLeaseError "binding effect lease journal diverges from registry state"));
      _ ← put_state recovered;
      unlink_journal
  end.

Definition _commit_locked (previous candidate : _LeaseState) : lx _LeaseState :=
  previous ← lx_lift (_validate_state vault_binding_id (state_value vault_binding_id previous));
  next ← lx_lift (_validate_state vault_binding_id (state_value vault_binding_id
           (mkLease (le_generation previous + 1) (le_next_ticket candidate) (le_shared candidate) (le_pending candidate)
              (le_exclusive candidate))));
  _ ← put_journal (journal_value previous next);
  _ ← put_state next;
  stored ← lx_catch (_ ← store_state next; mret (@None exn)) (fun e => mret (Some e));
  match stored with
  | None => _ ← unlink_journal; mret next
  | Some e =>
      current ← _registry_state;
      if bool_decide (current = next) then
        _ ← put_state next; _ ← unlink_journal; mret next
      else if bool_decide (current = previous) then
        _ ← put_state previous; _ ← unlink_journal; lx_raise e
      else lx_raise (BindingEffectLeaseError "binding effect lease commit diverges from both journal endpoints")
  end.

Definition _load_state_locked : lx _LeaseState :=
  local ← llook w_state;
  match local with
  | None => _registry_state
  | Some f =>
      _ ← ltouch;
      local_state ← match f with
                    | NotJson => lx_raise (BindingEffectLeaseError "binding effect lease state is corrupt")
                    | Json value => lx_lift (_validate_state vault_binding_id value)
                    end;
      registry_state ← _registry_state;
      _ ← lx_guard (negb (bool_decide (local_state = registry_state)))
            (BindingEffectLeaseError "binding effect lease state diverges from registry without a journal");
      mret local_state
  end.

(** ** Activity files *)

(** Open the file and try its lock: whether the holder still has it, or the file is left behind or missing. *)
Inductive activity : Type := Active | Abandoned | Missing.
Definition probe_activity (h : string) : lx activity :=
  llook (fun w => match w_activity w !! h with None => Missing | Some true => Active | Some false => Abandoned end).
Definition _unlink_holder_activity_locked (h : string) : lx unit :=
  _ ← ltouch; _ ← lupdate (fun w => set_activity (delete h (w_activity w)) w); ltouch.
Definition _scavenge_holder_activity_locked (referenced : list string) : lx unit :=
  files ← llook (fun w => map fst (map_to_list (w_activity w)));
  lx_foreach files (fun h =>
    if existsb (String.eqb h) referenced then mret tt else
    found ← probe_activity h;
    match found with
    | Abandoned => _unlink_holder_activity_locked h
    | _ => mret tt
    end).
(** Create the file of the holder and lock it. *)
Definition open_holder_activity (h : string) : lx unit :=
  _ ← lstep (fun _ w => match w_activity w !! h with
                        | Some _ => (Raise FileExistsError, w)
                        | None => (Ok tt, set_activity (<[h := false]> (w_activity w)) w)
                        end);
  lv ← get_locals;
  _ ← set_locals (mkLocals (lv_pending lv) true (lv_held lv));
  lupdate (fun w => set_activity (<[h := true]> (w_activity w)) w).

(** ** Reconciliation *)

Definition ids (l : list _HolderState) : list string := map ho_id l.
(** The holders whose activity is locked, and those left behind with their file in place. *)
Fixpoint sift (l : list _HolderState) : lx (list _HolderState * list _HolderState) :=
  match l with
  | [] => mret ([], [])
  | item :: l =>
      a ← probe_activity (ho_id item);
      '(active, abandoned) ← sift l;
      mret (match a with
            | Active => (item :: active, abandoned)
            | Abandoned => (active, item :: abandoned)
            | Missing => (active, abandoned)
            end)
  end.
Definition _load_reconciled_locked : lx _LeaseState :=
  state ← _load_state_locked;
  _ ← _scavenge_holder_activity_locked (ids (le_holders state));
  '(pending, left_pending) ← sift (le_pending state);
  _ ← ltouch;
  gate_free ← llook (fun w => bool_decide (w_gate w = ∅));
  '(shared, exclusive, left_holders) ←
    (if gate_free : bool then _ ← ltouch; mret ([], None, []) else
     '(shared, left_shared) ← sift (le_shared state);
     '(exclusive, left_exclusive) ← sift (option_list (le_exclusive state));
     mret (shared, head exclusive, left_shared ++ left_exclusive));
  _ ← ltouch;
  let updated := mkLease (le_generation state) (le_next_ticket state) shared pending exclusive in
  if bool_decide (updated = state) then mret state else
  committed ← _commit_locked state updated;
  _ ← lx_foreach (left_pending ++ left_holders) (fun item => _unlink_holder_activity_locked (ho_id item));
  _ ← _scavenge_holder_activity_locked (ids (le_holders committed));
  mret committed.

Definition _state_locked {A} (body : lx A) : lx A :=
  _ ← ltouch;
  _ ← ltouch;
  lx_finally (_ ← ltouch; lx_finally (_ ← _recover_journal_locked; body) ltouch) ltouch.

Record BindingEffectLeaseObservation : Type := mkObservation {
  ob_generation : Z;
  ob_shared_count : nat;
  ob_exclusive_pending_count : nat;
  ob_exclusive_held : bool }.
Definition observe : lx BindingEffectLeaseObservation :=
  _state_locked (
    state ← _load_reconciled_locked;
    mret (mkObservation (le_generation state) (length (le_shared state)) (length (le_pending state))
            (bool_decide (is_Some (le_exclusive state))))).

(** ** Acquiring and releasing *)

Record request : Type := mkRequest { rq_holder : string; rq_exclusive : bool; rq_pid : Z; rq_process_start : string }.

Definition _holder (q : request) (ticket : Z) (mode : string) : lx _HolderState :=
  _ ← ltouch; mret (mkHolder (rq_holder q) (rq_pid q) (rq_process_start q) ticket mode).
(** The ownership fence around a section. *)
Definition fenced {A} (body : lx A) : lx A := _ ← ltouch; lx_finally body ltouch.

(** An exclusive request queues up. *)
Definition enter_queue (q : request) : lx unit :=
  fenced (_state_locked (
    current ← _load_reconciled_locked;
    _ ← open_holder_activity (rq_holder q);
    pending ← _holder q (le_next_ticket current) "pending";
    lv ← get_locals;
    _ ← set_locals (mkLocals (Some pending) (lv_activity lv) (lv_held lv));
    _ ← _commit_locked current
          (mkLease (le_generation current) (le_next_ticket current + 1) (le_shared current)
             (le_pending current ++ [pending]) (le_exclusive current));
    mret tt)).

Definition compatible (m : lock_mode) (others : gmap string lock_mode) : bool :=
  match m with
  | LOCK_SH => forallb (fun x => bool_decide (snd x = LOCK_SH)) (map_to_list others)
  | LOCK_EX => bool_decide (others = ∅)
  end.
(** [flock(descriptor, mode | LOCK_NB)]. *)
Definition lock_gate (h : string) (m : lock_mode) : lx bool :=
  lstep (fun _ w =>
    if compatible m (delete h (w_gate w)) then (Ok true, set_gate (<[h := m]> (w_gate w)) w) else (Ok false, w)).

Definition available (q : request) (current : _LeaseState) : bool :=
  if rq_exclusive q then
    match le_pending current with
    | [] => false
    | first :: _ => String.eqb (ho_id first) (rq_holder q)
    end && bool_decide (le_shared current = []) && bool_decide (le_exclusive current = None)
  else bool_decide (le_pending current = []) && bool_decide (le_exclusive current = None).
(** One round of the loop: whether the lease is held. *)
Definition try_enter (q : request) : lx bool :=
  fenced (_state_locked (
    current ← _load_reconciled_locked;
    if negb (available q current) then mret false else
    locked ← lock_gate (rq_holder q) (if rq_exclusive q then LOCK_EX else LOCK_SH);
    if negb locked then mret false else
    lv ← get_locals;
    _ ← (if lv_activity lv then mret tt else open_holder_activity (rq_holder q));
    holder ← _holder q (match lv_pending lv with Some p => ho_ticket p | None => le_next_ticket current end)
               (if rq_exclusive q then "exclusive" else "shared");
    let updated :=
      if rq_exclusive q then
        mkLease (le_generation current) (le_next_ticket current) (le_shared current)
          (List.filter (fun item => negb (String.eqb (ho_id item) (rq_holder q))) (le_pending current)) (Some holder)
      else
        mkLease (le_generation current) (le_next_ticket current + 1) (le_shared current ++ [holder]) (le_pending current)
          (le_exclusive current) in
    _ ← _commit_locked current updated;
    lv ← get_locals;
    _ ← set_locals (mkLocals None (lv_activity lv) true);
    mret true)).

Definition _release (q : request) : lx unit :=
  _state_locked (
    current ← _load_reconciled_locked;
    let missing := BindingEffectLeaseError "held binding effect lease state is missing" in
    updated ← (if rq_exclusive q then
                 match le_exclusive current with
                 | Some e =>
                     if String.eqb (ho_id e) (rq_holder q)
                     then mret (mkLease (le_generation current) (le_next_ticket current) (le_shared current)
                                  (le_pending current) None)
                     else lx_raise missing
                 | None => lx_raise missing
                 end
               else
                 let shared := List.filter (fun item => negb (String.eqb (ho_id item) (rq_holder q))) (le_shared current) in
                 if bool_decide (length shared = length (le_shared current)) then lx_raise missing
                 else mret (mkLease (le_generation current) (le_next_ticket current) shared (le_pending current)
                              (le_exclusive current)));
    _ ← _commit_locked current updated;
    _unlink_holder_activity_locked (rq_holder q)).

Definition _discard_pending (q : request) : lx unit :=
  _state_locked (
    current ← _load_reconciled_locked;
    let updated := mkLease (le_generation current) (le_next_ticket current) (le_shared current)
      (List.filter (fun item => negb (String.eqb (ho_id item) (rq_holder q))) (le_pending current)) (le_exclusive current) in
    if bool_decide (updated = current) then mret tt else
    lv ← get_locals;
    _ ← lx_guard (negb (lv_activity lv)) (BindingEffectLeaseError "exclusive waiter activity identity is missing");
    _ ← _commit_locked current updated;
    _unlink_holder_activity_locked (rq_holder q)).

(** The [finally] of [_acquire], before its descriptors are closed. *)
Definition leave (q : request) : lx unit :=
  lv ← get_locals;
  if lv_held lv then _release q
  else match lv_pending lv with Some _ => _discard_pending q | None => mret tt end.
End Steps.

(** ** Attempts

    One run of [_acquire], by the sections it has behind it: an exclusive one
    queues up first, then both try in rounds; [Held] has the lease and leaves by
    releasing it, [Leaving] raised or timed out before; [Gone] has closed its
    descriptors, or its process is dead. *)

Inductive phase : Type := Arriving | Waiting | Held | Leaving | Gone.
#[export] Instance phase_eq_dec : EqDecision phase.
Proof. solve_decision. Defined.
Record attempt : Type := mkAttempt { at_request : request; at_phase : phase; at_locals : locals }.
Definition no_locals : locals := mkLocals None false false.
Definition arriving (q : request) : attempt := mkAttempt q (if rq_exclusive q then Arriving else Waiting) no_locals.

Record system : Type := mkSystem { sy_world : world; sy_attempts : gmap string attempt }.
Definition living (attempts : gmap string attempt) (h : string) : bool :=
  match attempts !! h with Some a => bool_decide (at_phase a <> Gone) | None => false end.

(** The section an attempt is at, and where its outcome leaves it. *)
Definition round (vault_binding_id : string) (attempts : gmap string attempt) (a : attempt) (ticks : list lease_tick) (w : world)
  : attempt * world :=
  let q := at_request a in
  let alive := living attempts in
  match at_phase a with
  | Arriving =>
      let '(o, (_, (lv, w))) := enter_queue alive vault_binding_id q (ticks, (at_locals a, w)) in
      (mkAttempt q (match o with Returned _ => Waiting | Raised _ => Leaving | Dead => Gone end) lv, w)
  | Waiting =>
      let '(o, (_, (lv, w))) := try_enter alive vault_binding_id q (ticks, (at_locals a, w)) in
      (mkAttempt q (match o with
                    | Returned true => Held
                    | Returned false => Waiting
                    | Raised _ => if lv_held lv then Held else Leaving
                    | Dead => Gone
                    end) lv, w)
  | Held | Leaving =>
      let '(o, (_, (lv, w))) := leave alive vault_binding_id q (ticks, (at_locals a, w)) in
      (mkAttempt q Gone lv, w)
  | Gone => (a, w)
  end.
End Leases.
Arguments world R : clear implicits.
Arguments system R : clear implicits.
