(* ===== verification/EffectLeaseStates.v ===== *)
(** * Lease states that validate

    What the validation of a lease state accepts, that a state reads back from
    the value it is written as, and how the updates of the manager keep it. *)
From S2P Require Import Prelude PyValue Sql SettingsRebind VaultRegistry RegistryProps RegistryFiles EffectLease.
Open Scope Z_scope.

Record holder_ok (next_ticket : Z) (h : _HolderState) : Prop := {
  hk_id : strip (ho_id h) <> "";
  hk_pid : 0 < ho_pid h;
  hk_start : strip (ho_process_start h) <> "";
  hk_ticket : 0 < ho_ticket h < next_ticket }.
Definition has_mode (mode : string) (h : _HolderState) : Prop := ho_mode h = mode.

Record well_formed (s : _LeaseState) : Prop := {
  wf_generation : 0 <= le_generation s;
  wf_next : 0 < le_next_ticket s;
  wf_holders : Forall (holder_ok (le_next_ticket s)) (le_holders s);
  wf_ids : NoDup (ids (le_holders s));
  wf_tickets : NoDup (map ho_ticket (le_holders s));
  wf_shared : Forall (has_mode "shared") (le_shared s);
  wf_pending : Forall (has_mode "pending") (le_pending s);
  wf_exclusive : Forall (has_mode "exclusive") (option_list (le_exclusive s));
  wf_overlap : le_exclusive s = None \/ le_shared s = [] }.

Lemma raise_if_false (c : bool) e : raise_if c e = Ok tt <-> c = false.
Proof. unfold raise_if. by destruct c. Qed.
Lemma seen_id (seen : list _HolderState) i : existsb (fun h => String.eqb (ho_id h) i) seen = false <-> i ∉ ids seen.
Proof.
  unfold ids. induction seen as [|h seen IH]; simpl; [split; [set_solver|done]|].
  rewrite orb_false_iff, String.eqb_neq, IH, not_elem_of_cons. naive_solver.
Qed.
Lemma seen_ticket (seen : list _HolderState) t : existsb (fun h => ho_ticket h =? t) seen = false <-> t ∉ map ho_ticket seen.
Proof.
  induction seen as [|h seen IH]; simpl; [split; [set_solver|done]|].
  rewrite orb_false_iff, Z.eqb_neq, IH, not_elem_of_cons. naive_solver.
Qed.

Definition fits (next_ticket : Z) (seen : list _HolderState) (h : _HolderState) : Prop :=
  holder_ok next_ticket h /\ (ho_id h ∉ ids seen) /\ (ho_ticket h ∉ map ho_ticket seen).
Lemma not_blank s : strip s <> "" -> String.eqb s "" = false.
Proof. intros H. apply String.eqb_neq. by intros ->. Qed.
Lemma holder_guard next seen h : fits next seen h ->
  (String.eqb (ho_id h) "" || (ho_pid h <=? 0) || String.eqb (ho_process_start h) "" || (ho_ticket h <=? 0) || (next <=? ho_ticket h)
    || existsb (fun x => String.eqb (ho_id x) (ho_id h)) seen || existsb (fun x => ho_ticket x =? ho_ticket h) seen) = false.
Proof.
  intros ([H1 H2 H3 H4] & H6%seen_id & H7%seen_ticket). rewrite H6, H7, (not_blank _ H1), (not_blank _ H3), !orb_false_r. simpl.
  rewrite !orb_false_iff, !Z.leb_gt. lia.
Qed.
Lemma read_holder_back next seen h : fits next seen h -> read_holder next seen (holder_value h) = Ok h.
Proof.
  destruct h as [i p st t m]. intros H. unfold read_holder, holder_value. simpl.
  apply holder_guard in H. simpl in H. unfold get. simpl.
  unfold orb in H |- *. simpl in H |- *. rewrite H. done.
Qed.

Lemma ids_app a b : ids (a ++ b) = ids a ++ ids b.
Proof. apply map_app. Qed.
Lemma read_holders_back next l : forall seen, Forall (holder_ok next) l ->
  NoDup (ids (seen ++ l)) -> NoDup (map ho_ticket (seen ++ l)) -> read_holders next seen (map holder_value l) = Ok l.
Proof.
  induction l as [|h l IH]; intros seen Hf N1 N2; [done|]. cbn [map read_holders]. inversion Hf as [|? ? Hh Hl]; subst.
  rewrite read_holder_back.
  - cbn [mbind res_bind]. rewrite IH; [done|done|by rewrite <- app_assoc..].
  - split; [done|]. rewrite ids_app in N1. rewrite map_app in N2. apply NoDup_app in N1 as (_ & N1 & _), N2 as (_ & N2 & _).
    split; intros Hin; [apply (N1 _ Hin)|apply (N2 _ Hin)]; left.
Qed.
Lemma other_mode_false mode l : other_mode mode l = false <-> Forall (has_mode mode) l.
Proof.
  unfold other_mode, has_mode. induction l as [|h l IH]; simpl; [split; auto|].
  rewrite orb_false_iff, negb_false_iff, String.eqb_eq, IH. split; [intros []; by constructor|by inversion 1].
Qed.

(** A well-formed state reads back. *)
Lemma lease_reads_back b s : well_formed s -> _validate_state b (state_value b s) = Ok s.
Proof.
  intros [G1 G2 Hh N1 N2 M1 M2 M3 Ho]. unfold _validate_state, state_value. simpl.
  unfold get. simpl. rewrite !String.eqb_refl. simpl.
  apply Z.ltb_ge in G1. apply Z.leb_gt in G2. rewrite G1, G2. simpl.
  assert (R : match match le_exclusive s with Some h => holder_value h | None => PNone end with
              | PNone => Ok [] | PDict e => Ok [PDict e]
              | _ => Raise (BindingEffectLeaseError "binding effect lease state values are invalid") end
              = Ok (map holder_value (option_list (le_exclusive s)))) by (by destruct (le_exclusive s)).
  rewrite R. cbn [mbind res_bind]. unfold le_holders in *. rewrite app_assoc in N1, N2.
  apply Forall_app in Hh as [F1 Hh]. apply Forall_app in Hh as [F2 F3].
  pose proof N1 as N1'. pose proof N2 as N2'. rewrite ids_app in N1'. rewrite map_app in N2'.
  apply NoDup_app in N1' as (N1' & _ & _), N2' as (N2' & _ & _).
  pose proof N1' as N1''. pose proof N2' as N2''. rewrite ids_app in N1''. rewrite map_app in N2''.
  apply NoDup_app in N1'' as (N1'' & _ & _), N2'' as (N2'' & _ & _).
  rewrite (read_holders_back _ (le_shared s) []) by done. cbn [mbind res_bind].
  rewrite (read_holders_back _ (le_pending s) (le_shared s)) by done. cbn [mbind res_bind].
  rewrite (read_holders_back _ _ (le_shared s ++ le_pending s)) by done. cbn [mbind res_bind].
  apply other_mode_false in M1, M2, M3. rewrite M1, M2, M3. cbn [raise_if mbind res_bind].
  assert (O : bool_decide (option_list (le_exclusive s) <> []) && bool_decide (le_shared s <> []) = false).
  { apply andb_false_iff. destruct Ho as [-> | ->]; [left|right]; apply bool_decide_eq_false; intros Hn; by apply Hn. }
  rewrite O. cbn [raise_if mbind res_bind]. by destruct s as [? ? ? ? []].
Qed.
(** Whatever validates of a written state is that state. *)
Lemma read_holder_same next seen h h' : read_holder next seen (holder_value h) = Ok h' -> h' = h.
Proof.
  destruct h as [i p st t m]. unfold read_holder, holder_value, get. simpl. intros H. bound H as u E. by injection H.
Qed.
Lemma read_holders_same next l : forall seen l', read_holders next seen (map holder_value l) = Ok l' -> l' = l.
Proof.
  induction l as [|h l IH]; intros seen l'; cbn [map read_holders]; [by intros [= <-]|]. intros H. bound H as h' Eh. bound H as r Er.
  injection H as <-. f_equal; [by eapply read_holder_same|by eapply IH].
Qed.
Lemma validated_same b s s' : _validate_state b (state_value b s) = Ok s' -> s' = s.
Proof.
  unfold _validate_state, state_value, get. simpl. intros H. bound H as u1 E1. bound H as u2 E2. bound H as raw Eraw.
  assert (raw = map holder_value (option_list (le_exclusive s))) as -> by (destruct (le_exclusive s); by injection Eraw).
  bound H as sh Esh. bound H as pe Epe. bound H as ex Eex. bound H as u4 E4. bound H as u5 E5. bound H as u6 E6. bound H as u7 E7.
  apply read_holders_same in Esh as ->, Epe as ->, Eex as ->. injection H as <-. by destruct s as [? ? ? ? []].
Qed.
Lemma empty_well_formed : well_formed _empty_state.
Proof. split; try (by constructor); simpl; lia. Qed.

(** ** Updates *)

Definition stamp (previous candidate : _LeaseState) : _LeaseState :=
  mkLease (le_generation previous + 1) (le_next_ticket candidate) (le_shared candidate) (le_pending candidate) (le_exclusive candidate).

Lemma sublist_forall {A} (P : A -> Prop) l k : l `sublist_of` k -> Forall P k -> Forall P l.
Proof. induction 1; [auto|inversion 1; subst; constructor; auto|inversion 1; subst; auto]. Qed.
Lemma sublist_map {A B} (f : A -> B) l k : l `sublist_of` k -> map f l `sublist_of` map f k.
Proof. induction 1; simpl; [constructor|by constructor|by constructor]. Qed.
Lemma sublist_list_filter {A} (p : A -> bool) l : List.filter p l `sublist_of` l.
Proof. induction l as [|x l IH]; simpl; [constructor|]. destruct (p x); by constructor. Qed.

(** The pending holders are in the order of their tickets. *)
Definition queued (s : _LeaseState) : Prop := Sorted.StronglySorted Z.lt (map ho_ticket (le_pending s)).
Lemma sorted_sublist l k : l `sublist_of` k -> Sorted.StronglySorted Z.lt k -> Sorted.StronglySorted Z.lt l.
Proof.
  induction 1 as [|x l k Hs IH|x l k Hs IH]; intros H; [constructor|..]; apply Sorted.StronglySorted_inv in H as [H1 H2]; [|auto].
  constructor; [auto|]. by eapply sublist_forall.
Qed.
Lemma sorted_snoc l t : Sorted.StronglySorted Z.lt l -> Forall (fun x => x < t) l -> Sorted.StronglySorted Z.lt (l ++ [t]).
Proof.
  induction 1 as [|x l H IH Hx]; simpl; intros Hf; [repeat constructor|]. inversion Hf; subst. constructor; [auto|].
  apply Forall_app. split; [done|by repeat constructor].
Qed.

(** A state with fewer holders. *)
Record fewer (t s : _LeaseState) : Prop := {
  fw_next : le_next_ticket t = le_next_ticket s;
  fw_shared : le_shared t `sublist_of` le_shared s;
  fw_pending : le_pending t `sublist_of` le_pending s;
  fw_exclusive : le_exclusive t = le_exclusive s \/ le_exclusive t = None }.
Lemma fewer_refl s : fewer s s.
Proof. split; auto. Qed.
Lemma fewer_holders t s : fewer t s -> le_holders t `sublist_of` le_holders s.
Proof.
  intros [_ H1 H2 H3]. unfold le_holders. apply sublist_app; [done|]. apply sublist_app; [done|].
  destruct H3 as [-> | ->]; [done|]. simpl. apply sublist_nil_l.
Qed.
Lemma fewer_well_formed t s : fewer t s -> 0 <= le_generation t -> well_formed s -> well_formed t.
Proof.
  intros Hf Hg [G1 G2 Hh N1 N2 M1 M2 M3 Ho]. pose proof (fewer_holders t s Hf) as Hs. destruct Hf as [E1 E2 E3 E4].
  split; rewrite ?E1; try done.
  - by eapply sublist_forall.
  - eapply sublist_NoDup; [exact N1|]. by apply sublist_map.
  - eapply sublist_NoDup; [exact N2|]. by apply sublist_map.
  - by eapply sublist_forall.
  - by eapply sublist_forall.
  - destruct E4 as [-> | ->]; [done|constructor].
  - destruct E4 as [-> | ->]; [|by left]. destruct Ho as [Ho|Ho]; [by left|right]. rewrite Ho in E2. by apply sublist_nil_r in E2.
Qed.
Lemma fewer_queued t s : fewer t s -> queued s -> queued t.
Proof. intros Hf. apply sorted_sublist, sublist_map. apply Hf. Qed.
Lemma stamp_well_formed s t : well_formed s -> well_formed t -> well_formed (stamp s t).
Proof.
  intros Hs [G1 G2 Hh N1 N2 M1 M2 M3 Ho]. pose proof (wf_generation s Hs). split; try done. simpl. lia.
Qed.

Lemma holder_ok_weaken n m h : n <= m -> holder_ok n h -> holder_ok m h.
Proof. intros Hn []. split; try done. lia. Qed.
Lemma ticket_below s : well_formed s -> Forall (fun x => x < le_next_ticket s) (map ho_ticket (le_holders s)).
Proof. intros Hw. apply Forall_map. eapply Forall_impl; [apply (wf_holders s Hw)|]. intros h Hh. apply (hk_ticket _ _ Hh). Qed.

(** One more holder with the next ticket. *)
Definition with_pending (h : _HolderState) (s : _LeaseState) : _LeaseState :=
  mkLease (le_generation s) (le_next_ticket s + 1) (le_shared s) (le_pending s ++ [h]) (le_exclusive s).
Definition with_shared (h : _HolderState) (s : _LeaseState) : _LeaseState :=
  mkLease (le_generation s) (le_next_ticket s + 1) (le_shared s ++ [h]) (le_pending s) (le_exclusive s).
Lemma one_more s t h : well_formed s -> holder_ok (le_next_ticket s + 1) h -> ho_ticket h = le_next_ticket s ->
  ho_id h ∉ ids (le_holders s) -> le_next_ticket t = le_next_ticket s + 1 -> le_holders t ≡ₚ h :: le_holders s ->
  0 < le_next_ticket t /\ Forall (holder_ok (le_next_ticket t)) (le_holders t) /\ NoDup (ids (le_holders t))
  /\ NoDup (map ho_ticket (le_holders t)).
Proof.
  intros Hw Hh Et Hi En Hp. pose proof (wf_next s Hw). rewrite En. split; [lia|]. split; [|split].
  - rewrite Hp. constructor; [done|]. eapply Forall_impl; [apply (wf_holders s Hw)|]. intros x. apply holder_ok_weaken. lia.
  - unfold ids. rewrite Hp. simpl. constructor; [exact Hi|apply (wf_ids s Hw)].
  - rewrite Hp. simpl. constructor; [|apply (wf_tickets s Hw)]. rewrite Et. intros Hin.
    pose proof (ticket_below s Hw) as Hb. rewrite Forall_forall in Hb. specialize (Hb _ Hin). lia.
Qed.
Lemma with_pending_ok s h : well_formed s -> queued s -> holder_ok (le_next_ticket s + 1) h -> ho_ticket h = le_next_ticket s ->
  ho_id h ∉ ids (le_holders s) -> has_mode "pending" h -> well_formed (with_pending h s) /\ queued (with_pending h s).
Proof.
  intros Hw Hq Hh Et Hi Hm. destruct (one_more s (with_pending h s) h) as (H1 & H2 & H3 & H4); try done.
  { unfold le_holders, with_pending. simpl. solve_Permutation. }
  split.
  - destruct Hw. split; try done. simpl. apply Forall_app. split; [done|by repeat constructor].
  - unfold queued, with_pending. simpl. rewrite map_app. apply sorted_snoc; [done|]. rewrite Et.
    pose proof (ticket_below s Hw) as Hb. unfold le_holders in Hb. rewrite !map_app, !Forall_app in Hb. apply Hb.
Qed.
Lemma with_shared_ok s h : well_formed s -> le_exclusive s = None -> holder_ok (le_next_ticket s + 1) h -> ho_ticket h = le_next_ticket s ->
  ho_id h ∉ ids (le_holders s) -> has_mode "shared" h -> well_formed (with_shared h s).
Proof.
  intros Hw He Hh Et Hi Hm. destruct (one_more s (with_shared h s) h) as (H1 & H2 & H3 & H4); try done.
  { unfold le_holders, with_shared. simpl. solve_Permutation. }
  destruct Hw. split; try done; [|by left]. simpl. apply Forall_app. split; [done|by repeat constructor].
Qed.

(** The first of the queue enters. *)
Definition without_id (i : string) (l : list _HolderState) : list _HolderState :=
  List.filter (fun item => negb (String.eqb (ho_id item) i)) l.
Lemma without_other i l : i ∉ ids l -> without_id i l = l.
Proof.
  induction l as [|x l IH]; [done|]. unfold ids, without_id. simpl. intros [H1 H2]%not_elem_of_cons.
  destruct (String.eqb_spec (ho_id x) i) as [E|N]; simpl; [by subst|]. f_equal. by apply IH.
Qed.
Lemma without_in i l h : h ∈ without_id i l <-> h ∈ l /\ ho_id h <> i.
Proof. unfold without_id. rewrite !list_elem_of_In, filter_In, negb_true_iff, String.eqb_neq. done. Qed.
Definition entered (h : _HolderState) (s : _LeaseState) : _LeaseState :=
  mkLease (le_generation s) (le_next_ticket s) (le_shared s) (without_id (ho_id h) (le_pending s)) (Some h).
Lemma entered_ok s p h rest : well_formed s -> queued s -> le_pending s = p :: rest -> le_shared s = [] -> le_exclusive s = None ->
  ho_id h = ho_id p -> ho_ticket h = ho_ticket p -> holder_ok (le_next_ticket s) h -> has_mode "exclusive" h ->
  well_formed (entered h s) /\ queued (entered h s).
Proof.
  intros Hw Hq Ep Es Ee Hi Ht Hh Hm. destruct Hw as [G1 G2 Hf N1 N2 M1 M2 M3 Ho].
  unfold le_holders, queued in *. rewrite Ep, Es, Ee in *. simpl in *. rewrite app_nil_r in *.
  assert (Er : without_id (ho_id h) (p :: rest) = rest).
  { unfold ids in N1. simpl in N1. apply NoDup_cons in N1 as [N1 _]. unfold without_id. simpl. rewrite Hi, String.eqb_refl. simpl.
    apply without_other. exact N1. }
  assert (Hp : ids (rest ++ [h]) ≡ₚ ids (p :: rest) /\ map ho_ticket (rest ++ [h]) ≡ₚ map ho_ticket (p :: rest)).
  { rewrite ids_app, map_app. simpl. rewrite Hi, Ht. split; solve_Permutation. }
  apply Sorted.StronglySorted_inv in Hq as [Hq _]. apply Forall_inv_tail in Hf, M2.
  split; [|by rewrite Ep, Er].
  split; unfold le_holders, entered; cbn [le_generation le_next_ticket le_shared le_pending le_exclusive option_list];
    rewrite ?Ep, ?Er, ?Es; simpl; try done.
  - apply Forall_app. split; [done|]. by apply Forall_singleton.
  - by rewrite (proj1 Hp).
  - by rewrite (proj2 Hp).
  - by repeat constructor.
  - by right.
Qed.
