(* ===== verification/EffectLeaseLogic.v ===== *)
(** * Reasoning about sections

    A logic for the sections of the effect leases.  [triple q P m Q E]: from
    [P], under any schedule, [m] ends in [Q] when it returns, and in [E] when it
    raises or its process dies; with [q] the schedule is empty and it returns. *)
From S2P Require Import Prelude PyValue Sql SettingsRebind VaultRegistry RegistryProps RegistryFiles EffectLease EffectLeaseStates.
Open Scope Z_scope.

Section Logic.
Context {R : Type} `{LR : LeaseRegistry R} (alive : string -> bool).
Abbreviation assertion := (locals -> world R -> Prop).

Definition stable (P : assertion) : Prop := forall lv w l, P lv w -> P lv (lose alive l w).
Definition triple (q : Prop) {A} (P : assertion) (m : lx A) (Q : A -> assertion) (E : assertion) : Prop :=
  forall ticks lv w o ticks' lv' w', (q -> ticks = []) -> P lv w -> m (ticks, (lv, w)) = (o, (ticks', (lv', w'))) ->
  (q -> ticks' = [] /\ exists a, o = Returned a) /\ match o with Returned a => Q a lv' w' | _ => E lv' w' end.

Lemma stable_foldl P : stable P -> forall ls lv w, P lv w -> P lv (foldl (fun w l => lose alive l w) w ls).
Proof. intros Hs ls. induction ls as [|l ls IH]; intros lv w Hp; simpl; [done|]. by apply IH, Hs. Qed.

Context (q : Prop).
Lemma triple_ret {A} (P : assertion) (a : A) (Q : A -> assertion) (E : assertion) :
  (forall lv w, P lv w -> Q a lv w) -> triple q P (mret a) Q E.
Proof. intros H ticks lv w o ticks' lv' w' Hq Hp [= <- <- <- <-]. split; [|auto]. intros Hq'. split; [auto|by eexists]. Qed.
Lemma triple_bind {A B} (P : assertion) (m : lx A) (f : A -> lx B) (Q : A -> assertion) (Q' : B -> assertion) (E : assertion) :
  triple q P m Q E -> (forall a, triple q (Q a) (f a) Q' E) -> triple q P (m ≫= f) Q' E.
Proof.
  intros H1 H2 ticks lv w o ticks' lv' w' Hq Hp. unfold mbind, lx_bind.
  destruct (m (ticks, (lv, w))) as [o1 [t1 [lv1 w1]]] eqn:E1. destruct (H1 _ _ _ _ _ _ _ Hq Hp E1) as [C1 C2].
  destruct o1 as [a|e|].
  - apply H2; [|done]. intros Hq'. apply (proj1 (C1 Hq')).
  - intros [= <- <- <- <-]. split; [|done]. intros Hq'. by destruct (C1 Hq') as [_ [? ?]].
  - intros [= <- <- <- <-]. split; [|done]. intros Hq'. by destruct (C1 Hq') as [_ [? ?]].
Qed.
Lemma triple_conseq {A} (P P' : assertion) (m : lx A) (Q Q' : A -> assertion) (E E' : assertion) :
  triple q P m Q E -> (forall lv w, P' lv w -> P lv w) -> (forall a lv w, Q a lv w -> Q' a lv w) ->
  (forall lv w, E lv w -> E' lv w) -> triple q P' m Q' E'.
Proof.
  intros H Hp Hq He ticks lv w o ticks' lv' w' Ht Hpre Em. destruct (H _ _ _ _ _ _ _ Ht (Hp _ _ Hpre) Em) as [C1 C2].
  split; [done|]. destruct o; auto.
Qed.
Lemma triple_lift {A} (P : assertion) (r : res A) (Q : A -> assertion) (E : assertion) :
  (q -> exists a, r = Ok a) -> (forall a lv w, r = Ok a -> P lv w -> Q a lv w) -> (forall lv w, P lv w -> E lv w) ->
  triple q P (lx_lift r) Q E.
Proof.
  intros Hr H1 H2 ticks lv w o ticks' lv' w' Hq Hp [= <- <- <- <-]. split.
  - intros Hq'. split; [auto|]. destruct (Hr Hq') as [a ->]. by eexists.
  - destruct r; auto.
Qed.
Lemma triple_raise {A} (P : assertion) e (Q : A -> assertion) (E : assertion) :
  ~ q -> (forall lv w, P lv w -> E lv w) -> triple q P (lx_raise e) Q E.
Proof. intros Hn H2 ticks lv w o ticks' lv' w' Hq Hp [= <- <- <- <-]. split; [intros ?; by destruct Hn|auto]. Qed.
Lemma triple_step {A} (P : assertion) (f : lr_call -> world R -> res A * world R) (Q : A -> assertion) (E : assertion) :
  stable P -> (forall lv w, P lv w -> E lv w) ->
  (forall c lv w r w', (q -> c = lr_calm) -> P lv w -> f c w = (r, w') ->
     (q -> exists a, r = Ok a) /\ E lv w' /\ (forall a, r = Ok a -> Q a lv w')) ->
  triple q P (lstep alive f) Q E.
Proof.
  intros Hs He Hf ticks lv w o ticks' lv' w' Hq Hp. unfold lstep. destruct ticks as [|t ticks].
  - destruct (f lr_calm w) as [r w1] eqn:Ef. intros [= <- <- <- <-]. destruct (Hf _ _ _ _ _ (fun _ => eq_refl) Hp Ef) as (C1 & C2 & C3). split.
    + intros Hq'. split; [done|]. destruct (C1 Hq') as [a ->]. by eexists.
    + destruct r; simpl; auto.
  - apply (stable_foldl _ Hs (tk_lost t)) in Hp. set (w0 := foldl _ w _) in *.
    assert (Hn : ~ q) by (intros Hq'; by specialize (Hq Hq')).
    destruct (tk_act t).
    + destruct (f (tk_call t) w0) as [r w1] eqn:Ef. intros [= <- <- <- <-]. destruct (Hf _ _ _ _ _ (fun Hq' => match Hn Hq' with end) Hp Ef) as (C1 & C2 & C3).
      split; [done|]. destruct r; simpl; auto.
    + intros [= <- <- <- <-]. split; [done|auto].
    + destruct (f (tk_call t) w0) as [r w1] eqn:Ef. intros [= <- <- <- <-]. destruct (Hf _ _ _ _ _ (fun Hq' => match Hn Hq' with end) Hp Ef) as (C1 & C2 & C3).
      split; [done|auto].
    + intros [= <- <- <- <-]. split; [done|auto].
Qed.
Lemma triple_look {A} (P : assertion) (f : world R -> A) (Q : A -> assertion) (E : assertion) :
  stable P -> (forall lv w, P lv w -> E lv w) -> (forall lv w, P lv w -> Q (f w) lv w) -> triple q P (llook alive f) Q E.
Proof.
  intros Hs He Hq. apply triple_step; [done..|]. intros c lv w r w' _ Hp [= <- <-]. split; [by eexists|]. split; [auto|].
  intros a [= <-]. auto.
Qed.
Lemma triple_update (P : assertion) (f : world R -> world R) (Q E : assertion) :
  stable P -> (forall lv w, P lv w -> E lv w) -> (forall lv w, P lv w -> Q lv (f w)) -> (forall lv w, Q lv w -> E lv w) ->
  triple q P (lupdate alive f) (fun _ => Q) E.
Proof.
  intros Hs He Hq He'. apply triple_step; [done..|]. intros c lv w r w' _ Hp [= <- <-]. split; [by eexists|]. split; [auto|].
  intros a _. auto.
Qed.
Lemma triple_touch (P E : assertion) : stable P -> (forall lv w, P lv w -> E lv w) -> triple q P (ltouch alive) (fun _ => P) E.
Proof. intros Hs He. apply triple_look; auto. Qed.
Lemma triple_get (P : assertion) (E : assertion) : triple q P get_locals (fun a lv w => a = lv /\ P lv w) E.
Proof. intros ticks lv w o ticks' lv' w' Hq Hp [= <- <- <- <-]. split; [|done]. intros Hq'. split; [auto|by eexists]. Qed.
Lemma triple_set (P : assertion) lv1 (E : assertion) : triple q P (set_locals lv1) (fun _ lv w => lv = lv1 /\ exists lv0, P lv0 w) E.
Proof. intros ticks lv w o ticks' lv' w' Hq Hp [= <- <- <- <-]. split; [|eauto]. intros Hq'. split; [auto|by eexists]. Qed.
(** A fact that the precondition contains. *)
Lemma triple_pure {A} (phi : Prop) (P : assertion) (m : lx A) (Q : A -> assertion) (E : assertion) :
  (forall lv w, P lv w -> phi) -> (phi -> triple q P m Q E) -> triple q P m Q E.
Proof. intros H1 H2 ticks lv w o ticks' lv' w' Hq Hp. by apply H2; [eapply H1|..]. Qed.
Lemma triple_exists {A B} (P : B -> assertion) (m : lx A) (Q : A -> assertion) (E : assertion) :
  (forall y, triple q (P y) m Q E) -> triple q (fun lv w => exists y, P y lv w) m Q E.
Proof. intros H ticks lv w o ticks' lv' w' Hq [y Hp]. by apply (H y). Qed.
Lemma triple_or {A} (P P' : assertion) (m : lx A) (Q : A -> assertion) (E : assertion) :
  triple q P m Q E -> triple q P' m Q E -> triple q (fun lv w => P lv w \/ P' lv w) m Q E.
Proof. intros H1 H2 ticks lv w o ticks' lv' w' Hq [Hp|Hp]; eauto. Qed.
(** Only a disturbed section raises or dies. *)
Lemma triple_disturbed {A} (P : assertion) (m : lx A) (Q : A -> assertion) (E : assertion) :
  triple q P m Q E -> triple q P m Q (fun lv w => ~ q /\ E lv w).
Proof.
  intros H ticks lv w o ticks' lv' w' Hq Hp Em. destruct (H _ _ _ _ _ _ _ Hq Hp Em) as [C1 C2]. split; [done|].
  destruct o; [done|split; [|done]..]; intros Hq'; by destruct (C1 Hq') as [_ [? ?]].
Qed.
Lemma triple_finally {A} (P : assertion) (m : lx A) (Q : A -> assertion) (E : assertion) :
  triple q P m Q E -> (forall a, stable (Q a)) -> stable E -> (forall a lv w, Q a lv w -> E lv w) ->
  triple q P (lx_finally m (ltouch alive)) Q E.
Proof.
  intros H Hs1 Hs2 Hqe ticks lv w o ticks' lv' w' Hq Hp. unfold lx_finally.
  destruct (m (ticks, (lv, w))) as [o1 [t1 [lv1 w1]]] eqn:E1. destruct (H _ _ _ _ _ _ _ Hq Hp E1) as [C1 C2].
  destruct o1 as [a|e|].
  - intros E2. refine (triple_bind (Q a) _ _ (fun _ => Q a) Q E (triple_touch _ _ (Hs1 a) (Hqe a)) _ _ _ _ _ _ _ _ _ C2 E2).
    + intros ?. by apply triple_ret.
    + intros Hq'. apply (C1 Hq').
  - intros E2. assert (Hn' : ~ q) by (intros Hq'; by destruct (C1 Hq') as [_ [? ?]]).
    refine (triple_bind E _ _ (fun _ => E) Q E (triple_touch _ _ Hs2 _) _ _ _ _ _ _ _ _ _ C2 E2); [auto|..].
    + intros ?. by apply triple_raise.
    + intros Hq'. by destruct Hn'.
  - intros [= <- <- <- <-]. split; [|done]. intros Hq'. by destruct (C1 Hq') as [_ [? ?]].
Qed.
Lemma triple_foreach {A} (P : assertion) (l : list A) body (E : assertion) :
  (forall x, x ∈ l -> triple q P (body x) (fun _ => P) E) -> triple q P (lx_foreach l body) (fun _ => P) E.
Proof.
  induction l as [|x l IH]; intros H; simpl; [by apply triple_ret|].
  apply (triple_bind _ _ _ (fun _ => P)); [apply H; left|]. intros _. apply IH. intros y Hy. apply H. by right.
Qed.
End Logic.

Section Catch.
Context {R : Type} `{LR : LeaseRegistry R} (alive : string -> bool) (q : Prop).
Lemma triple_catch {A} (P : locals -> world R -> Prop) (m : lx A) handler (Q : A -> locals -> world R -> Prop) E E' :
  triple q P m Q E' -> (forall lv w, E' lv w -> E lv w) -> (forall e, triple False E' (handler e) Q E) ->
  triple q P (lx_catch m handler) Q E.
Proof.
  intros H He Hh ticks lv w o ticks' lv' w' Hq Hp. unfold lx_catch.
  destruct (m (ticks, (lv, w))) as [o1 [t1 [lv1 w1]]] eqn:E1. destruct (H _ _ _ _ _ _ _ Hq Hp E1) as [C1 C2]. destruct o1 as [a|e|].
  - intros [= <- <- <- <-]. done.
  - intros E2. split; [intros Hq'; by destruct (C1 Hq') as [_ [? ?]]|]. by apply (Hh e _ _ _ _ _ _ _ (fun f => match f with end) C2) in E2 as [_ ?].
  - intros [= <- <- <- <-]. split; [intros Hq'; by destruct (C1 Hq') as [_ [? ?]]|auto].
Qed.
End Catch.
