(* ===== verification/EffectLeaseSections.v ===== *)
(** * Sections of the effect leases

    What every section keeps, whatever interrupts it: the durable state of the
    binding can be recovered, and everybody who waits or holds a lease still has
    its entry and its locks. *)
From S2P Require Import Prelude PyValue Sql SettingsRebind VaultRegistry RegistryProps RegistryFiles EffectLease EffectLeaseStates EffectLeaseLogic.
Open Scope Z_scope.

(** What the leases rely on: the registry has a state for a binding, loading
    returns it, storing replaces it or leaves it, and a store that returns
    has replaced it. *)
Class LeaseRegistryLaws (R : Type) `{LR : LeaseRegistry R} : Type := {
  lr_lease : R -> string -> option _LeaseState;
  lr_load_law : forall c r b s x r', lr_lease r b = Some s -> lr_load c r = (x, r') ->
    lr_lease r' b = Some s /\ (forall v, x = Ok v -> state_in b v = Ok s);
  lr_set_law : forall c r b s t x r', lr_lease r b = Some s -> well_formed t -> lr_set c b (state_value b t) r = (x, r') ->
    lr_lease r' b = Some t \/ lr_lease r' b = Some s /\ exists e, x = Raise e;
  lr_set_other : forall c r b b' s v x r', b' <> b -> lr_lease r b = Some s -> lr_set c b' v r = (x, r') ->
    lr_lease r' b = Some s }.

Section Sections.
Context {R : Type} `{LRL : LeaseRegistryLaws R} (alive : string -> bool) (b : string) (q : Prop) (G : R -> Prop).

(** Registries whose calm calls succeed. *)
Definition served : Prop := forall r s, G r -> lr_lease r b = Some s ->
  (exists v r', lr_load lr_calm r = (Ok v, r') /\ G r')
  /\ forall t, well_formed t -> exists r', lr_set lr_calm b (state_value b t) r = (Ok tt, r') /\ G r'.
(** What the registry says; undisturbed, it also answers. *)
Definition says (r : R) (s : _LeaseState) : Prop := lr_lease r b = Some s /\ (q -> G r).

(** ** What attempts need *)

Definition guarded (a : attempt) : bool :=
  match at_phase a with Held => true | Waiting => rq_exclusive (at_request a) | _ => false end.
Definition untouched (a : attempt) : bool :=
  match at_phase a with Arriving => true | Waiting => negb (rq_exclusive (at_request a)) | _ => false end.
Definition mode_of (a : attempt) : lock_mode := if rq_exclusive (at_request a) then LOCK_EX else LOCK_SH.
(** The locks; [t] says that no other locks are left. *)
Record locks_ok (t : Prop) (m : gmap string attempt) (activity : gmap string bool) (gate : gmap string lock_mode) : Prop := {
  lo_locked : forall h a, m !! h = Some a -> guarded a = true -> activity !! h = Some true;
  lo_absent : forall h a, m !! h = Some a -> untouched a = true -> activity !! h = None;
  lo_gate : forall h a, m !! h = Some a -> at_phase a = Held -> gate !! h = Some (mode_of a);
  lo_compat : forall h1 h2 k1 k2, gate !! h1 = Some k1 -> gate !! h2 = Some k2 -> h1 <> h2 -> k1 = LOCK_SH /\ k2 = LOCK_SH;
  lo_tight_activity : t -> forall h, activity !! h = Some true -> exists a, m !! h = Some a /\ guarded a = true;
  lo_tight_gate : t -> forall h k, gate !! h = Some k -> exists a, m !! h = Some a /\ at_phase a = Held }.
(** The entries. *)
Record members_ok (m : gmap string attempt) (s : _LeaseState) : Prop := {
  mo_pending : forall h a, m !! h = Some a -> at_phase a = Waiting -> rq_exclusive (at_request a) = true ->
    exists p, lv_pending (at_locals a) = Some p /\ ho_id p = h /\ p ∈ le_pending s;
  mo_shared : forall h a, m !! h = Some a -> at_phase a = Held -> rq_exclusive (at_request a) = false -> h ∈ ids (le_shared s);
  mo_exclusive : forall h a, m !! h = Some a -> at_phase a = Held -> rq_exclusive (at_request a) = true ->
    exists e, le_exclusive s = Some e /\ ho_id e = h;
  mo_fresh : forall h a, m !! h = Some a -> untouched a = true -> h ∉ ids (le_holders s) }.

(** The files belong to the state in the registry. *)
Definition coherent (journal state : option journal_file) (s : _LeaseState) : Prop :=
  well_formed s /\ queued s
  /\ match journal with
     | None => state = None \/ exists v, state = Some (Json v) /\ _validate_state b v = Ok s
     | Some f => exists previous next, f = Json (journal_value b previous next) /\ well_formed previous /\ well_formed next
                   /\ (s = previous \/ s = next)
     end.
(** Where a section is: the locals, the files, the state, the locks and what else is known of them. *)
Definition at_ (lv0 : locals) (journal state : option journal_file) (s : _LeaseState) (t : Prop) (m : gmap string attempt)
    (extra : gmap string bool -> gmap string lock_mode -> Prop) (lv : locals) (w : world R) : Prop :=
  lv = lv0 /\ says (w_registry w) s /\ w_journal w = journal /\ w_state w = state
  /\ locks_ok t m (w_activity w) (w_gate w) /\ extra (w_activity w) (w_gate w).
Definition nothing (a : gmap string bool) (g : gmap string lock_mode) : Prop := True.
Definition safe (t : Prop) (m : gmap string attempt) (w : world R) : Prop :=
  exists lv journal state s, at_ lv journal state s t m nothing lv w /\ coherent journal state s /\ members_ok m s.
(** The end of a section that raised or died with these locals. *)
Definition safe_with (lv0 : locals) (t : Prop) (m : gmap string attempt) (lv : locals) (w : world R) : Prop := lv = lv0 /\ safe t m w.

Definition covers (m : gmap string attempt) : Prop := forall h a, m !! h = Some a -> at_phase a <> Gone -> alive h = true.
Definition lasting (extra : gmap string bool -> gmap string lock_mode -> Prop) : Prop :=
  forall a g h, alive h = false -> extra a g -> extra (unlock_activity h a) g /\ extra a (delete h g).

Lemma locks_lost t m a g h : covers m -> alive h = false -> locks_ok t m a g ->
  locks_ok t m (unlock_activity h a) g /\ locks_ok t m a (delete h g).
Proof.
  intros Hc Hd [L1 L2 L3 L4 L5 L6].
  assert (Hne : forall h' x, m !! h' = Some x -> at_phase x <> Gone -> h <> h').
  { intros h' x Hx Hp ->. rewrite (Hc _ _ Hx Hp) in Hd. done. }
  assert (Hother : forall h', h <> h' -> unlock_activity h a !! h' = a !! h').
  { intros h' N. unfold unlock_activity. destruct (a !! h); [|done]. by rewrite lookup_insert_ne. }
  split; split; try done.
  - intros h' x Hx Hg. rewrite Hother; [eauto|]. eapply Hne; [done|]. unfold guarded in Hg. by destruct (at_phase x).
  - intros h' x Hx Hu. unfold unlock_activity. destruct (a !! h) eqn:E; [|eauto]. rewrite lookup_insert_ne; [eauto|].
    intros ->. rewrite (L2 _ _ Hx Hu) in E. done.
  - intros Ht h' E. apply L5; [done|]. unfold unlock_activity in E. destruct (a !! h); [|done].
    destruct (decide (h = h')) as [->|N]; [by rewrite lookup_insert_eq in E|by rewrite lookup_insert_ne in E].
  - intros h' x Hx Hp. rewrite lookup_delete_ne; [eauto|]. eapply Hne; [done|]. by rewrite Hp.
  - intros h1 h2 k1 k2 [_ E1]%lookup_delete_Some [_ E2]%lookup_delete_Some. by eapply L4.
  - intros Ht h' k [_ E]%lookup_delete_Some. by eapply L6.
Qed.
Lemma at_stable lv j f s t m x : covers m -> lasting x -> stable alive (at_ lv j f s t m x).
Proof.
  intros Hc Hx lv' w l (H1 & H2 & H3 & H4 & H5 & H6). unfold at_, lose.
  destruct l as [h|h]; destruct (alive h) eqn:Ea; try done; simpl;
    refine (conj H1 (conj H2 (conj H3 (conj H4 (conj _ _))))); by (apply locks_lost || apply Hx).
Qed.
Lemma nothing_lasts : lasting nothing.
Proof. by split. Qed.
Lemma safe_stable lv t m : covers m -> stable alive (safe_with lv t m).
Proof.
  intros Hc lv' w l [-> (lv1 & j & f & s & H1 & H2)]. split; [done|]. exists lv1, j, f, s. split; [|done].
  by apply (at_stable _ _ _ _ _ _ _ Hc nothing_lasts).
Qed.
Lemma at_safe lv j f s t m x lv' w : at_ lv j f s t m x lv' w -> coherent j f s -> members_ok m s -> safe_with lv t m lv' w.
Proof. intros (-> & H2 & H3 & H4 & H5 & _) Hc Hm. split; [done|]. exists lv, j, f, s. split; [|done].
  by refine (conj eq_refl (conj H2 (conj H3 (conj H4 (conj H5 I))))).
Qed.

(** ** Files and registry *)

Context (t : Prop) (m : gmap string attempt) (x : gmap string bool -> gmap string lock_mode -> Prop) (lv0 : locals).
Context (Hc : covers m) (Hx : lasting x) (Hq : q -> served).
Abbreviation here := (fun j f s => at_ lv0 j f s t m x).
Abbreviation out := (safe_with lv0 t m).

Lemma touch_at j f s : coherent j f s -> members_ok m s -> triple q (here j f s) (ltouch alive) (fun _ => here j f s) out.
Proof. intros H1 H2. apply triple_touch; [by apply at_stable|]. intros lv w H. by eapply at_safe. Qed.
Lemma registry_at j f s : coherent j f s -> members_ok m s ->
  triple q (here j f s) (_registry_state alive b) (fun r lv w => r = s /\ here j f s lv w) out.
Proof.
  intros H1 H2. apply (triple_bind _ _ _ _ (fun v lv w => state_in b v = Ok s /\ here j f s lv w)).
  - apply triple_step; [by apply at_stable|intros lv w H; by eapply at_safe|].
    intros c lv w r w' Hcalm Hp. pose proof Hp as (E1 & [E2 Eg] & E3 & E4 & E5 & E6). destruct (lr_load c (w_registry w)) as [r1 reg] eqn:El.
    intros [= <- <-]. destruct (lr_load_law _ _ _ _ _ _ E2 El) as [L1 L2].
    assert (Hg : q -> (exists v, r1 = Ok v) /\ G reg).
    { intros Hq'. rewrite (Hcalm Hq') in El. destruct (Hq Hq' _ _ (Eg Hq') E2) as [(v & r' & Ev & Gr) _]. rewrite Ev in El. injection El as <- <-. eauto. }
    assert (Hp' : here j f s lv (set_registry reg w)) by (by refine (conj E1 (conj (conj L1 (fun Hq' => proj2 (Hg Hq'))) (conj E3 (conj E4 (conj E5 E6)))))).
    split; [|split; [eapply at_safe; [exact Hp'|done|done]|intros v ->; split; [by apply L2|done]]]. intros Hq'. by apply Hg.
  - intros v. apply triple_pure with (state_in b v = Ok s); [by intros lv w []|]. intros Ev. apply triple_lift.
    + by exists s.
    + intros a lv w Ea [_ Hp]. rewrite Ev in Ea. by injection Ea as <-.
    + intros lv w [_ Hp]. by eapply at_safe.
Qed.
Lemma put_state_at j f s u : let g := Some (Json (state_value b u)) in
  coherent j f s -> coherent j g s -> members_ok m s ->
  triple q (here j f s) (put_state alive b u) (fun _ => here j g s) out.
Proof.
  intros g H1 H2 H3. apply (triple_bind _ _ _ _ (fun _ => here j f s)); [by apply touch_at|]. intros _.
  apply (triple_bind _ _ _ _ (fun _ => here j g s)); [|intros _; by apply touch_at].
  apply triple_update; [by apply at_stable|..]; try (intros lv w H; by eapply at_safe).
  intros lv w (E1 & E2 & E3 & E4 & E5 & E6). by refine (conj E1 (conj E2 (conj E3 (conj _ (conj E5 E6))))).
Qed.
Lemma put_journal_at j f s document : let g := Some (Json document) in
  coherent j f s -> coherent g f s -> members_ok m s ->
  triple q (here j f s) (put_journal alive document) (fun _ => here g f s) out.
Proof.
  intros g H1 H2 H3. apply (triple_bind _ _ _ _ (fun _ => here j f s)); [by apply touch_at|]. intros _.
  apply (triple_bind _ _ _ _ (fun _ => here g f s)); [|intros _; by apply touch_at].
  apply triple_update; [by apply at_stable|..]; try (intros lv w H; by eapply at_safe).
  intros lv w (E1 & E2 & E3 & E4 & E5 & E6). by refine (conj E1 (conj E2 (conj _ (conj E4 (conj E5 E6))))).
Qed.
Lemma unlink_journal_at j f s : coherent j f s -> coherent None f s -> members_ok m s ->
  triple q (here j f s) (unlink_journal alive) (fun _ => here None f s) out.
Proof.
  intros H1 H2 H3. apply (triple_bind _ _ _ _ (fun _ => here None f s)); [|intros _; by apply touch_at].
  apply triple_update; [by apply at_stable|..]; try (intros lv w H; by eapply at_safe).
  intros lv w (E1 & E2 & E3 & E4 & E5 & E6). by refine (conj E1 (conj E2 (conj _ (conj E4 (conj E5 E6))))).
Qed.
Lemma written_coherent u : well_formed u -> queued u -> coherent None (Some (Json (state_value b u))) u.
Proof. intros H1 H2. split; [done|]. split; [done|]. right. eexists. split; [done|]. by apply lease_reads_back. Qed.

(** ** Committing *)

Definition journalled_as (s u : _LeaseState) : option journal_file := Some (Json (journal_value b s u)).
Lemma journalled_coherent f s u r : well_formed s -> well_formed u -> (r = s \/ r = u) -> queued r -> coherent (journalled_as s u) f r.
Proof. intros H1 H2 Hr H3. split; [by destruct Hr as [-> | ->]|]. split; [done|]. by exists s, u. Qed.

Lemma store_at f s u : well_formed s -> queued s -> members_ok m s -> well_formed u -> queued u -> members_ok m u ->
  let j := journalled_as s u in
  triple q (here j f s) (store_state alive b u) (fun _ => here j f u) (fun lv w => here j f s lv w \/ here j f u lv w).
Proof.
  intros H1 H2 H3 U1 U2 U3 j. apply triple_step; [by apply at_stable|auto|].
  intros c lv w r w' Hcalm (E1 & [E2 Eg] & E3 & E4 & E5 & E6). destruct (lr_set c b (state_value b u) (w_registry w)) as [r1 reg] eqn:Es.
  intros [= <- <-]. assert (Hg : q -> r1 = Ok tt /\ G reg).
  { intros Hq'. rewrite (Hcalm Hq') in Es. destruct (Hq Hq' _ _ (Eg Hq') E2) as [_ Hs]. destruct (Hs _ U1) as (r' & Er & Gr).
    rewrite Er in Es. by injection Es as <- <-. }
  pose proof (fun Hq' => proj2 (Hg Hq')) as Hg'. destruct (lr_set_law _ _ _ _ _ _ _ E2 U1 Es) as [L|[L [e ->]]].
  - assert (Hp : here j f u lv (set_registry reg w)) by (by refine (conj E1 (conj (conj L Hg') (conj E3 (conj E4 (conj E5 E6)))))).
    split; [|by split; [right|]]. intros Hq'. destruct (Hg Hq') as [-> _]. by eexists.
  - split; [|split; [left|done]].
    + intros Hq'. by destruct (Hg Hq').
    + by refine (conj E1 (conj (conj L Hg') (conj E3 (conj E4 (conj E5 E6))))).
Qed.
Lemma settle_at f s u e : well_formed s -> queued s -> members_ok m s -> well_formed u -> queued u -> members_ok m u ->
  let j := journalled_as s u in forall r, r = s \/ r = u -> ~ q ->
  triple q (here j f r)
    (current ← _registry_state alive b;
     if bool_decide (current = u) then _ ← put_state alive b u; _ ← unlink_journal alive; mret u
     else if bool_decide (current = s) then _ ← put_state alive b s; _ ← unlink_journal alive; lx_raise e
     else lx_raise (BindingEffectLeaseError "binding effect lease commit diverges from both journal endpoints"))
    (fun a lv w => a = u /\ here None (Some (Json (state_value b u))) u lv w) out.
Proof.
  intros H1 H2 H3 U1 U2 U3 j r Hr Hn. assert (Hj : forall f, coherent j f r) by (intros f'; apply journalled_coherent; auto; by destruct Hr as [-> | ->]).
  assert (Hm : members_ok m r) by (by destruct Hr as [-> | ->]).
  apply (triple_bind _ _ _ _ (fun a lv w => a = r /\ here j f r lv w)); [by apply registry_at|]. intros a.
  apply triple_pure with (a = r); [by intros lv w []|]. intros ->.
  eapply triple_conseq with (P := here j f r) (E := out); [|by intros lv w []|intros a lv w Ha; exact Ha|done].
  case_bool_decide as D1; [|case_bool_decide as D2].
  - subst r. apply (triple_bind _ _ _ _ (fun _ => here j (Some (Json (state_value b u))) u)); [by apply put_state_at|]. intros _.
    apply (triple_bind _ _ _ _ (fun _ => here None (Some (Json (state_value b u))) u)).
    + apply unlink_journal_at; [done|by apply written_coherent|done].
    + intros _. by apply triple_ret.
  - subst r. apply (triple_bind _ _ _ _ (fun _ => here j (Some (Json (state_value b s))) s)); [by apply put_state_at|]. intros _.
    apply (triple_bind _ _ _ _ (fun _ => here None (Some (Json (state_value b s))) s)).
    + apply unlink_journal_at; [done|by apply written_coherent|done].
    + intros _. apply triple_raise; [done|]. intros lv w H. eapply at_safe; [done|by apply written_coherent|done].
  - apply triple_raise; [done|]. intros lv w H. by eapply at_safe.
Qed.
Lemma commit_at f s cand : coherent None f s -> members_ok m s ->
  well_formed (stamp s cand) -> queued (stamp s cand) -> members_ok m (stamp s cand) ->
  triple q (here None f s) (_commit_locked alive b s cand)
    (fun r lv w => r = stamp s cand /\ here None (Some (Json (state_value b r))) r lv w) out.
Proof.
  intros Hco Hm U1 U2 U3. pose proof Hco as (H1 & H2 & H3). unfold _commit_locked.
  apply (triple_bind _ _ _ _ (fun p lv w => p = s /\ here None f s lv w)).
  { rewrite (lease_reads_back b s H1). apply triple_lift; [by eexists|by intros a lv w [= <-]|intros lv w H; by eapply at_safe]. }
  intros p. apply triple_pure with (p = s); [by intros lv w []|]. intros ->. set (u := stamp s cand) in *.
  change (mkLease (le_generation s + 1) (le_next_ticket cand) (le_shared cand) (le_pending cand) (le_exclusive cand)) with u.
  apply (triple_bind _ _ _ _ (fun n lv w => n = u /\ here None f s lv w)).
  { apply triple_lift; [|by intros a lv w ->%validated_same [_ Hp]|intros lv w [_ H]; by eapply at_safe].
    intros _. eexists. by apply lease_reads_back. }
  intros n. apply triple_pure with (n = u); [by intros lv w []|]. intros ->.
  set (j := journalled_as s u). assert (Hjs : forall f, coherent j f s) by (intros f'; apply journalled_coherent; auto).
  assert (Hju : forall f, coherent j f u) by (intros f'; apply journalled_coherent; auto).
  apply (triple_bind _ _ _ _ (fun _ => here j f s)).
  { eapply triple_conseq; [by apply (put_journal_at None f s)|by intros lv w []|done|done]. }
  intros _. set (g := Some (Json (state_value b u))). apply (triple_bind _ _ _ _ (fun _ => here j g s)); [by apply put_state_at|].
  intros _. apply (triple_bind _ _ _ _ (fun o lv w => match o with
    | None => here j g u lv w | Some _ => ~ q /\ (here j g s lv w \/ here j g u lv w) end)).
  - apply triple_catch with (E' := fun lv w => ~ q /\ (here j g s lv w \/ here j g u lv w)).
    + apply (triple_bind _ _ _ _ (fun _ => here j g u)); [by apply triple_disturbed, store_at|]. intros _. by apply triple_ret.
    + intros lv w [_ [H|H]]; by eapply at_safe.
    + intros e. by apply triple_ret.
  - intros [e|].
    + apply triple_pure with (~ q); [by intros lv w []|]. intros Hn.
      eapply triple_conseq with (P := fun lv w => here j g s lv w \/ here j g u lv w);
        [apply triple_or; apply settle_at; auto|by intros lv w []| |done].
      by intros a lv w [-> H].
    + apply (triple_bind _ _ _ _ (fun _ => here None g u)); [apply unlink_journal_at; [done|by apply written_coherent|done]|].
      intros _. apply triple_ret. auto.
Qed.
End Sections.

(** ** Recovering and reconciling *)

Section Reconcile.
Context {R : Type} `{LRL : LeaseRegistryLaws R} (alive : string -> bool) (b : string) (q : Prop) (G : R -> Prop).
Context (t : Prop) (m : gmap string attempt) (lv0 : locals) (Hc : covers alive m) (Hq : q -> served b G).
Abbreviation here := (fun j f s => at_ (R := R) b q G lv0 j f s t m nothing).
Abbreviation out := (safe_with b q G lv0 t m).

Lemma journal_reads_back s u : well_formed s -> well_formed u -> read_journal b (Json (journal_value b s u)) = Ok (s, u).
Proof.
  intros H1 H2. unfold read_journal, journal_value, get. cbn -[state_value _validate_state]. rewrite String.eqb_refl.
  cbn -[state_value _validate_state]. rewrite (lease_reads_back b s H1). cbn -[state_value _validate_state]. by rewrite (lease_reads_back b u H2).
Qed.
Lemma recover_at j f s : coherent b j f s -> members_ok m s ->
  triple q (here j f s) (_recover_journal_locked alive b) (fun _ lv w => exists f', coherent b None f' s /\ here None f' s lv w) out.
Proof.
  intros Hco Hm. unfold _recover_journal_locked. apply (triple_bind _ _ _ _ (fun o lv w => o = j /\ here j f s lv w)).
  { apply triple_look; [by apply at_stable, nothing_lasts|intros lv w H; by eapply at_safe|]. intros lv w H. split; [apply H|done]. }
  intros o. apply triple_pure with (o = j); [by intros lv w []|]. intros ->.
  eapply triple_conseq with (P := here j f s) (E := out); [|by intros lv w []|intros a lv w Ha; exact Ha|done].
  destruct j as [jf|]; [|apply triple_ret; eauto].
  apply (triple_bind _ _ _ _ (fun _ => here (Some jf) f s)); [by apply touch_at; [..|apply nothing_lasts| |]|]. intros _.
  pose proof Hco as (H1 & H2 & s1 & u1 & -> & W1 & W2 & Hs).
  apply (triple_bind _ _ _ _ (fun p lv w => p = (s1, u1) /\ here (Some (Json (journal_value b s1 u1))) f s lv w)).
  { apply triple_lift; [rewrite journal_reads_back by done; by eexists| |intros lv w H; by eapply at_safe].
    intros p lv w. rewrite journal_reads_back by done. by intros [= <-]. }
  intros p. apply triple_pure with (p = (s1, u1)); [by intros lv w []|]. intros ->. set (j := Some (Json (journal_value b s1 u1))) in *.
  apply (triple_bind _ _ _ _ (fun c lv w => c = s /\ here j f s lv w)).
  { eapply triple_conseq; [by apply (registry_at alive b q G t m nothing lv0 Hc (nothing_lasts alive) Hq j f s)|by intros lv w []|done|done]. }
  intros c. apply triple_pure with (c = s); [by intros lv w []|]. intros ->.
  apply (triple_bind _ _ _ _ (fun r lv w => r = s /\ here j f s lv w)).
  { eapply triple_conseq with (P := here j f s) (E := out); [|by intros lv w []|intros a lv w Ha; exact Ha|done].
    destruct Hs as [-> | ->]; repeat case_bool_decide; try done; apply triple_ret; auto. }
  intros r. apply triple_pure with (r = s); [by intros lv w []|]. intros ->.
  apply (triple_bind _ _ _ _ (fun _ => here j (Some (Json (state_value b s))) s)).
  { eapply triple_conseq; [apply (put_state_at alive b q G t m nothing lv0 Hc (nothing_lasts alive) j f s s)|by intros lv w []|done|done]; done. }
  intros _. eapply triple_conseq; [apply (unlink_journal_at alive b q G t m nothing lv0 Hc (nothing_lasts alive) j)|done| |done]; try done.
  - by apply written_coherent.
  - intros a lv w Ha. exists (Some (Json (state_value b s))). split; [by apply written_coherent|done].
Qed.
Lemma load_at f s : coherent b None f s -> members_ok m s ->
  triple q (here None f s) (_load_state_locked alive b) (fun r lv w => r = s /\ here None f s lv w) out.
Proof.
  intros Hco Hm. unfold _load_state_locked. apply (triple_bind _ _ _ _ (fun o lv w => o = f /\ here None f s lv w)).
  { apply triple_look; [by apply at_stable, nothing_lasts|intros lv w H; by eapply at_safe|]. intros lv w H. split; [apply H|done]. }
  intros o. apply triple_pure with (o = f); [by intros lv w []|]. intros ->.
  eapply triple_conseq with (P := here None f s) (E := out); [|by intros lv w []|intros a lv w Ha; exact Ha|done].
  pose proof Hco as (H1 & H2 & [->|(v & -> & Ev)]); [by apply registry_at; [..|apply nothing_lasts| | |]|].
  apply (triple_bind _ _ _ _ (fun _ => here None (Some (Json v)) s)); [by apply touch_at; [..|apply nothing_lasts| |]|]. intros _.
  apply (triple_bind _ _ _ _ (fun l lv w => l = s /\ here None (Some (Json v)) s lv w)).
  { rewrite Ev. apply triple_lift; [by eexists|by intros a lv w [= <-]|intros lv w H; by eapply at_safe]. }
  intros l. apply triple_pure with (l = s); [by intros lv w []|]. intros ->.
  apply (triple_bind _ _ _ _ (fun r lv w => r = s /\ here None (Some (Json v)) s lv w)).
  { eapply triple_conseq; [by apply (registry_at alive b q G t m nothing lv0 Hc (nothing_lasts alive) Hq None (Some (Json v)) s)|by intros lv w []|done|done]. }
  intros r. apply triple_pure with (r = s); [by intros lv w []|]. intros ->. rewrite bool_decide_true by done.
  apply (triple_bind _ _ _ _ (fun _ => here None (Some (Json v)) s)); [apply triple_ret; by intros lv w []|]. intros _. apply triple_ret. auto.
Qed.
End Reconcile.

(** ** Activity files *)

(** Activity files that nobody has locked. *)
Definition unlocked (l : list string) (a : gmap string bool) (g : gmap string lock_mode) : Prop := forall h, h ∈ l -> a !! h <> Some true.
Definition guards (m : gmap string attempt) (h : string) : Prop := exists a, m !! h = Some a /\ guarded a = true.
Lemma unlocked_lasts alive l : lasting alive (unlocked l).
Proof.
  intros a g h Ha Hu. split; [|done]. intros h' Hh. unfold unlock_activity. destruct (a !! h) eqn:E; [|by apply Hu].
  destruct (decide (h = h')) as [->|N]; [by rewrite lookup_insert_eq|rewrite lookup_insert_ne by done; by apply Hu].
Qed.
Lemma unlinked_locks t m a g h : a !! h <> Some true -> locks_ok t m a g -> locks_ok t m (delete h a) g.
Proof.
  intros Hn [L1 L2 L3 L4 L5 L6]. split; try done.
  - intros h' x Hx Hg. rewrite lookup_delete_ne; [eauto|]. intros ->. by destruct Hn; eapply L1.
  - intros h' x Hx Hu. destruct (decide (h = h')) as [->|N]; [apply lookup_delete_eq|rewrite lookup_delete_ne by done; eauto].
  - intros Ht h' [_ E]%lookup_delete_Some. eauto.
Qed.

Section Activity.
Context {R : Type} `{LRL : LeaseRegistryLaws R} (alive : string -> bool) (b : string) (q : Prop) (G : R -> Prop).
Context (t : Prop) (m : gmap string attempt) (lv0 : locals) (Hc : covers alive m) (Hq : q -> served b G).
Abbreviation here := (fun f s l => at_ (R := R) b q G lv0 None f s t m (unlocked l)).
Abbreviation out := (safe_with b q G lv0 t m).

Lemma here_fewer f s l l' lv w : (forall h, h ∈ l -> h ∈ l') -> here f s l' lv w -> here f s l lv w.
Proof.
  intros Hl (H1 & H2 & H3 & H4 & H5 & H6). refine (conj H1 (conj H2 (conj H3 (conj H4 (conj H5 _))))). intros h Hh. by apply H6, Hl.
Qed.
Lemma here_nothing f s l lv w : here f s l lv w -> at_ b q G lv0 None f s t m nothing lv w.
Proof. intros (H1 & H2 & H3 & H4 & H5 & H6). by refine (conj H1 (conj H2 (conj H3 (conj H4 (conj H5 I))))). Qed.
Lemma nothing_here f s lv w : at_ b q G lv0 None f s t m nothing lv w -> here f s [] lv w.
Proof.
  intros (H1 & H2 & H3 & H4 & H5 & H6). refine (conj H1 (conj H2 (conj H3 (conj H4 (conj H5 _))))). by intros h []%not_elem_of_nil.
Qed.
Lemma unlink_at f s l h : coherent b None f s -> members_ok m s -> h ∈ l ->
  triple q (here f s l) (_unlink_holder_activity_locked alive h) (fun _ => here f s l) out.
Proof.
  intros H1 H2 Hh. pose proof (unlocked_lasts alive l) as Hx.
  apply (triple_bind _ _ _ _ (fun _ => here f s l)); [by apply touch_at|]. intros _.
  apply (triple_bind _ _ _ _ (fun _ => here f s l)); [|intros _; by apply touch_at].
  apply triple_update; [by apply at_stable|..]; try (intros lv w H; by eapply at_safe).
  intros lv w (E1 & E2 & E3 & E4 & E5 & E6). refine (conj E1 (conj E2 (conj E3 (conj E4 (conj _ _))))).
  - apply unlinked_locks; [by apply E6|done].
  - intros h' Hh'. simpl. destruct (decide (h = h')) as [->|N]; [by rewrite lookup_delete_eq|rewrite lookup_delete_ne by done; by apply E6].
Qed.
Lemma probe_at f s l h : coherent b None f s -> members_ok m s ->
  triple q (here f s l) (probe_activity alive h)
    (fun a lv w => here f s l lv w /\ match a with
       | Active => t -> guards m h
       | Abandoned => here f s (h :: l) lv w /\ ~ guards m h
       | Missing => ~ guards m h
       end) out.
Proof.
  intros H1 H2. apply triple_look; [by apply at_stable, unlocked_lasts|intros lv w H; by eapply at_safe|].
  intros lv w Hp. split; [done|]. pose proof Hp as (E1 & E2 & E3 & E4 & E5 & E6).
  assert (Hg : guards m h -> w_activity w !! h = Some true) by (intros (x & Ex & Eg); by eapply lo_locked).
  destruct (w_activity w !! h) as [[]|] eqn:E; [|split|].
  - intros Ht. by apply (lo_tight_activity _ _ _ _ E5 Ht).
  - refine (conj E1 (conj E2 (conj E3 (conj E4 (conj E5 _))))). intros h' [->|Hh']%elem_of_cons; [by rewrite E|by apply E6].
  - intros Hx. by apply Hg in Hx.
  - intros Hx. by apply Hg in Hx.
Qed.
Lemma scavenge_at f s l referenced : coherent b None f s -> members_ok m s ->
  triple q (here f s l) (_scavenge_holder_activity_locked alive referenced) (fun _ => here f s l) out.
Proof.
  intros H1 H2. unfold _scavenge_holder_activity_locked. apply (triple_bind _ _ _ _ (fun _ => here f s l)).
  { apply triple_look; [by apply at_stable, unlocked_lasts|intros lv w H; by eapply at_safe|done]. }
  intros files. apply triple_foreach. intros h _. destruct (existsb _ _); [by apply triple_ret|].
  eapply triple_bind; [by apply probe_at|]. intros [| |]; simpl; try (apply triple_ret; by intros lv w []).
  eapply triple_conseq with (P := here f s (h :: l)); [apply unlink_at; [done|done|left]|by intros lv w (_ & H & _)| |done].
  intros ? lv w. apply here_fewer. set_solver.
Qed.

(** Who is sifted out: nobody that guards its activity, and in the end nobody else stays. *)
Record sifted (items active abandoned : list _HolderState) : Prop := {
  sf_active : active `sublist_of` items;
  sf_guards : forall p, p ∈ items -> guards m (ho_id p) -> p ∈ active;
  sf_tight : t -> forall p, p ∈ active -> guards m (ho_id p) }.
Lemma sift_at f s items : coherent b None f s -> members_ok m s -> forall l,
  triple q (here f s l) (sift alive items)
    (fun r lv w => sifted items (fst r) (snd r) /\ here f s (ids (snd r) ++ l) lv w) out.
Proof.
  intros H1 H2. induction items as [|item items IH]; intros l; simpl.
  { apply triple_ret. intros lv w H. split; [|done]. split; [done|by intros p []%not_elem_of_nil|by intros _ p []%not_elem_of_nil]. }
  eapply triple_bind; [by apply probe_at|]. intros a. simpl.
  set (keep := match a with Abandoned => ho_id item :: l | _ => l end).
  apply triple_pure with (match a with Active => t -> guards m (ho_id item) | _ => ~ guards m (ho_id item) end);
    [by intros lv w [_ H]; destruct a; try done; apply H|]. intros Ha.
  apply (triple_bind _ _ _ _ (fun r lv w => sifted items (fst r) (snd r) /\ here f s (ids (snd r) ++ keep) lv w)).
  { eapply triple_conseq; [apply (IH keep)|intros lv w [Hp Hh]|done|done]. subst keep. by destruct a; [|apply Hh|]. }
  intros [active abandoned]. simpl. apply triple_ret. intros lv w [[S1 S2 S3] Hp]. subst keep. destruct a; simpl.
  - split; [|done]. split; [by constructor|..].
    + intros p [->|Hin]%elem_of_cons Hg; [left|right; auto].
    + intros Ht p [->|Hin]%elem_of_cons; auto.
  - split; [|eapply here_fewer; [|exact Hp]; set_solver]. split; [by constructor| |done].
    intros p [->|Hin]%elem_of_cons Hg; [by destruct Ha|auto].
  - split; [|done]. split; [by constructor| |done]. intros p [->|Hin]%elem_of_cons Hg; [by destruct Ha|auto].
Qed.
End Activity.
