(* ===== verification/EffectLeaseReconcile.v ===== *)
(** * Reconciling a lease state, and the parts of an attempt *)
From S2P Require Import Prelude PyValue Sql SettingsRebind VaultRegistry RegistryProps RegistryFiles EffectLease EffectLeaseStates EffectLeaseLogic EffectLeaseSections.
Open Scope Z_scope.

(** ** Reconciliation *)

Section Reconciled.
Context {R : Type} `{LRL : LeaseRegistryLaws R} (alive : string -> bool) (b : string) (q : Prop) (G : R -> Prop).
Context (t : Prop) (m : gmap string attempt) (lv0 : locals) (Hc : covers alive m) (Hq : q -> served b G).
Abbreviation here := (fun f s l => at_ (R := R) b q G lv0 None f s t m (unlocked l)).
Abbreviation out := (safe_with b q G lv0 t m).

(** What reconciliation makes of a state: holders are struck, but nobody who still waits or holds, and
    with no stray locks nobody else is left. *)
Record reconciled (s s' : _LeaseState) : Prop := {
  rc_fewer : fewer s' s;
  rc_members : members_ok m s';
  rc_tight : t -> forall p, p ∈ le_holders s' -> guards m (ho_id p) }.

Record holders_kept (s : _LeaseState) (shared : list _HolderState) (exclusive : option _HolderState) : Prop := {
  hp_shared : shared `sublist_of` le_shared s;
  hp_exclusive : exclusive = le_exclusive s \/ exclusive = None;
  hp_held_shared : forall h a, m !! h = Some a -> at_phase a = Held -> h ∈ ids (le_shared s) -> h ∈ ids shared;
  hp_held_exclusive : forall h a, m !! h = Some a -> at_phase a = Held -> h ∈ ids (option_list (le_exclusive s)) -> exclusive = le_exclusive s;
  hp_tight : t -> forall p, p ∈ shared ++ option_list exclusive -> guards m (ho_id p) }.

Lemma held_guards h a : m !! h = Some a -> at_phase a = Held -> guards m h.
Proof. intros H1 H2. exists a. split; [done|]. unfold guarded. by rewrite H2. Qed.
Lemma kept_reconciled g s pending shared exclusive abandoned : members_ok m s -> sifted t m (le_pending s) pending abandoned ->
  holders_kept s shared exclusive -> reconciled s (mkLease g (le_next_ticket s) shared pending exclusive).
Proof.
  intros [M1 M2 M3 M4] [S1 S2 S3] [H1 H2 H3 H4 H5]. set (s' := mkLease _ _ _ _ _).
  assert (Hf : fewer s' s) by (by split). split; [done| |].
  - split; simpl.
    + intros h a Ha Hp He. destruct (M1 h a Ha Hp He) as (p & E1 & E2 & E3). exists p. split; [done|]. split; [done|].
      apply S2; [done|]. rewrite E2. exists a. split; [done|]. unfold guarded. by rewrite Hp.
    + intros h a Ha Hp He. apply (H3 h a Ha Hp). by apply (M2 h a).
    + intros h a Ha Hp He. destruct (M3 h a Ha Hp He) as (e & E1 & E2). exists e. split; [|done]. rewrite <- E1.
      apply (H4 h a Ha Hp). rewrite E1, <- E2. by left.
    + intros h a Ha Hu Hin. apply (M4 h a Ha Hu). unfold ids in *. apply list_elem_of_fmap in Hin as (p & -> & Hp).
      apply list_elem_of_fmap. exists p. split; [done|]. apply fewer_holders in Hf. eapply sublist_subseteq; eauto.
  - intros Ht p. unfold le_holders. simpl. intros Hp. apply elem_of_app in Hp as [Hp|[Hp|Hp]%elem_of_app].
    + apply H5; [done|]. by apply elem_of_app; left.
    + by apply S3.
    + apply H5; [done|]. by apply elem_of_app; right.
Qed.
Lemma same_reconciled s pending shared exclusive abandoned : members_ok m s -> sifted t m (le_pending s) pending abandoned ->
  holders_kept s shared exclusive -> mkLease (le_generation s) (le_next_ticket s) shared pending exclusive = s -> reconciled s s.
Proof. intros H1 H2 H3 E. rewrite <- E at 2. by eapply kept_reconciled. Qed.

Lemma holders_at f s l (gate_free : bool) : coherent b None f s -> members_ok m s ->
  (gate_free = true -> forall h a, m !! h = Some a -> at_phase a <> Held) ->
  triple q (here f s l)
    (if gate_free then _ ← ltouch alive; mret ([], None, []) else
     '(shared, left_shared) ← sift alive (le_shared s);
     '(exclusive, left_exclusive) ← sift alive (option_list (le_exclusive s));
     mret (shared, head exclusive, left_shared ++ left_exclusive))
    (fun r lv w => holders_kept s (fst (fst r)) (snd (fst r)) /\ here f s (ids (snd r) ++ l) lv w) out.
Proof.
  intros H1 H2 Hg. destruct gate_free.
  - apply (triple_bind _ _ _ _ (fun _ => here f s l)); [by apply touch_at; [..|apply unlocked_lasts| |]|]. intros _. apply triple_ret.
    intros lv w Hp. split; [|done]. split; simpl; auto.
    + apply sublist_nil_l.
    + intros h a Ha Hp'. by destruct (Hg eq_refl h a Ha).
    + intros h a Ha Hp'. by destruct (Hg eq_refl h a Ha).
    + by intros _ p []%not_elem_of_nil.
  - eapply triple_bind; [by apply sift_at|]. intros [shared left_shared]. simpl.
    apply triple_pure with (sifted t m (le_shared s) shared left_shared); [by intros lv w []|]. intros [S1 S2 S3].
    apply (triple_bind _ _ _ _ (fun r lv w => sifted t m (option_list (le_exclusive s)) (fst r) (snd r)
      /\ here f s (ids (snd r) ++ (ids left_shared ++ l)) lv w)).
    { eapply triple_conseq; [by apply sift_at|by intros lv w []|done|done]. }
    intros [exclusive left_exclusive]. simpl. apply triple_ret. intros lv w [[E1 E2 E3] Hp].
    assert (Hx : option_list (head exclusive) = exclusive).
    { destruct (le_exclusive s); simpl in E1; [|by apply sublist_nil_r in E1 as ->].
      apply sublist_cons_r in E1 as [E1|(k & -> & E1)]; apply sublist_nil_r in E1; by subst. }
    split; [split|]; simpl; auto.
    + destruct (le_exclusive s) as [e|]; simpl in E1; [|by apply sublist_nil_r in E1 as ->; left].
      apply sublist_cons_r in E1 as [E1|(k & -> & E1)]; apply sublist_nil_r in E1; subst; auto.
    + intros h a Ha Hp' Hin. unfold ids in *. apply list_elem_of_fmap in Hin as (p & -> & Hin). apply list_elem_of_fmap.
      exists p. split; [done|]. apply S2; [done|]. by eapply held_guards.
    + intros h a Ha Hp' Hin. destruct (le_exclusive s) as [e|]; [|by apply not_elem_of_nil in Hin].
      apply list_elem_of_singleton in Hin. subst h. assert (He : e ∈ exclusive) by (apply E2; [by left|by eapply held_guards]).
      rewrite <- Hx in He. destruct (head exclusive) as [e'|]; [|by apply not_elem_of_nil in He]. by apply list_elem_of_singleton in He as ->.
    + intros Ht p [Hin|Hin]%elem_of_app; [auto|]. rewrite Hx in Hin. auto.
    + eapply here_fewer; [|exact Hp]. intros h. unfold ids. rewrite map_app. set_solver.
Qed.

Lemma reconcile_at f s : coherent b None f s -> members_ok m s ->
  triple q (at_ b q G lv0 None f s t m nothing) (_load_reconciled_locked alive b)
    (fun s' lv w => exists f', (coherent b None f' s' /\ reconciled s s') /\ at_ b q G lv0 None f' s' t m nothing lv w) out.
Proof.
  intros Hco Hm. pose proof Hco as (W1 & W2 & _). unfold _load_reconciled_locked.
  apply (triple_bind _ _ _ _ (fun r lv w => r = s /\ here f s [] lv w)).
  { eapply triple_conseq; [by apply load_at|done| |done]. intros r lv w [-> H]. split; [done|by apply nothing_here]. }
  intros r. apply triple_pure with (r = s); [by intros lv w []|]. intros ->.
  apply (triple_bind _ _ _ _ (fun _ => here f s [])).
  { eapply triple_conseq; [by apply scavenge_at|by intros lv w []|done|done]. }
  intros _. eapply triple_bind; [by apply sift_at|]. intros [pending left_pending]. simpl. rewrite app_nil_r.
  apply triple_pure with (sifted t m (le_pending s) pending left_pending); [by intros lv w []|]. intros Hsift.
  set (l1 := ids left_pending). apply (triple_bind _ _ _ _ (fun _ => here f s l1)).
  { eapply triple_conseq; [by apply touch_at; [..|apply unlocked_lasts| |]|by intros lv w []|done|done]. }
  intros _. apply (triple_bind _ _ _ _ (fun gf lv w => (gf = true -> forall h a, m !! h = Some a -> at_phase a <> Held) /\ here f s l1 lv w)).
  { apply triple_look; [by apply at_stable, unlocked_lasts|intros lv w H; by eapply at_safe|]. intros lv w Hp. split; [|done].
    intros Hg%bool_decide_eq_true h a Ha Hh. pose proof (proj1 (proj2 (proj2 (proj2 (proj2 Hp))))) as Hl.
    pose proof (lo_gate _ _ _ _ Hl _ _ Ha Hh) as E. by rewrite Hg, lookup_empty in E. }
  intros gf. apply triple_pure with (gf = true -> forall h a, m !! h = Some a -> at_phase a <> Held); [by intros lv w []|]. intros Hgf.
  apply (triple_bind _ _ _ _ (fun r lv w => holders_kept s (fst (fst r)) (snd (fst r)) /\ here f s (ids (snd r) ++ l1) lv w)).
  { eapply triple_conseq; [by apply holders_at|by intros lv w []|done|done]. }
  intros [[shared exclusive] left_holders]. simpl. apply triple_pure with (holders_kept s shared exclusive); [by intros lv w []|]. intros Hkept.
  set (l2 := ids left_holders ++ l1). apply (triple_bind _ _ _ _ (fun _ => here f s l2)).
  { eapply triple_conseq; [by apply touch_at; [..|apply unlocked_lasts| |]|by intros lv w []|done|done]. }
  intros _. set (updated := mkLease (le_generation s) (le_next_ticket s) shared pending exclusive).
  case_bool_decide as Du.
  { apply triple_ret. intros lv w Hp. exists f. split; [split; [done|by eapply same_reconciled]|by eapply here_nothing]. }
  assert (Hr : reconciled s (stamp s updated)) by (unfold stamp, updated; simpl; by eapply kept_reconciled).
  assert (Hw : well_formed (stamp s updated)).
  { eapply fewer_well_formed; [apply (rc_fewer _ _ Hr)| |done]. simpl. pose proof (wf_generation s W1). lia. }
  assert (Hqd : queued (stamp s updated)) by (by apply (fewer_queued _ _ (rc_fewer _ _ Hr))).
  set (s' := stamp s updated) in *. set (f' := Some (Json (state_value b s'))).
  assert (Hco' : coherent b None f' s') by (by apply written_coherent).
  apply (triple_bind _ _ _ _ (fun r lv w => r = s' /\ here f' s' l2 lv w)).
  { eapply triple_conseq; [apply (commit_at alive b q G t m (unlocked l2) lv0 Hc (unlocked_lasts alive l2) Hq f s updated)|done| |done]; try done.
    - apply Hr.
    - intros r lv w (-> & Hp). done. }
  intros r. apply triple_pure with (r = s'); [by intros lv w []|]. intros ->.
  apply (triple_bind _ _ _ _ (fun _ => here f' s' l2)).
  { apply (triple_conseq _ (here f' s' l2) _ _ (fun _ => here f' s' l2) _ out); [|by intros lv w []|done|done]. apply triple_foreach. intros p Hp.
    apply unlink_at; [done|done|apply Hr|]. subst l2 l1. unfold ids. rewrite <- map_app.
    apply list_elem_of_fmap. exists p. split; [done|]. set_solver. }
  intros _. apply (triple_bind _ _ _ _ (fun _ => here f' s' l2)); [apply scavenge_at; [done..|apply Hr]|]. intros _. apply triple_ret.
  intros lv w Hp. exists f'. split; [done|]. by eapply here_nothing.
Qed.
End Reconciled.

(** ** One attempt's sections *)

Lemma fewer_attempts_locks t m m' a g : m' ⊆ m -> locks_ok t m a g -> locks_ok False m' a g.
Proof.
  intros Hs [L1 L2 L3 L4 _ _]. assert (Hl : forall h x, m' !! h = Some x -> m !! h = Some x) by (intros h x Hx; by eapply lookup_weaken).
  split; try done; eauto.
Qed.
Lemma fewer_attempts_members m m' s : m' ⊆ m -> members_ok m s -> members_ok m' s.
Proof.
  intros Hs [M1 M2 M3 M4]. assert (Hl : forall h x, m' !! h = Some x -> m !! h = Some x) by (intros h x Hx; by eapply lookup_weaken).
  split; eauto.
Qed.
Lemma covers_fewer alive m m' : m' ⊆ m -> covers alive m -> covers alive m'.
Proof. intros Hs Hc h a Ha. apply Hc. by eapply lookup_weaken. Qed.

Section Attempt.
Context {R : Type} `{LRL : LeaseRegistryLaws R} (alive : string -> bool) (b : string) (q : Prop) (G : R -> Prop) (Hq : q -> served b G).

Lemma safe_weaken t m m' (w : world R) : m' ⊆ m -> safe b q G t m w -> safe b q G False m' w.
Proof.
  intros Hs (lv & j & f & s & (H1 & H2 & H3 & H4 & H5 & _) & Hco & Hm). exists lv, j, f, s. split; [|split; [done|]].
  - refine (conj H1 (conj H2 (conj H3 (conj H4 (conj _ I))))). by eapply fewer_attempts_locks.
  - by eapply fewer_attempts_members.
Qed.
(** The end of a section whose attempt has no claim any more. *)
Definition dropped (m : gmap string attempt) (lv : locals) (w : world R) : Prop := lv_held lv = false /\ safe b q G False m w.
Lemma out_dropped t m m' lv0 lv w : m' ⊆ m -> lv_held lv0 = false -> safe_with b q G lv0 t m lv w -> dropped m' lv w.
Proof. intros Hs Hl [-> H]. split; [done|by eapply safe_weaken]. Qed.
Lemma safe_lost t m (w : world R) l : covers alive m -> safe b q G t m w -> safe b q G t m (lose alive l w).
Proof. intros Hc Hs. by apply (safe_stable alive b q G no_locals t m Hc no_locals w l (conj eq_refl Hs)). Qed.
Lemma dropped_stable m : covers alive m -> stable alive (dropped m).
Proof. intros Hc lv w l [Hl Hs]. split; [done|by apply safe_lost]. Qed.

Lemma locked_at {A} (body : lx A) t m lv0 j f s Q (E : locals -> world R -> Prop) : covers alive m ->
  coherent b j f s -> members_ok m s ->
  (forall f', coherent b None f' s -> triple q (at_ b q G lv0 None f' s t m nothing) body Q E) ->
  (forall a, stable alive (Q a)) -> stable alive E -> (forall a lv w, Q a lv w -> E lv w) ->
  (forall lv w, safe_with b q G lv0 t m lv w -> E lv w) ->
  triple q (at_ b q G lv0 j f s t m nothing) (_state_locked alive b body) Q E.
Proof.
  intros Hc Hco Hm Hb S1 S2 S3 S4. pose proof (nothing_lasts alive) as Hx. set (P := at_ b q G lv0 j f s t m nothing).
  assert (Ht : triple q P (ltouch alive) (fun _ => P) E).
  { eapply triple_conseq; [by apply touch_at|done|done|done]. }
  unfold _state_locked. apply (triple_bind _ _ _ _ (fun _ => P)); [done|]. intros _. apply (triple_bind _ _ _ _ (fun _ => P)); [done|]. intros _.
  apply triple_finally; [|done..]. apply (triple_bind _ _ _ _ (fun _ => P)); [done|]. intros _. apply triple_finally; [|done..].
  eapply triple_bind; [eapply triple_conseq; [by apply recover_at|done| |exact S4]|].
  - intros a lv w H. exact H.
  - intros ?. apply triple_exists. intros f'. apply triple_pure with (coherent b None f' s); [by intros lv w []|]. intros Hf.
    eapply triple_conseq; [by apply Hb|by intros lv w []|done|done].
Qed.
Lemma fenced_at {A} (body : lx A) t m lv0 j f s Q (E : locals -> world R -> Prop) : covers alive m ->
  coherent b j f s -> members_ok m s -> triple q (at_ b q G lv0 j f s t m nothing) body Q E ->
  (forall a, stable alive (Q a)) -> stable alive E -> (forall a lv w, Q a lv w -> E lv w) ->
  (forall lv w, safe_with b q G lv0 t m lv w -> E lv w) ->
  triple q (at_ b q G lv0 j f s t m nothing) (fenced alive body) Q E.
Proof.
  intros Hc Hco Hm Hb S1 S2 S3 S4. pose proof (nothing_lasts alive) as Hx. unfold fenced.
  apply (triple_bind _ _ _ _ (fun _ => at_ b q G lv0 j f s t m nothing)).
  - eapply triple_conseq; [by apply touch_at|done|done|done].
  - intros _. by apply triple_finally.
Qed.

(** Anybody may look. *)
Lemma observe_at t m lv0 j f s : covers alive m -> coherent b j f s -> members_ok m s ->
  triple q (at_ b q G lv0 j f s t m nothing) (observe alive b) (fun _ => safe_with b q G lv0 t m) (safe_with b q G lv0 t m).
Proof.
  intros Hc Hco Hm. apply locked_at; try done; [|by intros ?; apply safe_stable|by apply safe_stable].
  intros f' Hf. eapply triple_bind; [by apply reconcile_at|]. intros s'. apply triple_exists. intros f2.
  apply triple_pure with (coherent b None f2 s' /\ reconciled t m s s'); [by intros lv w []|]. intros [C1 C2].
  apply triple_ret. intros lv w [_ H]. eapply at_safe; [done|done|apply C2].
Qed.

Context (h0 : string) (Hown : alive h0 = true).
Definition own_activity (v : option bool) (k : option lock_mode) (a : gmap string bool) (g : gmap string lock_mode) : Prop :=
  a !! h0 = v /\ match k with Some k => g !! h0 = Some k | None => True end.
Lemma own_lasts v k : lasting alive (own_activity v k).
Proof.
  intros a g h Ha [H1 H2]. assert (N : h <> h0) by (intros ->; by rewrite Hown in Ha). split; split; try done.
  - unfold unlock_activity. destruct (a !! h); [by rewrite lookup_insert_ne|done].
  - destruct k; [by rewrite lookup_delete_ne|done].
Qed.
(** What happens to the files and locks of an attempt that is not in the map does not matter. *)
Lemma own_locks t m a g v : m !! h0 = None -> locks_ok t m a g -> locks_ok False m (<[h0 := v]> a) g.
Proof.
  intros Hn [L1 L2 L3 L4 _ _]. assert (N : forall h x, m !! h = Some x -> h0 <> h) by (intros h x Hx ->; by rewrite Hn in Hx).
  split; try done; intros h x Hx Hg; rewrite lookup_insert_ne by eauto; eauto.
Qed.
Lemma own_unlinked t m a g : m !! h0 = None -> locks_ok t m a g -> locks_ok False m (delete h0 a) g.
Proof.
  intros Hn [L1 L2 L3 L4 _ _]. assert (N : forall h x, m !! h = Some x -> h0 <> h) by (intros h x Hx ->; by rewrite Hn in Hx).
  split; try done; intros h x Hx Hg; rewrite lookup_delete_ne by eauto; eauto.
Qed.
Abbreviation alone := (fun lv0 f s m v k => at_ (R := R) b q G lv0 None f s False m (own_activity v k)).

Lemma open_at m f s k : covers alive m -> m !! h0 = None -> coherent b None f s -> members_ok m s ->
  triple q (alone no_locals f s m None k) (open_holder_activity alive h0)
    (fun _ => alone (mkLocals None true false) f s m (Some true) k) (dropped m).
Proof.
  intros Hc Hn Hco Hm. pose proof (own_lasts (Some false) k) as X1. pose proof (own_lasts None k) as X0.
  assert (Ho : forall lv0 v lv w, lv_held lv0 = false -> alone lv0 f s m v k lv w -> dropped m lv w).
  { intros lv1 v1 lv w Hl H. eapply out_dropped; [done|exact Hl|]. by eapply at_safe. }
  apply (triple_bind _ _ _ _ (fun _ => alone no_locals f s m (Some false) k)).
  - apply triple_step; [by apply at_stable|intros lv w; by apply Ho|].
    intros c lv w r w' _ (E1 & E2 & E3 & E4 & E5 & [E6 E7]). rewrite E6. intros [= <- <-].
    assert (Hp : alone no_locals f s m (Some false) k lv (set_activity (<[h0:=false]> (w_activity w)) w)).
    { refine (conj E1 (conj E2 (conj E3 (conj E4 (conj (own_locks _ _ _ _ _ Hn E5) (conj _ E7)))))). apply lookup_insert_eq. }
    split; [by eexists|]. split; [by apply (Ho no_locals (Some false))|done].
  - intros _. eapply triple_bind; [apply triple_get|]. intros lv1. apply triple_pure with (lv1 = no_locals);
      [by intros lv w (-> & E1 & _)|]. intros ->. simpl.
    apply (triple_bind _ _ _ _ (fun _ => alone (mkLocals None true false) f s m (Some false) k)).
    + eapply triple_conseq; [apply triple_set|intros lv w [_ H]; exact H| |done].
      intros a lv w (-> & lv2 & E1 & E2). by split.
    + intros _. apply triple_update; [by apply at_stable|intros lv w; by apply Ho| |intros lv w; by apply Ho].
      intros lv w (E1 & E2 & E3 & E4 & E5 & [E6 E7]).
      refine (conj E1 (conj E2 (conj E3 (conj E4 (conj (own_locks _ _ _ _ _ Hn E5) (conj _ E7)))))). apply lookup_insert_eq.
Qed.
End Attempt.
