(* ===== verification/EffectLeaseProps.v ===== *)
(** * Effect leases: exclusion, order and recovery *)
From S2P Require Import Prelude PyValue Sql SettingsRebind VaultRegistry RegistryProps RegistryFiles EffectLease EffectLeaseStates EffectLeaseLogic EffectLeaseSections EffectLeaseReconcile.
Open Scope Z_scope.

(** ** The attempt whose section it is *)

Lemma own_in (m : gmap string attempt) h0 a : delete h0 m ⊆ <[h0 := a]> m.
Proof. rewrite <- insert_delete_eq. apply insert_subseteq, lookup_delete_eq. Qed.
Lemma own_locks_in m h0 a act gate : locks_ok False (delete h0 m) act gate ->
  (guarded a = true -> act !! h0 = Some true) -> (untouched a = true -> act !! h0 = None) ->
  (at_phase a = Held -> gate !! h0 = Some (mode_of a)) -> locks_ok False (<[h0 := a]> m) act gate.
Proof.
  intros [L1 L2 L3 L4 _ _] H1 H2 H3.
  split; try done; intros h x [[<- <-]|[N Hx]]%lookup_insert_Some; auto;
    assert (Hd : delete h0 m !! h = Some x) by (by rewrite lookup_delete_ne); eauto.
Qed.
Lemma own_members_in m h0 a s : members_ok (delete h0 m) s ->
  (at_phase a = Waiting -> rq_exclusive (at_request a) = true -> exists p, lv_pending (at_locals a) = Some p /\ ho_id p = h0 /\ p ∈ le_pending s) ->
  (at_phase a = Held -> rq_exclusive (at_request a) = false -> h0 ∈ ids (le_shared s)) ->
  (at_phase a = Held -> rq_exclusive (at_request a) = true -> exists e, le_exclusive s = Some e /\ ho_id e = h0) ->
  (untouched a = true -> h0 ∉ ids (le_holders s)) -> members_ok (<[h0 := a]> m) s.
Proof.
  intros [M1 M2 M3 M4] H1 H2 H3 H4.
  split; intros h x [[<- <-]|[N Hx]]%lookup_insert_Some; auto;
    assert (Hd : delete h0 m !! h = Some x) by (by rewrite lookup_delete_ne); eauto.
Qed.
(** The entries of the others are those with other ids. *)
Lemma others_members m h0 s s' : members_ok (delete h0 m) s ->
  (forall p, p ∈ le_pending s -> ho_id p <> h0 -> p ∈ le_pending s') ->
  (forall h, h <> h0 -> h ∈ ids (le_shared s) -> h ∈ ids (le_shared s')) ->
  (forall e, le_exclusive s = Some e -> ho_id e <> h0 -> le_exclusive s' = Some e) ->
  (forall h, h <> h0 -> h ∈ ids (le_holders s') -> h ∈ ids (le_holders s)) -> members_ok (delete h0 m) s'.
Proof.
  intros [M1 M2 M3 M4] H1 H2 H3 H4. assert (N : forall h x, delete h0 m !! h = Some x -> h <> h0).
  { intros h x [N _]%lookup_delete_Some. congruence. }
  split.
  - intros h a Ha Hp He. destruct (M1 h a Ha Hp He) as (p & E1 & E2 & E3). exists p. split; [done|]. split; [done|].
    apply H1; [done|]. rewrite E2. eauto.
  - intros h a Ha Hp He. apply H2; eauto.
  - intros h a Ha Hp He. destruct (M3 h a Ha Hp He) as (e & E1 & E2). exists e. split; [|done]. apply H3; [done|]. rewrite E2. eauto.
  - intros h a Ha Hu Hin. eapply M4; eauto.
Qed.

Section Rounds.
Context {R : Type} `{LRL : LeaseRegistryLaws R} (alive : string -> bool) (b : string) (q : Prop) (G : R -> Prop) (Hq : q -> served b G).
Context (t : Prop) (m : gmap string attempt) (Hc : covers alive m) (rq : request).
Abbreviation h0 := (rq_holder rq).
Context (Hown : alive h0 = true).
Context (Hrq : strip h0 <> "" /\ 0 < rq_pid rq /\ strip (rq_process_start rq) <> "").
Abbreviation others := (delete h0 m).
Abbreviation alone := (fun lv0 f s v k => at_ (R := R) b q G lv0 None f s False others (own_activity h0 v k)).

Lemma covers_others : covers alive others.
Proof. eapply covers_fewer; [apply delete_subseteq|done]. Qed.
Lemma covers_own a : covers alive (<[h0 := a]> m).
Proof. intros h x [[<- <-]|[N Hx]]%lookup_insert_Some Hg; [done|]. by eapply Hc. Qed.
Lemma others_own : others !! h0 = None.
Proof. apply lookup_delete_eq. Qed.

(** The section ends with the attempt in this state. *)
Definition now (a : attempt) (w : world R) : Prop := safe b q G False (<[h0 := a]> m) w.
Lemma now_stable a (lv0 : locals) : stable alive (fun lv w => lv = lv0 /\ now a w).
Proof. intros lv w l [-> H]. split; [done|]. apply safe_lost; [apply covers_own|done]. Qed.
Lemma now_dropped a lv w : lv_held lv = false -> now a w -> dropped b q G others lv w.
Proof. intros Hl H. split; [done|]. eapply safe_weaken; [apply (own_in _ _ a)|exact H]. Qed.
Lemma alone_dropped lv0 f s v k lv w : lv_held lv0 = false -> coherent b None f s -> members_ok others s ->
  alone lv0 f s v k lv w -> dropped b q G others lv w.
Proof. intros Hl Hco Hm H. eapply out_dropped; [done|exact Hl|]. eapply at_safe; [exact H|done|done]. Qed.
Lemma commit_alone lv0 f s cand v k : lv_held lv0 = false -> coherent b None f s -> members_ok others s ->
  well_formed (stamp s cand) -> queued (stamp s cand) -> members_ok others (stamp s cand) ->
  triple q (alone lv0 f s v k) (_commit_locked alive b s cand)
    (fun r lv w => r = stamp s cand /\ alone lv0 (Some (Json (state_value b r))) r v k lv w) (dropped b q G others).
Proof.
  intros Hl Hco Hm H1 H2 H3. pose proof (own_lasts alive h0 Hown v k) as Hx.
  eapply triple_conseq; [by apply (commit_at alive b q G False others (own_activity h0 v k) lv0 covers_others Hx Hq f s cand)|done| |].
  - intros r lv w (E1 & E2). done.
  - intros lv w H. eapply out_dropped; [done|exact Hl|exact H].
Qed.
Lemma holder_alone lv0 f s v k ticket mode : lv_held lv0 = false -> coherent b None f s -> members_ok others s ->
  triple q (alone lv0 f s v k) (_holder alive rq ticket mode)
    (fun r lv w => r = mkHolder h0 (rq_pid rq) (rq_process_start rq) ticket mode /\ alone lv0 f s v k lv w) (dropped b q G others).
Proof.
  intros Hl Hco Hm. unfold _holder. apply (triple_bind _ _ _ _ (fun _ => alone lv0 f s v k)); [|intros _; by apply triple_ret].
  apply triple_touch; [apply at_stable; [apply covers_others|by apply own_lasts]|]. intros lv w. by apply alone_dropped.
Qed.
(** After reconciling, only what the own attempt knows of its locks is kept apart. *)
Lemma at_alone lv0 f s v k lv w : at_ b q G lv0 None f s t m nothing lv w ->
  (forall a g, locks_ok t m a g -> own_activity h0 v k a g) -> alone lv0 f s v k lv w.
Proof.
  intros (H1 & H2 & H3 & H4 & H5 & _) Hx. refine (conj H1 (conj H2 (conj H3 (conj H4 (conj _ (Hx _ _ H5)))))).
  eapply fewer_attempts_locks; [apply delete_subseteq|done].
Qed.
Lemma alone_now lv0 f s v k lv w a : alone lv0 f s v k lv w -> coherent b None f s -> members_ok (<[h0 := a]> m) s ->
  (guarded a = true -> v = Some true) -> (untouched a = true -> v = None) -> (at_phase a = Held -> k = Some (mode_of a)) -> now a w.
Proof.
  intros (H1 & H2 & H3 & H4 & H5 & [H6 H7]) Hco Hm G1 G2 G3. exists lv, None, f, s. split; [|done].
  refine (conj eq_refl (conj H2 (conj H3 (conj H4 (conj _ I))))). apply own_locks_in; [done|..].
  - intros Hg. rewrite H6. auto.
  - intros Hu. rewrite H6. auto.
  - intros Hp. by rewrite (G3 Hp) in H7.
Qed.

(** *** Queueing up *)

Definition queued_holder (s : _LeaseState) : _HolderState :=
  mkHolder h0 (rq_pid rq) (rq_process_start rq) (le_next_ticket s) "pending".
Lemma enqueue_at j f s : m !! h0 = Some (mkAttempt rq Arriving no_locals) -> rq_exclusive rq = true ->
  coherent b j f s -> members_ok m s ->
  triple q (at_ b q G no_locals j f s t m nothing) (enter_queue alive b rq)
    (fun _ lv w => exists p, lv = mkLocals (Some p) true false /\ now (mkAttempt rq Waiting lv) w) (dropped b q G others).
Proof.
  intros Hm0 Hx Hco Hm. pose proof covers_others as Hc'.
  assert (HQ : forall u : unit, stable alive (fun lv w => exists p, lv = mkLocals (Some p) true false /\ now (mkAttempt rq Waiting lv) w)).
  { intros _ lv w l (p & -> & H). exists p. apply (now_stable _ (mkLocals (Some p) true false)). done. }
  assert (HE : stable alive (dropped b q G others)) by (by apply dropped_stable).
  assert (HQE : forall (u : unit) lv w, (exists p, lv = mkLocals (Some p) true false /\ now (mkAttempt rq Waiting lv) w) -> dropped b q G others lv w).
  { intros _ lv w (p & -> & H). by eapply now_dropped. }
  assert (HO : forall lv w, safe_with b q G no_locals t m lv w -> dropped b q G others lv w).
  { intros lv w H. eapply out_dropped; [apply delete_subseteq| |exact H]; done. }
  apply fenced_at; try done. apply locked_at; try done. intros f' Hf.
  eapply triple_bind; [eapply triple_conseq; [by apply (reconcile_at alive b q G t m no_locals Hc Hq f' s)|done|intros a lv w H; exact H|exact HO]|].
  intros s'. apply triple_exists. intros f2. apply triple_pure with (coherent b None f2 s' /\ reconciled t m s s'); [by intros lv w []|].
  intros [C1 C2]. pose proof (rc_members _ _ _ _ C2) as Hm'. pose proof C1 as (W1 & W2 & _).
  assert (Hfresh : h0 ∉ ids (le_holders s')) by (by apply (mo_fresh _ _ Hm' _ _ Hm0)).
  assert (Ho : members_ok others s') by (eapply fewer_attempts_members; [apply delete_subseteq|done]).
  apply (triple_bind _ _ _ _ (fun _ => alone (mkLocals None true false) f2 s' (Some true) None)).
  { eapply triple_conseq; [apply (open_at alive b q G h0 Hown others f2 s' None); try done; apply others_own| |done|done].
    intros lv w [_ H]. apply at_alone; [done|]. intros a g Hl. split; [|done]. by apply (lo_absent _ _ _ _ Hl _ _ Hm0). }
  intros _. eapply triple_bind; [by apply holder_alone|]. intros p. set (p0 := queued_holder s').
  apply triple_pure with (p = p0); [by intros lv w []|]. intros ->.
  eapply triple_bind; [apply triple_get|]. intros lv1. apply triple_pure with (lv1 = mkLocals None true false);
    [by intros lv w (-> & _ & E1 & _)|]. intros ->. simpl. set (lv2 := mkLocals (Some p0) true false).
  apply (triple_bind _ _ _ _ (fun _ => alone lv2 f2 s' (Some true) None)).
  { eapply triple_conseq; [apply triple_set|intros lv w H; exact H| |done]. intros a lv w (-> & lv3 & _ & _ & E1 & E2). by split. }
  intros _. set (cand := mkLease _ _ _ _ _). assert (Ek : holder_ok (le_next_ticket s' + 1) p0).
  { pose proof (wf_next s' W1). split; simpl; [apply Hrq..|lia]. }
  destruct (with_pending_ok s' p0 W1 W2 Ek eq_refl Hfresh eq_refl) as [P1 P2]. change cand with (with_pending p0 s').
  assert (Hs : members_ok others (stamp s' (with_pending p0 s'))).
  { eapply others_members; [exact Ho|..]; simpl; try done.
    - intros p Hp _. apply elem_of_app. by left.
    - intros h N. unfold le_holders. simpl. unfold ids. rewrite !map_app. simpl. set_solver. }
  eapply triple_bind; [apply commit_alone; try done|].
  { by apply stamp_well_formed. }
  intros r. apply triple_pure with (r = stamp s' (with_pending p0 s')); [by intros lv w []|]. intros ->.
  assert (Hw : well_formed (stamp s' (with_pending p0 s'))) by (by apply stamp_well_formed).
  apply triple_ret. intros lv w [_ H]. exists p0. split; [apply H|]. eapply alone_now; [exact H|by apply written_coherent| |done|by unfold untouched; simpl; rewrite Hx|done].
  apply own_members_in; try done; [|by unfold untouched; simpl; rewrite Hx]. intros _ _. exists p0. assert (lv = lv2) as -> by apply H. split; [done|]. split; [done|].
  simpl. apply elem_of_app. right. by left.
Qed.

(** *** Whose turn it is *)

Definition free (k : lock_mode) : Prop := forall h a, m !! h = Some a -> at_phase a = Held -> k = LOCK_SH /\ rq_exclusive (at_request a) = false.
(** An exclusive request enters when nobody holds a lease and nobody queued up before it; a shared one when nobody holds an
    exclusive lease and nobody waits for one. *)
Definition turn (lv0 : locals) : Prop :=
  if rq_exclusive rq then
    (forall h a, m !! h = Some a -> at_phase a <> Held)
    /\ forall h a, h <> h0 -> m !! h = Some a -> at_phase a = Waiting -> rq_exclusive (at_request a) = true ->
         exists p0 p, lv_pending lv0 = Some p0 /\ lv_pending (at_locals a) = Some p /\ ho_ticket p0 < ho_ticket p
  else forall h a, m !! h = Some a -> at_phase a = Waiting \/ at_phase a = Held -> rq_exclusive (at_request a) = false.
Abbreviation lock := (if rq_exclusive rq then LOCK_EX else LOCK_SH).

Lemma same_holder s p p' : well_formed s -> p ∈ le_holders s -> p' ∈ le_holders s -> ho_id p = ho_id p' -> p = p'.
Proof.
  intros Hw. pose proof (wf_ids s Hw) as Hn. unfold ids in Hn. induction (le_holders s) as [|x l IH]; [by intros []%not_elem_of_nil|].
  simpl in Hn. apply NoDup_cons in Hn as [N1 N2].
  intros [->|H1]%elem_of_cons [->|H2]%elem_of_cons E; auto; exfalso; apply N1; apply list_elem_of_fmap; eauto.
Qed.
Lemma in_shared s p : p ∈ le_shared s -> p ∈ le_holders s.
Proof. intros H. unfold le_holders. apply elem_of_app. by left. Qed.
Lemma in_pending s p : p ∈ le_pending s -> p ∈ le_holders s.
Proof. intros H. unfold le_holders. rewrite !elem_of_app. auto. Qed.
Lemma in_exclusive s p : le_exclusive s = Some p -> p ∈ le_holders s.
Proof. intros H. unfold le_holders. rewrite !elem_of_app, H. right. right. by left. Qed.
Lemma id_in (l : list _HolderState) i : i ∈ ids l -> exists p, p ∈ l /\ ho_id p = i.
Proof. unfold ids. intros (p & -> & Hp)%list_elem_of_fmap. eauto. Qed.

(** Who is in the state: an entry of a kind belongs to an attempt of that kind. *)
Lemma entry_of s h a p : well_formed s -> members_ok m s -> m !! h = Some a -> guarded a = true -> p ∈ le_holders s -> ho_id p = h ->
  (at_phase a = Waiting /\ p ∈ le_pending s) \/ (at_phase a = Held /\ rq_exclusive (at_request a) = false /\ p ∈ le_shared s)
  \/ (at_phase a = Held /\ rq_exclusive (at_request a) = true /\ le_exclusive s = Some p).
Proof.
  intros Hw [M1 M2 M3 M4] Ha Hg Hp Hi. unfold guarded in Hg. destruct (at_phase a) eqn:Ep; try done.
  - left. split; [done|]. destruct (M1 h a Ha Ep Hg) as (p' & _ & E2 & E3).
    rewrite (same_holder s p p'); [done|done|done|by apply in_pending|congruence].
  - right. destruct (rq_exclusive (at_request a)) eqn:Ex.
    + right. destruct (M3 h a Ha Ep Ex) as (e & E1 & E2). split; [done|]. split; [done|].
      rewrite (same_holder s p e); [done|done|done|by apply in_exclusive|congruence].
    + left. split; [done|]. split; [done|]. destruct (id_in _ _ (M2 h a Ha Ep Ex)) as (p' & E1 & E2).
      rewrite (same_holder s p p'); [done|done|done|by apply in_shared|congruence].
Qed.
Lemma modes_apart s p : well_formed s -> (p ∈ le_pending s -> ho_mode p = "pending") /\ (p ∈ le_shared s -> ho_mode p = "shared")
  /\ (le_exclusive s = Some p -> ho_mode p = "exclusive").
Proof.
  intros Hw. pose proof (wf_pending s Hw) as W1. pose proof (wf_shared s Hw) as W2. pose proof (wf_exclusive s Hw) as W3.
  rewrite Forall_forall in W1, W2, W3. split; [apply W1|]. split; [apply W2|]. intros E. apply W3. rewrite E. by left.
Qed.

Lemma available_turn lv0 s : m !! h0 = Some (mkAttempt rq Waiting lv0) -> well_formed s -> queued s -> members_ok m s ->
  available rq s = true -> turn lv0 /\ (rq_exclusive rq = true -> exists p0 rest, lv_pending lv0 = Some p0 /\ le_pending s = p0 :: rest
    /\ ho_id p0 = h0 /\ le_shared s = [] /\ le_exclusive s = None) /\ (rq_exclusive rq = false -> le_exclusive s = None).
Proof.
  intros Hm0 Hw Hqd Hm. pose proof Hm as [M1 M2 M3 M4]. unfold available, turn. destruct (rq_exclusive rq) eqn:Ex.
  - rewrite !andb_true_iff, !bool_decide_eq_true. destruct (le_pending s) as [|p1 rest] eqn:Ep; [by intros [[]]|].
    intros [[E1%String.eqb_eq E2] E3]. destruct (M1 _ _ Hm0 eq_refl Ex) as (p0 & F1 & F2 & F3). simpl in F1.
    assert (p0 = p1) as -> by (apply (same_holder s); [done|apply in_pending; by rewrite Ep|apply in_pending; rewrite Ep; by left|congruence]).
    split; [split|split; [|done]].
    + intros h a Ha Hh. destruct (rq_exclusive (at_request a)) eqn:Ea.
      * destruct (M3 h a Ha Hh Ea) as (e & E4 & _). by rewrite E3 in E4.
      * specialize (M2 h a Ha Hh Ea). rewrite E2 in M2. by apply not_elem_of_nil in M2.
    + intros h a N Ha Hp Ea. destruct (M1 h a Ha Hp Ea) as (p & G1 & G2 & G3). exists p1, p. split; [done|]. split; [done|].
      try rewrite Ep in G3. apply elem_of_cons in G3 as [->|G3]; [by rewrite F2 in G2|].
      unfold queued in Hqd. rewrite Ep in Hqd. simpl in Hqd. apply Sorted.StronglySorted_inv in Hqd as [_ Hqd]. rewrite Forall_forall in Hqd.
      apply Hqd. apply list_elem_of_fmap. eauto.
    + intros _. eauto 10.
  - rewrite andb_true_iff, !bool_decide_eq_true. intros [E1 E2]. split; [|done].
    intros h a Ha Hp. destruct (rq_exclusive (at_request a)) eqn:Ea; [|done]. exfalso. destruct Hp as [Hp|Hp].
    + destruct (M1 h a Ha Hp Ea) as (p & _ & _ & G3). rewrite E1 in G3. by apply not_elem_of_nil in G3.
    + destruct (M3 h a Ha Hp Ea) as (e & E4 & _). by rewrite E2 in E4.
Qed.
Lemma turn_available lv0 s0 s : m !! h0 = Some (mkAttempt rq Waiting lv0) -> well_formed s -> queued s -> reconciled t m s0 s -> t ->
  turn lv0 -> available rq s = true.
Proof.
  intros Hm0 Hw Hqd [_ Hm Ht] Ht0. specialize (Ht Ht0). unfold available, turn.
  assert (Hown_entry : forall p, p ∈ le_holders s -> exists a, m !! ho_id p = Some a /\
    ((at_phase a = Waiting /\ rq_exclusive (at_request a) = true /\ p ∈ le_pending s)
     \/ (at_phase a = Held /\ rq_exclusive (at_request a) = false /\ p ∈ le_shared s)
     \/ (at_phase a = Held /\ rq_exclusive (at_request a) = true /\ le_exclusive s = Some p))).
  { intros p Hp. destruct (Ht p Hp) as (a & Ha & Hg). exists a. split; [done|].
    destruct (entry_of s _ a p Hw Hm Ha Hg Hp eq_refl) as [[E1 E2]|H]; [left|by right].
    split; [done|]. split; [|done]. unfold guarded in Hg. by rewrite E1 in Hg. }
  destruct (rq_exclusive rq) eqn:Ex.
  - intros [T1 T2]. rewrite !andb_true_iff, !bool_decide_eq_true. split; [split|].
    + destruct (mo_pending _ _ Hm _ _ Hm0 eq_refl Ex) as (p0 & F1 & F2 & F3). simpl in F1.
      destruct (le_pending s) as [|p1 rest] eqn:Ep; [by apply not_elem_of_nil in F3|]. apply String.eqb_eq.
      destruct (decide (ho_id p1 = h0)) as [|N]; [done|]. exfalso.
      destruct (Hown_entry p1) as (a & Ha & [(E1 & E2 & E3)|[(E1 & _)|(E1 & _)]]); [apply in_pending; rewrite Ep; by left| |by eapply T1..].
      destruct (T2 _ a N Ha E1 E2) as (q0 & p & G1 & G2 & G3). rewrite F1 in G1. injection G1 as <-.
      destruct (mo_pending _ _ Hm _ _ Ha E1 E2) as (p' & K1 & K2 & K3). rewrite G2 in K1. injection K1 as <-.
      assert (p = p1) as -> by (apply (same_holder s); [done|by apply in_pending|apply in_pending; rewrite Ep; by left|done]).
      apply elem_of_cons in F3 as [->|F3]; [lia|]. unfold queued in Hqd. rewrite Ep in Hqd. simpl in Hqd.
      apply Sorted.StronglySorted_inv in Hqd as [_ Hqd]. rewrite Forall_forall in Hqd.
      enough (ho_ticket p1 < ho_ticket p0) by lia. apply Hqd. apply list_elem_of_fmap. eauto.
    + destruct (le_shared s) as [|p l] eqn:E; [done|]. exfalso.
      destruct (Hown_entry p) as (a & Ha & [(E1 & E2 & E3)|[(E1 & _)|(E1 & _)]]); [apply in_shared; rewrite E; by left| |by eapply T1..].
      destruct (modes_apart s p Hw) as (P1 & P2 & _). specialize (P1 E3). rewrite E in P2. specialize (P2 (list_elem_of_here _ _)). congruence.
    + destruct (le_exclusive s) as [p|] eqn:E; [|done]. exfalso.
      destruct (Hown_entry p) as (a & Ha & [(E1 & E2 & E3)|[(E1 & _)|(E1 & _)]]); [by apply in_exclusive| |by eapply T1..].
      destruct (modes_apart s p Hw) as (P1 & _ & P2). specialize (P1 E3). specialize (P2 E). congruence.
  - intros T. rewrite andb_true_iff, !bool_decide_eq_true. split.
    + destruct (le_pending s) as [|p l] eqn:E; [done|]. exfalso.
      destruct (modes_apart s p Hw) as (P1 & P2 & P3). rewrite E in P1. specialize (P1 (list_elem_of_here _ _)).
      destruct (Hown_entry p) as (a & Ha & [(E1 & E2 & E3)|[(E1 & E2 & E3)|(E1 & E2 & E3)]]); [apply in_pending; rewrite E; by left|..].
      * rewrite (T _ a Ha (or_introl E1)) in E2. done.
      * specialize (P2 E3). congruence.
      * specialize (P3 E3). congruence.
    + destruct (le_exclusive s) as [p|] eqn:E; [|done]. exfalso.
      destruct (modes_apart s p Hw) as (P1 & P2 & P3). specialize (P3 E).
      destruct (Hown_entry p) as (a & Ha & [(E1 & E2 & E3)|[(E1 & E2 & E3)|(E1 & E2 & E3)]]); [by apply in_exclusive|..].
      * specialize (P1 E3). congruence.
      * specialize (P2 E3). congruence.
      * rewrite (T _ a Ha (or_intror E1)) in E2. done.
Qed.
Lemma turn_free lv0 : turn lv0 -> free lock.
Proof.
  unfold turn, free. destruct (rq_exclusive rq).
  - intros [T _] h a Ha Hp. by destruct (T h a Ha).
  - intros T h a Ha Hp. split; [done|]. eauto.
Qed.

(** *** Entering *)

Lemma compatible_spec k (g : gmap string lock_mode) : compatible k g = true <-> (forall h k', g !! h = Some k' -> k = LOCK_SH /\ k' = LOCK_SH).
Proof.
  destruct k; simpl.
  - rewrite forallb_forall. split.
    + intros H h k' Hk. split; [done|]. specialize (H (h, k')). rewrite <- list_elem_of_In, elem_of_map_to_list in H. by apply H, bool_decide_eq_true in Hk.
    + intros H [h k'] Hin. apply list_elem_of_In, elem_of_map_to_list in Hin. apply bool_decide_eq_true. by apply (H h).
  - rewrite bool_decide_eq_true. split.
    + intros -> h k'. by rewrite lookup_empty.
    + intros H. apply map_eq. intros h. rewrite lookup_empty. destruct (g !! h) as [k'|] eqn:E; [|done]. by destruct (H h k' E).
Qed.
Lemma gated_locks k a g : compatible k (delete h0 g) = true -> locks_ok t m a g -> locks_ok False others a (<[h0 := k]> g).
Proof.
  intros Hk Hl. apply (fewer_attempts_locks _ _ others) in Hl as [L1 L2 L3 L4 _ _]; [|apply delete_subseteq].
  assert (Hk' : forall h k', h <> h0 -> g !! h = Some k' -> k = LOCK_SH /\ k' = LOCK_SH).
  { intros h k' N E. apply (proj1 (compatible_spec _ _) Hk h). by rewrite lookup_delete_ne. }
  split; try done.
  - intros h x Hx Hp. rewrite lookup_insert_ne; [eauto|]. intros <-. by rewrite others_own in Hx.
  - intros h1 h2 k1 k2 [[<- <-]|[N1 E1]]%lookup_insert_Some [[<- <-]|[N2 E2]]%lookup_insert_Some N; [done|apply (Hk' h2); congruence| |eauto].
    destruct (Hk' h1 k1 (not_eq_sym N1) E1) as [E ->]. by rewrite E.
Qed.
Lemma lock_gate_at lv0 f s v : lv_held lv0 = false -> coherent b None f s -> members_ok m s ->
  (forall a g, locks_ok t m a g -> a !! h0 = v) ->
  triple q (at_ b q G lv0 None f s t m nothing) (lock_gate alive h0 lock)
    (fun (r : bool) lv w => if r then alone lv0 f s v (Some lock) lv w else at_ b q G lv0 None f s t m nothing lv w /\ (t -> ~ free lock))
    (dropped b q G others).
Proof.
  intros Hl Hco Hm Hv. set (k := lock).
  assert (Ho : forall lv w, at_ b q G lv0 None f s t m nothing lv w -> dropped b q G others lv w).
  { intros lv w H. eapply out_dropped; [apply delete_subseteq|exact Hl|]. by eapply at_safe. }
  apply triple_step; [apply at_stable; [done|apply nothing_lasts]|done|].
  intros c lv w r w' _ Hp. pose proof Hp as (E1 & E2 & E3 & E4 & E5 & E6). destruct (compatible k (delete h0 (w_gate w))) eqn:Ec; intros [= <- <-].
  - assert (Hn : alone lv0 f s v (Some k) lv (set_gate (<[h0:=k]> (w_gate w)) w)).
    { refine (conj E1 (conj E2 (conj E3 (conj E4 (conj (gated_locks _ _ _ Ec E5) (conj (Hv _ _ E5) _)))))). apply lookup_insert_eq. }
    split; [by eexists|]. split; [|by intros a [= <-]]. eapply alone_dropped; [exact Hl|exact Hco| |exact Hn].
    eapply fewer_attempts_members; [apply delete_subseteq|done].
  - split; [by eexists|]. split; [by apply Ho|]. intros a [= <-]. split; [done|]. intros Ht Hf.
    enough (Hx : compatible k (delete h0 (w_gate w)) = true) by congruence. apply compatible_spec.
    intros h k' [_ E]%lookup_delete_Some. destruct (lo_tight_gate _ _ _ _ E5 Ht _ _ E) as (a & Ha & Hh).
    rewrite (lo_gate _ _ _ _ E5 _ _ Ha Hh) in E. injection E as <-. destruct (Hf h a Ha Hh) as [F1 F2]. split; [done|].
    unfold mode_of. by rewrite F2.
Qed.

Definition entering (lv0 : locals) (s : _LeaseState) : _HolderState :=
  mkHolder h0 (rq_pid rq) (rq_process_start rq) (match lv_pending lv0 with Some p => ho_ticket p | None => le_next_ticket s end)
    (if rq_exclusive rq then "exclusive" else "shared").
Definition after_entering (lv0 : locals) (s : _LeaseState) : _LeaseState :=
  if rq_exclusive rq then entered (entering lv0 s) s else with_shared (entering lv0 s) s.
(** The locals of a waiting attempt. *)
Definition waiting_locals (lv0 : locals) : Prop :=
  if rq_exclusive rq then exists p, lv0 = mkLocals (Some p) true false else lv0 = no_locals.
Definition held_locals : locals := mkLocals None true true.

Lemma after_entering_ok lv0 s : m !! h0 = Some (mkAttempt rq Waiting lv0) -> waiting_locals lv0 -> well_formed s -> queued s -> members_ok m s ->
  available rq s = true ->
  (well_formed (after_entering lv0 s) /\ queued (after_entering lv0 s)) /\ members_ok (<[h0 := mkAttempt rq Held held_locals]> m) (after_entering lv0 s).
Proof.
  intros Hm0 Hl Hw Hqd Hm Ha. destruct (available_turn lv0 s Hm0 Hw Hqd Hm Ha) as (_ & H1 & H2).
  assert (Ho : members_ok others s) by (eapply fewer_attempts_members; [apply delete_subseteq|done]).
  unfold after_entering, waiting_locals, entering in *. destruct Hrq as (R1 & R2 & R3). pose proof (wf_next s Hw) as Hnext. destruct (rq_exclusive rq) eqn:Ex.
  - destruct (H1 eq_refl) as (p0 & rest & P1 & P2 & P3 & P4 & P5). rewrite P1. set (e := mkHolder _ _ _ _ _). split.
    + apply (entered_ok s p0 e rest); try done. pose proof (wf_holders s Hw) as Hf. rewrite Forall_forall in Hf.
      assert (Hp : holder_ok (le_next_ticket s) p0) by (apply Hf, in_pending; rewrite P2; by left). split; simpl; try done. apply (hk_ticket _ _ Hp).
    + apply own_members_in; simpl; try done.
      * eapply others_members; [exact Ho|..]; simpl; try done.
        -- intros p Hp N. by apply without_in.
        -- by rewrite P5.
        -- intros h N. unfold le_holders. simpl. unfold ids. rewrite !map_app, !elem_of_app. intros [Hs|[Hp|Hp]]; auto.
           ++ right. left. apply list_elem_of_fmap in Hp as (x & -> & Hx). apply list_elem_of_fmap. exists x. split; [done|]. by apply without_in in Hx as [Hx _].
           ++ simpl in Hp. by apply list_elem_of_singleton in Hp.
      * by rewrite Ex.
      * intros _ _. by exists e.
  - subst lv0. simpl. set (e := mkHolder _ _ _ _ _).
    assert (Hfresh : h0 ∉ ids (le_holders s)).
    { apply (mo_fresh _ _ Hm _ _ Hm0). unfold untouched. simpl. by rewrite Ex. }
    split; [split|].
    + apply with_shared_ok; try done; [by apply H2|]. split; simpl; try done. lia.
    + exact Hqd.
    + apply own_members_in; simpl; try done.
      * eapply others_members; [exact Ho|..]; simpl; try done.
        -- intros h N Hin. unfold ids in *. rewrite map_app, elem_of_app. by left.
        -- intros h N. unfold le_holders. simpl. unfold ids. rewrite !map_app. simpl. set_solver.
      * intros _ _. unfold ids. rewrite map_app, elem_of_app. right. simpl. by left.
      * by rewrite Ex.
Qed.

Abbreviation held_now := (fun w => now (mkAttempt rq Held held_locals) w).
(** How a round that raised or died leaves things: with the lease, or with nothing to lose. *)
Definition tried (lv0 lv : locals) (w : world R) : Prop :=
  if lv_held lv then (lv = held_locals /\ held_now w) /\ turn lv0 else safe b q G False others w.
Lemma dropped_tried lv0 lv w : dropped b q G others lv w -> tried lv0 lv w.
Proof. intros [Hl H]. unfold tried. by rewrite Hl. Qed.
Lemma tried_stable lv0 : stable alive (tried lv0).
Proof.
  intros lv w l. unfold tried. destruct (lv_held lv).
  - intros [H1 H2]. split; [by apply now_stable|done].
  - apply safe_lost, covers_others.
Qed.

(** Behind the gate. *)
Lemma enter_at lv0 f s : m !! h0 = Some (mkAttempt rq Waiting lv0) -> waiting_locals lv0 -> coherent b None f s -> members_ok m s ->
  available rq s = true ->
  triple q (alone lv0 f s (if rq_exclusive rq then Some true else None) (Some lock))
    (lv ← get_locals;
     _ ← (if lv_activity lv then mret tt else open_holder_activity alive h0);
     holder ← _holder alive rq (match lv_pending lv with Some p => ho_ticket p | None => le_next_ticket s end)
                (if rq_exclusive rq then "exclusive" else "shared");
     _ ← _commit_locked alive b s
           (if rq_exclusive rq then
              mkLease (le_generation s) (le_next_ticket s) (le_shared s)
                (List.filter (fun item => negb (String.eqb (ho_id item) h0)) (le_pending s)) (Some holder)
            else
              mkLease (le_generation s) (le_next_ticket s + 1) (le_shared s ++ [holder]) (le_pending s) (le_exclusive s));
     lv ← get_locals;
     _ ← set_locals (mkLocals None (lv_activity lv) true);
     mret true)
    (fun r lv w => r = true /\ lv = held_locals /\ held_now w) (tried lv0).
Proof.
  intros Hm0 Hlv Hco Hm Hav. pose proof Hco as (W1 & W2 & _).
  destruct (after_entering_ok lv0 s Hm0 Hlv W1 W2 Hm Hav) as [[U1 U2] U3].
  assert (Ho : members_ok others s) by (eapply fewer_attempts_members; [apply delete_subseteq|done]).
  eapply triple_conseq with (E := fun lv w => dropped b q G others lv w \/ (lv = held_locals /\ held_now w));
    [|done|intros a lv w H; exact H|intros lv w [H|[-> H]]; [by apply dropped_tried|split; [done|apply (available_turn lv0 s Hm0 W1 W2 Hm Hav)]]].
  eapply triple_bind; [apply triple_get|]. intros lv1. apply triple_pure with (lv1 = lv0); [by intros lv w (-> & E1 & _)|]. intros ->.
  set (lv2 := mkLocals (lv_pending lv0) true false). assert (Hl2 : lv_held lv2 = false) by done.
  apply (triple_bind _ _ _ _ (fun _ => alone lv2 f s (Some true) (Some lock))).
  { subst lv2. unfold waiting_locals in Hlv. destruct (rq_exclusive rq) eqn:Ex.
    - destruct Hlv as [p ->]. simpl. apply triple_ret. by intros lv w [_ H].
    - subst lv0. simpl. eapply triple_conseq; [apply (open_at alive b q G h0 Hown others f s (Some LOCK_SH)); try done|by intros lv w [_ H]|done|by left].
      + apply covers_others.
      + apply others_own. }
  intros _. eapply triple_bind; [eapply triple_conseq; [apply (holder_alone lv2 f s (Some true) (Some lock) _ _ Hl2 Hco Ho)|done|intros a lv w H; exact H|by left]|].
  intros holder. apply triple_pure with (holder = entering lv0 s); [by intros lv w []|]. intros ->.
  set (cand := if rq_exclusive rq then mkLease _ _ _ _ _ else _). assert (Ec : stamp s cand = stamp s (after_entering lv0 s)).
  { subst cand. unfold after_entering. by destruct (rq_exclusive rq). }
  set (u := stamp s cand) in *. assert (Hu : well_formed u) by (rewrite Ec; by apply stamp_well_formed).
  assert (Hqu : queued u) by (by rewrite Ec). assert (Hmu : members_ok (<[h0 := mkAttempt rq Held held_locals]> m) u) by (by rewrite Ec; destruct U3).
  apply (triple_bind _ _ _ _ (fun _ => alone lv2 (Some (Json (state_value b u))) u (Some true) (Some lock))).
  { eapply triple_conseq; [apply (commit_alone lv2 f s cand (Some true) (Some lock)); try done|by intros lv w []| |by left].
    - eapply fewer_attempts_members; [apply (own_in _ _ (mkAttempt rq Held held_locals))|done].
    - intros r lv w [-> H]. exact H. }
  intros _. eapply triple_bind; [apply triple_get|]. intros lv3. apply triple_pure with (lv3 = lv2); [by intros lv w (-> & E1 & _)|]. intros ->.
  apply (triple_bind _ _ _ _ (fun _ lv w => lv = held_locals /\ held_now w)); [|intros _; by apply triple_ret].
  eapply triple_conseq; [apply triple_set|intros lv w H; exact H| |by left]. intros a lv w (-> & lv4 & _ & H). split; [done|].
  eapply alone_now; [exact H|by apply written_coherent|done|done|done|done].
Qed.

(** One round: it enters, or it still waits, and with no stray locks it enters when it is its turn. *)
Lemma try_at lv0 j f s : m !! h0 = Some (mkAttempt rq Waiting lv0) -> waiting_locals lv0 -> coherent b j f s -> members_ok m s ->
  triple q (at_ b q G lv0 j f s t m nothing) (try_enter alive b rq)
    (fun (r : bool) lv w => if r then lv = held_locals /\ held_now w /\ turn lv0 else safe_with b q G lv0 t m lv w /\ (t -> ~ turn lv0)) (tried lv0).
Proof.
  intros Hm0 Hlv Hco Hm. assert (Hl : lv_held lv0 = false) by (unfold waiting_locals in Hlv; destruct (rq_exclusive rq); [by destruct Hlv as [p ->]|by subst]).
  assert (HO : forall lv w, safe_with b q G lv0 t m lv w -> tried lv0 lv w).
  { intros lv w H. apply dropped_tried. eapply out_dropped; [apply delete_subseteq|exact Hl|exact H]. }
  assert (HS : forall r : bool, stable alive (fun lv w => if r then lv = held_locals /\ held_now w /\ turn lv0 else safe_with b q G lv0 t m lv w /\ (t -> ~ turn lv0))).
  { intros [] lv w l; [intros (-> & H1 & H2)|intros [H1 H2]]; (split; [|done]) || (split; [done|split; [|done]]).
    - by apply (now_stable _ held_locals held_locals w l).
    - by apply safe_stable. }
  assert (HQ : forall (r : bool) lv w, (if r then lv = held_locals /\ held_now w /\ turn lv0 else safe_with b q G lv0 t m lv w /\ (t -> ~ turn lv0)) -> tried lv0 lv w).
  { intros [] lv w; [intros (-> & H1 & H2); by split|intros [H1 H2]; by apply HO]. }
  pose proof (tried_stable lv0) as HT. apply fenced_at; try done. apply locked_at; try done. intros f' Hf.
  eapply triple_bind; [eapply triple_conseq; [by apply (reconcile_at alive b q G t m lv0 Hc Hq f' s)|done|intros a lv w H; exact H|exact HO]|].
  intros s'. apply triple_exists. intros f2. apply triple_pure with (coherent b None f2 s' /\ reconciled t m s s'); [by intros lv w []|].
  intros [C1 C2]. pose proof (rc_members _ _ _ _ C2) as Hm'. pose proof C1 as (W1 & W2 & _).
  destruct (available rq s') eqn:Hav; simpl.
  2: { apply triple_ret. intros lv w [_ H]. split; [by eapply at_safe|]. intros Ht Htn. by rewrite (turn_available lv0 s s' Hm0 W1 W2 C2 Ht Htn) in Hav. }
  destruct (available_turn lv0 s' Hm0 W1 W2 Hm' Hav) as (Htn & _).
  eapply triple_bind.
  { eapply triple_conseq; [apply (lock_gate_at lv0 f2 s' (if rq_exclusive rq then Some true else None) Hl C1 Hm')|by intros lv w []|intros a lv w H; exact H|apply dropped_tried].
    intros a g Hk. destruct (rq_exclusive rq) eqn:Ex; [apply (lo_locked _ _ _ _ Hk _ _ Hm0)|apply (lo_absent _ _ _ _ Hk _ _ Hm0)];
      unfold guarded, untouched; simpl; by rewrite Ex. }
  intros [|]; simpl.
  - eapply triple_conseq; [by apply (enter_at lv0 f2 s')|done| |done]. intros r lv w (-> & -> & H). done.
  - apply triple_ret. intros lv w [H Hn]. split; [by eapply at_safe|]. intros Ht _. apply (Hn Ht). by eapply turn_free.
Qed.

(** *** Leaving *)

Lemma without_shorter i l : i ∈ ids l -> (length (without_id i l) < length l)%nat.
Proof.
  unfold without_id, ids. induction l as [|x l IH]; simpl; [by intros []%not_elem_of_nil|]. pose proof (List.filter_length_le (fun item => negb (String.eqb (ho_id item) i)) l).
  intros [->|Hin]%elem_of_cons; [rewrite String.eqb_refl; simpl; lia|]. specialize (IH Hin). destruct (negb _); simpl; lia.
Qed.
Lemma without_ids i l h : h ∈ ids (without_id i l) <-> h ∈ ids l /\ h <> i.
Proof.
  unfold ids. rewrite !list_elem_of_fmap. split.
  - intros (p & -> & [H1 H2]%without_in). eauto.
  - intros [(p & -> & H1) H2]. exists p. split; [done|]. by apply without_in.
Qed.
Lemma released_ok s : m !! h0 = Some (mkAttempt rq Held held_locals) -> well_formed s -> members_ok m s -> members_ok others s ->
  let cand := if rq_exclusive rq
    then mkLease (le_generation s) (le_next_ticket s) (le_shared s) (le_pending s) None
    else mkLease (le_generation s) (le_next_ticket s) (without_id h0 (le_shared s)) (le_pending s) (le_exclusive s) in
  fewer cand s /\ members_ok others (stamp s cand) /\ h0 ∉ ids (le_holders cand).
Proof.
  intros Hm0 Hw Hm Ho cand. assert (Hf : fewer cand s).
  { subst cand. destruct (rq_exclusive rq); split; simpl; auto. apply sublist_list_filter. }
  assert (Hsub : forall h, h ∈ ids (le_holders cand) -> h ∈ ids (le_holders s)).
  { intros h (p & Hp & <-)%id_in. unfold ids. apply list_elem_of_fmap. exists p. split; [done|]. eapply sublist_subseteq; [by apply fewer_holders|done]. }
  assert (Hout : h0 ∉ ids (le_holders cand)).
  { intros (p & Hp & Hi)%id_in. assert (Hp' : p ∈ le_holders s) by (eapply sublist_subseteq; [by apply fewer_holders|done]).
    destruct (modes_apart s p Hw) as (P1 & P2 & P3). subst cand. unfold le_holders in Hp. destruct (rq_exclusive rq) eqn:Ex; simpl in Hp; rewrite !elem_of_app in Hp.
    - destruct (mo_exclusive _ _ Hm _ _ Hm0 eq_refl Ex) as (e & E1 & E2).
      assert (p = e) as -> by (apply (same_holder s); [done|done|by apply in_exclusive|congruence]). specialize (P3 E1).
      destruct Hp as [Hp|[Hp|Hp]]; [specialize (P2 Hp)|specialize (P1 Hp)|by apply not_elem_of_nil in Hp]; congruence.
    - destruct (id_in _ _ (mo_shared _ _ Hm _ _ Hm0 eq_refl Ex)) as (e & E1 & E2).
      assert (p = e) as -> by (apply (same_holder s); [done|done|by apply in_shared|congruence]). specialize (P2 E1).
      destruct Hp as [[_ Hp]%without_in|[Hp|Hp]]; [done|specialize (P1 Hp); congruence|].
      destruct (le_exclusive s) as [x|]; [|by apply not_elem_of_nil in Hp]. apply list_elem_of_singleton in Hp. subst x. specialize (P3 eq_refl). congruence. }
  split; [done|]. split; [|done]. eapply others_members; [exact Ho|..].
  - intros p Hp _. subst cand. by destruct (rq_exclusive rq).
  - intros h N Hin. subst cand. destruct (rq_exclusive rq); [done|]. simpl. by apply without_ids.
  - intros e He N. subst cand. destruct (rq_exclusive rq) eqn:Ex; [|done].
    destruct (mo_exclusive _ _ Hm _ _ Hm0 eq_refl Ex) as (x & E1 & E2). rewrite He in E1. injection E1 as ->. done.
  - intros h N Hin. by apply Hsub.
Qed.

Lemma unlink_alone lv0 f s v : coherent b None f s -> members_ok others s ->
  triple q (alone lv0 f s v None) (_unlink_holder_activity_locked alive h0)
    (fun _ => at_ b q G lv0 None f s False others nothing) (fun _ => safe b q G False others).
Proof.
  intros Hco Hm. pose proof (own_lasts alive h0 Hown) as Hx. pose proof covers_others as Hc'.
  assert (Ho : forall x lv w, at_ b q G lv0 None f s False others x lv w -> safe b q G False others w).
  { intros x lv w H. by eapply (at_safe _ _ _ _ _ _ _ _ _ _ _ _ H). }
  apply (triple_bind _ _ _ _ (fun _ => alone lv0 f s v None)).
  { apply triple_touch; [by apply at_stable|]. intros lv w. apply Ho. }
  intros _. apply (triple_bind _ _ _ _ (fun _ => at_ b q G lv0 None f s False others nothing)).
  - apply triple_update; [by apply at_stable|intros lv w; apply Ho| |intros lv w; apply Ho].
    intros lv w (E1 & E2 & E3 & E4 & E5 & E6). refine (conj E1 (conj E2 (conj E3 (conj E4 (conj _ I))))). eapply (own_unlinked alive h0 Hown); [apply others_own|exact E5].
  - intros _. apply triple_touch; [apply at_stable; [done|apply nothing_lasts]|]. intros lv w. apply Ho.
Qed.

(** The entry of the attempt goes, then its activity file. *)
Lemma strike_at lv0 f s cand v : coherent b None f s -> members_ok others s -> fewer cand s ->
  members_ok others (stamp s cand) ->
  triple q (alone lv0 f s v None) (_ ← _commit_locked alive b s cand; _unlink_holder_activity_locked alive h0)
    (fun _ lv w => safe b q G False others w /\ exists x, lr_lease (w_registry w) b = Some x /\ le_holders x = le_holders cand) (fun _ => safe b q G False others).
Proof.
  intros Hco Hm Hf Hs. pose proof Hco as (W1 & W2 & _). pose proof (own_lasts alive h0 Hown v None) as Hx.
  set (u := stamp s cand). assert (Hu : well_formed u).
  { apply (fewer_well_formed u s); [by destruct Hf|simpl; pose proof (wf_generation s W1); lia|done]. }
  assert (Hqu : queued u) by (apply (fewer_queued cand s Hf W2)).
  set (f' := Some (Json (state_value b u))). assert (Hco' : coherent b None f' u) by (by apply written_coherent).
  apply (triple_bind _ _ _ _ (fun _ => alone lv0 f' u v None)).
  - eapply triple_conseq; [apply (commit_at alive b q G False others (own_activity h0 v None) lv0 covers_others Hx Hq f s cand); done|done| |].
    + intros r lv w (-> & H). exact H.
    + by intros lv w [_ H].
  - intros _. eapply triple_conseq; [by apply (unlink_alone lv0 f' u v)|done| |done].
    intros a lv w H. split; [by eapply (at_safe _ _ _ _ _ _ _ _ _ _ _ _ H)|]. exists u. split; [apply H|done].
Qed.
Lemma release_at j f s : m !! h0 = Some (mkAttempt rq Held held_locals) -> coherent b j f s -> members_ok m s ->
  triple q (at_ b q G held_locals j f s t m nothing) (_release alive b rq)
    (fun _ lv w => safe b q G False others w /\ exists x, lr_lease (w_registry w) b = Some x /\ h0 ∉ ids (le_holders x)) (fun _ => safe b q G False others).
Proof.
  intros Hm0 Hco Hm. pose proof covers_others as Hc'.
  assert (HO : forall lv w, safe_with b q G held_locals t m lv w -> safe b q G False others w).
  { intros lv w [_ H]. eapply safe_weaken; [apply delete_subseteq|exact H]. }
  assert (HS : stable (R := R) alive (fun _ => safe b q G False others)) by (intros lv w l; by apply safe_lost).
  apply locked_at; try done.
  2: { intros _ lv w l [H1 (x & H2 & H3)]. split; [by apply safe_lost|]. exists x. split; [|done]. by destruct l as [h|h]; simpl; destruct (alive h). }
  2: { by intros a lv w []. }
  intros f' Hf. eapply triple_bind; [eapply triple_conseq; [by apply (reconcile_at alive b q G t m held_locals Hc Hq f' s)|done|intros a lv w H; exact H|exact HO]|].
  intros s'. apply triple_exists. intros f2. apply triple_pure with (coherent b None f2 s' /\ reconciled t m s s'); [by intros lv w []|].
  intros [C1 C2]. pose proof (rc_members _ _ _ _ C2) as Hm'. pose proof C1 as (W1 & W2 & _).
  assert (Ho : members_ok others s') by (eapply fewer_attempts_members; [apply delete_subseteq|done]).
  set (cand := if rq_exclusive rq
    then mkLease (le_generation s') (le_next_ticket s') (le_shared s') (le_pending s') None
    else mkLease (le_generation s') (le_next_ticket s') (without_id h0 (le_shared s')) (le_pending s') (le_exclusive s')).
  assert (Hcand : fewer cand s' /\ members_ok others (stamp s' cand) /\ h0 ∉ ids (le_holders cand)) by (by apply released_ok).
  destruct Hcand as (F1 & F2 & F3).
  apply (triple_bind _ _ _ _ (fun c lv w => c = cand /\ at_ b q G held_locals None f2 s' t m nothing lv w)).
  { subst cand. destruct (rq_exclusive rq) eqn:Ex.
    - destruct (mo_exclusive _ _ Hm' _ _ Hm0 eq_refl Ex) as (e & E1 & E2). rewrite E1, E2, String.eqb_refl. apply triple_ret. by intros lv w [_ H].
    - cbv zeta. rewrite bool_decide_false; [apply triple_ret; by intros lv w [_ H]|]. intros El.
      pose proof (mo_shared _ _ Hm' _ _ Hm0 eq_refl Ex) as Hin.
      apply (without_shorter h0 (le_shared s')) in Hin. unfold without_id in Hin. rewrite El in Hin. lia. }
  intros c. apply triple_pure with (c = cand); [by intros lv w []|]. intros ->.
  eapply triple_conseq; [by apply (strike_at held_locals f2 s' cand (Some true))| | |done].
  - intros lv w [_ H]. apply at_alone; [done|]. intros a g Hk. split; [|done]. by apply (lo_locked _ _ _ _ Hk _ _ Hm0).
  - intros a lv w [H1 (x & H2 & H3)]. split; [done|]. exists x. by rewrite H3.
Qed.
Lemma discard_at lv0 j f s : (q -> lv_activity lv0 = true) -> coherent b j f s -> members_ok m s ->
  triple q (at_ b q G lv0 j f s t m nothing) (_discard_pending alive b rq) (fun _ _ => safe b q G False others) (fun _ => safe b q G False others).
Proof.
  intros Hact Hco Hm. pose proof covers_others as Hc'.
  assert (HO : forall lv w, safe_with b q G lv0 t m lv w -> safe b q G False others w).
  { intros lv w [_ H]. eapply safe_weaken; [apply delete_subseteq|exact H]. }
  assert (HS : stable (R := R) alive (fun _ => safe b q G False others)) by (intros lv w l; by apply safe_lost).
  apply locked_at; try done. intros f' Hf.
  eapply triple_bind; [eapply triple_conseq; [by apply (reconcile_at alive b q G t m lv0 Hc Hq f' s)|done|intros a lv w H; exact H|exact HO]|].
  intros s'. apply triple_exists. intros f2. apply triple_pure with (coherent b None f2 s' /\ reconciled t m s s'); [by intros lv w []|].
  intros [C1 C2]. pose proof (rc_members _ _ _ _ C2) as Hm'. set (cand := mkLease _ _ _ _ _).
  assert (Ho : members_ok others s') by (eapply fewer_attempts_members; [apply delete_subseteq|done]).
  assert (Hout : forall lv w, (coherent b None f2 s' /\ reconciled t m s s') /\ at_ b q G lv0 None f2 s' t m nothing lv w -> safe b q G False others w).
  { intros lv w [_ H]. apply (HO lv). by eapply at_safe. }
  cbv zeta. case_bool_decide as Hd; [apply triple_ret; exact Hout|].
  eapply triple_bind; [apply triple_get|]. intros lv1. apply triple_pure with (lv1 = lv0); [by intros lv w (-> & _ & E1 & _)|]. intros ->.
  apply (triple_bind _ _ _ _ (fun _ => at_ b q G lv0 None f2 s' t m nothing)).
  { unfold lx_guard. destruct (lv_activity lv0) eqn:El; simpl; [apply triple_ret; by intros lv w (_ & _ & H)|].
    apply triple_raise; [intros Hq'; specialize (Hact Hq'); congruence|]. intros lv w (_ & H). by eapply Hout. }
  intros _. set (cand' := mkLease (le_generation s') (le_next_ticket s') (le_shared s') (without_id h0 (le_pending s')) (le_exclusive s')).
  assert (Hfw : fewer cand' s') by (split; simpl; auto; apply sublist_list_filter).
  assert (Hs : members_ok others (stamp s' cand')).
  { eapply others_members; [exact Ho|..]; simpl; try done.
    - intros p Hp N. by apply without_in.
    - intros h _ (p & Hp & <-)%id_in. unfold ids. apply list_elem_of_fmap. exists p. split; [done|].
      eapply sublist_subseteq; [by apply (fewer_holders cand')|done]. }
  intros ticks lv w o ticks' lv' w' Ht Hp. set (v := w_activity w !! h0).
  assert (Hp' : alone lv0 f2 s' v None lv w).
  { destruct Hp as (H1 & H2 & H3 & H4 & H5 & _). refine (conj H1 (conj H2 (conj H3 (conj H4 (conj _ (conj eq_refl I)))))).
    eapply fewer_attempts_locks; [apply delete_subseteq|done]. }
  refine (triple_conseq _ (alone lv0 f2 s' v None) _ _ _ (fun _ _ => safe b q G False others) _ _ (strike_at lv0 f2 s' cand' v C1 Ho Hfw Hs) (fun lv w H => H) _ (fun lv w H => H) ticks lv w o ticks' lv' w' Ht Hp').
  by intros a lv2 w2 [].
Qed.
(** The [finally] of [_acquire]. *)
Lemma leave_at a j f s : m !! h0 = Some a -> at_request a = rq -> (at_phase a = Held /\ at_locals a = held_locals) \/ (at_phase a = Leaving /\ lv_held (at_locals a) = false) ->
  (q -> at_phase a = Held) -> coherent b j f s -> members_ok m s ->
  triple q (at_ b q G (at_locals a) j f s t m nothing) (leave alive b rq)
    (fun _ _ w => safe b q G False others w /\ (at_phase a = Held -> exists x, lr_lease (w_registry w) b = Some x /\ h0 ∉ ids (le_holders x)))
    (fun _ => safe b q G False others).
Proof.
  intros Ha Hr Hph Hheld Hco Hm. unfold leave. eapply triple_bind; [apply triple_get|]. intros lv1.
  apply triple_pure with (lv1 = at_locals a); [by intros lv w (-> & E1 & _)|]. intros ->.
  destruct Hph as [[P1 P2]|[P1 P2]].
  - rewrite P2. simpl. eapply triple_conseq; [by apply (release_at j f s); [destruct a; simpl in *; subst|..]|by intros lv w [_ H]| |done].
    intros u lv w [H1 H2]. auto.
  - rewrite P2. assert (Hn : ~ q) by (intros Hq'; by rewrite (Hheld Hq') in P1). destruct (lv_pending (at_locals a)).
    + eapply triple_conseq; [by apply (discard_at (at_locals a) j f s)|by intros lv w [_ H]| |done]. intros u lv w H. split; [done|]. by rewrite P1.
    + apply triple_ret. intros lv w [_ H]. split; [|by rewrite P1]. eapply safe_weaken; [apply delete_subseteq|]. by eapply (at_safe _ _ _ _ _ _ _ _ _ _ _ _ H).
Qed.
End Rounds.
