(* ===== verification/EffectLeaseSystem.v ===== *)
(** * Effect leases across processes

    The attempts of any number of processes on one binding, in any order, with
    crashes, failing calls and other writers of the registry: exclusion, order
    of entry, and that what is left behind never blocks for good. *)
From S2P Require Import Prelude PyValue Sql SettingsRebind VaultRegistry RegistryProps RegistryFiles EffectLease EffectLeaseStates EffectLeaseLogic EffectLeaseSections EffectLeaseReconcile EffectLeaseProps.
Open Scope Z_scope.

Section System.
Context {R : Type} `{LRL : LeaseRegistryLaws R} (b : string).

Definition request_ok (rq : request) : Prop := strip (rq_holder rq) <> "" /\ 0 < rq_pid rq /\ strip (rq_process_start rq) <> "".
(** A new holder id: in no state and no file name. *)
Definition unused (h : string) (w : world R) : Prop :=
  w_activity w !! h = None /\ forall s, lr_lease (w_registry w) b = Some s -> h ∉ ids (le_holders s).

Inductive lease_step : system R -> system R -> Prop :=
  | ls_arrive rq w m : m !! rq_holder rq = None -> unused (rq_holder rq) w -> request_ok rq ->
      lease_step (mkSystem w m) (mkSystem w (<[rq_holder rq := arriving rq]> m))
  | ls_round h a ticks w m a' w' : m !! h = Some a -> round b m a ticks w = (a', w') ->
      lease_step (mkSystem w m) (mkSystem w' (<[h := a']> m))
  (** The deadline of a waiting attempt passes. *)
  | ls_give_up h rq lv w m : m !! h = Some (mkAttempt rq Waiting lv) ->
      lease_step (mkSystem w m) (mkSystem w (<[h := mkAttempt rq Leaving lv]> m))
  | ls_die h rq p lv w m : m !! h = Some (mkAttempt rq p lv) ->
      lease_step (mkSystem w m) (mkSystem w (<[h := mkAttempt rq Gone lv]> m))
  | ls_lose l w m : lease_step (mkSystem w m) (mkSystem (lose (living m) l w) m)
  | ls_observe ticks w m o ticks' lv w' : observe (living m) b (ticks, (no_locals, w)) = (o, (ticks', (lv, w'))) ->
      lease_step (mkSystem w m) (mkSystem w' m)
  (** Another writer of the registry. *)
  | ls_registry r w m : lr_lease r b = lr_lease (w_registry w) b ->
      lease_step (mkSystem w m) (mkSystem (set_registry r w) m).

(** Files without a journal that agree with the registry, and nobody there; entries of the past may be left. *)
Definition at_rest (sy : system R) : Prop :=
  sy_attempts sy = ∅ /\ w_gate (sy_world sy) = ∅
  /\ exists s, lr_lease (w_registry (sy_world sy)) b = Some s /\ coherent b (w_journal (sy_world sy)) (w_state (sy_world sy)) s.

(** ** The invariant *)

Definition attempt_ok (h : string) (a : attempt) : Prop :=
  rq_holder (at_request a) = h /\ request_ok (at_request a)
  /\ match at_phase a with
     | Arriving => at_locals a = no_locals /\ rq_exclusive (at_request a) = true
     | Waiting => waiting_locals (at_request a) (at_locals a)
     | Held => at_locals a = held_locals
     | Leaving => lv_held (at_locals a) = false
     | Gone => True
     end.
Abbreviation intact := (safe b False (fun _ : R => True) False).
Definition inv (sy : system R) : Prop :=
  intact (sy_attempts sy) (sy_world sy) /\ forall h a, sy_attempts sy !! h = Some a -> attempt_ok h a.

Lemma living_covers m : covers (living m) m.
Proof. intros h a Ha Hp. unfold living. rewrite Ha. by apply bool_decide_eq_true. Qed.
Lemma at_rest_inv sy : at_rest sy -> inv sy.
Proof.
  destruct sy as [w m]. intros (Em & Eg & s & E1 & E2). simpl in *. subst m. split; [|by intros h a; simpl; rewrite lookup_empty].
  exists no_locals, (w_journal w), (w_state w), s. split; [|split; [done|]].
  - refine (conj eq_refl (conj (conj E1 (False_ind _)) (conj eq_refl (conj eq_refl (conj _ I))))). simpl. rewrite Eg. split; intros; simplify_map_eq; done.
  - split; intros; simplify_map_eq; done.
Qed.

(** An attempt without claims. *)
Definition idle (a : attempt) : Prop := at_phase a = Leaving \/ at_phase a = Gone.
Lemma idle_in m h a (w : world R) : idle a -> intact (delete h m) w -> intact (<[h := a]> m) w.
Proof.
  intros Hi (lv & j & f & s & (H1 & H2 & H3 & H4 & H5 & _) & Hco & Hm). exists lv, j, f, s. split; [|split; [done|]].
  - refine (conj H1 (conj H2 (conj H3 (conj H4 (conj _ I))))). apply own_locks_in; [done|..]; unfold guarded, untouched; by destruct Hi as [-> | ->].
  - apply own_members_in; [done|..]; unfold untouched; by destruct Hi as [-> | ->].
Qed.
Lemma idle_step m h a (w : world R) : idle a -> intact m w -> intact (<[h := a]> m) w.
Proof. intros Hi Hs. apply idle_in; [done|]. eapply safe_weaken; [apply delete_subseteq|done]. Qed.

Lemma safe_at q G t m (w : world R) lv : safe b q G t m w -> exists j f s, at_ b q G lv j f s t m nothing lv w /\ coherent b j f s /\ members_ok m s.
Proof. intros (lv' & j & f & s & (_ & H) & Hco & Hm). by exists j, f, s. Qed.

Lemma round_inv h a ticks w m a' w' : inv (mkSystem w m) -> m !! h = Some a -> round b m a ticks w = (a', w') ->
  intact (<[h := a']> m) w' /\ attempt_ok h a'.
Proof.
  intros [Hs Ha] Hm. destruct (Ha h a Hm) as (Hh & Hrq & Hloc). destruct a as [rq p lv]. simpl in *.
  destruct (safe_at _ _ _ _ _ lv Hs) as (j & f & s & Hat & Hco & Hmem). pose proof (living_covers m) as Hc.
  unfold round. simpl. destruct p; simpl.
  - destruct Hloc as [-> Hx]. destruct (enter_queue _ _ _ _) as [o [t' [lv' w1]]] eqn:E. intros [= <- <-].
    assert (Hl : living m h = true) by (unfold living; rewrite Hm; by apply bool_decide_eq_true).
    subst h. destruct (enqueue_at (living m) b False (fun _ => True) ltac:(done) False m Hc rq Hl Hrq j f s Hm Hx Hco Hmem _ _ _ _ _ _ _ (False_ind _) Hat E) as [_ HQ].
    destruct o as [u|e|].
    + destruct HQ as (p & -> & Hn). split; [done|]. split; [done|]. split; [done|]. simpl. unfold waiting_locals. rewrite Hx. by eexists.
    + destruct HQ as [Hheld Hn]. split; [apply idle_in; [by left|done]|]. by split.
    + destruct HQ as [Hheld Hn]. split; [apply idle_in; [by right|done]|]. by split.
  - destruct (try_enter _ _ _ _) as [o [t' [lv' w1]]] eqn:E. intros [= <- <-].
    assert (Hl : living m h = true) by (unfold living; rewrite Hm; by apply bool_decide_eq_true).
    subst h. destruct (try_at (living m) b False (fun _ => True) ltac:(done) False m Hc rq Hl Hrq lv j f s Hm Hloc Hco Hmem _ _ _ _ _ _ _ (False_ind _) Hat E) as [_ HQ].
    destruct o as [[]|e|].
    + destruct HQ as (-> & Hn & _). split; [exact Hn|]. by split.
    + destruct HQ as [[-> Hn] _]. rewrite insert_id by done. split; [done|]. by split.
    + unfold tried in HQ. destruct (lv_held lv') eqn:Eh.
      * destruct HQ as [[-> Hn] _]. split; [exact Hn|]. by split.
      * split; [apply idle_in; [by left|done]|]. by split.
    + unfold tried in HQ. destruct (lv_held lv') eqn:Eh.
      * destruct HQ as [[-> Hn] _]. split; [|by split]. apply idle_in; [by right|]. eapply safe_weaken; [|exact Hn]. apply own_in.
      * split; [apply idle_in; [by right|done]|]. by split.
  - destruct (leave _ _ _ _) as [o [t' [lv' w1]]] eqn:E. intros [= <- <-].
    assert (Hl : living m h = true) by (unfold living; rewrite Hm; by apply bool_decide_eq_true).
    subst h lv. destruct (leave_at (living m) b False (fun _ => True) ltac:(done) False m Hc rq Hl (mkAttempt rq Held held_locals) j f s Hm eq_refl ltac:(by left) ltac:(done) Hco Hmem
      _ _ _ _ _ _ _ (False_ind _) Hat E) as [_ HQ].
    split; [apply idle_in; [by right|]|by split]. destruct o as [u|e|]; [apply HQ|done|done].
  - destruct (leave _ _ _ _) as [o [t' [lv' w1]]] eqn:E. intros [= <- <-].
    assert (Hl : living m h = true) by (unfold living; rewrite Hm; by apply bool_decide_eq_true).
    subst h. destruct (leave_at (living m) b False (fun _ => True) ltac:(done) False m Hc rq Hl (mkAttempt rq Leaving lv) j f s Hm eq_refl ltac:(by right) ltac:(done) Hco Hmem
      _ _ _ _ _ _ _ (False_ind _) Hat E) as [_ HQ].
    split; [apply idle_in; [by right|]|by split]. destruct o as [u|e|]; [apply HQ|done|done].
  - intros [= <- <-]. rewrite insert_id by done. split; [done|]. by split.
Qed.
Lemma step_inv sy sy' : lease_step sy sy' -> inv sy -> inv sy'.
Proof.
  intros Hst. destruct Hst as [rq w m Hn [Hu1 Hu2] Hrq|h a ticks w m a' w' Hm Hr|h rq lv w m Hm|h rq p lv w m Hm|l w m|ticks w m o ticks' lv w' E|r w m Er];
    intros [Hs Ha]; simpl in *.
  - split; simpl; [|intros h a [[<- <-]|[_ H]]%lookup_insert_Some; [|eauto]].
    + destruct Hs as (lv & j & f & s & (H1 & H2 & H3 & H4 & H5 & _) & Hco & Hmem). exists lv, j, f, s. specialize (Hu2 s (proj1 H2)).
      rewrite <- (delete_id m (rq_holder rq) Hn) in H5, Hmem. split; [|split; [done|]].
      * refine (conj H1 (conj H2 (conj H3 (conj H4 (conj _ I))))). apply own_locks_in; [done|..]; unfold guarded, arriving; simpl; destruct (rq_exclusive rq) eqn:Ex; simpl; rewrite ?Ex; done.
      * apply own_members_in; [done|..]; unfold arriving; simpl; destruct (rq_exclusive rq) eqn:Ex; simpl; rewrite ?Ex; done.
    + split; [done|]. split; [done|]. unfold arriving, waiting_locals. simpl. by destruct (rq_exclusive rq) eqn:Ex; simpl; rewrite ?Ex.
  - destruct (round_inv _ _ _ _ _ _ _ (conj Hs Ha) Hm Hr) as [R1 R2]. split; [done|]. simpl.
    intros h' a2 [[<- <-]|[_ H]]%lookup_insert_Some; [done|eauto].
  - destruct (Ha _ _ Hm) as (A1 & A2 & A3). split; simpl; [apply idle_step; [by left|done]|].
    intros h' a2 [[<- <-]|[_ H]]%lookup_insert_Some; [|eauto]. split; [done|]. split; [done|]. simpl in A3 |- *. unfold waiting_locals in A3.
    destruct (rq_exclusive rq); [by destruct A3 as [? ->]|by subst].
  - destruct (Ha _ _ Hm) as (A1 & A2 & A3). split; simpl; [apply idle_step; [by right|done]|].
    intros h' a2 [[<- <-]|[_ H]]%lookup_insert_Some; [|eauto]. by split.
  - split; simpl; [|done]. apply safe_lost; [apply living_covers|done].
  - destruct (safe_at _ _ _ _ _ no_locals Hs) as (j & f & s & Hat & Hco & Hmem).
    destruct (observe_at (living m) b False (fun _ => True) ltac:(done) False m no_locals j f s (living_covers m) Hco Hmem _ _ _ _ _ _ _ (False_ind _) Hat E) as [_ HQ].
    split; [|done]. by destruct o; apply HQ.
  - split; [|done]. destruct Hs as (lv & j & f & s & (H1 & H2 & H3 & H4 & H5 & _) & Hco & Hmem). exists lv, j, f, s. split; [|done].
    destruct H2 as [H2 _]. rewrite <- Er in H2. by refine (conj H1 (conj (conj H2 (False_ind _)) (conj H3 (conj H4 (conj H5 I))))).
Qed.
Lemma lease_reachable_inv sy sy' : rtc lease_step sy sy' -> at_rest sy -> inv sy'.
Proof. intros Hr Hi. apply at_rest_inv in Hi. induction Hr as [|x y z Hst Hr IH]; [done|]. apply IH. by eapply step_inv. Qed.

(** ** Theorems *)

(** C14: Effect windows exclude each other.  However many processes enter, wait, time out, leave, crash or observe, in any
    order and with any step of their sections failing or being their last, and whatever others write to the registry
    without touching the binding's lease state: two attempts that hold the lease at the same time both hold it shared, and
    the durable state in the registry lists both. *)
Theorem effect_windows_exclude sy sy' h1 h2 a1 a2 : at_rest sy -> rtc lease_step sy sy' -> h1 <> h2 ->
  sy_attempts sy' !! h1 = Some a1 -> at_phase a1 = Held -> sy_attempts sy' !! h2 = Some a2 -> at_phase a2 = Held ->
  (rq_exclusive (at_request a1) = false /\ rq_exclusive (at_request a2) = false)
  /\ exists s, lr_lease (w_registry (sy_world sy')) b = Some s /\ h1 ∈ ids (le_shared s) /\ h2 ∈ ids (le_shared s) /\ le_exclusive s = None.
Proof.
  intros Hi Hr N E1 P1 E2 P2. destruct (lease_reachable_inv _ _ Hr Hi) as [(lv & j & f & s & (_ & [H2 _] & _ & _ & H5 & _) & (Hw & _) & Hm) _].
  destruct (lo_compat _ _ _ _ H5 h1 h2 _ _ (lo_gate _ _ _ _ H5 _ _ E1 P1) (lo_gate _ _ _ _ H5 _ _ E2 P2) N) as [K1 K2].
  unfold mode_of in K1, K2. destruct (rq_exclusive (at_request a1)) eqn:X1; [done|]. destruct (rq_exclusive (at_request a2)) eqn:X2; [done|].
  split; [done|]. exists s. split; [done|]. pose proof (mo_shared _ _ Hm _ _ E1 P1 X1) as S1. split; [done|]. split; [by eapply mo_shared|].
  destruct (wf_overlap s Hw) as [Ho|Ho]; [done|]. rewrite Ho in S1. by apply not_elem_of_nil in S1.
Qed.

(** C15: Leases are granted in turn.  Whenever a round lets a waiting attempt enter, disturbed or not: a shared one enters only
    when no live attempt waits for or holds the exclusive lease, so later readers do not overtake a waiting writer; an exclusive
    one enters only when no live attempt holds the lease and every other live exclusive waiter queued up after it. *)
Theorem effect_windows_in_turn sy w m h a ticks a' w' : at_rest sy -> rtc lease_step sy (mkSystem w m) ->
  m !! h = Some a -> at_phase a = Waiting -> round b m a ticks w = (a', w') -> at_phase a' = Held -> turn m (at_request a) (at_locals a).
Proof.
  intros Hi Hr Hm Hp E Hh. destruct (lease_reachable_inv _ _ Hr Hi) as [Hs Ha]. simpl in *. destruct (Ha h a Hm) as (Hid & Hrq & Hloc).
  destruct a as [rq p lv]. simpl in *. subst p. destruct (safe_at _ _ _ _ _ lv Hs) as (j & f & s & Hat & Hco & Hmem).
  unfold round in E. simpl in E. destruct (try_enter _ _ _ _) as [o [t' [lv' w1]]] eqn:Et. injection E as <- <-. simpl in Hh.
  assert (Hl : living m h = true) by (unfold living; rewrite Hm; by apply bool_decide_eq_true). subst h.
  destruct (try_at (living m) b False (fun _ => True) ltac:(done) False m (living_covers m) rq Hl Hrq lv j f s Hm Hloc Hco Hmem _ _ _ _ _ _ _ (False_ind _) Hat Et) as [_ HQ].
  destruct o as [[]|e|]; try done; [apply HQ|]. unfold tried in HQ. destruct (lv_held lv'); [apply HQ|done].
Qed.

(** Nobody's locks are left behind. *)
Definition quiet (sy : system R) : Prop :=
  (forall h, w_activity (sy_world sy) !! h = Some true -> guards (sy_attempts sy) h)
  /\ forall h k, w_gate (sy_world sy) !! h = Some k -> exists a, sy_attempts sy !! h = Some a /\ at_phase a = Held.
Lemma quiet_safe G w m : quiet (mkSystem w m) -> G (w_registry w) -> intact m w -> safe b True G True m w.
Proof.
  intros [Q1 Q2] Hg (lv & j & f & s & (H1 & [H2 _] & H3 & H4 & [L1 L2 L3 L4 _ _] & _) & Hco & Hm). exists lv, j, f, s. split; [|done].
  by refine (conj H1 (conj (conj H2 (fun _ => Hg)) (conj H3 (conj H4 (conj (Build_locks_ok _ _ _ _ L1 L2 L3 L4 _ _) I))))); intros _; eauto.
Qed.

(** C16: Nothing that crashed blocks for good.  In any reachable situation, whatever journal, state file, entries and activity
    files dead processes left behind, once their kernel locks are gone and the registry answers, an undisturbed section
    succeeds: an exclusive request queues up, a waiting one whose turn it is enters, and one that holds the lease releases it
    without an error and is no longer listed. *)
Theorem effect_leases_progress G sy w m h a : at_rest sy -> rtc lease_step sy (mkSystem w m) -> quiet (mkSystem w m) ->
  served b G -> G (w_registry w) -> m !! h = Some a ->
  (at_phase a = Arriving -> at_phase (fst (round b m a [] w)) = Waiting)
  /\ (at_phase a = Waiting -> turn m (at_request a) (at_locals a) -> at_phase (fst (round b m a [] w)) = Held)
  /\ (at_phase a = Held -> exists lv' w', leave (living m) b (at_request a) ([], (at_locals a, w)) = (Returned tt, ([], (lv', w')))
       /\ exists x, lr_lease (w_registry w') b = Some x /\ h ∉ ids (le_holders x)).
Proof.
  intros Hi Hr Hqt Hsv Hgr Hm. destruct (lease_reachable_inv _ _ Hr Hi) as [Hs Ha]. simpl in *. apply (quiet_safe G) in Hs; [|done..].
  destruct (Ha h a Hm) as (Hid & Hrq & Hloc). destruct (safe_at _ _ _ _ _ (at_locals a) Hs) as (j & f & s & Hat & Hco & Hmem).
  pose proof (living_covers m) as Hc. destruct a as [rq p lv]. simpl in *. split; [|split].
  - intros ->. assert (Hl : living m h = true) by (unfold living; rewrite Hm; by apply bool_decide_eq_true). subst h. destruct Hloc as [-> Hx].
    unfold round. simpl. destruct (enter_queue _ _ _ _) as [o [t' [lv' w1]]] eqn:E.
    destruct (enqueue_at (living m) b True G (fun _ => Hsv) True m Hc rq Hl Hrq j f s Hm Hx Hco Hmem _ _ _ _ _ _ _ (fun _ => eq_refl) Hat E) as [HT _].
    by destruct (HT I) as [_ [u ->]].
  - intros -> Ht. assert (Hl : living m h = true) by (unfold living; rewrite Hm; by apply bool_decide_eq_true). subst h.
    unfold round. simpl. destruct (try_enter _ _ _ _) as [o [t' [lv' w1]]] eqn:E.
    destruct (try_at (living m) b True G (fun _ => Hsv) True m Hc rq Hl Hrq lv j f s Hm Hloc Hco Hmem _ _ _ _ _ _ _ (fun _ => eq_refl) Hat E) as [HT HQ].
    destruct (HT I) as [_ [r ->]]. destruct r; [done|]. by destruct HQ as [_ HQ]; destruct (HQ I).
  - intros ->. assert (Hl : living m h = true) by (unfold living; rewrite Hm; by apply bool_decide_eq_true). subst h lv.
    destruct (leave (living m) b rq ([], (held_locals, w))) as [o [t' [lv' w1]]] eqn:E.
    destruct (leave_at (living m) b True G (fun _ => Hsv) True m Hc rq Hl (mkAttempt rq Held held_locals) j f s Hm eq_refl ltac:(by left) ltac:(done) Hco Hmem
      _ _ _ _ _ _ _ (fun _ => eq_refl) Hat E) as [HT HQ]. destruct (HT I) as [-> [[] ->]]. eexists _, _. split; [done|]. by apply HQ.
Qed.
End System.
