(* ===== verification/LeaseRegistryStore.v ===== *)
(** * The vault registry behind the effect leases

    The registry store keeps what the leases rely on: loading returns the lease
    state in the document, [set_binding_effect_lease_state] replaces it or
    leaves it.  A registry that loads and could be written back answers every
    calm call. *)
From S2P Require Import Prelude PyValue Sql SettingsRebind VaultRegistry DimensionState RegistryStore RegistryProps RegistryRoundtrip RegistryFiles RegistryTransaction RegistryCommit EffectLease EffectLeaseStates EffectLeaseLogic EffectLeaseSections EffectLeaseReconcile EffectLeaseProps EffectLeaseSystem.
Open Scope Z_scope.

Abbreviation LEASES := "bindingEffectLeases".

Section Document.
Context (sha256_hex : string -> string) (root : string -> option FilesystemRootIdentity).

Lemma default_other fm regs ext o p ext' k : k <> "legacyDefaultVaultBindingId" ->
  _read_default_from_frontmatter fm regs ext = Ok (o, p, ext') -> get ext' k = get ext k.
Proof.
  intros Hk. unfold _read_default_from_frontmatter. intros H. destruct (_optional_str (get fm "defaultVaultBindingId")) as [x|].
  - destruct (_optional_str (get fm "defaultVaultProvenance")).
    + bound H as u Eu. by injection H as _ _ <-.
    + destruct (dict_mem regs x); injection H as _ _ <-; [done|]. rewrite get_set. by rewrite decide_False.
  - bound H as u Eu. by injection H as _ _ <-.
Qed.
(** What a successful parse went through. *)
Record parsed (d : pydict) (s : RegistrySnapshot) : Prop := {
  pd_schema : one_of (_optional_str (get d "schema")) SUPPORTED_REGISTRY_SCHEMAS = true;
  pd_authority : one_of (_optional_str (get d "authority")) [REGISTRY_AUTHORITY_DORMANT; REGISTRY_AUTHORITY_ACTIVE] = true;
  pd_schema_is : rg_schema s = default "" (_optional_str (get d "schema"));
  pd_authority_is : rg_authority s = default "" (_optional_str (get d "authority"));
  pd_leases : _validate_binding_effect_lease_extension (without _REGISTRY_FIELDS d) (rg_registrations s) = Ok tt;
  pd_other : forall k, existsb (String.eqb k) _REGISTRY_FIELDS = false -> k <> "legacyDefaultVaultBindingId" ->
    get (rg_extensions s) k = get d k }.
Lemma parse_parsed d s : _snapshot_from_frontmatter sha256_hex root d = Ok s -> parsed d s.
Proof.
  unfold _snapshot_from_frontmatter. intros H. bound H as u1 E1. bound H as u2 E2.
  destruct (as_int _) as [rev|] eqn:Erev; [|done]. bound H as u3 E3. bound H as raw Eraw. bound H as regs Eregs.
  bound H as rawt Et. bound H as tomb Etomb. destruct (py_or (get d "transferLineage") _); try done.
  bound H as lin Elin. destruct (_optional_str (get d "appInstallId")); [|done]. bound H as u4 E4. bound H as u5 E5.
  bound H as reb Ereb. bound H as floors Ef. bound H as u6 E6. bound H as u7 E7.
  bound H as [[o p] ext] Ed. injection H as <-. apply raise_if_ok in E1, E2. destruct u4.
  split; simpl; try done; [by apply negb_false_iff..|]. intros k Hk Hl. rewrite (default_other _ _ _ _ _ _ _ Hl Ed). by apply get_without.
Qed.
(** Only the lease slot differs: the document still parses when the new leases are valid. *)
Lemma parse_releases d d' s : (forall k, k <> LEASES -> dict_get d' k = dict_get d k) ->
  _snapshot_from_frontmatter sha256_hex root d = Ok s ->
  _validate_binding_effect_lease_extension (without _REGISTRY_FIELDS d') (rg_registrations s) = Ok tt ->
  exists s', _snapshot_from_frontmatter sha256_hex root d' = Ok s'.
Proof.
  intros Hd. assert (Hg : forall k, k <> LEASES -> get d' k = get d k) by (intros k Hk; unfold get; by rewrite Hd).
  assert (Hw : forall k, existsb (String.eqb k) _REGISTRY_FIELDS = false -> k <> LEASES -> get (without _REGISTRY_FIELDS d') k = get (without _REGISTRY_FIELDS d) k)
    by (intros k H1 H2; rewrite !get_without by done; auto).
  unfold _snapshot_from_frontmatter. rewrite !Hg by discriminate. rewrite (Hd "revision") by discriminate.
  intros H. bound H as u1 E1. bound H as u2 E2. rewrite E1, E2. cbn [mbind res_bind].
  destruct (as_int _) as [rev|] eqn:Erev; [|done]. bound H as u3 E3. bound H as raw Eraw. bound H as regs Eregs.
  bound H as rawt Et. bound H as tomb Etomb. rewrite E3. cbn [mbind res_bind]. rewrite Eraw. cbn [mbind res_bind]. rewrite Eregs. cbn [mbind res_bind].
  rewrite Et. cbn [mbind res_bind]. rewrite Etomb. cbn [mbind res_bind]. destruct (py_or (get d "transferLineage") _); try done.
  bound H as lin Elin. rewrite Elin. cbn [mbind res_bind]. destruct (_optional_str (get d "appInstallId")); [|done]. bound H as u4 E4. bound H as u5 E5.
  bound H as reb Ereb. bound H as floors Ef. bound H as u6 E6. bound H as u7 E7. bound H as [[o p] ext] Ed. injection H as <-. simpl.
  intros Hl. rewrite Hl. cbn [mbind res_bind].
  assert (E5' : (if one_of (_optional_str (get d "authority")) [REGISTRY_AUTHORITY_ACTIVE]
     then check_rollback_floor (without _REGISTRY_FIELDS d') rev regs tomb lin else Ok tt) = Ok u5).
  { rewrite <- E5. destruct (one_of _ _); [|done]. unfold check_rollback_floor, retired_target. by rewrite !Hw. }
  rewrite E5'. cbn [mbind res_bind]. rewrite Ereb. cbn [mbind res_bind]. rewrite (Hw "runtimeFloors"), Ef by done. cbn [mbind res_bind].
  assert (E6' : check_runtime_floors (default "" (_optional_str (get d "schema"))) (without _REGISTRY_FIELDS d') floors = Ok u6).
  { rewrite <- E6. unfold check_runtime_floors. by rewrite (Hw BACKGROUND_INTENT_KEY). }
  rewrite E6'. cbn [mbind res_bind]. rewrite E7. cbn [mbind res_bind].
  revert Ed. unfold _read_default_from_frontmatter. rewrite !Hg by discriminate. intros H.
  destruct (_optional_str (get d "defaultVaultBindingId")) as [x|].
  - destruct (_optional_str (get d "defaultVaultProvenance")).
    + bound H as u Eu. rewrite Eu. cbn [mbind res_bind]. by eexists.
    + destruct (dict_mem regs x); by eexists.
  - bound H as u Eu. rewrite Eu. cbn [mbind res_bind]. by eexists.
Qed.
End Document.

(** ** What the registry validates *)

Lemma registry_holder mode next h : holder_ok next h -> has_mode mode h ->
  exists d, _validate_binding_effect_holder (holder_value h) mode = Ok d /\ PDict d = holder_value h.
Proof.
  intros [H1 H2 H3 H4] Hm. unfold has_mode in Hm. destruct h as [i p st t m]. simpl in *. subst m.
  unfold _validate_binding_effect_holder, holder_value, get. cbn -[strip String.eqb].
  apply String.eqb_neq in H1, H3. rewrite H1, H3, String.eqb_refl. simpl.
  assert (E1 : (0 <? p) = true) by (by apply Z.ltb_lt). assert (E2 : (0 <? t) = true) by (apply Z.ltb_lt; lia). rewrite E1, E2. simpl. by eexists.
Qed.
Lemma registry_holders mode next l : Forall (holder_ok next) l -> Forall (has_mode mode) l ->
  exists ds, mapM_res (fun item => _validate_binding_effect_holder item mode) (map holder_value l) = Ok ds /\ map PDict ds = map holder_value l
    /\ map (fun item => py_str (get item "holderId")) ds = ids l /\ map ticket_of ds = map ho_ticket l.
Proof.
  induction l as [|h l IH]; intros Hf Hm; [by exists []|]. inversion Hf as [|? ? Hh Hl]; subst. inversion Hm as [|? ? Hhm Hlm]; subst.
  destruct (registry_holder mode next h Hh Hhm) as (d & Ed & Ev). destruct (IH Hl Hlm) as (ds & Eds & E1 & E2 & E3). exists (d :: ds). cbn [map mapM_res].
  rewrite Ed. cbn [mbind res_bind]. rewrite Eds. cbn [mbind res_bind]. split; [done|]. rewrite Ev, E1, E2, E3. unfold ids. simpl.
  injection Ev as ->. destruct h. done.
Qed.
#[local] Arguments _validate_binding_effect_holder : simpl never.
Lemma registry_validates b t : well_formed t -> exists d, _validate_binding_effect_lease_state b (state_value b t) = Ok d /\ PDict d = state_value b t.
Proof.
  intros [G1 G2 Hh N1 N2 M1 M2 M3 Ho]. unfold le_holders in *. rewrite !Forall_app in Hh. destruct Hh as (F1 & F2 & F3).
  destruct (registry_holders "shared" _ _ F1 M1) as (sh & S1 & S2 & S3 & S4). destruct (registry_holders "pending" _ _ F2 M2) as (pe & P1 & P2 & P3 & P4).
  unfold _validate_binding_effect_lease_state, state_value, get. simpl. rewrite !String.eqb_refl. simpl.
  assert (E1 : (le_generation t <? 0) = false) by (by apply Z.ltb_ge). assert (E2 : (le_next_ticket t <=? 0) = false) by (by apply Z.leb_gt).
  rewrite E1, E2. cbn [orb raise_if mbind res_bind]. rewrite S1. cbn [mbind res_bind]. rewrite P1. cbn [mbind res_bind].
  assert (Hex : exists ex : option pydict, (match match le_exclusive t with Some h => holder_value h | None => PNone end with
      | PNone => Ok None
      | PDict d => h ← _validate_binding_effect_holder (PDict d) "exclusive"; Ok (Some h)
      | _ => Raise (RegistryError "binding effect lease state has an invalid holder")
      end) = Ok ex
    /\ match ex with Some h => PDict h | None => PNone end = match le_exclusive t with Some h => holder_value h | None => PNone end
    /\ map (fun item => py_str (get item "holderId")) (option_list ex) = ids (option_list (le_exclusive t))
    /\ map ticket_of (option_list ex) = map ho_ticket (option_list (le_exclusive t)) /\ (is_Some ex <-> is_Some (le_exclusive t))).
  { destruct (le_exclusive t) as [h|]; [|exists None; repeat split; try done; by intros [? ?]].
    apply Forall_inv in F3, M3. destruct (registry_holder "exclusive" _ h F3 M3) as (d & Ed & Ev). exists (Some d).
    rewrite <- Ev in Ed. rewrite <- Ev, Ed. cbn [mbind res_bind]. split; [done|]. split; [done|]. injection Ev as ->. destruct h. repeat split; eauto. }
  destruct Hex as (ex & X1 & X2 & X3 & X4 & X5).
  rewrite X1. cbn [mbind res_bind].
  assert (I : map (fun item => py_str (get item "holderId")) (sh ++ pe ++ option_list ex) = ids (le_shared t ++ le_pending t ++ option_list (le_exclusive t)))
    by (by rewrite !map_app, S3, P3, X3, !ids_app).
  assert (T : map ticket_of (sh ++ pe ++ option_list ex) = map ho_ticket (le_shared t ++ le_pending t ++ option_list (le_exclusive t)))
    by (by rewrite !map_app, S4, P4, X4).
  unfold get in I. rewrite I, T, (bool_decide_true _ N1), (bool_decide_true _ N2). cbn [negb orb raise_if mbind res_bind].
  assert (O : bool_decide (is_Some ex) && bool_decide (sh <> []) = false).
  { apply andb_false_iff. destruct Ho as [Ho|Ho].
    - left. apply bool_decide_eq_false. intros Hx. apply X5 in Hx. rewrite Ho in Hx. by destruct Hx.
    - right. apply bool_decide_eq_false. intros Hx. rewrite Ho in S2. destruct sh; [done|by simpl in S2]. }
  rewrite O. cbn [negb orb raise_if mbind res_bind].
  assert (B : existsb (fun x => le_next_ticket t <=? x) (map ho_ticket (le_shared t ++ le_pending t ++ option_list (le_exclusive t))) = false).
  { apply not_true_iff_false. intros (x & Hx & Hle)%existsb_exists. apply list_elem_of_In, list_elem_of_fmap in Hx as (h & -> & Hin).
    assert (Hok : holder_ok (le_next_ticket t) h).
    { rewrite Forall_forall in F1, F2, F3. rewrite !elem_of_app in Hin. destruct Hin as [Hin|[Hin|Hin]]; auto. }
    apply Z.leb_le in Hle. pose proof (hk_ticket _ _ Hok). lia. }
  rewrite B. cbn [negb orb raise_if mbind res_bind]. eexists. split; [done|]. by rewrite S2, P2, X2.
Qed.
Lemma holder_plain h : yaml_norm (holder_value h) = holder_value h.
Proof. by destruct h. Qed.
Lemma state_plain b t : yaml_norm (state_value b t) = state_value b t.
Proof.
  unfold state_value. simpl. rewrite !map_map, !(map_ext _ holder_value) by (intros; apply holder_plain). by destruct (le_exclusive t) as [[]|].
Qed.

(** A lease state that validates still does after a round through YAML. *)
Lemma yaml_keys d l : same_keys (yaml_norm_dict d) l = same_keys d l.
Proof.
  unfold same_keys, yaml_norm_dict. f_equal.
  - induction d as [|kv d IH]; simpl; [done|]. by rewrite IH.
  - induction l as [|k l IH]; simpl; [done|]. rewrite IH. f_equal. unfold dict_mem. rewrite (dict_get_map yaml_norm). by destruct (dict_get d k).
Qed.
Lemma yaml_holder next seen v h : read_holder next seen v = Ok h -> read_holder next seen (yaml_norm v) = Ok h.
Proof.
  unfold read_holder. destruct v; try done. cbn [yaml_norm]. fold (yaml_norm_dict d). rewrite yaml_keys, !get_yaml.
  intros H. bound H as u E. rewrite E. cbn [mbind res_bind].
  destruct (get d "holderId"); try done. destruct (get d "pid"); try done. destruct (get d "processStart"); try done. destruct (get d "ticket"); try done.
  simpl in *. bound H as u' E'. rewrite E'. cbn [mbind res_bind]. by destruct (get d "mode").
Qed.
Lemma yaml_holders next l : forall seen hs, read_holders next seen l = Ok hs -> read_holders next seen (map yaml_norm l) = Ok hs.
Proof.
  induction l as [|v l IH]; intros seen hs; cbn [map read_holders]; [done|]. intros H. bound H as h Eh. bound H as r Er.
  rewrite (yaml_holder _ _ _ _ Eh). cbn [mbind res_bind]. by rewrite (IH _ _ Er).
Qed.
Lemma yaml_state b v s : _validate_state b v = Ok s -> _validate_state b (yaml_norm v) = Ok s.
Proof.
  unfold _validate_state. destruct v; try done. cbn [yaml_norm]. fold (yaml_norm_dict d). rewrite yaml_keys, !get_yaml.
  intros H. bound H as u1 E1. bound H as u2 E2.
  assert (F1 : yaml_norm (get d "schema") = get d "schema").
  { apply raise_if_ok, orb_false_iff in E1 as [_ E1]. apply negb_false_iff in E1. by destruct (get d "schema"). }
  assert (F2 : yaml_norm (get d "vaultBindingId") = get d "vaultBindingId").
  { apply raise_if_ok, negb_false_iff in E2. by destruct (get d "vaultBindingId"). }
  rewrite F1, F2, E1, E2. cbn [mbind res_bind].
  destruct (get d "generation"); try done. destruct (get d "nextTicket"); try done. destruct (get d "sharedHolders") as [| | | | |l| |]; try done.
  destruct (get d "exclusivePending") as [| | | | |l'| |]; try done.
  cbn [yaml_norm]. bound H as u3 E3. rewrite E3. cbn [mbind res_bind]. bound H as raw Eraw.
  assert (Er : match yaml_norm (get d "exclusiveHolder") with PNone => Ok [] | PDict e => Ok [PDict e]
    | _ => Raise (BindingEffectLeaseError "binding effect lease state values are invalid") end = Ok (map yaml_norm raw)).
  { destruct (get d "exclusiveHolder"); try done; by injection Eraw as <-. }
  rewrite Er. cbn [mbind res_bind]. bound H as sh Esh. bound H as pe Epe. bound H as ex Eex.
  rewrite (yaml_holders _ _ _ _ Esh). cbn [mbind res_bind]. rewrite (yaml_holders _ _ _ _ Epe). cbn [mbind res_bind].
  by rewrite (yaml_holders _ _ _ _ Eex).
Qed.

(** ** The store as the leases use it *)

Section Store.
Context (sha256_hex : string -> string) (calm : call_env).

#[export] Instance store_leases : LeaseRegistry registry := {
  lr_call := call_env;
  lr_calm := calm;
  lr_load env := s ← load sha256_hex env; mret (get (rg_extensions s) LEASES);
  lr_set env b v := _ ← set_binding_effect_lease_state sha256_hex env b v None; mret tt }.

(** The lease state of a binding in the document. *)
Definition stored_lease (w : registry) (b : string) : option _LeaseState :=
  match rs_document w with
  | None => Some _empty_state
  | Some d => match state_in b (get d LEASES) with Ok s => Some s | Raise _ => None end
  end.
Definition with_leases (s : RegistrySnapshot) (states : pydict) : RegistrySnapshot :=
  with_extensions (dict_set (rg_extensions s) LEASES (PDict states)) s.
Lemma leases_of_snapshot env d s : _snapshot_from_frontmatter sha256_hex (ce_root env) d = Ok s -> get (rg_extensions s) LEASES = get d LEASES.
Proof. intros H%parse_parsed. by apply (pd_other _ _ H). Qed.
Lemma written_leases env s p : _snapshot_payload sha256_hex env s = Ok p -> get p LEASES = yaml_norm (get (rg_extensions s) LEASES).
Proof. unfold _snapshot_payload. intros H. bound H as u E. injection H as <-. by rewrite get_yaml, frontmatter_other. Qed.

Lemma load_lease env w b s x w' : stored_lease w b = Some s -> load sha256_hex env w = (x, w') ->
  stored_lease w' b = Some s /\ forall u, x = Ok u -> state_in b (get (rg_extensions u) LEASES) = Ok s.
Proof.
  unfold load, _locked. destruct (ce_lock env); [by intros Hs [= <- <-]|]. unfold read_or_initialize, stored_lease.
  destruct (rs_document w) as [d|] eqn:Ed.
  - intros Hs E. pose proof (keeps_read _ _ _ _ _ E) as ->. rewrite Ed. split; [done|]. intros u ->. apply read_ok in E as (d' & Ed' & Ep).
    rewrite Ed in Ed'. injection Ed' as <-. rewrite (leases_of_snapshot _ _ _ Ep). destruct (state_in b (get d LEASES)); [by injection Hs as ->|done].
  - intros [= <-]. unfold _restore_or_initialize_missing_locked. intros E. cases E as u w1 E1.
    + injection E as <- <-. apply write_ok in E1 as [[_ [e ?]]|(p & Ep & ->)]; [done|]. cbn [rs_document]. rewrite (written_leases _ _ _ Ep).
      split; [done|]. by intros u' [= <-].
    + apply write_ok in E1 as [[-> _]|(p & Ep & ->)]; subst x; (split; [|done]); [by rewrite Ed|]. cbn [rs_document]. by rewrite (written_leases _ _ _ Ep).
Qed.

(** What a write of lease states leaves. *)
Lemma set_lease env w b v x w' : set_binding_effect_lease_state sha256_hex env b v None w = (x, w') ->
  (w' = w /\ exists e, x = Raise e)
  \/ exists d s states u p, rs_document w = Some d /\ _snapshot_from_frontmatter sha256_hex (ce_root env) d = Ok s
     /\ mapping_or_empty (get d LEASES) "binding effect lease state must be a mapping" = Ok states
     /\ _validate_binding_effect_lease_state b v = Ok u
     /\ _snapshot_payload sha256_hex env (with_leases s (dict_set states b (PDict u))) = Ok p /\ w' = mkRegistryState (Some p) (rs_session w).
Proof.
  intros E. enough (Ho : only true (set_binding_effect_lease_state sha256_hex env b v None) w
    (fun w' => exists d s states u p, rs_document w = Some d /\ _snapshot_from_frontmatter sha256_hex (ce_root env) d = Ok s
     /\ mapping_or_empty (get d LEASES) "binding effect lease state must be a mapping" = Ok states
     /\ _validate_binding_effect_lease_state b v = Ok u
     /\ _snapshot_payload sha256_hex env (with_leases s (dict_set states b (PDict u))) = Ok p /\ w' = mkRegistryState (Some p) (rs_session w))).
  { destruct (Ho _ _ E) as [[H1 H2]|H]; [left|by right]. auto. }
  unfold set_binding_effect_lease_state. do 8 track. intros p Ep.
  destruct H2 as (_ & (d & Ed & Es) & _). exists d, a2, a4, a1, p. rewrite (leases_of_snapshot _ _ _ Es) in H4. done.
Qed.

Lemma stored_written b states t p q : get p LEASES = yaml_norm (PDict (dict_set states b (state_value b t))) -> well_formed t ->
  stored_lease (mkRegistryState (Some p) q) b = Some t.
Proof.
  intros E Hw. unfold stored_lease, state_in. cbn [rs_document]. rewrite E. cbn [yaml_norm].
  assert (Hg : get (map (fun kv => (fst kv, yaml_norm (snd kv))) (dict_set states b (state_value b t))) b = state_value b t).
  { unfold get. rewrite (dict_get_map yaml_norm), dict_get_set_eq. simpl. apply state_plain. }
  assert (Hne : map (fun kv => (fst kv, yaml_norm (snd kv))) (dict_set states b (state_value b t)) <> []).
  { intros En. rewrite En in Hg. done. }
  destruct (map _ _) as [|kv l] eqn:El; [done|]. unfold py_or. cbn [truthy]. rewrite Hg. cbn [state_value].
  change (PDict _) with (state_value b t) at 1. by rewrite (lease_reads_back b t Hw).
Qed.
Lemma stored_kept b b' states v t p q : b' <> b -> get p LEASES = yaml_norm (PDict (dict_set states b' v)) ->
  (match get states b with PNone => Ok _empty_state | value => _validate_state b value end) = Ok t ->
  stored_lease (mkRegistryState (Some p) q) b = Some t.
Proof.
  intros N E Hs. unfold stored_lease, state_in. cbn [rs_document]. rewrite E. cbn [yaml_norm].
  assert (Hg : get (map (fun kv => (fst kv, yaml_norm (snd kv))) (dict_set states b' v)) b = yaml_norm (get states b)).
  { unfold get. rewrite (dict_get_map yaml_norm), dict_get_set, decide_False by done. by destruct (dict_get states b). }
  assert (Hne : map (fun kv => (fst kv, yaml_norm (snd kv))) (dict_set states b' v) <> []).
  { intros En%map_eq_nil. apply (f_equal (fun d => dict_get d b')) in En. by rewrite dict_get_set_eq in En. }
  destruct (map _ _) as [|kv l] eqn:El; [done|]. unfold py_or. cbn [truthy]. rewrite Hg.
  destruct (get states b); try (by injection Hs as <-); try done; apply yaml_state in Hs; cbn [yaml_norm] in *; by rewrite Hs.
Qed.

(** ** The laws of the interface *)

Lemma kept_states b d states t : state_in b (get d LEASES) = Ok t ->
  mapping_or_empty (get d LEASES) "binding effect lease state must be a mapping" = Ok states ->
  (match get states b with PNone => Ok _empty_state | value => _validate_state b value end) = Ok t.
Proof. unfold state_in, mapping_or_empty. destruct (py_or _ _); try done. by intros Hs [= <-]. Qed.
Lemma leases_set s states : get (rg_extensions (with_leases s states)) LEASES = PDict states.
Proof. unfold with_leases. cbn [rg_extensions with_extensions with_revision]. by rewrite get_set, decide_True. Qed.
Lemma stored_some d q b s : stored_lease (mkRegistryState (Some d) q) b = Some s <-> state_in b (get d LEASES) = Ok s.
Proof. unfold stored_lease. cbn [rs_document]. destruct (state_in _ _); split; congruence. Qed.

#[export] Instance store_laws : LeaseRegistryLaws registry.
Proof.
  refine {| lr_lease := stored_lease |}.
  - intros env w b s x w' Hs [(a & w1 & E1 & E)|(e & E & ->)]%st_bind_cases.
    + injection E as <- <-. destruct (load_lease _ _ _ _ _ _ Hs E1) as [H1 H2]. split; [done|]. intros v [= <-]. by apply H2.
    + by destruct (load_lease _ _ _ _ _ _ Hs E).
  - intros env w b s t x w' Hs Ht E. assert (Hx : exists y, set_binding_effect_lease_state sha256_hex env b (state_value b t) None w = (y, w')
      /\ forall e, y = Raise e -> x = Raise e).
    { apply st_bind_cases in E as [(a & w1 & E1 & E)|(e & E & ->)]; [injection E as <- <-|]; eexists; split; [done..| |done|]; intros ? [=]; by subst. }
    destruct Hx as (y & Ey & Hy). apply set_lease in Ey as [[-> [e ->]]|(d & s' & states & u & p & Ed & Es & Em & Ev & Ep & ->)].
    + right. split; [done|]. exists e. by apply Hy.
    + left. destruct (registry_validates b t Ht) as (u' & Eu & Hu). rewrite Eu in Ev. injection Ev as ->. rewrite Hu in Ep.
      apply written_leases in Ep. rewrite leases_set in Ep. by apply (stored_written _ _ _ _ _ Ep).
  - intros env w b b' s v x w' N Hs E.
    assert (Hx : exists y, set_binding_effect_lease_state sha256_hex env b' v None w = (y, w'))
      by (apply st_bind_cases in E as [(a & w1 & E1 & E)|(e & E & ->)]; [injection E as <- <-|]; eauto).
    destruct Hx as (y & Ey). apply set_lease in Ey as [[-> _]|(d & s' & states & u & p & Ed & Es & Em & Ev & Ep & ->)]; [done|].
    apply written_leases in Ep. rewrite leases_set in Ep. apply (stored_kept _ _ _ _ _ _ _ N Ep).
    destruct w as [o q]. simpl in Ed. subst o. apply stored_some in Hs. by eapply kept_states.
Defined.

(** ** A registry that answers *)

Lemma frontmatter_leases s states k : k <> LEASES ->
  dict_get (_frontmatter_from_snapshot (with_leases s states)) k = dict_get (_frontmatter_from_snapshot s) k.
Proof.
  intros N. unfold _frontmatter_from_snapshot, dict_merge. cbn [fields_of foldl fst snd]. rewrite !dict_get_set.
  repeat (case_decide; [done|]). unfold with_leases. cbn [rg_extensions with_extensions with_revision]. by rewrite dict_get_set, decide_False by congruence.
Qed.
Lemma states_more {A} (r r' : list (string * A)) states : (forall k, dict_mem r k = true -> dict_mem r' k = true) ->
  lease_states_ok r states = Ok tt -> lease_states_ok r' states = Ok tt.
Proof.
  intros Hr. induction states as [|[k v] states IH]; simpl; [done|]. intros H. bound H as u1 E1. bound H as u2 E2.
  apply raise_if_ok, negb_false_iff, Hr in E1. rewrite E1. cbn [negb raise_if mbind res_bind]. rewrite E2. cbn [mbind res_bind]. auto.
Qed.
Lemma states_set {A} (r : list (string * A)) states b v u : dict_mem r b = true -> _validate_binding_effect_lease_state b v = Ok u ->
  lease_states_ok r states = Ok tt -> lease_states_ok r (dict_set states b v) = Ok tt.
Proof.
  intros Hb Hv. induction states as [|[k w] states IH]; simpl.
  - intros _. rewrite Hb. cbn [negb raise_if mbind res_bind]. by rewrite Hv.
  - intros H. bound H as u1 E1. bound H as u2 E2. destruct (String.eqb_spec b k) as [<-|N]; simpl.
    + rewrite Hb. cbn [negb raise_if mbind res_bind]. by rewrite Hv.
    + rewrite E1. cbn [mbind res_bind]. rewrite E2. cbn [mbind res_bind]. auto.
Qed.
Lemma mapped_states d states (r : list (string * VaultRegistration)) :
  mapping_or_empty (get d LEASES) "binding effect lease state must be a mapping" = Ok states ->
  _validate_binding_effect_lease_extension (without _REGISTRY_FIELDS d) r = Ok tt -> lease_states_ok r states = Ok tt.
Proof.
  unfold mapping_or_empty, _validate_binding_effect_lease_extension. rewrite get_without by done. unfold py_or.
  destruct (get d LEASES) as [| | | | | | |l]; simpl; try done; [by intros [= <-]|]. destruct l; [by intros [= <-]|]. simpl. by intros [= <-].
Qed.

(** The document holds a snapshot that could be written back. *)
Record ready (b : string) (w : registry) : Prop := {
  rd_session : rs_session w = false;
  rd_document : exists d s, rs_document w = Some d /\ yaml_norm_dict d = d /\ _snapshot_from_frontmatter sha256_hex (ce_root calm) d = Ok s
    /\ dict_mem (rg_registrations s) b = true
    /\ (exists s', _snapshot_from_frontmatter sha256_hex (ce_root calm) (_frontmatter_from_snapshot s) = Ok s')
    /\ exists e, _rollback_export_payload s None None = Ok e }.

Lemma plain_get d k : yaml_norm_dict d = d -> yaml_norm (get d k) = get d k.
Proof. intros E. rewrite <- E at 2. by rewrite get_yaml. Qed.
Lemma canonical_leases s states : canonical s -> yaml_norm_dict states = states -> canonical (with_leases s states).
Proof.
  intros [H1 H2 H3 H4 H5 H6 H7 H8 H9 H10] Hp. split; try done. apply beside_set; [done|done|]. cbn [yaml_norm]. fold (yaml_norm_dict states). by rewrite Hp.
Qed.
Lemma mapped_plain d states : yaml_norm_dict d = d ->
  mapping_or_empty (get d LEASES) "binding effect lease state must be a mapping" = Ok states -> yaml_norm_dict states = states.
Proof.
  intros Hd. apply (plain_get _ LEASES) in Hd. revert Hd. unfold mapping_or_empty, py_or. destruct (get d LEASES) as [| | | | | | |l]; cbn [yaml_norm];
    intros Hd; destruct (truthy _); try done; intros [= <-]; try done. by injection Hd.
Qed.

(** Storing a lease state leaves such a registry. *)
Lemma ready_leases b d s states t : dict_mem (rg_registrations s) b = true -> yaml_norm_dict d = d ->
  _snapshot_from_frontmatter sha256_hex (ce_root calm) d = Ok s ->
  (exists s', _snapshot_from_frontmatter sha256_hex (ce_root calm) (_frontmatter_from_snapshot s) = Ok s') ->
  mapping_or_empty (get d LEASES) "binding effect lease state must be a mapping" = Ok states -> well_formed t ->
  let s2 := with_leases s (dict_set states b (state_value b t)) in
  canonical s2 /\ _snapshot_from_frontmatter sha256_hex (ce_root calm) (_frontmatter_from_snapshot s2) = Ok (in_key_order s2).
Proof.
  intros Hb Hd Hs [s1 E1] Hm Ht s2. pose proof (parse_canonical _ _ _ _ Hd Hs) as Hc.
  assert (Hc2 : canonical s2).
  { apply canonical_leases; [done|]. rewrite yaml_set, (mapped_plain _ _ Hd Hm). f_equal. apply state_plain. }
  split; [done|]. pose proof (frontmatter_reads_back _ _ _ _ Hc E1) as ->.
  assert (H2 : exists s', _snapshot_from_frontmatter sha256_hex (ce_root calm) (_frontmatter_from_snapshot s2) = Ok s').
  { eapply parse_releases; [intros k Hk; by apply frontmatter_leases|exact E1|]. unfold _validate_binding_effect_lease_extension.
    rewrite get_without, frontmatter_other by done. unfold s2. rewrite leases_set. destruct (registry_validates b t Ht) as (u & Eu & _).
    assert (Hk : forall k, dict_mem (rg_registrations s) k = true -> dict_mem (rg_registrations (in_key_order s)) k = true)
      by (intros k; unfold dict_mem; cbn [rg_registrations in_key_order]; by rewrite dict_get_sort).
    eapply states_set; [by apply Hk|exact Eu|]. eapply states_more; [exact Hk|]. eapply mapped_states; [exact Hm|].
    by apply parse_parsed, pd_leases in Hs. }
  destruct H2 as [s' E2]. by rewrite E2, (frontmatter_reads_back _ _ _ _ Hc2 E2).
Qed.
Lemma export_leases s states p q : _rollback_export_payload (with_leases s states) p q = _rollback_export_payload s p q.
Proof.
  unfold _rollback_export_payload, with_leases. cbn [rg_extensions with_extensions with_revision rg_registrations rg_app_install_id
    rg_last_active_vault_ref rg_schema rg_revision]. by rewrite get_set, decide_False.
Qed.

Lemma begin_ready d s : _snapshot_from_frontmatter sha256_hex (ce_root calm) d = Ok s ->
  begin_update sha256_hex calm None (mkRegistryState (Some d) false) = (Ok s, mkRegistryState (Some d) false).
Proof.
  intros Hs. unfold begin_update, _assert_no_scalar_rollback_session_locked, guard_not, _read_current_locked, mbind, ST_bind, mret, ST_ret, st_lift, st_get.
  cbn [rs_session rs_document]. by rewrite Hs.
Qed.
Lemma commit_ready d s s' e : ce_write calm = Written ->
  existsb (String.eqb (rg_schema s)) SUPPORTED_REGISTRY_SCHEMAS = true ->
  existsb (String.eqb (rg_authority s)) [REGISTRY_AUTHORITY_DORMANT; REGISTRY_AUTHORITY_ACTIVE] = true ->
  _snapshot_from_frontmatter sha256_hex (ce_root calm) (_frontmatter_from_snapshot s) = Ok s' ->
  _rollback_export_payload s None None = Ok e ->
  commit sha256_hex calm s (mkRegistryState (Some d) false)
  = (Ok s, mkRegistryState (Some (yaml_norm_dict (_frontmatter_from_snapshot s))) false).
Proof.
  intros Hw H1 H2 Hp He. unfold commit, _write_locked, guard_not, _snapshot_payload. rewrite H1, H2, Hw. cbn [andb negb].
  unfold mbind, ST_bind, mret, ST_ret, st_lift. cbv beta. rewrite Hp. cbn [res_bind mbind]. by rewrite He.
Qed.
Lemma one_of_some o l : one_of o l = true -> existsb (String.eqb (default "" o)) l = true.
Proof. by destruct o. Qed.

Lemma stored_mapping b d s : state_in b (get d LEASES) = Ok s ->
  exists states, mapping_or_empty (get d LEASES) "binding effect lease state must be a mapping" = Ok states.
Proof. unfold state_in, mapping_or_empty. destruct (py_or _ _); try done. by eexists. Qed.
Lemma frontmatter_in_order s : _frontmatter_from_snapshot (in_key_order s) = _frontmatter_from_snapshot s.
Proof.
  unfold _frontmatter_from_snapshot, fields_of. cbn [in_key_order rg_extensions rg_schema rg_authority rg_revision rg_app_install_id
    rg_last_active_vault_ref rg_default_vault_binding_id rg_default_vault_provenance rg_registrations rg_removal_tombstones
    rg_transfer_lineage rg_settings_rebind]. by rewrite !sort_keys_idem.
Qed.

Context (b : string) (Hb : strip b <> "") (Hcap : ce_capability calm = true) (Hlock : ce_lock calm = None) (Hwr : ce_write calm = Written).

(** The call, down to the write. *)
Lemma set_reaches d sn states t r w' : well_formed t -> _snapshot_from_frontmatter sha256_hex (ce_root calm) d = Ok sn ->
  dict_mem (rg_registrations sn) b = true ->
  mapping_or_empty (get d LEASES) "binding effect lease state must be a mapping" = Ok states ->
  commit sha256_hex calm (with_leases sn (dict_set states b (state_value b t))) (mkRegistryState (Some d) false) = (Ok r, w') ->
  lr_set calm b (state_value b t) (mkRegistryState (Some d) false) = (Ok tt, w').
Proof.
  intros Ht Hs Hm Em E. destruct (registry_validates b t Ht) as (u & Eu & Hu). cbn [lr_set store_leases].
  unfold set_binding_effect_lease_state, _require_storage_mutation_capability, guard_not, _locked. rewrite Hcap, Hlock.
  rewrite (proj2 (String.eqb_neq _ _) Hb). cbn [negb]. unfold mbind, ST_bind, mret, ST_ret, st_lift. cbv beta. rewrite Eu, (begin_ready _ _ Hs), Hm. cbn [negb].
  rewrite (leases_of_snapshot _ _ _ Hs), Em, Hu. unfold with_leases in E. by rewrite E.
Qed.
Lemma ready_set w s t : ready b w -> stored_lease w b = Some s -> well_formed t ->
  exists w', lr_set calm b (state_value b t) w = (Ok tt, w') /\ ready b w'.
Proof.
  intros [Hq (d & sn & Ed & Hd & Hs & Hm & Hpay & e & He)] Hst Ht. destruct w as [o q]. simpl in Hq, Ed. subst o q.
  apply stored_some in Hst. destruct (stored_mapping _ _ _ Hst) as [states Em].
  destruct (ready_leases b d sn states t Hm Hd Hs Hpay Em Ht) as [Hc2 Hp2]. pose proof (parse_parsed _ _ _ _ Hs) as Hpd.
  assert (He2 : _rollback_export_payload (with_leases sn (dict_set states b (state_value b t))) None None = Ok e) by (by rewrite export_leases).
  eexists. split.
  - eapply set_reaches; [done..|]. eapply commit_ready; [done|..|exact Hp2|exact He2]; cbn [with_leases with_extensions with_revision rg_schema rg_authority].
    + rewrite (pd_schema_is _ _ Hpd). apply one_of_some, Hpd.
    + rewrite (pd_authority_is _ _ Hpd). apply one_of_some, Hpd.
  - set (s2 := with_leases _ _) in *. split; [done|]. exists (_frontmatter_from_snapshot s2), (in_key_order s2).
    rewrite (frontmatter_plain _ Hc2), frontmatter_in_order. do 3 (split; [done|]).
    split; [unfold dict_mem; cbn [rg_registrations in_key_order]; by rewrite dict_get_sort|]. split; [by eexists|].
    exists e. rewrite export_ordered by (by eapply parsed_refs). done.
Qed.
Lemma ready_load w s : ready b w -> stored_lease w b = Some s -> exists v, lr_load calm w = (Ok v, w) /\ state_in b v = Ok s.
Proof.
  intros [Hq (d & sn & Ed & Hd & Hs & _)] Hst. destruct w as [o q]. simpl in Hq, Ed. subst o q. apply stored_some in Hst.
  exists (get (rg_extensions sn) LEASES). cbn [lr_load store_leases]. unfold mbind, ST_bind, load, _locked. rewrite Hlock.
  unfold read_or_initialize, _read_current_locked. cbn [rs_document]. rewrite Hs. split; [done|]. by rewrite (leases_of_snapshot _ _ _ Hs).
Qed.
Lemma ready_served : served b (ready b).
Proof.
  intros w s Hr Hs. split.
  - destruct (ready_load w s Hr Hs) as (v & E & _). by exists v, w.
  - intros t Ht. by eapply ready_set.
Qed.

(** C17: The vault registry serves the effect leases.  A registry document that parses, in which the binding is registered and
    which could be written back, answers every undisturbed call of the leases: loading returns the stored lease state, storing
    a well-formed one succeeds, and what it leaves is such a document again, in which the state is the one stored and every
    other binding's is the old one. *)
Theorem store_serves_leases w s : ready b w -> stored_lease w b = Some s ->
  (exists v, lr_load calm w = (Ok v, w) /\ state_in b v = Ok s)
  /\ forall t, well_formed t -> exists w', lr_set calm b (state_value b t) w = (Ok tt, w') /\ ready b w'
     /\ stored_lease w' b = Some t /\ forall b' s', b' <> b -> stored_lease w b' = Some s' -> stored_lease w' b' = Some s'.
Proof.
  intros Hr Hs. split; [by apply ready_load|]. intros t Ht. destruct (ready_set w s t Hr Hs Ht) as (w' & E & Hr').
  exists w'. split; [done|]. split; [done|]. split.
  - destruct (@lr_set_law _ _ store_laws _ _ _ _ _ _ _ Hs Ht E) as [H|[_ [? ?]]]; done.
  - intros b' s' N Hs'. by apply (@lr_set_other _ _ store_laws _ _ _ _ _ _ _ _ (not_eq_sym N) Hs' E).
Qed.
End Store.

(** ** Runs *)

Module LeaseRun.
Abbreviation sha := RegistryRun.sha.
Abbreviation env := RegistryRun.env.
#[local] Existing Instance store_leases.
#[local] Existing Instance store_laws.

Inductive move : Type := Arrive (rq : request) | Go (h : string) (ticks : list (lease_tick (LR := store_leases sha env))) | Lose (l : lost).
Abbreviation sys := (system registry).

Definition new_holder (rq : request) (sy : sys) : bool :=
  bool_decide (sy_attempts sy !! rq_holder rq = None) && bool_decide (w_activity (sy_world sy) !! rq_holder rq = None)
  && match stored_lease (w_registry (sy_world sy)) "b1" with
     | Some s => bool_decide (rq_holder rq ∉ ids (le_holders s))
     | None => true
     end
  && negb (String.eqb (strip (rq_holder rq)) "") && (0 <? rq_pid rq) && negb (String.eqb (strip (rq_process_start rq)) "").
Definition play (sy : sys) (m : move) : sys :=
  match m with
  | Arrive rq => if new_holder rq sy then mkSystem (sy_world sy) (<[rq_holder rq := arriving rq]> (sy_attempts sy)) else sy
  | Go h ticks =>
      match sy_attempts sy !! h with
      | Some a => let '(a', w') := round (LR := store_leases sha env) "b1" (sy_attempts sy) a ticks (sy_world sy) in
                  mkSystem w' (<[h := a']> (sy_attempts sy))
      | None => sy
      end
  | Lose l => mkSystem (lose (living (sy_attempts sy)) l (sy_world sy)) (sy_attempts sy)
  end.
Abbreviation steps := (rtc (lease_step (LR := store_leases sha env) (LRL := store_laws sha env) "b1")).
Lemma play_steps sy m : steps sy (play sy m).
Proof.
  destruct sy as [w a]. destruct m as [rq|h ticks|l]; simpl.
  - destruct (new_holder rq (mkSystem w a)) eqn:E; [|constructor]. unfold new_holder in E. simpl in E. bool_prop.
    apply rtc_once. constructor; [done| |].
    + split; [done|]. intros s Hs. cbn in Hs. rewrite Hs in *. by bool_prop.
    + by split; [|split; [lia|]].
  - destruct (a !! h) as [x|] eqn:E; [|constructor]. destruct (round _ _ _ _ _) as [x' w'] eqn:Er. apply rtc_once. by econstructor.
  - apply rtc_once. constructor.
Qed.
Lemma plays_steps l : forall sy, steps sy (foldl play sy l).
Proof. induction l as [|m l IH]; intros sy; simpl; [constructor|]. etransitivity; [apply play_steps|apply IH]. Qed.

Definition start : sys := mkSystem (mkWorld None None (snd RegistryRun.opened_first) ∅ ∅) ∅.
Lemma start_at_rest : at_rest (LRL := store_laws sha env) "b1" start.
Proof. split; [done|]. split; [done|]. exists _empty_state. split; [vm_compute; reflexivity|]. split; [|split; [|by left]]; by repeat constructor. Qed.

Definition reader (h : string) : request := mkRequest h false 10 "s".
Definition writer (h : string) : request := mkRequest h true 11 "s".
Abbreviation reach l := (foldl play start l).
Lemma reach_steps l : steps start (mkSystem (sy_world (reach l)) (sy_attempts (reach l))).
Proof. pose proof (plays_steps l start) as H. by destruct (reach l). Qed.
Definition phase_of (sy : sys) (h : string) : option phase := at_phase <$> sy_attempts sy !! h.
Definition attempt_of (sy : sys) (h : string) : attempt := default (arriving (reader h)) (sy_attempts sy !! h).

(** Two readers at the same time. *)
Definition two_readers : list move := [Arrive (reader "r1"); Go "r1" []; Arrive (reader "r2"); Go "r2" []].
Lemma effect_windows_exclude_run :
  (phase_of (reach two_readers) "r1" = Some Held /\ phase_of (reach two_readers) "r2" = Some Held)
  /\ exists s, stored_lease (w_registry (sy_world (reach two_readers))) "b1" = Some s /\ "r1" ∈ ids (le_shared s) /\ "r2" ∈ ids (le_shared s).
Proof.
  split; [split; vm_compute; reflexivity|].
  destruct (effect_windows_exclude (LRL := store_laws sha env) "b1" start (reach two_readers) "r1" "r2"
    (attempt_of (reach two_readers) "r1") (attempt_of (reach two_readers) "r2") start_at_rest (plays_steps two_readers start)
    ltac:(discriminate) ltac:(vm_compute; reflexivity) ltac:(vm_compute; reflexivity) ltac:(vm_compute; reflexivity) ltac:(vm_compute; reflexivity))
    as [_ (s & H1 & H2 & H3 & _)]. exists s. split; [exact H1|]. split; [exact H2|exact H3].
Defined.

(** A writer queues behind a reader, another writer behind it; the reader leaves. *)
Definition queue_up : list move :=
  [Arrive (reader "r1"); Go "r1" []; Arrive (writer "w1"); Go "w1" []; Arrive (writer "w2"); Go "w2" []; Go "w1" []; Go "r1" []; Lose (LostGate "r1"); Go "w2" []].
Definition w1_enters := Eval vm_compute in
  round (LR := store_leases sha env) "b1" (sy_attempts (reach queue_up)) (attempt_of (reach queue_up) "w1") [] (sy_world (reach queue_up)).
Lemma effect_windows_in_turn_run :
  phase_of (reach queue_up) "w2" = Some Waiting /\ at_phase (fst w1_enters) = Held
  /\ turn (sy_attempts (reach queue_up)) (at_request (attempt_of (reach queue_up) "w1")) (at_locals (attempt_of (reach queue_up) "w1")).
Proof.
  split; [vm_compute; reflexivity|]. split; [vm_compute; reflexivity|].
  refine (effect_windows_in_turn (LRL := store_laws sha env) "b1" start (sy_world (reach queue_up)) (sy_attempts (reach queue_up)) "w1"
    (attempt_of (reach queue_up) "w1") [] (fst w1_enters) (snd w1_enters) start_at_rest (reach_steps queue_up) _ _ _ _); vm_compute; reflexivity.
Defined.

(** A writer dies when the registry lists it, before it removes its journal; its lock is lost and a reader comes. *)
Definition dies_after (n : nat) : list (lease_tick (LR := store_leases sha env)) := repeat (mkTick [] lr_calm Happens) n ++ [mkTick [] lr_calm Dies].
Definition interrupted : list move :=
  [Arrive (writer "w1"); Go "w1" (dies_after 22); Lose (LostActivity "w1"); Arrive (reader "r1")].
Lemma left_behind : w_journal (sy_world (reach interrupted)) <> None
  /\ (fun s => ids (le_pending s)) <$> stored_lease (w_registry (sy_world (reach interrupted))) "b1" = Some ["w1"]
  /\ phase_of (reach interrupted) "w1" = Some Gone.
Proof. vm_compute. split; [discriminate|]. split; reflexivity. Qed.
Lemma interrupted_quiet : quiet (mkSystem (sy_world (reach interrupted)) (sy_attempts (reach interrupted))).
Proof.
  split; cbn [sy_world sy_attempts].
  - assert (H : map_Forall (fun (_ : string) x => x = false) (w_activity (sy_world (reach interrupted)))) by (apply (bool_decide_unpack _); vm_compute; exact I).
    intros h Hh. discriminate (H h true Hh).
  - assert (H : w_gate (sy_world (reach interrupted)) = ∅) by (vm_compute; reflexivity). intros h k Hk. rewrite H, lookup_empty in Hk. discriminate Hk.
Qed.
Lemma interrupted_ready : ready sha env "b1" (w_registry (sy_world (reach interrupted))).
Proof.
  split; [vm_compute; reflexivity|]. eexists _, _. split; [vm_compute; reflexivity|]. split; [vm_compute; reflexivity|].
  split; [vm_compute; reflexivity|]. split; [vm_compute; reflexivity|]. split; eexists; vm_compute; reflexivity.
Qed.
Lemma interrupted_turn : turn (sy_attempts (reach interrupted)) (reader "r1") no_locals.
Proof.
  assert (H : map_Forall (fun (_ : string) a => (at_phase a = Waiting \/ at_phase a = Held) -> rq_exclusive (at_request a) = false)
    (sy_attempts (reach interrupted))) by (apply (bool_decide_unpack _); vm_compute; exact I). exact H.
Qed.
Lemma effect_leases_progress_run :
  at_phase (fst (round (LR := store_leases sha env) "b1" (sy_attempts (reach interrupted)) (attempt_of (reach interrupted) "r1") []
    (sy_world (reach interrupted)))) = Held.
Proof.
  destruct (effect_leases_progress (LRL := store_laws sha env) "b1" (ready sha env "b1") start (sy_world (reach interrupted))
    (sy_attempts (reach interrupted)) "r1" (attempt_of (reach interrupted) "r1") start_at_rest (reach_steps interrupted) interrupted_quiet
    (ready_served sha env "b1" ltac:(discriminate) eq_refl eq_refl eq_refl) interrupted_ready ltac:(vm_compute; reflexivity)) as (_ & H & _).
  apply H; [vm_compute; reflexivity|exact interrupted_turn].
Defined.
Lemma store_serves_leases_run : exists v, lr_load (LeaseRegistry := store_leases sha env) env (w_registry (sy_world (reach interrupted)))
  = (Ok v, w_registry (sy_world (reach interrupted))).
Proof.
  destruct (store_serves_leases sha env "b1" ltac:(discriminate) eq_refl eq_refl eq_refl (w_registry (sy_world (reach interrupted))) 
    (default _empty_state (stored_lease (w_registry (sy_world (reach interrupted))) "b1")) interrupted_ready ltac:(vm_compute; reflexivity))
    as [(v & Hv & _) _]. exists v. exact Hv.
Defined.

(** A lease that was taken and given back: the binding stays listed without holders, and from then on its registration
    can be removed by an ownership transfer only. *)
Definition taken_and_left : list move := [Arrive (reader "r1"); Go "r1" []; Go "r1" []; Lose (LostGate "r1")].
Lemma removal_after_a_lease_fails :
  stored_lease (w_registry (sy_world (reach taken_and_left))) "b1" = Some (mkLease 2 2 [] [] None)
  /\ (exists s, fst (remove_registration sha env "b1" None true None None (snd RegistryRun.opened_first)) = Ok s)
  /\ fst (remove_registration sha env "b1" None true None None (w_registry (sy_world (reach taken_and_left))))
     = Raise (RegistryError "binding effect lease state names an unknown binding").
Proof. split; [vm_compute; reflexivity|]. split; [eexists|]; vm_compute; reflexivity. Qed.
End LeaseRun.
