(* ===== verification/DispatcherStore.v ===== *)
(** * The dispatcher store (src/app/dispatcher/{models,store,events}.py)

    The state of the dispatcher: the SQLite tables [dispatcher_tasks],
    [dispatcher_leases], [dispatcher_events] and [dispatcher_meta], the JSONL
    audit mirror, and the sidecar files of the cleanup guards.  A JSON column
    is the value its text parses to ([jtext]).

    A transaction ([BEGIN IMMEDIATE] in a [with conn] block) is [transaction]:
    an exception restores the tables and keeps what happened outside the
    database.  Because [BEGIN IMMEDIATE] takes the write lock, a transaction is
    one step; operations made of several transactions are sequences of steps.

    The clock readings ([datetime.now]) and [uuid4().hex] texts an operation
    draws are its arguments, in the order the code draws them.

    Not modelled: schema migrations ([_ensure_schema] on an old database) and
    the verification tables. *)
From S2P Require Import Prelude PyValue PyTime Sql.

(** ** Records (models.py) *)

(** [TaskRecord], and a row of [dispatcher_tasks]: they differ in the type of
    the two JSON columns. *)
Record TaskOf (R S : Type) : Type := mkTask {
  task_id : string;
  issue_number : Z;
  title : string;
  status : string;
  priority : string;
  source_anchor_refs : R;
  created_at : string;
  updated_at : string;
  repo : string;
  claimed_by : option string;
  lease_id : option string;
  lease_expires_at : option string;
  linked_pr : option string;
  blocked_reason : option string;
  last_heartbeat_at : option string;
  sync_state : S }.
Arguments mkTask {R S}.
Arguments task_id {R S}. Arguments issue_number {R S}. Arguments title {R S}.
Arguments status {R S}. Arguments priority {R S}. Arguments source_anchor_refs {R S}.
Arguments created_at {R S}. Arguments updated_at {R S}. Arguments repo {R S}.
Arguments claimed_by {R S}. Arguments lease_id {R S}. Arguments lease_expires_at {R S}.
Arguments linked_pr {R S}. Arguments blocked_reason {R S}.
Arguments last_heartbeat_at {R S}. Arguments sync_state {R S}.

(** A nullable TEXT column that holds JSON: NULL, the empty text, a document,
    or a text [json.loads] rejects. *)
Inductive jtext : Type := JNull | JEmpty | JDoc (v : pyval) | JBad.

Abbreviation TaskRecord := (TaskOf (list pyval) pyval).
Abbreviation TaskRow := (TaskOf jtext jtext).

Record LeaseRecord : Type := mkLease {
  ls_lease_id : string;
  ls_resource : string;
  ls_holder : string;
  ls_ttl_seconds : Z;
  ls_acquired_at : string;
  ls_expires_at : string;
  ls_heartbeat_at : option string;
  ls_released_at : option string;
  ls_release_reason : option string }.

Record EventOf (P : Type) : Type := mkEvent {
  ev_event_id : string;
  ev_timestamp : string;
  ev_task_id : string;
  ev_event_type : string;
  ev_actor : string;
  ev_lease_id : option string;
  ev_payload : P }.
Arguments mkEvent {P}.
Arguments ev_event_id {P}. Arguments ev_timestamp {P}. Arguments ev_task_id {P}.
Arguments ev_event_type {P}. Arguments ev_actor {P}. Arguments ev_lease_id {P}.
Arguments ev_payload {P}.

Abbreviation EventRecord := (EventOf pyval).
Abbreviation EventRow := (EventOf jtext).

#[export] Instance jtext_eq_dec : EqDecision jtext.
Proof. solve_decision. Defined.
#[export] Instance TaskOf_eq_dec {R S} `{EqDecision R, EqDecision S} : EqDecision (TaskOf R S).
Proof. solve_decision. Defined.
#[export] Instance LeaseRecord_eq_dec : EqDecision LeaseRecord.
Proof. solve_decision. Defined.
#[export] Instance EventOf_eq_dec {P} `{EqDecision P} : EqDecision (EventOf P).
Proof. solve_decision. Defined.

(** Assignments to the fields of a task. *)
Section setters.
Context {R S : Type}.
Implicit Types t : TaskOf R S.

(** The lease fields, written together by every lease operation. *)
Definition set_lease (l by_ exp hb : option string) t : TaskOf R S :=
  mkTask (task_id t) (issue_number t) (title t) (status t) (priority t)
    (source_anchor_refs t) (created_at t) (updated_at t) (repo t) by_ l exp
    (linked_pr t) (blocked_reason t) hb (sync_state t).
Definition set_status (s : string) t : TaskOf R S :=
  mkTask (task_id t) (issue_number t) (title t) s (priority t)
    (source_anchor_refs t) (created_at t) (updated_at t) (repo t) (claimed_by t)
    (lease_id t) (lease_expires_at t) (linked_pr t) (blocked_reason t)
    (last_heartbeat_at t) (sync_state t).
Definition set_blocked_reason (b : option string) t : TaskOf R S :=
  mkTask (task_id t) (issue_number t) (title t) (status t) (priority t)
    (source_anchor_refs t) (created_at t) (updated_at t) (repo t) (claimed_by t)
    (lease_id t) (lease_expires_at t) (linked_pr t) b
    (last_heartbeat_at t) (sync_state t).
Definition set_sync_state (v : S) t : TaskOf R S :=
  mkTask (task_id t) (issue_number t) (title t) (status t) (priority t)
    (source_anchor_refs t) (created_at t) (updated_at t) (repo t) (claimed_by t)
    (lease_id t) (lease_expires_at t) (linked_pr t) (blocked_reason t)
    (last_heartbeat_at t) v.
Definition set_updated_at (u : string) t : TaskOf R S :=
  mkTask (task_id t) (issue_number t) (title t) (status t) (priority t)
    (source_anchor_refs t) (created_at t) u (repo t) (claimed_by t)
    (lease_id t) (lease_expires_at t) (linked_pr t) (blocked_reason t)
    (last_heartbeat_at t) (sync_state t).
Definition set_linked_pr (p : option string) t : TaskOf R S :=
  mkTask (task_id t) (issue_number t) (title t) (status t) (priority t)
    (source_anchor_refs t) (created_at t) (updated_at t) (repo t) (claimed_by t)
    (lease_id t) (lease_expires_at t) p (blocked_reason t)
    (last_heartbeat_at t) (sync_state t).
End setters.

(** ** State *)

Record Db : Type := mkDb {
  db_tasks : list TaskRow;
  db_leases : list LeaseRecord;
  db_events : list EventRow;
  db_meta : list (string * jtext) }.

(** The database file: absent, present without tables, or initialized. *)
Inductive database : Type := NoFile | NoSchema | Ready (d : Db).

(** A cleanup-guard record path: a symlink, or a file with its parsed JSON
    ([None]: unreadable or not JSON).  A path with no entry does not exist. *)
Inductive guard_file : Type := GSymlink | GFile (v : option pyval).

(** [store._event_writer]: absent, or present and its append works or fails. *)
Inductive writer : Type := NoWriter | WriterOk | WriterFails.

Record World : Type := mkWorld {
  w_db : database;
  w_files : gmap string guard_file;
  w_jsonl : list EventRecord;
  w_writer : writer }.

Abbreviation M := (ST World).

Definition set_db (d : database) (w : World) : World :=
  mkWorld d (w_files w) (w_jsonl w) (w_writer w).
Definition set_files (f : gmap string guard_file) (w : World) : World :=
  mkWorld (w_db w) f (w_jsonl w) (w_writer w).

(** ** Connections, transactions and statements *)

(** [store._connect()] creates an empty file when there is none. *)
Definition connect (w : World) : World :=
  match w_db w with NoFile => set_db NoSchema w | _ => w end.

(** [with store._connect() as conn: BEGIN IMMEDIATE; body]: the tables of an
    exception's transaction are rolled back. *)
Definition transaction {A} (body : M A) : M A := fun w =>
  let w0 := connect w in
  match body w0 with
  | (Ok a, w1) => (Ok a, w1)
  | (Raise e, w1) => (Raise e, set_db (w_db w0) w1)
  end.

Definition no_such_table : exn := OtherException "OperationalError: no such table".

(** A statement: fails without tables. *)
Definition stmt {A} (f : Db -> res (A * Db)) : M A := fun w =>
  match w_db w with
  | Ready d =>
      match f d with
      | Ok (a, d) => (Ok a, set_db (Ready d) w)
      | Raise e => (Raise e, w)
      end
  | _ => (Raise no_such_table, w)
  end.

Definition query {A} (f : Db -> A) : M A := stmt (fun d => Ok (f d, d)).

Definition select_task (id : string) : M (option TaskRow) :=
  query (fun d => select_by task_id id (db_tasks d)).
Definition select_lease (id : string) : M (option LeaseRecord) :=
  query (fun d => select_by ls_lease_id id (db_leases d)).
Definition select_meta (k : string) : M (option jtext) :=
  query (fun d => snd <$> select_by fst k (db_meta d)).

(** [UPDATE]: the result is [rowcount]. *)
Definition update_tasks (p : TaskRow -> bool) (f : TaskRow -> TaskRow) : M nat :=
  stmt (fun d => Ok (count_where p (db_tasks d),
    mkDb (update_where p f (db_tasks d)) (db_leases d) (db_events d) (db_meta d))).
Definition update_leases (p : LeaseRecord -> bool) (f : LeaseRecord -> LeaseRecord) : M nat :=
  stmt (fun d => Ok (count_where p (db_leases d),
    mkDb (db_tasks d) (update_where p f (db_leases d)) (db_events d) (db_meta d))).

(** [INSERT]: the primary key must be new. *)
Definition insert_lease (l : LeaseRecord) : M unit :=
  stmt (fun d => match select_by ls_lease_id (ls_lease_id l) (db_leases d) with
    | Some _ => Raise (IntegrityError "UNIQUE constraint failed: dispatcher_leases.lease_id")
    | None => Ok (tt, mkDb (db_tasks d) (db_leases d ++ [l]) (db_events d) (db_meta d))
    end).
Definition insert_event (e : EventRow) : M unit :=
  stmt (fun d => match select_by ev_event_id (ev_event_id e) (db_events d) with
    | Some _ => Raise (IntegrityError "UNIQUE constraint failed: dispatcher_events.event_id")
    | None => Ok (tt, mkDb (db_tasks d) (db_leases d) (db_events d ++ [e]) (db_meta d))
    end).

Definition upsert_meta (k : string) (v : jtext) : M unit :=
  stmt (fun d => Ok (tt, mkDb (db_tasks d) (db_leases d) (db_events d)
    (upsert fst (fun _ => (k, v)) (k, v) (db_meta d)))).
Definition delete_meta (k : string) : M nat :=
  stmt (fun d => Ok (count_where (fun r => String.eqb (fst r) k) (db_meta d),
    mkDb (db_tasks d) (db_leases d) (db_events d) (delete_by fst k (db_meta d)))).
Definition update_meta (k : string) (v : jtext) : M nat :=
  stmt (fun d => Ok (count_where (fun r => String.eqb (fst r) k) (db_meta d),
    mkDb (db_tasks d) (db_leases d) (db_events d)
      (update_where (fun r => String.eqb (fst r) k) (fun _ => (k, v)) (db_meta d)))).

(** ** store.py: JSON columns and timestamps *)

Definition _dumps (value : pyval) : jtext :=
  match value with PNone => JNull | v => JDoc (json_norm v) end.

Definition json_decode_error : exn := ValueError "JSONDecodeError".

Definition _loads (value : jtext) : res pyval :=
  match value with
  | JNull | JEmpty => Ok PNone
  | JDoc v => Ok v
  | JBad => Raise json_decode_error
  end.

(** An aware datetime with its instant, or [None]. *)
Definition _parse_sync_timestamp (value : pyval) : option Z :=
  match value with
  | PStr s => match fromisoformat (replace_Z s) with Some d => instant d | None => None end
  | _ => None
  end.

(** [JsonlEventWriter.append] on [store._event_writer], when there is one. *)
Definition mirror (e : EventRecord) : M unit := fun w =>
  match w_writer w with
  | NoWriter => (Ok tt, w)
  | WriterOk => (Ok tt, mkWorld (w_db w) (w_files w) (w_jsonl w ++ [e]) (w_writer w))
  | WriterFails => (Raise (OSError "event mirror"), w)
  end.

Definition event_row (e : EventRecord) : EventRow :=
  mkEvent (ev_event_id e) (ev_timestamp e) (ev_task_id e) (ev_event_type e) (ev_actor e)
    (ev_lease_id e) (_dumps (ev_payload e)).

(** ** [SqliteStore] *)

Definition get_meta (k : string) : M (option jtext) := transaction (select_meta k).
Definition set_meta (k : string) (v : jtext) : M unit := transaction (upsert_meta k v).

(** [list(_loads(text) or [])]. *)
Definition load_refs (t : jtext) : res (list pyval) :=
  v ← _loads t;
  if truthy v then py_iter v else Ok [].

Definition _row_to_task (r : TaskRow) : res TaskRecord :=
  refs ← load_refs (source_anchor_refs r);
  sync ← _loads (sync_state r);
  Ok (mkTask (task_id r) (issue_number r) (title r) (status r) (priority r) refs
        (created_at r) (updated_at r) (repo r) (claimed_by r) (lease_id r)
        (lease_expires_at r) (linked_pr r) (blocked_reason r) (last_heartbeat_at r) sync).

Definition task_row (t : TaskRecord) : TaskRow :=
  mkTask (task_id t) (issue_number t) (title t) (status t) (priority t)
    (_dumps (PList (source_anchor_refs t))) (created_at t) (updated_at t) (repo t)
    (claimed_by t) (lease_id t) (lease_expires_at t) (linked_pr t) (blocked_reason t)
    (last_heartbeat_at t) (_dumps (sync_state t)).

(** The conflict clause writes every column but the key and [created_at]. *)
Definition overwrite_row (new old : TaskRow) : TaskRow :=
  mkTask (task_id old) (issue_number new) (title new) (status new) (priority new)
    (source_anchor_refs new) (created_at old) (updated_at new) (repo new) (claimed_by new)
    (lease_id new) (lease_expires_at new) (linked_pr new) (blocked_reason new)
    (last_heartbeat_at new) (sync_state new).

Definition _upsert_task_in_transaction (t : TaskRecord) : M unit :=
  stmt (fun d => Ok (tt, mkDb
    (upsert task_id (overwrite_row (task_row t)) (task_row t) (db_tasks d))
    (db_leases d) (db_events d) (db_meta d))).

Definition upsert_task (t : TaskRecord) : M unit :=
  transaction (_upsert_task_in_transaction t).

(** ** [upsert_synced_task]: a GitHub snapshot never overwrites a claim *)

Record SyncedTaskWriteResult : Type := mkSynced {
  sw_task : TaskRecord;
  sw_state_transition_applied : bool }.

Definition dict_or_empty (v : pyval) : pydict := match v with PDict d => d | _ => [] end.

(** [a is not None and b is not None and a > b]. *)
Definition later (a b : option Z) : bool :=
  match a, b with Some a, Some b => (b <? a)%Z | _, _ => false end.

(** The ready-scan invalidation is cleared only by a newer validated ready
    observation; otherwise the snapshot's pull time is dropped. *)
Definition ready_fence (ready_issue_observed : bool) (existing incoming : pydict) : pydict :=
  let invalidated_at := get existing "ready_scan_invalidated_at" in
  if is_none invalidated_at then incoming
  else if ready_issue_observed
          && later (_parse_sync_timestamp (get incoming "last_pull_at"))
                   (_parse_sync_timestamp invalidated_at)
  then dict_pop incoming "ready_scan_invalidated_at"
  else dict_set (dict_pop incoming "last_pull_at") "ready_scan_invalidated_at" invalidated_at.

Definition may_reopen_terminal (ready_issue_observed : bool) (existing incoming : pydict)
    : bool :=
  let terminal_protected_at := get existing "terminal_state_protected_at" in
  negb (is_none terminal_protected_at)
  && ready_issue_observed
  && later (_parse_sync_timestamp (get incoming "last_pull_at"))
           (_parse_sync_timestamp terminal_protected_at).

Definition terminal_fence (ready_issue_observed : bool) (existing incoming : pydict)
    : pydict :=
  let terminal_protected_at := get existing "terminal_state_protected_at" in
  if is_none terminal_protected_at then incoming
  else if may_reopen_terminal ready_issue_observed existing incoming
  then dict_pop incoming "terminal_state_protected_at"
  else dict_set (dict_pop incoming "last_pull_at")
         "terminal_state_protected_at" terminal_protected_at.

Definition state_pair : Type := string * option string.

(** [preserve_lifecycle_state]. *)
Definition preserve_lifecycle_state (expected_state : option state_pair)
    (fenced : bool) (existing : TaskRow) : bool :=
  negb (match expected_state with
        | None => true
        | Some st => bool_decide (st = (status existing, blocked_reason existing))
        end)
  || fenced
  || existsb (String.eqb (status existing)) ["claimed"; "in_progress"]
  || match lease_id existing with Some _ => true | None => false end.

(** What is written over an existing row, and whether the expected transition
    was applied. *)
Definition merge_synced (ready_issue_observed : bool) (expected_state : option state_pair)
    (existing : TaskRow) (task : TaskRecord) : res (TaskRecord * bool) :=
  stored ← _loads (sync_state existing);
  let existing_sync := dict_or_empty stored in
  let incoming := ready_fence ready_issue_observed existing_sync
                    (dict_or_empty (sync_state task)) in
  let reopen := may_reopen_terminal ready_issue_observed existing_sync incoming in
  let terminal_fenced := negb (is_none (get existing_sync "terminal_state_protected_at")) in
  let incoming := terminal_fence ready_issue_observed existing_sync incoming in
  let persisted :=
    if negb (is_none (get existing_sync "ready_scan_invalidated_at")) || terminal_fenced
    then set_sync_state (PDict incoming) task else task in
  let preserve :=
    preserve_lifecycle_state expected_state (terminal_fenced && negb reopen) existing in
  let applied :=
    match expected_state with
    | Some st =>
        bool_decide (st = (status existing, blocked_reason existing))
        && negb preserve
        && negb (bool_decide ((status existing, blocked_reason existing)
                              = (status task, blocked_reason task)))
    | None => false
    end in
  let persisted :=
    if preserve then
      set_blocked_reason (blocked_reason existing)
        (set_status (status existing)
          (set_lease (lease_id existing) (claimed_by existing) (lease_expires_at existing)
             (last_heartbeat_at existing) persisted))
    else persisted in
  Ok (persisted, applied).

Definition upsert_synced_task (task : TaskRecord) (ready_issue_observed : bool)
    (expected_state : option state_pair) : M SyncedTaskWriteResult :=
  transaction (
    existing ← select_task (task_id task);
    match existing, expected_state with
    | None, Some _ => mret (mkSynced task false)
    | None, None =>
        _ ← _upsert_task_in_transaction task;
        mret (mkSynced task false)
    | Some row, _ =>
        '(persisted, applied) ← st_lift (merge_synced ready_issue_observed expected_state row task);
        _ ← _upsert_task_in_transaction persisted;
        mret (mkSynced persisted applied)
    end).

Definition get_task (id : string) : M (option TaskRecord) :=
  row ← transaction (select_task id);
  match row with
  | None => mret None
  | Some r => t ← st_lift (_row_to_task r); mret (Some t)
  end.

Definition upsert_lease (l : LeaseRecord) : M unit :=
  transaction (stmt (fun d => Ok (tt, mkDb (db_tasks d)
    (upsert ls_lease_id (fun _ => l) l (db_leases d)) (db_events d) (db_meta d)))).

Definition get_lease (id : string) : M (option LeaseRecord) :=
  transaction (select_lease id).

Definition append_event (e : EventRecord) : M unit :=
  _ ← transaction (insert_event (event_row e));
  mirror e.

(** [ORDER BY a DESC, b DESC] on texts. *)
Definition desc2 {A} (f g : A -> string) (x y : A) : bool :=
  match String.compare (f x) (f y) with
  | Gt => true
  | Lt => false
  | Eq => String.leb (g y) (g x)
  end.
Definition asc2 {A} (f g : A -> string) (x y : A) : bool := desc2 f g y x.

Definition opt_eqb (o : option string) (s : string) : bool :=
  match o with Some o => String.eqb o s | None => true end.

Definition list_tasks (st rp : option string) : M (list TaskRecord) :=
  rows ← transaction (query (fun d =>
    order_by (desc2 updated_at created_at)
      (List.filter (fun r => opt_eqb st (status r) && opt_eqb rp (repo r)) (db_tasks d))));
  st_lift (mapM_res _row_to_task rows).

Definition load_event (r : EventRow) : res EventRecord :=
  p ← _loads (ev_payload r);
  Ok (mkEvent (ev_event_id r) (ev_timestamp r) (ev_task_id r) (ev_event_type r)
        (ev_actor r) (ev_lease_id r) p).

Definition list_events (id : option string) : M (list EventRecord) :=
  rows ← transaction (query (fun d =>
    order_by (asc2 ev_timestamp ev_event_id)
      (List.filter (fun r => opt_eqb id (ev_task_id r)) (db_events d))));
  st_lift (mapM_res load_event rows).
