(* ===== verification/Leases.v ===== *)
(** * Leases and cleanup guards (src/app/dispatcher/leases.py)

    Claiming a task under a lease, renewing, releasing and reclaiming it, and
    the cleanup guards that keep claims away from a task being cleaned up.  A
    guard is kept twice, as a [dispatcher_meta] row and as a sidecar file whose
    name is a digest of the task id ([Sha256] stands for [hashlib.sha256]). *)
From S2P Require Import Prelude PyValue PyTime Sql DispatcherStore.

(** ** Clock, identifiers, expiry *)

(** [_utc_now()] at a clock reading. *)
Definition _utc_now (now_us : Z) : string := isoformat_us (utc now_us).
(** Identifiers from a drawn [uuid4().hex]. *)
Definition _make_lease_id (hex : string) : string := "lease-" +:+ str_take 8 hex.
Definition _make_event_id (hex : string) : string := "evt-" +:+ str_take 8 hex.

Definition _parse_rfc3339 (timestamp_str : string) : res datetime :=
  match fromisoformat (replace_Z timestamp_str) with
  | Some d => Ok d
  | None => Raise (ValueError "Invalid isoformat string")
  end.

Definition overflow_error : exn := OtherException "OverflowError: date value out of range".

(** [_expires_at(ttl_seconds, now=now)]. *)
Definition _expires_at (ttl_seconds : Z) (now : string) : res string :=
  current ← _parse_rfc3339 now;
  let us := (dt_us current + ttl_seconds * 1000000)%Z in
  if ((0 <=? us) && (us <? max_us))%Z
  then Ok (isoformat_s (mkDatetime us (dt_offset current)))
  else Raise overflow_error.

(** [_parse_rfc3339(a) <= _parse_rfc3339(b)]. *)
Definition rfc3339_le (a b : string) : res bool :=
  x ← _parse_rfc3339 a;
  y ← _parse_rfc3339 b;
  datetime_le x y.

(** ** Cleanup guards *)

Record CleanupGuard : Type := mkGuard {
  g_task_id : string;
  g_owner : string;
  g_token : string;
  g_expires_at : string }.

#[export] Instance CleanupGuard_eq_dec : EqDecision CleanupGuard.
Proof. solve_decision. Defined.

Definition guard_dict (g : CleanupGuard) : pydict :=
  [("task_id", PStr (g_task_id g)); ("owner", PStr (g_owner g));
   ("token", PStr (g_token g)); ("expires_at", PStr (g_expires_at g))].

Definition _cleanup_guard_key (task_id : string) : string := "cleanup-guard:task:" +:+ task_id.

Definition guard_error (task_id what : string) : exn :=
  ValueError ("Cleanup guard for task " +:+ task_id +:+ what).

Definition nonempty_str (v : pyval) : option string :=
  match v with PStr s => if String.eqb s "" then None else Some s | _ => None end.

Definition _validated_cleanup_guard (value : pyval) (task_id : string) : res CleanupGuard :=
  let malformed := Raise (guard_error task_id " is malformed") in
  match value with
  | PDict d =>
      if negb (py_eqb (get d "task_id") (PStr task_id)) then malformed
      else match nonempty_str (get d "owner"), nonempty_str (get d "token"),
                 get d "expires_at" with
           | Some owner, Some token, PStr expires => Ok (mkGuard task_id owner token expires)
           | _, _, _ => malformed
           end
  | _ => malformed
  end.

(** The expiry test of both readers: a [ValueError] of the parser is rewritten. *)
Definition guard_expired (g : CleanupGuard) (now : string) : res bool :=
  match rfc3339_le (g_expires_at g) now with
  | Raise (ValueError _) => Raise (guard_error (g_task_id g) " has invalid expiry")
  | r => r
  end.

Class Sha256 : Type := sha256_hexdigest : string -> string.

Section Leases.
Context `{Sha256}.

Definition _cleanup_guard_record_path (task_id : string) : string :=
  ".dispatcher.cleanup.guard." +:+ sha256_hexdigest task_id +:+ ".json".

Definition _read_cleanup_guard_file (task_id now : string) : M (option CleanupGuard) :=
  let path := _cleanup_guard_record_path task_id in
  w ← st_get;
  match w_files w !! path with
  | Some GSymlink => st_raise (guard_error task_id " is a symlink")
  | None => mret None
  | Some (GFile None) => st_raise (guard_error task_id " is malformed")
  | Some (GFile (Some value)) =>
      guard ← st_lift (_validated_cleanup_guard value task_id);
      expired ← st_lift (guard_expired guard now);
      if expired : bool
      then _ ← st_modify (fun w => set_files (delete path (w_files w)) w); mret None
      else mret (Some guard)
  end.

Definition _write_cleanup_guard_file (g : CleanupGuard) : M unit :=
  let path := _cleanup_guard_record_path (g_task_id g) in
  w ← st_get;
  match w_files w !! path with
  | Some GSymlink => st_raise (guard_error (g_task_id g) " is a symlink")
  | _ => st_modify (fun w =>
           set_files (<[path := GFile (Some (json_norm (PDict (guard_dict g))))]> (w_files w)) w)
  end.

Definition _remove_cleanup_guard_file (task_id : string) : M unit :=
  let path := _cleanup_guard_record_path task_id in
  w ← st_get;
  match w_files w !! path with
  | Some GSymlink => st_raise (guard_error task_id " is a symlink")
  | _ => st_modify (fun w => set_files (delete path (w_files w)) w)
  end.

(** [json.loads(row["value"])]: an empty text is not JSON. *)
Definition _read_cleanup_guard (task_id now : string) : M (option CleanupGuard) :=
  row ← select_meta (_cleanup_guard_key task_id);
  match row with
  | None => mret None
  | Some (JDoc value) =>
      guard ← st_lift (_validated_cleanup_guard value task_id);
      expired ← st_lift (guard_expired guard now);
      if expired : bool then _ ← delete_meta (_cleanup_guard_key task_id); mret None
      else mret (Some guard)
  | Some _ => st_raise (guard_error task_id " is malformed")
  end.

Definition db_exists (w : World) : bool := match w_db w with NoFile => false | _ => true end.

(** A guard that is already held: by this owner or by another. *)
Definition refuse_held (task_id owner : string) (held : option CleanupGuard) : M unit :=
  match held with
  | None => mret tt
  | Some g =>
      if String.eqb (g_owner g) owner
      then st_raise (guard_error task_id " is already held by this invocation")
      else st_raise (guard_error task_id " is held by another owner")
  end.

Definition acquire_cleanup_guard (task_id owner : string) (ttl_seconds : Z)
    (token_hex : string) (now_us : Z) : M CleanupGuard :=
  _ ← guard_not (String.eqb task_id "" || String.eqb owner "" || (ttl_seconds <=? 0)%Z)
        (ValueError "Cleanup guard identity and positive TTL are required");
  let token := "guard-" +:+ token_hex in
  let now := _utc_now now_us in
  expires ← st_lift (_expires_at ttl_seconds now);
  file_existing ← _read_cleanup_guard_file task_id now;
  let guard := mkGuard task_id owner token expires in
  w ← st_get;
  if negb (db_exists w) then
    _ ← refuse_held task_id owner file_existing;
    _ ← _write_cleanup_guard_file guard;
    mret guard
  else
    _ ← transaction (
      existing ← _read_cleanup_guard task_id now;
      task ← select_task task_id;
      _ ← match task with
          | Some t =>
              guard_not (String.eqb (status t) "claimed"
                         || match lease_id t with Some _ => true | None => false end)
                (ValueError ("Cannot acquire cleanup guard for task " +:+ task_id
                             +:+ ": active dispatcher lease"))
          | None => mret tt
          end;
      _ ← refuse_held task_id owner file_existing;
      _ ← refuse_held task_id owner existing;
      upsert_meta (_cleanup_guard_key task_id) (_dumps (PDict (guard_dict guard))));
    _ ← _write_cleanup_guard_file guard;
    mret guard.

Definition holds (owner token : string) (g : option CleanupGuard) : bool :=
  match g with
  | Some g => String.eqb (g_owner g) owner && String.eqb (g_token g) token
  | None => false
  end.

Definition not_held (task_id : string) : exn := guard_error task_id " is not held by this owner".

Definition release_cleanup_guard (task_id owner token : string) (now_us : Z) : M unit :=
  _ ← guard_not (String.eqb task_id "" || String.eqb owner "" || String.eqb token "")
        (ValueError "Cleanup guard identity is required");
  let now := _utc_now now_us in
  file_guard ← _read_cleanup_guard_file task_id now;
  w ← st_get;
  _ ← (if db_exists w then
         transaction (
           db_guard ← _read_cleanup_guard task_id now;
           let guard := match file_guard with Some g => Some g | None => db_guard end in
           _ ← guard_not (negb (holds owner token guard)) (not_held task_id);
           match db_guard with
           | Some _ =>
               deleted ← delete_meta (_cleanup_guard_key task_id);
               guard_not (negb (Nat.eqb deleted 1))
                 (guard_error task_id " changed concurrently")
           | None => mret tt
           end)
       else guard_not (negb (holds owner token file_guard)) (not_held task_id));
  _remove_cleanup_guard_file task_id.

Definition refresh_cleanup_guard (task_id owner token : string) (ttl_seconds now_us : Z)
    : M CleanupGuard :=
  _ ← guard_not (String.eqb task_id "" || String.eqb owner "" || String.eqb token ""
                 || (ttl_seconds <=? 0)%Z)
        (ValueError "Cleanup guard identity and positive TTL are required");
  let now := _utc_now now_us in
  expires ← st_lift (_expires_at ttl_seconds now);
  file_guard ← _read_cleanup_guard_file task_id now;
  match file_guard with
  | None => st_raise (not_held task_id)
  | Some fg =>
      _ ← guard_not (negb (holds owner token (Some fg))) (not_held task_id);
      let refreshed := mkGuard (g_task_id fg) (g_owner fg) (g_token fg) expires in
      w ← st_get;
      _ ← (if db_exists w then
             transaction (
               db_guard ← _read_cleanup_guard task_id now;
               match db_guard with
               | Some _ =>
                   _ ← guard_not (negb (holds owner token db_guard)) (not_held task_id);
                   updated ← update_meta (_cleanup_guard_key task_id)
                               (_dumps (PDict (guard_dict refreshed)));
                   guard_not (negb (Nat.eqb updated 1))
                     (guard_error task_id " changed concurrently")
               | None => mret tt
               end)
           else mret tt);
      _ ← _write_cleanup_guard_file refreshed;
      mret refreshed
  end.

(** ** [claim] *)

Definition cannot_claim (task_id why : string) : exn :=
  ValueError ("Cannot claim task " +:+ task_id +:+ ": " +:+ why).

Definition unreleased (l : LeaseRecord) : bool :=
  match ls_released_at l with None => true | Some _ => false end.

(** [UPDATE dispatcher_leases SET released_at = now, release_reason = reason]. *)
Definition mark_released (now reason : string) (l : LeaseRecord) : LeaseRecord :=
  mkLease (ls_lease_id l) (ls_resource l) (ls_holder l) (ls_ttl_seconds l) (ls_acquired_at l)
    (ls_expires_at l) (ls_heartbeat_at l) (Some now) (Some reason).

(** [released_at is None and expires_at <= now]. *)
Definition lease_is_expired (l : LeaseRecord) (now : string) : res bool :=
  if unreleased l then rfc3339_le (ls_expires_at l) now else Ok false.

(** The branch of [claim] for a task that has a lease: the lease must have
    expired and the caller must ask for the takeover; the old lease is released
    and the takeover recorded in the event payload. *)
Definition take_over (task : TaskRow) (existing_lease_id now : string)
    (takeover_stale : bool) (payload : pydict) : M pydict :=
  let id := task_id task in
  existing ← select_lease existing_lease_id;
  match existing with
  | None => st_raise (cannot_claim id "already has active lease")
  | Some l =>
      is_expired ← st_lift (lease_is_expired l now);
      _ ← guard_not (negb is_expired) (cannot_claim id "already has active lease");
      _ ← guard_not (negb takeover_stale)
            (cannot_claim id "lease has expired; retry with --takeover-stale");
      _ ← guard_not (negb (existsb (String.eqb (status task)) ["claimed"; "ready"]))
            (cannot_claim id ("not eligible for stale takeover (current: "
                              +:+ status task +:+ ")"));
      released ← update_leases
        (fun r => String.eqb (ls_lease_id r) existing_lease_id && unreleased r)
        (mark_released now "stale_takeover");
      _ ← guard_not (Nat.eqb released 0)
            (cannot_claim id "preconditions changed (concurrent lease update)");
      mret (dict_set payload "takeover" (PDict
        [("previous_holder", PStr (ls_holder l));
         ("previous_lease_id", PStr existing_lease_id);
         ("previous_expires_at", PStr (ls_expires_at l))]))
  end.

Definition claim_resource (task : TaskRow) : string := "issue:" +:+ pretty (issue_number task).

(** The transaction of [claim]. *)
Definition claim_transaction (id agent_id lease_id' : string) (ttl_minutes : Z)
    (takeover_stale : bool) (expected_lease_id : option string) (now event_id : string)
    : M (TaskRow * string * EventRecord) :=
  let ttl_seconds := (ttl_minutes * 60)%Z in
  expires ← st_lift (_expires_at ttl_seconds now);
  row ← select_task id;
  match row with
  | None => st_raise (ValueError ("Task " +:+ id +:+ " not found"))
  | Some task =>
      db_guard ← _read_cleanup_guard id now;
      guarded ← match db_guard with
                | Some _ => mret true
                | None => g ← _read_cleanup_guard_file id now;
                          mret (match g with Some _ => true | None => false end)
                end;
      _ ← guard_not guarded (cannot_claim id "cleanup guard is active");
      let existing_lease_id := lease_id task in
      _ ← guard_not (match expected_lease_id with
                     | Some e => negb (bool_decide (existing_lease_id = Some e))
                     | None => false end)
            (cannot_claim id "expected stale lease predecessor changed");
      let payload := [("ttl_minutes", PInt ttl_minutes)] in
      payload ← match existing_lease_id with
                | Some l => take_over task l now takeover_stale payload
                | None =>
                    _ ← guard_not (negb (String.eqb (status task) "ready"))
                          (cannot_claim id ("not in ready status (current: "
                                            +:+ status task +:+ ")"));
                    mret payload
                end;
      _ ← insert_lease (mkLease lease_id' (claim_resource task) agent_id ttl_seconds now
                          expires (Some now) None None);
      updated ← update_tasks
        (fun r => String.eqb (task_id r) id && String.eqb (status r) (status task)
                  && bool_decide (lease_id r = existing_lease_id))
        (fun r => set_updated_at now (set_status "claimed"
           (set_lease (Some lease_id') (Some agent_id) (Some expires)
              (last_heartbeat_at r) r)));
      _ ← guard_not (Nat.eqb updated 0)
            (cannot_claim id "preconditions changed (concurrent claim or status change)");
      let event := mkEvent event_id now id "task.claimed" agent_id (Some lease_id')
                     (PDict payload) in
      _ ← insert_event (event_row event);
      mret (task, expires, event)
  end.

Definition claim (id agent_id : string) (ttl_minutes : Z) (takeover_stale : bool)
    (expected_lease_id : option string) (lease_hex : string) (now_us : Z) (event_hex : string)
    : M (TaskRecord * LeaseRecord) :=
  _ ← match expected_lease_id with
      | None => mret tt
      | Some e =>
          _ ← guard_not (String.eqb e "" || negb (String.eqb (strip e) e))
                (ValueError "Expected stale lease id must be a non-empty exact identifier");
          guard_not (negb takeover_stale)
            (ValueError "Expected stale lease id requires --takeover-stale")
      end;
  let lease_id' := _make_lease_id lease_hex in
  let now := _utc_now now_us in
  '(task_row, expires, event) ← transaction
     (claim_transaction id agent_id lease_id' ttl_minutes takeover_stale expected_lease_id
        now (_make_event_id event_hex));
  let lease := mkLease lease_id' (claim_resource task_row) agent_id (ttl_minutes * 60)%Z now
                 expires (Some now) None None in
  task ← get_task id;
  match task with
  | None => st_raise (AssertionError ("task " +:+ id +:+ " missing after successful claim"))
  | Some task => _ ← mirror event; mret (task, lease)
  end.

(** ** [heartbeat] *)

Definition heartbeat_transaction (id agent_id now event_id : string)
    : M (LeaseRecord * string * EventRecord) :=
  row ← select_task id;
  match row with
  | None => st_raise (ValueError ("Task " +:+ id +:+ " not found"))
  | Some task =>
      match lease_id task with
      | None => st_raise (ValueError ("Task " +:+ id +:+ " has no active lease"))
      | Some lid =>
          lease ← select_lease lid;
          match lease with
          | None => st_raise (ValueError ("Lease " +:+ lid +:+ " not found"))
          | Some l =>
              let cannot why :=
                ValueError ("Cannot heartbeat lease " +:+ lid +:+ ": " +:+ why) in
              _ ← guard_not (negb (String.eqb (ls_holder l) agent_id))
                    (cannot ("held by " +:+ ls_holder l +:+ ", not " +:+ agent_id));
              expired ← st_lift (if unreleased l then rfc3339_le (ls_expires_at l) now
                                 else Ok true);
              _ ← guard_not expired (cannot "lease has expired");
              expires ← st_lift (_expires_at (ls_ttl_seconds l) now);
              updated ← update_leases
                (fun r => String.eqb (ls_lease_id r) (ls_lease_id l)
                          && String.eqb (ls_holder r) agent_id && unreleased r
                          && String.ltb now (ls_expires_at r))
                (fun r => mkLease (ls_lease_id r) (ls_resource r) (ls_holder r)
                   (ls_ttl_seconds r) (ls_acquired_at r) expires (Some now)
                   (ls_released_at r) (ls_release_reason r));
              _ ← guard_not (negb (Nat.eqb updated 1)) (cannot "lease changed concurrently");
              updated ← update_tasks
                (fun r => String.eqb (task_id r) id
                          && bool_decide (lease_id r = Some (ls_lease_id l))
                          && bool_decide (claimed_by r = Some agent_id))
                (fun r => set_updated_at now
                   (set_lease (lease_id r) (claimed_by r) (Some expires) (Some now) r));
              _ ← guard_not (negb (Nat.eqb updated 1)) (cannot "task changed concurrently");
              let event := mkEvent event_id now id "task.heartbeat" agent_id
                             (Some (ls_lease_id l)) PNone in
              _ ← insert_event (event_row event);
              mret (l, expires, event)
          end
      end
  end.

Definition heartbeat (id agent_id : string) (now_us : Z) (event_hex : string) : M LeaseRecord :=
  let now := _utc_now now_us in
  '(lease, expires, event) ← transaction
     (heartbeat_transaction id agent_id now (_make_event_id event_hex));
  _ ← mirror event;
  mret (mkLease (ls_lease_id lease) (ls_resource lease) agent_id (ls_ttl_seconds lease)
          (ls_acquired_at lease) expires (Some now) None None).

(** ** [release]: five store calls, each its own transaction *)

(** The task after release: no lease, the ready scan invalidated, [ready]
    unless blocked. *)
Definition released_task (now : string) (task : TaskRecord) : res TaskRecord :=
  sync ← (if truthy (sync_state task) then py_dict (sync_state task) else Ok []);
  let sync := dict_set (dict_pop sync "last_pull_at") "ready_scan_invalidated_at" (PStr now) in
  Ok (set_updated_at now
       (set_status (match blocked_reason task with None => "ready" | Some _ => "blocked" end)
         (set_sync_state (PDict sync) (set_lease None None None None task)))).

(** Reading the task and its lease, and checking the holder. *)
Definition release_read (id agent_id : string) : M (TaskRecord * LeaseRecord) :=
  task ← get_task id;
  match task with
  | None => st_raise (ValueError ("Task " +:+ id +:+ " not found"))
  | Some task =>
      match lease_id task with
      | None => st_raise (ValueError ("Task " +:+ id +:+ " has no active lease to release"))
      | Some lid =>
          lease ← get_lease lid;
          match lease with
          | None => st_raise (ValueError ("Lease " +:+ lid +:+ " not found"))
          | Some l =>
              _ ← guard_not (negb (String.eqb (ls_holder l) agent_id))
                    (ValueError ("Cannot release lease " +:+ lid +:+ ": held by "
                                 +:+ ls_holder l +:+ ", not " +:+ agent_id));
              mret (task, l)
          end
      end
  end.

(** Writing the lease, the task and the event from what was read. *)
Definition release_write (id agent_id reason : string) (task : TaskRecord) (l : LeaseRecord)
    (now_us : Z) (event_hex : string) : M TaskRecord :=
  let now := _utc_now now_us in
  _ ← upsert_lease (mark_released now reason l);
  task ← st_lift (released_task now task);
  _ ← upsert_task task;
  _ ← append_event (mkEvent (_make_event_id event_hex) now id "task.released" agent_id
        (Some (ls_lease_id l)) (PDict [("reason", PStr reason)]));
  mret task.

Definition release (id agent_id reason : string) (now_us : Z) (event_hex : string)
    : M TaskRecord :=
  '(task, l) ← release_read id agent_id;
  release_write id agent_id reason task l now_us event_hex.

(** ** Reclaiming expired leases *)

(** One joined row: task id, lease id, lease expiry. *)
Definition expired_link (d : Db) (now : string) (t : TaskRow) : list (string * string * string) :=
  match lease_id t with
  | Some lid =>
      match select_by ls_lease_id lid (db_leases d) with
      | Some l => if unreleased l && String.ltb (ls_expires_at l) now
                  then [(task_id t, lid, ls_expires_at l)] else []
      | None => []
      end
  | None => []
  end.

Definition _observe_expired_leases (now_us : Z) : M (list (string * string)) :=
  transaction (query (fun d =>
    map fst (order_by (fun a b => String.leb (snd a) (snd b))
      (flat_map (expired_link d (_utc_now now_us)) (db_tasks d))))).

Definition terminal_status (s : string) : bool :=
  existsb (String.eqb s) ["completed"; "done"; "failed"].

(** [json.loads(text or "{}")], or an empty dict when it is not a dict. *)
Definition sync_dict (t : jtext) : res pydict :=
  match t with
  | JNull | JEmpty => Ok []
  | JDoc v => Ok (dict_or_empty v)
  | JBad => Raise json_decode_error
  end.

(** The status and sync state of a task whose lease is reclaimed. *)
Definition reclaimed_state (task : TaskRow) (now : string) : res (string * jtext) :=
  sync ← sync_dict (sync_state task);
  let sync := dict_set (dict_pop sync "last_pull_at") "ready_scan_invalidated_at" (PStr now) in
  if terminal_status (status task) then
    Ok (status task, _dumps (PDict (dict_set sync "terminal_state_protected_at" (PStr now))))
  else
    Ok ((match blocked_reason task with Some _ => "blocked" | None => "ready" end),
        _dumps (PDict sync)).

Definition _reclaim_one (id lease_id' actor : string) (now_us : Z) (event_hex : string)
    : M (option EventRecord) :=
  transaction (
    begin ← st_get;
    let rollback := _ ← st_modify (set_db (w_db begin)); mret None in
    let now := _utc_now now_us in
    task_row ← select_task id;
    match task_row with
    | None => rollback
    | Some task =>
        if negb (bool_decide (lease_id task = Some lease_id')) then rollback else
        lease_row ← select_lease lease_id';
        match lease_row with
        | None => rollback
        | Some l =>
            if negb (unreleased l) then rollback else
            live ← st_lift (rfc3339_le now (ls_expires_at l));
            if live : bool then rollback else
            released ← update_leases
              (fun r => String.eqb (ls_lease_id r) lease_id' && unreleased r)
              (mark_released now "expired");
            if Nat.eqb released 0 then rollback else
            '(next_status, sync) ← st_lift (reclaimed_state task now);
            cleared ← update_tasks
              (fun r => String.eqb (task_id r) id && bool_decide (lease_id r = Some lease_id'))
              (fun r => set_updated_at now (set_sync_state sync (set_status next_status
                          (set_lease None None None None r))));
            if Nat.eqb cleared 0 then rollback else
            let event := mkEvent (_make_event_id event_hex) now id "task.released" actor
                           (Some lease_id') (PDict [("reason", PStr "expired")]) in
            _ ← insert_event (event_row event);
            mret (Some event)
        end
    end).

(** [draw i] is the clock reading and the identifier of the [i]-th attempt. *)
Fixpoint _reclaim_observed_leases (draw : nat -> Z * string) (actor : string) (i : nat)
    (observed : list (string * string)) : M (list string) :=
  match observed with
  | [] => mret []
  | (id, lid) :: observed =>
      event ← st_catch (_reclaim_one id lid actor (fst (draw i)) (snd (draw i)))
                (fun _ => mret None);
      match event with
      | None => _reclaim_observed_leases draw actor (S i) observed
      | Some event =>
          _ ← st_catch (mirror event) (fun _ => mret tt);
          reclaimed ← _reclaim_observed_leases draw actor (S i) observed;
          mret (id :: reclaimed)
      end
  end.

Definition reclaim_expired_leases (actor : string) (now_us : Z) (draw : nat -> Z * string)
    : M (list string) :=
  observed ← _observe_expired_leases now_us;
  _reclaim_observed_leases draw actor 0 observed.

End Leases.
