(* ===== verification/Queue.v ===== *)
(** * Selection and task mutations (src/app/dispatcher/{queue,services}.py)

    [select_next] reclaims expired leases and picks the next ready task;
    [block], [unblock], [complete] (queue.py) and [update_task], [move_task],
    [_move_task_to_review], [link_pr] (services.py) change a task.  The
    operations written as [get_task; upsert_task; append_event] are three
    transactions; [complete] and the review hand-off are one. *)
From Stdlib Require Import Ascii.
From S2P Require Import Prelude PyValue PyTime Sql DispatcherStore Leases.

(** ** [select_next] *)

(** [CASE priority WHEN ...]. *)
Definition priority_rank (p : string) : Z :=
  if String.eqb p "critical" then 0
  else if String.eqb p "high" then 1
  else if String.eqb p "med" then 2
  else if String.eqb p "medium" then 2
  else if String.eqb p "low" then 3 else 4.

(** [status = 'ready' AND blocked_reason IS NULL AND lease_id IS NULL]. *)
Definition eligible (r : TaskRow) : bool :=
  String.eqb (status r) "ready"
  && match blocked_reason r with None => true | Some _ => false end
  && match lease_id r with None => true | Some _ => false end.

(** [ORDER BY rank, updated_at ASC, created_at ASC]. *)
Definition selection_leb (x y : TaskRow) : bool :=
  match (priority_rank (priority x) ?= priority_rank (priority y))%Z with
  | Lt => true
  | Gt => false
  | Eq => asc2 updated_at created_at x y
  end.

Definition select_next (agent_id : string) (now_us : Z) (draw : nat -> Z * string)
    : M (option TaskRecord * nat) :=
  reclaimed ← reclaim_expired_leases "dispatcher-gc" now_us draw;
  row ← transaction (query (fun d =>
    head (order_by selection_leb (List.filter eligible (db_tasks d)))));
  match row with
  | None => mret (None, length reclaimed)
  | Some r => t ← st_lift (_row_to_task r); mret (Some t, length reclaimed)
  end.

(** queue.py [next]. *)
Definition next_task (agent_id : string) (now_us : Z) (draw : nat -> Z * string)
    : M (option TaskRecord) :=
  '(task, _) ← select_next agent_id now_us draw;
  mret task.

(** ** Read-modify-write mutations *)

(** [task = store.get_task(id)], or the error of its absence. *)
Definition require_task (id : string) : M TaskRecord :=
  task ← get_task id;
  match task with
  | None => st_raise (ValueError ("Task " +:+ id +:+ " not found"))
  | Some task => mret task
  end.

(** [store.upsert_task(task)] and the event that records the change. *)
Definition write_task (task : TaskRecord) (id event_type actor : string) (payload : pyval)
    (now2 : Z) (event_hex : string) : M TaskRecord :=
  _ ← upsert_task task;
  _ ← append_event (mkEvent (_make_event_id event_hex) (_utc_now now2) id event_type actor
        None payload);
  mret task.

Definition block (id reason actor : string) (now1 : Z) (event_hex : string) (now2 : Z)
    : M TaskRecord :=
  task ← require_task id;
  let task := set_updated_at (_utc_now now1)
                (set_status "blocked" (set_blocked_reason (Some reason) task)) in
  write_task task id "task.blocked" actor (PDict [("reason", PStr reason)]) now2 event_hex.

Definition unblock (id actor : string) (now1 : Z) (event_hex : string) (now2 : Z)
    : M TaskRecord :=
  task ← require_task id;
  let task := set_updated_at (_utc_now now1) (set_blocked_reason None task) in
  let task := if String.eqb (status task) "blocked" then set_status "ready" task else task in
  write_task task id "task.updated" actor (PDict [("action", PStr "unblocked")]) now2 event_hex.

(** ** [complete] *)

Definition complete_transaction (id actor : string) (expected_lease_id : option string)
    (now event_id : string) : M EventRecord :=
  row ← select_task id;
  match row with
  | None => st_raise (ValueError ("Task " +:+ id +:+ " not found"))
  | Some task =>
      match lease_id task with
      | None => st_raise (ValueError ("Task " +:+ id +:+ " has no active lease"))
      | Some lid =>
          let cannot why :=
            ValueError ("Cannot complete task " +:+ id +:+ ": " +:+ why) in
          _ ← match expected_lease_id with
              | Some e => guard_not (negb (String.eqb lid e)) (cannot ("lease changed from " +:+ e))
              | None => mret tt
              end;
          lease ← select_lease lid;
          match lease with
          | None => st_raise (ValueError ("Lease " +:+ lid +:+ " not found"))
          | Some l =>
              _ ← guard_not (negb (String.eqb (ls_holder l) actor))
                    (cannot ("held by " +:+ ls_holder l +:+ ", not " +:+ actor));
              released ← update_leases
                (fun r => String.eqb (ls_lease_id r) lid && String.eqb (ls_holder r) actor
                          && unreleased r)
                (mark_released now "completed");
              _ ← guard_not (negb (Nat.eqb released 1)) (cannot "lease changed concurrently");
              completed ← update_tasks
                (fun r => String.eqb (task_id r) id && bool_decide (lease_id r = Some lid)
                          && bool_decide (claimed_by r = Some actor))
                (fun r => set_updated_at now (set_status "completed"
                   (set_lease None None (Some (ls_expires_at l)) None r)));
              _ ← guard_not (negb (Nat.eqb completed 1)) (cannot "task changed concurrently");
              let event := mkEvent event_id now id "task.completed" actor (Some lid) PNone in
              _ ← insert_event (event_row event);
              mret event
          end
      end
  end.

Definition complete (id actor : string) (expected_lease_id : option string) (now_us : Z)
    (event_hex : string) : M TaskRecord :=
  event ← transaction (complete_transaction id actor expected_lease_id (_utc_now now_us)
                         (_make_event_id event_hex));
  _ ← mirror event;
  task ← get_task id;
  match task with
  | None => st_raise (AssertionError ("task " +:+ id +:+ " missing after successful completion"))
  | Some task => mret task
  end.

(** ** services.py *)

Definition _make_task_id (hex : string) : string := "task-" +:+ str_take 8 hex.

(** [{"status": s, "note": n}] with the absent entries left out. *)
Definition opt_entry (k : string) (v : option string) : pydict :=
  match v with Some v => [(k, PStr v)] | None => [] end.

Definition update_task (id : string) (st note : option string) (actor : string) (now1 : Z)
    (event_hex : string) (now2 : Z) : M TaskRecord :=
  task ← require_task id;
  let task := match st with
    | Some s =>
        let task := set_status s task in
        if String.eqb s "blocked" then task else set_blocked_reason None task
    | None => task
    end in
  let payload := opt_entry "status" st ++ opt_entry "note" note in
  write_task (set_updated_at (_utc_now now1) task) id "task.updated" actor
    (match payload with [] => PNone | _ => PDict payload end) now2 event_hex.

(** signboard.py [canonical_status]. *)
Fixpoint replace_char (a b : Ascii.ascii) (s : string) : string :=
  match s with
  | EmptyString => ""
  | String c s => String (if Ascii.eqb c a then b else c) (replace_char a b s)
  end.

Definition VALID_STATUSES : list string :=
  ["backlog"; "ready"; "claimed"; "in_progress"; "review"; "blocked"; "completed"].

Definition canonical_status (s : string) : res string :=
  let normalized :=
    replace_char "-"%char "_"%char (replace_char " "%char "_"%char (lower (strip s))) in
  if String.eqb normalized "done" then Ok "completed"
  else if negb (existsb (String.eqb normalized) VALID_STATUSES)
  then Raise (ValueError ("Unknown dispatcher status " +:+ repr_str s +:+
    "; expected one of: backlog, blocked, claimed, completed, done, in_progress, ready, review"))
  else Ok normalized.

Definition STATUS_COLUMNS : list (string * string) :=
  [("backlog", "Backlog"); ("ready", "Ready"); ("claimed", "In Progress");
   ("in_progress", "In Progress"); ("review", "Review"); ("blocked", "Blocked");
   ("completed", "Done"); ("done", "Done")].

Definition column_for_status (s : string) : res string :=
  normalized ← canonical_status s;
  Ok (default "Backlog" (dict_get STATUS_COLUMNS normalized)).

(** [_move_task_to_review]: one transaction; a claimed task is handed off by
    its holder only. *)
Definition review_transaction (id actor : string) (note : option string) (allow_handoff : bool)
    (now release_event_id move_event_id : string) : M (option EventRecord * EventRecord) :=
  row ← select_task id;
  match row with
  | None => st_raise (ValueError ("Task " +:+ id +:+ " not found"))
  | Some task =>
      let cannot why :=
        ValueError ("Cannot move task " +:+ id +:+ " to review: " +:+ why) in
      '(moved, release_event) ← match lease_id task with
        | None =>
            moved ← update_tasks
              (fun r => String.eqb (task_id r) id && bool_decide (lease_id r = None))
              (fun r => set_updated_at now (set_blocked_reason None (set_status "review" r)));
            mret (moved, None)
        | Some lid =>
            _ ← guard_not (negb allow_handoff)
                  (ValueError
                     "claimed task Review handoff requires the dispatcher lease holder path");
            lease ← select_lease lid;
            let inactive :=
              ValueError ("Task " +:+ id +:+ " has no active lease for review handoff") in
            match lease with
            | None => st_raise inactive
            | Some l =>
                _ ← guard_not (negb (unreleased l)) inactive;
                _ ← guard_not (negb (String.eqb (ls_holder l) actor))
                      (cannot ("lease " +:+ lid +:+ " is held by " +:+ ls_holder l
                               +:+ ", not " +:+ actor));
                released ← update_leases
                  (fun r => String.eqb (ls_lease_id r) lid && unreleased r)
                  (mark_released now "review_handoff");
                _ ← guard_not (negb (Nat.eqb released 1)) (cannot "lease changed concurrently");
                moved ← update_tasks
                  (fun r => String.eqb (task_id r) id && bool_decide (lease_id r = Some lid))
                  (fun r => set_updated_at now (set_blocked_reason None (set_status "review"
                     (set_lease None None None None r))));
                mret (moved, Some (mkEvent release_event_id now id "task.released" actor
                  (Some lid) (PDict [("reason", PStr "review_handoff")])))
            end
        end;
      _ ← guard_not (negb (Nat.eqb moved 1)) (cannot "task changed concurrently");
      let move_event := mkEvent move_event_id now id "task.moved" actor None
        (PDict ([("from_status", PStr (status task)); ("to_status", PStr "review")]
                ++ opt_entry "note" note)) in
      _ ← match release_event with
          | Some e => insert_event (event_row e)
          | None => mret tt
          end;
      _ ← insert_event (event_row move_event);
      mret (release_event, move_event)
  end.

Definition _move_task_to_review (id actor : string) (note : option string)
    (allow_handoff : bool) (now_us : Z) (release_hex move_hex : string) : M TaskRecord :=
  '(release_event, move_event) ← transaction
     (review_transaction id actor note allow_handoff (_utc_now now_us)
        (_make_event_id release_hex) (_make_event_id move_hex));
  _ ← match release_event with Some e => mirror e | None => mret tt end;
  _ ← mirror move_event;
  task ← get_task id;
  match task with
  | None => st_raise (AssertionError "")
  | Some task => mret task
  end.

Definition move_unclaimed_task_to_review (id actor : string) (note : option string)
    (now_us : Z) (release_hex move_hex : string) : M TaskRecord :=
  _move_task_to_review id actor note false now_us release_hex move_hex.

(** [hex1], [hex2]: the event identifiers; the generic path draws one, the review
    path up to two. *)
Definition move_task (id st actor : string) (note : option string) (now1 : Z)
    (hex1 hex2 : string) (now2 : Z) : M TaskRecord :=
  next_status ← st_lift (canonical_status st);
  if String.eqb next_status "review"
  then _move_task_to_review id actor note true now1 hex1 hex2
  else
    task ← require_task id;
    _ ← guard_not (String.eqb next_status "completed"
                   && match lease_id task with Some _ => true | None => false end)
          (ValueError ("Cannot move task " +:+ id +:+ " to completed while lease "
                       +:+ default "None" (lease_id task)
                       +:+ " is active; use complete instead"));
    let previous_status := status task in
    let task := set_status next_status task in
    let task := if String.eqb next_status "blocked" then task
                else set_blocked_reason None task in
    write_task (set_updated_at (_utc_now now1) task) id "task.moved" actor
      (PDict ([("from_status", PStr previous_status); ("to_status", PStr next_status)]
              ++ opt_entry "note" note)) now2 hex1.

Definition link_pr (id : string) (pr_number : Z) (actor : string) (now1 : Z)
    (event_hex : string) (now2 : Z) : M TaskRecord :=
  task ← require_task id;
  write_task (set_updated_at (_utc_now now1) (set_linked_pr (Some (pretty pr_number)) task))
    id "task.updated" actor (PDict [("linked_pr", PInt pr_number)]) now2 event_hex.
