(* ===== verification/DispatcherInv.v ===== *)
(** * The lease invariant of the dispatcher

    [lease_inv] relates the two tables: a task's lease exists, is unreleased
    and agrees with the task on holder and expiry; every unreleased lease is
    some task's lease; no two tasks share a lease.  [dstep] is one dispatcher
    call, with any arguments and whatever its outcome (an exception included);
    the invariant holds in every state reachable by such calls. *)
From S2P Require Import Prelude PyValue PyTime Sql DispatcherStore Leases Queue.

(** ** Running statements *)

Lemma stmt_inv {A} (f : Db -> res (A * Db)) w r w' :
  stmt f w = (r, w') ->
  (exists d a d', w_db w = Ready d /\ f d = Ok (a, d') /\ r = Ok a /\ w' = set_db (Ready d') w)
  \/ (exists e, r = Raise e /\ w' = w).
Proof.
  unfold stmt. destruct (w_db w) as [| |d] eqn:E; try (intros [= <- <-]; right; by eexists).
  destruct (f d) as [[a d']|e] eqn:F; intros [= <- <-]; [left|right; by eexists].
  by exists d, a, d'.
Qed.

Lemma set_db_id w : set_db (w_db w) w = w.
Proof. by destruct w. Qed.

Lemma stmt_ok {A} (f : Db -> res (A * Db)) w a w' :
  stmt f w = (Ok a, w') ->
  exists d d', w_db w = Ready d /\ f d = Ok (a, d') /\ w' = set_db (Ready d') w.
Proof. intros [(d & b & d' & ? & ? & [= <-] & ->)|(e & [=] & _)]%stmt_inv. by exists d, d'. Qed.

Lemma query_inv {A} (f : Db -> A) w r w' :
  query f w = (r, w') ->
  w' = w /\ match r with Ok a => exists d, w_db w = Ready d /\ a = f d | Raise _ => True end.
Proof.
  intros [(d & a & d' & E & [= <- <-] & -> & ->)|(e & -> & ->)]%stmt_inv; [|done].
  rewrite <- E, set_db_id. split; [done|by exists d].
Qed.

Lemma query_ok {A} (f : Db -> A) w a w' :
  query f w = (Ok a, w') -> w' = w /\ exists d, w_db w = Ready d /\ a = f d.
Proof. intros [? ?]%query_inv. done. Qed.

Lemma transaction_inv {A} (body : M A) w r w' :
  transaction body w = (r, w') ->
  exists w1, body (connect w) = (r, w1) /\
  match r with Ok _ => w' = w1 | Raise _ => w' = set_db (w_db (connect w)) w1 end.
Proof.
  unfold transaction. destruct (body (connect w)) as [[a|e] w1]; intros [= <- <-]; by exists w1.
Qed.

Lemma transaction_ok {A} (body : M A) w a w' :
  transaction body w = (Ok a, w') -> body (connect w) = (Ok a, w').
Proof. intros (w1 & E & ->)%transaction_inv. done. Qed.

Lemma connect_ready w d : w_db w = Ready d -> connect w = w.
Proof. unfold connect. by intros ->. Qed.

(** Forward execution of statements on an initialized database. *)
Lemma query_run {A} (f : Db -> A) w d : w_db w = Ready d -> query f w = (Ok (f d), w).
Proof. intros E. unfold query, stmt. rewrite E. rewrite <- E. by rewrite set_db_id. Qed.
Lemma stmt_run {A} (f : Db -> res (A * Db)) w d a d' :
  w_db w = Ready d -> f d = Ok (a, d') -> stmt f w = (Ok a, set_db (Ready d') w).
Proof. intros E F. unfold stmt. by rewrite E, F. Qed.

(** Inversion of a successful run, through statements and case splits on the
    rows that were read. *)
Ltac db_inv1 :=
  match goal with
  | H : select_task _ _ = (Ok _, _) |- _ =>
      apply query_ok in H as (-> & ? & ? & ->)
  | H : select_lease _ _ = (Ok _, _) |- _ =>
      apply query_ok in H as (-> & ? & ? & ->)
  | H : select_meta _ _ = (Ok _, _) |- _ =>
      apply query_ok in H as (-> & ? & ? & ->)
  | H : query _ _ = (Ok _, _) |- _ =>
      apply query_ok in H as (-> & ? & ? & ->)
  | H : update_leases _ _ _ = (Ok _, _) |- _ =>
      apply stmt_ok in H as (? & ? & ? & [= <- <-] & ->)
  | H : update_tasks _ _ _ = (Ok _, _) |- _ =>
      apply stmt_ok in H as (? & ? & ? & [= <- <-] & ->)
  | H : stmt _ _ = (Ok _, _) |- _ =>
      apply stmt_ok in H as (? & ? & ? & ? & ->)
  | H : Ready _ = Ready _ |- _ => injection H as H; subst
  | H1 : w_db ?w = Ready ?d, H2 : w_db ?w = Ready ?d' |- _ =>
      assert (d' = d) as -> by congruence; clear H2
  | H : w_db (set_db _ _) = _ |- _ => cbn [w_db set_db] in H
  end.
Ltac db_inv := repeat (st_inv || db_inv1).

(** ** Views *)

Definition task_at (d : Db) (id : string) : option TaskRow := select_by task_id id (db_tasks d).
Definition lease_at (d : Db) (id : string) : option LeaseRecord :=
  select_by ls_lease_id id (db_leases d).

(** The lease fields of a row. *)
Definition link {R S} (t : TaskOf R S) : option string * option string * option string :=
  (lease_id t, claimed_by t, lease_expires_at t).

Definition keys_ok (d : Db) : Prop :=
  unique_key task_id (db_tasks d) /\ unique_key ls_lease_id (db_leases d).

Definition sync_shape (t : jtext) : Prop :=
  match t with JDoc v => is_mapping v = true | _ => True end.

Record lease_inv (d : Db) : Prop := mkInv {
  inv_keys : keys_ok d;
  (** A task's lease is live and agrees with the task. *)
  inv_linked id r lid :
    task_at d id = Some r -> lease_id r = Some lid ->
    exists l, lease_at d lid = Some l /\ unreleased l = true /\
      claimed_by r = Some (ls_holder l) /\ lease_expires_at r = Some (ls_expires_at l);
  (** A live lease is some task's. *)
  inv_owned lid l :
    lease_at d lid = Some l -> unreleased l = true ->
    exists id r, task_at d id = Some r /\ lease_id r = Some lid;
  (** No lease is shared. *)
  inv_exclusive id1 id2 r1 r2 lid :
    task_at d id1 = Some r1 -> task_at d id2 = Some r2 ->
    lease_id r1 = Some lid -> lease_id r2 = Some lid -> id1 = id2;
  inv_sync id r : task_at d id = Some r -> sync_shape (sync_state r) }.

Definition inv (w : World) : Prop :=
  match w_db w with Ready d => lease_inv d | _ => True end.

(** ** Effects on the two tables

    Every transaction has one of these effects, seen through the views. *)

(** The rows of a task before and after: its lease fields are kept, or it has
    no lease before and after; a new task has no lease. *)
Definition keeps_link (old new : option TaskRow) : Prop :=
  match old, new with
  | None, None => True
  | None, Some r' => lease_id r' = None
  | Some r, Some r' => link r' = link r \/ (lease_id r = None /\ lease_id r' = None)
  | Some _, None => False
  end.

(** The new lease of a relinked task: none, or a live lease that was the task's
    already or is fresh. *)
Definition new_link (d d' : Db) (r r' : TaskRow) (new : option (string * LeaseRecord)) : Prop :=
  match new with
  | None => lease_id r' = None
  | Some (lid, l) =>
      link r' = (Some lid, Some (ls_holder l), Some (ls_expires_at l)) /\
      lease_at d' lid = Some l /\ unreleased l = true /\
      (lease_id r = Some lid \/ lease_at d lid = None)
  end.

Inductive effect (d d' : Db) : Prop :=
  | eff_keep :
      (forall id, keeps_link (task_at d id) (task_at d' id)) ->
      (forall lid, lease_at d' lid = lease_at d lid) ->
      effect d d'
  (** Claim, takeover, renewal and release: one task is relinked, its old lease
      (if it is not the new one) ends. *)
  | eff_relink id r r' new :
      task_at d id = Some r -> task_at d' id = Some r' -> new_link d d' r r' new ->
      (forall j, j <> id -> keeps_link (task_at d j) (task_at d' j)) ->
      (forall k, lease_id r <> Some k -> fst <$> new <> Some k -> lease_at d' k = lease_at d k) ->
      (forall k x, lease_id r = Some k -> fst <$> new <> Some k ->
                   lease_at d' k = Some x -> unreleased x = false) ->
      effect d d'.

Lemma keeps_refl o : keeps_link o o.
Proof. destruct o; [by left|done]. Qed.

(** The structural part: keys stay unique and stored sync states documents. *)
Definition struct_ok (d d' : Db) : Prop :=
  (keys_ok d -> keys_ok d') /\
  ((forall id r, task_at d id = Some r -> sync_shape (sync_state r)) ->
   forall id r, task_at d' id = Some r -> sync_shape (sync_state r)).

Lemma keeps_link_back (d d' : Db) id r' lid :
  keeps_link (task_at d id) (task_at d' id) ->
  task_at d' id = Some r' -> lease_id r' = Some lid ->
  exists r, task_at d id = Some r /\ link r' = link r.
Proof.
  unfold keeps_link. intros K E L. rewrite E in K.
  destruct (task_at d id) as [r|]; [|congruence]. exists r. split; [done|].
  destruct K as [K|[_ K]]; [done|congruence].
Qed.

Lemma keeps_link_fwd (d d' : Db) id r lid :
  keeps_link (task_at d id) (task_at d' id) -> task_at d id = Some r -> lease_id r = Some lid ->
  exists r', task_at d' id = Some r' /\ link r' = link r.
Proof.
  unfold keeps_link. intros K E L. rewrite E in K.
  destruct (task_at d' id) as [r'|]; [|done]. exists r'. split; [done|].
  destruct K as [K|[K _]]; [done|congruence].
Qed.

Lemma link_eq {R S R' S'} (a : TaskOf R S) (b : TaskOf R' S') :
  link a = link b ->
  lease_id a = lease_id b /\ claimed_by a = claimed_by b /\ lease_expires_at a = lease_expires_at b.
Proof. unfold link. by intros [= -> -> ->]. Qed.

Section relink.
Context (d d' : Db) (id : string) (r r' : TaskRow) (new : option (string * LeaseRecord)).
Context (I : lease_inv d).
Context (Hr : task_at d id = Some r) (Hr' : task_at d' id = Some r')
  (Hnew : new_link d d' r r' new)
  (Hothers : forall j, j <> id -> keeps_link (task_at d j) (task_at d' j))
  (Hsame : forall k, lease_id r <> Some k -> fst <$> new <> Some k ->
           lease_at d' k = lease_at d k)
  (Hend : forall k x, lease_id r = Some k -> fst <$> new <> Some k ->
          lease_at d' k = Some x -> unreleased x = false).

(** A lease held by another task is not the one being installed. *)
Lemma relink_other j rj lid :
  j <> id -> task_at d j = Some rj -> lease_id rj = Some lid ->
  lease_id r <> Some lid /\ fst <$> new <> Some lid.
Proof.
  intros Hj Ej El. assert (lease_id r <> Some lid)
    by (intros E; destruct Hj; by eapply (inv_exclusive d I j id)). split; [done|].
  destruct new as [[k l]|]; [|done]. simpl. intros [= ->].
  destruct Hnew as (_ & _ & _ & [?|F]); [done|].
  destruct (inv_linked d I j rj lid Ej El) as (l0 & E0 & _). congruence.
Qed.

Lemma relink_linked id1 r1 lid :
  task_at d' id1 = Some r1 -> lease_id r1 = Some lid ->
  exists l, lease_at d' lid = Some l /\ unreleased l = true /\
    claimed_by r1 = Some (ls_holder l) /\ lease_expires_at r1 = Some (ls_expires_at l).
Proof.
  intros E L. destruct (decide (id1 = id)) as [->|Hj].
  - assert (r1 = r') as -> by congruence. unfold new_link, link in Hnew.
    destruct new as [[k l]|]; [|congruence]. destruct Hnew as ([= ? ? ?] & ? & ? & _).
    exists l. by replace lid with k by congruence.
  - destruct (keeps_link_back _ _ _ _ _ (Hothers _ Hj) E L) as (r0 & E0 & K).
    apply link_eq in K as (K1 & K2 & K3). rewrite K1 in L.
    destruct (relink_other id1 r0 lid Hj E0 L) as [N1 N2].
    rewrite Hsame, K2, K3 by done. by apply (inv_linked d I id1).
Qed.

Lemma relink_owned lid l :
  lease_at d' lid = Some l -> unreleased l = true ->
  exists j rj, task_at d' j = Some rj /\ lease_id rj = Some lid.
Proof.
  intros E U. destruct (decide (fst <$> new = Some lid)) as [N|N].
  - destruct new as [[k l']|]; [|done]. simpl in N. injection N as ->.
    exists id, r'. split; [done|]. destruct Hnew as (K & _). unfold link in K. congruence.
  - destruct (decide (lease_id r = Some lid)) as [R|R].
    + rewrite (Hend lid l R N E) in U. done.
    + rewrite Hsame in E by done. destruct (inv_owned d I lid l E U) as (j & rj & Ej & Lj).
      assert (Hj : j <> id) by (intros ->; congruence).
      destruct (keeps_link_fwd _ _ _ _ _ (Hothers _ Hj) Ej Lj) as (rj' & Ej' & K).
      exists j, rj'. split; [done|]. apply link_eq in K as [-> _]. done.
Qed.

Lemma relink_exclusive id1 id2 r1 r2 lid :
  task_at d' id1 = Some r1 -> task_at d' id2 = Some r2 ->
  lease_id r1 = Some lid -> lease_id r2 = Some lid -> id1 = id2.
Proof.
  assert (Hone : forall j rj, j <> id -> task_at d' j = Some rj -> lease_id rj = Some lid ->
            lease_id r' <> Some lid).
  { intros j rj Hj Ej Lj Lr.
    destruct (keeps_link_back _ _ _ _ _ (Hothers _ Hj) Ej Lj) as (r0 & E0 & K).
    apply link_eq in K as (K1 & _). rewrite K1 in Lj.
    destruct (relink_other j r0 lid Hj E0 Lj) as [N1 N2]. unfold new_link, link in Hnew.
    destruct new as [[k l]|]; [|congruence]. destruct Hnew as ([= ? ? ?] & _).
    simpl in N2. congruence. }
  intros E1 E2 L1 L2.
  destruct (decide (id1 = id)) as [->|H1], (decide (id2 = id)) as [->|H2]; [done| | |].
  - destruct (Hone id2 r2); congruence.
  - destruct (Hone id1 r1); congruence.
  - destruct (keeps_link_back _ _ _ _ _ (Hothers _ H1) E1 L1) as (a & Ea & [Ka _]%link_eq).
    destruct (keeps_link_back _ _ _ _ _ (Hothers _ H2) E2 L2) as (b & Eb & [Kb _]%link_eq).
    apply (inv_exclusive d I id1 id2 a b lid); congruence.
Qed.
End relink.

Lemma effect_inv d d' : struct_ok d d' -> effect d d' -> lease_inv d -> lease_inv d'.
Proof.
  intros [Hk Hs] E I. split; [by apply Hk, inv_keys| | | |apply Hs, inv_sync, I].
  all: destruct E as [K L|id r r' new Hr Hr' Hn Ho Hsame Hend].
  - intros id r lid Er Lr.
    destruct (keeps_link_back _ _ _ _ _ (K id) Er Lr) as (r0 & E0 & K0).
    apply link_eq in K0 as (K1 & K2 & K3). rewrite L, K2, K3. apply (inv_linked d I id); congruence.
  - by eapply relink_linked.
  - intros lid l. rewrite L. intros El U. destruct (inv_owned d I lid l El U) as (j & rj & Ej & Lj).
    destruct (keeps_link_fwd _ _ _ _ _ (K j) Ej Lj) as (rj' & Ej' & [K1 _]%link_eq).
    exists j, rj'. by rewrite K1.
  - by eapply relink_owned.
  - intros id1 id2 r1 r2 lid E1 E2 L1 L2.
    destruct (keeps_link_back _ _ _ _ _ (K id1) E1 L1) as (a & Ea & [Ka _]%link_eq).
    destruct (keeps_link_back _ _ _ _ _ (K id2) E2 L2) as (b & Eb & [Kb _]%link_eq).
    apply (inv_exclusive d I id1 id2 a b lid); congruence.
  - by eapply relink_exclusive.
Qed.

(** ** Relations kept by a call

    [kept R m]: whatever [m] returns, the databases before and after it are
    related by [R].  The property composes along the monad, so that a body is
    checked statement by statement (tactic [kept]). *)

Class DbRel (R : database -> database -> Prop) : Prop := {
  dbrel_pre :: PreOrder R;
  dbrel_connect : R NoFile NoSchema }.

Definition kept (R : database -> database -> Prop) {A} (m : M A) : Prop :=
  forall w, R (w_db w) (w_db (m w).2).

Create HintDb kept discriminated.

Section kept.
Context (R : database -> database -> Prop) `{!DbRel R}.

Lemma kept_ret {A} (a : A) : kept R (mret a).
Proof. intros w. reflexivity. Qed.
Lemma kept_raise {A} e : kept R (st_raise e : M A).
Proof. intros w. reflexivity. Qed.
Lemma kept_lift {A} (r : res A) : kept R (st_lift r : M A).
Proof. intros w. reflexivity. Qed.
Lemma kept_get : kept R (st_get : M World).
Proof. intros w. reflexivity. Qed.
Lemma kept_guard c e : kept R (guard_not c e : M unit).
Proof. intros w. destruct c; reflexivity. Qed.
Lemma kept_bind {A B} (m : M A) (f : A -> M B) :
  kept R m -> (forall a, kept R (f a)) -> kept R (m ≫= f).
Proof.
  intros Hm Hf w. specialize (Hm w). unfold mbind, ST_bind.
  destruct (m w) as [[a|e] w1]; simpl in *; [|done]. etrans; [done|]. apply Hf.
Qed.
Lemma kept_catch {A} (m : M A) h :
  kept R m -> (forall e, kept R (h e)) -> kept R (st_catch m h).
Proof.
  intros Hm Hh w. specialize (Hm w). unfold st_catch.
  destruct (m w) as [[a|e] w1]; simpl in *; [done|]. etrans; [done|]. apply Hh.
Qed.
Lemma connect_kept w : R (w_db w) (w_db (connect w)).
Proof.
  unfold connect. destruct (w_db w) eqn:E; simpl; rewrite ?E; [apply dbrel_connect|..];
    reflexivity.
Qed.
Lemma kept_transaction {A} (m : M A) : kept R m -> kept R (transaction m).
Proof.
  intros Hm w. unfold transaction. pose proof (connect_kept w) as C.
  specialize (Hm (connect w)).
  destruct (m (connect w)) as [[a|e] w1]; simpl in *; [by etrans|done].
Qed.
Lemma kept_stmt {A} (f : Db -> res (A * Db)) :
  (forall d a d', f d = Ok (a, d') -> R (Ready d) (Ready d')) -> kept R (stmt f).
Proof.
  intros Hf w. unfold stmt. destruct (w_db w) as [| |d] eqn:E; simpl; rewrite ?E;
    try reflexivity.
  destruct (f d) as [[a d']|e] eqn:F; simpl; rewrite ?E; [by eapply Hf|reflexivity].
Qed.
Lemma kept_query {A} (f : Db -> A) : kept R (query f).
Proof. apply kept_stmt. intros d a d' [= _ <-]. reflexivity. Qed.
Lemma kept_files f : kept R (st_modify (fun w => set_files (f w) w)).
Proof. intros w. reflexivity. Qed.
Lemma kept_mirror e : kept R (mirror e).
Proof. intros w. unfold mirror. destruct (w_writer w); reflexivity. Qed.
End kept.

#[export] Hint Resolve kept_ret kept_raise kept_lift kept_get kept_guard kept_query
  kept_files kept_mirror : kept.

Ltac kept1 :=
  match goal with
  | |- kept _ (_ ≫= _) => apply kept_bind; [exact _| |]
  | |- kept _ (transaction _) => apply kept_transaction; [exact _|]
  | |- kept _ (st_catch _ _) => apply kept_catch; [exact _| |]
  | |- forall _, kept _ _ => intros ?
  | |- kept _ (match ?x with _ => _ end) => destruct x
  | |- kept _ (let _ := _ in _) => cbv zeta
  | |- kept _ (select_task _) => apply kept_query; exact _
  | |- kept _ (select_lease _) => apply kept_query; exact _
  | |- kept _ (select_meta _) => apply kept_query; exact _
  | |- kept _ (query _) => apply kept_query; exact _
  | |- kept _ _ => solve [eauto with kept typeclass_instances]
  end.
Ltac kept := repeat kept1.

(** *** Nothing but the metadata (and files) changes *)

Definition quiet (a b : database) : Prop :=
  match a, b with
  | Ready d, Ready d' =>
      db_tasks d' = db_tasks d /\ db_leases d' = db_leases d /\ db_events d' = db_events d
  | Ready _, _ | _, Ready _ => False
  | _, _ => True
  end.

#[export] Instance quiet_rel : DbRel quiet.
Proof.
  split; [split|done].
  - by intros [| |d].
  - intros [| |a] [| |b] [| |c]; simpl; try done. intros (-> & -> & ->) (-> & -> & ->). done.
Qed.

Lemma quiet_meta k v : kept quiet (upsert_meta k v).
Proof. apply kept_stmt; [exact _|]. by intros d a d' [= _ <-]. Qed.
Lemma quiet_delete_meta k : kept quiet (delete_meta k).
Proof. apply kept_stmt; [exact _|]. by intros d a d' [= _ <-]. Qed.
Lemma quiet_update_meta k v : kept quiet (update_meta k v).
Proof. apply kept_stmt; [exact _|]. by intros d a d' [= _ <-]. Qed.
#[export] Hint Resolve quiet_meta quiet_delete_meta quiet_update_meta : kept.

(** *** Keys stay unique and stored sync states documents *)

Definition db_struct (a b : database) : Prop :=
  match a, b with
  | Ready d, Ready d' => struct_ok d d'
  | Ready _, _ | _, Ready _ => False
  | _, _ => True
  end.

Lemma struct_trans a b c : struct_ok a b -> struct_ok b c -> struct_ok a c.
Proof. unfold struct_ok. intros [? ?] [? ?]. split; eauto. Qed.

#[export] Instance db_struct_rel : DbRel db_struct.
Proof.
  split; [split|done].
  - by intros [| |d].
  - intros [| |a] [| |b] [| |c]; simpl; try done. apply struct_trans.
Qed.

Lemma quiet_struct a b : quiet a b -> db_struct a b.
Proof.
  destruct a as [| |d], b as [| |d']; simpl; try done. intros (E1 & E2 & _).
  unfold struct_ok, keys_ok, task_at. by rewrite E1, E2.
Qed.
Lemma kept_struct {A} (m : M A) : kept quiet m -> kept db_struct m.
Proof. intros H w. apply quiet_struct, H. Qed.

Lemma struct_update_tasks p f :
  (forall r, task_id (f r) = task_id r) ->
  (forall r, sync_shape (sync_state r) -> sync_shape (sync_state (f r))) ->
  kept db_struct (update_tasks p f).
Proof.
  intros Hf Hs. apply kept_stmt; [exact _|]. intros d a d' [= _ <-]. split.
  - intros [K1 K2]. split; [|done]. unfold unique_key. simpl. by rewrite update_where_keys.
  - intros H id r. unfold task_at. simpl. rewrite select_update by done.
    destruct (select_by task_id id (db_tasks d)) as [x|] eqn:E; [|done].
    intros [= <-]. specialize (H id x E). destruct (p x); auto.
Qed.

Lemma struct_update_leases p f :
  (forall r, ls_lease_id (f r) = ls_lease_id r) -> kept db_struct (update_leases p f).
Proof.
  intros Hf. apply kept_stmt; [exact _|]. intros d a d' [= _ <-]. split; [|done].
  intros [K1 K2]. split; [done|]. unfold unique_key. simpl. by rewrite update_where_keys.
Qed.

Lemma struct_insert_lease l : kept db_struct (insert_lease l).
Proof.
  apply kept_stmt; [exact _|]. intros d a d'. destruct (select_by _ _ _) eqn:E; [done|].
  intros [= _ <-]. split; [|done]. intros [K1 K2]. split; [done|]. by apply insert_unique.
Qed.
Lemma struct_upsert_lease l : kept db_struct (upsert_lease l).
Proof.
  apply kept_transaction; [exact _|]. apply kept_stmt; [exact _|]. intros d a d' [= _ <-]. split; [|done].
  intros [K1 K2]. split; [done|]. by apply upsert_unique.
Qed.
Lemma struct_insert_event e : kept db_struct (insert_event e).
Proof.
  apply kept_stmt; [exact _|]. intros d a d'. destruct (select_by _ _ _) eqn:E; [done|].
  by intros [= _ <-].
Qed.
#[export] Hint Resolve struct_insert_lease struct_upsert_lease struct_insert_event : kept.

Definition sync_record (v : pyval) : Prop := v = PNone \/ exists d, v = PDict d.

Lemma sync_record_dumps v : sync_record v -> sync_shape (_dumps v).
Proof. by intros [->|[d ->]]. Qed.

Lemma struct_upsert_task_tx t :
  sync_record (sync_state t) -> kept db_struct (_upsert_task_in_transaction t).
Proof.
  intros Ht. apply kept_stmt; [exact _|]. intros d a d' [= _ <-]. split.
  - intros [K1 K2]. split; [|done]. by apply upsert_unique.
  - intros H id r. unfold task_at. cbn [db_tasks]. rewrite select_upsert by done.
    destruct (String.eqb _ id); [|by apply H]. intros [= <-].
    destruct (select_by task_id id (db_tasks d)); by apply sync_record_dumps.
Qed.
#[export] Hint Resolve struct_upsert_task_tx : kept.

Ltac struct_updates :=
  match goal with
  | |- kept db_struct (update_tasks _ _) => apply struct_update_tasks; [done|done]
  | |- kept db_struct (update_leases _ _) => apply struct_update_leases; done
  end.
Ltac kept_all := repeat (struct_updates || kept1).

(** ** Every transaction has a lease effect *)

Section Effects.
Context `{Sha256}.

Lemma quiet_read_guard id now : kept quiet (_read_cleanup_guard id now).
Proof. unfold _read_cleanup_guard. kept. Qed.
Lemma quiet_read_guard_file id now : kept quiet (_read_cleanup_guard_file id now).
Proof. unfold _read_cleanup_guard_file. kept. Qed.
Lemma quiet_write_guard_file g : kept quiet (_write_cleanup_guard_file g).
Proof. unfold _write_cleanup_guard_file. kept. Qed.
Lemma quiet_remove_guard_file id : kept quiet (_remove_cleanup_guard_file id).
Proof. unfold _remove_cleanup_guard_file. kept. Qed.
#[local] Hint Resolve quiet_read_guard quiet_read_guard_file quiet_write_guard_file
  quiet_remove_guard_file : kept.

Lemma quiet_acquire id o ttl h now : kept quiet (acquire_cleanup_guard id o ttl h now).
Proof. unfold acquire_cleanup_guard, refuse_held. kept. Qed.
Lemma quiet_release_guard id o tk now : kept quiet (release_cleanup_guard id o tk now).
Proof. unfold release_cleanup_guard. kept. Qed.
Lemma quiet_refresh id o tk ttl now : kept quiet (refresh_cleanup_guard id o tk ttl now).
Proof. unfold refresh_cleanup_guard. kept. Qed.

Lemma quiet_ok {A} (m : M A) w r w' d :
  kept quiet m -> m w = (r, w') -> w_db w = Ready d ->
  exists d', w_db w' = Ready d' /\ db_tasks d' = db_tasks d /\ db_leases d' = db_leases d
             /\ db_events d' = db_events d.
Proof.
  intros K E Ed. specialize (K w). rewrite E, Ed in K. simpl in K.
  destruct (w_db w') as [| |d']; [done..|]. by exists d'.
Qed.

(** [inv] through a transaction: an exception restores the tables. *)
Definition ok {A} (m : M A) : Prop := forall w, inv w -> inv (m w).2.

Lemma ok_transaction {A} (body : M A) :
  kept db_struct body ->
  (forall w d a w', w_db w = Ready d -> lease_inv d -> body w = (Ok a, w') ->
     exists d', w_db w' = Ready d' /\ effect d d') ->
  ok (transaction body).
Proof.
  intros Hk He w I. unfold transaction. pose proof (connect_kept db_struct w) as C.
  assert (I0 : inv (connect w)) by (unfold inv, connect in *; by destruct (w_db w) eqn:E;
    simpl; rewrite ?E). clear I C. revert I0. generalize (connect w). clear w. intros w I.
  specialize (Hk w). destruct (body w) as [[a|e] w1] eqn:E; simpl in *; [|done].
  unfold inv in *. destruct (w_db w) as [| |d] eqn:Ed; simpl in Hk; [by destruct (w_db w1)..|].
  destruct (He w d a w1 Ed I E) as (d' & Ed' & Heff). rewrite Ed' in *. by eapply effect_inv.
Qed.

Lemma ok_kept {A} (m : M A) : kept quiet m -> ok m.
Proof.
  intros K w I. specialize (K w). unfold inv in *.
  destruct (w_db w) as [| |d], (w_db (m w).2) as [| |d']; try done.
  pose proof K as (E1 & E2 & _).
  apply (effect_inv d); [apply (quiet_struct (Ready d) (Ready d') K)|
    |done].
  apply eff_keep; unfold task_at, lease_at; rewrite ?E1, ?E2; [|done].
  intros id. apply keeps_refl.
Qed.

Lemma ok_bind {A B} (m : M A) (f : A -> M B) : ok m -> (forall a, ok (f a)) -> ok (m ≫= f).
Proof.
  intros Hm Hf w I. specialize (Hm w I). unfold mbind, ST_bind.
  destruct (m w) as [[a|e] w1]; simpl in *; [by apply Hf|done].
Qed.

(** What a successful claim transaction does to the tables. *)
Definition claim_lease (lid agent : string) (task : TaskRow) (ttl : Z) (now expires : string)
    : LeaseRecord :=
  mkLease lid (claim_resource task) agent (ttl * 60)%Z now expires (Some now) None None.

Definition claimed_row (lid agent now expires : string) (r : TaskRow) : TaskRow :=
  set_updated_at now (set_status "claimed"
    (set_lease (Some lid) (Some agent) (Some expires) (last_heartbeat_at r) r)).

(** The leases a claim inserts into: those of the task's previous lease ended. *)
Definition leases_before_insert (d : Db) (task : TaskRow) (now : string) : list LeaseRecord :=
  match lease_id task with
  | None => db_leases d
  | Some old => update_where (fun r => String.eqb (ls_lease_id r) old && unreleased r)
                  (mark_released now "stale_takeover") (db_leases d)
  end.

Definition takeover_of (l : LeaseRecord) (old : string) : pydict :=
  [("previous_holder", PStr (ls_holder l)); ("previous_lease_id", PStr old);
   ("previous_expires_at", PStr (ls_expires_at l))].

(** The precondition on the task's lease, and the event payload. *)
Definition claimable (d : Db) (task : TaskRow) (now : string) (takeover : bool) (ttl : Z)
    (payload : pydict) : Prop :=
  match lease_id task with
  | None => status task = "ready" /\ payload = [("ttl_minutes", PInt ttl)]
  | Some old => exists l, lease_at d old = Some l /\ unreleased l = true /\
      rfc3339_le (ls_expires_at l) now = Ok true /\ takeover = true /\
      (status task = "claimed" \/ status task = "ready") /\
      payload = [("ttl_minutes", PInt ttl); ("takeover", PDict (takeover_of l old))]
  end.

Lemma take_over_ok task old now tk payload w d p w' :
  w_db w = Ready d -> take_over task old now tk payload w = (Ok p, w') ->
  exists l, lease_at d old = Some l /\ unreleased l = true /\
    rfc3339_le (ls_expires_at l) now = Ok true /\ tk = true /\
    (status task = "claimed" \/ status task = "ready") /\
    p = dict_set payload "takeover" (PDict (takeover_of l old)) /\
    w' = set_db (Ready (mkDb (db_tasks d)
       (update_where (fun r => String.eqb (ls_lease_id r) old && unreleased r)
          (mark_released now "stale_takeover") (db_leases d)) (db_events d) (db_meta d))) w.
Proof.
  unfold take_over. intros Ed E. db_inv. fold (lease_at d old) in *.
  destruct (lease_at d old) as [l|] eqn:El; db_inv. exists l. bool_prop. subst.
  unfold lease_is_expired in *. destruct (unreleased l) eqn:U; [|congruence].
  split_and!; try done.
  match goal with H : existsb _ _ = true |- _ => apply existsb_eqb_In in H end.
  rewrite !elem_of_cons in *. destruct_or!; auto. set_solver.
Qed.

Lemma insert_lease_ok l w u w' :
  insert_lease l w = (Ok u, w') ->
  exists d, w_db w = Ready d /\ lease_at d (ls_lease_id l) = None /\
    w' = set_db (Ready (mkDb (db_tasks d) (db_leases d ++ [l]) (db_events d) (db_meta d))) w.
Proof.
  intros (d & d' & Ed & F & ->)%stmt_ok. exists d. unfold lease_at.
  destruct (select_by _ _ _); [done|]. by injection F as <- <-.
Qed.

Lemma insert_event_ok e w u w' :
  insert_event e w = (Ok u, w') ->
  exists d, w_db w = Ready d /\ select_by ev_event_id (ev_event_id e) (db_events d) = None /\
    w' = set_db (Ready (mkDb (db_tasks d) (db_leases d) (db_events d ++ [e]) (db_meta d))) w.
Proof.
  intros (d & d' & Ed & F & ->)%stmt_ok. exists d.
  destruct (select_by _ _ _); [done|]. by injection F as <- <-.
Qed.

(** The lease gate of a claim. *)
Lemma claim_gate_ok task now tk ttl id e w d p w' :
  w_db w = Ready d ->
  match lease_id task with
  | Some l => take_over task l now tk [("ttl_minutes", PInt ttl)]
  | None => _ ← guard_not (negb (String.eqb (status task) "ready")) (cannot_claim id e);
            mret [("ttl_minutes", PInt ttl)]
  end w = (Ok p, w') ->
  claimable d task now tk ttl p /\
  w' = set_db (Ready (mkDb (db_tasks d) (leases_before_insert d task now) (db_events d)
                (db_meta d))) w.
Proof.
  unfold claimable, leases_before_insert. intros Ed E. destruct (lease_id task) as [old|].
  - apply (take_over_ok _ _ _ _ _ _ d) in E as (l & ? & ? & ? & ? & ? & -> & ->); [|done].
    split; [|done]. by exists l.
  - st_inv. bool_prop. split; [done|]. rewrite <- (set_db_id w) at 1. rewrite Ed. by destruct d.
Qed.

(** Ending a lease keeps the set of lease ids. *)
Lemma leases_before_insert_none d task now k :
  select_by ls_lease_id k (leases_before_insert d task now) = None <-> lease_at d k = None.
Proof.
  unfold leases_before_insert, lease_at. destruct (lease_id task); [|done].
  rewrite select_update by done. by destruct (select_by _ _ _).
Qed.

Definition no_guard (id now : string) (w w' : World) : Prop :=
  exists w1, _read_cleanup_guard id now w = (Ok None, w1) /\
             _read_cleanup_guard_file id now w1 = (Ok None, w').

Lemma claim_transaction_ok id agent lid ttl tk expd now evid w d task expires event w' :
  w_db w = Ready d ->
  claim_transaction id agent lid ttl tk expd now evid w = (Ok (task, expires, event), w') ->
  exists d' payload, w_db w' = Ready d' /\
    task_at d id = Some task /\ _expires_at (ttl * 60) now = Ok expires /\
    (exists w1, no_guard id now w w1) /\
    (expd = None \/ lease_id task = expd) /\
    claimable d task now tk ttl payload /\
    lease_at d lid = None /\
    event = mkEvent evid now id "task.claimed" agent (Some lid) (PDict payload) /\
    db_leases d' = leases_before_insert d task now
                   ++ [claim_lease lid agent task ttl now expires] /\
    db_tasks d' = update_where
      (fun r => String.eqb (task_id r) id && String.eqb (status r) (status task)
                && bool_decide (lease_id r = lease_id task))
      (claimed_row lid agent now expires) (db_tasks d) /\
    db_events d' = db_events d ++ [event_row event].
Proof.
  unfold claim_transaction. intros Ed E.
  run E as x w1 [Hexp ->]%st_lift_ok. run E as row w1 (-> & d0 & E0 & ->)%query_ok.
  assert (d0 = d) as -> by congruence. clear E0. fold (task_at d id) in E.
  destruct (task_at d id) as [t|] eqn:Et; [|done].
  run E as dbg w1 G1. run E as g w2 G2. run E as u w3 [Hg ->]%guard_not_ok.
  assert (NG : no_guard id now w w2).
  { destruct dbg; [by injection G2 as <-|]. exists w1. split; [done|].
    run G2 as fg w4 G3. injection G2 as <- ->. by destruct fg. }
  destruct (quiet_ok _ _ _ _ _ (quiet_read_guard _ _) G1 Ed) as (d1 & E1 & T1 & L1 & V1).
  assert (Q2 : kept quiet (match dbg with Some _ => mret true | None =>
     g ← _read_cleanup_guard_file id now; mret (match g with Some _ => true | None => false end)
     end)) by kept.
  destruct (quiet_ok _ _ _ _ _ Q2 G2 E1) as (d2 & E2 & T2 & L2 & V2).
  run E as u2 w4 [Hexpd ->]%guard_not_ok. clear Q2 G1 G2 Hg.
  run E as p w4 G. apply (claim_gate_ok _ _ _ _ _ _ _ d2) in G as [Hc ->]; [|done].
  run E as u3 w4 (d3 & [= <-] & Hfresh & ->)%insert_lease_ok.
  run E as n w4 (d3 & d4 & [= <-] & [= <- <-] & ->)%stmt_ok.
  run E as u4 w4 [_ ->]%guard_not_ok.
  run E as u5 w4 (d3 & [= <-] & _ & ->)%insert_event_ok. injection E as <- <- <- <-.
  eexists _, p. split; [reflexivity|]. cbn [db_tasks db_leases db_events] in *.
  apply leases_before_insert_none in Hfresh.
  assert (LL : db_leases d2 = db_leases d) by congruence.
  assert (TT : db_tasks d2 = db_tasks d) by congruence.
  assert (VV : db_events d2 = db_events d) by congruence.
  unfold claimable, leases_before_insert, lease_at in *. rewrite LL in Hc, Hfresh.
  rewrite LL, TT, VV. split_and!; try done; [by exists w2|].
  destruct expd; [|by left]. right. by bool_prop.
Qed.

(** Views after a claim. *)
Lemma claim_leases_view d task now lid l k :
  ls_lease_id l = lid -> lease_at d lid = None ->
  select_by ls_lease_id k (leases_before_insert d task now ++ [l])
  = if String.eqb lid k then Some l
    else select_by ls_lease_id k (leases_before_insert d task now).
Proof.
  intros El Hf. rewrite select_app. simpl. rewrite El.
  destruct (String.eqb lid k) eqn:E; [|by destruct (select_by _ _ _)].
  bool_prop. subst. by rewrite (proj2 (leases_before_insert_none d task now _) Hf).
Qed.

Lemma key_and3 {R S} (r : TaskOf R S) id b c : String.eqb (task_id r) id && b && c = true -> task_id r = id.
Proof. intros. by bool_prop. Qed.
Lemma key_and2 {R S} (r : TaskOf R S) id b : String.eqb (task_id r) id && b = true -> task_id r = id.
Proof. intros. by bool_prop. Qed.

Lemma claim_effect d d' id task payload now tk ttl lid agent expires :
  task_at d id = Some task -> claimable d task now tk ttl payload -> lease_at d lid = None ->
  db_leases d' = leases_before_insert d task now ++ [claim_lease lid agent task ttl now expires] ->
  db_tasks d' = update_where
      (fun r => String.eqb (task_id r) id && String.eqb (status r) (status task)
                && bool_decide (lease_id r = lease_id task))
      (claimed_row lid agent now expires) (db_tasks d) ->
  effect d d'.
Proof.
  intros Ht Hc Hf HL HT.
  pose proof (select_by_key _ _ _ _ Ht) as Hid.
  destruct (update_target task_id _ _ id _ _ task HT) as [T1 T2]; try done.
  { intros r. apply key_and3. }
  { by rewrite Hid, !String.eqb_refl, bool_decide_eq_true_2. }
  eapply (eff_relink _ _ id task _ (Some (lid, claim_lease lid agent task ttl now expires)) Ht T1).
  - split; [reflexivity|]. split; [|by auto].
    unfold lease_at. rewrite HL, (claim_leases_view _ _ _ lid) by done. by rewrite String.eqb_refl.
  - intros j Hj. unfold task_at. rewrite T2 by done. apply keeps_refl.
  - intros k Hk Hn. simpl in Hn. unfold lease_at.
    rewrite HL, (claim_leases_view _ _ _ lid) by done.
    destruct (String.eqb lid k) eqn:E; [bool_prop; congruence|].
    unfold leases_before_insert. destruct (lease_id task) as [old|]; [|done].
    rewrite (select_update_key _ _ _ old); [|by intros; bool_prop|done].
    destruct (String.eqb old k) eqn:E2; [bool_prop; congruence|done].
  - intros k x Hk Hn. simpl in Hn. unfold lease_at. rewrite HL, (claim_leases_view _ _ _ lid) by done.
    destruct (String.eqb lid k) eqn:E; [bool_prop; congruence|].
    unfold leases_before_insert. rewrite Hk.
    rewrite (select_update_key ls_lease_id _ _ k) by (try done; by intros; bool_prop).
    rewrite String.eqb_refl. destruct (select_by ls_lease_id _ _) as [y|] eqn:Ey; [|done].
    apply select_by_key in Ey. simpl. rewrite Ey, String.eqb_refl. simpl.
    destruct (unreleased y) eqn:U; [|by intros [= <-]]. by intros [= <-].
Qed.

Lemma struct_claim id agent lid ttl tk expd now evid :
  kept db_struct (claim_transaction id agent lid ttl tk expd now evid).
Proof.
  unfold claim_transaction, take_over.
  pose proof (kept_struct _ (quiet_read_guard id now)).
  pose proof (kept_struct _ (quiet_read_guard_file id now)). kept_all.
Qed.

Lemma quiet_get_task id : kept quiet (get_task id).
Proof. unfold get_task. kept. Qed.
#[local] Hint Resolve quiet_get_task : kept.

Lemma ok_claim id agent ttl tk expd h1 now h2 : ok (claim id agent ttl tk expd h1 now h2).
Proof.
  unfold claim. apply ok_bind; [apply ok_kept; kept|intros _].
  apply ok_bind; [|intros [[? ?] ?]; apply ok_kept; kept].
  apply ok_transaction; [apply struct_claim|].
  intros w d [[task expires] event] w' Ed I E.
  destruct (claim_transaction_ok _ _ _ _ _ _ _ _ _ d _ _ _ _ Ed E)
    as (d' & p & Ed' & Ht & _ & _ & _ & Hc & Hf & _ & HL & HT & _).
  exists d'. split; [done|]. by eapply claim_effect.
Qed.

(** ** Operations that end a lease *)

Lemma drop_effect d d' id lid r p f q now reason :
  task_at d id = Some r -> lease_id r = Some lid ->
  db_tasks d' = update_where p f (db_tasks d) ->
  (forall x, p x = true -> task_id x = id) -> (forall x, task_id (f x) = task_id x) ->
  p r = true -> lease_id (f r) = None ->
  db_leases d' = update_where q (mark_released now reason) (db_leases d) ->
  (forall x, q x = true -> ls_lease_id x = lid) ->
  (forall x, lease_at d lid = Some x -> unreleased x = true -> q x = true) ->
  effect d d'.
Proof.
  intros Ht Hl HT Hp Hf Hpr Hfr HL Hq Hlive.
  destruct (update_target task_id _ _ id _ _ r HT Hp Hf Ht Hpr) as [T1 T2].
  assert (V : forall k, lease_at d' k = if String.eqb lid k
      then (fun x => if q x then mark_released now reason x else x) <$> lease_at d k
      else lease_at d k).
  { intros k. unfold lease_at. rewrite HL. by apply select_update_key. }
  eapply (eff_relink _ _ id r _ None Ht T1); [done|..].
  - intros j Hj. unfold task_at. rewrite T2 by done. apply keeps_refl.
  - intros k Hk _. rewrite V. destruct (String.eqb lid k) eqn:E; [bool_prop; congruence|done].
  - intros k x Hk _. rewrite V. assert (k = lid) as -> by congruence. rewrite String.eqb_refl.
    destruct (lease_at d lid) as [y|] eqn:Ey; [|done]. simpl. intros [= <-].
    destruct (q y) eqn:Q; [done|]. destruct (unreleased y) eqn:U; [|done].
    rewrite (Hlive y) in Q; done.
Qed.

(** The row count of an update by key tells whether the selected row matched. *)
Lemma task_hit d id p r :
  unique_key task_id (db_tasks d) -> task_at d id = Some r ->
  (forall x, p x = true -> task_id x = id) ->
  Nat.eqb (count_where p (db_tasks d)) 0 = false -> p r = true.
Proof.
  intros U Hr Hp. rewrite (count_where_key task_id p id) by done.
  unfold task_at in Hr. rewrite Hr. by destruct (p r).
Qed.
Lemma lease_hit d lid p l :
  unique_key ls_lease_id (db_leases d) -> lease_at d lid = Some l ->
  (forall x, p x = true -> ls_lease_id x = lid) ->
  Nat.eqb (count_where p (db_leases d)) 0 = false -> p l = true.
Proof.
  intros U Hr Hp. rewrite (count_where_key ls_lease_id p lid) by done.
  unfold lease_at in Hr. rewrite Hr. by destruct (p l).
Qed.
Lemma one_row n : negb (Nat.eqb n 1) = false -> Nat.eqb n 0 = false.
Proof. by destruct n as [|[|n]]. Qed.

(** [complete]. *)
Definition completed_row (now exp : string) (r : TaskRow) : TaskRow :=
  set_updated_at now (set_status "completed" (set_lease None None (Some exp) None r)).

Lemma complete_transaction_ok id actor expd now evid w d event w' :
  w_db w = Ready d -> keys_ok d ->
  complete_transaction id actor expd now evid w = (Ok event, w') ->
  exists d' task lid l, w_db w' = Ready d' /\
    task_at d id = Some task /\ lease_id task = Some lid /\ (expd = None \/ expd = Some lid) /\
    lease_at d lid = Some l /\ ls_holder l = actor /\ unreleased l = true /\
    claimed_by task = Some actor /\
    event = mkEvent evid now id "task.completed" actor (Some lid) PNone /\
    db_leases d' = update_where
      (fun r => String.eqb (ls_lease_id r) lid && String.eqb (ls_holder r) actor && unreleased r)
      (mark_released now "completed") (db_leases d) /\
    db_tasks d' = update_where
      (fun r => String.eqb (task_id r) id && bool_decide (lease_id r = Some lid)
                && bool_decide (claimed_by r = Some actor))
      (completed_row now (ls_expires_at l)) (db_tasks d) /\
    db_events d' = db_events d ++ [event_row event].
Proof.
  unfold complete_transaction. intros Ed [U1 U2] E.
  run E as row w1 (-> & d0 & E0 & ->)%query_ok. assert (d0 = d) as -> by congruence. clear E0.
  fold (task_at d id) in E. destruct (task_at d id) as [task|] eqn:Et; [|done].
  destruct (lease_id task) as [lid|] eqn:El; [|done]. cbv zeta in E.
  run E as u w1 G. assert (w1 = w /\ (expd = None \/ expd = Some lid)) as [-> Hexpd].
  { destruct expd as [e|]; [|by injection G as <- <-; auto].
    apply guard_not_ok in G as [? ->]. bool_prop. by subst; auto. }
  run E as row w1 (-> & d0 & E0 & ->)%query_ok. assert (d0 = d) as -> by congruence. clear E0.
  fold (lease_at d lid) in E. destruct (lease_at d lid) as [l|] eqn:Ell; [|done].
  run E as u1 w1 [Hh ->]%guard_not_ok. run E as n w1 (d1 & d2 & E1 & [= <- <-] & ->)%stmt_ok.
  assert (d1 = d) as -> by congruence. run E as u2 w1 [Hn ->]%guard_not_ok.
  run E as m w1 (d3 & d4 & [= <-] & [= <- <-] & ->)%stmt_ok.
  run E as u3 w1 [Hm ->]%guard_not_ok.
  run E as u4 w1 (d3 & [= <-] & _ & ->)%insert_event_ok. injection E as <- <-.
  cbn [db_tasks db_leases db_events] in *. apply one_row in Hn, Hm.
  apply (lease_hit d lid _ l U2 Ell) in Hn; [|by intros; bool_prop].
  apply (task_hit d id _ task U1 Et) in Hm; [|intros x; apply key_and3]. cbv beta in Hn, Hm. bool_prop.
  eexists _, task, lid, l. split; [reflexivity|]. by split_and!.
Qed.

Lemma ok_complete id actor expd now h : ok (complete id actor expd now h).
Proof.
  unfold complete. apply ok_bind; [|intros e; apply ok_kept; kept].
  apply ok_transaction; [unfold complete_transaction; kept_all|].
  intros w d e w' Ed I E. destruct (complete_transaction_ok _ _ _ _ _ _ _ _ _ Ed (inv_keys d I) E)
    as (d' & task & lid & l & Ed' & Ht & Hl & _ & Hll & Hh & U & Hc & _ & HL & HT & _).
  exists d'. split; [done|]. pose proof (select_by_key _ _ _ _ Ht) as Hid.
  eapply drop_effect; try done.
  - keyed.
  - cbv beta. by rewrite Hid, String.eqb_refl, !bool_decide_eq_true_2.
  - keyed.
  - intros x Hx Ux. assert (x = l) as -> by congruence. apply select_by_key in Hll.
    cbv beta. by rewrite Hll, Hh, U, !String.eqb_refl.
Qed.

(** [heartbeat]. *)
Definition renewed_lease (now expires : string) (l : LeaseRecord) : LeaseRecord :=
  mkLease (ls_lease_id l) (ls_resource l) (ls_holder l) (ls_ttl_seconds l) (ls_acquired_at l)
    expires (Some now) (ls_released_at l) (ls_release_reason l).
Definition renewed_row (now expires : string) (r : TaskRow) : TaskRow :=
  set_updated_at now (set_lease (lease_id r) (claimed_by r) (Some expires) (Some now) r).

Lemma heartbeat_transaction_ok id agent now evid w d l expires event w' :
  w_db w = Ready d -> keys_ok d ->
  heartbeat_transaction id agent now evid w = (Ok (l, expires, event), w') ->
  exists d' task lid, w_db w' = Ready d' /\
    task_at d id = Some task /\ lease_id task = Some lid /\ lease_at d lid = Some l /\
    ls_holder l = agent /\ unreleased l = true /\
    rfc3339_le (ls_expires_at l) now = Ok false /\
    String.ltb now (ls_expires_at l) = true /\
    _expires_at (ls_ttl_seconds l) now = Ok expires /\ claimed_by task = Some agent /\
    event = mkEvent evid now id "task.heartbeat" agent (Some lid) PNone /\
    db_leases d' = update_where
      (fun r => String.eqb (ls_lease_id r) lid && String.eqb (ls_holder r) agent && unreleased r
                && String.ltb now (ls_expires_at r))
      (renewed_lease now expires) (db_leases d) /\
    db_tasks d' = update_where
      (fun r => String.eqb (task_id r) id && bool_decide (lease_id r = Some lid)
                && bool_decide (claimed_by r = Some agent))
      (renewed_row now expires) (db_tasks d) /\
    db_events d' = db_events d ++ [event_row event].
Proof.
  unfold heartbeat_transaction. intros Ed [U1 U2] E.
  run E as row w1 (-> & d0 & E0 & ->)%query_ok. assert (d0 = d) as -> by congruence. clear E0.
  fold (task_at d id) in E. destruct (task_at d id) as [task|] eqn:Et; [|done].
  destruct (lease_id task) as [lid|] eqn:El; [|done].
  run E as row w1 (-> & d0 & E0 & ->)%query_ok. assert (d0 = d) as -> by congruence. clear E0.
  fold (lease_at d lid) in E. destruct (lease_at d lid) as [y|] eqn:Ell; [|done].
  pose proof (select_by_key _ _ _ _ Ell) as Hk. cbv zeta in E. rewrite Hk in E.
  run E as u1 w1 [Hh ->]%guard_not_ok. run E as x w1 [Hx ->]%st_lift_ok.
  run E as u2 w1 [-> ->]%guard_not_ok. run E as ex w1 [Hex ->]%st_lift_ok.
  run E as n w1 (d1 & d2 & E1 & [= <- <-] & ->)%stmt_ok.
  assert (d1 = d) as -> by congruence. run E as u3 w1 [Hn ->]%guard_not_ok.
  run E as m w1 (d3 & d4 & [= <-] & [= <- <-] & ->)%stmt_ok.
  run E as u4 w1 [Hm ->]%guard_not_ok.
  run E as u5 w1 (d3 & [= <-] & _ & ->)%insert_event_ok. injection E as <- <- <- <-.
  cbn [db_tasks db_leases db_events] in *. apply one_row in Hn, Hm.
  apply (lease_hit d lid _ y U2 Ell) in Hn; [|by intros; bool_prop].
  apply (task_hit d id _ task U1 Et) in Hm; [|intros z; apply key_and3].
  cbv beta in Hn, Hm. bool_prop. destruct (unreleased y); [|done].
  eexists _, task, lid. split; [reflexivity|]. by split_and!.
Qed.

Lemma renew_effect d d' id lid task l now expires agent p q :
  task_at d id = Some task -> lease_id task = Some lid -> lease_at d lid = Some l ->
  unreleased l = true -> ls_holder l = agent -> claimed_by task = Some agent ->
  db_leases d' = update_where q (renewed_lease now expires) (db_leases d) ->
  (forall x, q x = true -> ls_lease_id x = lid) -> q l = true ->
  db_tasks d' = update_where p (renewed_row now expires) (db_tasks d) ->
  (forall x, p x = true -> task_id x = id) -> p task = true ->
  effect d d'.
Proof.
  intros Ht Hl Hll U Hh Hc HL Hq Hql HT Hp Hpt.
  destruct (update_target task_id _ _ id _ _ task HT Hp) as [T1 T2]; try done.
  destruct (update_target ls_lease_id _ _ lid _ _ l HL Hq) as [L1 L2]; try done.
  eapply (eff_relink _ _ id task _ (Some (lid, renewed_lease now expires l)) Ht T1).
  - unfold new_link, link. simpl. rewrite Hl, Hc, Hh. split_and!; auto.
  - intros j Hj. unfold task_at. rewrite T2 by done. apply keeps_refl.
  - intros k _ Hk. simpl in Hk. unfold lease_at. rewrite L2; [done|congruence].
  - intros k x Hk Hn. simpl in Hn. congruence.
Qed.

Lemma ok_heartbeat id agent now h : ok (heartbeat id agent now h).
Proof.
  unfold heartbeat. apply ok_bind; [|intros [[? ?] ?]; apply ok_kept; kept].
  apply ok_transaction; [unfold heartbeat_transaction; kept_all|].
  intros w d [[l ex] e] w' Ed I E.
  destruct (heartbeat_transaction_ok _ _ _ _ _ _ _ _ _ _ Ed (inv_keys d I) E)
    as (d' & task & lid & Ed' & Ht & Hl & Hll & Hh & U & _ & Hlt & _ & Hc & _ & HL & HT & _).
  exists d'. split; [done|]. pose proof (select_by_key _ _ _ _ Ht) as Hid.
  pose proof (select_by_key _ _ _ _ Hll) as Hlid.
  eapply renew_effect; try done.
  - keyed.
  - cbv beta. by rewrite Hlid, Hh, U, Hlt, !String.eqb_refl.
  - keyed.
  - cbv beta. by rewrite Hid, String.eqb_refl, !bool_decide_eq_true_2.
Qed.

(** [_move_task_to_review]: a kept link, or a dropped one. *)
Lemma update_keep_effect d d' p f :
  db_tasks d' = update_where p f (db_tasks d) -> db_leases d' = db_leases d ->
  (forall x, task_id (f x) = task_id x) -> (forall x, link (f x) = link x) -> effect d d'.
Proof.
  intros HT HL Hf Hl. apply eff_keep; [|intros lid; unfold lease_at; by rewrite HL].
  intros id. unfold task_at. rewrite HT, select_update by done.
  destruct (select_by _ _ _) as [r|]; [|done]. simpl. left. by destruct (p r).
Qed.

Lemma insert_event_opt_ok (e : option EventRecord) w u w' d :
  w_db w = Ready d ->
  match e with Some e => insert_event (event_row e) | None => mret tt end w = (Ok u, w') ->
  exists evs, w_db w' = Ready (mkDb (db_tasks d) (db_leases d) evs (db_meta d)).
Proof.
  intros Ed E. destruct e as [e|].
  - apply insert_event_ok in E as (d0 & E0 & _ & ->). assert (d0 = d) as -> by congruence.
    by eexists.
  - injection E as <- <-. exists (db_events d). rewrite Ed. by destruct d.
Qed.

Lemma review_effect id actor note allow now e1 e2 w d x w' :
  w_db w = Ready d -> keys_ok d ->
  review_transaction id actor note allow now e1 e2 w = (Ok x, w') ->
  exists d', w_db w' = Ready d' /\ effect d d'.
Proof.
  unfold review_transaction. intros Ed [U1 U2] E.
  run E as row w1 (-> & d0 & E0 & ->)%query_ok. assert (d0 = d) as -> by congruence. clear E0.
  fold (task_at d id) in E. destruct (task_at d id) as [task|] eqn:Et; [|done]. cbv zeta in E.
  run E as [moved rel] w1 G. run E as u w2 [Hm ->]%guard_not_ok. run E as u2 w2 EV1.
  run E as u3 w3 EV2. injection E as <- <-.
  assert (HG : exists d1, w_db w1 = Ready d1 /\ effect d d1).
  2: { destruct HG as (d1 & E1 & [K L|i r r' nw Hr Hr' Hn Ho Hs He]);
    destruct (insert_event_opt_ok rel w1 _ _ _ E1 EV1) as (evs & E2);
    apply insert_event_ok in EV2 as (d3 & E3 & _ & ->); rewrite E2 in E3;
    injection E3 as <-; (eexists; split; [reflexivity|]).
    - by apply eff_keep. - by eapply eff_relink. }
  clear EV1 EV2. destruct (lease_id task) as [lid|] eqn:El.
  - run G as u4 w4 [_ ->]%guard_not_ok.
    run G as row w4 (-> & d0 & E0 & ->)%query_ok. assert (d0 = d) as -> by congruence. clear E0.
    fold (lease_at d lid) in G. destruct (lease_at d lid) as [l|] eqn:Ell; [|done].
    run G as u5 w4 [Hu ->]%guard_not_ok. run G as u6 w4 [Hh ->]%guard_not_ok.
    run G as n w4 (d1 & d2 & E1 & [= <- <-] & ->)%stmt_ok. assert (d1 = d) as -> by congruence.
    run G as u7 w4 [Hn ->]%guard_not_ok.
    run G as m w4 (d3 & d4 & [= <-] & [= <- <-] & ->)%stmt_ok. injection G as <- <- <-.
    eexists. split; [reflexivity|]. cbn [db_tasks] in Hm. apply one_row in Hm.
    apply (task_hit d id _ task U1 Et) in Hm; [|keyed].
    eapply (drop_effect d _ id lid task); try done; [keyed|keyed|].
    intros x Hx Ux. apply select_by_key in Hx. cbv beta. by rewrite Hx, String.eqb_refl, Ux.
  - run G as m w4 (d3 & d4 & E3 & [= <- <-] & ->)%stmt_ok. injection G as <- <- <-.
    assert (d3 = d) as -> by congruence. eexists. split; [reflexivity|].
    by eapply update_keep_effect; [reflexivity|..].
Qed.

Lemma ok_review id actor note allow now h1 h2 :
  ok (_move_task_to_review id actor note allow now h1 h2).
Proof.
  unfold _move_task_to_review.
  apply ok_bind; [|intros [? ?]; apply ok_kept; kept].
  apply ok_transaction; [unfold review_transaction; kept_all|].
  intros w d x w' Ed I E. by eapply review_effect; [|apply inv_keys|].
Qed.

(** [_reclaim_one]. *)
Definition reclaimed_row (now st : string) (sync : jtext) (r : TaskRow) : TaskRow :=
  set_updated_at now (set_sync_state sync (set_status st (set_lease None None None None r))).

Ltac rolled_back E w :=
  cbv [mbind ST_bind st_modify mret ST_ret] in E; simplify_eq; by destruct w.

Lemma reclaim_one_inv id lid actor now_us h w r w' d :
  w_db w = Ready d -> keys_ok d ->
  _reclaim_one id lid actor now_us h w = (r, w') ->
  let now := _utc_now now_us in
  match r with
  | Ok (Some e) => exists d' task l st sync, w_db w' = Ready d' /\
      w_files w' = w_files w /\
      task_at d id = Some task /\ lease_id task = Some lid /\ lease_at d lid = Some l /\
      unreleased l = true /\ rfc3339_le now (ls_expires_at l) = Ok false /\
      reclaimed_state task now = Ok (st, sync) /\
      e = mkEvent (_make_event_id h) now id "task.released" actor (Some lid)
            (PDict [("reason", PStr "expired")]) /\
      db_leases d' = update_where
        (fun r => String.eqb (ls_lease_id r) lid && unreleased r)
        (mark_released now "expired") (db_leases d) /\
      db_tasks d' = update_where
        (fun r => String.eqb (task_id r) id && bool_decide (lease_id r = Some lid))
        (reclaimed_row now st sync) (db_tasks d) /\
      db_events d' = db_events d ++ [event_row e]
  | _ => w' = w
  end.
Proof.
  intros Ed [U1 U2] E now. unfold _reclaim_one, select_task, select_lease, update_tasks, update_leases in E.
  fold now in E.
  apply transaction_inv in E as (w1 & E & Hw). rewrite (connect_ready w d Ed) in *.
  rewrite (st_run st_get _ w w w eq_refl), (st_run _ _ _ _ _ (query_run _ w d Ed)) in E. cbv beta in E.
  fold (task_at d id) in E. destruct (task_at d id) as [task|] eqn:Et;
    [|by rolled_back E w].
  destruct (bool_decide (lease_id task = Some lid)) eqn:Hl; simpl in E;
    [|by rolled_back E w]. bool_prop.
  rewrite (st_run _ _ _ _ _ (query_run _ w d Ed)) in E. cbv beta in E.
  fold (lease_at d lid) in E. destruct (lease_at d lid) as [l|] eqn:Ell;
    [|by rolled_back E w].
  destruct (unreleased l) eqn:Hu; simpl in E; [|by rolled_back E w].
  destruct (rfc3339_le now (ls_expires_at l)) as [live|e] eqn:Hlive.
  2: { rewrite (st_run_raise (st_lift _) _ w e w) in E by done. simplify_eq. by rewrite set_db_id. }
  rewrite (st_run (st_lift _) _ w live w) in E by done.
  destruct live; [by rolled_back E w|].
  rewrite (st_run _ _ _ _ _ (stmt_run _ w d _ _ Ed eq_refl)) in E.
  destruct (Nat.eqb _ 0) eqn:Hn; [by rolled_back E w|].
  destruct (reclaimed_state task now) as [[st sync]|e] eqn:Hs.
  2: { rewrite (st_run_raise (st_lift _) _ _ e _ eq_refl) in E. simplify_eq. by destruct w. }
  rewrite (st_run (st_lift _) _ _ (st, sync) _ eq_refl) in E.
  rewrite (st_run _ _ _ _ _ (stmt_run _ (set_db _ w) _ _ _ eq_refl eq_refl)) in E.
  destruct (Nat.eqb _ 0) eqn:Hm in E; [by rolled_back E w|].
  cbn [db_tasks db_leases db_events db_meta] in *. destruct r as [o|e].
  - run E as u w2 (d3 & [= <-] & _ & ->)%insert_event_ok. injection E as <- <-. subst w'.
    eexists _, task, l, st, sync. split; [reflexivity|]. by split_and!.
  - apply st_bind_raise in E as [E|(u & w2 & _ & [=])].
    apply stmt_inv in E as [(? & ? & ? & _ & _ & [=] & _)|(e' & _ & ->)]. subst w'. by destruct w.
Qed.

Lemma reclaimed_sync task now st sync :
  reclaimed_state task now = Ok (st, sync) -> exists d, sync = JDoc (PDict d).
Proof.
  unfold reclaimed_state. intros (x & _ & E)%bind_ok. destruct (terminal_status _);
    injection E as <- <-; simpl; eauto.
Qed.

Lemma struct_update d d' p f q g :
  db_tasks d' = update_where p f (db_tasks d) -> db_leases d' = update_where q g (db_leases d) ->
  (forall r, task_id (f r) = task_id r) -> (forall r, ls_lease_id (g r) = ls_lease_id r) ->
  (forall r, sync_shape (sync_state r) -> sync_shape (sync_state (f r))) ->
  struct_ok d d'.
Proof.
  intros HT HL Hf Hg Hs. split.
  - unfold keys_ok, unique_key. by rewrite HT, HL, !update_where_keys.
  - intros H0 id r. unfold task_at. rewrite HT, select_update by done.
    destruct (select_by task_id id (db_tasks d)) as [x|] eqn:E; [|done].
    intros [= <-]. specialize (H0 id x E). destruct (p x); auto.
Qed.

Lemma ok_reclaim_one id lid actor now h : ok (_reclaim_one id lid actor now h).
Proof.
  intros w I. destruct (_reclaim_one id lid actor now h w) as [r w'] eqn:E. simpl.
  unfold inv in I. destruct (w_db w) as [| |d] eqn:Ed.
  1, 2: destruct w as [db f j wr]; simpl in Ed; subst db; by injection E as <- <-.
  pose proof (reclaim_one_inv _ _ _ _ _ _ _ _ d Ed (inv_keys d I) E) as R. cbv zeta in R.
  destruct r as [[e|]|e]; try (subst w'; unfold inv; by rewrite Ed).
  destruct R as (d' & task & l & st & sync & Ed' & _ & Ht & Hl & Hll & U & _ & Hst & _ & HL & HT & _).
  unfold inv. rewrite Ed'. destruct (reclaimed_sync _ _ _ _ Hst) as [sd ->].
  pose proof (select_by_key _ _ _ _ Ht) as Hid.
  apply (effect_inv d); [by eapply struct_update|eapply drop_effect|done]; try done; try keyed.
  - cbv beta. by rewrite Hid, String.eqb_refl, bool_decide_eq_true_2.
  - intros x Hx Ux. apply select_by_key in Hx. cbv beta. by rewrite Hx, String.eqb_refl, Ux.
Qed.

Lemma ok_catch {A} (m : M A) h : ok m -> (forall e, ok (h e)) -> ok (st_catch m h).
Proof.
  intros Hm Hh w I. specialize (Hm w I). unfold st_catch.
  destruct (m w) as [[a|e] w1]; simpl in *; [done|by apply Hh].
Qed.

Lemma ok_reclaim_observed draw actor i observed :
  ok (_reclaim_observed_leases draw actor i observed).
Proof.
  revert i. induction observed as [|[id lid] observed IH]; intros i; simpl;
    [apply ok_kept; kept|].
  apply ok_bind; [apply ok_catch; [apply ok_reclaim_one|intros; apply ok_kept; kept]|].
  intros [e|]; [|apply IH].
  apply ok_bind; [apply ok_catch; intros; apply ok_kept; kept|intros _].
  apply ok_bind; [apply IH|intros; apply ok_kept; kept].
Qed.

Lemma ok_reclaim actor now draw : ok (reclaim_expired_leases actor now draw).
Proof.
  unfold reclaim_expired_leases, _observe_expired_leases.
  apply ok_bind; [apply ok_kept; kept|intros; apply ok_reclaim_observed].
Qed.

(** ** Read-modify-write operations *)

Lemma row_to_task_ok r t :
  _row_to_task r = Ok t ->
  link t = link r /\ task_id t = task_id r /\ status t = status r /\
  blocked_reason t = blocked_reason r /\ (sync_shape (sync_state r) -> sync_record (sync_state t)).
Proof.
  unfold _row_to_task. intros (refs & _ & (sync & Hs & E)%bind_ok)%bind_ok. injection E as <-.
  simpl. split_and!; try done. unfold sync_shape, _loads, sync_record in *.
  destruct (sync_state r) as [| |v|]; simplify_eq; auto. intros M. destruct sync; try done. eauto.
Qed.

Lemma get_task_inv id w r w' :
  get_task id w = (r, w') ->
  w' = connect w /\
  match r with
  | Ok (Some t) => exists d row, w_db w = Ready d /\ task_at d id = Some row /\ _row_to_task row = Ok t
  | Ok None => exists d, w_db w = Ready d /\ task_at d id = None
  | Raise _ => True
  end.
Proof.
  unfold get_task. unfold mbind at 1, ST_bind at 1.
  destruct (transaction (select_task id) w) as [q w1] eqn:E.
  apply transaction_inv in E as (w2 & E & Hw). apply query_inv in E as [-> Hq].
  assert (w1 = connect w) as -> by (destruct q; [done|by rewrite set_db_id in Hw]). clear Hw.
  assert (C : forall d, w_db (connect w) = Ready d -> w_db w = Ready d)
    by (unfold connect; intros d; by destruct (w_db w) eqn:E; simpl; rewrite ?E).
  destruct q as [[row|]|e].
  - destruct Hq as (d & Ed & Er). unfold mbind, ST_bind, st_lift.
    destruct (_row_to_task row) as [t|e] eqn:Et; intros [= <- <-]; split; try done.
    exists d, row. by split_and!; [apply C| |].
  - destruct Hq as (d & Ed & Er). intros [= <- <-]. split; [done|]. exists d. by split; [apply C|].
  - intros [= <- <-]. done.
Qed.

Lemma upsert_view d t j :
  select_by task_id j
    (upsert task_id (overwrite_row (task_row t)) (task_row t) (db_tasks d))
  = if String.eqb (task_id t) j
    then Some (match task_at d j with
               | Some old => overwrite_row (task_row t) old
               | None => task_row t end)
    else task_at d j.
Proof. by rewrite select_upsert. Qed.

(** Writing a record whose lease fields are those of the stored row. *)
Definition same_link (d : Db) (t : TaskRecord) : Prop :=
  match task_at d (task_id t) with
  | Some r => link t = link r \/ (lease_id r = None /\ lease_id t = None)
  | None => lease_id t = None
  end.

Lemma inv_upsert_tx t w :
  (forall d, w_db w = Ready d -> same_link d t) -> sync_record (sync_state t) -> inv w ->
  inv (_upsert_task_in_transaction t w).2.
Proof.
  intros Hl Hs I. pose proof (struct_upsert_task_tx t Hs w) as K.
  unfold _upsert_task_in_transaction, stmt in *. unfold inv in *.
  destruct (w_db w) as [| |d] eqn:Ed; cbn [snd set_db w_db] in *; rewrite ?Ed; try done.
  specialize (Hl d eq_refl). eapply (effect_inv d); [done| |done].
  apply eff_keep; [|done]. intros j. unfold task_at at 2. cbn [db_tasks]. rewrite upsert_view.
  destruct (String.eqb (task_id t) j) eqn:E; [|apply keeps_refl]. bool_prop. subst j.
  unfold same_link in Hl. by destruct (task_at d (task_id t)).
Qed.

Lemma inv_connect w : inv w -> inv (connect w).
Proof. unfold inv, connect. by destruct (w_db w) eqn:E; simpl; rewrite ?E. Qed.

Lemma inv_transaction {A} (body : M A) w :
  inv (connect w) -> inv (body (connect w)).2 -> inv (transaction body w).2.
Proof.
  unfold transaction. intros I0 I1. destruct (body (connect w)) as [[a|e] w1]; simpl in *; [done|].
  unfold inv in *. simpl. done.
Qed.

(** Only events (and metadata) change. *)
Definition log_only (a b : database) : Prop :=
  match a, b with
  | Ready d, Ready d' => db_tasks d' = db_tasks d /\ db_leases d' = db_leases d
  | Ready _, _ | _, Ready _ => False
  | _, _ => True
  end.
#[local] Instance log_only_rel : DbRel log_only.
Proof.
  split; [split|done].
  - by intros [| |d].
  - intros [| |a] [| |b] [| |c]; simpl; try done. intros (-> & ->) (-> & ->). done.
Qed.
Lemma log_insert_event e : kept log_only (insert_event e).
Proof.
  apply kept_stmt; [exact _|]. intros d a d'. destruct (select_by _ _ _); [done|].
  by intros [= _ <-].
Qed.
#[local] Hint Resolve log_insert_event : kept.
Lemma log_append_event e : kept log_only (append_event e).
Proof. unfold append_event. kept. Qed.

Lemma inv_views d d' :
  (forall id, task_at d' id = task_at d id) -> (forall id, lease_at d' id = lease_at d id) ->
  keys_ok d' -> lease_inv d -> lease_inv d'.
Proof.
  intros T L K I. split; [done|..].
  - intros id r lid. rewrite T, L. apply (inv_linked d I).
  - intros lid l. rewrite L. intros E U. destruct (inv_owned d I lid l E U) as (j & r & ? & ?).
    exists j, r. by rewrite T.
  - intros id1 id2 r1 r2 lid. rewrite !T. apply (inv_exclusive d I).
  - intros id r. rewrite T. apply (inv_sync d I).
Qed.

Lemma ok_log {A} (m : M A) : kept log_only m -> ok m.
Proof.
  intros K w I. specialize (K w). unfold inv in *.
  destruct (w_db w) as [| |d], (w_db (m w).2) as [| |d']; try done. destruct K as [E1 E2].
  apply (inv_views d); [..|done]; unfold task_at, lease_at, keys_ok; rewrite ?E1, ?E2;
    try done. apply (inv_keys d I).
Qed.

Lemma inv_write_task d t t' id et actor pl now2 h w row :
  w_db w = Ready d -> task_at d id = Some row -> _row_to_task row = Ok t ->
  link t' = link t -> task_id t' = task_id t -> sync_state t' = sync_state t -> inv w ->
  inv (write_task t' id et actor pl now2 h w).2.
Proof.
  intros Ed Et Er Hl Hid Hs I. apply row_to_task_ok in Er as (L & T & _ & _ & S).
  unfold write_task. unfold mbind at 1, ST_bind at 1.
  assert (I1 : inv (upsert_task t' w).2).
  { apply inv_transaction; rewrite (connect_ready w d Ed); [done|]. apply inv_upsert_tx; [| |done].
    - intros d0 E0. assert (d0 = d) as -> by congruence. unfold same_link.
      rewrite Hid, T, (select_by_key _ _ _ _ Et), Et. left. congruence.
    - rewrite Hs. apply S. unfold inv in I. rewrite Ed in I. by eapply inv_sync. }
  destruct (upsert_task t' w) as [[u|e] w1]; simpl in *; [|done].
  apply ok_bind; [apply ok_log, log_append_event|intros _; apply ok_kept; kept|done].
Qed.

Lemma ok_require {A} id (f : TaskRecord -> M A) :
  (forall t w d row, w_db w = Ready d -> task_at d id = Some row -> _row_to_task row = Ok t ->
     inv w -> inv (f t w).2) ->
  ok (require_task id ≫= f).
Proof.
  intros Hf w I. unfold require_task, mbind, ST_bind.
  destruct (get_task id w) as [[[t|]|e] w1] eqn:E; simpl; apply get_task_inv in E as [-> E];
    try by apply inv_connect.
  destruct E as (d & row & Ed & Et & Er). rewrite (connect_ready w d Ed). by eapply Hf.
Qed.

Lemma ok_block id reason actor n1 h n2 : ok (block id reason actor n1 h n2).
Proof. apply ok_require. intros. by eapply inv_write_task. Qed.

Lemma ok_unblock id actor n1 h n2 : ok (unblock id actor n1 h n2).
Proof.
  apply ok_require. intros t w d row Ed Et Er I. cbv zeta.
  destruct (String.eqb _ "blocked"); by eapply inv_write_task.
Qed.

Lemma ok_update_task id st note actor n1 h n2 : ok (update_task id st note actor n1 h n2).
Proof.
  apply ok_require. intros t w d row Ed Et Er I. cbv zeta.
  destruct st as [s|]; [destruct (String.eqb s "blocked")|]; by eapply inv_write_task.
Qed.

Lemma ok_link_pr id pr actor n1 h n2 : ok (link_pr id pr actor n1 h n2).
Proof. apply ok_require. intros. by eapply inv_write_task. Qed.

Lemma ok_move_task id st actor note n1 h1 h2 n2 : ok (move_task id st actor note n1 h1 h2 n2).
Proof.
  unfold move_task. apply ok_bind; [apply ok_kept; kept|]. intros next.
  destruct (String.eqb next "review"); [apply ok_review|].
  apply ok_require. intros t w d row Ed Et Er I. cbv zeta. unfold guard_not.
  destruct (_ && _); [done|]. rewrite (st_run (mret tt) _ w tt w eq_refl).
  destruct (String.eqb next "blocked"); by eapply inv_write_task.
Qed.

(** [release], run without interruption. *)
Lemma release_read_ok id agent w t l w' :
  release_read id agent w = (Ok (t, l), w') ->
  exists d row lid, w' = w /\ w_db w = Ready d /\ task_at d id = Some row /\
    _row_to_task row = Ok t /\ lease_id row = Some lid /\ lease_at d lid = Some l /\
    ls_holder l = agent.
Proof.
  unfold release_read. intros E. run E as o w1 G. apply get_task_inv in G as [-> G].
  destruct o as [task|]; [|done]. destruct G as (d & row & Ed & Et & Er).
  rewrite (connect_ready w d Ed) in E. apply row_to_task_ok in Er as HR. destruct HR as (L & _).
  apply link_eq in L as (L & _). destruct (lease_id task) as [lid|] eqn:El; [|done].
  run E as o w2 G. apply transaction_ok in G. rewrite (connect_ready w d Ed) in G.
  apply query_ok in G as (-> & d0 & E0 & ->). assert (d0 = d) as -> by congruence.
  fold (lease_at d lid) in E. destruct (lease_at d lid) as [y|] eqn:Ey; [|done].
  run E as u w3 [Hh ->]%guard_not_ok. injection E as <- <- <-. bool_prop.
  exists d, row, lid. by split_and!.
Qed.

Lemma py_dict_record v : sync_record v ->
  exists d, (if truthy v then py_dict v else Ok []) = Ok d.
Proof.
  intros [->|[d ->]]; [by eexists|]. exists d. simpl. by destruct d.
Qed.

Lemma released_task_ok now t : sync_record (sync_state t) ->
  exists t', released_task now t = Ok t' /\ lease_id t' = None /\ task_id t' = task_id t /\
             sync_record (sync_state t').
Proof.
  intros S. unfold released_task. destruct (py_dict_record _ S) as [d ->]. simpl.
  eexists. split; [done|]. simpl. split_and!; try done. right. by eexists.
Qed.

(** The two writes together drop the link. *)
Lemma release_effect d id row lid l t' now reason :
  keys_ok d -> task_at d id = Some row -> lease_id row = Some lid -> lease_at d lid = Some l ->
  lease_id t' = None -> task_id t' = id -> sync_record (sync_state t') ->
  let d' := mkDb (upsert task_id (overwrite_row (task_row t')) (task_row t') (db_tasks d))
              (upsert ls_lease_id (fun _ => mark_released now reason l)
                 (mark_released now reason l) (db_leases d)) (db_events d) (db_meta d) in
  struct_ok d d' /\ effect d d'.
Proof.
  intros [U1 U2] Et El Ell Hn Hid Hs d'. pose proof (select_by_key _ _ _ _ Ell) as Hlid.
  assert (T : forall j, task_at d' j = if String.eqb id j
      then Some (match task_at d j with Some old => overwrite_row (task_row t') old
                 | None => task_row t' end) else task_at d j).
  { intros j. unfold task_at at 1. cbn [d' db_tasks]. by rewrite upsert_view, Hid. }
  assert (L : forall k, lease_at d' k = if String.eqb lid k then Some (mark_released now reason l)
      else lease_at d k).
  { intros k. unfold lease_at. cbn [d' db_leases]. rewrite select_upsert by done.
    simpl. rewrite Hlid. by destruct (String.eqb lid k), (select_by ls_lease_id k (db_leases d)). }
  split.
  - split.
    + intros _. split; by apply upsert_unique.
    + intros H0 j r. rewrite T. destruct (String.eqb id j); [|apply H0].
      intros [= <-]. destruct (task_at d j); by apply sync_record_dumps.
  - eapply (eff_relink _ _ id row (overwrite_row (task_row t') row) None Et).
    + by rewrite T, String.eqb_refl, Et.
    + done.
    + intros j Hj. rewrite T, (proj2 (String.eqb_neq id j)) by done. apply keeps_refl.
    + intros k Hk _. rewrite L. destruct (String.eqb lid k) eqn:E; [bool_prop; congruence|done].
    + intros k x Hk _. assert (k = lid) as -> by congruence. rewrite L, String.eqb_refl.
      by intros [= <-].
Qed.

Lemma ok_release id agent reason now h : ok (release id agent reason now h).
Proof.
  intros w I. unfold release. unfold mbind at 1, ST_bind at 1.
  destruct (release_read id agent w) as [[[t l]|e] w1] eqn:E.
  2: { assert (K : kept quiet (release_read id agent)) by (unfold release_read, get_lease; kept).
       pose proof (ok_kept _ K w I) as I1. by rewrite E in I1. }
  apply release_read_ok in E as (d & row & lid & -> & Ed & Et & Er & El & Ell & Hh).
  pose proof I as Id. unfold inv in Id. rewrite Ed in Id.
  apply row_to_task_ok in Er as (_ & Tid & _ & _ & S). specialize (S (inv_sync d Id id row Et)).
  rewrite (select_by_key _ _ _ _ Et) in Tid.
  destruct (released_task_ok (_utc_now now) t S) as (t' & Ht' & Hn & Hid & Hs).
  destruct (release_effect d id row lid l t' (_utc_now now) reason (inv_keys d Id) Et El Ell Hn
              ltac:(congruence) Hs) as [HS HE].
  pose proof (effect_inv _ _ HS HE Id) as I'. clear HS HE.
  unfold release_write, upsert_lease, upsert_task, transaction. cbv zeta.
  unfold mbind at 1, ST_bind at 1. rewrite (connect_ready w d Ed).
  rewrite (stmt_run _ w d tt _ Ed eq_refl).
  rewrite Ht', (st_run (st_lift (Ok t')) _ _ t' _ eq_refl).
  unfold mbind at 1, ST_bind at 1. unfold connect at 1. cbn [w_db set_db].
  unfold _upsert_task_in_transaction. rewrite (stmt_run _ (set_db _ w) _ tt _ eq_refl eq_refl).
  apply ok_bind; [apply ok_log, log_append_event|intros _; apply ok_kept; kept|].
  unfold inv. cbn [w_db set_db]. exact I'.
Qed.

(** [upsert_synced_task]: a snapshot carries no lease of its own. *)
Lemma merge_synced_ok ready expd row task p applied :
  merge_synced ready expd row task = Ok (p, applied) ->
  exists sync, p = set_sync_state sync p /\
    (lease_id row <> None -> link p = link row /\ status p = status row /\
       blocked_reason p = blocked_reason row /\ last_heartbeat_at p = last_heartbeat_at row) /\
    (lease_id row = None -> lease_id p = lease_id task \/ lease_id p = None) /\
    task_id p = task_id task /\
    (sync_state p = sync_state task \/ exists d, sync_state p = PDict d).
Proof.
  unfold merge_synced. intros (stored & _ & E)%bind_ok. cbv zeta in E. injection E as <- <-.
  match goal with |- context [if ?b then set_sync_state _ task else task] =>
    set (fresh := b) end.
  exists (sync_state (if fresh then set_sync_state (PDict (terminal_fence ready
    (dict_or_empty stored) (ready_fence ready (dict_or_empty stored)
       (dict_or_empty (sync_state task))))) task else task)).
  match goal with |- context [if preserve_lifecycle_state ?a ?b ?c then _ else _] =>
    destruct (preserve_lifecycle_state a b c) eqn:P end.
  - split; [by destruct fresh|]. split; [done|]. split; [by right|].
    destruct fresh; simpl; split; auto. right. by eexists.
  - split; [destruct fresh; by destruct task|]. split.
    + intros Hl. unfold preserve_lifecycle_state in P. apply orb_false_iff in P as [_ P].
      by destruct (lease_id row).
    + split; [intros _; left; by destruct fresh|]. split; [by destruct fresh|].
      destruct fresh; [right; by eexists|by left].
Qed.

Lemma ok_sync task ready expd :
  lease_id task = None -> sync_record (sync_state task) ->
  ok (upsert_synced_task task ready expd).
Proof.
  intros Hn Hs w I. apply inv_transaction; [by apply inv_connect|].
  apply inv_connect in I. revert I. generalize (connect w). clear w. intros w I.
  unfold mbind at 1, ST_bind at 1. destruct (select_task (task_id task) w) as [q w1] eqn:E.
  apply query_inv in E as [-> Hq]. destruct q as [[row|]|e]; [| |done].
  - destruct Hq as (d & Ed & Er). symmetry in Er. fold (task_at d (task_id task)) in Er.
    destruct (merge_synced ready expd row task) as [[p a]|e] eqn:Em.
    2: { by rewrite (st_run_raise (st_lift (Raise e)) _ w e w eq_refl). }
    rewrite (st_run (st_lift (Ok (p, a))) _ w (p, a) w eq_refl).
    apply merge_synced_ok in Em as (sync & _ & M1 & M2 & M3 & M4).
    assert (IP : inv (_upsert_task_in_transaction p w).2).
    { apply inv_upsert_tx; [| |done].
      - intros d0 E0. assert (d0 = d) as -> by congruence. unfold same_link. rewrite M3, Er.
        destruct (lease_id row) eqn:El; [left; by apply M1|right; split; [done|]].
        destruct (M2 eq_refl) as [M|M]; congruence.
      - destruct M4 as [->|[x ->]]; [done|right; by eexists]. }
    unfold mbind, ST_bind. by destruct (_upsert_task_in_transaction p w) as [[u|e] w2].
  - destruct Hq as (d & Ed & Er). symmetry in Er. destruct expd as [st|]; [done|].
    assert (IP : inv (_upsert_task_in_transaction task w).2).
    { apply inv_upsert_tx; [|done|done]. intros d0 E0. assert (d0 = d) as -> by congruence.
      unfold same_link, task_at. by rewrite Er. }
    unfold mbind, ST_bind. by destruct (_upsert_task_in_transaction task w) as [[u|e] w2].
Qed.

Lemma ok_select_next agent now draw : ok (select_next agent now draw).
Proof.
  unfold select_next. apply ok_bind; [apply ok_reclaim|intros r]. apply ok_kept. kept.
Qed.

(** ** Dispatcher calls *)

(** The calls that change tasks and leases in one BEGIN IMMEDIATE transaction
    (what [claim] or [complete] mirror to the event file afterwards, and the
    guard files, are not in these tables), and those that do not change these
    tables: they interleave in any order, as SQLite serializes them. *)
Inductive transaction_call (w : World) : World -> Prop :=
  | step_claim id agent ttl tk expd h1 now h2 :
      transaction_call w (claim id agent ttl tk expd h1 now h2 w).2
  | step_heartbeat id agent now h : transaction_call w (heartbeat id agent now h w).2
  | step_reclaim_one id lid actor now h : transaction_call w (_reclaim_one id lid actor now h w).2
  | step_complete id actor expd now h : transaction_call w (complete id actor expd now h w).2
  | step_review id actor note n h1 h2 :
      transaction_call w (move_unclaimed_task_to_review id actor note n h1 h2 w).2
  | step_sync task ready expd :
      lease_id task = None -> sync_record (sync_state task) ->
      transaction_call w (upsert_synced_task task ready expd w).2
  | step_event e : transaction_call w (append_event e w).2
  | step_acquire_guard id o ttl h now : transaction_call w (acquire_cleanup_guard id o ttl h now w).2
  | step_release_guard id o tk now : transaction_call w (release_cleanup_guard id o tk now w).2
  | step_refresh_guard id o tk ttl now : transaction_call w (refresh_cleanup_guard id o tk ttl now w).2
  | step_set_meta k v : transaction_call w (set_meta k v w).2.

(** The calls that span several transactions.  All but [select_next] write back
    rows they read in an earlier transaction, without a fence: a step is such a
    call run to its end with nothing in between.  (The transactions of
    [select_next] are [_reclaim_one]s, which are steps of their own.) *)
Inductive undisturbed_call (w : World) : World -> Prop :=
  | step_release id agent reason now h : undisturbed_call w (release id agent reason now h w).2
  | step_select agent now draw : undisturbed_call w (select_next agent now draw w).2
  | step_block id reason actor n1 h n2 : undisturbed_call w (block id reason actor n1 h n2 w).2
  | step_unblock id actor n1 h n2 : undisturbed_call w (unblock id actor n1 h n2 w).2
  | step_update id st note actor n1 h n2 :
      undisturbed_call w (update_task id st note actor n1 h n2 w).2
  | step_move id st actor note n1 h1 h2 n2 :
      undisturbed_call w (move_task id st actor note n1 h1 h2 n2 w).2
  | step_link_pr id pr actor n1 h n2 : undisturbed_call w (link_pr id pr actor n1 h n2 w).2.

Definition dstep (w w' : World) : Prop := transaction_call w w' \/ undisturbed_call w w'.

Lemma transaction_call_inv w w' : transaction_call w w' -> inv w -> inv w'.
Proof.
  intros S I. destruct S.
  - by apply ok_claim. - by apply ok_heartbeat. - by apply ok_reclaim_one. - by apply ok_complete.
  - by apply ok_review. - by apply ok_sync.
  - by apply ok_log; [apply log_append_event|].
  - by apply ok_kept; [apply quiet_acquire|]. - by apply ok_kept; [apply quiet_release_guard|].
  - by apply ok_kept; [apply quiet_refresh|]. - by apply ok_kept; [unfold set_meta; kept|].
Qed.

Lemma undisturbed_call_inv w w' : undisturbed_call w w' -> inv w -> inv w'.
Proof.
  intros S I. destruct S.
  - by apply ok_release. - by apply ok_select_next. - by apply ok_block. - by apply ok_unblock.
  - by apply ok_update_task. - by apply ok_move_task. - by apply ok_link_pr.
Qed.

Lemma dstep_inv w w' : dstep w w' -> inv w -> inv w'.
Proof. intros [S|S]; [by apply transaction_call_inv|by apply undisturbed_call_inv]. Qed.

(** An initialized database with no rows, or none yet. *)
Definition initial (w : World) : Prop :=
  match w_db w with Ready d => db_tasks d = [] /\ db_leases d = [] | _ => True end.

Lemma initial_inv w : initial w -> inv w.
Proof.
  unfold initial, inv. destruct (w_db w) as [| |d]; try done. intros [ET EL].
  unfold task_at, lease_at, keys_ok, unique_key.
  split; unfold task_at, lease_at, keys_ok, unique_key; rewrite ?ET, ?EL; try done.
  split; constructor.
Qed.

Definition reachable (w : World) : Prop := exists w0, initial w0 /\ rtc dstep w0 w.

Lemma reachable_inv w : reachable w -> inv w.
Proof.
  intros (w0 & I & S). apply initial_inv in I. induction S as [|a b c Hab _ IH]; [done|].
  apply IH. by eapply dstep_inv.
Qed.

End Effects.
