(* ===== verification/DispatcherProps.v ===== *)
(** * What the dispatcher promises

    The theorems on leases, selection, synchronization and cleanup guards, over
    the operations of Leases.v, Queue.v and DispatcherStore.v and the lease
    invariant of DispatcherInv.v; [Module DispatcherRun] runs them on a small
    database. *)
From Stdlib Require Import Sorted.
From S2P Require Import Prelude PyValue PyTime Sql DispatcherStore Leases Queue DispatcherInv.

(** ** Timestamps as the dispatcher compares them *)

Lemma parse_now n : in_range n -> _parse_rfc3339 (_utc_now n) = Ok (utc n).
Proof.
  intros Hn. unfold _parse_rfc3339, _utc_now. by rewrite replace_Z_us, fromisoformat_us.
Qed.
Lemma parse_expiry e :
  in_range e -> _parse_rfc3339 (isoformat_s (utc e)) = Ok (utc (floor_s e)).
Proof. intros He. unfold _parse_rfc3339. by rewrite replace_Z_s, fromisoformat_s. Qed.

Lemma expires_at_now ttl n :
  in_range n -> in_range (n + ttl * 1000000) ->
  _expires_at ttl (_utc_now n) = Ok (isoformat_s (utc (n + ttl * 1000000))).
Proof.
  intros Hn He. unfold _expires_at. rewrite parse_now by done. simpl. unfold in_range in He.
  rewrite (proj2 (Z.leb_le 0 _)), (proj2 (Z.ltb_lt _ max_us)) by lia. done.
Qed.

Lemma instant_utc t : instant (utc t) = Some t.
Proof. unfold instant, utc. simpl. f_equal. lia. Qed.

Lemma expiry_le_now e n :
  in_range e -> in_range n ->
  rfc3339_le (isoformat_s (utc e)) (_utc_now n) = Ok (floor_s e <=? n)%Z.
Proof.
  intros He Hn. unfold rfc3339_le. rewrite parse_expiry, parse_now by done. simpl.
  unfold datetime_le. by rewrite !instant_utc.
Qed.
Lemma now_le_expiry e n :
  in_range e -> in_range n ->
  rfc3339_le (_utc_now n) (isoformat_s (utc e)) = Ok (n <=? floor_s e)%Z.
Proof.
  intros He Hn. unfold rfc3339_le. rewrite parse_expiry, parse_now by done. simpl.
  unfold datetime_le. by rewrite !instant_utc.
Qed.

(** SQLite compares expiry and clock as text, Python as datetimes; for an
    expiry computed from a clock reading both agree with the clock: the text
    test of [heartbeat] and of the expired-lease query, and the parsed tests of
    [claim] and [_reclaim_one], decide the same instant comparison. *)
Theorem expiry_text_order ttl n0 n expires :
  in_range n0 -> in_range n -> in_range (n0 + ttl * 1000000) ->
  _expires_at ttl (_utc_now n0) = Ok expires ->
  let e := floor_s (n0 + ttl * 1000000) in
  String.ltb (_utc_now n) expires = (n <? e)%Z /\
  String.ltb expires (_utc_now n) = (e <=? n)%Z /\
  rfc3339_le expires (_utc_now n) = Ok (e <=? n)%Z /\
  rfc3339_le (_utc_now n) expires = Ok (n <=? e)%Z.
Proof.
  intros H0 Hn He. rewrite expires_at_now by done. intros [= <-] e.
  split; [by apply text_after|]. split; [by apply text_before|].
  split; [by apply expiry_le_now|by apply now_le_expiry].
Qed.

Section Props.
Context `{Sha256}.

(** ** Exclusivity *)


(** ** [claim] *)

Lemma claim_ok id agent ttl tk expd h1 now h2 w t l w' :
  claim id agent ttl tk expd h1 now h2 w = (Ok (t, l), w') ->
  exists d task expires event w1, w_db w = Ready d /\
    claim_transaction id agent (_make_lease_id h1) ttl tk expd (_utc_now now)
      (_make_event_id h2) w = (Ok (task, expires, event), w1) /\
    l = claim_lease (_make_lease_id h1) agent task ttl (_utc_now now) expires /\
    w_db w' = w_db w1 /\ get_task id w1 = (Ok (Some t), w1).
Proof.
  unfold claim. intros E. run E as u w0 G.
  assert (w0 = w) as ->.
  { destruct expd as [e|]; [|by injection G as <- <-]. run G as u' w2 [_ ->]%guard_not_ok.
    by apply guard_not_ok in G as [_ ->]. }
  clear G. cbv zeta in E. run E as [[task expires] event] w1 T. apply transaction_ok in T.
  assert (exists d, w_db w = Ready d) as [d Ed].
  { pose proof T as T'. unfold claim_transaction in T'. run T' as x w2 [_ ->]%st_lift_ok.
    run T' as y w3 (-> & d & Ed & _)%query_ok. exists d. revert Ed. unfold connect.
    by destruct (w_db w) eqn:E0; simpl; rewrite ?E0. }
  rewrite (connect_ready w d Ed) in T. run E as o w2 G.
  pose proof (claim_transaction_ok _ _ _ _ _ _ _ _ _ d _ _ _ _ Ed T) as (d' & _ & Ed' & _).
  pose proof G as G'. apply get_task_inv in G' as [-> _]. rewrite (connect_ready w1 d' Ed') in *.
  destruct o as [t0|]; [|done]. run E as u' w3 Mr. injection E as <- <- <-.
  exists d, task, expires, event, w1. split_and!; try done.
  unfold mirror in Mr. destruct (w_writer w1); by simplify_eq.
Qed.

(** A successful claim found the task ready and unleased, or its lease
    unreleased and expired with a takeover requested and the task claimed or
    ready; no cleanup guard was active; afterwards the task carries the new
    lease, the lease row is the one returned, the old lease is released as a
    stale takeover, every other task is untouched and exactly one event is
    appended. *)
Theorem claim_postcondition id agent ttl tk expd h1 now h2 w t l w' :
  claim id agent ttl tk expd h1 now h2 w = (Ok (t, l), w') ->
  exists d d' task payload,
    w_db w = Ready d /\ w_db w' = Ready d' /\ task_at d id = Some task /\
    claimable d task (_utc_now now) tk ttl payload /\
    (exists w1, no_guard id (_utc_now now) w w1) /\
    (expd = None \/ lease_id task = expd) /\
    let lid := _make_lease_id h1 in
    lease_at d lid = None /\ lease_at d' lid = Some l /\
    ls_holder l = agent /\ ls_resource l = claim_resource task /\
    task_at d' id = Some (claimed_row lid agent (_utc_now now) (ls_expires_at l) task) /\
    link t = (Some lid, Some agent, Some (ls_expires_at l)) /\ status t = "claimed" /\
    (forall j, j <> id -> task_at d' j = task_at d j) /\
    (forall old x, lease_id task = Some old -> lease_at d old = Some x ->
       lease_at d' old = Some (mark_released (_utc_now now) "stale_takeover" x)) /\
    (exists ev, db_events d' = db_events d ++ [ev] /\ ev_event_type ev = "task.claimed" /\
       ev_lease_id ev = Some lid /\ ev_payload ev = _dumps (PDict payload)).
Proof.
  intros (d & task & expires & event & w1 & Ed & T & -> & Ew & G)%claim_ok.
  destruct (claim_transaction_ok _ _ _ _ _ _ _ _ _ d _ _ _ _ Ed T)
    as (d' & payload & Ed' & Ht & _ & NG & Hex & Hc & Hf & -> & HL & HT & HE).
  pose proof (select_by_key _ _ _ _ Ht) as Hid.
  destruct (update_target task_id _ _ id _ _ task HT) as [T1 T2];
    [intros r; apply key_and3|done|done| |].
  { by rewrite Hid, !String.eqb_refl, bool_decide_eq_true_2. }
  apply get_task_inv in G as [_ (d0 & row & E0 & Er & Et)].
  assert (d0 = d') as -> by congruence.
  assert (row = claimed_row (_make_lease_id h1) agent (_utc_now now) expires task) as ->
    by (unfold task_at in Er; congruence).
  apply row_to_task_ok in Et as (Lk & _ & St & _).
  exists d, d', task, payload. cbv zeta. rewrite Ew.
  assert (LV : forall k, lease_at d' k = if String.eqb (_make_lease_id h1) k
     then Some (claim_lease (_make_lease_id h1) agent task ttl (_utc_now now) expires)
     else select_by ls_lease_id k (leases_before_insert d task (_utc_now now))).
  { intros k. unfold lease_at. rewrite HL. by apply claim_leases_view. }
  split_and!; try done.
  - by rewrite LV, String.eqb_refl.
  - intros old x Hold Hx. rewrite LV.
    destruct (String.eqb _ old) eqn:E; [bool_prop; subst; congruence|].
    unfold leases_before_insert. rewrite Hold.
    unfold claimable in Hc. rewrite Hold in Hc. destruct Hc as (y & Hy & U & _).
    assert (y = x) as -> by congruence. pose proof (select_by_key _ _ _ _ Hx) as Hk.
    rewrite select_update by done. unfold lease_at in Hx. rewrite Hx. simpl.
    by rewrite Hk, String.eqb_refl, U.
  - eexists. split; [exact HE|]. done.
Qed.

(** A claim whose transaction cannot succeed raises and changes no table. *)
Lemma claim_refused id agent ttl tk expd h1 now h2 w d :
  w_db w = Ready d ->
  (forall x w', claim_transaction id agent (_make_lease_id h1) ttl tk expd (_utc_now now)
      (_make_event_id h2) w <> (Ok x, w')) ->
  exists ex w', claim id agent ttl tk expd h1 now h2 w = (Raise ex, w') /\ w_db w' = w_db w.
Proof.
  intros Ed Hno. destruct (claim id agent ttl tk expd h1 now h2 w) as [[[t x]|ex] w'] eqn:E.
  { apply claim_ok in E as (d0 & task & expires & event & w1 & _ & T & _). by apply Hno in T. }
  exists ex, w'. split; [done|]. unfold claim in E.
  apply st_bind_raise in E as [E|(u & w1 & G & E)].
  { destruct expd as [p|]; [|done]. apply st_bind_raise in E as [E|(u & w1 & G & E)].
    - revert E. unfold guard_not. destruct (_ || _); by intros [= _ <-].
    - apply guard_not_ok in G as [_ ->]. revert E. unfold guard_not.
      destruct tk; by intros [= _ <-]. }
  assert (w1 = w) as ->.
  { destruct expd as [p|]; [|by injection G as <- <-]. run G as u' w2 [_ ->]%guard_not_ok.
    by apply guard_not_ok in G as [_ ->]. }
  cbv zeta in E. apply st_bind_raise in E as [E|([[task expires] event] & w1 & T & E)].
  - apply transaction_inv in E as (w1 & _ & ->). simpl. by rewrite (connect_ready w d Ed).
  - apply transaction_ok in T. rewrite (connect_ready w d Ed) in T. by apply Hno in T.
Qed.

(** While a task's lease is unreleased and not yet expired nobody can claim
    it, its own holder and takeover requests included: the call raises and the
    database is unchanged. *)
Theorem live_lease_blocks_claim id agent ttl tk expd h1 now h2 w d r lid l e :
  w_db w = Ready d -> task_at d id = Some r -> lease_id r = Some lid ->
  lease_at d lid = Some l -> ls_expires_at l = isoformat_s (utc e) ->
  in_range e -> in_range now -> (now < floor_s e)%Z ->
  exists ex w', claim id agent ttl tk expd h1 now h2 w = (Raise ex, w') /\ w_db w' = w_db w.
Proof.
  intros Ed Ht Hl Hll Hex He Hn Hlt. apply (claim_refused _ _ _ _ _ _ _ _ _ d Ed).
  intros [[task expires] event] w' T.
  destruct (claim_transaction_ok _ _ _ _ _ _ _ _ _ d _ _ _ _ Ed T)
    as (d' & payload & _ & Ht' & _ & _ & _ & Hc & _).
  assert (task = r) as -> by congruence. unfold claimable in Hc. rewrite Hl in Hc.
  destruct Hc as (y & Hy & _ & Hle & _). assert (y = l) as -> by congruence.
  rewrite Hex, expiry_le_now in Hle by done. injection Hle as Hle. apply Z.leb_le in Hle. lia.
Qed.

(** ** [heartbeat] *)

Lemma heartbeat_run id agent now evid w d r lid l expires :
  w_db w = Ready d -> keys_ok d -> task_at d id = Some r -> lease_id r = Some lid ->
  claimed_by r = Some agent -> lease_at d lid = Some l -> ls_holder l = agent ->
  unreleased l = true -> rfc3339_le (ls_expires_at l) now = Ok false ->
  String.ltb now (ls_expires_at l) = true ->
  _expires_at (ls_ttl_seconds l) now = Ok expires ->
  select_by ev_event_id evid (db_events d) = None ->
  exists d',
    transaction (heartbeat_transaction id agent now evid) w
    = (Ok (l, expires, mkEvent evid now id "task.heartbeat" agent (Some lid) PNone),
       set_db (Ready d') w) /\
    db_tasks d' = update_where
      (fun x => String.eqb (task_id x) id && bool_decide (lease_id x = Some lid)
                && bool_decide (claimed_by x = Some agent))
      (renewed_row now expires) (db_tasks d) /\
    db_leases d' = update_where
      (fun x => String.eqb (ls_lease_id x) lid && String.eqb (ls_holder x) agent && unreleased x
                && String.ltb now (ls_expires_at x))
      (renewed_lease now expires) (db_leases d).
Proof.
  intros Ed [U1 U2] Ht Hl Hc Hll Hh Hu Le Lt Ex Hev.
  pose proof (select_by_key _ _ _ _ Ht) as Hid. pose proof (select_by_key _ _ _ _ Hll) as Hlid.
  unfold transaction, heartbeat_transaction, select_task, select_lease, update_leases, update_tasks.
  rewrite (connect_ready w d Ed), (st_run _ _ _ _ _ (query_run _ w d Ed)).
  fold (task_at d id). rewrite Ht, Hl, (st_run _ _ _ _ _ (query_run _ w d Ed)).
  fold (lease_at d lid). rewrite Hll. cbv zeta.
  rewrite (st_run (guard_not _ _) _ w tt w) by (by rewrite Hh, String.eqb_refl).
  rewrite Hu, Le, (st_run (st_lift (Ok false)) _ w false w eq_refl).
  rewrite (st_run (guard_not false _) _ w tt w eq_refl).
  rewrite Ex, (st_run (st_lift (Ok expires)) _ w expires w eq_refl), Hlid.
  rewrite (st_run _ _ _ _ _ (stmt_run _ w d _ _ Ed eq_refl)).
  rewrite (count_where_key ls_lease_id _ lid); [|done|keyed].
  unfold lease_at in Hll. rewrite Hll, Hlid, Hh, Hu, Lt, !String.eqb_refl. cbn [andb negb Nat.eqb].
  rewrite (st_run (guard_not false _) _ _ tt _ eq_refl).
  rewrite (st_run _ _ _ _ _ (stmt_run _ (set_db _ w) _ _ _ eq_refl eq_refl)).
  cbn [db_tasks db_leases db_events db_meta].
  rewrite (count_where_key (task_id : TaskRow -> string) _ id); [|done|keyed].
  unfold task_at in Ht. cbv beta in *. rewrite Ht, Hid, Hl, Hc, String.eqb_refl, !bool_decide_eq_true_2 by done.
  cbn [andb negb Nat.eqb]. rewrite (st_run (guard_not false _) _ _ tt _ eq_refl).
  unfold insert_event. erewrite (st_run (stmt _)); [|eapply stmt_run; [reflexivity|]].
  2: { cbn [event_row ev_event_id db_events]. rewrite Hev. reflexivity. }
  eexists. split; [reflexivity|]. done.
Qed.

(** The holder of an unexpired lease can always renew it: the renewal
    succeeds, moves the expiry to the clock plus the lease's own TTL on both the
    lease and the task, and changes no other task or lease. *)
Theorem heartbeat_renews_live_lease id agent now h w d r lid l e :
  w_db w = Ready d -> inv w -> w_writer w <> WriterFails ->
  task_at d id = Some r -> lease_id r = Some lid -> lease_at d lid = Some l ->
  ls_holder l = agent -> ls_expires_at l = isoformat_s (utc e) ->
  in_range e -> in_range now -> (now < floor_s e)%Z ->
  in_range (now + ls_ttl_seconds l * 1000000) ->
  select_by ev_event_id (_make_event_id h) (db_events d) = None ->
  let expires := isoformat_s (utc (now + ls_ttl_seconds l * 1000000)) in
  exists d' w', heartbeat id agent now h w =
      (Ok (mkLease lid (ls_resource l) agent (ls_ttl_seconds l) (ls_acquired_at l) expires
             (Some (_utc_now now)) None None), w') /\
    w_db w' = Ready d' /\
    task_at d' id = Some (renewed_row (_utc_now now) expires r) /\
    lease_at d' lid = Some (renewed_lease (_utc_now now) expires l) /\
    (forall j, j <> id -> task_at d' j = task_at d j) /\
    (forall k, k <> lid -> lease_at d' k = lease_at d k).
Proof.
  intros Ed I Hw Ht Hl Hll Hh Hex He Hn Hlt Hr Hev expires.
  unfold inv in I. rewrite Ed in I. pose proof (inv_keys d I) as [U1 U2].
  destruct (inv_linked d I id r lid Ht Hl) as (l0 & E0 & Hu & Hc & _).
  assert (l0 = l) as -> by congruence. rewrite Hh in Hc. clear E0.
  pose proof (select_by_key _ _ _ _ Ht) as Hid. pose proof (select_by_key _ _ _ _ Hll) as Hlid.
  assert (Lt : String.ltb (_utc_now now) (ls_expires_at l) = true)
    by (unfold _utc_now; rewrite Hex, text_after by done; by apply Z.ltb_lt).
  assert (Le : rfc3339_le (ls_expires_at l) (_utc_now now) = Ok false)
    by (rewrite Hex, expiry_le_now by done; f_equal; apply Z.leb_gt; lia).
  pose proof (expires_at_now (ls_ttl_seconds l) now Hn Hr) as Ex. fold expires in Ex.
  destruct (heartbeat_run id agent (_utc_now now) (_make_event_id h) w d r lid l expires)
    as (d' & E & HT & HL); try done.
  destruct (update_target task_id _ _ id _ _ r HT) as [T1 T2]; [keyed|done|done| |].
  { by rewrite Hid, Hl, Hc, String.eqb_refl, !bool_decide_eq_true_2. }
  destruct (update_target ls_lease_id _ _ lid _ _ l HL) as [L1 L2]; [keyed|done|done| |].
  { by rewrite Hlid, Hh, Hu, Lt, !String.eqb_refl. }
  unfold heartbeat. rewrite (st_run _ _ w _ _ E). rewrite Hlid.
  unfold mirror. unfold mbind, ST_bind. cbn [w_writer set_db].
  destruct (w_writer w); [| |done]; eexists d', _; (split; [reflexivity|]);
    cbn [w_db set_db]; by split_and!.
Qed.

(** ** Reclamation *)

(** A task under a lease that is unexpired at the clock reading of the attempt
    survives it untouched, whatever pair was observed. *)
Lemma reclaim_one_spares id lid actor now h w r w' d id0 row l0 :
  w_db w = Ready d -> lease_inv d -> task_at d id0 = Some row ->
  lease_id row = Some (ls_lease_id l0) -> lease_at d (ls_lease_id l0) = Some l0 ->
  rfc3339_le (_utc_now now) (ls_expires_at l0) = Ok true ->
  _reclaim_one id lid actor now h w = (r, w') ->
  exists d', w_db w' = Ready d' /\ lease_inv d' /\ task_at d' id0 = Some row /\
             lease_at d' (ls_lease_id l0) = Some l0.
Proof.
  intros Ed I Ht Hl Hll Hle E.
  pose proof (ok_reclaim_one id lid actor now h w) as OK. rewrite E in OK. unfold inv in OK.
  rewrite Ed in OK. specialize (OK I). simpl in OK.
  pose proof (reclaim_one_inv _ _ _ _ _ _ _ _ d Ed (inv_keys d I) E) as R. cbv zeta in R.
  destruct r as [[e|]|e]; try (subst w'; by exists d).
  destruct R as (d' & task & l & st & sync & Ed' & _ & Ht' & Hl' & Hll' & _ & Hexp & _ & _ & HL & HT & _).
  rewrite Ed' in OK. exists d'. split; [done|]. split; [done|].
  assert (Hne : lid <> ls_lease_id l0) by (intros ->; congruence).
  unfold task_at, lease_at. rewrite HT, HL. split.
  - rewrite select_update by done. unfold task_at in Ht. rewrite Ht. simpl.
    rewrite (bool_decide_eq_false_2 (lease_id row = Some lid)) by congruence.
    by rewrite andb_false_r.
  - rewrite select_update by done. unfold lease_at in Hll. rewrite Hll. simpl.
    by rewrite (proj2 (String.eqb_neq (ls_lease_id l0) lid)) by congruence.
Qed.

Lemma mirror_db e w r w' : mirror e w = (r, w') -> w_db w' = w_db w.
Proof. unfold mirror. destruct (w_writer w); by intros [= _ <-]. Qed.

(** Garbage collection never erases a live claim: whatever list of expired
    leases was observed earlier, and whatever happened since (a stale takeover
    included), sweeping it leaves every task whose lease is unexpired at the
    sweep's clock readings, and that lease, exactly as they are. *)
Theorem gc_spares_live_leases draw actor observed i w d id row l0 e r w' :
  w_db w = Ready d -> inv w -> task_at d id = Some row ->
  lease_id row = Some (ls_lease_id l0) -> lease_at d (ls_lease_id l0) = Some l0 ->
  ls_expires_at l0 = isoformat_s (utc e) -> in_range e ->
  (forall k, in_range (fst (draw k)) /\ (fst (draw k) <= floor_s e)%Z) ->
  _reclaim_observed_leases draw actor i observed w = (r, w') ->
  exists d', w_db w' = Ready d' /\ task_at d' id = Some row /\
             lease_at d' (ls_lease_id l0) = Some l0.
Proof.
  intros Ed I Ht Hl Hll Hex He Hdraw. unfold inv in I. rewrite Ed in I.
  revert i w d r w' Ed I Ht Hll. induction observed as [|[tid lid] observed IH];
    intros i w d r w' Ed I Ht Hll; simpl; [intros [= _ <-]; by exists d|].
  destruct (_reclaim_one tid lid actor (fst (draw i)) (snd (draw i)) w) as [q w1] eqn:E1.
  assert (Hle : rfc3339_le (_utc_now (fst (draw i))) (ls_expires_at l0) = Ok true).
  { destruct (Hdraw i). rewrite Hex, now_le_expiry by done. f_equal. by apply Z.leb_le. }
  destruct (reclaim_one_spares _ _ _ _ _ _ _ _ d id row l0 Ed I Ht Hl Hll Hle E1)
    as (d1 & Ed1 & I1 & Ht1 & Hll1).
  rewrite (st_run (st_catch _ _) _ w (match q with Ok o => o | Raise _ => None end) w1)
    by (unfold st_catch; rewrite E1; by destruct q).
  destruct q as [[ev|]|ex]; [|by apply (IH (S i) w1 d1)..].
  destruct (mirror ev w1) as [m w2] eqn:Em. apply mirror_db in Em as Ew.
  rewrite (st_run (st_catch (mirror ev) _) _ w1 tt w2)
    by (unfold st_catch; rewrite Em; destruct m as [[]|]; done).
  unfold mbind, ST_bind.
  destruct (_reclaim_observed_leases draw actor (S i) observed w2) as [rr w3] eqn:E3.
  destruct (IH (S i) w2 d1 rr w3 ltac:(congruence) I1 Ht1 Hll1 E3) as (d3 & ? & ? & ?).
  destruct rr; intros [= _ <-]; by exists d3.
Qed.

(** An expired lease that the task still carries is reclaimed: the attempt
    returns its release event, the lease is released as expired and the task is
    unlinked, back to [ready], or [blocked] when it has a reason, or keeping its
    terminal status. *)
Theorem reclaim_one_reclaims id lid actor now h w d task l e st sync :
  w_db w = Ready d -> inv w -> task_at d id = Some task -> lease_id task = Some lid ->
  lease_at d lid = Some l -> ls_expires_at l = isoformat_s (utc e) ->
  in_range e -> in_range now -> (floor_s e < now)%Z ->
  reclaimed_state task (_utc_now now) = Ok (st, sync) ->
  select_by ev_event_id (_make_event_id h) (db_events d) = None ->
  exists w' d', _reclaim_one id lid actor now h w =
      (Ok (Some (mkEvent (_make_event_id h) (_utc_now now) id "task.released" actor (Some lid)
                   (PDict [("reason", PStr "expired")]))), w') /\
    w_db w' = Ready d' /\
    task_at d' id = Some (reclaimed_row (_utc_now now) st sync task) /\
    lease_at d' lid = Some (mark_released (_utc_now now) "expired" l) /\
    st = (if terminal_status (status task) then status task
          else match blocked_reason task with Some _ => "blocked" | None => "ready" end).
Proof.
  intros Ed I Ht Hl Hll Hex He Hn Hlt Hst Hev. unfold inv in I. rewrite Ed in I.
  pose proof (inv_keys d I) as [U1 U2].
  destruct (inv_linked d I id task lid Ht Hl) as (l0 & E0 & Hu & _).
  assert (l0 = l) as -> by congruence. clear E0.
  pose proof (select_by_key _ _ _ _ Ht) as Hid. pose proof (select_by_key _ _ _ _ Hll) as Hlid.
  unfold _reclaim_one, transaction, select_task, select_lease, update_leases, update_tasks.
  rewrite (connect_ready w d Ed), (st_run st_get _ w w w eq_refl). cbv zeta.
  rewrite (st_run _ _ _ _ _ (query_run _ w d Ed)). fold (task_at d id). rewrite Ht, Hl.
  rewrite bool_decide_eq_true_2 by done. cbn [negb].
  rewrite (st_run _ _ _ _ _ (query_run _ w d Ed)). fold (lease_at d lid). rewrite Hll, Hu.
  cbn [negb]. rewrite Hex, now_le_expiry, (proj2 (Z.leb_gt now (floor_s e))) by done.
  rewrite (st_run (st_lift (Ok false)) _ w false w eq_refl).
  rewrite (st_run _ _ _ _ _ (stmt_run _ w d _ _ Ed eq_refl)).
  rewrite (count_where_key ls_lease_id _ lid); [|done|keyed].
  pose proof Hll as Hs. unfold lease_at in Hs. rewrite Hs, Hlid, Hu, String.eqb_refl.
  cbn [andb Nat.eqb]. rewrite Hst, (st_run (st_lift (Ok (st, sync))) _ _ (st, sync) _ eq_refl).
  rewrite (st_run _ _ _ _ _ (stmt_run _ (set_db _ w) _ _ _ eq_refl eq_refl)).
  cbn [db_tasks db_leases db_events db_meta].
  rewrite (count_where_key task_id _ id); [|done|keyed].
  pose proof Ht as Hs'. unfold task_at in Hs'.
  rewrite Hs', Hid, Hl, String.eqb_refl, bool_decide_eq_true_2 by done. cbn [andb Nat.eqb].
  unfold insert_event. erewrite (st_run (stmt _)); [|eapply stmt_run; [reflexivity|]].
  2: { cbn [event_row ev_event_id db_events]. rewrite Hev. reflexivity. }
  eexists _, _. split; [reflexivity|]. split; [reflexivity|].
  unfold task_at, lease_at. cbn [db_tasks db_leases]. rewrite !select_update by done.
  rewrite Hs, Hs'. cbn [fmap option_fmap option_map].
  rewrite Hid, Hlid, Hu, Hl, !String.eqb_refl, bool_decide_eq_true_2 by done.
  split_and!; try done. unfold reclaimed_state in Hst. apply bind_ok in Hst as (x & _ & Hst).
  by destruct (terminal_status (status task)); injection Hst as <- _.
Qed.

(** ** Synchronization *)

Lemma preserved_row ready expd row task p applied :
  merge_synced ready expd row task = Ok (p, applied) ->
  (exists stored, _loads (sync_state row) = Ok stored /\
     preserve_lifecycle_state expd
       (negb (is_none (get (dict_or_empty stored) "terminal_state_protected_at"))
        && negb (may_reopen_terminal ready (dict_or_empty stored)
                   (ready_fence ready (dict_or_empty stored) (dict_or_empty (sync_state task)))))
       row = true) ->
  link p = link row /\ status p = status row /\ blocked_reason p = blocked_reason row /\
  last_heartbeat_at p = last_heartbeat_at row /\ task_id p = task_id task /\ applied = false.
Proof.
  unfold merge_synced. intros (stored & Hs & E)%bind_ok (s' & Hs' & P).
  assert (s' = stored) as -> by congruence. cbv zeta in E. rewrite P in E.
  injection E as <- <-. split_and!; try done; [by destruct (_ || _)|].
  destruct expd; [|done]. by rewrite andb_false_r.
Qed.

Lemma synced_run task ready expd w d row p applied :
  w_db w = Ready d -> task_at d (task_id task) = Some row ->
  merge_synced ready expd row task = Ok (p, applied) -> task_id p = task_id task ->
  exists w' d', upsert_synced_task task ready expd w = (Ok (mkSynced p applied), w') /\
    w_db w' = Ready d' /\
    task_at d' (task_id task) = Some (overwrite_row (task_row p) row) /\
    (forall j, j <> task_id task -> task_at d' j = task_at d j) /\
    db_leases d' = db_leases d.
Proof.
  intros Ed Ht Em Hid. unfold upsert_synced_task, transaction, select_task.
  rewrite (connect_ready w d Ed), (st_run _ _ _ _ _ (query_run _ w d Ed)).
  fold (task_at d (task_id task)). rewrite Ht, Em.
  rewrite (st_run (st_lift (Ok (p, applied))) _ w (p, applied) w eq_refl).
  unfold _upsert_task_in_transaction.
  rewrite (st_run _ _ _ _ _ (stmt_run _ w d _ _ Ed eq_refl)).
  eexists _, _. split; [reflexivity|]. split; [reflexivity|].
  split; [|split; [|done]].
  - unfold task_at at 1. cbn [db_tasks]. by rewrite upsert_view, Hid, String.eqb_refl, Ht.
  - intros j Hj. unfold task_at at 1. cbn [db_tasks]. by rewrite upsert_view, Hid, (proj2 (String.eqb_neq _ _)).
Qed.

(** A GitHub snapshot never overwrites a claim: writing any snapshot over a
    task that is leased, or claimed or in progress, keeps the task's lease
    fields, status, blocking reason and heartbeat, reports no transition, and
    touches no other task and no lease. *)
Theorem sync_preserves_claims task ready expd w d row stored :
  w_db w = Ready d -> task_at d (task_id task) = Some row ->
  _loads (sync_state row) = Ok stored ->
  lease_id row <> None \/ status row = "claimed" \/ status row = "in_progress" ->
  exists p w' d' row', upsert_synced_task task ready expd w = (Ok (mkSynced p false), w') /\
    w_db w' = Ready d' /\ task_at d' (task_id task) = Some row' /\
    link row' = link row /\ status row' = status row /\
    blocked_reason row' = blocked_reason row /\
    last_heartbeat_at row' = last_heartbeat_at row /\
    (forall j, j <> task_id task -> task_at d' j = task_at d j) /\
    db_leases d' = db_leases d.
Proof.
  intros Ed Ht Hs Hc.
  destruct (merge_synced ready expd row task) as [[p a]|e] eqn:Em.
  2: { unfold merge_synced in Em. by rewrite Hs in Em. }
  destruct (preserved_row _ _ _ _ _ _ Em) as (P1 & P2 & P3 & P4 & P5 & ->).
  { exists stored. split; [done|]. unfold preserve_lifecycle_state.
    destruct Hc as [Hc|[-> | ->]]; [|by rewrite !orb_true_r..].
    destruct (lease_id row); [|done]. by rewrite orb_true_r. }
  destruct (synced_run _ _ _ _ _ _ _ _ Ed Ht Em P5) as (w' & d' & E & Ed' & T & O & L).
  exists p, w', d', (overwrite_row (task_row p) row). by split_and!.
Qed.

Lemma ready_fence_pull ready ex inc :
  get (ready_fence ready ex inc) "last_pull_at" = get inc "last_pull_at"
  \/ get (ready_fence ready ex inc) "last_pull_at" = PNone.
Proof.
  unfold ready_fence. destruct (is_none _); [by left|]. destruct (_ && _).
  - left. by rewrite get_pop.
  - right. by rewrite get_set, decide_False, get_pop, decide_True.
Qed.

(** The time a snapshot was pulled, as the store reads it. *)
Definition pull_time (task : TaskRecord) : option Z :=
  _parse_sync_timestamp (get (dict_or_empty (sync_state task)) "last_pull_at").

Lemma parse_sync_now n : in_range n -> _parse_sync_timestamp (PStr (_utc_now n)) = Some n.
Proof.
  intros Hn. unfold _parse_sync_timestamp, _utc_now.
  by rewrite replace_Z_us, fromisoformat_us, instant_utc.
Qed.

Lemma reclaimed_terminal task now st sync :
  reclaimed_state task now = Ok (st, sync) -> terminal_status (status task) = true ->
  st = status task /\ exists sd, sync = JDoc (PDict sd) /\
    get sd "terminal_state_protected_at" = PStr now.
Proof.
  unfold reclaimed_state. intros (x & _ & E)%bind_ok T. rewrite T in E. injection E as <- <-.
  split; [done|]. eexists. split; [reflexivity|].
  match goal with |- get (sort_keys (map _ ?y)) _ = _ => set (doc := y) end.
  change (get (json_norm_dict doc) "terminal_state_protected_at" = PStr now).
  unfold get. rewrite json_norm_dict_get. unfold doc. by rewrite dict_get_set_eq.
Qed.

(** Work that is completed, done or failed stays closed: after its expired
    lease is reclaimed, a snapshot reopens it only as a validated ready
    observation pulled after the reclamation; any other snapshot leaves status
    and blocking reason as they were. *)
Theorem terminal_work_stays_closed id lid actor now h w d task ev w1 snap ready expd :
  w_db w = Ready d -> inv w -> task_at d id = Some task ->
  terminal_status (status task) = true -> in_range now ->
  _reclaim_one id lid actor now h w = (Ok (Some ev), w1) ->
  task_id snap = id -> ready = false \/ later (pull_time snap) (Some now) = false ->
  exists p w2 d2 row, upsert_synced_task snap ready expd w1 = (Ok (mkSynced p false), w2) /\
    w_db w2 = Ready d2 /\ task_at d2 id = Some row /\ status row = status task /\
    blocked_reason row = blocked_reason task /\ lease_id row = None.
Proof.
  intros Ed I Ht Hterm Hn E Hid Hold. unfold inv in I. rewrite Ed in I.
  pose proof (reclaim_one_inv _ _ _ _ _ _ _ _ d Ed (inv_keys d I) E)
    as (d1 & task' & l & st & sync & Ed1 & _ & Ht' & Hl & _ & _ & _ & Hst & _ & _ & HT & _).
  assert (task' = task) as -> by congruence. clear Ht'.
  destruct (reclaimed_terminal _ _ _ _ Hst Hterm) as (-> & sd & -> & Hp).
  pose proof (select_by_key _ _ _ _ Ht) as Hk.
  destruct (update_target task_id _ _ id _ _ task HT) as [T1 _]; [keyed|done|done| |].
  { by rewrite Hk, Hl, String.eqb_refl, bool_decide_eq_true_2. }
  fold (task_at d1 id) in T1. rewrite <- Hid in T1.
  set (row := reclaimed_row _ _ _ task) in T1.
  destruct (merge_synced ready expd row snap) as [[p a]|e] eqn:Em; [|done].
  destruct (preserved_row _ _ _ _ _ _ Em) as (P1 & P2 & P3 & P4 & P5 & ->).
  { exists (PDict sd). split; [done|]. unfold preserve_lifecycle_state, may_reopen_terminal.
    cbn [dict_or_empty]. rewrite Hp, parse_sync_now by done. cbn [is_none negb andb].
    assert (B : ready && later (_parse_sync_timestamp (get (ready_fence ready sd
       (dict_or_empty (sync_state snap))) "last_pull_at")) (Some now) = false).
    { destruct Hold as [->|Hold]; [done|].
      destruct (ready_fence_pull ready sd (dict_or_empty (sync_state snap))) as [-> | ->].
      - unfold pull_time in Hold. by rewrite Hold, andb_false_r.
      - by rewrite andb_false_r. }
    by rewrite B, orb_true_r. }
  destruct (synced_run _ _ _ _ _ _ _ _ Ed1 T1 Em P5) as (w2 & d2 & E2 & Ed2 & T2 & _).
  apply link_eq in P1 as [P1 _]. rewrite Hid in T2.
  exists p, w2, d2, (overwrite_row (task_row p) row). by split_and!.
Qed.

(** ** Selection *)

Lemma compare_refl s : String.compare s s = Eq.
Proof. pose proof (String.compare_antisym s s) as C. by destruct (String.compare s s). Qed.

Lemma asc2_eq {A} (f g : A -> string) x y :
  asc2 f g x y = if String.eqb (f x) (f y) then String.leb (g x) (g y)
                 else String.leb (f x) (f y).
Proof.
  unfold asc2, desc2. destruct (String.eqb (f x) (f y)) eqn:E; bool_prop.
  - by rewrite E, compare_refl.
  - unfold String.leb. rewrite (String.compare_antisym (f x) (f y)).
    destruct (String.compare (f y) (f x)) eqn:C; try done.
    apply String.compare_eq_iff in C. congruence.
Qed.

Lemma leb_antisym a b : String.leb a b = true -> String.leb b a = true -> a = b.
Proof. apply String.leb_antisym. Qed.

Lemma asc2_total {A} (f g : A -> string) x y : asc2 f g x y = false -> asc2 f g y x = true.
Proof.
  rewrite !asc2_eq, (String.eqb_sym (f y)). destruct (String.eqb _ _); apply leb_false.
Qed.

Lemma asc2_trans {A} (f g : A -> string) x y z :
  asc2 f g x y = true -> asc2 f g y z = true -> asc2 f g x z = true.
Proof.
  rewrite !asc2_eq.
  destruct (String.eqb (f x) (f y)) eqn:E1, (String.eqb (f y) (f z)) eqn:E2; bool_prop.
  - rewrite E1, E2, String.eqb_refl. apply leb_trans.
  - rewrite E1, (proj2 (String.eqb_neq _ _) E2). done.
  - rewrite <- E2, (proj2 (String.eqb_neq _ _) E1). done.
  - intros L1 L2. destruct (String.eqb (f x) (f z)) eqn:E3; bool_prop; [|by eapply leb_trans].
    rewrite E3 in L1. destruct E2. by apply leb_antisym.
Qed.

Lemma selection_total x y : selection_leb x y = false -> selection_leb y x = true.
Proof.
  unfold selection_leb. rewrite (Z.compare_antisym (priority_rank (priority x))).
  destruct (_ ?= _)%Z; simpl; try done. apply asc2_total.
Qed.
Lemma selection_trans x y z :
  selection_leb x y = true -> selection_leb y z = true -> selection_leb x z = true.
Proof.
  unfold selection_leb.
  destruct (Z.compare_spec (priority_rank (priority x)) (priority_rank (priority y))) as [E1|E1|E1],
    (Z.compare_spec (priority_rank (priority y)) (priority_rank (priority z))) as [E2|E2|E2];
    try done; intros H1 H2;
    destruct (Z.compare_spec (priority_rank (priority x)) (priority_rank (priority z))); try lia;
    try done. by eapply asc2_trans.
Qed.

(** Selection returns a least eligible task: a task that is ready, without
    blocking reason and without lease, such that no other eligible task has a
    more urgent priority, or the same with an older update (then creation) time;
    it returns none only when no task is eligible. *)
Theorem selection_is_least agent now draw w o n w' :
  select_next agent now draw w = (Ok (o, n), w') ->
  exists d, w_db w' = Ready d /\
    match o with
    | Some t => exists r, r ∈ db_tasks d /\ eligible r = true /\ _row_to_task r = Ok t /\
        forall x, x ∈ db_tasks d -> eligible x = true -> selection_leb r x = true
    | None => forall x, x ∈ db_tasks d -> eligible x = false
    end.
Proof.
  unfold select_next. intros E. run E as rc w1 _. run E as row w2 T.
  apply transaction_ok in T. apply query_ok in T as (-> & d & Ed & ->).
  assert (F : forall x, x ∈ db_tasks d -> eligible x = true ->
            x ∈ List.filter eligible (db_tasks d))
    by (intros x Hx Hex; apply list_elem_of_In, filter_In; by rewrite <- list_elem_of_In).
  destruct (head _) as [r|] eqn:Hh.
  - apply (order_by_head_least _ selection_total selection_trans) in Hh as [Hin Hall].
    run E as t w3 [Hr ->]%st_lift_ok. injection E as <- <- <-. exists d. split; [done|].
    exists r. apply list_elem_of_In, filter_In in Hin as [Hin Hel].
    split_and!; try done; [by apply list_elem_of_In|]. intros x Hx Hex.
    by apply (proj1 (Forall_forall _ _) Hall), F.
  - injection E as <- <- <-. exists d. split; [done|]. intros x Hx.
    destruct (eligible x) eqn:Hex; [|done]. specialize (F x Hx Hex).
    destruct (order_by selection_leb _) eqn:O in Hh; [|done]. apply order_by_nil in O.
    rewrite O in F. inversion F.
Qed.

(** ** [complete] *)

(** Only the current holder completes a task, under the lease it expects:
    afterwards the task is completed and unleased, its lease released as
    completed by that holder, every other task and lease untouched. *)
Theorem complete_by_holder id actor expd now h w d t w' :
  w_db w = Ready d -> inv w ->
  complete id actor expd now h w = (Ok t, w') ->
  exists d' task lid l, w_db w' = Ready d' /\
    task_at d id = Some task /\ lease_id task = Some lid /\ (expd = None \/ expd = Some lid) /\
    lease_at d lid = Some l /\ ls_holder l = actor /\ unreleased l = true /\
    task_at d' id = Some (completed_row (_utc_now now) (ls_expires_at l) task) /\
    lease_at d' lid = Some (mark_released (_utc_now now) "completed" l) /\
    (forall j, j <> id -> task_at d' j = task_at d j) /\
    (forall k, k <> lid -> lease_at d' k = lease_at d k).
Proof.
  intros Ed I. unfold inv in I. rewrite Ed in I. unfold complete. intros E.
  run E as ev w1 T. apply transaction_ok in T. rewrite (connect_ready w d Ed) in T.
  destruct (complete_transaction_ok _ _ _ _ _ _ _ _ _ Ed (inv_keys d I) T)
    as (d' & task & lid & l & Ed' & Ht & Hl & Hx & Hll & Hh & Hu & Hc & _ & HL & HT & _).
  run E as u w2 Mr%mirror_db. run E as o w3 G. apply get_task_inv in G as [-> G].
  destruct o as [t0|]; [|done]. injection E as <- <-.
  exists d', task, lid, l. rewrite (connect_ready w2 d') by congruence.
  pose proof (select_by_key _ _ _ _ Ht) as Hid. pose proof (select_by_key _ _ _ _ Hll) as Hlid.
  destruct (update_target task_id _ _ id _ _ task HT) as [T1 T2]; [keyed|done|done| |].
  { by rewrite Hid, Hl, Hc, String.eqb_refl, !bool_decide_eq_true_2. }
  destruct (update_target ls_lease_id _ _ lid _ _ l HL) as [L1 L2]; [keyed|done|done| |].
  { by rewrite Hlid, Hh, Hu, !String.eqb_refl. }
  by split_and!; [congruence|..].
Qed.

(** ** Cleanup guards *)

(** The stored form of a guard. *)
Definition guard_doc (g : CleanupGuard) : pyval := json_norm (PDict (guard_dict g)).

(** A guard record reads back as itself. *)
Lemma guard_doc_valid g :
  g_owner g <> "" -> g_token g <> "" ->
  _validated_cleanup_guard (guard_doc g) (g_task_id g) = Ok g.
Proof.
  destruct g as [t o k e]. simpl. intros Ho Hk. unfold guard_doc. cbn.
  rewrite String.eqb_refl, (proj2 (String.eqb_neq o "") Ho), (proj2 (String.eqb_neq k "") Hk). done.
Qed.

(** Both copies of a guard are stored. *)
Definition guard_stored (g : CleanupGuard) (w : World) : Prop :=
  w_files w !! _cleanup_guard_record_path (g_task_id g) = Some (GFile (Some (guard_doc g))) /\
  exists d, w_db w = Ready d /\
    snd <$> select_by fst (_cleanup_guard_key (g_task_id g)) (db_meta d) = Some (JDoc (guard_doc g)).

Definition guard_live (g : CleanupGuard) (now : Z) : Prop :=
  g_owner g <> "" /\ g_token g <> "" /\ guard_expired g (_utc_now now) = Ok false.

Lemma read_file_live g now w :
  guard_stored g w -> guard_live g now ->
  _read_cleanup_guard_file (g_task_id g) (_utc_now now) w = (Ok (Some g), w).
Proof.
  intros [Hf _] (Ho & Hk & He). unfold _read_cleanup_guard_file.
  rewrite (st_run st_get _ w w w eq_refl), Hf, guard_doc_valid by done.
  rewrite (st_run (st_lift (Ok g)) _ w g w eq_refl), He.
  by rewrite (st_run (st_lift (Ok false)) _ w false w eq_refl).
Qed.

Lemma read_db_live g now w :
  guard_stored g w -> guard_live g now ->
  _read_cleanup_guard (g_task_id g) (_utc_now now) w = (Ok (Some g), w).
Proof.
  intros [_ (d & Ed & Hm)] (Ho & Hk & He). unfold _read_cleanup_guard, select_meta.
  rewrite (st_run _ _ _ _ _ (query_run _ w d Ed)), Hm, guard_doc_valid by done.
  rewrite (st_run (st_lift (Ok g)) _ w g w eq_refl), He.
  by rewrite (st_run (st_lift (Ok false)) _ w false w eq_refl).
Qed.

(** What a successful acquisition leaves behind. *)
Lemma acquire_ok id owner ttl hex now w d g w1 :
  w_db w = Ready d -> acquire_cleanup_guard id owner ttl hex now w = (Ok g, w1) ->
  exists expires, _expires_at ttl (_utc_now now) = Ok expires /\
    g = mkGuard id owner ("guard-" +:+ hex) expires /\ owner <> "" /\ guard_stored g w1.
Proof.
  unfold acquire_cleanup_guard. intros Ed E. run E as u w2 [Hc ->]%guard_not_ok. cbv zeta in E.
  run E as expires w2 [Hx ->]%st_lift_ok. run E as fe w2 F.
  destruct (quiet_ok _ _ _ _ _ (quiet_read_guard_file _ _) F Ed) as (d2 & Ed2 & _).
  run E as w3 w4 G. injection G as <- <-. unfold db_exists in E. rewrite Ed2 in E. cbn [negb] in E.
  run E as u2 w3 T. apply transaction_ok in T. rewrite (connect_ready w2 d2 Ed2) in T.
  run T as ex w4 _. run T as task w5 (-> & d5 & _ & _)%query_ok. run T as u3 w5 _.
  run T as u4 w6 _. run T as u5 w7 _. apply stmt_ok in T as (d7 & d8 & Ed7 & [= _ <-] & ->).
  run E as u6 w8 W. injection E as <- <-. exists expires. bool_prop.
  split; [done|]. split; [done|]. split; [done|]. unfold _write_cleanup_guard_file in W.
  run W as w9 w10 G. injection G as <- <-.
  assert (W' : st_modify (fun w => set_files (<[_cleanup_guard_record_path id :=
     GFile (Some (guard_doc (mkGuard id owner ("guard-" +:+ hex) expires)))]> (w_files w)) w)
     (set_db (Ready (mkDb (db_tasks d7) (db_leases d7) (db_events d7)
        (upsert fst (fun _ => (_cleanup_guard_key id, _dumps (PDict (guard_dict
           (mkGuard id owner ("guard-" +:+ hex) expires)))))
           (_cleanup_guard_key id, _dumps (PDict (guard_dict
           (mkGuard id owner ("guard-" +:+ hex) expires)))) (db_meta d7)))) w7) = (Ok u6, w8)).
  { revert W. cbn [w_files set_db g_task_id]. by destruct (w_files w7 !! _) as [[|v]|]. }
  injection W' as _ <-. split.
  - cbn [w_files set_files g_task_id]. apply lookup_insert_eq.
  - eexists. split; [reflexivity|]. cbn [db_meta g_task_id].
    rewrite select_upsert by done. cbn [fst]. rewrite String.eqb_refl.
    by destruct (select_by fst _ (db_meta d7)) as [[k v]|].
Qed.

(** A cleanup guard keeps claims and other cleanups away until it expires:
    once acquired, every claim of the task raises and changes no table, nobody
    (its owner included) acquires a second guard, and only the exact owner and
    token release it. *)
Theorem cleanup_guard_excludes id owner ttl hex now1 w d g w1 now2 :
  w_db w = Ready d -> acquire_cleanup_guard id owner ttl hex now1 w = (Ok g, w1) ->
  in_range now1 -> in_range (now1 + ttl * 1000000) -> in_range now2 ->
  (now2 < floor_s (now1 + ttl * 1000000))%Z ->
  (forall agent ttl' tk expd h1 h2, exists ex w',
     claim id agent ttl' tk expd h1 now2 h2 w1 = (Raise ex, w') /\ w_db w' = w_db w1) /\
  (forall owner' ttl' hex', exists ex w',
     acquire_cleanup_guard id owner' ttl' hex' now2 w1 = (Raise ex, w')) /\
  (forall owner' token', owner' <> owner \/ token' <> g_token g -> exists ex w',
     release_cleanup_guard id owner' token' now2 w1 = (Raise ex, w') /\ w' = w1).
Proof.
  intros Ed E H1 H2 H3 Hlt. destruct (acquire_ok _ _ _ _ _ _ _ _ _ Ed E) as (ex & Hx & -> & Ho & HS).
  rewrite expires_at_now in Hx by done. injection Hx as <-.
  set (g := mkGuard _ _ _ _) in *.
  assert (HL : guard_live g now2).
  { split; [done|]. split; [done|]. unfold guard_expired. cbn [g g_expires_at].
    rewrite expiry_le_now by done. f_equal. by apply Z.leb_gt. }
  pose proof (read_file_live _ _ _ HS HL) as RF. pose proof (read_db_live _ _ _ HS HL) as RD.
  destruct HS as [_ (d1 & Ed1 & _)]. cbn [g g_task_id] in RF, RD. split_and!.
  - intros agent ttl' tk expd h1 h2. apply (claim_refused _ _ _ _ _ _ _ _ _ d1 Ed1).
    intros [[task x] ev] w' T.
    destruct (claim_transaction_ok _ _ _ _ _ _ _ _ _ d1 _ _ _ _ Ed1 T)
      as (_ & _ & _ & _ & _ & (w2 & w3 & NG & _) & _). congruence.
  - intros owner' ttl' hex'. unfold acquire_cleanup_guard.
    destruct (_ || _ || _); [by eexists _, _|].
    rewrite (st_run (guard_not false _) _ w1 tt w1 eq_refl). cbv zeta.
    destruct (_expires_at ttl' (_utc_now now2)) as [x|x];
      [|rewrite (st_run_raise (st_lift (Raise x)) _ w1 x w1 eq_refl); by eexists _, _].
    rewrite (st_run (st_lift (Ok x)) _ w1 x w1 eq_refl), (st_run _ _ _ _ _ RF).
    rewrite (st_run st_get _ w1 w1 w1 eq_refl). unfold db_exists. rewrite Ed1. cbn [negb].
    match goal with |- context [(?m ≫= ?k) w1] => destruct (m w1) as [[u|e] w'] eqn:T;
      [exfalso|rewrite (st_run_raise m k w1 e w' T); by eexists _, _] end.
    apply transaction_ok in T. rewrite (connect_ready w1 d1 Ed1) in T.
    run T as o w2 _. run T as tk w3 _. run T as u1 w4 _. run T as u2 w5 RH.
    revert RH. unfold refuse_held. by destruct (String.eqb _ owner').
  - intros owner' token' Hne. unfold release_cleanup_guard.
    destruct (_ || _ || _); [by eexists _, _|].
    rewrite (st_run (guard_not false _) _ w1 tt w1 eq_refl). cbv zeta.
    rewrite (st_run _ _ _ _ _ RF), (st_run st_get _ w1 w1 w1 eq_refl).
    unfold db_exists. rewrite Ed1. unfold transaction at 1. unfold mbind at 1, ST_bind at 1.
    rewrite (connect_ready w1 d1 Ed1), (st_run _ _ _ _ _ RD). unfold mbind at 1, ST_bind at 1.
    assert (N : holds owner' token' (Some g) = false).
    { unfold holds. cbn [g g_owner g_token]. destruct Hne as [Hne|Hne].
      - by rewrite (proj2 (String.eqb_neq owner owner')) by congruence.
      - cbn [g g_token] in Hne. rewrite (proj2 (String.eqb_neq ("guard-" +:+ hex) token'))
          by congruence. apply andb_false_r. }
    rewrite N. cbn. eexists _, _. split; [reflexivity|]. by destruct w1.
Qed.

End Props.

(** ** A small database, run *)
Module DispatcherRun.

#[local] Instance sha_id : Sha256 := fun s => s.

Definition t0 : Z := 738886 * day_us.
Definition sec (n : Z) : Z := n * 1000000.

Definition snap (st : string) (pulled : Z) : TaskRecord :=
  mkTask "t1" 7 "title" st "high" [] (_utc_now t0) (_utc_now t0) "" None None None
    None None None (PDict [("last_pull_at", PStr (_utc_now pulled))]).

Definition empty : World := mkWorld (Ready (mkDb [] [] [] [])) ∅ [] WriterOk.

(** One ready task, synchronized; then claimed by A for one minute. *)
Definition w0 : World := (upsert_synced_task (snap "ready" t0) true None empty).2.
Definition claim_A := claim "t1" "A" 1 false None "aaaaaaaa" t0 "e1".
Definition w1 : World := (claim_A w0).2.
(** Thirty seconds in, and after the lease has expired. *)
Definition mid : Z := t0 + sec 30.
Definition late : Z := t0 + sec 90.

Lemma t0_range : in_range t0. Proof. vm_compute. split; [discriminate|reflexivity]. Qed.
Lemma mid_range : in_range mid. Proof. vm_compute. split; [discriminate|reflexivity]. Qed.
Lemma late_range : in_range late. Proof. vm_compute. split; [discriminate|reflexivity]. Qed.
Lemma e_range : in_range (t0 + 60 * 1000000).
Proof. vm_compute. split; [discriminate|reflexivity]. Qed.

Lemma w0_reachable : reachable w0.
Proof.
  exists empty. split; [done|]. apply rtc_once. left. apply step_sync; [done|right; by eexists].
Qed.
Lemma w1_reachable : reachable w1.
Proof.
  destruct w0_reachable as (w & I & S). exists w. split; [done|]. eapply rtc_r; [done|].
  left. apply step_claim.
Qed.

Definition dummy_db : Db := mkDb [] [] [] [].
Definition db_of (w : World) : Db := match w_db w with Ready d => d | _ => dummy_db end.
Definition row_of (w : World) (id : string) : TaskRow :=
  match task_at (db_of w) id with Some r => r | None => task_row (snap "" t0) end.
Definition lease_of (w : World) (id : string) : LeaseRecord :=
  match lease_at (db_of w) id with Some l => l | None => mkLease "" "" "" 0 "" "" None None None end.

Lemma expiry_text_order_witness :
  String.ltb (_utc_now mid) (isoformat_s (utc (t0 + 60 * 1000000)))
  = (mid <? floor_s (t0 + 60 * 1000000))%Z.
Proof.
  exact (proj1 (expiry_text_order 60 t0 mid _ t0_range mid_range e_range
    (expires_at_now 60 t0 t0_range e_range))).
Defined.


(** The result of a run that returned. *)
Definition value {A} (m : M A) (w : World) (dflt : A) : A :=
  match (m w).1 with Ok a => a | Raise _ => dflt end.
Definition dummy : TaskRecord * LeaseRecord :=
  (snap "" t0, mkLease "" "" "" 0 "" "" None None None).

Lemma claim_postcondition_witness :
  exists d', w_db w1 = Ready d' /\
    lease_at d' "lease-aaaaaaaa" = Some (snd (value claim_A w0 dummy)) /\
    exists ev, ev_event_type ev = "task.claimed" /\ db_events d' = [ev].
Proof.
  destruct (claim_postcondition "t1" "A" 1 false None "aaaaaaaa" t0 "e1" w0
    (fst (value claim_A w0 dummy)) (snd (value claim_A w0 dummy)) w1) as
    (d & d' & task & payload & E & E' & _ & _ & _ & _ & _ & L & _ & _ & _ & _ & _ & _ & _ & ev & Ev & Ty & _).
  - vm_compute. reflexivity.
  - exists d'. split; [exact E'|]. split; [exact L|]. exists ev. split; [exact Ty|].
    rewrite Ev. replace (db_events d) with (db_events (db_of w0)).
    + reflexivity.
    + unfold db_of. rewrite E. reflexivity.
Defined.

Lemma live_lease_blocks_claim_witness :
  exists ex w', claim "t1" "B" 1 true None "bbbbbbbb" mid "e2" w1 = (Raise ex, w')
                /\ w_db w' = w_db w1.
Proof.
  apply (live_lease_blocks_claim "t1" "B" 1 true None "bbbbbbbb" mid "e2" w1 (db_of w1)
    (row_of w1 "t1") "lease-aaaaaaaa" (lease_of w1 "lease-aaaaaaaa") (t0 + 60 * 1000000));
    try (vm_compute; reflexivity); [apply e_range|apply mid_range].
Defined.

Lemma heartbeat_renews_live_lease_witness :
  exists l w', heartbeat "t1" "A" mid "e2" w1 = (Ok l, w') /\ ls_holder l = "A".
Proof.
  destruct (heartbeat_renews_live_lease "t1" "A" mid "e2" w1 (db_of w1)
    (row_of w1 "t1") "lease-aaaaaaaa" (lease_of w1 "lease-aaaaaaaa") (t0 + 60 * 1000000))
    as (d' & w' & E & _).
  all: try (vm_compute; reflexivity).
  - apply reachable_inv, w1_reachable.
  - vm_compute. discriminate.
  - apply e_range.
  - apply mid_range.
  - vm_compute. split; [discriminate|reflexivity].
  - exists (mkLease "lease-aaaaaaaa" (ls_resource (lease_of w1 "lease-aaaaaaaa")) "A"
      (ls_ttl_seconds (lease_of w1 "lease-aaaaaaaa"))
      (ls_acquired_at (lease_of w1 "lease-aaaaaaaa"))
      (isoformat_s (utc (mid + ls_ttl_seconds (lease_of w1 "lease-aaaaaaaa") * 1000000)))
      (Some (_utc_now mid)) None None), w'. split; [exact E|reflexivity].
Defined.

(** B takes over the expired lease; a sweep that had observed A's lease runs. *)
Definition take_B := claim "t1" "B" 1 true (Some "lease-aaaaaaaa") "bbbbbbbb" late "e2".
Definition w2 : World := (take_B w1).2.
Definition draw0 (k : nat) : Z * string := (late, "e3").

Lemma w2_reachable : reachable w2.
Proof.
  destruct w1_reachable as (w & I & S). exists w. split; [done|]. eapply rtc_r; [done|].
  left. apply step_claim.
Qed.

Lemma gc_spares_live_leases_witness :
  exists d', w_db (_reclaim_observed_leases draw0 "gc" 0 [("t1", "lease-aaaaaaaa")] w2).2 = Ready d' /\
    task_at d' "t1" = Some (row_of w2 "t1") /\
    lease_at d' "lease-bbbbbbbb" = Some (lease_of w2 "lease-bbbbbbbb").
Proof.
  apply (gc_spares_live_leases draw0 "gc" [("t1", "lease-aaaaaaaa")] 0 w2 (db_of w2) "t1"
    (row_of w2 "t1") (lease_of w2 "lease-bbbbbbbb") (late + 60 * 1000000)
    (_reclaim_observed_leases draw0 "gc" 0 [("t1", "lease-aaaaaaaa")] w2).1);
    try (vm_compute; reflexivity).
  - apply reachable_inv, w2_reachable.
  - vm_compute. split; [discriminate|reflexivity].
  - intros k. split; [apply late_range|vm_compute; discriminate].
Defined.

Definition reclaim_A := _reclaim_one "t1" "lease-aaaaaaaa" "gc" late "e2".

Lemma reclaim_one_reclaims_witness :
  exists w' d' ev, reclaim_A w1 = (Ok (Some ev), w') /\ w_db w' = Ready d' /\
    lease_at d' "lease-aaaaaaaa"
    = Some (mark_released (_utc_now late) "expired" (lease_of w1 "lease-aaaaaaaa")).
Proof.
  destruct (reclaim_one_reclaims "t1" "lease-aaaaaaaa" "gc" late "e2" w1 (db_of w1)
    (row_of w1 "t1") (lease_of w1 "lease-aaaaaaaa") (t0 + 60 * 1000000) "ready"
    (JDoc (PDict [("ready_scan_invalidated_at", PStr (_utc_now late))])))
    as (w' & d' & E & Ed & _ & L & _).
  all: try (vm_compute; reflexivity).
  - apply reachable_inv, w1_reachable.
  - apply e_range.
  - apply late_range.
  - exists w', d'. eexists. split; [exact E|]. split; [exact Ed|exact L].
Defined.

Lemma sync_preserves_claims_witness :
  exists p w' d' row', upsert_synced_task (snap "ready" mid) true None w1
      = (Ok (mkSynced p false), w') /\ w_db w' = Ready d' /\
    task_at d' "t1" = Some row' /\ link row' = link (row_of w1 "t1") /\ status row' = "claimed".
Proof.
  destruct (sync_preserves_claims (snap "ready" mid) true None w1 (db_of w1) (row_of w1 "t1")
    (PDict [("last_pull_at", PStr (_utc_now t0))])) as (p & w' & d' & row' & E & Ed & T & L & St & _).
  1, 2, 3: vm_compute; reflexivity.
  - left. vm_compute. discriminate.
  - exists p, w', d', row'. split; [exact E|]. split; [exact Ed|]. split; [exact T|].
    split; [exact L|]. rewrite St. vm_compute. reflexivity.
Defined.

(** A task marked completed by hand while it is leased. *)
Definition w3 : World := (update_task "t1" (Some "completed") None "ops" mid "e2" mid w1).2.
Definition reclaim_done := _reclaim_one "t1" "lease-aaaaaaaa" "gc" late "e3".

Lemma w3_reachable : reachable w3.
Proof.
  destruct w1_reachable as (w & I & S). exists w. split; [done|]. eapply rtc_r; [done|].
  right. apply step_update.
Qed.

Lemma terminal_work_stays_closed_witness :
  exists p w' d' row, upsert_synced_task (snap "ready" late) true None (reclaim_done w3).2
      = (Ok (mkSynced p false), w') /\
    w_db w' = Ready d' /\ task_at d' "t1" = Some row /\ status row = "completed".
Proof.
  destruct (terminal_work_stays_closed "t1" "lease-aaaaaaaa" "gc" late "e3" w3 (db_of w3)
    (row_of w3 "t1") (match (reclaim_done w3).1 with Ok (Some e) => e
      | _ => mkEvent "" "" "" "" "" None PNone end) (reclaim_done w3).2 (snap "ready" late) true None)
    as (p & w' & d' & row & E & Ed & T & St & _).
  all: try (vm_compute; reflexivity).
  - apply reachable_inv, w3_reachable.
  - apply late_range.
  - right. vm_compute. reflexivity.
  - exists p, w', d', row. split; [exact E|]. split; [exact Ed|]. split; [exact T|].
    rewrite St. vm_compute. reflexivity.
Defined.

Lemma selection_is_least_witness :
  exists d r, w_db (select_next "B" late draw0 w1).2 = Ready d /\ r ∈ db_tasks d /\
    eligible r = true /\ task_id r = "t1".
Proof.
  destruct (selection_is_least "B" late draw0 w1
    (fst (value (select_next "B" late draw0) w1 (None, 0%nat)))
    (snd (value (select_next "B" late draw0) w1 (None, 0%nat)))
    (select_next "B" late draw0 w1).2) as (d & Ed & S).
  - vm_compute. reflexivity.
  - replace (fst (value (select_next "B" late draw0) w1 (None, 0%nat)))
      with (Some (fst (default (snap "" t0) (fst (value (select_next "B" late draw0) w1 (None, 0%nat))), tt)))
      in S by (vm_compute; reflexivity).
    destruct S as (r & Hin & Hel & Hr & _). exists d, r. split; [exact Ed|]. split; [exact Hin|].
    split; [exact Hel|]. destruct (row_to_task_ok _ _ Hr) as (_ & <- & _). vm_compute. reflexivity.
Defined.

Lemma complete_by_holder_witness :
  exists d' task lid, w_db (complete "t1" "A" (Some "lease-aaaaaaaa") mid "e2" w1).2 = Ready d' /\
    task_at (db_of w1) "t1" = Some task /\ lease_id task = Some lid /\
    exists row, task_at d' "t1" = Some row /\ status row = "completed" /\ lease_id row = None.
Proof.
  destruct (complete_by_holder "t1" "A" (Some "lease-aaaaaaaa") mid "e2" w1 (db_of w1)
    (value (complete "t1" "A" (Some "lease-aaaaaaaa") mid "e2") w1 (snap "" t0))
    (complete "t1" "A" (Some "lease-aaaaaaaa") mid "e2" w1).2)
    as (d' & task & lid & l & Ed & T & L & _ & _ & _ & _ & T' & _).
  - vm_compute. reflexivity.
  - apply reachable_inv, w1_reachable.
  - vm_compute. reflexivity.
  - exists d', task, lid. split; [exact Ed|]. split; [exact T|]. split; [exact L|].
    eexists. split; [exact T'|]. split; reflexivity.
Defined.

Definition guard_w0 := acquire_cleanup_guard "t1" "cleaner" 60 "ffff" t0.

Lemma cleanup_guard_excludes_witness :
  exists ex w', claim "t1" "B" 1 false None "bbbbbbbb" mid "e2" (guard_w0 w0).2 = (Raise ex, w')
                /\ w_db w' = w_db (guard_w0 w0).2.
Proof.
  refine (proj1 (cleanup_guard_excludes "t1" "cleaner" 60 "ffff" t0 w0 (db_of w0)
    (value guard_w0 w0 (mkGuard "" "" "" "")) (guard_w0 w0).2 mid _ _ _ _ _ _) "B" 1 false None
    "bbbbbbbb" "e2").
  - vm_compute. reflexivity.
  - vm_compute. reflexivity.
  - apply t0_range.
  - apply e_range.
  - apply mid_range.
  - vm_compute. reflexivity.
Defined.

(** ** Two observations about the code *)

(** A reads its task and lease; B takes the expired lease over; A's writes follow. *)
Definition released_by_A : World :=
  match release_read "t1" "A" w1 with
  | (Ok (t, l), _) => (release_write "t1" "A" "manual" t l late "e3" w2).2
  | _ => w1
  end.

(** [release] is not fenced on the lease it read: it reads the task and its
    lease in transactions of their own and writes them later, so when B takes the
    expired lease over in between, A's write unlinks the task from B's unreleased
    lease and the task can be claimed a second time. *)
Theorem release_race :
  (release_read "t1" "A" w1).2 = w1 /\
  status (row_of released_by_A "t1") = "ready" /\ lease_id (row_of released_by_A "t1") = None /\
  unreleased (lease_of released_by_A "lease-bbbbbbbb") = true /\
  is_ok (claim "t1" "C" 1 false None "cccccccc" late "e4" released_by_A).1 = true.
Proof. vm_compute. by repeat split. Qed.

(** The claimed task is blocked. *)
Definition blocked_while_leased : World := (block "t1" "why" "ops" mid "e2" mid w1).2.

(** [unblock] returns a blocked task to [ready] although it is still leased. *)
Theorem unblock_ignores_lease :
  let w := (unblock "t1" "ops" mid "e3" mid blocked_while_leased).2 in
  status (row_of w "t1") = "ready" /\ lease_id (row_of w "t1") = Some "lease-aaaaaaaa".
Proof. vm_compute. by repeat split. Qed.

End DispatcherRun.
