(* ===== verification/BatchOperations.v ===== *)
(** * Batches (src/app/operations/batch_operations.py)

    [BatchOperationCoordinator] runs a frozen list of single-target requests
    through the execution kernel and keeps its progress as one more record of
    the receipt journal, under the id [ygg.batch:<batch_id>].  The state it
    loads and saves is the JSON document itself, read with the lookups the code
    makes, so that a damaged document raises where the code raises.

    The batch lock ([batch_window]) serializes the sections it guards; between
    two sections other callers may run, which is why every section reloads.
    [time()] readings are drawn from [clock], one per kernel call. *)
From Stdlib Require Import QArith.
From S2P Require Import Prelude PyValue Contracts ReceiptStore ExecutionKernel Sql.

Definition SUPPORTED_BATCH_OPERATIONS : list string :=
  ["artifact.update"; "artifact.move"; "artifact.rename"; "artifact.classify";
   "artifact.tags.add"; "artifact.tags.remove"; "collection.reorder"].
Definition MAX_BATCH_ITEMS : Z := 100.
Definition _PREFIX : string := "ygg.batch:".
Definition _RECOVERABLE : list OperationStatus := [RECOVERY_REQUIRED; NOT_ACKNOWLEDGED].
Definition _APPLIED : list OperationStatus := [SUCCEEDED; CONVERGENCE_PENDING].

Definition status_in (s : OperationStatus) (l : list OperationStatus) : bool :=
  bool_decide (s ∈ l).

(** ** Results *)

Record BatchPreview : Type := mkPreview {
  bp_batch_id : pyval;
  bp_digest : string;
  bp_operation_id : pyval;
  bp_candidate_digest : string;
  bp_selector_digest : string;
  bp_argument_digest : string;
  bp_delegation_digest : string;
  bp_policy_ceiling : pydict;
  bp_cardinality : nat;
  bp_limit : pyval;
  bp_partial_success_policy : pyval }.

Record BatchItem : Type := mkBatchItem {
  bi_request_id : pyval;
  bi_artifact_id : pyval;
  bi_state : pyval;
  bi_outcome : option OperationOutcome }.

Record BatchResult : Type := mkBatchResult {
  br_preview : BatchPreview;
  br_cancel_requested : pyval;
  br_items : list BatchItem }.

(** The dict built by [counts]. *)
Record BatchCounts : Type := mkCounts {
  n_completed : nat; n_conflicted : nat; n_refused : nat; n_ambiguous : nat;
  n_pending : nat; n_cancelled : nat; n_recoverable : nat; n_convergence_pending : nat }.

Definition no_counts : BatchCounts := mkCounts 0 0 0 0 0 0 0 0.
Definition add_counts (a b : BatchCounts) : BatchCounts :=
  mkCounts (n_completed a + n_completed b) (n_conflicted a + n_conflicted b)
    (n_refused a + n_refused b) (n_ambiguous a + n_ambiguous b) (n_pending a + n_pending b)
    (n_cancelled a + n_cancelled b) (n_recoverable a + n_recoverable b)
    (n_convergence_pending a + n_convergence_pending b).

Definition source_unknown (c : option OperationConvergence) : bool :=
  match c with None => true | Some c => bool_decide (conv_source_effect c = UNKNOWN) end.

(** The body of the loop of [counts]. *)
Definition count_item (item : BatchItem) : BatchCounts :=
  let refused := mkCounts 0 0 1 0 0 0 0 0 in
  if py_eqb (bi_state item) (PStr "cancelled") then mkCounts 0 0 0 0 0 1 0 0
  else if py_in (bi_state item) [PStr "pending"; PStr "started"] then mkCounts 0 0 0 0 1 0 0 0
  else match bi_outcome item with
  | Some o =>
      if status_in (oc_status o) _APPLIED
      then mkCounts 1 0 0 0 0 0 0 (if decide (oc_status o = CONVERGENCE_PENDING) then 1 else 0)
      else if decide (oc_status o = CONFLICTED) then mkCounts 0 1 0 0 0 0 0 0
      else if status_in (oc_status o) _RECOVERABLE
      then mkCounts 0 0 0 (if source_unknown (oc_convergence o) then 1 else 0) 0 0 1 0
      else refused
  | None => refused
  end.

Definition counts (r : BatchResult) : BatchCounts :=
  foldl (fun acc i => add_counts acc (count_item i)) no_counts (br_items r).

Definition BatchResult_status (r : BatchResult) : string :=
  let c := counts r in
  if negb (Nat.eqb (n_recoverable c) 0) then "recovery_required"
  else if negb (Nat.eqb (n_pending c) 0) then "pending"
  else if Nat.eqb (n_completed c) (length (br_items r))
  then if negb (Nat.eqb (n_convergence_pending c) 0) then "convergence_pending" else "succeeded"
  else if Nat.eqb (n_cancelled c) (length (br_items r)) then "cancelled"
  else if negb (Nat.eqb (n_completed c) 0) then "partial" else "not_completed".

(** ** Owner evidence *)

Definition mapping_or_empty (v : pyval) : pydict := match v with PDict d => d | _ => [] end.

(** [(native, authority, source)]. *)
Definition _native_evidence (outcome : OperationOutcome) : pydict * pydict * pydict :=
  let evidence := match oc_receipt outcome with None => [] | Some r => rc_extensions r end in
  let native := mapping_or_empty
    (py_or (py_or (get evidence "write") (get evidence "placement")) (PDict [])) in
  let governed := mapping_or_empty (default (PDict native) (dict_get native "governed_write")) in
  let authority := mapping_or_empty (default (PDict []) (dict_get governed "authority_receipt")) in
  let source := mapping_or_empty (default (PDict []) (dict_get native "source_receipt")) in
  (native, authority, source).

(** The complement of the disjunction of [_require_owner_evidence]. *)
Definition owner_evidence (outcome : OperationOutcome) : bool :=
  let '(native, authority, source) := _native_evidence outcome in
  py_eqb (get source "outcome") (PStr "written")
  && truthy (get authority "receipt_id")
  && py_eqb (get authority "effect_id") (PStr (oc_request_id outcome))
  && py_eqb (get authority "outcome") (PStr "applied")
  && truthy (get authority "source_receipt_ref")
  && is_committed (oc_convergence outcome)
  && py_eqb (default (PStr "source_applied") (dict_get native "effect_state"))
       (PStr "source_applied").

Definition _require_owner_evidence (outcome : OperationOutcome) : OperationOutcome :=
  if negb (status_in (oc_status outcome) _APPLIED) then outcome
  else if owner_evidence outcome then outcome
  else with_warnings (oc_warnings outcome ++
         ["native source effect and durable GOV receipt are required; reconcile owner evidence"])
         (with_status RECOVERY_REQUIRED outcome).

Definition nonempty (d : pydict) : bool := match d with [] => false | _ => true end.

Definition source_effect (o : OperationOutcome) : option SourceEffectStatus :=
  conv_source_effect <$> oc_convergence o.

Definition _retain_observed_source (previous current : OperationOutcome) : OperationOutcome :=
  let source := source_effect previous in
  let current_source := source_effect current in
  let preserve :=
    bool_decide (source = Some COMMITTED) && negb (bool_decide (current_source = Some COMMITTED))
    || bool_decide (source = Some UNKNOWN)
       && match oc_convergence current with None => true | Some _ => false end in
  let '(old_native, old_authority, old_source) := _native_evidence previous in
  let '(new_native, new_authority, new_source) := _native_evidence current in
  let richer_receipt :=
    nonempty old_native
    && (negb (nonempty new_native)
        || nonempty old_authority && negb (nonempty new_authority)
        || nonempty old_source && negb (nonempty new_source)) in
  if negb preserve
     && negb ((bool_decide (source = Some COMMITTED) || bool_decide (source = Some UNKNOWN))
              && richer_receipt)
  then current
  else
    with_warnings (dict_fromkeys (oc_warnings previous ++ oc_warnings current ++
        ["previously observed native source/receipt evidence retained; current recovery is unresolved"]))
      (with_extensions
        (dict_merge (dict_merge (oc_extensions previous) (oc_extensions current))
           [("recovery_result", PStr (OperationStatus_value (oc_status current)));
            ("observed_source_retained", PBool true)])
        (with_receipt (oc_receipt previous)
          (with_convergence
             (if preserve then oc_convergence previous
              else match oc_convergence current with
                   | Some c => Some c
                   | None => oc_convergence previous end)
             (with_status RECOVERY_REQUIRED current)))).

(** ** Reading the stored document *)

(** [len(v)]. *)
Definition py_len (v : pyval) : res nat :=
  match v with
  | PList l | PTuple l => Ok (length l)
  | PDict d => Ok (length d)
  | PStr s => Ok (String.length s)
  | _ => Raise (TypeError "object has no len()")
  end.

(** [v[n]] for an index. *)
Definition py_index (v : pyval) (n : nat) : res pyval :=
  match v with
  | PList l | PTuple l =>
      match l !! n with Some x => Ok x | None => Raise (OtherException "IndexError") end
  | PStr s =>
      match chars s !! n with Some x => Ok x | None => Raise (OtherException "IndexError") end
  | PDict _ => Raise (KeyError "index")
  | _ => Raise (TypeError "object is not subscriptable")
  end.

(** [zip(xs, ys, strict=True)]. *)
Definition zip_strict (xs ys : list pyval) : res (list (pyval * pyval)) :=
  if Nat.eqb (length xs) (length ys) then Ok (zip xs ys)
  else Raise (ValueError "zip() arguments have different lengths").

(** [v[n] = x] on a list of a document. *)
Definition set_index (v : pyval) (n : nat) (x : pyval) : res pyval :=
  match v with
  | PList l => if Nat.ltb n (length l) then Ok (PList (<[n := x]> l))
               else Raise (OtherException "IndexError")
  | _ => Raise (TypeError "object does not support item assignment")
  end.

(** [v[k] = x] on a dict of a document. *)
Definition setitem (v : pyval) (k : string) (x : pyval) : res pyval :=
  match v with
  | PDict d => Ok (PDict (dict_set d k x))
  | _ => Raise (TypeError "object does not support item assignment")
  end.

Definition str_of (v : pyval) : res string :=
  match v with PStr s => Ok s | _ => Raise (TypeError "can only concatenate str") end.

(** [request.context != first.context], dataclass equality. *)
Definition context_eqb (a b : OperationContext) : bool :=
  String.eqb (ctx_active_context_ref a) (ctx_active_context_ref b)
  && py_eqb (ctx_vault_generation a) (ctx_vault_generation b)
  && py_eqb (PDict (ctx_extensions a)) (PDict (ctx_extensions b)).

(** [set(d) == {k}]. *)
Definition keys_are (d : pydict) (k : string) : bool :=
  match d with [] => false | _ => forallb (fun kv => String.eqb (fst kv) k) d end.

Definition item_states : list pyval :=
  [PStr "pending"; PStr "started"; PStr "terminal"; PStr "recoverable"; PStr "cancelled"].

(** One iteration of the loop of [_load]. *)
Definition check_item (raw item : pyval) : res unit :=
  state ← getitem item "state";
  if negb (py_in state item_states) then Raise (ValueError "invalid item progress")
  else
    o ← getitem item "outcome";
    if negb (is_none o) then
      outcome ← OperationOutcome_from_dict o;
      rid ← getitem raw "request_id";
      oid ← getitem raw "operation_id";
      ctx ← getitem raw "context";
      if negb (py_eqb (PStr (oc_request_id outcome)) rid)
         || negb (py_eqb (PStr (oc_operation_id outcome)) oid)
         || negb (py_eqb (PDict (OperationContext_to_dict (oc_context outcome))) ctx)
      then Raise (ValueError "item evidence differs from original identity")
      else if py_eqb state (PStr "terminal") && status_in (oc_status outcome) _RECOVERABLE
              || py_eqb state (PStr "recoverable")
                 && negb (status_in (oc_status outcome) _RECOVERABLE)
              || py_in state [PStr "pending"; PStr "cancelled"]
      then Raise (ValueError "item progress cannot suppress its unresolved outcome")
      else Ok tt
    else if py_in state [PStr "terminal"; PStr "recoverable"]
    then Raise (ValueError "item outcome is missing")
    else Ok tt.

Fixpoint check_items (l : list (pyval * pyval)) : res unit :=
  match l with
  | [] => Ok tt
  | (raw, item) :: l => u ← check_item raw item; check_items l
  end.

Section coordinator.
Context (sha256_hex : string -> string).

Abbreviation _digest := (digest sha256_hex).
Abbreviation _json := (json_dumps "," ":" true).
(** The journal of the kernel.  The code insists on [JsonReceiptStore]; the
    operations are written against the protocol, so that they also run on a
    journal other processes use between two of their calls. *)
Context {Journal : Type} `{!ReceiptStore Journal}.
Abbreviation W := (world Journal).

(** The body of the [try] of [_load], after the lookup.  The lookups come
    before the disjunction that uses them: whatever they raise, [_load] turns
    into the same exception. *)
Definition authenticate (batch_id : string) (expected_digest : option string)
    (stored : option StoredOutcome) : res pydict :=
  match stored with
  | None => Raise (ValueError "missing frozen batch")
  | Some stored =>
      state ← getitem (PDict (oc_extensions (st_outcome stored))) "batch";
      frozen ← getitem state "frozen";
      bid ← getitem frozen "batch_id";
      cancel ← getitem state "cancel_requested";
      items ← getitem state "items";
      requests ← getitem frozen "requests";
      n_items ← py_len items;
      n_requests ← py_len requests;
      if negb (py_eqb bid (PStr batch_id))
         || negb (py_eqb (PStr (_digest frozen)) (st_intent_digest stored))
         || match expected_digest with
            | None => false
            | Some d => negb (py_eqb (PStr d) (st_intent_digest stored))
            end
         || match cancel with PBool _ => false | _ => true end
         || negb (Nat.eqb n_items n_requests)
      then Raise (ValueError "frozen batch differs from confirmation")
      else
        raws ← py_iter requests;
        its ← py_iter items;
        pairs ← zip_strict raws its;
        u ← check_items pairs;
        py_dict state
  end.

Definition _load (batch_id : string) (expected_digest : option string) : ST W pydict :=
  st_catch
    (stored ← on_store (rs_lookup (_PREFIX +:+ batch_id));
     st_lift (authenticate batch_id expected_digest stored))
    (fun _ => st_raise (BatchStateUnavailable
       "batch state unavailable or inconsistent; no new effect admitted")).

(** The record that carries a batch in the journal. *)
Definition batch_record (key : string) (context : OperationContext) (state : pydict)
    : OperationOutcome :=
  mkOutcome key RECOVERY_REQUIRED "batch.preview" context None None [] None None None []
    [("batch", PDict state)].

Definition _save (state : pydict) : ST W unit :=
  frozen ← st_lift (getitem (PDict state) "frozen");
  requests ← st_lift (getitem frozen "requests");
  raw ← st_lift (py_index requests 0);
  first ← st_lift (OperationRequest_from_dict raw);
  bid ← st_lift (getitem frozen "batch_id");
  bid ← st_lift (str_of bid);
  on_store (rs_finalize (_PREFIX +:+ bid) (PStr (_digest frozen))
              (batch_record (_PREFIX +:+ bid) (rq_context first) state)).

(** [{key: raw[key] for key in keys}]. *)
Definition project (keys : list string) (raw : pyval) : res pydict :=
  mapM_res (fun k => v ← getitem raw k; Ok (k, v)) keys.

Definition result_item (p : pyval * pyval) : res BatchItem :=
  let '(raw, item) := p in
  rid ← getitem raw "request_id";
  targets ← getitem raw "targets";
  target ← py_index targets 0;
  identity ← getitem target "artifact_id";
  state ← getitem item "state";
  o ← getitem item "outcome";
  outcome ← (if is_none o then Ok None else Some <$> OperationOutcome_from_dict o);
  Ok (mkBatchItem rid identity state outcome).

Definition _result (state : pydict) : res BatchResult :=
  frozen ← getitem (PDict state) "frozen";
  requests ← getitem frozen "requests";
  bid ← getitem frozen "batch_id";
  raw0 ← py_index requests 0;
  operation_id ← getitem raw0 "operation_id";
  raws ← py_iter requests;
  candidates ← mapM_res (project ["targets"; "expected_version"; "context"; "request_id"]) raws;
  selector ← getitem frozen "selector";
  arguments ← mapM_res (fun raw => getitem raw "arguments") raws;
  delegation ← getitem frozen "delegation";
  ceiling ← getitem frozen "policy_ceiling";
  ceiling ← py_dict ceiling;
  n ← py_len requests;
  limit ← getitem frozen "limit";
  policy ← getitem frozen "partial_success_policy";
  cancel ← getitem (PDict state) "cancel_requested";
  items ← getitem (PDict state) "items";
  its ← py_iter items;
  pairs ← zip_strict raws its;
  bitems ← mapM_res result_item pairs;
  Ok (mkBatchResult
        (mkPreview bid (_digest frozen) operation_id
           (_digest (PList (map PDict candidates))) (_digest selector)
           (_digest (PList arguments)) (_digest delegation) ceiling n limit policy)
        cancel bitems).

(** *** [preview] *)

Definition policy_ok (v : pyval) (batch_policy : pyval) : bool :=
  is_none v || py_eqb v batch_policy.

(** The first condition of the loop of [preview], negated. *)
Definition homogeneous (first request : OperationRequest) : bool :=
  String.eqb (rq_operation_id request) (rq_operation_id first)
  && context_eqb (rq_context request) (rq_context first)
  && String.eqb (rq_mode request) "execute"
  && String.eqb (rq_operation_version request) "ygg.operation.v1"
  && match rq_targets request with [t] => keys_are t "artifact_id" | _ => false end
  && is_nonempty_str (rq_expected_version request)
  && negb (String.eqb (rq_request_id request) "")
  && negb (startswith _PREFIX (rq_request_id request)).

(** One iteration: the identity and the request id it admits. *)
Definition preview_item (K : kernel) (now : Q) (first : OperationRequest) (batch_policy : pyval)
    (frozen_delegation : pydict) (identities request_ids : list string) (raw : pyval)
    : res (string * string) :=
  request ← OperationRequest_from_dict raw;
  if negb (homogeneous first request)
  then Raise (ValueError "batch requires homogeneous versioned single-target owner requests")
  else if String.eqb (rq_operation_id request) "artifact.update"
          && negb (keys_are (rq_arguments request) "body")
  then Raise (ValueError "batch body edits cannot select the Panel/proposal owner")
  else if negb (policy_ok (opt_dict (rq_batch_policy request)) batch_policy)
          || match rq_delegation request with
             | None => false
             | Some d => negb (py_eqb (PDict d) (PDict frozen_delegation))
             end
  then Raise (ValueError "item delegation/partial-success policy differs from frozen batch")
  else
    target ← py_index (PList (map PDict (rq_targets request))) 0;
    identity ← getitem target "artifact_id";
    match identity with
    | PStr i =>
        if String.eqb (strip i) "" || existsb (String.eqb i) identities
           || existsb (String.eqb (rq_request_id request)) request_ids
        then Raise (ValueError "batch target and operation identities must be stable and unique")
        else if match _precondition_refusal K now request (Some frozen_delegation) with
                | Some _ => true | None => false end
        then Raise (ValueError "frozen delegation/context does not admit every selected item")
        else Ok (i, rq_request_id request)
    | _ => Raise (ValueError "batch target and operation identities must be stable and unique")
    end.

(** The loop; its accumulators are the sets [identities] and [request_ids]. *)
Fixpoint preview_items (K : kernel) (clock : nat -> Q) (first : OperationRequest)
    (batch_policy : pyval) (frozen_delegation : pydict) (identities request_ids : list string)
    (n : nat) (raws : list pyval) : res unit :=
  match raws with
  | [] => Ok tt
  | raw :: raws =>
      ir ← preview_item K (clock n) first batch_policy frozen_delegation identities
             request_ids raw;
      preview_items K clock first batch_policy frozen_delegation (fst ir :: identities)
        (snd ir :: request_ids) (S n) raws
  end.

Definition policy_keys : list string :=
  ["policy_version"; "authority_class"; "allowed_effects"; "max_targets"; "expires_at"].

(** Everything [preview] does before it opens the batch window: the frozen
    document of an admissible batch. *)
Definition freeze (K : kernel) (clock : nat -> Q) (batch_id : pyval)
    (requests : list OperationRequest) (selector delegation : pydict) (limit : pyval)
    (partial_success_policy : string) : res (string * OperationRequest * pydict) :=
  match batch_id with
  | PStr bid =>
      if String.eqb (strip bid) "" || Nat.ltb 200 (String.length bid)
      then Raise (ValueError "a bounded stable batch identity is required")
      else if match limit with
              | PInt z => negb ((1 <=? z)%Z && (z <=? MAX_BATCH_ITEMS)%Z)
                          || negb ((1 <=? Z.of_nat (length requests))%Z
                                   && (Z.of_nat (length requests) <=? z)%Z)
              | _ => true
              end
      then Raise (ValueError "batch cardinality exceeds its explicit bounded limit")
      else if negb (String.eqb partial_success_policy "independent")
      then Raise (ValueError "only independent per-item partial success is supported")
      else match requests with
      | [] => Raise (OtherException "IndexError")
      | first :: _ =>
          if negb (existsb (String.eqb (rq_operation_id first)) SUPPORTED_BATCH_OPERATIONS)
             || negb (dict_mem (k_handlers K) (rq_operation_id first))
          then Raise (ValueError "operation has no supported direct batch owner binding")
          else
            let frozen_requests :=
              map (fun r => json_norm (PDict (OperationRequest_to_dict r))) requests in
            let frozen_delegation := json_norm_dict delegation in
            let batch_policy := PDict [("partial_success_policy", PStr partial_success_policy)] in
            if negb (policy_ok (get frozen_delegation "batch_policy") batch_policy)
            then Raise (ValueError "delegated partial-success policy is not supported")
            else
              u ← preview_items K clock first batch_policy frozen_delegation [] [] 0
                    frozen_requests;
              if match get delegation "max_targets" with
                 | PInt z => (z <? Z.of_nat (length requests))%Z
                 | _ => true
                 end
              then Raise (ValueError "batch cardinality exceeds delegated scope")
              else
                policy ← project policy_keys (PDict frozen_delegation);
                let frozen :=
                  [("batch_id", PStr bid); ("requests", PList frozen_requests);
                   ("selector", PDict (json_norm_dict selector));
                   ("delegation", PDict frozen_delegation);
                   ("policy_ceiling", PDict policy); ("limit", limit);
                   ("partial_success_policy", PStr partial_success_policy)] in
                if (1048576 <? Z.of_nat (String.length (_json (PDict frozen))))%Z
                then Raise (ValueError "batch intent exceeds the bounded durable payload")
                else Ok (bid, first, frozen)
      end
  | _ => Raise (ValueError "a bounded stable batch identity is required")
  end.

Definition initial_state (frozen : pydict) (n : nat) : pydict :=
  [("frozen", PDict frozen); ("cancel_requested", PBool false); ("cursor", PInt 0);
   ("items", PList (replicate n (PDict [("state", PStr "pending"); ("outcome", PNone)])))].

Definition preview (K : kernel) (clock : nat -> Q) (batch_id : pyval)
    (requests : list OperationRequest) (selector delegation : pydict) (limit : pyval)
    (partial_success_policy : string) : ST W BatchPreview :=
  bff ← st_lift (freeze K clock batch_id requests selector delegation limit
                   partial_success_policy);
  let '(bid, first, frozen) := bff in
  let key := _PREFIX +:+ bid in
  reserved ← on_store (rs_reserve key (PStr (_digest (PDict frozen)))
               (batch_record key (rq_context first)
                  (initial_state frozen (length requests))));
  _ ← guard_not (match fst reserved with CONFLICT => true | _ => false end)
        (ValueError "batch identity is already bound to another frozen intent");
  state ← _load bid None;
  result ← st_lift (_result state);
  mret (br_preview result).

(** *** [frozen_intent], [inspect], [cancel] *)

Definition frozen_intent (batch_id expected_digest : string) : ST W pyval :=
  state ← _load batch_id (Some expected_digest);
  frozen ← st_lift (getitem (PDict state) "frozen");
  mret (json_norm frozen).

Definition inspect (batch_id expected_digest : string) : ST W BatchResult :=
  state ← _load batch_id (Some expected_digest);
  st_lift (_result state).

(** One iteration of the loop of [cancel]: the item it leaves.  A frozen
    [request_id] is a [str], as [to_dict] writes it. *)
Definition cancel_item (raw item : pyval) : ST W pyval :=
  state ← st_lift (getitem item "state");
  if py_eqb state (PStr "pending") then
    rid ← st_lift (getitem raw "request_id");
    rid ← st_lift (str_of rid);
    prior ← on_store (rs_lookup rid);
    st_lift (setitem item "state"
               (PStr (match prior with Some _ => "started" | None => "cancelled" end)))
  else mret item.

Fixpoint cancel_items (l : list (pyval * pyval)) : ST W (list pyval) :=
  match l with
  | [] => mret []
  | (raw, item) :: l =>
      item ← cancel_item raw item;
      items ← cancel_items l;
      mret (item :: items)
  end.

Definition cancel (batch_id expected_digest : string) : ST W BatchResult :=
  state ← _load batch_id (Some expected_digest);
  let state := dict_set state "cancel_requested" (PBool true) in
  frozen ← st_lift (getitem (PDict state) "frozen");
  requests ← st_lift (getitem frozen "requests");
  raws ← st_lift (py_iter requests);
  items ← st_lift (getitem (PDict state) "items");
  its ← st_lift (py_iter items);
  pairs ← st_lift (zip_strict raws its);
  its ← cancel_items pairs;
  let state := dict_set state "items" (PList its) in
  _ ← _save state;
  st_lift (_result state).

(** *** [execute] *)

(** What the first window of an iteration decides. *)
Inductive item_start : Type :=
  | Skip
  | Start (request : OperationRequest) (delegation : option pydict) (recovering : bool).

(** The [delegation] argument of the kernel call; [preview] froze a dict. *)
Definition delegation_arg (v : pyval) : res (option pydict) :=
  match v with
  | PNone => Ok None
  | PDict d => Ok (Some d)
  | _ => Raise (AttributeError "get")
  end.

Definition set_item (state : pydict) (index : nat) (item : pyval) : res pydict :=
  items ← getitem (PDict state) "items";
  items ← set_index items index item;
  Ok (dict_set state "items" items).

(** Mark the item and save. *)
Definition mark (state : pydict) (index : nat) (item : pyval) (s : string)
    (cursor : option nat) : ST W unit :=
  item ← st_lift (setitem item "state" (PStr s));
  state ← st_lift (set_item state index item);
  _save (match cursor with
         | Some c => dict_set state "cursor" (PInt (Z.of_nat c))
         | None => state
         end).

Definition start_item (batch_id expected_digest : string) (index : nat) : ST W item_start :=
  state ← _load batch_id (Some expected_digest);
  items ← st_lift (getitem (PDict state) "items");
  item ← st_lift (py_index items index);
  s ← st_lift (getitem item "state");
  if py_in s [PStr "terminal"; PStr "cancelled"] then mret Skip
  else
    frozen ← st_lift (getitem (PDict state) "frozen");
    requests ← st_lift (getitem frozen "requests");
    raw ← st_lift (py_index requests index);
    request ← st_lift (OperationRequest_from_dict raw);
    prior ← on_store (rs_lookup (rq_request_id request));
    cancel_requested ← st_lift (getitem (PDict state) "cancel_requested");
    if truthy cancel_requested && py_eqb s (PStr "pending")
    then (_ ← mark state index item "cancelled" None; mret Skip)
    else if truthy cancel_requested && match prior with None => true | Some _ => false end
    then (_ ← mark state index item "cancelled" None; mret Skip)
    else
      _ ← mark state index item "started" (Some index);
      delegation ← st_lift (getitem frozen "delegation");
      delegation ← st_lift (delegation_arg delegation);
      mret (Start request delegation (negb (py_eqb s (PStr "pending")))).

(** The last window of an iteration: [outcome] has passed
    [_require_owner_evidence]. *)
Definition finish_item (batch_id expected_digest : string) (index : nat)
    (outcome : OperationOutcome) : ST W unit :=
  state ← _load batch_id (Some expected_digest);
  items ← st_lift (getitem (PDict state) "items");
  item ← st_lift (py_index items index);
  previous ← st_lift (getitem item "outcome");
  outcome ← (if is_none previous then mret outcome
             else previous ← st_lift (OperationOutcome_from_dict previous);
                  mret (_retain_observed_source previous outcome));
  state ← st_lift (set_item state index
    (PDict [("state", PStr (if status_in (oc_status outcome) _RECOVERABLE
                            then "recoverable" else "terminal"));
            ("outcome", PDict (OperationOutcome_to_dict outcome))]));
  _save (dict_set state "cursor" (PInt (Z.of_nat (S index)))).

Definition execute_item (K : kernel) (reconcile_owner : option OwnerHandler) (now : Q)
    (batch_id expected_digest : string) (index : nat) : ST W unit :=
  start ← start_item batch_id expected_digest index;
  match start with
  | Skip => mret tt
  | Start request delegation recovering =>
      outcome ← (fun w =>
        let '(o, w) := execute sha256_hex K now request delegation
                         (if recovering then reconcile_owner else None) true w in
        (Ok o, w));
      finish_item batch_id expected_digest index (_require_owner_evidence outcome)
  end.

(** [for index in range(count)], from [index] on. *)
Fixpoint execute_items (K : kernel) (reconcile_owner : option OwnerHandler) (clock : nat -> Q)
    (batch_id expected_digest : string) (index count : nat) : ST W unit :=
  match count with
  | O => mret tt
  | S count =>
      _ ← execute_item K reconcile_owner (clock index) batch_id expected_digest index;
      execute_items K reconcile_owner clock batch_id expected_digest (S index) count
  end.

Definition execute_batch (K : kernel) (reconcile_owner : option OwnerHandler)
    (clock : nat -> Q) (batch_id expected_digest : string) : ST W BatchResult :=
  state ← _load batch_id (Some expected_digest);
  items ← st_lift (getitem (PDict state) "items");
  count ← st_lift (py_len items);
  _ ← execute_items K reconcile_owner clock batch_id expected_digest 0 count;
  inspect batch_id expected_digest.
End coordinator.
