(* ===== verification/BatchProps.v ===== *)
(** * Properties of batches

    The frame of [BatchOperationCoordinator] (what a relation must tolerate to
    be kept by every locked section), what [_load] has authenticated, the
    arithmetic of the result summary, the evidence demanded of an applied item,
    what a preview admits and the confirmation digest.  What holds when other
    users of the journal run in between is in BatchInterleaving. *)
From Stdlib Require Import QArith.
From S2P Require Import Prelude PyValue Contracts ReceiptStore ExecutionKernel Sql BatchOperations.

Abbreviation W := (world JsonReceiptStore).
Abbreviation view w id := (rs_view (w_store w) id).

(** ** Relations kept by every section *)

(** [keeps R m]: whatever [m] answers, the worlds before and after are related. *)
Definition keeps {T} (R : T -> T -> Prop) {A} (m : ST T A) : Prop :=
  forall w r w', m w = (r, w') -> R w w'.

Create HintDb batch discriminated.

Section keeps.
Context {T : Type} (R : T -> T -> Prop) `{!PreOrder R}.

Lemma keeps_ret {A} (a : A) : keeps R (mret a).
Proof. intros w r w' [= _ <-]. reflexivity. Qed.
Lemma keeps_raise {A} e : keeps R (st_raise e : ST T A).
Proof. intros w r w' [= _ <-]. reflexivity. Qed.
Lemma keeps_lift {A} (r : res A) : keeps R (st_lift r).
Proof. intros w r' w' [= _ <-]. reflexivity. Qed.
Lemma keeps_guard c e : keeps R (guard_not c e).
Proof. unfold guard_not. destruct c; [apply keeps_raise|apply keeps_ret]. Qed.
Lemma keeps_bind {A B} (m : ST T A) (f : A -> ST T B) :
  keeps R m -> (forall a, keeps R (f a)) -> keeps R (m ≫= f).
Proof.
  intros Hm Hf w r w'. unfold mbind, ST_bind. destruct (m w) as [[a|e] w1] eqn:E; intros H.
  - etrans; [by eapply Hm|by eapply Hf].
  - simplify_eq. by eapply Hm.
Qed.
Lemma keeps_catch {A} (m : ST T A) h :
  keeps R m -> (forall e, keeps R (h e)) -> keeps R (st_catch m h).
Proof.
  intros Hm Hh w r w'. unfold st_catch. destruct (m w) as [[a|e] w1] eqn:E; intros H.
  - simplify_eq. by eapply Hm.
  - etrans; [by eapply Hm|by eapply Hh].
Qed.
End keeps.

#[export] Hint Resolve keeps_ret keeps_raise keeps_lift keeps_guard : batch.

Ltac keeps_step :=
  match goal with
  | |- keeps _ (_ ≫= _) => apply keeps_bind; [exact _| |intros ?]
  | |- keeps _ (st_catch _ _) => apply keeps_catch; [exact _| |intros ?]
  | |- keeps _ (if ?b then _ else _) => destruct b
  | |- keeps _ (match ?x with _ => _ end) => destruct x
  | |- keeps _ _ => solve [eauto with batch typeclass_instances]
  end.
Ltac keeps_auto := repeat keeps_step.

(** What a relation must tolerate to be kept by every batch section: reads of
    the journal, writes of batch records, and kernel calls. *)
Section sections.
Context (sha256_hex : string -> string).
Context {Journal : Type} `{!ReceiptStore Journal}.
Context (R : world Journal -> world Journal -> Prop) `{!PreOrder R}.
Context (R_lookup : forall id, keeps R (on_store (rs_lookup id))).
Context (R_reserve : forall bid dg o, keeps R (on_store (rs_reserve (_PREFIX +:+ bid) dg o))).
Context (R_finalize : forall bid dg o, keeps R (on_store (rs_finalize (_PREFIX +:+ bid) dg o))).
Context (R_execute : forall K now rq d rec b w o w',
  execute sha256_hex K now rq d rec b w = (o, w') -> R w w').

Lemma load_keeps bid e : keeps R (_load sha256_hex bid e).
Proof using PreOrder0 R_lookup. unfold _load. keeps_auto. Qed.
Lemma save_keeps state : keeps R (_save sha256_hex state).
Proof using PreOrder0 R_finalize. unfold _save. keeps_auto. Qed.
#[local] Hint Resolve load_keeps save_keeps : batch.

Lemma mark_keeps state i item s c : keeps R (mark sha256_hex state i item s c).
Proof using PreOrder0 R_finalize. unfold mark. keeps_auto. Qed.
#[local] Hint Resolve mark_keeps : batch.
Lemma cancel_item_keeps raw item : keeps R (cancel_item raw item).
Proof using PreOrder0 R_lookup. unfold cancel_item. keeps_auto. Qed.
#[local] Hint Resolve cancel_item_keeps : batch.
Lemma cancel_items_keeps l : keeps R (cancel_items l).
Proof using PreOrder0 R_lookup.
  induction l as [|[raw item] l IH]; simpl; keeps_auto.
Qed.
#[local] Hint Resolve cancel_items_keeps : batch.

Lemma preview_keeps K clock bid rqs sel d lim p :
  keeps R (preview sha256_hex K clock bid rqs sel d lim p).
Proof using PreOrder0 R_lookup R_reserve.
  unfold preview. apply keeps_bind; [exact _|auto with batch|]. intros [[? ?] ?]. keeps_auto.
Qed.
Lemma frozen_intent_keeps bid dg : keeps R (frozen_intent sha256_hex bid dg).
Proof using PreOrder0 R_lookup. unfold frozen_intent. keeps_auto. Qed.
Lemma inspect_keeps bid dg : keeps R (inspect sha256_hex bid dg).
Proof using PreOrder0 R_lookup. unfold inspect. keeps_auto. Qed.
Lemma cancel_keeps bid dg : keeps R (cancel sha256_hex bid dg).
Proof using PreOrder0 R_lookup R_finalize. unfold cancel. keeps_auto. Qed.
Lemma start_item_keeps bid dg i : keeps R (start_item sha256_hex bid dg i).
Proof using PreOrder0 R_lookup R_finalize. unfold start_item. keeps_auto. Qed.
Lemma finish_item_keeps bid dg i o : keeps R (finish_item sha256_hex bid dg i o).
Proof using PreOrder0 R_lookup R_finalize. unfold finish_item. keeps_auto. Qed.
#[local] Hint Resolve inspect_keeps start_item_keeps finish_item_keeps : batch.

Lemma execute_item_keeps K rec now bid dg i :
  keeps R (execute_item sha256_hex K rec now bid dg i).
Proof using PreOrder0 R_lookup R_finalize R_execute.
  unfold execute_item. apply keeps_bind; [exact _|auto with batch|]. intros [|rq d b].
  - keeps_auto.
  - apply keeps_bind; [exact _| |intros ?; auto with batch].
    intros w r w'. destruct (execute _ _ _ _ _ _ _ w) as [o w1] eqn:E. intros [= _ <-].
    by eapply R_execute.
Qed.
#[local] Hint Resolve execute_item_keeps : batch.
Lemma execute_items_keeps K rec clock bid dg i n :
  keeps R (execute_items sha256_hex K rec clock bid dg i n).
Proof using PreOrder0 R_lookup R_finalize R_execute.
  revert i. induction n as [|n IH]; intros i; simpl; keeps_auto.
Qed.
#[local] Hint Resolve execute_items_keeps : batch.
Lemma execute_batch_keeps K rec clock bid dg :
  keeps R (execute_batch sha256_hex K rec clock bid dg).
Proof using PreOrder0 R_lookup R_finalize R_execute. unfold execute_batch. keeps_auto. Qed.
End sections.

(** ** Authentication *)

(** What [_load] has checked about the record it returns the state of. *)
Record authentic (sha256_hex : string -> string) (batch_id : string)
    (expected : option string) (st : StoredOutcome) (state : pydict) : Prop := {
  au_batch : dict_get (oc_extensions (st_outcome st)) "batch" = Some (PDict state);
  au_frozen : exists frozen, dict_get state "frozen" = Some (PDict frozen)
    /\ dict_get frozen "batch_id" = Some (PStr batch_id)
    /\ st_intent_digest st = PStr (digest sha256_hex (PDict frozen))
    /\ exists requests raws, dict_get frozen "requests" = Some requests
       /\ py_iter requests = Ok raws
       /\ exists items its, dict_get state "items" = Some items /\ py_iter items = Ok its
          /\ length raws = length its
          /\ Forall2 (fun raw item => check_item raw item = Ok tt) raws its;
  au_expected : forall d, expected = Some d -> st_intent_digest st = PStr d;
  au_cancel : exists b, dict_get state "cancel_requested" = Some (PBool b) }.

Lemma getitem_ok v k x : getitem v k = Ok x -> exists d, v = PDict d /\ dict_get d k = Some x.
Proof. destruct v; try done. simpl. destruct (dict_get d k) eqn:E; [|done]. intros [= <-]. eauto. Qed.
Lemma getitem_dict d k x : getitem (PDict d) k = Ok x -> dict_get d k = Some x.
Proof. intros (? & [= <-] & ?)%getitem_ok. done. Qed.

Lemma check_items_ok raws its :
  length raws = length its -> check_items (zip raws its) = Ok tt ->
  Forall2 (fun raw item => check_item raw item = Ok tt) raws its.
Proof.
  revert its. induction raws as [|raw raws IH]; intros [|item its]; simpl; try done.
  intros [= Hl] ([] & Hc & H)%bind_ok. constructor; auto.
Qed.

Lemma authenticate_ok sha256_hex bid e stored state :
  authenticate sha256_hex bid e stored = Ok state ->
  exists st, stored = Some st /\ authentic sha256_hex bid e st state.
Proof.
  unfold authenticate. destruct stored as [st|]; [|done].
  intros (sv & Hs & H)%bind_ok. apply getitem_dict in Hs.
  apply bind_ok in H as (fv & Hf & H). apply getitem_ok in Hf as (d & -> & Hf).
  apply bind_ok in H as (bv & Hb & H). apply getitem_ok in Hb as (frozen & -> & Hb).
  apply bind_ok in H as (cv & Hc & H). apply getitem_dict in Hc.
  apply bind_ok in H as (items & Hi & H). apply getitem_dict in Hi.
  apply bind_ok in H as (requests & Hr & H). apply getitem_dict in Hr.
  apply bind_ok in H as (n & _ & H). apply bind_ok in H as (m & _ & H).
  destruct (_ || _) eqn:G in H; [done|]. bool_prop.
  apply bind_ok in H as (raws & Hraws & H). apply bind_ok in H as (its & Hits & H).
  apply bind_ok in H as (pairs & Hz & H). apply bind_ok in H as ([] & Hck & [= <-]).
  unfold zip_strict in Hz. destruct (Nat.eqb _ _) eqn:L in Hz; [|done].
  apply Nat.eqb_eq in L. injection Hz as <-.
  match goal with A : py_eqb bv _ = true |- _ => apply py_eqb_str in A as -> end.
  match goal with A : py_eqb (PStr (digest _ _)) _ = true |- _ => apply py_eqb_str_l in A end.
  exists st. split; [done|]. split; [done| | |].
  - exists frozen. do 3 (split; [done|]). exists requests, raws. do 2 (split; [done|]).
    exists items, its. do 3 (split; [done|]). by apply check_items_ok.
  - intros dg ->. match goal with A : negb (py_eqb (PStr dg) _) = false |- _ =>
      apply negb_false_iff, py_eqb_str_l in A; congruence end.
  - destruct cv; try done. eauto.
Qed.

Lemma load_ok sha256_hex bid e w state w' :
  _load sha256_hex bid e w = (Ok state, w') ->
  (forall j, view w' j = view w j) /\ w_trace w' = w_trace w /\
  exists st, view w (_PREFIX +:+ bid) = Some st /\ authentic sha256_hex bid e st state.
Proof.
  unfold _load, st_catch. destruct (((_ : ST W _) ≫= _ : ST W pydict) w) as [[s|err] w1] eqn:E; [|done].
  intros [= -> ->]. run E as stored w2 E1. apply st_lift_ok in E as [E ->].
  destruct (on_store_lookup _ _ _ _ E1) as (T & V & L). split; [done|]. split; [done|].
  apply authenticate_ok in E as (st & -> & A). exists st. split; [|done].
  apply rs_lookup_spec in L as [_ L]. done.
Qed.

(** A load that fails raises [BatchStateUnavailable] and changes no record. *)
Lemma load_raise sha256_hex bid e w err w' :
  _load sha256_hex bid e w = (Raise err, w') ->
  err = BatchStateUnavailable "batch state unavailable or inconsistent; no new effect admitted"
  /\ (forall j, view w' j = view w j) /\ w_trace w' = w_trace w.
Proof.
  unfold _load, st_catch. destruct (((_ : ST W _) ≫= _ : ST W pydict) w) as [[s|er] w1] eqn:E; [done|].
  intros [= <- <-]. split; [done|].
  apply st_bind_raise in E as [E|(a & w2 & E & E2)].
  - apply on_store_lookup in E as (? & ? & _). done.
  - apply on_store_lookup in E as (? & ? & _). by injection E2 as _ <-.
Qed.

(** ** Saved states *)

Lemma batch_ext_norm st state :
  dict_get (oc_extensions (st_outcome st)) "batch" = Some (PDict state) ->
  dict_get (oc_extensions (st_outcome (rs_keep st))) "batch" = Some (PDict (json_norm_dict state)).
Proof. intros H. simpl. rewrite json_norm_dict_get, H. reflexivity. Qed.

(** ** The result summary *)

Section summary.
Implicit Types (r : BatchResult).

Lemma counts_sum (f : BatchCounts -> nat) r :
  (forall a b, f (add_counts a b) = f a + f b)%nat -> f no_counts = 0 ->
  f (counts r) = sum_list_with (fun i => f (count_item i)) (br_items r).
Proof.
  intros Hadd H0. unfold counts.
  enough (E : forall acc, f (foldl (fun acc i => add_counts acc (count_item i)) acc (br_items r))
            = (f acc + sum_list_with (fun i => f (count_item i)) (br_items r))%nat)
    by (rewrite E, H0; done).
  induction (br_items r) as [|i l IH]; intros acc; simpl; [lia|]. rewrite IH, Hadd. lia.
Qed.

(** One item falls in exactly one of the six classes, and the two refinements
    count items of their class. *)
Lemma count_item_classes i :
  let c := count_item i in
  (n_completed c + n_conflicted c + n_refused c + n_pending c + n_cancelled c + n_recoverable c
     = 1 /\ n_ambiguous c <= n_recoverable c /\ n_convergence_pending c <= n_completed c)%nat.
Proof. unfold count_item. repeat case_match; simpl; lia. Qed.

Lemma sum_const_1 {A} (f : A -> nat) l : (forall x, f x = 1) -> sum_list_with f l = length l.
Proof. intros H. induction l; simpl; [done|]. rewrite H, IHl. lia. Qed.
Lemma sum_le {A} (f g : A -> nat) l :
  (forall x, f x <= g x) -> sum_list_with f l <= sum_list_with g l.
Proof. intros H. induction l as [|x l IH]; simpl; [done|]. specialize (H x). lia. Qed.
Definition classified (c : BatchCounts) : nat :=
  (n_completed c + n_conflicted c + n_refused c + n_pending c + n_cancelled c
   + n_recoverable c)%nat.

Lemma classified_counts r : classified (counts r) = length (br_items r).
Proof.
  rewrite (counts_sum classified).
  - apply sum_const_1. intros i. apply count_item_classes.
  - intros [] []; unfold classified; simpl. lia.
  - done.
Qed.

(** The counts of a batch result account for every item exactly once:
    completed, conflicted, refused, pending, cancelled and recoverable add up
    to the number of items; [ambiguous] counts only recoverable items and
    [convergence_pending] only completed ones. *)
Theorem counts_partition r :
  let c := counts r in
  (n_completed c + n_conflicted c + n_refused c + n_pending c + n_cancelled c + n_recoverable c
     = length (br_items r)
   /\ n_ambiguous c <= n_recoverable c /\ n_convergence_pending c <= n_completed c)%nat.
Proof.
  cbv zeta. split; [apply classified_counts|].
  rewrite !(counts_sum n_ambiguous), !(counts_sum n_recoverable),
    !(counts_sum n_convergence_pending), !(counts_sum n_completed) by done.
  split; apply sum_le; intros i; apply count_item_classes.
Qed.

(** An item whose owner's success is acknowledged. *)
Definition item_succeeded (i : BatchItem) : Prop :=
  py_in (bi_state i) [PStr "cancelled"; PStr "pending"; PStr "started"] = false
  /\ exists o, bi_outcome i = Some o /\ oc_status o = SUCCEEDED.

Lemma count_item_succeeded i :
  item_succeeded i
  <-> n_completed (count_item i) = 1 /\ n_convergence_pending (count_item i) = 0.
Proof.
  unfold item_succeeded, count_item, py_in. cbn [existsb].
  destruct (py_eqb (bi_state i) (PStr "cancelled")); cbn [orb]; [split; [by intros []|simpl; lia]|].
  destruct (py_eqb (bi_state i) (PStr "pending") || _); [split; [by intros []|simpl; lia]|].
  destruct (bi_outcome i) as [o|]; [|split; [by intros (_ & ? & ? & _)|simpl; lia]].
  transitivity (oc_status o = SUCCEEDED).
  { split; [intros (_ & o' & [= <-] & ?); done|eauto]. }
  destruct (oc_status o); vm_compute; split; try done; try (intros [? ?]; done).
Qed.

(** A batch reports succeeded exactly when every item's owner effect is
    acknowledged as SUCCEEDED: not pending, not cancelled, not waiting for
    convergence, not recoverable. *)
Theorem succeeded_means_all r :
  BatchResult_status r = "succeeded" <-> Forall item_succeeded (br_items r).
Proof.
  pose proof (classified_counts r) as P. unfold classified in P.
  assert (Q : Forall item_succeeded (br_items r)
    <-> n_completed (counts r) = length (br_items r) /\ n_convergence_pending (counts r) = 0).
  { rewrite (counts_sum n_completed), (counts_sum n_convergence_pending) by done. clear P.
    induction (br_items r) as [|i l IH]; simpl; [split; [done|constructor]|].
    rewrite Forall_cons, IH, count_item_succeeded.
    pose proof (sum_le (fun i => n_completed (count_item i)) (fun _ => 1) l) as B.
    rewrite (sum_const_1 (fun _ => 1)) in B by done.
    pose proof (count_item_classes i) as Ci. cbv zeta in Ci.
    specialize (B ltac:(intros j; pose proof (count_item_classes j); simpl in *; lia)). lia. }
  rewrite Q. unfold BatchResult_status. cbv zeta.
  destruct (Nat.eqb (n_recoverable _) 0) eqn:R; simpl; [|split; [done|]; bool_prop; apply Nat.eqb_neq in R; lia].
  apply Nat.eqb_eq in R.
  destruct (Nat.eqb (n_pending _) 0) eqn:N; simpl; [|split; [done|]; apply Nat.eqb_neq in N; lia].
  destruct (Nat.eqb (n_completed _) (length _)) eqn:C; simpl.
  - apply Nat.eqb_eq in C.
    destruct (Nat.eqb (n_convergence_pending _) 0) eqn:V; simpl.
    + apply Nat.eqb_eq in V. tauto.
    + apply Nat.eqb_neq in V. split; [done|lia].
  - apply Nat.eqb_neq in C. repeat case_match; split; try done; lia.
Qed.
End summary.

(** ** Evidence *)

Lemma require_evidence_applied o :
  status_in (oc_status (_require_owner_evidence o)) _APPLIED = true ->
  _require_owner_evidence o = o /\ owner_evidence o = true.
Proof.
  unfold _require_owner_evidence. destruct (status_in (oc_status o) _APPLIED) eqn:E; simpl.
  - destruct (owner_evidence o); [done|]. intros H. vm_compute in H. done.
  - intros H. congruence.
Qed.

(** The retention branch: the answer is the current one, or an unresolved one. *)
Lemma retain_cases prev cur :
  _retain_observed_source prev cur = cur
  \/ oc_status (_retain_observed_source prev cur) = RECOVERY_REQUIRED.
Proof. unfold _retain_observed_source. repeat case_match; auto. Qed.

Lemma retain_convergence prev cur :
  oc_convergence (_retain_observed_source prev cur)
  = if bool_decide (source_effect prev = Some COMMITTED)
         && negb (bool_decide (source_effect cur = Some COMMITTED))
       || bool_decide (source_effect prev = Some UNKNOWN)
          && match oc_convergence cur with None => true | Some _ => false end
    then oc_convergence prev
    else match oc_convergence cur with
         | Some c => Some c
         | None => oc_convergence (_retain_observed_source prev cur)
         end.
Proof.
  unfold _retain_observed_source. destruct (_native_evidence prev) as [[? ?] ?].
  destruct (_native_evidence cur) as [[? ?] ?]. destruct (_ || _) eqn:P.
  - reflexivity.
  - cbn [negb andb]. destruct (negb (_ && (_ && _))); simpl; by destruct (oc_convergence cur).
Qed.

(** Recovery never loses an observed source effect and never invents a
    success.  Whatever a later attempt answers, the retained outcome still
    shows COMMITTED if the earlier one did, still shows a source effect if
    the earlier one was UNKNOWN, and is either the current answer or
    RECOVERY_REQUIRED. *)
Theorem retain_observed_source_sound prev cur :
  let o := _retain_observed_source prev cur in
  (source_effect prev = Some COMMITTED -> source_effect o = Some COMMITTED)
  /\ (source_effect prev = Some UNKNOWN -> source_effect o <> None)
  /\ (o = cur \/ oc_status o = RECOVERY_REQUIRED)
  /\ oc_request_id o = oc_request_id cur /\ oc_operation_id o = oc_operation_id cur.
Proof.
  cbv zeta. split; [|split; [|split; [apply retain_cases|]]].
  - intros E. unfold source_effect at 1. rewrite retain_convergence, E.
    destruct (decide (source_effect cur = Some COMMITTED)) as [C|C].
    + rewrite C. unfold source_effect in C. destruct (oc_convergence cur); done.
    + rewrite (bool_decide_eq_false_2 (source_effect cur = _)) by done. exact E.
  - intros E. unfold source_effect at 1. rewrite retain_convergence, E.
    destruct (oc_convergence cur) as [c|]; [done|]. unfold source_effect in E.
    destruct (oc_convergence prev); done.
  - unfold _retain_observed_source. by repeat case_match.
Qed.

Section evidence.
Lemma truthy_norm v : truthy (json_norm v) = truthy v.
Proof.
  destruct v as [| | | | |l|l|d]; try done; simpl; [by destruct l|by destruct l|].
  destruct d as [|kv d]; [done|]. cbn [map sort_keys]. by destruct (sort_keys _); simpl;
    [|destruct (String.leb _ _)].
Qed.
Lemma py_eqb_str_norm v s : py_eqb (json_norm v) (PStr s) = py_eqb v (PStr s).
Proof. by destruct v. Qed.
Lemma mapping_norm v : mapping_or_empty (json_norm v) = json_norm_dict (mapping_or_empty v).
Proof. by destruct v. Qed.
Lemma py_or_norm v w : py_or (json_norm v) (json_norm w) = json_norm (py_or v w).
Proof. unfold py_or. rewrite truthy_norm. by destruct (truthy v). Qed.
Lemma default_norm d k v :
  default (json_norm v) (dict_get (json_norm_dict d) k) = json_norm (default v (dict_get d k)).
Proof. rewrite json_norm_dict_get. by destruct (dict_get d k). Qed.

Definition norm3 (p : pydict * pydict * pydict) : pydict * pydict * pydict :=
  let '(a, b, c) := p in (json_norm_dict a, json_norm_dict b, json_norm_dict c).

Lemma native_evidence_norm o :
  _native_evidence (OperationOutcome_norm o) = norm3 (_native_evidence o).
Proof.
  unfold _native_evidence. cbv zeta.
  set (e := match oc_receipt o with None => [] | Some r => rc_extensions r end).
  replace (match oc_receipt (OperationOutcome_norm o) with None => [] | Some r => rc_extensions r end)
    with (json_norm_dict e) by (unfold e; simpl; by destruct (oc_receipt o)).
  rewrite !get_norm. change (PDict []) with (json_norm (PDict [])). rewrite !py_or_norm, !mapping_norm.
  rewrite <- !json_norm_PDict, !default_norm, !mapping_norm, !default_norm, !mapping_norm.
  reflexivity.
Qed.

(** Evidence survives the journal. *)
Lemma owner_evidence_norm o : owner_evidence (OperationOutcome_norm o) = owner_evidence o.
Proof.
  unfold owner_evidence. rewrite native_evidence_norm.
  destruct (_native_evidence o) as [[native authority] source]. cbn [norm3].
  change (PStr "source_applied") with (json_norm (PStr "source_applied")) at 1.
  rewrite !get_norm, default_norm, !truthy_norm, !py_eqb_str_norm. simpl.
  by destruct (oc_convergence o).
Qed.

End evidence.

(** ** Confirmation *)

Section confirmation.
Context (sha256_hex : string -> string).

(** An unconfirmed batch starts nothing.  When the journal holds no batch
    under this id whose frozen part has the confirmed digest - it is absent,
    was tampered with, or is another intent - [execute] raises
    [BatchStateUnavailable], calls no owner and changes no record. *)
Theorem unconfirmed_batch_starts_nothing K rec clock bid dg w r w' :
  (forall st state frozen, view w (_PREFIX +:+ bid) = Some st ->
     dict_get (oc_extensions (st_outcome st)) "batch" = Some (PDict state) ->
     dict_get state "frozen" = Some frozen -> digest sha256_hex frozen <> dg) ->
  execute_batch sha256_hex K rec clock bid dg w = (r, w') ->
  r = Raise (BatchStateUnavailable
               "batch state unavailable or inconsistent; no new effect admitted")
  /\ w_trace w' = w_trace w /\ (forall j, view w' j = view w j).
Proof.
  intros N. unfold execute_batch, mbind, ST_bind.
  destruct (_load sha256_hex bid (Some dg) w) as [[state|e] w1] eqn:L.
  - apply load_ok in L as (_ & _ & st & V & [B (frozen & F & _ & D & _) X _]).
    rewrite (X dg eq_refl) in D. injection D as D. by destruct (N st state _ V B F).
  - intros [= <- <-]. apply load_raise in L as (-> & V & T). done.
Qed.

(** *** What [preview] admits *)

(** Step over a guard that raises. *)
Ltac pass E :=
  match goal with |- (if ?b then Raise _ else _) = Ok _ -> _ => destruct b eqn:E; [done|] end.

(** One admitted request. *)
Definition admissible (K : kernel) (now : Q) (op : string) (d : pydict) (r : OperationRequest)
    (identity : string) : Prop :=
  rq_operation_id r = op /\ rq_mode r = "execute"
  /\ startswith _PREFIX (rq_request_id r) = false
  /\ (exists t, rq_targets r = [t] /\ get t "artifact_id" = PStr identity)
  /\ (exists v, rq_expected_version r = PStr v /\ v <> "")
  /\ _precondition_refusal K now (OperationRequest_norm r) (Some (json_norm_dict d)) = None.

Lemma preview_item_ok K now first bp d ids rids r i rid :
  preview_item K now first bp (json_norm_dict d) ids rids
    (json_norm (PDict (OperationRequest_to_dict r))) = Ok (i, rid) ->
  admissible K now (rq_operation_id first) d r i /\ rid = rq_request_id r
  /\ (i ∉ ids) /\ (rid ∉ rids).
Proof.
  unfold preview_item. rewrite OperationRequest_json. cbn [mbind res_bind].
  destruct (homogeneous _ _) eqn:Hh; cbn [negb]; [|done].
  destruct (_ && _) eqn:Hu; [done|]. destruct (_ || _) eqn:Hp; [done|].
  intros (t & Ht & (v & Hv & H)%bind_ok)%bind_ok.
  destruct v as [| | | |s| | |]; try done.
  destruct (_ || _ || _) eqn:Hi; [done|].
  destruct (_precondition_refusal _ _ _ _) eqn:P; [done|]. injection H as -> <-.
  unfold homogeneous in Hh. bool_prop.
  destruct r as [op ridr ctx targets args ver mode ev dl bpol prov ext].
  cbn [OperationRequest_norm rq_targets rq_expected_version rq_request_id rq_operation_id
       rq_mode] in *.
  destruct targets as [|t0 [|]]; try done. simpl in Ht. injection Ht as <-.
  split; [split_and!; cbn; try done|split; [done|]].
  - exists t0. split; [done|]. apply getitem_dict in Hv.
    rewrite json_norm_dict_get in Hv. unfold get.
    destruct (dict_get t0 "artifact_id") as [x|]; [|done]. simpl in Hv |- *.
    destruct x; simplify_eq/=; done.
  - destruct ev as [| | | |v| | |]; try done. exists v. split; [done|].
    match goal with A : is_nonempty_str _ = true |- _ => simpl in A; bool_prop end. done.
  - split; intros Hin%existsb_eqb_In; congruence.
Qed.

Lemma preview_items_ok K clock first bp d rqs : forall ids rids n,
  preview_items K clock first bp (json_norm_dict d) ids rids n
    (map (fun r => json_norm (PDict (OperationRequest_to_dict r))) rqs) = Ok tt ->
  exists ids',
    Forall2 (fun r i => exists k, admissible K (clock k) (rq_operation_id first) d r i) rqs ids'
    /\ NoDup ids' /\ NoDup (map rq_request_id rqs)
    /\ (forall i, i ∈ ids' -> i ∈ ids -> False)
    /\ (forall i, i ∈ map rq_request_id rqs -> i ∈ rids -> False).
Proof.
  induction rqs as [|r rqs IH]; intros ids rids n.
  - intros _. exists []. split_and!; try constructor; intros i Hi; by apply elem_of_nil in Hi.
  - cbn [map preview_items]. intros ([i rid] & Hp & H)%bind_ok. cbn [fst snd] in H.
    apply preview_item_ok in Hp as (A & -> & Hi & Hr).
    apply IH in H as (l & F & N1 & N2 & D1 & D2). exists (i :: l).
    split_and!; cbn [map].
    + constructor; eauto.
    + constructor; [|done]. intros Hin. eapply D1; [exact Hin|left].
    + constructor; [|done]. intros Hin. eapply D2; [exact Hin|left].
    + intros j [->|Hj]%elem_of_cons Hin; [done|]. eapply D1; [exact Hj|by right].
    + intros j [->|Hj]%elem_of_cons Hin; [done|]. eapply D2; [exact Hj|by right].
Qed.

Lemma freeze_ok K clock bidv rqs sel d lim p bid first frozen :
  freeze K clock bidv rqs sel d lim p = Ok (bid, first, frozen) ->
  bidv = PStr bid /\ 1 <= length rqs <= 100 /\ (exists rest, rqs = first :: rest)
  /\ rq_operation_id first ∈ SUPPORTED_BATCH_OPERATIONS
  /\ dict_mem (k_handlers K) (rq_operation_id first) = true
  /\ (exists z, get d "max_targets" = PInt z /\ Z.of_nat (length rqs) <= z)%Z
  /\ exists ids',
    Forall2 (fun r i => exists k, admissible K (clock k) (rq_operation_id first) d r i) rqs ids'
    /\ NoDup ids' /\ NoDup (map rq_request_id rqs).
Proof.
  unfold freeze. destruct bidv as [| | | |b| | |]; try done.
  pass G1. pass L. pass Pp. destruct rqs as [|f rest]; [done|]. pass Sup. pass Pol. intros ([] & Hit & H)%bind_ok.
  revert H. pass Mx. intros (pol & _ & H)%bind_ok. revert H. pass Sz. intros [= -> -> _].
  destruct lim as [| |z| | | | |]; try done. bool_prop. apply preview_items_ok in Hit as (ids' & F & N1 & N2 & _).
  split; [done|]. split; [unfold MAX_BATCH_ITEMS in *; lia|]. split; [eauto|].
  split; [by apply existsb_eqb_In|]. split; [done|]. split; [|eauto].
  destruct (get d "max_targets") as [| |m| | | | |]; try done. exists m. split; [done|lia].
Qed.

(** What a preview admits.  A batch that was frozen has between 1 and 100
    requests and no more than its delegation allows, all for one supported
    operation that has an owner; request ids and target identities are
    pairwise different, every request carries an expected version and none
    uses the ids reserved for batch records; and the kernel's preconditions
    hold for each of them under the frozen delegation. *)
Theorem preview_admits K clock bidv rqs sel d lim p w pv w' :
  preview sha256_hex K clock bidv rqs sel d lim p w = (Ok pv, w') ->
  1 <= length rqs <= 100
  /\ (exists z, get d "max_targets" = PInt z /\ Z.of_nat (length rqs) <= z)%Z
  /\ exists op ids', op ∈ SUPPORTED_BATCH_OPERATIONS /\ dict_mem (k_handlers K) op = true
     /\ Forall2 (fun r i => exists k, admissible K (clock k) op d r i) rqs ids'
     /\ NoDup ids' /\ NoDup (map rq_request_id rqs).
Proof.
  unfold preview. intros H. run H as [[bid first] frozen] w1 E. apply st_lift_ok in E as [E _].
  apply freeze_ok in E as (_ & L & _ & Op & Ow & M & ids' & F & N1 & N2).
  split; [done|]. split; [done|]. exists (rq_operation_id first), ids'. done.
Qed.

(** *** A previewed batch can be confirmed *)

Lemma authenticate_confirm bid st state frozen :
  authenticate sha256_hex bid None (Some st) = Ok state ->
  dict_get state "frozen" = Some frozen ->
  authenticate sha256_hex bid (Some (digest sha256_hex frozen)) (Some st) = Ok state.
Proof.
  intros H F. destruct (authenticate_ok _ _ _ _ _ H) as (st' & [= <-] & [_ (fz & F' & _ & D & _) _ _]).
  simplify_eq. rewrite <- H. unfold authenticate. rewrite D.
  rewrite (proj2 (py_eqb_str_l (digest sha256_hex (PDict fz)) _) eq_refl). reflexivity.
Qed.

(** On a journal without faults a read leaves the world as it is, and a second
    read sees what the first one saw. *)
Lemma lookup_again id w o w1 :
  on_store (rs_lookup id) w = (Ok o, w1) -> jf_faults (w_store w1) = [] ->
  on_store (rs_lookup id) w1 = (Ok o, w1).
Proof.
  unfold on_store. destruct w as [s t]. cbn [rs_lookup json_store w_store w_trace].
  unfold json_lookup at 1. pose proof (next_fault_file s) as F.
  destruct (next_fault s) as [f s1]. cbn [snd] in F.
  assert (G : forall o', (Ok o = (fun recs => dict_get recs id) <$> _read (jf_file s1)) ->
    o' = mkWorld s1 t -> jf_faults (w_store o') = [] ->
    (let '(a, s0) := json_lookup id (w_store o') in (a, mkWorld s0 (w_trace o'))) = (Ok o, o')).
  { intros o' E -> N. cbn [w_store w_trace] in *. unfold json_lookup, next_fault. rewrite N.
    by rewrite <- E. }
  destruct f; intros H; try done; injection H as E <-; intros N; by apply G.
Qed.

(** Preview and confirmation agree.  The digest a preview returns is the
    one under which the batch can be inspected, and the inspection shows the
    same preview. *)
Theorem preview_confirms K clock bid rqs sel d lim p w pv w' :
  preview sha256_hex K clock (PStr bid) rqs sel d lim p w = (Ok pv, w') ->
  jf_faults (w_store w') = [] ->
  exists r, inspect sha256_hex bid (bp_digest pv) w' = (Ok r, w') /\ br_preview r = pv.
Proof.
  unfold preview. intros H N. run H as [[b first] frozen] w1 E. st_inv.
  match goal with A : freeze _ _ _ _ _ _ _ _ = Ok _ |- _ =>
    apply freeze_ok in A as ([= <-] & _) end.
  match goal with A : _load _ _ _ _ = (Ok ?s, _), B : _result _ ?s = Ok ?x |- _ =>
    rename A into L; rename B into R; rename s into state; rename x into res end.
  exists res. split; [|done]. unfold _load, st_catch in L.
  destruct (((_ : ST W _) ≫= _ : ST W pydict) _) as [[x|] wl] eqn:E in L; [|done].
  injection L as -> ->. run E as stored ws Es. apply st_lift_ok in E as [Au ->].
  apply lookup_again in Es; [|done].
  assert (D : exists fz, dict_get state "frozen" = Some fz
            /\ bp_digest (br_preview res) = digest sha256_hex fz).
  { unfold _result in R. repeat (apply bind_ok in R as (? & ? & R)). injection R as <-.
    eexists. split; [by apply getitem_dict|]. reflexivity. }
  destruct D as (fz & F & ->). destruct stored as [st|]; [|done].
  unfold inspect, _load, st_catch. rewrite (st_run _ _ _ state ws); [by unfold st_lift; rewrite R|].
  rewrite (st_run _ _ _ _ _ Es). unfold st_lift. by rewrite (authenticate_confirm _ _ _ _ Au F).
Qed.
End confirmation.

(** ** A concrete batch *)

Module BatchRun.
(** The length of the text stands for its digest. *)
Fixpoint text_size (acc : N) (s : string) : N :=
  match s with EmptyString => acc | String _ s => text_size (N.succ acc) s end.
Definition sha (s : string) : string := pretty (text_size 0 s).

Definition request (rid aid : string) : OperationRequest :=
  mkRequest "artifact.update" rid KernelRun.context [[("artifact_id", PStr aid)]]
    [("body", PStr "text")] "ygg.operation.v1" "execute" (PStr "v1") None None None [].
Definition requests : list OperationRequest := [request "r1" "a1"; request "r2" "a2"].
Definition delegation : pydict :=
  dict_merge KernelRun.delegation
    [("target_ids", PList [PStr "a1"; PStr "a2"]); ("max_targets", PInt 2)].

(** An owner that writes the source and returns its receipts. *)
Definition evidence (r : OperationRequest) : pydict :=
  [("source_receipt", PDict [("outcome", PStr "written")]);
   ("authority_receipt", PDict [("receipt_id", PStr "gov1");
      ("effect_id", PStr (rq_request_id r)); ("outcome", PStr "applied");
      ("source_receipt_ref", PStr "src1")])].
Definition owner : OwnerHandler := fun r =>
  Ok (mkResult SUCCEEDED [] [] (PStr (rq_request_id r))
        (PDict [("receipt_id", PStr "rc1"); ("write", PDict (evidence r))])
        (Some KernelRun.committed)).
Definition K : kernel := KernelRun.kern owner.
Definition clock : nat -> Q := fun _ => 50%Q.

Definition previewed : res BatchPreview * W :=
  preview sha K clock (PStr "b1") requests [] delegation (PInt 10) "independent" KernelRun.empty.
Definition ok_or {A} (dflt : A) (r : res A * W) : A :=
  match fst r with Ok a => a | Raise _ => dflt end.
Definition the_preview : BatchPreview :=
  ok_or (mkPreview PNone "" PNone "" "" "" "" [] 0 PNone PNone) previewed.
Definition dg : string := bp_digest the_preview.
Definition w0 : W := snd previewed.

(** The batch runs to the end: both items succeed, each owner is called once. *)
Example batch_runs :
  match execute_batch sha K None clock "b1" dg w0 with
  | (Ok r, w) => BatchResult_status r = "succeeded" /\ length (w_trace w) = 2
  | _ => False
  end.
Proof. vm_compute. split; reflexivity. Qed.

Lemma preview_ok : previewed = (Ok the_preview, w0).
Proof. vm_compute. reflexivity. Qed.

Lemma preview_admits_witness :
  1 <= length requests <= 100
  /\ (exists z, get delegation "max_targets" = PInt z /\ Z.of_nat (length requests) <= z)%Z
  /\ exists op ids', op ∈ SUPPORTED_BATCH_OPERATIONS /\ dict_mem (k_handlers K) op = true
     /\ Forall2 (fun r i => exists k, admissible K (clock k) op delegation r i) requests ids'
     /\ NoDup ids' /\ NoDup (map rq_request_id requests).
Proof. exact (preview_admits sha K clock (PStr "b1") requests [] delegation (PInt 10)
  "independent" KernelRun.empty the_preview w0 preview_ok). Defined.

Lemma preview_confirms_witness :
  exists r, inspect sha "b1" dg w0 = (Ok r, w0) /\ br_preview r = the_preview.
Proof.
  refine (preview_confirms sha K clock "b1" requests [] delegation (PInt 10)
    "independent" KernelRun.empty the_preview w0 preview_ok _). vm_compute. reflexivity.
Defined.

(** Confirming another digest. *)
Lemma unconfirmed_batch_starts_nothing_witness :
  fst (execute_batch sha K None clock "b1" "other" w0)
  = Raise (BatchStateUnavailable
             "batch state unavailable or inconsistent; no new effect admitted")
  /\ w_trace (snd (execute_batch sha K None clock "b1" "other" w0)) = w_trace w0
  /\ (forall j, view (snd (execute_batch sha K None clock "b1" "other" w0)) j = view w0 j).
Proof.
  refine (unconfirmed_batch_starts_nothing sha K None clock "b1" "other" w0 _ _ _
            (surjective_pairing _)).
  intros st state frozen V B F. vm_compute in V. injection V as <-.
  vm_compute in B. injection B as <-. vm_compute in F. injection F as <-.
  vm_compute. discriminate.
Defined.

End BatchRun.
