(* ===== verification/BatchInterleaving.v ===== *)
(** * Batches among the other users of the journal

    The sections of [BatchOperationCoordinator] run under the lock of their
    batch ([batch_window]), the kernel's calls under the lock of their request
    ([effect_window]); the two have no lock in common.  What they share is the
    journal, whose calls ([lookup], [reserve], [finalize]) each take the
    journal's own lock.  So between any two journal calls of a batch section
    other threads and processes may make journal calls of their own: kernel
    calls in any phase, sections of other batches.

    [SharedJournal] is the JSON journal together with what the others do to it
    before each of our calls.  The sections of the batch run on it unchanged.
    [kernel_is_journal_calls] shows that a kernel call is, for everybody else,
    such a sequence of journal calls on its own request id. *)
From Stdlib Require Import QArith.
From S2P Require Import Prelude PyValue Contracts ReceiptStore ExecutionKernel Sql BatchOperations BatchProps.

(** ** The journal and its other users *)

(** A sequence of journal calls, whoever makes them. *)
Definition run_ops {J : Type} `{!ReceiptStore J} (ops : list store_op) (s : J) : J :=
  foldl (fun s op => snd (store_step op s)) s ops.

Record SharedJournal : Type := mkShared {
  sj_file : JsonReceiptStore;
  (** What the others do before our next call, before the one after, ... *)
  sj_others : list (list store_op) }.

Definition interfere (s : SharedJournal) : SharedJournal :=
  match sj_others s with
  | [] => s
  | ops :: others => mkShared (run_ops ops (sj_file s)) others
  end.

Definition shared {A} (call : JsonReceiptStore -> A * JsonReceiptStore) (s : SharedJournal)
    : A * SharedJournal :=
  let s := interfere s in
  let '(a, file) := call (sj_file s) in (a, mkShared file (sj_others s)).

#[export] Instance shared_journal : ReceiptStore SharedJournal := {|
  rs_lookup id := shared (json_lookup id);
  rs_reserve id dg pending := shared (json_reserve id dg pending);
  rs_finalize id dg outcome := shared (json_finalize id dg outcome);
  rs_is_json := true |}.

Abbreviation V := (world SharedJournal).

(** The journal file of a world, as a world of its own. *)
Definition file_of (w : V) : W := mkWorld (sj_file (w_store w)) (w_trace w).
(** The world after the others had their turn. *)
Definition disturbed (w : V) : V := mkWorld (interfere (w_store w)) (w_trace w).

(** The others leave the record of batch [b] to the sections of the batch:
    they may read and reserve any id, and finalize any other record. *)
Definition foreign (b : string) (op : store_op) : Prop :=
  match op with OpFinalize id _ _ => id <> _PREFIX +:+ b | _ => True end.
Definition undisturbed (b : string) (w : V) : Prop :=
  Forall (Forall (foreign b)) (sj_others (w_store w)).

(** A call on the shared journal is the file's call after the others' turn. *)
Lemma shared_call {A} (call : JsonReceiptStore -> A * JsonReceiptStore) (w : V) a w' :
  on_store (shared call) w = (a, w') ->
  on_store call (file_of (disturbed w)) = (a, file_of w')
  /\ sj_others (w_store w') = sj_others (w_store (disturbed w)).
Proof.
  unfold on_store, shared, file_of, disturbed. cbn [w_store w_trace].
  destruct (call _) as [x f] eqn:E. intros [= <- <-]. done.
Qed.

(** ** What a kernel call does to the journal *)

Section kernel_calls.
Context (sha256_hex : string -> string) {J : Type} `{!ReceiptStore J}.

Definition op_id (op : store_op) : string :=
  match op with OpLookup id => id | OpReserve id _ _ => id | OpFinalize id _ _ => id end.

(** From [w] to [w'] the journal was called with [ops] only, on [id] only, and
    the ordinary handler ran only after a reservation of [id] was granted. *)
Definition by_calls (id : string) (w w' : world J) : Prop :=
  exists ops, Forall (fun op => op_id op = id) ops
    /\ w_store w' = run_ops ops (w_store w)
    /\ (handler_calls id w' = handler_calls id w
        \/ handler_calls id w' = S (handler_calls id w) /\ 1 <= reservations id ops (w_store w)).

Lemma run_ops_app ops ops' (s : J) : run_ops (ops ++ ops') s = run_ops ops' (run_ops ops s).
Proof. apply foldl_app. Qed.

Lemma reservations_app id ops ops' (s : J) :
  reservations id (ops ++ ops') s
  = (reservations id ops s + reservations id ops' (run_ops ops s))%nat.
Proof.
  revert s. induction ops as [|op ops IH]; intros s; simpl; [done|].
  destruct (store_step op s) as [r s'] eqn:E. rewrite IH. cbn [snd]. lia.
Qed.

Lemma by_calls_refl id w : by_calls id w w.
Proof. exists []. split; [constructor|]. split; [done|by left]. Qed.

(** One journal call that grants no reservation, then the rest. *)
Lemma by_calls_step {A} id op (call : J -> A * J) w a w1 w2 :
  op_id op = id -> (forall s, snd (store_step op s) = snd (call s)) ->
  on_store call w = (a, w1) -> by_calls id w1 w2 -> by_calls id w w2.
Proof.
  intros Hop Hc E (ops & F & St & T). unfold on_store in E.
  destruct (call (w_store w)) as [x s1] eqn:C. injection E as -> <-.
  exists (op :: ops). split; [by constructor|]. cbn [w_store] in *. split.
  - rewrite St. cbn [run_ops foldl]. by rewrite Hc, C.
  - destruct T as [T|[T R]]; [left; done|right]. split; [done|].
    cbn [reservations]. specialize (Hc (w_store w)).
    destruct (store_step op (w_store w)) as [r s']. rewrite C in Hc. cbn [snd] in Hc.
    subst s'. lia.
Qed.

Lemma lookup_step id s : snd (store_step (OpLookup id) s) = snd (rs_lookup id s : _ * J).
Proof. done. Qed.
Lemma finalize_step id dg o s :
  snd (store_step (OpFinalize id dg o) s) = snd (rs_finalize id dg o s : _ * J).
Proof. done. Qed.
Lemma reserve_step id dg o s :
  snd (store_step (OpReserve id dg o) s) = snd (rs_reserve id dg o s : _ * J).
Proof. simpl. by destruct (rs_reserve id dg o s) as [[[[] ?]|?] ?]. Qed.

Lemma log_calls id c (w : world J) :
  handler_calls id (log c w) = ((if is_handler_call id c then 1 else 0) + handler_calls id w)%nat.
Proof.
  unfold handler_calls, log. cbn [w_trace]. rewrite List.filter_app, length_app. simpl.
  destruct (is_handler_call id c); simpl; lia.
Qed.

Lemma by_calls_log id c (w w' : world J) :
  is_handler_call id c = false -> by_calls id (log c w) w' -> by_calls id w w'.
Proof.
  intros H (ops & F & St & T). exists ops. split; [done|]. split; [done|].
  rewrite log_calls, H in T. exact T.
Qed.

Lemma reconcile_by_calls K now rq d prior rec orq w o w' :
  _reconcile sha256_hex K now rq d prior rec orq w = (o, w') ->
  by_calls (rq_request_id rq) w w'.
Proof.
  unfold _reconcile. intros H.
  destruct (negb rs_is_json); [simplify_eq; apply by_calls_refl|].
  destruct (recovery_decision _ _ _ _) as [dec|]; [|simplify_eq; apply by_calls_refl].
  destruct (_ || _); [simplify_eq; apply by_calls_refl|].
  destruct (on_store _ w) as [r1 w1] eqn:E1.
  eapply by_calls_step; [|intros s; apply finalize_step|exact E1|]; [done|].
  destruct r1; [|simplify_eq; apply by_calls_refl].
  destruct (reconciled _ _ _ _) as [oc|oc].
  2: { simplify_eq. by apply (by_calls_log _ (CallReconcile orq)), by_calls_refl. }
  destruct (on_store _ (log _ w1)) as [r2 w2] eqn:E2.
  apply (by_calls_log _ (CallReconcile orq)); [done|].
  eapply by_calls_step; [|intros s; apply finalize_step|exact E2|]; [done|].
  assert (w' = w2) as -> by (destruct r2; congruence). apply by_calls_refl.
Qed.

(** A recovery does not call the ordinary handler. *)
Lemma reconcile_no_handler id K now rq d prior rec orq (w : world J) o w' :
  _reconcile sha256_hex K now rq d prior rec orq w = (o, w') ->
  handler_calls id w' = handler_calls id w.
Proof.
  assert (St : forall A (f : J -> A * J) w1 a w2, on_store f w1 = (a, w2) ->
            handler_calls id w2 = handler_calls id w1).
  { intros A f w1 a w2. unfold on_store. destruct (f _). by intros [= _ <-]. }
  unfold _reconcile. intros H.
  destruct (negb rs_is_json); [by simplify_eq|].
  destruct (recovery_decision _ _ _ _) as [dec|]; [|by simplify_eq].
  destruct (_ || _); [by simplify_eq|].
  destruct (on_store _ w) as [r1 w1] eqn:E1. apply St in E1 as <-.
  destruct r1; [|by simplify_eq].
  destruct (reconciled _ _ _ _) as [oc|oc]; [|simplify_eq; apply log_calls].
  destruct (on_store _ (log _ w1)) as [r2 w2] eqn:E2. apply St in E2. rewrite log_calls in E2.
  assert (w' = w2) as -> by (destruct r2; congruence). exact E2.
Qed.

(** The granted reservation, the owner call, then journal calls without one. *)
Lemma reserved_by_calls id dg p st (w w1 w2 w' : world J) :
  on_store (rs_reserve id dg p) w = (Ok (RESERVED, st), w1) ->
  w_store w2 = w_store w1 -> handler_calls id w2 <= S (handler_calls id w1) ->
  handler_calls id w1 <= handler_calls id w2 -> handler_calls id w' = handler_calls id w2 ->
  by_calls id w2 w' -> by_calls id w w'.
Proof.
  intros E S2 Le Ge Eq (ops & F & St & _). unfold on_store in E.
  destruct (rs_reserve id dg p (w_store w)) as [x s1] eqn:C. injection E as -> <-.
  cbn [w_store] in S2. exists (OpReserve id dg p :: ops). split; [by constructor|]. split.
  - rewrite St, S2. cbn [run_ops foldl]. by rewrite reserve_step, C.
  - change (handler_calls id (mkWorld s1 (w_trace w))) with (handler_calls id w) in Le, Ge.
    rewrite Eq. cbn [reservations store_step]. rewrite C. rewrite decide_True by done.
    destruct (decide (handler_calls id w2 = handler_calls id w)); [left; done|right]. lia.
Qed.

Lemma admitted_by_calls K rq orq dec dg d b w o w' :
  rq_request_id orq = rq_request_id rq ->
  admitted sha256_hex K rq orq dec dg d b w = (o, w') -> by_calls (rq_request_id rq) w w'.
Proof.
  intros Hid. unfold admitted. cbv zeta. destruct (on_store _ w) as [r1 w1] eqn:E1. intros H.
  assert (Stop : w' = w1 -> by_calls (rq_request_id rq) w w').
  { intros ->. eapply by_calls_step; [|intros s; apply reserve_step|exact E1|apply by_calls_refl].
    done. }
  destruct r1 as [[[] st]|e]; try (apply Stop; congruence). clear Stop.
  destruct (run_owner _ _ _ _ _ _ w1) as [oc w2] eqn:E2.
  apply run_owner_step in E2 as [S2 T2]. destruct (on_store _ w2) as [r3 w3] eqn:E3.
  assert (w' = w3) as -> by (destruct r3; congruence).
  assert (T3 : w_trace w3 = w_trace w2).
  { revert E3. unfold on_store. destruct (rs_finalize _ _ _ _). by intros [= _ <-]. }
  assert (N : handler_calls (rq_request_id rq) w1 <= handler_calls (rq_request_id rq) w2
              <= S (handler_calls (rq_request_id rq) w1)).
  { unfold handler_calls. destruct T2 as [-> | ->]; [lia|].
    rewrite List.filter_app, length_app. simpl. destruct (String.eqb _ _); simpl; lia. }
  eapply reserved_by_calls; [exact E1|exact S2|lia|lia|by unfold handler_calls; rewrite T3|].
  eapply by_calls_step; [|intros s; apply finalize_step|exact E3|apply by_calls_refl]. done.
Qed.

(** A kernel call touches the journal only through calls on its own request
    id, and reaches the ordinary handler only after one of them was told that
    it reserved that id. *)
Lemma kernel_is_journal_calls K now rq d rec b w o w' :
  execute sha256_hex K now rq d rec b w = (o, w') -> by_calls (rq_request_id rq) w w'.
Proof.
  unfold execute, _execute.
  destruct (match d with Some _ => _ | None => _ end) as [dl|];
    [|intros [= <- <-]; apply by_calls_refl].
  cbv zeta. destruct (on_store _ w) as [r1 w1] eqn:E1. intros H.
  rewrite batch_policy_request_id in E1.
  eapply by_calls_step; [|intros s; apply lookup_step|exact E1|]; [done|].
  rewrite <- (batch_policy_request_id rq dl).
  destruct r1 as [[prior|]|e]; [| |simplify_eq; apply by_calls_refl].
  - destruct (py_eqb _ _); [|simplify_eq; apply by_calls_refl].
    destruct rec as [rec|]; [|simplify_eq; apply by_calls_refl].
    destruct (bool_decide _); [|simplify_eq; apply by_calls_refl].
    by eapply reconcile_by_calls.
  - destruct (_precondition_refusal _ _ _ _); [simplify_eq; apply by_calls_refl|].
    destruct (admission _ _ _) as [dec|ref]; [|simplify_eq; apply by_calls_refl].
    eapply admitted_by_calls; [|exact H]. by destruct b.
Qed.

(** ... so a kernel call for a request id without the prefix reserved for
    batches is an admissible interference with every batch. *)
Lemma kernel_is_foreign bid K now rq d rec b w o w' :
  startswith _PREFIX (rq_request_id rq) = false ->
  execute sha256_hex K now rq d rec b w = (o, w') ->
  exists ops, Forall (foreign bid) ops /\ w_store w' = run_ops ops (w_store w).
Proof.
  intros P (ops & F & St & _)%kernel_is_journal_calls. exists ops. split; [|done].
  eapply Forall_impl; [exact F|]. intros [] E; cbn [op_id foreign] in *; try done. subst.
  intros C. by rewrite C, startswith_app in P.
Qed.
End kernel_calls.

(** ** Records others leave alone *)

#[local] Definition json_lookup_law := @rs_lookup_spec JsonReceiptStore json_store json_store_spec.
#[local] Definition json_reserve_law := @rs_reserve_spec JsonReceiptStore json_store json_store_spec.
#[local] Definition json_finalize_law := @rs_finalize_spec JsonReceiptStore json_store json_store_spec.

(** The record of [j] is the same, in stored form when the file was rewritten. *)
Definition untouched (j : string) (s s' : JsonReceiptStore) : Prop :=
  json_view s' j = json_view s j \/ json_view s' j = StoredOutcome_norm <$> json_view s j.

#[export] Instance untouched_preorder j : PreOrder (untouched j).
Proof.
  split; [by left|]. intros w1 w2 w3 [E1|E1] [E2|E2]; unfold untouched; rewrite E2, E1; auto.
  right. destruct (json_view w1 j) as [x|]; [|done]. simpl. f_equal. apply StoredOutcome_norm_idem.
Qed.

Lemma untouched_lookup j id s r s' : json_lookup id s = (r, s') -> untouched j s s'.
Proof.
  intros E. destruct (json_lookup_law id s r s' E) as [V _]. left. apply V.
Qed.
Lemma untouched_finalize j id dg o s r s' :
  j <> id -> json_finalize id dg o s = (r, s') -> untouched j s s'.
Proof.
  intros Hj E. pose proof (json_finalize_law id dg o s r s' E) as R.
  cbn zeta in R. cbn [rs_view rs_keep json_store_spec] in R.
  destruct r as [|e]; unfold untouched; naive_solver.
Qed.
(** A reservation leaves a record alone, whichever id it is for. *)
Lemma untouched_reserve j id dg o s r s' :
  is_Some (json_view s j) -> json_reserve id dg o s = (r, s') -> untouched j s s'.
Proof.
  intros [x Hx] E. pose proof (json_reserve_law id dg o s r s' E) as R.
  cbn zeta in R. cbn [rs_view rs_keep json_store_spec] in R. unfold untouched.
  destruct (decide (j = id)) as [->|Hj]; destruct r as [[[] st]|e]; naive_solver congruence.
Qed.

Lemma untouched_some j s s' : untouched j s s' -> is_Some (json_view s j) -> is_Some (json_view s' j).
Proof. intros [->| ->] [x ->]; simpl; eauto. Qed.

Section others.
Context (b : string).
Abbreviation key := (_PREFIX +:+ b).

Lemma foreign_untouched op s :
  foreign b op -> is_Some (json_view s key) -> untouched key s (snd (store_step op s)).
Proof.
  intros F Y. destruct op as [id|id dg o|id dg o].
  - cbn [store_step snd]. destruct (rs_lookup id s) eqn:E. by eapply untouched_lookup.
  - rewrite reserve_step. destruct (rs_reserve id dg o s) eqn:E. by eapply untouched_reserve.
  - cbn [store_step snd]. destruct (rs_finalize id dg o s) eqn:E.
    eapply untouched_finalize; [|exact E]. intros C. by apply F.
Qed.

Lemma ops_untouched ops s :
  Forall (foreign b) ops -> is_Some (json_view s key) -> untouched key s (run_ops ops s).
Proof.
  intros F. revert s. induction F as [|op ops Fo _ IH]; intros s Y; [reflexivity|].
  cbn [run_ops foldl]. pose proof (foreign_untouched op s Fo Y) as U. etrans; [exact U|].
  apply IH. by eapply untouched_some.
Qed.
End others.

Lemma ops_mono ops s j : is_Some (json_view s j) -> is_Some (json_view (run_ops ops s) j).
Proof.
  revert s. induction ops as [|op ops IH]; intros s Y; [done|]. cbn [run_ops foldl]. apply IH.
  destruct (store_step op s) as [r s'] eqn:E.
  exact (store_step_mono (S := JsonReceiptStore) op s r s' j E Y).
Qed.

(** ** Cancellation *)

(** The journal holds a cancellation of the batch ... *)
Definition cancelled (b : string) (s : JsonReceiptStore) : Prop :=
  exists st state, json_view s (_PREFIX +:+ b) = Some st
    /\ dict_get (oc_extensions (st_outcome st)) "batch" = Some (PDict state)
    /\ dict_get state "cancel_requested" = Some (PBool true).

Lemma untouched_cancelled b s s' :
  untouched (_PREFIX +:+ b) s s' -> cancelled b s -> cancelled b s'.
Proof.
  intros U (st & state & V & B & C). unfold cancelled. destruct U as [->| ->]; [eauto|].
  rewrite V. exists (rs_keep st), (json_norm_dict state). split; [done|].
  split; [by apply batch_ext_norm|]. by rewrite json_norm_dict_get, C.
Qed.

(** ... and the others will not finalize its record. *)
Definition held (b : string) (w : V) : Prop := undisturbed b w /\ cancelled b (sj_file (w_store w)).

Lemma held_disturbed b w : held b w -> held b (disturbed w).
Proof.
  intros [U C]. unfold held, undisturbed, disturbed, interfere in *. cbn [w_store].
  destruct (sj_others (w_store w)) as [|ops l] eqn:E; [by rewrite E|].
  apply Forall_cons in U as [F U]. split; [done|]. cbn [sj_file].
  eapply untouched_cancelled; [apply ops_untouched; [exact F|]|exact C].
  destruct C as (st & _ & -> & _). eauto.
Qed.

(** [P] survives. *)
Definition stays (P : V -> Prop) (w w' : V) : Prop := P w -> P w'.

#[export] Instance stays_preorder P : PreOrder (stays P).
Proof. split; [intros w C; exact C|intros w1 w2 w3 H1 H2 C; by apply H2, H1]. Qed.

(** A journal call keeps the cancellation if the file's call does. *)
Lemma held_call {A} b (call : JsonReceiptStore -> A * JsonReceiptStore) (w : V) r w' :
  (forall s, cancelled b s -> cancelled b (snd (call s))) ->
  on_store (shared call) w = (r, w') -> stays (held b) w w'.
Proof.
  intros Hc E H. apply shared_call in E as [E O]. apply held_disturbed in H as [U C].
  unfold held, undisturbed in *. rewrite O. split; [done|].
  apply Hc in C. unfold on_store in E. cbn [file_of w_store] in E.
  destruct (call _) as [a s]. cbn [snd] in C. injection E as _ E _. by rewrite <- E.
Qed.

Lemma undisturbed_call {A} b (call : JsonReceiptStore -> A * JsonReceiptStore) (w : V) r w' :
  on_store (shared call) w = (r, w') -> undisturbed b w -> undisturbed b w'.
Proof.
  intros [_ O]%shared_call U. unfold undisturbed, disturbed, interfere in *. rewrite O.
  cbn [w_store]. destruct (sj_others (w_store w)) as [|ops l] eqn:E; [by rewrite E|].
  by apply Forall_cons in U as [_ U].
Qed.

Lemma lookup_held b id : keeps (stays (held b)) (on_store (rs_lookup id : SharedJournal -> _)).
Proof.
  intros w r w' E. eapply held_call; [|exact E]. intros s.
  destruct (json_lookup id s) eqn:L. apply untouched_cancelled. by eapply untouched_lookup.
Qed.
Lemma reserve_held b id dg o :
  keeps (stays (held b)) (on_store (rs_reserve id dg o : SharedJournal -> _)).
Proof.
  intros w r w' E. eapply held_call; [|exact E]. intros s C.
  destruct (json_reserve id dg o s) eqn:L. eapply untouched_cancelled; [|exact C].
  eapply untouched_reserve; [|exact L]. destruct C as (st & _ & -> & _). eauto.
Qed.

(** A state that may be saved although [b] is cancelled. *)
Definition saveable (b : string) (state : pydict) : Prop :=
  forall frozen, dict_get state "frozen" = Some frozen ->
    getitem frozen "batch_id" = Ok (PStr b) ->
    dict_get state "cancel_requested" = Some (PBool true).

Lemma saveable_set b state k v :
  k <> "frozen" -> k <> "cancel_requested" -> saveable b state -> saveable b (dict_set state k v).
Proof. intros H1 H2 S frozen. rewrite !dict_get_set_ne by done. apply S. Qed.
Lemma saveable_cancel b state : saveable b (dict_set state "cancel_requested" (PBool true)).
Proof. intros frozen _ _. apply dict_get_set_eq. Qed.

(** A finalize that answered has written the record; one that raised has
    written it or nothing. *)
Lemma finalize_record id dg o (w : V) r w' :
  on_store (rs_finalize id dg o) w = (r, w') ->
  let s := sj_file (w_store (disturbed w)) in
  let written := json_view (sj_file (w_store w')) id
                 = Some (StoredOutcome_norm (mkStored dg o false)) in
  match r with Ok _ => written | Raise _ => untouched id s (sj_file (w_store w')) \/ written end.
Proof.
  intros [E _]%shared_call. cbv zeta. unfold on_store in E. cbn [file_of w_store] in E.
  destruct (json_finalize _ _ _ _) as [a s'] eqn:F. injection E as -> E _. rewrite <- E.
  pose proof (json_finalize_law id dg o _ r s' F) as L. cbn zeta in L.
  cbn [rs_view rs_keep json_store_spec] in L. destruct r; [tauto|]. destruct L as [L|L]; [left|tauto].
  left. apply L.
Qed.

Section cancellation.
Context (sha256_hex : string -> string).

(** What a save, successful or not, did to the journal. *)
Lemma save_inv state (w : V) r w' :
  _save sha256_hex state w = (r, w') ->
  (w' = w /\ exists e, r = Raise e) \/ exists frozen bid first,
    dict_get state "frozen" = Some frozen /\ getitem frozen "batch_id" = Ok (PStr bid)
    /\ on_store (rs_finalize (_PREFIX +:+ bid) (PStr (digest sha256_hex frozen))
         (batch_record (_PREFIX +:+ bid) (rq_context first) state)) w = (r, w').
Proof.
  unfold _save. cbv beta delta [mbind ST_bind st_lift].
  destruct (getitem (PDict state) "frozen") as [fz|] eqn:E1; [|intros [= <- <-]; eauto].
  destruct (getitem fz "requests") as [rs|]; [|intros [= <- <-]; eauto].
  destruct (py_index rs 0) as [raw|]; [|intros [= <- <-]; eauto].
  destruct (OperationRequest_from_dict raw) as [first|]; [|intros [= <- <-]; eauto].
  destruct (getitem fz "batch_id") as [b|] eqn:E2; [|intros [= <- <-]; eauto].
  destruct b as [| | | |bid| | |]; simpl; try (intros [= <- <-]; eauto).
  intros H. right. exists fz, bid, first. apply getitem_dict in E1. done.
Qed.

Lemma cancelled_saved b state ctx dg fl s' :
  json_view s' (_PREFIX +:+ b)
    = Some (StoredOutcome_norm (mkStored dg (batch_record (_PREFIX +:+ b) ctx state) fl)) ->
  dict_get state "cancel_requested" = Some (PBool true) -> cancelled b s'.
Proof.
  intros V C. eexists _, (json_norm_dict state). split; [exact V|].
  split; [by apply batch_ext_norm|]. by rewrite json_norm_dict_get, C.
Qed.

Lemma save_held b state : saveable b state -> keeps (stays (held b)) (_save sha256_hex state).
Proof.
  intros Sv w r w' H.
  apply save_inv in H as [[-> _]|(fz & bid & first & F & B & H)]; [reflexivity|].
  destruct (decide (bid = b)) as [->|Hne].
  - intros Hd. pose proof (finalize_record _ _ _ _ _ _ H) as R. cbv zeta in R.
    apply held_disturbed in Hd as [U C]. apply shared_call in H as [_ O]. split.
    { unfold undisturbed in *. by rewrite O. }
    assert (Flag := Sv fz F B).
    destruct r; [|destruct R as [R|R]; [by eapply untouched_cancelled|]];
      (eapply cancelled_saved; [exact R|exact Flag]).
  - eapply held_call; [|exact H]. intros s C. destruct (json_finalize _ _ _ s) eqn:L.
    eapply untouched_cancelled; [|exact C]. eapply untouched_finalize; [|exact L].
    intros E%append_inj. congruence.
Qed.

(** What a load that answered has seen. *)
Lemma load_seen bid e (w : V) state w' :
  _load sha256_hex bid e w = (Ok state, w') ->
  exists st, json_view (sj_file (w_store w')) (_PREFIX +:+ bid) = Some st
    /\ authentic sha256_hex bid e st state.
Proof.
  unfold _load, st_catch.
  destruct (((_ : ST V _) ≫= _ : ST V pydict) w) as [[s|err] w1] eqn:E; [|done].
  intros [= -> ->]. run E as stored w2 E1. apply st_lift_ok in E as [E ->].
  apply authenticate_ok in E as (st & -> & A). exists st. split; [|done].
  apply shared_call in E1 as [E1 _]. unfold on_store in E1. cbn [file_of w_store] in E1.
  destruct (json_lookup _ _) as [a s'] eqn:F. injection E1 as -> E1 _. rewrite <- E1.
  destruct (json_lookup_law _ _ _ _ F) as [L ->]. apply L.
Qed.

Lemma load_held b bid e : keeps (stays (held b)) (_load sha256_hex bid e).
Proof. apply load_keeps; [exact _|]. intros id. apply lookup_held. Qed.

(** The state a section of a cancelled batch works on is flagged. *)
Lemma load_flagged b bid e (w : V) state w' :
  held b w -> _load sha256_hex bid e w = (Ok state, w') -> held b w' /\ saveable b state.
Proof.
  intros H E. assert (H' : held b w') by (by eapply load_held). split; [done|].
  apply load_seen in E as (st & Hst & [Ab (fz' & F' & B' & _) _ _]).
  intros fz F B. simplify_eq. apply getitem_dict in B. simplify_eq.
  destruct H' as [_ (st' & s & ? & ? & ?)]. by simplify_eq.
Qed.

(** A section that starts from a load may use that. *)
Lemma after_load {A} b bid e (f : pydict -> ST V A) :
  (forall state, saveable b state -> keeps (stays (held b)) (f state)) ->
  keeps (stays (held b)) (_load sha256_hex bid e ≫= f).
Proof.
  intros Hf w r w' H C. unfold mbind, ST_bind in H.
  destruct (_load sha256_hex bid e w) as [[state|err] w1] eqn:E.
  - destruct (load_flagged _ _ _ _ _ _ C E) as [C1 Sv]. by eapply Hf.
  - injection H as _ <-. by eapply load_held.
Qed.

#[local] Hint Resolve lookup_held save_held : batch.

Lemma set_item_saveable b state i item state' :
  set_item state i item = Ok state' -> saveable b state -> saveable b state'.
Proof.
  unfold set_item. intros (? & _ & (? & _ & [= <-])%bind_ok)%bind_ok. by apply saveable_set.
Qed.

(** A bind whose first part only computes. *)
Lemma keeps_bind_lift {A B} b (r : res A) (f : A -> ST V B) :
  (forall a, r = Ok a -> keeps (stays (held b)) (f a)) ->
  keeps (stays (held b)) (st_lift r ≫= f).
Proof.
  intros H w r' w'. unfold mbind, ST_bind, st_lift.
  destruct r; [by apply H|intros [= _ <-]; reflexivity].
Qed.

Lemma mark_held b state i item s c :
  saveable b state -> keeps (stays (held b)) (mark sha256_hex state i item s c).
Proof.
  intros Sv. unfold mark. do 2 (apply keeps_bind_lift; intros ? ?).
  apply save_held. assert (saveable b a0) by (by eapply set_item_saveable).
  destruct c; [by apply saveable_set|done].
Qed.
#[local] Hint Resolve mark_held : batch.

Lemma start_item_held b bid dg i : keeps (stays (held b)) (start_item sha256_hex bid dg i).
Proof. unfold start_item. apply after_load. intros state Sv. keeps_auto. Qed.

Lemma finish_item_held b bid dg i o : keeps (stays (held b)) (finish_item sha256_hex bid dg i o).
Proof.
  unfold finish_item. apply after_load. intros state Sv.
  do 3 (apply keeps_bind_lift; intros ? ?).
  apply keeps_bind; [exact _|keeps_auto|]. intros o'.
  apply keeps_bind_lift. intros state' Hs. apply save_held, saveable_set; [done..|].
  by eapply set_item_saveable.
Qed.

Lemma cancel_held b bid dg : keeps (stays (held b)) (cancel sha256_hex bid dg).
Proof.
  unfold cancel. apply after_load. intros state _.
  do 6 (apply keeps_bind_lift; intros ? ?).
  apply keeps_bind; [exact _|apply cancel_items_keeps; [exact _|apply lookup_held]|].
  intros its. apply keeps_bind; [exact _| |intros _; auto with batch typeclass_instances].
  apply save_held, saveable_set; [done..|]. apply saveable_cancel.
Qed.

(** *** Runs of locked sections *)

(** The sections of batch calls: each takes the lock of its batch.  An
    [execute] is a first load, then a start section, a kernel call and a finish
    section per item ([execute_item]); its kernel calls, like everybody's, are
    part of what [sj_others] holds. *)
Inductive locked_section : Type :=
  | SPreview (K : kernel) (clock : nat -> Q) (batch_id : pyval)
      (requests : list OperationRequest) (selector delegation : pydict) (limit : pyval)
      (partial_success_policy : string)
  | SIntent (batch_id expected_digest : string)
  | SInspect (batch_id expected_digest : string)
  | SCancel (batch_id expected_digest : string)
  | SStart (batch_id expected_digest : string) (index : nat)
  | SFinish (batch_id expected_digest : string) (index : nat) (outcome : OperationOutcome).

Definition run_section (w : V) (s : locked_section) : V :=
  match s with
  | SPreview K clock bid rqs sel d lim p =>
      snd (preview sha256_hex K clock bid rqs sel d lim p w)
  | SIntent bid dg => snd (frozen_intent sha256_hex bid dg w)
  | SInspect bid dg => snd (inspect sha256_hex bid dg w)
  | SCancel bid dg => snd (cancel sha256_hex bid dg w)
  | SStart bid dg i => snd (start_item sha256_hex bid dg i w)
  | SFinish bid dg i o => snd (finish_item sha256_hex bid dg i o w)
  end.
Definition run_sections (w : V) (l : list locked_section) : V := foldl run_section w l.

Lemma keeps_snd (R : V -> V -> Prop) {A} (m : ST V A) w : keeps R m -> R w (snd (m w)).
Proof. intros H. destruct (m w) as [r w'] eqn:E. by eapply H. Qed.

Lemma sections_held b l w : held b w -> held b (run_sections w l).
Proof.
  revert w. induction l as [|s l IH]; intros w C; [done|].
  cbn [run_sections foldl]. apply IH. revert C. change (stays (held b) w (run_section w s)).
  destruct s; cbn [run_section].
  - apply keeps_snd, preview_keeps; [exact _|apply lookup_held|intros; apply reserve_held].
  - apply keeps_snd, frozen_intent_keeps; [exact _|apply lookup_held].
  - apply keeps_snd, inspect_keeps; [exact _|apply lookup_held].
  - apply keeps_snd, cancel_held.
  - apply keeps_snd, start_item_held.
  - apply keeps_snd, finish_item_held.
Qed.

(** *** Records stay *)

Definition recorded_at (id : string) (w : V) : Prop := is_Some (json_view (sj_file (w_store w)) id).

Lemma recorded_disturbed id w : recorded_at id w -> recorded_at id (disturbed w).
Proof.
  unfold recorded_at, disturbed, interfere. cbn [w_store].
  destruct (sj_others (w_store w)); [done|]. cbn [sj_file]. apply ops_mono.
Qed.

Lemma recorded_call {A} id (call : JsonReceiptStore -> A * JsonReceiptStore) (w : V) r w' :
  (forall s, is_Some (json_view s id) -> is_Some (json_view (snd (call s)) id)) ->
  on_store (shared call) w = (r, w') -> stays (recorded_at id) w w'.
Proof.
  intros Hc [E _]%shared_call H%recorded_disturbed. unfold recorded_at in *. apply Hc in H.
  unfold on_store in E. cbn [file_of w_store] in E. destruct (call _) as [a s].
  cbn [snd] in H. injection E as _ E _. by rewrite <- E.
Qed.

Lemma lookup_recorded id j :
  keeps (stays (recorded_at id)) (on_store (rs_lookup j : SharedJournal -> _)).
Proof.
  intros w r w' E. eapply recorded_call; [|exact E]. intros s Y.
  exact (ops_mono [OpLookup j] s id Y).
Qed.
Lemma finalize_recorded id j dg o :
  keeps (stays (recorded_at id)) (on_store (rs_finalize j dg o : SharedJournal -> _)).
Proof.
  intros w r w' E. eapply recorded_call; [|exact E]. intros s Y.
  exact (ops_mono [OpFinalize j dg o] s id Y).
Qed.
Lemma reserve_recorded id j dg o :
  keeps (stays (recorded_at id)) (on_store (rs_reserve j dg o : SharedJournal -> _)).
Proof.
  intros w r w' E. eapply recorded_call; [|exact E]. intros s Y.
  pose proof (ops_mono [OpReserve j dg o] s id Y) as M. cbn [run_ops foldl] in M.
  by rewrite reserve_step in M.
Qed.

Lemma sections_recorded id l w : recorded_at id w -> recorded_at id (run_sections w l).
Proof.
  revert w. induction l as [|s l IH]; intros w C; [done|].
  cbn [run_sections foldl]. apply IH. revert C. change (stays (recorded_at id) w (run_section w s)).
  destruct s; cbn [run_section].
  - apply keeps_snd, preview_keeps; [exact _|apply lookup_recorded|intros; apply reserve_recorded].
  - apply keeps_snd, frozen_intent_keeps; [exact _|apply lookup_recorded].
  - apply keeps_snd, inspect_keeps; [exact _|apply lookup_recorded].
  - apply keeps_snd, cancel_keeps; [exact _|apply lookup_recorded|intros; apply finalize_recorded].
  - apply keeps_snd, start_item_keeps;
      [exact _|apply lookup_recorded|intros; apply finalize_recorded].
  - apply keeps_snd, finish_item_keeps;
      [exact _|apply lookup_recorded|intros; apply finalize_recorded].
Qed.

(** A read that returned a record saw it there. *)
Lemma lookup_found id (w : V) x w' :
  on_store (rs_lookup id) w = (Ok (Some x), w') -> recorded_at id w'.
Proof.
  intros [E _]%shared_call. unfold on_store in E. cbn [file_of w_store] in E.
  destruct (json_lookup _ _) as [a s'] eqn:F. injection E as -> E _.
  destruct (json_lookup_law _ _ _ _ F) as [L1 L2]. cbn [rs_view json_store_spec] in L1, L2.
  unfold recorded_at. rewrite <- E, L1, <- L2. eauto.
Qed.

(** A kernel call that finds a record does not call the ordinary handler. *)
Lemma recorded_not_run c (w : V) :
  recorded_at (rq_request_id (ec_request c)) w ->
  handler_calls (rq_request_id (ec_request c)) (exec_one sha256_hex w c)
  = handler_calls (rq_request_id (ec_request c)) w.
Proof.
  intros Y. set (id := rq_request_id _) in *. unfold exec_one, execute, _execute.
  destruct (match ec_delegation c with Some _ => _ | None => _ end) as [dl|]; [|done].
  cbv zeta. destruct (on_store _ w) as [r1 w1] eqn:E1. rewrite batch_policy_request_id in E1.
  assert (T1 : handler_calls id w1 = handler_calls id w).
  { revert E1. unfold on_store. destruct (rs_lookup _ _). by intros [= _ <-]. }
  destruct r1 as [[prior|]|e]; [| |exact T1].
  - destruct (py_eqb _ _); [|exact T1]. destruct (ec_reconcile c) as [rec|]; [|exact T1].
    destruct (bool_decide _); [|exact T1].
    destruct (_reconcile _ _ _ _ _ _ _ _ w1) as [o w2] eqn:R. cbn [snd]. rewrite <- T1.
    eapply reconcile_no_handler; exact R.
  - exfalso. apply shared_call in E1 as [E1 _]. apply recorded_disturbed in Y as [x Y].
    unfold on_store in E1. cbn [file_of w_store] in E1.
    destruct (json_lookup _ _) as [a s'] eqn:F. injection E1 as -> _ _.
    destruct (json_lookup_law _ _ _ _ F) as [_ L]. cbn [rs_view json_store_spec] in L.
    unfold id in Y. congruence.
Qed.

(** A cancellation that returned is in the journal. *)
Lemma cancel_records bid dg (w : V) r w' :
  undisturbed bid w -> cancel sha256_hex bid dg w = (Ok r, w') -> held bid w'.
Proof.
  intros U H. split.
  { refine (cancel_keeps sha256_hex (stays (undisturbed bid)) _ _ bid dg w _ w' H U);
      [intros id w2 a w3 E|intros b dg' o w2 a w3 E]; exact (undisturbed_call bid _ w2 a w3 E). }
  unfold cancel in H. run H as state w1 L.
  run H as fz w2 E2. run H as rs w3 E3. run H as raws w4 E4. run H as items w5 E5.
  run H as its w6 E6. run H as pairs w7 E7. run H as its' w8 E8. run H as u w9 E9. st_inv.
  apply save_inv in E9 as [[_ [e [=]]]|(fz' & b & first & F & B & V)].
  apply finalize_record in V. cbv zeta in V.
  rewrite !dict_get_set_ne in F by done.
  apply load_seen in L as (st & _ & [_ (fz0 & F0 & B0 & _) _ _]). simplify_eq.
  apply getitem_dict in B. simplify_eq.
  eapply cancelled_saved; [exact V|]. rewrite dict_get_set_ne by done. apply dict_get_set_eq.
Qed.

(** What made [start_item] start an item of a cancelled batch. *)
Lemma start_cancelled bid dg i (w : V) rq d rec w' :
  held bid w -> start_item sha256_hex bid dg i w = (Ok (Start rq d rec), w') ->
  rec = true /\ recorded_at (rq_request_id rq) w'.
Proof.
  intros C H. unfold start_item in H. run H as state w1 L.
  destruct (load_flagged _ _ _ _ _ _ C L) as [_ Sv].
  apply load_seen in L as (st & _ & [_ (fz0 & F0 & B0 & _) _ _]).
  assert (Fl : dict_get state "cancel_requested" = Some (PBool true)).
  { apply (Sv _ F0). simpl. by rewrite B0. }
  run H as items w2 E2. run H as item w3 E3. run H as s w4 E4. st_inv.
  destruct (py_in s _) eqn:In in H; [by injection H|].
  run H as fz w5 E5. run H as rs w6 E6. run H as raw w7 E7. run H as rq' w8 E8.
  run H as prior w9 E9. run H as fl w10 E10. st_inv.
  match goal with A : getitem _ "cancel_requested" = Ok fl |- _ => apply getitem_dict in A end.
  simplify_eq. cbn [truthy] in H.
  destruct (py_eqb s (PStr "pending")) eqn:P; cbn [andb] in H.
  { run H as u w11 E11. by injection H. }
  destruct prior as [p|]; cbn [andb] in H.
  2: { run H as u w11 E11. by injection H. }
  run H as u w11 E11. run H as dv w12 E12. run H as dd w13 E13. st_inv.
  subst. split; [done|].
  eapply (mark_keeps sha256_hex (stays (recorded_at _)));
    [intros; apply finalize_recorded|exact E11|]. eapply lookup_found; exact E9.
Qed.

(** C4: cancellation is final.  Take a batch whose record in the shared journal
    only its own sections finalize (every other user of the journal does
    whatever it likes before each journal call: kernel calls in any phase,
    sections of other batches, I/O faults).  Once [cancel] has returned, after
    whatever sections follow, an item that a start section still hands to the
    kernel is one that somebody had already reserved: it is taken up for
    recovery, nobody is told any more that it reserved that request, and no
    kernel call begun later runs the ordinary handler for it.  (A handler whose
    reservation came first may still be running: the owner's effect is not
    revoked, it is reconciled.) *)
Theorem cancellation_is_final bid dg r (w0 w1 : V) l dg' i rq d rec w2 :
  undisturbed bid w0 -> cancel sha256_hex bid dg w0 = (Ok r, w1) ->
  start_item sha256_hex bid dg' i (run_sections w1 l) = (Ok (Start rq d rec), w2) ->
  rec = true
  /\ (forall ops, reservations (rq_request_id rq) ops (sj_file (w_store w2)) = 0)
  /\ (forall l' c, rq_request_id (ec_request c) = rq_request_id rq ->
        handler_calls (rq_request_id rq) (exec_one sha256_hex (run_sections w2 l') c)
        = handler_calls (rq_request_id rq) (run_sections w2 l')).
Proof.
  intros U C H. apply (cancel_records _ _ _ _ _ U), (sections_held _ l) in C.
  apply (start_cancelled _ _ _ _ _ _ _ _ C) in H as [-> Y]. split; [done|]. split.
  - intros ops. by apply (reservations_taken (S := JsonReceiptStore)).
  - intros l' c E. rewrite <- E in Y |- *. by apply recorded_not_run, sections_recorded.
Qed.
End cancellation.

(** ** Evidence *)

Section finish.
Context (sha256_hex : string -> string).

(** What [finish_item] stores. *)
Lemma finish_saves bid dg i o (w : V) u w' :
  finish_item sha256_hex bid dg i o w = (Ok u, w') ->
  exists st state items o',
    json_view (sj_file (w_store w')) (_PREFIX +:+ bid) = Some st
    /\ dict_get (oc_extensions (st_outcome st)) "batch" = Some (PDict state)
    /\ dict_get state "items" = Some (PList items)
    /\ items !! i = Some (json_norm (PDict
         [("state", PStr (if status_in (oc_status o') _RECOVERABLE
                          then "recoverable" else "terminal"));
          ("outcome", PDict (OperationOutcome_to_dict o'))]))
    /\ (o' = o \/ oc_status o' = RECOVERY_REQUIRED).
Proof.
  unfold finish_item. intros H. run H as state w1 L.
  run H as items w2 E2. run H as item w3 E3. run H as prev w4 E4. run H as o' w5 E5.
  run H as state' w6 E6. st_inv.
  assert (D : o' = o \/ oc_status o' = RECOVERY_REQUIRED).
  { destruct (is_none prev); [injection E5; auto|].
    run E5 as p w7 E7. injection E5 as <- _.
    destruct (retain_cases p o) as [->|]; auto. }
  apply save_inv in H as [[_ [e [=]]]|(fz & b & first & F & B & V)].
  apply finalize_record in V. cbv zeta in V.
  unfold set_item in *.
  match goal with E : _ = Ok state' |- _ => apply bind_ok in E as (it & Ei & (it' & Es & [= <-])%bind_ok) end.
  apply getitem_dict in Ei. rewrite !dict_get_set_ne in F by done.
  apply load_seen in L as (st & _ & [_ (fz0 & F0 & B0 & _) _ _]). simplify_eq.
  apply getitem_dict in B. simplify_eq.
  destruct it as [| | | | |l| |]; try done. unfold set_index in Es.
  destruct (Nat.ltb i (length l)) eqn:Hi; [|done]. apply Nat.ltb_lt in Hi. injection Es as <-.
  eexists _, _, (map json_norm (<[i := _]> l)), o'. split; [exact V|].
  split; [by apply batch_ext_norm|]. split.
  - rewrite json_norm_dict_get, dict_get_set_ne, dict_get_set_eq by done. reflexivity.
  - split; [|done]. change (map json_norm ?l) with (json_norm <$> l).
    rewrite list_lookup_fmap, list_lookup_insert_eq by done. reflexivity.
Qed.

(** What the receipts of an applied item show: the native receipt of a write
    or placement with a source receipt that says written, an authority receipt
    (in the native receipt or in its governed write) that says applied for this
    very request and refers to the source receipt, and a COMMITTED source
    effect. *)
Definition owner_proof (o : OperationOutcome) : Prop :=
  exists rc native authority source c,
    oc_receipt o = Some rc
    /\ (dict_get (rc_extensions rc) "write" = Some (PDict native)
        \/ dict_get (rc_extensions rc) "placement" = Some (PDict native))
    /\ (dict_get native "authority_receipt" = Some (PDict authority)
        \/ exists governed, dict_get native "governed_write" = Some (PDict governed)
             /\ dict_get governed "authority_receipt" = Some (PDict authority))
    /\ dict_get native "source_receipt" = Some (PDict source)
    /\ dict_get source "outcome" = Some (PStr "written")
    /\ dict_get authority "outcome" = Some (PStr "applied")
    /\ dict_get authority "effect_id" = Some (PStr (oc_request_id o))
    /\ truthy (get authority "receipt_id") = true
    /\ truthy (get authority "source_receipt_ref") = true
    /\ oc_convergence o = Some c /\ conv_source_effect c = COMMITTED.

Lemma get_str d k s : py_eqb (get d k) (PStr s) = true -> dict_get d k = Some (PStr s).
Proof.
  unfold get. destruct (dict_get d k) as [v|]; [|done]. simpl. by intros ->%py_eqb_str.
Qed.

(** A key of a mapping that may be missing or hold something else. *)
Lemma mapping_field d k k' x :
  dict_get (mapping_or_empty (default (PDict []) (dict_get d k))) k' = Some x ->
  exists m, dict_get d k = Some (PDict m) /\ dict_get m k' = Some x.
Proof. destruct (dict_get d k) as [[]|]; simpl; intros; try done; eauto. Qed.

Lemma get_mapping d k v : get d k = v -> v <> PNone -> dict_get d k = Some v.
Proof. unfold get. intros <-. by destruct (dict_get d k). Qed.

(** [d.get(a) or d.get(b) or {}], when it has a key at all. *)
Lemma native_mapping d a b k x :
  let m := mapping_or_empty (py_or (py_or (get d a) (get d b)) (PDict [])) in
  dict_get m k = Some x -> dict_get d a = Some (PDict m) \/ dict_get d b = Some (PDict m).
Proof.
  unfold py_or. cbv zeta. destruct (truthy (get d a)) eqn:Ta.
  - rewrite Ta. destruct (get d a) eqn:G; try done. left. by apply get_mapping.
  - destruct (truthy (get d b)) eqn:Tb; [|done].
    destruct (get d b) eqn:G; try done. right. by apply get_mapping.
Qed.

Lemma owner_evidence_sound o : owner_evidence o = true -> owner_proof o.
Proof.
  unfold owner_evidence, _native_evidence. cbv zeta. intros H. bool_prop.
  repeat match goal with A : py_eqb (get _ _) (PStr _) = true |- _ => apply get_str in A end.
  set (ev := match oc_receipt o with None => [] | Some r => rc_extensions r end) in *.
  set (native := mapping_or_empty (py_or (py_or _ _) _)) in *.
  match goal with A : is_committed _ = true |- _ => rename A into C end.
  destruct (oc_convergence o) as [c|] eqn:Oc; [|done]. simpl in C. apply bool_decide_eq_true in C.
  match goal with A : dict_get (mapping_or_empty (default _ (dict_get native _))) _ = _ |- _ =>
    apply mapping_field in A as (source & Hs & Hw) end.
  match goal with A : dict_get (mapping_or_empty (default _ (dict_get (mapping_or_empty _) _))) "outcome" = _,
    B : dict_get _ "effect_id" = _ |- _ =>
    destruct (mapping_field _ _ _ _ A) as (authority & Ha & Ho); rewrite Ha in *; cbn [default mapping_or_empty] in * end.
  cbn [id mapping_or_empty] in *.
  assert (N : dict_get ev "write" = Some (PDict native) \/ dict_get ev "placement" = Some (PDict native))
    by exact (native_mapping _ _ _ _ _ Hs).
  destruct (oc_receipt o) as [rc|] eqn:Rc; [|by destruct N].
  exists rc, native, authority, source, c. split; [done|]. split; [exact N|]. split; [|by auto 10].
  destruct (dict_get native "governed_write") as [[]|] eqn:G; try done; eauto.
Qed.

(** The item of a batch as the journal holds it. *)
Definition stored_item (w : V) (bid : string) (i : nat) : option pyval :=
  st ← json_view (sj_file (w_store w)) (_PREFIX +:+ bid);
  batch ← dict_get (oc_extensions (st_outcome st)) "batch";
  match getitem batch "items" with Ok (PList l) => l !! i | _ => None end.

(** C5: no applied item without owner evidence.  When the finish
    section of an iteration of [execute] has returned, whatever other users of
    the journal did between its journal calls, the item as the journal holds it
    is terminal or recoverable, and if it shows SUCCEEDED or
    CONVERGENCE_PENDING then it carries the native receipts ([owner_proof]): a
    written source receipt, an applied authority receipt for this very request
    and a COMMITTED source effect. *)
Theorem applied_item_has_evidence bid dg i o (w : V) u w' :
  finish_item sha256_hex bid dg i (_require_owner_evidence o) w = (Ok u, w') ->
  exists item oc o', stored_item w' bid i = Some item
    /\ getitem item "outcome" = Ok oc /\ OperationOutcome_from_dict oc = Ok o'
    /\ getitem item "state" = Ok (PStr (if status_in (oc_status o') _RECOVERABLE
                                        then "recoverable" else "terminal"))
    /\ (status_in (oc_status o') _APPLIED = true -> owner_proof o').
Proof.
  intros H. apply finish_saves in H as (st & state & items & o' & V & B & I & L & D).
  eexists _, _, (OperationOutcome_norm o'). split.
  - unfold stored_item. rewrite V; simpl. rewrite B; simpl. rewrite I. exact L.
  - split; [reflexivity|]. split; [apply OperationOutcome_json|]. split; [reflexivity|].
    intros A. apply owner_evidence_sound. rewrite owner_evidence_norm. simpl in A.
    destruct D as [->|D]; [by destruct (require_evidence_applied _ A) as [-> ?]|].
    rewrite D in A. vm_compute in A. done.
Qed.
End finish.

(** ** A concrete race *)

Module RaceRun.
Import BatchRun.

(** What the kernel reserves for the first request. *)
Definition reserved_outcome : OperationOutcome :=
  mkOutcome "r1" RECOVERY_REQUIRED "artifact.update" KernelRun.context None None [] None None None
    [] [].

(** The first item has been started and its kernel call has not yet reserved;
    it does so in the middle of the cancellation, between the read of the batch
    record and the check of the second item, and is then killed. *)
Definition others : list (list store_op) :=
  [[]; [OpLookup "r1"; OpReserve "r1" (PStr "intent") reserved_outcome]; []].
Definition begun : V :=
  mkWorld (mkShared (w_store (snd (start_item sha "b1" dg 0 w0))) others) [].

Definition after_cancel : res BatchResult * V := cancel sha "b1" dg begun.
Definition the_result : BatchResult :=
  match fst after_cancel with Ok r => r | Raise _ => mkBatchResult the_preview PNone [] end.
Definition resumed : res item_start * V :=
  start_item sha "b1" dg 0 (run_sections sha (snd after_cancel) [SStart "b1" dg 1]).
Definition taken : OperationRequest * option pydict :=
  match fst resumed with Ok (Start rq d _) => (rq, d) | _ => (request "" "", None) end.

Lemma cancellation_is_final_witness :
  let rq := fst taken in
  true = true
  /\ (forall ops, reservations (rq_request_id rq) ops (sj_file (w_store (snd resumed))) = 0)
  /\ (forall l' c, rq_request_id (ec_request c) = rq_request_id rq ->
        handler_calls (rq_request_id rq) (exec_one sha (run_sections sha (snd resumed) l') c)
        = handler_calls (rq_request_id rq) (run_sections sha (snd resumed) l')).
Proof.
  refine (cancellation_is_final sha "b1" dg the_result begun (snd after_cancel)
            [SStart "b1" dg 1] dg 0 (fst taken) (snd taken) true (snd resumed) _ _ _).
  - repeat constructor.
  - vm_compute. reflexivity.
  - vm_compute. reflexivity.
Defined.
(** The first item is finished with the outcome the kernel returned. *)
Definition answer : OperationOutcome * V :=
  execute sha K 50 (OperationRequest_norm (request "r1" "a1")) (Some (json_norm_dict delegation))
    None true
    (mkWorld (mkShared (w_store (snd (start_item sha "b1" dg 0 w0))) [[]; [OpLookup "r2"]]) []).

Lemma applied_item_has_evidence_witness :
  let w' := snd (finish_item sha "b1" dg 0 (_require_owner_evidence (fst answer)) (snd answer)) in
  exists item oc o', stored_item w' "b1" 0 = Some item
    /\ getitem item "outcome" = Ok oc /\ OperationOutcome_from_dict oc = Ok o'
    /\ getitem item "state" = Ok (PStr (if status_in (oc_status o') _RECOVERABLE
                                        then "recoverable" else "terminal"))
    /\ (status_in (oc_status o') _APPLIED = true -> owner_proof o').
Proof.
  refine (applied_item_has_evidence sha "b1" dg 0 (fst answer) (snd answer) tt _ _).
  vm_compute. reflexivity.
Defined.
End RaceRun.
