(* ===== verification/StateAxes.v ===== *)
(** * Review state and maturity (src/app/domain/state_axes.py)

    The two axes of an artifact's state and their normalization: legacy values
    are mapped to canonical ones, maturity and review state are filled in from
    each other, and promotion payloads are brought to one shape.

    A [Mapping[str, Any]] is a [pydict].  The file proves that normalization
    lands in the canonical vocabularies and that repeating it changes nothing
    more. *)
From Stdlib Require Import Ascii.
From S2P Require Import Prelude PyValue.

Definition CANONICAL_REVIEW_STATES : list string :=
  ["draft"; "provisional"; "reviewed"; "protected"; "archived"].
Definition CANONICAL_MATURITY_VALUES : list string :=
  ["raw"; "draft"; "developing"; "stable"; "evergreen"].
Definition LEGACY_REVIEW_STATES : list string :=
  ["evergreen"; "processed"; "promoted"; "inbox"; "logged"].

Definition _LEGACY_REVIEW_STATE_ALIASES : list (string * string) :=
  [("evergreen", "reviewed"); ("processed", "provisional"); ("promoted", "reviewed");
   ("inbox", "draft"); ("logged", "provisional")].

Definition str_in (s : string) (l : list string) : bool := existsb (String.eqb s) l.

Definition _ALLOWED_REVIEW_STATE_VALUES : list string :=
  CANONICAL_REVIEW_STATES ++ LEGACY_REVIEW_STATES.
Definition _ALLOWED_MATURITY_VALUES : list string := CANONICAL_MATURITY_VALUES.

Record PromotionAxes : Type := mkAxes {
  ax_maturity : option string;
  ax_review_state : string }.

Definition _cleaned_state_value (value : pyval) : string :=
  lower (strip (py_str (py_or value (PStr "")))).

Definition is_legacy_review_state (value : pyval) : bool :=
  dict_mem _LEGACY_REVIEW_STATE_ALIASES (_cleaned_state_value value).

Definition normalize_review_state (value : pyval) : string :=
  let cleaned := _cleaned_state_value value in
  if String.eqb cleaned "" then ""
  else match dict_get _LEGACY_REVIEW_STATE_ALIASES cleaned with
  | Some canonical => canonical
  | None => if str_in cleaned _ALLOWED_REVIEW_STATE_VALUES then cleaned else ""
  end.

Definition normalize_maturity (value : pyval) : string :=
  let cleaned := _cleaned_state_value value in
  if String.eqb cleaned "" then ""
  else if str_in cleaned _ALLOWED_MATURITY_VALUES then cleaned else "".

Definition legacy_maturity_from_review_state (review_state : pyval) : string :=
  if String.eqb (_cleaned_state_value review_state) "evergreen" then "evergreen" else "".

Definition review_state_for_maturity (maturity : pyval) : string :=
  let cleaned := normalize_maturity maturity in
  if str_in cleaned ["stable"; "evergreen"] then "reviewed"
  else if negb (String.eqb cleaned "") then "draft"
  else "provisional".

(** [a or b] on strings. *)
Definition str_or (a b : string) : string := if String.eqb a "" then b else a.

Definition axes_maturity (maturity review_state : pyval) : string :=
  str_or (normalize_maturity maturity) (legacy_maturity_from_review_state review_state).

(** [d[k] = v] when [v] is a non-empty string, [d.pop(k, None)] otherwise. *)
Definition set_or_pop (d : pydict) (k : string) (v : string) : pydict :=
  if String.eqb v "" then dict_pop d k else dict_set d k (PStr v).

Definition normalize_artifact_state_axes (fields : pydict) (default_review_state : string)
    (workflow_state : pyval) : pydict :=
  let raw_review_state := _cleaned_state_value (get fields "review_state") in
  let normalized_maturity := axes_maturity (get fields "maturity") (PStr raw_review_state) in
  let normalized_review_state :=
    str_or (normalize_review_state (PStr raw_review_state))
      (if negb (String.eqb normalized_maturity "")
       then review_state_for_maturity (PStr normalized_maturity)
       else str_or (normalize_review_state (PStr default_review_state)) "draft") in
  let effective_workflow_state :=
    _cleaned_state_value (py_or workflow_state (get fields "workflow_state")) in
  let effective_workflow_state :=
    if String.eqb raw_review_state "inbox" && String.eqb effective_workflow_state ""
    then "inbox" else effective_workflow_state in
  let d := dict_set fields "review_state" (PStr normalized_review_state) in
  let d := set_or_pop d "maturity" normalized_maturity in
  let d := set_or_pop d "workflow_state" effective_workflow_state in
  if negb (String.eqb raw_review_state "") && is_legacy_review_state (PStr raw_review_state)
  then dict_set d "legacy_review_state" (PStr raw_review_state)
  else dict_pop d "legacy_review_state".

Definition resolve_promotion_axes (maturity review_state : pyval) : PromotionAxes :=
  let normalized_maturity := axes_maturity maturity review_state in
  let normalized_review_state := normalize_review_state review_state in
  let normalized_review_state :=
    if negb (String.eqb normalized_maturity "") && String.eqb normalized_review_state ""
    then review_state_for_maturity (PStr normalized_maturity) else normalized_review_state in
  let normalized_review_state :=
    if String.eqb normalized_review_state ""
    then (if negb (String.eqb normalized_maturity "") then "reviewed" else "provisional")
    else normalized_review_state in
  mkAxes (if String.eqb normalized_maturity "" then None else Some normalized_maturity)
    normalized_review_state.

(** The target named by the payload's [transition], if it names one. *)
Definition transition_target (transition : pyval) : option string :=
  match transition with
  | PDict t =>
      let family := _cleaned_state_value (get t "family") in
      let target := normalize_maturity (get t "target_maturity") in
      if negb (String.eqb target "") && (String.eqb family "" || String.eqb family "promotion")
      then Some target else None
  | _ => None
  end.

(** The target named by the payload's [action]. *)
Definition action_target (action : pyval) : string :=
  match action with
  | PDict a =>
      let action_id := _cleaned_state_value (get a "id") in
      if startswith "promote." action_id then normalize_maturity (PStr (str_drop 8 action_id))
      else ""
  | _ => ""
  end.

Definition normalize_promotion_target (payload : pydict) : string :=
  match transition_target (get payload "transition") with
  | Some target => target
  | None =>
      let maturity := normalize_maturity (get payload "maturity") in
      if negb (String.eqb maturity "") then maturity
      else
        let review_state := get payload "review_state" in
        let legacy := if truthy review_state
                      then legacy_maturity_from_review_state review_state else "" in
        if negb (String.eqb legacy "") then legacy
        else action_target (get payload "action")
  end.

Definition build_promotion_transition (target_maturity : string) : pydict :=
  [("family", PStr "promotion");
   ("target_maturity", PStr (normalize_maturity (PStr target_maturity)))].

Definition normalize_promotion_payload (payload : pydict) : pydict :=
  let target_maturity := normalize_promotion_target payload in
  let p :=
    if negb (String.eqb target_maturity "")
    then dict_set (dict_set payload "maturity" (PStr target_maturity)) "transition"
           (PDict (build_promotion_transition target_maturity))
    else if dict_mem payload "transition"
    then match get payload "transition" with
         | PDict t =>
             if negb (String.eqb (_cleaned_state_value (get t "family")) "promotion")
             then dict_pop payload "transition" else payload
         | _ => dict_pop payload "transition"
         end
    else payload in
  let axes := resolve_promotion_axes (get p "maturity") (get p "review_state") in
  let p := dict_set p "review_state" (PStr (ax_review_state axes)) in
  match ax_maturity axes with
  | Some m => dict_set p "maturity" (PStr m)
  | None => dict_pop (dict_pop p "maturity") "transition"
  end.

Definition setdefault (d : pydict) (k : string) (v : pyval) : pydict :=
  if dict_mem d k then d else dict_set d k v.

(** [action_name: str | None], [args: Mapping | None]. *)
Definition normalize_plan_state_action (action_name : option string) (args : option pydict)
    : string * pydict :=
  let a := strip (match action_name with Some (String c s) => String c s | _ => "noop" end) in
  let d := default [] args in
  let '(a, d) :=
    if String.eqb a "update_review_state" then ("set_review_state", d)
    else if String.eqb a "promote_to_evergreen"
    then ("request_promotion_transition", setdefault d "maturity" (PStr "evergreen"))
    else (a, d) in
  if String.eqb a "request_promotion_transition" then (a, normalize_promotion_payload d)
  else if String.eqb a "set_review_state"
  then (a, dict_set d "review_state"
             (PStr (str_or (normalize_review_state (get d "review_state")) "provisional")))
  else if String.eqb a "set_maturity"
  then (a, set_or_pop d "maturity" (normalize_maturity (get d "maturity")))
  else (a, d).

(** ** Cleaning a value twice *)

Lemma is_space_lower c : is_space (lower_char c) = is_space c.
Proof. destruct c as [[] [] [] [] [] [] [] []]; vm_compute; reflexivity. Qed.
Lemma lower_char_idem c : lower_char (lower_char c) = lower_char c.
Proof. destruct c as [[] [] [] [] [] [] [] []]; vm_compute; reflexivity. Qed.
Lemma lower_idem s : lower (lower s) = lower s.
Proof. induction s as [|c s IH]; simpl; [done|]. by rewrite lower_char_idem, IH. Qed.
Lemma lower_strip s : lower (strip s) = strip (lower s).
Proof.
  assert (H : forall s, lower s = str_map lower_char s) by (intros u; induction u; cbn; congruence).
  rewrite !H. apply str_map_strip, is_space_lower.
Qed.

Lemma clean_str s : _cleaned_state_value (PStr s) = lower (strip s).
Proof. unfold _cleaned_state_value, py_or, truthy. by destruct s. Qed.
Lemma clean_idem v : _cleaned_state_value (PStr (_cleaned_state_value v)) = _cleaned_state_value v.
Proof.
  rewrite clean_str. unfold _cleaned_state_value at 1 2.
  by rewrite lower_strip, lower_idem, <- lower_strip, strip_idem.
Qed.

(** ** The canonical vocabularies *)

Ltac members H := repeat (apply elem_of_cons in H as [->|H]); try (by apply elem_of_nil in H).

Lemma normalize_review_cases v :
  normalize_review_state v = "" \/ normalize_review_state v ∈ CANONICAL_REVIEW_STATES.
Proof.
  unfold normalize_review_state. cbv zeta. set (c := _cleaned_state_value v).
  destruct (String.eqb c ""); [by left|].
  destruct (dict_get _LEGACY_REVIEW_STATE_ALIASES c) as [x|] eqn:A.
  - right. cbn [dict_get _LEGACY_REVIEW_STATE_ALIASES] in A.
    repeat (destruct (String.eqb c _) eqn:? in A; [injection A as <-; by apply existsb_eqb_In|]). done.
  - destruct (str_in c _ALLOWED_REVIEW_STATE_VALUES) eqn:I; [|by left]. right.
    apply existsb_eqb_In in I. unfold _ALLOWED_REVIEW_STATE_VALUES in I.
    apply elem_of_app in I as [I|I]; [done|]. exfalso.
    assert (dict_get _LEGACY_REVIEW_STATE_ALIASES c <> None); [|done].
    revert I. generalize c. intros c' I. unfold LEGACY_REVIEW_STATES in I. by members I.
Qed.

Lemma normalize_maturity_cases v :
  normalize_maturity v = "" \/ normalize_maturity v ∈ CANONICAL_MATURITY_VALUES.
Proof.
  unfold normalize_maturity. cbv zeta. destruct (String.eqb _ ""); [by left|].
  destruct (str_in _ _) eqn:I; [right|by left]. by apply existsb_eqb_In.
Qed.

Lemma canonical_review s :
  s ∈ CANONICAL_REVIEW_STATES ->
  normalize_review_state (PStr s) = s /\ _cleaned_state_value (PStr s) = s /\ s <> ""
  /\ legacy_maturity_from_review_state (PStr s) = "" /\ is_legacy_review_state (PStr s) = false
  /\ s <> "inbox".
Proof. unfold CANONICAL_REVIEW_STATES. intros H. members H; by vm_compute. Qed.

Lemma canonical_maturity s :
  s ∈ CANONICAL_MATURITY_VALUES -> normalize_maturity (PStr s) = s /\ s <> "".
Proof. unfold CANONICAL_MATURITY_VALUES. intros H. members H; by vm_compute. Qed.

Lemma review_state_for_maturity_canonical v :
  review_state_for_maturity v ∈ CANONICAL_REVIEW_STATES.
Proof. unfold review_state_for_maturity. repeat case_match; by apply existsb_eqb_In. Qed.

Lemma axes_maturity_cases m r :
  axes_maturity m r = "" \/ axes_maturity m r ∈ CANONICAL_MATURITY_VALUES.
Proof.
  unfold axes_maturity, str_or, legacy_maturity_from_review_state.
  destruct (normalize_maturity_cases m) as [->|H]; simpl.
  - destruct (String.eqb _ _); [right; by apply existsb_eqb_In|by left].
  - destruct (String.eqb _ _); [|by right]. destruct (String.eqb _ _); [right; by apply existsb_eqb_In|by left].
Qed.

(** ** Artifacts *)

Lemma dict_get_set_or_pop d k k' v :
  dict_get (set_or_pop d k v) k'
  = if decide (k = k') then (if String.eqb v "" then None else Some (PStr v))
    else dict_get d k'.
Proof.
  unfold set_or_pop. destruct (String.eqb v "");
    rewrite ?dict_get_pop, ?dict_get_set; by case_decide.
Qed.

Definition opt_state (s : string) : option pyval :=
  if String.eqb s "" then None else Some (PStr s).

(** The fields after normalization, one by one. *)
Lemma axes_fields fields dflt wf :
  let d := normalize_artifact_state_axes fields dflt wf in
  let raw := _cleaned_state_value (get fields "review_state") in
  exists r m e,
    r ∈ CANONICAL_REVIEW_STATES /\ (m = "" \/ m ∈ CANONICAL_MATURITY_VALUES)
    /\ _cleaned_state_value (PStr e) = e
    /\ dict_get d "review_state" = Some (PStr r)
    /\ dict_get d "maturity" = opt_state m
    /\ dict_get d "workflow_state" = opt_state e
    /\ forall k, k ∉ ["review_state"; "maturity"; "workflow_state"; "legacy_review_state"] ->
       dict_get d k = dict_get fields k.
Proof.
  cbv zeta. unfold normalize_artifact_state_axes. cbv zeta.
  set (raw := _cleaned_state_value (get fields "review_state")).
  set (m := axes_maturity _ _). set (r := str_or _ _). set (e := if _ && _ then "inbox" else _).
  exists r, m, e.
  assert (Hr : r ∈ CANONICAL_REVIEW_STATES).
  { unfold r, str_or.
    destruct (normalize_review_cases (PStr raw)) as [->|H]; simpl.
    - destruct (String.eqb m ""); simpl; [|apply review_state_for_maturity_canonical].
      destruct (normalize_review_cases (PStr dflt)) as [->|Hd]; simpl; [left|].
      destruct (String.eqb (normalize_review_state (PStr dflt)) ""); [left|done].
    - destruct (String.eqb (normalize_review_state (PStr raw)) "") eqn:E; [|done]. bool_prop. rewrite E in H.
      by destruct (canonical_review _ H) as (_ & _ & ? & _). }
  assert (Hm : m = "" \/ m ∈ CANONICAL_MATURITY_VALUES) by apply axes_maturity_cases.
  assert (He : _cleaned_state_value (PStr e) = e)
    by (unfold e; destruct (_ && _); [reflexivity|apply clean_idem]).
  do 3 (split; [done|]). clearbody r m e.
  destruct (_ && _); rewrite ?dict_get_set, ?dict_get_pop, !dict_get_set_or_pop; simpl.
  all: split; [auto with pkm|]; split; [done|]; split; [done|].
  all: intros k Hk; rewrite ?dict_get_set, ?dict_get_pop, !dict_get_set_or_pop, dict_get_set.
  all: rewrite !not_elem_of_cons in Hk; destruct Hk as (? & ? & ? & ? & _).
  all: by rewrite !decide_False by done.
Qed.

Section artifact.
Context (fields : pydict) (default_review_state : string) (workflow_state : pyval).

(** Normalization lands in the vocabularies.  Whatever an artifact's
    fields hold, afterwards its review state is canonical, its maturity is
    canonical or absent, and no other field than the four state fields has
    changed. *)
Theorem artifact_axes_canonical :
  let d := normalize_artifact_state_axes fields default_review_state workflow_state in
  (exists r, dict_get d "review_state" = Some (PStr r) /\ r ∈ CANONICAL_REVIEW_STATES)
  /\ (dict_get d "maturity" = None
      \/ exists m, dict_get d "maturity" = Some (PStr m) /\ m ∈ CANONICAL_MATURITY_VALUES)
  /\ forall k, k ∉ ["review_state"; "maturity"; "workflow_state"; "legacy_review_state"] ->
     dict_get d k = dict_get fields k.
Proof.
  destruct (axes_fields fields default_review_state workflow_state)
    as (r & m & e & Hr & Hm & He & Gr & Gm & _ & F).
  cbv zeta. split; [eauto|]. split; [|exact F]. rewrite Gm. unfold opt_state.
  destruct Hm as [->|Hm]; [by left|]. right. exists m. split; [|done].
  apply canonical_maturity in Hm as [_ Hm]. by apply String.eqb_neq in Hm as ->.
Qed.

(** Normalization is stable.  Normalizing a normalized artifact again
    (with any default) changes none of its fields, except that the marker of
    a legacy review state is dropped. *)
Theorem artifact_axes_stable default2 k :
  let d := normalize_artifact_state_axes fields default_review_state workflow_state in
  k <> "legacy_review_state" ->
  dict_get (normalize_artifact_state_axes d default2 PNone) k = dict_get d k.
Proof.
  cbv zeta. intros Hk.
  set (d := normalize_artifact_state_axes fields default_review_state workflow_state).
  destruct (axes_fields fields default_review_state workflow_state)
    as (r & m & e & Hr & Hm & He & Gr & Gm & Ge & _). fold d in Gr, Gm, Ge.
  destruct (canonical_review r Hr) as (Nr & Cr & Zr & Lr & Ir & Br).
  assert (G1 : get d "review_state" = PStr r) by (unfold get; by rewrite Gr).
  assert (G2 : normalize_maturity (get d "maturity") = m).
  { unfold get. rewrite Gm. unfold opt_state. destruct Hm as [->|Hm]; [reflexivity|].
    destruct (canonical_maturity m Hm) as [Nm Zm]. apply String.eqb_neq in Zm as ->. done. }
  assert (G3 : _cleaned_state_value (get d "workflow_state") = e).
  { unfold get. rewrite Ge. unfold opt_state. destruct (String.eqb e "") eqn:E; [|done].
    bool_prop. by rewrite E. }
  unfold normalize_artifact_state_axes at 1. cbv zeta.
  change (py_or PNone (get d "workflow_state")) with (get d "workflow_state").
  rewrite G1, Cr, G3. unfold axes_maturity. rewrite G2, Lr, Nr, Ir, andb_false_r.
  apply String.eqb_neq in Br as ->. cbn [andb].
  assert (Om : str_or m "" = m) by (unfold str_or; destruct (String.eqb m "") eqn:E; [bool_prop|]; done).
  assert (Or : forall x, str_or r x = r)
    by (intros x; unfold str_or; by apply String.eqb_neq in Zr as ->).
  rewrite Om, Or, dict_get_pop, decide_False by done.
  rewrite !dict_get_set_or_pop, dict_get_set. unfold opt_state in Gm, Ge.
  repeat case_decide; subst; done.
Qed.
End artifact.

(** ** Promotion payloads *)

(** Read keys of updated dicts. *)
Ltac dict_keys :=
  repeat (rewrite ?dict_get_set, ?dict_get_pop, ?get_set, ?get_pop);
  repeat (case_decide; try congruence).

Lemma resolve_ok m rs :
  exists r, r ∈ CANONICAL_REVIEW_STATES
    /\ resolve_promotion_axes m rs
       = mkAxes (if String.eqb (axes_maturity m rs) "" then None else Some (axes_maturity m rs)) r.
Proof.
  unfold resolve_promotion_axes. cbv zeta. set (M := axes_maturity m rs).
  eexists. split; [|reflexivity].
  destruct (normalize_review_cases rs) as [->|H].
  - destruct (String.eqb M ""); cbn [negb andb String.eqb]; [by apply existsb_eqb_In|].
    pose proof (review_state_for_maturity_canonical (PStr M)).
    destruct (String.eqb _ ""); [by apply existsb_eqb_In|done].
  - destruct (canonical_review _ H) as (_ & _ & Z & _). apply String.eqb_neq in Z.
    by rewrite Z, andb_false_r, Z.
Qed.

Lemma resolve_canonical_review m r :
  r ∈ CANONICAL_REVIEW_STATES -> ax_review_state (resolve_promotion_axes m (PStr r)) = r.
Proof.
  intros H. destruct (canonical_review _ H) as (N & _ & Z & _). apply String.eqb_neq in Z.
  unfold resolve_promotion_axes. cbv zeta. by rewrite N, Z, andb_false_r, Z.
Qed.

Lemma axes_maturity_canonical T rs :
  T ∈ CANONICAL_MATURITY_VALUES -> axes_maturity (PStr T) rs = T.
Proof.
  intros H. destruct (canonical_maturity T H) as [N Z]. apply String.eqb_neq in Z.
  unfold axes_maturity, str_or. by rewrite N, Z.
Qed.

Lemma transition_target_some v t :
  transition_target v = Some t -> t ∈ CANONICAL_MATURITY_VALUES.
Proof.
  destruct v; try done. simpl. destruct (_ && _) eqn:E; [|done]. intros [= <-]. bool_prop.
  destruct (normalize_maturity_cases (get d "target_maturity")) as [Z|]; [by rewrite Z in *|done].
Qed.

(** The target is canonical or empty; when empty, no source of it says anything. *)
Lemma promotion_target_cases p :
  normalize_promotion_target p ∈ CANONICAL_MATURITY_VALUES
  \/ normalize_promotion_target p = ""
     /\ normalize_maturity (get p "maturity") = ""
     /\ legacy_maturity_from_review_state (get p "review_state") = ""
     /\ action_target (get p "action") = "".
Proof.
  unfold normalize_promotion_target. destruct (transition_target _) as [t|] eqn:E.
  { left. by eapply transition_target_some. }
  cbv zeta. destruct (normalize_maturity_cases (get p "maturity")) as [Hm|Hm].
  2: { left. destruct (canonical_maturity _ Hm) as [_ Z]. by apply String.eqb_neq in Z as ->. }
  rewrite Hm. cbn [negb String.eqb].
  assert (L : (if truthy (get p "review_state")
    then legacy_maturity_from_review_state (get p "review_state") else "")
    = legacy_maturity_from_review_state (get p "review_state")).
  { destruct (truthy _) eqn:Tr; [done|].
    unfold legacy_maturity_from_review_state, _cleaned_state_value, py_or. by rewrite Tr. }
  rewrite L. unfold legacy_maturity_from_review_state. destruct (String.eqb _ "evergreen").
  { left. simpl. by apply existsb_eqb_In. }
  simpl. unfold action_target. destruct (get p "action"); auto.
  destruct (startswith _ _); auto. destruct (normalize_maturity_cases (PStr
    (str_drop 8 (_cleaned_state_value (get d "id"))))); auto.
Qed.

(** The two shapes of a normalized payload. *)
Definition promoted_shape (q : pydict) (T r : string) : Prop :=
  T ∈ CANONICAL_MATURITY_VALUES /\ r ∈ CANONICAL_REVIEW_STATES
  /\ dict_get q "maturity" = Some (PStr T) /\ dict_get q "review_state" = Some (PStr r)
  /\ dict_get q "transition" = Some (PDict (build_promotion_transition T)).
Definition unpromoted_shape (q : pydict) (r : string) : Prop :=
  r ∈ CANONICAL_REVIEW_STATES /\ dict_get q "maturity" = None
  /\ dict_get q "review_state" = Some (PStr r) /\ dict_get q "transition" = None
  /\ action_target (get q "action") = "".

Lemma payload_shape p :
  let q := normalize_promotion_payload p in
  (exists T r, promoted_shape q T r) \/ (exists r, unpromoted_shape q r).
Proof.
  cbv zeta. unfold normalize_promotion_payload. cbv zeta.
  destruct (promotion_target_cases p) as [HT|(HT & Hm & Hl & Ha)].
  - left. set (T := normalize_promotion_target p) in *.
    destruct (canonical_maturity T HT) as [_ Z]. apply String.eqb_neq in Z as Z'. rewrite Z'.
    cbn [negb]. rewrite get_set, decide_False by done. rewrite get_set, decide_True by done.
    destruct (resolve_ok (PStr T) (get (dict_set (dict_set p "maturity" (PStr T)) "transition"
      (PDict (build_promotion_transition T))) "review_state")) as (r & Hr & ->).
    rewrite axes_maturity_canonical, Z' by done. cbn [ax_maturity ax_review_state].
    exists T, r. split; [done|]. split; [done|]. by dict_keys.
  - right. rewrite HT. cbn [negb String.eqb].
    match goal with |- exists r, unpromoted_shape (match ax_maturity (resolve_promotion_axes
      (get ?x _) _) with _ => _ end) r => set (p1 := x) end.
    assert (P1 : forall k, k <> "transition" -> get p1 k = get p k).
    { intros k Hk. unfold p1. repeat case_match; try done;
        by rewrite get_pop, decide_False. }
    rewrite !P1 by done.
    destruct (resolve_ok (get p "maturity") (get p "review_state")) as (r & Hr & ->).
    unfold axes_maturity. rewrite Hm, Hl. cbn. exists r. split; [done|].
    dict_keys. rewrite P1 by done. done.
Qed.

(** Promotion payloads agree with themselves.  After normalization the
    review state is canonical, and either the payload carries a canonical
    maturity together with a promotion transition to exactly that maturity,
    or it carries neither. *)
Theorem promotion_payload_coherent payload :
  let q := normalize_promotion_payload payload in
  (exists r, dict_get q "review_state" = Some (PStr r) /\ r ∈ CANONICAL_REVIEW_STATES)
  /\ ((exists m, m ∈ CANONICAL_MATURITY_VALUES /\ dict_get q "maturity" = Some (PStr m)
        /\ dict_get q "transition"
           = Some (PDict [("family", PStr "promotion"); ("target_maturity", PStr m)]))
      \/ dict_get q "maturity" = None /\ dict_get q "transition" = None).
Proof.
  cbv zeta. destruct (payload_shape payload) as [(T & r & HT & Hr & G1 & G2 & G3)|(r & Hr & G1 & G2 & G3 & _)].
  - split; [eauto|]. left. exists T. split; [done|]. split; [done|]. rewrite G3.
    unfold build_promotion_transition. by destruct (canonical_maturity T HT) as [-> _].
  - split; [eauto|]. by right.
Qed.

Lemma get_some d k v : dict_get d k = Some v -> get d k = v.
Proof. unfold get. by intros ->. Qed.
Lemma get_none d k : dict_get d k = None -> get d k = PNone.
Proof. unfold get. by intros ->. Qed.

Lemma promoted_fixed q T r : promoted_shape q T r -> normalize_promotion_payload q = q.
Proof.
  intros (HT & Hr & G1 & G2 & G3). unfold normalize_promotion_payload. cbv zeta.
  destruct (canonical_maturity T HT) as [N Z]. apply String.eqb_neq in Z.
  assert (E : normalize_promotion_target q = T).
  { unfold normalize_promotion_target. rewrite (get_some _ _ _ G3). unfold transition_target.
    change (get (build_promotion_transition T) "target_maturity")
      with (PStr (normalize_maturity (PStr T))). by rewrite !N, Z. }
  rewrite E, Z. cbn [negb]. rewrite (dict_set_same q) by done. rewrite (dict_set_same q) by done.
  rewrite (get_some _ _ _ G1), (get_some _ _ _ G2).
  rewrite (resolve_canonical_review _ r Hr), (dict_set_same q) by done.
  destruct (resolve_ok (PStr T) (PStr r)) as (r' & _ & ->).
  rewrite axes_maturity_canonical, Z by done. cbn [ax_maturity]. auto with pkm.
Qed.

Lemma unpromoted_fixed q r : unpromoted_shape q r -> normalize_promotion_payload q = q.
Proof.
  intros (Hr & G1 & G2 & G3 & A). unfold normalize_promotion_payload. cbv zeta.
  destruct (canonical_review r Hr) as (_ & C & _ & L & _).
  assert (M0 : normalize_maturity PNone = "") by reflexivity.
  assert (E : normalize_promotion_target q = "").
  { unfold normalize_promotion_target.
    rewrite (get_none _ _ G3), (get_none _ _ G1), (get_some _ _ _ G2), M0, L.
    cbn [negb String.eqb transition_target]. by destruct (truthy _). }
  rewrite E. cbn [negb String.eqb]. unfold dict_mem. rewrite G3.
  rewrite (get_none _ _ G1), (get_some _ _ _ G2).
  rewrite (resolve_canonical_review _ r Hr), (dict_set_same q) by done.
  destruct (resolve_ok PNone (PStr r)) as (r' & _ & ->). unfold axes_maturity. rewrite M0, L.
  change (str_or "" "") with "". cbn [String.eqb ax_maturity].
  rewrite (dict_pop_absent q "maturity") by done. auto with pkm.
Qed.

(** A payload in one of the two shapes is a fixed point. *)
Lemma payload_fixed q :
  (exists T r, promoted_shape q T r) \/ (exists r, unpromoted_shape q r) ->
  normalize_promotion_payload q = q.
Proof. intros [(T & r & H)|(r & H)]; [by eapply promoted_fixed|by eapply unpromoted_fixed]. Qed.

(** Normalizing a promotion payload is idempotent, to the letter: the
    second pass returns the same dict. *)
Theorem promotion_payload_idempotent payload :
  normalize_promotion_payload (normalize_promotion_payload payload)
  = normalize_promotion_payload payload.
Proof. apply payload_fixed, payload_shape. Qed.

(** ** Plan actions *)

(** The argument update of an action that has its current name. *)
Definition action_args (a : string) (d : pydict) : pydict :=
  if String.eqb a "request_promotion_transition" then normalize_promotion_payload d
  else if String.eqb a "set_review_state"
  then dict_set d "review_state"
         (PStr (str_or (normalize_review_state (get d "review_state")) "provisional"))
  else if String.eqb a "set_maturity"
  then set_or_pop d "maturity" (normalize_maturity (get d "maturity"))
  else d.

Lemma action_args_idem a d : action_args a (action_args a d) = action_args a d.
Proof.
  unfold action_args. destruct (String.eqb a _); [apply payload_fixed, payload_shape|].
  destruct (String.eqb a _).
  { rewrite get_set, decide_True by done. apply dict_set_same. rewrite dict_get_set_eq.
    destruct (normalize_review_cases (get d "review_state")) as [->|H]; [reflexivity|].
    destruct (canonical_review _ H) as (N & _ & Z & _). apply String.eqb_neq in Z.
    assert (O : str_or (normalize_review_state (get d "review_state")) "provisional"
      = normalize_review_state (get d "review_state")) by (unfold str_or; by rewrite Z).
    by rewrite O, N, O. }
  destruct (String.eqb a _); [|done]. unfold set_or_pop.
  destruct (normalize_maturity_cases (get d "maturity")) as [->|H].
  - cbn [String.eqb]. rewrite get_pop, decide_True by done.
    change (String.eqb (normalize_maturity PNone) "") with true. cbv iota.
    auto with pkm.
  - destruct (canonical_maturity _ H) as [N Z]. apply String.eqb_neq in Z.
    rewrite Z, get_set, decide_True, N, Z by done. auto with pkm.
Qed.

(** The action's current name. *)
Definition current_name (a : string) : string :=
  if String.eqb a "update_review_state" then "set_review_state"
  else if String.eqb a "promote_to_evergreen" then "request_promotion_transition" else a.

Lemma plan_action_eq name args :
  exists a0 d0, strip a0 = a0
    /\ normalize_plan_state_action name args
       = (current_name a0, action_args (current_name a0) d0).
Proof.
  unfold normalize_plan_state_action. cbv zeta. set (a0 := strip _).
  assert (S : strip a0 = a0) by apply strip_idem. clearbody a0.
  exists a0. unfold current_name, action_args.
  destruct (String.eqb a0 "update_review_state"); [by eexists|].
  destruct (String.eqb a0 "promote_to_evergreen"); [by eexists|].
  exists (default [] args). split; [done|].
  destruct (String.eqb a0 "request_promotion_transition"), (String.eqb a0 "set_review_state"),
    (String.eqb a0 "set_maturity"); done.
Qed.

Lemma current_name_idem a : current_name (current_name a) = current_name a.
Proof.
  unfold current_name. destruct (String.eqb a "update_review_state") eqn:E1; [done|].
  destruct (String.eqb a "promote_to_evergreen") eqn:E2; [done|]. by rewrite E1, E2.
Qed.

Lemma plan_action_current a d :
  strip a = a -> a <> "" -> current_name a = a ->
  normalize_plan_state_action (Some a) (Some d) = (a, action_args a d).
Proof.
  intros S Z C. unfold normalize_plan_state_action. cbv zeta.
  destruct a as [|c s]; [done|]. rewrite S. set (a := String c s) in *.
  unfold current_name in C. unfold action_args. cbn [default].
  destruct (String.eqb a "update_review_state") eqn:E1; [rewrite <- C in E1; done|].
  destruct (String.eqb a "promote_to_evergreen") eqn:E2; [rewrite <- C in E2; done|].
  destruct (String.eqb a "request_promotion_transition"), (String.eqb a "set_review_state"),
    (String.eqb a "set_maturity"); done.
Qed.

(** Plan actions are normalized once and for all: a named action and its
    arguments, normalized again, come back unchanged (retired action names
    do not reappear, canonical arguments stay). *)
Theorem plan_action_stable name args a d :
  normalize_plan_state_action name args = (a, d) -> a <> "" ->
  normalize_plan_state_action (Some a) (Some d) = (a, d).
Proof.
  destruct (plan_action_eq name args) as (a0 & d0 & S & ->). intros [= <- <-] Z.
  rewrite plan_action_current; [by rewrite action_args_idem| |done|apply current_name_idem].
  unfold current_name. destruct (String.eqb a0 "update_review_state"); [done|].
  by destruct (String.eqb a0 "promote_to_evergreen").
Qed.

Module StateAxesRun.
(** An artifact from before the two axes existed. *)
Definition legacy : pydict :=
  [("title", PStr "Note"); ("review_state", PStr " Evergreen "); ("workflow_state", PNone)].

Lemma artifact_axes_stable_witness :
  dict_get (normalize_artifact_state_axes
              (normalize_artifact_state_axes legacy "draft" PNone) "protected" PNone) "maturity"
  = Some (PStr "evergreen").
Proof.
  etransitivity;
    [exact (artifact_axes_stable legacy "draft" PNone "protected" "maturity" ltac:(discriminate))|].
  vm_compute. reflexivity.
Defined.

Lemma plan_action_stable_witness :
  let '(a, d) := normalize_plan_state_action (Some " promote_to_evergreen") None in
  normalize_plan_state_action (Some a) (Some d) = (a, d).
Proof.
  refine (plan_action_stable (Some " promote_to_evergreen") None
            "request_promotion_transition" _ _ _).
  - vm_compute. reflexivity.
  - discriminate.
Defined.
End StateAxesRun.
