(* ===== verification/Commitments.v ===== *)
(** * Commitments (src/app/domain/commitments.py)

    Commitment records, their query (next and waiting items, the former ranked
    by optional scores) and the two ways their state changes, one of them
    gated by a receipt-bearing APPLY request.

    Scores are IEEE 754 binary64 numbers ([spec_float], added with [SFadd] at
    the double format), because the ranking adds and compares them.  The file
    proves what the gate requires and records, and that the ranking is a
    stable descending sort of exactly the next items. *)
From Stdlib Require Import SpecFloat Sorted Permutation Ascii.
From S2P Require Import Prelude PyValue Sql StateAxes.

Definition FIRST_WAVE_COMMITMENT_KINDS : list string :=
  ["open_loop"; "project"; "next_action"; "waiting"; "review_return"].
Definition COMMITMENT_STATE_VALUES : list string :=
  ["unknown"; "open"; "next"; "waiting"; "blocked"; "done"].

Record CommitmentHandle : Type := mkHandle {
  ch_commitment_kind : string;
  ch_target_ref : option string;
  ch_summary : option string;
  ch_source_goal : option string }.

(** A non-empty optional string adds its key. *)
Definition put_opt (k : string) (v : option string) (d : pydict) : pydict :=
  match v with Some (String c s) => dict_set d k (PStr (String c s)) | _ => d end.

Definition CommitmentHandle_to_dict (h : CommitmentHandle) : pydict :=
  put_opt "source_goal" (ch_source_goal h)
    (put_opt "summary" (ch_summary h)
      (put_opt "target_ref" (ch_target_ref h)
        [("commitment_kind", PStr (ch_commitment_kind h))])).

Record CommitmentRecord : Type := mkCommitment {
  cm_commitment_id : string;
  cm_commitment_kind : string;
  cm_state : string;
  cm_target_ref : option string;
  cm_summary : option string;
  cm_source_goal : option string;
  cm_waiting_on : option string;
  cm_waiting_since : option string;
  cm_review_cadence : option string;
  cm_last_reviewed : option string }.

(** The dict [operator_summary]; its last key is present when staleness
    scores are. *)
Record OperatorSummary : Type := mkSummary {
  os_next_count : nat;
  os_waiting_count : nat;
  os_next_ids : list string;
  os_waiting_ids : list string;
  os_waiting_staleness : option (list (string * spec_float)) }.

Record CommitmentQueryResult : Type := mkQueryResult {
  qr_next_items : list CommitmentRecord;
  qr_waiting_items : list CommitmentRecord;
  qr_operator_summary : OperatorSummary }.

Record CommitmentTransitionResult : Type := mkTransition {
  tr_updated : CommitmentRecord;
  tr_receipt_metadata : list (string * string) }.

Definition normalize_commitment_kind (value : pyval) : res string :=
  let cleaned := lower (strip (py_str (py_or value (PStr "")))) in
  if str_in cleaned FIRST_WAVE_COMMITMENT_KINDS then Ok cleaned
  else Raise (ValueError "unsupported commitment_kind").

Definition normalize_commitment_state (value : pyval) : res string :=
  let cleaned := lower (strip (py_str (py_or value (PStr "")))) in
  if str_in cleaned COMMITMENT_STATE_VALUES then Ok cleaned
  else Raise (ValueError "unsupported commitment_state").

(** [s or None]. *)
Definition nonempty_opt (s : option string) : option string :=
  match s with Some (String c s) => Some (String c s) | _ => None end.

Definition make_commitment_handle (commitment_kind : pyval)
    (target_ref summary source_goal : option string) : res CommitmentHandle :=
  kind ← normalize_commitment_kind commitment_kind;
  Ok (mkHandle kind (nonempty_opt target_ref) (nonempty_opt summary) (nonempty_opt source_goal)).

(** ** Query *)

Abbreviation scores := (list (string * spec_float)).

(** [0.0]. *)
Definition fzero : spec_float := S754_zero false.
(** [a + b] on floats. *)
Definition fadd : spec_float -> spec_float -> spec_float := SFadd 53 1024.

Definition score_of (s : option scores) (commitment_id : string) : spec_float :=
  default fzero (dict_get (default [] s) commitment_id).

Definition _salience_rank_score (commitment_id : string)
    (salience_scores staleness_scores : option scores) : spec_float :=
  fadd (score_of salience_scores commitment_id) (score_of staleness_scores commitment_id).

(** [raw_next.sort(key=..., reverse=True)]: descending, equal keys in order. *)
Definition ranked (salience_scores staleness_scores : option scores)
    (l : list CommitmentRecord) : list CommitmentRecord :=
  order_by (fun a b =>
    negb (SFltb (_salience_rank_score (cm_commitment_id a) salience_scores staleness_scores)
                (_salience_rank_score (cm_commitment_id b) salience_scores staleness_scores))) l.

Definition query_next_and_waiting_commitments (commitments : list CommitmentRecord)
    (salience_scores staleness_scores : option scores) : CommitmentQueryResult :=
  let raw_next := List.filter (fun i => String.eqb (cm_state i) "next") commitments in
  let raw_waiting := List.filter (fun i => String.eqb (cm_state i) "waiting") commitments in
  let next_items :=
    match salience_scores, staleness_scores with
    | None, None => raw_next
    | _, _ => ranked salience_scores staleness_scores raw_next
    end in
  mkQueryResult next_items raw_waiting
    (mkSummary (length next_items) (length raw_waiting)
       (map cm_commitment_id next_items) (map cm_commitment_id raw_waiting)
       (match staleness_scores with
        | None => None
        | Some st =>
            Some (foldl (fun d i => dict_set d (cm_commitment_id i)
                           (score_of (Some st) (cm_commitment_id i))) [] raw_waiting)
        end)).

(** ** Transitions *)

(** [replace(commitment, state=s)]. *)
Definition cm_with_state (s : string) (c : CommitmentRecord) : CommitmentRecord :=
  mkCommitment (cm_commitment_id c) (cm_commitment_kind c) s (cm_target_ref c) (cm_summary c)
    (cm_source_goal c) (cm_waiting_on c) (cm_waiting_since c) (cm_review_cadence c)
    (cm_last_reviewed c).

Definition apply_commitment_state_transition (commitment : CommitmentRecord) (to_state : pyval)
    (receipt_event_id trace_id cause executor : string) : res CommitmentTransitionResult :=
  next_state ← normalize_commitment_state to_state;
  Ok (mkTransition (cm_with_state next_state commitment)
        [("commitment_id", cm_commitment_id commitment);
         ("receipt_event_id", receipt_event_id);
         ("trace_id", trace_id);
         ("before_state", cm_state commitment);
         ("after_state", next_state);
         ("transition_family", "commitment_state");
         ("cause", cause);
         ("executor", executor)]).

Definition _REQUIRED_RECEIPT_FIELDS : list string :=
  ["verb"; "authority"; "basis"; "outcome"; "artifact_linkage"; "instance_provenance"].

(** [str.upper] on the code points 0-255 whose capital is one of them; [upper]
    of the sharp s is two letters. *)
Definition upper_char (c : ascii) : string :=
  let n := code c in
  if (n =? 223)%N then "SS"
  else if ((97 <=? n) && (n <=? 122) || (224 <=? n) && (n <=? 254) && negb (n =? 247))%N%bool
  then String (ascii_of_N (n - 32)) "" else String c "".
Definition upper (s : string) : string := concat_map upper_char s.

(** A field that is absent, [None] or blank. *)
Definition receipt_field_missing (receipt_request : pydict) (field : string) : bool :=
  match dict_get receipt_request field with
  | None => true
  | Some v => is_none v || String.eqb (strip (py_str v)) ""
  end.

Definition apply_commitment_mutation (commitment : CommitmentRecord) (to_state : pyval)
    (receipt_request : pydict) : res CommitmentTransitionResult :=
  let verb := upper (strip (py_str (py_or (get receipt_request "verb") (PStr "")))) in
  if negb (String.eqb verb "APPLY")
  then Raise (ValueError "commitment mutation requires trust verb APPLY")
  else if existsb (receipt_field_missing receipt_request) _REQUIRED_RECEIPT_FIELDS
  then Raise (ValueError "commitment mutation missing required receipt field")
  else
    next_state ← normalize_commitment_state to_state;
    Ok (mkTransition (cm_with_state next_state commitment)
          (foldl (fun d field => dict_set d field
                    (if String.eqb field "verb" then verb
                     else py_str (get receipt_request field)))
             [("commitment_id", cm_commitment_id commitment);
              ("before_state", cm_state commitment);
              ("after_state", next_state);
              ("transition_family", "commitment_state")]
             _REQUIRED_RECEIPT_FIELDS)).

(** ** The order of floats *)

(** Class, exponent and mantissa, signed: what [SFcompare] compares. *)
Definition frank (x : spec_float) : Z * Z * Z :=
  match x with
  | S754_infinity true => (-2, 0, 0)
  | S754_finite true m e => (-1, - e, - Z.pos m)
  | S754_zero _ | S754_nan => (0, 0, 0)
  | S754_finite false m e => (1, e, Z.pos m)
  | S754_infinity false => (2, 0, 0)
  end%Z.
Definition lex_lt (a b : Z * Z * Z) : Prop :=
  let '(a1, a2, a3) := a in let '(b1, b2, b3) := b in
  (a1 < b1 \/ a1 = b1 /\ (a2 < b2 \/ a2 = b2 /\ a3 < b3))%Z.

Lemma SFltb_lex x y :
  x <> S754_nan -> y <> S754_nan -> SFltb x y = true <-> lex_lt (frank x) (frank y).
Proof.
  unfold SFltb. intros Hx Hy.
  destruct x as [[]|[]| |[] m e], y as [[]|[]| |[] m' e']; simpl; try done;
    try (split; [done|lia]); try (split; [lia|done]).
  - destruct (Z.compare_spec e e') as [->|?|?]; simpl; try (split; [done|lia]); try (split; [lia|done]).
    change (Pos.compare_cont Eq m m') with (Pos.compare m m').
    destruct (Pos.compare_spec m m'); simpl; split; try done; lia.
  - destruct (Z.compare_spec e e') as [->|?|?]; simpl; try (split; [done|lia]); try (split; [lia|done]).
    change (Pos.compare_cont Eq m m') with (Pos.compare m m').
    destruct (Pos.compare_spec m m'); simpl; split; try done; lia.
Qed.

Lemma SFltb_total x y :
  x <> S754_nan -> y <> S754_nan ->
  negb (SFltb x y) = false -> negb (SFltb y x) = true.
Proof.
  intros Hx Hy H. bool_prop. apply SFltb_lex in H; [|done..].
  apply negb_true_iff, not_true_iff_false. rewrite SFltb_lex by done.
  destruct (frank x) as [[] ?], (frank y) as [[] ?]. simpl in *. lia.
Qed.
Lemma SFltb_trans x y z :
  x <> S754_nan -> y <> S754_nan -> z <> S754_nan ->
  negb (SFltb x y) = true -> negb (SFltb y z) = true -> negb (SFltb x z) = true.
Proof.
  intros Hx Hy Hz H1 H2. bool_prop. apply not_true_iff_false in H1, H2.
  apply negb_true_iff, not_true_iff_false. rewrite SFltb_lex in * by done.
  destruct (frank x) as [[] ?], (frank y) as [[] ?], (frank z) as [[] ?]. simpl in *. lia.
Qed.

(** ** Sorting *)

Section stable.
Context {A : Type} (leb : A -> A -> bool) (P : A -> Prop).

Lemma order_by_Forall l : Forall P l -> Forall P (order_by leb l).
Proof.
  rewrite !Forall_forall. intros H x Hx%order_by_elem. auto.
Qed.

(** Elements that compare equal keep their order. *)
Lemma order_by_stable (p : A -> bool) l :
  (forall x y, P x -> P y -> p x = true -> p y = true -> leb x y = true) -> Forall P l ->
  List.filter p (order_by leb l) = List.filter p l.
Proof.
  intros Hp. induction 1 as [|x l Hx Hl IH]; [done|]. cbn [order_by].
  assert (E : forall s, Forall P s ->
    List.filter p (order_ins leb x s) = List.filter p (x :: s)).
  { induction 1 as [|y s Hy Hs IHs]; [done|]. cbn [order_ins].
    destruct (leb x y) eqn:L; [done|]. cbn [List.filter]. rewrite IHs. cbn [List.filter].
    destruct (p x) eqn:Px, (p y) eqn:Py; try done. rewrite Hp in L; done. }
  rewrite E by (by apply order_by_Forall). cbn [List.filter]. by rewrite IH.
Qed.

Context (leb_total : forall x y, P x -> P y -> leb x y = false -> leb y x = true)
  (leb_trans : forall x y z, P x -> P y -> P z ->
     leb x y = true -> leb y z = true -> leb x z = true).

Lemma order_by_sorted_on l :
  Forall P l -> StronglySorted (fun x y => leb x y = true) (order_by leb l).
Proof using leb_total leb_trans.
  induction 1 as [|x l Hx Hl IH]; cbn [order_by]; [constructor|].
  assert (Hs : Forall P (order_by leb l)) by (by apply order_by_Forall).
  induction IH as [|y s Ss IH Hall]; cbn [order_ins]; [repeat constructor|].
  apply Forall_cons in Hs as [Hy Hs]. rewrite Forall_forall in Hall, Hs.
  destruct (leb x y) eqn:E.
  - constructor; [constructor; [done|by apply Forall_forall]|]. constructor; [done|].
    apply Forall_forall. intros z Hz. eapply (leb_trans x y z); auto.
  - constructor; [apply IH; by apply Forall_forall|]. apply Forall_forall. intros z.
    rewrite order_ins_perm, elem_of_cons. intros [->|Hz]; auto.
Qed.
End stable.

(** ** Properties *)

Section query.
Context (salience staleness : option scores).
Definition item_score (c : CommitmentRecord) : spec_float :=
  _salience_rank_score (cm_commitment_id c) salience staleness.
Definition is_next (c : CommitmentRecord) : bool := String.eqb (cm_state c) "next".
Definition score_ok (c : CommitmentRecord) : Prop := item_score c <> S754_nan.

Lemma ranked_sorted l :
  Forall score_ok l ->
  StronglySorted (fun a b => SFltb (item_score a) (item_score b) = false) (ranked salience staleness l).
Proof.
  intros N.
  assert (S : StronglySorted (fun a b => negb (SFltb (item_score a) (item_score b)) = true)
                (ranked salience staleness l)).
  { apply (order_by_sorted_on _ score_ok); [..|exact N].
    - intros x y. apply SFltb_total.
    - intros x y z. apply SFltb_trans. }
  induction S as [|x s _ IH H]; constructor; [done|].
  eapply Forall_impl; [exact H|]. intros y Hy. by apply negb_true_iff.
Qed.

(** The items whose score equals [s]. *)
Definition scored_like (s : spec_float) (c : CommitmentRecord) : bool :=
  negb (SFltb (item_score c) s) && negb (SFltb s (item_score c)).

Lemma ranked_stable s l :
  s <> S754_nan -> Forall score_ok l ->
  List.filter (scored_like s) (ranked salience staleness l) = List.filter (scored_like s) l.
Proof.
  intros Hs N. apply (order_by_stable _ score_ok); [|done].
  intros x y Hx Hy [Sx _]%andb_true_iff [_ Sy]%andb_true_iff.
  eapply (SFltb_trans (item_score x) s (item_score y)); done.
Qed.

(** The query surfaces exactly the commitments in state next and in state
    waiting.  Waiting items come in the given order; next items are a
    rearrangement of the given ones in descending order of their score, in
    which items of equal score keep their order.  (No score is NaN.) *)
Theorem query_ranks_next_items commitments :
  Forall score_ok commitments ->
  let r := query_next_and_waiting_commitments commitments salience staleness in
  qr_waiting_items r = List.filter (fun c => String.eqb (cm_state c) "waiting") commitments
  /\ Permutation (qr_next_items r) (List.filter is_next commitments)
  /\ (salience = None -> staleness = None -> qr_next_items r = List.filter is_next commitments)
  /\ (is_Some salience \/ is_Some staleness ->
      StronglySorted (fun a b => SFltb (item_score a) (item_score b) = false) (qr_next_items r)
      /\ forall s, s <> S754_nan ->
         List.filter (scored_like s) (qr_next_items r)
         = List.filter (scored_like s) (List.filter is_next commitments)).
Proof.
  intros N. cbv zeta. unfold query_next_and_waiting_commitments.
  cbn [qr_waiting_items qr_next_items]. fold is_next. set (raw := List.filter is_next commitments).
  assert (Nr : Forall score_ok raw).
  { apply Forall_forall. intros c Hc%list_elem_of_In. apply filter_In in Hc as [Hc _].
    apply (proj1 (Forall_forall _ _) N). by apply list_elem_of_In. }
  split; [done|]. split.
  { destruct salience, staleness; try done; apply order_by_perm. }
  split; [by intros -> ->|]. intros Sig.
  replace (match salience with Some _ => _ | None => _ end) with (ranked salience staleness raw)
    by (destruct salience, staleness; try done; by destruct Sig as [[]|[]]).
  split; [by apply ranked_sorted|]. intros s Hs. by apply ranked_stable.
Qed.
End query.

(** ** The mutation gate *)

Lemma normalize_commitment_state_ok v s :
  normalize_commitment_state v = Ok s -> s ∈ COMMITMENT_STATE_VALUES.
Proof.
  unfold normalize_commitment_state. cbv zeta. destruct (str_in _ _) eqn:E; [|done].
  intros [= <-]. by apply existsb_eqb_In.
Qed.

Lemma receipt_field_present rr f :
  receipt_field_missing rr f = false <->
  exists v, dict_get rr f = Some v /\ v <> PNone /\ strip (py_str v) <> "".
Proof.
  unfold receipt_field_missing. destruct (dict_get rr f) as [v|].
  - rewrite orb_false_iff, String.eqb_neq. split.
    + intros [N S]. exists v. split; [done|]. split; [by intros ->|done].
    + intros (v' & [= <-] & N & S). split; [by destruct v|done].
  - split; [done|]. by intros (v & ? & _).
Qed.

Lemma receipt_complete rr :
  existsb (receipt_field_missing rr) _REQUIRED_RECEIPT_FIELDS = false <->
  forall f, f ∈ _REQUIRED_RECEIPT_FIELDS ->
    exists v, dict_get rr f = Some v /\ v <> PNone /\ strip (py_str v) <> "".
Proof.
  setoid_rewrite <- receipt_field_present. generalize _REQUIRED_RECEIPT_FIELDS. intros l.
  induction l as [|f l IH]; cbn [existsb].
  - split; [intros _ f Hf; by apply elem_of_nil in Hf|done].
  - rewrite orb_false_iff, IH. setoid_rewrite elem_of_cons. naive_solver.
Qed.

(** No commitment changes state without a receipt.  A mutation succeeds
    exactly when its request says APPLY, every required receipt field is
    there and not blank, and the target state is one of the vocabulary; it
    then changes nothing but the state, and its receipt names the commitment,
    the states before and after, and the receipt fields of the request. *)
Theorem mutation_needs_receipt c to_state rr t :
  apply_commitment_mutation c to_state rr = Ok t <->
  exists s, normalize_commitment_state to_state = Ok s
    /\ upper (strip (py_str (py_or (get rr "verb") (PStr "")))) = "APPLY"
    /\ (forall f, f ∈ _REQUIRED_RECEIPT_FIELDS ->
          exists v, dict_get rr f = Some v /\ v <> PNone /\ strip (py_str v) <> "")
    /\ tr_updated t = cm_with_state s c
    /\ tr_receipt_metadata t =
       [("commitment_id", cm_commitment_id c); ("before_state", cm_state c); ("after_state", s);
        ("transition_family", "commitment_state"); ("verb", "APPLY");
        ("authority", py_str (get rr "authority")); ("basis", py_str (get rr "basis"));
        ("outcome", py_str (get rr "outcome"));
        ("artifact_linkage", py_str (get rr "artifact_linkage"));
        ("instance_provenance", py_str (get rr "instance_provenance"))].
Proof.
  unfold apply_commitment_mutation. cbv zeta.
  destruct (String.eqb (upper _) "APPLY") eqn:V; cbn [negb].
  2: { bool_prop. split; [done|]. by intros (s & _ & ? & _). }
  bool_prop. rewrite V.
  destruct (existsb _ _) eqn:X.
  { split; [done|]. intros (s & _ & _ & H & _). apply receipt_complete in H. congruence. }
  destruct (normalize_commitment_state to_state) as [s|e]; cbn [mbind res_bind].
  - split.
    + intros [= <-]. exists s. split; [done|]. split; [done|].
      split; [by apply receipt_complete|]. split; reflexivity.
    + intros (s' & [= <-] & _ & _ & H1 & H2). destruct t as [u m]. simpl in H1, H2.
      subst. reflexivity.
  - split; [done|]. by intros (s & ? & _).
Qed.

Module CommitmentRun.
Definition item (id state : string) : CommitmentRecord :=
  mkCommitment id "next_action" state None None None None None None None.
Definition items : list CommitmentRecord :=
  [item "a" "next"; item "b" "waiting"; item "c" "next"; item "d" "done"; item "e" "next"].
(** 1.0. *)
Definition one : spec_float := S754_finite false 4503599627370496 (-52).

Example ranking :
  map cm_commitment_id (qr_next_items
    (query_next_and_waiting_commitments items (Some [("c", one)]) None)) = ["c"; "a"; "e"].
Proof. vm_compute. reflexivity. Qed.

Lemma query_ranks_next_items_witness :
  let r := query_next_and_waiting_commitments items (Some [("c", one)]) None in
  qr_waiting_items r = [item "b" "waiting"]
  /\ Permutation (qr_next_items r) [item "a" "next"; item "c" "next"; item "e" "next"].
Proof.
  destruct (query_ranks_next_items (Some [("c", one)]) None items) as (H1 & H2 & _).
  - repeat constructor; vm_compute; discriminate.
  - split; [exact H1|exact H2].
Defined.

Definition receipt : pydict :=
  map (fun f => (f, PStr (if String.eqb f "verb" then " apply" else "x"))) _REQUIRED_RECEIPT_FIELDS.

Example mutation :
  match apply_commitment_mutation (item "a" "next") (PStr "Done") receipt with
  | Ok t => cm_state (tr_updated t) = "done"
  | Raise _ => False
  end.
Proof. vm_compute. reflexivity. Qed.
End CommitmentRun.
