(* ===== verification/MemoryCandidate.v ===== *)
(** * Memory candidates (src/app/agent_memory/candidate.py)

    The vocabulary of agent memory, the candidate record with its validator,
    and the check of scope identifiers.  A Pydantic model is a record; building
    one is a function that raises when a field constraint or a model validator
    refuses.  [Optional[str]] is [option string]. *)
From Stdlib Require Import Ascii.
From S2P Require Import Prelude PyValue PyTime.

Inductive ReviewState : Type :=
  | RS_UNREVIEWED | RS_REVIEWED | RS_ACCEPTED | RS_REJECTED | RS_REVISED.

Inductive ActivationPolicy : Type :=
  | AP_EXPLICIT_ONLY | AP_EXPLICIT_OR_CONTEXTUAL | AP_ON_RESUME
  | AP_REVIEW_QUEUE_ONLY | AP_BLOCKED.

Inductive MemoryType : Type :=
  | WORKING_CONTEXT | EPISODIC_MEMORY | SEMANTIC_MEMORY | PROSPECTIVE_MEMORY
  | PROCEDURAL_MEMORY | PREFERENCE_MEMORY | POLICY_MEMORY.

Inductive ContradictionState : Type :=
  | CS_CLEAR | CS_CONTRADICTED | CS_REVISED | CS_REJECTED.

#[export] Instance ReviewState_eq_dec : EqDecision ReviewState.
Proof. solve_decision. Defined.
#[export] Instance ActivationPolicy_eq_dec : EqDecision ActivationPolicy.
Proof. solve_decision. Defined.
#[export] Instance MemoryType_eq_dec : EqDecision MemoryType.
Proof. solve_decision. Defined.
#[export] Instance ContradictionState_eq_dec : EqDecision ContradictionState.
Proof. solve_decision. Defined.
#[export] Instance datetime_eq_dec : EqDecision datetime.
Proof. solve_decision. Defined.

(** The members' [.value]. *)
Definition ReviewState_value (s : ReviewState) : string :=
  match s with
  | RS_UNREVIEWED => "unreviewed" | RS_REVIEWED => "reviewed" | RS_ACCEPTED => "accepted"
  | RS_REJECTED => "rejected" | RS_REVISED => "revised"
  end.
Definition ActivationPolicy_value (p : ActivationPolicy) : string :=
  match p with
  | AP_EXPLICIT_ONLY => "explicit_only" | AP_EXPLICIT_OR_CONTEXTUAL => "explicit_or_contextual"
  | AP_ON_RESUME => "on_resume" | AP_REVIEW_QUEUE_ONLY => "review_queue_only"
  | AP_BLOCKED => "blocked"
  end.
Definition MemoryType_value (t : MemoryType) : string :=
  match t with
  | WORKING_CONTEXT => "working_context" | EPISODIC_MEMORY => "episodic_memory"
  | SEMANTIC_MEMORY => "semantic_memory" | PROSPECTIVE_MEMORY => "prospective_memory"
  | PROCEDURAL_MEMORY => "procedural_memory" | PREFERENCE_MEMORY => "preference_memory"
  | POLICY_MEMORY => "policy_memory"
  end.
Definition ContradictionState_value (s : ContradictionState) : string :=
  match s with
  | CS_CLEAR => "clear" | CS_CONTRADICTED => "contradicted" | CS_REVISED => "revised"
  | CS_REJECTED => "rejected"
  end.

Definition MemoryTypes : list MemoryType :=
  [WORKING_CONTEXT; EPISODIC_MEMORY; SEMANTIC_MEMORY; PROSPECTIVE_MEMORY;
   PROCEDURAL_MEMORY; PREFERENCE_MEMORY; POLICY_MEMORY].
(** [MemoryType(value)]; [None] is its [ValueError]. *)
Definition MemoryType_of (value : string) : option MemoryType :=
  List.find (fun t => String.eqb (MemoryType_value t) value) MemoryTypes.

Lemma MemoryType_of_value t : MemoryType_of (MemoryType_value t) = Some t.
Proof. by destruct t. Qed.

(** ** Scope identifiers *)

Definition MEMORY_SCOPE_ID_MAX_LENGTH : nat := 128.

Definition is_alnum_ascii (c : ascii) : bool :=
  let n := code c in
  ((48 <=? n) && (n <=? 57) || (65 <=? n) && (n <=? 90) || (97 <=? n) && (n <=? 122))%N%bool.
Definition is_scope_char (c : ascii) : bool :=
  is_alnum_ascii c || existsb (Ascii.eqb c) ["."; "_"; ":"; "/"; "-"]%char.

Fixpoint all_chars (p : ascii -> bool) (s : string) : bool :=
  match s with EmptyString => true | String c s => p c && all_chars p s end.

(** [_MEMORY_SCOPE_ID_RE.fullmatch(value) is not None]. *)
Definition scope_id_fullmatch (value : string) : bool :=
  match value with
  | EmptyString => false
  | String c s => is_alnum_ascii c && all_chars is_scope_char s
  end.

Definition validated_memory_scope_id (value : pyval) : option string :=
  match value with
  | PStr s =>
      if (MEMORY_SCOPE_ID_MAX_LENGTH <? String.length s)%nat || negb (scope_id_fullmatch s)
      then None else Some s
  | _ => None
  end.

(** ** [MemoryCandidate] *)

Record MemoryCandidate : Type := mkCandidate {
  mc_artifact_class : string;
  mc_candidate_id : string;
  mc_title : string;
  mc_memory_type : MemoryType;
  mc_artifact_type : option string;
  mc_review_state : ReviewState;
  mc_activation_policy : ActivationPolicy;
  mc_inferred : bool;
  mc_source_refs : list string;
  mc_derived_from : option string;
  mc_generated_by : option string;
  mc_scope_id : option string;
  mc_content : option string;
  mc_confidence : option string;
  mc_contradiction_state : ContradictionState;
  mc_correction_of : option string;
  mc_contradiction_notes : option string;
  mc_observed_at : datetime }.

#[export] Instance MemoryCandidate_eq_dec : EqDecision MemoryCandidate.
Proof. solve_decision. Defined.

(** The field constraints of [scope_id]. *)
Definition scope_id_field_ok (scope_id : option string) : bool :=
  match scope_id with
  | None => true
  | Some s => (1 <=? String.length s)%nat && (String.length s <=? MEMORY_SCOPE_ID_MAX_LENGTH)%nat
              && scope_id_fullmatch s
  end.

Definition _enforce_unreviewed_activation_policy (c : MemoryCandidate) : res MemoryCandidate :=
  if bool_decide (mc_review_state c = RS_UNREVIEWED)
     && negb (bool_decide (mc_activation_policy c ∈ [AP_REVIEW_QUEUE_ONLY; AP_BLOCKED]))
  then Raise (ValueError
    "unreviewed candidates must use activation_policy 'review_queue_only' or 'blocked'")
  else Ok c.

(** [MemoryCandidate(...)] with every field given. *)
Definition MemoryCandidate_make (c : MemoryCandidate) : res MemoryCandidate :=
  if negb (scope_id_field_ok (mc_scope_id c)) then Raise (ValueError "scope_id")
  else _enforce_unreviewed_activation_policy c.

(** What construction guarantees of a candidate. *)
Definition candidate_ok (c : MemoryCandidate) : Prop := MemoryCandidate_make c = Ok c.

#[export] Instance candidate_ok_dec c : Decision (candidate_ok c).
Proof. unfold candidate_ok. apply _. Defined.

Lemma MemoryCandidate_make_ok c c' : MemoryCandidate_make c = Ok c' -> c' = c /\ candidate_ok c.
Proof.
  unfold candidate_ok, MemoryCandidate_make, _enforce_unreviewed_activation_policy.
  intros H; split_matches; done.
Qed.

(** [model_dump(mode="json")]. *)
Definition opt_str (o : option string) : pyval :=
  match o with Some s => PStr s | None => PNone end.

(** A scope id accepted by the field is one [validated_memory_scope_id]
    returns, and conversely. *)
Lemma scope_field_validated s :
  scope_id_field_ok (Some s) = true <-> validated_memory_scope_id (PStr s) = Some s.
Proof.
  unfold scope_id_field_ok, validated_memory_scope_id.
  rewrite !andb_true_iff, !Nat.leb_le.
  destruct (Nat.ltb_spec MEMORY_SCOPE_ID_MAX_LENGTH (String.length s)) as [Hl|Hl]; simpl.
  - split; [lia|done].
  - destruct s as [|c s]; simpl; [split; [lia|done]|].
    destruct (is_alnum_ascii c && all_chars is_scope_char s); simpl; split; try done.
    + intros _. simpl in Hl. repeat split; lia.
    + by intros [_ ?].
Qed.
