(* ===== verification/ReviewQueue.v ===== *)
(** * The memory review queue (src/app/agent_memory/review_queue.py)

    Candidates wait here until a reviewer promotes, rejects or revises them.
    The queue is one dict keyed by producing binding and candidate id; a call
    addresses one binding (the scoped view) or, without a binding, the
    compatibility binding and the unstamped entries (the legacy view).

    [Board] is the abstract specification: the queue as one binding is meant
    to see it, a single-tenant board whose entries are either pending or carry
    one verdict.  The refinement theorem shows that, however the calls of all
    bindings interleave, each binding gets the answers of its own board.

    The durable store the queue reconciles with is the class [DecisionReader];
    its contents are an argument of the call that reads it, since other
    callers change it in between.  Each call holds the queue's lock throughout,
    so it is one step. *)
From S2P Require Import Prelude PyValue PyTime Sql MemoryCandidate.

(** app/instance/binding_ids.py *)
Definition COMPATIBILITY_BINDING_ID : string := "legacy-compatibility-binding".

Definition _LEGACY_VIEW_BINDINGS : list (option string) := [Some COMPATIBILITY_BINDING_ID; None].

Abbreviation QueueKey := (option string * string)%type.

Inductive ReviewDecision : Type := PROMOTE | REJECT | REVISE.
Inductive ReviewStatus : Type := PENDING | PROMOTED | REJECTED | REVISED.

#[export] Instance ReviewDecision_eq_dec : EqDecision ReviewDecision.
Proof. solve_decision. Defined.
#[export] Instance ReviewStatus_eq_dec : EqDecision ReviewStatus.
Proof. solve_decision. Defined.

Definition ReviewDecision_value (d : ReviewDecision) : string :=
  match d with PROMOTE => "promote" | REJECT => "reject" | REVISE => "revise" end.

Record ReviewEntry : Type := mkEntry {
  re_candidate : MemoryCandidate;
  re_binding_id : option string;
  re_status : ReviewStatus;
  re_decision : option ReviewDecision;
  re_decided_by : option string;
  re_decided_at : option datetime;
  re_decision_notes : option string;
  re_revision_of : option string }.

#[export] Instance ReviewEntry_eq_dec : EqDecision ReviewEntry.
Proof. solve_decision. Defined.

Definition re_candidate_id (e : ReviewEntry) : string := mc_candidate_id (re_candidate e).
Definition re_scope_id (e : ReviewEntry) : option string := mc_scope_id (re_candidate e).
Definition review_posture (e : ReviewEntry) : string :=
  if bool_decide (re_status e <> PENDING) then "decided"
  else if mc_inferred (re_candidate e) then "inferred" else "asserted".

Definition _DECISION_TO_STATUS (d : ReviewDecision) : ReviewStatus :=
  match d with PROMOTE => PROMOTED | REJECT => REJECTED | REVISE => REVISED end.

(** The durable decision record of review_decision_store.py.  The fields it
    reads from its JSON payload without a check hold any JSON value. *)
Record ReviewDecisionRecord : Type := mkDecision {
  rd_vault_id : string;
  rd_channel : string;
  rd_candidate_id : string;
  rd_outcome : ReviewDecision;
  rd_decided_by : string;
  rd_decided_at : datetime;
  rd_source_refs : list string;
  rd_memory_type : option MemoryType;
  rd_scope_id : pyval;
  rd_receipt_kind : string;
  rd_terminal : bool;
  rd_decision_notes : pyval;
  rd_revision_of : pyval;
  rd_generated_by : pyval;
  rd_derived_from : pyval;
  rd_candidate_digest : pyval;
  rd_materializing : bool;
  rd_materialization_source_binding : option string }.

(** What the queue asks of the durable store, and what it relies on: a record
    that decodes names its reviewer. *)
Class DecisionReader (S V : Type) : Type :=
  get_decision : S -> string -> V -> string -> res (option ReviewDecisionRecord).
Class DecisionReaderSpec (S V : Type) `{!DecisionReader S V} : Prop :=
  get_decision_reviewer s cid v ch r :
    get_decision s cid v ch = Ok (Some r) -> strip (rd_decided_by r) <> "".

(** Validation of an [Optional[str]] field. *)
Definition as_opt_str (v : pyval) : res (option string) :=
  match v with
  | PNone => Ok None
  | PStr s => Ok (Some s)
  | _ => Raise (ValueError "Input should be a valid string")
  end.

Section Queue.
Context {S V : Type} `{!DecisionReader S V}.

Record MemoryCandidateReviewQueue : Type := mkQueue {
  q_entries : list (QueueKey * ReviewEntry);
  q_view_binding : option string;
  q_decision_store : bool;
  q_vault_context : option V;
  q_channel : option string }.

Abbreviation queue := MemoryCandidateReviewQueue.

(** [MemoryCandidateReviewQueue(...)] and [configure_reconciliation]. *)
Definition new_queue (decision_store : bool) (vault_context : option V) (channel : option string)
  : queue := mkQueue [] None decision_store vault_context channel.
Definition configure_reconciliation (decision_store : bool) (vault_context : option V)
    (channel : option string) : ST queue unit :=
  st_modify (fun q => mkQueue (q_entries q) (q_view_binding q) decision_store vault_context channel).

Definition with_entries (l : list (QueueKey * ReviewEntry)) (q : queue) : queue :=
  mkQueue l (q_view_binding q) (q_decision_store q) (q_vault_context q) (q_channel q).
(** [self._entries[key] = entry]. *)
Definition put (k : QueueKey) (e : ReviewEntry) : ST queue unit :=
  st_modify (fun q => with_entries (od_set (q_entries q) k e) q).

Definition has_key (q : queue) (k : QueueKey) : bool :=
  match od_get (q_entries q) k with Some _ => true | None => false end.

Definition _find_key (q : queue) (candidate_id : string) (binding : option string)
  : option QueueKey :=
  match binding with
  | Some _ => if has_key q (binding, candidate_id) then Some (binding, candidate_id) else None
  | None => List.find (has_key q) (map (fun legacy => (legacy, candidate_id)) _LEGACY_VIEW_BINDINGS)
  end.

Definition _in_view (q : queue) (e : ReviewEntry) (binding : option string) : bool :=
  match (match binding with None => q_view_binding q | Some _ => binding end) with
  | Some b => bool_decide (re_binding_id e = Some b)
  | None => bool_decide (re_binding_id e ∈ _LEGACY_VIEW_BINDINGS)
  end.

Definition _reconciled_terminal_entry (store : S) (q : queue) (candidate : MemoryCandidate)
    (binding : option string) : res (option ReviewEntry) :=
  if bool_decide (binding ∉ [None; Some COMPATIBILITY_BINDING_ID]) then Ok None
  else match q_decision_store q, q_vault_context q, q_channel q with
  | true, Some vault_context, Some channel =>
      if String.eqb channel "" then Ok None else
      record ← get_decision store (mc_candidate_id candidate) vault_context channel;
      match record with
      | Some record =>
          if negb (rd_terminal record) then Ok None else
          notes ← as_opt_str (rd_decision_notes record);
          revision_of ← as_opt_str (rd_revision_of record);
          Ok (Some (mkEntry candidate binding (_DECISION_TO_STATUS (rd_outcome record))
            (Some (rd_outcome record)) (Some (rd_decided_by record))
            (Some (rd_decided_at record)) notes revision_of))
      | None => Ok None
      end
  | _, _, _ => Ok None
  end.

(** [model_copy(update={"binding_id": b})]. *)
Definition with_binding (b : option string) (e : ReviewEntry) : ReviewEntry :=
  mkEntry (re_candidate e) b (re_status e) (re_decision e) (re_decided_by e) (re_decided_at e)
    (re_decision_notes e) (re_revision_of e).

Definition pending_entry (c : MemoryCandidate) (b : option string) (revision_of : option string)
  : ReviewEntry := mkEntry c b PENDING None None None None revision_of.

Definition enqueue (store : S) (candidate : MemoryCandidate) (binding : option string)
  : ST queue ReviewEntry :=
  q ← st_get;
  let existing_key := _find_key q (mc_candidate_id candidate) binding in
  reconciled ← st_lift (_reconciled_terminal_entry store q candidate binding);
  match reconciled, existing_key with
  | Some reconciled, Some k => _ ← put k (with_binding (fst k) reconciled); mret reconciled
  | Some reconciled, None => mret reconciled
  | None, Some _ => st_raise (ReviewQueueError "candidate already in queue")
  | None, None =>
      let entry := pending_entry candidate binding None in
      _ ← put (binding, mc_candidate_id candidate) entry;
      mret entry
  end.

Definition queue_get (candidate_id : string) (binding : option string) : ST queue ReviewEntry :=
  q ← st_get;
  match _find_key q candidate_id binding with
  | None => st_raise (ReviewQueueError "no candidate in queue")
  | Some k =>
      match od_get (q_entries q) k with
      | Some e => mret e
      | None => st_raise (KeyError candidate_id)
      end
  end.

Definition entries_where (p : ReviewEntry -> bool) (q : queue) : list ReviewEntry :=
  List.filter p (map snd (q_entries q)).

Definition pending (binding : option string) (q : queue) : list ReviewEntry :=
  entries_where (fun e => bool_decide (re_status e = PENDING) && _in_view q e binding) q.
Definition decided (binding : option string) (q : queue) : list ReviewEntry :=
  entries_where (fun e => bool_decide (re_status e <> PENDING) && _in_view q e binding) q.
Definition recallable_for_working_context (binding : option string) (q : queue)
  : list ReviewEntry :=
  entries_where (fun e => bool_decide (re_status e = PROMOTED) && _in_view q e binding) q.

Definition snapshot_for_binding (binding : string) (q : queue) : queue :=
  mkQueue (foldl (fun acc kv => od_set acc (fst kv) (snd kv)) []
             (List.filter (fun kv => bool_decide (fst (fst kv) = Some binding)) (q_entries q)))
    (Some binding) false None None.

Definition queue_decide (candidate_id : string) (decision : ReviewDecision) (decided_by : string)
    (notes : option string) (revision : option MemoryCandidate) (binding : option string)
    (now : datetime) : ST queue ReviewEntry :=
  _ ← guard_not (String.eqb (strip decided_by) "")
        (ReviewQueueError "decided_by is required to record a review decision");
  entry ← queue_get candidate_id binding;
  _ ← guard_not (bool_decide (re_status entry <> PENDING))
        (ReviewQueueError "candidate already decided");
  _ ← (if bool_decide (decision = REVISE) then
         match revision with
         | None => st_raise (ReviewQueueError "revise requires a revised MemoryCandidate payload")
         | Some revision =>
             q ← st_get;
             match _find_key q (mc_candidate_id revision) binding with
             | Some _ => st_raise (ReviewQueueError "revision candidate id already in queue")
             | None => put (re_binding_id entry, mc_candidate_id revision)
                         (pending_entry revision (re_binding_id entry) (Some candidate_id))
             end
         end
       else mret tt);
  let updated := mkEntry (re_candidate entry) (re_binding_id entry)
    (_DECISION_TO_STATUS decision) (Some decision) (Some decided_by) (Some now) notes
    (re_revision_of entry) in
  _ ← put (re_binding_id entry, candidate_id) updated;
  mret updated.

Definition reset_to_pending (candidate_id : string) (binding : option string)
  : ST queue ReviewEntry :=
  entry ← queue_get candidate_id binding;
  _ ← guard_not (bool_decide (re_decision entry <> Some PROMOTE))
        (ReviewQueueError "only a promote decision can be reset to pending");
  let reverted := pending_entry (re_candidate entry) (re_binding_id entry) (re_revision_of entry) in
  _ ← put (re_binding_id entry, candidate_id) reverted;
  mret reverted.

Definition rollback_persistence_refusal (original : ReviewEntry)
    (revision_candidate_id : option string) : ST queue unit :=
  q ← st_get;
  let k := (re_binding_id original, re_candidate_id original) in
  match od_get (q_entries q) k with
  | None => st_raise (ReviewQueueError "no candidate in queue")
  | Some current =>
      _ ← guard_not (bool_decide (re_status current = PENDING))
            (ReviewQueueError "cannot roll back a pending decision");
      _ ← guard_not (bool_decide (re_status original <> PENDING)
                     || bool_decide (re_decision original <> None))
            (ReviewQueueError "rollback authority is not pending");
      _ ← put k original;
      match revision_candidate_id with
      | Some rid => st_modify (fun q =>
          with_entries (od_pop (q_entries q) (re_binding_id original, rid)) q)
      | None => mret tt
      end
  end.

End Queue.
