(* ===== verification/ReviewBoard.v ===== *)
(** * The review queue refines one board per binding

    The invariant of the queue of [ReviewQueue], the abstract board, and the
    simulation between them.  The queue holds redundant fields (a status, a
    decision, a reviewer and a time) in one dict shared by all bindings; a
    board holds, for one binding, items that are pending or carry one verdict.
    Every property of a board is thereby a property of a binding's view of the
    queue in every interleaving. *)
From Stdlib Require Import Permutation.
From S2P Require Import Prelude PyValue PyTime Sql MemoryCandidate ReviewQueue.

(** ** The abstract specification *)

Record verdict : Type := mkVerdict {
  vd_decision : ReviewDecision;
  vd_by : string;
  vd_at : datetime;
  vd_notes : option string }.

Record item : Type := mkItem {
  it_candidate : MemoryCandidate;
  it_revision_of : option string;
  it_verdict : option verdict }.

#[export] Instance verdict_eq_dec : EqDecision verdict.
Proof. solve_decision. Defined.
#[export] Instance item_eq_dec : EqDecision item.
Proof. solve_decision. Defined.

(** What a call answers: one entry, a list of them, or nothing. *)
Inductive answer (A : Type) : Type :=
  | AOne (a : A)
  | AMany (l : list A)
  | ADone.
Arguments AOne {A} a.
Arguments AMany {A} l.
Arguments ADone {A}.

Definition answer_map {A B} (f : A -> B) (a : answer A) : answer B :=
  match a with AOne a => AOne (f a) | AMany l => AMany (map f l) | ADone => ADone end.

(** The calls on a queue; [S] and [V] are the durable store's contents and the
    vault context. *)
Inductive queue_op (S V : Type) : Type :=
  | QEnqueue (store : S) (candidate : MemoryCandidate) (binding : option string)
  | QDecide (candidate_id : string) (decision : ReviewDecision) (decided_by : string)
      (notes : option string) (revision : option MemoryCandidate) (binding : option string)
      (now : datetime)
  | QReset (candidate_id : string) (binding : option string)
  | QRollback (original : ReviewEntry) (revision_candidate_id : option string)
  | QConfigure (decision_store : bool) (vault_context : option V) (channel : option string)
  | QGet (candidate_id : string) (binding : option string)
  | QPending (binding : option string)
  | QDecided (binding : option string)
  | QRecallable (binding : option string).
Arguments QEnqueue {S V}.
Arguments QDecide {S V}.
Arguments QReset {S V}.
Arguments QRollback {S V}.
Arguments QConfigure {S V}.
Arguments QGet {S V}.
Arguments QPending {S V}.
Arguments QDecided {S V}.
Arguments QRecallable {S V}.

Abbreviation board := (list (string * item)).

Definition is_pending (i : item) : bool := bool_decide (it_verdict i = None).
Definition is_promoted (i : item) : bool :=
  bool_decide (vd_decision <$> it_verdict i = Some PROMOTE).

Section BoardSpec.
Context {S V : Type}.

Definition board_lookup (cid : string) : ST board item :=
  bd ← st_get;
  match dict_get bd cid with
  | Some i => mret i
  | None => st_raise (ReviewQueueError "no candidate in queue")
  end.
Definition board_put (cid : string) (i : item) : ST board unit :=
  st_modify (fun bd => dict_set bd cid i).
Definition board_free (cid : string) (e : exn) : ST board unit :=
  bd ← st_get; guard_not (bool_decide (is_Some (dict_get bd cid))) e.
Definition board_list (p : item -> bool) : ST board (answer item) :=
  bd ← st_get; mret (AMany (List.filter p (map snd bd))).

(** One call on the board of one binding. *)
Definition board_step (op : queue_op S V) : ST board (answer item) :=
  match op with
  | QEnqueue _ c _ =>
      _ ← board_free (mc_candidate_id c) (ReviewQueueError "candidate already in queue");
      let i := mkItem c None None in
      _ ← board_put (mc_candidate_id c) i; mret (AOne i)
  | QDecide cid d by' notes revision _ now =>
      _ ← guard_not (String.eqb (strip by') "")
            (ReviewQueueError "decided_by is required to record a review decision");
      i ← board_lookup cid;
      _ ← guard_not (negb (is_pending i)) (ReviewQueueError "candidate already decided");
      _ ← (if bool_decide (d = REVISE) then
             match revision with
             | None => st_raise (ReviewQueueError "revise requires a revised MemoryCandidate payload")
             | Some c =>
                 _ ← board_free (mc_candidate_id c)
                       (ReviewQueueError "revision candidate id already in queue");
                 board_put (mc_candidate_id c) (mkItem c (Some cid) None)
             end
           else mret tt);
      let i' := mkItem (it_candidate i) (it_revision_of i) (Some (mkVerdict d by' now notes)) in
      _ ← board_put cid i'; mret (AOne i')
  | QReset cid _ =>
      i ← board_lookup cid;
      _ ← guard_not (negb (is_promoted i))
            (ReviewQueueError "only a promote decision can be reset to pending");
      let i' := mkItem (it_candidate i) (it_revision_of i) None in
      _ ← board_put cid i'; mret (AOne i')
  | QRollback original rid =>
      let cid := re_candidate_id original in
      i ← board_lookup cid;
      _ ← guard_not (is_pending i) (ReviewQueueError "cannot roll back a pending decision");
      _ ← guard_not (bool_decide (re_status original <> PENDING))
            (ReviewQueueError "rollback authority is not pending");
      _ ← board_put cid (mkItem (re_candidate original) (re_revision_of original) None);
      _ ← match rid with
          | Some rid => st_modify (fun bd => dict_pop bd rid)
          | None => mret tt
          end;
      mret ADone
  | QConfigure _ _ _ => mret ADone
  | QGet cid _ => i ← board_lookup cid; mret (AOne i)
  | QPending _ => board_list is_pending
  | QDecided _ => board_list (fun i => negb (is_pending i))
  | QRecallable _ => board_list is_promoted
  end.

(** The answers of a sequence of calls, and the board they leave. *)
Fixpoint board_run (ops : list (queue_op S V)) (bd : board) : list (res (answer item)) * board :=
  match ops with
  | [] => ([], bd)
  | op :: ops =>
      let '(r, bd) := board_step op bd in
      let '(rs, bd) := board_run ops bd in (r :: rs, bd)
  end.

(** The binding a call addresses by name; [None] is the legacy view. *)
Definition op_binding (op : queue_op S V) : option string :=
  match op with
  | QEnqueue _ _ b | QDecide _ _ _ _ _ b _ | QReset _ b | QGet _ b
  | QPending b | QDecided b | QRecallable b => b
  | QRollback original _ => re_binding_id original
  | QConfigure _ _ _ => None
  end.
Definition addresses (b : string) (op : queue_op S V) : bool :=
  bool_decide (op_binding op = Some b).
End BoardSpec.

(** ** The invariant of the queue *)

(** The redundant fields of an entry agree, and a decided one names its
    reviewer. *)
Definition entry_ok (e : ReviewEntry) : Prop :=
  match re_decision e with
  | None => re_status e = PENDING /\ re_decided_by e = None /\ re_decided_at e = None /\
            re_decision_notes e = None
  | Some d => re_status e = _DECISION_TO_STATUS d /\
      (exists by', re_decided_by e = Some by' /\ strip by' <> "") /\ is_Some (re_decided_at e)
  end.

Definition keyed_ok (kv : QueueKey * ReviewEntry) : Prop :=
  fst kv = (re_binding_id (snd kv), re_candidate_id (snd kv)) /\ entry_ok (snd kv).

Definition entries_ok (l : list (QueueKey * ReviewEntry)) : Prop :=
  NoDup (map fst l) /\ forall kv, kv ∈ l -> keyed_ok kv.

(** A rollback is given the entry the queue handed out before the decision. *)
Definition op_ok {S V} (op : queue_op S V) : Prop :=
  match op with QRollback original _ => entry_ok original | _ => True end.

Lemma entries_ok_set l k e : entries_ok l -> keyed_ok (k, e) -> entries_ok (od_set l k e).
Proof.
  intros [Hn Hk] He. split.
  - rewrite od_set_keys. case_decide as H; [done|]. apply NoDup_app.
    repeat split; [done| |apply NoDup_singleton].
    intros x Hx ->%list_elem_of_singleton. done.
  - intros kv [->|Hin]%od_set_elem; auto.
Qed.

Lemma entries_ok_pop l k : entries_ok l -> entries_ok (od_pop l k).
Proof.
  intros [Hn Hk]. split; [|intros kv [? _]%od_pop_elem; auto].
  unfold od_pop. clear Hk. induction l as [|[j w] l IH]; simpl in *; [done|].
  apply NoDup_cons in Hn as [Hj Hn]. case_bool_decide; simpl; [auto|].
  apply NoDup_cons. split; [|auto]. intros Hin. apply Hj.
  apply list_elem_of_fmap in Hin as (kv & E & [? _]%od_pop_elem).
  apply list_elem_of_fmap. eauto.
Qed.

Lemma entries_ok_get l k e : entries_ok l -> od_get l k = Some e -> keyed_ok (k, e).
Proof. intros [_ H] E%od_get_elem. by apply H. Qed.

(** ** The abstraction *)

Definition verdict_of (e : ReviewEntry) : option verdict :=
  match re_decision e, re_decided_by e, re_decided_at e with
  | Some d, Some by', Some at' => Some (mkVerdict d by' at' (re_decision_notes e))
  | _, _, _ => None
  end.
Definition item_of (e : ReviewEntry) : item :=
  mkItem (re_candidate e) (re_revision_of e) (verdict_of e).

Fixpoint board_of (b : string) (l : list (QueueKey * ReviewEntry)) : board :=
  match l with
  | [] => []
  | ((b', cid), e) :: l =>
      if decide (b' = Some b) then (cid, item_of e) :: board_of b l else board_of b l
  end.

Lemma board_get b l cid : dict_get (board_of b l) cid = item_of <$> od_get l (Some b, cid).
Proof.
  induction l as [|[[b' c] e] l IH]; simpl; [done|].
  destruct (decide (b' = Some b)) as [->|Hb]; simpl.
  - destruct (String.eqb cid c) eqn:E; bool_prop.
    + subst. by rewrite decide_True.
    + rewrite decide_False by congruence. done.
  - rewrite decide_False by congruence. done.
Qed.

Lemma board_set b l b' cid e :
  board_of b (od_set l (b', cid) e)
  = if decide (b' = Some b) then dict_set (board_of b l) cid (item_of e) else board_of b l.
Proof.
  induction l as [|[[c' c] x] l IH]; simpl; [by case_decide|].
  destruct (decide ((b', cid) = (c', c))) as [[= -> ->]|Hne]; simpl.
  - destruct (decide (c' = Some b)); simpl; [by rewrite String.eqb_refl|done].
  - rewrite IH. destruct (decide (c' = Some b)) as [->|]; [|done].
    destruct (decide (b' = Some b)) as [->|]; simpl; [|done].
    destruct (String.eqb cid c) eqn:E; bool_prop; congruence.
Qed.

Lemma board_pop b l b' cid :
  board_of b (od_pop l (b', cid))
  = if decide (b' = Some b) then dict_pop (board_of b l) cid else board_of b l.
Proof.
  induction l as [|[[c' c] x] l IH]; simpl; [by case_decide|].
  case_bool_decide as Heq; simpl.
  - injection Heq as <- <-. rewrite IH. destruct (decide (b' = Some b)) as [->|]; [|done].
    simpl. by rewrite String.eqb_refl.
  - rewrite IH. destruct (decide (c' = Some b)) as [->|]; [|done].
    destruct (decide (b' = Some b)) as [->|]; [|done]. simpl.
    destruct (String.eqb cid c) eqn:E; bool_prop; congruence.
Qed.

(** Under the invariant the two readings of an entry agree. *)
Lemma entry_pending e :
  entry_ok e -> is_pending (item_of e) = bool_decide (re_status e = PENDING).
Proof.
  unfold entry_ok, is_pending, item_of, verdict_of. simpl. intros H.
  destruct (re_decision e) as [d|].
  - destruct H as (-> & (by' & -> & _) & [at' ->]). by destruct d.
  - destruct H as (-> & _). by rewrite !bool_decide_true.
Qed.

Lemma entry_promoted e :
  entry_ok e -> is_promoted (item_of e) = bool_decide (re_status e = PROMOTED).
Proof.
  unfold entry_ok, is_promoted, item_of, verdict_of. simpl. intros H.
  destruct (re_decision e) as [d|].
  - destruct H as (-> & (by' & -> & _) & [at' ->]). by destruct d.
  - destruct H as (-> & _). done.
Qed.

Lemma entry_promote_decision e :
  entry_ok e -> is_promoted (item_of e) = bool_decide (re_decision e = Some PROMOTE).
Proof.
  unfold entry_ok, is_promoted, item_of, verdict_of. simpl. intros H.
  destruct (re_decision e) as [d|]; [|done].
  destruct H as (_ & (by' & -> & _) & [at' ->]). by destruct d.
Qed.

(** A pending item is all there is to a pending entry. *)
Lemma pending_item e :
  entry_ok e -> re_status e = PENDING -> re_decision e = None ->
  item_of e = mkItem (re_candidate e) (re_revision_of e) None.
Proof. intros _ _ H. unfold item_of, verdict_of. by rewrite H. Qed.

Lemma board_filter b l (p : ReviewEntry -> bool) (p' : item -> bool) :
  (forall kv, kv ∈ l -> keyed_ok kv) ->
  (forall e, entry_ok e -> p' (item_of e) = p e) ->
  map item_of (List.filter (fun e => p e && bool_decide (re_binding_id e = Some b)) (map snd l))
  = List.filter p' (map snd (board_of b l)).
Proof.
  intros Hl Hp. induction l as [|[[b' cid] e] l IH]; simpl; [done|].
  destruct (Hl ((b', cid), e)) as [[= -> _] He]; [by left|].
  specialize (IH (fun kv H => Hl kv (list_elem_of_further _ _ _ H))).
  destruct (decide (re_binding_id e = Some b)) as [E|E].
  - rewrite bool_decide_true, andb_true_r by done. simpl. rewrite (Hp e He).
    destruct (p e); simpl; by rewrite IH.
  - rewrite bool_decide_false, andb_false_r by done. done.
Qed.

Section Refinement.
Context {S V : Type} `{!DecisionReader S V}.
Abbreviation queue := (MemoryCandidateReviewQueue (V:=V)).

Definition queue_list (f : queue -> list ReviewEntry) : ST queue (answer ReviewEntry) :=
  q ← st_get; mret (AMany (f q)).

(** One call on the queue. *)
Definition queue_step (op : queue_op S V) : ST queue (answer ReviewEntry) :=
  match op with
  | QEnqueue store c b => e ← enqueue store c b; mret (AOne e)
  | QDecide cid d by' notes revision b now =>
      e ← queue_decide cid d by' notes revision b now; mret (AOne e)
  | QReset cid b => e ← reset_to_pending cid b; mret (AOne e)
  | QRollback original rid => _ ← rollback_persistence_refusal original rid; mret ADone
  | QConfigure ds vc ch => _ ← configure_reconciliation ds vc ch; mret ADone
  | QGet cid b => e ← queue_get cid b; mret (AOne e)
  | QPending b => queue_list (pending b)
  | QDecided b => queue_list (decided b)
  | QRecallable b => queue_list (recallable_for_working_context b)
  end.

(** The answers to the calls that address [b], in a run of all calls. *)
Fixpoint queue_run (b : string) (ops : list (queue_op S V)) (q : queue)
  : list (res (answer ReviewEntry)) * queue :=
  match ops with
  | [] => ([], q)
  | op :: ops =>
      let '(r, q) := queue_step op q in
      let '(rs, q) := queue_run b ops q in
      (if addresses b op then r :: rs else rs, q)
  end.

Lemma find_key_some (q : queue) cid binding k :
  _find_key q cid binding = Some k ->
  snd k = cid /\ is_Some (od_get (q_entries q) k) /\
  match binding with Some _ => fst k = binding | None => fst k ∈ _LEGACY_VIEW_BINDINGS end.
Proof.
  unfold _find_key. destruct binding as [b|]; intros H.
  - unfold has_key in H. destruct (od_get (q_entries q) (Some b, cid)) eqn:E; simplify_eq/=.
    eauto.
  - apply List.find_some in H as [Hin Hk]. apply in_map_iff in Hin as (b & <- & Hb).
    apply list_elem_of_In in Hb. unfold has_key in Hk.
    destruct (od_get (q_entries q) (b, cid)) eqn:E; [|done]. cbn [fst snd]. eauto.
Qed.

Lemma find_key_scoped (q : queue) cid b :
  _find_key q cid (Some b)
  = match od_get (q_entries q) (Some b, cid) with Some _ => Some (Some b, cid) | None => None end.
Proof. unfold _find_key, has_key. by destruct (od_get _ _). Qed.

Lemma find_key_none (q : queue) cid binding b :
  _find_key q cid binding = None ->
  match binding with Some _ => b = binding | None => b ∈ _LEGACY_VIEW_BINDINGS end ->
  od_get (q_entries q) (b, cid) = None.
Proof.
  unfold _find_key. destruct binding as [b'|].
  - unfold has_key. destruct (od_get _ _) eqn:E; [done|]. by intros _ ->.
  - intros H Hin. assert (has_key q (b, cid) = false) as Hk.
    { eapply (List.find_none _ _ H), in_map_iff. exists b. split; [done|]. by apply list_elem_of_In. }
    unfold has_key in Hk. by destruct (od_get _ _).
Qed.

Lemma queue_get_ok cid binding (q : queue) r q' :
  queue_get cid binding q = (r, q') ->
  q' = q /\
  match r with
  | Ok e => exists k, _find_key q cid binding = Some k /\ od_get (q_entries q) k = Some e
  | Raise _ => True
  end.
Proof.
  unfold queue_get, mbind, ST_bind, st_get.
  destruct (_find_key q cid binding) as [k|] eqn:Ek; [|by intros [= <- <-]].
  destruct (od_get (q_entries q) k) eqn:E; intros [= <- <-]; eauto.
Qed.

(** A decided entry that was read has the key it is written back to. *)
Lemma queue_get_key cid binding (q : queue) e q' :
  entries_ok (q_entries q) -> queue_get cid binding q = (Ok e, q') ->
  q' = q /\ re_candidate_id e = cid /\ entry_ok e /\
  od_get (q_entries q) (re_binding_id e, cid) = Some e /\
  match binding with
  | Some _ => re_binding_id e = binding
  | None => re_binding_id e ∈ _LEGACY_VIEW_BINDINGS
  end.
Proof.
  intros Hq [-> (k & Hk & He)]%queue_get_ok.
  destruct (entries_ok_get _ _ _ Hq He) as [Ek Hok]. simpl in Ek, Hok.
  apply find_key_some in Hk as (<- & _ & Hb). rewrite Ek in *. simpl in *. by destruct binding.
Qed.

Lemma queue_get_raise cid binding (q : queue) e q' :
  queue_get cid binding q = (Raise e, q') -> e = ReviewQueueError "no candidate in queue".
Proof.
  unfold queue_get, mbind, ST_bind, st_get. destruct (_find_key q cid binding) as [k|] eqn:Ek.
  - apply find_key_some in Ek as (_ & [x Hx] & _). by rewrite Hx.
  - by intros [= <- _].
Qed.

(** The entry a decision writes, and the revision it enqueues. *)
Definition decided_entry (o : ReviewEntry) (d : ReviewDecision) (by' : string) (notes : option string)
    (now : datetime) : ReviewEntry :=
  mkEntry (re_candidate o) (re_binding_id o) (_DECISION_TO_STATUS d) (Some d) (Some by') (Some now) notes
    (re_revision_of o).
Definition with_revision (o : ReviewEntry) (cid : string) (d : ReviewDecision)
    (rev : option MemoryCandidate) (l : list (QueueKey * ReviewEntry)) : list (QueueKey * ReviewEntry) :=
  match rev with
  | Some rc => if decide (d = REVISE)
               then od_set l (re_binding_id o, mc_candidate_id rc)
                      (pending_entry rc (re_binding_id o) (Some cid))
               else l
  | None => l
  end.

Lemma queue_decide_inv cid d by' notes rev binding now (q : queue) o r q' :
  queue_get cid binding q = (Ok o, q) ->
  queue_decide cid d by' notes rev binding now q = (r, q') ->
  match r with
  | Raise e => q' = q /\ exists m, e = ReviewQueueError m
  | Ok e => strip by' <> "" /\ re_status o = PENDING /\ e = decided_entry o d by' notes now /\
      q' = with_entries (od_set (with_revision o cid d rev (q_entries q)) (re_binding_id o, cid) e) q /\
      (d = REVISE -> exists rc, rev = Some rc /\ _find_key q (mc_candidate_id rc) binding = None)
  end.
Proof.
  intros Hg. unfold queue_decide, guard_not, mbind, ST_bind.
  destruct (String.eqb_spec (strip by') "") as [Hb|Hb]; [intros [= <- <-]; eauto|].
  unfold mret, ST_ret. rewrite Hg. case_bool_decide as Hs; [intros [= <- <-]; eauto|].
  assert (Hp : re_status o = PENDING) by (destruct (decide (re_status o = PENDING)); tauto).
  unfold with_revision, decided_entry. case_bool_decide as Hd.
  - destruct rev as [rc|]; [|intros [= <- <-]; eauto]. unfold st_get.
    destruct (_find_key q (mc_candidate_id rc) binding) eqn:Ek; intros [= <- <-]; [eauto|].
    rewrite decide_True by done. repeat split; eauto.
  - intros [= <- <-]. repeat split; try done. destruct rev; [by rewrite decide_False|done].
Qed.

(** A refused call changes nothing. *)
Lemma queue_step_raise op (q : queue) e q' : queue_step op q = (Raise e, q') -> q' = q.
Proof.
  destruct op; simpl; unfold enqueue, queue_decide, reset_to_pending, rollback_persistence_refusal,
    configure_reconciliation, queue_list, queue_get, put, guard_not, mbind, ST_bind, st_get, st_lift,
    st_modify, st_raise, mret, ST_ret; intros H; split_matches; done.
Qed.

Context `{!DecisionReaderSpec S V}.

Lemma reconciled_entry_ok store (q : queue) c binding e :
  _reconciled_terminal_entry store q c binding = Ok (Some e) ->
  entry_ok e /\ re_candidate e = c /\ re_binding_id e = binding /\
  (binding = None \/ binding = Some COMPATIBILITY_BINDING_ID).
Proof.
  unfold _reconciled_terminal_entry. case_bool_decide as Hb; [done|].
  assert (binding = None \/ binding = Some COMPATIBILITY_BINDING_ID) as D by (apply elem_of_cons in Hb as [->|Hb%list_elem_of_singleton]; auto).
  destruct (q_decision_store q); [|done]. destruct (q_vault_context q) as [v|]; [|done].
  destruct (q_channel q) as [ch|]; [|done]. destruct (String.eqb ch ""); [done|].
  intros (r & Hr & H)%bind_ok. destruct r as [r|]; [|done].
  destruct (rd_terminal r); [simpl in H|done].
  apply bind_ok in H as (n & _ & (ro & _ & [= <-])%bind_ok). simpl. split; [|done].
  unfold entry_ok. simpl. repeat split; eauto using get_decision_reviewer.
Qed.

(** *** What a call writes *)

(** [entries[k] = e] or [entries.pop(k, None)]. *)
Definition apply_write (l : list (QueueKey * ReviewEntry)) (w : QueueKey * option ReviewEntry) :=
  match snd w with Some e => od_set l (fst w) e | None => od_pop l (fst w) end.

Definition in_scope (binding : option string) (k : QueueKey) : Prop :=
  match binding with Some _ => fst k = binding | None => fst k ∈ _LEGACY_VIEW_BINDINGS end.

Definition write_ok (binding : option string) (w : QueueKey * option ReviewEntry) : Prop :=
  in_scope binding (fst w) /\ match snd w with Some e => keyed_ok (fst w, e) | None => True end.

(** The entries [l'] come from [l] by writes within the addressed view that
    respect the invariant. *)
Definition written (binding : option string) (l l' : list (QueueKey * ReviewEntry)) : Prop :=
  exists ws, l' = foldl apply_write l ws /\ Forall (write_ok binding) ws.

Lemma written_none binding l : written binding l l.
Proof. by exists []. Qed.
Lemma written_set binding l l' k e :
  written binding l l' -> in_scope binding k -> keyed_ok (k, e) -> written binding l (od_set l' k e).
Proof.
  intros (ws & -> & Hw) Hk He. exists (ws ++ [(k, Some e)]). rewrite foldl_app.
  split; [done|]. apply Forall_app. split; [done|]. apply Forall_singleton. by split.
Qed.
Lemma written_pop binding l l' k :
  written binding l l' -> in_scope binding k -> written binding l (od_pop l' k).
Proof.
  intros (ws & -> & Hw) Hk. exists (ws ++ [(k, None)]). rewrite foldl_app.
  split; [done|]. apply Forall_app. split; [done|]. apply Forall_singleton. by split.
Qed.

Lemma written_ok binding l l' : entries_ok l -> written binding l l' -> entries_ok l'.
Proof.
  intros Hl (ws & -> & Hw). revert l Hl. induction Hw as [|[k [e|]] ws [_ Hk] _ IH];
    intros l Hl; simpl; [done| |]; apply IH; [by apply entries_ok_set|by apply entries_ok_pop].
Qed.

Lemma enqueue_writes store c binding (q : queue) e q' :
  enqueue store c binding q = (Ok e, q') ->
  entry_ok e /\ written binding (q_entries q) (q_entries q').
Proof.
  unfold enqueue. intros E. run E as q0 q2 Eg. injection Eg as <- <-.
  run E as rc q2 Er. apply st_lift_ok in Er as [Er ->]. destruct rc as [e'|].
  - destruct (reconciled_entry_ok _ _ _ _ _ Er) as (Hok & Hc & Hb & _).
    destruct (_find_key q (mc_candidate_id c) binding) as [k|] eqn:Ek; injection E as <- <-;
      [|eauto using written_none].
    apply find_key_some in Ek as (Hs & _ & Hk). split; [done|].
    apply written_set; [apply written_none|done|]. split; [|done].
    unfold re_candidate_id. simpl. rewrite Hc, <- Hs. by destruct k.
  - destruct (_find_key q (mc_candidate_id c) binding) as [k|]; [done|]. injection E as <- <-.
    split; [done|]. apply written_set; [apply written_none| |done].
    destruct binding; [done|]. by right; left.
Qed.

Lemma decide_writes cid d by' notes rev binding now (q : queue) e q' :
  entries_ok (q_entries q) -> queue_decide cid d by' notes rev binding now q = (Ok e, q') ->
  entry_ok e /\ written binding (q_entries q) (q_entries q').
Proof.
  unfold queue_decide. intros Hq E. run E as u q2 Eg. apply guard_not_ok in Eg as [Hby ->]. bool_prop.
  run E as x q2 Ex. destruct (queue_get_key _ _ _ _ _ Hq Ex) as (-> & Hid & Hx & _ & Hsc).
  run E as u2 q3 Eg. apply guard_not_ok in Eg as [Hst ->].
  run E as u3 q4 Er. injection E as <- <-. cbn [q_entries].
  split; [by unfold entry_ok; simpl; eauto 8|].
  apply written_set; [|done|split; [by rewrite <- Hid|unfold entry_ok; simpl; eauto 8]].
  case_bool_decide; [|injection Er as <- <-; apply written_none].
  destruct rev as [rc|]; [|done]. run Er as q0 q5 Eg. injection Eg as <- <-.
  destruct (_find_key q _ binding); [done|]. injection Er as <- <-.
  by apply written_set; [apply written_none| |].
Qed.

Lemma reset_writes cid binding (q : queue) e q' :
  entries_ok (q_entries q) -> reset_to_pending cid binding q = (Ok e, q') ->
  entry_ok e /\ written binding (q_entries q) (q_entries q').
Proof.
  unfold reset_to_pending. intros Hq E.
  run E as x q2 Ex. destruct (queue_get_key _ _ _ _ _ Hq Ex) as (-> & Hid & Hx & _ & Hsc).
  run E as u2 q3 Eg. apply guard_not_ok in Eg as [Hst ->]. injection E as <- <-.
  split; [done|]. apply written_set; [apply written_none|done|]. split; [by rewrite <- Hid|done].
Qed.

Lemma rollback_writes o rid (q : queue) u q' :
  entry_ok o -> rollback_persistence_refusal o rid q = (Ok u, q') ->
  written (re_binding_id o) (q_entries q) (q_entries q').
Proof.
  unfold rollback_persistence_refusal. intros Ho E. run E as q0 q2 Eg. injection Eg as <- <-.
  destruct (od_get (q_entries q) _) as [cur|]; [|done].
  run E as u1 q3 Eg. apply guard_not_ok in Eg as [_ ->].
  run E as u2 q3 Eg. apply guard_not_ok in Eg as [_ ->].
  run E as u3 q3 Ep. injection Ep as <- <-.
  assert (Hs : forall c, in_scope (re_binding_id o) (re_binding_id o, c))
    by (intros c; unfold in_scope; destruct (re_binding_id o); [done|by right; left]).
  assert (written (re_binding_id o) (q_entries q)
            (od_set (q_entries q) (re_binding_id o, re_candidate_id o) o))
    by (apply written_set; [apply written_none|apply Hs|done]).
  destruct rid; injection E as <- <-; [by apply written_pop|done].
Qed.

Lemma queue_step_writes op (q : queue) r q' :
  entries_ok (q_entries q) -> op_ok op -> queue_step op q = (Ok r, q') ->
  match r with AOne e => entry_ok e | _ => True end /\
  written (op_binding op) (q_entries q) (q_entries q').
Proof.
  intros Hq Hop H.
  destruct op as [store c b|cid d by' notes rev b now|cid b|o rid|ds vc ch|cid b|b|b|b]; simpl in H;
    [run H as e q1 E|run H as e q1 E|run H as e q1 E|run H as u q1 E| |run H as e q1 E| | |];
    injection H as <- <-; simpl; try (split; [done|apply written_none]).
  - by eapply enqueue_writes.
  - by eapply decide_writes.
  - by eapply reset_writes.
  - split; [done|]. by eapply rollback_writes.
  - destruct (queue_get_key _ _ _ _ _ Hq E) as (-> & _ & ? & _). eauto using written_none.
Qed.

Lemma queue_step_ok op (q : queue) r q' :
  entries_ok (q_entries q) -> op_ok op -> queue_step op q = (r, q') -> entries_ok (q_entries q').
Proof.
  intros Hq Hop H. destruct r as [a|e].
  - apply queue_step_writes in H as [_ H]; [|done..]. by eapply written_ok.
  - by rewrite (queue_step_raise _ _ _ _ H).
Qed.

(** ** The simulation *)

Section OneBinding.
Context (b : string) (Hb : b <> COMPATIBILITY_BINDING_ID).

Lemma not_legacy x : x ∈ _LEGACY_VIEW_BINDINGS -> x <> Some b.
Proof.
  unfold _LEGACY_VIEW_BINDINGS. rewrite elem_of_cons, list_elem_of_singleton. intros [->| ->]; congruence.
Qed.

(** A call for another binding, or on the legacy view, leaves the board alone. *)
Lemma foreign_written binding l l' :
  binding <> Some b -> written binding l l' -> board_of b l' = board_of b l.
Proof.
  intros Hne (ws & -> & Hw). revert l. induction Hw as [|[[kb kc] e] ws [Hk _] _ IH];
    intros l; simpl; [done|].
  assert (kb <> Some b)
    by (destruct binding; simpl in Hk; [congruence|by apply not_legacy]).
  rewrite IH. unfold apply_write. simpl. destruct e; by rewrite ?board_set, ?board_pop, decide_False.
Qed.

(** Reading an entry of [b] reads its item. *)
Lemma get_refines cid (q : queue) :
  board_lookup cid (board_of b (q_entries q))
  = (item_of <$> fst (queue_get cid (Some b) q), board_of b (q_entries q))
  /\ snd (queue_get cid (Some b) q) = q.
Proof.
  unfold board_lookup, queue_get, mbind, ST_bind, st_get.
  rewrite find_key_scoped, board_get. destruct (od_get _ _) as [e|] eqn:E; simpl; [|done].
  by rewrite E.
Qed.

Lemma list_refines (q : queue) f p (p' : item -> bool) :
  entries_ok (q_entries q) -> (forall e, entry_ok e -> p' (item_of e) = p e) ->
  f q = List.filter (fun e => p e && bool_decide (re_binding_id e = Some b)) (map snd (q_entries q)) ->
  board_list p' (board_of b (q_entries q))
  = (answer_map item_of <$> fst (queue_list f q), board_of b (q_entries q)).
Proof.
  intros [_ Hq] Hp Hf. unfold board_list, queue_list, mbind, ST_bind, st_get, mret, ST_ret. simpl.
  by rewrite Hf, <- (board_filter b _ p p').
Qed.

(** [r] and [q'] are what the board answers and becomes. *)
Definition refines (op : queue_op S V) (q : queue) (r : res (answer ReviewEntry)) (q' : queue)
  : Prop := board_step op (board_of b (q_entries q)) = (answer_map item_of <$> r, board_of b (q_entries q')).

Lemma free_refines cid x (q : queue) :
  board_free cid x (board_of b (q_entries q))
  = (match od_get (q_entries q) (Some b, cid) with Some _ => Raise x | None => Ok tt end,
     board_of b (q_entries q)).
Proof.
  unfold board_free, mbind, ST_bind, st_get, guard_not. rewrite board_get.
  by destruct (od_get _ _).
Qed.

Lemma enqueue_refines store c (q : queue) r q' :
  queue_step (QEnqueue store c (Some b)) q = (r, q') ->
  refines (QEnqueue store c (Some b)) q r q'.
Proof.
  unfold refines. cbn [queue_step board_step]. unfold enqueue.
  unfold mbind, ST_bind. rewrite free_refines.
  unfold st_get, st_lift, _reconciled_terminal_entry.
  rewrite bool_decide_true.
  2: { rewrite !not_elem_of_cons. repeat split; [done|congruence|apply not_elem_of_nil]. }
  rewrite find_key_scoped. destruct (od_get (q_entries q) _); intros [= <- <-]; [done|].
  cbn. by rewrite board_set, decide_True.
Qed.

Lemma decide_refines cid d by' notes rev now (q : queue) r q' :
  entries_ok (q_entries q) ->
  queue_step (QDecide cid d by' notes rev (Some b) now) q = (r, q') ->
  refines (QDecide cid d by' notes rev (Some b) now) q r q'.
Proof.
  intros Hq. unfold refines. cbn [queue_step board_step]. unfold queue_decide.
  unfold guard_not. destruct (String.eqb (strip by') ""); [by intros [= <- <-]|].
  destruct (get_refines cid q) as [Hl Hs].
  unfold mbind, ST_bind in *. cbn [mret ST_ret]. unfold mret, ST_ret. rewrite Hl.
  destruct (queue_get cid (Some b) q) as [[x|x] q1] eqn:Eg; simpl in Hs; subst q1;
    [|by intros [= <- <-]].
  destruct (queue_get_key _ _ _ _ _ Hq Eg) as (_ & Hid & Hx & _ & Hxb).
  cbn [fst fmap res_fmap]. rewrite (entry_pending _ Hx), <- bool_decide_not.
  case_bool_decide; [by intros [= <- <-]|].
  assert (P : forall l : list (QueueKey * ReviewEntry), board_of b (od_set l (re_binding_id x, cid)
      (mkEntry (re_candidate x) (re_binding_id x) (_DECISION_TO_STATUS d) (Some d) (Some by')
         (Some now) notes (re_revision_of x)))
    = dict_set (board_of b l) cid
        (mkItem (re_candidate x) (re_revision_of x) (Some (mkVerdict d by' now notes))))
    by (intros l; by rewrite board_set, decide_True).
  case_bool_decide; [|intros [= <- <-]; cbn; by rewrite P].
  destruct rev as [rc|]; [|by intros [= <- <-]]. rewrite free_refines. unfold st_get.
  rewrite find_key_scoped. destruct (od_get (q_entries q) (Some b, mc_candidate_id rc));
    intros [= <- <-]; [done|]. cbn. by rewrite P, board_set, decide_True.
Qed.

Lemma reset_refines cid (q : queue) r q' :
  entries_ok (q_entries q) -> queue_step (QReset cid (Some b)) q = (r, q') ->
  refines (QReset cid (Some b)) q r q'.
Proof.
  intros Hq. unfold refines. cbn [queue_step board_step]. unfold reset_to_pending.
  destruct (get_refines cid q) as [Hl Hs].
  unfold mbind, ST_bind in *. rewrite Hl.
  destruct (queue_get cid (Some b) q) as [[x|x] q1] eqn:Eg; simpl in Hs; subst q1;
    [|by intros [= <- <-]].
  destruct (queue_get_key _ _ _ _ _ Hq Eg) as (_ & Hid & Hx & _ & Hxb).
  cbn [fst fmap res_fmap]. rewrite (entry_promote_decision _ Hx), <- bool_decide_not.
  unfold guard_not. case_bool_decide; intros [= <- <-]; [done|].
  cbn. by rewrite board_set, decide_True.
Qed.

Lemma rollback_refines o rid (q : queue) r q' :
  entries_ok (q_entries q) -> entry_ok o -> re_binding_id o = Some b ->
  queue_step (QRollback o rid) q = (r, q') -> refines (QRollback o rid) q r q'.
Proof.
  intros Hq Ho Hob. unfold refines. cbn [queue_step board_step].
  unfold rollback_persistence_refusal, board_lookup, mbind, ST_bind, st_get.
  rewrite Hob, board_get. destruct (od_get (q_entries q) _) as [x|] eqn:E; [|by intros [= <- <-]].
  destruct (entries_ok_get _ _ _ Hq E) as [_ Hx]. simpl in Hx.
  cbn [fmap option_fmap option_map mret ST_ret]. unfold mret, ST_ret. rewrite (entry_pending _ Hx).
  unfold guard_not. case_bool_decide; [by intros [= <- <-]|].
  unfold entry_ok in Ho.
  destruct (re_decision o) as [d|] eqn:Ed; [destruct d, Ho as (Hst & _); rewrite Hst; by intros [= <- <-]|].
  destruct Ho as (Hst & _). rewrite Hst. cbn -[board_of od_set od_pop dict_set dict_pop].
  assert (I : item_of o = mkItem (re_candidate o) (re_revision_of o) None)
    by (unfold item_of, verdict_of; by rewrite Ed).
  destruct rid; intros [= <- <-]; cbn -[board_of od_set od_pop dict_set dict_pop];
    by rewrite ?board_pop, ?board_set, ?decide_True, I by done.
Qed.

(** A call for [b] answers and moves as the board does. *)
Lemma own_step op (q : queue) r q' :
  entries_ok (q_entries q) -> op_ok op -> op_binding op = Some b -> queue_step op q = (r, q') ->
  refines op q r q'.
Proof.
  intros Hq Hop Hb' H.
  destruct op as [store c bd|cid d by' notes rev bd now|cid bd|o rid|ds vc ch|cid bd|bd|bd|bd];
    simpl in Hb'; try subst bd;
    eauto using enqueue_refines, decide_refines, reset_refines, rollback_refines; try done;
    unfold refines; cbn [queue_step board_step] in *.
  - unfold mbind, ST_bind in *. destruct (get_refines cid q) as [-> Hs].
    destruct (queue_get cid (Some b) q) as [[e|e] q1]; simpl in Hs; subst q1;
      by injection H as <- <-.
  - rewrite (list_refines q (pending (Some b)) (fun e => bool_decide (re_status e = PENDING)));
      auto using entry_pending. by injection H as <- <-.
  - rewrite (list_refines q (decided (Some b)) (fun e => bool_decide (re_status e <> PENDING)));
      [by injection H as <- <-|done| |done].
    intros e He. by rewrite entry_pending, <- bool_decide_not.
  - rewrite (list_refines q (recallable_for_working_context (Some b))
      (fun e => bool_decide (re_status e = PROMOTED))); auto using entry_promoted.
    by injection H as <- <-.
Qed.
End OneBinding.

(** C32: bindings other than the compatibility binding do not see each other.
    However the calls of all bindings and of the legacy view interleave on the
    shared queue, such a binding gets exactly the answers, errors included, that
    a board of its own would give to its calls alone, and its part of the queue
    is that board's state.  The compatibility binding is left out: its enqueues
    consult the decision store ([_reconciled_terminal_entry]) and calls without a
    binding act on its entries.  The queue starts well formed (an empty one is)
    and a rollback is given an entry the queue handed out. *)
Theorem queue_refines_board b ops (q : queue) :
  b <> COMPATIBILITY_BINDING_ID -> entries_ok (q_entries q) -> Forall op_ok ops ->
  board_run (List.filter (addresses b) ops) (board_of b (q_entries q))
  = (map (fmap (answer_map item_of)) (fst (queue_run b ops q)),
     board_of b (q_entries (snd (queue_run b ops q)))).
Proof.
  intros Hb. revert q. induction ops as [|op ops IH]; intros q Hq Ho; [done|].
  apply Forall_cons in Ho as [Ho Hos]. cbn [queue_run List.filter].
  destruct (queue_step op q) as [r q1] eqn:E.
  pose proof (queue_step_ok _ _ _ _ Hq Ho E) as Hq1. specialize (IH q1 Hq1 Hos).
  destruct (queue_run b ops q1) as [rs q2]. cbn [fst snd] in *.
  destruct (addresses b op) eqn:Hop; unfold addresses in Hop; bool_prop.
  - cbn [board_run]. by rewrite (own_step b Hb _ _ _ _ Hq Ho Hop E), IH.
  - rewrite <- IH. f_equal. destruct r as [a|e].
    + apply queue_step_writes in E as [_ E]; [|done..]. symmetry. by eapply foreign_written.
    + by rewrite (queue_step_raise _ _ _ _ E).
Qed.

Definition queue_after (ops : list (queue_op S V)) (q : queue) : queue :=
  foldl (fun q op => snd (queue_step op q)) q ops.

Lemma queue_after_ok ops (q : queue) :
  entries_ok (q_entries q) -> Forall op_ok ops -> entries_ok (q_entries (queue_after ops q)).
Proof.
  intros Hq Ho. revert q Hq. induction Ho as [|op ops Hop _ IH]; intros q Hq; [done|].
  simpl. apply IH. destruct (queue_step op q) as [r q1] eqn:E. by eapply queue_step_ok.
Qed.

Lemma entries_ok_nil : entries_ok [].
Proof. split; [constructor|]. intros kv H. by apply elem_of_nil in H. Qed.

(** In every queue that calls can produce, an entry offered for recall
    into working context carries a promote decision by a named reviewer and
    its time; entries that are pending, rejected or revised are never
    offered, and an entry of another binding is not. *)
Theorem recallable_was_promoted ds vc ch ops b e :
  Forall op_ok ops ->
  e ∈ recallable_for_working_context (Some b) (queue_after ops (new_queue ds vc ch)) ->
  re_status e = PROMOTED /\ re_decision e = Some PROMOTE /\ re_binding_id e = Some b /\
  (exists by', re_decided_by e = Some by' /\ strip by' <> "") /\ is_Some (re_decided_at e).
Proof.
  intros Ho He. pose proof (queue_after_ok ops (new_queue ds vc ch) entries_ok_nil Ho) as [_ Hk].
  unfold recallable_for_working_context, entries_where in He.
  apply list_elem_of_In, filter_In in He as [Hin He]. bool_prop.
  match goal with H : _in_view _ _ _ = true |- _ => apply bool_decide_eq_true in H end.
  apply in_map_iff in Hin as (kv & <- & Hin%list_elem_of_In). apply Hk in Hin as [_ Hok].
  unfold entry_ok in Hok. destruct (re_decision (snd kv)) as [d|]; [|destruct Hok; congruence].
  destruct Hok as (Hst & Hby & Hat). destruct d; simpl in Hst; [by eauto|congruence..].
Qed.

Lemma rollback_restores cid d by' notes rev binding now (q : queue) o e q1 :
  entries_ok (q_entries q) ->
  queue_get cid binding q = (Ok o, q) ->
  queue_decide cid d by' notes rev binding now q = (Ok e, q1) ->
  rollback_persistence_refusal o (if decide (d = REVISE) then mc_candidate_id <$> rev else None) q1
  = (Ok tt, q).
Proof.
  intros Hq Hg E. destruct (queue_get_key _ _ _ _ _ Hq Hg) as (_ & Hid & Ho & Hget & Hsc).
  unfold queue_decide in E. run E as u q2 Eg. apply guard_not_ok in Eg as [Hby ->].
  rewrite (st_run _ _ _ _ _ Hg) in E. run E as u2 q3 Eg. apply guard_not_ok in Eg as [Hst ->].
  run E as u3 q4 Er. injection E as <- <-. apply bool_decide_eq_false in Hst.
  assert (re_status o = PENDING) as Hp by (destruct (decide (re_status o = PENDING)); tauto).
  assert (re_decision o = None) as Hd.
  { unfold entry_ok in Ho. destruct (re_decision o) as [x|]; [|done].
    destruct Ho as [H _]. rewrite Hp in H. by destruct x. }
  unfold rollback_persistence_refusal, mbind, ST_bind, st_get, guard_not. cbn [q_entries with_entries].
  rewrite Hid, od_get_set, decide_True by done. cbn [re_status]. rewrite Hp, Hd.
  rewrite (bool_decide_false (_ = PENDING)) by (by destruct d).
  rewrite (bool_decide_false (PENDING <> PENDING)) by tauto. cbn -[od_set od_pop].
  rewrite od_set_set.
  destruct (decide (d = REVISE)) as [->|Hd'].
  - rewrite bool_decide_true in Er by done. destruct rev as [rc|]; [|done].
    run Er as q0 q5 Eg. injection Eg as <- <-.
    destruct (_find_key q (mc_candidate_id rc) binding) as [|] eqn:Ek; [done|].
    injection Er as <- <-. cbn [fmap option_fmap option_map q_entries with_entries].
    pose proof (find_key_none _ _ _ _ Ek Hsc) as Hfree.
    rewrite (od_set_new _ _ _ Hfree), od_set_app by eauto. rewrite (od_set_get _ _ _ Hget).
    unfold st_modify, with_entries. cbn [q_entries]. rewrite od_pop_new by done. by destruct q.
  - rewrite bool_decide_false in Er by done. injection Er as <- <-.
    rewrite od_set_get by done. by destruct q.
Qed.

(** When the durable store refuses a decision, the rollback restores the
    queue exactly: the entries and their order are those before [decide], and
    the revision it had enqueued is gone. *)
Theorem rollback_undoes_decide cid d by' notes rev binding now (q : queue) o e q1 :
  entries_ok (q_entries q) ->
  queue_get cid binding q = (Ok o, q) ->
  queue_decide cid d by' notes rev binding now q = (Ok e, q1) ->
  rollback_persistence_refusal o (if decide (d = REVISE) then mc_candidate_id <$> rev else None) q1
  = (Ok tt, q).
Proof. apply rollback_restores. Qed.

(** *** Snapshots *)

Lemma od_of_list {K A} `{EqDecision K} (l acc : list (K * A)) :
  NoDup (map fst (acc ++ l)) ->
  foldl (fun acc kv => od_set acc (fst kv) (snd kv)) acc l = acc ++ l.
Proof.
  revert acc. induction l as [|[k v] l IH]; intros acc Hn; simpl; [by rewrite app_nil_r|].
  assert (od_get acc k = None) as Hk.
  { destruct (od_get acc k) eqn:E; [|done]. apply od_get_elem in E. exfalso.
    rewrite map_app in Hn. apply NoDup_app in Hn as (_ & Hn & _).
    apply (Hn k); [apply list_elem_of_fmap; eexists; split; [|exact E]; done|by left]. }
  rewrite od_set_new by done. rewrite IH; rewrite <- app_assoc; done.
Qed.

Lemma snapshot_entries b (q : queue) :
  entries_ok (q_entries q) ->
  q_entries (snapshot_for_binding b q)
  = List.filter (fun kv => bool_decide (fst (fst kv) = Some b)) (q_entries q).
Proof.
  intros [Hn _]. unfold snapshot_for_binding. cbn [q_entries]. rewrite od_of_list; [done|]. simpl.
  induction (q_entries q) as [|[k e] l IH]; simpl in *; [done|].
  apply NoDup_cons in Hn as [Hk Hn]. case_bool_decide; simpl; [|auto].
  apply NoDup_cons. split; [|auto]. rewrite list_elem_of_fmap. intros (kv & E & Hin).
  apply Hk, list_elem_of_fmap. exists kv. split; [done|].
  apply list_elem_of_In, filter_In in Hin as [? _]. by apply list_elem_of_In.
Qed.

Lemma snapshot_where b (q : queue) (p : ReviewEntry -> bool) :
  entries_ok (q_entries q) ->
  entries_where (fun e => p e && bool_decide (re_binding_id e = Some b)) (snapshot_for_binding b q)
  = entries_where (fun e => p e && bool_decide (re_binding_id e = Some b)) q.
Proof.
  intros Hq. unfold entries_where. rewrite snapshot_entries by done. destruct Hq as [_ Hq].
  induction (q_entries q) as [|[k e] l IH]; simpl; [done|].
  destruct (Hq (k, e)) as [Hk _]; [by left|]. simpl in Hk. subst k. simpl.
  specialize (IH (fun kv H => Hq kv (list_elem_of_further _ _ _ H))).
  case_bool_decide as Hb; simpl.
  - rewrite bool_decide_true by done. by rewrite IH.
  - by rewrite andb_false_r.
Qed.

(** A snapshot for a binding lists, without being told the binding,
    exactly the pending, decided and recallable entries the queue lists for
    it; but an unqualified [get] on the snapshot of a binding other than the
    compatibility one finds none of them, since it still addresses the legacy
    view (the comment on [_view_binding] says that unqualified reads of a
    snapshot address its binding). *)
Theorem snapshot_reads b (q : queue) :
  entries_ok (q_entries q) ->
  pending None (snapshot_for_binding b q) = pending (Some b) q /\
  decided None (snapshot_for_binding b q) = decided (Some b) q /\
  recallable_for_working_context None (snapshot_for_binding b q)
  = recallable_for_working_context (Some b) q /\
  (b <> COMPATIBILITY_BINDING_ID -> forall cid,
   fst (queue_get cid None (snapshot_for_binding b q))
   = Raise (ReviewQueueError "no candidate in queue")).
Proof.
  intros Hq. repeat split; try by apply (snapshot_where b q).
  intros Hb cid. destruct (queue_get cid None (snapshot_for_binding b q)) as [r q'] eqn:E.
  pose proof E as [-> H]%queue_get_ok. destruct r as [e|x].
  - destruct H as (k & Hk & He). apply find_key_some in Hk as (_ & _ & Hk).
    apply od_get_elem in He. rewrite snapshot_entries in He by done.
    apply list_elem_of_In, filter_In in He as [_ He]. bool_prop. simpl in *.
    by destruct (not_legacy b Hb _ Hk).
  - unfold queue_get, mbind, ST_bind, st_get in E.
    destruct (_find_key _ cid None) as [k|] eqn:Ek; [|by injection E as <-].
    apply find_key_some in Ek as (_ & [e He] & _). by rewrite He in E.
Qed.
End Refinement.

(** ** A run *)

Module ReviewRun.
(** A store that has recorded nothing. *)
Definition NoRecords : Type := unit.
#[export] Instance no_records_reader : DecisionReader NoRecords unit := fun _ _ _ _ => Ok None.
#[export] Instance no_records_spec : DecisionReaderSpec NoRecords unit.
Proof. by intros s cid v ch r. Qed.

Definition cand (id : string) (t : MemoryType) : MemoryCandidate :=
  mkCandidate "agentic_memory" id "title" t None RS_UNREVIEWED AP_REVIEW_QUEUE_ONLY true
    ["ref"] None None (Some "work") None None CS_CLEAR None None (utc 0).

(** Two bindings enqueue the same candidate id; one of them decides. *)
Definition ops : list (queue_op NoRecords unit) :=
  [QEnqueue tt (cand "m" EPISODIC_MEMORY) (Some "a"); QEnqueue tt (cand "m" EPISODIC_MEMORY) (Some "b");
   QDecide "m" PROMOTE "human:ann" None None (Some "a") (utc 5);
   QDecide "m" REVISE "human:bo" None (Some (cand "m2" EPISODIC_MEMORY)) (Some "b") (utc 6);
   QReset "m" (Some "b"); QPending (Some "b"); QPending None].

Definition empty_queue : MemoryCandidateReviewQueue (V:=unit) := new_queue false None None.

Lemma queue_refines_board_run :
  board_run (List.filter (addresses "b") ops) (board_of "b" (q_entries empty_queue))
  = (map (fmap (answer_map item_of)) (fst (queue_run "b" ops empty_queue)),
     board_of "b" (q_entries (snd (queue_run "b" ops empty_queue)))) /\
  length (fst (queue_run "b" ops empty_queue)) = 4%nat.
Proof.
  split; [|vm_compute; reflexivity].
  apply (queue_refines_board "b" ops empty_queue); [done|apply entries_ok_nil|by repeat constructor].
Defined.

Definition promoted_entry : ReviewEntry :=
  mkEntry (cand "m" EPISODIC_MEMORY) (Some "a") PROMOTED (Some PROMOTE) (Some "human:ann")
    (Some (utc 5)) None None.

Lemma recallable_was_promoted_run :
  re_status promoted_entry = PROMOTED /\ re_decision promoted_entry = Some PROMOTE /\
  re_binding_id promoted_entry = Some "a" /\
  (exists by', re_decided_by promoted_entry = Some by' /\ strip by' <> "") /\
  is_Some (re_decided_at promoted_entry).
Proof.
  apply (recallable_was_promoted false None None ops "a" promoted_entry); [by repeat constructor|].
  vm_compute. left.
Defined.

Definition one_queue : MemoryCandidateReviewQueue (V:=unit) := queue_after (take 2%nat ops) empty_queue.

Lemma one_queue_ok : entries_ok (q_entries one_queue).
Proof. apply queue_after_ok; [apply entries_ok_nil|by repeat constructor]. Defined.

Lemma rollback_undoes_decide_run :
  rollback_persistence_refusal (pending_entry (cand "m" EPISODIC_MEMORY) (Some "b") None) (Some "m2")
    (queue_after (take 2%nat (drop 2%nat ops)) one_queue)
  = (Ok tt, queue_after (take 1%nat (drop 2%nat ops)) one_queue).
Proof.
  apply (rollback_undoes_decide "m" REVISE "human:bo" None (Some (cand "m2" EPISODIC_MEMORY)) (Some "b")
    (utc 6) (queue_after (take 1%nat (drop 2%nat ops)) one_queue) _
    (mkEntry (cand "m" EPISODIC_MEMORY) (Some "b") REVISED (Some REVISE) (Some "human:bo")
       (Some (utc 6)) None None)); [|vm_compute; reflexivity..].
  apply queue_after_ok; [apply one_queue_ok|by repeat constructor].
Defined.

Lemma snapshot_reads_run :
  pending None (snapshot_for_binding "b" one_queue) = pending (Some "b") one_queue /\
  length (pending (Some "b") one_queue) = 1%nat /\
  fst (queue_get "m" None (snapshot_for_binding "b" one_queue))
  = Raise (ReviewQueueError "no candidate in queue").
Proof.
  destruct (snapshot_reads "b" one_queue one_queue_ok) as (H & _ & _ & G).
  split; [exact H|]. split; [vm_compute; reflexivity|]. by apply G.
Defined.
End ReviewRun.
