(* ===== verification/ReviewDecisions.v ===== *)
(** * Durable review decisions (src/app/agent_memory/review_decision_store.py)

    The SQLite table of review decisions: one row per vault, channel and
    candidate, an ordered dict with that triple as its key (the [UNIQUE]
    constraint).  A row mirrors fields of its JSON payload; the payload column
    holds the value its text decodes to, [None] when it does not decode.

    A method opens one transaction and commits or rolls back: [atomically].
    [promotion_materialization_transaction] is a context manager that commits
    a reservation half way and then begins a second transaction, so it is two
    atomic steps, [promotion_begin] and [promotion_resume]; its [with] block and
    its two callbacks may do anything outside the table or raise. *)
From Stdlib Require Import Ascii.
From S2P Require Import Prelude PyValue PyTime Sql MemoryCandidate ReviewQueue.

(** What the module takes from its host: path resolution, the offset of naive
    local times, SHA-256 in hex and Pydantic's text for a datetime. *)
Record host : Type := mkHost {
  h_resolve : string -> res string;
  h_local : Z -> Z;
  h_sha256 : string -> string;
  h_dump_datetime : datetime -> string }.

Record VaultContext : Type := mkVault {
  active_vault_id : option string;
  active_vault_path : option string }.

Definition REVIEW_DECISION_RECEIPT_KIND : string := "agent_memory.review_decision".
Definition REVIEW_DECISION_STORE_VERSION : Z := 5.

Abbreviation DecisionKey := (string * string * string)%type.

(** The columns beside the key. *)
Record drow : Type := mkRow {
  dr_outcome : string;
  dr_decided_by : string;
  dr_decided_at : string;
  dr_terminal : pyval;
  dr_payload : option pyval }.

Abbreviation decisions := (list (DecisionKey * drow)).

Definition store_error {A} (msg : string) : res A := Raise (ReviewDecisionStoreError msg).

Definition _safe_str (value : option string) : string :=
  match value with None => "" | Some s => strip s end.

Definition ReviewDecision_of (value : string) : res ReviewDecision :=
  if String.eqb value "promote" then Ok PROMOTE
  else if String.eqb value "reject" then Ok REJECT
  else if String.eqb value "revise" then Ok REVISE
  else Raise (ValueError "not a valid ReviewDecision").

Section Store.
Context (h : host).

Definition _vault_id (context : VaultContext) : res string :=
  let vault_id := _safe_str (active_vault_id context) in
  if negb (String.eqb vault_id "") then Ok vault_id else
  let vault_path := _safe_str (active_vault_path context) in
  if negb (String.eqb vault_path "") then p ← h_resolve h vault_path; Ok ("path:" +:+ p)
  else store_error "vault_context must include active_vault_id or active_vault_path".

Definition _iso (value : datetime) : res string :=
  d ← astimezone_utc (h_local h) value;
  Ok (str_replace "+00:00" "Z" 0 (isoformat d)).

Definition _parse_iso (value : string) : res datetime :=
  let raw := if ends_with_Z value then str_take (String.length value - 1) value +:+ "+00:00"
             else value in
  match fromisoformat raw with
  | None => Raise (ValueError "Invalid isoformat string")
  | Some d => astimezone_utc (h_local h) d
  end.

Definition _record_payload (record : ReviewDecisionRecord) : res pydict :=
  decided_at ← _iso (rd_decided_at record);
  Ok [("store_version", PInt REVIEW_DECISION_STORE_VERSION);
      ("receipt_kind", PStr (rd_receipt_kind record));
      ("vault_id", PStr (rd_vault_id record));
      ("channel", PStr (rd_channel record));
      ("candidate_id", PStr (rd_candidate_id record));
      ("outcome", PStr (ReviewDecision_value (rd_outcome record)));
      ("decided_by", PStr (rd_decided_by record));
      ("decided_at", PStr decided_at);
      ("terminal", PBool (rd_terminal record));
      ("source_refs", PList (map PStr (rd_source_refs record)));
      ("memory_type", opt_str (MemoryType_value <$> rd_memory_type record));
      ("scope_id", rd_scope_id record);
      ("decision_notes", rd_decision_notes record);
      ("revision_of", rd_revision_of record);
      ("generated_by", rd_generated_by record);
      ("derived_from", rd_derived_from record);
      ("candidate_digest", rd_candidate_digest record);
      ("materializing", PBool (rd_materializing record));
      ("materialization_source_binding", opt_str (rd_materialization_source_binding record))].

(** [json.loads(json.dumps(payload, sort_keys=True))]. *)
Definition stored_payload (record : ReviewDecisionRecord) : res (option pyval) :=
  payload ← _record_payload record; Ok (Some (json_norm (PDict payload))).

Definition decode_reviewer (payload : pydict) : res string :=
  match get payload "decided_by" with
  | PStr s => if String.eqb (strip s) "" then store_error "persisted review decision reviewer is invalid"
              else Ok s
  | _ => store_error "persisted review decision reviewer is invalid"
  end.
Definition decode_memory_type (payload : pydict) : res (option MemoryType) :=
  match get payload "memory_type" with
  | PNone => Ok None
  | PStr s =>
      match MemoryType_of s with
      | Some t => Ok (Some t)
      | None => store_error "persisted review decision memory type is invalid"
      end
  | _ => store_error "persisted review decision memory type is invalid"
  end.
Definition decode_source_binding (payload : pydict) : res (option string) :=
  match get payload "materialization_source_binding" with
  | PNone => Ok None
  | PStr s => if String.eqb (strip s) "" then store_error "persisted materialization source binding is invalid"
              else Ok (Some s)
  | _ => store_error "persisted materialization source binding is invalid"
  end.
Definition decode_materializing (payload : pydict) : res bool :=
  match default (PBool false) (dict_get payload "materializing") with
  | PBool b => Ok b
  | _ => store_error "persisted review decision materializing state is invalid"
  end.

Definition _record_from_payload (payload : pydict) : res ReviewDecisionRecord :=
  reviewer ← decode_reviewer payload;
  memory_type ← decode_memory_type payload;
  source_binding ← decode_source_binding payload;
  materializing ← decode_materializing payload;
  if bool_decide (source_binding <> None) && negb materializing
     && negb (bool_decide (get payload "terminal" = PBool true))
  then store_error "persisted materialization reservation state is inconsistent" else
  vault_id ← getitem (PDict payload) "vault_id";
  channel ← getitem (PDict payload) "channel";
  candidate_id ← getitem (PDict payload) "candidate_id";
  raw_outcome ← getitem (PDict payload) "outcome";
  outcome ← ReviewDecision_of (py_str raw_outcome);
  raw_decided_at ← getitem (PDict payload) "decided_at";
  decided_at ← _parse_iso (py_str raw_decided_at);
  refs ← py_iter (default (PList []) (dict_get payload "source_refs"));
  Ok (mkDecision (py_str vault_id) (py_str channel) (py_str candidate_id) outcome reviewer
    decided_at (map py_str refs) memory_type (get payload "scope_id")
    (py_str (py_or (get payload "receipt_kind") (PStr REVIEW_DECISION_RECEIPT_KIND)))
    (truthy (default (PBool false) (dict_get payload "terminal")))
    (get payload "decision_notes") (get payload "revision_of") (get payload "generated_by")
    (get payload "derived_from") (get payload "candidate_digest") materializing source_binding).

(** The loop over [mirrors]: the first column that disagrees raises. *)
Fixpoint check_mirrors (payload : pydict) (mirrors : list (string * pyval)) : res unit :=
  match mirrors with
  | [] => Ok tt
  | (k, expected) :: mirrors =>
      if bool_decide (get payload k = expected) then check_mirrors payload mirrors
      else store_error "persisted review decision mirror conflicts with payload"
  end.

Definition _record_from_row (k : DecisionKey) (row : drow) : res ReviewDecisionRecord :=
  match dr_payload row with
  | Some (PDict payload) =>
      record ← _record_from_payload payload;
      if negb (bool_decide (dr_terminal row ∈ [PInt 0; PInt 1]))
      then store_error "persisted review decision terminal mirror is invalid" else
      let '(vault_id, channel, candidate_id) := k in
      _ ← check_mirrors payload
            [("vault_id", PStr vault_id); ("channel", PStr channel);
             ("candidate_id", PStr candidate_id); ("outcome", PStr (dr_outcome row));
             ("decided_by", PStr (dr_decided_by row)); ("decided_at", PStr (dr_decided_at row));
             ("terminal", PBool (bool_decide (dr_terminal row = PInt 1)))];
      Ok record
  | _ => store_error "persisted review decision payload is invalid"
  end.

(** [SELECT ... WHERE vault_id = ? AND channel = ? AND candidate_id = ?], decoded. *)
Definition select_record (k : DecisionKey) (db : decisions) : res (option ReviewDecisionRecord) :=
  match od_get db k with
  | None => Ok None
  | Some row => r ← _record_from_row k row; Ok (Some r)
  end.

Definition candidate_dump (c : MemoryCandidate) : pyval :=
  PDict [("artifact_class", PStr (mc_artifact_class c));
         ("candidate_id", PStr (mc_candidate_id c));
         ("title", PStr (mc_title c));
         ("memory_type", PStr (MemoryType_value (mc_memory_type c)));
         ("artifact_type", opt_str (mc_artifact_type c));
         ("review_state", PStr (ReviewState_value (mc_review_state c)));
         ("activation_policy", PStr (ActivationPolicy_value (mc_activation_policy c)));
         ("inferred", PBool (mc_inferred c));
         ("source_refs", PList (map PStr (mc_source_refs c)));
         ("derived_from", opt_str (mc_derived_from c));
         ("generated_by", opt_str (mc_generated_by c));
         ("scope_id", opt_str (mc_scope_id c));
         ("content", opt_str (mc_content c));
         ("confidence", opt_str (mc_confidence c));
         ("contradiction_state", PStr (ContradictionState_value (mc_contradiction_state c)));
         ("correction_of", opt_str (mc_correction_of c));
         ("contradiction_notes", opt_str (mc_contradiction_notes c));
         ("observed_at", PStr (h_dump_datetime h (mc_observed_at c)))].
Definition review_candidate_digest (e : ReviewEntry) : string :=
  h_sha256 h (json_dumps "," ":" true (candidate_dump (re_candidate e))).

(** ** Transactions *)

(** [with self._connect() as conn: conn.execute("BEGIN IMMEDIATE") ...]: an
    exception rolls back. *)
Definition atomically {A} (m : ST decisions A) : ST decisions A := fun db =>
  match m db with
  | (Ok a, db') => (Ok a, db')
  | (Raise e, _) => (Raise e, db)
  end.

Definition record_key (r : ReviewDecisionRecord) : DecisionKey :=
  (rd_vault_id r, rd_channel r, rd_candidate_id r).

Definition refuse {A} (msg : string) : ST decisions A := st_raise (ReviewDecisionStoreError msg).
Definition refuse_if (c : bool) (msg : string) : ST decisions unit :=
  guard_not c (ReviewDecisionStoreError msg).

Definition st_select (k : DecisionKey) : ST decisions (option ReviewDecisionRecord) :=
  db ← st_get; st_lift (select_record k db).

(** [INSERT ... ON CONFLICT DO UPDATE]. *)
Definition upsert_record (record : ReviewDecisionRecord) : ST decisions unit :=
  decided_at ← st_lift (_iso (rd_decided_at record));
  payload ← st_lift (stored_payload record);
  st_modify (fun db => od_set db (record_key record)
    (mkRow (ReviewDecision_value (rd_outcome record)) (rd_decided_by record) decided_at
       (PInt (if rd_terminal record then 1 else 0)) payload)).

(** The body of the transaction of [record_decision]. *)
Definition persist (record : ReviewDecisionRecord) : ST decisions ReviewDecisionRecord :=
  existing ← st_select (record_key record);
  match existing with
  | Some existing =>
      _ ← refuse_if (rd_terminal existing) "terminal review decisions cannot be replaced";
      _ ← refuse_if (negb (py_eqb (rd_scope_id existing) (rd_scope_id record)))
            "candidate scope cannot change across review decisions";
      _ ← refuse_if (negb (is_none (rd_candidate_digest existing))
                     && negb (py_eqb (rd_candidate_digest existing) (rd_candidate_digest record)))
            "candidate content cannot change across review decisions";
      if rd_materializing existing then
        if bool_decide (rd_outcome record = PROMOTE) then mret existing
        else refuse "review decision cannot change while materialization is in progress"
      else _ ← upsert_record record; mret record
  | None => _ ← upsert_record record; mret record
  end.

Definition record_decision (entry : ReviewEntry) (vault_context : VaultContext) (channel : string)
  : ST decisions ReviewDecisionRecord :=
  match re_decision entry, re_decided_by entry, re_decided_at entry with
  | Some decision, Some decided_by, Some decided_at =>
      vault_id ← st_lift (_vault_id vault_context);
      let channel := _safe_str (Some channel) in
      _ ← refuse_if (String.eqb channel "") "channel is required";
      _ ← refuse_if (bool_decide (re_scope_id entry <> None)
                     && bool_decide (validated_memory_scope_id (opt_str (re_scope_id entry)) = None))
            "candidate scope is invalid";
      decided_at ← st_lift (astimezone_utc (h_local h) decided_at);
      let c := re_candidate entry in
      atomically (persist (mkDecision vault_id channel (re_candidate_id entry) decision decided_by
        decided_at (mc_source_refs c) (Some (mc_memory_type c)) (opt_str (mc_scope_id c))
        REVIEW_DECISION_RECEIPT_KIND (bool_decide (decision ∈ [REJECT; REVISE]))
        (opt_str (re_decision_notes entry)) (opt_str (re_revision_of entry))
        (opt_str (mc_generated_by c)) (opt_str (mc_derived_from c))
        (PStr (review_candidate_digest entry)) false None))
  | _, _, _ => refuse "only decided review entries can be recorded"
  end.

(** The method [get_decision]. *)
Definition store_get_decision (candidate_id : string) (vault_context : VaultContext) (channel : string)
    (db : decisions) : res (option ReviewDecisionRecord) :=
  vault_id ← _vault_id vault_context;
  select_record (vault_id, _safe_str (Some channel), _safe_str (Some candidate_id)) db.

(** [UPDATE ... SET terminal = ?, payload = ? WHERE key AND p]; the answer is
    whether a row was updated. *)
Definition update_row (k : DecisionKey) (p : drow -> bool) (terminal : option pyval)
    (payload : option pyval) : ST decisions bool := fun db =>
  match od_get db k with
  | Some row =>
      if p row then
        (Ok true, od_set db k (mkRow (dr_outcome row) (dr_decided_by row) (dr_decided_at row)
                                 (default (dr_terminal row) terminal) payload))
      else (Ok false, db)
  | None => (Ok false, db)
  end.

(** [replace(record, terminal=..., materializing=..., materialization_source_binding=...)]. *)
Definition with_progress (r : ReviewDecisionRecord) (terminal materializing : bool)
    (source_binding : option string) : ReviewDecisionRecord :=
  mkDecision (rd_vault_id r) (rd_channel r) (rd_candidate_id r) (rd_outcome r) (rd_decided_by r)
    (rd_decided_at r) (rd_source_refs r) (rd_memory_type r) (rd_scope_id r) (rd_receipt_kind r)
    terminal (rd_decision_notes r) (rd_revision_of r) (rd_generated_by r) (rd_derived_from r)
    (rd_candidate_digest r) materializing source_binding.

(** [expected_scope_id = None] is the sentinel [_UNSET]. *)
Definition mark_terminal (candidate_id : string) (vault_context : VaultContext) (channel : string)
    (expected_scope_id : option pyval) (expected_outcome : option ReviewDecision)
  : ST decisions ReviewDecisionRecord :=
  vault_id ← st_lift (_vault_id vault_context);
  atomically (
    found ← st_select (vault_id, _safe_str (Some channel), _safe_str (Some candidate_id));
    match found with
    | None => refuse "cannot mark missing decision terminal"
    | Some record =>
        _ ← refuse_if (rd_terminal record) "decision is already terminal";
        _ ← refuse_if (match expected_scope_id with
                       | Some s => negb (py_eqb (rd_scope_id record) s) | None => false end)
              "persisted candidate scope changed before terminal transition";
        _ ← refuse_if (match expected_outcome with
                       | Some o => bool_decide (rd_outcome record <> o) | None => false end)
              "persisted decision outcome changed before terminal transition";
        let terminal_record := with_progress record true (rd_materializing record)
                                 (rd_materialization_source_binding record) in
        payload ← st_lift (stored_payload terminal_record);
        _ ← update_row (record_key record) (fun _ => true) (Some (PInt 1)) payload;
        mret terminal_record
    end).

(** ** Materialization *)

Definition history_leb (a b : DecisionKey * drow) : bool :=
  let '((v, ch, c), r) := a in let '((v', ch', c'), r') := b in
  if String.eqb v v' then
    if String.eqb ch ch' then
      if String.eqb (dr_decided_at r) (dr_decided_at r') then String.leb c c'
      else String.leb (dr_decided_at r) (dr_decided_at r')
    else String.leb ch ch'
  else String.leb v v'.

Record materialization : Type := mkMat {
  mt_candidate_id : string;
  mt_vault_context : VaultContext;
  mt_channel : string;
  mt_expected_scope_id : string;
  mt_expected_candidate_digest : string;
  mt_initialize : option (list ReviewDecisionRecord -> res string);
  (** the [with] block *)
  mt_body : ReviewDecisionRecord -> res unit;
  (** entering and leaving [terminal_guard] *)
  mt_enter : ReviewDecisionRecord -> res unit;
  mt_exit : ReviewDecisionRecord -> res unit }.

Definition is_open_promote (row : drow) : bool :=
  String.eqb (dr_outcome row) "promote" && bool_decide (dr_terminal row = PInt 0).

(** Up to the commit of the reservation, or up to the [yield] when the record
    is already reserved ([false]). *)
Definition promotion_begin (m : materialization) : ST decisions (bool * ReviewDecisionRecord) :=
  vault_id ← st_lift (_vault_id (mt_vault_context m));
  found ← st_select (vault_id, _safe_str (Some (mt_channel m)), _safe_str (Some (mt_candidate_id m)));
  match found with
  | None => refuse "semantic memory materialization requires a persisted decision"
  | Some record =>
      _ ← refuse_if (bool_decide (rd_outcome record <> PROMOTE))
            "semantic memory materialization requires a persisted promote decision";
      _ ← refuse_if (rd_terminal record) "semantic memory decision is already terminal";
      _ ← refuse_if (negb (py_eqb (rd_scope_id record) (PStr (mt_expected_scope_id m))))
            "candidate.scope_id does not match the persisted review decision";
      _ ← refuse_if (negb (py_eqb (rd_candidate_digest record) (PStr (mt_expected_candidate_digest m))))
            "candidate content does not match the persisted review decision";
      db ← st_get;
      history ← st_lift (mapM_res (fun kr => _record_from_row (fst kr) (snd kr)) (order_by history_leb db));
      if rd_materializing record then mret (false, record) else
      source_binding ← match mt_initialize m with
                       | Some init => b ← st_lift (init history); mret (Some b)
                       | None => mret (rd_materialization_source_binding record)
                       end;
      let materializing_record := with_progress record (rd_terminal record) true source_binding in
      payload ← st_lift (stored_payload materializing_record);
      updated ← update_row (record_key record) is_open_promote None payload;
      _ ← refuse_if (negb updated) "promote decision changed before materialization reservation";
      mret (true, materializing_record)
  end.

(** From the second [BEGIN IMMEDIATE] to the [yield]. *)
Definition promotion_resume (m : materialization) (materializing_record : ReviewDecisionRecord)
  : ST decisions ReviewDecisionRecord :=
  found ← st_select (record_key materializing_record);
  match found with
  | None => refuse "materializing review decision disappeared"
  | Some reserved =>
      _ ← refuse_if (rd_terminal reserved || bool_decide (rd_outcome reserved <> PROMOTE))
            "promote decision changed before materialization resumed";
      _ ← refuse_if (negb (py_eqb (rd_scope_id reserved) (PStr (mt_expected_scope_id m)))
                     || negb (py_eqb (rd_candidate_digest reserved) (PStr (mt_expected_candidate_digest m)))
                     || negb (rd_materializing reserved)
                     || bool_decide (rd_materialization_source_binding reserved
                                     <> rd_materialization_source_binding materializing_record))
            "materialization authority changed before resume";
      mret reserved
  end.

(** The [with] block and the terminal transition. *)
Definition promotion_close (m : materialization) (record : ReviewDecisionRecord) : ST decisions unit :=
  _ ← st_lift (mt_body m record);
  _ ← st_lift (mt_enter m record);
  let terminal_record := with_progress record true false (rd_materialization_source_binding record) in
  payload ← st_lift (stored_payload terminal_record);
  updated ← update_row (record_key record) is_open_promote (Some (PInt 1)) payload;
  refuse_if (negb updated) "promote decision changed before terminal transition".

(** The first transaction: [true] when it committed the reservation, [false]
    when it ran through to the end. *)
Definition promotion_first (m : materialization) : ST decisions (bool * ReviewDecisionRecord) :=
  atomically (
    '(fresh, record) ← promotion_begin m;
    if fresh : bool then mret (true, record)
    else _ ← promotion_close m record; mret (false, record)).
Definition promotion_second (m : materialization) (reserved : ReviewDecisionRecord)
  : ST decisions ReviewDecisionRecord :=
  atomically (record ← promotion_resume m reserved; _ ← promotion_close m record; mret record).

(** The context manager with nobody in between; [terminal_guard] is left after
    the commit. *)
Definition promotion_materialization_transaction (m : materialization) : ST decisions unit :=
  '(fresh, record) ← promotion_first m;
  record ← (if fresh : bool then promotion_second m record else mret record);
  st_lift (mt_exit m record).

Definition decided_leb (a b : DecisionKey * drow) : bool :=
  if String.eqb (dr_decided_at (snd a)) (dr_decided_at (snd b))
  then String.leb (snd (fst a)) (snd (fst b))
  else String.leb (dr_decided_at (snd a)) (dr_decided_at (snd b)).

Definition list_decisions (vault_context : VaultContext) (channel : string) (db : decisions)
  : res (list ReviewDecisionRecord) :=
  vault_id ← _vault_id vault_context;
  mapM_res (fun kr => _record_from_row (fst kr) (snd kr))
    (order_by decided_leb
       (List.filter (fun kr => bool_decide (fst (fst kr) = (vault_id, _safe_str (Some channel)))) db)).
End Store.

#[export] Instance store_reader (h : host) : DecisionReader decisions VaultContext :=
  fun db cid v ch => store_get_decision h cid v ch db.
