(* ===== verification/ReviewDecisionProps.v ===== *)
(** * Properties of durable review decisions

    The table of [ReviewDecisions] seen as a map from keys to records: every
    row the store writes decodes to the record it was written from, each
    method moves a record only forward ([progress]), and the review queue
    composed with the store never asks again about a decided candidate. *)
From Stdlib Require Import Ascii Permutation.
From S2P Require Import Prelude PyValue PyTime Sql MemoryCandidate ReviewQueue ReviewBoard ReviewDecisions.

(** ** Rows and records *)

Definition is_opt_str (v : pyval) : bool := is_none v || is_str v.

Definition iso_text (d : datetime) : string := iso_stem (dt_us d) +:+ "Z".

Definition payload_of (r : ReviewDecisionRecord) : pydict :=
  [("store_version", PInt REVIEW_DECISION_STORE_VERSION);
   ("receipt_kind", PStr (rd_receipt_kind r));
   ("vault_id", PStr (rd_vault_id r));
   ("channel", PStr (rd_channel r));
   ("candidate_id", PStr (rd_candidate_id r));
   ("outcome", PStr (ReviewDecision_value (rd_outcome r)));
   ("decided_by", PStr (rd_decided_by r));
   ("decided_at", PStr (iso_text (rd_decided_at r)));
   ("terminal", PBool (rd_terminal r));
   ("source_refs", PList (map PStr (rd_source_refs r)));
   ("memory_type", opt_str (MemoryType_value <$> rd_memory_type r));
   ("scope_id", rd_scope_id r);
   ("decision_notes", rd_decision_notes r);
   ("revision_of", rd_revision_of r);
   ("generated_by", rd_generated_by r);
   ("derived_from", rd_derived_from r);
   ("candidate_digest", rd_candidate_digest r);
   ("materializing", PBool (rd_materializing r));
   ("materialization_source_binding", opt_str (rd_materialization_source_binding r))].

Definition row_of (r : ReviewDecisionRecord) : drow :=
  mkRow (ReviewDecision_value (rd_outcome r)) (rd_decided_by r) (iso_text (rd_decided_at r))
    (PInt (if rd_terminal r then 1 else 0)) (Some (json_norm (PDict (payload_of r)))).

(** The records the store writes: a UTC time the calendar can hold, a named
    reviewer, optional texts where the payload holds any value, a source binding
    only on a reserved or terminal record, and only promotions reserved. *)
Record record_ok (r : ReviewDecisionRecord) : Prop := mkRecordOk {
  ok_time : exists t, rd_decided_at r = utc t /\ in_range t;
  ok_reviewer : strip (rd_decided_by r) <> "";
  ok_kind : rd_receipt_kind r <> "";
  ok_texts : forallb is_opt_str [rd_scope_id r; rd_decision_notes r; rd_revision_of r;
               rd_generated_by r; rd_derived_from r; rd_candidate_digest r] = true;
  ok_binding : forall s, rd_materialization_source_binding r = Some s ->
    strip s <> "" /\ (rd_materializing r = true \/ rd_terminal r = true);
  ok_reserved : rd_materializing r = true -> rd_outcome r = PROMOTE }.

Lemma json_norm_opt_str v : is_opt_str v = true -> json_norm v = v.
Proof. by destruct v. Qed.
Lemma json_norm_opt o : json_norm (opt_str o) = opt_str o.
Proof. by destruct o. Qed.


Section Rows.
Context (h : host).

Lemma iso_utc t : in_range t -> _iso h (utc t) = Ok (iso_text (utc t)).
Proof.
  intros Ht. unfold _iso, astimezone_utc. cbn [utc dt_us dt_offset].
  replace (t - 0 * 60000000)%Z with t by lia.
  rewrite (proj2 (Z.leb_le 0 t)), (proj2 (Z.ltb_lt t max_us)) by apply Ht.
  cbn [andb mbind res_bind]. by rewrite isoformat_Z.
Qed.

Lemma parse_iso_text t : in_range t -> _parse_iso h (iso_text (utc t)) = Ok (utc t).
Proof.
  intros Ht. unfold _parse_iso, iso_text. cbn [utc dt_us].
  rewrite ends_with_Z_app, str_take_init, fromisoformat_stem by done.
  unfold astimezone_utc. cbn [utc dt_us dt_offset].
  replace (t - 0 * 60000000)%Z with t by lia.
  by rewrite (proj2 (Z.leb_le 0 t)), (proj2 (Z.ltb_lt t max_us)) by apply Ht.
Qed.

Lemma stored_payload_of r : record_ok r -> stored_payload h r = Ok (dr_payload (row_of r)).
Proof.
  intros [(t & E & Ht) _ _ _ _ _]. unfold stored_payload, _record_payload.
  rewrite E, iso_utc by done. cbn [mbind res_bind]. unfold row_of, payload_of. rewrite E. done.
Qed.

Lemma ReviewDecision_of_value d : ReviewDecision_of (ReviewDecision_value d) = Ok d.
Proof. by destruct d. Qed.

Lemma map_py_str l : map py_str (map json_norm (map PStr l)) = l.
Proof. rewrite !map_map. simpl. apply map_id. Qed.

Lemma decode_payload r : record_ok r -> _record_from_payload h (json_norm_dict (payload_of r)) = Ok r.
Proof.
  intros [(t & Et & Ht) Hrev Hkind Htx Hbind _].
  unfold _record_from_payload, decode_reviewer, decode_memory_type, decode_source_binding,
    decode_materializing, getitem, get. rewrite !json_norm_dict_get.
  cbn [dict_get payload_of String.eqb Ascii.eqb Bool.eqb fmap option_fmap option_map default from_option].
  rewrite !json_norm_opt. cbn [json_norm id].
  rewrite (proj2 (String.eqb_neq _ _) Hrev). simpl in Htx. bool_prop.
  rewrite !json_norm_opt_str by done.
  assert (M : match opt_str (MemoryType_value <$> rd_memory_type r) with
    | PNone => Ok None
    | PStr s => match MemoryType_of s with
        | Some t => Ok (Some t)
        | None => store_error "persisted review decision memory type is invalid" end
    | _ => store_error "persisted review decision memory type is invalid"
    end = Ok (rd_memory_type r)).
  { destruct (rd_memory_type r); simpl; [by rewrite MemoryType_of_value|done]. }
  assert (B : match opt_str (rd_materialization_source_binding r) with
    | PNone => Ok None
    | PStr s => if String.eqb (strip s) "" then store_error "persisted materialization source binding is invalid"
                else Ok (Some s)
    | _ => store_error "persisted materialization source binding is invalid"
    end = Ok (rd_materialization_source_binding r)).
  { destruct (rd_materialization_source_binding r) as [s|]; simpl; [|done].
    by rewrite (proj2 (String.eqb_neq _ _) (proj1 (Hbind s eq_refl))). }
  rewrite M, B. cbn [mbind res_bind py_str].
  replace (_ && _ && _)%bool with false.
  2: { destruct (rd_materialization_source_binding r) as [s|]; [|done].
       destruct (Hbind s eq_refl) as [_ [-> | ->]]; simpl; [done|by rewrite andb_false_r]. }
  rewrite ReviewDecision_of_value. cbn [mbind res_bind]. rewrite Et, parse_iso_text by done.
  cbn [mbind res_bind py_iter as_seq]. rewrite map_py_str. unfold py_or, truthy.
  rewrite (proj2 (String.eqb_neq _ _) Hkind). simpl. rewrite <- Et. by destruct r.
Qed.

Lemma decode_row r : record_ok r -> _record_from_row h (record_key r) (row_of r) = Ok r.
Proof.
  intros Hr. unfold _record_from_row, row_of. cbn [dr_payload json_norm].
  change (sort_keys _) with (json_norm_dict (payload_of r)).
  rewrite decode_payload by done. cbn [mbind res_bind dr_terminal record_key dr_outcome dr_decided_by dr_decided_at].
  replace (bool_decide (PInt (if rd_terminal r then 1 else 0) ∈ [PInt 0; PInt 1])) with true
    by (by destruct (rd_terminal r)).
  cbn [negb check_mirrors]. rewrite !get_norm.
  unfold get. cbn [dict_get payload_of String.eqb Ascii.eqb Bool.eqb default from_option id json_norm].
  rewrite !bool_decide_true; [done|..]; try done. by destruct (rd_terminal r).
Qed.

(** ** The table as a map of records *)

Definition db_ok (db : decisions) : Prop :=
  forall k row, od_get db k = Some row -> exists r, record_ok r /\ k = record_key r /\ row = row_of r.

Definition view (db : decisions) (k : DecisionKey) : option ReviewDecisionRecord :=
  match select_record h k db with Ok o => o | Raise _ => None end.

Lemma db_ok_nil : db_ok [].
Proof. done. Qed.

(** On such a table every read succeeds. *)
Lemma select_view db k : db_ok db -> select_record h k db = Ok (view db k).
Proof.
  intros Hdb. unfold view, select_record. destruct (od_get db k) as [row|] eqn:E; [|done].
  destruct (Hdb _ _ E) as (r & Hr & -> & ->). by rewrite decode_row.
Qed.

Lemma view_row db k r : db_ok db -> view db k = Some r ->
  record_ok r /\ k = record_key r /\ od_get db k = Some (row_of r).
Proof.
  intros Hdb. unfold view, select_record. destruct (od_get db k) as [row|] eqn:E; [|done].
  destruct (Hdb _ _ E) as (r' & Hr & -> & ->). rewrite decode_row by done. simpl. by intros [= ->].
Qed.

Definition put_record (r : ReviewDecisionRecord) (db : decisions) : decisions :=
  od_set db (record_key r) (row_of r).

Lemma db_ok_put db r : db_ok db -> record_ok r -> db_ok (put_record r db).
Proof.
  intros Hdb Hr k row. unfold put_record. rewrite od_get_set. case_decide; [|apply Hdb].
  intros [= <-]. eauto.
Qed.

Lemma view_put db r k : record_ok r ->
  view (put_record r db) k = if decide (record_key r = k) then Some r else view db k.
Proof.
  intros Hr. unfold view, select_record, put_record. rewrite od_get_set.
  case_decide; [|done]. subst k. by rewrite decode_row.
Qed.

(** ** How a record may change *)

Record progress (r r' : ReviewDecisionRecord) : Prop := mkProgress {
  pg_key : record_key r' = record_key r;
  pg_terminal : rd_terminal r = true -> r' = r;
  pg_scope : rd_scope_id r' = rd_scope_id r;
  pg_digest : rd_candidate_digest r <> PNone -> rd_candidate_digest r' = rd_candidate_digest r;
  pg_reserved : rd_materializing r = true ->
    (rd_materializing r' = true \/ rd_terminal r' = true) /\
    r' = with_progress r (rd_terminal r') (rd_materializing r') (rd_materialization_source_binding r) }.

Lemma progress_refl r : progress r r.
Proof. split; try done. intros H. split; [by left|by destruct r]. Qed.

Lemma progress_trans r1 r2 r3 : progress r1 r2 -> progress r2 r3 -> progress r1 r3.
Proof.
  intros [K1 T1 S1 D1 M1] [K2 T2 S2 D2 M2]. split.
  - congruence.
  - intros H. rewrite <- (T1 H). apply T2. by rewrite (T1 H).
  - congruence.
  - intros H. rewrite D2; [by apply D1|]. by rewrite D1.
  - intros H. destruct (M1 H) as [[Hm|Ht] E1].
    + destruct (M2 Hm) as [D E2]. split; [done|]. rewrite E2, E1. done.
    + rewrite (T2 Ht). auto.
Qed.
#[local] Instance progress_preorder : PreOrder progress.
Proof. split; [exact progress_refl|exact progress_trans]. Qed.

(** The table after a step: unchanged, or with one record moved forward. *)
Definition advances (db db' : decisions) : Prop :=
  db' = db \/ exists r', record_ok r' /\ db' = put_record r' db /\
    forall r, view db (record_key r') = Some r -> progress r r'.

Lemma advances_ok db db' : db_ok db -> advances db db' -> db_ok db'.
Proof. intros Hdb [->|(r' & Hr & -> & _)]; [done|]. by apply db_ok_put. Qed.

Lemma advances_view db db' k r :
  advances db db' -> view db k = Some r -> exists r', view db' k = Some r' /\ progress r r'.
Proof.
  intros [->|(r' & Hr & -> & Hp)] Hv; [eauto using progress_refl|].
  rewrite view_put by done. case_decide as E; [|eauto using progress_refl].
  exists r'. split; [done|]. apply Hp. by rewrite E.
Qed.

(** *** Forward steps of one record *)

Lemma record_ok_progress r t m b :
  record_ok r ->
  (forall s, b = Some s -> strip s <> "" /\ (m = true \/ t = true)) ->
  (m = true -> rd_outcome r = PROMOTE) -> record_ok (with_progress r t m b).
Proof. intros [H1 H2 H3 H4 H5 H6] H H'. by split. Qed.

Lemma progress_terminal r m b :
  rd_terminal r = false -> b = rd_materialization_source_binding r -> progress r (with_progress r true m b).
Proof. intros Ht ->. split; try done; [by rewrite Ht|]. intros _. split; [by right|done]. Qed.

Lemma progress_reserve r b :
  rd_terminal r = false -> rd_materializing r = false -> progress r (with_progress r (rd_terminal r) true b).
Proof. intros Ht Hm. split; try done; [by rewrite Ht|by rewrite Hm]. Qed.

Lemma opt_str_eqb a b : is_opt_str a = true -> is_opt_str b = true -> py_eqb a b = true -> a = b.
Proof.
  destruct a, b; try done. intros _ _ H. change (py_eqb (PStr s) (PStr s0) = true) in H.
  by apply py_eqb_str in H.
Qed.

Lemma ok_scope r : record_ok r -> is_opt_str (rd_scope_id r) = true.
Proof. intros [_ _ _ H _ _]. simpl in H. by bool_prop. Qed.
Lemma ok_digest r : record_ok r -> is_opt_str (rd_candidate_digest r) = true.
Proof. intros [_ _ _ H _ _]. simpl in H. by bool_prop. Qed.

(** ** The methods *)

Lemma atomically_inv {A} (m : ST decisions A) db r db' :
  atomically m db = (r, db') ->
  match r with Ok a => m db = (Ok a, db') | Raise _ => db' = db end.
Proof. unfold atomically. destruct (m db) as [[a|e] db1] eqn:E; by intros [= <- <-]. Qed.

Lemma st_select_ok db k : db_ok db -> st_select h k db = (Ok (view db k), db).
Proof. intros H. unfold st_select, mbind, ST_bind, st_get, st_lift. by rewrite select_view. Qed.

Lemma upsert_put r db : record_ok r -> upsert_record h r db = (Ok tt, put_record r db).
Proof.
  intros Hr. pose proof Hr as [(t & E & Ht) _ _ _ _ _].
  unfold upsert_record, mbind, ST_bind, st_lift. rewrite stored_payload_of by done.
  rewrite E, iso_utc by done. unfold st_modify, put_record, row_of. by rewrite E.
Qed.

(** Recording a decision reads back as the record that was answered. *)
Lemma persist_advances r db r' db' :
  db_ok db -> record_ok r -> persist h r db = (Ok r', db') ->
  advances db db' /\ view db' (record_key r) = Some r' /\ (db' = db \/ db' = put_record r db).
Proof.
  intros Hdb Hr E. unfold persist in E. rewrite (st_run _ _ _ _ _ (st_select_ok db _ Hdb)) in E.
  destruct (view db (record_key r)) as [x|] eqn:Hv.
  - destruct (view_row _ _ _ Hdb Hv) as (Hx & Hk & _).
    run E as u1 d1 G1. apply guard_not_ok in G1 as [Ht ->].
    run E as u2 d2 G2. apply guard_not_ok in G2 as [Hs ->]. bool_prop.
    run E as u3 d3 G3. apply guard_not_ok in G3 as [Hd ->].
    destruct (rd_materializing x) eqn:Hm.
    { case_bool_decide; [|done]. injection E as <- <-. split; [by left|]. split; [done|by left]. }
    run E as u4 d4 G4. rewrite upsert_put in G4 by done. injection G4 as <- <-. injection E as <- <-.
    split; [|split; [by rewrite view_put, decide_True|by right]]. right. exists r. split; [done|]. split; [done|].
    intros y. rewrite Hv. intros [= <-]. split; [done|by rewrite Ht| | |by rewrite Hm].
    + symmetry. by apply opt_str_eqb; auto using ok_scope.
    + intros Hne. symmetry. apply opt_str_eqb; auto using ok_digest.
      apply andb_false_iff in Hd as [Hd|Hd]; bool_prop; [|done].
      by destruct (rd_candidate_digest x).
  - run E as u4 d4 G4. rewrite upsert_put in G4 by done. injection G4 as <- <-. injection E as <- <-.
    split; [|split; [by rewrite view_put, decide_True|by right]]. right. exists r. split; [done|]. split; [done|].
    intros y. by rewrite Hv.
Qed.

(** On such a table the transaction is refused by the store's own rules only. *)
Lemma persist_refusal r db e db' :
  db_ok db -> record_ok r -> persist h r db = (Raise e, db') -> exists m, e = ReviewDecisionStoreError m.
Proof.
  intros Hdb Hr E. unfold persist in E. rewrite (st_run _ _ _ _ _ (st_select_ok db _ Hdb)) in E.
  destruct (view db (record_key r)) as [x|].
  - unfold mbind, ST_bind, refuse_if, guard_not, refuse, st_raise, mret, ST_ret in E.
    destruct (rd_terminal x); [injection E as <- <-; eauto|].
    destruct (negb (py_eqb (rd_scope_id x) _)); [injection E as <- <-; eauto|].
    destruct (_ && _)%bool; [injection E as <- <-; eauto|].
    destruct (rd_materializing x); [|by rewrite upsert_put in E by done].
    case_bool_decide; [done|]. injection E as <- <-; eauto.
  - unfold mbind, ST_bind in E. by rewrite upsert_put in E by done.
Qed.

(** The record [record_decision] persists. *)
Lemma record_decision_inv entry v ch db r db' :
  (forall by', re_decided_by entry = Some by' -> strip by' <> "") ->
  record_decision h entry v ch db = (r, db') ->
  db' = db /\ (exists e, r = Raise e /\
    ((exists m, e = ReviewDecisionStoreError m) \/ _vault_id h v = Raise e \/
     (exists at', re_decided_at entry = Some at' /\ astimezone_utc (h_local h) at' = Raise e))) \/
  exists rec vid, record_ok rec /\ atomically (persist h rec) db = (r, db') /\
    _vault_id h v = Ok vid /\ record_key rec = (vid, strip ch, re_candidate_id entry) /\
    Some (rd_outcome rec) = re_decision entry /\
    rd_terminal rec = bool_decide (rd_outcome rec ∈ [REJECT; REVISE]).
Proof.
  intros Hby E. unfold record_decision in E.
  destruct (re_decision entry) as [d|]; [|injection E as <- <-; left; by eauto 8].
  destruct (re_decided_by entry) as [by'|]; [|injection E as <- <-; left; by eauto 8].
  destruct (re_decided_at entry) as [at'|]; [|injection E as <- <-; left; by eauto 8].
  unfold mbind, ST_bind, st_lift in E.
  destruct (_vault_id h v) as [vid|e]; [|injection E as <- <-; left; by eauto 8].
  unfold refuse_if, guard_not in E.
  destruct (String.eqb (_safe_str (Some ch)) ""); [injection E as <- <-; left; by eauto 8|].
  destruct (_ && _)%bool; [injection E as <- <-; left; by eauto 8|].
  cbn [mret ST_ret] in E. unfold mret, ST_ret in E.
  destruct (astimezone_utc (h_local h) at') as [t|e] eqn:Et; [|injection E as <- <-; left; by eauto 8].
  right. eexists _, vid. split; [|by split_and!; [exact E|..]].
  split; simpl; try done.
  - unfold astimezone_utc in Et. destruct (_ && _)%bool eqn:Hr in Et; [|done]. injection Et as <-.
    apply andb_true_iff in Hr as [H1%Z.leb_le H2%Z.ltb_lt]. eexists. by split.
  - by apply Hby.
  - destruct (mc_scope_id _), (re_decision_notes entry), (re_revision_of entry),
      (mc_generated_by _), (mc_derived_from _); done.
Qed.

Lemma update_row_put r t m b p term db :
  od_get db (record_key r) = Some (row_of r) ->
  default (dr_terminal (row_of r)) term = dr_terminal (row_of (with_progress r t m b)) ->
  update_row (record_key r) p term (dr_payload (row_of (with_progress r t m b))) db
  = if p (row_of r) then (Ok true, put_record (with_progress r t m b) db) else (Ok false, db).
Proof.
  intros Hr Ht. unfold update_row. rewrite Hr. destruct (p (row_of r)); [|done].
  unfold put_record. do 2 f_equal. rewrite Ht. done.
Qed.

(** [db'] is [db] with the record [r] of [db] moved to a terminal one. *)
Definition completes (db db' : decisions) (r : ReviewDecisionRecord) : Prop :=
  view db (record_key r) = Some r /\ rd_terminal r = false /\
  exists m, let r' := with_progress r true m (rd_materialization_source_binding r) in
    record_ok r' /\ db' = put_record r' db.

Lemma completes_advances db db' r : completes db db' r -> advances db db'.
Proof.
  intros (Hv & Ht & m & Hr & ->). right. eexists. split; [exact Hr|]. split; [done|].
  intros x Hx. assert (x = r) as -> by (unfold record_key in *; simpl in *; congruence).
  by apply progress_terminal.
Qed.

Lemma record_ok_terminal r m :
  record_ok r -> (m = true -> rd_materializing r = true) -> record_ok (with_progress r true m (rd_materialization_source_binding r)).
Proof.
  intros Hr Hm. apply record_ok_progress; [done| |by intros ?; apply ok_reserved, Hm].
  intros s Hs. destruct (ok_binding _ Hr s Hs) as [? _]. auto.
Qed.

Lemma mark_terminal_completes cid v ch sc oc db r' db' :
  db_ok db -> mark_terminal h cid v ch sc oc db = (Ok r', db') -> exists r, completes db db' r.
Proof.
  intros Hdb E. unfold mark_terminal in E. run E as vid d0 G0. apply st_lift_ok in G0 as [_ ->].
  apply atomically_inv in E. simpl in E. rewrite (st_run _ _ _ _ _ (st_select_ok db _ Hdb)) in E.
  destruct (view db _) as [r|] eqn:Hv; [|done].
  destruct (view_row _ _ _ Hdb Hv) as (Hr & Hk & Hrow). rewrite Hk in Hv, Hrow.
  run E as u1 d1 G1. apply guard_not_ok in G1 as [Ht ->].
  run E as u2 d2 G2. apply guard_not_ok in G2 as [_ ->].
  run E as u3 d3 G3. apply guard_not_ok in G3 as [_ ->].
  assert (Hr' := record_ok_terminal r (rd_materializing r) Hr id).
  run E as pl d4 G4. apply st_lift_ok in G4 as [G4 ->]. rewrite stored_payload_of in G4 by done.
  apply (inj Ok) in G4 as <-. run E as u5 d5 G5. injection E as <- <-.
  rewrite update_row_put in G5 by done. injection G5 as <- <-.
  exists r. split; [done|]. split; [done|]. by exists (rd_materializing r).
Qed.

Lemma promotion_close_completes m r db u db' :
  db_ok db -> view db (record_key r) = Some r -> rd_terminal r = false ->
  promotion_close h m r db = (Ok u, db') -> completes db db' r.
Proof.
  intros Hdb Hv Ht E. destruct (view_row _ _ _ Hdb Hv) as (Hr & _ & Hrow).
  unfold promotion_close in E. run E as u1 d1 G1. apply st_lift_ok in G1 as [_ ->].
  run E as u2 d2 G2. apply st_lift_ok in G2 as [_ ->].
  assert (Hr' := record_ok_terminal r false Hr ltac:(done)).
  run E as pl d4 G4. apply st_lift_ok in G4 as [G4 ->]. rewrite stored_payload_of in G4 by done.
  apply (inj Ok) in G4 as <-. run E as b d5 G5. rewrite update_row_put in G5 by done.
  apply guard_not_ok in E as [E ->]. destruct (is_open_promote (row_of r)); [|by injection G5 as <- _].
  injection G5 as <- <-. split; [done|]. split; [done|]. by exists false.
Qed.

(** The key of the decision to materialize. *)
Definition mat_key (m : materialization) : option DecisionKey :=
  match _vault_id h (mt_vault_context m) with
  | Ok v => Some (v, _safe_str (Some (mt_channel m)), _safe_str (Some (mt_candidate_id m)))
  | Raise _ => None
  end.

(** The reservation, or the record reserved before. *)
Lemma promotion_begin_inv m db fresh r db' :
  db_ok db -> (forall init hist b, mt_initialize m = Some init -> init hist = Ok b -> strip b <> "") ->
  promotion_begin h m db = (Ok (fresh, r), db') ->
  mat_key m = Some (record_key r) /\
  rd_outcome r = PROMOTE /\ rd_terminal r = false /\ rd_materializing r = true /\
  if fresh : bool then advances db db' /\ view db' (record_key r) = Some r
  else db' = db /\ view db (record_key r) = Some r.
Proof.
  intros Hdb Hinit E. unfold promotion_begin in E. run E as vid d0 G0. apply st_lift_ok in G0 as [Hvid ->].
  rewrite (st_run _ _ _ _ _ (st_select_ok db _ Hdb)) in E.
  destruct (view db _) as [x|] eqn:Hv; [|done].
  destruct (view_row _ _ _ Hdb Hv) as (Hx & Hk & Hrow).
  assert (Hmk : mat_key m = Some (record_key x)) by (unfold mat_key; rewrite Hvid; congruence).
  rewrite Hk in Hv, Hrow.
  run E as u1 d1 G1. apply guard_not_ok in G1 as [Ho ->]. apply bool_decide_eq_false in Ho.
  assert (rd_outcome x = PROMOTE) as Ho' by (destruct (decide (rd_outcome x = PROMOTE)); tauto).
  run E as u2 d2 G2. apply guard_not_ok in G2 as [Ht ->].
  run E as u3 d3 G3. apply guard_not_ok in G3 as [_ ->].
  run E as u4 d4 G4. apply guard_not_ok in G4 as [_ ->].
  run E as d5 d6 G5. injection G5 as <- <-. run E as hist d7 G6. apply st_lift_ok in G6 as [_ ->].
  destruct (rd_materializing x) eqn:Hm; [by injection E as <- <- <-|].
  run E as sb d8 G8.
  assert (d8 = db /\ forall s, sb = Some s -> strip s <> "") as [-> Hsb].
  { destruct (mt_initialize m) as [init|] eqn:Hi.
    - run G8 as b d9 G9. apply st_lift_ok in G9 as [G9 ->]. injection G8 as <- <-.
      split; [done|]. intros s [= <-]. by eapply Hinit.
    - injection G8 as <- <-. split; [done|]. intros s Hs. by destruct (ok_binding _ Hx s Hs). }
  assert (Hr' : record_ok (with_progress x (rd_terminal x) true sb))
    by (apply record_ok_progress; [done| |done]; intros s Hs; auto).
  run E as pl d9 G9. apply st_lift_ok in G9 as [G9 ->]. rewrite stored_payload_of in G9 by done.
  apply (inj Ok) in G9 as <-. run E as b d9 G9. rewrite update_row_put in G9 by done.
  run E as u5 d10 G10. apply guard_not_ok in G10 as [G10 ->]. injection E as <- <- <-.
  destruct (is_open_promote (row_of x)); [|by injection G9 as <- _]. injection G9 as <- <-.
  repeat split; try done.
  - right. eexists. split; [exact Hr'|]. split; [done|]. intros y Hy.
    assert (y = x) as -> by (unfold record_key in *; simpl in *; congruence).
    by apply progress_reserve.
  - rewrite view_put by done. by rewrite decide_True.
Qed.

Lemma promotion_resume_inv m r0 db r db' :
  db_ok db -> promotion_resume h m r0 db = (Ok r, db') ->
  db' = db /\ record_key r = record_key r0 /\
  view db (record_key r) = Some r /\ rd_terminal r = false /\ rd_materializing r = true.
Proof.
  intros Hdb E. unfold promotion_resume in E.
  rewrite (st_run _ _ _ _ _ (st_select_ok db _ Hdb)) in E.
  destruct (view db _) as [x|] eqn:Hv; [|done].
  destruct (view_row _ _ _ Hdb Hv) as (Hx & Hk & Hrow). rewrite Hk in Hv.
  run E as u1 d1 G1. apply guard_not_ok in G1 as [Ht ->].
  run E as u2 d2 G2. apply guard_not_ok in G2 as [Hc ->]. injection E as <- <-. by bool_prop.
Qed.

(** ** Interleavings

    The transactions of any number of processes, in the order the database
    serializes them. *)

Inductive decision_op : Type :=
  | DRecord (entry : ReviewEntry) (vault_context : VaultContext) (channel : string)
  | DMark (candidate_id : string) (vault_context : VaultContext) (channel : string)
      (expected_scope_id : option pyval) (expected_outcome : option ReviewDecision)
  | DFirst (m : materialization)
  | DSecond (m : materialization) (reserved : ReviewDecisionRecord).

(** An entry the queue decided names its reviewer; the callback of a first
    attempt returns a source binding that is not blank. *)
Definition dop_ok (op : decision_op) : Prop :=
  match op with
  | DRecord e _ _ => forall by', re_decided_by e = Some by' -> strip by' <> ""
  | DFirst m => forall init hist b, mt_initialize m = Some init -> init hist = Ok b -> strip b <> ""
  | _ => True
  end.

(** One transaction; the answer is the key whose materialization it reports
    as complete. *)
Definition decision_step (op : decision_op) (db : decisions) : option DecisionKey * decisions :=
  match op with
  | DRecord e v ch => (None, snd (record_decision h e v ch db))
  | DMark cid v ch sc oc => (None, snd (mark_terminal h cid v ch sc oc db))
  | DFirst m =>
      match promotion_first h m db with
      | (Ok (false, _), db') => (mat_key m, db')
      | (_, db') => (None, db')
      end
  | DSecond m reserved =>
      match promotion_second h m reserved db with
      | (Ok _, db') => (Some (record_key reserved), db')
      | (Raise _, db') => (None, db')
      end
  end.

Definition decisions_after (ops : list decision_op) (db : decisions) : decisions :=
  foldl (fun db op => snd (decision_step op db)) db ops.

Fixpoint completions (k : DecisionKey) (ops : list decision_op) (db : decisions) : nat :=
  match ops with
  | [] => 0
  | op :: ops =>
      let '(r, db') := decision_step op db in
      (if decide (r = Some k) then 1 else 0) + completions k ops db'
  end.

Lemma decision_step_spec op db r db' :
  db_ok db -> dop_ok op -> decision_step op db = (r, db') ->
  advances db db' /\ forall k, r = Some k -> exists x, record_key x = k /\ completes db db' x.
Proof.
  intros Hdb Ho E. destruct op as [e v ch|cid v ch sc oc|m|m x]; cbn [decision_step] in E.
  - injection E as <- <-. split; [|done].
    destruct (record_decision h e v ch db) as [a db'] eqn:R. simpl.
    apply record_decision_inv in R as [[-> _]|(rec & vid & Hrec & R & _)]; [by left| |done].
    apply atomically_inv in R. destruct a as [a|]; [|by left].
    by apply persist_advances in R as [? _].
  - injection E as <- <-. split; [|done].
    destruct (mark_terminal h cid v ch sc oc db) as [[a|e] db'] eqn:R; simpl.
    + apply mark_terminal_completes in R as [x Hx]; [|done]. by eapply completes_advances.
    + unfold mark_terminal in R. apply st_bind_raise in R as [R|(vid & d & R1 & R2)].
      * injection R as _ <-. by left.
      * injection R1 as _ <-. apply atomically_inv in R2 as ->. by left.
  - destruct (promotion_first h m db) as [[a|e] d] eqn:R; apply atomically_inv in R; simpl in R.
    2: { injection E as <- <-. rewrite R. split; [by left|done]. }
    run R as [fresh y] d1 B. pose proof B as (Hk & Hp & Ht & Hm & B')%promotion_begin_inv; [|done..].
    destruct fresh.
    + injection R as <- <-. injection E as <- <-. destruct B' as [? _]. by split.
    + destruct B' as [-> Hv]. run R as u d2 C. injection R as <- <-. injection E as <- <-.
      apply promotion_close_completes in C; [|done..]. split; [by eapply completes_advances|].
      intros k Hk'. exists y. split; [congruence|done].
  - destruct (promotion_second h m x db) as [[a|e] d] eqn:R; apply atomically_inv in R; simpl in R.
    2: { injection E as <- <-. rewrite R. split; [by left|done]. }
    run R as y d1 B. apply promotion_resume_inv in B as (-> & Hk & Hv & Ht & _); [|done].
    run R as u d2 C. injection R as <- <-. apply promotion_close_completes in C; [|done..].
    injection E as <- <-.
    split; [by eapply completes_advances|]. intros k [= <-]. eauto.
Qed.

Lemma decision_step_ok op db : db_ok db -> dop_ok op -> db_ok (snd (decision_step op db)).
Proof.
  intros Hdb Ho. destruct (decision_step op db) as [r db'] eqn:E.
  apply decision_step_spec in E as [? _]; [|done..]. by eapply advances_ok.
Qed.

Lemma decisions_after_ok ops db : db_ok db -> Forall dop_ok ops -> db_ok (decisions_after ops db).
Proof.
  intros Hdb Ho. revert db Hdb. induction Ho as [|op ops Hop _ IH]; intros db Hdb; [done|].
  apply IH. by apply decision_step_ok.
Qed.

Lemma decisions_after_view ops db k r :
  db_ok db -> Forall dop_ok ops -> view db k = Some r ->
  exists r', view (decisions_after ops db) k = Some r' /\ progress r r'.
Proof.
  intros Hdb Ho. revert db r Hdb. induction Ho as [|op ops Hop _ IH]; intros db r Hdb Hv.
  { eauto using progress_refl. }
  destruct (decision_step op db) as [a db'] eqn:E.
  pose proof (decision_step_ok op db Hdb Hop) as Hdb'. rewrite E in Hdb'. simpl in Hdb'.
  apply decision_step_spec in E as E'; [|done..]. destruct E' as [Ha _].
  destruct (advances_view _ _ _ _ Ha Hv) as (r1 & Hv1 & P1).
  destruct (IH db' r1 Hdb' Hv1) as (r2 & Hv2 & P2).
  exists r2. split; [cbn [decisions_after foldl]; by rewrite E|]. by eapply progress_trans.
Qed.

(** C33: whatever transactions run, a decision recorded once only moves
    forward: it is never lost; a terminal one is never changed; its scope never
    changes; its candidate digest, once recorded, never changes; and while its
    materialization is reserved nothing but the reservation itself may
    progress, so outcome, reviewer and source binding stand. *)
Theorem decisions_only_progress ops db k r :
  db_ok db -> Forall dop_ok ops -> view db k = Some r ->
  exists r', view (decisions_after ops db) k = Some r' /\ progress r r'.
Proof. apply decisions_after_view. Qed.

(** C34: every row the store can write decodes: after any transactions from an
    empty table a read fails only when the vault context does. *)
Theorem decisions_stay_readable ops cid v ch vid :
  Forall dop_ok ops -> _vault_id h v = Ok vid ->
  exists o, store_get_decision h cid v ch (decisions_after ops []) = Ok o /\
    (forall r, o = Some r -> strip (rd_decided_by r) <> "" /\ record_key r = (vid, strip ch, strip cid)).
Proof.
  intros Ho Hv. pose proof (decisions_after_ok ops [] db_ok_nil Ho) as Hdb.
  unfold store_get_decision. rewrite Hv. simpl. rewrite select_view by done. eexists. split; [done|].
  intros r Hr. apply view_row in Hr as (Hok & Hk & _); [|done]. split; [apply Hok|done].
Qed.

Lemma completions_terminal k ops db r :
  db_ok db -> Forall dop_ok ops -> view db k = Some r -> rd_terminal r = true -> completions k ops db = 0%nat.
Proof.
  intros Hdb Ho. revert db Hdb. induction Ho as [|op ops Hop _ IH]; intros db Hdb Hv Ht; [done|].
  cbn [completions]. destruct (decision_step op db) as [a db'] eqn:E.
  pose proof (decision_step_ok op db Hdb Hop) as Hdb'. rewrite E in Hdb'.
  apply decision_step_spec in E as [Ha Hc]; [|done..].
  destruct (advances_view _ _ _ _ Ha Hv) as (r1 & Hv1 & P1).
  rewrite (pg_terminal _ _ P1 Ht) in Hv1. rewrite IH by done. case_decide as Hk; [|done].
  destruct (Hc k Hk) as (x & <- & Hx & Htx & _). congruence.
Qed.

(** However materializations, retries and other decisions interleave, at
    most one materialization of a decision is reported complete. *)
Theorem materialization_completes_once k ops db :
  db_ok db -> Forall dop_ok ops -> (completions k ops db <= 1)%nat.
Proof.
  intros Hdb Ho. revert db Hdb. induction Ho as [|op ops Hop Hops IH]; intros db Hdb; [simpl; lia|].
  cbn [completions]. destruct (decision_step op db) as [a db'] eqn:E.
  pose proof (decision_step_ok op db Hdb Hop) as Hdb'. rewrite E in Hdb'.
  case_decide as Hk; [|by apply IH].
  apply decision_step_spec in E as [_ Hc]; [|done..].
  destruct (Hc k Hk) as (x & <- & _ & _ & m & Hr & ->).
  erewrite completions_terminal; [done|done|done| |].
  - rewrite view_put, decide_True by done. reflexivity.
  - done.
Qed.

(** C35: a recorded decision is found again under its candidate id, exactly as
    it was answered, when the id has no surrounding white space; for an id
    with some, [record_decision] writes under the id and the lookups strip
    it, so the lookup answers as if nothing had been recorded. *)
Theorem recorded_decision_found entry v ch db r db' :
  db_ok db -> (forall by', re_decided_by entry = Some by' -> strip by' <> "") ->
  record_decision h entry v ch db = (Ok r, db') ->
  store_get_decision h (re_candidate_id entry) v ch db'
  = if decide (strip (re_candidate_id entry) = re_candidate_id entry) then Ok (Some r)
    else store_get_decision h (re_candidate_id entry) v ch db.
Proof.
  intros Hdb Hby E. apply record_decision_inv in E as [(_ & e & ? & _)|E]; [done| |done].
  destruct E as (rec & vid & Hrec & E & Hvid & Hk & _). apply atomically_inv in E. simpl in E.
  destruct (persist_advances _ _ _ _ Hdb Hrec E) as (Ha & Hv & Hput).
  pose proof (advances_ok _ _ Hdb Ha) as Hdb'.
  unfold store_get_decision. rewrite Hvid. cbn [mbind res_bind _safe_str]. rewrite !select_view by done.
  case_decide as Hs; [by rewrite Hs, <- Hk, Hv|].
  destruct Hput as [->| ->]; [done|]. f_equal. rewrite view_put by done.
  rewrite decide_False; [done|]. rewrite Hk. congruence.
Qed.

(** ** With the review queue *)

#[local] Instance queue_store : DecisionReader decisions VaultContext := store_reader h.

#[local] Instance queue_store_spec : DecisionReaderSpec decisions VaultContext.
Proof.
  intros db cid v ch r. unfold get_decision, queue_store, store_reader, store_get_decision.
  intros (vid & _ & E)%bind_ok. unfold select_record in E.
  destruct (od_get db _) as [row|]; [|done]. apply bind_ok in E as (x & E & [= <-]).
  unfold _record_from_row in E. destruct (dr_payload row) as [[| | | | | | |payload]|]; try done.
  apply bind_ok in E as (y & P & E). assert (y = x) as ->.
  { destruct (negb _) in E; [done|]. by apply bind_ok in E as (u & _ & [= ->]). }
  unfold _record_from_payload in P. apply bind_ok in P as (rev & Hrev & P).
  assert (rd_decided_by x = rev) as ->.
  { repeat (apply bind_ok in P as (? & _ & P)). destruct (_ && _)%bool in P; [done|].
    repeat (apply bind_ok in P as (? & _ & P)). by injection P as <-. }
  unfold decode_reviewer in Hrev. destruct (get payload "decided_by"); try done.
  destruct (String.eqb (strip s) "") eqn:Es in Hrev; [done|]. injection Hrev as <-. by bool_prop.
Qed.

(** A candidate whose decision is terminal in the durable store is never
    asked about again.  Whatever transactions have run since, enqueueing it
    for the compatibility journey answers the recorded decision; it does not
    enter the queue, and a stale entry of it there is replaced by the decided
    one while the others stay. *)
Theorem terminal_candidates_stay_decided ops db r (q : MemoryCandidateReviewQueue) c v ch vid binding :
  db_ok db -> Forall dop_ok ops ->
  q_decision_store q = true -> q_vault_context q = Some v -> q_channel q = Some ch -> ch <> "" ->
  _vault_id h v = Ok vid -> binding ∈ [None; Some COMPATIBILITY_BINDING_ID] ->
  strip (mc_candidate_id c) = mc_candidate_id c ->
  view db (vid, strip ch, mc_candidate_id c) = Some r -> rd_terminal r = true ->
  exists e q', enqueue (decisions_after ops db) c binding q = (Ok e, q') /\
    re_decision e = Some (rd_outcome r) /\ re_status e <> PENDING /\
    match _find_key q (mc_candidate_id c) binding with
    | None => q' = q
    | Some k => q_entries q' = od_set (q_entries q) k (with_binding (fst k) e)
    end.
Proof.
  intros Hdb Ho Hq1 Hq2 Hq3 Hch Hvid Hb Hid Hv Ht.
  destruct (decisions_after_view ops db _ _ Hdb Ho Hv) as (r' & Hv' & P).
  rewrite (pg_terminal _ _ P Ht) in Hv'. pose proof (decisions_after_ok ops db Hdb Ho) as Hdb'.
  destruct (view_row _ _ _ Hdb' Hv') as (Hr & _ & _).
  assert (A : forall w, is_opt_str w = true -> exists o, as_opt_str w = Ok o)
    by (intros [] ?; try done; eauto).
  destruct (A (rd_decision_notes r)) as [notes Hn];
    [pose proof (ok_texts _ Hr) as H; simpl in H; by bool_prop|].
  destruct (A (rd_revision_of r)) as [rof Hrof];
    [pose proof (ok_texts _ Hr) as H; simpl in H; by bool_prop|].
  unfold enqueue, mbind at 1 2, ST_bind, st_get, st_lift, _reconciled_terminal_entry.
  rewrite bool_decide_false by (intros H; by apply H).
  rewrite Hq1, Hq2, Hq3, (proj2 (String.eqb_neq _ _) Hch).
  unfold get_decision, queue_store, store_reader, store_get_decision. rewrite Hvid. cbn [mbind res_bind _safe_str].
  rewrite Hid, select_view, Hv' by done. cbn [mbind res_bind]. rewrite Ht. cbn [negb]. rewrite Hn. cbn [mbind res_bind].
  rewrite Hrof. cbn [mbind res_bind].
  destruct (_find_key q (mc_candidate_id c) binding) as [k|]; eexists _, _; (split; [reflexivity|]);
    (split; [done|]); (split; [by destruct (rd_outcome r)|done]).
Qed.
End Rows.

(** ** A run *)

Module DecisionRun.
Definition demo_host : host :=
  mkHost (fun p => Ok p) (fun _ => 0%Z) (fun _ => "digest") (fun _ => "observed").
Definition vault : VaultContext := mkVault (Some "vault-1") None.

Definition entry (id : string) (d : ReviewDecision) : ReviewEntry :=
  mkEntry (ReviewRun.cand id SEMANTIC_MEMORY) (Some COMPATIBILITY_BINDING_ID) (_DECISION_TO_STATUS d)
    (Some d) (Some "human:ann") (Some (utc 0)) None None.

Definition rec (id : string) (d : ReviewDecision) (terminal : bool) : ReviewDecisionRecord :=
  mkDecision "vault-1" "stable" id d "human:ann" (utc 0) ["ref"] (Some SEMANTIC_MEMORY) (PStr "work")
    REVIEW_DECISION_RECEIPT_KIND terminal PNone PNone PNone PNone (PStr "digest") false None.

Lemma rec_ok id d t : record_ok (rec id d t).
Proof.
  split; try done. exists 0%Z. split; [done|]. split; [lia|vm_compute; reflexivity].
Qed.

Definition mat : materialization :=
  mkMat "m" vault "stable" "work" "digest" (Some (fun _ => Ok "source"))
    (fun _ => Ok tt) (fun _ => Ok tt) (fun _ => Ok tt).
Definition reserved : ReviewDecisionRecord := with_progress (rec "m" PROMOTE false) false true (Some "source").
(** A reservation, a competing rejection, the resumption and a retry. *)
Definition ops : list decision_op :=
  [DFirst mat; DRecord (entry "m" REJECT) vault "stable"; DSecond mat reserved; DFirst mat].
Definition db0 : decisions := put_record (rec "m" PROMOTE false) [].
Definition key : DecisionKey := ("vault-1", "stable", "m").

Lemma db0_ok : db_ok db0.
Proof. apply db_ok_put; [apply db_ok_nil|apply rec_ok]. Qed.
Lemma ops_ok : Forall dop_ok ops.
Proof.
  repeat constructor.
  - intros init hist b [= <-] [= <-]. done.
  - intros by' [= <-]. done.
  - intros init hist b [= <-] [= <-]. done.
Qed.

Lemma decisions_only_progress_run :
  exists r', view demo_host (decisions_after demo_host ops db0) key = Some r' /\
             progress (rec "m" PROMOTE false) r'.
Proof.
  apply (decisions_only_progress demo_host ops db0 key (rec "m" PROMOTE false)); [apply db0_ok|apply ops_ok|].
  unfold db0. rewrite view_put by apply rec_ok. by rewrite decide_True.
Defined.

Lemma decisions_stay_readable_run :
  exists o, store_get_decision demo_host " m " vault "stable" (decisions_after demo_host ops []) = Ok o /\
    (forall r, o = Some r -> strip (rd_decided_by r) <> "" /\ record_key r = ("vault-1", strip "stable", strip " m ")).
Proof.
  apply (decisions_stay_readable demo_host ops " m " vault "stable" "vault-1"); [apply ops_ok|done].
Defined.

Lemma materialization_completes_once_run :
  (completions demo_host key ops db0 <= 1)%nat /\ completions demo_host key ops db0 = 1%nat.
Proof.
  split; [apply (materialization_completes_once demo_host key ops db0); [apply db0_ok|apply ops_ok]|].
  vm_compute. reflexivity.
Defined.

Lemma recorded_decision_found_run :
  store_get_decision demo_host "m" vault "stable" (put_record (rec "m" REJECT true) [])
  = Ok (Some (rec "m" REJECT true)) /\
  store_get_decision demo_host " m" vault "stable" (put_record (rec " m" REJECT true) []) = Ok None.
Proof.
  split.
  - apply (recorded_decision_found demo_host (entry "m" REJECT) vault "stable" [] (rec "m" REJECT true));
      [apply db_ok_nil|by intros by' [= <-]|vm_compute; reflexivity].
  - apply (recorded_decision_found demo_host (entry " m" REJECT) vault "stable" [] (rec " m" REJECT true));
      [apply db_ok_nil|by intros by' [= <-]|vm_compute; reflexivity].
Defined.

Lemma terminal_candidates_stay_decided_run :
  exists e q', enqueue (DecisionReader0 := store_reader demo_host)
      (decisions_after demo_host ops (put_record (rec "m" REJECT true) []))
      (ReviewRun.cand "m" SEMANTIC_MEMORY) None
      (new_queue true (Some vault) (Some "stable")) = (Ok e, q') /\
    re_decision e = Some REJECT /\ re_status e <> PENDING /\ q' = new_queue true (Some vault) (Some "stable").
Proof.
  apply (terminal_candidates_stay_decided demo_host ops (put_record (rec "m" REJECT true) [])
    (rec "m" REJECT true) (new_queue true (Some vault) (Some "stable")) (ReviewRun.cand "m" SEMANTIC_MEMORY)
    vault "stable" "vault-1" None); try done.
  - apply db_ok_put; [apply db_ok_nil|apply rec_ok].
  - apply ops_ok.
  - by left.
Defined.
End DecisionRun.
