(* ===== verification/ProvisionalMemory.v ===== *)
(** * Provisional memory (src/app/agent_memory/provisional_memory.py)

    Memory an agent wrote directly, without review.  The Markdown artifact is
    the only source of meaning; lifecycle receipts carry identifiers, hashes
    and transitions.  [rebuild_provisional_memory] reconciles the two and
    yields a readable record only when they form a completed pair.

    A [UUID4] is its canonical text.  Timestamps are aware datetimes, compared
    as instants.  SHA-256 and Pydantic's text for a datetime are fields of the
    host record of [ReviewDecisions]. *)
From Stdlib Require Import Ascii Sorted Permutation.
From stdpp Require Import sorting.
From S2P Require Import Prelude PyValue PyTime Sql MemoryCandidate ReviewDecisions.

Inductive ProvisionalEvidenceRole : Type :=
  | ER_BACKGROUND | ER_REFERENCE | ER_ANALOGY | ER_INSPIRATION | ER_NON_EVIDENCE.
Inductive ProvisionalSensitivity : Type := SN_PUBLIC | SN_INTERNAL | SN_PRIVATE | SN_SECRET.
Inductive ProvisionalLifecycleTransition : Type :=
  | LT_WRITE_STAGED | LT_CREATED | LT_WRITE_FAILED | LT_DELETED.
Inductive ProvisionalFailureCode : Type :=
  | FC_VAULT_WRITE_FAILED | FC_RECEIPT_PERSIST_FAILED | FC_VALIDATION_FAILED | FC_WRITE_CONFLICT
  | FC_PERMISSION_DENIED.
Inductive ProvisionalActor : Type := AC_AGENT | AC_HUMAN | AC_SYSTEM.
Inductive ProvisionalReconciliationState : Type :=
  | READY | EDITED | RETRYABLE_PARTIAL | MISSING | TERMINAL_DELETED | INCONSISTENT.
Inductive ProvisionalDiagnostic : Type :=
  | RECEIPT_IDENTITY_MISMATCH | ARTIFACT_IDENTITY_MISMATCH | CONFLICTING_RECEIPT_ID
  | AMBIGUOUS_RECEIPT_ORDER | TERMINAL_DELETE_RECEIPT | ARTIFACT_ABSENT_RETRYABLE
  | ARTIFACT_MISSING_AFTER_SUCCESS | ARTIFACT_WITHOUT_SUCCESS | UNSUPPORTED_TERMINAL
  | RECEIPT_MATCHES_MARKDOWN | MARKDOWN_EDITED_AFTER_RECEIPT.

#[export] Instance ProvisionalEvidenceRole_eq_dec : EqDecision ProvisionalEvidenceRole.
Proof. solve_decision. Defined.
#[export] Instance ProvisionalSensitivity_eq_dec : EqDecision ProvisionalSensitivity.
Proof. solve_decision. Defined.
#[export] Instance ProvisionalLifecycleTransition_eq_dec : EqDecision ProvisionalLifecycleTransition.
Proof. solve_decision. Defined.
#[export] Instance ProvisionalFailureCode_eq_dec : EqDecision ProvisionalFailureCode.
Proof. solve_decision. Defined.
#[export] Instance ProvisionalActor_eq_dec : EqDecision ProvisionalActor.
Proof. solve_decision. Defined.
#[export] Instance ProvisionalReconciliationState_eq_dec : EqDecision ProvisionalReconciliationState.
Proof. solve_decision. Defined.
#[export] Instance ProvisionalDiagnostic_eq_dec : EqDecision ProvisionalDiagnostic.
Proof. solve_decision. Defined.

Definition EvidenceRole_value (r : ProvisionalEvidenceRole) : string :=
  match r with
  | ER_BACKGROUND => "background" | ER_REFERENCE => "reference" | ER_ANALOGY => "analogy"
  | ER_INSPIRATION => "inspiration" | ER_NON_EVIDENCE => "non_evidence"
  end.
Definition Sensitivity_value (s : ProvisionalSensitivity) : string :=
  match s with
  | SN_PUBLIC => "public" | SN_INTERNAL => "internal" | SN_PRIVATE => "private"
  | SN_SECRET => "secret"
  end.

(** ** Field constraints *)

Definition is_hex (c : ascii) : bool :=
  let n := code c in ((48 <=? n) && (n <=? 57) || (97 <=? n) && (n <=? 102))%N%bool.

(** The canonical text of a version-4 UUID: [p] holds the test of each of its
    36 positions. *)
Definition uuid4_shape : list (ascii -> bool) :=
  let x := replicate 4 is_hex in let dash := [Ascii.eqb "-"%char] in
  x ++ x ++ dash ++ x ++ dash ++ (Ascii.eqb "4"%char :: replicate 3 is_hex) ++ dash
    ++ ((fun c => existsb (Ascii.eqb c) ["8"; "9"; "a"; "b"]%char) :: replicate 3 is_hex)
    ++ dash ++ x ++ x ++ x.
Fixpoint matches_shape (ps : list (ascii -> bool)) (s : string) : option string :=
  match ps, s with
  | [], _ => Some s
  | p :: ps, String c s => if p c then matches_shape ps s else None
  | _ :: _, EmptyString => None
  end.
Definition is_uuid4 (s : string) : bool := bool_decide (matches_shape uuid4_shape s = Some "").

Definition artifact_prefix : string := "vault://Memory/Provisional/".

(** The pattern of [ArtifactRef]; it fixes the length, 66. *)
Definition artifact_ref_field_ok (s : string) : bool :=
  startswith artifact_prefix s
  && bool_decide (matches_shape uuid4_shape (str_drop (String.length artifact_prefix) s) = Some ".md").

Definition is_entity_char (c : ascii) : bool :=
  is_alnum_ascii c || existsb (Ascii.eqb c) ["."; "_"; ":"; "-"]%char.
(** The constraints of [EntityId]. *)
Definition entity_id_ok (s : string) : bool :=
  (String.length s <=? 128)%nat &&
  match s with EmptyString => false | String c s => is_alnum_ascii c && all_chars is_entity_char s end.

Definition digest_field_ok (d : option string) : bool :=
  match d with None => true | Some s => (String.length s =? 64)%nat && all_chars is_hex s end.

Definition _artifact_ref_for (memory_id : string) : string := artifact_prefix +:+ memory_id +:+ ".md".

Definition aware (d : datetime) : bool := bool_decide (dt_offset d <> None).

(** [if c: raise ValueError(msg)]. *)
Definition reject_if (c : bool) (msg : string) : res unit :=
  if c then Raise (ValueError msg) else Ok tt.

(** ** [ProvisionalMarkdownArtifact] *)

Record ProvisionalMarkdownArtifact : Type := mkArtifact {
  ma_memory_id : string;
  ma_artifact_ref : string;
  ma_scope_id : string;
  ma_principal_id : string;
  ma_memory_type : MemoryType;
  ma_evidence_role : ProvisionalEvidenceRole;
  ma_sensitivity : ProvisionalSensitivity;
  ma_content : string;
  ma_created_by : string;
  ma_created_at : datetime;
  ma_provenance_event_ids : list string }.

(** The three [Literal] fields every artifact and record carries. *)
Definition source_role : string := "agent_memory".
Definition authority_state : string := "noncanonical".
Definition provisional_review_state : ReviewState := RS_UNREVIEWED.

Definition _require_canonical_artifact_ref (memory_id artifact_ref : string) : res unit :=
  reject_if (negb (String.eqb artifact_ref (_artifact_ref_for memory_id)))
    "artifact_ref must be canonical for memory_id".

(** The fields an artifact and a record constrain alike. *)
Definition artifact_fields (a : ProvisionalMarkdownArtifact) : res unit :=
  _ ← reject_if (negb (is_uuid4 (ma_memory_id a))) "memory_id";
  _ ← reject_if (negb (artifact_ref_field_ok (ma_artifact_ref a))) "artifact_ref";
  _ ← reject_if (negb (entity_id_ok (ma_scope_id a))) "scope_id";
  _ ← reject_if (negb (entity_id_ok (ma_principal_id a))) "principal_id";
  _ ← reject_if (String.eqb (ma_content a) "") "content";
  _ ← reject_if (String.eqb (ma_created_by a) "") "created_by";
  _ ← reject_if (negb (aware (ma_created_at a))) "created_at must be timezone-aware";
  _ ← reject_if (bool_decide (ma_provenance_event_ids a = [])
                 || existsb (String.eqb "") (ma_provenance_event_ids a)) "provenance_event_ids";
  _require_canonical_artifact_ref (ma_memory_id a) (ma_artifact_ref a).

Definition ProvisionalMarkdownArtifact_make (a : ProvisionalMarkdownArtifact)
  : res ProvisionalMarkdownArtifact := _ ← artifact_fields a; Ok a.

Definition artifact_dump (h : host) (a : ProvisionalMarkdownArtifact) : pyval :=
  PDict [("memory_id", PStr (ma_memory_id a));
         ("artifact_ref", PStr (ma_artifact_ref a));
         ("scope_id", PStr (ma_scope_id a));
         ("principal_id", PStr (ma_principal_id a));
         ("memory_type", PStr (MemoryType_value (ma_memory_type a)));
         ("evidence_role", PStr (EvidenceRole_value (ma_evidence_role a)));
         ("sensitivity", PStr (Sensitivity_value (ma_sensitivity a)));
         ("content", PStr (ma_content a));
         ("created_by", PStr (ma_created_by a));
         ("created_at", PStr (h_dump_datetime h (ma_created_at a)));
         ("provenance_event_ids", PList (map PStr (ma_provenance_event_ids a)));
         ("source_role", PStr source_role);
         ("authority_state", PStr authority_state);
         ("review_state", PStr (ReviewState_value provisional_review_state))].
Definition artifact_digest (h : host) (a : ProvisionalMarkdownArtifact) : string :=
  h_sha256 h (json_dumps "," ":" false (artifact_dump h a)).

(** ** [ProvisionalLifecycleReceipt] *)

Record ProvisionalLifecycleReceipt : Type := mkReceipt {
  lr_receipt_id : string;
  lr_memory_id : string;
  lr_artifact_ref : string;
  lr_transition : ProvisionalLifecycleTransition;
  lr_actor_ref : ProvisionalActor;
  lr_occurred_at : datetime;
  lr_artifact_digest : option string;
  lr_error_code : option ProvisionalFailureCode }.

#[export] Instance ProvisionalLifecycleReceipt_eq_dec : EqDecision ProvisionalLifecycleReceipt.
Proof. solve_decision. Defined.

Definition _validate_transition_metadata (r : ProvisionalLifecycleReceipt) : res unit :=
  _ ← _require_canonical_artifact_ref (lr_memory_id r) (lr_artifact_ref r);
  match lr_transition r with
  | LT_CREATED =>
      _ ← reject_if (bool_decide (lr_artifact_digest r = None)) "created receipt requires artifact_digest";
      reject_if (bool_decide (lr_error_code r <> None)) "created receipt cannot carry error_code"
  | LT_WRITE_FAILED =>
      _ ← reject_if (bool_decide (lr_error_code r = None)) "write_failed receipt requires error_code";
      reject_if (bool_decide (lr_artifact_digest r <> None)) "failed write cannot claim an artifact digest"
  | _ => reject_if (bool_decide (lr_error_code r <> None)) "error_code is only valid for write_failed"
  end.

Definition ProvisionalLifecycleReceipt_make (r : ProvisionalLifecycleReceipt)
  : res ProvisionalLifecycleReceipt :=
  _ ← reject_if (negb (is_uuid4 (lr_receipt_id r))) "receipt_id";
  _ ← reject_if (negb (is_uuid4 (lr_memory_id r))) "memory_id";
  _ ← reject_if (negb (artifact_ref_field_ok (lr_artifact_ref r))) "artifact_ref";
  _ ← reject_if (negb (aware (lr_occurred_at r))) "occurred_at must be timezone-aware";
  _ ← reject_if (negb (digest_field_ok (lr_artifact_digest r))) "artifact_digest";
  _ ← _validate_transition_metadata r;
  Ok r.

Definition receipt_ok (r : ProvisionalLifecycleReceipt) : Prop :=
  ProvisionalLifecycleReceipt_make r = Ok r.

Definition lr_terminal (r : ProvisionalLifecycleReceipt) : bool :=
  bool_decide (lr_transition r ∈ [LT_CREATED; LT_DELETED]).
Definition lr_retryable (r : ProvisionalLifecycleReceipt) : bool :=
  bool_decide (lr_transition r ∈ [LT_WRITE_STAGED; LT_WRITE_FAILED]).

(** Aware datetimes are compared as instants. *)
Definition occurred_us (r : ProvisionalLifecycleReceipt) : Z :=
  default (dt_us (lr_occurred_at r)) (instant (lr_occurred_at r)).

(** [existing == receipt]. *)
Definition receipt_eqb (a b : ProvisionalLifecycleReceipt) : bool :=
  String.eqb (lr_receipt_id a) (lr_receipt_id b)
  && String.eqb (lr_memory_id a) (lr_memory_id b)
  && String.eqb (lr_artifact_ref a) (lr_artifact_ref b)
  && bool_decide (lr_transition a = lr_transition b)
  && bool_decide (lr_actor_ref a = lr_actor_ref b)
  && (occurred_us a =? occurred_us b)%Z
  && bool_decide (lr_artifact_digest a = lr_artifact_digest b)
  && bool_decide (lr_error_code a = lr_error_code b).

(** ** Records and reconciliations *)

(** [ProvisionalMemoryRecord]: the artifact's fields with the receipts' ids.
    The rights are [Literal] fields, so every record has the same. *)
Record ProvisionalMemoryRecord : Type := mkPRecord {
  pr_artifact : ProvisionalMarkdownArtifact;
  pr_lifecycle_receipt_refs : list string }.

Definition may_read (r : ProvisionalMemoryRecord) : bool := true.
Definition may_support_cited_proposal (r : ProvisionalMemoryRecord) : bool := true.
Definition may_apply (r : ProvisionalMemoryRecord) : bool := false.
Definition may_write (r : ProvisionalMemoryRecord) : bool := false.

Definition ProvisionalMemoryRecord_make (a : ProvisionalMarkdownArtifact) (refs : list string)
  : res ProvisionalMemoryRecord :=
  _ ← artifact_fields a;
  _ ← reject_if (bool_decide (refs = [])) "lifecycle_receipt_refs";
  Ok (mkPRecord a refs).

Record ProvisionalMemoryReconciliation : Type := mkReconciliation {
  rc_memory_id : string;
  rc_artifact_ref : string;
  rc_state : ProvisionalReconciliationState;
  rc_record : option ProvisionalMemoryRecord;
  rc_receipt_refs : list string;
  rc_diagnostic : ProvisionalDiagnostic }.

Definition readable (s : ProvisionalReconciliationState) : bool := bool_decide (s ∈ [READY; EDITED]).

Definition _enforce_record_posture (c : ProvisionalMemoryReconciliation) : res unit :=
  _ ← _require_canonical_artifact_ref (rc_memory_id c) (rc_artifact_ref c);
  match rc_record c with
  | None => reject_if (readable (rc_state c)) "readable reconciliation state requires record"
  | Some r =>
      _ ← reject_if (negb (readable (rc_state c))) "excluded reconciliation state cannot carry record";
      _ ← reject_if (negb (String.eqb (ma_memory_id (pr_artifact r)) (rc_memory_id c))
                     || negb (String.eqb (ma_artifact_ref (pr_artifact r)) (rc_artifact_ref c)))
            "record identity must match reconciliation envelope";
      reject_if (negb (bool_decide (pr_lifecycle_receipt_refs r = rc_receipt_refs c)))
        "record receipt refs must match reconciliation envelope"
  end.

Definition ProvisionalMemoryReconciliation_make (c : ProvisionalMemoryReconciliation)
  : res ProvisionalMemoryReconciliation :=
  _ ← reject_if (negb (is_uuid4 (rc_memory_id c))) "memory_id";
  _ ← reject_if (negb (artifact_ref_field_ok (rc_artifact_ref c))) "artifact_ref";
  _ ← _enforce_record_posture c;
  Ok c.

(** ** Reconciliation *)

(** The loop of [_normalize_receipts]; [None] is a conflicting receipt id. *)
Fixpoint index_receipts (by_id : list (string * ProvisionalLifecycleReceipt))
    (receipts : list ProvisionalLifecycleReceipt)
  : option (list (string * ProvisionalLifecycleReceipt)) :=
  match receipts with
  | [] => Some by_id
  | receipt :: receipts =>
      match od_get by_id (lr_receipt_id receipt) with
      | Some existing =>
          if receipt_eqb existing receipt
          then index_receipts (od_set by_id (lr_receipt_id receipt) receipt) receipts
          else None
      | None => index_receipts (od_set by_id (lr_receipt_id receipt) receipt) receipts
      end
  end.

Definition _normalize_receipts (receipts : list ProvisionalLifecycleReceipt)
  : list ProvisionalLifecycleReceipt
    * option (ProvisionalReconciliationState * ProvisionalDiagnostic) :=
  match index_receipts [] receipts with
  | None => ([], Some (INCONSISTENT, CONFLICTING_RECEIPT_ID))
  | Some by_id =>
      let normalized := map snd by_id in
      if bool_decide (NoDup (map occurred_us normalized)) then (normalized, None)
      else ([], Some (INCONSISTENT, AMBIGUOUS_RECEIPT_ORDER))
  end.

Definition _reconciliation (memory_id artifact_ref : string) (state : ProvisionalReconciliationState)
    (receipt_refs : list string) (diagnostic : ProvisionalDiagnostic)
  : res ProvisionalMemoryReconciliation :=
  ProvisionalMemoryReconciliation_make
    (mkReconciliation memory_id artifact_ref state None receipt_refs diagnostic).

(** The sort key [(occurred_at, receipt_id)]. *)
Definition receipt_leb (a b : ProvisionalLifecycleReceipt) : bool :=
  if (occurred_us a =? occurred_us b)%Z then String.leb (lr_receipt_id a) (lr_receipt_id b)
  else (occurred_us a <? occurred_us b)%Z.

(** [rebuild_provisional_memory] from the ordered receipts on. *)
Definition reconcile_ordered (h : host) (memory_id artifact_ref : string)
    (artifact : option ProvisionalMarkdownArtifact) (ordered : list ProvisionalLifecycleReceipt)
  : res ProvisionalMemoryReconciliation :=
  let refs := map lr_receipt_id ordered in
  if existsb (fun r => negb (String.eqb (lr_memory_id r) memory_id)
                       || negb (String.eqb (lr_artifact_ref r) artifact_ref)) ordered
  then _reconciliation memory_id artifact_ref INCONSISTENT refs RECEIPT_IDENTITY_MISMATCH else
  if match artifact with
     | Some a => negb (String.eqb (ma_memory_id a) memory_id)
                 || negb (String.eqb (ma_artifact_ref a) artifact_ref)
     | None => false
     end
  then _reconciliation memory_id artifact_ref INCONSISTENT refs ARTIFACT_IDENTITY_MISMATCH else
  let latest := last ordered in
  if existsb (fun r => bool_decide (lr_transition r = LT_DELETED)) ordered
  then _reconciliation memory_id artifact_ref TERMINAL_DELETED refs TERMINAL_DELETE_RECEIPT else
  let retry := match latest with None => true | Some r => lr_retryable r end in
  match artifact, latest with
  | None, _ =>
      if retry
      then _reconciliation memory_id artifact_ref RETRYABLE_PARTIAL refs ARTIFACT_ABSENT_RETRYABLE
      else _reconciliation memory_id artifact_ref MISSING refs ARTIFACT_MISSING_AFTER_SUCCESS
  | Some _, None =>
      _reconciliation memory_id artifact_ref RETRYABLE_PARTIAL refs ARTIFACT_WITHOUT_SUCCESS
  | Some a, Some latest =>
      if lr_retryable latest
      then _reconciliation memory_id artifact_ref RETRYABLE_PARTIAL refs ARTIFACT_WITHOUT_SUCCESS
      else if negb (bool_decide (lr_transition latest = LT_CREATED))
      then _reconciliation memory_id artifact_ref INCONSISTENT refs UNSUPPORTED_TERMINAL
      else
        let ready := bool_decide (lr_artifact_digest latest = Some (artifact_digest h a)) in
        record ← ProvisionalMemoryRecord_make a refs;
        ProvisionalMemoryReconciliation_make
          (mkReconciliation memory_id artifact_ref (if ready then READY else EDITED) (Some record) refs
             (if ready then RECEIPT_MATCHES_MARKDOWN else MARKDOWN_EDITED_AFTER_RECEIPT))
  end.

Definition rebuild_provisional_memory (h : host) (memory_id artifact_ref : string)
    (artifact : option ProvisionalMarkdownArtifact) (receipts : list ProvisionalLifecycleReceipt)
  : res ProvisionalMemoryReconciliation :=
  match _normalize_receipts receipts with
  | (_, Some (state, diagnostic)) => _reconciliation memory_id artifact_ref state [] diagnostic
  | (normalized, None) =>
      reconcile_ordered h memory_id artifact_ref artifact (order_by receipt_leb normalized)
  end.

(** ** Receipts up to the spelling of their time *)

(** Two receipts are equal for the code when they differ at most in the offset
    their instant is written with. *)
Definition canon (r : ProvisionalLifecycleReceipt) : ProvisionalLifecycleReceipt :=
  mkReceipt (lr_receipt_id r) (lr_memory_id r) (lr_artifact_ref r) (lr_transition r) (lr_actor_ref r)
    (utc (occurred_us r)) (lr_artifact_digest r) (lr_error_code r).
Definition receipt_equiv (a b : ProvisionalLifecycleReceipt) : Prop := canon a = canon b.

#[export] Instance receipt_equiv_equivalence : Equivalence receipt_equiv.
Proof. unfold receipt_equiv. split; red; congruence. Qed.

Lemma occurred_canon r : occurred_us (canon r) = occurred_us r.
Proof.
  unfold occurred_us at 1. cbn [canon lr_occurred_at utc dt_us dt_offset instant default from_option id]. lia.
Qed.

Lemma receipt_eqb_equiv a b : receipt_eqb a b = true <-> receipt_equiv a b.
Proof.
  unfold receipt_eqb, receipt_equiv, canon. rewrite !andb_true_iff, !bool_decide_eq_true, !String.eqb_eq, Z.eqb_eq.
  split; [|by intros [= -> -> -> -> -> -> -> ->]].
  intros [[[[[[[-> ->] ->] ->] ->] ->] ->] ->]. done.
Qed.

(** Reconciliation does not see the spelling. *)
Lemma existsb_canon p l : (forall r, p (canon r) = p r) -> existsb p (map canon l) = existsb p l.
Proof. intros Hp. induction l as [|r l IH]; simpl; [done|]. by rewrite Hp, IH. Qed.

Lemma reconcile_canon h mid ref art l :
  reconcile_ordered h mid ref art (map canon l) = reconcile_ordered h mid ref art l.
Proof.
  unfold reconcile_ordered. rewrite !existsb_canon by done. rewrite map_map.
  change (map (fun x => lr_receipt_id (canon x)) l) with (map lr_receipt_id l).
  assert (last (map canon l) = canon <$> last l) as -> by (apply fmap_last).
  by destruct (last l).
Qed.

#[export] Instance reconcile_proper h mid ref art :
  Proper (Forall2 receipt_equiv ==> eq) (reconcile_ordered h mid ref art).
Proof.
  intros l l' H. rewrite <- (reconcile_canon h mid ref art l), <- (reconcile_canon h mid ref art l').
  f_equal. induction H as [|r r' l l' Hr _ IH]; simpl; [done|]. by rewrite Hr, IH.
Qed.

(** ** Normalization *)

Definition indexed (d : list (string * ProvisionalLifecycleReceipt)) : Prop :=
  NoDup (map fst d) /\ forall kv, kv ∈ d -> fst kv = lr_receipt_id (snd kv).

Lemma indexed_set d r : indexed d -> indexed (od_set d (lr_receipt_id r) r).
Proof.
  intros [Hn Hk]. split.
  - rewrite od_set_keys. case_decide; [done|]. apply NoDup_app.
    repeat split; [done| |apply NoDup_singleton]. by intros x Hx ->%list_elem_of_singleton.
  - intros kv [->|?]%od_set_elem; auto.
Qed.

Lemma indexed_get d kv : indexed d -> kv ∈ d -> od_get d (lr_receipt_id (snd kv)) = Some (snd kv).
Proof.
  intros [Hn Hk] Hin. rewrite <- (Hk kv Hin). clear Hk.
  induction d as [|[k v] d IH]; [by apply elem_of_nil in Hin|].
  simpl in *. apply NoDup_cons in Hn as [Hk Hn]. apply elem_of_cons in Hin as [->|Hin]; simpl.
  - by rewrite decide_True.
  - rewrite decide_False; [auto|]. intros <-. apply Hk, list_elem_of_fmap. eauto.
Qed.

(** A run of the loop that finds no conflict keeps one receipt of each class. *)
Lemma index_some d l m :
  indexed d -> index_receipts d l = Some m ->
  indexed m /\
  (forall r, r ∈ l \/ od_get d (lr_receipt_id r) = Some r ->
     exists r', od_get m (lr_receipt_id r) = Some r' /\ receipt_equiv r r') /\
  (forall r, r ∈ map snd m -> r ∈ map snd d \/ r ∈ l).
Proof.
  revert d. induction l as [|x l IH]; intros d Hd; simpl.
  { intros [= <-]. split; [done|]. split; [|auto]. intros r [H|H]; [by apply elem_of_nil in H|]. by exists r. }
  set (d1 := od_set d (lr_receipt_id x) x).
  assert (Q : (forall y, od_get d (lr_receipt_id x) = Some y -> receipt_equiv y x) ->
    index_receipts d1 l = Some m -> indexed m /\
    (forall r, r ∈ x :: l \/ od_get d (lr_receipt_id r) = Some r ->
       exists r', od_get m (lr_receipt_id r) = Some r' /\ receipt_equiv r r') /\
    (forall r, r ∈ map snd m -> r ∈ map snd d \/ r ∈ x :: l)).
  { intros Hx H. destruct (IH d1 (indexed_set _ _ Hd) H) as (H1 & H2 & H3). split; [done|]. split.
    - assert (Hself : exists r', od_get m (lr_receipt_id x) = Some r' /\ receipt_equiv x r').
      { apply H2. right. unfold d1. by rewrite od_get_set, decide_True. }
      intros r [[->|Hin]%elem_of_cons|Hg]; [done|apply H2; auto|].
      destruct (decide (lr_receipt_id x = lr_receipt_id r)) as [E|E].
      + destruct Hself as (r' & G & Er). exists r'. rewrite <- E. split; [done|].
        rewrite <- E in Hg. rewrite (Hx r Hg). done.
      + apply H2. right. unfold d1. by rewrite od_get_set, decide_False.
    - intros r [Hr|Hr]%H3; [|right; by right].
      apply list_elem_of_fmap in Hr as ([k v] & -> & [E|Hr]%od_set_elem).
      + simplify_eq/=. right. by left.
      + left. apply list_elem_of_fmap. eauto. }
  destruct (od_get d (lr_receipt_id x)) as [y|]; [|apply Q; done].
  destruct (receipt_eqb y x) eqn:E; [|done]. apply Q. intros y' [= <-]. by apply receipt_eqb_equiv.
Qed.

(** A conflict is two receipts with one id that differ. *)
Lemma index_none d l :
  indexed d -> index_receipts d l = None ->
  exists r r', (r ∈ map snd d \/ r ∈ l) /\ (r' ∈ map snd d \/ r' ∈ l) /\
    lr_receipt_id r = lr_receipt_id r' /\ ~ receipt_equiv r r'.
Proof.
  revert d. induction l as [|x l IH]; intros d Hd; simpl; [done|].
  assert (Q : index_receipts (od_set d (lr_receipt_id x) x) l = None ->
    exists r r', (r ∈ map snd d \/ r ∈ x :: l) /\ (r' ∈ map snd d \/ r' ∈ x :: l) /\
    lr_receipt_id r = lr_receipt_id r' /\ ~ receipt_equiv r r').
  { intros (r & r' & H1 & H2 & H3)%IH; [|by apply indexed_set].
    assert (W : forall r, r ∈ map snd (od_set d (lr_receipt_id x) x) \/ r ∈ l ->
      r ∈ map snd d \/ r ∈ x :: l).
    { intros z [([k v] & -> & [E|Hz]%od_set_elem)%list_elem_of_fmap|Hz];
        [simplify_eq/=; right; by left|left; apply list_elem_of_fmap; eauto|right; by right]. }
    exists r, r'. auto. }
  destruct (od_get d (lr_receipt_id x)) as [y|] eqn:Ey; [|apply Q; done].
  destruct (receipt_eqb y x) eqn:E; [apply Q; done|]. intros _. exists y, x.
  pose proof (od_get_elem _ _ _ Ey) as Hin. destruct Hd as [_ Hk].
  split; [left; apply list_elem_of_fmap; by exists (lr_receipt_id x, y)|]. split; [right; by left|].
  split; [by rewrite (Hk _ Hin : lr_receipt_id x = _)|]. intros H%receipt_eqb_equiv. congruence.
Qed.

Definition conflicting (l : list ProvisionalLifecycleReceipt) : Prop :=
  exists r r', r ∈ l /\ r' ∈ l /\ lr_receipt_id r = lr_receipt_id r' /\ ~ receipt_equiv r r'.
Definition ambiguous (l : list ProvisionalLifecycleReceipt) : Prop :=
  exists r r', r ∈ l /\ r' ∈ l /\ lr_receipt_id r <> lr_receipt_id r' /\ occurred_us r = occurred_us r'.
Definition representatives (n l : list ProvisionalLifecycleReceipt) : Prop :=
  NoDup (map lr_receipt_id n) /\ NoDup (map occurred_us n) /\
  (forall r, r ∈ n -> r ∈ l) /\ (forall r, r ∈ l -> exists r', r' ∈ n /\ receipt_equiv r r').

Lemma map_dup {A B} `{EqDecision B} (f : A -> B) (l : list A) :
  ~ NoDup (map f l) -> exists i x j y, i <> j /\ l !! i = Some x /\ l !! j = Some y /\ f x = f y.
Proof.
  induction l as [|x l IH]; simpl; [by destruct 1; constructor|]. intros H.
  destruct (decide (f x ∈ map f l)) as [Hin|Hout].
  - apply list_elem_of_fmap in Hin as (y & E & [j Hj]%list_elem_of_lookup).
    by exists 0%nat, x, (S j), y.
  - destruct IH as (i & y & j & z & Hij & Hy & Hz & E).
    { intros Hn. apply H. by constructor. }
    exists (S i), y, (S j), z. repeat split; try done. by intros [= ->].
Qed.

Lemma equiv_occurred r r' : receipt_equiv r r' -> occurred_us r = occurred_us r'.
Proof. intros H. by rewrite <- (occurred_canon r), H, occurred_canon. Qed.
Lemma equiv_id r r' : receipt_equiv r r' -> lr_receipt_id r = lr_receipt_id r'.
Proof. by intros [= -> _]. Qed.

Lemma normalize_cases l :
  (_normalize_receipts l = ([], Some (INCONSISTENT, CONFLICTING_RECEIPT_ID)) /\ conflicting l) \/
  (_normalize_receipts l = ([], Some (INCONSISTENT, AMBIGUOUS_RECEIPT_ORDER)) /\
   ~ conflicting l /\ ambiguous l) \/
  (exists n, _normalize_receipts l = (n, None) /\ ~ conflicting l /\ ~ ambiguous l /\ representatives n l).
Proof.
  unfold _normalize_receipts. destruct (index_receipts [] l) as [m|] eqn:E.
  2: { left. split; [done|]. apply index_none in E; [|split; [constructor|by intros ? ?%elem_of_nil]].
       destruct E as (r & r' & [H|H] & [H'|H'] & ? & ?); try by apply elem_of_nil in H.
       - by apply elem_of_nil in H'.
       - by exists r, r'. }
  apply index_some in E as (Hm & Hall & Hsub); [|split; [constructor|by intros ? ?%elem_of_nil]].
  assert (NC : ~ conflicting l).
  { intros (r & r' & Hr & Hr' & Hid & Hne). apply Hne.
    destruct (Hall r (or_introl Hr)) as (a & Ga & ->), (Hall r' (or_introl Hr')) as (b & Gb & ->).
    rewrite Hid in Ga. assert (a = b) as -> by congruence. done. }
  assert (Sub : forall r, r ∈ map snd m -> r ∈ l) by (intros r [H%elem_of_nil|H]%Hsub; done).
  assert (Ids : NoDup (map lr_receipt_id (map snd m))).
  { destruct Hm as [Hn Hk]. replace (map lr_receipt_id (map snd m)) with (map fst m); [done|].
    rewrite map_map. apply map_ext_in. intros kv Hin. by apply Hk, list_elem_of_In. }
  assert (Rep : forall r, r ∈ l -> exists r', r' ∈ map snd m /\ receipt_equiv r r').
  { intros r Hr. destruct (Hall r (or_introl Hr)) as (r' & G%od_get_elem & Hrr').
    exists r'. split; [|done]. apply list_elem_of_fmap. by eexists (_, r'). }
  case_bool_decide as Ht; right; [right|left].
  - exists (map snd m). split; [done|]. split; [done|]. split; [|by split].
    intros (r & r' & Hr & Hr' & Hid & Ho). apply Hid.
    destruct (Rep r Hr) as (a & Ha & Ea), (Rep r' Hr') as (b & Hb & Eb).
    rewrite (equiv_id _ _ Ea), (equiv_id _ _ Eb).
    rewrite (equiv_occurred _ _ Ea), (equiv_occurred _ _ Eb) in Ho.
    apply list_elem_of_lookup in Ha as [i Hi], Hb as [j Hj]. f_equal.
    assert (i = j) as ->; [|congruence].
    eapply NoDup_lookup; [exact Ht|..]; rewrite list_lookup_fmap, ?Hi, ?Hj; simpl; by f_equal.
  - split; [done|]. split; [done|].
    destruct (map_dup _ _ Ht) as (i & r & j & r' & Hij & Hi & Hj & Ho).
    exists r, r'. split; [|split; [|split; [|done]]]; [eapply Sub, list_elem_of_lookup_2; done..|].
    intros Hid. apply Hij. eapply NoDup_lookup; [exact Ids|..]; rewrite list_lookup_fmap, ?Hi, ?Hj; simpl; by f_equal.
Qed.

(** ** The order of the receipts *)

Lemma receipt_leb_total a b : receipt_leb a b = false -> receipt_leb b a = true.
Proof.
  unfold receipt_leb. rewrite (Z.eqb_sym (occurred_us b)).
  destruct (Z.eqb_spec (occurred_us a) (occurred_us b)); [apply leb_false|].
  rewrite Z.ltb_ge, Z.ltb_lt. lia.
Qed.
Lemma receipt_leb_trans a b c : receipt_leb a b = true -> receipt_leb b c = true -> receipt_leb a c = true.
Proof.
  unfold receipt_leb.
  destruct (Z.eqb_spec (occurred_us a) (occurred_us b)), (Z.eqb_spec (occurred_us b) (occurred_us c)),
    (Z.eqb_spec (occurred_us a) (occurred_us c)); rewrite ?Z.ltb_lt; try lia. apply leb_trans.
Qed.
Lemma receipt_leb_occurred a b : receipt_leb a b = true -> (occurred_us a <= occurred_us b)%Z.
Proof. unfold receipt_leb. destruct (Z.eqb_spec (occurred_us a) (occurred_us b)); rewrite ?Z.ltb_lt; lia. Qed.

Lemma sorted_canon n :
  StronglySorted (fun a b => (occurred_us a <= occurred_us b)%Z) (map canon (order_by receipt_leb n)).
Proof.
  pose proof (order_by_sorted receipt_leb receipt_leb_total receipt_leb_trans n) as H.
  induction H as [|r l _ IH Hall]; simpl; constructor; [done|].
  apply Forall_map. eapply Forall_impl; [exact Hall|]. intros x Hx%receipt_leb_occurred. simpl.
  by rewrite !occurred_canon.
Qed.

Lemma canon_elem n l x :
  representatives n l -> x ∈ map canon (order_by receipt_leb n) <-> exists r, r ∈ l /\ x = canon r.
Proof.
  intros (_ & _ & Hsub & Hrep). rewrite list_elem_of_fmap. split.
  - intros (r & -> & Hr%order_by_elem). eauto.
  - intros (r & (r' & Hr' & E)%Hrep & ->). exists r'. split; [exact E|]. by apply order_by_elem.
Qed.

Lemma canon_NoDup n l : representatives n l -> NoDup (map canon (order_by receipt_leb n)).
Proof.
  intros (_ & Ht & _ & _). apply (NoDup_fmap_1 occurred_us).
  replace (occurred_us <$> map canon (order_by receipt_leb n))
    with (map occurred_us (order_by receipt_leb n)).
  - by rewrite order_by_perm.
  - symmetry. etransitivity; [apply map_map|]. apply map_ext. intros r. by rewrite occurred_canon.
Qed.

(** The ordered receipts are the same list up to spelling. *)
Lemma ordered_unique n n' l l' :
  l ≡ₚ l' -> representatives n l -> representatives n' l' ->
  map canon (order_by receipt_leb n) = map canon (order_by receipt_leb n').
Proof.
  intros P Hn Hn'.
  assert (E : forall x, x ∈ map canon (order_by receipt_leb n) <-> x ∈ map canon (order_by receipt_leb n')).
  { intros x. rewrite (canon_elem _ _ _ Hn), (canon_elem _ _ _ Hn'). by setoid_rewrite P. }
  apply StronglySorted_unique_strong with (R := fun a b => (occurred_us a <= occurred_us b)%Z).
  - intros x y Hx Hy%E Hxy Hyx. assert (Ho : occurred_us x = occurred_us y) by lia.
    apply list_elem_of_lookup in Hx as [i Hi], Hy as [j Hj].
    assert (Hd : NoDup (map occurred_us (map canon (order_by receipt_leb n)))).
    { destruct Hn as (_ & Ht & _). rewrite map_map.
      rewrite (map_ext _ occurred_us) by (intros; apply occurred_canon). by rewrite order_by_perm. }
    assert (i = j) as ->; [|congruence].
    eapply NoDup_lookup; [exact Hd|..]; rewrite list_lookup_fmap, ?Hi, ?Hj; simpl; by f_equal.
  - apply sorted_canon.
  - apply sorted_canon.
  - apply NoDup_Permutation; [by eapply canon_NoDup..|exact E].
Qed.

(** C36: the outcome of a reconciliation depends on which receipts exist, not on
    the order they were read in: conflicts, ambiguities, state, record, receipt
    references and diagnostic are the same for every permutation. *)
Theorem rebuild_order_independent h mid ref art l l' :
  l ≡ₚ l' -> rebuild_provisional_memory h mid ref art l = rebuild_provisional_memory h mid ref art l'.
Proof.
  intros P.
  assert (C : conflicting l <-> conflicting l') by (unfold conflicting; by setoid_rewrite P).
  assert (A : ambiguous l <-> ambiguous l') by (unfold ambiguous; by setoid_rewrite P).
  unfold rebuild_provisional_memory.
  destruct (normalize_cases l) as [(-> & ?)|[(-> & ? & ?)|(n & -> & ? & ? & Hn)]],
    (normalize_cases l') as [(-> & ?)|[(-> & ? & ?)|(n' & -> & ? & ? & Hn')]]; try done; try tauto.
  rewrite <- reconcile_canon, <- (reconcile_canon h mid ref art (order_by _ n')).
  by rewrite (ordered_unique n n' l l' P Hn Hn').
Qed.

(** ** When a record is readable *)

Lemma matches_shape_app ps s t u :
  matches_shape ps s = Some t -> matches_shape ps (s +:+ u) = Some (t +:+ u).
Proof.
  revert s. induction ps as [|p ps IH]; intros s; simpl; [by intros [= ->]|].
  destruct s as [|c s]; [done|]. rewrite append_cons. destruct (p c); [apply IH|done].
Qed.
Lemma str_drop_app p s : str_drop (String.length p) (p +:+ s) = s.
Proof. induction p as [|c p IH]; [done|]. rewrite append_cons. done. Qed.

Lemma canonical_ref_ok mid : is_uuid4 mid = true -> artifact_ref_field_ok (_artifact_ref_for mid) = true.
Proof.
  intros H%bool_decide_eq_true. unfold artifact_ref_field_ok, _artifact_ref_for.
  rewrite startswith_app, str_drop_app. apply bool_decide_eq_true. by rewrite (matches_shape_app _ _ _ _ H).
Qed.

(** The pair of Markdown and receipts that makes a record readable. *)
Definition completed (mid ref : string) (a : ProvisionalMarkdownArtifact)
    (l : list ProvisionalLifecycleReceipt) (latest : ProvisionalLifecycleReceipt) : Prop :=
  ~ conflicting l /\ ~ ambiguous l /\
  (forall r, r ∈ l -> lr_memory_id r = mid /\ lr_artifact_ref r = ref /\ lr_transition r <> LT_DELETED) /\
  ma_memory_id a = mid /\ ma_artifact_ref a = ref /\
  latest ∈ l /\ lr_transition latest = LT_CREATED /\
  (forall r, r ∈ l -> (occurred_us r <= occurred_us latest)%Z).

Lemma existsb_rep p n l :
  (forall r, p (canon r) = p r) -> representatives n l ->
  existsb p (order_by receipt_leb n) = true <-> exists r, r ∈ l /\ p r = true.
Proof.
  intros Hp (_ & _ & Hsub & Hrep). rewrite existsb_exists. split.
  - intros (r & Hr%list_elem_of_In%order_by_elem & E). eauto.
  - intros (r & (r' & Hr' & E)%Hrep & Ep). exists r'. split.
    + by apply list_elem_of_In, order_by_elem.
    + by rewrite <- Hp, <- E, Hp.
Qed.

Lemma last_max n r x :
  last (order_by receipt_leb n) = Some r -> x ∈ n -> (occurred_us x <= occurred_us r)%Z.
Proof.
  pose proof (order_by_sorted receipt_leb receipt_leb_total receipt_leb_trans n) as H.
  intros Hl Hx%(order_by_elem receipt_leb). revert Hl Hx.
  induction H as [|y l Hs IH Hall]; [done|]. intros Hl Hx.
  apply elem_of_cons in Hx as [->|Hx].
  - destruct l as [|z l]; [simpl in Hl; injection Hl as ->; lia|].
    assert (Hr : r ∈ z :: l) by (apply last_Some_elem_of; by rewrite last_cons_cons in Hl).
    apply (proj1 (Forall_forall _ _) Hall) in Hr. by apply receipt_leb_occurred.
  - destruct l as [|z l]; [by apply elem_of_nil in Hx|]. rewrite last_cons_cons in Hl. auto.
Qed.

Lemma last_some n l : representatives n l -> l <> [] -> exists r, last (order_by receipt_leb n) = Some r /\ r ∈ l.
Proof.
  intros Hn Hl. destruct l as [|x l]; [done|].
  destruct (last (order_by receipt_leb n)) as [r|] eqn:E.
  - exists r. split; [done|]. apply Hn, (order_by_elem receipt_leb). by apply last_Some_elem_of.
  - apply last_None in E. apply order_by_nil in E. subst n.
    destruct Hn as (_ & _ & _ & Hrep). destruct (Hrep x) as (r' & H & _); [by left|].
    by apply elem_of_nil in H.
Qed.

Section Readable.
Context (h : host) (mid : string) (Hmid : is_uuid4 mid = true).
Abbreviation ref := (_artifact_ref_for mid).

Lemma reconciliation_ok state refs d :
  readable state = false ->
  _reconciliation mid ref state refs d = Ok (mkReconciliation mid ref state None refs d).
Proof.
  intros Hs. unfold _reconciliation, ProvisionalMemoryReconciliation_make, _enforce_record_posture,
    _require_canonical_artifact_ref. cbn [rc_memory_id rc_artifact_ref rc_record rc_state].
  by rewrite Hmid, canonical_ref_ok, String.eqb_refl, Hs.
Qed.

Lemma record_reconciliation_ok a refs state d :
  artifact_fields a = Ok tt -> refs <> [] -> readable state = true ->
  ma_memory_id a = mid -> ma_artifact_ref a = ref ->
  (record ← ProvisionalMemoryRecord_make a refs;
   ProvisionalMemoryReconciliation_make (mkReconciliation mid ref state (Some record) refs d))
  = Ok (mkReconciliation mid ref state (Some (mkPRecord a refs)) refs d).
Proof.
  intros Ha Hr Hs Hm Hf. unfold ProvisionalMemoryRecord_make. rewrite Ha. cbn [mbind res_bind].
  rewrite bool_decide_false by done. cbn [reject_if mbind res_bind].
  unfold ProvisionalMemoryReconciliation_make, _enforce_record_posture, _require_canonical_artifact_ref.
  cbn [rc_memory_id rc_artifact_ref rc_record rc_state pr_artifact pr_lifecycle_receipt_refs rc_receipt_refs].
  rewrite Hmid, canonical_ref_ok, Hs, Hm, Hf, !String.eqb_refl, bool_decide_true by done. done.
Qed.

(** The conclusion of the theorem below, for a reconciliation [c]. *)
Definition fair_outcome (art : option ProvisionalMarkdownArtifact) (l : list ProvisionalLifecycleReceipt)
    (c : ProvisionalMemoryReconciliation) : Prop :=
  match rc_record c with
  | None => readable (rc_state c) = false /\
            forall a latest, art = Some a -> ~ completed mid ref a l latest
  | Some rec => exists a latest, art = Some a /\ completed mid ref a l latest /\ pr_artifact rec = a /\
            rc_state c = (if decide (lr_artifact_digest latest = Some (artifact_digest h a))
                          then READY else EDITED)
  end.

(** An exclusion: no record, and the pair is not completed. *)
Lemma excluded art l state refs d :
  readable state = false -> (forall a latest, art = Some a -> ~ completed mid ref a l latest) ->
  exists c, _reconciliation mid ref state refs d = Ok c /\ fair_outcome art l c.
Proof. intros Hs Hn. rewrite reconciliation_ok by done. eexists. split; [done|]. by split. Qed.

Lemma latest_max n l lt :
  representatives n l -> last (order_by receipt_leb n) = Some lt ->
  lt ∈ l /\ forall r, r ∈ l -> (occurred_us r <= occurred_us lt)%Z.
Proof.
  intros Hn El. split.
  - apply Hn, (order_by_elem receipt_leb). by apply last_Some_elem_of.
  - intros r Hr. destruct Hn as (_ & _ & _ & Hrep). destruct (Hrep r Hr) as (r' & Hr' & E).
    rewrite (equiv_occurred _ _ E). by eapply last_max.
Qed.

(** The latest receipt of a completed pair is its creation. *)
Lemma latest_created l lt b latest :
  lt ∈ l -> (forall r, r ∈ l -> (occurred_us r <= occurred_us lt)%Z) ->
  completed mid ref b l latest -> lr_transition lt = LT_CREATED.
Proof.
  intros Hltl Hmax (NC & NA & _ & _ & _ & Hin & Hc & Hm). rewrite <- Hc.
  assert (Ho : occurred_us latest = occurred_us lt)
    by (specialize (Hm lt Hltl); specialize (Hmax latest Hin); lia).
  destruct (decide (canon lt = canon latest)) as [[= _ _ _ -> _ _ _ _]|Hne]; [done|].
  destruct (decide (lr_receipt_id lt = lr_receipt_id latest)); exfalso;
    [apply NC|apply NA]; by exists lt, latest.
Qed.

Lemma reconcile_readable art n l :
  match art with Some a => artifact_fields a = Ok tt | None => True end ->
  ~ conflicting l -> ~ ambiguous l -> representatives n l ->
  exists c, reconcile_ordered h mid ref art (order_by receipt_leb n) = Ok c /\ fair_outcome art l c.
Proof.
  intros Hart NC NA Hn. unfold reconcile_ordered.
  set (p := fun r => negb (String.eqb (lr_memory_id r) mid) || negb (String.eqb (lr_artifact_ref r) ref)).
  destruct (existsb p (order_by receipt_leb n)) eqn:Ep.
  { apply excluded; [done|]. intros a latest _ (_ & _ & Hall & _).
    apply (existsb_rep p n l) in Ep as (r & Hr & Ep); [|done..]. destruct (Hall r Hr) as (E1 & E2 & _).
    unfold p in Ep. by rewrite E1, E2, !String.eqb_refl in Ep. }
  assert (Hids : forall r, r ∈ l -> lr_memory_id r = mid /\ lr_artifact_ref r = ref).
  { intros r Hr. destruct (p r) eqn:E; [|unfold p in E; by bool_prop].
    enough (existsb p (order_by receipt_leb n) = true) by congruence. apply (existsb_rep p n l); eauto. }
  destruct (match art with Some a => _ | None => false end) eqn:Ea.
  { apply excluded; [done|]. intros a latest -> (_ & _ & _ & E1 & E2 & _).
    by rewrite E1, E2, !String.eqb_refl in Ea. }
  set (q := fun r => bool_decide (lr_transition r = LT_DELETED)).
  destruct (existsb q (order_by receipt_leb n)) eqn:Eq.
  { apply excluded; [done|]. intros a latest _ (_ & _ & Hall & _).
    apply (existsb_rep q n l) in Eq as (r & Hr & Eq); [|done..]. destruct (Hall r Hr) as (_ & _ & E).
    unfold q in Eq. by bool_prop. }
  assert (Hdel : forall r, r ∈ l -> lr_transition r <> LT_DELETED).
  { intros r Hr E. enough (existsb q (order_by receipt_leb n) = true) by congruence.
    apply (existsb_rep q n l); [done..|]. exists r. split; [done|]. by apply bool_decide_eq_true. }
  destruct art as [a|].
  2: { destruct (match last _ with None => true | Some r => lr_retryable r end); by apply excluded. }
  bool_prop.
  destruct (last (order_by receipt_leb n)) as [lt|] eqn:El.
  2: { apply excluded; [done|]. intros b latest _ (_ & _ & _ & _ & _ & Hin & _).
       destruct (last_some n l Hn) as (r & Hr & _); [|congruence]. intros ->. by apply elem_of_nil in Hin. }
  destruct (latest_max n l lt Hn El) as [Hltl Hmax].
  pose proof (fun b latest => latest_created l lt b latest Hltl Hmax) as Huniq.
  destruct (lr_retryable lt) eqn:Er.
  { apply excluded; [done|]. intros b latest _ C. apply Huniq in C. unfold lr_retryable in Er. by rewrite C in Er. }
  case_bool_decide as Hc; cbn [negb].
  2: { apply excluded; [done|]. intros b latest _ C. by apply Huniq in C. }
  rewrite record_reconciliation_ok; [| done | | by case_bool_decide | done..].
  - eexists. split; [done|]. simpl. exists a, lt. split; [done|]. split.
    { split; [done|]. split; [done|]. split; [|done]. intros r Hr. destruct (Hids r Hr). auto. }
    split; [done|]. by repeat case_decide || case_bool_decide.
  - intros E. apply map_eq_nil in E. by rewrite E in El.
Qed.

(** Reconciliation never fails on a canonical reference and validated
    Markdown, and it yields a readable record exactly when the pair is
    completed: the receipts neither conflict nor tie, all name this memory,
    none records a deletion, the Markdown is this memory's, and the latest
    receipt records the creation.  The record is the Markdown's, and the state
    says whether the receipt's digest still is. *)
Theorem rebuild_readable_iff art l :
  match art with Some a => artifact_fields a = Ok tt | None => True end ->
  exists c, rebuild_provisional_memory h mid ref art l = Ok c /\ fair_outcome art l c.
Proof.
  intros Hart. unfold rebuild_provisional_memory.
  destruct (normalize_cases l) as [(-> & Hc)|[(-> & _ & Ha)|(n & -> & NC & NA & Hn)]].
  - apply excluded; [done|]. intros a latest _ (H & _). by apply H.
  - apply excluded; [done|]. intros a latest _ (_ & H & _). by apply H.
  - by apply reconcile_readable.
Qed.
End Readable.

(** ** A run *)

Module ProvisionalRun.
Definition mid : string := "00000000-0000-4000-8000-000000000001".
Definition rid (c : string) : string := "00000000-0000-4000-8000-00000000000" +:+ c.
Definition note : ProvisionalMarkdownArtifact :=
  mkArtifact mid (_artifact_ref_for mid) "work" "agent-1" EPISODIC_MEMORY ER_BACKGROUND SN_INTERNAL
    "text" "agent" (utc 0) ["event-1"].
Definition receipt (c : string) (t : ProvisionalLifecycleTransition) (at' : Z) (d : option string) :=
  mkReceipt (rid c) mid (_artifact_ref_for mid) t AC_AGENT (utc at') d None.
Definition staged : ProvisionalLifecycleReceipt := receipt "2" LT_WRITE_STAGED 1 None.
Definition created : ProvisionalLifecycleReceipt := receipt "3" LT_CREATED 2 (Some "digest").
Definition run_host : host := mkHost (fun p => Ok p) (fun _ => 0%Z) (fun _ => "digest") (fun _ => "t").

Lemma rebuild_order_independent_run :
  rebuild_provisional_memory run_host mid (_artifact_ref_for mid) (Some note) [created; staged]
  = rebuild_provisional_memory run_host mid (_artifact_ref_for mid) (Some note) [staged; created].
Proof.
  apply (rebuild_order_independent run_host mid (_artifact_ref_for mid) (Some note)).
  apply perm_swap.
Defined.

Example rebuild_ready :
  rebuild_provisional_memory run_host mid (_artifact_ref_for mid) (Some note) [created; staged]
  = Ok (mkReconciliation mid (_artifact_ref_for mid) READY (Some (mkPRecord note [rid "2"; rid "3"]))
          [rid "2"; rid "3"] RECEIPT_MATCHES_MARKDOWN).
Proof. vm_compute. reflexivity. Qed.

Lemma rebuild_readable_iff_run :
  exists c, rebuild_provisional_memory run_host mid (_artifact_ref_for mid) (Some note) [created; staged] = Ok c /\
    fair_outcome run_host mid (Some note) [created; staged] c.
Proof.
  apply (rebuild_readable_iff run_host mid ltac:(vm_compute; reflexivity) (Some note) [created; staged]).
  vm_compute. reflexivity.
Defined.
End ProvisionalRun.
