(* ===== verification/MemoryRecall.v ===== *)
(** * From review to recall (src/app/agent_memory/promotion.py,
      recall_explanation.py, authority_guard.py, recall_activation.py)

    A decided entry becomes a promoted memory; a recall of it is explained,
    its authority is evaluated, and a receipt is appended to a journal before
    the recall is handed out.  Random identifiers and the clock are arguments;
    the journal is the list of JSON records, and appending to it may fail
    before or after the line is written. *)
From Stdlib Require Import Ascii.
From S2P Require Import Prelude PyValue PyTime Sql ReceiptStore MemoryCandidate ReviewQueue ReviewBoard ReviewDecisions ProvisionalMemory.

(** ** Promotion *)

Record PromotedMemory : Type := mkPromoted {
  pm_promotion_id : string;
  pm_outcome : ReviewState;
  pm_candidate : MemoryCandidate;
  pm_decided_by : string;
  pm_decided_at : datetime;
  pm_decision_notes : option string;
  pm_revision_of : option string;
  pm_promoted_at : datetime }.

Definition _SEMANTIC_TYPES : list MemoryType := [SEMANTIC_MEMORY].

Definition _require_decided (entry : ReviewEntry) (expected : ReviewDecision) : res unit :=
  if bool_decide (re_status entry = PENDING)
  then Raise (PromotionError "candidate has not been reviewed yet")
  else if bool_decide (re_decision entry <> Some expected)
  then Raise (PromotionError "candidate has another decision")
  else Ok tt.

Definition _require_asserted_promote_fields (entry : ReviewEntry) : res unit :=
  let candidate := re_candidate entry in
  let has_multi_source := (1 <? length (mc_source_refs candidate))%nat in
  let is_asserted := negb (mc_inferred candidate) in
  if negb (is_asserted || has_multi_source)
  then Raise (PromotionError "semantic promotion requires stricter review evidence")
  else Ok tt.

(** [PromotedMemory(...)]: the reviewer and the time are required fields. *)
Definition PromotedMemory_make (promotion_id : string) (now : datetime) (outcome : ReviewState)
    (entry : ReviewEntry) (revision_of : option string) : res PromotedMemory :=
  match re_decided_by entry, re_decided_at entry with
  | Some by', Some at' =>
      Ok (mkPromoted promotion_id outcome (re_candidate entry) by' at' (re_decision_notes entry)
            revision_of now)
  | _, _ => Raise (ValueError "decided_by and decided_at are required")
  end.

Definition promote (promotion_id : string) (now : datetime) (entry : ReviewEntry) : res PromotedMemory :=
  _ ← _require_decided entry PROMOTE;
  _ ← (if bool_decide (mc_memory_type (re_candidate entry) ∈ _SEMANTIC_TYPES)
       then _require_asserted_promote_fields entry else Ok tt);
  PromotedMemory_make promotion_id now RS_ACCEPTED entry None.

Definition reject (promotion_id : string) (now : datetime) (entry : ReviewEntry) : res PromotedMemory :=
  _ ← _require_decided entry REJECT;
  PromotedMemory_make promotion_id now RS_REJECTED entry None.

Definition revise (promotion_id : string) (now : datetime) (original_entry revised_entry : ReviewEntry)
  : res PromotedMemory :=
  _ ← _require_decided original_entry REVISE;
  if negb (bool_decide (re_status revised_entry ∈ [PENDING; PROMOTED]))
  then Raise (PromotionError "revised entry must be PENDING or PROMOTED")
  else if negb (bool_decide (re_revision_of revised_entry = Some (re_candidate_id original_entry)))
  then Raise (PromotionError "revised entry does not reference the original candidate")
  else PromotedMemory_make promotion_id now RS_REVISED original_entry
         (Some (re_candidate_id revised_entry)).

(** ** Recall explanations *)

Inductive RecallUseRight : Type := ACTIVATABLE | CITED_PROPOSAL | INSTRUCTIONAL | ACTION_AUTHORIZING.
Inductive ActivationReason : Type :=
  | EXPLICIT_REFERENCE | CONTEXTUAL_RELEVANCE | POLICY_APPLICABILITY | RESUME_CONTINUITY
  | AUTHORITY_SIGNAL.
Inductive MemoryLifecycleState : Type := ML_PROMOTED | ML_PROVISIONAL | ML_REVISED | ML_REJECTED.

#[export] Instance RecallUseRight_eq_dec : EqDecision RecallUseRight.
Proof. solve_decision. Defined.
#[export] Instance ActivationReason_eq_dec : EqDecision ActivationReason.
Proof. solve_decision. Defined.
#[export] Instance MemoryLifecycleState_eq_dec : EqDecision MemoryLifecycleState.
Proof. solve_decision. Defined.

Definition RecallUseRight_value (u : RecallUseRight) : string :=
  match u with
  | ACTIVATABLE => "activatable" | CITED_PROPOSAL => "cited_proposal"
  | INSTRUCTIONAL => "instructional" | ACTION_AUTHORIZING => "action_authorizing"
  end.
Definition ActivationReason_value (r : ActivationReason) : string :=
  match r with
  | EXPLICIT_REFERENCE => "explicit_reference" | CONTEXTUAL_RELEVANCE => "contextual_relevance"
  | POLICY_APPLICABILITY => "policy_applicability" | RESUME_CONTINUITY => "resume_continuity"
  | AUTHORITY_SIGNAL => "authority_signal"
  end.

Record SourceProvenance : Type := mkProvenance {
  sp_source_refs : list string;
  sp_derived_from : option string;
  sp_generated_by : option string }.

Record RecallExplanation : Type := mkExplanation {
  rx_artifact_id : string;
  rx_title : string;
  rx_artifact_class : string;
  rx_artifact_type : option string;
  rx_memory_type : string;
  rx_use_right : RecallUseRight;
  rx_lifecycle_state : MemoryLifecycleState;
  rx_review_state : ReviewState;
  rx_trust_state : option string;
  rx_activation_reason : ActivationReason;
  rx_why_now : string;
  rx_bundle_reference : option string;
  rx_source_provenance : SourceProvenance;
  rx_authority_limits : list string;
  rx_behavioral_claim : option string;
  rx_action_scope : option string;
  rx_authority_source : option string;
  rx_receipt_reference : option string }.

Definition _lifecycle_state (promoted : PromotedMemory) : MemoryLifecycleState :=
  match pm_outcome promoted with
  | RS_REVISED => ML_REVISED
  | RS_REJECTED => ML_REJECTED
  | _ => ML_PROMOTED
  end.

Definition _authority_limits (promoted : PromotedMemory) (use_right : RecallUseRight) : list string :=
  let c := pm_candidate promoted in
  ["memory_is_supporting_input_not_source_of_truth"]
  ++ (if bool_decide (use_right <> ACTION_AUTHORIZING) then ["does_not_authorize_writeback"] else [])
  ++ (if bool_decide (mc_review_state c <> RS_ACCEPTED)
      then ["requires_accepted_review_state_for_instructional_use"] else [])
  ++ (if mc_inferred c then ["inferred_memory_requires_review_visibility"] else [])
  ++ (if bool_decide (pm_outcome promoted = RS_REJECTED)
      then ["rejected_memory_is_non_authoritative"] else [])
  ++ (if bool_decide (pm_outcome promoted = RS_REVISED)
      then ["revised_memory_requires_current_revision_for_authority"] else []).

Definition _effective_review_state (promoted : PromotedMemory) : ReviewState :=
  if bool_decide (pm_outcome promoted = RS_ACCEPTED) then RS_ACCEPTED
  else mc_review_state (pm_candidate promoted).

(** Truth of an [Optional[str]]. *)
Definition truthy_opt (o : option string) : bool :=
  match o with Some s => negb (String.eqb s "") | None => false end.

Definition build_recall_explanation (promoted : PromotedMemory) (use_right : RecallUseRight)
    (activation_reason : ActivationReason) (why_now : string)
    (bundle_reference behavioral_claim action_scope authority_source receipt_reference : option string)
  : res RecallExplanation :=
  let effective := _effective_review_state promoted in
  let c := pm_candidate promoted in
  _ ← match use_right with
      | INSTRUCTIONAL =>
          if bool_decide (effective <> RS_ACCEPTED)
          then Raise (ValueError "instructional recall requires review_state=accepted")
          else if negb (truthy_opt behavioral_claim)
          then Raise (ValueError "instructional recall requires a behavioral_claim")
          else Ok tt
      | ACTION_AUTHORIZING =>
          if bool_decide (effective <> RS_ACCEPTED)
          then Raise (ValueError "action_authorizing recall requires review_state=accepted")
          else if negb (truthy_opt behavioral_claim) || negb (truthy_opt action_scope)
                  || negb (truthy_opt authority_source) || negb (truthy_opt receipt_reference)
          then Raise (ValueError "action_authorizing recall requires behavioral_claim, action_scope, authority_source, and receipt_reference")
          else Ok tt
      | _ => Ok tt
      end;
  Ok (mkExplanation (mc_candidate_id c) (mc_title c) (mc_artifact_class c) (mc_artifact_type c)
    (MemoryType_value (mc_memory_type c)) use_right (_lifecycle_state promoted) effective None
    activation_reason why_now bundle_reference
    (mkProvenance (mc_source_refs c) (mc_derived_from c) (mc_generated_by c))
    (_authority_limits promoted use_right) behavioral_claim action_scope authority_source
    receipt_reference).

(** U+00B7, the separator of the footer. *)
Definition middle_dot : string := String (ascii_of_N 183) "".
Definition render_recall_footer (recalled : list RecallExplanation) : string :=
  let part x :=
    let receipt := strip (default "" (rx_receipt_reference x)) in
    if String.eqb receipt "" then []
    else let title := strip (rx_title x) in
         [(if String.eqb title "" then rx_artifact_id x else title)
            +:+ " " +:+ middle_dot +:+ " receipt " +:+ receipt] in
  match List.concat (map part recalled) with
  | [] => ""
  | parts => "Recalled from: " +:+ join "; " parts
  end.

(** ** The authority guard *)

Inductive MemoryAuthorityLevel : Type := AL_SUGGESTION_ONLY | AL_INSTRUCTIONAL | AL_ACTION_AUTHORIZING.

Definition MemoryAuthorityLevel_value (l : MemoryAuthorityLevel) : string :=
  match l with
  | AL_SUGGESTION_ONLY => "suggestion_only" | AL_INSTRUCTIONAL => "instructional"
  | AL_ACTION_AUTHORIZING => "action_authorizing"
  end.

Record MemoryAuthorityDecision : Type := mkAuthority {
  ad_allow_suggestion : bool;
  ad_allow_mutation : bool;
  ad_authority_level : MemoryAuthorityLevel;
  ad_blocked_reasons : list string;
  ad_posture_visibility_required : bool;
  ad_posture_markers : list string;
  ad_requested_action_scope : option string }.

(** [sorted(set(l))]. *)
Definition sorted_set (l : list string) : list string := order_by String.leb (dict_fromkeys l).

Definition _ACTION_AUTHORIZING_MEMORY_TYPES : list MemoryType := [POLICY_MEMORY; PREFERENCE_MEMORY].

(** [if c: l.append(s)], as a part of the list. *)
Definition mark (c : bool) (s : string) : list string := if c then [s] else [].

Definition evaluate_memory_authority (promoted : PromotedMemory) (use_right : RecallUseRight)
    (requested_action_scope : option string) (conflicts_with_human_truth : bool)
  : MemoryAuthorityDecision :=
  let candidate := pm_candidate promoted in
  let posture_markers :=
    mark (mc_inferred candidate) "inferred"
    ++ mark (bool_decide (mc_contradiction_state candidate = CS_CONTRADICTED)) "contradicted"
    ++ mark (bool_decide (mc_contradiction_state candidate = CS_REVISED)) "revised"
    ++ mark (bool_decide (mc_contradiction_state candidate = CS_REJECTED)) "rejected"
    ++ mark (bool_decide (mc_review_state candidate = RS_REJECTED)
             || bool_decide (pm_outcome promoted = RS_REJECTED)) "rejected" in
  let blocked :=
    mark (bool_decide (mc_review_state candidate <> RS_ACCEPTED)) "review_state_not_accepted"
    ++ mark (mc_inferred candidate) "inferred_memory_not_mutation_authoritative"
    ++ mark (bool_decide (pm_outcome promoted ∈ [RS_REVISED; RS_REJECTED]))
         "non_current_memory_lifecycle_state"
    ++ mark (bool_decide (mc_contradiction_state candidate ∈ [CS_CONTRADICTED; CS_REJECTED]))
         "contradiction_state_blocks_mutation_authority"
    ++ mark conflicts_with_human_truth "human_authored_truth_precedence" in
  let level :=
    if bool_decide (use_right = INSTRUCTIONAL) && bool_decide (mc_review_state candidate = RS_ACCEPTED)
    then AL_INSTRUCTIONAL else AL_SUGGESTION_ONLY in
  let '(blocked, allow_mutation, level) :=
    if bool_decide (use_right = ACTION_AUTHORIZING) then
      let blocked := blocked
        ++ mark (negb (bool_decide (mc_memory_type candidate ∈ _ACTION_AUTHORIZING_MEMORY_TYPES)))
             "memory_type_not_action_authorizing"
        ++ mark (negb (truthy_opt requested_action_scope)) "missing_action_scope" in
      let allow := (length blocked =? 0)%nat in
      (blocked, allow, if allow then AL_ACTION_AUTHORIZING else AL_SUGGESTION_ONLY)
    else (blocked, false, level) in
  mkAuthority true allow_mutation level (sorted_set blocked)
    (negb (bool_decide (posture_markers = []))) (sorted_set posture_markers) requested_action_scope.

Definition evaluate_provisional_memory_authority (record : ProvisionalMemoryRecord)
    (use_right : RecallUseRight) : MemoryAuthorityDecision :=
  let blocked := ["provisional_memory_noncanonical"; "review_state_not_accepted"]
    ++ mark (bool_decide (use_right = ACTION_AUTHORIZING)) "provisional_memory_never_action_authoritative" in
  mkAuthority true false AL_SUGGESTION_ONLY (order_by String.leb blocked) true
    [authority_state; "provisional"; "low-trust"; ReviewState_value provisional_review_state] None.

(** ** Activation *)

Definition RECALL_RECEIPT_EVENT : string := "agent_memory.recall.activated".
Definition RECALL_RECEIPT_SOURCE : string := "agent_memory.recall_activation".

Record GuardedRecall : Type := mkRecall {
  gr_memory_id : string;
  gr_may_answer : bool;
  gr_may_propose : bool;
  gr_may_write : bool;
  gr_authority_decision : MemoryAuthorityDecision;
  gr_explanation : RecallExplanation;
  gr_receipt_id : string }.

(** What a caller passes beside the memory and the journal. *)
Record recall_request : Type := mkRecallRequest {
  rq_use_right : RecallUseRight;
  rq_activation_reason : ActivationReason;
  rq_why_now : string;
  rq_requested_action_scope : option string;
  rq_behavioral_claim : option string;
  rq_authority_source : option string;
  rq_source_artifact_path : option string;
  rq_applied_scope_id : option string }.

(** The random identifiers and the clock reading of one activation. *)
Record recall_inputs : Type := mkRecallInputs {
  ri_receipt_id : string;
  ri_trace_id : string;
  ri_timestamp : string;
  ri_fault : io_fault }.

Definition recall_receipt (i : recall_inputs) (promoted : PromotedMemory) (decision : MemoryAuthorityDecision)
    (x : RecallExplanation) (rq : recall_request) : pydict :=
  [("event", PStr RECALL_RECEIPT_EVENT);
   ("event_id", PStr (ri_receipt_id i));
   ("trace_id", PStr (ri_trace_id i));
   ("source", PStr RECALL_RECEIPT_SOURCE);
   ("timestamp", PStr (ri_timestamp i));
   ("payload", PDict
     [("memory_id", PStr (mc_candidate_id (pm_candidate promoted)));
      ("promotion_id", PStr (pm_promotion_id promoted));
      ("requested_use_right", PStr (RecallUseRight_value (rq_use_right rq)));
      ("granted_authority_level", PStr (MemoryAuthorityLevel_value (ad_authority_level decision)));
      ("may_answer", PBool (ad_allow_suggestion decision));
      ("may_propose", PBool (ad_allow_suggestion decision));
      ("may_write", PBool (ad_allow_mutation decision));
      ("blocked_reasons", PList (map PStr (ad_blocked_reasons decision)));
      ("posture_markers", PList (map PStr (ad_posture_markers decision)));
      ("activation", PDict [("reason", PStr (ActivationReason_value (rx_activation_reason x)));
                            ("why_now", PStr (rx_why_now x))]);
      ("source_provenance", PDict
        [("source_refs", PList (map PStr (sp_source_refs (rx_source_provenance x))));
         ("derived_from", opt_str (sp_derived_from (rx_source_provenance x)));
         ("generated_by", opt_str (sp_generated_by (rx_source_provenance x)))]);
      ("authority_limits", PList (map PStr (rx_authority_limits x)));
      ("source_artifact_path", opt_str (rq_source_artifact_path rq));
      ("applied_scope_id", opt_str (rq_applied_scope_id rq))])].

Abbreviation journal := (list pydict).

(** [_emit_recall_receipt]: append one line. *)
Definition _emit_recall_receipt (fault : io_fault) (record : pydict) : ST journal unit :=
  match fault with
  | IoOk => st_modify (fun j => j ++ [record])
  | IoFailBefore => st_raise (OSError "append")
  | IoFailAfter => _ ← st_modify (fun j => j ++ [record]); st_raise (OSError "append")
  end.

(** [explanation.model_copy(update={"receipt_reference": receipt_id})]. *)
Definition with_receipt (x : RecallExplanation) (receipt_id : string) : RecallExplanation :=
  mkExplanation (rx_artifact_id x) (rx_title x) (rx_artifact_class x) (rx_artifact_type x)
    (rx_memory_type x) (rx_use_right x) (rx_lifecycle_state x) (rx_review_state x) (rx_trust_state x)
    (rx_activation_reason x) (rx_why_now x) (rx_bundle_reference x) (rx_source_provenance x)
    (rx_authority_limits x) (rx_behavioral_claim x) (rx_action_scope x) (rx_authority_source x)
    (Some receipt_id).

Definition activate_guarded_recall (i : recall_inputs) (promoted : PromotedMemory) (rq : recall_request)
  : ST journal GuardedRecall :=
  let use_right := rq_use_right rq in
  let decision := evaluate_memory_authority promoted use_right (rq_requested_action_scope rq) false in
  let explanation_use_right :=
    if bool_decide (use_right = ACTION_AUTHORIZING) && negb (ad_allow_mutation decision)
    then ACTIVATABLE else use_right in
  let granted (o : option string) := if ad_allow_mutation decision then o else None in
  explanation ← st_lift (build_recall_explanation promoted explanation_use_right
    (rq_activation_reason rq) (rq_why_now rq) None
    (if bool_decide (explanation_use_right <> ACTIVATABLE) then rq_behavioral_claim rq else None)
    (granted (rq_requested_action_scope rq)) (granted (rq_authority_source rq))
    (if bool_decide (explanation_use_right = ACTION_AUTHORIZING) then Some (ri_receipt_id i) else None));
  _ ← _emit_recall_receipt (ri_fault i) (recall_receipt i promoted decision explanation rq);
  mret (mkRecall (mc_candidate_id (pm_candidate promoted)) (ad_allow_suggestion decision)
    (ad_allow_suggestion decision) (ad_allow_mutation decision) decision
    (with_receipt explanation (ri_receipt_id i)) (ri_receipt_id i)).

(** ** Properties of promotion *)

(** What a semantic candidate must show before promotion. *)
Definition promotable (c : MemoryCandidate) : Prop :=
  mc_memory_type c = SEMANTIC_MEMORY -> mc_inferred c = false \/ (1 < length (mc_source_refs c))%nat.

(** The verdict of an entry of the queue as a promoted memory. *)
Definition receipt_of (id : string) (now : datetime) (e : ReviewEntry) (outcome : ReviewState)
    (revision_of : option string) (p : PromotedMemory) : Prop :=
  pm_outcome p = outcome /\ pm_candidate p = re_candidate e /\ Some (pm_decided_by p) = re_decided_by e /\
  Some (pm_decided_at p) = re_decided_at e /\ pm_decision_notes p = re_decision_notes e /\
  pm_revision_of p = revision_of /\ pm_promotion_id p = id /\ pm_promoted_at p = now.

Lemma make_receipt id now outcome e ro d :
  entry_ok e -> re_decision e = Some d ->
  exists p, PromotedMemory_make id now outcome e ro = Ok p /\ receipt_of id now e outcome ro p.
Proof.
  unfold entry_ok, PromotedMemory_make, receipt_of. intros H Hd. rewrite Hd in H.
  destruct H as (_ & (by' & -> & _) & [at' ->]). eexists. split; [done|]. by repeat split.
Qed.

Lemma require_decided_iff e d :
  entry_ok e -> _require_decided e d = Ok tt <-> re_decision e = Some d.
Proof.
  unfold entry_ok, _require_decided. intros H. destruct (re_decision e) as [x|].
  - destruct H as (-> & _). rewrite (bool_decide_false (_DECISION_TO_STATUS x = PENDING)) by (by destruct x).
    destruct (decide (Some x = Some d)) as [E|E].
    + rewrite bool_decide_false by tauto. by rewrite E.
    + rewrite bool_decide_true by done. done.
  - destruct H as (-> & _). done.
Qed.

(** An entry of the review queue can be promoted exactly when its recorded
    decision is to promote and, for semantic memory, the candidate is asserted
    or has two sources; rejected exactly when the decision is to reject.  The
    result keeps the candidate, the reviewer, the time and the notes. *)
Theorem promotion_follows_decision id now e :
  entry_ok e ->
  (re_decision e = Some PROMOTE /\ promotable (re_candidate e) <->
   exists p, promote id now e = Ok p) /\
  (forall p, promote id now e = Ok p -> receipt_of id now e RS_ACCEPTED None p) /\
  (re_decision e = Some REJECT <-> exists p, reject id now e = Ok p) /\
  (forall p, reject id now e = Ok p -> receipt_of id now e RS_REJECTED None p).
Proof.
  intros He.
  assert (E : (if bool_decide (mc_memory_type (re_candidate e) ∈ _SEMANTIC_TYPES)
               then _require_asserted_promote_fields e else Ok tt) = Ok tt <-> promotable (re_candidate e)).
  { unfold promotable, _require_asserted_promote_fields, _SEMANTIC_TYPES.
    case_bool_decide as Ht; rewrite list_elem_of_singleton in Ht.
    - destruct (mc_inferred _), (Nat.ltb_spec 1 (length (mc_source_refs (re_candidate e)))); simpl;
        split; try done; auto; intros Hp; destruct (Hp Ht); done || lia.
    - split; [|done]. by intros _ ?. }
  assert (R : forall p, promote id now e = Ok p -> re_decision e = Some PROMOTE /\ promotable (re_candidate e)
    /\ PromotedMemory_make id now RS_ACCEPTED e None = Ok p).
  { unfold promote. intros p ([] & H1 & ([] & H2 & H3)%bind_ok)%bind_ok.
    apply (require_decided_iff e PROMOTE He) in H1. by apply E in H2. }
  assert (J : forall p, reject id now e = Ok p -> re_decision e = Some REJECT
    /\ PromotedMemory_make id now RS_REJECTED e None = Ok p).
  { unfold reject. intros p ([] & H1 & H3)%bind_ok. by apply (require_decided_iff e REJECT He) in H1. }
  split_and!.
  - split; [|intros [p H]; by destruct (R p H) as (? & ? & _)]. intros [Hd Hp].
    destruct (make_receipt id now RS_ACCEPTED e None _ He Hd) as (p & Hp' & _). exists p.
    unfold promote. rewrite (proj2 (require_decided_iff e PROMOTE He) Hd). cbn [mbind res_bind].
    by rewrite (proj2 E Hp).
  - intros p (Hd & _ & Hp)%R. destruct (make_receipt id now RS_ACCEPTED e None _ He Hd) as (p' & Hp' & ?).
    by assert (p' = p) as <- by congruence.
  - split; [|intros [p H]; by destruct (J p H)]. intros Hd.
    destruct (make_receipt id now RS_REJECTED e None _ He Hd) as (p & Hp' & _). exists p.
    unfold reject. by rewrite (proj2 (require_decided_iff e REJECT He) Hd).
  - intros p (Hd & Hp)%J. destruct (make_receipt id now RS_REJECTED e None _ He Hd) as (p' & Hp' & ?).
    by assert (p' = p) as <- by congruence.
Qed.

(** ** Properties of authority *)

Lemma mark_nil c s : mark c s = [] <-> c = false.
Proof. by destruct c. Qed.

Lemma sorted_set_nil l : sorted_set l = [] -> l = [].
Proof.
  unfold sorted_set. intros H%order_by_nil. destruct l as [|x l]; [done|]. exfalso.
  assert (Hx : x ∈ dict_fromkeys (x :: l)).
  { apply dedup_from_elem. split; [by left|apply not_elem_of_nil]. }
  rewrite H in Hx. by apply elem_of_nil in Hx.
Qed.

(** What a memory must be to authorize a change. *)
Definition authoritative (p : PromotedMemory) : Prop :=
  mc_review_state (pm_candidate p) = RS_ACCEPTED /\ mc_inferred (pm_candidate p) = false /\
  pm_outcome p <> RS_REVISED /\ pm_outcome p <> RS_REJECTED /\
  mc_contradiction_state (pm_candidate p) <> CS_CONTRADICTED /\
  mc_contradiction_state (pm_candidate p) <> CS_REJECTED /\
  (mc_memory_type (pm_candidate p) = POLICY_MEMORY \/ mc_memory_type (pm_candidate p) = PREFERENCE_MEMORY).

Lemma not_in_pair {A} `{EqDecision A} (x a b : A) : bool_decide (x ∈ [a; b]) = false <-> x <> a /\ x <> b.
Proof. rewrite bool_decide_eq_false, elem_of_cons, list_elem_of_singleton. tauto. Qed.

Lemma mutation_authority p u scope conflict :
  ad_allow_mutation (evaluate_memory_authority p u scope conflict) = true <->
  u = ACTION_AUTHORIZING /\ truthy_opt scope = true /\ conflict = false /\ authoritative p.
Proof.
  unfold evaluate_memory_authority. case_bool_decide as Hu; cbn [ad_allow_mutation].
  2: { split; [done|]. by intros [? _]. }
  rewrite Nat.eqb_eq, length_zero_iff_nil. unfold authoritative.
  rewrite !app_nil, !mark_nil, !not_in_pair, !negb_false_iff, bool_decide_eq_false, bool_decide_eq_true.
  unfold _ACTION_AUTHORIZING_MEMORY_TYPES. rewrite elem_of_cons, list_elem_of_singleton.
  assert (mc_review_state (pm_candidate p) = RS_ACCEPTED <-> ~ mc_review_state (pm_candidate p) <> RS_ACCEPTED)
    as -> by (destruct (decide (mc_review_state (pm_candidate p) = RS_ACCEPTED)); tauto).
  tauto.
Qed.

(** Recalled memory may authorize a mutation exactly when it is recalled
    for that use with an action scope, does not conflict with what a human
    wrote, and is accepted, asserted, current, uncontradicted policy or
    preference memory; otherwise such a recall names a reason. *)
Theorem mutation_authority_iff p u scope conflict :
  (ad_allow_mutation (evaluate_memory_authority p u scope conflict) = true <->
   u = ACTION_AUTHORIZING /\ truthy_opt scope = true /\ conflict = false /\ authoritative p) /\
  (u = ACTION_AUTHORIZING ->
   ad_allow_mutation (evaluate_memory_authority p u scope conflict) = false ->
   ad_blocked_reasons (evaluate_memory_authority p u scope conflict) <> []).
Proof.
  split; [apply mutation_authority|]. intros ->. unfold evaluate_memory_authority.
  rewrite bool_decide_true by done. cbn [ad_allow_mutation ad_blocked_reasons].
  intros H E%sorted_set_nil. rewrite E in H. done.
Qed.

(** What a receipt in the journal says of the recall it belongs to. *)
Definition receipt_says (r : pydict) (g : GuardedRecall) : Prop :=
  get r "event_id" = PStr (gr_receipt_id g) /\
  exists payload, get r "payload" = PDict payload /\
    get payload "memory_id" = PStr (gr_memory_id g) /\
    get payload "may_write" = PBool (gr_may_write g) /\
    get payload "granted_authority_level"
    = PStr (MemoryAuthorityLevel_value (ad_authority_level (gr_authority_decision g))).

Lemma build_use_right p u reason why bundle claim scope source receipt x :
  build_recall_explanation p u reason why bundle claim scope source receipt = Ok x ->
  rx_use_right x = u /\ rx_action_scope x = scope /\ rx_authority_source x = source /\
  rx_behavioral_claim x = claim /\
  (u = ACTION_AUTHORIZING -> rx_review_state x = RS_ACCEPTED /\ truthy_opt claim = true /\
     truthy_opt scope = true /\ truthy_opt source = true).
Proof.
  unfold build_recall_explanation. intros (t & H & [= <-])%bind_ok. simpl. repeat split; try done;
    subst u; case_bool_decide as Hr; try done;
    destruct (truthy_opt claim), (truthy_opt scope), (truthy_opt source); try done.
Qed.

(** A recall is handed out only after its receipt is in the journal, and
    the receipt says what was granted.  The recall may write exactly when its
    explanation is action-authorizing, and then the memory is authoritative and
    the explanation carries the claim, the scope, the source and the receipt.
    A refused activation leaves no receipt unless the append itself failed
    after the line was written. *)
Theorem recall_is_recorded i p rq j r j' :
  activate_guarded_recall i p rq j = (r, j') ->
  match r with
  | Ok g =>
      exists line, j' = j ++ [line] /\ receipt_says line g /\
      rx_receipt_reference (gr_explanation g) = Some (gr_receipt_id g) /\
      (gr_may_write g = true <-> rx_use_right (gr_explanation g) = ACTION_AUTHORIZING) /\
      (gr_may_write g = true ->
       authoritative p /\ rx_review_state (gr_explanation g) = RS_ACCEPTED /\
       rx_action_scope (gr_explanation g) = rq_requested_action_scope rq /\
       truthy_opt (rq_requested_action_scope rq) = true /\
       truthy_opt (rx_authority_source (gr_explanation g)) = true /\
       truthy_opt (rx_behavioral_claim (gr_explanation g)) = true)
  | Raise _ => j' = j \/ ri_fault i = IoFailAfter
  end.
Proof.
  unfold activate_guarded_recall. set (d := evaluate_memory_authority p (rq_use_right rq) _ false).
  assert (Hd : ad_allow_mutation d = true -> rq_use_right rq = ACTION_AUTHORIZING /\
    truthy_opt (rq_requested_action_scope rq) = true /\ authoritative p)
    by (intros (? & ? & _ & ?)%mutation_authority; done).
  set (u := if bool_decide (rq_use_right rq = ACTION_AUTHORIZING) && negb (ad_allow_mutation d)
            then ACTIVATABLE else rq_use_right rq).
  assert (Hu : ad_allow_mutation d = true <-> u = ACTION_AUTHORIZING).
  { unfold u. destruct (ad_allow_mutation d); simpl.
    - destruct Hd as (-> & _); [done|]. by rewrite andb_false_r.
    - rewrite andb_true_r. split; [done|]. by case_bool_decide. }
  unfold mbind, ST_bind, st_lift. destruct (build_recall_explanation _ _ _ _ _ _ _ _ _) as [x|e] eqn:Ex.
  2: { intros [= <- <-]. by left. }
  apply build_use_right in Ex as (Eu & Esc & Eau & Ecl & Eact).
  unfold _emit_recall_receipt. destruct (ri_fault i); [|intros [= <- <-]; by left|intros [= <- <-]; by right].
  intros [= <- <-]. eexists. split; [done|]. split.
  { split; [done|]. eexists. by repeat split. }
  split; [done|]. simpl. rewrite Eu. split; [done|]. intros Hm.
  destruct (Hd Hm) as (_ & Hs & Ha). apply Hu in Hm as Hu'. destruct (Eact Hu') as (Hr & Hc & _ & Hsrc).
  rewrite Esc, Eau, Ecl. rewrite Hm in Hsrc |- *. done.
Qed.

(** ** A run *)

Module RecallRun.
Definition policy (inferred : bool) : MemoryCandidate :=
  mkCandidate "agentic_memory" "m" "title" POLICY_MEMORY None RS_ACCEPTED AP_EXPLICIT_ONLY inferred
    ["ref"] None None (Some "work") None None CS_CLEAR None None (utc 0).
Definition accepted : ReviewEntry :=
  mkEntry (policy false) None PROMOTED (Some PROMOTE) (Some "human:ann") (Some (utc 5)) None None.
Definition memory : PromotedMemory :=
  mkPromoted "p1" RS_ACCEPTED (policy false) "human:ann" (utc 5) None None (utc 6).
Definition request : recall_request :=
  mkRecallRequest ACTION_AUTHORIZING POLICY_APPLICABILITY "why" (Some "notes") (Some "claim")
    (Some "human:ann") None None.
Definition inputs : recall_inputs := mkRecallInputs "r1" "t1" "now" IoOk.

Lemma promotion_follows_decision_run :
  (re_decision accepted = Some PROMOTE /\ promotable (re_candidate accepted) <->
   exists p, promote "p1" (utc 6) accepted = Ok p) /\ promote "p1" (utc 6) accepted = Ok memory.
Proof.
  split; [|reflexivity].
  apply (promotion_follows_decision "p1" (utc 6) accepted). split; [done|]. by split; [eexists|eexists].
Defined.

Lemma mutation_authority_iff_run :
  ad_blocked_reasons (evaluate_memory_authority
    (mkPromoted "p1" RS_ACCEPTED (policy true) "human:ann" (utc 5) None None (utc 6))
    ACTION_AUTHORIZING None false) <> [].
Proof. by apply (mutation_authority_iff _ ACTION_AUTHORIZING None false). Defined.

Definition answer_of (r : res GuardedRecall) : option GuardedRecall :=
  match r with Ok g => Some g | Raise _ => None end.

Lemma recall_is_recorded_run :
  exists g line, activate_guarded_recall inputs memory request [] = (Ok g, [line]) /\
    gr_may_write g = true /\ receipt_says line g /\ authoritative memory.
Proof.
  destruct (activate_guarded_recall inputs memory request []) as [[g|e] j] eqn:E; [|discriminate E].
  assert (Hw : gr_may_write g = true) by (injection E as <- _; reflexivity).
  pose proof (recall_is_recorded inputs memory request [] (Ok g) j E) as (line & -> & Hs & _ & _ & Ha).
  exists g, line. split; [done|]. split; [done|]. split; [done|]. by apply Ha.
Defined.
End RecallRun.
