(* ===== verification/MemoryReview.v ===== *)
(** * The review endpoint (src/app/api/routes/companion.py)

    The steps of [post_memory_review_decision] between reading the queue entry
    and materialization: the decision is taken in the queue, recorded in the
    durable store, and rolled back in the queue when the store refuses.  The
    state of the process is the queue and the store's table.  The branches of
    the handler are [accept_recorded] (up to the call that materializes),
    [reject_branch] and [revise_branch]. *)
From S2P Require Import Prelude PyValue PyTime Sql MemoryCandidate ReviewQueue ReviewBoard ReviewDecisions ReviewDecisionProps MemoryRecall.

Abbreviation review_queue := (MemoryCandidateReviewQueue (V:=VaultContext)).

Record review_world : Type := mkReview { rw_queue : review_queue; rw_db : decisions }.

Definition on_queue {A} (m : ST review_queue A) : ST review_world A := fun w =>
  let '(r, q) := m (rw_queue w) in (r, mkReview q (rw_db w)).
Definition on_db {A} (m : ST decisions A) : ST review_world A := fun w =>
  let '(r, db) := m (rw_db w) in (r, mkReview (rw_queue w) db).

(** [except ReviewQueueError]. *)
Definition catch_queue {A} (m : ST review_world A) (status : Z) (error : string) : ST review_world A :=
  st_catch m (fun e => match e with
    | ReviewQueueError _ => st_raise (HTTPException status error)
    | e => st_raise e
    end).

Definition _memory_review_get_entry (candidate_id : string) : ST review_world ReviewEntry :=
  catch_queue (on_queue (queue_get candidate_id None)) 404 "candidate_not_found".

Definition _memory_review_decide (candidate_id : string) (decision : ReviewDecision)
    (reviewed_by : string) (notes : option string) (revision : option MemoryCandidate)
    (now : datetime) : ST review_world ReviewEntry :=
  catch_queue (on_queue (queue_decide candidate_id decision reviewed_by notes revision None now))
    409 "review_decision_refused".

Section Review.
Context (h : host).

Definition _memory_review_record_decision (entry : ReviewEntry) (vault_context : VaultContext)
    (channel : string) (original_entry : ReviewEntry) (revision_candidate_id : option string)
  : ST review_world ReviewDecisionRecord :=
  st_catch (on_db (record_decision h entry vault_context channel)) (fun e => match e with
    | ReviewDecisionStoreError _ =>
        _ ← on_queue (rollback_persistence_refusal original_entry revision_candidate_id);
        st_raise (HTTPException 409 "review_decision_conflict")
    | e => st_raise e
    end).

(** [MemoryReviewRevisionPayload]: the reviewer's overrides. *)
Record MemoryReviewRevisionPayload : Type := mkRevision {
  rp_title : option string;
  rp_content : option string;
  rp_memory_type : option MemoryType }.

(** [uuid] and [observed] are the defaults of the new candidate's id and time. *)
Definition _memory_review_revision_candidate (entry : ReviewEntry)
    (payload : option MemoryReviewRevisionPayload) (uuid : string) (observed : datetime)
  : res MemoryCandidate :=
  let original := re_candidate entry in
  let overrides := default (mkRevision None None None) payload in
  MemoryCandidate_make (mkCandidate "agentic_memory" uuid
    (if truthy_opt (rp_title overrides) then default "" (rp_title overrides) else mc_title original)
    (default (mc_memory_type original) (rp_memory_type overrides)) None RS_UNREVIEWED
    AP_REVIEW_QUEUE_ONLY (mc_inferred original) (mc_source_refs original) (mc_derived_from original)
    (mc_generated_by original) (mc_scope_id original)
    (match rp_content overrides with Some c => Some c | None => mc_content original end)
    (mc_confidence original) CS_CLEAR (Some (mc_candidate_id original)) None observed).

(** What a request carries, and the readings of the clock and of [uuid4]. *)
Record review_request : Type := mkReviewRequest {
  vr_candidate_id : string;
  vr_reviewed_by : string;
  vr_notes : option string;
  vr_revision : option MemoryReviewRevisionPayload;
  vr_vault_context : VaultContext;
  vr_channel : string;
  vr_now : datetime;
  vr_revision_id : string;
  vr_promotion_id : string }.

(** The accept branch up to materialization: the dry run on a copy, the
    decision, its record, and the promotion of the entry as persisted. *)
Definition accept_recorded (rq : review_request) (entry : ReviewEntry)
  : ST review_world (ReviewEntry * PromotedMemory) :=
  _ ← guard_not (bool_decide (mc_memory_type (re_candidate entry) = SEMANTIC_MEMORY)
                 && bool_decide (validated_memory_scope_id (opt_str (re_scope_id entry)) = None))
        (HTTPException 409 "promotion_refused");
  let reviewer := if String.eqb (vr_reviewed_by rq) "" then "reviewer:unspecified" else vr_reviewed_by rq in
  let trial := mkEntry (re_candidate entry) (re_binding_id entry) PROMOTED (Some PROMOTE)
    (Some reviewer) (Some (vr_now rq)) (re_decision_notes entry) (re_revision_of entry) in
  _ ← st_catch (st_lift (promote (vr_promotion_id rq) (vr_now rq) trial)) (fun e => match e with
        | PromotionError _ => st_raise (HTTPException 409 "promotion_refused")
        | e => st_raise e
        end);
  decided ← _memory_review_decide (vr_candidate_id rq) PROMOTE (vr_reviewed_by rq) (vr_notes rq) None (vr_now rq);
  persisted ← _memory_review_record_decision decided (vr_vault_context rq) (vr_channel rq) entry None;
  notes ← st_lift (as_opt_str (rd_decision_notes persisted));
  let effective := mkEntry (re_candidate decided) (re_binding_id decided) (re_status decided)
    (re_decision decided) (Some (rd_decided_by persisted)) (Some (rd_decided_at persisted)) notes
    (re_revision_of decided) in
  promoted ← st_lift (promote (vr_promotion_id rq) (vr_now rq) effective);
  mret (effective, promoted).

Definition reject_branch (rq : review_request) (entry : ReviewEntry) : ST review_world PromotedMemory :=
  decided ← _memory_review_decide (vr_candidate_id rq) REJECT (vr_reviewed_by rq) (vr_notes rq) None (vr_now rq);
  _ ← _memory_review_record_decision decided (vr_vault_context rq) (vr_channel rq) entry None;
  st_lift (reject (vr_promotion_id rq) (vr_now rq) decided).

Definition revise_branch (rq : review_request) (entry : ReviewEntry) : ST review_world PromotedMemory :=
  revision_candidate ← st_lift (_memory_review_revision_candidate entry (vr_revision rq)
                                  (vr_revision_id rq) (vr_now rq));
  decided ← _memory_review_decide (vr_candidate_id rq) REVISE (vr_reviewed_by rq) (vr_notes rq)
              (Some revision_candidate) (vr_now rq);
  _ ← _memory_review_record_decision decided (vr_vault_context rq) (vr_channel rq) entry
        (Some (mc_candidate_id revision_candidate));
  revision_entry ← on_queue (queue_get (mc_candidate_id revision_candidate) None);
  st_lift (revise (vr_promotion_id rq) (vr_now rq) decided revision_entry).

(** ** The composition *)

(** Without a host failure the store refuses with its own error only. *)
Lemma record_decision_refusal entry v ch db e db' t :
  db_ok db -> (forall p, is_ok (h_resolve h p) = true) -> re_decided_at entry = Some (utc t) -> in_range t ->
  (forall by', re_decided_by entry = Some by' -> strip by' <> "") ->
  record_decision h entry v ch db = (Raise e, db') -> db' = db /\ exists m, e = ReviewDecisionStoreError m.
Proof.
  intros Hdb Hres Hat Ht Hby [[-> (x & [= <-] & D)]|(rec & vid & Hrec & P & _)]%record_decision_inv; [| |done].
  - split; [done|]. destruct D as [D|[D|(at' & Ha & D)]]; [done| |].
    + unfold _vault_id, store_error in D. repeat case_match; simplify_eq/=; eauto.
      specialize (Hres (_safe_str (active_vault_path v))). destruct (h_resolve h _); done.
    + rewrite Hat in Ha. injection Ha as <-. unfold astimezone_utc in D. cbn [utc dt_us dt_offset] in D.
      replace (t - 0 * 60000000)%Z with t in D by lia.
      by rewrite (proj2 (Z.leb_le 0 t)), (proj2 (Z.ltb_lt t max_us)) in D by apply Ht.
  - unfold atomically in P. destruct (persist h rec db) as [[a|x] d] eqn:E; [done|]. injection P as <- <-.
    split; [done|]. by eapply persist_refusal.
Qed.

(** The state in which a branch runs: the entry was just read, the clock gives
    a UTC time and path resolution does not fail. *)
Record ready (rq : review_request) (entry : ReviewEntry) (w : review_world) : Prop := mkReady {
  rd_entries : entries_ok (q_entries (rw_queue w));
  rd_table : db_ok (rw_db w);
  rd_host : forall p, is_ok (h_resolve h p) = true;
  rd_read : queue_get (vr_candidate_id rq) None (rw_queue w) = (Ok entry, rw_queue w);
  rd_candidate : candidate_ok (re_candidate entry);
  rd_clock : exists t, vr_now rq = utc t /\ in_range t }.

Definition is_http (e : exn) : Prop := exists s m, e = HTTPException s m.

Lemma catch_queue_inv {A} (m : ST review_queue A) s err w r w' :
  catch_queue (on_queue m) s err w = (r, w') ->
  match r with
  | Ok a => m (rw_queue w) = (Ok a, rw_queue w') /\ rw_db w' = rw_db w
  | Raise e => exists x, m (rw_queue w) = (Raise x, rw_queue w') /\ rw_db w' = rw_db w /\
      ((exists msg, x = ReviewQueueError msg) -> is_http e)
  end.
Proof.
  unfold catch_queue, st_catch, on_queue. destruct (m (rw_queue w)) as [[a|x] q] eqn:E.
  - intros [= <- <-]. done.
  - intros H. assert (r = Raise (match x with ReviewQueueError _ => HTTPException s err | e => e end)
      /\ w' = mkReview q (rw_db w)) as [-> ->] by (destruct x; by injection H as <- <-).
    exists x. split; [done|]. split; [done|]. intros [msg ->]. by exists s, err.
Qed.

Definition recorded (d : ReviewDecision) (rq : review_request) (db : decisions)
    (p : ReviewDecisionRecord) : Prop :=
  record_ok p /\ rd_outcome p = d /\ rd_terminal p = negb (bool_decide (d = PROMOTE)) /\
  exists vid, _vault_id h (vr_vault_context rq) = Ok vid /\
    view h db (vid, strip (vr_channel rq), vr_candidate_id rq) = Some p.

Lemma record_recorded d rq entry w p db' :
  ready rq entry w -> strip (vr_reviewed_by rq) <> "" ->
  record_decision h (decided_entry entry d (vr_reviewed_by rq) (vr_notes rq) (vr_now rq))
    (vr_vault_context rq) (vr_channel rq) (rw_db w) = (Ok p, db') -> recorded d rq db' p.
Proof.
  intros [Hq Hdb Hh Hg Hc Ht] Hby E. destruct (queue_get_key _ _ _ _ _ Hq Hg) as (_ & Hid & _).
  apply record_decision_inv in E as [(_ & x & ? & _)|E]; [done| |by intros ? [= <-]].
  destruct E as (rec & vid & Hrec & E & Hvid & Hk & Ho & Htm). apply atomically_inv in E. simpl in E.
  destruct (persist_advances _ _ _ _ _ Hdb Hrec E) as (Ha & Hv & Hput).
  pose proof (advances_ok _ _ _ Hdb Ha) as Hdb'. destruct (view_row _ _ _ _ Hdb' Hv) as (Hp & _ & _).
  assert (Hd : rd_outcome rec = d) by (injection Ho; done).
  assert (Hkey : record_key rec = (vid, strip (vr_channel rq), vr_candidate_id rq)) by (rewrite Hk, <- Hid; done).
  split; [done|]. unfold persist in E. rewrite (st_run _ _ _ _ _ (st_select_ok _ _ _ Hdb)) in E.
  assert (F : rd_outcome p = d /\ rd_terminal p = negb (bool_decide (d = PROMOTE))).
  { assert (T : rd_terminal rec = negb (bool_decide (d = PROMOTE))) by (rewrite Htm, Hd; by destruct d).
    destruct (view h (rw_db w) (record_key rec)) as [x|] eqn:Hx.
    - run E as u1 d1 G1. apply guard_not_ok in G1 as [G1 ->]. run E as u2 d2 G2. apply guard_not_ok in G2 as [_ ->].
      run E as u3 d3 G3. apply guard_not_ok in G3 as [_ ->]. destruct (rd_materializing x) eqn:Hm.
      + destruct (bool_decide (rd_outcome rec = PROMOTE)) eqn:Hpr; [|discriminate E]. bool_prop. injection E as <- <-.
        destruct (view_row _ _ _ _ Hdb Hx) as (Hxo & _). rewrite (ok_reserved _ Hxo Hm), G1. by rewrite Hd in Hpr; subst d.
      + run E as u4 d4 G4. injection E as <- <-. auto.
    - run E as u4 d4 G4. injection E as <- <-. auto. }
  destruct F. split; [done|]. split; [done|]. exists vid. by rewrite <- Hkey.
Qed.

(** The two calls every branch makes. *)
Definition decide_record (d : ReviewDecision) (rev : option MemoryCandidate) (rq : review_request)
    (entry : ReviewEntry) : ST review_world (ReviewEntry * ReviewDecisionRecord) :=
  decided ← _memory_review_decide (vr_candidate_id rq) d (vr_reviewed_by rq) (vr_notes rq) rev (vr_now rq);
  p ← _memory_review_record_decision decided (vr_vault_context rq) (vr_channel rq) entry
        (if decide (d = REVISE) then mc_candidate_id <$> rev else None);
  mret (decided, p).

(** Deciding and recording together: both happen, or neither. *)
Lemma decide_and_record d rev rq entry w r w' :
  ready rq entry w -> decide_record d rev rq entry w = (r, w') ->
  match r with
  | Raise e => w' = w /\ is_http e
  | Ok (decided, p) =>
      strip (vr_reviewed_by rq) <> "" /\ re_status entry = PENDING /\
      decided = decided_entry entry d (vr_reviewed_by rq) (vr_notes rq) (vr_now rq) /\
      q_entries (rw_queue w') = od_set (with_revision entry (vr_candidate_id rq) d rev (q_entries (rw_queue w)))
        (re_binding_id entry, vr_candidate_id rq) decided /\
      (d = REVISE -> exists rc, rev = Some rc /\ _find_key (rw_queue w) (mc_candidate_id rc) None = None) /\
      recorded d rq (rw_db w') p
  end.
Proof.
  intros Hw E. pose proof Hw as [Hq Hdb Hh Hg Hc [t [Ht Hr]]].
  unfold decide_record, mbind, ST_bind in E. destruct (_memory_review_decide _ _ _ _ _ _ w) as [[dec|x] w1] eqn:D;
    apply catch_queue_inv in D.
  2: { injection E as <- <-. destruct D as (y & D & Hw1 & Hx).
       pose proof (queue_decide_inv _ _ _ _ _ _ _ _ _ _ _ Hg D) as [Hq1 Hy].
       split; [|by apply Hx]. destruct w, w1; simpl in *; congruence. }
  destruct D as [D Hw1].
  pose proof (queue_decide_inv _ _ _ _ _ _ _ _ _ _ _ Hg D) as (Hby & Hst & -> & Hq1 & Hrev).
  unfold _memory_review_record_decision, st_catch, on_db in E. rewrite Hw1 in E.
  destruct (record_decision h _ _ _ (rw_db w)) as [[p|x] db1] eqn:R.
  - injection E as <- <-. simpl. rewrite Hq1. split_and!; try done. by eapply record_recorded.
  - apply (record_decision_refusal _ _ _ _ _ _ t) in R as [-> [m ->]];
      [|done|done|simpl; by rewrite Ht|done|by intros ? [= <-]].
    unfold mbind, ST_bind, on_queue in E. simpl in E.
    rewrite (rollback_restores _ _ _ _ _ _ _ _ _ _ _ Hq Hg D) in E. injection E as <- <-.
    split; [by destruct w|]. by eexists _, _.
Qed.

(** The decision of the branch, and the call. *)
Definition run_branch (d : ReviewDecision) (rq : review_request) (entry : ReviewEntry)
  : ST review_world PromotedMemory :=
  match d with
  | PROMOTE => '(_, p) ← accept_recorded rq entry; mret p
  | REJECT => reject_branch rq entry
  | REVISE => revise_branch rq entry
  end.

(** What a successful review leaves behind. *)
Definition reviewed (d : ReviewDecision) (rq : review_request) (entry : ReviewEntry) (w' : review_world)
    (p : PromotedMemory) : Prop :=
  pm_candidate p = re_candidate entry /\
  od_get (q_entries (rw_queue w')) (re_binding_id entry, vr_candidate_id rq)
  = Some (decided_entry entry d (vr_reviewed_by rq) (vr_notes rq) (vr_now rq)) /\
  exists rec, recorded d rq (rw_db w') rec.

Lemma decided_entry_ok entry d rq :
  strip (vr_reviewed_by rq) <> "" ->
  entry_ok (decided_entry entry d (vr_reviewed_by rq) (vr_notes rq) (vr_now rq)).
Proof. intros H. split; [done|]. by split; eexists. Qed.

Lemma reject_branch_eq rq entry w :
  reject_branch rq entry w
  = ('(decided, _) ← decide_record REJECT None rq entry;
     st_lift (reject (vr_promotion_id rq) (vr_now rq) decided)) w.
Proof.
  unfold reject_branch, decide_record, mbind, ST_bind, mret, ST_ret.
  destruct (_memory_review_decide _ _ _ _ _ _ w) as [[dec|x] w1]; [|done].
  cbn [decide]. by destruct (_memory_review_record_decision _ _ _ _ _ w1) as [[p|x] w2].
Qed.

Lemma revise_branch_eq rq entry w :
  revise_branch rq entry w
  = (rc ← st_lift (_memory_review_revision_candidate entry (vr_revision rq) (vr_revision_id rq) (vr_now rq));
     '(decided, _) ← decide_record REVISE (Some rc) rq entry;
     revision_entry ← on_queue (queue_get (mc_candidate_id rc) None);
     st_lift (revise (vr_promotion_id rq) (vr_now rq) decided revision_entry)) w.
Proof.
  unfold revise_branch, decide_record, mbind, ST_bind, mret, ST_ret.
  destruct (st_lift _ w) as [[rc|x] w0]; [|done].
  destruct (_memory_review_decide _ _ _ _ _ _ w0) as [[dec|x] w1]; [|done].
  by destruct (_memory_review_record_decision _ _ _ _ _ w1) as [[p|x] w2].
Qed.

Lemma reject_spec rq entry w r w' :
  ready rq entry w -> reject_branch rq entry w = (r, w') ->
  match r with Ok p => reviewed REJECT rq entry w' p | Raise e => w' = w /\ is_http e end.
Proof.
  intros Hw E. rewrite reject_branch_eq in E. unfold mbind, ST_bind in E.
  destruct (decide_record REJECT None rq entry w) as [[[dec p]|x] w1] eqn:D;
    apply (decide_and_record REJECT None rq entry) in D; try done; [|by injection E as <- <-].
  destruct D as (Hby & Hst & -> & Hq1 & _ & Hrec).
  pose proof (decided_entry_ok entry REJECT rq Hby) as Hok.
  destruct (make_receipt (vr_promotion_id rq) (vr_now rq) RS_REJECTED _ None _ Hok eq_refl) as (pm & Hpm & Hrc).
  unfold st_lift, reject in E. rewrite (proj2 (require_decided_iff _ REJECT Hok) eq_refl) in E.
  cbn [mbind res_bind] in E. rewrite Hpm in E. injection E as <- <-.
  split; [apply Hrc|]. split; [|by eauto]. by rewrite Hq1, od_get_set, decide_True.
Qed.

Lemma revision_candidate_ok entry payload uuid now :
  candidate_ok (re_candidate entry) ->
  exists rc, _memory_review_revision_candidate entry payload uuid now = Ok rc /\ mc_candidate_id rc = uuid.
Proof.
  intros Hc. unfold _memory_review_revision_candidate, MemoryCandidate_make.
  unfold candidate_ok, MemoryCandidate_make in Hc. cbn [mc_scope_id].
  destruct (scope_id_field_ok (mc_scope_id (re_candidate entry))); [|done].
  eexists. split; [reflexivity|]. done.
Qed.

(** The revision a decision enqueued is the one a lookup by its id finds. *)
Lemma revision_found rq entry w rc e (q' : review_queue) :
  ready rq entry w -> _find_key (rw_queue w) (mc_candidate_id rc) None = None ->
  q_entries q' = od_set (with_revision entry (vr_candidate_id rq) REVISE (Some rc) (q_entries (rw_queue w)))
    (re_binding_id entry, vr_candidate_id rq) e ->
  queue_get (mc_candidate_id rc) None q'
  = (Ok (pending_entry rc (re_binding_id entry) (Some (vr_candidate_id rq))), q').
Proof.
  intros [Hq Hdb Hh Hg Hc _] Hfree Hq'.
  destruct (queue_get_key _ _ _ _ _ Hq Hg) as (_ & _ & _ & Hget & Hb).
  set (rid := mc_candidate_id rc) in *.
  assert (Hne : rid <> vr_candidate_id rq).
  { intros E. pose proof (find_key_none _ _ _ _ Hfree Hb) as H. rewrite E in H. congruence. }
  assert (G : forall b, b ∈ _LEGACY_VIEW_BINDINGS -> od_get (q_entries q') (b, rid)
    = if decide (re_binding_id entry = b)
      then Some (pending_entry rc (re_binding_id entry) (Some (vr_candidate_id rq))) else None).
  { intros b Hin. rewrite Hq', od_get_set, decide_False by congruence. cbn [with_revision].
    rewrite decide_True, od_get_set by done. fold rid. destruct (decide (re_binding_id entry = b)) as [->|Hn].
    - by rewrite decide_True.
    - rewrite decide_False by congruence. by apply (find_key_none _ _ _ _ Hfree). }
  unfold queue_get, mbind, ST_bind, st_get, _find_key, has_key, _LEGACY_VIEW_BINDINGS. cbn [map List.find].
  rewrite !G by (by repeat constructor). unfold _LEGACY_VIEW_BINDINGS in Hb.
  apply elem_of_cons in Hb as [Hb|Hb%list_elem_of_singleton]; rewrite Hb.
  - rewrite decide_True by done. rewrite G, Hb, decide_True by (done || by left). done.
  - rewrite (decide_False (P := None = Some _)), decide_True by done.
    rewrite G, Hb, decide_True by (done || by right; left). done.
Qed.

Lemma revise_spec rq entry w r w' :
  ready rq entry w -> revise_branch rq entry w = (r, w') ->
  match r with Ok p => reviewed REVISE rq entry w' p | Raise e => w' = w /\ is_http e end.
Proof.
  intros Hw E. rewrite revise_branch_eq in E. unfold mbind, ST_bind, st_lift in E.
  destruct (revision_candidate_ok entry (vr_revision rq) (vr_revision_id rq) (vr_now rq)) as (rc & Hrc & _);
    [apply Hw|]. rewrite Hrc in E.
  destruct (decide_record REVISE (Some rc) rq entry w) as [[[dec p]|x] w1] eqn:D;
    apply (decide_and_record REVISE (Some rc) rq entry) in D; try done; [|by injection E as <- <-].
  destruct D as (Hby & Hst & -> & Hq1 & Hrev & Hrec).
  destruct (Hrev eq_refl) as (rc' & [= <-] & Hfree).
  pose proof (revision_found _ _ _ _ _ (rw_queue w1) Hw Hfree Hq1) as Hg.
  unfold on_queue in E. rewrite Hg in E.
  pose proof (decided_entry_ok entry REVISE rq Hby) as Hok.
  destruct (queue_get_key _ _ _ _ _ (rd_entries _ _ _ Hw) (rd_read _ _ _ Hw)) as (_ & Hid & _).
  destruct (make_receipt (vr_promotion_id rq) (vr_now rq) RS_REVISED _ (Some (mc_candidate_id rc)) _ Hok eq_refl)
    as (pm & Hpm & Hpr).
  unfold revise in E. rewrite (proj2 (require_decided_iff _ REVISE Hok) eq_refl) in E. cbn [mbind res_bind] in E.
  rewrite !bool_decide_true in E; [| by rewrite <- Hid |by left].
  cbn [negb] in E.
  change (re_candidate_id (pending_entry rc _ _)) with (mc_candidate_id rc) in E.
  rewrite Hpm in E. injection E as <- <-.
  split; [apply Hpr|]. split; [|by eauto]. simpl. by rewrite Hq1, od_get_set, decide_True.
Qed.

(** The entry the accept branch promotes: decided, with what was persisted. *)
Definition effective_entry (decided : ReviewEntry) (persisted : ReviewDecisionRecord)
    (notes : option string) : ReviewEntry :=
  mkEntry (re_candidate decided) (re_binding_id decided) (re_status decided) (re_decision decided)
    (Some (rd_decided_by persisted)) (Some (rd_decided_at persisted)) notes (re_revision_of decided).

(** [promote] of a promoted entry fails only for lack of evidence, which is a
    matter of the candidate. *)
Lemma promote_decided id now e by' at' :
  re_status e = PROMOTED -> re_decision e = Some PROMOTE ->
  re_decided_by e = Some by' -> re_decided_at e = Some at' ->
  (~ promotable (re_candidate e) /\ exists m, promote id now e = Raise (PromotionError m)) \/
  (promotable (re_candidate e) /\
   promote id now e = Ok (mkPromoted id RS_ACCEPTED (re_candidate e) by' at' (re_decision_notes e) None now)).
Proof.
  intros Hs Hd Hb Ha. unfold promote, _require_decided, _require_asserted_promote_fields, PromotedMemory_make.
  rewrite Hs, Hd, Hb, Ha. rewrite (bool_decide_false (PROMOTED = PENDING)), (bool_decide_false (Some PROMOTE <> _)) by (done || tauto).
  cbn [mbind res_bind]. unfold promotable, _SEMANTIC_TYPES. case_bool_decide as Ht; rewrite list_elem_of_singleton in Ht.
  - destruct (mc_inferred _), (Nat.ltb_spec 1 (length (mc_source_refs (re_candidate e)))); cbn; eauto.
    left. split; [|eauto]. intros Hp. destruct (Hp Ht); [done|lia].
  - right. by split.
Qed.

Lemma promotable_promotes id now e by' at' :
  promotable (re_candidate e) -> re_status e = PROMOTED -> re_decision e = Some PROMOTE ->
  re_decided_by e = Some by' -> re_decided_at e = Some at' ->
  promote id now e = Ok (mkPromoted id RS_ACCEPTED (re_candidate e) by' at' (re_decision_notes e) None now).
Proof.
  intros Hp Hs Hd Hb Ha. by destruct (promote_decided id now e by' at') as [[? _]|[_ ?]].
Qed.

Lemma accept_spec rq entry w r w' :
  ready rq entry w -> accept_recorded rq entry w = (r, w') ->
  match r with Ok (_, p) => reviewed PROMOTE rq entry w' p | Raise e => w' = w /\ is_http e end.
Proof.
  intros Hw E. unfold accept_recorded, guard_not in E. unfold mbind, ST_bind in E.
  destruct (_ && _)%bool; [injection E as <- <-; split; [done|by eexists _, _]|].
  unfold mret at 1, ST_ret at 1, st_catch, st_lift in E. set (trial := mkEntry _ _ PROMOTED _ _ _ _ _) in E.
  destruct (promote_decided (vr_promotion_id rq) (vr_now rq) trial _ _ eq_refl eq_refl eq_refl eq_refl)
    as [[_ [m Hm]]|[Hprom Hm]]; rewrite Hm in E; [injection E as <- <-; split; [done|by eexists _, _]|].
  assert (D : exists r1 w1, decide_record PROMOTE None rq entry w = (r1, w1)) by (by destruct (decide_record _ _ _ _ _); eauto).
  destruct D as (r1 & w1 & D). pose proof (decide_and_record PROMOTE None rq entry _ _ _ Hw D) as S.
  unfold decide_record, mbind, ST_bind, mret, ST_ret in D. cbn [decide] in D.
  destruct (_memory_review_decide _ _ _ _ _ _ w) as [[dec|x] w2] eqn:Dd; [|simplify_eq; by destruct S].
  change (if decide (PROMOTE = REVISE) then mc_candidate_id <$> None else None) with (@None string) in D.
  destruct (_memory_review_record_decision _ _ _ _ _ w2) as [[p|x] w3] eqn:Dr; [|simplify_eq; by destruct S].
  injection D as <- <-. destruct S as (Hby & Hst & -> & Hq1 & _ & Hrec).
  destruct Hrec as (Hp & Ho & Htm & Hview).
  assert (exists o, as_opt_str (rd_decision_notes p) = Ok o) as [o Hn].
  { pose proof (ok_texts _ Hp) as H. simpl in H. bool_prop. destruct (rd_decision_notes p); try done; eauto. }
  rewrite Hn in E. rewrite (promotable_promotes _ _ _ (rd_decided_by p) (rd_decided_at p)) in E by done.
  injection E as <- <-. split; [done|]. split; [by rewrite Hq1, od_get_set, decide_True|].
  exists p. by split_and!.
Qed.

(** Reviewing a candidate is all or nothing.  From a consistent queue and
    table, accepting (up to materialization), rejecting or revising either
    answers, and then the queue holds the decision under the candidate's key and
    the durable store holds the same decision, terminal unless it is a
    promotion; or it is refused with an HTTP error, and then queue and store
    are exactly as before.  No other exception and no half-recorded state is
    possible. *)
Theorem review_all_or_nothing d rq entry w r w' :
  ready rq entry w -> run_branch d rq entry w = (r, w') ->
  match r with
  | Ok p => reviewed d rq entry w' p
  | Raise e => w' = w /\ is_http e
  end.
Proof.
  intros Hw E. destruct d; cbn [run_branch] in E.
  - unfold mbind, ST_bind in E. destruct (accept_recorded rq entry w) as [[[x p]|e] w1] eqn:A;
      apply accept_spec in A; try done; by injection E as <- <-.
  - by eapply reject_spec.
  - by eapply revise_spec.
Qed.
End Review.

(** ** A run *)

Module EndpointRun.
Import DecisionRun.
#[local] Instance run_reader : DecisionReader decisions VaultContext := store_reader demo_host.
#[local] Instance run_reader_spec : DecisionReaderSpec decisions VaultContext := queue_store_spec demo_host.

Definition start : review_world :=
  mkReview (queue_after [QEnqueue [] (ReviewRun.cand "m" EPISODIC_MEMORY) (Some COMPATIBILITY_BINDING_ID)]
              (new_queue true (Some vault) (Some "stable"))) [].
Definition pending_m : ReviewEntry :=
  pending_entry (ReviewRun.cand "m" EPISODIC_MEMORY) (Some COMPATIBILITY_BINDING_ID) None.
Definition request (by' : string) : review_request :=
  mkReviewRequest "m" by' None None vault "stable" (utc 0) "m2" "p1".

Lemma start_ready by' : ready demo_host (request by') pending_m start.
Proof.
  split.
  - apply queue_after_ok; [apply entries_ok_nil|by repeat constructor].
  - apply db_ok_nil.
  - done.
  - vm_compute. reflexivity.
  - vm_compute. reflexivity.
  - exists 0%Z. split; [done|]. split; [lia|vm_compute; reflexivity].
Qed.

(** A rejection by a named reviewer is recorded; a blank one is refused. *)
Lemma review_all_or_nothing_run :
  (exists p, reviewed demo_host REJECT (request "human:ann") pending_m
               (snd (run_branch demo_host REJECT (request "human:ann") pending_m start)) p) /\
  snd (run_branch demo_host REVISE (request " ") pending_m start) = start.
Proof.
  split.
  - destruct (run_branch demo_host REJECT (request "human:ann") pending_m start) as [[p|e] w'] eqn:E;
      [|exfalso; vm_compute in E; discriminate E].
    exists p. exact (review_all_or_nothing demo_host REJECT (request "human:ann") pending_m start (Ok p) w'
      (start_ready _) E).
  - destruct (run_branch demo_host REVISE (request " ") pending_m start) as [[p|e] w'] eqn:E;
      [exfalso; vm_compute in E; discriminate E|].
    exact (proj1 (review_all_or_nothing demo_host REVISE (request " ") pending_m start (Raise e) w'
      (start_ready _) E)).
Defined.
End EndpointRun.
