(* ===== verification/PollBackoff.v ===== *)
(** * Polling and the Codex verdict (src/app/dispatcher/poll_backoff.py)

    The bounded polling loop of the delivery workflows, the paginated fetch of
    review evidence and its classification, on which a merge depends.

    Times are IEEE 754 binary64 numbers.  A response carries the sleep its
    headers request as [retry_after_seconds] read it ([None]: none).  The
    clock, the attempts and the GraphQL client are functions of the index of
    the reading or call and may answer anything; the client may raise.  A
    payload is a JSON value, so its parts are not shared. *)
From Stdlib Require Import Ascii ZArith SpecFloat Lia.
From S2P Require Import Prelude PyValue PyTime Sql.
Open Scope nat_scope.

(** ** [poll_until] *)

Definition fsub : spec_float -> spec_float -> spec_float := SFsub 53 1024.
Definition fmul : spec_float -> spec_float -> spec_float := SFmul 53 1024.
Definition f0 : spec_float := S754_zero false.
(** Python's [min(a, b)] and [max(a, b)]: the second only if it is strictly
    smaller, or larger. *)
Definition fmin (a b : spec_float) : spec_float := if SFltb b a then b else a.
Definition fmax (a b : spec_float) : spec_float := if SFltb a b then b else a.

Record PollPolicy : Type := mkPolicy {
  interval_seconds : spec_float;
  max_attempts : Z;
  max_elapsed_seconds : spec_float;
  backoff_multiplier : spec_float;
  max_interval_seconds : spec_float }.

Record PollResponse (A : Type) : Type := mkResponse {
  pl_value : A;
  pl_requested : option spec_float }.
Arguments mkResponse {A}.
Arguments pl_value {A}.
Arguments pl_requested {A}.

(** What the loop did: attempts made, clock readings taken, and each sleep with
    the time that was left when it was chosen. *)
Record poll_trace : Type := mkTrace {
  pt_attempts : nat;
  pt_readings : nat;
  pt_sleeps : list (spec_float * spec_float) }.

Section Poll.
Context {A : Type} (attempt : nat -> res (PollResponse A)) (is_done : A -> bool)
  (policy : PollPolicy) (clock : nat -> spec_float).

Definition timeout {B} : res B := Raise (OtherException "TimeoutError").

(** The iterations from [attempt_number] on; [n] of them are left. *)
Fixpoint poll_loop (n : nat) (attempt_number : Z) (start delay : spec_float) (t : poll_trace)
  : res A * poll_trace :=
  match n with
  | O => (timeout, t)
  | S n =>
      match attempt (pt_attempts t) with
      | Raise e => (Raise e, t)
      | Ok response =>
          let t := mkTrace (S (pt_attempts t)) (pt_readings t) (pt_sleeps t) in
          if is_done (pl_value response) then (Ok (pl_value response), t) else
          let elapsed := fsub (clock (pt_readings t)) start in
          let t := mkTrace (pt_attempts t) (S (pt_readings t)) (pt_sleeps t) in
          if (max_attempts policy <=? attempt_number)%Z || SFleb (max_elapsed_seconds policy) elapsed
          then (timeout, t) else
          let sleep_for := default delay (pl_requested response) in
          let remaining := fmax f0 (fsub (max_elapsed_seconds policy) elapsed) in
          let t := mkTrace (pt_attempts t) (S (pt_readings t))
                     (pt_sleeps t ++ [(fmin sleep_for remaining, remaining)]) in
          poll_loop n (attempt_number + 1) start
            (fmin (max_interval_seconds policy) (fmul delay (backoff_multiplier policy))) t
      end
  end.

Definition poll_until : res A * poll_trace :=
  poll_loop (Z.to_nat (max_attempts policy)) 1 (clock 0) (interval_seconds policy) (mkTrace 0 1 []).
End Poll.

(** ** The verdict *)

Definition POSITIVE_REACTIONS : list string := ["+1"; "heart"; "hooray"; "rocket"; "laugh"].
Definition NEGATIVE_REACTIONS : list string := ["-1"; "confused"].
Definition CODEX_BOT_LOGINS : list string := ["chatgpt-codex-connector[bot]"; "chatgpt-codex-connector"].

Record CodexVerdict : Type := mkVerdict { cv_status : string; cv_reason : string }.
Definition is_pass (v : CodexVerdict) : bool := String.eqb (cv_status v) "pass".

(** [v.get(k)], [v.get(k, {})] and [v.get(k) or {}]. *)
Definition dget (v : pyval) (k : string) : res pyval := getattr_get v k PNone.
Definition dget0 (v : pyval) (k : string) : res pyval := getattr_get v k (PDict []).
Definition dget_or (v : pyval) (k : string) : res pyval := x ← dget v k; Ok (py_or x (PDict [])).

(** [[x for x in l if p(x)]] and [any(p(x) for x in l)]. *)
Fixpoint filter_res {A} (p : A -> res bool) (l : list A) : res (list A) :=
  match l with
  | [] => Ok []
  | x :: l => b ← p x; ys ← filter_res p l; Ok (if b : bool then x :: ys else ys)
  end.
Fixpoint any_res {A} (p : A -> res bool) (l : list A) : res bool :=
  match l with
  | [] => Ok false
  | x :: l => b ← p x; if b : bool then Ok true else any_res p l
  end.

(** [login in CODEX_BOT_LOGINS]: membership in a set hashes. *)
Definition _is_codex_login (login : pyval) : res bool :=
  match login with
  | PList _ | PDict _ => Raise (TypeError "unhashable type")
  | _ => Ok (py_in login (map PStr CODEX_BOT_LOGINS))
  end.
Definition by_codex (field : string) (node : pyval) : res bool :=
  author ← dget_or node field; login ← dget author "login"; _is_codex_login login.

Definition nodes_of (conn : pyval) : res pyval := n ← dget conn "nodes"; Ok (py_or n (PList [])).
Definition has_next (conn : pyval) : res pyval := p ← dget0 conn "pageInfo"; dget p "hasNextPage".

Definition on_head (head_sha : option string) (key : string) (node : pyval) : res bool :=
  match head_sha with
  | None => Ok true
  | Some sha =>
      if String.eqb sha "" then Ok true else
      obj ← dget_or node key; oid ← dget obj "oid"; Ok (py_eqb oid (PStr sha))
  end.

Definition marker : string := "Useful? React".
Definition has_marker (node : pyval) : res bool :=
  body ← dget node "body"; contains (py_or body (PStr "")) marker.

(** [str(x.get("createdAt") or "") > head_started_at], when that is given. *)
Definition is_fresh (head_started_at : option string) (node : pyval) : res bool :=
  match head_started_at with
  | None => Ok true
  | Some started =>
      if String.eqb started "" then Ok true else
      c ← dget node "createdAt"; Ok (String.ltb started (py_str (py_or c (PStr ""))))
  end.

Definition content_of (node : pyval) : res string :=
  c ← dget node "content"; Ok (py_str (py_or c (PStr ""))).
Definition is_negative (node : pyval) : res bool :=
  c ← content_of node;
  Ok (existsb (String.eqb (str_replace "CONFUSED" "confused" 0 (str_replace "THUMBS_DOWN" "-1" 0 c)))
        NEGATIVE_REACTIONS).
Definition is_positive (node : pyval) : res bool :=
  c ← content_of node;
  Ok (existsb (String.eqb (str_replace "ROCKET" "rocket" 0 (str_replace "HEART" "heart" 0
        (str_replace "HOORAY" "hooray" 0 (str_replace "LAUGH" "laugh" 0
          (str_replace "THUMBS_UP" "+1" 0 c))))))
        POSITIVE_REACTIONS).
(** [p(x) and q(x)]. *)
Definition and_res {A} (p q : A -> res bool) (x : A) : res bool := b ← p x; if b : bool then q x else Ok false.

(** The comments of the threads, in order. *)
Fixpoint thread_comments (threads : list pyval) : res (list pyval) :=
  match threads with
  | [] => Ok []
  | t :: ts =>
      conn ← dget_or t "comments"; n ← nodes_of conn; l ← py_iter n;
      rest ← thread_comments ts; Ok (l ++ rest)
  end.

Definition verdict (status reason : string) : res CodexVerdict := Ok (mkVerdict status reason).

(** The evidence of a payload, before it is judged. *)
Record evidence : Type := mkEvidence {
  ev_head_reviews : list pyval;
  ev_inline_comments : list pyval;
  ev_issue_comments : list pyval;
  ev_reactions : pyval }.

(** The part of [parse_codex_verdict] up to [head_reviews], for a payload that is
    not paginated; [None] when it is. *)
Definition collect_evidence (payload : pyval) (head_sha : option string) : res (option evidence) :=
  data ← dget0 payload "data"; repo ← dget0 data "repository";
  pr ← dget_or repo "pullRequest";
  reviews_conn ← dget0 pr "reviews"; reviews ← nodes_of reviews_conn;
  threads_conn ← dget0 pr "reviewThreads"; review_threads ← nodes_of threads_conn;
  comments_conn ← dget0 pr "comments"; issue_comments ← nodes_of comments_conn;
  reactions_conn ← dget0 pr "reactions"; reactions ← nodes_of reactions_conn;
  p1 ← has_next reviews_conn; p2 ← has_next threads_conn;
  p3 ← has_next comments_conn; p4 ← has_next reactions_conn;
  threads ← py_iter review_threads;
  p5 ← mapM_res (fun t => c ← dget_or t "comments"; has_next c) threads;
  if existsb truthy ([p1; p2; p3; p4] ++ p5) then Ok None else
  reviews ← py_iter reviews;
  codex_reviews ← filter_res (by_codex "author") reviews;
  pr_comments ← thread_comments threads;
  codex_pr_comments ← filter_res (by_codex "author") pr_comments;
  issue_comments ← py_iter issue_comments;
  codex_issue_comments ← filter_res (by_codex "author") issue_comments;
  head_reviews ← filter_res (on_head head_sha "commit") codex_reviews;
  Ok (Some (mkEvidence head_reviews codex_pr_comments codex_issue_comments reactions)).

(** From [head_reviews] on: the first blocking finding, then a positive sign. *)
Definition judge (e : evidence) (head_sha head_started_at : option string) : res CodexVerdict :=
  b ← any_res (fun r => state ← dget r "state"; Ok (py_eqb state (PStr "CHANGES_REQUESTED")))
        (ev_head_reviews e);
  if b : bool then verdict "blocking" "Codex requested changes on the verified head" else
  b ← any_res has_marker (ev_head_reviews e);
  if b : bool then verdict "blocking" "Codex review body contains findings on the verified head" else
  b ← any_res (on_head head_sha "originalCommit") (ev_inline_comments e);
  if b : bool then verdict "blocking" "Codex inline comments exist on the verified head" else
  findings ← filter_res (and_res has_marker (is_fresh head_started_at)) (ev_issue_comments e);
  if negb (bool_decide (findings = []))
  then verdict "blocking" "Codex conversation comments contain findings" else
  reactions ← py_iter (ev_reactions e);
  bot_reactions ← filter_res (by_codex "user") reactions;
  negative ← filter_res (and_res is_negative (is_fresh head_started_at)) bot_reactions;
  if negb (bool_decide (negative = [])) then verdict "blocking" "Codex left a negative reaction" else
  positive ← filter_res (and_res is_positive (is_fresh head_started_at)) bot_reactions;
  if negb (bool_decide (ev_head_reviews e = [])) || negb (bool_decide (positive = []))
  then verdict "pass" "Codex verdict passed"
  else verdict "unresolved" "No Codex verdict found".

Definition parse_codex_verdict (payload : pyval) (head_sha head_started_at : option string)
  : res CodexVerdict :=
  e ← collect_evidence payload head_sha;
  match e with
  | None => verdict "unresolved" "Codex verdict evidence is paginated; fetch more before merging"
  | Some e => judge e head_sha head_started_at
  end.

(** ** Pagination *)

(** The GraphQL calls made so far: query, named by its operation, and variables. *)
Abbreviation calls := (list (string * pydict)).

Definition CODEX_VERDICT_QUERY : string := "CodexVerdict".
Definition CODEX_THREAD_COMMENTS_QUERY : string := "CodexThreadComments".

Definition _pull_request (payload : pyval) : res pyval :=
  data ← dget0 payload "data"; repo ← dget0 data "repository"; dget_or repo "pullRequest".
Definition _connection (payload : pyval) (name : string) : res pyval :=
  pr ← _pull_request payload; dget_or pr name.
Definition _page_info (connection : pyval) : res pyval := dget_or connection "pageInfo".

(** [v[k] = x] and the change of a nested value in place. *)
Definition setitem (v : pyval) (k : string) (x : pyval) : res pyval :=
  match v with PDict d => Ok (PDict (dict_set d k x)) | _ => Raise (TypeError "item assignment") end.
Definition update_in (v : pyval) (k : string) (f : pyval -> res pyval) : res pyval :=
  x ← getitem v k; y ← f x; setitem v k y.

(** [d.setdefault(k, dflt)], then the change [f] of the value in place. *)
Definition setdefault_in (v : pyval) (k : string) (dflt : pyval) (f : pyval -> res pyval) : res pyval :=
  match v with
  | PDict d => y ← f (default dflt (dict_get d k)); Ok (PDict (dict_set d k y))
  | _ => Raise (AttributeError "setdefault")
  end.
(** [v.extend(xs)] where [xs] is computed after the attribute is found. *)
Definition extend (xs : res (list pyval)) (v : pyval) : res pyval :=
  match v with
  | PList l => xs ← xs; Ok (PList (l ++ xs))
  | _ => Raise (AttributeError "extend")
  end.

(** [conn.setdefault("nodes", []).extend(page nodes); conn["pageInfo"] = dict(page info)]. *)
Definition extend_connection (page_connection conn : pyval) : res pyval :=
  conn ← setdefault_in conn "nodes" (PList []) (extend (n ← nodes_of page_connection; py_iter n));
  info ← _page_info page_connection;
  d ← py_dict info;
  setitem conn "pageInfo" (PDict d).

Definition _merge_connection_nodes (target page : pyval) (name : string) : res pyval :=
  update_in target "data" (fun data => update_in data "repository" (fun repo =>
    update_in repo "pullRequest" (fun pr =>
      setdefault_in pr name (PDict [("nodes", PList []); ("pageInfo", PDict [])]) (fun conn =>
        page_connection ← _connection page name;
        extend_connection page_connection conn)))).

Definition cursor_vars : list (string * string) :=
  [("reviews", "reviewsCursor"); ("reviewThreads", "threadsCursor");
   ("comments", "issueCommentsCursor"); ("reactions", "reactionsCursor")].

(** The dict comprehension over the surfaces that have a next page. *)
Fixpoint cursors_of (payload : pyval) (vars : list (string * string)) : res (list (string * pyval)) :=
  match vars with
  | [] => Ok []
  | (conn_name, var_name) :: vars =>
      conn ← _connection payload conn_name; info ← _page_info conn; next ← dget info "hasNextPage";
      if truthy next then
        cursor ← dget info "endCursor"; rest ← cursors_of payload vars; Ok ((var_name, cursor) :: rest)
      else cursors_of payload vars
  end.

Fixpoint merge_pages (payload page : pyval) (cursors : list (string * pyval))
    (vars : list (string * string)) : res pyval :=
  match vars with
  | [] => Ok payload
  | (conn_name, var_name) :: vars =>
      payload ← (if dict_mem cursors var_name then _merge_connection_nodes payload page conn_name
                 else Ok payload);
      merge_pages payload page cursors vars
  end.

Section Fetch.
Context (client : string -> pydict -> nat -> res pyval).

Definition call (query : string) (variables : pydict) : ST calls pyval := fun cs =>
  (client query variables (length cs), cs ++ [(query, variables)]).

(** The first loop; [true] when it returned the payload early. *)
Fixpoint fetch_pages (n : nat) (variables : pydict) (payload : pyval) : ST calls (bool * pyval) :=
  match n with
  | O => mret (false, payload)
  | S n =>
      cursors ← st_lift (cursors_of payload cursor_vars);
      if bool_decide (cursors = []) then mret (false, payload) else
      if existsb (fun c => is_none (snd c) || py_eqb (snd c) (PStr "")) cursors
      then mret (true, payload) else
      page ← call CODEX_VERDICT_QUERY (dict_merge variables cursors);
      payload ← st_lift (merge_pages payload page cursors cursor_vars);
      fetch_pages n variables payload
  end.

(** The inner loop of the second, on one thread. *)
Fixpoint fetch_comments (n : nat) (thread comments : pyval) : ST calls pyval :=
  match n with
  | O => mret thread
  | S n =>
      info ← st_lift (_page_info comments);
      next ← st_lift (dget info "hasNextPage");
      if negb (truthy next) then mret thread else
      cursor ← st_lift (dget info "endCursor");
      thread_id ← st_lift (dget thread "id");
      if negb (truthy cursor) || negb (truthy thread_id) then mret thread else
      page ← call CODEX_THREAD_COMMENTS_QUERY [("threadId", thread_id); ("commentsCursor", cursor)];
      data ← st_lift (dget_or page "data"); node ← st_lift (dget_or data "node");
      page_comments ← st_lift (dget_or node "comments");
      comments ← st_lift (extend_connection page_comments comments);
      thread ← st_lift (setitem thread "comments" comments);
      fetch_comments n thread comments
  end.

Fixpoint fetch_threads (max_pages : nat) (threads : list pyval) : ST calls (list pyval) :=
  match threads with
  | [] => mret []
  | thread :: threads =>
      comments ← st_lift (dget_or thread "comments");
      thread ← fetch_comments max_pages thread comments;
      rest ← fetch_threads max_pages threads;
      mret (thread :: rest)
  end.

(** The threads of a payload, and the payload with them replaced. *)
Definition threads_of (payload : pyval) : res (list pyval) :=
  pr ← _pull_request payload; conn ← dget_or pr "reviewThreads"; n ← nodes_of conn; py_iter n.
Definition with_threads (payload : pyval) (threads : list pyval) : res pyval :=
  update_in payload "data" (fun data => update_in data "repository" (fun repo =>
    update_in repo "pullRequest" (fun pr => update_in pr "reviewThreads" (fun conn =>
      setitem conn "nodes" (PList threads))))).

Definition _fetch_complete_codex_payload (variables : pydict) (max_pages : nat) : ST calls pyval :=
  first ← call CODEX_VERDICT_QUERY variables;
  d ← st_lift (py_dict first);
  '(early, payload) ← fetch_pages max_pages variables (PDict d);
  if early : bool then mret payload else
  threads ← st_lift (threads_of payload);
  threads' ← fetch_threads max_pages threads;
  if bool_decide (threads = []) then mret payload else st_lift (with_threads payload threads').

(** [repo.split("/", 1)]. *)
Fixpoint split_slash (s : string) : option (string * string) :=
  match s with
  | EmptyString => None
  | String c s => if Ascii.eqb c "/"%char then Some ("", s)
                  else '(a, b) ← split_slash s; Some (String c a, b)
  end.

Definition resolve_codex_verdict (repo : string) (pr : Z) (head_sha head_started_at : option string)
  : ST calls CodexVerdict :=
  match split_slash repo with
  | None => st_raise (ValueError "not enough values to unpack")
  | Some (owner, name) =>
      payload ← _fetch_complete_codex_payload [("owner", PStr owner); ("repo", PStr name); ("pr", PInt pr)] 100;
      st_lift (parse_codex_verdict payload head_sha head_started_at)
  end.
End Fetch.

(** ** Properties *)

Section PollProps.
Context {A : Type} (attempt : nat -> res (PollResponse A)) (is_done : A -> bool)
  (policy : PollPolicy) (clock : nat -> spec_float).

Lemma fmin_le a b : SFltb b (fmin a b) = false.
Proof.
  unfold fmin. destruct (SFltb b a) eqn:E; [|done]. clear. unfold SFltb.
  destruct b as [[]|[]| |[] m e]; try done; simpl; rewrite Z.compare_refl; [by rewrite Pos.compare_cont_refl|].
  by rewrite Pos.compare_cont_refl.
Qed.

(** What holds of the trace when [n] iterations are left out of [total]. *)
Definition trace_ok (total n : nat) (t : poll_trace) : Prop :=
  pt_attempts t + n = total /\ length (pt_sleeps t) = pt_attempts t /\
  Forall (fun s => SFltb (snd s) (fst s) = false) (pt_sleeps t).

Lemma poll_loop_spec total n k start delay t r t' :
  trace_ok total n t -> poll_loop attempt is_done policy clock n k start delay t = (r, t') ->
  pt_attempts t' <= total /\ length (pt_sleeps t') <= pt_attempts t' /\
  Forall (fun s => SFltb (snd s) (fst s) = false) (pt_sleeps t') /\
  match r with
  | Ok v => is_done v = true /\ length (pt_sleeps t') < pt_attempts t' /\
            exists i x, S i = pt_attempts t' /\ attempt i = Ok x /\ pl_value x = v
  | Raise e => e = OtherException "TimeoutError" \/ attempt (pt_attempts t') = Raise e
  end.
Proof.
  revert k delay t. induction n as [|n IH]; intros k delay t (Ht & Hs & Hf); cbn [poll_loop].
  { intros [= <- <-]. split_and!; [lia|lia|done|by left]. }
  destruct (attempt (pt_attempts t)) as [x|e] eqn:Ex; [|intros [= <- <-]; split_and!; [lia|lia|done|by right]].
  destruct (is_done (pl_value x)) eqn:Ed.
  { intros [= <- <-]. simpl. split_and!; [lia|lia|done|done|lia|]. by exists (pt_attempts t), x. }
  destruct (_ || _)%bool; [intros [= <- <-]; simpl; split_and!; [lia|lia|done|by left]|].
  apply IH. split_and!; simpl; [lia|rewrite length_app; simpl; lia|].
  apply Forall_app. split; [done|]. apply Forall_singleton. apply fmin_le.
Qed.

(** C37: polling always ends, within [max_attempts] attempts and with at most
    one sleep per attempt, none of them longer than the time that was left; it
    returns a value only if that value, answered by the last attempt, is done,
    and otherwise raises [TimeoutError] or what an attempt raised. *)
Theorem poll_until_bounded r t :
  poll_until attempt is_done policy clock = (r, t) ->
  (Z.of_nat (pt_attempts t) <= Z.max 0 (max_attempts policy))%Z /\
  length (pt_sleeps t) <= pt_attempts t /\
  Forall (fun s => SFltb (snd s) (fst s) = false) (pt_sleeps t) /\
  match r with
  | Ok v => is_done v = true /\ length (pt_sleeps t) < pt_attempts t /\
            exists i x, S i = pt_attempts t /\ attempt i = Ok x /\ pl_value x = v
  | Raise e => e = OtherException "TimeoutError" \/ attempt (pt_attempts t) = Raise e
  end.
Proof.
  intros E. apply (poll_loop_spec (Z.to_nat (max_attempts policy))) in E as (H & ?); [|by split_and!].
  split; [lia|done].
Qed.
End PollProps.

(** *** What a pass means *)

Lemma any_res_false {A} (p : A -> res bool) l : any_res p l = Ok false <-> Forall (fun x => p x = Ok false) l.
Proof.
  induction l as [|x l IH]; simpl; [by split; [constructor|]|]. rewrite Forall_cons, <- IH.
  destruct (p x) as [[]|e]; simpl; naive_solver.
Qed.

Lemma filter_res_spec {A} (p : A -> res bool) l m :
  filter_res p l = Ok m ->
  Forall (fun x => p x = Ok true \/ p x = Ok false) l /\ (forall x, x ∈ m <-> x ∈ l /\ p x = Ok true).
Proof.
  revert m. induction l as [|x l IH]; intros m; simpl.
  - intros [= <-]. split; [done|]. intros x. split; [by intros ?%elem_of_nil|by intros [?%elem_of_nil _]].
  - intros (b & Hb & (ys & Hy & [= <-])%bind_ok)%bind_ok. destruct (IH _ Hy) as [Hf Hm].
    split; [constructor; [destruct b; auto|done]|]. intros y. destruct b.
    + rewrite !elem_of_cons, Hm. naive_solver.
    + rewrite Hm, elem_of_cons. naive_solver congruence.
Qed.

Lemma filter_res_nil {A} (p : A -> res bool) l :
  filter_res p l = Ok [] -> Forall (fun x => p x = Ok false) l.
Proof.
  intros H. destruct (filter_res_spec _ _ _ H) as [Hf Hm]. apply Forall_forall. intros x Hx.
  destruct (proj1 (Forall_forall _ _) Hf x Hx) as [Ht|?]; [|done].
  assert (Hin : x ∈ []) by (apply Hm; auto). by apply elem_of_nil in Hin.
Qed.

(** The nodes of a surface that has no further page. *)
Definition surface_nodes (pr : pyval) (name : string) (n : pyval) : Prop :=
  exists c h, dget0 pr name = Ok c /\ has_next c = Ok h /\ truthy h = false /\ nodes_of c = Ok n.
Definition thread_done (t : pyval) : Prop :=
  exists c h, dget_or t "comments" = Ok c /\ has_next c = Ok h /\ truthy h = false.

(** The evidence is all of the payload's, and the payload is complete. *)
Definition complete_evidence (payload : pyval) (head_sha : option string) (e : evidence) : Prop :=
  exists pr rn reviews tn threads comments cn issues,
    _pull_request payload = Ok pr /\
    surface_nodes pr "reviews" rn /\ py_iter rn = Ok reviews /\
    surface_nodes pr "reviewThreads" tn /\ py_iter tn = Ok threads /\ Forall thread_done threads /\
    thread_comments threads = Ok comments /\
    surface_nodes pr "comments" cn /\ py_iter cn = Ok issues /\
    surface_nodes pr "reactions" (ev_reactions e) /\
    (forall r, r ∈ ev_head_reviews e <->
       (r ∈ reviews /\ by_codex "author" r = Ok true) /\ on_head head_sha "commit" r = Ok true) /\
    (forall c, c ∈ ev_inline_comments e <-> c ∈ comments /\ by_codex "author" c = Ok true) /\
    (forall c, c ∈ ev_issue_comments e <-> c ∈ issues /\ by_codex "author" c = Ok true).

Lemma mapM_res_Forall {A B} (f : A -> res B) l ys :
  mapM_res f l = Ok ys -> Forall2 (fun x y => f x = Ok y) l ys.
Proof.
  revert ys. induction l as [|x l IH]; intros ys; simpl; [intros [= <-]; constructor|].
  intros (y & Hy & (zs & Hz & [= <-])%bind_ok)%bind_ok. constructor; auto.
Qed.

Lemma collect_complete payload head_sha e :
  collect_evidence payload head_sha = Ok (Some e) -> complete_evidence payload head_sha e.
Proof.
  unfold collect_evidence. intros H.
  bound H as data Ed. bound H as repo Er.
  bound H as pr Ep.
  bound H as rc Erc. bound H as rn Ern.
  bound H as tc Etc. bound H as tn Etn.
  bound H as cc Ecc. bound H as cn Ecn.
  bound H as xc Exc. bound H as xn Exn.
  bound H as p1 E1. bound H as p2 E2.
  bound H as p3 E3. bound H as p4 E4.
  bound H as threads Et. bound H as p5 E5.
  destruct (existsb truthy _) eqn:Ex in H; [done|].
  rewrite existsb_app in Ex. cbn [existsb] in Ex. bool_prop.
  bound H as reviews Erv. bound H as cr Ecr.
  bound H as comments Ecm. bound H as ccm Eccm.
  bound H as issues Eis. bound H as cis Ecis.
  bound H as hr Ehr. injection H as <-.
  apply filter_res_spec in Ecr as [_ Ecr], Eccm as [_ Eccm], Ecis as [_ Ecis], Ehr as [_ Ehr].
  exists pr, rn, reviews, tn, threads, comments, cn, issues.
  split; [unfold _pull_request; rewrite Ed; simpl; by rewrite Er|].
  split_and!; try done.
  - by exists rc, p1.
  - by exists tc, p2.
  - apply mapM_res_Forall in E5.
    assert (T : forall y, y ∈ p5 -> truthy y = false).
    { intros y Hy. destruct (truthy y) eqn:Ey; [|done].
      enough (existsb truthy p5 = true) by congruence. apply existsb_exists. exists y. split; [by apply list_elem_of_In|done]. }
    clear -E5 T. induction E5 as [|t y l ys Hy _ IH]; constructor.
    + apply bind_ok in Hy as (c & Hc & Hn). exists c, y. split_and!; try done. apply T. by left.
    + apply IH. intros z Hz. apply T. by right.
  - by exists cc, p3.
  - by exists xc, p4.
  - intros r. simpl. by rewrite Ehr, Ecr.
Qed.

(** A review, comment or reaction that keeps a head from passing. *)
Definition blocking_review (r : pyval) : Prop :=
  dget r "state" = Ok (PStr "CHANGES_REQUESTED") \/ has_marker r = Ok true.

(** C38: the verdict is a pass only on complete evidence: no surface and no
    thread has a further page; no Codex review of the verified head requests
    changes or carries findings; no Codex inline comment is on that head; no
    fresh Codex comment carries findings and no fresh Codex reaction is
    negative; and there is a Codex review of the head or a fresh positive
    reaction. *)
Theorem pass_is_sound payload head_sha started v :
  parse_codex_verdict payload head_sha started = Ok v -> is_pass v = true ->
  exists e reactions, complete_evidence payload head_sha e /\
    py_iter (ev_reactions e) = Ok reactions /\
    (forall r, r ∈ ev_head_reviews e -> ~ blocking_review r) /\
    (forall c, c ∈ ev_inline_comments e -> on_head head_sha "originalCommit" c = Ok false) /\
    (forall c, c ∈ ev_issue_comments e -> and_res has_marker (is_fresh started) c = Ok false) /\
    (forall r, r ∈ reactions -> by_codex "user" r = Ok true ->
       and_res is_negative (is_fresh started) r = Ok false) /\
    (ev_head_reviews e <> [] \/
     exists r, r ∈ reactions /\ by_codex "user" r = Ok true /\ and_res is_positive (is_fresh started) r = Ok true).
Proof.
  unfold parse_codex_verdict. intros (oe & He & H)%bind_ok Hp. destruct oe as [e|]; [|by injection H as <-].
  apply collect_complete in He. unfold judge in H.
  bound H as [] H1; [by injection H as <-|]. apply any_res_false in H1.
  bound H as [] H2; [by injection H as <-|]. apply any_res_false in H2.
  bound H as [] H3; [by injection H as <-|]. apply any_res_false in H3.
  bound H as findings H4. case_bool_decide as Hf; [subst findings|by injection H as <-].
  apply filter_res_nil in H4. bound H as rs H5.
  bound H as bots H6. bound H as neg H7.
  case_bool_decide as Hn; [subst neg|by injection H as <-]. apply filter_res_nil in H7.
  bound H as pos H8. apply filter_res_spec in H6 as [_ H6], H8 as [_ H8].
  rewrite Forall_forall in H1, H2, H3, H4, H7.
  exists e, rs. split_and!; try done.
  - intros r Hr [Hs|Hm]; [|rewrite (H2 r Hr) in Hm; done].
    specialize (H1 r Hr). simpl in H1. by rewrite Hs in H1.
  - intros r Hr Hb. apply H7, H6. auto.
  - destruct (bool_decide (ev_head_reviews e = [])) eqn:E1; bool_prop; [|by left]. right.
    destruct (bool_decide (pos = [])) eqn:E2; [by injection H as <-|]. bool_prop.
    destruct pos as [|r pos]; [done|]. destruct (H8 r) as [Hr _].
    destruct Hr as [Hr Hpos]; [by left|]. apply H6 in Hr as [? ?]. eauto.
Qed.

(** *** The number of calls *)

Section FetchProps.
Context (client : string -> pydict -> nat -> res pyval).

(** [m] makes at most [n] calls, whatever it answers. *)
Definition within {A} (n : nat) (m : ST calls A) : Prop :=
  forall cs r cs', m cs = (r, cs') -> length cs' <= length cs + n.

Lemma within_weaken {A} n n' (m : ST calls A) : n <= n' -> within n m -> within n' m.
Proof. intros Hn Hm cs r cs' E. specialize (Hm _ _ _ E). lia. Qed.
Lemma within_ret {A} (a : A) : within 0 (mret a).
Proof. intros cs r cs' [= _ <-]. lia. Qed.
Lemma within_lift {A} (r : res A) : within 0 (st_lift r).
Proof. intros cs r' cs' [= _ <-]. lia. Qed.
Lemma within_call q v : within 1 (call client q v).
Proof. intros cs r cs' [= _ <-]. rewrite length_app. simpl. lia. Qed.
Lemma within_bind {A B} n k (m : ST calls A) (f : A -> ST calls B) :
  within n m -> (forall a, within k (f a)) -> within (n + k) (m ≫= f).
Proof.
  intros Hm Hf cs r cs'. unfold mbind, ST_bind. destruct (m cs) as [[a|e] c1] eqn:E; intros H.
  - apply Hm in E. apply Hf in H. lia.
  - injection H as _ <-. apply Hm in E. lia.
Qed.
Lemma within_bind_lift {A B} k (x : res A) (f : A -> ST calls B) :
  (forall a, within k (f a)) -> within k (st_lift x ≫= f).
Proof. intros H. change k with (0 + k). apply within_bind; [apply within_lift|done]. Qed.
Lemma within_if {A} n (b : bool) (m m' : ST calls A) : within n m -> within n m' -> within n (if b then m else m').
Proof. by destruct b. Qed.

#[local] Hint Resolve within_ret within_lift within_call within_bind_lift within_if : core.

Lemma fetch_pages_within n variables payload : within n (fetch_pages client n variables payload).
Proof.
  revert payload. induction n as [|n IH]; intros payload; cbn [fetch_pages]; [auto|].
  assert (Z : forall A (a : A), within (S n) (mret a)) by (intros; eapply within_weaken; [|apply within_ret]; lia).
  apply within_bind_lift. intros cursors. apply within_if; [auto|]. apply within_if; [auto|].
  change (S n) with (1 + n). apply within_bind; [auto|]. intros page. auto.
Qed.

Lemma fetch_comments_within n thread comments : within n (fetch_comments client n thread comments).
Proof.
  revert thread comments. induction n as [|n IH]; intros thread comments; cbn [fetch_comments]; [auto|].
  assert (Z : forall A (a : A), within (S n) (mret a)) by (intros; eapply within_weaken; [|apply within_ret]; lia).
  apply within_bind_lift. intros info. apply within_bind_lift. intros next. apply within_if; [auto|].
  apply within_bind_lift. intros cursor. apply within_bind_lift. intros tid. apply within_if; [auto|].
  change (S n) with (1 + n). apply within_bind; [auto|]. intros page. auto 10.
Qed.

Lemma fetch_threads_within n threads : within (n * length threads) (fetch_threads client n threads).
Proof.
  induction threads as [|t ts IH]; cbn [fetch_threads length]; [rewrite Nat.mul_0_r; auto|].
  replace (n * S (length ts)) with (n + (n * length ts + 0)) by lia.
  apply within_bind_lift. intros c. apply within_bind; [apply fetch_comments_within|]. intros t'.
  apply within_bind; [apply IH|]. auto.
Qed.

Lemma fetch_threads_length n threads cs l cs' :
  fetch_threads client n threads cs = (Ok l, cs') -> length l = length threads.
Proof.
  revert cs l cs'. induction threads as [|t ts IH]; intros cs l cs' E; cbn [fetch_threads] in E.
  - by injection E as <- _.
  - run E as c c1 E1. run E as t' c2 E2. run E as rest c3 E3. injection E as <- _. simpl. f_equal. eauto.
Qed.

Lemma truthy_set d k x : truthy (PDict (dict_set d k x)) = true.
Proof. destruct d as [|[j w] d]; [done|]. simpl. by destruct (String.eqb k j). Qed.
Lemma setitem_get v k x v' : setitem v k x = Ok v' -> dget v' k = Ok x /\ dget0 v' k = Ok x /\ truthy v' = true.
Proof.
  destruct v; try done. intros [= <-]. unfold dget, dget0, getattr_get. rewrite dict_get_set_eq.
  split_and!; try done. apply truthy_set.
Qed.
Lemma update_in_get v k f v' : update_in v k f = Ok v' ->
  exists x y, dget0 v k = Ok x /\ dget v k = Ok x /\ f x = Ok y /\
    dget v' k = Ok y /\ dget0 v' k = Ok y /\ truthy v' = true.
Proof.
  unfold update_in. intros H. bound H as x Ex. bound H as y Ey. apply setitem_get in H as (? & ? & ?).
  exists x, y. assert (G : forall w, getattr_get v k w = Ok x); [|by split_and!; try apply G].
  destruct v; try done. unfold getitem in Ex. intros w. unfold getattr_get. by case_match; simplify_eq.
Qed.

Lemma pull_request_dict v data repo d :
  dget0 v "data" = Ok data -> dget0 data "repository" = Ok repo -> dget repo "pullRequest" = Ok (PDict d) ->
  _pull_request v = Ok (PDict d).
Proof.
  intros H1 H2 H3. unfold _pull_request, dget_or. rewrite H1. cbn [mbind res_bind]. rewrite H2.
  cbn [mbind res_bind]. rewrite H3. cbn [mbind res_bind]. by destruct d.
Qed.

(** A merged page changes only the surface it is merged into. *)
Lemma merge_pull_request target page name target' :
  _merge_connection_nodes target page name = Ok target' ->
  exists d conn conn' page_connection, _pull_request target = Ok (PDict d) /\
    conn = default (PDict [("nodes", PList []); ("pageInfo", PDict [])]) (dict_get d name) /\
    _connection page name = Ok page_connection /\ extend_connection page_connection conn = Ok conn' /\
    _pull_request target' = Ok (PDict (dict_set d name conn')).
Proof.
  unfold _merge_connection_nodes.
  intros (data & data' & D1 & _ & Hd & _ & D2 & _)%update_in_get.
  apply update_in_get in Hd as (repo & repo' & R1 & _ & Hr & _ & R2 & _).
  apply update_in_get in Hr as (pr & pr' & _ & P1 & Hp & P2 & _).
  destruct pr as [| | | | | | |d]; try done. simpl in Hp. bound Hp as y Ey. injection Hp as <-.
  bound Ey as pc Epc. exists d; eexists; exists y, pc.
  split_and!; [by eapply pull_request_dict|reflexivity|done|done|by eapply pull_request_dict].
Qed.

Lemma extend_connection_nodes page_connection conn conn' :
  extend_connection page_connection conn = Ok conn' ->
  exists d l n xs, conn = PDict d /\ default (PList []) (dict_get d "nodes") = PList l /\
    nodes_of page_connection = Ok n /\ py_iter n = Ok xs /\
    nodes_of conn' = Ok (py_or (PList (l ++ xs)) (PList [])) /\ truthy conn' = true.
Proof.
  unfold extend_connection. intros H. bound H as c1 E1. bound H as info Ei. bound H as di Ed.
  destruct conn as [| | | | | | |d]; try done. simpl in E1. bound E1 as y Ey. injection E1 as <-.
  destruct (default (PList []) (dict_get d "nodes")) as [| | | | |l| |] eqn:El; try done.
  simpl in Ey. bound Ey as xs Ex. injection Ey as <-. bound Ex as n En. injection H as <-.
  exists d, l, n, xs. split_and!; try done.
  - unfold nodes_of, dget, getattr_get. rewrite dict_get_set_ne, dict_get_set_eq by done. reflexivity.
  - apply truthy_set.
Qed.

(** The threads a payload shows, 0 when they cannot be read. *)
Definition thread_count (payload : pyval) : nat :=
  match threads_of payload with Ok l => length l | Raise _ => 0 end.

Lemma threads_of_dict payload d : _pull_request payload = Ok (PDict d) ->
  threads_of payload = (conn ← dget_or (PDict d) "reviewThreads"; n ← nodes_of conn; py_iter n).
Proof. intros H. unfold threads_of. by rewrite H. Qed.

Lemma merge_thread_count target page name target' :
  _merge_connection_nodes target page name = Ok target' ->
  thread_count target' <= thread_count target + thread_count page /\
  (name <> "reviewThreads" -> thread_count target' = thread_count target).
Proof.
  intros (d & conn & conn' & pc & H1 & Hc & H2 & H3 & H4)%merge_pull_request.
  destruct (decide (name = "reviewThreads")) as [->|Hn]; unfold thread_count;
    rewrite (threads_of_dict _ _ H1), (threads_of_dict _ _ H4); unfold dget_or, dget, getattr_get.
  - rewrite dict_get_set_eq. split; [|done].
    apply extend_connection_nodes in H3 as (dc & l & n & xs & -> & Hl & Hn & Hx & Hn' & Ht).
    assert (P : threads_of page = Ok xs).
    { unfold threads_of, _connection in *. bound H2 as pr Epr. rewrite Epr. cbn [mbind res_bind].
      rewrite H2. cbn [mbind res_bind]. by rewrite Hn. }
    rewrite P. cbn [mbind res_bind default id].
    replace (py_or conn' (PDict [])) with conn' by (unfold py_or; by rewrite Ht).
    rewrite Hn'. cbn [mbind res_bind].
    replace (py_or (PList (l ++ xs)) (PList [])) with (PList (l ++ xs)) by by destruct (l ++ xs).
    assert (T : (n ← nodes_of (py_or (default PNone (dict_get d "reviewThreads")) (PDict [])); py_iter n) = Ok l).
    { destruct (dict_get d "reviewThreads") as [c|]; simpl in Hc.
      - subst c. simpl default. replace (py_or (PDict dc) (PDict [])) with (PDict dc) by by destruct dc.
        unfold nodes_of, dget, getattr_get. cbn [mbind res_bind].
        destruct (dict_get dc "nodes") as [w|]; simpl in Hl; simplify_eq; [|done]. by destruct l.
      - simplify_eq. simpl in Hl. by simplify_eq. }
    rewrite T. simpl. by rewrite length_app.
  - rewrite dict_get_set_ne by congruence. split; [lia|done].
Qed.

Lemma merge_pages_count page cursors vars payload payload' :
  NoDup (map fst vars) -> merge_pages payload page cursors vars = Ok payload' ->
  thread_count payload' <= thread_count payload + thread_count page /\
  (~ "reviewThreads" ∈ map fst vars -> thread_count payload' = thread_count payload).
Proof.
  revert payload. induction vars as [|[c v] vars IH]; intros payload Hd H; simpl in *.
  - injection H as <-. split; [lia|done].
  - apply NoDup_cons in Hd as [Hc Hd]. bound H as p1 E1. apply IH in H as [H1 H2]; [|done].
    assert (M : thread_count p1 <= thread_count payload + thread_count page /\
                (c <> "reviewThreads" -> thread_count p1 = thread_count payload)).
    { destruct (dict_mem _ _); [by eapply merge_thread_count|injection E1 as <-; split; [lia|done]]. }
    destruct M as [M1 M2]. destruct (decide (c = "reviewThreads")) as [->|Hn].
    + rewrite H2 by done. split; [done|]. intros Hx. exfalso. apply Hx. by left.
    + rewrite <- M2 by done. split; [done|]. intros Hx. apply H2. intros Hy. apply Hx. by right.
Qed.

Lemma threads_of_with_threads payload ts payload' :
  with_threads payload ts = Ok payload' -> threads_of payload' = Ok ts.
Proof.
  unfold with_threads. intros (data & data' & _ & _ & Hd & _ & Gd & _)%update_in_get.
  apply update_in_get in Hd as (repo & repo' & _ & _ & Hr & _ & Gr & _).
  apply update_in_get in Hr as (pr & pr' & _ & _ & Hp & Gp & _ & _).
  apply update_in_get in Hp as (conn & conn' & _ & _ & Hc & Gc & _ & Tp).
  apply setitem_get in Hc as (Gn & _ & Tc).
  unfold threads_of, _pull_request. rewrite Gd. cbn [mbind res_bind]. rewrite Gr. cbn [mbind res_bind].
  unfold dget_or. rewrite Gp. cbn [mbind res_bind]. unfold py_or. rewrite Tp, Gc. cbn [mbind res_bind].
  rewrite Tc. unfold nodes_of. rewrite Gn. cbn [mbind res_bind]. unfold py_or. by destruct ts.
Qed.

Context (N : nat).
(** No answer carries more than [N] review threads; the query asks for 100. *)
Definition pages_of_at_most : Prop := forall q v i x d,
  client q v i = Ok x -> py_dict x = Ok d -> thread_count (PDict d) <= N.
Context (paged : pages_of_at_most).

Lemma page_count q v i x : client q v i = Ok x -> thread_count x <= N.
Proof.
  intros H. destruct x; try (unfold thread_count; simpl; lia). by eapply (paged _ _ _ _ _ H).
Qed.

Lemma fetch_pages_count n variables payload cs early payload' cs' :
  fetch_pages client n variables payload cs = (Ok (early, payload'), cs') ->
  thread_count payload' <= thread_count payload + n * N.
Proof.
  revert payload cs. induction n as [|n IH]; intros payload cs E; cbn [fetch_pages] in E.
  { injection E as _ <- _. lia. }
  run E as cursors c1 E1. destruct (bool_decide _) in E; [injection E as _ <- _; lia|].
  destruct (existsb _ _) in E; [injection E as _ <- _; lia|].
  run E as page c2 E2. run E as p1 c3 E3. apply IH in E.
  apply st_lift_ok in E3 as [E3 ->]. injection E2 as E2 _. apply page_count in E2.
  apply merge_pages_count in E3 as [H _]; [lia|]. apply (bool_decide_unpack _). by vm_compute.
Qed.

(** C39: fetching the evidence ends whatever the server answers.  A server whose
    answers carry at most [N] review threads is called at most
    [1 + max_pages * (1 + N + max_pages * N)] times, whether the fetch succeeds
    or fails, and the payload it returns shows at most [N + max_pages * N]
    threads. *)
Theorem fetch_is_bounded variables max_pages cs r cs' :
  _fetch_complete_codex_payload client variables max_pages cs = (r, cs') ->
  length cs' <= length cs + 1 + max_pages * (1 + (N + max_pages * N)) /\
  match r with Ok payload => thread_count payload <= N + max_pages * N | Raise _ => True end.
Proof.
  intros E. unfold _fetch_complete_codex_payload in E.
  cases E as first c1 E1; [|apply within_call in E1; split; [lia|by subst r]].
  pose proof (within_call _ _ _ _ _ E1) as L1. injection E1 as E1 _.
  cases E as d c2 E2; [|apply within_lift in E2; split; [lia|by subst r]].
  apply st_lift_ok in E2 as [E2 ->]. pose proof (paged _ _ _ _ _ E1 E2) as C.
  cases E as [early payload] c3 E3; [|apply fetch_pages_within in E3; split; [lia|by subst r]].
  pose proof (fetch_pages_within _ _ _ _ _ _ E3) as L3. apply fetch_pages_count in E3.
  destruct early; [injection E as <- <-; split; lia|].
  cases E as threads c4 E4; [|apply within_lift in E4; split; [lia|by subst r]].
  apply st_lift_ok in E4 as [E4 ->].
  assert (C4 : thread_count payload = length threads) by (unfold thread_count; by rewrite E4).
  cases E as threads' c5 E5; pose proof (fetch_threads_within _ _ _ _ _ E5) as L5.
  2: { split; [nia|by subst r]. }
  apply fetch_threads_length in E5. destruct (bool_decide _).
  { injection E as <- <-. split; [nia|]. lia. }
  pose proof (within_lift _ _ _ _ E). split; [nia|]. injection E as <- _.
  destruct (with_threads payload threads') eqn:Ew; [|done].
  apply threads_of_with_threads in Ew. unfold thread_count. rewrite Ew. lia.
Qed.
End FetchProps.

(** ** Concrete runs *)
Module PollRun.
Definition seconds (z : positive) : spec_float := SFdiv 53 1024 (S754_finite false (z * 1048576) 0) (S754_finite false 1048576 0).
Definition policy : PollPolicy :=
  mkPolicy (seconds 90) 3 (seconds 1800) (seconds 2) (seconds 300).
(** Done on the third attempt; the server asks for a longer sleep than is left. *)
Definition attempt (i : nat) : res (PollResponse nat) :=
  Ok (mkResponse i (if Nat.eqb i 1 then Some (seconds 4000) else None)).
Definition clock (i : nat) : spec_float := seconds (Pos.of_succ_nat (100 * i)).

Definition polled : res nat * poll_trace := Eval vm_compute in poll_until attempt (Nat.eqb 2) policy clock.

Lemma poll_until_bounded_run :
  fst polled = Ok 2 /\ pt_attempts (snd polled) = 3 /\ length (pt_sleeps (snd polled)) = 2 /\
  (Z.of_nat (pt_attempts (snd polled)) <= Z.max 0 (max_attempts policy))%Z.
Proof.
  split_and!; [reflexivity..|].
  refine (proj1 (poll_until_bounded attempt (Nat.eqb 2) policy clock (fst polled) (snd polled) _)).
  vm_compute. reflexivity.
Defined.

Definition conn (next : bool) (nodes : list pyval) : pyval :=
  PDict [("pageInfo", PDict [("hasNextPage", PBool next); ("endCursor", PStr "c1")]); ("nodes", PList nodes)].
Definition codex : pyval := PDict [("login", PStr "chatgpt-codex-connector[bot]")].
Definition review : pyval :=
  PDict [("author", codex); ("state", PStr "COMMENTED"); ("body", PStr "");
         ("commit", PDict [("oid", PStr "abc")])].
Definition thread (next : bool) : pyval := PDict [("id", PStr "t1"); ("comments", conn next [])].
Definition answer (pr : pydict) : pyval :=
  PDict [("data", PDict [("repository", PDict [("pullRequest", PDict pr)])])].

(** The reviews come in two pages, and so do the comments of the one thread. *)
Definition client (query : string) (variables : pydict) (i : nat) : res pyval :=
  if String.eqb query CODEX_THREAD_COMMENTS_QUERY
  then Ok (PDict [("data", PDict [("node", PDict [("comments", conn false [])])])])
  else if dict_mem variables "reviewsCursor" then Ok (answer [("reviews", conn false [review])])
  else Ok (answer [("reviews", conn true []); ("reviewThreads", conn false [thread true]);
                   ("comments", conn false []); ("reactions", conn false [])]).

Definition fetched : res pyval * calls :=
  Eval vm_compute in _fetch_complete_codex_payload client [("pr", PInt 7)] 5 [].

Lemma client_paged : pages_of_at_most client 1.
Proof.
  intros q v i x d. unfold client.
  destruct (String.eqb _ _); [|destruct (dict_mem _ _)]; intros [= <-] [= <-]; vm_compute; lia.
Qed.

Lemma fetch_is_bounded_run :
  length (snd fetched) = 3 /\ length (snd fetched) <= 0 + 1 + 5 * (1 + (1 + 5 * 1)).
Proof.
  split; [reflexivity|].
  refine (proj1 (fetch_is_bounded client 1 client_paged [("pr", PInt 7)] 5 [] (fst fetched) (snd fetched) _)).
  vm_compute. reflexivity.
Defined.

Definition payload : pyval := Eval vm_compute in match fst fetched with Ok p => p | Raise _ => PNone end.
Definition passed : CodexVerdict := mkVerdict "pass" "Codex verdict passed".

Lemma pass_is_sound_run :
  parse_codex_verdict payload (Some "abc") None = Ok passed /\
  parse_codex_verdict payload (Some "def") None = Ok (mkVerdict "unresolved" "No Codex verdict found") /\
  exists e, complete_evidence payload (Some "abc") e.
Proof.
  split_and!; [vm_compute; reflexivity..|].
  destruct (pass_is_sound payload (Some "abc") None passed) as (e & _ & H & _); [vm_compute; reflexivity..|].
  exists e. exact H.
Defined.
End PollRun.
