(* ===== verification/ActiveContext.v ===== *)
(** * Active context and binding authority

    src/app/vault/active_context_v1.py: the immutable context snapshot of a
    request, its parts and their validation.  src/app/governance/binding_authority.py:
    the verdict on one binding.

    A frozen dataclass is a record and its [__post_init__] a function [X_make];
    a [Literal] field is the string the code compares.  [sha256] is the hex
    digest of a text.  Assignments to the sealed attribute of the authorizer
    are not modelled: nothing in the sources makes them. *)
From Stdlib Require Import SpecFloat.
From S2P Require Import Prelude PyValue.
Open Scope Z_scope.

Definition ActiveContextError : exn := OtherException "ActiveContextError".
Definition DegradedContextError : exn := OtherException "DegradedContextError".

Definition ACTIVE_CONTEXT_SET_V1 : string := "active_context_set.v1".
Definition CANONICAL_DEFAULT_SCOPE : string := "default".
Definition WORKSPACE_STATE_BOUND : string := "workspace".
Definition WORKSPACE_STATE_NONE : string := "no_workspace".
Definition DEGRADED_REASONS : list string :=
  ["binding_unavailable"; "binding_invalid"; "binding_unauthorized"; "binding_stale"].

(** [not s] and [s or ""] on [str | None]. *)
Definition blank (o : option string) : bool :=
  match o with Some s => String.eqb s "" | None => true end.

(** ** Workspace, principal, dimension, binding *)

Record WorkspaceState : Type := mkWorkspace {
  ws_state : string;
  ws_workspace_id : option string }.
#[export] Instance WorkspaceState_eq_dec : EqDecision WorkspaceState.
Proof. solve_decision. Defined.

Definition WorkspaceState_make (w : WorkspaceState) : res WorkspaceState :=
  if String.eqb (ws_state w) WORKSPACE_STATE_BOUND then
    if blank (ws_workspace_id w) then Raise ActiveContextError else Ok w
  else if String.eqb (ws_state w) WORKSPACE_STATE_NONE then
    if bool_decide (ws_workspace_id w <> None) then Raise ActiveContextError else Ok w
  else Raise ActiveContextError.
Definition WorkspaceState_none : WorkspaceState := mkWorkspace WORKSPACE_STATE_NONE None.
Definition WorkspaceState_bound (workspace_id : string) : res WorkspaceState :=
  WorkspaceState_make (mkWorkspace WORKSPACE_STATE_BOUND (Some workspace_id)).
Definition is_bound (w : WorkspaceState) : bool := String.eqb (ws_state w) WORKSPACE_STATE_BOUND.
Definition workspace_component (w : WorkspaceState) : string :=
  ws_state w +:+ ":" +:+ default "" (ws_workspace_id w).

Record PrincipalContext : Type := mkPrincipal {
  pc_principal_id : string;
  pc_principal_kind : string;
  pc_subject : string;
  pc_revision : Z }.
#[export] Instance PrincipalContext_eq_dec : EqDecision PrincipalContext.
Proof. solve_decision. Defined.

Definition PrincipalContext_make (p : PrincipalContext) : res PrincipalContext :=
  if String.eqb (pc_principal_id p) "" then Raise ActiveContextError
  else if pc_revision p <? 0 then Raise ActiveContextError
  else Ok p.
Definition principal_component (p : PrincipalContext) : string :=
  pc_principal_kind p +:+ ":" +:+ pc_principal_id p +:+ "@" +:+ pretty (pc_revision p).

Record DimensionFilter : Type := mkDimensionFilter {
  df_dimension_id : string;
  df_dimension_revision : Z }.
#[export] Instance DimensionFilter_eq_dec : EqDecision DimensionFilter.
Proof. solve_decision. Defined.

Definition DimensionFilter_make (d : DimensionFilter) : res DimensionFilter :=
  if String.eqb (df_dimension_id d) "" then Raise ActiveContextError
  else if df_dimension_revision d <? 1 then Raise ActiveContextError
  else Ok d.
Definition dimension_component (d : DimensionFilter) : string :=
  df_dimension_id d +:+ "@" +:+ pretty (df_dimension_revision d).

Record ActiveContextBinding : Type := mkBinding {
  cb_vault_binding_id : string;
  cb_binding_revision : Z;
  cb_authorization_epoch : string;
  cb_vault_id : option string;
  cb_local_instance_id : option string;
  cb_label : option string }.
#[export] Instance ActiveContextBinding_eq_dec : EqDecision ActiveContextBinding.
Proof. solve_decision. Defined.

Definition binding_component (b : ActiveContextBinding) : string :=
  cb_vault_binding_id b +:+ "@" +:+ pretty (cb_binding_revision b) +:+ "#" +:+ cb_authorization_epoch b.

(** ** The snapshot *)

Record ActiveContextSetV1 : Type := mkContext {
  ac_context_id : string;
  ac_generation : Z;
  ac_workspace : WorkspaceState;
  ac_scope : string;
  ac_sphere_memberships : list string;
  ac_situated_identity : option string;
  ac_principal_context : PrincipalContext;
  ac_instance_identity : string;
  ac_source_bindings : list ActiveContextBinding;
  ac_registry_revision : Z;
  ac_authorization_epoch : string;
  ac_selection_provenance : string;
  ac_posture : string;
  ac_degraded_reason : option string;
  ac_selection_capability_digest : option string;
  ac_topology_posture : string;
  ac_expires_at : option spec_float;
  ac_version : string;
  ac_dimension_filter : option DimensionFilter }.

(** The type check on [dimension_filter] holds of every value of the record. *)
Definition ActiveContextSetV1_make (c : ActiveContextSetV1) : res ActiveContextSetV1 :=
  if String.eqb (ac_context_id c) "" then Raise ActiveContextError
  else if ac_generation c <? 1 then Raise ActiveContextError
  else if String.eqb (ac_scope c) "" then Raise ActiveContextError
  else if String.eqb (ac_posture c) "degraded" then
    match ac_degraded_reason c with
    | Some r => if existsb (String.eqb r) DEGRADED_REASONS then Ok c else Raise ActiveContextError
    | None => Raise ActiveContextError
    end
  else if bool_decide (ac_degraded_reason c <> None) then Raise ActiveContextError
  else Ok c.

Definition is_no_vault (c : ActiveContextSetV1) : bool :=
  String.eqb (ac_posture c) "healthy" && bool_decide (ac_source_bindings c = []).
Definition context_binding_ids (c : ActiveContextSetV1) : list string :=
  map cb_vault_binding_id (ac_source_bindings c).
Definition require_effect_capable (c : ActiveContextSetV1) : res unit :=
  if String.eqb (ac_posture c) "degraded" then Raise DegradedContextError else Ok tt.

Definition context_identity_components (c : ActiveContextSetV1) : list string :=
  ["version=" +:+ ac_version c;
   "context_id=" +:+ ac_context_id c;
   "generation=" +:+ pretty (ac_generation c);
   "registry_revision=" +:+ pretty (ac_registry_revision c);
   "authorization_epoch=" +:+ ac_authorization_epoch c;
   "workspace=" +:+ workspace_component (ac_workspace c);
   "principal=" +:+ principal_component (ac_principal_context c);
   "scope=" +:+ ac_scope c;
   "spheres=" +:+ join "," (ac_sphere_memberships c);
   "situated_identity=" +:+ default "" (ac_situated_identity c);
   "selection_capability_digest=" +:+ default "" (ac_selection_capability_digest c);
   "dimension_filter=" +:+ from_option dimension_component "" (ac_dimension_filter c);
   "bindings=" +:+ join "|" (map binding_component (ac_source_bindings c));
   "posture=" +:+ ac_posture c].

(** [replace(c, generation=g)]. *)
Definition with_generation (g : Z) (c : ActiveContextSetV1) : ActiveContextSetV1 :=
  mkContext (ac_context_id c) g (ac_workspace c) (ac_scope c) (ac_sphere_memberships c)
    (ac_situated_identity c) (ac_principal_context c) (ac_instance_identity c)
    (ac_source_bindings c) (ac_registry_revision c) (ac_authorization_epoch c)
    (ac_selection_provenance c) (ac_posture c) (ac_degraded_reason c)
    (ac_selection_capability_digest c) (ac_topology_posture c) (ac_expires_at c) (ac_version c)
    (ac_dimension_filter c).

(** ** Verdicts *)

Definition DENY_BINDING_UNKNOWN : string := "binding_unknown".
Definition DENY_PRINCIPAL_UNRESOLVED : string := "principal_unresolved".
Definition RevocationCapabilityError : exn := OtherException "RevocationCapabilityError".

Record BindingAuthorizationRequest : Type := mkBindingRequest {
  br_principal : PrincipalContext;
  br_vault_binding_id : string;
  br_action : string;
  br_write_class : string;
  br_required_permission : string }.

Record BindingVerdict : Type := mkVerdict {
  bv_vault_binding_id : string;
  bv_status : string;
  bv_reason : string;
  bv_epoch : string }.
Definition allowed (v : BindingVerdict) : bool := String.eqb (bv_status v) "allow".

Section Digests.
Context (sha256 : string -> string).

Definition selection_capability_digest (raw_selection_id : string) : string :=
  sha256 ("active-context-selection:" +:+ raw_selection_id).

Definition authorization_epoch (principal : PrincipalContext) (vault_binding_id : string)
    (binding_revision : Z) (status policy_revision : string) : string :=
  str_take 32 (sha256 (join "|"
    ["gov.binding-authority.v1"; policy_revision; pc_principal_kind principal;
     pc_principal_id principal; vault_binding_id; pretty binding_revision; status])).

Definition snapshot_authorization_epoch (verdicts : list BindingVerdict) : string :=
  str_take 32 (sha256 ("gov.snapshot-epoch.v1|"
    +:+ join "|" (map (fun v => bv_vault_binding_id v +:+ ":" +:+ bv_epoch v) verdicts))).

(** ** The shipped authorizer *)

Record KnownBinding : Type := mkKnown {
  kb_vault_binding_id : string;
  kb_binding_revision : Z;
  kb_available : bool }.
Record RegistryBindingAuthorizer : Type := mkAuthorizer { au_known : list (string * KnownBinding) }.
Definition policy_revision : string := "single-user-registry.v1".

(** [known] is a dict, so its keys are distinct. *)
Definition RegistryBindingAuthorizer_init (known : list (string * Z)) (unavailable revoked : list string)
  : res RegistryBindingAuthorizer :=
  if bool_decide (revoked <> []) then Raise RevocationCapabilityError else
  Ok (mkAuthorizer (map (fun br => (fst br, mkKnown (fst br) (snd br)
        (negb (existsb (String.eqb (fst br)) unavailable)))) known)).

Definition set_binding (vault_binding_id : string) (binding_revision : Z) (available revoked : bool)
    (a : RegistryBindingAuthorizer) : res RegistryBindingAuthorizer :=
  if revoked then Raise RevocationCapabilityError else
  Ok (mkAuthorizer (dict_set (au_known a) vault_binding_id
        (mkKnown vault_binding_id binding_revision available))).

Definition binding_revision (a : RegistryBindingAuthorizer) (vault_binding_id : string) : Z :=
  from_option kb_binding_revision 0 (dict_get (au_known a) vault_binding_id).

Definition registry_verdict (a : RegistryBindingAuthorizer) (request : BindingAuthorizationRequest)
    (status reason : string) : BindingVerdict :=
  mkVerdict (br_vault_binding_id request) status reason
    (authorization_epoch (br_principal request) (br_vault_binding_id request)
       (binding_revision a (br_vault_binding_id request)) status policy_revision).

Definition registry_authorize (a : RegistryBindingAuthorizer) (request : BindingAuthorizationRequest)
  : BindingVerdict :=
  if String.eqb (pc_principal_id (br_principal request)) ""
  then registry_verdict a request "deny" DENY_PRINCIPAL_UNRESOLVED
  else match dict_get (au_known a) (br_vault_binding_id request) with
       | None => registry_verdict a request "deny" DENY_BINDING_UNKNOWN
       | Some _ => registry_verdict a request "allow" "registered_binding_for_resolved_principal"
       end.
End Digests.
