(* ===== verification/ContextSelection.v ===== *)
(** * Context selection

    src/app/instance/context_selection.py: the store of session selections and
    the resolver that turns a selection into a snapshot;
    src/app/instance/active_context_service.py: the reading of the registry and
    the entry points that join them.

    The store keeps each record with the identity of its object, since
    [read_effect_window] compares objects.  Times are binary64 numbers and each
    reading of the clock is an argument, as are random identifiers.  The
    callables of a resolver are actions on a world [W] and may answer anything,
    change it or raise.  The locks are the atomicity of a call. *)
From Stdlib Require Import SpecFloat.
From S2P Require Import Prelude PyValue Sql VaultRegistry ActiveContext.
Open Scope Z_scope.

Definition ReselectionRequiredError : exn := OtherException "ReselectionRequiredError".
Definition SelectionPrincipalMismatchError : exn := OtherException "SelectionPrincipalMismatchError".

Definition SELECTION_PROVENANCE_SESSION : string := "session_selection".
Definition SELECTION_PROVENANCE_INSTANCE_DEFAULT : string := "instance_default".
Definition SELECTION_PROVENANCE_NO_VAULT : string := "no_vault".

Record ContextSelectionRecord : Type := mkSelection {
  sr_context_id : string;
  sr_generation : Z;
  sr_selection_capability_digest : string;
  sr_principal : PrincipalContext;
  sr_instance_identity : string;
  sr_workspace : WorkspaceState;
  sr_scope : string;
  sr_sphere_memberships : list string;
  sr_situated_identity : option string;
  sr_binding_ids : list string;
  sr_created_at : spec_float;
  sr_expires_at : spec_float;
  sr_dimension_filter : option DimensionFilter }.

Record CacheInvalidationDescriptor : Type := mkInvalidation {
  ci_context_id : string;
  ci_previous_generation : Z;
  ci_generation : Z;
  ci_reason : string;
  ci_invalidated_identity : string }.
Record ResolutionResult : Type := mkResolution {
  rr_snapshot : ActiveContextSetV1;
  rr_invalidation : option CacheInvalidationDescriptor }.

Record BindingFact : Type := mkFact {
  bf_vault_binding_id : string;
  bf_binding_revision : Z;
  bf_vault_id : option string;
  bf_local_instance_id : option string;
  bf_label : option string;
  bf_available : bool }.

(** The state of a resolver; its callables are arguments of [resolve]. *)
Record ActiveContextSelectionResolver : Type := mkResolver {
  rv_instance_identity : string;
  rv_last_identity : list ((string * Z) * string);
  rv_rotations : list (string * Z) }.
Definition new_resolver (instance_identity : string) : ActiveContextSelectionResolver :=
  mkResolver instance_identity [] [].

(** ** The store *)

Record ContextSelectionStore : Type := mkStore {
  cs_ttl : spec_float;
  cs_records : list (string * (nat * ContextSelectionRecord));
  cs_next_object : nat;
  cs_request_resolvers : list (string * ActiveContextSelectionResolver) }.
Definition new_store (ttl_seconds : spec_float) : ContextSelectionStore := mkStore ttl_seconds [] 0 [].

Definition with_records (l : list (string * (nat * ContextSelectionRecord))) (s : ContextSelectionStore)
  : ContextSelectionStore := mkStore (cs_ttl s) l (cs_next_object s) (cs_request_resolvers s).
(** [self._records[raw_id] = record] for a new object. *)
Definition put_record (raw_id : string) (r : ContextSelectionRecord) : ST ContextSelectionStore unit :=
  st_modify (fun s => mkStore (cs_ttl s) (od_set (cs_records s) raw_id (cs_next_object s, r))
                        (S (cs_next_object s)) (cs_request_resolvers s)).

Definition _prune (now : spec_float) : ST ContextSelectionStore unit :=
  st_modify (fun s =>
    with_records (List.filter (fun kr => negb (SFleb (sr_expires_at (snd (snd kr))) now)) (cs_records s)) s).

(** What a caller of [create] selects. *)
Record selection_inputs : Type := mkInputs {
  si_principal : PrincipalContext;
  si_instance_identity : string;
  si_workspace : WorkspaceState;
  si_scope : string;
  si_sphere_memberships : list string;
  si_situated_identity : option string;
  si_binding_ids : list string;
  si_dimension_filter : option DimensionFilter }.

Section Selection.
Context (sha256 : string -> string).

(** [now] and [pruned_at] are the two readings of the clock. *)
Definition create (raw_id uuid : string) (now pruned_at : spec_float) (i : selection_inputs)
  : ST ContextSelectionStore (string * ContextSelectionRecord) :=
  s ← st_get;
  let record := mkSelection ("ctx_" +:+ uuid) 1 (selection_capability_digest sha256 raw_id)
    (si_principal i) (si_instance_identity i) (si_workspace i) (si_scope i)
    (si_sphere_memberships i) (si_situated_identity i) (si_binding_ids i) now
    (SFadd 53 1024 now (cs_ttl s)) (si_dimension_filter i) in
  _ ← _prune pruned_at;
  _ ← put_record raw_id record;
  mret (raw_id, record).

Definition _require (raw_id : string) (principal : PrincipalContext) (instance_identity : string)
    (now : spec_float) : ST ContextSelectionStore (nat * ContextSelectionRecord) :=
  _ ← _prune now;
  s ← st_get;
  match od_get (cs_records s) raw_id with
  | None => st_raise ReselectionRequiredError
  | Some (o, record) =>
      _ ← guard_not (bool_decide (pc_principal_id (sr_principal record) <> pc_principal_id principal)
                     || bool_decide (pc_revision (sr_principal record) <> pc_revision principal)
                     || bool_decide (sr_instance_identity record <> instance_identity))
            SelectionPrincipalMismatchError;
      mret (o, record)
  end.

Definition inspect_selection (raw_id : string) (principal : PrincipalContext) (instance_identity : string)
    (now : spec_float) : ST ContextSelectionStore ContextSelectionRecord :=
  orec ← _require raw_id principal instance_identity now; mret (snd orec).

(** Entering the window; [expected] is the object the caller captured. *)
Definition enter_effect_window (raw_id : string) (principal : PrincipalContext)
    (instance_identity : string) (expected : nat) (now : spec_float) : ST ContextSelectionStore unit :=
  orec ← _require raw_id principal instance_identity now;
  guard_not (bool_decide (fst orec <> expected)) ReselectionRequiredError.
(** The callable handed to the window's body. *)
Definition require_current (raw_id : string) (expected : nat) (active owning_thread : bool)
  : ST ContextSelectionStore unit :=
  s ← st_get;
  guard_not (negb active || negb owning_thread
             || bool_decide (fst <$> od_get (cs_records s) raw_id <> Some expected))
    ReselectionRequiredError.

Definition replace_bindings (raw_id : string) (principal : PrincipalContext) (instance_identity : string)
    (binding_ids : list string) (dimension_filter : option DimensionFilter) (now : spec_float)
  : ST ContextSelectionStore ContextSelectionRecord :=
  orec ← _require raw_id principal instance_identity now;
  let current := snd orec in
  let updated := mkSelection (sr_context_id current) (sr_generation current + 1)
    (sr_selection_capability_digest current) (sr_principal current) (sr_instance_identity current)
    (sr_workspace current) (sr_scope current) (sr_sphere_memberships current)
    (sr_situated_identity current) binding_ids (sr_created_at current) (sr_expires_at current)
    dimension_filter in
  _ ← put_record raw_id updated;
  mret updated.

Definition clear (raw_id : string) (principal : PrincipalContext) (instance_identity : string)
    (now : spec_float) : ST ContextSelectionStore unit :=
  _ ← _require raw_id principal instance_identity now;
  st_modify (fun s => with_records (od_pop (cs_records s) raw_id) s).

Definition invalidate_digest (digest : string) : ST ContextSelectionStore unit :=
  st_modify (fun s => with_records
    (List.filter (fun kr => negb (String.eqb (sr_selection_capability_digest (snd (snd kr))) digest))
       (cs_records s)) s).

(** The resolver of an instance, made on first use. *)
Definition request_resolver (instance_identity : string)
  : ST ContextSelectionStore ActiveContextSelectionResolver :=
  s ← st_get;
  match od_get (cs_request_resolvers s) instance_identity with
  | Some resolver => mret resolver
  | None =>
      let resolver := new_resolver instance_identity in
      _ ← st_modify (fun s => mkStore (cs_ttl s) (cs_records s) (cs_next_object s)
            (od_set (cs_request_resolvers s) instance_identity resolver));
      mret resolver
  end.

Definition store_len (now : spec_float) : ST ContextSelectionStore nat :=
  _ ← _prune now; s ← st_get; mret (length (cs_records s)).

(** ** The resolver *)

Section Resolver.
Context {W : Type} (binding_facts : ST W (list (string * BindingFact))) (registry_revision : ST W Z)
  (authorize : BindingAuthorizationRequest -> ST W BindingVerdict) (invalidate : string -> ST W unit).

Abbreviation state := (ActiveContextSelectionResolver * W)%type.
Definition on_world {A} (m : ST W A) : ST state A := fun s =>
  let '(r, w) := m (snd s) in (r, (fst s, w)).
Definition set_last (l : list ((string * Z) * string)) : ST state unit :=
  st_modify (fun s => (mkResolver (rv_instance_identity (fst s)) l (rv_rotations (fst s)), snd s)).
Definition set_rotations (l : list (string * Z)) : ST state unit :=
  st_modify (fun s => (mkResolver (rv_instance_identity (fst s)) (rv_last_identity (fst s)) l, snd s)).

(** What a request asks for. *)
Record resolve_inputs : Type := mkResolve {
  rq_selection : option ContextSelectionRecord;
  rq_principal : PrincipalContext;
  rq_action : string;
  rq_write_class : string;
  rq_required_permission : string;
  rq_default_binding_id : option string }.

(** The fields of the snapshot the selection, or its absence, decides. *)
Record selected : Type := mkSelected {
  sd_binding_ids : list string;
  sd_context_id : string;
  sd_generation : Z;
  sd_workspace : WorkspaceState;
  sd_scope : string;
  sd_spheres : list string;
  sd_situated : option string;
  sd_digest : option string;
  sd_provenance : string;
  sd_expires_at : option spec_float;
  sd_dimension_filter : option DimensionFilter }.

Definition rotations_of (r : ActiveContextSelectionResolver) (context_id : string) : Z :=
  default 0 (dict_get (rv_rotations r) context_id).

Definition select (r : ActiveContextSelectionResolver) (rq : resolve_inputs) : res selected :=
  match rq_selection rq with
  | Some s =>
      if bool_decide (sr_dimension_filter s <> None) && bool_decide (sr_binding_ids s = [])
      then Raise ReselectionRequiredError else
      Ok (mkSelected (sr_binding_ids s) (sr_context_id s)
            (sr_generation s + rotations_of r (sr_context_id s)) (sr_workspace s) (sr_scope s)
            (sr_sphere_memberships s) (sr_situated_identity s)
            (Some (sr_selection_capability_digest s)) SELECTION_PROVENANCE_SESSION
            (Some (sr_expires_at s)) (sr_dimension_filter s))
  | None =>
      let d := if blank (rq_default_binding_id rq) then None else rq_default_binding_id rq in
      let context_id := "ctx_default_" +:+ rv_instance_identity r in
      Ok (mkSelected (match d with Some b => [b] | None => [] end) context_id
            (1 + rotations_of r context_id) WorkspaceState_none "default" [] None None
            (match d with Some _ => SELECTION_PROVENANCE_INSTANCE_DEFAULT
                        | None => SELECTION_PROVENANCE_NO_VAULT end) None None)
  end.

Definition request_for (rq : resolve_inputs) (binding_id : string) : BindingAuthorizationRequest :=
  mkBindingRequest (rq_principal rq) binding_id (rq_action rq) (rq_write_class rq)
    (rq_required_permission rq).

(** A denied member: drop the selection, attach the descriptor, forget the identity. *)
Definition deny {A} (sd : selected) (v : BindingVerdict) : ST state A :=
  _ ← match sd_digest sd with Some d => on_world (invalidate d) | None => mret tt end;
  s ← st_get;
  let k := (sd_context_id sd, sd_generation sd) in
  _ ← set_last (od_pop (rv_last_identity (fst s)) k);
  st_raise (BindingAuthorizationError
    (bv_vault_binding_id v, bv_status v, bv_reason v, bv_epoch v)
    (sd_context_id sd, sd_generation sd, sd_generation sd, "binding_denied:" +:+ bv_reason v,
     default "" (od_get (rv_last_identity (fst s)) k))).

Record members : Type := mkMembers {
  mb_bindings : list ActiveContextBinding;
  mb_verdicts : list BindingVerdict;
  mb_degraded : option string }.

(** The loop over the binding ids. *)
Fixpoint resolve_members (rq : resolve_inputs) (sd : selected) (facts : list (string * BindingFact))
    (ids : list string) (m : members) : ST state members :=
  match ids with
  | [] => mret m
  | binding_id :: ids =>
      v ← on_world (authorize (request_for rq binding_id));
      let verdicts := mb_verdicts m ++ [v] in
      if negb (allowed v) then deny sd v else
      match dict_get facts binding_id with
      | None => resolve_members rq sd facts ids
                  (mkMembers (mb_bindings m) verdicts (Some "binding_unavailable"))
      | Some fact =>
          resolve_members rq sd facts ids
            (mkMembers
               (mb_bindings m ++ [mkBinding (bf_vault_binding_id fact) (bf_binding_revision fact)
                  (bv_epoch v) (bf_vault_id fact) (bf_local_instance_id fact) (bf_label fact)])
               verdicts
               (if bf_available fact then mb_degraded m else Some "binding_unavailable"))
      end
  end.

Definition snapshot_of (r : ActiveContextSelectionResolver) (rq : resolve_inputs) (sd : selected)
    (revision : Z) (m : members) : ActiveContextSetV1 :=
  mkContext (sd_context_id sd) (sd_generation sd) (sd_workspace sd) (sd_scope sd) (sd_spheres sd)
    (sd_situated sd) (rq_principal rq) (rv_instance_identity r) (mb_bindings m) revision
    (snapshot_authorization_epoch sha256 (mb_verdicts m)) (sd_provenance sd)
    (match mb_degraded m with Some _ => "degraded" | None => "healthy" end) (mb_degraded m)
    (sd_digest sd) "single-node" (sd_expires_at sd) ACTIVE_CONTEXT_SET_V1 (sd_dimension_filter sd).

(** The identity underneath a generation. *)
Definition identity_of (c : ActiveContextSetV1) : string :=
  join "|" (List.filter (fun x => negb (startswith "generation=" x)) (context_identity_components c)).

(** Drift detection on a finished snapshot. *)
Definition publish (snapshot : ActiveContextSetV1) : ST state ResolutionResult :=
  s ← st_get;
  let context_id := ac_context_id snapshot in
  let generation := ac_generation snapshot in
  let identity := identity_of snapshot in
  match od_get (rv_last_identity (fst s)) (context_id, generation) with
  | Some previous =>
      if String.eqb previous identity then
        _ ← set_last (od_set (rv_last_identity (fst s)) (context_id, generation) identity);
        mret (mkResolution snapshot None)
      else
        _ ← set_rotations (dict_set (rv_rotations (fst s)) context_id (rotations_of (fst s) context_id + 1));
        let rotated := generation + 1 in
        snapshot ← st_lift (ActiveContextSetV1_make (with_generation rotated snapshot));
        _ ← set_last (od_set (od_pop (rv_last_identity (fst s)) (context_id, generation))
                        (context_id, rotated) identity);
        mret (mkResolution snapshot (Some (mkInvalidation context_id generation rotated
                "binding_or_authority_revision_changed" previous)))
  | None =>
      _ ← set_last (od_set (rv_last_identity (fst s)) (context_id, generation) identity);
      mret (mkResolution snapshot None)
  end.

Definition resolve (rq : resolve_inputs) : ST state ResolutionResult :=
  facts ← on_world binding_facts;
  revision ← on_world registry_revision;
  s ← st_get;
  sd ← st_lift (select (fst s) rq);
  m ← resolve_members rq sd facts (sd_binding_ids sd) (mkMembers [] [] None);
  snapshot ← st_lift (ActiveContextSetV1_make (snapshot_of (fst s) rq sd revision m));
  publish snapshot.
End Resolver.
End Selection.

(** ** The service *)

Definition derive_workspace_state (snapshot : RegistrySnapshot) : res WorkspaceState :=
  match get (rg_extensions snapshot) "workspaceBinding" with
  | PDict workspaces =>
      match get workspaces "workspace_id" with
      | PStr workspace_id => if String.eqb workspace_id "" then Ok WorkspaceState_none
                             else WorkspaceState_bound workspace_id
      | _ => Ok WorkspaceState_none
      end
  | _ => Ok WorkspaceState_none
  end.

(** [isinstance(policy, dict)] and the value under [k]. *)
Definition context_policy (snapshot : RegistrySnapshot) (k : string) : option pyval :=
  match get (rg_extensions snapshot) "wspContextPolicy" with
  | PDict policy => Some (get policy k)
  | _ => None
  end.
Definition derive_scope (snapshot : RegistrySnapshot) : string :=
  match context_policy snapshot "scope" with
  | Some (PStr scope) => if String.eqb (strip scope) "" then CANONICAL_DEFAULT_SCOPE else strip scope
  | _ => CANONICAL_DEFAULT_SCOPE
  end.
Definition derive_sphere_memberships (snapshot : RegistrySnapshot) : list string :=
  match context_policy snapshot "sphere_memberships" with
  | Some (PList spheres) => omap (fun v => match v with PStr s => Some s | _ => None end) spheres
  | _ => []
  end.
Definition derive_situated_identity (snapshot : RegistrySnapshot) : option string :=
  match context_policy snapshot "situated_identity" with
  | Some (PStr situated) => if String.eqb (strip situated) "" then None else Some (strip situated)
  | _ => None
  end.

(** A recorded [true] is the integer 1. *)
Definition binding_revision_for (snapshot : RegistrySnapshot) (vault_binding_id : string) : Z :=
  match dict_get (rg_registrations snapshot) vault_binding_id with
  | None => 0
  | Some registration =>
      match get (vg_extensions registration) "bindingRevision" with
      | PInt recorded => if 0 <? recorded then recorded else rg_revision snapshot
      | PBool true => 1
      | _ => rg_revision snapshot
      end
  end.

Definition registry_facts (is_dir : string -> bool) (snapshot : RegistrySnapshot)
  : list (string * BindingFact) :=
  map (fun kr => (fst kr, mkFact (fst kr) (binding_revision_for snapshot (fst kr))
         (vg_vault_id (snd kr)) (vg_local_instance_id (snd kr)) (vg_vault_name (snd kr))
         (is_dir (vg_path (snd kr))))) (rg_registrations snapshot).

Fixpoint set_bindings (facts : list (string * BindingFact)) (a : RegistryBindingAuthorizer)
  : res RegistryBindingAuthorizer :=
  match facts with
  | [] => Ok a
  | (binding_id, fact) :: facts =>
      a ← set_binding binding_id (bf_binding_revision fact) (bf_available fact) false a;
      set_bindings facts a
  end.
Definition build_authorizer (is_dir : string -> bool) (snapshot : RegistrySnapshot)
  : res RegistryBindingAuthorizer :=
  a ← RegistryBindingAuthorizer_init [] [] [];
  set_bindings (registry_facts is_dir snapshot) a.

Record DerivedContext : Type := mkDerived {
  dc_principal : PrincipalContext;
  dc_instance_identity : string;
  dc_workspace : WorkspaceState;
  dc_scope : string;
  dc_sphere_memberships : list string;
  dc_situated_identity : option string }.

(** The store and the number of times the registry has been read. *)
Record service_world : Type := mkService { sv_store : ContextSelectionStore; sv_loads : nat }.

Section Service.
(** The registry and the file system may change between any two readings. *)
Context (sha256 : string -> string) (load : nat -> res RegistrySnapshot) (is_dir : nat -> string -> bool).

Definition on_store {A} (m : ST ContextSelectionStore A) : ST service_world A := fun w =>
  let '(r, s) := m (sv_store w) in (r, mkService s (sv_loads w)).
Definition load_registry : ST service_world (nat * RegistrySnapshot) := fun w =>
  match load (sv_loads w) with
  | Ok snapshot => (Ok (sv_loads w, snapshot), mkService (sv_store w) (S (sv_loads w)))
  | Raise e => (Raise e, mkService (sv_store w) (S (sv_loads w)))
  end.

Definition live_facts : ST service_world (list (string * BindingFact)) :=
  '(i, snapshot) ← load_registry; mret (registry_facts (is_dir i) snapshot).
Definition live_revision : ST service_world Z :=
  '(_, snapshot) ← load_registry; mret (rg_revision snapshot).
(** [_LiveRegistryAuthorizer.authorize]. *)
Definition live_authorize (request : BindingAuthorizationRequest) : ST service_world BindingVerdict :=
  '(i, snapshot) ← load_registry;
  a ← st_lift (build_authorizer (is_dir i) snapshot);
  mret (registry_authorize sha256 a request).

Definition validate_bindings (binding_ids : list string) : ST service_world unit :=
  '(_, snapshot) ← load_registry;
  guard_not (existsb (fun b => negb (dict_mem (rg_registrations snapshot) b)) binding_ids)
    (OtherException "ActiveContextServiceError").

Definition service_inspect (derived : DerivedContext) (raw_id : string) (now : spec_float)
  : ST service_world ContextSelectionRecord :=
  on_store (inspect_selection raw_id (dc_principal derived) (dc_instance_identity derived) now).
Definition service_clear (derived : DerivedContext) (raw_id : string) (now : spec_float)
  : ST service_world unit :=
  on_store (clear raw_id (dc_principal derived) (dc_instance_identity derived) now).

(** [resolver.resolve(...)] on the resolver object the store holds. *)
Definition resolve_with (resolver : ActiveContextSelectionResolver) (rq : resolve_inputs)
  : ST service_world ResolutionResult := fun w =>
  let '(r, (resolver, w)) := resolve sha256 live_facts live_revision live_authorize
                               (fun d => on_store (invalidate_digest d)) rq (resolver, w) in
  let s := sv_store w in
  (r, mkService (mkStore (cs_ttl s) (cs_records s) (cs_next_object s)
                   (od_set (cs_request_resolvers s) (rv_instance_identity resolver) resolver)) (sv_loads w)).

Definition resolve_request_context (derived : DerivedContext)
    (session_bearer override_bearer : option string) (action write_class required_permission : string)
    (now : spec_float) : ST service_world ResolutionResult :=
  let bearer := match override_bearer with Some b => Some b | None => session_bearer end in
  selection ← match bearer with
              | Some b => r ← service_inspect derived b now; mret (Some r)
              | None => mret None
              end;
  '(_, snapshot) ← load_registry;
  resolver ← on_store (request_resolver (rg_app_install_id snapshot));
  resolve_with resolver (mkResolve selection (dc_principal derived) action write_class
    required_permission (rg_default_vault_binding_id snapshot)).

Definition sixty : spec_float := binary_normalize 53 1024 60 0 false.

(** An ephemeral selection of one binding on a resolver of its own. *)
Definition resolve_compatibility_write_context (derived : DerivedContext) (binding_id uuid : string)
    (action write_class required_permission : string) (now : spec_float)
  : ST service_world ResolutionResult :=
  '(_, snapshot) ← load_registry;
  let context_id := "ctx_compatibility_" +:+ uuid in
  let selection := mkSelection context_id 1 (sha256 context_id) (dc_principal derived)
    (dc_instance_identity derived) (dc_workspace derived) (dc_scope derived)
    (dc_sphere_memberships derived) (dc_situated_identity derived) [binding_id] now
    (SFadd 53 1024 now sixty) None in
  result ← (fun w =>
    let '(r, (_, w)) := resolve sha256 live_facts live_revision live_authorize (fun _ => mret tt)
      (mkResolve (Some selection) (dc_principal derived) action write_class required_permission None)
      (new_resolver (rg_app_install_id snapshot), w) in (r, w));
  let c := rr_snapshot result in
  snapshot ← st_lift (ActiveContextSetV1_make
    (mkContext (ac_context_id c) (ac_generation c) (ac_workspace c) (ac_scope c)
      (ac_sphere_memberships c) (ac_situated_identity c) (ac_principal_context c)
      (ac_instance_identity c) (ac_source_bindings c) (ac_registry_revision c)
      (ac_authorization_epoch c) "compatibility_write" (ac_posture c) (ac_degraded_reason c)
      (ac_selection_capability_digest c) (ac_topology_posture c) (ac_expires_at c) (ac_version c)
      (ac_dimension_filter c)));
  mret (mkResolution snapshot (rr_invalidation result)).
End Service.
