(* ===== verification/ContextProps.v ===== *)
(** * Properties of context selection

    The life of a selection in the store, what a resolved snapshot rests on, and
    what its generation tells about it. *)
From Stdlib Require Import SpecFloat Lia.
From S2P Require Import Prelude PyValue Sql VaultRegistry ActiveContext ContextSelection.
Open Scope Z_scope.

Section Lifetime.
Context (sha256 : string -> string).

(** ** The store *)

(** The calls on a store, each with its readings of the clock. *)
Inductive store_op : Type :=
  | SCreate (raw_id uuid : string) (now pruned_at : spec_float) (i : selection_inputs)
  | SInspect (raw_id : string) (p : PrincipalContext) (inst : string) (now : spec_float)
  | SWindow (raw_id : string) (p : PrincipalContext) (inst : string) (expected : nat) (now : spec_float)
  | SReplace (raw_id : string) (p : PrincipalContext) (inst : string) (ids : list string)
      (dim : option DimensionFilter) (now : spec_float)
  | SClear (raw_id : string) (p : PrincipalContext) (inst : string) (now : spec_float)
  | SInvalidate (digest : string)
  | SResolver (inst : string)
  | SLen (now : spec_float).

Definition store_step (op : store_op) (s : ContextSelectionStore) : ContextSelectionStore :=
  match op with
  | SCreate raw uuid now at' i => snd (create sha256 raw uuid now at' i s)
  | SInspect raw p inst now => snd (inspect_selection raw p inst now s)
  | SWindow raw p inst o now => snd (enter_effect_window raw p inst o now s)
  | SReplace raw p inst ids dim now => snd (replace_bindings raw p inst ids dim now s)
  | SClear raw p inst now => snd (clear raw p inst now s)
  | SInvalidate d => snd (invalidate_digest d s)
  | SResolver inst => snd (request_resolver inst s)
  | SLen now => snd (store_len now s)
  end.
Definition store_after (ops : list store_op) (s : ContextSelectionStore) : ContextSelectionStore :=
  fold_left (fun s op => store_step op s) ops s.

Definition creates (raw : string) (op : store_op) : bool :=
  match op with SCreate raw' _ _ _ _ => String.eqb raw' raw | _ => false end.

(** The records have distinct keys and the objects are older than the next one. *)
Definition store_ok (s : ContextSelectionStore) : Prop :=
  NoDup (map fst (cs_records s)) /\
  Forall (fun kr => (fst (snd kr) < cs_next_object s)%nat /\
            sr_selection_capability_digest (snd (snd kr)) = selection_capability_digest sha256 (fst kr))
    (cs_records s).

(** [r'] is the same session as [r], with its bindings possibly replaced. *)
Definition same_session (r r' : ContextSelectionRecord) : Prop :=
  sr_context_id r' = sr_context_id r /\
  sr_selection_capability_digest r' = sr_selection_capability_digest r /\
  sr_principal r' = sr_principal r /\ sr_instance_identity r' = sr_instance_identity r /\
  sr_workspace r' = sr_workspace r /\ sr_scope r' = sr_scope r /\
  sr_sphere_memberships r' = sr_sphere_memberships r /\
  sr_situated_identity r' = sr_situated_identity r /\ sr_created_at r' = sr_created_at r /\
  sr_expires_at r' = sr_expires_at r.

(** What one call may make of the entry of a session. *)
Definition entry_step (n : nat) (e e' : option (nat * ContextSelectionRecord)) : Prop :=
  match e' with
  | None => True
  | Some (o', r') => exists o r, e = Some (o, r) /\ same_session r r' /\
      ((o', r') = (o, r) \/ (n <= o')%nat /\ sr_generation r < sr_generation r')
  end.

Lemma same_session_refl r : same_session r r.
Proof. by split_and!. Qed.
Lemma same_session_trans r1 r2 r3 : same_session r1 r2 -> same_session r2 r3 -> same_session r1 r3.
Proof. unfold same_session. naive_solver congruence. Qed.
Lemma entry_step_refl n e : entry_step n e e.
Proof. destruct e as [[o r]|]; [|done]. exists o, r. eauto using same_session_refl. Qed.
Lemma entry_step_none n e : entry_step n e None.
Proof. done. Qed.

(** Removing records. *)
Lemma od_get_filter {V} (p : string * V -> bool) (d : list (string * V)) k :
  NoDup (map fst d) -> od_get (List.filter p d) k =
  match od_get d k with Some v => if p (k, v) then Some v else None | None => None end.
Proof.
  induction d as [|[j w] d IH]; simpl; [done|]. intros [Hj Hd]%NoDup_cons. specialize (IH Hd).
  destruct (decide (k = j)) as [->|Hne].
  - destruct (p (j, w)); simpl; [by rewrite decide_True|]. rewrite IH.
    destruct (od_get d j) as [v|] eqn:E; [|done]. exfalso. apply Hj.
    apply list_elem_of_fmap. exists (j, v). split; [done|by apply od_get_elem].
  - destruct (p (j, w)); simpl; [by rewrite decide_False|done].
Qed.

Lemma filter_keys {V} (p : string * V -> bool) (d : list (string * V)) :
  NoDup (map fst d) -> NoDup (map fst (List.filter p d)).
Proof.
  induction d as [|[j w] d IH]; simpl; [done|]. intros [Hj Hd]%NoDup_cons.
  destruct (p (j, w)); simpl; [|auto]. constructor; [|auto]. intros H. apply Hj.
  apply list_elem_of_fmap in H as ([j' v] & -> & Hin). apply list_elem_of_fmap. exists (j', v).
  split; [done|]. apply list_elem_of_In. apply list_elem_of_In in Hin. by apply filter_In in Hin as [? _].
Qed.

(** A store from which some records are gone. *)
Definition thinned (p : string * (nat * ContextSelectionRecord) -> bool) (s : ContextSelectionStore) :=
  with_records (List.filter p (cs_records s)) s.

Lemma thinned_ok p s : store_ok s -> store_ok (thinned p s).
Proof.
  intros [Hn Hf]. split; [by apply filter_keys|]. apply Forall_forall. intros x Hx. simpl in Hx.
  apply list_elem_of_In, filter_In in Hx as [Hx _]. apply (proj1 (Forall_forall _ _) Hf). by apply list_elem_of_In.
Qed.
Lemma thinned_entry p s raw n : store_ok s ->
  entry_step n (od_get (cs_records s) raw) (od_get (cs_records (thinned p s)) raw).
Proof.
  intros [Hn _]. simpl. rewrite od_get_filter by done.
  destruct (od_get (cs_records s) raw) as [[o r]|]; [|done].
  destruct (p _); [apply entry_step_refl|done].
Qed.

Definition live_at (now : spec_float) (kr : string * (nat * ContextSelectionRecord)) : bool :=
  negb (SFleb (sr_expires_at (snd (snd kr))) now).

(** [_require] prunes, then finds the record of this principal and instance. *)
Lemma require_inv raw p inst now s r s' :
  _require raw p inst now s = (r, s') -> s' = thinned (live_at now) s /\
  match r with
  | Ok (o, rec) => od_get (cs_records s') raw = Some (o, rec) /\
      pc_principal_id (sr_principal rec) = pc_principal_id p /\
      pc_revision (sr_principal rec) = pc_revision p /\ sr_instance_identity rec = inst
  | Raise e => od_get (cs_records s') raw = None /\ e = ReselectionRequiredError \/
               e = SelectionPrincipalMismatchError
  end.
Proof.
  unfold _require, _prune, st_modify, st_get, mbind, ST_bind. cbn zeta. fold (live_at now) (thinned (live_at now) s).
  destruct (od_get (cs_records (thinned (live_at now) s)) raw) as [[o rec]|] eqn:E.
  - unfold guard_not. destruct (_ || _)%bool eqn:G; intros [= <- <-]; [by auto|].
    bool_prop. rewrite E. repeat match goal with H : ~ (_ <> _) |- _ => apply dec_stable in H end. auto.
  - intros [= <- <-]. auto.
Qed.

Lemma put_ok raw r s : store_ok s ->
  sr_selection_capability_digest r = selection_capability_digest sha256 raw ->
  store_ok (snd (put_record raw r s)).
Proof.
  intros [Hn Hf] Hd. split; simpl.
  - rewrite od_set_keys. case_decide; [done|]. apply NoDup_app. split_and!; [done| |].
    + intros x Hx ->%list_elem_of_singleton. done.
    + apply NoDup_singleton.
  - apply Forall_forall. intros x [->|Hx]%od_set_elem; simpl; [split; [lia|done]|].
    apply (proj1 (Forall_forall _ _) Hf) in Hx as [? ?]. split; [lia|done].
Qed.

(** Every call keeps the store well formed and moves a session only forward. *)
Lemma store_step_ok op s : store_ok s -> store_ok (store_step op s).
Proof.
  intros Hs. destruct op; cbn [store_step].
  - unfold create, st_get, mbind, ST_bind. cbn zeta. by apply put_ok; [apply thinned_ok|].
  - unfold inspect_selection, mbind, ST_bind. destruct (_require _ _ _ _ s) as [[x|e] s1] eqn:E;
      apply require_inv in E as [-> _]; by apply thinned_ok.
  - unfold enter_effect_window, mbind, ST_bind. destruct (_require _ _ _ _ s) as [[x|e] s1] eqn:E;
      apply require_inv in E as [-> _]; [|by apply thinned_ok].
    unfold guard_not. case_match; by apply thinned_ok.
  - unfold replace_bindings, mbind, ST_bind. destruct (_require _ _ _ _ s) as [[[o x]|e] s1] eqn:E;
      apply require_inv in E as [-> H]; [|by apply thinned_ok].
    apply put_ok; [by apply thinned_ok|]. destruct H as [H _]. apply od_get_elem in H.
    destruct (thinned_ok (live_at now) s Hs) as [_ Hf]. by apply (proj1 (Forall_forall _ _) Hf) in H as [_ ?].
  - unfold clear, mbind, ST_bind. destruct (_require _ _ _ _ s) as [[x|e] s1] eqn:E;
      apply require_inv in E as [-> _]; [|by apply thinned_ok].
    apply (thinned_ok (fun kr => negb (bool_decide (raw_id = fst kr)))). by apply thinned_ok.
  - by apply (thinned_ok (fun kr => negb (String.eqb (sr_selection_capability_digest (snd (snd kr))) digest))).
  - unfold request_resolver, st_get, mbind, ST_bind. by case_match.
  - unfold store_len, mbind, ST_bind. by apply (thinned_ok (live_at now)).
Qed.

Lemma store_step_entry op s raw : store_ok s -> creates raw op = false ->
  (cs_next_object s <= cs_next_object (store_step op s))%nat /\
  entry_step (cs_next_object s) (od_get (cs_records s) raw) (od_get (cs_records (store_step op s)) raw).
Proof.
  intros Hs Hc. destruct op; cbn [store_step].
  - simpl in Hc. bool_prop. unfold create, st_get, mbind, ST_bind. cbn. rewrite od_get_set, decide_False by done.
    split; [lia|]. by apply (thinned_entry (live_at pruned_at)).
  - unfold inspect_selection, mbind, ST_bind. destruct (_require _ _ _ _ s) as [[x|e] s1] eqn:E;
      apply require_inv in E as [-> _]; (split; [done|by apply thinned_entry]).
  - unfold enter_effect_window, mbind, ST_bind. destruct (_require _ _ _ _ s) as [[x|e] s1] eqn:E;
      apply require_inv in E as [-> _]; [|split; [done|by apply thinned_entry]].
    unfold guard_not. case_match; (split; [done|by apply thinned_entry]).
  - unfold replace_bindings, mbind, ST_bind. destruct (_require _ _ _ _ s) as [[[o x]|e] s1] eqn:E;
      apply require_inv in E as [-> H]; [|split; [done|by apply thinned_entry]].
    cbn. split; [lia|]. rewrite od_get_set. case_decide as Hr; [|by apply (thinned_entry (live_at now))].
    subst raw_id. destruct H as [H _]. pose proof (thinned_entry (live_at now) s raw (cs_next_object s) Hs) as T.
    rewrite H in T. destruct T as (o0 & r0 & E & Hss & [[= -> ->]|[Hl _]]).
    + exists o0, r0. rewrite E. split_and!; try done. right. simpl. split; [done|lia].
    + exfalso. simpl in H. apply od_get_elem in H. destruct (thinned_ok (live_at now) s Hs) as [_ Hf].
      apply (proj1 (Forall_forall _ _) Hf) in H as [Hlt _]. simpl in Hlt. lia.
  - unfold clear, mbind, ST_bind. destruct (_require _ _ _ _ s) as [[x|e] s1] eqn:E;
      apply require_inv in E as [-> _]; [|split; [done|by apply thinned_entry]].
    split; [done|]. cbn [snd st_modify with_records cs_records]. rewrite od_get_pop. case_decide; [done|by apply (thinned_entry (live_at now))].
  - split; [done|]. by apply (thinned_entry (fun kr => negb (String.eqb (sr_selection_capability_digest (snd (snd kr))) digest))).
  - unfold request_resolver, st_get, mbind, ST_bind. case_match; split; try done; apply entry_step_refl.
  - split; [done|]. by apply (thinned_entry (live_at now)).
Qed.

Lemma entry_step_trans n n' e1 e2 e3 :
  (n <= n')%nat -> entry_step n e1 e2 -> entry_step n' e2 e3 -> entry_step n e1 e3.
Proof.
  intros Hn H12 H23. destruct e3 as [[o3 r3]|]; [|done]. destruct H23 as (o2 & r2 & -> & S23 & D23).
  destruct H12 as (o1 & r1 & -> & S12 & D12). exists o1, r1.
  split_and!; [done|by eapply same_session_trans|].
  destruct D23 as [[= -> ->]|[? ?]]; [done|]. right. destruct D12 as [[= -> ->]|[? ?]]; split; lia.
Qed.

Lemma store_after_entry raw ops s : store_ok s -> Forall (fun op => creates raw op = false) ops ->
  store_ok (store_after ops s) /\
  entry_step (cs_next_object s) (od_get (cs_records s) raw) (od_get (cs_records (store_after ops s)) raw).
Proof.
  revert s. induction ops as [|op ops IH]; intros s Hs Hf; [split; [done|apply entry_step_refl]|].
  apply Forall_cons in Hf as [Hc Hf]. cbn [store_after fold_left].
  destruct (IH (store_step op s) (store_step_ok op s Hs) Hf) as [H1 H2]. split; [done|].
  destruct (store_step_entry op s raw Hs Hc) as [Hn He]. by eapply entry_step_trans.
Qed.

(** C31: a session cannot be taken over, revived or outlived.  Whatever calls
    have run on the store, a selection read under a bearer is one that was
    there before, unless it was created again: it belongs to the principal, at
    its revision, and the instance that ask, it is not expired at the reading,
    and it is the same session with the same deadline; either it is the very
    object, or its bindings were replaced and its generation is higher.  So a
    bearer that was cleared, invalidated or pruned stays unusable. *)
Theorem selection_lifetime raw ops s p inst now r' s' :
  store_ok s -> Forall (fun op => creates raw op = false) ops ->
  inspect_selection raw p inst now (store_after ops s) = (Ok r', s') ->
  (pc_principal_id (sr_principal r') = pc_principal_id p /\
   pc_revision (sr_principal r') = pc_revision p /\ sr_instance_identity r' = inst /\
   SFleb (sr_expires_at r') now = false) /\
  exists o r o', od_get (cs_records s) raw = Some (o, r) /\ od_get (cs_records s') raw = Some (o', r') /\
    same_session r r' /\ ((o', r') = (o, r) \/ (o < o')%nat /\ sr_generation r < sr_generation r').
Proof.
  intros Hs Hf. destruct (store_after_entry raw ops s Hs Hf) as [[Hn Ho] He].
  unfold inspect_selection. intros E. run E as [o' rec] s1 E1. injection E as <- <-.
  apply require_inv in E1 as [-> (H & ? & ? & ?)]. split_and!; try done.
  - simpl in H. rewrite od_get_filter in H by done.
    destruct (od_get (cs_records (store_after ops s)) raw) as [[o2 r2]|]; [|done].
    destruct (live_at now (raw, (o2, r2))) eqn:L; simplify_eq. unfold live_at in L. by apply negb_true_iff in L.
  - rewrite H. simpl in H. rewrite od_get_filter in H by done.
    destruct (od_get (cs_records (store_after ops s)) raw) as [[o2 r2]|]; [|done].
    destruct (live_at now (raw, (o2, r2))); simplify_eq. destruct He as (o & r & E0 & Hss & D).
    exists o, r, o'. rewrite E0. split_and!; try done. destruct D as [?|[? ?]]; [by left|right].
    destruct Hs as [_ Hold]. apply od_get_elem in E0. apply (proj1 (Forall_forall _ _) Hold) in E0 as [Hlt _].
    simpl in Hlt. split; [lia|done].
Qed.
End Lifetime.

(** ** The resolver *)

Section Resolution.
Context (sha256 : string -> string) {W : Type} (binding_facts : ST W (list (string * BindingFact)))
  (registry_revision : ST W Z) (authorize : BindingAuthorizationRequest -> ST W BindingVerdict)
  (invalidate : string -> ST W unit).
#[local] Abbreviation run_resolve := (resolve sha256 binding_facts registry_revision authorize invalidate).
#[local] Abbreviation state := (ActiveContextSelectionResolver * W)%type.

(** [m] takes the world only along [R], for instance forward in time. *)
Definition moves {A} (R : W -> W -> Prop) (m : ST W A) : Prop := forall w r w', m w = (r, w') -> R w w'.

(** [v] is an allow verdict on [id], given for this request between [w] and [w']. *)
Definition admitted (R : W -> W -> Prop) (rq : resolve_inputs) (w w' : W) (id : string) (v : BindingVerdict)
  : Prop :=
  allowed v = true /\ exists w1 w2, R w w1 /\ authorize (request_for rq id) w1 = (Ok v, w2) /\ R w2 w'.

(** The binding of a member whose fact is known. *)
Definition member_binding (facts : list (string * BindingFact)) (iv : string * BindingVerdict)
  : option ActiveContextBinding :=
  (fun f => mkBinding (bf_vault_binding_id f) (bf_binding_revision f) (bv_epoch (snd iv))
     (bf_vault_id f) (bf_local_instance_id f) (bf_label f)) <$> dict_get facts (fst iv).
Definition ready (facts : list (string * BindingFact)) (id : string) : bool :=
  from_option bf_available false (dict_get facts id).

Lemma on_world_inv {A} (m : ST W A) (s : state) r s' :
  on_world m s = (r, s') -> fst s' = fst s /\ m (snd s) = (r, snd s').
Proof. unfold on_world. destruct (m (snd s)) as [x w] eqn:E. by intros [= <- <-]. Qed.

#[local] Instance any_preorder : PreOrder (fun _ _ : W => True).
Proof. by split. Qed.

Lemma admitted_earlier R `{!PreOrder R} rq w0 w w' id v :
  R w0 w -> admitted R rq w w' id v -> admitted R rq w0 w' id v.
Proof. intros H (Hv & w1 & w2 & H1 & E & H2). split; [done|]. exists w1, w2. split_and!; [by etrans|done|done]. Qed.

Lemma members_ok R `{!PreOrder R} rq sd facts ids m (s : state) m' s' :
  (forall r, moves R (authorize r)) ->
  resolve_members authorize invalidate rq sd facts ids m s = (Ok m', s') ->
  fst s' = fst s /\ R (snd s) (snd s') /\
  exists vs, Forall2 (admitted R rq (snd s) (snd s')) ids vs /\
    mb_verdicts m' = mb_verdicts m ++ vs /\
    mb_bindings m' = mb_bindings m ++ omap (member_binding facts) (zip ids vs) /\
    mb_degraded m' = if forallb (ready facts) ids then mb_degraded m else Some "binding_unavailable".
Proof.
  intros HA. revert m s. induction ids as [|id ids IH]; intros m s E; cbn [resolve_members] in E.
  { injection E as <- <-. split; [done|]. split; [done|]. exists []. rewrite !app_nil_r. by split_and!. }
  run E as v s1 E1. apply on_world_inv in E1 as [Hs1 E1]. pose proof (HA _ _ _ _ E1) as R1.
  destruct (allowed v) eqn:Hv; cbn [negb] in E.
  2: { unfold deny in E. run E as u1 s2 E2. run E as s3 s4 E3. run E as u2 s5 E4. done. }
  destruct (dict_get facts id) as [f|] eqn:Ef; apply IH in E as (Hs' & R2 & vs & Hvs & Ev & Eb & Ed);
    (split; [by rewrite Hs', Hs1|]); (split; [by etrans|]); exists (v :: vs);
    cbn [forallb zip zip_with omap list_omap]; unfold ready at 1, member_binding at 1; cbn [fst]; rewrite Ef;
    cbn [from_option fmap option_fmap option_map];
    (split; [constructor; [split; [done|]; exists (snd s), (snd s1); split_and!; [reflexivity|done|done]
             |eapply Forall2_impl; [done|]; intros; by eapply admitted_earlier]|]).
  - split_and!; [by rewrite Ev; simpl; rewrite <- app_assoc|by rewrite Eb; simpl; rewrite <- app_assoc|].
    rewrite Ed. simpl. destruct (bf_available f); simpl; by destruct (forallb _ _).
  - split_and!; [by rewrite Ev; simpl; rewrite <- app_assoc|done|].
    rewrite Ed. simpl. by destruct (forallb _ _).
Qed.

(** The context and the generation a request presents. *)
Definition context_of (rq : resolve_inputs) (r : ActiveContextSelectionResolver) : string :=
  match rq_selection rq with
  | Some s => sr_context_id s | None => "ctx_default_" +:+ rv_instance_identity r end.
Definition presented (rq : resolve_inputs) : Z :=
  match rq_selection rq with Some s => sr_generation s | None => 1 end.
Definition selected_ids (rq : resolve_inputs) : list string :=
  match rq_selection rq with
  | Some s => sr_binding_ids s
  | None => if blank (rq_default_binding_id rq) then [] else option_list (rq_default_binding_id rq)
  end.

Lemma select_ok r rq sd : select r rq = Ok sd ->
  sd_binding_ids sd = selected_ids rq /\ sd_context_id sd = context_of rq r /\
  sd_generation sd = presented rq + rotations_of r (context_of rq r) /\
  sd_digest sd = sr_selection_capability_digest <$> rq_selection rq.
Proof.
  unfold select, selected_ids, context_of, presented. destruct (rq_selection rq) as [x|].
  - destruct (_ && _)%bool; [done|]. by intros [= <-].
  - intros [= <-]. simpl. destruct (blank (rq_default_binding_id rq)) eqn:B; split_and!; try done; by destruct (rq_default_binding_id rq).
Qed.

Lemma context_make_ok c c' : ActiveContextSetV1_make c = Ok c' -> c' = c /\ 1 <= ac_generation c.
Proof. unfold ActiveContextSetV1_make. repeat case_match; intros; simplify_eq; split; try done; lia. Qed.
Lemma context_make_next c g : ActiveContextSetV1_make c = Ok c -> ac_generation c <= g ->
  ActiveContextSetV1_make (with_generation g c) = Ok (with_generation g c).
Proof.
  unfold ActiveContextSetV1_make, with_generation.
  cbn [ac_context_id ac_generation ac_scope ac_posture ac_degraded_reason]. intros H Hg.
  destruct (String.eqb (ac_context_id c) ""); [done|]. destruct (Z.ltb_spec (ac_generation c) 1); [done|].
  destruct (Z.ltb_spec g 1); [lia|]. destruct (String.eqb (ac_scope c) ""); [done|].
  destruct (String.eqb (ac_posture c) "degraded").
  - destruct (ac_degraded_reason c); [|done]. by destruct (existsb _ _).
  - by destruct (bool_decide _).
Qed.
Lemma identity_generation g c : identity_of (with_generation g c) = identity_of c.
Proof. unfold identity_of, context_identity_components, with_generation. simpl. done. Qed.

Lemma publish_world c (s : state) r s' : publish c s = (r, s') -> snd s' = snd s.
Proof.
  unfold publish, st_get, set_last, set_rotations, st_modify, st_lift, mbind, ST_bind.
  destruct (od_get _ _); [destruct (String.eqb _ _); [|destruct (ActiveContextSetV1_make _)]|]; by intros [= _ <-].
Qed.

(** A resolution that answers: what was asked, and the snapshot it published. *)
Lemma resolve_completes R `{!PreOrder R} rq (s : state) res s' :
  moves R binding_facts -> moves R registry_revision -> (forall r, moves R (authorize r)) ->
  run_resolve rq s = (Ok res, s') ->
  exists facts revision sd m w, select (fst s) rq = Ok sd /\
    (exists w0 w0', binding_facts w0 = (Ok facts, w0')) /\
    (exists vs, Forall2 (admitted R rq (snd s) (snd s')) (selected_ids rq) vs /\ mb_verdicts m = vs /\
       mb_bindings m = omap (member_binding facts) (zip (selected_ids rq) vs)) /\
    mb_degraded m = (if forallb (ready facts) (selected_ids rq) then None else Some "binding_unavailable") /\
    let c := snapshot_of sha256 (fst s) rq sd revision m in
    ActiveContextSetV1_make c = Ok c /\ publish c (fst s, w) = (Ok res, s').
Proof.
  unfold resolve. intros HB HR HA E. run E as facts s1 E1. apply on_world_inv in E1 as [H1 F1].
  run E as revision s2 E2. apply on_world_inv in E2 as [H2 F2]. rewrite H1 in H2.
  assert (R2 : R (snd s) (snd s2)) by (etrans; [by eapply HB|by eapply HR]).
  run E as s3 s4 E3. injection E3 as <- <-. run E as sd s5 E4. apply st_lift_ok in E4 as [E4 ->].
  run E as m s6 E5. apply (members_ok R) in E5 as (H3 & _ & vs & Hvs & Ev & Eb & Ed); [|done].
  run E as c s7 E6. apply st_lift_ok in E6 as [E6 ->]. rewrite H2 in *.
  destruct (context_make_ok _ _ E6) as [-> _]. destruct (select_ok _ _ _ E4) as (Hids & _).
  rewrite Hids in *. exists facts, revision, sd, m, (snd s6). split_and!; try done.
  - by eexists _, _.
  - exists vs. split_and!; try done. pose proof (publish_world _ _ _ _ E) as ->.
    eapply Forall2_impl; [done|]. intros. by eapply admitted_earlier.
  - by destruct s6; simpl in *; subst.
Qed.

Definition resolve_any := fun rq s res s' =>
  resolve_completes (fun _ _ => True) rq s res s' (fun _ _ _ _ => I) (fun _ _ _ _ => I) (fun _ _ _ _ _ => I).

Lemma publish_ok c (s : state) : ActiveContextSetV1_make c = Ok c ->
  let k := (ac_context_id c, ac_generation c) in
  let last := rv_last_identity (fst s) in
  exists res s', publish c s = (Ok res, s') /\ rv_instance_identity (fst s') = rv_instance_identity (fst s) /\
  ((rr_snapshot res = c /\ rv_rotations (fst s') = rv_rotations (fst s) /\
    rv_last_identity (fst s') = od_set last k (identity_of c) /\
    (forall id, od_get last k = Some id -> id = identity_of c)) \/
   (rr_snapshot res = with_generation (ac_generation c + 1) c /\
    rv_rotations (fst s') = dict_set (rv_rotations (fst s)) (ac_context_id c)
                              (rotations_of (fst s) (ac_context_id c) + 1) /\
    rv_last_identity (fst s') = od_set (od_pop last k) (ac_context_id c, ac_generation c + 1) (identity_of c) /\
    exists id, od_get last k = Some id /\ id <> identity_of c)).
Proof.
  intros Hc. cbn zeta. unfold publish, st_get, set_last, set_rotations, st_modify, st_lift, mbind, ST_bind.
  destruct (od_get _ _) as [id|] eqn:El.
  - destruct (String.eqb_spec id (identity_of c)) as [->|Hne].
    + eexists _, _. split_and!; [reflexivity|done|]. left. split_and!; try done. by intros ? [= <-].
    + rewrite (context_make_next c) by (done || lia). eexists _, _. split_and!; [reflexivity|done|].
      right. split_and!; try done. eauto.
  - eexists _, _. split_and!; [reflexivity|done|]. left. by split_and!.
Qed.

(** A resolution that fails leaves the resolver alone, unless a member was
    denied: then the identity of the context at its generation is forgotten. *)
Definition denial (e : exn) : Prop := exists v i, e = BindingAuthorizationError v i.
Definition kept_or_denied (k : string * Z) (e : exn) (r r' : ActiveContextSelectionResolver) : Prop :=
  r' = r \/
  denial e /\ r' = mkResolver (rv_instance_identity r) (od_pop (rv_last_identity r) k) (rv_rotations r).

Lemma members_raise rq sd facts ids m (s : state) e s' :
  resolve_members authorize invalidate rq sd facts ids m s = (Raise e, s') ->
  kept_or_denied (sd_context_id sd, sd_generation sd) e (fst s) (fst s').
Proof.
  revert m s. induction ids as [|id ids IH]; intros m s E; cbn [resolve_members] in E; [done|].
  cases E as v s1 E1; apply on_world_inv in E1 as [Hs1 _]; [|by left].
  destruct (negb (allowed v)).
  - unfold deny in E. cases E as u1 s2 E2.
    + assert (H : fst s2 = fst s1).
      { destruct (sd_digest sd); [by apply on_world_inv in E2 as [H _]|by injection E2 as _ <-]. }
      injection E as <- <-. right. split; [by eexists _, _|]. simpl. by rewrite H, Hs1.
    + left. destruct (sd_digest sd); [|done]. apply on_world_inv in E2 as [H _]. by rewrite H.
  - rewrite <- Hs1. destruct (dict_get facts id); eauto.
Qed.

Lemma resolve_raise rq (s : state) e s' : run_resolve rq s = (Raise e, s') ->
  exists g, kept_or_denied (context_of rq (fst s), g) e (fst s) (fst s').
Proof.
  unfold resolve. intros E.
  assert (L : forall r : ActiveContextSelectionResolver, r = fst s -> exists g, kept_or_denied (context_of rq (fst s), g) e (fst s) r)
    by (intros r ->; exists 0; by left).
  cases E as facts s1 E1; apply on_world_inv in E1 as [H1 _]; [|by apply L].
  cases E as revision s2 E2; apply on_world_inv in E2 as [H2 _]; [|apply L; congruence]. rewrite H1 in H2.
  cases E as s3 s4 E3; [injection E3 as <- <-|done]. cases E as sd s5 E4; injection E4 as E4 <-; [|by apply L].
  destruct (select_ok _ _ _ E4) as (_ & Hc & _).
  cases E as m s6 E5.
  2: { simplify_eq. apply members_raise in E5. rewrite Hc, H2 in E5. by eexists. }
  apply (members_ok (fun _ _ => True)) in E5 as [H3 _]; [|done]. cases E as c s7 E6; injection E6 as E6 <-; [|apply L; congruence].
  destruct (context_make_ok _ _ E6) as [-> _].
  by destruct (publish_ok _ s6 E6) as (res & s'' & P & _); rewrite P in E.
Qed.

(** *** Generations *)

(** What a resolver remembers of a context after it emitted generation [g] with
    identity [id] for a selection at generation [n]: the next generation it
    would emit is higher, or it is [g] and the identity is remembered. *)
Definition remembers (c : string) (n g : Z) (id : string) (r : ActiveContextSelectionResolver) : Prop :=
  g < n + rotations_of r c \/
  n + rotations_of r c = g /\ od_get (rv_last_identity r) (c, g) = Some id.

Lemma rotations_set r r' c c' x : rv_rotations r' = dict_set (rv_rotations r) c x ->
  rotations_of r' c' = if decide (c = c') then x else rotations_of r c'.
Proof. unfold rotations_of. intros ->. rewrite dict_get_set. by case_decide. Qed.
Lemma rotations_same r r' c : rv_rotations r' = rv_rotations r -> rotations_of r' c = rotations_of r c.
Proof. unfold rotations_of. by intros ->. Qed.

Lemma publish_remembers cx c n g id (s : state) res s' :
  ActiveContextSetV1_make cx = Ok cx -> publish cx s = (Ok res, s') ->
  (ac_context_id cx = c -> n + rotations_of (fst s) c <= ac_generation cx) ->
  remembers c n g id (fst s) -> remembers c n g id (fst s').
Proof.
  intros Hc E Hn Hr. destruct (publish_ok cx s Hc) as (res' & s'' & E' & _ & D).
  rewrite E in E'. injection E' as <- <-. unfold remembers in *.
  destruct D as [(_ & R & -> & U)|(_ & R & -> & _)].
  - rewrite (rotations_same _ _ c R), od_get_set. destruct Hr as [?|[? Hl]]; [by left|right]. split; [done|].
    case_decide as Hk; [|done]. injection Hk as H1 H2. f_equal. symmetry. apply U. by rewrite H1, H2.
  - rewrite (rotations_set _ _ _ c _ R), od_get_set, od_get_pop. case_decide as Hx; [subst c; left; lia|].
    destruct Hr as [?|[? Hl]]; [by left|right]. rewrite !decide_False by congruence. done.
Qed.

Lemma publish_emits cx n (s : state) res s' :
  ActiveContextSetV1_make cx = Ok cx -> publish cx s = (Ok res, s') ->
  ac_generation cx = n + rotations_of (fst s) (ac_context_id cx) ->
  ac_context_id (rr_snapshot res) = ac_context_id cx /\
  n + rotations_of (fst s') (ac_context_id cx) = ac_generation (rr_snapshot res) /\
  od_get (rv_last_identity (fst s')) (ac_context_id cx, ac_generation (rr_snapshot res))
  = Some (identity_of (rr_snapshot res)).
Proof.
  intros Hc E Hn. destruct (publish_ok cx s Hc) as (res' & s'' & E' & _ & D).
  rewrite E in E'. injection E' as <- <-.
  destruct D as [(-> & R & -> & _)|(-> & R & -> & _)].
  - rewrite (rotations_same _ _ _ R), od_get_set, decide_True by done. auto.
  - rewrite (rotations_set _ _ _ _ _ R), identity_generation, od_get_set. cbn [ac_generation with_generation ac_context_id].
    rewrite !decide_True by done. split; [done|]. split; [lia|done].
Qed.

(** A call on any context keeps what is remembered of [c], if the selection it
    presents for [c] is not older and it is not denied. *)
Definition fair (c : string) (n : Z) (rq : resolve_inputs) (s : state) : Prop :=
  context_of rq (fst s) = c ->
  n <= presented rq /\ forall e, fst (run_resolve rq s) = Raise e -> ~ denial e.

Lemma resolve_remembers c n g id rq (s : state) :
  fair c n rq s -> remembers c n g id (fst s) -> remembers c n g id (fst (snd (run_resolve rq s))).
Proof.
  intros Hf Hr. destruct (run_resolve rq s) as [[res|e] s'] eqn:E; cbn [snd].
  - apply resolve_any in E as (facts & rev & sd & m & w & Hsd & _ & _ & _ & Hc & P).
    destruct (select_ok _ _ _ Hsd) as (_ & Hctx & Hg & _).
    apply (publish_remembers _ c n g id _ _ _ Hc P); [|done]. simpl. intros Hx.
    rewrite Hg, Hctx in *. destruct (Hf Hx) as [? _]. rewrite Hx. lia.
  - pose proof E as E0. apply resolve_raise in E as (g' & [->|(D & ->)]); [done|].
    unfold remembers in *. cbn [rv_last_identity]. rewrite od_get_pop.
    destruct (decide (context_of rq (fst s) = c)) as [Hx|Hx].
    + destruct (Hf Hx) as [_ Hd]. destruct (Hd e); [by rewrite E0|done].
    + rewrite decide_False by congruence. done.
Qed.

Fixpoint resolve_all (rqs : list resolve_inputs) (s : state) : state :=
  match rqs with [] => s | rq :: rqs => resolve_all rqs (snd (run_resolve rq s)) end.
Fixpoint all_fair (c : string) (n : Z) (rqs : list resolve_inputs) (s : state) : Prop :=
  match rqs with
  | [] => True
  | rq :: rqs => fair c n rq s /\ all_fair c n rqs (snd (run_resolve rq s))
  end.

Lemma resolve_all_remembers c n g id rqs (s : state) :
  all_fair c n rqs s -> remembers c n g id (fst s) -> remembers c n g id (fst (resolve_all rqs s)).
Proof.
  revert s. induction rqs as [|rq rqs IH]; intros s; simpl; [done|]. intros [Hf Ha] Hr.
  apply IH; [done|]. by apply resolve_remembers.
Qed.

(** The generation of a snapshot identifies it.  If a resolver answers two
    requests on one context, the second with a selection that is not older,
    and every request on that context in between presents one that is not
    older either and is not denied, then the generation does not go back, and
    an equal generation means that the two snapshots have the same identity:
    binding revisions, verdict epochs, registry revision, principal, scope and
    posture.  Whatever else changed underneath rotates the generation. *)
Theorem generations_identify rq1 mid rq2 (s : state) r1 s1 r2 s2 :
  run_resolve rq1 s = (Ok r1, s1) ->
  let c := ac_context_id (rr_snapshot r1) in
  all_fair c (presented rq1) mid s1 ->
  run_resolve rq2 (resolve_all mid s1) = (Ok r2, s2) ->
  ac_context_id (rr_snapshot r2) = c -> presented rq1 <= presented rq2 ->
  ac_generation (rr_snapshot r1) <= ac_generation (rr_snapshot r2) /\
  (ac_generation (rr_snapshot r1) = ac_generation (rr_snapshot r2) ->
   identity_of (rr_snapshot r1) = identity_of (rr_snapshot r2)).
Proof.
  intros E1 c Hm E2 Hc2 Hn. set (sm := resolve_all mid s1) in *.
  apply resolve_any in E1 as (f1 & v1 & sd1 & m1 & w1 & Hs1 & _ & _ & _ & Hc1 & P1).
  destruct (select_ok _ _ _ Hs1) as (_ & X1 & G1 & _).
  apply (publish_emits _ (presented rq1)) in P1 as (C1 & R1); [|done|simpl; by rewrite G1, X1].
  simpl in C1, R1. assert (Hcc : sd_context_id sd1 = c) by (by unfold c; rewrite C1). rewrite Hcc in R1.
  apply (or_intror (A := ac_generation (rr_snapshot r1) < presented rq1 + rotations_of (fst s1) c)) in R1.
  apply (resolve_all_remembers _ _ _ _ mid) in R1; [|done]. fold sm in R1.
  apply resolve_any in E2 as (f2 & v2 & sd2 & m2 & w2 & Hs2 & _ & _ & _ & Hcx2 & P2).
  destruct (select_ok _ _ _ Hs2) as (_ & X2 & G2 & _).
  pose proof P2 as P2'.
  apply (publish_emits _ (presented rq2)) in P2' as (C2 & R2 & L2); [|done|simpl; by rewrite G2, X2].
  simpl in C2, R2, L2. rewrite Hc2 in C2. rewrite <- C2 in R2, L2.
  apply (publish_remembers _ c (presented rq1) _ _ _ _ _ Hcx2 P2) in R1;
    [|simpl; intros _; rewrite G2, <- X2, <- C2; simpl; lia].
  destruct R1 as [R1|[R1 L1]]; [lia|]. split; [lia|]. intros Hg. rewrite Hg, L2 in L1. congruence.
Qed.

(** *** What a snapshot rests on *)

(** Facts are filed under their own id. *)
Definition filed (facts : list (string * BindingFact)) : Prop :=
  forall id f, dict_get facts id = Some f -> bf_vault_binding_id f = id.

Lemma member_ids facts ids vs b : filed facts -> length vs = length ids ->
  b ∈ map cb_vault_binding_id (omap (member_binding facts) (zip ids vs)) -> b ∈ ids.
Proof.
  intros Hf. revert vs. induction ids as [|id ids IH]; intros [|v vs] Hl; simpl; try done.
  injection Hl as Hl. unfold member_binding at 1. cbn [fst snd].
  destruct (dict_get facts id) as [f|] eqn:E; cbn [fmap option_fmap option_map map].
  - rewrite !elem_of_cons. intros [->|?]; [left; by apply Hf|right; eauto].
  - intros ?. right. eauto.
Qed.
Lemma member_ids_all facts ids vs : filed facts -> length vs = length ids -> forallb (ready facts) ids = true ->
  map cb_vault_binding_id (omap (member_binding facts) (zip ids vs)) = ids.
Proof.
  intros Hf. revert vs. induction ids as [|id ids IH]; intros [|v vs] Hl; simpl; try done.
  injection Hl as Hl. unfold ready at 1, member_binding at 1. cbn [fst snd].
  destruct (dict_get facts id) as [f|] eqn:E; cbn [fmap option_fmap option_map from_option]; [|done].
  intros [_ H]%andb_true_iff. cbn [map cb_vault_binding_id]. f_equal; [by apply Hf|by apply IH].
Qed.

Lemma publish_fields cx (s : state) res s' :
  ActiveContextSetV1_make cx = Ok cx -> publish cx s = (Ok res, s') ->
  exists g, rr_snapshot res = with_generation g cx.
Proof.
  intros Hc E. destruct (publish_ok cx s Hc) as (res' & s'' & E' & _ & D). rewrite E in E'. injection E' as <- <-.
  destruct D as [(-> & _)|(-> & _)]; [|eauto]. exists (ac_generation cx). by destruct cx.
Qed.

(** Every selected binding was admitted for this request, the snapshot's
    bindings are among them, and a snapshot that can carry an effect has them
    all. *)
Lemma resolve_sound R `{!PreOrder R} rq (s : state) res s' :
  moves R binding_facts -> moves R registry_revision -> (forall r, moves R (authorize r)) ->
  run_resolve rq s = (Ok res, s') ->
  (forall w facts w', binding_facts w = (Ok facts, w') -> filed facts) ->
  let c := rr_snapshot res in
  ac_context_id c = context_of rq (fst s) /\ ac_principal_context c = rq_principal rq /\
  ac_selection_capability_digest c = sr_selection_capability_digest <$> rq_selection rq /\
  (forall b, b ∈ selected_ids rq -> exists v, admitted R rq (snd s) (snd s') b v) /\
  (forall b, b ∈ context_binding_ids c -> b ∈ selected_ids rq) /\
  (require_effect_capable c = Ok tt -> context_binding_ids c = selected_ids rq).
Proof.
  intros HB HR HA E Hfile. apply (resolve_completes R) in E; [|done..]. destruct E
    as (facts & rev & sd & m & w & Hsd & (w0 & w0' & Ef) & (vs & Hvs & _ & Hb) & Hd & Hc & P).
  apply Hfile in Ef. destruct (select_ok _ _ _ Hsd) as (_ & Hctx & _ & Hdig).
  pose proof (Forall2_length _ _ _ Hvs) as Hl.
  apply publish_fields in P as [g Hg]; [|done]. cbn zeta. rewrite Hg.
  unfold context_binding_ids, require_effect_capable. simpl. rewrite Hb. split_and!; try done.
  - intros b Hin. apply list_elem_of_lookup in Hin as [i Hi].
    destruct (Forall2_lookup_l _ _ _ _ _ Hvs Hi) as (v & _ & Ha). eauto.
  - intros b. by apply member_ids.
  - rewrite Hd. destruct (forallb (ready facts) (selected_ids rq)) eqn:Ea; [|done]. intros _. by apply member_ids_all.
Qed.

(** *** Denials *)

(** [m] keeps [P] and raises no denial of its own. *)
Definition tame {A} (P : W -> Prop) (m : ST W A) : Prop := forall w r w',
  m w = (r, w') -> P w -> P w' /\ forall e, r = Raise e -> ~ denial e.

Lemma members_denied (P : W -> Prop) rq sd facts ids m (s : state) e s' d :
  (forall r, tame P (authorize r)) -> (forall d w, exists w', invalidate d w = (Ok tt, w')) ->
  sd_digest sd = Some d -> P (snd s) -> denial e ->
  resolve_members authorize invalidate rq sd facts ids m s = (Raise e, s') ->
  exists w, P w /\ invalidate d w = (Ok tt, snd s').
Proof.
  intros Ha Hi Hd. revert m s. induction ids as [|id ids IH]; intros m s HP He E; cbn [resolve_members] in E; [done|].
  cases E as v s1 E1; apply on_world_inv in E1 as [_ E1].
  2: { destruct (Ha _ _ _ _ E1 HP) as [_ H]. simplify_eq. by destruct (H _ eq_refl). }
  destruct (Ha _ _ _ _ E1 HP) as [HP1 _].
  destruct (negb (allowed v)).
  - unfold deny in E. rewrite Hd in E. cases E as u s2 E2; apply on_world_inv in E2 as [_ E2].
    + injection E as _ <-. exists (snd s1). destruct (Hi d (snd s1)) as [w' Hw]. split; [done|].
      rewrite Hw in E2 |- *. by injection E2 as _ ->.
    + destruct (Hi d (snd s1)) as [w' Hw]. by rewrite Hw in E2.
  - destruct (dict_get facts id); eauto.
Qed.

Lemma resolve_denied (P : W -> Prop) rq sel (s : state) e s' :
  tame P binding_facts -> tame P registry_revision -> (forall r, tame P (authorize r)) ->
  (forall d w, exists w', invalidate d w = (Ok tt, w')) ->
  rq_selection rq = Some sel -> P (snd s) -> denial e -> run_resolve rq s = (Raise e, s') ->
  exists w, P w /\ invalidate (sr_selection_capability_digest sel) w = (Ok tt, snd s').
Proof.
  intros Hb Hr Ha Hi Hsel HP He E. unfold resolve in E.
  cases E as facts s1 E1; apply on_world_inv in E1 as [_ E1].
  2: { destruct (Hb _ _ _ E1 HP) as [_ H]. simplify_eq. by destruct (H _ eq_refl). }
  destruct (Hb _ _ _ E1 HP) as [HP1 _].
  cases E as rev s2 E2; apply on_world_inv in E2 as [_ E2].
  2: { destruct (Hr _ _ _ E2 HP1) as [_ H]. simplify_eq. by destruct (H _ eq_refl). }
  destruct (Hr _ _ _ E2 HP1) as [HP2 _].
  cases E as s3 s4 E3; [injection E3 as <- <-|done].
  cases E as sd s5 E4; injection E4 as E4 <-.
  2: { destruct He as (v & i & ->). simplify_eq. unfold select in E4. rewrite Hsel in E4. by destruct (_ && _)%bool. }
  destruct (select_ok _ _ _ E4) as (_ & _ & _ & Hdig). rewrite Hsel in Hdig.
  cases E as m s6 E5.
  - cases E as c s7 E6; injection E6 as E6 <-.
    + destruct (context_make_ok _ _ E6) as [-> _].
      by destruct (publish_ok _ s6 E6) as (res & s'' & Pu & _); rewrite Pu in E.
    + destruct He as (v & i & ->). simplify_eq. exfalso. revert E6. unfold ActiveContextSetV1_make.
      repeat case_match; done.
  - simplify_eq. by eapply members_denied.
Qed.
End Resolution.

(** ** The service *)

Section ServiceProps.
Context (sha256 : string -> string) (load : nat -> res RegistrySnapshot) (is_dir : nat -> string -> bool).

Lemma registry_facts_filed dir snap : filed (registry_facts dir snap).
Proof.
  intros id f. unfold registry_facts. induction (rg_registrations snap) as [|[k v] l IH]; simpl; [done|].
  destruct (String.eqb_spec id k) as [->|]; [by intros [= <-]|done].
Qed.
Lemma registry_facts_known dir snap id :
  is_Some (dict_get (registry_facts dir snap) id) -> dict_mem (rg_registrations snap) id = true.
Proof.
  unfold registry_facts, dict_mem. induction (rg_registrations snap) as [|[k v] l IH]; simpl; [by intros [? ?]|].
  by destruct (String.eqb id k).
Qed.
Lemma set_bindings_known facts a a' id : set_bindings facts a = Ok a' ->
  is_Some (dict_get (au_known a') id) -> is_Some (dict_get (au_known a) id) \/ is_Some (dict_get facts id).
Proof.
  revert a. induction facts as [|[k f] facts IH]; intros a; simpl; [intros [= <-]; by left|].
  intros H Hid. apply IH in H as [H|H]; [|right; by destruct (String.eqb id k)|done]. simpl in H.
  rewrite dict_get_set in H. destruct (String.eqb_spec id k) as [->|]; [by right|].
  rewrite decide_False in H by done. by left.
Qed.

Lemma set_bindings_total facts a : exists a', set_bindings facts a = Ok a'.
Proof. revert a. induction facts as [|[k f] facts IH]; intros a; simpl; eauto. Qed.

(** The live authorizer admits a binding only if the registry it reads has it. *)
Definition later (w w' : service_world) : Prop := (sv_loads w <= sv_loads w')%nat.
#[local] Instance later_preorder : PreOrder later.
Proof. split; [intros x; unfold later; lia|intros x y z; unfold later; lia]. Qed.

(** [b] was registered in a reading of the registry between [w] and [w']. *)
Definition registered_during (w w' : service_world) (b : string) : Prop :=
  exists i snap, (sv_loads w <= i < sv_loads w')%nat /\ load i = Ok snap /\
    dict_mem (rg_registrations snap) b = true.

Lemma live_admits rq w0 w0' b v : admitted (live_authorize sha256 load is_dir) later rq w0 w0' b v ->
  pc_principal_id (rq_principal rq) <> "" /\ registered_during w0 w0' b.
Proof.
  intros [Hv (w & w' & Hl & E & Hr)]. unfold later in Hl, Hr. unfold live_authorize in E. run E as [i snap] w1 E1. run E as a w2 E2.
  apply st_lift_ok in E2 as [E2 ->]. injection E as <- <-. unfold load_registry in E1.
  destruct (load (sv_loads w)) as [snap'|] eqn:El; simplify_eq. simpl in Hr.
  unfold registry_authorize in Hv. cbn [request_for br_principal br_vault_binding_id] in Hv.
  destruct (String.eqb_spec (pc_principal_id (rq_principal rq)) "") as [|Hp]; [done|].
  destruct (dict_get (au_known a) b) eqn:Eb; [|done]. split; [done|]. exists (sv_loads w), snap. split; [lia|]. split; [done|].
  unfold build_authorizer in E2. simpl in E2.
  destruct (set_bindings_known _ _ _ b E2) as [[? H]|H]; [by rewrite Eb|done|].
  by eapply registry_facts_known.
Qed.

Context (load_errors : forall i e, load i = Raise e -> ~ denial e).

Lemma load_tame P : tame (fun w => P (sv_store w)) (load_registry load).
Proof.
  intros w r w'. unfold load_registry. destruct (load (sv_loads w)) as [x|e] eqn:E; intros [= <- <-] HP;
    (split; [done|]); [done|]. intros ? [= <-]. eauto.
Qed.
Lemma bind_tame {A B} (P : service_world -> Prop) (m : ST service_world A) (f : A -> ST service_world B) :
  tame P m -> (forall a, tame P (f a)) -> tame P (m ≫= f).
Proof.
  intros Hm Hf w r w' E HP. cases E as a w1 E1; destruct (Hm _ _ _ E1 HP) as [HP1 H1].
  - by apply (Hf _ _ _ _ E).
  - split; [done|]. intros e ->. simplify_eq. eauto.
Qed.
Lemma ret_tame {A} (P : service_world -> Prop) (a : A) : tame P (mret a).
Proof. by intros w r w' [= <- <-]. Qed.
Lemma live_authorize_tame P rq : tame (fun w => P (sv_store w)) (live_authorize sha256 load is_dir rq).
Proof.
  apply bind_tame; [apply load_tame|]. intros [i snap]. apply bind_tame; [|intros; apply ret_tame].
  intros w r w' [= <- <-] HP. split; [done|]. intros e He. exfalso. revert He.
  unfold build_authorizer. simpl. by destruct (set_bindings_total (registry_facts (is_dir i) snap) (mkAuthorizer [])) as [a ->].
Qed.

Lemma inspect_cases raw p inst now s r s' : store_ok sha256 s ->
  inspect_selection raw p inst now s = (r, s') ->
  match r with
  | Ok sel => (exists o, od_get (cs_records s') raw = Some (o, sel)) /\
              sr_selection_capability_digest sel = selection_capability_digest sha256 raw
  | Raise e => ~ denial e
  end.
Proof.
  intros Hs E. unfold inspect_selection in E. cases E as [o sel] s1 E1; apply require_inv in E1 as [-> H].
  - injection E as <- <-. destruct H as [H _]. split; [eauto|]. apply od_get_elem in H.
    destruct (thinned_ok sha256 (live_at now) s Hs) as [_ Hf].
    by apply (proj1 (Forall_forall _ _) Hf) in H as [_ ?].
  - subst r. intros (v & i & ->). by destruct H as [[_ ?]|?].
Qed.

Lemma invalidate_drops raw o sel s s' d : store_ok sha256 s -> od_get (cs_records s) raw = Some (o, sel) ->
  sr_selection_capability_digest sel = d -> invalidate_digest d s = (Ok tt, s') ->
  od_get (cs_records s') raw = None.
Proof.
  intros [Hn _] Hr Hd [= <-]. simpl. rewrite od_get_filter by done. rewrite Hr. simpl. by rewrite Hd, String.eqb_refl.
Qed.

Definition stored (raw : string) (o : nat) (rec : ContextSelectionRecord) (s : ContextSelectionStore) : Prop :=
  store_ok sha256 s /\ od_get (cs_records s) raw = Some (o, rec).

Lemma load_later : moves later (load_registry load).
Proof. intros w r w'. unfold load_registry, later. destruct (load _); intros [= _ <-]; simpl; lia. Qed.
Lemma bind_later {A B} (m : ST service_world A) (f : A -> ST service_world B) :
  moves later m -> (forall a, moves later (f a)) -> moves later (m ≫= f).
Proof.
  intros Hm Hf w r w' E. cases E as a w1 E1; apply Hm in E1; [|done]. etrans; [done|]. by eapply Hf.
Qed.
Lemma lift_later {A} (x : res A) : moves later (st_lift x).
Proof. intros w r w' [= _ <-]. done. Qed.
Lemma ret_later {A} (a : A) : moves later (mret a).
Proof. intros w r w' [= _ <-]. done. Qed.
#[local] Hint Resolve load_later bind_later lift_later ret_later load_tame bind_tame ret_tame live_authorize_tame : core.

(** A bearer means its own selection and grants nothing.  A request that
    presents one is answered with a snapshot only from the unexpired selection
    of that bearer, principal and instance, never from a default: every binding
    of the selection was found in the registry during this request, for a
    resolved principal; the snapshot holds no other binding; and if it can
    carry an effect it holds them all.  If a member is denied, the bearer is
    dropped from the store. *)
Theorem bearer_means_its_selection derived session override action wc perm now w r w' raw :
  store_ok sha256 (sv_store w) ->
  (match override with Some b => Some b | None => session end) = Some raw ->
  resolve_request_context sha256 load is_dir derived session override action wc perm now w = (r, w') ->
  match r with
  | Ok res => exists sel, let c := rr_snapshot res in
      fst (inspect_selection raw (dc_principal derived) (dc_instance_identity derived) now (sv_store w)) = Ok sel /\
      ac_context_id c = sr_context_id sel /\ ac_principal_context c = dc_principal derived /\
      ac_selection_capability_digest c = Some (selection_capability_digest sha256 raw) /\
      (forall b, b ∈ sr_binding_ids sel ->
         pc_principal_id (dc_principal derived) <> "" /\ registered_during w w' b) /\
      (forall b, b ∈ context_binding_ids c -> b ∈ sr_binding_ids sel) /\
      (require_effect_capable c = Ok tt -> context_binding_ids c = sr_binding_ids sel)
  | Raise e => denial e -> od_get (cs_records (sv_store w')) raw = None
  end.
Proof.
  intros Hs Hb E. unfold resolve_request_context in E. rewrite Hb in E.
  cases E as sel w1 E1.
  2: { subst r. intros D. unfold service_inspect in E1. cases E1 as y w9 E2; [done|].
       unfold on_store in E2. destruct (inspect_selection _ _ _ _ _) as [r0 s0] eqn:Ei. simplify_eq.
       by apply (inspect_cases _ _ _ _ _ _ _ Hs) in Ei. }
  run E1 as rec w1' Ei. injection E1 as <- <-. unfold service_inspect, on_store in Ei.
  destruct (inspect_selection _ _ _ _ _) as [r0 s0] eqn:Ei0. injection Ei as -> <-.
  destruct (inspect_cases _ _ _ _ _ _ _ Hs Ei0) as [[o Ho] Hd].
  assert (Hs0 : store_ok sha256 s0).
  { unfold inspect_selection in Ei0. run Ei0 as x s1 E1. injection Ei0 as _ <-. apply require_inv in E1 as [-> _].
    by apply thinned_ok. }
  cases E as [j snap] w2 E2.
  2: { subst r. intros D. exfalso. destruct (load_tame (fun _ => True) _ _ _ E2 I) as [_ H]. by apply (H _ eq_refl). }
  assert (H2 : sv_store w2 = s0).
  { unfold load_registry in E2. destruct (load _); by simplify_eq. }
  cases E as rv w3 E3; [|unfold on_store, request_resolver, st_get, mbind, ST_bind in E3; by case_match; simplify_eq; case_match].
  assert (H3 : (sv_loads w <= sv_loads w3)%nat /\ store_ok sha256 (sv_store w3) /\
               od_get (cs_records (sv_store w3)) raw = Some (o, rec)).
  { apply load_later in E2. unfold later in E2. simpl in E2. revert E3. subst s0.
    unfold on_store, request_resolver, st_get, mbind, ST_bind.
    destruct (od_get (cs_request_resolvers (sv_store w2)) _); intros E3; injection E3 as _ <-; by split_and!. }
  destruct H3 as (L3 & Hs3 & R3). unfold resolve_with in E.
  destruct (resolve _ _ _ _ _ _ _) as [r1 [rv' w4]] eqn:Er. injection E as <- <-.
  destruct r1 as [res|e].
  - apply (resolve_sound _ _ _ _ _ later) in Er; cbn zeta in Er.
    2, 3: apply bind_later; [auto|intros []; auto].
    2: intros; apply bind_later; [auto|intros []; auto].
    2: { intros x facts x' F. unfold live_facts in F. run F as [i sn] x1 F1. injection F as <- _.
         apply registry_facts_filed. }
    destruct Er as (Hc & Hp & Hdg & Ha & Hi & He).
    exists rec. simpl in *. rewrite Hc, Hp, Hdg, <- Hd. split_and!; try done.
    intros b Hb'. destruct (Ha b Hb') as [v Hv]. apply live_admits in Hv as (? & i & sn & ? & ? & ?).
    split; [done|]. exists i, sn. simpl in *. split_and!; [lia|lia|done|done].
  - intros D. eapply (resolve_denied _ _ _ _ _ (fun w => stored raw o rec (sv_store w))) in Er as (w5 & [Hs5 Hr5] & Hi); try done.
    + simpl in Hi |- *. unfold on_store in Hi. destruct (invalidate_digest _ (sv_store w5)) as [x s5] eqn:Ed.
      injection Hi as -> <-. simpl. by apply (invalidate_drops raw o rec (sv_store w5) s5 _ Hs5 Hr5 eq_refl Ed).
    + apply bind_tame; [apply (load_tame (stored raw o rec))|intros []; auto].
    + apply bind_tame; [apply (load_tame (stored raw o rec))|intros []; auto].
    + intros d x. unfold on_store. simpl. by eexists.
Qed.
End ServiceProps.

(** ** Concrete runs *)
Module ContextRun.
Definition sha (x : string) : string := x.
Definition secs (z : Z) : spec_float := binary_normalize 53 1024 z 0 false.
Definition principal : PrincipalContext := mkPrincipal "op" "delegated_operator_role" "trusted_loopback" 0.
Definition derived : DerivedContext := mkDerived principal "inst" WorkspaceState_none "default" [] None.
Definition registry (revision : Z) (ids : list string) : RegistrySnapshot :=
  mkRegistry CURRENT_REGISTRY_SCHEMA REGISTRY_AUTHORITY_DORMANT revision "inst" None
    (map (fun b => (b, mkRegistration b b ("/" +:+ b) None None None None [])) ids) [] [] None [] (Some "b")
    (Some DEFAULT_PROVENANCE_EXPLICIT).
Definition dirs (i : nat) (path : string) : bool := true.

(** *** A session *)
Definition inputs (ids : list string) : selection_inputs :=
  mkInputs principal "inst" WorkspaceState_none "default" [] None ids None.
Definition session : ContextSelectionStore :=
  Eval vm_compute in snd (create sha "raw" "u1" (secs 10) (secs 10) (inputs ["b"]) (new_store (secs 100))).
Definition ops : list store_op :=
  [SReplace "raw" principal "inst" ["b"; "c"] None (secs 20); SInvalidate "other";
   SCreate "raw2" "u2" (secs 30) (secs 30) (inputs []); SClear "raw2" principal "inst" (secs 31)].

Lemma session_ok : store_ok sha session.
Proof.
  split; [apply NoDup_singleton|]. apply Forall_singleton. split; [simpl; lia|reflexivity].
Qed.

Definition inspected : res ContextSelectionRecord * ContextSelectionStore :=
  Eval vm_compute in inspect_selection "raw" principal "inst" (secs 40) (store_after sha ops session).

Lemma selection_lifetime_run :
  exists r, fst inspected = Ok r /\ sr_binding_ids r = ["b"; "c"] /\ SFleb (sr_expires_at r) (secs 40) = false.
Proof.
  eexists. split; [reflexivity|]. split; [reflexivity|].
  eapply (selection_lifetime sha "raw" ops session principal "inst" (secs 40) _ (snd inspected) session_ok).
  - repeat constructor.
  - vm_compute. reflexivity.
Defined.

(** *** A request *)
Definition quiet_load (i : nat) : res RegistrySnapshot := Ok (registry 5 ["b"; "c"]).
Definition world : service_world := mkService (store_after sha ops session) 0.
Definition requested : res ResolutionResult * service_world :=
  Eval vm_compute in resolve_request_context sha quiet_load dirs derived (Some "gone") (Some "raw")
    "note.write" "write" "perm" (secs 40) world.

Lemma world_ok : store_ok sha (sv_store world).
Proof.
  change (store_ok sha (store_after sha ops session)).
  refine (proj1 (store_after_entry sha "none" ops session session_ok _)). repeat constructor.
Qed.

Lemma bearer_means_its_selection_run :
  exists res, fst requested = Ok res /\ context_binding_ids (rr_snapshot res) = ["b"; "c"] /\
    registered_during quiet_load world (snd requested) "c".
Proof.
  eexists. split; [reflexivity|]. split; [reflexivity|].
  destruct (bearer_means_its_selection sha quiet_load dirs (fun i e H => match H in _ = x return match x with Ok _ => True | Raise _ => ~ denial e end with eq_refl => I end)
    derived (Some "gone") (Some "raw") "note.write" "write" "perm" (secs 40) world (fst requested) (snd requested) "raw"
    world_ok eq_refl) as (sel & Hsel & _ & _ & _ & Hb & _); [vm_compute; reflexivity|].
  apply (Hb "c"). vm_compute in Hsel. injection Hsel as <-. simpl. right. left.
Defined.

(** *** Drift *)
Definition default_request : resolve_inputs := mkResolve None principal "note.read" "read" "perm" (Some "b").
Definition drift_load (i : nat) : res RegistrySnapshot := Ok (registry (if (i <? 6)%nat then 5 else 6) ["b"]).
Abbreviation resolved load rq := (resolve sha (live_facts load dirs) (live_revision load)
  (live_authorize sha load dirs) (fun d => on_store (invalidate_digest d)) rq).
Definition first := Eval vm_compute in resolved drift_load default_request (new_resolver "inst", mkService (new_store (secs 100)) 0).
Definition third := Eval vm_compute in
  resolved drift_load default_request (snd (resolved drift_load default_request (snd first))).

Lemma generations_identify_run :
  exists r1 r3, fst first = Ok r1 /\ fst third = Ok r3 /\
    ac_generation (rr_snapshot r1) = 1 /\ ac_generation (rr_snapshot r3) = 2 /\
    ac_generation (rr_snapshot r1) <= ac_generation (rr_snapshot r3).
Proof.
  eexists _, _. split; [reflexivity|]. split; [reflexivity|]. split; [reflexivity|]. split; [reflexivity|].
  refine (proj1 (generations_identify sha (live_facts drift_load dirs) (live_revision drift_load)
    (live_authorize sha drift_load dirs) (fun d => on_store (invalidate_digest d)) default_request [default_request]
    default_request (new_resolver "inst", mkService (new_store (secs 100)) 0) _ (snd first) _ (snd third) _ _ _ _ _)).
  - vm_compute. reflexivity.
  - split; [|exact I]. intros _. split; [reflexivity|]. intros e H. vm_compute in H. discriminate H.
  - vm_compute. reflexivity.
  - vm_compute. reflexivity.
  - reflexivity.
Defined.

(** *** Generations that are reused *)

(** The binding is removed after the request read its default, and registered
    again with another revision before the next request. *)
Definition flapping_load (i : nat) : res RegistrySnapshot :=
  Ok (if (i <? 5)%nat then registry 5 ["b"] else if (i <? 8)%nat then registry 6 [] else registry 9 ["b"]).
Definition ask (w : service_world) : res ResolutionResult * service_world :=
  resolve_request_context sha flapping_load dirs derived None None "note.read" "read" "perm" (secs 40) w.
Definition ask1 := ask (mkService (new_store (secs 100)) 0).
Definition ask2 := ask (snd ask1).
Definition ask3 := ask (snd ask2).

(** A request that read its selection before the bindings were replaced goes on
    after another request resolved the replacement, and the registry moved. *)
Definition selection (generation : Z) (b : string) : ContextSelectionRecord :=
  mkSelection "ctx_u1" generation "d" principal "inst" WorkspaceState_none "default" [] None [b]
    (secs 10) (secs 110) None.
Definition session_request (sel : ContextSelectionRecord) : resolve_inputs :=
  mkResolve (Some sel) principal "note.read" "read" "perm" None.
Definition moving_load (i : nat) : res RegistrySnapshot := Ok (registry (if (i <? 6)%nat then 5 else 6) ["b"; "c"]).
Definition step (generation : Z) (b : string) (s : ActiveContextSelectionResolver * service_world) :=
  resolved moving_load (session_request (selection generation b)) s.
Definition old1 := step 1 "b" (new_resolver "inst", mkService (new_store (secs 100)) 0).
Definition new2 := step 2 "c" (snd old1).
Definition old3 := step 1 "b" (snd new2).

(** The two premises of [generations_identify] are needed, and the code does
    not ensure them.  A denial forgets the identity of the context without
    rotating it: the instance default, denied once and admitted again at
    another binding revision, keeps its generation, and no invalidation is
    announced.  And a request that still holds an older selection rotates to a
    generation that the newer selection already has, with other bindings. *)
Theorem generation_reused :
  (exists r1 e r3, fst ask1 = Ok r1 /\ fst ask2 = Raise e /\ denial e /\ fst ask3 = Ok r3 /\
     ac_context_id (rr_snapshot r1) = ac_context_id (rr_snapshot r3) /\
     ac_generation (rr_snapshot r1) = ac_generation (rr_snapshot r3) /\
     map cb_binding_revision (ac_source_bindings (rr_snapshot r1)) = [5] /\
     map cb_binding_revision (ac_source_bindings (rr_snapshot r3)) = [9] /\ rr_invalidation r3 = None) /\
  (exists r2 r3, fst new2 = Ok r2 /\ fst old3 = Ok r3 /\
     ac_context_id (rr_snapshot r2) = ac_context_id (rr_snapshot r3) /\
     ac_generation (rr_snapshot r2) = 2 /\ ac_generation (rr_snapshot r3) = 2 /\
     context_binding_ids (rr_snapshot r2) = ["c"] /\ context_binding_ids (rr_snapshot r3) = ["b"]).
Proof.
  split.
  - destruct (fst ask1) as [r1|] eqn:E1; vm_compute in E1; [|done]. injection E1 as <-.
    destruct (fst ask2) as [|e] eqn:E2; vm_compute in E2; [done|]. injection E2 as <-.
    destruct (fst ask3) as [r3|] eqn:E3; vm_compute in E3; [|done]. injection E3 as <-.
    eexists _, _, _. split_and!; try reflexivity. by eexists _, _.
  - destruct (fst new2) as [r2|] eqn:E2; vm_compute in E2; [|done]. injection E2 as <-.
    destruct (fst old3) as [r3|] eqn:E3; vm_compute in E3; [|done]. injection E3 as <-.
    eexists _, _. by split_and!.
Qed.
End ContextRun.
