(* ===== verification/VaultDimensions.v ===== *)
(** * The dimension service

    src/app/instance/vault_dimensions.py: [VaultDimensionService] over the
    registry store, and the entry points of
    src/app/instance/active_context_service.py that select by a dimension.

    A mutation loads the registry and commits under another locked section, so
    it is written as its load followed by the rest ([create_from] and the
    like): between the two anybody may change the registry. *)
From Stdlib Require Import SpecFloat.
From S2P Require Import Prelude PyValue Sql SettingsRebind VaultRegistry DimensionState RegistryStore ActiveContext ContextSelection.
Open Scope Z_scope.

Definition REASON_DIMENSION_UNKNOWN : string := "dimension_unknown".
Definition REASON_MEMBER_UNREGISTERED : string := "dimension_member_unregistered".
Definition REASON_MEMBER_UNAUTHORIZED : string := "dimension_member_unauthorized".
Definition REASON_DIMENSION_EMPTY : string := "dimension_empty".

Definition dimension_redacted (d : VaultDimension) : pydict :=
  [("dimension_id", PStr (vd_dimension_id d)); ("display_name", PStr (vd_display_name d));
   ("dimension_revision", PInt (vd_revision d)); ("vault_binding_ids", PList (map PStr (vd_members d)))]
  ++ match vd_last_repair d with Some r => [("last_repair", PDict r)] | None => [] end.

Record ResolvedMember : Type := mkMember {
  rm_vault_binding_id : string;
  rm_binding_revision : Z;
  rm_authorization_epoch : string;
  rm_vault_id : option string;
  rm_local_instance_id : option string;
  rm_label : option string }.
Record DimensionResolution : Type := mkDimensionResolution {
  dr_dimension_id : string;
  dr_dimension_revision : Z;
  dr_members : list ResolvedMember;
  dr_verdicts : list BindingVerdict }.
Definition resolution_binding_ids (r : DimensionResolution) : list string := map rm_vault_binding_id (dr_members r).
Definition as_filter (r : DimensionResolution) : res DimensionFilter :=
  DimensionFilter_make (mkDimensionFilter (dr_dimension_id r) (dr_dimension_revision r)).

Record DimensionReceipt : Type := mkDimensionReceipt {
  dt_dimension_id : string;
  dt_changed : bool;
  dt_registry_revision : Z;
  dt_dimension : option VaultDimension;
  dt_previous_members : list string;
  dt_removed_members : list string }.
Definition receipt_as_dict (r : DimensionReceipt) : pydict :=
  let payload := [("dimension_id", PStr (dt_dimension_id r)); ("changed", PBool (dt_changed r));
    ("registry_revision", PInt (dt_registry_revision r));
    ("previous_vault_binding_ids", PList (map PStr (dt_previous_members r)))] in
  let payload := match dt_removed_members r with
    | [] => payload
    | removed => dict_set payload "removed_vault_binding_ids" (PList (map PStr removed))
    end in
  match dt_dimension r with
  | Some d => dict_merge payload (dimension_redacted d)
  | None => dict_set payload "deleted" (PBool true)
  end.
(** The payload of the event a mutation publishes. *)
Definition dimension_event_payload (r : DimensionReceipt) : pydict :=
  [("event_version", PInt 1); ("registry_revision", PInt (dt_registry_revision r));
   ("dimension_id", PStr (dt_dimension_id r));
   ("dimension_revision", match dt_dimension r with Some d => PInt (vd_revision d) | None => PNone end);
   ("deleted", PBool (bool_decide (dt_dimension r = None)));
   ("member_count", PInt (match dt_dimension r with Some d => Z.of_nat (length (vd_members d)) | None => 0 end))].

Record DimensionRecoveryReceipt : Type := mkRecoveryReceipt {
  dv_old_registry_revision : Z;
  dv_new_registry_revision : Z }.

Definition _require_dimension (dimensions : list (string * VaultDimension)) (dimension_id : string)
  : res VaultDimension :=
  match dict_get dimensions dimension_id with
  | None => Raise (DimensionResolutionError REASON_DIMENSION_UNKNOWN dimension_id None)
  | Some dimension => Ok dimension
  end.
Definition _require_registered (snapshot : RegistrySnapshot) (members : list string) : res unit :=
  raise_if (existsb (fun m => negb (dict_mem (rg_registrations snapshot) m)) members)
    (VaultDimensionError "proposed dimension member is not a current registration").

(** ** Resolution *)

(** The caller's own inputs to the authority, the same for every member. *)
Record decision_inputs : Type := mkDecision {
  di_principal : PrincipalContext;
  di_action : string;
  di_write_class : string;
  di_required_permission : string }.

Section Resolve.
Context (authorize : BindingAuthorizationRequest -> res BindingVerdict).

Fixpoint resolve_dimension_members (target : string) (inputs : decision_inputs) (current : RegistrySnapshot)
    (member_ids : list string) : res (list (ResolvedMember * BindingVerdict)) :=
  match member_ids with
  | [] => Ok []
  | binding_id :: member_ids =>
      verdict ← authorize (mkBindingRequest (di_principal inputs) binding_id (di_action inputs)
                             (di_write_class inputs) (di_required_permission inputs));
      _ ← raise_if (negb (allowed verdict))
            (DimensionResolutionError
               (if String.eqb (bv_reason verdict) DENY_BINDING_UNKNOWN then REASON_MEMBER_UNREGISTERED
                else REASON_MEMBER_UNAUTHORIZED) target (Some binding_id));
      match dict_get (rg_registrations current) binding_id with
      | None => Raise (DimensionResolutionError REASON_MEMBER_UNREGISTERED target (Some binding_id))
      | Some registration =>
          rest ← resolve_dimension_members target inputs current member_ids;
          Ok ((mkMember binding_id (binding_revision_for current binding_id) (bv_epoch verdict)
                 (vg_vault_id registration) (vg_local_instance_id registration) (vg_vault_name registration),
               verdict) :: rest)
      end
  end.
Definition dimension_resolve (dimension_id : string) (inputs : decision_inputs) (current : RegistrySnapshot)
  : res DimensionResolution :=
  target ← _validate_dimension_id dimension_id;
  dimensions ← parse_dimensions (rg_extensions current);
  dimension ← _require_dimension dimensions target;
  _ ← raise_if (bool_decide (vd_members dimension = []))
        (DimensionResolutionError REASON_DIMENSION_EMPTY target None);
  resolved ← resolve_dimension_members target inputs current (vd_members dimension);
  Ok (mkDimensionResolution target (vd_revision dimension) (map fst resolved) (map snd resolved)).
End Resolve.

(** ** Administration *)

Section Administration.
Context (sha256_hex : string -> string) (emit_event : option (DimensionReceipt -> res unit)).

Definition _load (env : call_env) : ST registry (RegistrySnapshot * list (string * VaultDimension)) :=
  current ← load sha256_hex env;
  dimensions ← st_lift (parse_dimensions (rg_extensions current));
  mret (current, dimensions).

Definition dimension_list (env : call_env) : ST registry (list VaultDimension) :=
  '(_, dimensions) ← _load env; mret (map snd (sort_keys dimensions)).
Definition dimension_inspect (env : call_env) (dimension_id : string) : ST registry VaultDimension :=
  target ← st_lift (_validate_dimension_id dimension_id);
  '(_, dimensions) ← _load env;
  st_lift (_require_dimension dimensions target).

Definition _commit (env : call_env) (current : RegistrySnapshot) (dimensions : list (string * VaultDimension))
    (dimension_id : string) (previous_members removed_members : list string) (deleted : bool)
  : ST registry DimensionReceipt :=
  updated ← set_dimension_state sha256_hex env (serialize_dimensions dimensions) (Some (rg_revision current));
  dimension ← (if deleted then mret None else
               dimensions ← st_lift (parse_dimensions (rg_extensions updated));
               match dict_get dimensions dimension_id with
               | Some d => mret (Some d)
               | None => st_raise (KeyError dimension_id)
               end);
  let receipt := mkDimensionReceipt dimension_id true (rg_revision updated) dimension previous_members removed_members in
  _ ← match emit_event with Some emit => st_lift (emit receipt) | None => mret tt end;
  mret receipt.

Definition unchanged (target : string) (current : RegistrySnapshot) (existing : VaultDimension) : DimensionReceipt :=
  mkDimensionReceipt target false (rg_revision current) (Some existing) (vd_members existing) [].

Definition loaded : Type := RegistrySnapshot * list (string * VaultDimension).

Definition create_from (target name : string) (proposed : list string) (env : call_env) (l : loaded)
  : ST registry DimensionReceipt :=
  let '(current, dimensions) := l in
  _ ← guard_not (dict_mem dimensions target) (VaultDimensionError "dimension already exists");
  _ ← guard_not (Nat.leb MAX_DIMENSIONS (length dimensions))
        (VaultDimensionError "an instance holds at most 256 dimensions");
  _ ← st_lift (_require_registered current proposed);
  _commit env current (dict_set dimensions target (mkDimension target name 1 proposed None)) target [] [] false.
Definition rename_from (target name : string) (env : call_env) (l : loaded) : ST registry DimensionReceipt :=
  let '(current, dimensions) := l in
  existing ← st_lift (_require_dimension dimensions target);
  if String.eqb (vd_display_name existing) name then mret (unchanged target current existing) else
  _commit env current
    (dict_set dimensions target
       (mkDimension target name (vd_revision existing + 1) (vd_members existing) (vd_last_repair existing)))
    target (vd_members existing) [] false.
Definition set_members_from (target : string) (proposed : list string) (env : call_env) (l : loaded)
  : ST registry DimensionReceipt :=
  let '(current, dimensions) := l in
  existing ← st_lift (_require_dimension dimensions target);
  _ ← st_lift (_require_registered current proposed);
  if bool_decide (vd_members existing = proposed) then mret (unchanged target current existing) else
  _commit env current
    (dict_set dimensions target
       (mkDimension target (vd_display_name existing) (vd_revision existing + 1) proposed (vd_last_repair existing)))
    target (vd_members existing) [] false.
Definition remove_member_from (target member : string) (env : call_env) (l : loaded) : ST registry DimensionReceipt :=
  let '(current, dimensions) := l in
  existing ← st_lift (_require_dimension dimensions target);
  _ ← guard_not (negb (existsb (String.eqb member) (vd_members existing)))
        (VaultDimensionError "binding is not a member of dimension");
  _commit env current
    (dict_set dimensions target
       (mkDimension target (vd_display_name existing) (vd_revision existing + 1)
          (List.filter (fun item => negb (String.eqb item member)) (vd_members existing)) (vd_last_repair existing)))
    target (vd_members existing) [member] false.
Definition delete_from (target : string) (env : call_env) (l : loaded) : ST registry DimensionReceipt :=
  let '(current, dimensions) := l in
  existing ← st_lift (_require_dimension dimensions target);
  _commit env current (dict_pop dimensions target) target (vd_members existing) (vd_members existing) true.

(** The mutations of the service with their arguments. *)
Inductive dimension_call : Type :=
  | DCreate (dimension_id display_name : string) (members : list string)
  | DRename (dimension_id display_name : string)
  | DSetMembers (dimension_id : string) (members : list string)
  | DRemoveMember (dimension_id vault_binding_id : string)
  | DDelete (dimension_id : string).

(** What a mutation checks before its load: the rest of it. *)
Definition checked (c : dimension_call) : res (call_env -> loaded -> ST registry DimensionReceipt) :=
  match c with
  | DCreate dimension_id display_name members =>
      target ← _validate_dimension_id dimension_id;
      name ← _validate_display_name display_name;
      proposed ← _validate_members members;
      Ok (create_from target name proposed)
  | DRename dimension_id display_name =>
      target ← _validate_dimension_id dimension_id;
      name ← _validate_display_name display_name;
      Ok (rename_from target name)
  | DSetMembers dimension_id members =>
      target ← _validate_dimension_id dimension_id;
      proposed ← _validate_members members;
      Ok (set_members_from target proposed)
  | DRemoveMember dimension_id vault_binding_id =>
      target ← _validate_dimension_id dimension_id;
      _ ← raise_if (String.eqb (strip vault_binding_id) "") (VaultDimensionError "vault_binding_id is required");
      Ok (remove_member_from target (strip vault_binding_id))
  | DDelete dimension_id =>
      target ← _validate_dimension_id dimension_id;
      Ok (delete_from target)
  end.
(** A mutation with nobody in between. *)
Definition mutate (load_env env : call_env) (c : dimension_call) : ST registry DimensionReceipt :=
  rest ← st_lift (checked c);
  l ← _load load_env;
  rest env l.

Definition recover_malformed_dimensions (load_env env : call_env) (expected_registry_revision : pyval)
  : ST registry DimensionRecoveryReceipt :=
  match expected_registry_revision with
  | PInt expected =>
      _ ← guard_not (expected <? 0)
            (VaultDimensionError "expected_registry_revision must be a non-negative integer");
      current ← load sha256_hex load_env;
      _ ← guard_not (negb (rg_revision current =? expected)) (RegistryRevisionConflict "reload before retry");
      match parse_dimensions (rg_extensions current) with
      | Ok _ => st_raise (VaultDimensionError "registry dimensions recovery requires malformed dimensions state")
      | Raise (RegistryException VaultDimensionErr _) =>
          updated ← remove_dimension_state sha256_hex env expected;
          mret (mkRecoveryReceipt (rg_revision current) (rg_revision updated))
      | Raise e => st_raise e
      end
  | _ => st_raise (VaultDimensionError "expected_registry_revision must be a non-negative integer")
  end.
End Administration.

(** ** Selecting by a dimension *)

Definition ACTION_DIMENSION_RESOLVE : string := "active_context.dimension.resolve".
Definition WRITE_CLASS_READ : string := "read".
Definition PERMISSION_SELECTION_MANAGE : string := "wsp.active_context.manage_selection".
Definition SelectionIntentError : exn := OtherException "SelectionIntentError".

Section Selecting.
Context (sha256 : string -> string) (load : nat -> res RegistrySnapshot) (is_dir : nat -> string -> bool).

Definition resolve_dimension (derived : DerivedContext) (dimension_id : string)
  : ST service_world DimensionResolution :=
  '(i, snapshot) ← load_registry load;
  a ← st_lift (build_authorizer (is_dir i) snapshot);
  st_lift (dimension_resolve (fun request => Ok (registry_authorize sha256 a request)) dimension_id
    (mkDecision (dc_principal derived) ACTION_DIMENSION_RESOLVE WRITE_CLASS_READ PERMISSION_SELECTION_MANAGE)
    snapshot).

Definition _resolve_selection_intent (derived : DerivedContext) (binding_ids : list string)
    (dimension_id : option string) : ST service_world (list string * option DimensionFilter) :=
  _ ← guard_not (match dimension_id with Some d => String.eqb (strip d) "" | None => false end)
        SelectionIntentError;
  match dimension_id with
  | Some d =>
      _ ← guard_not (bool_decide (binding_ids <> [])) SelectionIntentError;
      resolution ← resolve_dimension derived (strip d);
      filter ← st_lift (as_filter resolution);
      mret (resolution_binding_ids resolution, Some filter)
  | None =>
      _ ← validate_bindings load binding_ids;
      mret (binding_ids, None)
  end.

Definition selection_of (derived : DerivedContext) (binding_ids : list string) (filter : option DimensionFilter)
  : selection_inputs :=
  mkInputs (dc_principal derived) (dc_instance_identity derived) (dc_workspace derived) (dc_scope derived)
    (dc_sphere_memberships derived) (dc_situated_identity derived) binding_ids filter.
Definition service_create (derived : DerivedContext) (binding_ids : list string) (dimension_id : option string)
    (raw_id uuid : string) (now pruned_at : spec_float) : ST service_world (string * ContextSelectionRecord) :=
  '(resolved_ids, filter) ← _resolve_selection_intent derived binding_ids dimension_id;
  on_store (create sha256 raw_id uuid now pruned_at (selection_of derived resolved_ids filter)).
Definition service_replace (derived : DerivedContext) (raw_id : string) (binding_ids : list string)
    (dimension_id : option string) (now : spec_float) : ST service_world ContextSelectionRecord :=
  '(resolved_ids, filter) ← _resolve_selection_intent derived binding_ids dimension_id;
  on_store (replace_bindings raw_id (dc_principal derived) (dc_instance_identity derived) resolved_ids filter now).
End Selecting.
