(* ===== verification/DimensionProps.v ===== *)
(** * Properties of vault dimensions

    The stored form round-trips; an update of the service acts on the groups
    stored at the moment it commits, however calls interleave; in every
    orderly history the members of a dimension are registered; a dimension
    resolves to its members or not at all. *)
From S2P Require Import Prelude PyValue Sql SettingsRebind VaultRegistry DimensionState RegistryStore RegistryProps ActiveContext ContextSelection VaultDimensions.
Open Scope Z_scope.

(** ** Validators *)

Definition member_ok (m : string) : Prop := strip m = m /\ m <> "".
Definition members_ok (l : list string) : Prop :=
  NoDup l /\ Forall member_ok l /\ (length l <= MAX_MEMBERS)%nat.


Lemma ordered_members_ok ms acc l : ordered_members ms acc = Ok l ->
  NoDup acc -> Forall member_ok acc -> NoDup l /\ Forall member_ok l.
Proof.
  revert acc. induction ms as [|m ms IH]; intros acc; simpl.
  { by intros [= ->]. }
  intros H Hn Hf. bound H as u1 E1. bound H as u2 E2. apply raise_if_ok in E1, E2. bool_prop.
  apply (IH _ H).
  - apply NoDup_app. split; [done|]. split; [|apply NoDup_singleton].
    intros x Hx ->%list_elem_of_singleton. apply existsb_eqb_In in Hx. congruence.
  - apply Forall_app. split; [done|]. constructor; [|done]. split; [apply strip_idem|done].
Qed.
Lemma ordered_members_id ms acc : NoDup (acc ++ ms) -> Forall member_ok ms -> ordered_members ms acc = Ok (acc ++ ms).
Proof.
  revert acc. induction ms as [|m ms IH]; intros acc Hn Hf; simpl; [by rewrite app_nil_r|].
  inversion_clear Hf as [|? ? [Hs Hne] Hf']. rewrite Hs, (proj2 (String.eqb_neq m "")) by done. simpl.
  destruct (existsb (String.eqb m) acc) eqn:E; simpl.
  { apply existsb_eqb_In in E. apply NoDup_app in Hn as (_ & Hd & _). destruct (Hd m E). by left. }
  rewrite IH; [by rewrite <- app_assoc|by rewrite <- app_assoc|done].
Qed.
Lemma validate_members_ok ms l : _validate_members ms = Ok l -> members_ok l.
Proof.
  unfold _validate_members. intros H. bound H as o E. bound H as u Eu. injection H as ->.
  apply ordered_members_ok in E as [Hn Hf]; [|constructor|constructor]. apply raise_if_ok in Eu.
  split; [done|split; [done|]]. by apply Nat.ltb_ge.
Qed.
Lemma validate_members_id l : members_ok l -> _validate_members l = Ok l.
Proof.
  intros (Hn & Hf & Hl). unfold _validate_members. rewrite (ordered_members_id l []) by done. simpl.
  by rewrite (proj2 (Nat.ltb_ge _ _) Hl).
Qed.

Lemma validate_id_ok v k : _validate_dimension_id v = Ok k -> _validate_dimension_id k = Ok k.
Proof.
  unfold _validate_dimension_id. intros H. bound H as u E. injection H as <-. rewrite strip_idem. by rewrite E.
Qed.
Lemma validate_name_ok v n : _validate_display_name v = Ok n -> _validate_display_name n = Ok n.
Proof.
  unfold _validate_display_name. intros H. bound H as u1 E1. bound H as u2 E2. bound H as u3 E3. injection H as <-.
  rewrite strip_idem, E1. simpl. rewrite E2. simpl. by rewrite E3.
Qed.
Lemma validate_name_ne n : _validate_display_name n = Ok n -> n <> "".
Proof. by intros H ->. Qed.

(** ** Stored groups *)

Definition groups : Type := list (string * VaultDimension).
Definition dimension_ok (k : string) (d : VaultDimension) : Prop :=
  vd_dimension_id d = k /\ _validate_dimension_id k = Ok k
  /\ _validate_display_name (vd_display_name d) = Ok (vd_display_name d) /\ 1 <= vd_revision d
  /\ members_ok (vd_members d)
  /\ match vd_last_repair d with Some r => yaml_norm (PDict r) = PDict r | None => True end.
Definition groups_ok (g : groups) : Prop :=
  NoDup (map fst g) /\ Forall (fun kd => dimension_ok (fst kd) (snd kd)) g.

(** The groups a value of the dimensions slot holds. *)
Definition groups_of (v : pyval) : res groups := parse_dimensions [("dimensions", v)].
Lemma parse_groups ext : parse_dimensions ext = groups_of (get ext "dimensions").
Proof. done. Qed.

Lemma dict_set_elem {A} (d : list (string * A)) k v x : x ∈ dict_set d k v -> x = (k, v) \/ x ∈ d.
Proof.
  induction d as [|[j w] d IH]; simpl; [rewrite list_elem_of_singleton; auto|].
  destruct (String.eqb k j) eqn:E; rewrite !elem_of_cons; [|naive_solver].
  apply String.eqb_eq in E as <-. naive_solver.
Qed.
Lemma dict_pop_keys {A} (d : list (string * A)) k : map fst (dict_pop d k) = List.filter (fun j => negb (String.eqb k j)) (map fst d).
Proof. induction d as [|[j w] d IH]; simpl; [done|]. destruct (String.eqb k j); simpl; [done|by rewrite IH]. Qed.
Lemma dict_pop_elem {A} (d : list (string * A)) k x : x ∈ dict_pop d k -> x ∈ d.
Proof.
  induction d as [|[j w] d IH]; simpl; [done|]. destruct (String.eqb k j); rewrite ?elem_of_cons; naive_solver.
Qed.
Lemma dict_get_elem {A} (d : list (string * A)) k v : dict_get d k = Some v -> (k, v) ∈ d.
Proof.
  induction d as [|[j w] d IH]; simpl; [done|]. destruct (String.eqb_spec k j) as [->|].
  - intros [= ->]. by left.
  - intros E. right. auto.
Qed.

Lemma groups_ok_set g k d : groups_ok g -> dimension_ok k d -> groups_ok (dict_set g k d).
Proof.
  intros [Hn Hf] Hd. split.
  - rewrite dict_set_keys. destruct (existsb _ _) eqn:E; [done|]. apply NoDup_app. split; [done|].
    split; [|apply NoDup_singleton]. intros x Hx ->%list_elem_of_singleton. apply existsb_eqb_In in Hx. congruence.
  - apply Forall_forall. intros x [->|Hx]%dict_set_elem; [done|]. by apply (proj1 (Forall_forall _ _) Hf).
Qed.
Lemma groups_ok_pop g k : groups_ok g -> groups_ok (dict_pop g k).
Proof.
  intros [Hn Hf]. split.
  - rewrite dict_pop_keys. apply NoDup_ListNoDup, List.NoDup_filter, NoDup_ListNoDup, Hn.
  - apply Forall_forall. intros x Hx%dict_pop_elem. by apply (proj1 (Forall_forall _ _) Hf).
Qed.
Lemma groups_ok_get g k d : groups_ok g -> dict_get g k = Some d -> dimension_ok k d.
Proof. intros [_ Hf] E%dict_get_elem. exact (proj1 (Forall_forall _ _) Hf _ E). Qed.

Lemma groups_ok_sort g : groups_ok g -> groups_ok (sort_keys g).
Proof. intros [Hn Hf]. split; [by rewrite (sort_keys_perm g)|by rewrite (sort_keys_perm g)]. Qed.

(** ** Reading back what was written *)

Lemma py_str_strs l : map py_str (map PStr l) = l.
Proof. rewrite map_map. apply map_id. Qed.

Lemma parse_serialized k d : dimension_ok k d -> parse_dimension k (PDict (serialize_dimension d)) = Ok d.
Proof.
  intros (Hid & _ & Hname & Hrev & Hm & _). destruct d as [id name rev ms rep]. simpl in Hid, Hname, Hrev, Hm. subst id.
  assert (E : parse_dimension k (PDict (serialize_dimension (mkDimension k name rev ms rep))) =
    (_ ← raise_if (rev <? 1) (VaultDimensionError "dimension revision must be a positive integer");
     display_name ← _validate_display_name (py_str (py_or (PStr name) (PStr k)));
     members ← _validate_members (map py_str (map PStr ms));
     Ok (mkDimension k display_name rev members rep))).
  { unfold parse_dimension, serialize_dimension. simpl. unfold get. simpl.
    destruct rep; simpl; destruct ms; simpl; destruct (rev <? 1); reflexivity. }
  rewrite E, (proj2 (Z.ltb_ge rev 1)) by done. simpl. unfold py_or. simpl.
  rewrite (proj2 (String.eqb_neq name "")) by (by apply validate_name_ne). simpl.
  rewrite Hname. cbn [mbind res_bind]. rewrite py_str_strs, validate_members_id by done. done.
Qed.

#[local] Arguments parse_dimension _ _ : simpl never.
#[local] Arguments serialize_dimension _ : simpl never.
Lemma parse_entries_serialized l acc :
  NoDup (map fst acc ++ map fst l) -> Forall (fun kd => dimension_ok (fst kd) (snd kd)) l ->
  parse_entries (map (fun kv => (fst kv, PDict (serialize_dimension (snd kv)))) l) acc = Ok (acc ++ l).
Proof.
  revert acc. induction l as [|[k d] l IH]; intros acc Hn Hf; simpl; [by rewrite app_nil_r|].
  inversion_clear Hf as [|? ? Hd Hf']. simpl in Hd. pose proof Hd as (_ & Hid & _). rewrite Hid. simpl.
  rewrite (parse_serialized k d Hd). simpl. rewrite dict_set_new.
  - rewrite IH; [by rewrite <- app_assoc| |done]. rewrite map_app, <- app_assoc. exact Hn.
  - intros Hin. apply NoDup_app in Hn as (_ & Hdis & _). apply (Hdis k Hin). by left.
Qed.

Lemma groups_of_serialized g : groups_ok g -> groups_of (PDict (serialize_dimensions g)) = Ok (sort_keys g).
Proof.
  intros [Hn Hf]%groups_ok_sort. unfold groups_of, parse_dimensions, serialize_dimensions.
  set (entries := map _ (sort_keys g)).
  assert (E : py_or (PDict entries) (PDict []) = PDict entries) by (unfold py_or; by destruct entries).
  unfold get. cbn [dict_get String.eqb]. simpl. rewrite E. by apply (parse_entries_serialized _ []).
Qed.

Lemma yaml_norm_strs l : map yaml_norm (map PStr l) = map PStr l.
Proof. rewrite map_map. by apply map_ext. Qed.
Lemma yaml_norm_serialized g : groups_ok g -> yaml_norm (PDict (serialize_dimensions g)) = PDict (serialize_dimensions g).
Proof.
  intros [_ Hf]%groups_ok_sort. unfold serialize_dimensions. simpl. do 4 f_equal.
  rewrite map_map. f_equal. apply map_ext_Forall. eapply Forall_impl; [exact Hf|]. intros [k d] (_ & _ & _ & _ & _ & Hr).
  simpl in *. f_equal. unfold serialize_dimension. destruct d as [id name rev ms rep]; simpl in *.
  rewrite yaml_norm_strs. destruct rep as [r|]; simpl; [|done]. by rewrite Hr.
Qed.

(** Normal values stay normal inside a dict. *)
Lemma normal_get d k : yaml_norm (PDict d) = PDict d -> yaml_norm (get d k) = get d k.
Proof.
  intros E. cbn [yaml_norm] in E. injection E as E.
  rewrite <- get_yaml. unfold yaml_norm_dict. by rewrite E.
Qed.
Lemma normal_cons k v d : yaml_norm (PDict ((k, v) :: d)) = PDict ((k, v) :: d) ->
  yaml_norm v = v /\ yaml_norm (PDict d) = PDict d.
Proof. simpl. intros [= E1 E2]. rewrite E1. split; [done|]. by rewrite E2. Qed.

Lemma parse_dimension_ok k v d : _validate_dimension_id k = Ok k -> yaml_norm v = v ->
  parse_dimension k v = Ok d -> dimension_ok k d.
Proof.
  intros Hk Hv H. unfold parse_dimension in H. destruct v as [| | | | | | |raw]; try done.
  destruct (match get raw "revision" with PInt z => _ | _ => _ end) as [rev|]; [|done]. bound H as u1 E1.
  destruct (py_or (get raw "members") (PList [])) as [| | | | |ms| |]; try done.
  bound H as rep Erep. bound H as name Ename. bound H as mem Emem. injection H as <-.
  apply raise_if_ok in E1. split; [done|split; [done|split; [by eapply validate_name_ok|]]].
  split; [simpl; by apply Z.ltb_ge|]. split; [by eapply validate_members_ok|]. simpl.
  pose proof (normal_get raw "lastRepair" Hv) as Hr.
  destruct (get raw "lastRepair"); try done; injection Erep as <-; done.
Qed.
Lemma parse_entries_ok entries acc g : yaml_norm (PDict entries) = PDict entries ->
  parse_entries entries acc = Ok g -> groups_ok acc -> groups_ok g.
Proof.
  revert acc. induction entries as [|[k v] entries IH]; intros acc; simpl.
  { by intros _ [= ->]. }
  intros [Hv Hn]%normal_cons H Ha. bound H as id Eid. bound H as d Ed. apply (IH _ Hn H).
  apply groups_ok_set; [done|]. eapply parse_dimension_ok; [by eapply validate_id_ok|exact Hv|exact Ed].
Qed.
Lemma groups_of_ok v g : yaml_norm v = v -> groups_of v = Ok g -> groups_ok g.
Proof.
  intros Hv. assert (Hnil : groups_ok []) by (split; constructor).
  unfold groups_of, parse_dimensions. change (get [("dimensions", v)] "dimensions") with v.
  destruct v as [| | | | | | |raw]; try done; [by intros [= <-]|].
  destruct raw as [|kv raw]; [by intros [= <-]|]. intros H. bound H as u E.
  pose proof (normal_get _ "entries" Hv) as He.
  unfold py_or in H. destruct (truthy (get (kv :: raw) "entries")).
  - destruct (get (kv :: raw) "entries") as [| | | | | | |entries]; try done. by eapply parse_entries_ok.
  - by injection H as <-.
Qed.

(** ** Histories *)

Definition slot (w : registry) : pyval :=
  match rs_document w with Some d => doc_dimensions d | None => PNone end.
Definition bound (w : registry) (b : string) : bool :=
  match rs_document w with Some d => dict_mem (doc_bindings d) b | None => false end.
(** The revision of a missing registry comes before every other. *)
Definition revision_of (w : registry) : Z :=
  match rs_document w with Some d => doc_revision d | None => -1 end.
Definition stored_groups (w : registry) : res groups := groups_of (slot w).
Definition same_view (w w' : registry) : Prop := (forall b, bound w b = bound w' b) /\ slot w = slot w'.
Definition later (w w' : registry) : Prop :=
  revision_of w < revision_of w' \/ revision_of w = revision_of w' /\ same_view w w'.
(** The slot as a YAML document can hold it. *)
Definition plain (w : registry) : Prop := yaml_norm (slot w) = slot w.

Lemma later_refl w : later w w.
Proof. right. by split. Qed.
Lemma later_trans w1 w2 w3 : later w1 w2 -> later w2 w3 -> later w1 w3.
Proof.
  intros [H1|[H1 [Hb Hs]]] [H2|[H2 [Hb' Hs']]]; [left; lia|left; lia|left; lia|right].
  split; [lia|]. split; [intros b; by rewrite Hb|by rewrite Hs].
Qed.

Section History.
Context (sha256_hex : string -> string).

Lemma wstep_later c w w' : plain w -> wstep sha256_hex c w w' -> plain w' /\ later w w'.
Proof.
  unfold plain. intros Hp. destruct 1 as [env p Ed Ep|env d s s' p Ed (Hr & Hb & Hd) Ep Hc].
  - apply payload_agrees in Ep as (H1 & H2 & H3). unfold slot. simpl. rewrite H3. split; [done|].
    left. unfold revision_of. rewrite Ed. simpl in *. lia.
  - apply payload_agrees in Ep as (H1 & H2 & H3). unfold slot. simpl. rewrite H3. split; [apply yaml_norm_idem|].
    unfold later, same_view, revision_of, bound, slot. simpl. rewrite Ed, <- H1, <- Hr.
    destruct Hc; try (left; lia). right. split; [lia|]. split.
    + intros x. by rewrite <- H2, <- Hb, H4.
    + rewrite H3, H5, Hd. unfold slot in Hp. by rewrite Ed in Hp.
Qed.
Lemma wsteps_later c w w' : plain w -> rtc (wstep sha256_hex c) w w' -> plain w' /\ later w w'.
Proof.
  intros Hp. induction 1 as [w|w w1 w2 H _ IH]; [auto using later_refl|].
  destruct (wstep_later _ _ _ Hp H) as [Hp1 Hl1]. destruct (IH Hp1) as [Hp2 Hl2]. eauto using later_trans.
Qed.

(** What a write of the dimensions slot does when it is done. *)
Definition slot_written (dims : pydict) (w w' : registry) : Prop :=
  is_Some (rs_document w) /\ (forall b, bound w' b = bound w b) /\ slot w' = yaml_norm (PDict dims)
  /\ revision_of w' = revision_of w + 1.
Lemma set_dimension_state_ok env dims rev w r w' :
  set_dimension_state sha256_hex env dims (Some rev) w = (r, w') ->
  w' = w /\ (exists e, r = Raise e)
  \/ revision_of w = rev /\ slot_written dims w w'
     /\ forall u, r = Ok u -> rg_revision u = rev + 1 /\ get (rg_extensions u) "dimensions" = PDict dims.
Proof.
  unfold set_dimension_state. intros E.
  cases E as u1 w1 E1; [|left; split; [by apply still_guard in E1|by eexists]]. apply still_guard in E1 as ->.
  unfold _locked in E. destruct (ce_lock env); [left; injection E as <- <-; eauto|].
  cases E as s w2 E2; [|left; split; [by apply keeps_begin in E2|by eexists]].
  pose proof (keeps_begin _ _ _ _ _ _ E2) as ->. apply begin_ok in E2 as (_ & (d & Ed & Es) & Hrev).
  cases E as u w3 E3; [|left; split; [by apply still_lift in E3|by eexists]].
  apply st_lift_ok in E3 as [E3 ->]. apply with_registrations_ok in E3 as (Hr & Hb & _).
  apply parse_agrees in Es as (Hdr & Hdb & _). unfold commit in E.
  assert (Hw : forall p, _snapshot_payload sha256_hex env
      (with_extensions (dict_set (rg_extensions u) "dimensions" (PDict dims)) u) = Ok p ->
      slot_written dims w (mkRegistryState (Some p) (rs_session w))).
  { intros p Ep. apply payload_agrees in Ep as (H1 & H2 & H3). split; [by rewrite Ed|]. split; [|split].
    - intros b. unfold bound. simpl. rewrite Ed, <- H2. simpl. by rewrite Hb, Hdb.
    - unfold slot. simpl. rewrite H3. unfold dims_of. simpl. by rewrite get_set.
    - unfold revision_of. simpl. rewrite <- H1, Ed. simpl. lia. }
  assert (Hrw : revision_of w = rev) by (unfold revision_of; by rewrite Ed, <- Hdr).
  cases E as x w4 E4.
  - injection E as <- <-. apply write_ok in E4 as [[_ (e & ?)]|(p & Ep & ->)]; [done|]. right.
    split; [done|split; [by apply Hw|]]. intros u' [= <-]. simpl. rewrite get_set. split; [lia|done].
  - subst r. apply write_ok in E4 as [[-> He]|(p & Ep & ->)]; [left; eauto|]. right.
    split; [done|split; [by apply Hw|done]].
Qed.
End History.

(** ** The service as updates of the stored groups *)

(** The same record with a revision of its own. *)
Definition revise (g : groups) (target : string) (old new : VaultDimension) : groups :=
  if bool_decide (new = old) then g
  else dict_set g target (mkDimension target (vd_display_name new) (vd_revision old + 1) (vd_members new)
                            (vd_last_repair old)).
Definition named (name : string) (d : VaultDimension) : VaultDimension :=
  mkDimension (vd_dimension_id d) name (vd_revision d) (vd_members d) (vd_last_repair d).
Definition grouping (members : list string) (d : VaultDimension) : VaultDimension :=
  mkDimension (vd_dimension_id d) (vd_display_name d) (vd_revision d) members (vd_last_repair d).

(** What each mutation means for the groups stored when it takes effect. *)
Definition group_update (registered : string -> bool) (c : dimension_call) (g : groups) : res groups :=
  match c with
  | DCreate i n ms =>
      target ← _validate_dimension_id i; name ← _validate_display_name n; proposed ← _validate_members ms;
      _ ← raise_if (dict_mem g target || Nat.leb MAX_DIMENSIONS (length g) || negb (forallb registered proposed))
            (VaultDimensionError "refused");
      Ok (dict_set g target (mkDimension target name 1 proposed None))
  | DRename i n =>
      target ← _validate_dimension_id i; name ← _validate_display_name n;
      d ← _require_dimension g target;
      Ok (revise g target d (named name d))
  | DSetMembers i ms =>
      target ← _validate_dimension_id i; proposed ← _validate_members ms;
      d ← _require_dimension g target;
      _ ← raise_if (negb (forallb registered proposed)) (VaultDimensionError "refused");
      Ok (revise g target d (grouping proposed d))
  | DRemoveMember i b =>
      target ← _validate_dimension_id i;
      d ← _require_dimension g target;
      _ ← raise_if (negb (existsb (String.eqb (strip b)) (vd_members d))) (VaultDimensionError "refused");
      Ok (revise g target d (grouping (List.filter (fun m => negb (String.eqb m (strip b))) (vd_members d)) d))
  | DDelete i =>
      target ← _validate_dimension_id i;
      _ ← _require_dimension g target;
      Ok (dict_pop g target)
  end.

Lemma existsb_negb {A} (p : A -> bool) l : existsb (fun x => negb (p x)) l = negb (forallb p l).
Proof. induction l as [|x l IH]; simpl; [done|]. rewrite IH. by destruct (p x). Qed.
Lemma named_eq name d : named name d = d <-> vd_display_name d = name.
Proof. destruct d; unfold named; simpl. split; [by intros [= ->]|by intros ->]. Qed.
Lemma grouping_eq ms d : grouping ms d = d <-> vd_members d = ms.
Proof. destruct d; unfold grouping; simpl. split; [by intros [= ->]|by intros ->]. Qed.
Lemma filter_member_ne m l : m ∈ l -> List.filter (fun x => negb (String.eqb x m)) l <> l.
Proof.
  intros Hm E. rewrite <- E in Hm. apply list_elem_of_In, filter_In in Hm as [_ Hm].
  by rewrite String.eqb_refl in Hm.
Qed.

Section Mutation.
Context (sha256_hex : string -> string) (emit_event : option (DimensionReceipt -> res unit)).

(** The answer a mutation gives for the groups [g'] it wrote. *)
Definition reported (g' : groups) (receipt : DimensionReceipt) (w' : registry) : Prop :=
  dt_changed receipt = true /\ dt_registry_revision receipt = revision_of w'
  /\ dt_dimension receipt = dict_get g' (dt_dimension_id receipt).

Lemma commit_dimensions env s g' target prev removed (deleted : bool) w r w' :
  groups_ok g' -> (if deleted then dict_get g' target = None else is_Some (dict_get g' target)) ->
  _commit sha256_hex emit_event env s g' target prev removed deleted w = (r, w') ->
  w' = w /\ (exists e, r = Raise e)
  \/ revision_of w = rg_revision s /\ slot_written (serialize_dimensions g') w w'
     /\ forall receipt, r = Ok receipt -> reported g' receipt w'.
Proof.
  intros Hok Ht. unfold _commit. intros E. cases E as u w1 E1.
  2: { apply set_dimension_state_ok in E1 as [[-> _]|(H1 & H2 & _)]; [left; eauto|right]. subst r.
       split; [done|split; [done|done]]. }
  apply set_dimension_state_ok in E1 as [[_ (e & ?)]|(H1 & H2 & H3)]; [done|]. right.
  destruct (H3 _ eq_refl) as [Hr Hg]. clear H3.
  assert (Hw : w' = w1).
  { cases E as x w2 E2.
    - assert (w2 = w1) as ->.
      { destruct deleted; [by injection E2 as _ <-|]. run E2 as y w3 E3. apply st_lift_ok in E3 as [_ ->].
        destruct (dict_get y target); by injection E2 as _ <-. }
      cases E as z w3 E3.
      + injection E as _ <-. destruct emit_event; [by injection E3 as _ <-|by injection E3 as _ <-].
      + destruct emit_event; [by injection E3 as _ <-|done].
    - destruct deleted; [done|]. cases E2 as y w3 E3; [|by injection E3 as _ <-].
      apply st_lift_ok in E3 as [_ ->]. destruct (dict_get y target); by injection E2 as _ <-. }
  subst w1. split; [done|split; [done|]]. intros receipt ->.
  run E as x w2 E2. run E as z w3 E3. injection E as <- _. split; [done|split].
  - simpl. destruct H2 as (_ & _ & _ & H2). lia.
  - simpl. destruct deleted; [by injection E2 as <- _|]. run E2 as y w4 E4. apply st_lift_ok in E4 as [E4 _].
    rewrite parse_groups, Hg, groups_of_serialized in E4 by done. injection E4 as <-.
    rewrite dict_get_sort in E2. destruct Ht as [d Hd]. rewrite Hd in E2. injection E2 as <- _. by rewrite Hd.
Qed.

(** A mutation that was given the groups [g] either leaves the registry alone
    or replaces the groups by its update of [g], under the revision it loaded. *)
Definition left_alone (c : dimension_call) (s : RegistrySnapshot) (g : groups) (r : res DimensionReceipt) : Prop :=
  forall receipt, r = Ok receipt ->
    dt_changed receipt = false /\ dt_dimension receipt = dict_get g (dt_dimension_id receipt)
    /\ group_update (dict_mem (rg_registrations s)) c g = Ok g.
Definition replaced (c : dimension_call) (s : RegistrySnapshot) (g : groups) (r : res DimensionReceipt)
    (w w' : registry) : Prop :=
  exists g', group_update (dict_mem (rg_registrations s)) c g = Ok g' /\ groups_ok g'
    /\ revision_of w = rg_revision s /\ slot_written (serialize_dimensions g') w w'
    /\ forall receipt, r = Ok receipt -> reported g' receipt w'.

Lemma commit_effect c env s g g' target prev removed (deleted : bool) w r w' :
  group_update (dict_mem (rg_registrations s)) c g = Ok g' -> groups_ok g' ->
  (if deleted then dict_get g' target = None else is_Some (dict_get g' target)) ->
  _commit sha256_hex emit_event env s g' target prev removed deleted w = (r, w') ->
  w' = w /\ left_alone c s g r \/ replaced c s g r w w'.
Proof.
  intros Hu Hok Ht E. apply commit_dimensions in E as [[-> (e & ->)]|(H1 & H2 & H3)]; [by left|right|done|done].
  exists g'. auto.
Qed.
Lemma guard_effect c0 e c (f : ST registry DimensionReceipt) s g w r w' :
  (c0 = false -> f w = (r, w') -> w' = w /\ left_alone c s g r \/ replaced c s g r w w') ->
  (guard_not c0 e ≫= fun _ => f) w = (r, w') -> w' = w /\ left_alone c s g r \/ replaced c s g r w w'.
Proof.
  intros Hf [(u & w1 & E1 & E)|(e' & E & ->)]%st_bind_cases.
  - apply guard_not_ok in E1 as [? ->]. auto.
  - left. by apply still_guard in E.
Qed.
Lemma lift_effect {A} (x : res A) c (f : A -> ST registry DimensionReceipt) s g w r w' :
  (forall a, x = Ok a -> f a w = (r, w') -> w' = w /\ left_alone c s g r \/ replaced c s g r w w') ->
  (st_lift x ≫= f) w = (r, w') -> w' = w /\ left_alone c s g r \/ replaced c s g r w w'.
Proof.
  intros Hf [(u & w1 & E1 & E)|(e' & E & ->)]%st_bind_cases.
  - apply st_lift_ok in E1 as [? ->]. eauto.
  - left. by apply still_lift in E.
Qed.
Lemma require_ok g target d : _require_dimension g target = Ok d -> dict_get g target = Some d.
Proof. unfold _require_dimension. destruct (dict_get g target); [by intros [= ->]|done]. Qed.
Lemma revised_ok g target d new : groups_ok g -> dict_get g target = Some d ->
  _validate_display_name (vd_display_name new) = Ok (vd_display_name new) -> members_ok (vd_members new) ->
  dimension_ok target (mkDimension target (vd_display_name new) (vd_revision d + 1) (vd_members new) (vd_last_repair d)).
Proof.
  intros Hg Hd Hn Hm. destruct (groups_ok_get _ _ _ Hg Hd) as (_ & H2 & _ & H4 & _ & H6).
  unfold dimension_ok. simpl. repeat (split; [first [done|lia]|]). done.
Qed.
Lemma filtered_ok p l : members_ok l -> members_ok (List.filter p l).
Proof.
  intros (Hn & Hf & Hl). split; [|split].
  - apply NoDup_ListNoDup, List.NoDup_filter, NoDup_ListNoDup, Hn.
  - apply List.Forall_forall. intros x [Hx _]%filter_In. by apply (proj1 (List.Forall_forall _ _) Hf).
  - etrans; [apply filter_length_le|done].
Qed.

Lemma create_effect i n ms target name proposed env s g w r w' :
  _validate_dimension_id i = Ok target -> _validate_display_name n = Ok name -> _validate_members ms = Ok proposed ->
  groups_ok g -> create_from sha256_hex emit_event target name proposed env (s, g) w = (r, w') ->
  w' = w /\ left_alone (DCreate i n ms) s g r \/ replaced (DCreate i n ms) s g r w w'.
Proof.
  intros Ei En Em Hok. unfold create_from. apply guard_effect. intros H1. apply guard_effect. intros H2.
  apply lift_effect. intros u H3. apply raise_if_ok in H3. rewrite existsb_negb in H3.
  apply commit_effect.
  - unfold group_update. rewrite Ei, En, Em. cbn [mbind res_bind]. by rewrite H1, H2, H3.
  - apply groups_ok_set; [done|]. split; [done|]. split; [by eapply validate_id_ok|].
    split; [by eapply validate_name_ok|]. split; [done|]. split; [by eapply validate_members_ok|done].
  - rewrite dict_get_set_eq. by eexists.
Qed.
Lemma renamed_effect i n target name env s g w r w' :
  _validate_dimension_id i = Ok target -> _validate_display_name n = Ok name -> groups_ok g ->
  rename_from sha256_hex emit_event target name env (s, g) w = (r, w') ->
  w' = w /\ left_alone (DRename i n) s g r \/ replaced (DRename i n) s g r w w'.
Proof.
  intros Ei En Hok. unfold rename_from. apply lift_effect. intros d Ed.
  assert (Hu : group_update (dict_mem (rg_registrations s)) (DRename i n) g = Ok (revise g target d (named name d)))
    by (unfold group_update; rewrite Ei, En; cbn [mbind res_bind]; by rewrite Ed).
  apply require_ok in Ed. unfold revise in Hu. destruct (String.eqb_spec (vd_display_name d) name) as [Hn|Hn].
  - rewrite bool_decide_true in Hu by (by apply named_eq). intros [= <- <-]. left. split; [done|].
    intros receipt [= <-]. done.
  - rewrite bool_decide_false in Hu by (by rewrite named_eq). intros E. refine (commit_effect _ _ _ _ _ _ _ _ false _ _ _ Hu _ _ E).
    + apply groups_ok_set; [done|]. apply (revised_ok g _ d (named name d)); [done|done| |].
      * by eapply validate_name_ok.
      * by destruct (groups_ok_get _ _ _ Hok Ed) as (_ & _ & _ & _ & ? & _).
    + rewrite dict_get_set_eq. by eexists.
Qed.
Lemma set_members_effect i ms target proposed env s g w r w' :
  _validate_dimension_id i = Ok target -> _validate_members ms = Ok proposed -> groups_ok g ->
  set_members_from sha256_hex emit_event target proposed env (s, g) w = (r, w') ->
  w' = w /\ left_alone (DSetMembers i ms) s g r \/ replaced (DSetMembers i ms) s g r w w'.
Proof.
  intros Ei Em Hok. unfold set_members_from. apply lift_effect. intros d Ed. apply lift_effect. intros u H3.
  apply raise_if_ok in H3. rewrite existsb_negb in H3.
  assert (Hu : group_update (dict_mem (rg_registrations s)) (DSetMembers i ms) g
               = Ok (revise g target d (grouping proposed d)))
    by (unfold group_update; rewrite Ei, Em; cbn [mbind res_bind]; rewrite Ed; cbn [mbind res_bind]; by rewrite H3).
  apply require_ok in Ed. unfold revise in Hu. destruct (decide (vd_members d = proposed)) as [Hn|Hn].
  - rewrite bool_decide_true in Hu by (by apply grouping_eq). rewrite bool_decide_true by done.
    intros [= <- <-]. left. split; [done|]. intros receipt [= <-]. done.
  - rewrite bool_decide_false in Hu by (by rewrite grouping_eq). rewrite bool_decide_false by done.
    intros E. refine (commit_effect _ _ _ _ _ _ _ _ false _ _ _ Hu _ _ E).
    + apply groups_ok_set; [done|]. apply (revised_ok g _ d (grouping proposed d)); [done|done| |].
      * by destruct (groups_ok_get _ _ _ Hok Ed) as (_ & _ & ? & _).
      * by eapply validate_members_ok.
    + rewrite dict_get_set_eq. by eexists.
Qed.
Lemma remove_member_effect i b target env s g w r w' :
  _validate_dimension_id i = Ok target -> groups_ok g ->
  remove_member_from sha256_hex emit_event target (strip b) env (s, g) w = (r, w') ->
  w' = w /\ left_alone (DRemoveMember i b) s g r \/ replaced (DRemoveMember i b) s g r w w'.
Proof.
  intros Ei Hok. unfold remove_member_from. apply lift_effect. intros d Ed. apply guard_effect. intros H3.
  set (ms := List.filter _ _).
  assert (Hu : group_update (dict_mem (rg_registrations s)) (DRemoveMember i b) g
               = Ok (revise g target d (grouping ms d)))
    by (unfold group_update; rewrite Ei; cbn [mbind res_bind]; rewrite Ed; cbn [mbind res_bind]; by rewrite H3).
  apply require_ok in Ed. apply negb_false_iff, existsb_eqb_In in H3.
  unfold revise in Hu. rewrite bool_decide_false in Hu.
  2: { rewrite grouping_eq. intros E. by apply (filter_member_ne _ _ H3). }
  intros E. refine (commit_effect _ _ _ _ _ _ _ _ false _ _ _ Hu _ _ E).
  - apply groups_ok_set; [done|]. destruct (groups_ok_get _ _ _ Hok Ed) as (_ & _ & Hn & _ & Hm & _).
    apply (revised_ok g _ d (grouping ms d)); [done|done|done|by apply filtered_ok].
  - rewrite dict_get_set_eq. by eexists.
Qed.
Lemma delete_effect i target env s g w r w' :
  _validate_dimension_id i = Ok target -> groups_ok g ->
  delete_from sha256_hex emit_event target env (s, g) w = (r, w') ->
  w' = w /\ left_alone (DDelete i) s g r \/ replaced (DDelete i) s g r w w'.
Proof.
  intros Ei Hok. unfold delete_from. apply lift_effect. intros d Ed.
  apply commit_effect.
  - unfold group_update. rewrite Ei. cbn [mbind res_bind]. by rewrite Ed.
  - by apply groups_ok_pop.
  - apply dict_get_pop_eq.
Qed.

Lemma mutation_effect c rest env s g w r w' : checked sha256_hex emit_event c = Ok rest -> groups_ok g ->
  rest env (s, g) w = (r, w') -> w' = w /\ left_alone c s g r \/ replaced c s g r w w'.
Proof.
  destruct c; cbn [checked]; intros H Hok.
  - bound H as t Et. bound H as n En. bound H as p Ep. injection H as <-. by apply create_effect.
  - bound H as t Et. bound H as n En. injection H as <-. by apply renamed_effect.
  - bound H as t Et. bound H as p Ep. injection H as <-. by apply set_members_effect.
  - bound H as t Et. bound H as u Eu. injection H as <-. by apply remove_member_effect.
  - bound H as t Et. injection H as <-. by apply delete_effect.
Qed.
End Mutation.

(** ** The repair after a removal *)

Definition repair_note (b : string) (revision : Z) : pydict :=
  [("reason", PStr "registration_removed"); ("removedVaultBindingId", PStr b); ("registryRevision", PInt revision)].
(** A dimension without the binding: its order kept, its revision advanced, the repair noted. *)
Definition strike (b : string) (revision : Z) (d : VaultDimension) : VaultDimension :=
  if existsb (String.eqb b) (vd_members d)
  then mkDimension (vd_dimension_id d) (vd_display_name d) (vd_revision d + 1)
         (List.filter (fun m => negb (String.eqb m b)) (vd_members d)) (Some (repair_note b revision))
  else d.
Definition strike_all (b : string) (revision : Z) (g : groups) : groups :=
  map (fun kd => (fst kd, strike b revision (snd kd))) g.

Lemma existsb_strs b l : existsb (py_eqb (PStr b)) (map PStr l) = existsb (String.eqb b) l.
Proof. induction l as [|x l IH]; cbn [map existsb]; [done|]. by rewrite IH. Qed.
Lemma filter_strs b l : List.filter (fun m => negb (py_eqb m (PStr b))) (map PStr l)
  = map PStr (List.filter (fun m => negb (String.eqb m b)) l).
Proof.
  induction l as [|x l IH]; cbn [map List.filter]; [done|]. change (py_eqb (PStr x) (PStr b)) with (String.eqb x b).
  destruct (String.eqb x b); cbn [negb map]; by rewrite IH.
Qed.

Lemma repair_serialized b revision d : 1 <= vd_revision d ->
  match repair_entry b revision (PDict (serialize_dimension d)) with Some e => PDict e | None => PDict (serialize_dimension d) end
  = PDict (serialize_dimension (strike b revision d)).
Proof.
  intros Hr. destruct d as [id name rev ms rep]. unfold strike. cbn [vd_members vd_revision vd_display_name vd_dimension_id] in *.
  assert (Hm : get (serialize_dimension (mkDimension id name rev ms rep)) "members" = PList (map PStr ms)) by done.
  assert (Hv : get (serialize_dimension (mkDimension id name rev ms rep)) "revision" = PInt rev) by done.
  unfold repair_entry. rewrite Hm, Hv. unfold py_in. rewrite existsb_strs.
  destruct (existsb (String.eqb b) ms); [|done]. rewrite filter_strs. unfold repaired_revision.
  rewrite (proj2 (Z.leb_le 1 rev)) by done. by destruct rep.
Qed.
Lemma repaired_slot_serialized b revision g : groups_ok g ->
  repaired_slot (PDict (serialize_dimensions g)) b revision = PDict (serialize_dimensions (strike_all b revision g)).
Proof.
  intros [_ Hf]%groups_ok_sort. unfold repaired_slot, repair_dimensions_for_removed_binding, serialize_dimensions.
  set (entries := map _ (sort_keys g)). unfold get. simpl. do 4 f_equal.
  unfold strike_all. rewrite (sort_keys_map (strike b revision) g). subst entries.
  unfold repair_entries. rewrite !map_map. f_equal. apply map_ext_Forall. eapply Forall_impl; [exact Hf|].
  intros [k d] (_ & _ & _ & Hr & _). cbn [fst snd] in *. by rewrite (repair_serialized b revision d Hr).
Qed.
Lemma strike_all_ok b revision g : groups_ok g -> groups_ok (strike_all b revision g).
Proof.
  intros [Hn Hf]. split.
  - unfold strike_all. rewrite map_map. simpl. exact Hn.
  - apply Forall_map. eapply Forall_impl; [exact Hf|]. intros [k d] (H1 & H2 & H3 & H4 & H5 & H6). unfold strike. simpl in *.
    destruct (existsb _ _); [|done]. unfold dimension_ok. simpl.
    repeat (split; [first [done|lia|by apply filtered_ok]|]). done.
Qed.
Lemma strike_members b revision d m : m ∈ vd_members (strike b revision d) -> m ∈ vd_members d /\ m <> b.
Proof.
  unfold strike. destruct (existsb _ _) eqn:E; simpl.
  - intros [H Hm]%list_elem_of_In%filter_In. split; [by apply list_elem_of_In|]. by apply negb_true_iff, String.eqb_neq in Hm.
  - intros H. split; [done|]. intros ->. apply existsb_eqb_In in H. congruence.
Qed.

(** ** Interleaved calls *)

Section Interleaving.
Context (sha256_hex : string -> string) (emit_event : option (DimensionReceipt -> res unit)).

(** [wl] is the registry a load of the service ended in, [l] what it returned. *)
Definition loaded_in (wl : registry) (l : loaded) : Prop :=
  exists env wl0, _load sha256_hex env wl0 = (Ok l, wl).

(** The registries of a history: calls of the store that [allow] admits and
    mutations of the service, each committing on what it loaded from any
    earlier registry of the history. *)
Inductive reach (allow : registry_call -> registry -> Prop) (w0 : registry) : list registry -> registry -> Prop :=
  | reach_start : reach allow w0 [] w0
  | reach_call past w env c r w' : reach allow w0 past w -> allow c w ->
      run_call sha256_hex env c w = (r, w') -> reach allow w0 (w :: past) w'
  | reach_mutation past w wl l env c rest r w' : reach allow w0 past w -> wl ∈ w :: past -> loaded_in wl l ->
      checked sha256_hex emit_event c = Ok rest -> rest env l w = (r, w') -> reach allow w0 (w :: past) w'.

Lemma loaded_view wl s g : loaded_in wl (s, g) ->
  rg_revision s = revision_of wl /\ (forall b, dict_mem (rg_registrations s) b = bound wl b)
  /\ stored_groups wl = Ok g.
Proof.
  intros (env & wl0 & E). unfold _load in E. run E as s' w1 E1. run E as g' w2 E2.
  apply st_lift_ok in E2 as [E2 ->]. injection E as <- <- <-.
  apply (load_steps _ CallLoad) in E1 as [_ H]. destruct (H _ eq_refl) as (d & Ed & Hr & Hb & Hd).
  unfold revision_of, bound, stored_groups, slot. rewrite Ed. split; [done|split; [done|]].
  rewrite parse_groups in E2. unfold dims_of in Hd. by rewrite <- Hd.
Qed.

Lemma group_update_ext f f' c g : (forall b, f b = f' b) -> group_update f c g = group_update f' c g.
Proof.
  intros H. assert (Hl : forall l, forallb f l = forallb f' l) by (induction l; simpl; congruence).
  destruct c as [i n ms|i n|i ms|i b|i]; try done; unfold group_update; destruct (_validate_dimension_id i); try done;
    [destruct (_validate_display_name n); [|done]|]; destruct (_validate_members ms); try done;
    cbn [mbind res_bind]; [by rewrite Hl|]. destruct (_require_dimension _ _); [|done]. cbn [mbind res_bind]. by rewrite Hl.
Qed.

Lemma written_later dims w w' : plain w -> slot_written dims w w' -> plain w' /\ later w w'.
Proof.
  intros Hp (_ & _ & Hs & Hr). unfold plain, later. rewrite Hs. split; [apply yaml_norm_idem|]. left. lia.
Qed.

Lemma reach_later allow w0 past w : plain w0 -> reach allow w0 past w ->
  plain w /\ forall wl, wl ∈ w :: past -> plain wl /\ later wl w.
Proof.
  intros H0. induction 1 as [|past w env c r w' H IH Ha E|past w wl l env c rest r w' H IH Hl Hld Hc E].
  - split; [done|]. intros wl ->%list_elem_of_singleton. auto using later_refl.
  - destruct IH as [Hp IH]. apply call_steps in E. destruct (wsteps_later _ _ _ _ Hp E) as [Hp' Hl'].
    split; [done|]. intros x [->|Hx]%elem_of_cons; [auto using later_refl|].
    destruct (IH x Hx). eauto using later_trans.
  - destruct IH as [Hp IH].
    assert (Hp' : plain w' /\ later w w').
    { destruct l as [s g]. destruct (loaded_view _ _ _ Hld) as (_ & _ & Hg). destruct (IH _ Hl) as [Hpl _].
      eapply mutation_effect in E as [[-> _]|(g' & _ & _ & _ & Hw & _)]; [|by eapply written_later|exact Hc|].
      - auto using later_refl.
      - by eapply groups_of_ok. }
    destruct Hp' as [Hp' Hl']. split; [done|]. intros x [->|Hx]%elem_of_cons; [auto using later_refl|].
    destruct (IH x Hx). eauto using later_trans.
Qed.

(** What a mutation loaded is what is stored when it commits. *)
Lemma mutation_in_history allow w0 past w wl s g env c rest r w' :
  plain w0 -> reach allow w0 past w -> wl ∈ w :: past -> loaded_in wl (s, g) ->
  checked sha256_hex emit_event c = Ok rest -> rest env (s, g) w = (r, w') ->
  w' = w /\ left_alone c s g r
  \/ stored_groups w = Ok g /\ exists g', group_update (bound w) c g = Ok g' /\ groups_ok g'
     /\ slot_written (serialize_dimensions g') w w' /\ forall receipt, r = Ok receipt -> reported g' receipt w'.
Proof.
  intros H0 H Hin Hld Hc E. destruct (reach_later _ _ _ _ H0 H) as [_ Hall]. destruct (Hall _ Hin) as [Hpl Hl].
  destruct (loaded_view _ _ _ Hld) as (Hr & Hb & Hg).
  eapply mutation_effect in E as [E|(g' & Hu & Hok & Hrev & Hw & Hrep)]; [by left| |exact Hc|by eapply groups_of_ok].
  right. destruct Hl as [Hl|[_ [Hbl Hsl]]]; [lia|]. split.
  - unfold stored_groups in *. by rewrite <- Hsl.
  - exists g'. split; [|done]. rewrite <- Hu. apply group_update_ext. intros b. by rewrite <- Hbl, Hb.
Qed.


(** ** Members are registered *)

(** The slot as the service writes it. *)
Definition holds (v : pyval) (g : groups) : Prop :=
  groups_ok g /\ (v = PNone /\ g = [] \/ v = PDict (serialize_dimensions g)).
Definition covered (w : registry) (g : groups) : Prop :=
  forall k d m, (k, d) ∈ g -> m ∈ vd_members d -> bound w m = true.
Definition grouped (w : registry) : Prop := exists g, holds (slot w) g /\ covered w g.

(** Calls that leave the slot to the service and drop no binding behind its back. *)
Definition orderly (c : registry_call) (w : registry) : Prop :=
  match c with
  | CallSetDimensions _ _ => False
  | CallCommitState r _ _ x _ =>
      (forall b, bound w b = true -> dict_mem r b = true)
      /\ match x with Some ext => get ext "dimensions" = slot w | None => True end
  | _ => True
  end.

Lemma holds_plain v g : holds v g -> yaml_norm v = v.
Proof. intros [Hok [[-> _]| ->]]; [done|by apply yaml_norm_serialized]. Qed.
Lemma holds_stored w g : holds (slot w) g -> exists g', stored_groups w = Ok g' /\ g' ≡ₚ g.
Proof.
  unfold stored_groups. intros [Hok [[-> ->]| ->]]; [by exists []|]. exists (sort_keys g).
  split; [by apply groups_of_serialized|apply sort_keys_perm].
Qed.
Lemma covered_sub w g g' : (forall kd, kd ∈ g' -> kd ∈ g) -> covered w g -> covered w g'.
Proof. intros Hs Hc k d m H. apply (Hc k d m). by apply Hs. Qed.

Lemma orderly_step c w w' : (forall w1, slot w1 = slot w -> (forall b, bound w1 b = bound w b) -> orderly c w1) ->
  grouped w -> wstep sha256_hex c w w' -> grouped w'.
Proof.
  intros Ho (g & Hh & Hc) H. specialize (Ho w eq_refl (fun _ => eq_refl)).
  destruct H as [env p Ed Ep|env d s s' p Ed (Hr & Hb & Hd) Ep Hch].
  - apply payload_agrees in Ep as (_ & _ & H3). exists []. split.
    + split; [split; constructor|]. left. unfold slot. simpl. by rewrite H3.
    + intros ? ? ? H. by apply not_elem_of_nil in H.
  - apply payload_agrees in Ep as (_ & H2 & H3).
    assert (Hsl : dims_of s = slot w) by (unfold slot; by rewrite Ed).
    assert (Hbd : forall b, dict_mem (rg_registrations s) b = bound w b) by (intros b; unfold bound; by rewrite Ed, Hb).
    assert (Hb' : forall b, bound (mkRegistryState (Some p) (rs_session w)) b = dict_mem (rg_registrations s') b)
      by (intros b; unfold bound; simpl; by rewrite H2).
    assert (Hkeep : dims_of s' = dims_of s -> (forall b, bound w b = true -> dict_mem (rg_registrations s') b = true) ->
      grouped (mkRegistryState (Some p) (rs_session w))).
    { intros Hds Hg. exists g. split.
      - unfold slot. simpl. rewrite H3, Hds, Hsl, (holds_plain _ _ Hh). exact Hh.
      - intros k x m Hk Hm. rewrite Hb'. apply Hg. by apply (Hc k x m). }
    destruct Hch as [_ _ Hg Hds|b e cd rp l -> _ Hm Hds|d' e -> _ _ _|e -> _ Hrg Hds|r t l x e -> _ Hm Hds|b v e -> _ Hrg Hds].
    + apply Hkeep; [done|]. intros b Hbb. apply Hg. by rewrite Hbd.
    + destruct Hh as [Hok [[Hn ->]|Hse]].
      { exists []. split; [split; [done|left; split; [|done]]|by intros ? ? ? ?%not_elem_of_nil].
        unfold slot. simpl. rewrite H3, Hds, Hsl, Hn. done. }
      exists (strike_all b (rg_revision s') g). split.
      * split; [by apply strike_all_ok|right]. unfold slot. simpl. rewrite H3, Hds, Hsl, Hse.
        rewrite repaired_slot_serialized by done. by apply yaml_norm_serialized, strike_all_ok.
      * intros k x m Hk Hmm. unfold strike_all in Hk. apply list_elem_of_fmap in Hk as ([k0 d0] & Heq & Hk).
        simpl in Heq. injection Heq as -> ->. apply strike_members in Hmm as [Hmm Hne].
        rewrite Hb', Hm, (proj2 (String.eqb_neq b m)) by done. simpl. rewrite Hbd. by apply (Hc k0 d0 m).
    + destruct Ho.
    + exists []. split.
      * split; [split; constructor|]. left. unfold slot. simpl. by rewrite H3, Hds.
      * intros ? ? ? H. by apply not_elem_of_nil in H.
    + destruct Ho as [Ho1 Ho2]. apply Hkeep.
      * rewrite Hds. destruct x as [ext|]; [|done]. simpl. by rewrite Ho2.
      * intros b0 Hbb. rewrite Hm. by apply Ho1.
    + apply Hkeep; [done|]. intros b0 Hbb. by rewrite Hrg, Hbd.
Qed.

Lemma orderly_call env c w r w' : orderly c w -> grouped w -> run_call sha256_hex env c w = (r, w') -> grouped w'.
Proof.
  intros Ho Hg E.
  assert (Hst : (forall w1 : registry, orderly c w1) -> grouped w').
  { intros Hall. apply call_steps in E. revert Hg. induction E as [|w w1 w2 H _ IH]; [done|].
    intros Hg. apply IH; [done|]. by eapply orderly_step. }
  destruct c as [| | | | | |r0 t l x e| | | | | | | | | | | | |]; try (apply Hst; intros ?; exact Ho).
  apply commit_state_step in E as [[-> _]|H]; [done|]. eapply orderly_step; [|exact Hg|exact H].
  intros w1 Hs Hb. destruct Ho as [Ho1 Ho2]. split.
  - intros b. rewrite Hb. apply Ho1.
  - destruct x; [by rewrite Hs|done].
Qed.

Lemma update_covered w c g g' : groups_ok g -> covered w g -> group_update (bound w) c g = Ok g' -> covered w g'.
Proof.
  intros Hok Hc Hu.
  assert (Hset : forall k d, (forall m, m ∈ vd_members d -> bound w m = true) -> covered w (dict_set g k d)).
  { intros k d Hd k0 d0 m [[= -> ->]|Hin]%dict_set_elem Hm; [by apply Hd|by apply (Hc k0 d0 m)]. }
  assert (Hrev : forall t old new, (forall m, m ∈ vd_members new -> bound w m = true) -> covered w (revise g t old new)).
  { intros t old new Hn. unfold revise. destruct (bool_decide _); [done|]. by apply Hset. }
  assert (Hall : forall l, forallb (bound w) l = true -> forall m, m ∈ l -> bound w m = true).
  { intros l Hl m Hm. rewrite forallb_forall in Hl. by apply Hl, list_elem_of_In. }
  assert (Hreq : forall t d, _require_dimension g t = Ok d -> forall m, m ∈ vd_members d -> bound w m = true).
  { intros t d Ed m Hm. apply require_ok, dict_get_elem in Ed. by apply (Hc t d m). }
  destruct c; cbn [group_update] in Hu.
  - bound Hu as t Et. bound Hu as n En. bound Hu as p Ep. bound Hu as u Eu. injection Hu as <-.
    apply raise_if_ok in Eu. bool_prop. by apply Hset, Hall.
  - bound Hu as t Et. bound Hu as n En. bound Hu as d Ed. injection Hu as <-. apply Hrev. simpl. by eapply Hreq.
  - bound Hu as t Et. bound Hu as p Ep. bound Hu as d Ed. bound Hu as u Eu. injection Hu as <-.
    apply raise_if_ok in Eu. bool_prop. apply Hrev. simpl. by apply Hall.
  - bound Hu as t Et. bound Hu as d Ed. bound Hu as u Eu. injection Hu as <-. apply Hrev. simpl.
    intros m [Hm _]%list_elem_of_In%filter_In. eapply Hreq; [exact Ed|]. by apply list_elem_of_In.
  - bound Hu as t Et. bound Hu as d Ed. injection Hu as <-. intros k0 d0 m Hin%dict_pop_elem. by apply (Hc k0 d0 m).
Qed.

Lemma reach_grouped w0 past w : grouped w0 -> reach orderly w0 past w -> grouped w.
Proof.
  intros H0 H. assert (Hp0 : plain w0) by (destruct H0 as (g0 & Hh & _); by eapply holds_plain).
  induction H as [|past w env c r w' H IH Ha E|past w wl l env c rest r w' H IH Hl Hld Hc E]; [done| |].
  - by eapply orderly_call.
  - destruct IH as (g0 & Hh & Hcov). destruct l as [s g].
    destruct (mutation_in_history _ _ _ _ _ _ _ _ _ _ _ _ Hp0 H Hl Hld Hc E)
      as [[-> _]|(Hs & g' & Hu & Hok & (_ & Hb & Hsl & _) & _)]; [by exists g0|].
    destruct (holds_stored _ _ Hh) as (g1 & Eg1 & Hperm). assert (g1 = g) as -> by congruence.
    exists g'. split; [split; [done|right]|].
    + rewrite Hsl. by apply yaml_norm_serialized.
    + assert (Hcg : covered w g') .
      { eapply update_covered; [| |exact Hu].
        - eapply groups_of_ok; [|exact Hs]. by eapply holds_plain.
        - eapply covered_sub; [|exact Hcov]. intros kd. by rewrite Hperm. }
      intros k d m Hk Hm. rewrite Hb. by apply (Hcg k d m).
Qed.


(** A removal either fails and changes nothing, or the next registry has
    the same dimensions without the removed binding: the other members keep
    their order, exactly the dimensions that listed it get the next revision
    and a note of the repair, and no other binding is dropped. *)
Theorem removal_strikes_binding w0 past w env b e cd rp l r w' : grouped w0 -> reach orderly w0 past w ->
  run_call sha256_hex env (CallRemove b e cd rp l) w = (r, w') ->
  w' = w /\ (exists err, r = Raise err)
  \/ exists g, stored_groups w = Ok g /\ stored_groups w' = Ok (strike_all b (revision_of w') g)
     /\ (forall x, bound w' x = negb (String.eqb b x) && bound w x) /\ revision_of w' = revision_of w + 1.
Proof.
  intros H0 H E. destruct (reach_grouped _ _ _ H0 H) as (g & Hh & Hc).
  apply remove_step in E as [[-> He]|Hs]; [left; auto|]. right.
  inversion Hs as [env' p Ed Ep|env' d s s' p Ed (Hr & Hb & Hd) Ep Hch]; subst.
  - destruct Hh as [Hok [[Hn ->]|Hse]].
    + exists []. unfold stored_groups. rewrite Hn. split; [done|]. apply payload_agrees in Ep as (H1 & H2 & H3).
      unfold slot, bound, revision_of. simpl. rewrite H3, Ed. split; [done|]. split; [|simpl in H1; lia].
      intros x. rewrite <- H2. by rewrite andb_false_r.
    + unfold slot in Hse. by rewrite Ed in Hse.
  - inversion Hch as [Hg|b' e' cd' rp' l' [= -> -> -> -> ->] Hrev Hm Hds| | | |]; try discriminate.
    apply payload_agrees in Ep as (H1 & H2 & H3).
    assert (Hslot : slot w = dims_of s) by (unfold slot; by rewrite Ed).
    assert (Hsl' : slot (mkRegistryState (Some p) (rs_session w)) = yaml_norm (repaired_slot (slot w) b' (rg_revision s')))
      by (unfold slot at 1; simpl; by rewrite H3, Hds, Hslot).
    assert (Hrv : revision_of (mkRegistryState (Some p) (rs_session w)) = rg_revision s') by done.
    assert (Hbb : forall x, bound (mkRegistryState (Some p) (rs_session w)) x = negb (String.eqb b' x) && bound w x).
    { intros x. unfold bound. simpl. rewrite Ed, <- H2, Hm. by rewrite Hb. }
    assert (Hrr : revision_of (mkRegistryState (Some p) (rs_session w)) = revision_of w + 1).
    { rewrite Hrv. unfold revision_of. rewrite Ed. lia. }
    unfold stored_groups. rewrite Hsl', Hrv in *. destruct Hh as [Hok [[Hn ->]|Hse]].
    + rewrite Hn. by exists [].
    + exists (sort_keys g). rewrite Hse. split; [by apply groups_of_serialized|]. split; [|done].
      rewrite repaired_slot_serialized, yaml_norm_serialized by auto using strike_all_ok.
      rewrite groups_of_serialized by (by apply strike_all_ok). unfold strike_all. by rewrite (sort_keys_map (strike _ _)).
Qed.
End Interleaving.

(** ** Resolution *)

Section Resolution.
Context (authorize : BindingAuthorizationRequest -> res BindingVerdict).

Definition request_of (inputs : decision_inputs) (b : string) : BindingAuthorizationRequest :=
  mkBindingRequest (di_principal inputs) b (di_action inputs) (di_write_class inputs) (di_required_permission inputs).
(** Registered here, and allowed by the authority asked about this binding alone. *)
Definition granted (inputs : decision_inputs) (s : RegistrySnapshot) (b : string) : bool :=
  dict_mem (rg_registrations s) b
  && match authorize (request_of inputs b) with Ok v => allowed v | Raise _ => false end.

Lemma resolve_members_cases target inputs s ms : (forall rq, exists v, authorize rq = Ok v) ->
  match resolve_dimension_members authorize target inputs s ms with
  | Ok l => forallb (granted inputs s) ms = true /\ map rm_vault_binding_id (map fst l) = ms
  | Raise e => exists pre b post reason, ms = pre ++ b :: post /\ forallb (granted inputs s) pre = true
      /\ granted inputs s b = false /\ e = DimensionResolutionError reason target (Some b)
  end.
Proof.
  intros Ha. induction ms as [|b ms IH]; cbn [resolve_dimension_members]; [done|].
  destruct (Ha (request_of inputs b)) as [v Ev]. fold (request_of inputs b). rewrite Ev. cbn [mbind res_bind].
  destruct (allowed v) eqn:Eal; cbn [negb raise_if mbind res_bind].
  2: { exists [], b, ms. eexists. split; [done|]. split; [done|]. split; [|reflexivity]. unfold granted.
       rewrite Ev, Eal. apply andb_false_r. }
  destruct (dict_get (rg_registrations s) b) as [registration|] eqn:Eg.
  2: { exists [], b, ms. eexists. split; [done|]. split; [done|]. split; [|reflexivity].
       unfold granted, dict_mem. by rewrite Eg. }
  assert (Hb : granted inputs s b = true) by (unfold granted, dict_mem; by rewrite Eg, Ev, Eal).
  destruct (resolve_dimension_members authorize target inputs s ms) as [l|e]; cbn [mbind res_bind].
  - destruct IH as [H1 H2]. simpl. rewrite Hb, H1, H2. done.
  - destruct IH as (pre & x & post & reason & -> & H1 & H2 & ->). exists (b :: pre), x, post, reason. simpl.
    by rewrite Hb, H1.
Qed.

Lemma dimension_resolve_cases dimension_id inputs s target g d :
  (forall rq, exists v, authorize rq = Ok v) -> _validate_dimension_id dimension_id = Ok target ->
  parse_dimensions (rg_extensions s) = Ok g -> dict_get g target = Some d ->
  match dimension_resolve authorize dimension_id inputs s with
  | Ok x => vd_members d <> [] /\ forallb (granted inputs s) (vd_members d) = true
      /\ resolution_binding_ids x = vd_members d /\ dr_dimension_revision x = vd_revision d
  | Raise e =>
      vd_members d = [] /\ e = DimensionResolutionError REASON_DIMENSION_EMPTY target None
      \/ exists pre b post reason, vd_members d = pre ++ b :: post /\ forallb (granted inputs s) pre = true
         /\ granted inputs s b = false /\ e = DimensionResolutionError reason target (Some b)
  end.
Proof.
  intros Ha Ei Eg Ed. unfold dimension_resolve. rewrite Ei. cbn [mbind res_bind]. rewrite Eg. cbn [mbind res_bind].
  unfold _require_dimension. rewrite Ed. cbn [mbind res_bind].
  destruct (decide (vd_members d = [])) as [En|En].
  { rewrite bool_decide_true by done. simpl. by left. }
  rewrite bool_decide_false by done. cbn [raise_if mbind res_bind].
  pose proof (resolve_members_cases target inputs s (vd_members d) Ha) as H.
  destruct (resolve_dimension_members _ _ _ _ _) as [l|e]; cbn [mbind res_bind]; [|by right].
  by destruct H as [H1 H2].
Qed.

(** A stored dimension resolves exactly when it has members and every one
    of them is registered and allowed by the authority asked about it alone;
    then it resolves to its members in their order at its revision.  Otherwise
    the error names the first member that fails, and nothing is returned. *)
Theorem dimension_resolves_all_or_nothing dimension_id inputs s target g d :
  (forall rq, exists v, authorize rq = Ok v) -> _validate_dimension_id dimension_id = Ok target ->
  parse_dimensions (rg_extensions s) = Ok g -> dict_get g target = Some d ->
  match dimension_resolve authorize dimension_id inputs s with
  | Ok x => vd_members d <> [] /\ forallb (granted inputs s) (vd_members d) = true
      /\ resolution_binding_ids x = vd_members d /\ dr_dimension_revision x = vd_revision d
  | Raise e =>
      vd_members d = [] /\ e = DimensionResolutionError REASON_DIMENSION_EMPTY target None
      \/ exists pre b post reason, vd_members d = pre ++ b :: post /\ forallb (granted inputs s) pre = true
         /\ granted inputs s b = false /\ e = DimensionResolutionError reason target (Some b)
  end.
Proof. apply dimension_resolve_cases. Qed.
End Resolution.

(** ** Selecting by a dimension *)

Definition with_filter (f : option DimensionFilter) (r : ContextSelectionRecord) : ContextSelectionRecord :=
  mkSelection (sr_context_id r) (sr_generation r) (sr_selection_capability_digest r) (sr_principal r)
    (sr_instance_identity r) (sr_workspace r) (sr_scope r) (sr_sphere_memberships r) (sr_situated_identity r)
    (sr_binding_ids r) (sr_created_at r) (sr_expires_at r) f.

Section Selections.
Context (sha256 : string -> string) (load : nat -> res RegistrySnapshot) (is_dir : nat -> string -> bool).

Lemma create_filter raw_id uuid now pruned i f w x w' :
  create sha256 raw_id uuid now pruned i w = (Ok x, w') ->
  exists w'', create sha256 raw_id uuid now pruned
    (mkInputs (si_principal i) (si_instance_identity i) (si_workspace i) (si_scope i) (si_sphere_memberships i)
       (si_situated_identity i) (si_binding_ids i) f) w = (Ok (fst x, with_filter f (snd x)), w'').
Proof.
  unfold create. intros E. run E as s w1 E1. run E as u w2 E2. run E as u' w3 E3.
  injection E as <- <-. injection E1 as <- <-. eexists.
  erewrite st_run by reflexivity. erewrite st_run by exact E2. erewrite st_run by reflexivity. reflexivity.
Qed.

Lemma load_registry_ok w i snapshot w' : load_registry load w = (Ok (i, snapshot), w') ->
  i = sv_loads w /\ load (sv_loads w) = Ok snapshot /\ w' = mkService (sv_store w) (S (sv_loads w)).
Proof. unfold load_registry. destruct (load (sv_loads w)); [by intros [= <- <- <-]|done]. Qed.

Lemma resolve_dimension_ok derived dimension_id w x w' :
  resolve_dimension sha256 load is_dir derived dimension_id w = (Ok x, w') ->
  exists snapshot g d, load (sv_loads w) = Ok snapshot /\ _validate_dimension_id dimension_id = Ok (dr_dimension_id x)
    /\ parse_dimensions (rg_extensions snapshot) = Ok g /\ dict_get g (dr_dimension_id x) = Some d
    /\ forallb (dict_mem (rg_registrations snapshot)) (vd_members d) = true
    /\ resolution_binding_ids x = vd_members d /\ dr_dimension_revision x = vd_revision d
    /\ w' = mkService (sv_store w) (S (sv_loads w)).
Proof.
  unfold resolve_dimension. intros E. run E as [i snapshot] w1 E1. apply load_registry_ok in E1 as (-> & El & ->).
  run E as a w2 E2. apply st_lift_ok in E2 as [_ ->]. apply st_lift_ok in E as [E ->].
  pose proof E as E'. unfold dimension_resolve in E'. bound E' as target Ei. bound E' as g Eg. bound E' as d Ed.
  apply require_ok in Ed.
  pose proof (fun inputs => dimension_resolve_cases (fun rq => Ok (registry_authorize sha256 a rq))
    dimension_id inputs snapshot target g d (fun rq => ex_intro _ _ eq_refl) Ei Eg Ed) as H.
  specialize (H (mkDecision (dc_principal derived) ACTION_DIMENSION_RESOLVE WRITE_CLASS_READ PERMISSION_SELECTION_MANAGE)).
  rewrite E in H. destruct H as (_ & H2 & H3 & H4).
  bound E' as u Eu. bound E' as l0 El0. assert (dr_dimension_id x = target) as -> by (by injection E' as <-).
  exists snapshot, g, d. repeat (split; [done|]). split; [|done].
  apply forallb_forall. intros b Hb. rewrite forallb_forall in H2. specialize (H2 b Hb).
  unfold granted in H2. by apply andb_true_iff in H2 as [? _].
Qed.

(** Selecting by a dimension selects what naming its members one by one
    selects: a selection made by a dimension id holds exactly the stored
    members in their order, records the dimension with its revision, and is
    otherwise the record the same call makes for the explicit list. *)
Theorem dimension_selects_its_members derived dimension_id raw_id uuid now pruned w x w' :
  service_create sha256 load is_dir derived [] (Some dimension_id) raw_id uuid now pruned w = (Ok x, w') ->
  exists snapshot target g d w'', load (sv_loads w) = Ok snapshot
    /\ _validate_dimension_id (strip dimension_id) = Ok target
    /\ parse_dimensions (rg_extensions snapshot) = Ok g /\ dict_get g target = Some d
    /\ sr_binding_ids (snd x) = vd_members d
    /\ sr_dimension_filter (snd x) = Some (mkDimensionFilter target (vd_revision d))
    /\ service_create sha256 load is_dir derived (vd_members d) None raw_id uuid now pruned w
       = (Ok (fst x, with_filter None (snd x)), w'').
Proof.
  unfold service_create, _resolve_selection_intent. intros E. run E as [ids f] w1 E1. run E1 as u w2 E2.
  apply guard_not_ok in E2 as [_ ->]. run E1 as u' w3 E3. apply guard_not_ok in E3 as [_ ->].
  run E1 as y w4 E4. apply resolve_dimension_ok in E4 as (snapshot & g & d & El & Ei & Eg & Ed & Hreg & Hids & Hrev & ->).
  run E1 as f' w5 E5. apply st_lift_ok in E5 as [E5 ->]. injection E1 as <- <- <-.
  assert (f' = mkDimensionFilter (dr_dimension_id y) (dr_dimension_revision y)) as ->.
  { unfold as_filter, DimensionFilter_make in E5. repeat case_match; congruence. }
  unfold on_store in E. destruct (create _ _ _ _ _ _ _) as [r s1] eqn:Ec. injection E as -> <-.
  destruct (create_filter raw_id uuid now pruned _ None _ _ _ Ec) as [w'' Ew].
  rewrite Hids in Ec, Ew. rewrite Hrev in *.
  exists snapshot, (dr_dimension_id y), g, d. eexists. repeat (split; [done|]).
  split; [|split].
  - unfold create in Ec. run Ec as s w1 E1. run Ec as u1 w2 E2. run Ec as u2 w3 E3. by injection Ec as <- _.
  - unfold create in Ec. run Ec as s w1 E1. run Ec as u1 w2 E2. run Ec as u2 w3 E3. by injection Ec as <- _.
  - assert (Hv : validate_bindings load (vd_members d) w = (Ok tt, mkService (sv_store w) (S (sv_loads w)))).
    { unfold validate_bindings. erewrite st_run; [|unfold load_registry; rewrite El; reflexivity].
      cbn beta iota. rewrite (existsb_negb (dict_mem (rg_registrations snapshot))), Hreg. done. }
    erewrite st_run.
    2: { erewrite st_run by reflexivity. erewrite st_run by exact Hv. reflexivity. }
    cbn beta iota. unfold on_store. simpl sv_store in *. unfold selection_of in *. simpl in Ew. rewrite Ew. reflexivity.
Qed.
End Selections.

(** ** Runs *)

Module DimensionRun.
Definition sha (x : string) : string := "d".
Definition env : call_env := mkEnv true None (fun p => Some (mkRoot p None None)) Written Written "u1".
Definition vault (b : string) : VaultRegistration := mkRegistration b b ("/" +:+ b) None None None None [].
Definition after (c : registry_call) (w : registry) : registry := snd (run_call sha env c w).
Definition create_work : dimension_call := DCreate "work" "Work" ["b1"; "b2"].
Definition rest : call_env -> loaded -> ST registry DimensionReceipt := create_from sha None "work" "Work" ["b1"; "b2"].
Lemma work_checked : checked sha None create_work = Ok rest.
Proof. reflexivity. Qed.
Definition mutated (c : dimension_call) (w : registry) : res DimensionReceipt * registry := mutate sha None env env c w.

(** Two registrations, a dimension of both, and one of them removed. *)
Definition w0 : registry := mkRegistryState None false.
Definition w1 : registry := Eval vm_compute in after (CallRegister (vault "b1") None None) w0.
Definition w2 : registry := Eval vm_compute in after (CallRegister (vault "b2") None None) w1.
Definition l2 : loaded := Eval vm_compute in
  match fst (_load sha env w2) with Ok l => l | Raise _ => (_empty_snapshot "u1", []) end.
Definition w3 : registry := Eval vm_compute in snd (mutated create_work w2).
Definition w4 : registry := Eval vm_compute in after (CallRemove "b1" None false None None) w3.

Lemma w0_grouped : grouped w0.
Proof. exists []. split; [split; [split; constructor|by left]|by intros ? ? ? ?%not_elem_of_nil]. Qed.
Lemma reach2 : reach sha None orderly w0 [w1; w0] w2.
Proof.
  eapply (reach_call _ _ _ _ _ _ env (CallRegister (vault "b2") None None)); [|exact I|vm_compute; reflexivity].
  eapply (reach_call _ _ _ _ _ _ env (CallRegister (vault "b1") None None)); [constructor|exact I|vm_compute; reflexivity].
Qed.
Lemma loaded2 : loaded_in sha w2 l2.
Proof. exists env, w2. vm_compute. reflexivity. Qed.
Lemma reach3 : reach sha None orderly w0 [w2; w1; w0] w3.
Proof.
  eapply (reach_mutation _ _ _ _ _ w2 w2 l2 env create_work rest); [apply reach2|left|apply loaded2|apply work_checked|].
  vm_compute. reflexivity.
Qed.

Lemma strikes_run : exists g, stored_groups w3 = Ok g /\ stored_groups w4 = Ok (strike_all "b1" 4 g)
  /\ bound w4 "b1" = false /\ bound w4 "b2" = true.
Proof.
  destruct (removal_strikes_binding sha None w0 [w2; w1; w0] w3 env "b1" None false None None
    (fst (run_call sha env (CallRemove "b1" None false None None) w3)) w4 w0_grouped reach3 ltac:(vm_compute; reflexivity))
    as [[H _]|(g & H1 & H2 & H3 & H4)].
  - vm_compute in H. discriminate H.
  - exists g. split; [exact H1|]. split; [exact H2|]. split; [exact (H3 "b1")|exact (H3 "b2")].
Defined.

Definition principal : PrincipalContext := mkPrincipal "op" "delegated_operator_role" "trusted_loopback" 0.
Definition s3 : RegistrySnapshot := Eval vm_compute in
  match fst (load sha env w3) with Ok s => s | Raise _ => _empty_snapshot "u1" end.
Definition g3 : groups := Eval vm_compute in match parse_dimensions (rg_extensions s3) with Ok g => g | Raise _ => [] end.
Definition reading : decision_inputs := mkDecision principal "note.read" "read" "perm".
(** An authority that allows every binding but one. *)
Definition but (b : string) (rq : BindingAuthorizationRequest) : res BindingVerdict :=
  Ok (mkVerdict (br_vault_binding_id rq) (if String.eqb (br_vault_binding_id rq) b then "deny" else "allow") "policy" "e1").
Lemma resolves_run : exists d, dict_get g3 "work" = Some d
  /\ exists x, dimension_resolve (but "none") "work" reading s3 = Ok x /\ resolution_binding_ids x = vd_members d.
Proof.
  eexists. split; [reflexivity|].
  pose proof (dimension_resolves_all_or_nothing (but "none") "work" reading s3 "work" g3 _
    (fun rq => ex_intro _ _ eq_refl) eq_refl eq_refl eq_refl) as H.
  destruct (dimension_resolve (but "none") "work" reading s3) as [x|e] eqn:E.
  - exists x. split; [reflexivity|]. exact (proj1 (proj2 (proj2 H))).
  - vm_compute in E. discriminate E.
Defined.
(** The first member that is denied is the one named. *)
Example resolves_names_first : dimension_resolve (but "b2") "work" reading s3
  = Raise (DimensionResolutionError REASON_MEMBER_UNAUTHORIZED "work" (Some "b2")).
Proof. vm_compute. reflexivity. Qed.

Definition derived : DerivedContext := mkDerived principal "inst" WorkspaceState_none "default" [] None.
Definition zero : SpecFloat.spec_float := SpecFloat.S754_zero false.
Definition selecting (ids : list string) (dimension_id : option string) : res (string * ContextSelectionRecord) * service_world :=
  service_create sha (fun _ => Ok s3) (fun _ _ => true) derived ids dimension_id "raw" "u2" zero zero
    (mkService (new_store zero) 0).
Definition selected := Eval vm_compute in selecting [] (Some " work ").
Lemma selects_run : exists x, fst selected = Ok x /\ sr_binding_ids (snd x) = ["b1"; "b2"]
  /\ fst (selecting ["b1"; "b2"] None) = Ok (fst x, with_filter None (snd x)).
Proof.
  eexists. split; [reflexivity|].
  destruct (dimension_selects_its_members sha (fun _ => Ok s3) (fun _ _ => true) derived " work " "raw" "u2" zero zero
    (mkService (new_store zero) 0) _ (snd selected) ltac:(vm_compute; reflexivity))
    as (snapshot & target & g & d & w'' & H1 & H2 & H3 & H4 & H5 & _ & H7).
  injection H1 as <-. vm_compute in H2. injection H2 as <-. vm_compute in H3. injection H3 as <-.
  vm_compute in H4. injection H4 as <-. split; [exact H5|]. unfold selecting. cbn [vd_members] in H7. rewrite H7. reflexivity.
Defined.
End DimensionRun.
