(* ===== verification/Health.v ===== *)
(** * The health state machine

    src/app/health_contract.py, [HealthStateMachine]: the state of the runtime
    as judged from the age of the latest outbox event, with hysteresis, a
    bounded history of transitions, and sequence numbers that discard samples
    finishing out of order.

    Ages and limits are binary64 numbers, counters are unbounded integers, the
    clock is an argument.  The lock is the atomicity of a call. *)
From Stdlib Require Import SpecFloat.
From S2P Require Import Prelude PyValue PyTime Sql.
Open Scope Z_scope.

(** ** [f"{x:.1f}"] *)

(** [m * 2^e], in tenths, rounded half to even. *)
Definition tenths (m : positive) (e : Z) : Z :=
  if 0 <=? e then Z.shiftl (Z.pos m * 10) e
  else let d := Z.shiftl 1 (- e) in
       let q := Z.pos m * 10 / d in
       let r := Z.pos m * 10 mod d in
       if (2 * r <? d) || ((2 * r =? d) && Z.even q) then q else q + 1.
Definition format_1f (x : spec_float) : string :=
  let sign (s : bool) := if s then "-" else "" in
  match x with
  | S754_zero s => sign s +:+ "0.0"
  | S754_infinity s => sign s +:+ "inf"
  | S754_nan => "nan"
  | S754_finite s m e =>
      let t := tenths m e in sign s +:+ pretty (t / 10) +:+ "." +:+ pretty (t mod 10)
  end.

(** ** Data *)

(** src/app/settings/health_settings.py. *)
Record HealthThresholds : Type := mkThresholds {
  outbox_degrade_oldest_age_s : spec_float;
  outbox_recover_oldest_age_s : spec_float;
  degrade_samples : Z;
  recover_samples : Z;
  dead_lettered_warn : Z;
  oldest_undelivered_age_warn_s : spec_float }.
Definition float_of (z : Z) : spec_float := binary_normalize 53 1024 z 0 false.
Definition thresholds_defaults : HealthThresholds :=
  mkThresholds (float_of 15) (float_of 5) 3 10 1 (float_of 600).

Record transition_entry : Type := mkTransition {
  te_state : string;
  te_reason : string;
  te_since_ts : string }.
Definition _transition_entry (state reason : string) (since : datetime) : transition_entry :=
  mkTransition state reason (isoformat since).

Record HealthStateMachine : Type := mkMachine {
  hm_state : string;
  hm_reason : string;
  hm_since : datetime;
  hm_bad_counter : Z;
  hm_good_counter : Z;
  hm_transition_history : list transition_entry;
  hm_next_sample_sequence : Z;
  hm_last_applied_sample_sequence : Z }.
Definition new_machine (now : datetime) : HealthStateMachine :=
  mkMachine "boot" "initializing" now 0 0 [] 0 0.

(** ** Operations *)

Definition _reset_unlocked (now : datetime) (m : HealthStateMachine) : HealthStateMachine :=
  mkMachine "boot" "initializing" now 0 0 []
    (hm_next_sample_sequence m) (hm_last_applied_sample_sequence m).
Definition reset (now : datetime) : ST HealthStateMachine unit :=
  _ ← st_modify (_reset_unlocked now);
  st_modify (fun m => mkMachine (hm_state m) (hm_reason m) (hm_since m) (hm_bad_counter m)
    (hm_good_counter m) (hm_transition_history m) (hm_next_sample_sequence m)
    (hm_next_sample_sequence m)).

Definition reserve_sample_sequence : ST HealthStateMachine Z :=
  _ ← st_modify (fun m => mkMachine (hm_state m) (hm_reason m) (hm_since m) (hm_bad_counter m)
        (hm_good_counter m) (hm_transition_history m) (hm_next_sample_sequence m + 1)
        (hm_last_applied_sample_sequence m));
  m ← st_get; mret (hm_next_sample_sequence m).

Definition machine_snapshot : Type := string * string * string * list transition_entry.
Definition _snapshot_unlocked (m : HealthStateMachine) : machine_snapshot :=
  (hm_state m, hm_reason m, isoformat (hm_since m), hm_transition_history m).
Definition snapshot : ST HealthStateMachine machine_snapshot :=
  m ← st_get; mret (_snapshot_unlocked m).

Definition set_last_applied (q : Z) (m : HealthStateMachine) : HealthStateMachine :=
  mkMachine (hm_state m) (hm_reason m) (hm_since m) (hm_bad_counter m) (hm_good_counter m)
    (hm_transition_history m) (hm_next_sample_sequence m) q.
Definition advance_sample_sequence (sample_sequence : Z) : ST HealthStateMachine machine_snapshot :=
  m ← st_get;
  _ ← (if hm_last_applied_sample_sequence m <? sample_sequence
       then st_modify (set_last_applied sample_sequence) else mret tt);
  snapshot.

Definition _record_transition (m : HealthStateMachine) : HealthStateMachine :=
  let h := _transition_entry (hm_state m) (hm_reason m) (hm_since m) :: hm_transition_history m in
  mkMachine (hm_state m) (hm_reason m) (hm_since m) (hm_bad_counter m) (hm_good_counter m)
    (if (20 <? length h)%nat then take 20 h else h)
    (hm_next_sample_sequence m) (hm_last_applied_sample_sequence m).

(** The new counters, state and reason: the [if] chain of [_update_unlocked]. *)
Definition judged (age : spec_float) (t : HealthThresholds) (m : HealthStateMachine)
  : Z * Z * string * string :=
  if SFltb (outbox_degrade_oldest_age_s t) age then
    let bad := hm_bad_counter m + 1 in
    if degrade_samples t <=? bad
    then (bad, 0, "degraded", "outbox idle, last event " +:+ format_1f age +:+ "s ago")
    else (bad, 0, "catch_up", "catching up (last event " +:+ format_1f age +:+ "s ago)")
  else if SFltb age (outbox_recover_oldest_age_s t) then
    let good := hm_good_counter m + 1 in
    if existsb (String.eqb (hm_state m)) ["degraded"; "recovery"] then
      if recover_samples t <=? good
      then (0, good, "running", "outbox activity recovered")
      else (0, good, "recovery", "recovering (activity improving)")
    else (0, good, "running", "recent activity")
  else (0, 0, "running", "recent activity").

Definition _update_unlocked (age : spec_float) (t : HealthThresholds) (now : datetime)
    (m : HealthStateMachine) : HealthStateMachine :=
  let '(bad, good, next_state, reason) := judged age t m in
  if String.eqb next_state (hm_state m)
  then mkMachine (hm_state m) (hm_reason m) (hm_since m) bad good (hm_transition_history m)
         (hm_next_sample_sequence m) (hm_last_applied_sample_sequence m)
  else _record_transition (mkMachine next_state reason now bad good (hm_transition_history m)
         (hm_next_sample_sequence m) (hm_last_applied_sample_sequence m)).

(** What [update_with_transition] returns. *)
Record machine_update : Type := mkUpdate {
  mu_state : string;
  mu_reason : string;
  mu_since_ts : string;
  mu_transitioned : bool;
  mu_history : list transition_entry;
  mu_applied : bool }.

(** [now] is the argument or, by default, the clock. *)
Definition update_with_transition (age : spec_float) (t : HealthThresholds) (now : datetime)
    (sample_sequence : option Z) : ST HealthStateMachine machine_update :=
  q ← match sample_sequence with Some q => mret q | None => reserve_sample_sequence end;
  m ← st_get;
  if q <=? hm_last_applied_sample_sequence m then
    mret (mkUpdate (hm_state m) (hm_reason m) (isoformat (hm_since m)) false
            (hm_transition_history m) false)
  else
    _ ← st_modify (_update_unlocked age t now);
    _ ← st_modify (set_last_applied q);
    m' ← st_get;
    mret (mkUpdate (hm_state m') (hm_reason m') (isoformat (hm_since m'))
            (negb (String.eqb (hm_state m') (hm_state m))) (hm_transition_history m') true).

Definition update (age : spec_float) (t : HealthThresholds) (now : datetime)
  : ST HealthStateMachine (string * string * string) :=
  u ← update_with_transition age t now None; mret (mu_state u, mu_reason u, mu_since_ts u).

Example format_age : map format_1f [float_of 16; SFdiv 53 1024 (float_of 1) (float_of 4);
    SFdiv 53 1024 (float_of 3) (float_of 4); SFdiv 53 1024 (float_of 31) (float_of 2)]
  = ["16.0"; "0.2"; "0.8"; "15.5"].
Proof. vm_compute. reflexivity. Qed.

(** ** The state as a function of the samples *)

Inductive band : Type := Bad | Good | Between.
#[export] Instance band_eq_dec : EqDecision band.
Proof. solve_decision. Defined.

Section ClosedForm.
Context (t : HealthThresholds).

Definition band_of (age : spec_float) : band :=
  if SFltb (outbox_degrade_oldest_age_s t) age then Bad
  else if SFltb age (outbox_recover_oldest_age_s t) then Good else Between.

(** The length of the leading run of [b]. *)
Fixpoint run_length (b : band) (l : list band) : nat :=
  match l with
  | c :: l => if decide (c = b) then S (run_length b l) else O
  | [] => O
  end.
Definition degraded_run (l : list band) : bool :=
  (0 <? run_length Bad l)%nat && (degrade_samples t <=? Z.of_nat (run_length Bad l)).

(** The state after samples in the bands [l], the latest first. *)
Definition expected_state (l : list band) : string :=
  match l with
  | [] => "boot"
  | Bad :: _ => if degraded_run l then "degraded" else "catch_up"
  | Between :: _ => "running"
  | Good :: _ =>
      let g := run_length Good l in
      if degraded_run (drop g l) && (Z.of_nat g <? recover_samples t) then "recovery" else "running"
  end.

(** Samples that arrive with their sequence numbers; those not newer than the
    ones already seen are discarded. *)
Definition arrival : Type := Z * (spec_float * datetime).
Fixpoint accepted (last : Z) (l : list arrival) : list spec_float :=
  match l with
  | [] => []
  | (q, (age, _)) :: l => if q <=? last then accepted last l else age :: accepted q l
  end.
Definition arrive (m : HealthStateMachine) (a : arrival) : HealthStateMachine :=
  snd (update_with_transition (fst (snd a)) t (snd (snd a)) (Some (fst a)) m).

Definition settled (l : list band) (m : HealthStateMachine) : Prop :=
  hm_state m = expected_state l /\ hm_bad_counter m = Z.of_nat (run_length Bad l)
  /\ hm_good_counter m = Z.of_nat (run_length Good l).

Lemma update_with_transition_run age now q m :
  snd (update_with_transition age t now (Some q) m)
  = if q <=? hm_last_applied_sample_sequence m then m
    else set_last_applied q (_update_unlocked age t now m).
Proof.
  unfold update_with_transition, mbind, ST_bind. cbn [mret ST_ret st_get].
  by destruct (q <=? hm_last_applied_sample_sequence m).
Qed.

Lemma update_state age now m bad good s r :
  judged age t m = (bad, good, s, r) ->
  hm_state (_update_unlocked age t now m) = s
  /\ hm_bad_counter (_update_unlocked age t now m) = bad
  /\ hm_good_counter (_update_unlocked age t now m) = good.
Proof.
  unfold _update_unlocked. intros ->. destruct (String.eqb_spec s (hm_state m)) as [->|?]; done.
Qed.

Lemma expected_degraded l :
  existsb (String.eqb (expected_state l)) ["degraded"; "recovery"]
  = degraded_run (drop (run_length Good l) l)
    && ((Z.of_nat (run_length Good l) <? recover_samples t) || bool_decide (run_length Good l = 0%nat)).
Proof.
  destruct l as [|[] l]; [done| |..].
  - cbn [run_length]. rewrite decide_False by done. cbn [drop expected_state].
    rewrite (bool_decide_true (0 = 0)%nat), orb_true_r, andb_true_r by done.
    by destruct (degraded_run _).
  - unfold expected_state. set (g := run_length Good (Good :: l)).
    assert (Hg : g <> 0%nat) by (subst g; cbn; by rewrite decide_True).
    rewrite bool_decide_false by done. rewrite orb_false_r.
    by destruct (_ && _).
  - cbn [run_length]. rewrite decide_False by done. done.
Qed.

Lemma update_settled age now l m :
  settled l m -> settled (band_of age :: l) (_update_unlocked age t now m).
Proof.
  intros (Hs & Hb & Hg).
  destruct (judged age t m) as [[[bad good] s] r] eqn:E.
  destruct (update_state age now m bad good s r E) as (Es & Eb & Eg).
  unfold settled. rewrite Es, Eb, Eg. clear Es Eb Eg. unfold judged in E. unfold band_of.
  destruct (SFltb _ age).
  - cbn. rewrite Hb in E. unfold degraded_run. cbn [run_length]. rewrite decide_True by done. cbn -[Z.of_nat].
    rewrite Nat2Z.inj_succ. unfold Z.succ.
    destruct (degrade_samples t <=? _); injection E as <- <- <- _; done.
  - destruct (SFltb age _); cbn -[expected_state]; rewrite ?decide_True, ?decide_False by done.
    + rewrite Hs, expected_degraded, Hg in E. unfold expected_state. cbn [run_length].
      rewrite decide_True by done. cbn [drop]. rewrite Nat2Z.inj_succ. unfold Z.succ in *.
      destruct (degraded_run _); cbn [andb] in *; [|injection E as <- <- <- _; repeat split; lia].
      destruct (Z.ltb_spec (Z.of_nat (run_length Good l)) (recover_samples t));
      destruct (Z.leb_spec (recover_samples t) (Z.of_nat (run_length Good l) + 1));
      destruct (Z.ltb_spec (Z.of_nat (run_length Good l) + 1) (recover_samples t));
      destruct (bool_decide _); cbn [orb] in E; injection E as <- <- <- _; repeat split; lia.
    + injection E as <- <- <- _. done.
Qed.

Lemma arrive_settled l m a :
  settled l m ->
  settled (map band_of (rev (accepted (hm_last_applied_sample_sequence m) [a])) ++ l) (arrive m a)
  /\ hm_last_applied_sample_sequence (arrive m a)
     = Z.max (fst a) (hm_last_applied_sample_sequence m).
Proof.
  intros H. destruct a as [q [age now]]. unfold arrive. rewrite update_with_transition_run. cbn.
  destruct (Z.leb_spec q (hm_last_applied_sample_sequence m)); cbn; split; try done; try lia.
  destruct (update_settled age now l m H) as (Hs & Hb & Hg). done.
Qed.

Lemma arrivals_settled arrivals l m :
  settled l m ->
  settled (map band_of (rev (accepted (hm_last_applied_sample_sequence m) arrivals)) ++ l)
    (fold_left arrive arrivals m).
Proof.
  revert l m. induction arrivals as [|a arrivals IH]; intros l m H; [done|].
  destruct (arrive_settled l m a H) as [H' E]. apply IH in H'. cbn [fold_left].
  destruct a as [q [age now]]. cbn [accepted fst] in *. rewrite E in H'.
  destruct (Z.leb_spec q (hm_last_applied_sample_sequence m)).
  - by rewrite Z.max_r in H' by lia.
  - rewrite Z.max_l in H' by lia. cbn [rev app map] in *.
    by rewrite map_app, <- app_assoc.
Qed.

(** C29: the state of the machine is a function of the bands of the samples it
    accepted (those with a sequence number above all earlier ones): degraded
    after [degrade_samples] consecutive bad samples and catching up before,
    recovering after a degraded run until [recover_samples] good samples in a
    row, running otherwise, so one sample between the limits ends a degraded
    state at once.  The counters are the lengths of the current runs. *)
Theorem health_state_closed_form started arrivals :
  let m := fold_left arrive arrivals (new_machine started) in
  let l := map band_of (rev (accepted 0 arrivals)) in
  hm_state m = expected_state l /\ hm_bad_counter m = Z.of_nat (run_length Bad l)
  /\ hm_good_counter m = Z.of_nat (run_length Good l).
Proof.
  intros m l. subst m l.
  pose proof (arrivals_settled arrivals [] (new_machine started)) as H.
  rewrite app_nil_r in H. apply H. done.
Qed.
End ClosedForm.

(** ** The history *)

Inductive machine_op : Type :=
  | OpReset (now : datetime)
  | OpReserve
  | OpUpdate (age : spec_float) (t : HealthThresholds) (now : datetime) (sample_sequence : option Z)
  | OpAdvance (sample_sequence : Z)
  | OpSnapshot.
Definition machine_step (op : machine_op) (m : HealthStateMachine) : HealthStateMachine :=
  match op with
  | OpReset now => snd (reset now m)
  | OpReserve => snd (reserve_sample_sequence m)
  | OpUpdate age t now q => snd (update_with_transition age t now q m)
  | OpAdvance q => snd (advance_sample_sequence q m)
  | OpSnapshot => snd (snapshot m)
  end.

(** Neighbouring entries record different states. *)
Fixpoint alternates (h : list transition_entry) : Prop :=
  match h with
  | a :: (b :: _) as h' => te_state a <> te_state b /\ alternates h'
  | _ => True
  end.
Definition OUTBOX_STATES : list string := ["boot"; "catch_up"; "degraded"; "recovery"; "running"].
(** The latest entry is the current state. *)
Definition current (m : HealthStateMachine) : transition_entry :=
  mkTransition (hm_state m) (hm_reason m) (isoformat (hm_since m)).
Definition history_ok (m : HealthStateMachine) : Prop :=
  (length (hm_transition_history m) <= 20)%nat
  /\ alternates (hm_transition_history m)
  /\ match hm_transition_history m with
     | e :: _ => e = current m
     | [] => hm_state m = "boot"
     end
  /\ Forall (fun e => te_state e ∈ OUTBOX_STATES) (current m :: hm_transition_history m).

Lemma alternates_take n h : alternates h -> alternates (take n h).
Proof.
  revert n. induction h as [|a [|b h] IH]; intros [|[|n]]; try done. intros [Hab H].
  cbn [take]. split; [done|]. exact (IH (S n) H).
Qed.

Lemma judged_state age t m : snd (fst (judged age t m)) ∈ OUTBOX_STATES.
Proof. unfold judged, OUTBOX_STATES. split_matches; set_solver. Qed.

Lemma record_transition_ok m :
  match hm_transition_history m with e :: _ => te_state e <> hm_state m | [] => True end ->
  alternates (hm_transition_history m) ->
  Forall (fun e => te_state e ∈ OUTBOX_STATES) (current m :: hm_transition_history m) ->
  history_ok (_record_transition m).
Proof.
  intros Hne Ha Hf. unfold _record_transition. set (h := _ :: hm_transition_history m).
  assert (Hh : alternates h) by (subst h; destruct (hm_transition_history m); cbn; done).
  assert (Ht : take 20 h = current m :: take 19 (hm_transition_history m)) by done.
  inversion Hf as [|? ? Hc Hr].
  destruct (Nat.ltb_spec 20 (length h)) as [Hl|Hl]; unfold history_ok; cbn [hm_transition_history].
  - rewrite length_take, Ht. split_and!; [lia|by rewrite <- Ht; apply alternates_take|done|].
    constructor; [exact Hc|]. constructor; [exact Hc|]. by apply Forall_take.
  - split_and!; [lia|done|done|]. constructor; [exact Hc|]. by constructor.
Qed.

Lemma update_history_ok age t now m : history_ok m -> history_ok (_update_unlocked age t now m).
Proof.
  intros (Hl & Ha & Hc & Hf). unfold _update_unlocked.
  pose proof (judged_state age t m) as Hj. destruct (judged age t m) as [[[bad good] s] r]. cbn in Hj.
  destruct (String.eqb_spec s (hm_state m)) as [->|Hne]; [done|].
  inversion Hf. apply record_transition_ok; cbn; [|done|by constructor].
  destruct (hm_transition_history m); [done|]. rewrite Hc. cbn. congruence.
Qed.

Lemma machine_step_ok op m : history_ok m -> history_ok (machine_step op m).
Proof.
  intros H. destruct op as [now| |age t now q|q|]; cbn [machine_step].
  - repeat split; cbn; try lia; repeat constructor; set_solver.
  - done.
  - assert (Hq : forall q m, history_ok m -> history_ok (snd (update_with_transition age t now (Some q) m))).
    { intros p n Hn. rewrite update_with_transition_run.
      destruct (p <=? hm_last_applied_sample_sequence n); [done|].
      by apply (update_history_ok age t now) in Hn. }
    destruct q as [q|]; [by apply Hq|].
    exact (Hq (hm_next_sample_sequence m + 1) (snd (reserve_sample_sequence m)) H).
  - unfold advance_sample_sequence, mbind, ST_bind. cbn [st_get].
    by destruct (hm_last_applied_sample_sequence m <? q).
  - done.
Qed.

(** Whatever calls are made, in any order, the machine keeps at most twenty
    transitions, the latest of them is the state it reports with its reason and
    time, neighbouring ones differ, and only the five outbox states occur: it
    never blocks writes by itself. *)
Theorem history_bounded started ops :
  let m := fold_left (fun m op => machine_step op m) ops (new_machine started) in
  (length (hm_transition_history m) <= 20)%nat
  /\ alternates (hm_transition_history m)
  /\ match hm_transition_history m with
     | e :: _ => e = current m
     | [] => hm_state m = "boot"
     end
  /\ Forall (fun e => te_state e ∈ OUTBOX_STATES) (current m :: hm_transition_history m).
Proof.
  intros m. subst m. change (history_ok (fold_left (fun m op => machine_step op m) ops (new_machine started))).
  assert (H : history_ok (new_machine started))
    by (repeat split; cbn; try lia; repeat constructor; set_solver).
  revert H. generalize (new_machine started) as m. induction ops as [|op ops IH]; intros m H; [done|].
  cbn. by apply IH, machine_step_ok.
Qed.
