(* ===== verification/HealthContract.v ===== *)
(** * The health contract and the write guard

    src/app/health_contract.py, [HealthContract]: one evaluation reserves a
    sample, probes the database, reads the outbox and the stores, updates the
    state machine and publishes a snapshot; evaluations run concurrently and
    the contract orders their results.  src/app/write_guard.py refuses writes
    by the snapshot's state and src/app/api/routes/health_contract.py answers
    readiness by it.  The event fields are those of src/app/events/outbox.py.

    What an evaluation observes of the outside (settings, resolution, ping,
    files, stores, index) is an [observation], given; a failed read is a value
    of it.  Keys of the snapshot that copy settings, the environment or the
    watcher's heartbeat are left out.  Timestamps are read as in [PyTime]. *)
From Stdlib Require Import SpecFloat.
From S2P Require Import Prelude PyValue PyTime Sql Health.
Open Scope Z_scope.

Definition _HEALTH_TAIL_BYTES : Z := 8 * 1024 * 1024.
Definition _DEAD_LETTER_EVENT : string := "outbox.event.dead_lettered".
Definition WRITE_BLOCKED_STATES : list string := ["safe_mode"; "unhealthy"].
Definition INCIDENT_STATES : list string := ["degraded"; "unhealthy"; "safe_mode"].

(** ** Outbox records *)

Definition first_field (rec : pydict) (ks : list string) : string :=
  strip (py_str (fold_right (fun k v => py_or (get rec k) v) (PStr "") ks)).
Definition _timestamp (rec : pydict) : string := first_field rec ["timestamp"; "created_at"].
Definition _trace_id (rec : pydict) : string := first_field rec ["trace_id"].
Definition _event_name (rec : pydict) : string := first_field rec ["event"; "event_type"].

(** [_pick_trace_id(rows, trace_id="", latest=True)]. *)
Definition _pick_trace_id (rows : list pydict) : string :=
  default "" (List.find (fun tid => negb (String.eqb tid "")) (map _trace_id (rev rows))).
(** [latest_trace_story(rows).get("count", 0)]. *)
Definition latest_trace_count (rows : list pydict) : nat :=
  let trace_id := _pick_trace_id rows in
  if String.eqb trace_id "" then O
  else length (List.filter (fun r => String.eqb (_trace_id r) trace_id) rows).

(** ** What an evaluation observes *)

Record StoreBackendResolution : Type := mkBackend {
  sb_backend : option string;
  sb_error : option string }.
Record ProductReadiness : Type := mkReadiness {
  pr_state : string;
  pr_ready : bool;
  pr_reason : string;
  pr_source_count : Z;
  pr_projection_count : Z }.
(** A bounded read of the outbox file. *)
Inductive file_read : Type := Missing | Unreadable | Contents (size : Z) (records : list pydict).

Record observation : Type := mkObservation {
  ob_now : datetime;
  ob_thresholds : HealthThresholds;
  ob_capture_enabled : bool;
  ob_capture_history : bool;
  ob_vault_root : option string;
  ob_resolution : StoreBackendResolution;
  ob_ping : (bool * string) + string;      (** answer or the exception's name *)
  ob_db_count : option Z;
  ob_count_file : file_read;
  ob_tail : option (list pydict);
  ob_objects : Z + string;                 (** count or the error *)
  ob_product : ProductReadiness + string;  (** verdict, or the name of the exception of the listing *)
  ob_index : option (list string * list string);  (** issues and warnings *)
  ob_dead_letters : option (Z * spec_float);
  ob_log_writable : bool }.

(** ** Pure parts *)

(** [_resolve_store_backend_for_health] has already run. *)
Definition is_pg (r : StoreBackendResolution) : bool := bool_decide (sb_backend r = Some "pg").

Definition _db_dependency_down_reason (ob : observation) : option string :=
  match sb_error (ob_resolution ob) with
  | Some e => Some ("store resolution failed: " +:+ e)
  | None =>
      if negb (is_pg (ob_resolution ob)) then None else
      match ob_ping ob with
      | inr name => Some ("postgres unreachable (ping error: " +:+ name +:+ ")")
      | inl (true, _) => None
      | inl (false, detail) => Some ("postgres unreachable: " +:+ detail)
      end
  end.

Definition _count_outbox_lines_db (ob : observation) : option Z :=
  if is_pg (ob_resolution ob) then ob_db_count ob else None.
Definition _count_outbox_lines_from_file (f : file_read) : option Z :=
  match f with
  | Missing => Some 0
  | Unreadable => None
  | Contents size records => if _HEALTH_TAIL_BYTES <? size then None else Some (Z.of_nat (length records))
  end.
Definition _count_outbox_lines (ob : observation) : option Z :=
  match _count_outbox_lines_db ob with
  | Some n => Some n
  | None => _count_outbox_lines_from_file (ob_count_file ob)
  end.

Record dead_letter_stats : Type := mkDeadLetters {
  dl_count : option Z;
  dl_age : option spec_float }.
Definition _dead_letter_stats_db (ob : observation) : option dead_letter_stats :=
  if is_pg (ob_resolution ob)
  then (fun p => mkDeadLetters (Some (fst p)) (Some (snd p))) <$> ob_dead_letters ob else None.
Definition _dead_letter_stats_from_records (records : option (list pydict)) : dead_letter_stats :=
  match records with
  | None => mkDeadLetters None None
  | Some l =>
      mkDeadLetters (Some (Z.of_nat (length
        (List.filter (fun r => String.eqb (_event_name r) _DEAD_LETTER_EVENT) l))))
        (Some (S754_zero false))
  end.
Definition _dead_letter_status (s : dead_letter_stats) (t : HealthThresholds) : string :=
  match dl_count s, dl_age s with
  | Some count, Some age =>
      if Z.max (dead_lettered_warn t) 1 <=? count then "warn"
      else if SFltb (oldest_undelivered_age_warn_s t) age then "warn" else "pass"
  | _, _ => "unknown"
  end.

Definition _parse_timestamp (value : string) : option datetime :=
  if String.eqb value "" then None else
  let text := strip value in
  fromisoformat (if ends_with_Z text
                 then str_take (String.length text - 1) text +:+ "+00:00" else text).

(** [a > b]. *)
Definition datetime_gt (a b : datetime) : res bool := le ← datetime_le a b; Ok (negb le).
Fixpoint latest_from (latest : option datetime) (records : list pydict) : res (option datetime) :=
  match records with
  | [] => Ok latest
  | rec :: records =>
      match _parse_timestamp (_timestamp rec) with
      | None => latest_from latest records
      | Some ts =>
          match latest with
          | None => latest_from (Some ts) records
          | Some l => gt ← datetime_gt ts l; latest_from (if gt : bool then Some ts else latest) records
          end
      end
  end.
Definition _latest_timestamp (records : option (list pydict)) : res (option datetime) :=
  latest_from None (default [] records).

(** [n / d] on positive integers, correctly rounded. *)
Definition true_div (n d : positive) : spec_float :=
  let '(q, e, l) := SFdiv_core_binary 53 1024 (Zpos n) 0 (Zpos d) 0 in
  binary_round_aux 53 1024 false q e l.
(** [max(delta.total_seconds(), 0.0)] of a difference in microseconds. *)
Definition seconds_from (us : Z) : spec_float :=
  match us with Zpos n => true_div n 1000000 | _ => S754_zero false end.
Definition _compute_age (ts : option datetime) (now : datetime) : res spec_float :=
  match ts with
  | None => Ok (S754_zero false)
  | Some ts =>
      match instant now, instant ts with
      | Some n, Some t => Ok (seconds_from (n - t))
      | None, None => Ok (seconds_from (dt_us now - dt_us ts))
      | _, _ => Raise (TypeError "can't subtract offset-naive and offset-aware datetimes")
      end
  end.
(** [... if records is not None else None]. *)
Definition age_of (records : option (list pydict)) (now : datetime) : res (option spec_float) :=
  latest ← _latest_timestamp records;
  match records with
  | None => Ok None
  | Some _ => age ← _compute_age latest now; Ok (Some age)
  end.

Definition _summary_status (issues warnings : list string) : string :=
  if bool_decide (issues <> []) then "fail" else if bool_decide (warnings <> []) then "warn" else "pass".
Definition _events_status (records : option (list pydict)) : string :=
  match records with
  | None => "unknown"
  | Some [] => "warn"
  | Some rows => if (0 <? latest_trace_count rows)%nat then "pass" else "warn"
  end.

Fixpoint count_errors_from (cutoff : datetime) (records : list pydict) : res Z :=
  match records with
  | [] => Ok 0
  | rec :: records =>
      match _parse_timestamp (_timestamp rec) with
      | None => count_errors_from cutoff records
      | Some ts =>
          old ← datetime_gt cutoff ts;
          n ← count_errors_from cutoff records;
          Ok (if negb old && substring "error" (lower (_event_name rec)) then n + 1 else n)
      end
  end.
Definition _count_errors (records : option (list pydict)) (now : datetime) : res (option Z) :=
  match records with
  | None => Ok None
  | Some l =>
      if dt_us now <? 600000000 then Raise (OtherException "OverflowError") else
      n ← count_errors_from (mkDatetime (dt_us now - 600000000) (dt_offset now)) l;
      Ok (match l with [] => None | _ => Some n end)
  end.

Record catch_up_progress : Type := mkProgress {
  cp_outbox_count : Z;
  cp_outbox_recent_age_s : spec_float;
  cp_processing_mode : string }.
Definition _catch_up_progress (outbox_count : option Z) (age : option spec_float) (t : HealthThresholds)
  : option catch_up_progress :=
  match outbox_count, age with
  | Some n, Some a =>
      Some (mkProgress n a
        (if n <=? 0 then "idle"
         else if SFltb (outbox_degrade_oldest_age_s t) a then "replay"
         else if SFltb (outbox_recover_oldest_age_s t) a then "stalled" else "idle"))
  | _, _ => None
  end.

Definition _suggested_actions (age : option spec_float) (index_status : string) (writes_allowed : bool)
    (dead_letter_status : string) (store_count_error : option string) : list string :=
  (if match age with None => true | Some a => SFltb (S754_zero false) a end
   then ["python -m app.cli events-doctor --path $INDEX_OUTBOX_PATH"] else [])
  ++ (if existsb (String.eqb index_status) ["warn"; "fail"]
      then ["python -m app.cli index doctor --json"] else [])
  ++ (if String.eqb dead_letter_status "warn"
      then ["inspect dead-lettered outbox events: grep outbox.event.dead_lettered $INDEX_OUTBOX_PATH"]
      else [])
  ++ (if bool_decide (store_count_error <> None) then ["python -m app.cli health --json"] else [])
  ++ (if writes_allowed then [] else ["python -m app.cli health status --json"]).

Definition _count_objects (ob : observation) : Z * option string :=
  match ob_objects ob with inl n => (n, None) | inr e => (0, Some e) end.
(** The verifier ([product_readiness_fn]) is given by its verdict: it does not
    raise. *)
Definition _product_readiness (ob : observation) : ProductReadiness :=
  if bool_decide (ob_vault_root ob = None) || negb (is_pg (ob_resolution ob))
  then mkReadiness "not_selected" true "Product loss gate not applicable" 0 0
  else match ob_product ob with
       | inl verdict => verdict
       | inr name => mkReadiness "refused" false ("Product projection unavailable (" +:+ name +:+ ")") 0 0
       end.
Definition _bootstrap_state (object_count : Z) (outbox_count : option Z) (store_error : option string)
  : string * string :=
  match store_error, outbox_count with
  | Some e, _ => ("unknown", "store object count unavailable: " +:+ e)
  | None, None => ("unknown", "outbox count unavailable")
  | None, Some n =>
      if (object_count =? 0) && (n =? 0) then ("empty", "no objects ingested yet")
      else ("active", "objects or outbox events detected")
  end.

(** ** The contract *)

Record health_snapshot : Type := mkSnapshot {
  sn_state : string;
  sn_reason : string;
  sn_since_ts : string;
  sn_outbox_count : option Z;
  sn_outbox_recent_age_s : option spec_float;
  sn_store_object_count : Z;
  sn_store_resolution_error : option string;
  sn_bootstrap : string * string;
  sn_product_readiness : ProductReadiness;
  sn_index_doctor_status : string;
  sn_events_doctor_status : string;
  sn_errors_last_10m : option Z;
  sn_dead_letters : dead_letter_stats;
  sn_dead_letter_status : string;
  sn_writes_allowed : bool;
  sn_write_guard_reason : option string;
  sn_catch_up_progress : option catch_up_progress;
  sn_suggested_actions : list string;
  sn_recent_transition_history : option (list transition_entry) }.

Record incident_entry : Type := mkIncident {
  ie_ts : string;
  ie_state : string;
  ie_reason : string;
  ie_since_ts : string;
  ie_outbox_count : option Z;
  ie_outbox_recent_age_s : option spec_float;
  ie_index_doctor_status : string;
  ie_events_doctor_status : string;
  ie_writes_allowed : bool;
  ie_write_guard_reason : option string;
  ie_catch_up_progress : option catch_up_progress;
  ie_suggested_actions : list string;
  ie_recent_transition_history : option (list transition_entry) }.
(** The arguments of the call are fields of the snapshot. *)
Definition _incident_entry (now : datetime) (s : health_snapshot) : incident_entry :=
  mkIncident (isoformat now) (sn_state s) (sn_reason s) (sn_since_ts s) (sn_outbox_count s)
    (sn_outbox_recent_age_s s) (sn_index_doctor_status s) (sn_events_doctor_status s)
    (sn_writes_allowed s) (sn_write_guard_reason s) (sn_catch_up_progress s) (sn_suggested_actions s)
    (sn_recent_transition_history s).

Record HealthContract : Type := mkContract {
  hc_machine : HealthStateMachine;
  hc_incident_reported : bool;
  hc_incident_sequence : Z;
  hc_down_reason : option string;
  hc_latest_completed_sequence : Z;
  hc_latest_completed_snapshot : option health_snapshot;
  hc_incident_log : list incident_entry }.
Definition new_contract (started : datetime) : HealthContract :=
  mkContract (new_machine started) false 0 None 0 None [].

Definition on_machine {A} (f : ST HealthStateMachine A) : ST HealthContract A := fun c =>
  let '(r, m) := f (hc_machine c) in
  (r, mkContract m (hc_incident_reported c) (hc_incident_sequence c) (hc_down_reason c)
        (hc_latest_completed_sequence c) (hc_latest_completed_snapshot c) (hc_incident_log c)).

Definition _should_capture_dependency_incident (sample_sequence : Z) (down_reason : option string)
    (current_state : string) : ST HealthContract bool :=
  c ← st_get;
  let set (reported : bool) := st_modify (fun c =>
    mkContract (hc_machine c) reported sample_sequence down_reason (hc_latest_completed_sequence c)
      (hc_latest_completed_snapshot c) (hc_incident_log c)) in
  if sample_sequence <=? hc_incident_sequence c then mret false
  else match down_reason with
       | None => _ ← set false; mret false
       | Some _ =>
           _ ← set true;
           mret (negb (String.eqb current_state "unhealthy") && negb (hc_incident_reported c))
       end.

Definition _dependency_override_after (sample_sequence : Z) : ST HealthContract (option string) :=
  c ← st_get;
  mret (if hc_incident_sequence c <=? sample_sequence then None else hc_down_reason c).

(** The [assert] on the stored snapshot is an [AssertionError]. *)
Definition _complete_snapshot (sample_sequence : Z) (s : health_snapshot) : ST HealthContract health_snapshot :=
  c ← st_get;
  if sample_sequence <? hc_latest_completed_sequence c then
    match hc_latest_completed_snapshot c with
    | Some latest => mret latest
    | None => st_raise (OtherException "AssertionError")
    end
  else
    _ ← st_modify (fun c => mkContract (hc_machine c) (hc_incident_reported c) (hc_incident_sequence c)
          (hc_down_reason c) sample_sequence (Some s) (hc_incident_log c));
    mret s.

(** A failed append is swallowed. *)
Definition _append_incident_log (writable : bool) (entry : incident_entry) : ST HealthContract unit :=
  if writable then st_modify (fun c => mkContract (hc_machine c) (hc_incident_reported c)
      (hc_incident_sequence c) (hc_down_reason c) (hc_latest_completed_sequence c)
      (hc_latest_completed_snapshot c) (hc_incident_log c ++ [entry]))
  else mret tt.

Definition history_key (ob : observation) (h : list transition_entry) : option (list transition_entry) :=
  if ob_capture_history ob then Some h else None.

(** *** The database is down *)

(** What [_db_down_snapshot] gathers before it touches shared state; the
    number of errors is only counted at the end. *)
Definition down_readings (ob : observation) : res (option spec_float * option Z) :=
  age ← age_of (ob_tail ob) (ob_now ob);
  Ok (age, _count_outbox_lines_from_file (ob_count_file ob)).
Definition down_snapshot (ob : observation) (reason : string) (age : option spec_float)
    (outbox_count : option Z) (errors : option Z) (history : list transition_entry) : health_snapshot :=
  let dead_letter := _dead_letter_stats_from_records (ob_tail ob) in
  mkSnapshot "unhealthy" reason (isoformat (ob_now ob)) outbox_count age 0
    (sb_error (ob_resolution ob)) (_bootstrap_state 0 outbox_count (sb_error (ob_resolution ob)))
    (if bool_decide (ob_vault_root ob <> None) && is_pg (ob_resolution ob)
     then mkReadiness "refused" false "Product store dependency unavailable" 0 0
     else mkReadiness "not_selected" true "no vault selected" 0 0)
    "fail" (_events_status (ob_tail ob)) errors dead_letter
    (_dead_letter_status dead_letter (ob_thresholds ob)) false (Some reason)
    (_catch_up_progress outbox_count age (ob_thresholds ob))
    ["python -m app.cli health status --json"] (history_key ob history).

(** The incident of an outage, if it is to be logged. *)
Definition log_outage (ob : observation) (capture : bool) (s : health_snapshot) : ST HealthContract unit :=
  if ob_capture_enabled ob && capture
  then _append_incident_log (ob_log_writable ob) (_incident_entry (ob_now ob) s) else mret tt.
Definition _db_down_snapshot (ob : observation) (reason : string) (sample_sequence : Z)
  : ST HealthContract health_snapshot :=
  '(age, outbox_count) ← st_lift (down_readings ob);
  ms ← on_machine (advance_sample_sequence sample_sequence);
  let '(current_state, _, _, history) := ms : machine_snapshot in
  capture ← _should_capture_dependency_incident sample_sequence (Some reason) current_state;
  _ ← log_outage ob capture (down_snapshot ob reason age outbox_count None history);
  errors ← st_lift (_count_errors (ob_tail ob) (ob_now ob));
  _complete_snapshot sample_sequence (down_snapshot ob reason age outbox_count errors history).

(** *** The database is up *)

Record up_readings : Type := mkReadings {
  ur_outbox_count : option Z;
  ur_objects : Z * option string;
  ur_product : ProductReadiness;
  ur_age : option spec_float }.
Definition read_up (ob : observation) : res up_readings :=
  age ← age_of (ob_tail ob) (ob_now ob);
  Ok (mkReadings (_count_outbox_lines ob) (_count_objects ob) (_product_readiness ob) age).

Definition up_snapshot (ob : observation) (rd : up_readings) (state reason since_ts : string)
    (errors : option Z) (history : list transition_entry) : health_snapshot :=
  let '(issues, warnings) := default (["index diagnostic failed"], []) (ob_index ob) in
  let index_status := _summary_status issues warnings in
  let dead_letter := default (_dead_letter_stats_from_records (ob_tail ob)) (_dead_letter_stats_db ob) in
  let dead_letter_status := _dead_letter_status dead_letter (ob_thresholds ob) in
  let writes_allowed := negb (existsb (String.eqb state) WRITE_BLOCKED_STATES) in
  let '(object_count, store_count_error) := ur_objects rd in
  mkSnapshot state reason since_ts (ur_outbox_count rd) (ur_age rd) object_count
    (sb_error (ob_resolution ob)) (_bootstrap_state object_count (ur_outbox_count rd) store_count_error)
    (ur_product rd) index_status (_events_status (ob_tail ob)) errors dead_letter dead_letter_status
    writes_allowed (if writes_allowed then None else Some reason)
    (_catch_up_progress (ur_outbox_count rd) (ur_age rd) (ob_thresholds ob))
    (_suggested_actions (ur_age rd) index_status writes_allowed dead_letter_status store_count_error
     ++ (if pr_ready (ur_product rd) then []
         else ["rebuild Product projection from retained sources before readiness"]))
    (history_key ob history).

(** A sample that was not applied reports a newer dependency failure. *)
Definition overridden (ob : observation) (sample_sequence : Z) (u : machine_update)
  : ST HealthContract (string * string * string) :=
  if mu_applied u then mret (mu_state u, mu_reason u, mu_since_ts u) else
  o ← _dependency_override_after sample_sequence;
  mret (match o with
        | Some r => ("unhealthy", r, isoformat (ob_now ob))
        | None => (mu_state u, mu_reason u, mu_since_ts u)
        end).
(** The incident of a transition, if it is to be logged. *)
Definition log_transition (ob : observation) (u : machine_update) (s : health_snapshot)
  : ST HealthContract unit :=
  if ob_capture_enabled ob && (mu_transitioned u && existsb (String.eqb (sn_state s)) INCIDENT_STATES)
  then _append_incident_log (ob_log_writable ob) (_incident_entry (ob_now ob) s) else mret tt.

Definition evaluate_up (ob : observation) (sample_sequence : Z) : ST HealthContract health_snapshot :=
  ms ← on_machine snapshot;
  _ ← _should_capture_dependency_incident sample_sequence None (ms : machine_snapshot).1.1.1;
  rd ← st_lift (read_up ob);
  u ← on_machine (update_with_transition (default (S754_zero false) (ur_age rd)) (ob_thresholds ob)
        (ob_now ob) (Some sample_sequence));
  '(state, reason, since_ts) ← overridden ob sample_sequence u;
  errors ← st_lift (_count_errors (ob_tail ob) (ob_now ob));
  let s := up_snapshot ob rd state reason since_ts errors (mu_history u) in
  _ ← log_transition ob u s;
  _complete_snapshot sample_sequence s.

Definition _evaluate (ob : observation) : ST HealthContract health_snapshot :=
  sample_sequence ← on_machine reserve_sample_sequence;
  match _db_dependency_down_reason ob with
  | Some reason => _db_down_snapshot ob reason sample_sequence
  | None => evaluate_up ob sample_sequence
  end.

(** ** The write guard and readiness *)

Definition SOURCE_BACKED_REBUILD_ACTION : string := "product.source_backed_rebuild".
Definition DEFAULT_BOOTSTRAP_ACTIONS : list string :=
  ["yggdrasil.scaffold"; "vault.layout_ensure"; SOURCE_BACKED_REBUILD_ACTION].
Definition WritesBlockedError : exn := OtherException "WritesBlockedError".

(** [snapshot_fn] is the evaluation; [bootstrap] the guard's allow-list. *)
Definition assert_writes_allowed (bootstrap : list string) {W} (snapshot_fn : ST W health_snapshot)
    (action : string) : ST W unit :=
  if existsb (String.eqb action) bootstrap then mret tt else
  s ← snapshot_fn;
  guard_not (existsb (String.eqb (sn_state s)) WRITE_BLOCKED_STATES) WritesBlockedError.

Definition READY_STATES : list string := ["running"; "catch_up"; "degraded"].
Inductive readiness : Type :=
  | Ready (state reason class : string)
  | NotReady (state reason class : string).
Definition readyz (s : health_snapshot) : readiness :=
  if negb (existsb (String.eqb (sn_state s)) READY_STATES) || negb (pr_ready (sn_product_readiness s))
  then NotReady (sn_state s)
         (if pr_ready (sn_product_readiness s) then sn_reason s
          else "product replay refused: " +:+ pr_reason (sn_product_readiness s))
         (fst (sn_bootstrap s))
  else Ready (sn_state s) (snd (sn_bootstrap s)) (fst (sn_bootstrap s)).
