(* ===== verification/HealthProps.v ===== *)
(** * Properties of the health contract

    Concurrent evaluations as threads that run one atomic section at a time,
    and what holds of the contract in every interleaving; what a timestamp
    without an offset does to an evaluation. *)
From Stdlib Require Import SpecFloat.
From S2P Require Import Prelude PyValue PyTime Sql Health HealthContract.
Open Scope Z_scope.

(** ** Evaluations as threads *)

(** Where an evaluation stands: what it holds between two locked sections. *)
Inductive pc : Type :=
  | Start
  | Reserved (q : Z)
  | Advanced (q : Z) (reason : string) (age : option spec_float) (outbox_count : option Z)
      (current_state : string) (history : list transition_entry)
  | Captured (q : Z) (reason : string) (age : option spec_float) (outbox_count : option Z)
      (history : list transition_entry) (capture : bool)
  | Probed (q : Z) (current_state : string)
  | Cleared (q : Z)
  | Updated (q : Z) (rd : up_readings) (u : machine_update)
  | Logging (q : Z) (u : machine_update) (s : health_snapshot)
  | Completing (q : Z) (s : health_snapshot)
  | Done (q : Z) (s returned : health_snapshot)
  | Failed (e : exn).

Definition section {A} (m : ST HealthContract A) (k : A -> pc) (c : HealthContract) : pc * HealthContract :=
  let '(r, c) := m c in (match r with Ok a => k a | Raise e => Failed e end, c).

(** One section of [_evaluate]. *)
Definition eval_step (ob : observation) (p : pc) : HealthContract -> pc * HealthContract :=
  match p with
  | Start => section (on_machine reserve_sample_sequence) Reserved
  | Reserved q =>
      match _db_dependency_down_reason ob with
      | Some reason =>
          section (rd ← st_lift (down_readings ob);
                   ms ← on_machine (advance_sample_sequence q);
                   mret (rd, ms : machine_snapshot))
            (fun '((age, n), (st, _, _, h)) => Advanced q reason age n st h)
      | None => section (on_machine snapshot) (fun ms : machine_snapshot => Probed q ms.1.1.1)
      end
  | Advanced q reason age n st h =>
      section (_should_capture_dependency_incident q (Some reason) st) (Captured q reason age n h)
  | Captured q reason age n h capture =>
      section (_ ← log_outage ob capture (down_snapshot ob reason age n None h);
               st_lift (_count_errors (ob_tail ob) (ob_now ob)))
        (fun errors => Completing q (down_snapshot ob reason age n errors h))
  | Probed q st => section (_should_capture_dependency_incident q None st) (fun _ => Cleared q)
  | Cleared q =>
      section (rd ← st_lift (read_up ob);
               u ← on_machine (update_with_transition (default (S754_zero false) (ur_age rd))
                     (ob_thresholds ob) (ob_now ob) (Some q));
               mret (rd, u))
        (fun '(rd, u) => Updated q rd u)
  | Updated q rd u =>
      section ('(state, reason, since_ts) ← overridden ob q u;
               errors ← st_lift (_count_errors (ob_tail ob) (ob_now ob));
               mret (up_snapshot ob rd state reason since_ts errors (mu_history u)))
        (Logging q u)
  | Logging q u s => section (log_transition ob u s) (fun _ => Completing q s)
  | Completing q s => section (_complete_snapshot q s) (Done q s)
  | Done _ _ _ | Failed _ => fun c => (p, c)
  end.

Definition outcome (p : pc) : option (res health_snapshot) :=
  match p with Done _ _ r => Some (Ok r) | Failed e => Some (Raise e) | _ => None end.
Fixpoint eval_alone (n : nat) (ob : observation) (p : pc) (c : HealthContract) : pc * HealthContract :=
  match n with
  | O => (p, c)
  | S n => let '(p, c) := eval_step ob p c in eval_alone n ob p c
  end.

Ltac open_section :=
  cbn [eval_step]; unfold section, mbind, ST_bind, mret, ST_ret, st_lift.

(** An evaluation run without interference is [_evaluate]. *)
Lemma evaluate_is_steps ob c :
  let '(p, c1) := eval_alone 7 ob Start c in
  let '(r, c2) := _evaluate ob c in outcome p = Some r /\ c1 = c2.
Proof.
  unfold _evaluate, _db_down_snapshot, evaluate_up, mbind, ST_bind, mret, ST_ret, st_lift.
  cbn [eval_alone]. open_section.
  destruct (on_machine reserve_sample_sequence c) as [[q|e] c1]; [|by cbn]. open_section.
  destruct (_db_dependency_down_reason ob) as [reason|]; open_section.
  - destruct (down_readings ob) as [[age n]|e]; [|by cbn].
    destruct (on_machine _ c1) as [[[[[st rs] ts] h]|e] c2]; [|by cbn]. open_section.
    destruct (_should_capture_dependency_incident _ _ _ c2) as [[b|e] c3]; [|by cbn]. open_section.
    destruct (log_outage _ _ _ c3) as [[[]|e] c4]; [|by cbn].
    destruct (_count_errors _ _) as [errors|e]; [|by cbn]. open_section.
    destruct (_complete_snapshot _ _ c4) as [[s|e] c5]; by cbn.
  - destruct (on_machine snapshot c1) as [[ms|e] c2]; [|by cbn]. open_section.
    destruct (_should_capture_dependency_incident _ _ _ c2) as [[b|e] c3]; [|by cbn]. open_section.
    destruct (read_up ob) as [rd|e]; [|by cbn].
    destruct (on_machine _ c3) as [[u|e] c4]; [|by cbn]. open_section.
    destruct (overridden _ _ _ c4) as [[[[st rs] ts]|e] c5]; [|by cbn].
    destruct (_count_errors _ _) as [errors|e]; [|by cbn]. open_section.
    destruct (log_transition _ _ _ c5) as [[[]|e] c6]; [|by cbn]. open_section.
    destruct (_complete_snapshot _ _ c6) as [[s|e] c7]; by cbn.
Qed.

(** ** Interleavings *)

Abbreviation pool := (list (observation * pc) * HealthContract)%type.
Inductive action : Type := Run (i : nat) | ResetMachine (now : datetime).

(** A call to [_should_capture_dependency_incident]: its sequence number,
    whether the database was down and whether it captured. *)
Definition probe_call : Type := Z * bool * bool.
Definition calls_of (p p' : pc) : list probe_call :=
  match p, p' with
  | Advanced q _ _ _ _ _, Captured _ _ _ _ _ b => [(q, true, b)]
  | Probed q _, Cleared _ => [(q, false, false)]
  | _, _ => []
  end.

Definition pool_step (a : action) (s : pool) : list probe_call * pool :=
  let '(ts, c) := s in
  match a with
  | Run i =>
      match ts !! i with
      | Some (ob, p) => let '(p', c') := eval_step ob p c in (calls_of p p', (<[i:=(ob, p')]> ts, c'))
      | None => ([], (ts, c))
      end
  | ResetMachine now => ([], (ts, snd (on_machine (reset now) c)))
  end.
Fixpoint pool_run (l : list action) (s : pool) : list probe_call * pool :=
  match l with
  | [] => ([], s)
  | a :: l => let '(e, s) := pool_step a s in let '(es, s) := pool_run l s in (e ++ es, s)
  end.
Definition new_pool (started : datetime) (obs : list observation) : pool :=
  (map (fun ob => (ob, Start)) obs, new_contract started).

(** A down evaluation carries an unhealthy snapshot. *)
Definition snapshot_of_probe (ob : observation) (s : health_snapshot) : Prop :=
  is_Some (_db_dependency_down_reason ob) -> sn_state s = "unhealthy".
Definition pc_ok (ob : observation) (p : pc) : Prop :=
  match p with
  | Start | Failed _ => True
  | Reserved q => 1 <= q
  | Advanced q reason _ _ st _ =>
      1 <= q /\ _db_dependency_down_reason ob = Some reason /\ st ∈ OUTBOX_STATES
  | Captured q reason _ _ _ _ => 1 <= q /\ _db_dependency_down_reason ob = Some reason
  | Probed q _ | Cleared q | Updated q _ _ | Logging q _ _ =>
      1 <= q /\ _db_dependency_down_reason ob = None
  | Completing q s | Done q s _ => 1 <= q /\ snapshot_of_probe ob s
  end.
(** The machine, and what the contract last published. *)
Definition contract_ok (c : HealthContract) : Prop :=
  history_ok (hc_machine c) /\ 0 <= hm_next_sample_sequence (hc_machine c)
  /\ (hc_latest_completed_snapshot c = None -> hc_latest_completed_sequence c = 0).
Definition published (ts : list (observation * pc)) (q : Z) (s : health_snapshot) : Prop :=
  exists (j : nat) ob ret, ts !! j = Some (ob, Done q s ret).
Definition pool_ok (s : pool) : Prop :=
  let '(ts, c) := s in
  contract_ok c
  /\ (forall s, hc_latest_completed_snapshot c = Some s -> published ts (hc_latest_completed_sequence c) s)
  /\ (forall i ob p, ts !! i = Some (ob, p) -> pc_ok ob p)
  /\ (forall i ob q s r, ts !! i = Some (ob, Done q s r) -> exists q', q <= q' /\ published ts q' r).

Lemma on_machine_ok {A} (f : ST HealthStateMachine A) op c r c' :
  (forall m, snd (f m) = machine_step op m) ->
  (forall m, 0 <= hm_next_sample_sequence m -> 0 <= hm_next_sample_sequence (machine_step op m)) ->
  on_machine f c = (r, c') -> contract_ok c ->
  contract_ok c' /\ hc_latest_completed_sequence c' = hc_latest_completed_sequence c
  /\ hc_latest_completed_snapshot c' = hc_latest_completed_snapshot c
  /\ hc_incident_reported c' = hc_incident_reported c
  /\ hc_incident_sequence c' = hc_incident_sequence c.
Proof.
  intros Hf Hn. unfold on_machine. destruct (f (hc_machine c)) as [r' m] eqn:E. intros [= <- <-] (H & Hq & Hl).
  assert (Em : m = machine_step op (hc_machine c)) by (rewrite <- Hf, E; done).
  split; [|done]. split_and!; cbn; [|by rewrite Em; apply Hn|done].
  rewrite Em. by apply machine_step_ok.
Qed.

Lemma next_sequence_step op m :
  0 <= hm_next_sample_sequence m -> 0 <= hm_next_sample_sequence (machine_step op m).
Proof.
  assert (Hu : forall age t now m, hm_next_sample_sequence (_update_unlocked age t now m) = hm_next_sample_sequence m).
  { intros age t now n. unfold _update_unlocked. destruct (judged _ _ _) as [[[? ?] s] ?]. by destruct (String.eqb _ _). }
  assert (Hq : forall age t now q m, hm_next_sample_sequence (snd (update_with_transition age t now (Some q) m))
                 = hm_next_sample_sequence m).
  { intros age t now q n. rewrite update_with_transition_run.
    destruct (q <=? hm_last_applied_sample_sequence n); [done|]. apply Hu. }
  intros H. destruct op as [now| |age t now [q|]|q|]; cbn [machine_step]; try done.
  - change (0 <= hm_next_sample_sequence m + 1). lia.
  - by rewrite Hq.
  - change (0 <= hm_next_sample_sequence (snd (update_with_transition age t now
      (Some (hm_next_sample_sequence m + 1)) (snd (reserve_sample_sequence m))))).
    rewrite Hq. change (0 <= hm_next_sample_sequence m + 1). lia.
  - unfold advance_sample_sequence, mbind, ST_bind. cbn [st_get].
    by destruct (hm_last_applied_sample_sequence m <? q).
Qed.

(** What a step leaves of the published snapshot and the incident state. *)
Definition same_published (c c' : HealthContract) : Prop :=
  hc_latest_completed_sequence c' = hc_latest_completed_sequence c
  /\ hc_latest_completed_snapshot c' = hc_latest_completed_snapshot c.
Definition same_incident (c c' : HealthContract) : Prop :=
  hc_incident_reported c' = hc_incident_reported c /\ hc_incident_sequence c' = hc_incident_sequence c.
Definition quiet (c c' : HealthContract) : Prop :=
  contract_ok c' /\ same_published c c' /\ same_incident c c'.

Lemma quiet_machine {A} (f : ST HealthStateMachine A) op c r c' :
  (forall m, snd (f m) = machine_step op m) ->
  on_machine f c = (r, c') -> contract_ok c -> quiet c c'.
Proof.
  intros Hf E H. by destruct (on_machine_ok f op c r c' Hf (next_sequence_step op) E H) as (? & ? & ? & ? & ?).
Qed.
Lemma quiet_refl c : contract_ok c -> quiet c c.
Proof. done. Qed.
#[local] Hint Resolve quiet_refl : core.

Lemma append_quiet b e c r c' : _append_incident_log b e c = (r, c') -> contract_ok c -> quiet c c' /\ is_ok r = true.
Proof. unfold _append_incident_log. destruct b; intros [= <- <-]; done. Qed.
Lemma log_outage_quiet ob b s c r c' : log_outage ob b s c = (r, c') -> contract_ok c -> quiet c c' /\ is_ok r = true.
Proof. unfold log_outage. destruct (_ && _); [apply append_quiet|]. by intros [= <- <-]. Qed.
Lemma log_transition_quiet ob u s c r c' :
  log_transition ob u s c = (r, c') -> contract_ok c -> quiet c c' /\ is_ok r = true.
Proof. unfold log_transition. destruct (_ && _); [apply append_quiet|]. by intros [= <- <-]. Qed.
Lemma overridden_quiet ob q u c r c' : overridden ob q u c = (r, c') -> c' = c.
Proof. unfold overridden. destruct (mu_applied u); [by intros [= <- <-]|]. cbn. by intros [= <- <-]. Qed.

(** The incident bookkeeping of one call. *)
Definition probed (q : Z) (down b : bool) (c c' : HealthContract) : Prop :=
  if q <=? hc_incident_sequence c then b = false /\ same_incident c c'
  else b = (down && negb (hc_incident_reported c))
       /\ hc_incident_sequence c' = q /\ hc_incident_reported c' = down.
Lemma should_capture_ok q reason st c r c' :
  st <> "unhealthy" \/ reason = None ->
  _should_capture_dependency_incident q reason st c = (r, c') -> contract_ok c ->
  exists b, r = Ok b /\ contract_ok c' /\ same_published c c'
            /\ probed q (bool_decide (is_Some reason)) b c c'.
Proof.
  intros Hst. unfold _should_capture_dependency_incident, probed, mbind, ST_bind. cbn [st_get].
  destruct (q <=? hc_incident_sequence c); [intros [= <- <-]; by exists false|].
  destruct reason as [reason|]; cbn -[String.eqb bool_decide]; intros [= <- <-] H; eexists; split_and!; try done.
  cbn. destruct Hst as [Hst|?]; [|done]. destruct (String.eqb_spec st "unhealthy"); [done|].
  by destruct (hc_incident_reported c).
Qed.

(** One section: the contract stays well formed, the thread keeps what it
    knows, a snapshot is published with its number or the newer one returned,
    and the incident state follows the calls. *)
Definition published_by (p p' : pc) (c c' : HealthContract) : Prop :=
  match p' with
  | Done q s r =>
      p = p' /\ same_published c c'
      \/ same_published c c' /\ q < hc_latest_completed_sequence c
         /\ hc_latest_completed_snapshot c = Some r
      \/ r = s /\ hc_latest_completed_sequence c' = q /\ hc_latest_completed_snapshot c' = Some s
  | _ => same_published c c'
  end.
Definition called_by (p p' : pc) (c c' : HealthContract) : Prop :=
  match calls_of p p' with
  | (q, down, b) :: _ => probed q down b c c'
  | [] => same_incident c c'
  end.
Definition stepped (ob : observation) (p p' : pc) (c c' : HealthContract) : Prop :=
  contract_ok c' /\ pc_ok ob p' /\ published_by p p' c c' /\ called_by p p' c c'.

Lemma quiet_stepped ob p p' c c' :
  quiet c c' -> pc_ok ob p' -> calls_of p p' = [] -> outcome p' = None \/ (exists e, p' = Failed e) ->
  stepped ob p p' c c'.
Proof.
  intros (Hc & Hp & Hi) Hok Hn Ho. split_and!; [done..| |].
  - unfold published_by. destruct p'; try done. by destruct Ho as [?|[? ?]].
  - unfold called_by. by rewrite Hn.
Qed.

Lemma section_split {A} (m : ST HealthContract A) k c p' c' :
  section m k c = (p', c') ->
  (exists a, m c = (Ok a, c') /\ p' = k a) \/ (exists e, m c = (Raise e, c') /\ p' = Failed e).
Proof. unfold section. destruct (m c) as [[a|e] c1]; intros [= <- <-]; eauto. Qed.

Lemma machine_state_known (c : HealthContract) : contract_ok c -> hm_state (hc_machine c) ∈ OUTBOX_STATES.
Proof. intros ((_ & _ & _ & H) & _). by inversion H. Qed.

Lemma advance_state q m : snd (advance_sample_sequence q m) = machine_step (OpAdvance q) m
  /\ exists r t h, fst (advance_sample_sequence q m) = Ok (hm_state m, r, t, h).
Proof.
  split; [done|]. unfold advance_sample_sequence, mbind, ST_bind. cbn [st_get].
  destruct (_ <? _); cbn; eauto.
Qed.

Lemma step_start ob c p' c' :
  contract_ok c -> eval_step ob Start c = (p', c') -> stepped ob Start p' c c'.
Proof.
  intros H E. cbn [eval_step] in E.
  assert (Hq : forall r c', on_machine reserve_sample_sequence c = (r, c') -> quiet c c')
    by (intros; by eapply (quiet_machine _ OpReserve)).
  apply section_split in E as [(q & E & ->)|(e & E & ->)]; apply quiet_stepped; eauto; cbn; try done.
  injection E as <- _. cbn. destruct H as (_ & H & _). lia.
Qed.

Lemma step_reserved ob q c p' c' :
  contract_ok c -> 1 <= q -> eval_step ob (Reserved q) c = (p', c') -> stepped ob (Reserved q) p' c c'.
Proof.
  intros H Hq E. cbn [eval_step] in E. destruct (_db_dependency_down_reason ob) as [reason|] eqn:Er.
  - unfold section, mbind, ST_bind, st_lift, mret, ST_ret in E.
    destruct (down_readings ob) as [[age n]|e].
    2:{ injection E as <- <-. apply quiet_stepped; eauto; done. }
    destruct (on_machine _ c) as [r c1] eqn:Em.
    pose proof (quiet_machine _ (OpAdvance q) c r c1 (fun m => proj1 (advance_state q m)) Em H) as Hqt.
    destruct (advance_state q (hc_machine c)) as [_ (rs & ts & h & Ea)].
    unfold on_machine in Em. destruct (advance_sample_sequence q (hc_machine c)) as [r' m'].
    cbn in Ea. subst r'. injection Em as <- Ec. rewrite <- Ec in *. injection E as <- <-.
    apply quiet_stepped; eauto; cbn.
    split_and!; [done..|]. by apply machine_state_known.
  - assert (Hs : forall r c', on_machine snapshot c = (r, c') -> quiet c c')
      by (intros; by eapply (quiet_machine _ OpSnapshot)).
    apply section_split in E as [(a & E & ->)|(e & E & ->)]; apply quiet_stepped; eauto; done.
Qed.

Lemma step_down ob p c p' c' :
  contract_ok c -> pc_ok ob p ->
  match p with Advanced _ _ _ _ _ _ | Captured _ _ _ _ _ _ => True | _ => False end ->
  eval_step ob p c = (p', c') -> stepped ob p p' c c'.
Proof.
  intros H Hp Hk E. destruct p as [| |q rs age n st h|q rs age n h b| | | | | | |]; try done; cbn [eval_step] in E.
  - destruct Hp as (Hq & Hr & Hst).
    assert (Hne : st <> "unhealthy") by (unfold OUTBOX_STATES in Hst; set_solver).
    destruct (_should_capture_dependency_incident q (Some rs) st c) as [r c1] eqn:Ec.
    destruct (should_capture_ok _ _ _ _ _ _ (or_introl Hne) Ec H) as (b & -> & Hc & Hs & Hpr).
    unfold section in E. rewrite Ec in E. injection E as <- <-.
    rewrite bool_decide_true in Hpr by eauto. done.
  - destruct Hp as (Hq & Hr). unfold section, mbind, ST_bind, st_lift in E.
    destruct (log_outage _ _ _ c) as [r c1] eqn:El.
    destruct (log_outage_quiet _ _ _ _ _ _ El H) as [Hqt Hok]. destruct r; [|done].
    destruct (_count_errors _ _) as [errors|e]; injection E as <- <-; apply quiet_stepped; eauto; done.
Qed.

Lemma step_up ob p c p' c' :
  contract_ok c -> pc_ok ob p ->
  match p with Probed _ _ | Cleared _ | Updated _ _ _ | Logging _ _ _ => True | _ => False end ->
  eval_step ob p c = (p', c') -> stepped ob p p' c c'.
Proof.
  intros H Hp Hk E. destruct p as [| | | |q st|q|q rd u|q u s| | |]; try done; cbn [eval_step] in E;
    destruct Hp as (Hq & Hr).
  - destruct (_should_capture_dependency_incident q None st c) as [r c1] eqn:Ec.
    destruct (should_capture_ok _ _ _ _ _ _ (or_intror eq_refl) Ec H) as (b & -> & Hc & Hs & Hpr).
    unfold section in E. rewrite Ec in E. injection E as <- <-.
    unfold probed in Hpr. rewrite bool_decide_false in Hpr by (by intros [? ?]).
    split_and!; [done..|]. unfold called_by, probed. cbn.
    destruct (q <=? _); [split; [done|apply Hpr]|]. split; [done|apply Hpr].
  - unfold section, mbind, ST_bind, st_lift, mret, ST_ret in E. destruct (read_up ob) as [rd|e].
    2:{ injection E as <- <-. apply quiet_stepped; eauto; done. }
    destruct (on_machine _ c) as [r c1] eqn:Em.
    eapply (quiet_machine _ (OpUpdate _ _ _ _)) in Em; [|done..].
    destruct r; injection E as <- <-; apply quiet_stepped; eauto; done.
  - unfold section, mbind, ST_bind, st_lift, mret, ST_ret in E.
    destruct (overridden ob q u c) as [r c1] eqn:Eo. apply overridden_quiet in Eo as Hc1. subst c1.
    destruct r as [[[st rs] ts]|e]; [|injection E as <- <-; apply quiet_stepped; eauto; done].
    destruct (_count_errors _ _) as [errors|e]; injection E as <- <-; apply quiet_stepped; eauto; done.
  - destruct (log_transition ob u s c) as [r c1] eqn:El.
    destruct (log_transition_quiet _ _ _ _ _ _ El H) as [Hqt Hok]. unfold section in E. rewrite El in E.
    destruct r; [|done]. injection E as <- <-. apply quiet_stepped; eauto.
    cbn. split; [done|]. intros [? ?]. congruence.
Qed.

Lemma step_completing ob q s c p' c' :
  contract_ok c -> pc_ok ob (Completing q s) -> eval_step ob (Completing q s) c = (p', c') ->
  stepped ob (Completing q s) p' c c' /\ p' <> Failed (OtherException "AssertionError").
Proof.
  intros H (Hq & Hs) E. cbn [eval_step] in E. unfold section, _complete_snapshot, mbind, ST_bind in E.
  cbn [st_get] in E. destruct (Z.ltb_spec q (hc_latest_completed_sequence c)) as [Hl|Hl].
  - destruct (hc_latest_completed_snapshot c) as [latest|] eqn:El.
    + injection E as <- <-. split; [|done]. split_and!; [done..| |done]. right. left. done.
    + destruct H as (_ & _ & H). rewrite (H El) in Hl. lia.
  - injection E as <- <-. split; [|done]. destruct H as (H1 & H2 & H3). split_and!; try done.
    right. right. done.
Qed.

Lemma eval_step_ok ob p c p' c' :
  contract_ok c -> pc_ok ob p -> eval_step ob p c = (p', c') -> stepped ob p p' c c'.
Proof.
  intros H Hp E. destruct p.
  - by apply step_start.
  - by apply step_reserved.
  - by apply step_down.
  - by apply step_down.
  - by apply step_up.
  - by apply step_up.
  - by apply step_up.
  - by apply step_up.
  - by apply step_completing.
  - injection E as <- <-. split_and!; [done..| |done]. by left.
  - injection E as <- <-. by apply quiet_stepped; eauto.
Qed.

(** ** The pool *)

Lemma published_stays ts i ob p c p' c' q s :
  eval_step ob p c = (p', c') -> ts !! i = Some (ob, p) ->
  published ts q s -> published (<[i:=(ob, p')]> ts) q s.
Proof.
  intros E Ei (j & ob' & ret & Ej). destruct (decide (i = j)) as [<-|Hij].
  - rewrite Ei in Ej. injection Ej as <- ->. injection E as <- _.
    exists i, ob, ret. by rewrite list_lookup_insert_eq by by eapply lookup_lt_Some.
  - exists j, ob', ret. by rewrite list_lookup_insert_ne.
Qed.

Lemma published_new ts i ob (p : pc) q s r :
  ts !! i = Some (ob, p) -> published (<[i:=(ob, Done q s r)]> ts) q s.
Proof. intros Ei. exists i, ob, r. by rewrite list_lookup_insert_eq by by eapply lookup_lt_Some. Qed.

Lemma insert_cases {A} (ts : list A) (i j : nat) x y :
  <[i:=x]> ts !! j = Some y -> j = i /\ y = x \/ ts !! j = Some y.
Proof.
  destruct (decide (i = j)) as [<-|?]; [|rewrite list_lookup_insert_ne by done; eauto].
  intros E. left. split; [done|]. assert (Hl : (i < length ts)%nat).
  { apply lookup_lt_Some in E. by rewrite length_insert in E. }
  rewrite list_lookup_insert_eq in E by done. congruence.
Qed.

Lemma pool_step_ok a s : pool_ok s -> pool_ok (snd (pool_step a s)).
Proof.
  destruct s as [ts c], a as [i|now]; intros (Hc & Hl & Hp & Hd); cbn [pool_step].
  2:{ destruct (on_machine (reset now) c) as [r c'] eqn:E.
      destruct (quiet_machine _ (OpReset now) _ _ _ (fun _ => eq_refl) E Hc) as (Hc' & [Hs Hs'] & _).
      split_and!; try done. cbn. rewrite Hs, Hs'. done. }
  destruct (ts !! i) as [[ob p]|] eqn:Ei; [|done]. destruct (eval_step ob p c) as [p' c'] eqn:E.
  destruct (eval_step_ok ob p c p' c' Hc (Hp _ _ _ Ei) E) as (Hc' & Hp' & Hpub & _).
  assert (Hst : forall q s, published ts q s -> published (<[i:=(ob, p')]> ts) q s)
    by (intros q s Hs; by eapply published_stays).
  assert (Hsame : same_published c c' -> forall s, hc_latest_completed_snapshot c' = Some s ->
            published (<[i:=(ob, p')]> ts) (hc_latest_completed_sequence c') s)
    by (intros [-> ->]; eauto).
  cbn [snd]. split_and!; [done| | |].
  - unfold published_by in Hpub. destruct p' as [| | | | | | | | |q s r|]; try by apply Hsame.
    destruct Hpub as [[_ H]|[[H _]|(-> & -> & ->)]]; [by apply Hsame..|].
    intros ? [= <-]. by eapply published_new.
  - intros j ob' p1 [[-> [= -> ->]]|Ej]%insert_cases; [done|by eapply Hp].
  - intros j ob' q s r [[-> [= -> Ep]]|Ej]%insert_cases.
    + subst p'. destruct Hpub as [[-> _]|[(_ & Hlt & Hr)|(-> & _ & _)]].
      * destruct (Hd _ _ _ _ _ Ei) as (q' & ? & ?). eauto.
      * exists (hc_latest_completed_sequence c). split; [lia|eauto].
      * exists q. split; [lia|]. by eapply published_new.
    + destruct (Hd _ _ _ _ _ Ej) as (q' & ? & ?). eauto.
Qed.

Lemma pool_run_ok l s : pool_ok s -> pool_ok (snd (pool_run l s)).
Proof.
  revert s. induction l as [|a l IH]; intros s H; [done|]. cbn [pool_run].
  apply (pool_step_ok a) in H. destruct (pool_step a s) as [e s1]. specialize (IH s1 H).
  by destruct (pool_run l s1).
Qed.

Lemma new_pool_ok started obs : pool_ok (new_pool started obs).
Proof.
  assert (Hs : forall i ob p, map (fun ob => (ob, Start)) obs !! i = Some (ob, p) -> p = Start).
  { intros i ob p E. rewrite list_lookup_fmap in E. destruct (obs !! i); [|done]. by injection E. }
  unfold new_pool. split_and!; [|done| |].
  - split_and!; cbn; try done. repeat split; cbn; try lia; repeat constructor; set_solver.
  - intros i ob p E. by apply Hs in E as ->.
  - intros i ob q s r E. by apply Hs in E.
Qed.

(** Whether the write guard lets an action pass on a snapshot. *)
Definition write_passes (action : string) (s : health_snapshot) : Prop :=
  fst (assert_writes_allowed DEFAULT_BOOTSTRAP_ACTIONS (mret s) action tt) = Ok tt.
Lemma not_bootstrap act :
  act ∉ DEFAULT_BOOTSTRAP_ACTIONS -> existsb (String.eqb act) DEFAULT_BOOTSTRAP_ACTIONS = false.
Proof.
  intros Ha. apply not_true_is_false. by intros H%existsb_eqb_In.
Qed.
Lemma write_passes_state action s :
  write_passes action s -> action ∉ DEFAULT_BOOTSTRAP_ACTIONS -> sn_state s <> "unhealthy".
Proof.
  unfold write_passes, assert_writes_allowed. intros Hw Ha Hs.
  rewrite not_bootstrap in Hw by done. unfold mbind, ST_bind, mret, ST_ret in Hw. by rewrite Hs in Hw.
Qed.

(** C28: in every interleaving of evaluations and resets, when the guard lets an
    ordinary write pass on the snapshot an evaluation returned, that snapshot
    was made by an evaluation that reserved its sample no earlier than this one
    and found the database up. *)
Theorem write_needs_fresh_probe started obs sched ts c i ob q s r act :
  snd (pool_run sched (new_pool started obs)) = (ts, c) ->
  ts !! i = Some (ob, Done q s r) ->
  write_passes act r -> act ∉ DEFAULT_BOOTSTRAP_ACTIONS ->
  exists (j : nat) ob' q' r', ts !! j = Some (ob', Done q' r r') /\ q <= q'
    /\ _db_dependency_down_reason ob' = None.
Proof.
  intros E Ei Hw Ha. pose proof (pool_run_ok sched _ (new_pool_ok started obs)) as H. rewrite E in H.
  destruct H as (_ & _ & Hp & Hd). destruct (Hd _ _ _ _ _ Ei) as (q' & Hq & j & ob' & r' & Ej).
  exists j, ob', q', r'. split_and!; [done..|]. destruct (Hp _ _ _ Ej) as [_ Hs].
  destruct (_db_dependency_down_reason ob') eqn:Er; [|done].
  exfalso. eapply write_passes_state; eauto.
Qed.

(** ** Incidents *)

(** The calls that should capture: a database found down by a call newer than
    all earlier ones, when the newest call before it found it up. *)
Fixpoint outage_starts (last : Z) (down : bool) (l : list probe_call) : list bool :=
  match l with
  | [] => []
  | (q, d, _) :: l =>
      if q <=? last then false :: outage_starts last down l
      else (d && negb down) :: outage_starts q d l
  end.

Lemma pool_step_calls a s : pool_ok s ->
  (exists q d b, fst (pool_step a s) = [(q, d, b)] /\ probed q d b (snd s) (snd (snd (pool_step a s))))
  \/ fst (pool_step a s) = [] /\ same_incident (snd s) (snd (snd (pool_step a s))).
Proof.
  destruct s as [ts c], a as [i|now]; intros (Hc & _ & Hp & _); cbn [pool_step].
  2:{ right. split; [done|]. destruct (on_machine (reset now) c) as [r c'] eqn:E.
      by destruct (quiet_machine _ (OpReset now) _ _ _ (fun _ => eq_refl) E Hc) as (_ & _ & Hi). }
  destruct (ts !! i) as [[ob p]|] eqn:Ei; [|by right]. destruct (eval_step ob p c) as [p' c'] eqn:E.
  destruct (eval_step_ok ob p c p' c' Hc (Hp _ _ _ Ei) E) as (_ & _ & _ & Hcall).
  unfold called_by in Hcall. cbn [fst snd].
  destruct p; try (right; done); destruct p'; try (right; done); left; eauto 6.
Qed.

Lemma pool_run_calls l s : pool_ok s ->
  map snd (fst (pool_run l s))
  = outage_starts (hc_incident_sequence (snd s)) (hc_incident_reported (snd s)) (fst (pool_run l s)).
Proof.
  revert s. induction l as [|a l IH]; intros s H; [done|]. cbn [pool_run].
  pose proof (pool_step_ok a s H) as H1. pose proof (pool_step_calls a s H) as Hc.
  destruct (pool_step a s) as [e s1]. cbn [fst snd] in *. specialize (IH s1 H1).
  destruct (pool_run l s1) as [es s2]. cbn [fst] in *.
  destruct Hc as [(q & d & b & -> & Hp)|(-> & [Hr Hs])].
  - cbn. unfold probed in Hp. destruct (q <=? _).
    + destruct Hp as [-> [Hr Hs]]. by rewrite IH, Hr, Hs.
    + destruct Hp as (-> & Hs & Hr). by rewrite IH, Hr, Hs.
  - cbn. by rewrite IH, Hr, Hs.
Qed.

(** In every interleaving, the calls that capture a dependency incident are
    exactly those at which an outage starts: the newest probe so far finds the
    database down and the newest probe before it found it up.  Each outage is
    captured once and a late result never reopens it. *)
Theorem incident_per_outage started obs sched :
  let calls := fst (pool_run sched (new_pool started obs)) in
  map snd calls = outage_starts 0 false calls.
Proof. apply (pool_run_calls sched (new_pool started obs)), new_pool_ok. Qed.

(** ** Timestamps without an offset *)

Definition naive_record (rec : pydict) : Prop :=
  exists ts, _parse_timestamp (_timestamp rec) = Some ts /\ dt_offset ts = None.
Definition type_error {A} (r : res A) : Prop := exists m, r = Raise (TypeError m).

Lemma datetime_gt_cases a b :
  type_error (datetime_gt a b) \/ (exists x, datetime_gt a b = Ok x)
    /\ (dt_offset a = None <-> dt_offset b = None).
Proof.
  unfold datetime_gt, datetime_le, instant.
  destruct (dt_offset a), (dt_offset b); cbn; unfold type_error; eauto; right; split; eauto; split; done.
Qed.

(** A scan that met a naive timestamp fails or ends with a naive one. *)
Lemma latest_naive records latest :
  (exists l, latest = Some l /\ dt_offset l = None) \/ Exists naive_record records ->
  type_error (latest_from latest records)
  \/ exists l, latest_from latest records = Ok (Some l) /\ dt_offset l = None.
Proof.
  revert latest. induction records as [|rec records IH]; intros latest H.
  - destruct H as [(l & -> & Hl)|H]; [eauto|by inversion H].
  - cbn [latest_from]. unfold naive_record in *.
    destruct (_parse_timestamp (_timestamp rec)) as [ts|] eqn:Ep.
    + destruct latest as [l|].
      * destruct (datetime_gt_cases ts l) as [[m Hm]|[[x Hx] Hn]]; [rewrite Hm; left; by exists m|].
        rewrite Hx. apply IH. destruct H as [(l' & [= <-] & Hl)|H].
        -- left. destruct x; eauto. exists ts. split; [done|]. by apply Hn.
        -- inversion H as [? ? (ts' & Hts & Ho)|]; [|by right]. subst.
           rewrite Ep in Hts. injection Hts as <-. left. destruct x; eauto.
           exists l. split; [done|]. by apply Hn.
      * apply IH. destruct H as [(l' & ? & _)|H]; [done|].
        inversion H as [? ? (ts' & Hts & Ho)|]; [|by right]. subst.
        rewrite Ep in Hts. injection Hts as <-. left. eauto.
    + apply IH. destruct H as [H|H]; [by left|]. right.
      inversion H as [? ? (ts' & Hts & _)|]; [congruence|done].
Qed.

Lemma age_naive records now :
  Exists naive_record records -> is_Some (dt_offset now) -> type_error (age_of (Some records) now).
Proof.
  intros H [o Ho]. unfold age_of.
  assert (El : _latest_timestamp (Some records) = latest_from None records) by done. rewrite El.
  destruct (latest_naive records None (or_intror H)) as [[m E]|(l & E & Hl)]; rewrite E; [by exists m|].
  cbn. unfold _compute_age, instant. rewrite Ho, Hl. by eexists.
Qed.

Lemma st_run_with {W A B} (m : ST W A) (k : A -> ST W B) w a w1 (r : res B) :
  m w = (Ok a, w1) -> (exists w2, k a w1 = (r, w2)) -> exists w2, (m ≫= k) w = (r, w2).
Proof. intros E H. by rewrite (st_run _ _ _ _ _ E). Qed.
Lemma should_capture_total q r st c : exists b c', _should_capture_dependency_incident q r st c = (Ok b, c').
Proof.
  unfold _should_capture_dependency_incident, mbind, ST_bind. cbn [st_get].
  destruct (q <=? hc_incident_sequence c); [by eexists _, _|]. destruct r; by eexists _, _.
Qed.

(** C30: one outbox record whose timestamp has no offset makes every evaluation
    under an aware clock raise [TypeError], whatever the state of the contract
    and whether or not the database is up, so the guard refuses every ordinary
    write; only bootstrap actions pass. *)
Theorem naive_timestamp_blocks_writes ob records c act :
  ob_tail ob = Some records -> Exists naive_record records -> is_Some (dt_offset (ob_now ob)) ->
  type_error (fst (_evaluate ob c))
  /\ (act ∉ DEFAULT_BOOTSTRAP_ACTIONS ->
      type_error (fst (assert_writes_allowed DEFAULT_BOOTSTRAP_ACTIONS (_evaluate ob) act c))).
Proof.
  intros Et Hr Hn. destruct (age_naive records (ob_now ob) Hr Hn) as [m Hage].
  assert (H : exists c', _evaluate ob c = (Raise (TypeError m), c')).
  { unfold _evaluate. eapply st_run_with; [done|]. destruct (_db_dependency_down_reason ob) as [reason|].
    - unfold _db_down_snapshot, down_readings. rewrite Et, Hage. by eexists.
    - unfold evaluate_up. eapply st_run_with; [done|].
      edestruct should_capture_total as (b & c1 & E). eapply st_run_with; [exact E|].
      unfold read_up. rewrite Et, Hage. by eexists. }
  destruct H as [c' E]. split; [rewrite E; by exists m|].
  intros Ha. unfold assert_writes_allowed. rewrite not_bootstrap by done.
  unfold mbind, ST_bind. rewrite E. by exists m.
Qed.

(** ** Runs *)

Module HealthRun.
Definition at_s (s : Z) : datetime := utc (738000 * day_us + s * 1000000).
Definition record (ts : string) : pydict := [("timestamp", PStr ts); ("event", PStr "note.saved")].
Definition observe (now : datetime) (ping : bool) (tail : list pydict) : observation :=
  mkObservation now thresholds_defaults true true None (mkBackend (Some "pg") None)
    (inl (ping, "connection refused")) (Some 3) Missing (Some tail) (inl 7)
    (inr "unused") (Some ([], [])) (Some (0, S754_zero false)) true.

(** The first evaluation finds the database down, the second, started later,
    finds it up and completes first: the first returns the newer snapshot. *)
Definition threads : list observation := [observe (at_s 1) false []; observe (at_s 2) true []].
Definition interleaved : list action :=
  map Run [0; 1; 0; 1; 1; 1; 1; 1; 1; 1; 0; 0; 0; 0; 0]%nat.
Definition finished : pool := Eval vm_compute in snd (pool_run interleaved (new_pool (at_s 0) threads)).
Definition newest : health_snapshot := Eval vm_compute in
  match finished.1 !! 1%nat with Some (_, Done _ s _) => s | _ => down_snapshot (observe (at_s 0) true []) "" None None None [] end.

Lemma write_needs_fresh_probe_run :
  exists (j : nat) ob' q' r', fst finished !! j = Some (ob', Done q' newest r') /\ 1 <= q'
    /\ _db_dependency_down_reason ob' = None.
Proof.
  destruct finished as [ts c] eqn:E.
  apply (write_needs_fresh_probe (at_s 0) threads interleaved ts c 0%nat (observe (at_s 1) false []) 1
           (match ts !! 0%nat with Some (_, Done _ s _) => s | _ => newest end) newest "note.update").
  - rewrite <- E. vm_compute. reflexivity.
  - unfold finished in E. injection E as <- <-. vm_compute. reflexivity.
  - vm_compute. reflexivity.
  - unfold DEFAULT_BOOTSTRAP_ACTIONS, SOURCE_BACKED_REBUILD_ACTION. set_solver.
Defined.

(** Two outages around a recovery; the late second probe of the first outage
    captures nothing. *)
Example incidents :
  fst (pool_run (map Run [0; 1; 0; 0; 1; 1; 2; 2; 2; 3; 3; 3]%nat)
         (new_pool (at_s 0) [observe (at_s 1) false []; observe (at_s 2) false [];
                             observe (at_s 3) true []; observe (at_s 4) false []]))
  = [(1, true, true); (2, true, false); (3, false, false); (4, true, true)].
Proof. vm_compute. reflexivity. Qed.

Definition naive_tail : list pydict := [record "2021-07-26T00:00:00Z"; record "2021-07-26T00:00:01"].
Lemma naive_timestamp_run :
  type_error (fst (_evaluate (observe (at_s 5) true naive_tail) (new_contract (at_s 0))))
  /\ ("note.update" ∉ DEFAULT_BOOTSTRAP_ACTIONS ->
      type_error (fst (assert_writes_allowed DEFAULT_BOOTSTRAP_ACTIONS
        (_evaluate (observe (at_s 5) true naive_tail)) "note.update" (new_contract (at_s 0))))).
Proof.
  apply (naive_timestamp_blocks_writes (observe (at_s 5) true naive_tail) naive_tail).
  - reflexivity.
  - apply Exists_cons_tl, Exists_cons_hd. eexists. split; vm_compute; reflexivity.
  - by eexists.
Defined.

(** Successive evaluations, each with its readiness. *)
Fixpoint evaluations (obs : list observation) (c : HealthContract) : list (string * bool) :=
  match obs with
  | [] => []
  | ob :: obs =>
      let '(r, c) := _evaluate ob c in
      match r with
      | Ok s => (sn_state s, match readyz s with Ready _ _ _ => true | _ => false end)
      | Raise _ => ("raised", false)
      end :: evaluations obs c
  end.
(** The latest event is at second 0 until a new one arrives at second 60: the
    runtime is ready while degraded and not ready while it recovers. *)
Example recovering_is_not_ready :
  evaluations (map (fun s => observe (at_s s) true [record (isoformat (at_s 0))]) [20; 30; 40]
               ++ [observe (at_s 61) true [record (isoformat (at_s 60))]]) (new_contract (at_s 0))
  = [("catch_up", true); ("catch_up", true); ("degraded", true); ("recovery", false)].
Proof. vm_compute. reflexivity. Qed.
End HealthRun.
