(* ===== verification/GovernedWrite.v ===== *)
(** * Governed writes

    src/app/governance/governed_write.py: a decision token is issued after the
    write guard admitted the action, may be bound to the active context of a
    request, is validated against the effect before it runs, and the state
    owner's mutation receipt is turned into an authority receipt.

    Identifiers and the clock are arguments.  A deadline is a float, as its
    annotation says.  Contexts are compared field by field as the dataclass
    compares them, expiry times as floats. *)
From Stdlib Require Import SpecFloat Ascii.
From S2P Require Import Prelude PyValue PyTime Sql ActiveContext Health HealthContract.
Open Scope Z_scope.

Definition CONTRACT_VERSION : string := "governed_write_protocol.v0".
Definition MissingDecisionTokenError : exn := OtherException "MissingDecisionTokenError".
Definition MissingAuthorityReceiptError : exn := OtherException "MissingAuthorityReceiptError".
Definition InvalidDecisionTokenError : exn := OtherException "InvalidDecisionTokenError".

(** [now] is [time()]. *)
Definition require_authority_deadline (deadline : option spec_float) (now : spec_float) : res unit :=
  match deadline with
  | None => Ok tt
  | Some d =>
      let finite := match d with S754_infinity _ | S754_nan => false | _ => true end in
      if negb finite || SFleb d now then Raise InvalidDecisionTokenError else Ok tt
  end.

Record mutation_receipt : Type := mkMutation {
  mr_operation : string;
  mr_locator_path : string;
  mr_adapter : string;
  mr_trace_id : option string;
  mr_fallback_used : bool }.

Record PolicyDecision : Type := mkPolicy {
  pd_decision_id : string;
  pd_status : string;
  pd_action : string;
  pd_write_class : string;
  pd_actor : string;
  pd_resource : string;
  pd_reason : string;
  pd_issued_at : string;
  pd_source : string;
  pd_contract_version : string }.
Record DecisionToken : Type := mkToken {
  dk_token_id : string;
  dk_decision_id : string;
  dk_action : string;
  dk_write_class : string;
  dk_actor : string;
  dk_resource : string;
  dk_issued_at : string;
  dk_valid : bool;
  dk_contract_version : string;
  dk_active_context : option ActiveContextSetV1;
  dk_target_binding_id : option string }.
Record GovernedWriteGrant : Type := mkGrant {
  gg_policy_decision : PolicyDecision;
  gg_decision_token : DecisionToken }.
Record AuthorityReceipt : Type := mkAuthority {
  ar_receipt_id : string;
  ar_decision_token_id : string;
  ar_decision_id : string;
  ar_action : string;
  ar_write_class : string;
  ar_actor : string;
  ar_resource : string;
  ar_outcome : string;
  ar_operation : string;
  ar_adapter : string;
  ar_state_owner : string;
  ar_source_receipt_ref : string;
  ar_fallback_used : bool;
  ar_recorded_at : string;
  ar_trace_id : option string;
  ar_effect_id : option string;
  ar_contract_version : string;
  ar_active_context : option ActiveContextSetV1;
  ar_target_binding_id : option string }.

Definition _utc_now (now : datetime) : string := str_replace "+00:00" "Z" 0 (isoformat_s now).
Definition _id (prefix uuid : string) : string := prefix +:+ "_" +:+ uuid.
Definition normalize_resource_ref (resource : string) : string :=
  str_replace "\" "/" 0 (strip resource).

(** What a caller asks for. *)
Record effect_request : Type := mkEffect {
  ef_action : string;
  ef_write_class : string;
  ef_actor : string;
  ef_resource : string }.

Definition make_grant (e : effect_request) (reason source : string) (decision_uuid token_uuid : string)
    (now : datetime) : GovernedWriteGrant :=
  let issued_at := _utc_now now in
  let resource_ref := normalize_resource_ref (ef_resource e) in
  let decision_id := _id "policy_decision" decision_uuid in
  mkGrant
    (mkPolicy decision_id "approved" (ef_action e) (ef_write_class e) (ef_actor e) resource_ref
       reason issued_at source CONTRACT_VERSION)
    (mkToken (_id "decision_token" token_uuid) decision_id (ef_action e) (ef_write_class e)
       (ef_actor e) resource_ref issued_at true CONTRACT_VERSION None None).

(** The guard is its allow-list and its evaluation of health. *)
Definition issue_decision_token {W} (bootstrap : list string) (snapshot_fn : ST W health_snapshot)
    (e : effect_request) (decision_uuid token_uuid : string) (now : datetime) : ST W GovernedWriteGrant :=
  _ ← assert_writes_allowed bootstrap snapshot_fn (ef_action e);
  mret (make_grant e "WriteGuard allowed the bounded durable mutation." "WriteGuard"
          decision_uuid token_uuid now).

Definition issue_human_decision_token (e : effect_request) (decision_uuid token_uuid : string)
    (now : datetime) : res GovernedWriteGrant :=
  if String.eqb (strip (ef_actor e)) "" then Raise InvalidDecisionTokenError else
  Ok (make_grant e "Explicit human reviewer decision authorized by GOV." "human_review"
        decision_uuid token_uuid now).

Definition bind_context (grant : GovernedWriteGrant) (context : ActiveContextSetV1)
    (target_binding_id : string) : res GovernedWriteGrant :=
  _ ← require_effect_capable context;
  if negb (existsb (String.eqb target_binding_id) (context_binding_ids context))
  then Raise InvalidDecisionTokenError else
  let t := gg_decision_token grant in
  Ok (mkGrant (gg_policy_decision grant)
        (mkToken (dk_token_id t) (dk_decision_id t) (dk_action t) (dk_write_class t) (dk_actor t)
           (dk_resource t) (dk_issued_at t) (dk_valid t) (dk_contract_version t)
           (Some context) (Some target_binding_id))).

(** [==] on expiry times and on contexts. *)
Definition expiry_eqb (a b : option spec_float) : bool :=
  match a, b with
  | Some x, Some y => SFeqb x y
  | None, None => true
  | _, _ => false
  end.
Definition without_expiry (c : ActiveContextSetV1) :=
  (ac_context_id c, ac_generation c, ac_workspace c, ac_scope c, ac_sphere_memberships c,
   ac_situated_identity c, ac_principal_context c, ac_instance_identity c, ac_source_bindings c,
   ac_registry_revision c, ac_authorization_epoch c, ac_selection_provenance c, ac_posture c,
   ac_degraded_reason c, ac_selection_capability_digest c, ac_topology_posture c, ac_version c,
   ac_dimension_filter c).
Definition context_eqb (a b : ActiveContextSetV1) : bool :=
  bool_decide (without_expiry a = without_expiry b) && expiry_eqb (ac_expires_at a) (ac_expires_at b).

Definition validate_context (token : DecisionToken) (context : ActiveContextSetV1)
    (target_binding_id : string) : res unit :=
  _ ← require_effect_capable context;
  if match dk_active_context token with
     | None => true
     | Some c => negb (context_eqb c context)
                 || bool_decide (dk_target_binding_id token <> Some target_binding_id)
                 || negb (existsb (String.eqb target_binding_id) (context_binding_ids context))
     end
  then Raise InvalidDecisionTokenError else Ok tt.

Definition validate_decision_token (decision_token : option DecisionToken) (e : effect_request)
  : res DecisionToken :=
  match decision_token with
  | None => Raise MissingDecisionTokenError
  | Some t =>
      if negb (dk_valid t) then Raise InvalidDecisionTokenError else
      let expected := [("action", ef_action e); ("write_class", ef_write_class e);
        ("actor", ef_actor e); ("resource", normalize_resource_ref (ef_resource e))] in
      let actual := [("action", dk_action t); ("write_class", dk_write_class t);
        ("actor", dk_actor t); ("resource", normalize_resource_ref (dk_resource t))] in
      let mismatched := List.filter (fun kv =>
        negb (bool_decide (dict_get actual (fst kv) = Some (snd kv)))) expected in
      if bool_decide (mismatched <> []) then Raise InvalidDecisionTokenError else Ok t
  end.

Definition record_authority_receipt (decision_token : option DecisionToken)
    (receipt : option mutation_receipt) (state_owner outcome : string) (trace_id resource effect_id : option string)
    (receipt_uuid : string) (now : datetime) : res AuthorityReceipt :=
  match decision_token with
  | None => Raise MissingDecisionTokenError
  | Some t =>
      if negb (dk_valid t) then Raise InvalidDecisionTokenError else
      match receipt with
      | None => Raise MissingAuthorityReceiptError
      | Some mr =>
          let mutation_resource := normalize_resource_ref (mr_locator_path mr) in
          let bound_resource := normalize_resource_ref
            (if blank resource then mutation_resource else default "" resource) in
          if negb (String.eqb bound_resource (normalize_resource_ref (dk_resource t)))
          then Raise InvalidDecisionTokenError else
          Ok (mkAuthority (_id "authority_receipt" receipt_uuid) (dk_token_id t) (dk_decision_id t)
                (dk_action t) (dk_write_class t) (dk_actor t) bound_resource outcome
                (mr_operation mr) (mr_adapter mr) state_owner
                (mr_adapter mr +:+ ":" +:+ mr_operation mr +:+ ":" +:+ mutation_resource)
                (mr_fallback_used mr) (_utc_now now)
                (if blank trace_id then mr_trace_id mr else trace_id) effect_id CONTRACT_VERSION
                (dk_active_context t) (dk_target_binding_id t))
      end
  end.

(** ** Resource references *)

Definition slash (c : ascii) : ascii := if Ascii.eqb "\"%char c then "/"%char else c.
Lemma replace_slash s : str_replace "\" "/" 0 s = str_map slash s.
Proof.
  induction s as [|c s IH]; [done|]. cbn [str_replace startswith str_map]. unfold slash at 1.
  rewrite andb_true_r. destruct (Ascii.eqb "\"%char c); [|by rewrite IH].
  cbn [String.length Nat.sub]. by rewrite IH.
Qed.
Lemma normalize_idem s : normalize_resource_ref (normalize_resource_ref s) = normalize_resource_ref s.
Proof.
  unfold normalize_resource_ref. rewrite !replace_slash.
  assert (Hs : forall c, is_space (slash c) = is_space c)
    by (intros [[] [] [] [] [] [] [] []]; vm_compute; reflexivity).
  assert (Hi : forall s, str_map slash (str_map slash s) = str_map slash s).
  { assert (Hc : forall c, slash (slash c) = slash c)
      by (intros [[] [] [] [] [] [] [] []]; vm_compute; reflexivity).
    intros u. induction u as [|c u IH]; cbn; [done|]. by rewrite Hc, IH. }
  by rewrite (str_map_strip slash s) by done; rewrite strip_idem, <- (str_map_strip slash s), Hi by done.
Qed.

(** ** Tokens *)

Definition same_effect (e e' : effect_request) : Prop :=
  ef_action e' = ef_action e /\ ef_write_class e' = ef_write_class e /\ ef_actor e' = ef_actor e
  /\ normalize_resource_ref (ef_resource e') = normalize_resource_ref (ef_resource e).

Lemma validate_iff t e :
  validate_decision_token (Some t) e = Ok t <->
  dk_valid t = true /\ dk_action t = ef_action e /\ dk_write_class t = ef_write_class e
  /\ dk_actor t = ef_actor e
  /\ normalize_resource_ref (dk_resource t) = normalize_resource_ref (ef_resource e).
Proof.
  unfold validate_decision_token. destruct (dk_valid t); cbn [negb]; [|split; [done|by intros [? _]]].
  cbn [List.filter dict_get fst snd String.eqb Ascii.eqb Bool.eqb].
  repeat match goal with |- context [bool_decide (Some ?a = Some ?b)] =>
    destruct (bool_decide_reflect (Some a = Some b)); cbn [negb] end;
  case_bool_decide as Hm; split;
    try (intros ?; simplify_eq; by destruct Hm); try (intros (_ & ? & ? & ? & ?); congruence);
    intros _; simplify_eq; done.
Qed.
Lemma validate_raises t e r :
  validate_decision_token (Some t) e = r -> r = Ok t \/ r = Raise InvalidDecisionTokenError.
Proof.
  unfold validate_decision_token. destruct (negb _); [by right|]. case_bool_decide; intros <-; auto.
Qed.

Lemma issue_grant {W} b (f : ST W health_snapshot) e du tu now w grant w' :
  issue_decision_token b f e du tu now w = (Ok grant, w') ->
  grant = make_grant e "WriteGuard allowed the bounded durable mutation." "WriteGuard" du tu now
  /\ (ef_action e ∈ b
      \/ exists s, f w = (Ok s, w') /\ sn_state s ∉ WRITE_BLOCKED_STATES).
Proof.
  unfold issue_decision_token, assert_writes_allowed. intros E. apply st_bind_ok in E as ([] & w1 & E & Eg).
  injection Eg as <- ->. split; [done|].
  destruct (existsb (String.eqb (ef_action e)) b) eqn:Eb.
  - left. by apply existsb_eqb_In.
  - right. apply st_bind_ok in E as (s & w2 & E & Eg). exists s. unfold guard_not in Eg.
    destruct (existsb (String.eqb (sn_state s)) _) eqn:Es; [done|]. injection Eg as ->. split; [done|].
    intros Hin%existsb_eqb_In. congruence.
Qed.

(** A token the adapter issued, by the guard or for a human, is accepted for
    exactly the effects with its action, write class and actor whose resource
    is the same up to surrounding white space and the direction of slashes;
    any other effect is refused with [InvalidDecisionTokenError]. *)
Theorem issued_token_admits_exactly {W} b (f : ST W health_snapshot) e du tu now w grant w' e' :
  issue_decision_token b f e du tu now w = (Ok grant, w')
    \/ issue_human_decision_token e du tu now = Ok grant ->
  let t := gg_decision_token grant in
  (same_effect e e' /\ validate_decision_token (Some t) e' = Ok t)
  \/ (~ same_effect e e' /\ validate_decision_token (Some t) e' = Raise InvalidDecisionTokenError).
Proof.
  intros Hi t.
  assert (Ht : exists r s, grant = make_grant e r s du tu now).
  { destruct Hi as [Hi|Hi]; [apply issue_grant in Hi as [-> _]; by eexists _, _|].
    unfold issue_human_decision_token in Hi. case_match; [done|]. injection Hi as <-. by eexists _, _. }
  destruct Ht as (r & s & ->). subst t.
  assert (Hv : same_effect e e' <-> validate_decision_token (Some (gg_decision_token (make_grant e r s du tu now))) e'
                 = Ok (gg_decision_token (make_grant e r s du tu now))).
  { rewrite validate_iff. unfold same_effect. cbn -[normalize_resource_ref]. rewrite normalize_idem. naive_solver. }
  destruct (validate_raises (gg_decision_token (make_grant e r s du tu now)) e' _ eq_refl) as [E|E].
  - left. split; [|done]. by apply Hv.
  - right. split; [|done]. intros H. apply Hv in H. congruence.
Qed.

Lemma effect_capable c : require_effect_capable c = Ok tt <-> ac_posture c <> "degraded".
Proof. unfold require_effect_capable. destruct (String.eqb_spec (ac_posture c) "degraded"); done. Qed.

Lemma bind_context_ok grant ctx target bound :
  bind_context grant ctx target = Ok bound ->
  ac_posture ctx <> "degraded" /\ target ∈ context_binding_ids ctx
  /\ dk_active_context (gg_decision_token bound) = Some ctx
  /\ dk_target_binding_id (gg_decision_token bound) = Some target.
Proof.
  unfold bind_context. destruct (require_effect_capable ctx) as [[]|] eqn:Ec; [|done]. cbn.
  destruct (existsb _ _) eqn:Et; [|done]. intros [= <-]. split_and!; try done.
  - by apply effect_capable.
  - by apply existsb_eqb_In.
Qed.

Lemma context_eqb_parts a b : context_eqb a b = true ->
  ac_posture b = ac_posture a /\ context_binding_ids b = context_binding_ids a.
Proof.
  intros [H%bool_decide_eq_true _]%andb_true_iff. unfold without_expiry in H. unfold context_binding_ids.
  injection H. intros. split; congruence.
Qed.

(** After a grant is bound to a context and a target, the token passes the
    context check of an effect exactly for a context equal to the bound one and
    for that target; a context that is degraded or lacks the target cannot be
    bound at all. *)
Theorem bound_token_keeps_context grant ctx target bound ctx' target' :
  bind_context grant ctx target = Ok bound ->
  ac_posture ctx <> "degraded" /\ target ∈ context_binding_ids ctx
  /\ (validate_context (gg_decision_token bound) ctx' target' = Ok tt
      <-> context_eqb ctx ctx' = true /\ target' = target).
Proof.
  intros (Hp & Ht & Hc & Hb)%bind_context_ok. split_and!; [done..|].
  unfold validate_context. rewrite Hc, Hb. split.
  - destruct (require_effect_capable ctx') as [[]|]; [|done]. cbn.
    destruct (context_eqb ctx ctx'); [|done]. case_bool_decide as H; [done|]. intros _.
    split; congruence.
  - intros [He ->]. destruct (context_eqb_parts _ _ He) as [Hp' Hi].
    assert (Hr : require_effect_capable ctx' = Ok tt) by (apply effect_capable; congruence).
    rewrite Hr. cbn. rewrite He, bool_decide_false by auto.
    assert (Hin : existsb (String.eqb target) (context_binding_ids ctx') = true)
      by (apply existsb_eqb_In; congruence).
    by rewrite Hin.
Qed.

(** An authority receipt recorded under a token that the guard issued and
    that was bound to a context names the decision, the action, the write
    class, the actor and the resource of the request the guard admitted, on a
    snapshot whose state does not block writes unless the action is a bootstrap
    action, and carries the bound context and a target selected in it. *)
Theorem receipt_traces_to_guard {W} b (f : ST W health_snapshot) e du tu now w grant w' ctx target bound
    mr owner oc trace res eff ru now' receipt :
  issue_decision_token b f e du tu now w = (Ok grant, w') ->
  bind_context grant ctx target = Ok bound ->
  record_authority_receipt (Some (gg_decision_token bound)) mr owner oc trace res eff ru now' = Ok receipt ->
  (ef_action e ∈ b \/ exists s, f w = (Ok s, w') /\ sn_state s ∉ WRITE_BLOCKED_STATES)
  /\ ar_decision_id receipt = pd_decision_id (gg_policy_decision grant)
  /\ ar_decision_token_id receipt = dk_token_id (gg_decision_token grant)
  /\ ar_action receipt = ef_action e /\ ar_write_class receipt = ef_write_class e
  /\ ar_actor receipt = ef_actor e
  /\ ar_resource receipt = normalize_resource_ref (ef_resource e)
  /\ ar_active_context receipt = Some ctx /\ ar_target_binding_id receipt = Some target
  /\ target ∈ context_binding_ids ctx /\ ac_posture ctx <> "degraded".
Proof.
  intros [-> Hg]%issue_grant Hb Hr. destruct (bind_context_ok _ _ _ _ Hb) as (Hp & Ht & Hc & Htb).
  unfold bind_context in Hb. destruct (require_effect_capable ctx); [|done]. cbn -[normalize_resource_ref] in Hb.
  case_match; [done|]. injection Hb as <-.
  unfold record_authority_receipt in Hr. cbn -[normalize_resource_ref _utc_now] in Hr.
  destruct mr as [mr|]; [|done]. rewrite normalize_idem in Hr.
  case_match eqn:Er; [done|]. apply negb_false_iff, String.eqb_eq in Er. injection Hr as <-.
  split_and!; done.
Qed.

(** ** Runs *)

Module GovernedRun.
Definition now : datetime := utc (738000 * day_us).
Definition effect : effect_request := mkEffect "note.update" "vault_note" "operator" " notes\a.md ".
Definition quiet_snapshot : health_snapshot :=
  mkSnapshot "running" "recent activity" "" None None 0 None ("active", "")
    (mkReadiness "not_selected" true "" 0 0) "pass" "pass" None (mkDeadLetters None None) "unknown"
    true None None [] None.
Definition ctx : ActiveContextSetV1 :=
  mkContext "ctx" 1 WorkspaceState_none "default" [] None (mkPrincipal "op" "human" "trusted_loopback" 0)
    "inst" [mkBinding "b" 1 "epoch" None None None] 1 "epoch" "session_selection" "healthy" None None
    "single-node" None ACTIVE_CONTEXT_SET_V1 None.
Definition issued : res GovernedWriteGrant * unit := Eval vm_compute in
  issue_decision_token DEFAULT_BOOTSTRAP_ACTIONS (mret quiet_snapshot) effect "1" "2" now tt.
Definition grant : GovernedWriteGrant := Eval vm_compute in
  match fst issued with Ok g => g | Raise _ => make_grant effect "" "" "" "" now end.
Definition bound : GovernedWriteGrant := Eval vm_compute in
  match bind_context grant ctx "b" with Ok g => g | Raise _ => grant end.
Definition mutation : mutation_receipt := mkMutation "update" "notes/a.md" "vault" None false.
Definition recorded : res AuthorityReceipt := Eval vm_compute in
  record_authority_receipt (Some (gg_decision_token bound)) (Some mutation) "vault" "applied"
    None None None "3" now.
Definition receipt : AuthorityReceipt := Eval vm_compute in
  match recorded with Ok r => r | Raise _ => mkAuthority "" "" "" "" "" "" "" "" "" "" "" "" false "" None None "" None None end.

Lemma issued_token_run :
  let e' := mkEffect "note.update" "vault_note" "operator" "notes/a.md" in
  (same_effect effect e' /\ validate_decision_token (Some (gg_decision_token grant)) e'
                           = Ok (gg_decision_token grant))
  \/ (~ same_effect effect e'
      /\ validate_decision_token (Some (gg_decision_token grant)) e' = Raise InvalidDecisionTokenError).
Proof.
  apply (issued_token_admits_exactly DEFAULT_BOOTSTRAP_ACTIONS (mret quiet_snapshot) effect "1" "2" now tt grant tt).
  left. vm_compute. reflexivity.
Defined.
Lemma bound_token_run :
  ac_posture ctx <> "degraded" /\ "b" ∈ context_binding_ids ctx
  /\ (validate_context (gg_decision_token bound) ctx "b" = Ok tt
      <-> context_eqb ctx ctx = true /\ "b" = "b").
Proof. apply (bound_token_keeps_context grant ctx "b" bound ctx "b"). vm_compute. reflexivity. Defined.
Lemma receipt_run :
  ar_resource receipt = "notes/a.md" /\ ar_actor receipt = "operator"
  /\ ar_target_binding_id receipt = Some "b".
Proof.
  destruct (receipt_traces_to_guard DEFAULT_BOOTSTRAP_ACTIONS (mret quiet_snapshot) effect "1" "2" now tt
    grant tt ctx "b" bound (Some mutation) "vault" "applied" None None None "3" now receipt)
    as (_ & _ & _ & _ & _ & Ha & Hr & _ & Ht & _); [vm_compute; reflexivity..|].
  split_and!; [|exact Ha|exact Ht]. rewrite Hr. vm_compute. reflexivity.
Defined.
End GovernedRun.
