(* ===== verification/Procs.v ===== *)
(** * Programs of system calls

    Code whose correctness depends on the order of its system calls is kept as
    a tree of calls ([prog]): between two calls other processes may change the
    files, a call may fail, and the program may never be resumed.  [proc] adds
    a Python local variable that survives exceptions.

    Directory entries of regular files are [fs_names]; directories are named by
    their identity ([st_dev], [st_ino]) or are one of the private directories
    of a service: [StateDir] and, below it, one [TxnDir] per transaction.  A
    service's record files are kept apart, by name, with contents of type [R];
    [os.replace] of a finished temporary file is one call.  Descriptors are the
    inodes they were opened on.  What a call reads from outside the modelled
    files ([Ask]) is read off a [host] that may be another one at every call.

    [wp] is the weakest precondition of a program under interference: [Rl]
    bounds what others do, [G] is what every call of the program guarantees. *)
From S2P Require Import Prelude PyValue.
Open Scope Z_scope.

(** ** Files *)

Definition inode : Type := Z * Z.

Inductive dir : Type :=
  | PublicDir (i : inode)
  | StateDir
  | TxnDir (name : string).
#[export] Instance dir_eq_dec : EqDecision dir.
Proof. solve_decision. Defined.
#[export] Instance dir_countable : Countable dir.
Proof.
  apply (inj_countable' (fun d => match d with PublicDir i => inl i | StateDir => inr None | TxnDir n => inr (Some n) end)
    (fun x => match x with inl i => PublicDir i | inr None => StateDir | inr (Some n) => TxnDir n end)).
  by intros [].
Defined.

Definition private (d : dir) : Prop := match d with PublicDir _ => False | _ => True end.

Record file : Type := mkFile {
  fi_regular : bool;
  fi_size : Z;
  fi_mtime_ns : Z;
  fi_mode : Z;
  fi_uid : Z;
  fi_gid : Z;
  fi_raw : string }.

Section Calls.
Context {H R : Type}.

(** Calls that change names or records. *)
Inductive effect : Type :=
  | CreateExcl (d : dir) (n : string)
  | Link (d : dir) (n : string) (d' : dir) (n' : string)
  | RenameNoReplace (d : dir) (n : string) (d' : dir) (n' : string)
  | Unlink (d : dir) (n : string)
  | ReplaceRecord (n : string) (r : R).

(** [fs_log] is the history of the effects that happened. *)
Record world : Type := mkFs {
  fs_names : gmap (dir * string) inode;
  fs_files : gmap inode file;
  fs_records : gmap string R;
  fs_log : list effect }.

Inductive call : Type :=
  | Ask {A : Type} (f : H -> res A)
  | OpenRead (d : dir) (n : string)
  | ReadFile (i : inode)
  | LinkCount (i : inode)
  | ReadRecord (n : string)
  | ListRecords
  | Do (e : effect).
Definition answer (c : call) : Type :=
  match c with
  | @Ask A _ => A
  | OpenRead _ _ => inode
  | ReadFile _ => file
  | LinkCount _ => Z
  | ReadRecord _ => R
  | ListRecords => list string
  | Do _ => unit
  end.

Definition empty_file : file := mkFile true 0 0 384 0 0 "".

Definition nlink (w : world) (i : inode) : Z :=
  Z.of_nat (length (List.filter (fun kv => bool_decide (snd kv = i)) (map_to_list (fs_names w)))).

Definition apply_effect (e : effect) (w : world) : res world :=
  let set_names ns := mkFs ns (fs_files w) (fs_records w) (fs_log w ++ [e]) in
  match e with
  | CreateExcl d n =>
      if bool_decide (is_Some (fs_names w !! (d, n))) then Raise FileExistsError
      else let i := (0, fresh (map (fun kv => snd (fst kv)) (map_to_list (fs_files w)))) in
           Ok (mkFs (<[(d, n) := i]> (fs_names w)) (<[i := empty_file]> (fs_files w)) (fs_records w)
                 (fs_log w ++ [e]))
  | Link d n d' n' =>
      match fs_names w !! (d, n) with
      | None => Raise FileNotFoundError
      | Some i => if bool_decide (is_Some (fs_names w !! (d', n'))) then Raise FileExistsError
                  else Ok (set_names (<[(d', n') := i]> (fs_names w)))
      end
  | RenameNoReplace d n d' n' =>
      match fs_names w !! (d, n) with
      | None => Raise FileNotFoundError
      | Some i => if bool_decide (is_Some (fs_names w !! (d', n'))) then Raise FileExistsError
                  else Ok (set_names (<[(d', n') := i]> (delete (d, n) (fs_names w))))
      end
  | Unlink d n =>
      match fs_names w !! (d, n) with
      | None => Raise FileNotFoundError
      | Some _ => Ok (set_names (delete (d, n) (fs_names w)))
      end
  | ReplaceRecord n r =>
      Ok (mkFs (fs_names w) (fs_files w) (<[n := r]> (fs_records w)) (fs_log w ++ [e]))
  end.

Definition found {A} (o : option A) : res A := match o with Some a => Ok a | None => Raise FileNotFoundError end.

(** A call that is carried out. *)
Definition perform (h : H) (c : call) (w : world) : res (answer c) * world :=
  match c with
  | Ask f => (f h, w)
  | OpenRead d n => (found (fs_names w !! (d, n)), w)
  | ReadFile i => (match fs_files w !! i with Some f => Ok f | None => Raise (OSError "no such inode") end, w)
  | LinkCount i => (Ok (nlink w i), w)
  | ReadRecord n => (found (fs_records w !! n), w)
  | ListRecords => (Ok (map fst (map_to_list (fs_records w))), w)
  | Do e => match apply_effect e w with Ok w' => (Ok tt, w') | Raise x => (Raise x, w) end
  end.

(** ** Programs *)

Inductive prog (A : Type) : Type :=
  | Done (a : A)
  | Call (c : call) (k : res (answer c) -> prog A).
Arguments Done {A} a.
Arguments Call {A} c k.

Fixpoint prog_bind {A B} (p : prog A) (f : A -> prog B) : prog B :=
  match p with
  | Done a => f a
  | Call c k => Call c (fun r => prog_bind (k r) f)
  end.

(** What happens to a call: it is carried out, or it fails.  The two errors
    that tell whether a name exists are raised only by a call that found so. *)
Inductive tick : Type := Reply (h : H) | Fault (e : exn).
Definition fault (e : exn) : exn :=
  match e with FileNotFoundError | FileExistsError => OSError "" | e => e end.
Definition do_call (t : tick) (c : call) (w : world) : res (answer c) * world :=
  match t with
  | Reply h => perform h c w
  | Fault e => (Raise (fault e), w)
  end.

(** A run without interference in which every call is carried out. *)
Fixpoint exec {A} (h : H) (p : prog A) (w : world) : A * world :=
  match p with
  | Done a => (a, w)
  | Call c k => let '(r, w) := perform h c w in exec h (k r) w
  end.

(** A prefix of a run under a schedule: each entry says what others do first
    and what happens to the next call. *)
Fixpoint prefix {A} (l : list ((world -> world) * tick)) (p : prog A) (w : world) : prog A * world :=
  match l, p with
  | (others, t) :: l, Call c k =>
      let '(r, w) := do_call t c (others w) in prefix l (k r) w
  | _, _ => (p, w)
  end.

(** ** Programs with a local variable and exceptions *)

Definition proc (M A : Type) : Type := M -> prog (res A * M).
Section Proc.
Context {M : Type}.

#[global] Instance proc_ret : MRet (proc M) := fun A a m => Done (Ok a, m).
#[global] Instance proc_bind : MBind (proc M) := fun A B f c m =>
  prog_bind (c m) (fun rm =>
    match rm with
    | (Ok a, m) => f a m
    | (Raise e, m) => Done (Raise e, m)
    end).
Definition praise {A} (e : exn) : proc M A := fun m => Done (Raise e, m).
Definition plift {A} (r : res A) : proc M A := fun m => Done (r, m).
Definition pguard (c : bool) (e : exn) : proc M unit := if c then praise e else mret tt.
Definition pcatch {A} (p : proc M A) (handler : exn -> proc M A) : proc M A := fun m =>
  prog_bind (p m) (fun rm =>
    match rm with
    | (Ok a, m) => Done (Ok a, m)
    | (Raise e, m) => handler e m
    end).
(** [try: p finally: q]. *)
Definition pfinally {A} (p : proc M A) (q : proc M unit) : proc M A := fun m =>
  prog_bind (p m) (fun rm =>
    prog_bind (q (snd rm)) (fun um =>
      match um with
      | (Ok _, m) => Done (fst rm, m)
      | (Raise e, m) => Done (Raise e, m)
      end)).
Definition pget : proc M M := fun m => Done (Ok m, m).
Definition pset (m : M) : proc M unit := fun _ => Done (Ok tt, m).
Definition sys (c : call) : proc M (answer c) := fun m => Call c (fun r => Done (r, m)).
Definition ask {A} (f : H -> res A) : proc M A := sys (Ask f).
(** A call whose only visible outcome is that it may fail (fsync, writing a
    temporary file, taking a lock). *)
Definition io : proc M unit := ask (fun _ => Ok tt).
Fixpoint pforeach {A} (l : list A) (body : A -> proc M unit) : proc M unit :=
  match l with
  | [] => mret tt
  | a :: l => _ ← body a; pforeach l body
  end.
End Proc.

(** ** Preconditions under interference *)

Section Logic.
Context (Rl G : world -> world -> Prop).

Fixpoint wp {A} (p : prog A) (Q : A -> world -> Prop) (w : world) : Prop :=
  match p with
  | Done a => Q a w
  | Call c k => forall w1 t, Rl w w1 ->
      let '(r, w2) := do_call t c w1 in G w1 w2 /\ wp (k r) Q w2
  end.

Lemma wp_mono {A} (p : prog A) (Q Q' : A -> world -> Prop) w :
  (forall a w, Q a w -> Q' a w) -> wp p Q w -> wp p Q' w.
Proof.
  intros HQ. revert w. induction p as [a|c k IH]; cbn; [auto|]. intros w Hp w1 t Hr.
  specialize (Hp w1 t Hr). destruct (do_call t c w1) as [r w2]. destruct Hp as [? Hp]. eauto.
Qed.
Lemma wp_bind {A B} (p : prog A) (f : A -> prog B) Q w :
  wp p (fun a w => wp (f a) Q w) w -> wp (prog_bind p f) Q w.
Proof.
  revert w. induction p as [a|c k IH]; cbn; [auto|]. intros w Hp w1 t Hr.
  specialize (Hp w1 t Hr). destruct (do_call t c w1) as [r w2]. destruct Hp as [? Hp]. eauto.
Qed.

(** A program that only reads. *)
Definition is_read (c : call) : Prop := match c with Do _ => False | _ => True end.
Fixpoint reads {A} (Q : A -> Prop) (p : prog A) : Prop :=
  match p with
  | Done a => Q a
  | Call c k => is_read c /\ forall r, reads Q (k r)
  end.
Lemma read_keeps t c w : is_read c -> snd (do_call t c w) = w.
Proof. destruct t, c; done. Qed.
Lemma reads_mono {A} (Q Q' : A -> Prop) p : (forall a, Q a -> Q' a) -> reads Q p -> reads Q' p.
Proof. intros HQ. induction p; cbn; [auto|]. intros []; eauto. Qed.
Lemma reads_bind {A B} (p : prog A) (f : A -> prog B) Q :
  reads (fun a => reads Q (f a)) p -> reads Q (prog_bind p f).
Proof. induction p; cbn; [auto|]. intros []; eauto. Qed.

Definition stable (P : world -> Prop) : Prop := forall w w', Rl w w' -> P w -> P w'.
Context (G_refl : forall w, G w w).
Lemma reads_wp {A} (p : prog A) (Q : A -> Prop) (P : world -> Prop) w :
  reads Q p -> stable P -> P w -> wp p (fun a w => Q a /\ P w) w.
Proof.
  intros Hp HP. revert w Hp. induction p as [a|c k IH]; cbn; [auto|].
  intros w [Hc Hk] Hw w1 t Hr. pose proof (read_keeps t c w1 Hc) as E.
  destruct (do_call t c w1) as [r w2]. cbn in E. subst w2. split; [done|]. eauto.
Qed.

Context {M : Type}.
Definition pwp {A} (p : proc M A) (m : M) (Q : res A -> M -> world -> Prop) (w : world) : Prop :=
  wp (p m) (fun rm w => Q (fst rm) (snd rm) w) w.
Definition preads {A} (p : proc M A) : Prop := forall m, reads (fun rm => snd rm = m) (p m).

Lemma pwp_mono {A} (p : proc M A) m (Q Q' : res A -> M -> world -> Prop) w :
  (forall r m w, Q r m w -> Q' r m w) -> pwp p m Q w -> pwp p m Q' w.
Proof. intros HQ. apply wp_mono. auto. Qed.
Lemma pwp_bind {A B} (p : proc M A) (f : A -> proc M B) m Q w :
  pwp p m (fun r m w => match r with Ok a => pwp (f a) m Q w | Raise e => Q (Raise e) m w end) w ->
  pwp (p ≫= f) m Q w.
Proof. intros Hp. apply wp_bind. revert Hp. apply wp_mono. by intros [[a|e] m'] w'. Qed.
Lemma pwp_catch {A} (p : proc M A) hd m Q w :
  pwp p m (fun r m w => match r with Ok a => Q (Ok a) m w | Raise e => pwp (hd e) m Q w end) w ->
  pwp (pcatch p hd) m Q w.
Proof. intros Hp. apply wp_bind. revert Hp. apply wp_mono. by intros [[a|e] m'] w'. Qed.
Lemma pwp_reads {A} (p : proc M A) m (P : world -> Prop) Q w :
  preads p -> stable P -> P w -> (forall r w, P w -> Q r m w) -> pwp p m Q w.
Proof.
  intros Hp HP Hw HQ. eapply wp_mono; [|eapply (reads_wp _ _ P w (Hp m)); done].
  intros [r m'] w' [E ?]. cbn in *. subst. auto.
Qed.
Lemma pwp_read_bind {A B} (p : proc M A) (f : A -> proc M B) m (P : world -> Prop) Q w :
  preads p -> stable P -> P w ->
  (forall e w, P w -> Q (Raise e) m w) -> (forall a w, P w -> pwp (f a) m Q w) -> pwp (p ≫= f) m Q w.
Proof.
  intros Hp HP Hw HE HQ. apply pwp_bind, (pwp_reads p m P); [done..|]. intros [a|e] w'; auto.
Qed.
Lemma pwp_ret {A} (a : A) m (Q : res A -> M -> world -> Prop) w : Q (Ok a) m w -> pwp (mret a) m Q w.
Proof. done. Qed.
Lemma pwp_raise {A} e m (Q : res A -> M -> world -> Prop) w : Q (Raise e) m w -> pwp (praise e) m Q w.
Proof. done. Qed.
Lemma pwp_set_bind {B} m' (f : unit -> proc M B) m Q w : pwp (f tt) m' Q w -> pwp (pset m' ≫= f) m Q w.
Proof. done. Qed.
Lemma pwp_get_bind {B} (f : M -> proc M B) m Q w : pwp (f m) m Q w -> pwp (pget ≫= f) m Q w.
Proof. done. Qed.
Lemma pwp_guard_bind {B} c e (f : unit -> proc M B) m Q w :
  Q (Raise e) m w -> (c = false -> pwp (f tt) m Q w) -> pwp (pguard c e ≫= f) m Q w.
Proof. intros HE Hf. destruct c; [exact HE|exact (Hf eq_refl)]. Qed.
(** One reading call, on the world others left. *)
Lemma pwp_read c m (Q : res (answer c) -> M -> world -> Prop) w :
  is_read c -> (forall w1 t, Rl w w1 -> Q (fst (do_call t c w1)) m w1) -> pwp (sys c) m Q w.
Proof.
  intros Hc Hp w1 t Hr. pose proof (read_keeps t c w1 Hc) as E. specialize (Hp w1 t Hr).
  destruct (do_call t c w1) as [r w2]. cbn in *. subst. by split.
Qed.
(** One effect: it fails without a trace or happens. *)
Lemma pwp_do e m (Q : res unit -> M -> world -> Prop) w :
  (forall w1, Rl w w1 ->
    (forall x, Q (Raise x) m w1)
    /\ (forall w2, apply_effect e w1 = Ok w2 -> G w1 w2 /\ Q (Ok tt) m w2)) ->
  pwp (sys (Do e)) m Q w.
Proof.
  intros Hp w1 t Hr. destruct (Hp w1 Hr) as [HE HO].
  destruct t as [h|x]; cbn [do_call perform]; [|split; [apply G_refl|apply HE]].
  destruct (apply_effect e w1) as [w2|x]; [by apply HO|split; [apply G_refl|apply HE]].
Qed.
End Logic.

Lemma preads_ret {M A} (a : A) : preads (M:=M) (mret a).
Proof. intros m. done. Qed.
Lemma preads_raise {M A} e : preads (M:=M) (A:=A) (praise e).
Proof. intros m. done. Qed.
Lemma preads_lift {M A} (r : res A) : preads (M:=M) (plift r).
Proof. intros m. done. Qed.
Lemma preads_guard {M} c e : preads (M:=M) (pguard c e).
Proof. intros m. destruct c; done. Qed.
Lemma preads_get {M} : preads (M:=M) pget.
Proof. intros m. done. Qed.
Lemma preads_sys {M} c : is_read c -> preads (M:=M) (sys c).
Proof. intros Hc m. done. Qed.
Lemma preads_ask {M A} (f : H -> res A) : preads (M:=M) (ask f).
Proof. by apply preads_sys. Qed.
Lemma preads_bind {M A B} (p : proc M A) (f : A -> proc M B) :
  preads p -> (forall a, preads (f a)) -> preads (p ≫= f).
Proof.
  intros Hp Hf m. apply reads_bind. eapply reads_mono; [|apply Hp].
  intros [[a|e] m'] E; cbn in E; subst; [apply Hf|done].
Qed.
Lemma preads_catch {M A} (p : proc M A) hd : preads p -> (forall e, preads (hd e)) -> preads (pcatch p hd).
Proof.
  intros Hp Hf m. apply reads_bind. eapply reads_mono; [|apply Hp].
  intros [[a|e] m'] E; cbn in E; subst; [done|apply Hf].
Qed.
Lemma preads_foreach {M A} (l : list A) (body : A -> proc M unit) :
  (forall a, preads (body a)) -> preads (pforeach l body).
Proof. intros Hb. induction l as [|a l IH]; cbn; [apply preads_ret|]. apply preads_bind; auto. Qed.

(** ** Runs without faults *)

Definition runs {M A} (h : H) (p : proc M A) (m : M) (w : world) (a : A) (m' : M) (w' : world) : Prop :=
  exec h (p m) w = ((Ok a, m'), w').
Lemma exec_bind {A B} h (p : prog A) (f : A -> prog B) w :
  exec h (prog_bind p f) w = let '(a, w1) := exec h p w in exec h (f a) w1.
Proof. revert w. induction p as [a|c k IH]; intros w; cbn; [done|]. by destruct (perform h c w). Qed.
Lemma runs_bind {M A B} h (p : proc M A) (f : A -> proc M B) m w a m1 w1 b m2 w2 :
  runs h p m w a m1 w1 -> runs h (f a) m1 w1 b m2 w2 -> runs h (p ≫= f) m w b m2 w2.
Proof. unfold runs, mbind, proc_bind. intros Hp Hf. rewrite exec_bind, Hp. done. Qed.
Lemma runs_ret {M A} h (a : A) (m : M) w : runs h (mret a) m w a m w.
Proof. done. Qed.
Lemma runs_ask {M A} h (f : H -> res A) (m : M) w a : f h = Ok a -> runs h (ask f) m w a m w.
Proof. unfold runs. cbn. by intros ->. Qed.
Lemma runs_guard {M} h c e (m : M) w : c = false -> runs h (pguard c e) m w tt m w.
Proof. by intros ->. Qed.
Lemma runs_lift {M A} h (r : res A) (m : M) w a : r = Ok a -> runs h (plift r) m w a m w.
Proof. by intros ->. Qed.
Lemma runs_do {M} h e (m : M) w w' : apply_effect e w = Ok w' -> runs h (sys (Do e)) m w tt m w'.
Proof. unfold runs. cbn. by intros ->. Qed.
Lemma runs_finally {M A} h (p : proc M A) q m w a m1 w1 m2 w2 :
  runs h p m w a m1 w1 -> runs h q m1 w1 tt m2 w2 -> runs h (pfinally p q) m w a m2 w2.
Proof. unfold runs, pfinally. intros Hp Hq. rewrite exec_bind, Hp, exec_bind. cbn [snd]. by rewrite Hq. Qed.
Lemma runs_catch_ok {M A} h (p : proc M A) hd m w a m1 w1 : runs h p m w a m1 w1 -> runs h (pcatch p hd) m w a m1 w1.
Proof. unfold runs, pcatch. intros Hp. by rewrite exec_bind, Hp. Qed.
(** A check that only asks and passes. *)
Definition passes {M A} (h : H) (p : proc M A) (a : A) : Prop := forall m w, runs h p m w a m w.
(** A run is one of the behaviours the preconditions speak of. *)
Lemma wp_exec {A} (G : world -> world -> Prop) h (p : prog A) Q w :
  wp eq G p Q w -> Q (fst (exec h p w)) (snd (exec h p w)).
Proof.
  revert w. induction p as [a|c k IH]; intros w; cbn; [done|]. intros Hp. specialize (Hp w (Reply h) eq_refl).
  cbn [do_call] in Hp. destruct (perform h c w) as [r w1]. apply IH, Hp.
Qed.
Lemma runs_pwp {M A} (G : world -> world -> Prop) h (p : proc M A) m Q w a m' w' :
  pwp eq G p m Q w -> runs h p m w a m' w' -> Q (Ok a) m' w'.
Proof. intros Hp Hr. apply (wp_exec G h) in Hp. unfold runs in Hr. by rewrite Hr in Hp. Qed.

(** ** Runs of a system

    One attempt runs at a time (the service's lock); it may be abandoned at
    any call and another one started, while others act on the files. *)
Record system (A : Type) : Type := mkSystem { s_world : world; s_running : option (prog A) }.
Arguments mkSystem {A} _ _.
Arguments s_world {A} _.
Arguments s_running {A} _.

Section System.
Context {A : Type} (attempt : prog A -> Prop) (Rl G : world -> world -> Prop).

Inductive own_step : system A -> system A -> Prop :=
  | own_call t c k w :
      own_step (mkSystem w (Some (Call c k)))
        (mkSystem (snd (do_call t c w)) (Some (k (fst (do_call t c w))))).
Inductive sys_step : system A -> system A -> Prop :=
  | step_start p w r : attempt p -> sys_step (mkSystem w r) (mkSystem w (Some p))
  | step_own s s' : own_step s s' -> sys_step s s'
  | step_other w w' r : Rl w w' -> sys_step (mkSystem w r) (mkSystem w' r).

(** A run under a schedule is a run of the system. *)
Lemma prefix_reachable l p w :
  Forall (fun ot => forall w, Rl w (fst ot w)) l ->
  rtc sys_step (mkSystem w (Some p)) (mkSystem (snd (prefix l p w)) (Some (fst (prefix l p w)))).
Proof.
  intros Hl. revert p w. induction Hl as [|[f t] l Hf _ IH]; intros p w; [by destruct p|].
  destruct p as [a|c k]; [done|]. cbn [prefix]. eapply rtc_l; [apply (step_other w (f w)); apply Hf|].
  eapply rtc_l; [apply step_own, (own_call t)|]. destruct (do_call t c (f w)). apply IH.
Qed.
(** The next call of the running attempt. *)
Definition own_next (t : tick) (s : system A) : system A :=
  match s_running s with
  | Some (Call c k) => mkSystem (snd (do_call t c (s_world s))) (Some (k (fst (do_call t c (s_world s)))))
  | _ => s
  end.
Definition calling (s : system A) : bool := match s_running s with Some (Call _ _) => true | _ => false end.
Lemma own_next_step t s : calling s = true -> own_step s (own_next t s).
Proof. destruct s as [w [[a|c k]|]]; intros Hc; [done|constructor|done]. Qed.

Context (Inv : world -> Prop) (Q : A -> world -> Prop).
Context (Rl_trans : forall w1 w2 w3, Rl w1 w2 -> Rl w2 w3 -> Rl w1 w3) (Rl_refl : forall w, Rl w w).
Context (Inv_Rl : forall w w', Rl w w' -> Inv w -> Inv w') (Inv_G : forall w w', G w w' -> Inv w -> Inv w').
Context (Q_Rl : forall a w w', Rl w w' -> Q a w -> Q a w').
Context (attempt_ok : forall p w, attempt p -> Inv w -> wp Rl G p Q w).

Definition sys_ok (s : system A) : Prop :=
  Inv (s_world s) /\ match s_running s with Some p => wp Rl G p Q (s_world s) | None => True end.

Lemma wp_rely (p : prog A) w w' : Rl w w' -> wp Rl G p Q w -> wp Rl G p Q w'.
Proof. destruct p as [a|c k]; cbn; [apply Q_Rl|]. intros Hr Hp w1 t Hr'. apply Hp. eauto. Qed.
Lemma own_step_ok s s' : sys_ok s -> own_step s s' -> G (s_world s) (s_world s') /\ sys_ok s'.
Proof.
  intros Hs Ho. destruct Ho as [t c k w]. destruct Hs as [Hi Hp]. cbn in *. specialize (Hp w t (Rl_refl w)).
  destruct (do_call t c w) as [r w2]. destruct Hp as [Hg Hp]. cbn. split; [done|]. split; eauto.
Qed.
Lemma sys_step_ok s s' : sys_ok s -> sys_step s s' -> sys_ok s'.
Proof.
  intros Hs Hst. destruct Hst as [p w r Ha|s1 s2 Ho|w w' r Hr]; [|by eapply own_step_ok|];
    destruct Hs as [Hi Hp]; split; cbn in *; eauto.
  destruct r; [|done]. by eapply wp_rely.
Qed.
Lemma reachable_ok s s' : sys_ok s -> rtc sys_step s s' -> sys_ok s'.
Proof. induction 2; eauto using sys_step_ok. Qed.
End System.
End Calls.
Arguments Done {H R A} a.
Arguments Call {H R A} c k.
Arguments mkSystem {H R A} _ _.
Arguments s_world {H R A} _.
Arguments s_running {H R A} _.

Create HintDb preads discriminated.
#[export] Hint Resolve preads_ret preads_raise preads_lift preads_guard preads_get preads_ask
  preads_bind preads_catch preads_foreach : preads.
