(* ===== verification/Placement.v ===== *)
(** * Moving and renaming notes

    src/app/knowledge/placement.py: [KnowledgePlacementOwner] moves a human
    note to another name in the vault.  A private, durable record per request
    names the phase of the transaction, and private hard links keep the note's
    inode while its public names change, so that an interrupted placement can
    be taken up again.

    The code is a program of system calls ([Procs]); the local variable is
    [record] of [place_artifact], which the exception handlers read.  Readings
    of the clock, of the registry, of other modules' path rules and of the
    directory tree are fields of [host] and may change from call to call.  A
    record file holds its typed document ([Doc]) or something [_load] refuses;
    the texts of JSON are not modelled.  [asdict] of a context is written out
    where its digest is taken, with the JSON form of a float as a parameter. *)
From Stdlib Require Import SpecFloat Ascii.
From S2P Require Import Prelude PyValue PyTime Sql VaultRegistry ActiveContext ContextSelection Health HealthContract GovernedWrite Procs.
Open Scope Z_scope.

Definition RegistryError : exn := OtherException "RegistryError".
Definition ContextBoundReadError : exn := OtherException "ContextBoundReadError".

(** ** Paths *)

Fixpoint split_on (c : ascii) (s : string) : list string :=
  match s with
  | EmptyString => [""]
  | String a s =>
      if Ascii.eqb a c then "" :: split_on c s
      else match split_on c s with
           | p :: l => String a p :: l
           | [] => [String a ""]
           end
  end.
Definition endswith (p s : string) : bool := startswith (str_rev "" p) (str_rev "" s).

(** [PurePosixPath(value).parts] of a relative path, [as_posix], [name], [parent], [suffix]. *)
Definition path_parts (value : string) : list string :=
  List.filter (fun p => negb (String.eqb p "" || String.eqb p ".")) (split_on "/"%char value).
Definition as_posix (parts : list string) : string :=
  match parts with [] => "." | _ => join "/" parts end.
Definition path_name (parts : list string) : string := default "" (last parts).
Definition path_parent (parts : list string) : list string := removelast parts.
(** The text after the last dot of a name that neither starts nor ends with it. *)
Definition path_suffix (name : string) : string :=
  match str_rev "" name, rev (split_on "."%char name) with
  | String c _, ext :: _ :: _ =>
      if Ascii.eqb c "."%char then ""
      else if String.eqb ("." +:+ ext) name then "" else "." +:+ ext
  | _, _ => ""
  end.

(** ** Data *)

Inductive Phase : Type := reserved | prepared | publishing | activated | retiring | committed.
#[export] Instance Phase_eq_dec : EqDecision Phase.
Proof. solve_decision. Defined.
Definition Phase_value (p : Phase) : string :=
  match p with
  | reserved => "reserved" | prepared => "prepared" | publishing => "publishing"
  | activated => "activated" | retiring => "retiring" | committed => "committed"
  end.
Definition _COMMITTED (p : Phase) : bool :=
  match p with activated | retiring | committed => true | _ => false end.

Record PlacementIntent : Type := mkIntent {
  in_request_id : string;
  in_operation : string;
  in_artifact_id : string;
  in_source : string;
  in_destination : string;
  in_expected_source_generation : string;
  in_expected_destination_generation : string;
  in_context_ref : string;
  in_vault_generation : string }.

(** The metadata of [_snapshot]. *)
Record snapshot : Type := mkSnap {
  sp_inode : inode;
  sp_size : Z;
  sp_mtime_ns : Z;
  sp_mode : Z;
  sp_uid : Z;
  sp_gid : Z;
  sp_sha256 : string }.
#[export] Instance snapshot_eq_dec : EqDecision snapshot.
Proof. solve_decision. Defined.

Record placement_binding : Type := mkPlacementBinding {
  pb_root : inode;
  pb_context_ref : string;
  pb_vault_generation : string;
  pb_actor : string;
  pb_target_binding_id : string;
  pb_active_context_digest : string }.
#[export] Instance placement_binding_eq_dec : EqDecision placement_binding.
Proof. solve_decision. Defined.

Record WriteReceipt : Type := mkWriteReceipt {
  wr_operation : string;
  wr_vault : string;
  wr_path : string;
  wr_adapter : string;
  wr_trace_id : option string;
  wr_fallback_used : bool;
  wr_writer_identity : option string;
  wr_outcome : string }.

(** [record["receipt"]]; the grant of its [governed_write] is the record's. *)
Record placement_receipt : Type := mkPlacementReceipt {
  pt_receipt_id : string;
  pt_artifact_id : string;
  pt_source_locator : string;
  pt_destination_locator : string;
  pt_source_generation : string;
  pt_destination_generation : string;
  pt_source_receipt : WriteReceipt;
  pt_grant : GovernedWriteGrant;
  pt_authority_receipt : AuthorityReceipt;
  pt_projection_repair : list string }.

(** The document [hka.placement.v1].  [binding] is [None] for a dict that is
    not of the shape [_binding] gives, and so never equal to it. *)
Record PlacementRecord : Type := mkRecord {
  pr_intent : PlacementIntent;
  pr_intent_digest : string;
  pr_binding : option placement_binding;
  pr_phase : Phase;
  pr_snapshot : snapshot;
  pr_parents : inode * inode;
  pr_grant : GovernedWriteGrant;
  pr_receipt : option placement_receipt;
  pr_cleanup_complete : bool }.

(** What a file of the state directory with a record's name may hold: not a
    private regular file, not JSON, JSON of another shape, or a document. *)
Inductive evidence : Type :=
  | NotPrivate
  | NotJson
  | IllShaped
  | Doc (r : PlacementRecord).

Record PlacementResult : Type := mkPlacementResult {
  ps_status : string;
  ps_record : option PlacementRecord;
  ps_reason : option string }.
Definition refusal (status reason : string) : PlacementResult := mkPlacementResult status None (Some reason).

Definition source_committed (r : PlacementResult) : bool :=
  match ps_record r with Some rec => _COMMITTED (pr_phase rec) | None => false end.

Definition with_phase (p : Phase) (r : PlacementRecord) : PlacementRecord :=
  mkRecord (pr_intent r) (pr_intent_digest r) (pr_binding r) p (pr_snapshot r) (pr_parents r)
    (pr_grant r) (pr_receipt r) (pr_cleanup_complete r).
Definition with_receipt (t : placement_receipt) (r : PlacementRecord) : PlacementRecord :=
  mkRecord (pr_intent r) (pr_intent_digest r) (pr_binding r) (pr_phase r) (pr_snapshot r)
    (pr_parents r) (pr_grant r) (Some t) (pr_cleanup_complete r).
Definition with_cleanup (r : PlacementRecord) : PlacementRecord :=
  mkRecord (pr_intent r) (pr_intent_digest r) (pr_binding r) (pr_phase r) (pr_snapshot r)
    (pr_parents r) (pr_grant r) (pr_receipt r) true.

(** The owner's fields; its guard is the allow-list of bootstrap actions. *)
Record KnowledgePlacementOwner : Type := mkOwner {
  ow_root : string;
  ow_root_identity : inode;
  ow_context_ref : string;
  ow_vault_generation : string;
  ow_actor : string;
  ow_active_context : ActiveContextSetV1;
  ow_target_binding_id : string;
  ow_filesystem : option string;
  ow_bootstrap : list string }.

(** What identity resolution finds in a note's bytes. *)
Record note_identity : Type := mkIdentity {
  ni_chat_session : bool;
  ni_owns_identity : bool;
  ni_artifact_kind : string;
  ni_artifact_id : string }.

Record host : Type := mkHost {
  h_time : res spec_float;                         (* time.time() *)
  h_now : res datetime;
  h_uuid : res string;
  h_root_canonical : res bool;                     (* root.resolve() == root *)
  h_root_inode : res inode;
  h_registry_configured : res bool;                (* the configured registry is the owner's *)
  h_context_is_current : res bool;
  h_source_root_ingress : res unit;
  h_read_existing : res RegistrySnapshot;
  h_load_registry : res RegistrySnapshot;
  h_resolve : string -> res string;                (* Path(p).resolve() *)
  h_is_dir : string -> bool;
  h_authority_is_current : PlacementIntent -> res bool;
  h_health : res health_snapshot;
  h_within_system : string -> res bool;
  h_overlaps_capture : string -> res bool;
  h_enclosing_root : string -> res string;
  h_note_is_rewritten : string -> res bool;
  h_paths_overlap : string -> string -> res bool;
  h_identity : string -> string -> res note_identity;
  h_listdir : inode -> res (list string);
  h_open_directory : inode -> string -> res inode;
  h_private : dir -> res bool;                     (* owned by the user, mode 0700 *)
  h_state_on_root_device : res bool;
  h_lock_is_private_file : res bool;
  h_state_is_linked : res bool;                    (* the name still leads to the open directory *)
  h_platform_supported : res bool;
  h_read_window : res (list (string * string));    (* roots by binding, under their leases *)
  h_has_runtime : res bool;
  h_vault_name : res string }.

Abbreviation pl A := (@proc host evidence (option PlacementRecord) A).
Abbreviation pl_world := (@world evidence).

(** ** Digests *)

Section Owner.
Context (sha256_hex : string -> string) (float_json : spec_float -> pyval).

Definition _digest (value : pyval) : string := sha256_hex (json_dumps "," ":" true value).
Definition _inode (i : inode) : pyval := PList [PInt (fst i); PInt (snd i)].

Definition intent_dict (i : PlacementIntent) : pydict :=
  [("request_id", PStr (in_request_id i)); ("operation", PStr (in_operation i));
   ("artifact_id", PStr (in_artifact_id i)); ("source", PStr (in_source i));
   ("destination", PStr (in_destination i));
   ("expected_source_generation", PStr (in_expected_source_generation i));
   ("expected_destination_generation", PStr (in_expected_destination_generation i));
   ("context_ref", PStr (in_context_ref i)); ("vault_generation", PStr (in_vault_generation i))].
Definition snapshot_dict (s : snapshot) : pydict :=
  [("inode", _inode (sp_inode s)); ("size", PInt (sp_size s)); ("mtime_ns", PInt (sp_mtime_ns s));
   ("mode", PInt (sp_mode s)); ("uid", PInt (sp_uid s)); ("gid", PInt (sp_gid s));
   ("sha256", PStr (sp_sha256 s))].
Definition opt_json {A} (f : A -> pyval) (o : option A) : pyval :=
  match o with Some a => f a | None => PNone end.
Definition context_dict (c : ActiveContextSetV1) : pydict :=
  [("context_id", PStr (ac_context_id c)); ("generation", PInt (ac_generation c));
   ("workspace", PDict [("state", PStr (ws_state (ac_workspace c)));
                        ("workspace_id", opt_json PStr (ws_workspace_id (ac_workspace c)))]);
   ("scope", PStr (ac_scope c)); ("sphere_memberships", PTuple (map PStr (ac_sphere_memberships c)));
   ("situated_identity", opt_json PStr (ac_situated_identity c));
   ("principal_context",
      PDict [("principal_id", PStr (pc_principal_id (ac_principal_context c)));
             ("principal_kind", PStr (pc_principal_kind (ac_principal_context c)));
             ("subject", PStr (pc_subject (ac_principal_context c)));
             ("revision", PInt (pc_revision (ac_principal_context c)))]);
   ("instance_identity", PStr (ac_instance_identity c));
   ("source_bindings", PTuple (map (fun b => PDict
      [("vault_binding_id", PStr (cb_vault_binding_id b)); ("binding_revision", PInt (cb_binding_revision b));
       ("authorization_epoch", PStr (cb_authorization_epoch b)); ("vault_id", opt_json PStr (cb_vault_id b));
       ("local_instance_id", opt_json PStr (cb_local_instance_id b)); ("label", opt_json PStr (cb_label b))])
      (ac_source_bindings c)));
   ("registry_revision", PInt (ac_registry_revision c));
   ("authorization_epoch", PStr (ac_authorization_epoch c));
   ("selection_provenance", PStr (ac_selection_provenance c)); ("posture", PStr (ac_posture c));
   ("degraded_reason", opt_json PStr (ac_degraded_reason c));
   ("selection_capability_digest", opt_json PStr (ac_selection_capability_digest c));
   ("topology_posture", PStr (ac_topology_posture c)); ("expires_at", opt_json float_json (ac_expires_at c));
   ("version", PStr (ac_version c));
   ("dimension_filter", opt_json (fun d => PDict
      [("dimension_id", PStr (df_dimension_id d)); ("dimension_revision", PInt (df_dimension_revision d))])
      (ac_dimension_filter c))].
Definition context_digest (c : option ActiveContextSetV1) : string :=
  _digest (opt_json (fun c => PDict (context_dict c)) c).

Context (o : KnowledgePlacementOwner).
Let ctx := ow_active_context o.

(** [_snapshot] of an open inode: a check of its type, then a stable read. *)
Definition _snapshot (i : inode) : pl (string * snapshot) :=
  f ← sys (ReadFile i);
  _ ← pguard (negb (fi_regular f)) (KnowledgeCapabilityError "placement requires a regular human note");
  f ← sys (ReadFile i);
  mret (fi_raw f, mkSnap i (fi_size f) (fi_mtime_ns f) (fi_mode f) (fi_uid f) (fi_gid f) (sha256_hex (fi_raw f))).
Definition not_found_as {A} (a : A) (p : pl A) : pl A :=
  pcatch p (fun e => match e with FileNotFoundError => mret a | e => praise e end).
Definition _entry (parent : dir) (name : string) : pl (option snapshot) :=
  fd ← not_found_as None (i ← sys (OpenRead parent name); mret (Some i));
  match fd with
  | None => mret None
  | Some fd => '(_, s) ← _snapshot fd; mret (Some s)
  end.
Definition stat_exists (parent : dir) (name : string) : pl bool :=
  not_found_as false (_ ← sys (OpenRead parent name); mret true).

Definition _private_directory (d : dir) : pl dir :=
  _ ← io;
  _ ← io;
  own ← ask (fun h => h_private h d);
  _ ← pguard (negb own)
        (KnowledgeCapabilityError "placement recovery directory must be private and owner-controlled");
  _ ← io;
  mret d.

Definition _canonical_leaf (parent : inode) (name : string) : pl unit :=
  listing ← ask (fun h => h_listdir h parent);
  if existsb (String.eqb name) listing then mret tt else
  found ← stat_exists (PublicDir parent) name;
  pguard found (KnowledgeCapabilityError "placement cannot address a filesystem name through an alias").
Fixpoint _canonical_directory (current : inode) (parts : list string) : pl inode :=
  match parts with
  | [] => mret current
  | part :: parts =>
      listing ← ask (fun h => h_listdir h current);
      _ ← pguard (negb (existsb (String.eqb part) listing))
            (KnowledgeCapabilityError "placement parent is unavailable or aliased");
      following ← ask (fun h => h_open_directory h current part);
      _canonical_directory following parts
  end.

(** ** Authority *)

Definition _unexpired : pl unit :=
  match ac_expires_at ctx with
  | None => mret tt
  | Some e => now ← ask h_time; pguard (SFleb e now) InvalidDecisionTokenError
  end.

Definition selected_registration (snapshot : RegistrySnapshot) : pl unit :=
  if negb (String.eqb (rg_app_install_id snapshot) (ac_instance_identity ctx)) then praise WritesBlockedError else
  match dict_get (rg_registrations snapshot) (ow_target_binding_id o) with
  | None => praise WritesBlockedError
  | Some selected =>
      path ← ask (fun h => h_resolve h (vg_path selected));
      pguard (negb (String.eqb path (ow_root o))) WritesBlockedError
  end.
Definition _context : pl unit :=
  _ ← pguard (negb (String.eqb (ac_context_id ctx) (ow_context_ref o))
              || negb (String.eqb (pretty (ac_generation ctx)) (ow_vault_generation o))
              || negb (String.eqb (pc_principal_id (ac_principal_context ctx)) (ow_actor o))
              || negb (existsb (String.eqb (ow_target_binding_id o)) (context_binding_ids ctx)))
        WritesBlockedError;
  configured ← ask h_registry_configured;
  _ ← pguard (negb configured) WritesBlockedError;
  _ ← pguard (String.eqb (ow_actor o) "" || String.eqb (ow_context_ref o) ""
              || String.eqb (ow_vault_generation o) "") WritesBlockedError;
  current ← ask h_context_is_current;
  _ ← pguard (negb current) WritesBlockedError;
  canonical ← ask h_root_canonical;
  root ← ask h_root_inode;
  _ ← pguard (negb canonical || bool_decide (root <> ow_root_identity o))
        (KnowledgeWriteConflict "placement root identity changed");
  _ ← pcatch
        (_ ← ask h_source_root_ingress;
         snapshot ← ask h_read_existing;
         selected_registration snapshot)
        (fun e => praise (if bool_decide (e = RegistryError) then WritesBlockedError else e));
  _unexpired.

Definition _binding : placement_binding :=
  mkPlacementBinding (ow_root_identity o) (ow_context_ref o) (ow_vault_generation o) (ow_actor o)
    (ow_target_binding_id o) (context_digest (Some ctx)).
Definition _grant_binding (intent : PlacementIntent) : effect_request :=
  mkEffect ("operation." +:+ in_operation intent) "vault_placement" (ow_actor o) (in_source intent).

(** [write_guard.assert_writes_allowed(action)]; health is evaluated unless the
    action is a bootstrap action. *)
Definition guard_writes (action : string) : pl unit :=
  if existsb (String.eqb action) (ow_bootstrap o) then mret tt else
  s ← ask h_health;
  plift (fst (assert_writes_allowed (ow_bootstrap o) (mret s : ST unit _) action tt)).
Definition _authority (intent : PlacementIntent) : pl unit :=
  _ ← guard_writes ("operation." +:+ in_operation intent);
  current ← ask (fun h => h_authority_is_current h intent);
  pguard (negb current) WritesBlockedError.

Definition require_selected_targets (context : ActiveContextSetV1) (targets : list string) : res unit :=
  if bool_decide (targets = []) || negb (bool_decide (NoDup targets))
     || negb (forallb (fun t => existsb (String.eqb t) (context_binding_ids context)) targets)
  then Raise InvalidDecisionTokenError else Ok tt.

(** [context_bound_write_window]; the roots are those of the read window. *)
Definition context_bound_write_window (token : DecisionToken) (e : effect_request) : pl string :=
  let target := ow_target_binding_id o in
  _ ← _unexpired;
  _ ← plift (require_selected_targets ctx [target]);
  _ ← plift (validate_decision_token (Some token) e);
  _ ← plift (validate_context token ctx target);
  roots ← ask h_read_window;
  _ ← _unexpired;
  binding ← plift (match List.find (fun b => String.eqb (cb_vault_binding_id b) target) (ac_source_bindings ctx) with
                   | Some b => Ok b | None => Raise (OtherException "StopIteration") end);
  registry ← ask h_load_registry;
  is_dir ← ask (fun h => Ok (h_is_dir h));
  authorizer ← plift (build_authorizer is_dir registry);
  let verdict := registry_authorize sha256_hex authorizer
    (mkBindingRequest (ac_principal_context ctx) target (ef_action e) (ef_write_class e) "write") in
  _ ← pguard (negb (allowed verdict) || negb (String.eqb (bv_epoch verdict) (cb_authorization_epoch binding)))
        InvalidDecisionTokenError;
  root ← plift (match dict_get roots target with
                | Some r => Ok r | None => Raise (OtherException "StopIteration") end);
  enclosing ← ask (fun h => h_enclosing_root h (root +:+ "/" +:+ ef_resource e));
  _ ← pguard (negb (String.eqb enclosing root)) InvalidDecisionTokenError;
  runtime ← ask h_has_runtime;
  _ ← pguard (negb runtime) InvalidDecisionTokenError;
  mret root.

Definition _effect_window (intent : PlacementIntent) : pl GovernedWriteGrant :=
  _ ← _authority intent;
  _ ← guard_writes (ef_action (_grant_binding intent));
  decision_uuid ← ask h_uuid;
  token_uuid ← ask h_uuid;
  now ← ask h_now;
  let grant := make_grant (_grant_binding intent) "WriteGuard allowed the bounded durable mutation."
                 "WriteGuard" decision_uuid token_uuid now in
  grant ← plift (bind_context grant ctx (ow_target_binding_id o));
  root ← context_bound_write_window (gg_decision_token grant) (_grant_binding intent);
  _ ← pguard (negb (String.eqb root (ow_root o))) InvalidDecisionTokenError;
  mret grant.

(** The token of the record, with the owner's context in place of the persisted one. *)
Definition _token (record : PlacementRecord) : pl DecisionToken :=
  let raw := gg_decision_token (pr_grant record) in
  _ ← pguard (bool_decide (dk_target_binding_id raw <> Some (ow_target_binding_id o))
              || negb (String.eqb (context_digest (dk_active_context raw)) (context_digest (Some ctx))))
        InvalidDecisionTokenError;
  let token := mkToken (dk_token_id raw) (dk_decision_id raw) (dk_action raw) (dk_write_class raw)
    (dk_actor raw) (dk_resource raw) (dk_issued_at raw) (dk_valid raw) (dk_contract_version raw)
    (Some ctx) (dk_target_binding_id raw) in
  _ ← plift (validate_context token ctx (ow_target_binding_id o));
  _ ← _unexpired;
  mret token.
Definition deadline_check (admission_deadline : option spec_float) : pl unit :=
  match admission_deadline with
  | None => mret tt
  | Some _ => now ← ask h_time; plift (require_authority_deadline admission_deadline now)
  end.

Definition RESERVED_ROOTS : list string :=
  ["settings"; "events"; "event-log"; "_heimdal"; "_conflicts"; "_system"].
Definition _path (value : string) : pl (list string) :=
  let parts := path_parts value in
  _ ← pguard (String.eqb value "" || negb (String.eqb value (strip value)) || startswith "/" value
              || negb (String.eqb (as_posix parts) value)
              || existsb (fun part => String.eqb part "." || String.eqb part ".." || startswith "." part) parts
              || has_char backslash value || has_char ":"%char value || has_char "000"%char value
              || negb (String.eqb (lower (path_suffix (path_name parts))) ".md")
              || existsb (String.eqb (lower (default "" (head parts)))) RESERVED_ROOTS)
        (KnowledgeCapabilityError "placement requires a canonical vault-relative human-note path");
  within ← ask (fun h => h_within_system h value);
  _ ← pguard within
        (KnowledgeCapabilityError "placement cannot borrow system authority through a filesystem alias");
  overlaps ← ask (fun h => h_overlaps_capture h value);
  _ ← pguard overlaps
        (KnowledgeCapabilityError "placement cannot borrow capture-append authority through a filesystem alias");
  enclosing ← ask (fun h => h_enclosing_root h (ow_root o +:+ "/" +:+ value));
  _ ← pguard (negb (String.eqb enclosing (ow_root o)))
        (KnowledgeCapabilityError "placement cannot cross a nested-vault boundary");
  rewritten ← ask (fun h => h_note_is_rewritten h value);
  _ ← pguard (negb rewritten)
        (KnowledgeCapabilityError "placement cannot change a retained or append-only artifact class");
  mret parts.

Definition _identity (source artifact_id raw : string) : pl unit :=
  identity ← ask (fun h => h_identity h source raw);
  _ ← pguard (ni_chat_session identity)
        (KnowledgeCapabilityError "Canvas session placement remains with its existing authority owner");
  pguard (negb (ni_owns_identity identity) || negb (String.eqb (ni_artifact_kind identity) "human_note")
          || negb (String.eqb (ni_artifact_id identity) artifact_id))
    (KnowledgeWriteConflict "placement source identity does not match the bound artifact").

(** ** Records and qualification *)

Definition _absent_generation (parent : inode) (path : string) (name : string) : pl string :=
  found ← stat_exists (PublicDir parent) name;
  _ ← pguard found (KnowledgeWriteConflict "placement destination already exists");
  mret (_digest (PDict [("root", _inode (ow_root_identity o)); ("path", PStr path);
                        ("parent", _inode parent); ("entry", PStr "absent")])).

Definition one_link (fd : inode) : pl unit :=
  n ← sys (LinkCount fd);
  pguard (negb (n =? 1)) (KnowledgeCapabilityError "an unreserved source must have exactly one link").

Definition source_generation (source artifact_id : string) : pl string :=
  _ ← _context;
  path ← _path source;
  root ← ask h_root_inode;
  parent ← _canonical_directory root (path_parent path);
  _ ← _canonical_leaf parent (path_name path);
  fd ← sys (OpenRead (PublicDir parent) (path_name path));
  _ ← one_link fd;
  '(raw, snap) ← _snapshot fd;
  _ ← _identity source artifact_id raw;
  mret (_digest (PDict (snapshot_dict snap))).
Definition destination_generation (destination : string) : pl string :=
  _ ← _context;
  path ← _path destination;
  root ← ask h_root_inode;
  parent ← _canonical_directory root (path_parent path);
  _absent_generation parent (as_posix path) (path_name path).

Definition _live (root : inode) : pl unit :=
  _ ← _context;
  linked ← ask h_state_is_linked;
  _ ← pguard (bool_decide (root <> ow_root_identity o) || negb linked)
        (KnowledgeWriteConflict "placement recovery namespace changed");
  _unexpired.
Definition _locked : pl inode :=
  _ ← _context;
  root ← ask h_root_inode;
  _ ← _private_directory StateDir;
  same ← ask h_state_on_root_device;
  _ ← pguard (negb same) (KnowledgeCapabilityError "placement recovery must share the vault filesystem");
  _ ← io;
  lock ← ask h_lock_is_private_file;
  _ ← pguard (negb lock) (KnowledgeCapabilityError "placement lock is not a private regular file");
  _ ← io;
  _ ← _live root;
  mret root.

(** The checks of [_load] on the contents of a document. *)
Definition intent_complete (i : PlacementIntent) : bool :=
  forallb (fun s => negb (String.eqb s ""))
    [in_request_id i; in_operation i; in_artifact_id i; in_source i; in_destination i;
     in_expected_source_generation i; in_expected_destination_generation i; in_context_ref i;
     in_vault_generation i].
Definition document_ok (r : PlacementRecord) : bool :=
  String.eqb (pr_intent_digest r) (_digest (PDict (intent_dict (pr_intent r))))
  && intent_complete (pr_intent r)
  && String.eqb (in_expected_source_generation (pr_intent r)) (_digest (PDict (snapshot_dict (pr_snapshot r))))
  && (negb (bool_decide (pr_phase r = committed))
      || match pr_receipt r with Some t => negb (String.eqb (pt_receipt_id t) "") | None => false end).
Definition _load (name : string) : pl (option PlacementRecord) :=
  value ← not_found_as None (v ← sys (ReadRecord name); mret (Some v));
  match value with
  | None => mret None
  | Some NotPrivate => praise (KnowledgeWriteConflict "placement evidence is not a private regular record")
  | Some NotJson => praise (ValueError "JSONDecodeError")
  | Some IllShaped =>
      praise (KnowledgeWriteConflict "placement evidence is malformed; reconciliation is required")
  | Some (Doc r) =>
      if document_ok r then mret (Some r)
      else praise (KnowledgeWriteConflict "placement evidence is incomplete; reconciliation is required")
  end.

(** A temporary file is written, synchronized and moved over the record. *)
Definition _store (root : inode) (name : string) (value : PlacementRecord) : pl unit :=
  _ ← _live root;
  _ ← ask h_uuid;
  _ ← io;
  _ ← io;
  _ ← sys (Do (ReplaceRecord name (Doc value)));
  io.

Definition _qualify : pl unit :=
  supported ← ask h_platform_supported;
  _ ← pguard (bool_decide (ow_filesystem o <> Some "local-posix-v1") || negb supported)
        (KnowledgeCapabilityError "placement requires an explicitly qualified local POSIX filesystem");
  uuid ← ask h_uuid;
  let a := ".probe-" +:+ uuid +:+ "a" in
  let b := ".probe-" +:+ uuid +:+ "b" in
  let c := ".probe-" +:+ uuid +:+ "c" in
  pfinally
    (_ ← pforeach [a; b] (fun name => _ ← sys (Do (CreateExcl StateDir name)); io);
     replaced ← pcatch (_ ← sys (Do (RenameNoReplace StateDir a StateDir b)); mret true)
                  (fun e => match e with FileExistsError => mret false | e => praise e end);
     _ ← pguard replaced (KnowledgeCapabilityError "filesystem did not enforce no-replace rename");
     _ ← sys (Do (RenameNoReplace StateDir a StateDir c));
     _ ← sys (Do (Link StateDir c StateDir a));
     io)
    (_ ← pforeach [a; b; c] (fun name => not_found_as tt (sys (Do (Unlink StateDir name))));
     io).

Definition _parents (root : inode) (source destination : list string) : pl (inode * inode) :=
  src ← _canonical_directory root (path_parent source);
  dst ← _canonical_directory root (path_parent destination);
  _ ← _canonical_leaf src (path_name source);
  _ ← pguard (negb ((fst src =? fst dst) && (fst dst =? fst root)))
        (KnowledgeCapabilityError "placement cannot cross filesystem mounts");
  mret (src, dst).

Definition _seam (root : inode) (src dst : inode) (record : PlacementRecord) (intent : PlacementIntent)
    (admission_deadline : option spec_float) : pl unit :=
  _ ← _live root;
  _ ← _path (in_source intent);
  _ ← _path (in_destination intent);
  identities ← _parents root (path_parts (in_source intent)) (path_parts (in_destination intent));
  _ ← pguard (bool_decide (identities <> pr_parents record) || bool_decide (identities <> (src, dst)))
        (KnowledgeWriteConflict "placement parent generation changed");
  _ ← _authority intent;
  token ← _token record;
  _ ← plift (validate_decision_token (Some token) (_grant_binding intent));
  _ ← _unexpired;
  deadline_check admission_deadline.

(** ** The transaction *)

Section Advance.
Context (root src dst : inode) (hex : string) (intent : PlacementIntent) (deadline : option spec_float).
Let name := hex +:+ ".json".
Let sname := path_name (path_parts (in_source intent)).
Let dname := path_name (path_parts (in_destination intent)).
Let txn := TxnDir hex.

(** [record], which the caller holds. *)
Definition the_record : pl PlacementRecord :=
  r ← pget;
  match r with Some r => mret r | None => praise (TypeError "'NoneType' object is not subscriptable") end.
Definition seam : pl unit := r ← the_record; _seam root src dst r intent deadline.
Definition require (expected : snapshot) (parent : dir) (leaf : string) : pl unit :=
  e ← _entry parent leaf;
  pguard (bool_decide (e <> Some expected))
    (KnowledgeWriteConflict "placement inode or generation changed; retained evidence requires reconciliation").
Definition save (r : PlacementRecord) : pl unit := _ ← pset (Some r); _store root name r.
Definition advance (phase : Phase) : pl unit := r ← the_record; save (with_phase phase r).
(** [if record["phase"] == phase: body]. *)
Definition in_phase (phase : Phase) (body : pl unit) : pl unit :=
  r ← the_record;
  if bool_decide (pr_phase r = phase) then body else mret tt.

Definition do_reserved (expected : snapshot) : pl unit :=
  _ ← require expected (PublicDir src) sname;
  g ← _absent_generation dst (as_posix (path_parts (in_destination intent))) dname;
  _ ← pguard (negb (String.eqb g (in_expected_destination_generation intent)))
        (KnowledgeWriteConflict "placement destination generation changed");
  original ← _entry txn "original";
  _ ← match original with
      | None => _ ← seam; sys (Do (Link (PublicDir src) sname txn "original"))
      | Some _ => mret tt
      end;
  _ ← require expected txn "original";
  _ ← require expected (PublicDir src) sname;
  _ ← sys (OpenRead txn "original");
  _ ← io;
  _ ← io;
  advance prepared.
Definition do_prepared : pl unit := _ ← seam; advance publishing.
Definition do_publishing (expected : snapshot) : pl unit :=
  _ ← require expected txn "original";
  _ ← require expected (PublicDir src) sname;
  _ ← seam;
  _ ← pcatch (sys (Do (Link txn "original" (PublicDir dst) dname)))
        (fun e => match e with
                  | FileExistsError => require expected (PublicDir dst) dname
                  | e => praise e
                  end);
  _ ← io;
  _ ← require expected (PublicDir src) sname;
  _ ← require expected (PublicDir dst) dname;
  _ ← seam;
  advance activated.
Definition do_activated (expected : snapshot) : pl unit :=
  _ ← require expected (PublicDir dst) dname;
  _ ← require expected (PublicDir src) sname;
  advance retiring.

(** A replacement that won the source name goes back, unless the name is taken again. *)
Definition restore_replacement : pl unit :=
  pcatch
    (_ ← seam;
     _ ← sys (Do (RenameNoReplace txn "retired" (PublicDir src) sname));
     _ ← io;
     io)
    (fun e => match e with FileExistsError => mret tt | e => praise e end).
(** The receipt of a placement whose source name is retired. *)
Definition placement_receipt_of (expected : snapshot) : pl placement_receipt :=
  r ← the_record;
  _ ← seam;
  vault ← (if String.eqb (strip (ow_target_binding_id o)) "" then ask h_vault_name
           else mret (strip (ow_target_binding_id o)));
  let mutation := mkWriteReceipt (in_operation intent) vault (normalize_resource_ref (in_destination intent))
    "knowledge.placement" (Some (in_request_id intent)) false (Some (ow_actor o)) "written" in
  token ← _token r;
  uuid ← ask h_uuid;
  now ← ask h_now;
  authority ← plift (record_authority_receipt (Some token)
    (Some (mkMutation (wr_operation mutation) (wr_path mutation) (wr_adapter mutation) (wr_trace_id mutation)
             (wr_fallback_used mutation)))
    "knowledge" "applied" (Some (in_request_id intent)) (Some (in_source intent)) (Some (in_request_id intent))
    uuid now);
  mret (mkPlacementReceipt (ar_receipt_id authority) (in_artifact_id intent) (in_source intent)
          (in_destination intent) (in_expected_source_generation intent)
          (_digest (PDict (snapshot_dict expected))) mutation (pr_grant r) authority
          ["locator"; "store"; "index"; "link"]).
Definition do_retiring (expected : snapshot) : pl unit :=
  _ ← require expected (PublicDir dst) dname;
  retired ← _entry txn "retired";
  _ ← match retired with
      | None =>
          _ ← require expected (PublicDir src) sname;
          _ ← seam;
          sys (Do (RenameNoReplace (PublicDir src) sname txn "retired"))
      | Some _ => mret tt
      end;
  _ ← io;
  _ ← io;
  retired ← _entry txn "retired";
  _ ← (if bool_decide (retired <> Some expected) then
         _ ← restore_replacement;
         praise (KnowledgeWriteConflict "source replacement was retained or restored; placement is ambiguous")
       else mret tt);
  again ← _entry (PublicDir src) sname;
  _ ← pguard (bool_decide (is_Some again))
        (KnowledgeWriteConflict "source name was reused; do not remove the new artifact");
  _ ← require expected (PublicDir dst) dname;
  receipt ← placement_receipt_of expected;
  r ← the_record;
  _ ← pset (Some (with_receipt receipt r));
  advance committed.

Definition cleanup_leaf (expected : snapshot) (leaf : string) : pl unit :=
  retained ← _entry txn leaf;
  match retained with
  | None => mret tt
  | Some retained =>
      _ ← pguard (bool_decide (sp_inode retained <> sp_inode expected))
            (KnowledgeWriteConflict "private recovery entry changed; preserve it");
      _ ← seam;
      sys (Do (Unlink txn leaf))
  end.
Definition do_cleanup (expected : snapshot) : pl unit :=
  current ← _entry (PublicDir dst) dname;
  _ ← pguard (match current with
              | None => true
              | Some current => bool_decide (sp_inode current <> sp_inode expected)
              end)
        (KnowledgeWriteConflict "destination changed before recovery-link cleanup");
  _ ← pforeach ["original"; "retired"] (cleanup_leaf expected);
  _ ← io;
  r ← the_record;
  save (with_cleanup r).

Definition _advance : pl unit :=
  r ← the_record;
  let expected := pr_snapshot r in
  _ ← seam;
  _ ← in_phase reserved (do_reserved expected);
  _ ← in_phase prepared do_prepared;
  _ ← in_phase publishing (do_publishing expected);
  _ ← in_phase activated (do_activated expected);
  _ ← in_phase retiring (do_retiring expected);
  r ← the_record;
  if bool_decide (pr_phase r = committed) && negb (pr_cleanup_complete r)
  then do_cleanup expected else mret tt.
End Advance.

Definition _result (record : PlacementRecord) : PlacementResult :=
  if bool_decide (pr_phase record = committed) && bool_decide (is_Some (pr_receipt record))
     && pr_cleanup_complete record
  then mkPlacementResult "convergence_pending" (Some record)
         (Some "source placement is receipted; rebuild locator/Store/index/link from the verified destination")
  else mkPlacementResult "recovery_required" (Some record)
         (Some "reconcile this durable placement intent before another source effect").

(** Whether another request holds the artifact or one of the two paths. *)
Fixpoint outstanding (intent : PlacementIntent) (names : list string) : pl bool :=
  match names with
  | [] => mret false
  | other_name :: names =>
      if negb (endswith ".json" other_name) then outstanding intent names else
      other ← _load other_name;
      match other with
      | Some other =>
          if bool_decide (pr_phase other = committed) then outstanding intent names else
          let prior := pr_intent other in
          hit ← (if String.eqb (in_artifact_id prior) (in_artifact_id intent) then mret true else
                 a ← ask (fun h => h_paths_overlap h (in_source prior) (in_source intent));
                 if a : bool then mret true else
                 b ← ask (fun h => h_paths_overlap h (in_source prior) (in_destination intent));
                 if b : bool then mret true else
                 c ← ask (fun h => h_paths_overlap h (in_destination prior) (in_source intent));
                 if c : bool then mret true else
                 ask (fun h => h_paths_overlap h (in_destination prior) (in_destination intent)));
          if hit : bool then mret true else outstanding intent names
      | None => outstanding intent names
      end
  end.

(** The preflight of a new request; [inl] is a result returned early. *)
Definition preflight (root : inode) (grant : GovernedWriteGrant) (intent : PlacementIntent)
    (source destination : list string) : pl (PlacementResult + PlacementRecord) :=
  names ← sys ListRecords;
  busy ← outstanding intent names;
  if busy : bool
  then mret (inl (refusal "conflicted" "placement artifact or destination has an outstanding reservation")) else
  _ ← _qualify;
  '(src, dst) ← _parents root source destination;
  snap ← _entry (PublicDir src) (path_name source);
  match snap with
  | None => mret (inl (refusal "not_found" "placement source is unavailable"))
  | Some snap =>
      if negb (String.eqb (_digest (PDict (snapshot_dict snap))) (in_expected_source_generation intent))
      then mret (inl (refusal "conflicted" "expected source generation is stale")) else
      g ← _absent_generation dst (as_posix destination) (path_name destination);
      if negb (String.eqb g (in_expected_destination_generation intent))
      then mret (inl (refusal "conflicted" "expected destination generation is stale")) else
      fd ← sys (OpenRead (PublicDir src) (path_name source));
      _ ← one_link fd;
      '(raw, checked) ← _snapshot fd;
      _ ← pguard (bool_decide (checked <> snap))
            (KnowledgeWriteConflict "source changed during placement preflight");
      _ ← _identity (in_source intent) (in_artifact_id intent) raw;
      mret (inr (mkRecord intent (_digest (PDict (intent_dict intent))) (Some _binding) reserved snap (src, dst)
                   grant None false))
  end.

(** From the second qualification to the result. *)
Definition transact (root : inode) (hex : string) (intent : PlacementIntent) (source destination : list string)
    (deadline : option spec_float) : pl PlacementResult :=
  _ ← _qualify;
  '(src, dst) ← _parents root source destination;
  _ ← _private_directory (TxnDir hex);
  _ ← _advance root src dst hex intent deadline;
  r ← the_record;
  mret (_result r).

(** The body of the effect window: the lock is held. *)
Definition locked_section (root : inode) (grant : GovernedWriteGrant) (intent : PlacementIntent)
    (source destination : list string) (recover : bool) (deadline : option spec_float) : pl PlacementResult :=
  let hex := sha256_hex (in_request_id intent) in
  let name := hex +:+ ".json" in
  _ ← _authority intent;
  loaded ← _load name;
  match loaded with
  | Some record =>
      _ ← pset (Some record);
      if negb (String.eqb (pr_intent_digest record) (_digest (PDict (intent_dict intent))))
         || bool_decide (pr_binding record <> Some _binding)
      then mret (refusal "conflicted" "placement request is already bound to another intent or authority")
      else if negb recover then mret (_result record) else
      _ ← deadline_check deadline;
      transact root hex intent source destination deadline
  | None =>
      if recover then mret (refusal "not_found" "placement has no durable recovery intent") else
      _ ← deadline_check deadline;
      fresh ← preflight root grant intent source destination;
      match fresh with
      | inl early => mret early
      | inr record =>
          _ ← pset (Some record);
          _ ← _store root name record;
          transact root hex intent source destination deadline
      end
  end.

Definition place_body (intent : PlacementIntent) (recover : bool) (deadline : option spec_float)
  : pl PlacementResult :=
  _ ← _context;
  if negb (String.eqb (in_operation intent) "artifact.move" || String.eqb (in_operation intent) "artifact.rename")
     || String.eqb (in_request_id intent) "" || String.eqb (in_artifact_id intent) ""
  then mret (refusal "invalid" "placement operation, request and identity are required") else
  if negb (String.eqb (in_context_ref intent) (ow_context_ref o)
           && String.eqb (in_vault_generation intent) (ow_vault_generation o))
  then mret (refusal "rejected" "placement context differs from the selected vault") else
  source ← _path (in_source intent);
  destination ← _path (in_destination intent);
  if bool_decide (source = destination)
  then mret (refusal "invalid" "placement requires a different destination") else
  if String.eqb (in_operation intent) "artifact.rename"
     && bool_decide (path_parent source <> path_parent destination)
  then mret (refusal "invalid" "rename must preserve its parent directory") else
  grant ← _effect_window intent;
  root ← _locked;
  locked_section root grant intent source destination recover deadline.

(** The text of an exception; of a class without modelled message, its name. *)
Definition exn_text (e : exn) : string :=
  match e with
  | KnowledgeCapabilityError m | KnowledgeWriteConflict m | OtherException m => m
  | _ => ""
  end.
Definition REJECTING : list exn :=
  [WritesBlockedError; InvalidDecisionTokenError; ContextBoundReadError;
   RegistryError; ActiveContextError; DegradedContextError].
Definition place_failure (e : exn) (record : option PlacementRecord) : PlacementResult :=
  let held status := if bool_decide (is_Some record) then "recovery_required" else status in
  if bool_decide (e ∈ REJECTING) then mkPlacementResult (held "rejected") record (Some (exn_text e)) else
  match e with
  | KnowledgeCapabilityError m => mkPlacementResult (held "not_supported") record (Some m)
  | KnowledgeWriteConflict m => mkPlacementResult (held "conflicted") record (Some m)
  | _ => mkPlacementResult "recovery_required" record
           (Some "placement outcome requires durable evidence reconciliation")
  end.
Definition place_artifact (intent : PlacementIntent) (recover : bool) (admission_deadline : option spec_float)
  : prog (H:=host) (R:=evidence) PlacementResult :=
  prog_bind (place_body intent recover admission_deadline None) (fun '(r, record) =>
    Done (match r with Ok result => result | Raise e => place_failure e record end)).
End Owner.
