(* ===== verification/PlacementProps.v ===== *)
(** * Properties of placements

    What holds when attempts to place notes run, fail and are abandoned at any
    call while other processes change the public files. *)
From Stdlib Require Import SpecFloat Ascii.
From S2P Require Import Prelude PyValue PyTime Sql ActiveContext ContextSelection Health HealthContract GovernedWrite Procs Placement.
Open Scope Z_scope.

(** ** Reading parts *)

Ltac solve_preads :=
  repeat first
    [ progress intros
    | progress auto 2 with preads
    | apply preads_bind
    | apply preads_catch
    | apply preads_sys; exact I
    | match goal with |- preads (match ?x with _ => _ end) => destruct x end
    | match goal with |- preads (let '(_, _) := ?x in _) => destruct x end ].

Section Reads.
Context (sha256_hex : string -> string) (float_json : spec_float -> pyval) (o : KnowledgePlacementOwner).

Lemma preads_io : preads (H:=host) (R:=evidence) (M:=option PlacementRecord) io.
Proof. apply preads_ask. Qed.
Lemma preads_not_found_as {A} (a : A) p : preads p -> preads (not_found_as a p).
Proof. intros Hp. unfold not_found_as. solve_preads. Qed.
#[local] Hint Resolve preads_io preads_not_found_as : preads.
Lemma preads_snapshot i : preads (_snapshot sha256_hex i).
Proof. unfold _snapshot. solve_preads. Qed.
#[local] Hint Resolve preads_snapshot : preads.
Lemma preads_entry d n : preads (_entry sha256_hex d n).
Proof. unfold _entry. solve_preads; apply preads_not_found_as; solve_preads. Qed.
Lemma preads_stat d n : preads (stat_exists d n).
Proof. apply preads_not_found_as. solve_preads. Qed.
#[local] Hint Resolve preads_entry preads_stat : preads.
Lemma preads_private d : preads (_private_directory d).
Proof. unfold _private_directory. solve_preads. Qed.
Lemma preads_leaf p n : preads (_canonical_leaf p n).
Proof. unfold _canonical_leaf. solve_preads. Qed.
Lemma preads_directory parts : forall cur, preads (_canonical_directory cur parts).
Proof. induction parts; cbn; solve_preads. Qed.
#[local] Hint Resolve preads_private preads_leaf preads_directory : preads.
Lemma preads_unexpired : preads (_unexpired o).
Proof. unfold _unexpired. solve_preads. Qed.
#[local] Hint Resolve preads_unexpired : preads.
Lemma preads_registration s : preads (selected_registration o s).
Proof. unfold selected_registration. solve_preads. Qed.
#[local] Hint Resolve preads_registration : preads.
Lemma preads_context : preads (_context o).
Proof. unfold _context. solve_preads. Qed.
#[local] Hint Resolve preads_context : preads.
Lemma preads_guard_writes a : preads (guard_writes o a).
Proof. unfold guard_writes. solve_preads. Qed.
#[local] Hint Resolve preads_guard_writes : preads.
Lemma preads_authority i : preads (_authority o i).
Proof. unfold _authority. solve_preads. Qed.
#[local] Hint Resolve preads_authority : preads.
Lemma preads_write_window t e : preads (context_bound_write_window sha256_hex o t e).
Proof. unfold context_bound_write_window. solve_preads. Qed.
#[local] Hint Resolve preads_write_window : preads.
Lemma preads_effect_window i : preads (_effect_window sha256_hex o i).
Proof. unfold _effect_window. solve_preads. Qed.
Lemma preads_token r : preads (_token sha256_hex float_json o r).
Proof. unfold _token. solve_preads. Qed.
Lemma preads_deadline d : preads (deadline_check d).
Proof. unfold deadline_check. solve_preads. Qed.
Lemma preads_path v : preads (_path o v).
Proof. unfold _path. solve_preads. Qed.
Lemma preads_identity s a raw : preads (_identity s a raw).
Proof. unfold _identity. solve_preads. Qed.
Lemma preads_live r : preads (_live o r).
Proof. unfold _live. solve_preads. Qed.
#[local] Hint Resolve preads_effect_window preads_token preads_deadline preads_path preads_identity preads_live : preads.
Lemma preads_absent p path n : preads (_absent_generation sha256_hex o p path n).
Proof. unfold _absent_generation. solve_preads. Qed.
Lemma preads_locked : preads (_locked o).
Proof. unfold _locked. solve_preads. Qed.
Lemma preads_load n : preads (_load sha256_hex n).
Proof. unfold _load. solve_preads; apply preads_not_found_as; solve_preads. Qed.
Lemma preads_parents r s d : preads (_parents r s d).
Proof. unfold _parents. solve_preads. Qed.
#[local] Hint Resolve preads_absent preads_locked preads_load preads_parents : preads.
Lemma preads_seam root src dst r i d : preads (_seam sha256_hex float_json o root src dst r i d).
Proof. unfold _seam. solve_preads. Qed.
Lemma preads_the_record : preads the_record.
Proof. unfold the_record. solve_preads. Qed.
#[local] Hint Resolve preads_seam preads_the_record : preads.
Lemma preads_seam' root src dst i d : preads (seam sha256_hex float_json o root src dst i d).
Proof. unfold seam. solve_preads. Qed.
Lemma preads_require s d n : preads (require sha256_hex s d n).
Proof. unfold require. solve_preads. Qed.
#[local] Hint Resolve preads_seam' preads_require : preads.
Lemma preads_receipt root src dst i d s : preads (placement_receipt_of sha256_hex float_json o root src dst i d s).
Proof. unfold placement_receipt_of. solve_preads. Qed.
Lemma preads_outstanding i names : preads (outstanding sha256_hex i names).
Proof. induction names; cbn; solve_preads. Qed.
End Reads.
#[export] Hint Resolve preads_io preads_not_found_as preads_snapshot preads_entry preads_stat preads_private
  preads_leaf preads_directory preads_unexpired preads_registration preads_context preads_guard_writes
  preads_authority preads_write_window preads_effect_window preads_token preads_deadline preads_path
  preads_identity preads_live preads_absent preads_locked preads_load preads_parents preads_seam
  preads_the_record preads_seam' preads_require preads_receipt preads_outstanding : preads.

(** ** What is kept *)

Definition record_name (hex : string) : string := hex +:+ ".json".
Lemma endswith_app p s : endswith p (s +:+ p) = true.
Proof. unfold endswith. rewrite str_rev_app. apply startswith_app. Qed.
Lemma str_rev_inj a b : str_rev "" a = str_rev "" b -> a = b.
Proof. intros E. by rewrite <- (str_rev_involutive a), E, str_rev_involutive. Qed.
#[export] Instance record_name_inj : Inj (=) (=) record_name.
Proof.
  intros a b E. apply (f_equal (str_rev "")) in E. unfold record_name in E. rewrite !str_rev_app in E.
  by apply append_inj, str_rev_inj in E.
Qed.

(** Other processes may do anything to public names and files; the private
    directories and their records are the service's own. *)
Definition others (w w' : pl_world) : Prop :=
  (forall d n, private d -> fs_names w' !! (d, n) = fs_names w !! (d, n))
  /\ fs_records w' = fs_records w /\ fs_log w' = fs_log w.

(** The phases in which the private link must hold the note, and those before
    the destination may be named. *)
Definition holding (p : Phase) : bool :=
  match p with prepared | publishing | activated | retiring => true | _ => false end.
Definition unpublished (p : Phase) : bool := match p with reserved | prepared => true | _ => false end.

Definition record_of (w : pl_world) (hex : string) (r : PlacementRecord) : Prop :=
  fs_records w !! record_name hex = Some (Doc r).
(** The effect that gives the note its new name. *)
Definition publishes (hex : string) (e : effect (R:=evidence)) : Prop :=
  exists d n, e = Link (TxnDir hex) "original" (PublicDir d) n.

Record pl_inv (w : pl_world) : Prop := mkInv {
  inv_original : forall hex r, record_of w hex r -> holding (pr_phase r) = true ->
    fs_names w !! (TxnDir hex, "original") = Some (sp_inode (pr_snapshot r));
  inv_published : forall hex e, e ∈ fs_log w -> publishes hex e ->
    exists r, record_of w hex r /\ unpublished (pr_phase r) = false;
  inv_exclusive : forall n1 n2 r1 r2, endswith ".json" n1 = true -> endswith ".json" n2 = true ->
    fs_records w !! n1 = Some (Doc r1) -> fs_records w !! n2 = Some (Doc r2) ->
    pr_phase r1 <> committed -> pr_phase r2 <> committed ->
    in_artifact_id (pr_intent r1) = in_artifact_id (pr_intent r2) -> n1 = n2 }.

(** What a call of the service may do to names outside [StateDir], the
    service's own state directory (its records, which are replaced, its lock
    and the probe files of [_qualify], which are created and unlinked): none is
    given another inode, and an inode named there keeps a name there, unless
    it is the note of a committed placement and the name is its private link. *)
Definition spares (w w' : pl_world) : Prop :=
  (forall d n i, d <> StateDir -> fs_names w !! (d, n) = Some i ->
     fs_names w' !! (d, n) = Some i \/ fs_names w' !! (d, n) = None)
  /\ (forall d n i, d <> StateDir -> fs_names w !! (d, n) = Some i ->
     (exists d' n', d' <> StateDir /\ fs_names w' !! (d', n') = Some i)
     \/ exists hex r, d = TxnDir hex /\ record_of w hex r /\ pr_phase r = committed
                      /\ i = sp_inode (pr_snapshot r)).
Definition guarantee (w w' : pl_world) : Prop := spares w w' /\ (pl_inv w -> pl_inv w').

Lemma guarantee_refl w : guarantee w w.
Proof. split; [split; [by left|]|done]. intros d n i Hd Hn. left. eauto. Qed.
Lemma others_refl w : others w w.
Proof. done. Qed.
Lemma others_trans w1 w2 w3 : others w1 w2 -> others w2 w3 -> others w1 w3.
Proof. intros (H1 & H2 & H3) (H4 & H5 & H6). split_and!; [|congruence..]. intros d n Hd. rewrite H4; auto. Qed.
Lemma others_record hex r w w' : others w w' -> record_of w hex r -> record_of w' hex r.
Proof. unfold record_of. by intros (_ & -> & _). Qed.
Lemma others_inv w w' : others w w' -> pl_inv w -> pl_inv w'.
Proof.
  intros (Hn & Hr & Hl) [Ho Hp He]. split; unfold record_of in *; rewrite Hr, ?Hl; [|done..].
  intros hex r. rewrite Hn by done. apply Ho.
Qed.

(** Effects on names preserve the invariant when the links of running
    placements stay and a destination is named only past [publishing]. *)
Lemma names_inv w w' e :
  fs_records w' = fs_records w -> fs_log w' = fs_log w ++ [e] ->
  (forall hex r i, record_of w hex r -> holding (pr_phase r) = true ->
     fs_names w !! (TxnDir hex, "original") = Some i -> fs_names w' !! (TxnDir hex, "original") = Some i) ->
  (forall hex, publishes hex e -> exists r, record_of w hex r /\ unpublished (pr_phase r) = false) ->
  pl_inv w -> pl_inv w'.
Proof.
  intros Hr Hl Hkeep Hpub [Ho Hp He]. split; unfold record_of in *; rewrite Hr, ?Hl.
  - intros hex r Hx Hh. eapply Hkeep; eauto.
  - intros hex e' [Hin| ->%list_elem_of_singleton]%elem_of_app; eauto.
  - done.
Qed.

Definition scratch (e : effect (R:=evidence)) : Prop :=
  match e with
  | CreateExcl d _ | Unlink d _ => d = StateDir
  | Link d _ d' _ | RenameNoReplace d _ d' _ => d = StateDir /\ d' = StateDir
  | ReplaceRecord _ _ => False
  end.

(** The effects the service issues. *)
Lemma state_effect e w w' :
  scratch e -> apply_effect e w = Ok w' -> guarantee w w'.
Proof.
  intros He Ha.
  assert (Hsame : (forall d n, d <> StateDir -> fs_names w' !! (d, n) = fs_names w !! (d, n))
    /\ (forall d n i, fs_names w !! (d, n) = Some i ->
          fs_names w' !! (d, n) = Some i \/ fs_names w' !! (d, n) = None)
    /\ fs_records w' = fs_records w /\ fs_log w' = fs_log w ++ [e]).
  { destruct e as [d n|d n d' n'|d n d' n'|d n|]; [| | | |done]; cbn [apply_effect] in Ha;
      [|destruct He as [He He']..|];
      repeat case_match; simplify_eq; bool_prop; cbn [fs_names fs_records fs_log];
      (split_and!; [|intros d0 n0 i0 Hi|done..]);
      try (intros d0 n0 Hne; rewrite ?lookup_insert_ne, ?lookup_delete_ne by congruence; done);
      repeat match goal with Hx : ~ is_Some _ |- _ => apply eq_None_not_Some in Hx end;
      rewrite ?lookup_insert, ?lookup_delete; repeat case_decide; simplify_eq; auto. }
  destruct Hsame as (Hn & Hb & Hr & Hl). split; [split; [eauto|]|].
  - intros d n i Hd Hi. left. exists d, n. rewrite Hn by done. auto.
  - eapply names_inv; [done..| |].
    + intros hex r i _ _. rewrite Hn by done. done.
    + intros hex (d & n & ->). by destruct He.
Qed.
Lemma link_effect d n d' n' w w' :
  private d \/ private d' -> (forall hex, publishes hex (Link d n d' n') ->
    exists r, record_of w hex r /\ unpublished (pr_phase r) = false) ->
  apply_effect (Link d n d' n') w = Ok w' -> guarantee w w'.
Proof.
  intros _ Hpub Ha. cbn in Ha. repeat case_match; simplify_eq. bool_prop.
  match goal with Hx : ~ is_Some _ |- _ => apply eq_None_not_Some in Hx as Hnew end.
  assert (Hk : forall d0 n0 i0, fs_names w !! (d0, n0) = Some i0 ->
    <[(d', n'):=i]> (fs_names w) !! (d0, n0) = Some i0).
  { intros d0 n0 i0 Hi. rewrite lookup_insert_ne; [done|]. intros [= <- <-]. congruence. }
  split; [split|]; cbn [fs_names].
  - eauto.
  - intros d0 n0 i0 Hd Hi. left. exists d0, n0. auto.
  - eapply names_inv; [done..| |done]. cbn. eauto.
Qed.
Lemma rename_effect d n d' n' w w' :
  d <> StateDir -> d' <> StateDir -> (forall hex, (d, n) <> (TxnDir hex, "original")) ->
  apply_effect (RenameNoReplace d n d' n') w = Ok w' -> guarantee w w'.
Proof.
  intros Hd Hd' Hno Ha. cbn in Ha. repeat case_match; simplify_eq. bool_prop.
  match goal with Hx : ~ is_Some _ |- _ => apply eq_None_not_Some in Hx as Hnew end.
  assert (Hk : forall d0 n0 i0, (d, n) <> (d0, n0) -> fs_names w !! (d0, n0) = Some i0 ->
    <[(d', n'):=i]> (delete (d, n) (fs_names w)) !! (d0, n0) = Some i0).
  { intros d0 n0 i0 Hne Hi. rewrite lookup_insert_ne; [by rewrite lookup_delete_ne|].
    intros [= <- <-]. congruence. }
  split; [split|]; cbn [fs_names].
  - intros d0 n0 i0 _ Hi. destruct (decide ((d, n) = (d0, n0))) as [[= <- <-]|Hne]; [|auto].
    right. rewrite lookup_insert_ne, lookup_delete_eq; [done|]. intros [= -> ->]. congruence.
  - intros d0 n0 i0 Hd0 Hi. left. destruct (decide ((d, n) = (d0, n0))) as [[= <- <-]|Hne]; [|eauto].
    exists d', n'. split; [done|]. rewrite lookup_insert_eq. congruence.
  - eapply names_inv; [done..| |]; cbn; [|by intros ? (? & ? & ?)].
    intros hex r i0 _ _ Hi. apply Hk; [apply Hno|done].
Qed.
Lemma unlink_effect hex n r w w' :
  record_of w hex r -> pr_phase r = committed ->
  (forall i, fs_names w !! (TxnDir hex, n) = Some i -> i = sp_inode (pr_snapshot r)) ->
  apply_effect (Unlink (TxnDir hex) n) w = Ok w' -> guarantee w w'.
Proof.
  intros Hr Hc Hi Ha. cbn in Ha. repeat case_match; simplify_eq.
  split; [split|]; cbn [fs_names].
  - intros d0 n0 i0 _ H0. rewrite lookup_delete. case_decide; auto.
  - intros d0 n0 i0 Hd H0. destruct (decide ((TxnDir hex, n) = (d0, n0))) as [[= <- <-]|Hne].
    + right. exists hex, r. split_and!; [done..|]. apply Hi. congruence.
    + left. exists d0, n0. by rewrite lookup_delete_ne.
  - eapply names_inv; [done..| |]; cbn; [|by intros ? (? & ? & ?)].
    intros hex' r' i0 Hr' Hh H0. rewrite lookup_delete_ne; [done|]. intros [= <-].
    unfold record_of in *. rewrite Hr in Hr'. simplify_eq. by rewrite Hc in Hh.
Qed.
(** Writing a record whose phase the private link and the history allow. *)
Lemma record_effect hex r w w' :
  (holding (pr_phase r) = true -> fs_names w !! (TxnDir hex, "original") = Some (sp_inode (pr_snapshot r))) ->
  (unpublished (pr_phase r) = true -> forall e, e ∈ fs_log w -> ~ publishes hex e) ->
  (pr_phase r <> committed -> forall n r', endswith ".json" n = true -> fs_records w !! n = Some (Doc r') ->
     pr_phase r' <> committed -> in_artifact_id (pr_intent r') = in_artifact_id (pr_intent r) ->
     n = record_name hex) ->
  apply_effect (ReplaceRecord (record_name hex) (Doc r)) w = Ok w' -> guarantee w w'.
Proof.
  intros Hh Hu Hx Ha. cbn in Ha. simplify_eq. split.
  { split; cbn; [by left|]. intros d n i Hd Hn. left. eauto. }
  intros [Ho Hp He]. unfold record_of in *. split; cbn [fs_names fs_records fs_log]; unfold record_of; cbn.
  - intros hex' r'. rewrite lookup_insert. case_decide as Hd; [|apply Ho].
    apply (inj record_name) in Hd as <-. intros [= <-]. auto.
  - intros hex' e [Hin| ->%list_elem_of_singleton]%elem_of_app Hpub; [|by destruct Hpub as (? & ? & ?)].
    rewrite lookup_insert. case_decide as Hd; [|eauto]. apply (inj record_name) in Hd as <-.
    exists r. split; [done|]. destruct (unpublished (pr_phase r)) eqn:E; [|done]. by destruct (Hu eq_refl e Hin).
  - intros n1 n2 r1 r2 He1 He2. rewrite !lookup_insert. repeat case_decide; subst; try done.
    + intros [= <-] Hr2 Hc1 Hc2 Ha. symmetry. eapply Hx; eauto.
    + intros Hr1 [= <-] Hc1 Hc2 Ha. eapply Hx; eauto.
    + eauto.
Qed.

(** ** The transaction under interference *)

Definition quiet_log (hex : string) (w : pl_world) : Prop := forall e, e ∈ fs_log w -> ~ publishes hex e.
Definition at_record (hex : string) (r : PlacementRecord) (w : pl_world) : Prop := pl_inv w /\ record_of w hex r.
Definition linked (hex leaf : string) (i : inode) (w : pl_world) : Prop :=
  fs_names w !! (TxnDir hex, leaf) = Some i.
(** The phase in memory claims no more than happened. *)
Definition honest (hex : string) (m : option PlacementRecord) (w : pl_world) : Prop :=
  forall r, m = Some r -> unpublished (pr_phase r) = true -> quiet_log hex w.

Abbreviation ppwp := (pwp (H:=host) others guarantee).

Lemma stable_at hex r : stable others (at_record hex r).
Proof. intros w w' Ho [Hi Hr]. split; [by eapply others_inv|by eapply others_record]. Qed.
Lemma stable_linked hex leaf i : stable others (linked hex leaf i).
Proof. unfold linked. intros w w' (Hn & _ & _). by rewrite Hn. Qed.
Lemma stable_quiet hex : stable others (quiet_log hex).
Proof. unfold quiet_log. intros w w' (_ & _ & Hl). by rewrite Hl. Qed.
Lemma stable_and (P P' : pl_world -> Prop) : stable others P -> stable others P' -> stable others (fun w => P w /\ P' w).
Proof. intros H1 H2 w w' Ho []. split; eauto. Qed.
Lemma stable_inv : stable others pl_inv.
Proof. intros w w'. apply others_inv. Qed.
Lemma stable_const (P : Prop) : stable others (fun _ => P).
Proof. by intros w w'. Qed.
#[local] Hint Resolve stable_at stable_linked stable_quiet stable_and stable_inv stable_const guarantee_refl : core.

Lemma at_quiet hex r w : at_record hex r w -> unpublished (pr_phase r) = true -> quiet_log hex w.
Proof.
  intros [Hi Hr] Hu e Hin Hp. destruct (inv_published _ Hi hex e Hin Hp) as (r' & Hr' & Hu').
  unfold record_of in *. rewrite Hr in Hr'. simplify_eq. congruence.
Qed.
Lemma at_honest hex r w : at_record hex r w -> honest hex (Some r) w.
Proof. intros Ha r' [= <-]. by apply at_quiet. Qed.
Lemma at_linked hex r w : at_record hex r w -> holding (pr_phase r) = true ->
  linked hex "original" (sp_inode (pr_snapshot r)) w.
Proof. intros [Hi Hr]. by apply inv_original. Qed.
Lemma name_effect_at e hex r w w' :
  match e with ReplaceRecord _ _ => False | _ => True end ->
  apply_effect e w = Ok w' -> guarantee w w' -> at_record hex r w -> at_record hex r w'.
Proof.
  intros He Ha [_ Hg] [Hi Hr]. split; [auto|]. unfold record_of in *. rewrite <- Hr. f_equal.
  destruct e; [..|done]; cbn in Ha; repeat case_match; by simplify_eq.
Qed.

(** A failure inside the transaction. *)
Definition failed (hex : string) (m : option PlacementRecord) (w : pl_world) : Prop :=
  is_Some m /\ honest hex m w.
Lemma at_failed hex r w : at_record hex r w -> failed hex (Some r) w.
Proof. intros Ha. split; [done|by apply at_honest]. Qed.

(** The record with one of its private links. *)
Definition held (hex : string) (r : PlacementRecord) (leaf : string) (w : pl_world) : Prop :=
  at_record hex r w /\ linked hex leaf (sp_inode (pr_snapshot r)) w.
Lemma stable_held hex r leaf : stable others (held hex r leaf).
Proof. by apply stable_and. Qed.
#[local] Hint Resolve stable_held : core.

(** A step that only reads, with a stable assertion. *)
Ltac failing := intros;
  solve [ done
        | match goal with Hx : at_record ?h _ _ |- _ => exact (at_failed h _ _ Hx) end
        | match goal with Hx : held ?h _ _ _ |- _ => exact (at_failed h _ _ (proj1 Hx)) end
        | match goal with Hx : held _ _ _ _ |- _ => destruct Hx; done end
        | eauto ].
Tactic Notation "reading" uconstr(P) "as" simple_intropattern(a) ident(w) ident(Hw) :=
  apply (pwp_read_bind others guarantee guarantee_refl _ _ _ P);
  [solve_preads|auto|auto|cbv beta; failing|cbv beta; intros a w Hw].

Section Transaction.
Context (sha256_hex : string -> string) (float_json : spec_float -> pyval) (o : KnowledgePlacementOwner).
Context (root src dst : inode) (hex : string) (intent : PlacementIntent) (deadline : option spec_float).

(** The entry of a private name is what it was found to be. *)
Lemma entry_private leaf m (P : pl_world -> Prop) w :
  stable others P -> P w ->
  ppwp (_entry sha256_hex (TxnDir hex) leaf) m
    (fun r m' w' => m' = m /\ P w' /\ match r with Ok (Some s) => linked hex leaf (sp_inode s) w' | _ => True end) w.
Proof.
  intros HP Hw. unfold _entry. apply pwp_bind, pwp_catch, pwp_bind, pwp_read; [done..|].
  intros w1 t Ho. assert (P w1) by eauto.
  destruct t as [h|e]; cbn [do_call perform fst]; [|destruct e; by apply pwp_ret || by cbn].
  destruct (fs_names w1 !! (TxnDir hex, leaf)) as [i|] eqn:E; cbn [found]; [|by apply pwp_ret].
  change (linked hex leaf i w1) in E. apply pwp_ret.
  set (P' := fun w => P w /\ linked hex leaf i w).
  apply pwp_bind. unfold _snapshot. apply pwp_bind.
  apply (pwp_reads _ _ guarantee_refl _ _ P'); [by solve_preads|by apply stable_and|done|].
  intros [f|e] w2 [HP2 HL2]; [|auto].
  apply pwp_guard_bind; [auto|intros _]. apply pwp_bind.
  apply (pwp_reads _ _ guarantee_refl _ _ P'); [by solve_preads|by apply stable_and|done|].
  intros [f'|e] w3 [HP3 HL3]; cbn; auto.
Qed.
Lemma require_private expected leaf m (P : pl_world -> Prop) w :
  stable others P -> P w ->
  ppwp (require sha256_hex expected (TxnDir hex) leaf) m
    (fun r m' w' => m' = m /\ P w' /\ (r = Ok tt -> linked hex leaf (sp_inode expected) w')) w.
Proof.
  intros HP Hw. unfold require. apply pwp_bind. eapply pwp_mono; [|by apply (entry_private leaf m P)].
  intros [e|e] m' w' (-> & ? & Hl); [|by split_and!]. unfold pguard. case_bool_decide as He; cbn; [by split_and!|].
  split_and!; [done..|]. intros _. by rewrite He in Hl.
Qed.

(** What every part of the transaction gives: a durable record equal to the
    one in memory, or an honest failure. *)
Definition spec (s : snapshot) (r : res unit) (m : option PlacementRecord) (w : pl_world) : Prop :=
  match r with
  | Ok _ => exists rec, m = Some rec /\ at_record hex rec w /\ pr_snapshot rec = s
  | Raise _ => failed hex m w
  end.

Lemma save_spec s r' m (P : pl_world -> Prop) w :
  stable others P -> P w -> pr_snapshot r' = s ->
  (forall w, P w -> pl_inv w /\ (holding (pr_phase r') = true -> linked hex "original" (sp_inode s) w)
     /\ (unpublished (pr_phase r') = true -> quiet_log hex w)
     /\ (pr_phase r' <> committed -> forall n r2, endswith ".json" n = true ->
           fs_records w !! n = Some (Doc r2) -> pr_phase r2 <> committed ->
           in_artifact_id (pr_intent r2) = in_artifact_id (pr_intent r') -> n = record_name hex)) ->
  ppwp (save o root hex r') m (spec s) w.
Proof.
  intros HP Hw <- Hc. unfold save. apply pwp_set_bind. unfold _store.
  assert (Hraise : forall e w, P w -> spec (pr_snapshot r') (Raise e) (Some r') w).
  { intros e w' (_ & _ & Hq & _)%Hc. split; [done|]. intros r [= <-]. auto. }
  reading P as _ w1 H1. reading P as _ w2 H2. reading P as _ w3 H3. reading P as _ w4 H4.
  apply pwp_bind, pwp_do; [done|].
  intros wa Ho. assert (Hwa : P wa) by eauto.
  split; [intros x; by apply Hraise|]. intros wb Ha. destruct (Hc wa Hwa) as (Hi & Hh & Hq & Hx).
  assert (Hg : guarantee wa wb) by (eapply record_effect; eauto). split; [done|].
  assert (at_record hex r' wb) as Hat.
  { split; [by apply Hg|]. cbn in Ha. simplify_eq. unfold record_of. cbn. by rewrite lookup_insert_eq. }
  apply (pwp_reads _ _ guarantee_refl _ _ (at_record hex r')); [solve_preads|done..|].
  intros [[]|e] wc Hc'; cbn; eauto using at_failed.
Qed.
Lemma advance_spec s r phase (P : pl_world -> Prop) w :
  at_record hex r w -> pr_snapshot r = s -> stable others P -> P w -> pr_phase r <> committed ->
  (forall w, P w -> at_record hex r w -> holding phase = true -> linked hex "original" (sp_inode s) w) ->
  (unpublished phase = true -> unpublished (pr_phase r) = true) ->
  ppwp (advance o root hex phase) (Some r) (spec s) w.
Proof.
  intros Ha Hs HP Hw Hc Hh Hu. unfold advance. change (ppwp (save o root hex (with_phase phase r)) (Some r) (spec s) w).
  apply (save_spec _ _ _ (fun w => at_record hex r w /\ P w)); auto. intros w' [Ha' HP'].
  split_and!; [apply Ha'|cbn; eauto|cbn; eauto using at_quiet|]. cbn.
  intros _ n r2 He Hr2 Hc2 Hart. destruct Ha' as [Hi Hr].
  eapply (inv_exclusive _ Hi n (record_name hex)); eauto. apply endswith_app.
Qed.

Abbreviation seam := (seam sha256_hex float_json o root src dst intent deadline).
Abbreviation in_advance body := (body sha256_hex float_json o root src dst hex intent deadline).

(** An effect on names in the middle of the transaction. *)
Lemma do_effect e r (Q : res unit -> option PlacementRecord -> pl_world -> Prop) w :
  match e with ReplaceRecord _ _ => False | _ => True end -> at_record hex r w ->
  (forall w1 w2, at_record hex r w1 -> others w w1 -> apply_effect e w1 = Ok w2 -> guarantee w1 w2) ->
  (forall r' w, at_record hex r w -> Q r' (Some r) w) ->
  ppwp (sys (Do e)) (Some r) Q w.
Proof.
  intros He Ha Hg HQ. apply pwp_do; [done|]. intros w1 Ho.
  assert (Ha1 : at_record hex r w1) by (by eapply stable_at). split; [eauto|].
  intros w2 E. assert (guarantee w1 w2) by eauto. split; [done|]. apply HQ.
  eapply name_effect_at; eauto.
Qed.

Lemma reserved_keeps r w : at_record hex r w -> pr_phase r = reserved ->
  ppwp (in_advance do_reserved (pr_snapshot r)) (Some r) (spec (pr_snapshot r)) w.
Proof.
  intros Ha Hp. unfold do_reserved.
  reading (at_record hex r) as _ w1 H1. reading (at_record hex r) as g w2 H2.
  apply pwp_guard_bind; [failing|intros _]. reading (at_record hex r) as original w3 H3.
  apply pwp_bind, (pwp_mono _ _ _ _ (fun r' m w => m = Some r /\ at_record hex r w)).
  { intros [[]|x] m w4 [-> H4]; [|failing].
    apply pwp_bind. eapply pwp_mono; [|by apply (require_private _ "original" _ (at_record hex r))].
    intros [[]|x] m w5 (-> & H5 & Hl); [|failing].
    assert (H5' : held hex r "original" w5) by (split; auto).
    reading (held hex r "original") as _ w6 H6. reading (held hex r "original") as _ w7 H7.
    reading (held hex r "original") as _ w8 H8. reading (held hex r "original") as _ w9 H9.
    apply (advance_spec _ _ _ (held hex r "original")); auto; [by apply H9|by rewrite Hp|by intros ? []|by rewrite Hp]. }
  destruct original; [by apply pwp_ret|]. reading (at_record hex r) as _ w4 H4.
  apply (do_effect _ r); [done..| |auto]. intros wa wb _ _. apply link_effect; [by right|].
  by intros ? (? & ? & [=]).
Qed.
Lemma prepared_keeps r w : at_record hex r w -> pr_phase r = prepared ->
  ppwp (in_advance do_prepared) (Some r) (spec (pr_snapshot r)) w.
Proof.
  intros Ha Hp. unfold do_prepared. reading (at_record hex r) as _ w1 H1.
  apply (advance_spec _ _ _ (at_record hex r)); auto; [by rewrite Hp| |done].
  intros w2 _ H2 _. apply at_linked; [done|by rewrite Hp].
Qed.
Lemma publishing_keeps r w : at_record hex r w -> pr_phase r = publishing ->
  ppwp (in_advance do_publishing (pr_snapshot r)) (Some r) (spec (pr_snapshot r)) w.
Proof.
  intros Ha Hp. unfold do_publishing. reading (at_record hex r) as _ w1 H1.
  reading (at_record hex r) as _ w2 H2. reading (at_record hex r) as _ w3 H3.
  apply pwp_bind, (pwp_mono _ _ _ _ (fun r' m w => m = Some r /\ at_record hex r w)).
  { intros [[]|x] m w4 [-> H4]; [|failing]. reading (at_record hex r) as _ w5 H5.
    reading (at_record hex r) as _ w6 H6. reading (at_record hex r) as _ w7 H7.
    reading (at_record hex r) as _ w8 H8.
    apply (advance_spec _ _ _ (at_record hex r)); auto; [by rewrite Hp| |done].
    intros w9 _ H9 _. apply at_linked; [done|by rewrite Hp]. }
  apply pwp_catch. apply (do_effect _ r); [done..| |].
  - intros wa wb [_ Hr] _. apply link_effect; [by left|]. intros hex' (d & n & [= <- _ _]).
    exists r. by rewrite Hp.
  - intros [[]|x] w4 H4; [done|].
    assert (Hreq : ppwp (require sha256_hex (pr_snapshot r) (PublicDir dst) (path_name (path_parts (in_destination intent))))
      (Some r) (fun r' m w => m = Some r /\ at_record hex r w) w4).
    { by apply (pwp_reads _ _ guarantee_refl _ _ (at_record hex r)); [solve_preads|..]. }
    destruct x; done.
Qed.
Lemma activated_keeps r w : at_record hex r w -> pr_phase r = activated ->
  ppwp (do_activated sha256_hex o root src dst hex intent (pr_snapshot r)) (Some r) (spec (pr_snapshot r)) w.
Proof.
  intros Ha Hp. unfold do_activated. reading (at_record hex r) as _ w1 H1. reading (at_record hex r) as _ w2 H2.
  apply (advance_spec _ _ _ (at_record hex r)); auto; [by rewrite Hp| |done].
  intros w3 _ H3 _. apply at_linked; [done|by rewrite Hp].
Qed.
Lemma restore_keeps r w : at_record hex r w ->
  ppwp (in_advance restore_replacement) (Some r) (fun r' m w => m = Some r /\ at_record hex r w) w.
Proof.
  intros Ha. apply pwp_catch, (pwp_mono _ _ _ _ (fun r' m w => m = Some r /\ at_record hex r w)).
  { intros [[]|x] m w' [-> Hw]; [done|]. destruct x; by cbn. }
  reading (at_record hex r) as _ w1 H1. apply pwp_bind, (do_effect _ r); [done..| |].
  - intros wa wb _ _. apply rename_effect; [done..|]. by intros ? [=].
  - intros [[]|x] w2 H2; [|done]. reading (at_record hex r) as _ w3 H3.
    by apply (pwp_reads _ _ guarantee_refl _ _ (at_record hex r)); [solve_preads|..].
Qed.
Lemma retiring_keeps r w : at_record hex r w -> pr_phase r = retiring ->
  ppwp (in_advance do_retiring (pr_snapshot r)) (Some r) (spec (pr_snapshot r)) w.
Proof.
  intros Ha Hp. unfold do_retiring. reading (at_record hex r) as _ w1 H1. reading (at_record hex r) as retired w2 H2.
  apply pwp_bind, (pwp_mono _ _ _ _ (fun r' m w => m = Some r /\ at_record hex r w)).
  2:{ destruct retired; [by apply pwp_ret|]. reading (at_record hex r) as _ w3 H3.
      reading (at_record hex r) as _ w4 H4. apply (do_effect _ r); [done..| |auto].
      intros wa wb _ _. apply rename_effect; [done..|]. by intros ? [=]. }
  intros [[]|x] m w3 [-> H3]; [|failing]. reading (at_record hex r) as _ w4 H4. reading (at_record hex r) as _ w5 H5.
  reading (at_record hex r) as again w6 H6.
  apply pwp_bind, (pwp_mono _ _ _ _ (fun r' m w => m = Some r /\ at_record hex r w)).
  2:{ case_bool_decide; [|by apply pwp_ret]. apply pwp_bind. eapply pwp_mono; [|by apply restore_keeps].
      by intros [[]|x] m w7 [-> H7]. }
  intros [[]|x] m w7 [-> H7]; [|failing]. reading (at_record hex r) as reused w8 H8.
  apply pwp_guard_bind; [failing|intros _]. reading (at_record hex r) as _ w9 H9.
  reading (at_record hex r) as receipt wa Hwa.
  change (ppwp (save o root hex (with_phase committed (with_receipt receipt r))) (Some (with_receipt receipt r)) (spec (pr_snapshot r)) wa).
  apply (save_spec _ _ _ (at_record hex r)); [done..|]. intros wb [Hi Hr]. by split_and!.
Qed.
Lemma cleanup_leaf_keeps r leaf w : at_record hex r w -> pr_phase r = committed ->
  ppwp (in_advance cleanup_leaf (pr_snapshot r) leaf) (Some r) (fun r' m w => m = Some r /\ at_record hex r w) w.
Proof.
  intros Ha Hp. apply pwp_bind. eapply pwp_mono; [|by apply (entry_private leaf _ (at_record hex r))].
  intros [[s|]|x] m w1 (-> & H1 & Hl); [|by apply pwp_ret|done].
  apply pwp_guard_bind; [done|]. intros [= Hs]%bool_decide_eq_false%dec_stable. rewrite Hs in Hl.
  assert (H1' : held hex r leaf w1) by done. reading (held hex r leaf) as _ w2 H2.
  apply pwp_do; [done|]. intros w3 Ho.
  assert (H3 : held hex r leaf w3) by (exact (stable_held _ _ _ _ _ Ho H2)). destruct H3 as [H3 Hl3]. split; [done|].
  intros w4 E. assert (Hg : guarantee w3 w4).
  { eapply unlink_effect; [apply H3|done| |done]. intros i Hi. unfold linked in Hl3. congruence. }
  split_and!; [done..|]. exact (name_effect_at (Unlink _ _) hex r w3 w4 I E Hg H3).
Qed.
Lemma cleanup_keeps r w : at_record hex r w -> pr_phase r = committed ->
  ppwp (in_advance do_cleanup (pr_snapshot r)) (Some r) (spec (pr_snapshot r)) w.
Proof.
  intros Ha Hp. unfold do_cleanup. reading (at_record hex r) as current w1 H1.
  apply pwp_guard_bind; [failing|intros _].
  apply pwp_bind, (pwp_mono _ _ _ _ (fun r' m w => m = Some r /\ at_record hex r w)).
  - intros [[]|x] m w2 [-> H2]; [|failing]. reading (at_record hex r) as _ w3 H3.
    change (ppwp (save o root hex (with_cleanup r)) (Some r) (spec (pr_snapshot r)) w3).
    apply (save_spec _ _ _ (at_record hex r)); [done..|]. intros w4 [Hi Hr]. cbn. rewrite Hp. by split_and!.
  - cbn [pforeach]. apply pwp_bind. eapply pwp_mono; [|by apply cleanup_leaf_keeps].
    intros [[]|x] m w2 [-> H2]; [|done]. apply pwp_bind. eapply pwp_mono; [|by apply cleanup_leaf_keeps].
    by intros [[]|x] m w3 [-> H3].
Qed.

Lemma in_phase_keeps phase body s m w (f : unit -> pl unit) :
  (exists r, m = Some r /\ at_record hex r w /\ pr_snapshot r = s) ->
  (forall r w, at_record hex r w -> pr_snapshot r = s -> pr_phase r = phase -> ppwp body (Some r) (spec s) w) ->
  (forall m w, (exists r, m = Some r /\ at_record hex r w /\ pr_snapshot r = s) -> ppwp (f tt) m (spec s) w) ->
  ppwp (in_phase phase body ≫= f) m (spec s) w.
Proof.
  intros (r & -> & Ha & Hs) Hb Hf. apply pwp_bind, (pwp_mono _ _ _ _ (spec s)).
  { intros [[]|x] m' w'; [apply Hf|done]. }
  change (ppwp (if bool_decide (pr_phase r = phase) then body else mret tt) (Some r) (spec s) w).
  case_bool_decide; [auto|]. apply pwp_ret. by exists r.
Qed.
Lemma advance_keeps r w : at_record hex r w -> ppwp (in_advance _advance) (Some r) (spec (pr_snapshot r)) w.
Proof.
  intros Ha. unfold _advance.
  change (ppwp (_ ← seam; _ ← in_phase reserved (in_advance do_reserved (pr_snapshot r));
    _ ← in_phase prepared (in_advance do_prepared);
    _ ← in_phase publishing (in_advance do_publishing (pr_snapshot r));
    _ ← in_phase activated (do_activated sha256_hex o root src dst hex intent (pr_snapshot r));
    _ ← in_phase retiring (in_advance do_retiring (pr_snapshot r));
    r0 ← the_record;
    if bool_decide (pr_phase r0 = committed) && negb (pr_cleanup_complete r0)
    then in_advance do_cleanup (pr_snapshot r) else mret tt) (Some r) (spec (pr_snapshot r)) w).
  reading (at_record hex r) as _ w1 H1.
  apply in_phase_keeps; [by exists r|intros r1 w' ? <- ?; by apply reserved_keeps|intros ? ? ?].
  apply in_phase_keeps; [done|intros r1 w' ? <- ?; by apply prepared_keeps|intros ? ? ?].
  apply in_phase_keeps; [done|intros r1 w' ? <- ?; by apply publishing_keeps|intros ? ? ?].
  apply in_phase_keeps; [done|intros r1 w' ? <- ?; by apply activated_keeps|intros ? ? ?].
  apply in_phase_keeps; [done|intros r1 w' ? <- ?; by apply retiring_keeps|intros m' w' (r1 & -> & H' & <-)].
  change (ppwp (if bool_decide (pr_phase r1 = committed) && negb (pr_cleanup_complete r1)
    then in_advance do_cleanup (pr_snapshot r1) else mret tt) (Some r1) (spec (pr_snapshot r1)) w').
  case_bool_decide; [|apply pwp_ret; by exists r1]. destruct (pr_cleanup_complete r1); [apply pwp_ret; by exists r1|].
  by apply cleanup_keeps.
Qed.
End Transaction.

(** ** Attempts under interference *)

(** Before the transaction: the records are [recs], and of the effects since
    the log was [l] none published this request. *)
Definition before (hex : string) (recs : gmap string evidence) (l : list effect) (w : pl_world) : Prop :=
  pl_inv w /\ fs_records w = recs /\ forall e, e ∈ fs_log w -> publishes hex e -> e ∈ l.
Lemma stable_before hex recs l : stable others (before hex recs l).
Proof.
  intros w w' Ho (Hi & Hr & Hl). split_and!; [by eapply others_inv|..]; destruct Ho as (_ & Hr' & Hl'); rewrite ?Hr', ?Hl'; done.
Qed.
#[local] Hint Resolve stable_before : core.

(** What scratch effects and other processes leave alone. *)
Section Scratch.
Context (Rl G : pl_world -> pl_world -> Prop) (G_refl : forall w, G w w).
Context (scratch_G : forall e w w', scratch e -> apply_effect e w = Ok w' -> G w w').
Definition unscratched (P : pl_world -> Prop) : Prop :=
  stable Rl P
  /\ forall e w w', scratch e -> apply_effect e w = Ok w' -> G w w' -> P w -> P w'.
Definition leaves {A} (p : pl A) : Prop := forall (m : option PlacementRecord) (P : pl_world -> Prop) w, unscratched P -> P w ->
  pwp (H:=host) Rl G p m (fun r m' w' => m' = m /\ P w') w.
Lemma leaves_reads {A} (p : pl A) : preads p -> leaves p.
Proof. intros Hp m P w [HP _] Hw. by apply (pwp_reads _ _ G_refl _ _ P). Qed.
Lemma leaves_do e : scratch e -> leaves (sys (Do e)).
Proof.
  intros He m P w [HP Hs] Hw. apply pwp_do; [done|]. intros w1 Ho. assert (P w1) by eauto. split; [done|].
  intros w2 Ha. assert (G w1 w2) by eauto. eauto.
Qed.
Lemma leaves_bind {A B} (p : pl A) (f : A -> pl B) : leaves p -> (forall a, leaves (f a)) -> leaves (p ≫= f).
Proof.
  intros Hp Hf m P w HP Hw. apply pwp_bind. eapply pwp_mono; [|by apply (Hp m P)].
  intros [a|e] m' w' [-> Hw']; [by apply Hf|done].
Qed.
Lemma leaves_catch {A} (p : pl A) hd : leaves p -> (forall e, leaves (hd e)) -> leaves (pcatch p hd).
Proof.
  intros Hp Hf m P w HP Hw. apply pwp_catch. eapply pwp_mono; [|by apply (Hp m P)].
  intros [a|e] m' w' [-> Hw']; [done|by apply Hf].
Qed.
Lemma leaves_finally {A} (p : pl A) q : leaves p -> leaves q -> leaves (pfinally p q).
Proof.
  intros Hp Hq m P w HP Hw. unfold pfinally. apply wp_bind.
  eapply wp_mono; [|by apply (Hp m P w)]. intros [r m'] w' [E Hw']. cbn in E. subst m'.
  apply wp_bind. eapply wp_mono; [|by apply (Hq m P w')]. by intros [[]] w2 [E H2]; cbn in *.
Qed.
Lemma leaves_qualify o : leaves (_qualify o).
Proof.
  unfold _qualify, not_found_as. cbn [pforeach].
  repeat first [ apply leaves_finally | apply leaves_do; done | apply leaves_reads; solve [solve_preads]
               | apply leaves_bind; [|intros ?] | apply leaves_catch; [|intros ?] | case_match ].
Qed.
End Scratch.
Lemma unscratched_at hex r : unscratched others guarantee (at_record hex r).
Proof.
  split; [done|]. intros e w w' He. apply name_effect_at. by destruct e.
Qed.
Lemma unscratched_before hex recs l : unscratched others guarantee (before hex recs l).
Proof.
  split; [done|]. intros e w w' He Ha [_ Hg] (Hi & Hr & Hl). split; [auto|].
  assert (Hw : fs_records w' = fs_records w /\ fs_log w' = fs_log w ++ [e]).
  { destruct e; [..|done]; cbn in Ha; repeat case_match; by simplify_eq. }
  destruct Hw as [-> ->]. split; [done|]. intros e' [Hin| ->%list_elem_of_singleton]%elem_of_app; [auto|].
  intros (d & n & ->). by destruct He.
Qed.

Section Attempt.
Context (sha256_hex : string -> string) (float_json : spec_float -> pyval) (o : KnowledgePlacementOwner).

Definition qualify_leaves := leaves_qualify others guarantee guarantee_refl state_effect o.
Definition outcome_ok (hex : string) (recover : bool) (l : list effect) (result : PlacementResult) (w : pl_world) : Prop :=
  (forall r, ps_record result = Some r -> unpublished (pr_phase r) = true -> quiet_log hex w)
  /\ (ps_record result = None -> forall e, e ∈ fs_log w -> publishes hex e -> e ∈ l)
  /\ (recover = true -> ps_status result = "not_found" -> quiet_log hex w).
Definition attempt_post (hex : string) (recover : bool) (l : list effect) (r : res PlacementResult)
    (m : option PlacementRecord) (w : pl_world) : Prop :=
  match r with
  | Ok result => outcome_ok hex recover l result w
  | Raise e => outcome_ok hex recover l (place_failure e m) w
  end.
Lemma refusal_ok hex recover l status reason recs w :
  before hex recs l w -> status <> "not_found" \/ recover = false -> outcome_ok hex recover l (refusal status reason) w.
Proof.
  intros (Hi & Hr & Hl) Hs. split_and!; [done|done|]. cbn. intros ->. by destruct Hs.
Qed.
Lemma place_failure_record e m : ps_record (place_failure e m) = m.
Proof. unfold place_failure. repeat case_match; done. Qed.
Lemma place_failure_status e m : ps_status (place_failure e m) <> "not_found".
Proof. unfold place_failure. repeat case_match; done. Qed.
Lemma raise_before hex recover l e recs w : before hex recs l w -> attempt_post hex recover l (Raise e) None w.
Proof.
  intros (Hi & Hr & Hl). split_and!.
  - by rewrite place_failure_record.
  - done.
  - intros _ Hs. by destruct (place_failure_status e None).
Qed.
Lemma raise_failed hex recover l e m w : failed hex m w -> attempt_post hex recover l (Raise e) m w.
Proof.
  intros [[r ->] Hh]. unfold attempt_post, outcome_ok. rewrite place_failure_record.
  split_and!; [|done|].
  - intros r' [= <-] Hu. by eapply Hh.
  - intros _ Hs. by destruct (place_failure_status e (Some r)).
Qed.

Lemma result_ok hex recover l r w : at_record hex r w -> outcome_ok hex recover l (_result r) w.
Proof.
  intros Ha. unfold _result. split_and!.
  - intros r'. case_match; intros [= <-]; by apply at_quiet.
  - by case_match.
  - by case_match.
Qed.
Lemma transact_ok root hex intent source destination deadline recover l r w :
  at_record hex r w ->
  ppwp (transact sha256_hex float_json o root hex intent source destination deadline) (Some r)
    (attempt_post hex recover l) w.
Proof.
  intros Ha. unfold transact. apply pwp_bind.
  eapply pwp_mono; [|by apply (qualify_leaves (Some r) (at_record hex r)); [apply unscratched_at|]].
  intros [[]|e] m w1 [-> H1]; [|by apply raise_failed, at_failed].
  apply (pwp_read_bind others guarantee guarantee_refl _ _ _ (at_record hex r));
    [solve_preads|done..|intros; by apply raise_failed, at_failed|].
  intros [src dst] w2 H2.
  apply (pwp_read_bind others guarantee guarantee_refl _ _ _ (at_record hex r));
    [solve_preads|done..|intros; by apply raise_failed, at_failed|].
  intros _ w3 H3. apply pwp_bind. eapply pwp_mono; [|by apply advance_keeps].
  intros [[]|e] m w4; [|by apply raise_failed]. intros (r' & -> & H4 & _).
  change (outcome_ok hex recover l (_result r') w4). by apply result_ok.
Qed.

(** Loading a record tells what the file holds. *)
Lemma load_private name (m : option PlacementRecord) (P : pl_world -> Prop) recs w :
  stable others P -> (forall w, P w -> fs_records w = recs) -> P w ->
  ppwp (_load sha256_hex name) m
    (fun r m' w' => m' = m /\ P w' /\
       match r with
       | Ok (Some rec) => recs !! name = Some (Doc rec)
       | Ok None => recs !! name = None
       | Raise _ => True
       end) w.
Proof.
  intros HP Hrec Hb. unfold _load. apply pwp_bind, pwp_catch, pwp_bind, pwp_read; [done..|].
  intros w1 t Ho. assert (H1 : P w1) by eauto.
  destruct t as [h|e]; cbn [do_call perform fst]; [|destruct e; done].
  rewrite (Hrec w1 H1). destruct (recs !! name) as [v|] eqn:E; cbn [found]; [|by apply pwp_ret].
  apply pwp_ret. destruct v as [| | |r]; try done. destruct (document_ok sha256_hex r); done.
Qed.
Lemma before_records hex recs l w : before hex recs l w -> fs_records w = recs.
Proof. by intros (_ & ? & _). Qed.
Definition no_claim (artifact : string) (recs : gmap string evidence) (n : string) : Prop :=
  forall r, endswith ".json" n = true -> recs !! n = Some (Doc r) -> pr_phase r <> committed ->
    in_artifact_id (pr_intent r) <> artifact.
Lemma outstanding_scans intent names (m : option PlacementRecord) hex recs l w :
  before hex recs l w ->
  ppwp (outstanding sha256_hex intent names) m
    (fun r m' w' => m' = m /\ before hex recs l w' /\
       (r = Ok false -> Forall (no_claim (in_artifact_id intent) recs) names)) w.
Proof.
  revert w. induction names as [|n names IH]; intros w Hb; cbn [outstanding].
  { apply pwp_ret. by split_and!. }
  destruct (endswith ".json" n) eqn:En; cbn [negb].
  2:{ eapply pwp_mono; [|by apply IH]. intros r m' w' (-> & H' & Hf). split_and!; [done..|].
      intros Hr. constructor; [|auto]. intros r' He. congruence. }
  apply pwp_bind. eapply pwp_mono; [|by apply (load_private n m (before hex recs l) recs); [..|apply before_records|]].
  intros [[other|]|e] m' w1 (-> & H1 & Hn); [| |by split_and!].
  2:{ eapply pwp_mono; [|by apply IH]. intros r m' w' (-> & H' & Hf). split_and!; [done..|].
      intros Hr. constructor; [|auto]. intros r' _. congruence. }
  case_bool_decide as Hc.
  { eapply pwp_mono; [|by apply IH]. intros r m' w' (-> & H' & Hf). split_and!; [done..|].
    intros Hr. constructor; [|auto]. intros r' _ Hr'. rewrite Hn in Hr'. by simplify_eq. }
  destruct (String.eqb_spec (in_artifact_id (pr_intent other)) (in_artifact_id intent)) as [Ha|Ha].
  { apply pwp_bind, pwp_ret, pwp_ret. by split_and!. }
  apply (pwp_read_bind others guarantee guarantee_refl _ _ _ (before hex recs l));
    [solve_preads|done..|by intros|]. intros [] w2 H2; [apply pwp_ret; by split_and!|].
  eapply pwp_mono; [|by apply IH]. intros r m' w' (-> & H' & Hf). split_and!; [done..|].
  intros Hr. constructor; [|auto]. intros r' _ Hr'. rewrite Hn in Hr'. by simplify_eq.
Qed.
Definition reserves (intent : PlacementIntent) (r : PlacementRecord) : Prop :=
  pr_phase r = reserved /\ pr_intent r = intent.
(** Reading steps before there is a record. *)
Tactic Notation "early" uconstr(P) "as" simple_intropattern(a) ident(w) ident(Hw) :=
  apply (pwp_read_bind others guarantee guarantee_refl _ _ _ P);
  [try (unfold one_link); solve_preads|done|done|intros; first [done|by split_and!|by eapply raise_before]|intros a w Hw].
Lemma preflight_ok root grant intent source destination hex recs l w :
  before hex recs l w ->
  ppwp (preflight sha256_hex float_json o root grant intent source destination) None
    (fun r m w' => m = None /\ before hex recs l w' /\
       match r with
       | Ok (inl early) => ps_record early = None
       | Ok (inr rec) => reserves intent rec /\ forall n, no_claim (in_artifact_id intent) recs n
       | Raise _ => True
       end) w.
Proof.
  intros Hb. unfold preflight. apply pwp_bind, pwp_read; [done..|].
  intros w1 t Ho. assert (H1 : before hex recs l w1) by (by eapply stable_before).
  destruct t as [h|e]; cbn [do_call perform fst]; [|by split_and!].
  apply pwp_bind. eapply pwp_mono; [|by apply (outstanding_scans _ _ _ hex recs l)].
  intros [[]|e] m w2 (-> & H2 & Hscan); [by apply pwp_ret| |by split_and!].
  assert (Hfree : forall n, no_claim (in_artifact_id intent) recs n).
  { specialize (Hscan eq_refl). intros n r He Hr. eapply (proj1 (Forall_forall _ _) Hscan); [|done..].
    destruct H1 as (_ & -> & _). apply list_elem_of_In, in_map_iff. exists (n, Doc r). split; [done|].
    by apply list_elem_of_In, elem_of_map_to_list. }
  apply pwp_bind. eapply pwp_mono; [|by apply (qualify_leaves None (before hex recs l)); [apply unscratched_before|]].
  intros [[]|e] m w3 [-> H3]; [|by split_and!].
  early (before hex recs l) as [src dst] w4 H4.
  early (before hex recs l) as [snap|] w5 H5; [|by apply pwp_ret].
  case_match; [by apply pwp_ret|]. early (before hex recs l) as g w6 H6. case_match; [by apply pwp_ret|].
  early (before hex recs l) as fd w7 H7. early (before hex recs l) as _ w8 H8.
  early (before hex recs l) as [raw checked] w9 H9. apply pwp_guard_bind; [by split_and!|intros _].
  early (before hex recs l) as _ wa Ha. apply pwp_ret. by split_and!.
Qed.

Lemma locked_ok root grant intent source destination recover deadline recs l w :
  before (sha256_hex (in_request_id intent)) recs l w ->
  ppwp (locked_section sha256_hex float_json o root grant intent source destination recover deadline) None
    (attempt_post (sha256_hex (in_request_id intent)) recover l) w.
Proof.
  set (hex := sha256_hex (in_request_id intent)). intros Hb. unfold locked_section. fold hex.
  early (before hex recs l) as _ w1 H1.
  apply pwp_bind. eapply pwp_mono; [|by apply (load_private _ None (before hex recs l) recs); [..|apply before_records|]].
  intros [[r|]|e] m w2 (-> & H2 & Hn); [| |by eapply raise_before].
  - assert (Ha : at_record hex r w2).
    { destruct H2 as (Hi & Hr & _). split; [done|]. unfold record_of. by rewrite Hr. }
    apply pwp_set_bind. case_match. { apply pwp_ret. eapply refusal_ok; [done|by left]. }
    destruct recover; cbn [negb]; [|apply pwp_ret; by apply result_ok].
    apply (pwp_read_bind others guarantee guarantee_refl _ _ _ (at_record hex r));
      [solve_preads|done..|intros; by apply raise_failed, at_failed|].
    intros _ w3 H3. by apply transact_ok.
  - assert (Hq : forall w, before hex recs l w -> quiet_log hex w).
    { intros w' (Hi & Hr & _) e Hin Hp. destruct (inv_published _ Hi hex e Hin Hp) as (r' & Hr' & _).
      unfold record_of in Hr'. rewrite Hr in Hr'. unfold record_name in Hr'. congruence. }
    destruct recover.
    { apply pwp_ret. split_and!; [done| |by auto]. intros _. apply H2. }
    early (before hex recs l) as _ w3 H3. apply pwp_bind.
    eapply pwp_mono; [|by apply (preflight_ok _ _ _ _ _ hex recs l)].
    intros [[early|r]|e] m w4 (-> & H4 & Hr); [| |by eapply raise_before].
    { apply pwp_ret. split_and!; [by rewrite Hr|intros _; apply H4|done]. }
    destruct Hr as [[Hp Hin] Hfree].
    change (ppwp (_ ← save o root hex r; transact sha256_hex float_json o root hex intent source destination deadline)
      None (attempt_post hex false l) w4).
    apply pwp_bind. eapply pwp_mono; [|apply (save_spec o root hex (pr_snapshot r) r None (before hex recs l)); [done..|]].
    { intros [[]|e] m w5; [|by apply raise_failed]. intros (r' & -> & H5 & _). by apply transact_ok. }
    intros w5 H5. rewrite Hp. split_and!; [apply H5|done|auto|].
    intros _ n r2 He Hr2 Hc2 Hart. exfalso. rewrite Hin in Hart. revert Hart. apply (Hfree n); [done| |done].
    by destruct H5 as (_ & <- & _).
Qed.
Lemma place_ok intent recover deadline recs l w :
  before (sha256_hex (in_request_id intent)) recs l w ->
  wp (H:=host) others guarantee (place_artifact sha256_hex float_json o intent recover deadline)
    (outcome_ok (sha256_hex (in_request_id intent)) recover l) w.
Proof.
  set (hex := sha256_hex (in_request_id intent)). intros Hb. unfold place_artifact. apply wp_bind.
  apply (wp_mono _ _ _ (fun rm => attempt_post hex recover l (fst rm) (snd rm))); [by intros [[r|e] m] w'|].
  change (ppwp (place_body sha256_hex float_json o intent recover deadline) None (attempt_post hex recover l) w).
  unfold place_body. early (before hex recs l) as _ w1 H1.
  case_match; [apply pwp_ret; eapply refusal_ok; [done|by left]|].
  case_match; [apply pwp_ret; eapply refusal_ok; [done|by left]|].
  early (before hex recs l) as source w2 H2. early (before hex recs l) as destination w3 H3.
  case_match; [apply pwp_ret; eapply refusal_ok; [done|by left]|].
  case_match; [apply pwp_ret; eapply refusal_ok; [done|by left]|].
  early (before hex recs l) as grant w4 Hw4. early (before hex recs l) as root w5 Hw5.
  by apply (locked_ok _ _ _ _ _ _ _ recs).
Qed.

(** A request that has a record: nothing is done unless it is recovered. *)
Definition settled (recs : gmap string evidence) (l : list effect) (w : pl_world) : Prop :=
  fs_records w = recs /\ fs_log w = l.
Lemma stable_settled recs l : stable others (settled recs l).
Proof. intros w w' (_ & Hr & Hl) [? ?]. split; congruence. Qed.
#[local] Hint Resolve stable_settled : core.
Lemma replay_settled intent deadline recs l w :
  is_Some (recs !! record_name (sha256_hex (in_request_id intent))) -> settled recs l w ->
  wp (H:=host) others guarantee (place_artifact sha256_hex float_json o intent false deadline)
    (fun _ w' => fs_log w' = l) w.
Proof.
  intros [v Hv] Hs. unfold place_artifact. apply wp_bind, (wp_mono _ _ _ (fun rm => settled recs l)); [by intros [r m] w' []|].
  change (ppwp (place_body sha256_hex float_json o intent false deadline) None (fun _ _ => settled recs l) w).
  unfold place_body. early (settled recs l) as _ w1 H1. case_match; [done|]. case_match; [done|].
  early (settled recs l) as source w2 H2. early (settled recs l) as destination w3 H3. case_match; [done|].
  case_match; [done|]. early (settled recs l) as grant w4 Hw4. early (settled recs l) as root w5 Hw5.
  unfold locked_section. early (settled recs l) as _ w6 Hw6. apply pwp_bind.
  eapply pwp_mono; [|by apply (load_private _ None (settled recs l) recs); [..|intros ? []|]].
  intros [[r|]|e] m w7 (-> & Hw7 & Hn); [| |done].
  - apply pwp_set_bind. case_match; done.
  - unfold record_name in Hv. congruence.
Qed.
End Attempt.

(** ** Properties *)

Definition attempts (sha256_hex : string -> string) (float_json : spec_float -> pyval)
    (p : prog (H:=host) (R:=evidence) PlacementResult) : Prop :=
  exists o intent recover deadline, p = place_artifact sha256_hex float_json o intent recover deadline.
Definition no_placement_yet (w : pl_world) : Prop := fs_records w = ∅ /\ fs_log w = [].
(** Everything that can happen: attempts by any owner for any request, failing
    calls, abandoned attempts and other processes, in any order. *)
Definition happens sha256_hex float_json := sys_step (attempts sha256_hex float_json) others.

Lemma no_placement_inv w : no_placement_yet w -> pl_inv w.
Proof.
  intros [Hr Hl]. split; unfold record_of; rewrite ?Hr, ?Hl.
  - done.
  - intros hex e []%not_elem_of_nil.
  - done.
Qed.
Lemma attempt_safe sha256_hex float_json p w :
  attempts sha256_hex float_json p -> pl_inv w -> wp others guarantee p (fun _ _ => True) w.
Proof.
  intros (o & intent & recover & deadline & ->) Hi. eapply wp_mono; [|apply (place_ok _ _ o intent recover deadline (fs_records w) (fs_log w) w)].
  - done.
  - by split_and!.
Qed.
Lemma happens_safe sha256_hex float_json w s :
  no_placement_yet w -> rtc (happens sha256_hex float_json) (mkSystem w None) s ->
  sys_ok others guarantee pl_inv (fun _ _ => True) s.
Proof.
  intros Hw Hs. eapply (reachable_ok (attempts sha256_hex float_json)); [..|exact Hs].
  - apply others_trans.
  - apply others_refl.
  - apply others_inv.
  - by intros w1 w2 [_ Hg].
  - done.
  - apply attempt_safe.
  - split; [by apply no_placement_inv|done].
Qed.

(** C6: Whatever attempts, failures, crashes and other processes did before, a
    system call of a placement never gives an existing name in the vault or in
    a transaction directory another file, and never takes away the last such
    name of a file; the one exception there is the private link of a note whose
    placement is durably committed.  The service's own state directory is not
    covered: its records are replaced and its probe files unlinked. *)
Theorem placement_spares_files sha256_hex float_json w s s' :
  no_placement_yet w -> rtc (happens sha256_hex float_json) (mkSystem w None) s -> own_step s s' ->
  spares (s_world s) (s_world s').
Proof.
  intros Hw Hs Hstep. pose proof (happens_safe _ _ _ _ Hw Hs) as Hok.
  assert (Hinv : forall w1 w2, guarantee w1 w2 -> pl_inv w1 -> pl_inv w2) by (by intros w1 w2 [_ Hg]).
  exact (proj1 (proj1 (own_step_ok others guarantee pl_inv _ others_refl others_inv Hinv s s' Hok Hstep))).
Qed.

(** C8: From the moment a placement is durably prepared until it is durably
    committed, the private link of its request holds the note, whatever other
    processes do to the public names and wherever attempts stop. *)
Theorem note_retained_until_committed sha256_hex float_json w s hex r :
  no_placement_yet w -> rtc (happens sha256_hex float_json) (mkSystem w None) s ->
  record_of (s_world s) hex r -> holding (pr_phase r) = true ->
  fs_names (s_world s) !! (TxnDir hex, "original") = Some (sp_inode (pr_snapshot r)).
Proof.
  intros Hw Hs Hr Hh. pose proof (happens_safe _ _ _ _ Hw Hs) as [Hi _]. by apply (inv_original _ Hi).
Qed.

(** Two placements of different requests that are not committed never hold
    the same artifact. *)
Theorem one_reservation_per_artifact sha256_hex float_json w s hex1 hex2 r1 r2 :
  no_placement_yet w -> rtc (happens sha256_hex float_json) (mkSystem w None) s ->
  record_of (s_world s) hex1 r1 -> record_of (s_world s) hex2 r2 ->
  pr_phase r1 <> committed -> pr_phase r2 <> committed -> hex1 <> hex2 ->
  in_artifact_id (pr_intent r1) <> in_artifact_id (pr_intent r2).
Proof.
  intros Hw Hs Hr1 Hr2 Hc1 Hc2 Hne Ha. pose proof (happens_safe _ _ _ _ Hw Hs) as [Hi _]. apply Hne, (inj record_name).
  eapply (inv_exclusive _ Hi); eauto; apply endswith_app.
Qed.

(** A run of one attempt under a schedule of faults and interference. *)
Lemma wp_prefix {A} (Q : A -> pl_world -> Prop) l (p : prog A) w a w' :
  Forall (fun ot => forall w, others w (fst ot w)) l -> wp (H:=host) others guarantee p Q w ->
  prefix l p w = (Done a, w') -> Q a w'.
Proof.
  intros Hl. revert p w. induction Hl as [|[f t] l Hf _ IH]; intros p w Hp E; cbn in E.
  - by injection E as -> ->.
  - destruct p as [b|c k]; [by injection E as -> ->|]. specialize (Hp (f w) t (Hf w)).
    destruct (do_call t c (f w)) as [r w2]. by eapply IH; [apply Hp|].
Qed.

(** Once a request has a record, a call that is not a recovery ends without
    any effect on names or records, whatever fails and whoever interferes. *)
Theorem replay_changes_nothing sha256_hex float_json o intent deadline l w result w' :
  is_Some (fs_records w !! record_name (sha256_hex (in_request_id intent))) ->
  Forall (fun ot => forall w, others w (fst ot w)) l ->
  prefix l (place_artifact sha256_hex float_json o intent false deadline) w = (Done result, w') ->
  fs_log w' = fs_log w.
Proof.
  intros Hr Hl. eapply (wp_prefix (fun _ w' => fs_log w' = fs_log w)); [done|]. by eapply replay_settled.
Qed.
