(* ===== verification/PlacementRecovery.v ===== *)
(** * Recovery of placements

    When no other process touches the note, an attempt may stop at any call and
    after any failures; a later recovery completes it. *)
From Stdlib Require Import SpecFloat Ascii.
From S2P Require Import Prelude PyValue PyTime Sql ActiveContext ContextSelection Health HealthContract GovernedWrite Procs Placement PlacementProps.
Open Scope Z_scope.

(** ** The states of a transaction

    Of the note's inode [n]: its source name, its destination name and the two
    private links, by phase. *)
Definition shape (p : Phase) (clean : bool) (n : inode) (source destination original retired : option inode) : Prop :=
  match p with
  | reserved => source = Some n /\ destination = None /\ (original = None \/ original = Some n) /\ retired = None
  | prepared => source = Some n /\ destination = None /\ original = Some n /\ retired = None
  | publishing => source = Some n /\ (destination = None \/ destination = Some n) /\ original = Some n
                  /\ retired = None
  | activated => source = Some n /\ destination = Some n /\ original = Some n /\ retired = None
  | retiring => destination = Some n /\ original = Some n
                /\ (source = Some n /\ retired = None \/ source = None /\ retired = Some n)
  | committed => destination = Some n /\ source = None
                 /\ (if clean then original = None /\ retired = None
                     else (original = None \/ original = Some n) /\ (retired = None \/ retired = Some n))
  end.

Section Quiet.
Context (sha256_hex : string -> string) (float_json : spec_float -> pyval) (o : KnowledgePlacementOwner).
Context (intent : PlacementIntent).
Let hex := sha256_hex (in_request_id intent).
Let name := hex +:+ ".json".
Let sname := path_name (path_parts (in_source intent)).
Let dname := path_name (path_parts (in_destination intent)).
Let ctx := ow_active_context o.

Definition snap_of (i : inode) (f : file) : snapshot :=
  mkSnap i (fi_size f) (fi_mtime_ns f) (fi_mode f) (fi_uid f) (fi_gid f) (sha256_hex (fi_raw f)).
(** The inode holds the note as it was when it was reserved. *)
Definition unchanged (s : snapshot) (w : pl_world) : Prop :=
  exists f, fs_files w !! sp_inode s = Some f /\ fi_regular f = true /\ snap_of (sp_inode s) f = s.

(** The token of the record passes at this owner. *)
Definition token_ok (t : DecisionToken) : Prop :=
  dk_target_binding_id t = Some (ow_target_binding_id o) /\ dk_active_context t = Some ctx
  /\ validate_decision_token (Some t) (_grant_binding o intent) = Ok t
  /\ validate_context t ctx (ow_target_binding_id o) = Ok tt.
Definition absent_digest (parent : inode) : string :=
  _digest sha256_hex (PDict [("root", _inode (ow_root_identity o));
    ("path", PStr (as_posix (path_parts (in_destination intent)))); ("parent", _inode parent); ("entry", PStr "absent")]).
Definition own_record (r : PlacementRecord) : Prop :=
  pr_intent r = intent /\ document_ok sha256_hex r = true
  /\ pr_binding r = Some (_binding sha256_hex float_json o)
  /\ token_ok (gg_decision_token (pr_grant r))
  /\ absent_digest (snd (pr_parents r)) = in_expected_destination_generation intent
  /\ (pr_cleanup_complete r = true -> pr_phase r = committed).

Definition source_key (r : PlacementRecord) : dir * string := (PublicDir (fst (pr_parents r)), sname).
Definition destination_key (r : PlacementRecord) : dir * string := (PublicDir (snd (pr_parents r)), dname).
Definition progress_at (r : PlacementRecord) (w : pl_world) : Prop :=
  own_record r /\ unchanged (pr_snapshot r) w /\ source_key r <> destination_key r
  /\ shape (pr_phase r) (pr_cleanup_complete r) (sp_inode (pr_snapshot r))
       (fs_names w !! source_key r) (fs_names w !! destination_key r)
       (fs_names w !! (TxnDir hex, "original")) (fs_names w !! (TxnDir hex, "retired")).
(** The state between any two calls of any attempt. *)
Definition consistent (w : pl_world) : Prop :=
  match fs_records w !! name with
  | None => fs_names w !! (TxnDir hex, "original") = None /\ fs_names w !! (TxnDir hex, "retired") = None
  | Some (Doc r) => progress_at r w
  | Some _ => False
  end.
Definition alone (w w' : pl_world) : Prop := consistent w -> consistent w'.
Abbreviation qwp := (pwp (H:=host) eq alone).

Lemma alone_refl w : alone w w.
Proof. by unfold alone. Qed.
Lemma stable_eq (P : pl_world -> Prop) : stable eq P.
Proof. by intros w w' ->. Qed.
#[local] Hint Resolve alone_refl stable_eq : core.

Lemma q_read_bind {A B} (p : pl A) (f : A -> pl B) m Q w :
  preads p -> (forall e, Q (Raise e) m w) -> (forall a, qwp (f a) m Q w) -> qwp (p ≫= f) m Q w.
Proof.
  intros Hp HE HQ. apply (pwp_read_bind eq alone alone_refl _ _ _ (fun w' => w' = w)); [done..| |];
    intros x w' ->; auto.
Qed.
Lemma q_do e m (Q : res unit -> option PlacementRecord -> pl_world -> Prop) w :
  (forall x, Q (Raise x) m w) -> (forall w', apply_effect e w = Ok w' -> alone w w' /\ Q (Ok tt) m w') ->
  qwp (sys (Do e)) m Q w.
Proof. intros HE HO. apply pwp_do; [done|]. intros w1 <-. auto. Qed.

(** What a reading of a name tells. *)
Lemma q_entry d leaf m w :
  qwp (_entry sha256_hex d leaf) m
    (fun r m' w' => m' = m /\ w' = w /\
       match r with
       | Ok None => fs_names w !! (d, leaf) = None
       | Ok (Some s) => fs_names w !! (d, leaf) = Some (sp_inode s) /\ unchanged s w
       | Raise _ => True
       end) w.
Proof.
  unfold _entry. apply pwp_bind, pwp_catch, pwp_bind, pwp_read; [done..|].
  intros w1 t <-. destruct t as [h|e]; cbn [do_call perform fst]; [|destruct e; done].
  destruct (fs_names w !! (d, leaf)) as [i|] eqn:E; cbn [found]; [|by apply pwp_ret].
  apply pwp_ret. apply pwp_bind. unfold _snapshot. apply pwp_bind, pwp_read; [done..|].
  intros w1 t <-. destruct t as [h2|e]; cbn [do_call perform fst]; [|by cbn; split_and!].
  cbn [answer] in i. destruct (fs_files w !! i) as [f|] eqn:Ef; [|done].
  apply pwp_guard_bind; [by cbn; split_and!|]. intros Hreg%negb_false_iff. apply pwp_bind, pwp_read; [done..|].
  intros w1 t <-. destruct t as [h3|e]; cbn [do_call perform fst]; [|by cbn; split_and!].
  rewrite Ef. split_and!; [done..|]. split; [done|]. by exists f.
Qed.
Lemma q_stat d leaf m w :
  qwp (stat_exists d leaf) m
    (fun r m' w' => m' = m /\ w' = w /\ (r = Ok false -> fs_names w !! (d, leaf) = None)) w.
Proof.
  unfold stat_exists. apply pwp_catch, pwp_bind, pwp_read; [done..|].
  intros w1 t <-. destruct t as [h|e]; cbn [do_call perform fst]; [|destruct e; by split_and!].
  by destruct (fs_names w !! (d, leaf)); cbn [found].
Qed.
Lemma q_require s d leaf m w :
  qwp (require sha256_hex s d leaf) m
    (fun r m' w' => m' = m /\ w' = w /\ (r = Ok tt -> fs_names w !! (d, leaf) = Some (sp_inode s))) w.
Proof.
  unfold require. apply pwp_bind. eapply pwp_mono; [|apply q_entry].
  intros [e|e] m' w' (-> & -> & He); [|by split_and!]. unfold pguard. case_bool_decide as Hs; cbn; [by split_and!|].
  split_and!; [done..|]. intros _. rewrite Hs in He. apply He.
Qed.

Definition durable (r : PlacementRecord) (w : pl_world) : Prop :=
  fs_records w !! name = Some (Doc r) /\ progress_at r w.
Lemma durable_alone r w w' : durable r w' -> alone w w'.
Proof. intros [Hr Hp] _. unfold consistent. by rewrite Hr. Qed.
Lemma save_durable root r m w : progress_at r w ->
  qwp (save o root hex r) m
    (fun x m w => match x with Ok _ => m = Some r /\ durable r w | Raise _ => True end) w.
Proof.
  intros Hp. unfold save. apply pwp_set_bind. unfold _store.
  do 4 (apply q_read_bind; [solve_preads|done|intros _]). apply pwp_bind, q_do; [done|]. intros w' [= <-].
  match goal with |- alone _ ?w2 /\ _ => assert (Hd : durable r w2) end.
  { split; [apply lookup_insert_eq|exact Hp]. }
  split; [by eapply durable_alone|].
  apply (pwp_reads _ _ alone_refl _ _ (durable r)); [solve_preads|done..|]. by intros [[]|e] w2 H2.
Qed.

Section Advance.
Context (root src dst : inode) (deadline : option spec_float) (s : snapshot).

(** The record is durable and in its state, at these parents and this note. *)
Definition on (r : PlacementRecord) (w : pl_world) : Prop :=
  fs_records w !! name = Some (Doc r) /\ progress_at r w /\ pr_parents r = (src, dst) /\ pr_snapshot r = s.
Definition qpost (r : res unit) (m : option PlacementRecord) (w : pl_world) : Prop :=
  match r with Ok _ => exists rec, m = Some rec /\ on rec w | Raise _ => True end.

Lemma on_alone r w w' : on r w' -> alone w w'.
Proof. intros (Hr & Hp & _). by apply (durable_alone r). Qed.
Lemma on_names r w ns l :
  on r w ->
  shape (pr_phase r) (pr_cleanup_complete r) (sp_inode s) (ns !! (PublicDir src, sname)) (ns !! (PublicDir dst, dname))
    (ns !! (TxnDir hex, "original")) (ns !! (TxnDir hex, "retired")) ->
  on r (mkFs ns (fs_files w) (fs_records w) l).
Proof.
  intros (Hr & (Ho & Hu & Hk & Hs) & Hp & Hs') Hsh. split_and!; [done| |done..]. split_and!; [done..|].
  unfold source_key, destination_key. rewrite Hp, Hs'. done.
Qed.
Lemma on_shape r w : on r w ->
  (PublicDir src, sname) <> (PublicDir dst, dname) /\
  shape (pr_phase r) (pr_cleanup_complete r) (sp_inode s) (fs_names w !! (PublicDir src, sname))
    (fs_names w !! (PublicDir dst, dname)) (fs_names w !! (TxnDir hex, "original")) (fs_names w !! (TxnDir hex, "retired")).
Proof.
  intros (Hr & (Ho & Hu & Hk & Hsh) & Hp & Hs). unfold source_key, destination_key in *.
  rewrite Hp in Hk, Hsh. by rewrite Hs in Hsh.
Qed.
Lemma own_with_phase r p : own_record r -> pr_phase r <> committed -> p <> committed -> own_record (with_phase p r).
Proof.
  intros (Hi & Hd & Hb & Ht & Hg & Hcl) Hc Hp. split_and!; [done| |done..|intros Hx; by destruct (Hc (Hcl Hx))]. unfold document_ok in *.
  cbn [with_phase pr_intent pr_intent_digest pr_snapshot pr_phase pr_receipt].
  rewrite !andb_true_iff in *. destruct Hd as [[[? ?] ?] _]. by rewrite bool_decide_false.
Qed.
Lemma save_quiet r r' m w :
  on r w -> own_record r' -> pr_parents r' = pr_parents r -> pr_snapshot r' = pr_snapshot r ->
  shape (pr_phase r') (pr_cleanup_complete r') (sp_inode s) (fs_names w !! (PublicDir src, sname))
    (fs_names w !! (PublicDir dst, dname)) (fs_names w !! (TxnDir hex, "original")) (fs_names w !! (TxnDir hex, "retired")) ->
  qwp (save o root hex r') m qpost w.
Proof.
  intros (Hr & (_ & Hu & Hk & _) & Hpa & Hsn) Ho Hp Hs Hsh. eapply pwp_mono; [|apply (save_durable root r')].
  - intros [[]|e] m' w'; [|done]. intros [-> [Hr' Hp']]. exists r'. split; [done|]. split; [done|].
    split; [done|]. split; congruence.
  - unfold progress_at, source_key, destination_key in *. rewrite Hp, Hs, Hpa, Hsn.
    rewrite Hpa in Hk. rewrite Hsn in Hu. by split_and!.
Qed.
Lemma advance_quiet r p w :
  on r w -> p <> committed -> pr_phase r <> committed ->
  shape p (pr_cleanup_complete r) (sp_inode s) (fs_names w !! (PublicDir src, sname))
    (fs_names w !! (PublicDir dst, dname)) (fs_names w !! (TxnDir hex, "original")) (fs_names w !! (TxnDir hex, "retired")) ->
  qwp (advance o root hex p) (Some r) qpost w.
Proof.
  intros Hon Hp Hc Hsh. change (qwp (save o root hex (with_phase p r)) (Some r) qpost w).
  apply (save_quiet r); [done| |done..]. apply own_with_phase; [apply Hon|done..].
Qed.

(** A reading step whose failure needs no care. *)
Ltac qread := apply q_read_bind; [solve_preads|done|intros ?].
Ltac qrequire Hn := apply pwp_bind; eapply pwp_mono; [|apply q_require];
  intros [[]|?] ? ? (-> & -> & Hn); [specialize (Hn eq_refl)|done].
Ltac keys := fold sname dname; rewrite ?lookup_insert, ?lookup_delete; repeat (case_decide; try congruence).

Lemma reserved_quiet r w : on r w -> pr_phase r = reserved ->
  qwp (do_reserved sha256_hex float_json o root src dst hex intent deadline s) (Some r) qpost w.
Proof.
  intros Hon Hp. destruct (on_shape _ _ Hon) as [Hk Hsh]. rewrite Hp in Hsh. destruct Hsh as (Hs & Hd & Ho & Ht).
  unfold do_reserved. do 2 qread. apply pwp_guard_bind; [done|intros _].
  apply pwp_bind. eapply pwp_mono; [|apply q_entry]. intros [e|e] m w' (-> & -> & He); [|done].
  apply pwp_bind, (pwp_mono _ _ _ _ (fun r' m w => match r' with
    | Ok _ => m = Some r /\ on r w /\ fs_names w !! (TxnDir hex, "original") = Some (sp_inode s)
    | Raise _ => True end)).
  - intros [[]|x] m w1; [|done]. intros (-> & H1 & Ho1). destruct (on_shape _ _ H1) as [_ Hsh].
    rewrite Hp in Hsh. destruct Hsh as (Hs1 & Hd1 & _ & Ht1). do 5 qread.
    apply (advance_quiet r); [done..|by rewrite Hp|]. by split_and!.
  - destruct e as [e|].
    + destruct He as [He _]. apply pwp_ret. split_and!; [done..|]. destruct Ho; congruence.
    + qread. apply q_do; [done|]. intros w' Ha. cbn [apply_effect] in Ha. fold sname in Ha. rewrite Hs, He in Ha.
      rewrite bool_decide_false in Ha by (by intros []). injection Ha as <-.
      assert (on r (mkFs (<[(TxnDir hex, "original") := sp_inode s]> (fs_names w)) (fs_files w) (fs_records w)
        (fs_log w ++ [Link (PublicDir src) sname (TxnDir hex) "original"]))).
      { apply on_names; [done|]. rewrite Hp. keys. rewrite Hs, Hd, Ht. cbn. auto. }
      split; [by eapply on_alone|]. split_and!; [done..|]. apply lookup_insert_eq.
Qed.
Lemma prepared_quiet r w : on r w -> pr_phase r = prepared ->
  qwp (do_prepared sha256_hex float_json o root src dst hex intent deadline) (Some r) qpost w.
Proof.
  intros Hon Hp. destruct (on_shape _ _ Hon) as [Hk Hsh]. rewrite Hp in Hsh. destruct Hsh as (Hs & Hd & Ho & Ht).
  unfold do_prepared. qread. apply (advance_quiet r); [done..|by rewrite Hp|]. split_and!; auto.
Qed.
Lemma publishing_quiet r w : on r w -> pr_phase r = publishing ->
  qwp (do_publishing sha256_hex float_json o root src dst hex intent deadline s) (Some r) qpost w.
Proof.
  intros Hon Hp. destruct (on_shape _ _ Hon) as [Hk Hsh]. rewrite Hp in Hsh. destruct Hsh as (Hs & Hd & Ho & Ht).
  unfold do_publishing. do 3 qread.
  apply pwp_bind, (pwp_mono _ _ _ _ (fun r' m w => match r' with
    | Ok _ => m = Some r /\ on r w | Raise _ => True end)).
  - intros [[]|x] m w1; [|done]. intros (-> & H1). destruct (on_shape _ _ H1) as [_ Hsh].
    rewrite Hp in Hsh. destruct Hsh as (Hs1 & _ & Ho1 & Ht1). do 2 qread. qrequire Hd1. qread.
    apply (advance_quiet r); [done..|by rewrite Hp|]. by split_and!.
  - apply pwp_catch, q_do.
    + intros x. destruct x; try done. eapply pwp_mono; [|apply q_require].
      by intros [[]|x] m w' (-> & -> & _).
    + intros w' Ha. cbn [apply_effect] in Ha. rewrite Ho in Ha. case_bool_decide as Hx; [done|]. injection Ha as <-.
      match goal with |- alone _ ?w2 /\ _ => assert (H2 : on r w2) end; [|by split; [eapply on_alone|]].
      apply on_names; [done|]. rewrite Hp. keys. rewrite Hs, Ho, Ht. cbn. auto.
Qed.
Lemma activated_quiet r w : on r w -> pr_phase r = activated ->
  qwp (do_activated sha256_hex o root src dst hex intent s) (Some r) qpost w.
Proof.
  intros Hon Hp. destruct (on_shape _ _ Hon) as [Hk Hsh]. rewrite Hp in Hsh. destruct Hsh as (Hs & Hd & Ho & Ht).
  unfold do_activated. do 2 qread. apply (advance_quiet r); [done..|by rewrite Hp|]. split_and!; auto.
Qed.

Lemma unchanged_same s1 s2 w : unchanged s1 w -> unchanged s2 w -> sp_inode s1 = sp_inode s2 -> s1 = s2.
Proof.
  intros (f & Hf & _ & E1) (f' & Hf' & _ & E2) Hi. rewrite Hi, Hf' in Hf. injection Hf as <-.
  rewrite Hi in E1. congruence.
Qed.
Lemma q_receipt r w :
  qwp (placement_receipt_of sha256_hex float_json o root src dst intent deadline s) (Some r)
    (fun x m' w' => m' = Some r /\ w' = w /\ forall t, x = Ok t -> pt_receipt_id t <> "") w.
Proof.
  unfold placement_receipt_of.
  change (qwp (_ ← seam sha256_hex float_json o root src dst intent deadline;
    vault ← (if String.eqb (strip (ow_target_binding_id o)) "" then ask h_vault_name
             else mret (strip (ow_target_binding_id o)));
    let mutation := mkWriteReceipt (in_operation intent) vault (normalize_resource_ref (in_destination intent))
      "knowledge.placement" (Some (in_request_id intent)) false (Some (ow_actor o)) "written" in
    token ← _token sha256_hex float_json o r;
    uuid ← ask h_uuid;
    now ← ask h_now;
    authority ← plift (record_authority_receipt (Some token)
      (Some (mkMutation (wr_operation mutation) (wr_path mutation) (wr_adapter mutation) (wr_trace_id mutation)
               (wr_fallback_used mutation)))
      "knowledge" "applied" (Some (in_request_id intent)) (Some (in_source intent)) (Some (in_request_id intent))
      uuid now);
    mret (mkPlacementReceipt (ar_receipt_id authority) (in_artifact_id intent) (in_source intent)
          (in_destination intent) (in_expected_source_generation intent)
          (_digest sha256_hex (PDict (snapshot_dict s))) mutation (pr_grant r) authority
          ["locator"; "store"; "index"; "link"])) (Some r)
    (fun x m' w' => m' = Some r /\ w' = w /\ forall t, x = Ok t -> pt_receipt_id t <> "") w).
  do 5 (apply q_read_bind; [solve_preads|by intros|intros ?]).
  match goal with |- qwp (plift ?x ≫= _) _ _ _ => destruct x as [authority|e] eqn:Ea end; [|by cbn].
  cbn. split_and!; [done..|]. intros t [= <-]. cbn. unfold record_authority_receipt in Ea.
  repeat case_match; by simplify_eq.
Qed.
Lemma own_committed r t : own_record r -> pt_receipt_id t <> "" -> own_record (with_phase committed (with_receipt t r)).
Proof.
  intros (Hi & Hd & Hb & Ht & Hg & Hcl) Hid. split_and!; [done| |done..]. unfold document_ok in *.
  cbn [with_phase with_receipt pr_intent pr_intent_digest pr_snapshot pr_phase pr_receipt].
  rewrite !andb_true_iff in *. destruct Hd as [[[? ?] ?] _]. split_and!; [done..|].
  rewrite bool_decide_true by done. apply negb_true_iff. by apply String.eqb_neq.
Qed.
Lemma retiring_quiet r w : on r w -> pr_phase r = retiring ->
  qwp (do_retiring sha256_hex float_json o root src dst hex intent deadline s) (Some r) qpost w.
Proof.
  intros Hon Hp. destruct (on_shape _ _ Hon) as [Hk Hsh]. rewrite Hp in Hsh. destruct Hsh as (Hd & Ho & Hst).
  assert (Hcl : pr_cleanup_complete r = false).
  { destruct (proj1 (proj1 (proj2 Hon))) as (_ & _ & _ & _ & _ & Hx). destruct (pr_cleanup_complete r); [|done].
    specialize (Hx eq_refl). congruence. }
  unfold do_retiring. qread. apply pwp_bind. eapply pwp_mono; [|apply q_entry].
  intros [e|e] m w' (-> & -> & He); [|done].
  apply pwp_bind, (pwp_mono _ _ _ _ (fun r' m w => match r' with
    | Ok _ => m = Some r /\ on r w /\ fs_names w !! (TxnDir hex, "retired") = Some (sp_inode s)
    | Raise _ => True end)).
  - intros [[]|x] m w1; [|done]. intros (-> & H1 & Ht1). destruct (on_shape _ _ H1) as [_ Hsh].
    rewrite Hp in Hsh. destruct Hsh as (Hd1 & Ho1 & Hst1). do 2 qread.
    apply pwp_bind. eapply pwp_mono; [|apply q_entry]. intros [e1|e1] m w' (-> & -> & He1); [|done].
    assert (E : e1 = Some s).
    { destruct e1 as [s1|]; [|congruence]. destruct He1 as [Hi1 Hu1]. f_equal.
      destruct H1 as (_ & (_ & Hu & _) & _ & Hs). rewrite Hs in Hu. eapply unchanged_same; eauto. congruence. }
    rewrite bool_decide_false by (by intros []). apply pwp_bind, pwp_ret. qread.
    apply pwp_guard_bind; [done|intros _]. qread.
    apply pwp_bind. eapply pwp_mono; [|apply q_receipt].
    intros [t|x] m w' (-> & -> & Hid); [|done]. specialize (Hid t eq_refl).
    change (qwp (save o root hex (with_phase committed (with_receipt t r))) (Some (with_receipt t r)) qpost w1).
    apply (save_quiet r); [done|apply own_committed; [apply H1|done]|done..|].
    cbn. rewrite Hcl. split_and!; [done| |auto..]. destruct Hst1 as [[_ ?]|[? _]]; [congruence|done].
  - destruct e as [e|].
    + destruct He as [He _]. apply pwp_ret. split_and!; [done..|]. destruct Hst as [[_ ?]|[_ ?]]; congruence.
    + destruct Hst as [[Hs Ht]|[_ ?]]; [|congruence]. do 2 qread. apply q_do; [done|]. intros w' Ha.
      cbn [apply_effect] in Ha. fold sname in Ha. rewrite Hs, Ht in Ha. rewrite bool_decide_false in Ha by (by intros []).
      injection Ha as <-.
      match goal with |- alone _ ?w2 /\ _ => assert (H2 : on r w2) end.
      { apply on_names; [done|]. rewrite Hp. keys. rewrite Hd, Ho. cbn. auto. }
      split; [by eapply on_alone|]. split_and!; [done..|]. cbn. apply lookup_insert_eq.
Qed.

Lemma cleanup_leaf_quiet r leaf w : on r w -> pr_phase r = committed -> pr_cleanup_complete r = false ->
  leaf = "original" \/ leaf = "retired" ->
  qwp (cleanup_leaf sha256_hex float_json o root src dst hex intent deadline s leaf) (Some r)
    (fun x m w' => match x with
       | Ok _ => m = Some r /\ on r w' /\ fs_names w' !! (TxnDir hex, leaf) = None
                 /\ forall l, fs_names w !! (TxnDir hex, l) = None -> fs_names w' !! (TxnDir hex, l) = None
       | Raise _ => True
       end) w.
Proof.
  intros Hon Hp Hcl Hleaf. destruct (on_shape _ _ Hon) as [Hk Hsh]. rewrite Hp, Hcl in Hsh.
  destruct Hsh as (Hd & Hs & Ho & Ht). unfold cleanup_leaf.
  apply pwp_bind. eapply pwp_mono; [|apply q_entry]. intros [[e|]|e] m w' (-> & -> & He); [|by apply pwp_ret|done].
  apply pwp_guard_bind; [done|intros _]. qread. apply q_do; [done|]. intros w' Ha. cbn [apply_effect] in Ha.
  destruct He as [He _]. rewrite He in Ha. injection Ha as <-.
  match goal with |- alone _ ?w2 /\ _ => assert (H2 : on r w2) end.
  { apply on_names; [done|]. rewrite Hp, Hcl. destruct Hleaf as [-> | ->]; keys; rewrite Hd, Hs; cbn; auto. }
  split; [by eapply on_alone|]. split_and!; [done..| |]; cbn.
  - apply lookup_delete_eq.
  - intros l Hl. rewrite lookup_delete. by case_decide.
Qed.
Lemma cleanup_quiet r w : on r w -> pr_phase r = committed -> pr_cleanup_complete r = false ->
  qwp (do_cleanup sha256_hex float_json o root src dst hex intent deadline s) (Some r) qpost w.
Proof.
  intros Hon Hp Hcl. unfold do_cleanup. qread. apply pwp_guard_bind; [done|intros _].
  apply pwp_bind, (pwp_mono _ _ _ _ (fun x m w' => match x with
    | Ok _ => m = Some r /\ on r w' /\ fs_names w' !! (TxnDir hex, "original") = None
              /\ fs_names w' !! (TxnDir hex, "retired") = None
    | Raise _ => True end)).
  - intros [[]|x] m w1; [|done]. intros (-> & H1 & Ho & Ht). qread. destruct (on_shape _ _ H1) as [_ Hsh].
    rewrite Hp, Hcl in Hsh. destruct Hsh as (Hd & Hs & _).
    change (qwp (save o root hex (with_cleanup r)) (Some r) qpost w1).
    apply (save_quiet r); [done| |done..|].
    { destruct (proj1 (proj1 (proj2 H1))) as (? & ? & ? & ? & ? & ?). by split_and!. }
    cbn. rewrite Hp. by split_and!.
  - cbn [pforeach]. apply pwp_bind. eapply pwp_mono; [|by apply cleanup_leaf_quiet; auto].
    intros [[]|x] m w1; [|done]. intros (-> & H1 & Ho & _).
    apply pwp_bind. eapply pwp_mono; [|by apply cleanup_leaf_quiet; auto].
    intros [[]|x] m w2; [|done]. intros (-> & H2 & Ht & Hl). apply pwp_ret. split_and!; auto.
Qed.
End Advance.

(** ** Whole attempts *)

Lemma q_seam root src dst r deadline m w :
  qwp (_seam sha256_hex float_json o root src dst r intent deadline) m
    (fun x m' w' => m' = m /\ w' = w /\ (x = Ok tt -> pr_parents r = (src, dst))) w.
Proof.
  unfold _seam. do 4 (apply q_read_bind; [solve_preads|by intros|intros ?]).
  apply pwp_guard_bind; [by split_and!|]. intros [H1 H2]%orb_false_iff.
  apply bool_decide_eq_false, dec_stable in H1, H2.
  apply (pwp_reads _ _ alone_refl _ _ (fun w' => w' = w)); [solve_preads|done..|].
  intros x w' ->. split_and!; [done..|]. congruence.
Qed.
Lemma in_phase_quiet src dst s phase body m w (f : unit -> pl unit) :
  (exists r, m = Some r /\ on src dst s r w) ->
  (forall r w, on src dst s r w -> pr_phase r = phase -> qwp body (Some r) (qpost src dst s) w) ->
  (forall m w, (exists r, m = Some r /\ on src dst s r w) -> qwp (f tt) m (qpost src dst s) w) ->
  qwp (in_phase phase body ≫= f) m (qpost src dst s) w.
Proof.
  intros (r & -> & Ha) Hb Hf. apply pwp_bind, (pwp_mono _ _ _ _ (qpost src dst s)).
  { intros [[]|x] m' w'; [apply Hf|done]. }
  change (qwp (if bool_decide (pr_phase r = phase) then body else mret tt) (Some r) (qpost src dst s) w).
  case_bool_decide; [auto|]. apply pwp_ret. by exists r.
Qed.
Definition advanced (r : PlacementRecord) (x : res unit) (m : option PlacementRecord) (w : pl_world) : Prop :=
  match x with
  | Ok _ => exists r', m = Some r' /\ durable r' w /\ pr_snapshot r' = pr_snapshot r /\ pr_parents r' = pr_parents r
  | Raise _ => True
  end.
Lemma advance_all_quiet root src dst deadline r w : durable r w ->
  qwp (_advance sha256_hex float_json o root src dst hex intent deadline) (Some r) (advanced r) w.
Proof.
  intros [Hr Hpr]. unfold _advance.
  change (qwp (_ ← _seam sha256_hex float_json o root src dst r intent deadline;
    _ ← in_phase reserved (do_reserved sha256_hex float_json o root src dst hex intent deadline (pr_snapshot r));
    _ ← in_phase prepared (do_prepared sha256_hex float_json o root src dst hex intent deadline);
    _ ← in_phase publishing (do_publishing sha256_hex float_json o root src dst hex intent deadline (pr_snapshot r));
    _ ← in_phase activated (do_activated sha256_hex o root src dst hex intent (pr_snapshot r));
    _ ← in_phase retiring (do_retiring sha256_hex float_json o root src dst hex intent deadline (pr_snapshot r));
    r0 ← the_record;
    if bool_decide (pr_phase r0 = committed) && negb (pr_cleanup_complete r0)
    then do_cleanup sha256_hex float_json o root src dst hex intent deadline (pr_snapshot r) else mret tt)
    (Some r) (advanced r) w).
  apply pwp_bind. eapply pwp_mono; [|apply q_seam]. intros [[]|x] m w' (-> & -> & Hp); [specialize (Hp eq_refl)|done].
  apply (pwp_mono _ _ _ _ (qpost src dst (pr_snapshot r))).
  { intros [[]|x] m w'; [|done]. intros (r' & -> & (Hr' & Hp' & Hpa & Hsn)). exists r'. split_and!; [done..|]. congruence. }
  apply in_phase_quiet; [by exists r|intros r1 wx Hon1 ?; by apply reserved_quiet|intros ? ? ?].
  apply in_phase_quiet; [done|intros r1 wx Hon1 ?; by apply prepared_quiet|intros ? ? ?].
  apply in_phase_quiet; [done|intros r1 wx Hon1 ?; by apply publishing_quiet|intros ? ? ?].
  apply in_phase_quiet; [done|intros r1 wx Hon1 ?; by apply activated_quiet|intros ? ? ?].
  apply in_phase_quiet; [done|intros r1 wx Hon1 ?; by apply retiring_quiet|intros m' w' (r1 & -> & H')].
  change (qwp (if bool_decide (pr_phase r1 = committed) && negb (pr_cleanup_complete r1)
    then do_cleanup sha256_hex float_json o root src dst hex intent deadline (pr_snapshot r) else mret tt)
    (Some r1) (qpost src dst (pr_snapshot r)) w').
  case_bool_decide; [|apply pwp_ret; by exists r1].
  destruct (pr_cleanup_complete r1) eqn:?; [apply pwp_ret; by exists r1|]. by apply cleanup_quiet.
Qed.

(** Probes leave names outside the scratch directory, records and files. *)
Definition same (w w' : pl_world) : Prop :=
  fs_records w' = fs_records w
  /\ (forall d n, d <> StateDir -> fs_names w' !! (d, n) = fs_names w !! (d, n))
  /\ forall i f, fs_files w !! i = Some f -> fs_files w' !! i = Some f.
Lemma scratch_same e w w' : scratch e -> apply_effect e w = Ok w' -> same w w'.
Proof.
  intros He Ha. destruct e as [d n|d n d' n'|d n d' n'|d n|]; [| | | |done]; cbn [apply_effect] in Ha;
    [|destruct He as [He He']..|]; repeat case_match; simplify_eq;
    (split_and!; [done| |]); cbn [fs_names fs_files fs_records]; try done;
    try (intros d0 n0 Hne; rewrite ?lookup_insert_ne, ?lookup_delete_ne by congruence; done).
  intros i f Hf. rewrite lookup_insert_ne; [done|]. intros <-.
  eapply (infinite_is_fresh (map (fun kv => snd (fst kv)) (map_to_list (fs_files w)))).
  apply list_elem_of_In, in_map_iff. eexists (_, f). split; [|by apply list_elem_of_In, elem_of_map_to_list]. done.
Qed.
Lemma same_trans w1 w2 w3 : same w1 w2 -> same w2 w3 -> same w1 w3.
Proof.
  intros (H1 & H2 & H3) (H4 & H5 & H6). split_and!; [congruence| |auto]. intros d n Hd. rewrite H5 by done. auto.
Qed.
Lemma same_progress r w w' : same w w' -> progress_at r w -> progress_at r w'.
Proof.
  intros (Hr & Hn & Hf) (Ho & (f & Hu1 & Hu2) & Hk & Hsh). split_and!; [done| |done|].
  - exists f. auto.
  - unfold source_key, destination_key in *. by rewrite !Hn.
Qed.
Lemma same_alone w w' : same w w' -> alone w w'.
Proof.
  intros Hs. pose proof Hs as (Hr & Hn & Hf). unfold alone, consistent. rewrite Hr, !Hn by done.
  repeat case_match; try done. by apply same_progress.
Qed.
Lemma scratch_alone e w w' : scratch e -> apply_effect e w = Ok w' -> alone w w'.
Proof. intros He Ha. by eapply same_alone, scratch_same. Qed.
Lemma q_qualify m w : qwp (_qualify o) m (fun r m' w' => m' = m /\ same w w') w.
Proof.
  apply (leaves_qualify eq alone alone_refl scratch_alone o m (same w)); [|done].
  split; [done|]. intros e w1 w2 He Ha _ Hs. eapply same_trans; [done|by eapply scratch_same].
Qed.
Lemma same_durable r w w' : same w w' -> durable r w -> durable r w'.
Proof. intros Hs [Hr Hp]. split; [by destruct Hs as [-> _]|by eapply same_progress]. Qed.

Lemma transact_quiet root source destination deadline r w : durable r w ->
  qwp (transact sha256_hex float_json o root hex intent source destination deadline) (Some r)
    (fun x m w' => match x with
       | Ok result => exists r', result = _result r' /\ durable r' w' /\ pr_snapshot r' = pr_snapshot r
                                 /\ pr_parents r' = pr_parents r
       | Raise _ => True
       end) w.
Proof.
  intros Hd. unfold transact. apply pwp_bind. eapply pwp_mono; [|apply q_qualify].
  intros [[]|x] m w1 [-> Hs]; [|done]. apply (same_durable _ _ _ Hs) in Hd.
  apply q_read_bind; [solve_preads|done|intros [src dst]]. apply q_read_bind; [solve_preads|done|intros _].
  apply pwp_bind. eapply pwp_mono; [|by apply advance_all_quiet].
  intros [[]|x] m w2; [|done]. intros (r' & -> & Hd' & Hs' & Hp'). by exists r'.
Qed.

Lemma effect_window_token m w :
  qwp (_effect_window sha256_hex o intent) m
    (fun x m' w' => m' = m /\ w' = w /\ forall g, x = Ok g -> token_ok (gg_decision_token g)) w.
Proof.
  unfold _effect_window. do 5 (apply q_read_bind; [solve_preads|by intros|intros ?]).
  match goal with |- qwp (plift (bind_context ?g _ _) ≫= _) _ _ _ => set (grant := g) end.
  destruct (bind_context grant (ow_active_context o) (ow_target_binding_id o)) as [bound|e] eqn:Eb; [|by cbn].
  change (qwp (r0 ← context_bound_write_window sha256_hex o (gg_decision_token bound) (_grant_binding o intent);
    _ ← pguard (negb (String.eqb r0 (ow_root o))) InvalidDecisionTokenError; mret bound) m
    (fun x m' w' => m' = m /\ w' = w /\ forall g, x = Ok g -> token_ok (gg_decision_token g)) w).
  apply pwp_bind. unfold context_bound_write_window.
  do 3 (apply q_read_bind; [solve_preads|by intros|intros ?]).
  destruct (validate_context (gg_decision_token bound) (ow_active_context o) (ow_target_binding_id o)) as [[]|e] eqn:Ev; [|by cbn].
  assert (Ht : token_ok (gg_decision_token bound)).
  { destruct (bind_context_ok _ _ _ _ Eb) as (_ & _ & Hc & Htg). split_and!; [done..| |done].
    apply validate_iff. unfold bind_context in Eb. destruct (require_effect_capable _); [|done]. cbn in Eb.
    case_match; [done|]. injection Eb as <-. cbn. split_and!; try done. apply normalize_idem. }
  match goal with |- qwp (plift (Ok tt) ≫= ?f) ?m ?Q w => change (qwp (f tt) m Q w); cbv beta end.
  apply (pwp_reads _ _ alone_refl _ _ (fun w' => w' = w)); [solve_preads|done..|].
  intros [x|e] w' ->; [|by split_and!]. apply pwp_guard_bind; [by split_and!|intros _]. apply pwp_ret.
  split_and!; [done..|]. by intros g [= <-].
Qed.
Lemma q_path v m w :
  qwp (_path o v) m (fun x m' w' => m' = m /\ w' = w /\ forall p, x = Ok p -> p = path_parts v) w.
Proof.
  unfold _path. apply pwp_guard_bind; [by split_and!|intros _].
  do 4 (apply q_read_bind; [solve_preads|by intros|intros ?]; apply pwp_guard_bind; [by split_and!|intros _]).
  apply pwp_ret. split_and!; [done..|]. by intros p [= <-].
Qed.

Section Attempt.
Context (complete : intent_complete intent = true).
Let source := path_parts (in_source intent).
Let destination := path_parts (in_destination intent).

Lemma preflight_quiet root grant m w :
  fs_records w !! name = None -> consistent w -> token_ok (gg_decision_token grant) ->
  qwp (preflight sha256_hex float_json o root grant intent source destination) m
    (fun x m' w' => m' = m /\ match x with Ok (inr r) => progress_at r w' | _ => True end) w.
Proof.
  intros Hn Hc Htok. unfold preflight. do 2 (apply q_read_bind; [solve_preads|by intros|intros ?]).
  case_match; [by apply pwp_ret|]. apply pwp_bind. eapply pwp_mono; [|apply q_qualify].
  intros [[]|x] m1 w1 [-> Hs]; [|done]. assert (Hc1 : consistent w1) by (by eapply same_alone).
  assert (Hn1 : fs_records w1 !! name = None) by (by destruct Hs as [-> _]).
  unfold consistent in Hc1. rewrite Hn1 in Hc1. destruct Hc1 as [Ho Ht].
  apply q_read_bind; [solve_preads|by intros|intros [src dst]].
  apply pwp_bind. eapply pwp_mono; [|apply q_entry]. intros [[snap|]|x] m2 w2 (-> & -> & He); [|by apply pwp_ret|done].
  destruct He as [Hsrc Hu]. destruct (String.eqb_spec (_digest sha256_hex (PDict (snapshot_dict snap))) (in_expected_source_generation intent)) as [Hg|];
    cbn [negb]; [|by apply pwp_ret].
  apply pwp_bind. unfold _absent_generation. apply pwp_bind. eapply pwp_mono; [|apply q_stat].
  intros [found|x] m2 w2 (-> & -> & Hf); [|done]. apply pwp_guard_bind; [done|]. intros ->. specialize (Hf eq_refl).
  apply pwp_ret.
  match goal with |- qwp (if negb (String.eqb ?a ?b) then _ else _) _ _ _ => destruct (String.eqb_spec a b) as [Hdg|];
    cbn [negb]; [|by apply pwp_ret] end.
  apply q_read_bind; [solve_preads|by intros|intros ?].
  apply q_read_bind; [unfold one_link; solve_preads|by intros|intros ?].
  apply q_read_bind; [solve_preads|by intros|intros [raw checked]].
  apply pwp_guard_bind; [done|intros _]. apply q_read_bind; [solve_preads|by intros|intros ?].
  apply pwp_ret. split; [done|]. split_and!; cbn [pr_intent pr_phase pr_snapshot pr_parents pr_cleanup_complete].
  - split_and!; [done| |done..]. unfold document_ok. cbn [pr_intent pr_intent_digest pr_snapshot pr_phase pr_receipt].
    rewrite String.eqb_refl, complete, <- Hg, String.eqb_refl. by rewrite bool_decide_false.
  - done.
  - unfold source_key, destination_key. cbn. intros E.
    change (fs_names w1 !! (PublicDir src, sname) = Some (sp_inode snap)) in Hsrc.
    change (fs_names w1 !! (PublicDir dst, dname) = None) in Hf. rewrite E in Hsrc. congruence.
  - unfold source_key, destination_key. cbn [fst snd pr_parents]. split_and!; auto.
Qed.

Lemma q_load m w :
  qwp (_load sha256_hex name) m
    (fun x m' w' => m' = m /\ w' = w /\
       match x with
       | Ok (Some r) => fs_records w !! name = Some (Doc r)
       | Ok None => fs_records w !! name = None
       | Raise _ => True
       end) w.
Proof.
  unfold _load. apply pwp_bind, pwp_catch, pwp_bind, pwp_read; [done..|].
  intros w1 t <-. destruct t as [h|e]; cbn [do_call perform fst]; [|destruct e; done].
  destruct (fs_records w !! name) as [v|] eqn:E; cbn [found]; [|by apply pwp_ret].
  apply pwp_ret. destruct v as [| | |r]; try done. destruct (document_ok sha256_hex r); done.
Qed.
Lemma consistent_durable r w : consistent w -> fs_records w !! name = Some (Doc r) -> durable r w.
Proof. unfold consistent. intros Hc Hr. split; [done|]. by rewrite Hr in Hc. Qed.
Lemma locked_quiet root grant recover deadline w :
  consistent w -> token_ok (gg_decision_token grant) ->
  qwp (locked_section sha256_hex float_json o root grant intent source destination recover deadline) None
    (fun _ _ _ => True) w.
Proof.
  intros Hc Ht. unfold locked_section. fold hex. fold name. apply q_read_bind; [solve_preads|done|intros _].
  apply pwp_bind. eapply pwp_mono; [|apply q_load]. intros [[r|]|x] m w1 (-> & -> & Hr); [| |done].
  - apply pwp_set_bind. case_match; [by apply pwp_ret|]. case_match; [by apply pwp_ret|].
    apply q_read_bind; [solve_preads|done|intros _].
    eapply pwp_mono; [|by apply transact_quiet, consistent_durable]. done.
  - case_match; [by apply pwp_ret|]. apply q_read_bind; [solve_preads|done|intros _].
    apply pwp_bind. eapply pwp_mono; [|by apply preflight_quiet].
    intros [[early|r]|x] m w1 [-> Hp]; [by apply pwp_ret| |done].
    change (qwp (_ ← save o root hex r; transact sha256_hex float_json o root hex intent source destination deadline)
      None (fun _ _ _ => True) w1).
    apply pwp_bind. eapply pwp_mono; [|by apply save_durable]. intros [[]|x] m w2; [|done]. intros [-> Hd].
    eapply pwp_mono; [|by apply transact_quiet]. done.
Qed.
Lemma place_quiet recover deadline w :
  consistent w ->
  wp (H:=host) eq alone (place_artifact sha256_hex float_json o intent recover deadline) (fun _ _ => True) w.
Proof.
  intros Hc. unfold place_artifact. apply wp_bind. apply (wp_mono _ _ _ (fun rm _ => True)); [by intros [r m]|].
  change (qwp (place_body sha256_hex float_json o intent recover deadline) None (fun _ _ _ => True) w).
  unfold place_body. apply q_read_bind; [solve_preads|done|intros _].
  case_match; [by apply pwp_ret|]. case_match; [by apply pwp_ret|].
  apply pwp_bind. eapply pwp_mono; [|apply q_path]. intros [p|x] m w1 (-> & -> & Hp); [|done].
  rewrite (Hp p eq_refl). apply pwp_bind. eapply pwp_mono; [|apply q_path]. intros [p'|x] m w1 (-> & -> & Hp'); [|done].
  rewrite (Hp' p' eq_refl). case_match; [by apply pwp_ret|]. case_match; [by apply pwp_ret|].
  apply pwp_bind. eapply pwp_mono; [|apply effect_window_token]. intros [grant|x] m w1 (-> & -> & Ht); [|done].
  apply q_read_bind; [solve_preads|done|intros root]. apply locked_quiet; auto.
Qed.
End Attempt.

(** ** Attempts of one request, alone *)

Definition this_request (p : prog (H:=host) (R:=evidence) PlacementResult) : Prop :=
  exists recover deadline, p = place_artifact sha256_hex float_json o intent recover deadline.
(** Failing and abandoned attempts of this request, and nobody else. *)
Definition attempted := sys_step this_request eq.
Definition untouched (w : pl_world) : Prop :=
  fs_records w !! name = None /\ fs_names w !! (TxnDir hex, "original") = None
  /\ fs_names w !! (TxnDir hex, "retired") = None.

Lemma attempted_consistent w s :
  intent_complete intent = true -> untouched w -> rtc attempted (mkSystem w None) s -> consistent (s_world s).
Proof.
  intros Hi (Hr & Ho & Ht) Hs.
  assert (Hok : sys_ok (H:=host) eq alone consistent (fun (_ : PlacementResult) _ => True) s); [|apply Hok].
  eapply (reachable_ok this_request); [..|exact Hs].
  - by intros ??? -> ->.
  - done.
  - by intros ?? ->.
  - by intros w1 w2.
  - done.
  - intros p w1 (recover & deadline & ->). by apply place_quiet.
  - split; [|done]. cbn. unfold consistent. by rewrite Hr.
Qed.

(** ** Recovery *)

Section Recovery.
Context (h : host) (root src dst : inode) (deadline : option spec_float) (listing : list string).
Context (grant : GovernedWriteGrant) (uuid : string).

(** The checks at the seams pass: the context, the authority and the two
    parent directories are what they were, and the clock and the filesystem
    answer. *)
Record admits : Prop := mkAdmits {
  ad_context : passes h (_context o) tt;
  ad_unexpired : passes h (_unexpired o) tt;
  ad_source : passes h (_path o (in_source intent)) (path_parts (in_source intent));
  ad_destination : passes h (_path o (in_destination intent)) (path_parts (in_destination intent));
  ad_window : passes h (_effect_window sha256_hex o intent) grant;
  ad_locked : passes h (_locked o) root;
  ad_live : passes h (_live o root) tt;
  ad_authority : passes h (_authority o intent) tt;
  ad_deadline : passes h (deadline_check deadline) tt;
  ad_src : passes h (_canonical_directory root (path_parent (path_parts (in_source intent)))) src;
  ad_dst : passes h (_canonical_directory root (path_parent (path_parts (in_destination intent)))) dst;
  ad_devices : fst src = fst dst /\ fst dst = fst root;
  ad_listing : h_listdir h src = Ok listing;
  ad_private : passes h (_private_directory (TxnDir hex)) (TxnDir hex);
  ad_platform : h_platform_supported h = Ok true;
  ad_filesystem : ow_filesystem o = Some "local-posix-v1";
  ad_uuid : h_uuid h = Ok uuid;
  ad_now : is_ok (h_now h) = true;
  ad_vault : is_ok (h_vault_name h) = true }.
Context (Had : admits) (complete : intent_complete intent = true).

(** The directory lists the source name unless it is gone. *)
Definition leaf_ok (w : pl_world) : Prop := sname ∈ listing \/ fs_names w !! (PublicDir src, sname) = None.

Lemma run_io m w : runs h (io : pl unit) m w tt m w.
Proof. done. Qed.
Lemma run_open {A} d leaf (f : inode -> A) m w :
  runs h (not_found_as None (i ← sys (OpenRead d leaf); mret (Some (f i)))) m w (f <$> fs_names w !! (d, leaf)) m w.
Proof.
  unfold runs, not_found_as, pcatch, mbind, proc_bind. cbn. by destruct (fs_names w !! (d, leaf)).
Qed.
Lemma run_read i (m : option PlacementRecord) (w : pl_world) f : fs_files w !! i = Some f -> runs h (sys (ReadFile i)) m w f m w.
Proof. unfold runs. cbn. by intros ->. Qed.
Lemma run_snapshot i m w f : fs_files w !! i = Some f -> fi_regular f = true ->
  runs h (_snapshot sha256_hex i) m w (fi_raw f, snap_of i f) m w.
Proof.
  intros Hf Hr. unfold _snapshot. eapply runs_bind; [by apply run_read|]. eapply runs_bind; [apply runs_guard; by rewrite Hr|].
  eapply runs_bind; [by apply run_read|]. apply runs_ret.
Qed.
Lemma run_entry_note d leaf m w s :
  fs_names w !! (d, leaf) = Some (sp_inode s) -> unchanged s w -> runs h (_entry sha256_hex d leaf) m w (Some s) m w.
Proof.
  intros Hn (f & Hf & Hreg & Hs). unfold _entry. eapply runs_bind; [apply (run_open _ _ (fun i => i))|]. rewrite Hn. cbn.
  eapply runs_bind; [by apply run_snapshot|]. rewrite <- Hs at 2. apply runs_ret.
Qed.
Lemma run_entry_none d leaf m w : fs_names w !! (d, leaf) = None -> runs h (_entry sha256_hex d leaf) m w None m w.
Proof.
  intros Hn. unfold _entry. eapply runs_bind; [apply (run_open _ _ (fun i => i))|]. rewrite Hn. apply runs_ret.
Qed.
Lemma run_require d leaf m w s :
  fs_names w !! (d, leaf) = Some (sp_inode s) -> unchanged s w -> runs h (require sha256_hex s d leaf) m w tt m w.
Proof.
  intros Hn Hu. unfold require. eapply runs_bind; [by apply run_entry_note|]. apply runs_guard.
  apply bool_decide_false. auto.
Qed.
Lemma run_stat d leaf m w :
  runs h (stat_exists d leaf) m w (bool_decide (is_Some (fs_names w !! (d, leaf)))) m w.
Proof.
  unfold runs, stat_exists, not_found_as, pcatch, mbind, proc_bind. cbn.
  by destruct (fs_names w !! (d, leaf)) as [i|].
Qed.
Lemma run_parents m w : leaf_ok w ->
  runs h (_parents root (path_parts (in_source intent)) (path_parts (in_destination intent))) m w (src, dst) m w.
Proof.
  intros Hl. destruct Had. unfold _parents. eapply runs_bind; [apply ad_src0|]. eapply runs_bind; [apply ad_dst0|].
  eapply runs_bind.
  { unfold _canonical_leaf. eapply runs_bind; [apply runs_ask, ad_listing0|]. fold sname.
    destruct (existsb (String.eqb sname) listing) eqn:El; [apply runs_ret|].
    eapply runs_bind; [apply run_stat|]. apply runs_guard. destruct Hl as [Hl%existsb_eqb_In|Hl]; [congruence|].
    rewrite Hl. apply bool_decide_false. by intros []. }
  eapply runs_bind; [|apply runs_ret]. apply runs_guard. destruct ad_devices0 as [-> ->]. by rewrite !Z.eqb_refl.
Qed.
Lemma run_token r m w : own_record r ->
  runs h (_token sha256_hex float_json o r) m w (gg_decision_token (pr_grant r)) m w.
Proof.
  intros (_ & _ & _ & (Ht & Hc & _ & Hv) & _). unfold _token. destruct (gg_decision_token (pr_grant r)) as [] eqn:Eg.
  cbn in *. subst. destruct Had. eapply runs_bind.
  { apply runs_guard. rewrite bool_decide_false by auto. by rewrite String.eqb_refl. }
  eapply runs_bind; [by apply runs_lift|]. eapply runs_bind; [apply ad_unexpired0|]. apply runs_ret.
Qed.
Lemma run_seam r w : own_record r -> pr_parents r = (src, dst) -> leaf_ok w ->
  runs h (seam sha256_hex float_json o root src dst intent deadline) (Some r) w tt (Some r) w.
Proof.
  intros Ho Hp Hl. unfold seam. eapply runs_bind; [by apply (runs_ret h r)|]. unfold _seam. pose proof Had as [].
  eapply runs_bind; [apply ad_live0|]. eapply runs_bind; [apply ad_source0|]. eapply runs_bind; [apply ad_destination0|].
  eapply runs_bind; [by apply run_parents|]. eapply runs_bind.
  { apply runs_guard. by rewrite Hp, !bool_decide_false by auto. }
  eapply runs_bind; [apply ad_authority0|]. eapply runs_bind; [by apply run_token|].
  eapply runs_bind; [apply runs_lift; by destruct Ho as (_ & _ & _ & (_ & _ & Hv & _) & _)|].
  eapply runs_bind; [apply ad_unexpired0|]. apply ad_deadline0.
Qed.
Lemma run_save r m w :
  runs h (save o root hex r) m w tt (Some r)
    (mkFs (fs_names w) (fs_files w) (<[name := Doc r]> (fs_records w)) (fs_log w ++ [ReplaceRecord name (Doc r)])).
Proof.
  unfold save. pose proof Had as []. eapply runs_bind; [done|]. unfold _store. eapply runs_bind; [apply ad_live0|].
  eapply runs_bind; [by apply runs_ask|]. do 2 (eapply runs_bind; [apply run_io|]).
  eapply runs_bind; [by apply runs_do|]. apply run_io.
Qed.
Lemma run_advance p r w :
  runs h (advance o root hex p) (Some r) w tt (Some (with_phase p r))
    (mkFs (fs_names w) (fs_files w) (<[name := Doc (with_phase p r)]> (fs_records w))
       (fs_log w ++ [ReplaceRecord name (Doc (with_phase p r))])).
Proof. unfold advance. eapply runs_bind; [by apply (runs_ret h r)|]. apply run_save. Qed.

Section Note.
Context (s : snapshot).
Abbreviation on := (on src dst s).

Lemma on_facts r w : on r w -> own_record r /\ pr_parents r = (src, dst) /\ unchanged s w.
Proof. intros (_ & (Ho & Hu & _) & Hp & Hs). rewrite Hs in Hu. done. Qed.
(** A part that runs to its end leaves the record it was proved to leave. *)
Lemma runs_on body r w r' w' :
  qwp body (Some r) (qpost src dst s) w -> runs h body (Some r) w tt (Some r') w' -> on r' w'.
Proof. intros Hq Hr. by destruct (runs_pwp _ _ _ _ _ _ _ _ _ Hq Hr) as (rec & [= <-] & ?). Qed.
Lemma unchanged_names ns rs l w : unchanged s w -> unchanged s (mkFs ns (fs_files w) rs l).
Proof. done. Qed.

Ltac step tac := eapply runs_bind; [tac|].
Ltac io_step := eapply runs_bind; [apply run_io|].

Lemma go_reserved r w : on r w -> pr_phase r = reserved -> leaf_ok w ->
  exists r' w', runs h (do_reserved sha256_hex float_json o root src dst hex intent deadline s) (Some r) w tt (Some r') w'
    /\ pr_phase r' = prepared /\ on r' w' /\ leaf_ok w'.
Proof.
  intros Hon Hp Hl. destruct (on_facts _ _ Hon) as (Ho & Hpa & Hu). destruct (on_shape _ _ _ _ _ Hon) as [Hk Hsh].
  rewrite Hp in Hsh. destruct Hsh as (Hs & Hd & Hor & Ht).
  assert (Hin : sname ∈ listing) by (by destruct Hl; [|congruence]).
  assert (Hrun : exists w', runs h (do_reserved sha256_hex float_json o root src dst hex intent deadline s) (Some r) w tt
    (Some (with_phase prepared r)) w').
  2:{ destruct Hrun as [w' Hrun]. exists (with_phase prepared r), w'. split_and!; [done..| |by left].
      eapply runs_on; [by apply reserved_quiet|done]. }
  assert (Hw : exists original w1, runs h (_entry sha256_hex (TxnDir hex) "original") (Some r) w original (Some r) w
    /\ runs h match original with
      | None => _ ← seam sha256_hex float_json o root src dst intent deadline;
                sys (Do (Link (PublicDir src) sname (TxnDir hex) "original"))
      | Some _ => mret tt
      end (Some r) w tt (Some r) w1
    /\ fs_names w1 !! (TxnDir hex, "original") = Some (sp_inode s) /\ fs_files w1 = fs_files w
    /\ fs_names w1 !! (PublicDir src, sname) = Some (sp_inode s)).
  { destruct Hor as [Hor|Hor].
    - eexists None, _. split; [by apply run_entry_none|]. split.
      + step ltac:(by apply run_seam). apply runs_do. cbn. rewrite Hs, Hor.
        by rewrite bool_decide_false by (by intros []).
      + cbn. rewrite lookup_insert_eq, lookup_insert_ne by done. done.
    - exists (Some s), w. split; [by apply run_entry_note|]. by split_and!. }
  destruct Hw as (original & w1 & He & Hw1 & Ho1 & Hf1 & Hs1).
  assert (Hu1 : unchanged s w1) by (unfold unchanged; by rewrite Hf1).
  eexists. unfold do_reserved. step ltac:(by apply run_require).
  eapply runs_bind.
  { unfold _absent_generation. step ltac:(apply run_stat). fold dname. rewrite Hd. step ltac:(by apply runs_guard).
    apply runs_ret. }
  eapply runs_bind.
  { apply runs_guard. destruct Ho as (_ & _ & _ & _ & Hg & _). rewrite Hpa in Hg.
    unfold absent_digest in Hg. cbn [snd] in Hg. rewrite Hg. by rewrite String.eqb_refl. }
  step ltac:(exact He). step ltac:(exact Hw1). step ltac:(by apply run_require). step ltac:(by apply run_require).
  eapply runs_bind; [unfold runs; cbn; rewrite Ho1; done|]. do 2 io_step. apply run_advance.
Qed.
Lemma go_prepared r w : on r w -> pr_phase r = prepared -> leaf_ok w ->
  exists r' w', runs h (do_prepared sha256_hex float_json o root src dst hex intent deadline) (Some r) w tt (Some r') w'
    /\ pr_phase r' = publishing /\ on r' w' /\ leaf_ok w'.
Proof.
  intros Hon Hp Hl. destruct (on_facts _ _ Hon) as (Ho & Hpa & Hu).
  assert (Hrun : exists w', runs h (do_prepared sha256_hex float_json o root src dst hex intent deadline) (Some r) w tt
    (Some (with_phase publishing r)) w' /\ leaf_ok w').
  { eexists. split; [unfold do_prepared; step ltac:(by apply run_seam); apply run_advance|done]. }
  destruct Hrun as (w' & Hrun & Hl'). exists (with_phase publishing r), w'. split_and!; [done..| |done].
  eapply runs_on; [by apply prepared_quiet|done].
Qed.
Lemma go_publishing r w : on r w -> pr_phase r = publishing -> leaf_ok w ->
  exists r' w', runs h (do_publishing sha256_hex float_json o root src dst hex intent deadline s) (Some r) w tt (Some r') w'
    /\ pr_phase r' = activated /\ on r' w' /\ leaf_ok w'.
Proof.
  intros Hon Hp Hl. destruct (on_facts _ _ Hon) as (Ho & Hpa & Hu). destruct (on_shape _ _ _ _ _ Hon) as [Hk Hsh].
  rewrite Hp in Hsh. destruct Hsh as (Hs & Hd & Hor & Ht).
  assert (Hin : sname ∈ listing) by (by destruct Hl; [|congruence]).
  assert (Hrun : exists w', runs h (do_publishing sha256_hex float_json o root src dst hex intent deadline s) (Some r) w tt
    (Some (with_phase activated r)) w').
  2:{ destruct Hrun as [w' Hrun]. exists (with_phase activated r), w'. split_and!; [done..| |by left].
      eapply runs_on; [by apply publishing_quiet|done]. }
  assert (Hw : exists w1, runs h (pcatch (sys (Do (Link (TxnDir hex) "original" (PublicDir dst) dname)))
        (fun e => match e with
                  | FileExistsError => require sha256_hex s (PublicDir dst) dname
                  | e => praise e
                  end)) (Some r) w tt (Some r) w1
    /\ fs_names w1 !! (PublicDir dst, dname) = Some (sp_inode s) /\ fs_files w1 = fs_files w
    /\ fs_names w1 !! (PublicDir src, sname) = Some (sp_inode s)).
  { destruct Hd as [Hd|Hd].
    - eexists. split; [unfold runs, pcatch; cbn; rewrite Hor, Hd; by rewrite bool_decide_false by (by intros [])|].
      cbn. by rewrite lookup_insert_eq, lookup_insert_ne by done.
    - exists w. split_and!; [|done..]. unfold runs, pcatch. rewrite exec_bind. cbn. rewrite Hor, Hd.
      rewrite bool_decide_true by done. by apply run_require. }
  destruct Hw as (w1 & Hw1 & Hd1 & Hf1 & Hs1). assert (Hu1 : unchanged s w1) by (unfold unchanged; by rewrite Hf1).
  eexists. unfold do_publishing. do 2 (step ltac:(by apply run_require)). step ltac:(by apply run_seam).
  step ltac:(exact Hw1). io_step. do 2 (step ltac:(by apply run_require)).
  step ltac:(apply run_seam; [done..|by left]). apply run_advance.
Qed.
Lemma go_activated r w : on r w -> pr_phase r = activated -> leaf_ok w ->
  exists r' w', runs h (do_activated sha256_hex o root src dst hex intent s) (Some r) w tt (Some r') w'
    /\ pr_phase r' = retiring /\ on r' w' /\ leaf_ok w'.
Proof.
  intros Hon Hp Hl. destruct (on_facts _ _ Hon) as (Ho & Hpa & Hu). destruct (on_shape _ _ _ _ _ Hon) as [Hk Hsh].
  rewrite Hp in Hsh. destruct Hsh as (Hs & Hd & Hor & Ht).
  assert (Hrun : exists w', runs h (do_activated sha256_hex o root src dst hex intent s) (Some r) w tt
    (Some (with_phase retiring r)) w' /\ leaf_ok w').
  { eexists. split; [unfold do_activated; do 2 (step ltac:(by apply run_require)); apply run_advance|done]. }
  destruct Hrun as (w' & Hrun & Hl'). exists (with_phase retiring r), w'. split_and!; [done..| |done].
  eapply runs_on; [by apply activated_quiet|done].
Qed.
Lemma run_receipt r w : own_record r -> pr_parents r = (src, dst) -> leaf_ok w ->
  exists t, runs h (placement_receipt_of sha256_hex float_json o root src dst intent deadline s) (Some r) w t (Some r) w.
Proof.
  intros Ho Hpa Hl. pose proof Had as []. destruct (h_now h) as [now|] eqn:En; [|done].
  destruct (h_vault_name h) as [vault|] eqn:Ev; [|done].
  assert (Hv : exists v, runs h (if String.eqb (strip (ow_target_binding_id o)) "" then ask h_vault_name
    else mret (strip (ow_target_binding_id o)) : pl string) (Some r) w v (Some r) w).
  { case_match; [exists vault; by apply runs_ask|]. eexists. apply runs_ret. }
  destruct Hv as [v Hv]. pose proof Ho as (_ & _ & _ & (_ & _ & Hval & _) & _). apply validate_iff in Hval.
  destruct Hval as (Hvalid & _ & _ & _ & Hres). cbn [_grant_binding ef_resource] in Hres.
  unfold placement_receipt_of. eexists.
  step ltac:(by apply (runs_ret h r)). step ltac:(by apply run_seam). step ltac:(exact Hv).
  step ltac:(by apply run_token). step ltac:(by apply runs_ask). step ltac:(by apply runs_ask).
  eapply runs_bind; [|apply runs_ret]. apply runs_lift. unfold record_authority_receipt. rewrite Hvalid. cbn [negb].
  assert (Hb : blank (Some (in_source intent)) = false).
  { unfold intent_complete in complete. cbn in complete. cbn. bool_prop. by apply String.eqb_neq. }
  rewrite Hb. cbn [default]. rewrite Hres, String.eqb_refl. reflexivity.
Qed.
Lemma go_retiring r w : on r w -> pr_phase r = retiring -> leaf_ok w ->
  exists r' w', runs h (do_retiring sha256_hex float_json o root src dst hex intent deadline s) (Some r) w tt (Some r') w'
    /\ pr_phase r' = committed /\ on r' w' /\ leaf_ok w'.
Proof.
  intros Hon Hp Hl. destruct (on_facts _ _ Hon) as (Ho & Hpa & Hu). destruct (on_shape _ _ _ _ _ Hon) as [Hk Hsh].
  rewrite Hp in Hsh. destruct Hsh as (Hd & Hor & Hst).
  assert (Hw : exists retired w1, runs h (_entry sha256_hex (TxnDir hex) "retired") (Some r) w retired (Some r) w
    /\ runs h match retired with
      | None => _ ← require sha256_hex s (PublicDir src) sname;
                _ ← seam sha256_hex float_json o root src dst intent deadline;
                sys (Do (RenameNoReplace (PublicDir src) sname (TxnDir hex) "retired"))
      | Some _ => mret tt
      end (Some r) w tt (Some r) w1
    /\ fs_names w1 !! (TxnDir hex, "retired") = Some (sp_inode s) /\ fs_files w1 = fs_files w
    /\ fs_names w1 !! (PublicDir src, sname) = None /\ fs_names w1 !! (PublicDir dst, dname) = Some (sp_inode s)).
  { destruct Hst as [[Hs Ht]|[Hs Ht]].
    - eexists None, _. split; [by apply run_entry_none|]. split.
      + step ltac:(by apply run_require). step ltac:(by apply run_seam). apply runs_do. cbn. rewrite Hs, Ht.
        by rewrite bool_decide_false by (by intros []).
      + cbn. rewrite lookup_insert_eq, !lookup_insert_ne, lookup_delete_eq, lookup_delete_ne by done. done.
    - exists (Some s), w. split; [by apply run_entry_note|]. by split_and!. }
  destruct Hw as (retired & w1 & He & Hw1 & Ht1 & Hf1 & Hs1 & Hd1).
  assert (Hu1 : unchanged s w1) by (unfold unchanged; by rewrite Hf1).
  assert (Hl1 : leaf_ok w1) by by right.
  destruct (run_receipt r w1 Ho Hpa Hl1) as [t Hrec].
  assert (Hrun : exists w', runs h (do_retiring sha256_hex float_json o root src dst hex intent deadline s) (Some r) w tt
    (Some (with_phase committed (with_receipt t r))) w' /\ leaf_ok w').
  { eexists. split.
    - unfold do_retiring. step ltac:(by apply run_require). step ltac:(exact He). step ltac:(exact Hw1). do 2 io_step.
      step ltac:(by apply run_entry_note). eapply runs_bind.
      { rewrite bool_decide_false by auto. apply runs_ret. }
      step ltac:(by apply run_entry_none). step ltac:(apply runs_guard; apply bool_decide_false; by intros []).
      step ltac:(by apply run_require). step ltac:(exact Hrec). step ltac:(by apply (runs_ret h r)).
      eapply runs_bind; [done|]. apply run_advance.
    - by right. }
  destruct Hrun as (w' & Hrun & Hl'). eexists _, w'. split; [exact Hrun|]. split_and!; [done| |done].
  eapply runs_on; [by apply retiring_quiet|done].
Qed.
Lemma go_cleanup r w : on r w -> pr_phase r = committed -> pr_cleanup_complete r = false -> leaf_ok w ->
  exists w', runs h (do_cleanup sha256_hex float_json o root src dst hex intent deadline s) (Some r) w tt
    (Some (with_cleanup r)) w'.
Proof.
  intros Hon Hp Hcl Hl. destruct (on_facts _ _ Hon) as (Ho & Hpa & Hu). destruct (on_shape _ _ _ _ _ Hon) as [Hk Hsh].
  rewrite Hp, Hcl in Hsh. destruct Hsh as (Hd & Hs & Hor & Ht).
  assert (Hleaf : forall leaf w1, fs_files w1 = fs_files w -> leaf_ok w1 ->
    (fs_names w1 !! (TxnDir hex, leaf) = None \/ fs_names w1 !! (TxnDir hex, leaf) = Some (sp_inode s)) ->
    exists w2, runs h (cleanup_leaf sha256_hex float_json o root src dst hex intent deadline s leaf) (Some r) w1 tt (Some r) w2
      /\ fs_files w2 = fs_files w /\ forall d n, (d, n) <> (TxnDir hex, leaf) -> fs_names w2 !! (d, n) = fs_names w1 !! (d, n)).
  { intros leaf w1 Hf1 Hl1 [Hn|Hn].
    - exists w1. split_and!; [|done..]. unfold cleanup_leaf. step ltac:(by apply run_entry_none). apply runs_ret.
    - eexists. split.
      + unfold cleanup_leaf. step ltac:(apply run_entry_note; [done|unfold unchanged; by rewrite Hf1]).
        step ltac:(apply runs_guard; apply bool_decide_false; auto). step ltac:(by apply run_seam).
        apply runs_do. cbn. by rewrite Hn.
      + cbn. split; [done|]. intros d n Hne. by rewrite lookup_delete_ne by congruence. }
  destruct (Hleaf "original" w eq_refl Hl Hor) as (w1 & Hr1 & Hf1 & Hn1).
  destruct (Hleaf "retired" w1 Hf1) as (w2 & Hr2 & Hf2 & Hn2).
  { right. by rewrite Hn1 by congruence. }
  { by rewrite Hn1 by congruence. }
  eexists. unfold do_cleanup. step ltac:(by apply run_entry_note).
  step ltac:(apply runs_guard; apply bool_decide_false; auto).
  eapply runs_bind; [cbn [pforeach]; step ltac:(exact Hr1); step ltac:(exact Hr2); apply runs_ret|].
  io_step. step ltac:(by apply (runs_ret h r)). apply run_save.
Qed.
Lemma go_in_phase phase next body :
  (forall r w, on r w -> pr_phase r = phase -> leaf_ok w -> exists r' w',
     runs h body (Some r) w tt (Some r') w' /\ pr_phase r' = next /\ on r' w' /\ leaf_ok w') ->
  forall r w, on r w -> leaf_ok w -> exists r' w', runs h (in_phase phase body) (Some r) w tt (Some r') w'
    /\ pr_phase r' = (if decide (pr_phase r = phase) then next else pr_phase r) /\ on r' w' /\ leaf_ok w'.
Proof.
  intros Hb r w Hon Hl. destruct (decide (pr_phase r = phase)) as [Hp|Hp].
  - destruct (Hb r w Hon Hp Hl) as (r' & w' & Hr & Hx). exists r', w'. split; [|done].
    unfold in_phase. eapply runs_bind; [by apply (runs_ret h r)|]. by rewrite bool_decide_true.
  - exists r, w. split; [|done]. unfold in_phase. eapply runs_bind; [by apply (runs_ret h r)|].
    by rewrite bool_decide_false.
Qed.
Lemma go_advance r w : on r w -> leaf_ok w ->
  exists r' w', runs h (_advance sha256_hex float_json o root src dst hex intent deadline) (Some r) w tt (Some r') w'
    /\ pr_phase r' = committed /\ pr_cleanup_complete r' = true.
Proof.
  intros Hon Hl. destruct (on_facts _ _ Hon) as (Ho & Hpa & _).
  assert (Hs : pr_snapshot r = s) by (by destruct Hon as (_ & _ & _ & Hs)).
  destruct (go_in_phase _ _ _ go_reserved r w Hon Hl) as (r1 & w1 & R1 & P1 & O1 & L1).
  destruct (go_in_phase _ _ _ go_prepared r1 w1 O1 L1) as (r2 & w2 & R2 & P2 & O2 & L2).
  destruct (go_in_phase _ _ _ go_publishing r2 w2 O2 L2) as (r3 & w3 & R3 & P3 & O3 & L3).
  destruct (go_in_phase _ _ _ go_activated r3 w3 O3 L3) as (r4 & w4 & R4 & P4 & O4 & L4).
  destruct (go_in_phase _ _ _ go_retiring r4 w4 O4 L4) as (r5 & w5 & R5 & P5 & O5 & L5).
  assert (P : pr_phase r5 = committed).
  { rewrite P5, P4, P3, P2, P1. by destruct (pr_phase r). }
  assert (Hend : exists r' w', runs h (if bool_decide (pr_phase r5 = committed) && negb (pr_cleanup_complete r5)
      then do_cleanup sha256_hex float_json o root src dst hex intent deadline s else mret tt) (Some r5) w5 tt (Some r') w'
    /\ pr_phase r' = committed /\ pr_cleanup_complete r' = true).
  { rewrite bool_decide_true by done. destruct (pr_cleanup_complete r5) eqn:Hcl; cbn [andb negb].
    - exists r5, w5. split_and!; [apply runs_ret|done..].
    - destruct (go_cleanup r5 w5 O5 P Hcl L5) as [w6 R6]. by exists (with_cleanup r5), w6. }
  destruct Hend as (r' & w' & R6 & P' & C'). exists r', w'. split; [|done]. unfold _advance.
  step ltac:(by apply (runs_ret h r)). rewrite Hs. step ltac:(by apply run_seam).
  step ltac:(exact R1). step ltac:(exact R2). step ltac:(exact R3). step ltac:(exact R4). step ltac:(exact R5).
  step ltac:(by apply (runs_ret h r5)). exact R6.
Qed.
End Note.

(** No leftover of an earlier probe has the name of this one. *)
Definition probes_free (w : pl_world) : Prop :=
  Forall (fun x => fs_names w !! (StateDir, ".probe-" +:+ uuid +:+ x) = None) ["a"; "b"; "c"].
Definition is_taken (w : pl_world) (n : string) : Prop := is_Some (fs_names w !! (StateDir, n)).
Definition elsewhere (n n' : string) (w w' : pl_world) : Prop :=
  forall x, x <> n -> x <> n' -> fs_names w' !! (StateDir, x) = fs_names w !! (StateDir, x).
Lemma do_create n m w : ~ is_taken w n ->
  exists w', runs h (sys (Do (CreateExcl StateDir n)) : pl unit) m w tt m w' /\ is_taken w' n /\ elsewhere n n w w'.
Proof.
  intros Hn. eexists. split; [apply runs_do; cbn; by rewrite bool_decide_false|]. unfold is_taken, elsewhere. cbn.
  rewrite lookup_insert_eq. split; [done|]. intros x Hx _. by rewrite lookup_insert_ne by congruence.
Qed.
Lemma do_rename n n' m w : is_taken w n -> ~ is_taken w n' ->
  exists w', runs h (sys (Do (RenameNoReplace StateDir n StateDir n')) : pl unit) m w tt m w'
    /\ ~ is_taken w' n /\ is_taken w' n' /\ elsewhere n n' w w'.
Proof.
  intros [i Hn] Hn'. eexists. split; [apply runs_do; cbn; rewrite Hn; by rewrite bool_decide_false|].
  assert (n <> n') by (intros <-; destruct Hn'; by exists i).
  unfold is_taken, elsewhere. cbn. rewrite lookup_insert_eq, lookup_insert_ne, lookup_delete_eq by congruence.
  split_and!; [by intros []|done|]. intros x Hx Hx'. by rewrite lookup_insert_ne, lookup_delete_ne by congruence.
Qed.
Lemma do_link n n' m w : is_taken w n -> ~ is_taken w n' ->
  exists w', runs h (sys (Do (Link StateDir n StateDir n')) : pl unit) m w tt m w' /\ is_taken w' n' /\ elsewhere n' n' w w'.
Proof.
  intros [i Hn] Hn'. eexists. split; [apply runs_do; cbn; rewrite Hn; by rewrite bool_decide_false|].
  unfold is_taken, elsewhere. cbn. rewrite lookup_insert_eq. split; [done|].
  intros x Hx _. by rewrite lookup_insert_ne by congruence.
Qed.
Lemma do_unlink n m w : is_taken w n ->
  exists w', runs h (not_found_as tt (sys (Do (Unlink StateDir n)))) m w tt m w' /\ elsewhere n n w w'.
Proof.
  intros [i Hn]. eexists. split; [apply runs_catch_ok, runs_do; cbn; by rewrite Hn|].
  unfold elsewhere. cbn. intros x Hx _. by rewrite lookup_delete_ne by congruence.
Qed.
Lemma rename_refused n n' m w : is_taken w n -> is_taken w n' ->
  runs h (pcatch (_ ← sys (Do (RenameNoReplace StateDir n StateDir n')); mret true)
    (fun e => match e with FileExistsError => mret false | e => praise e end) : pl bool) m w false m w.
Proof.
  intros [i Hn] Hn'. unfold runs, pcatch, mbind, proc_bind. rewrite exec_bind. cbn. rewrite Hn.
  by rewrite bool_decide_true.
Qed.
Lemma go_qualify m w : probes_free w -> exists w', runs h (_qualify o) m w tt m w'.
Proof.
  intros Hf. unfold probes_free in Hf. rewrite !Forall_cons in Hf. destruct Hf as (Ha & Hb & Hc & _). pose proof Had as [].
  unfold _qualify.
  assert (Hab : ".probe-" +:+ uuid +:+ "a" <> ".probe-" +:+ uuid +:+ "b") by (intros E; by do 2 apply append_inj in E).
  assert (Hac : ".probe-" +:+ uuid +:+ "a" <> ".probe-" +:+ uuid +:+ "c") by (intros E; by do 2 apply append_inj in E).
  assert (Hbc : ".probe-" +:+ uuid +:+ "b" <> ".probe-" +:+ uuid +:+ "c") by (intros E; by do 2 apply append_inj in E).
  set (a := ".probe-" +:+ uuid +:+ "a") in *. set (b := ".probe-" +:+ uuid +:+ "b") in *.
  set (c := ".probe-" +:+ uuid +:+ "c") in *.
  assert (Na : ~ is_taken w a) by (unfold is_taken; rewrite Ha; by intros []).
  destruct (do_create a m w Na) as (w1 & R1 & T1 & E1).
  destruct (do_create b m w1) as (w2 & R2 & T2 & E2). { unfold is_taken. rewrite E1, Hb by auto. by intros []. }
  assert (T2a : is_taken w2 a) by (unfold is_taken; by rewrite E2 by auto).
  destruct (do_rename a c m w2) as (w3 & R3 & N3 & T3 & E3); [done| |].
  { unfold is_taken. rewrite E2, E1, Hc by auto. by intros []. }
  destruct (do_link c a m w3) as (w4 & R4 & T4 & E4); [done..|].
  destruct (do_unlink a m w4) as (w5 & R5 & E5); [done|].
  destruct (do_unlink b m w5) as (w6 & R6 & E6).
  { unfold is_taken. rewrite E5, E4, E3 by auto. done. }
  destruct (do_unlink c m w6) as (w7 & R7 & E7).
  { unfold is_taken. rewrite E6, E5, E4 by auto. done. }
  exists w7. eapply runs_bind; [by apply runs_ask|]. rewrite ad_filesystem0.
  eapply runs_bind; [by apply runs_guard|]. eapply runs_bind; [by apply runs_ask|]. cbv zeta. fold a b c.
  eapply runs_finally.
  - cbn [pforeach]. eapply runs_bind.
    { eapply runs_bind; [eapply runs_bind; [exact R1|apply run_io]|].
      eapply runs_bind; [eapply runs_bind; [exact R2|apply run_io]|]. apply runs_ret. }
    eapply runs_bind; [by apply rename_refused|]. eapply runs_bind; [by apply runs_guard|].
    eapply runs_bind; [exact R3|]. eapply runs_bind; [exact R4|]. apply run_io.
  - cbn [pforeach]. eapply runs_bind; [|apply run_io]. eapply runs_bind; [exact R5|].
    eapply runs_bind; [exact R6|]. eapply runs_bind; [exact R7|]. apply runs_ret.
Qed.

(** The checks of [place_artifact] that read nothing. *)
Definition well_posed : bool :=
  (String.eqb (in_operation intent) "artifact.move" || String.eqb (in_operation intent) "artifact.rename")
  && String.eqb (in_context_ref intent) (ow_context_ref o)
  && String.eqb (in_vault_generation intent) (ow_vault_generation o)
  && bool_decide (path_parts (in_source intent) <> path_parts (in_destination intent))
  && (negb (String.eqb (in_operation intent) "artifact.rename")
      || bool_decide (path_parent (path_parts (in_source intent)) = path_parent (path_parts (in_destination intent)))).

(** The end of a placement: the note under its new name only. *)
Definition placed (r : PlacementRecord) (w : pl_world) : Prop :=
  unchanged (pr_snapshot r) w /\ fs_names w !! destination_key r = Some (sp_inode (pr_snapshot r))
  /\ fs_names w !! source_key r = None
  /\ fs_names w !! (TxnDir hex, "original") = None /\ fs_names w !! (TxnDir hex, "retired") = None.

Lemma run_load r m w : durable r w -> runs h (_load sha256_hex name) m w (Some r) m w.
Proof.
  intros [Hr (Ho & _)]. unfold _load. eapply runs_bind.
  { apply runs_catch_ok. eapply runs_bind; [unfold runs; cbn; rewrite Hr; done|apply runs_ret]. }
  destruct Ho as (_ & Hd & _). rewrite Hd. apply runs_ret.
Qed.
Lemma go_transact r w : durable r w -> pr_parents r = (src, dst) -> leaf_ok w -> probes_free w ->
  exists r' w', runs h (transact sha256_hex float_json o root hex intent (path_parts (in_source intent))
      (path_parts (in_destination intent)) deadline) (Some r) w (_result r') (Some r') w'
    /\ ps_status (_result r') = "convergence_pending" /\ placed r w'.
Proof.
  intros Hd Hpa Hl Hf. destruct (go_qualify (Some r) w Hf) as [w1 R1].
  pose proof (runs_pwp _ _ _ _ _ _ _ _ _ (q_qualify (Some r) w) R1) as [_ Hs].
  assert (Hd1 : durable r w1) by (by eapply same_durable).
  assert (Hl1 : leaf_ok w1) by (unfold leaf_ok; destruct Hs as (_ & -> & _); done).
  assert (Hon : on src dst (pr_snapshot r) r w1) by (destruct Hd1; by split_and!).
  destruct (go_advance (pr_snapshot r) r w1 Hon Hl1) as (r' & w' & R2 & Hp' & Hc').
  pose proof (runs_pwp _ _ _ _ _ _ _ _ _ (advance_all_quiet root src dst deadline r w1 Hd1) R2)
    as (r2 & [= <-] & [Hr' (Ho' & Hu' & Hk' & Hsh')] & Hsn & Hpr).
  rewrite Hp', Hc', Hsn in Hsh'. unfold source_key, destination_key in Hsh'. rewrite Hpr in Hsh'. rewrite Hsn in Hu'.
  destruct Hsh' as (H1 & H2 & H3 & H4). exists r', w'. split_and!; [| |done..].
  - unfold transact. eapply runs_bind; [exact R1|]. eapply runs_bind; [by apply run_parents|]. pose proof Had as [].
    eapply runs_bind; [apply ad_private0|]. eapply runs_bind; [exact R2|].
    eapply runs_bind; [by apply (runs_ret h r')|]. apply runs_ret.
  - assert (Hrec : is_Some (pr_receipt r')).
    { destruct Ho' as (_ & Hdoc & _). unfold document_ok in Hdoc. rewrite !andb_true_iff in Hdoc.
      destruct Hdoc as [_ Hdoc]. rewrite Hp', bool_decide_true in Hdoc by done. by destruct (pr_receipt r'). }
    unfold _result. rewrite Hp', Hc', !bool_decide_true by done. done.
Qed.
Lemma go_place r w : well_posed = true -> durable r w -> pr_parents r = (src, dst) -> leaf_ok w -> probes_free w ->
  exists result w', exec h (place_artifact sha256_hex float_json o intent true deadline) w = (result, w')
    /\ ps_status result = "convergence_pending" /\ placed r w'.
Proof.
  intros Hw Hd Hpa Hl Hf. destruct (go_transact r w Hd Hpa Hl Hf) as (r' & w' & R & Hst & Hpl).
  exists (_result r'), w'. split; [|done]. unfold place_artifact. rewrite exec_bind.
  assert (Hrun : runs h (place_body sha256_hex float_json o intent true deadline) None w (_result r') (Some r') w');
    [|unfold runs in Hrun; by rewrite Hrun].
  pose proof Had as []. unfold well_posed in Hw. rewrite !andb_true_iff in Hw. destruct Hw as [[[[W1 W2] W3] W4] W5].
  pose proof complete as Hcomp. unfold intent_complete in Hcomp. cbn [forallb] in Hcomp. bool_prop.
  unfold place_body. eapply runs_bind; [apply ad_context0|]. rewrite W1.
  rewrite !(proj2 (String.eqb_neq _ _)) by done. cbn [negb orb]. rewrite W2, W3, !String.eqb_refl. cbn [negb andb].
  eapply runs_bind; [apply ad_source0|]. eapply runs_bind; [apply ad_destination0|].
  rewrite bool_decide_false by done.
  replace (String.eqb (in_operation intent) "artifact.rename" && _) with false.
  2:{ destruct (String.eqb (in_operation intent) "artifact.rename"); [|done]. cbn in W5 |- *. bool_prop.
      symmetry. apply bool_decide_false. auto. }
  eapply runs_bind; [apply ad_window0|]. eapply runs_bind; [apply ad_locked0|].
  unfold locked_section. eapply runs_bind; [apply ad_authority0|]. fold hex. fold name.
  eapply runs_bind; [by apply run_load|]. eapply runs_bind; [done|].
  destruct Hd as [_ ((Hin & Hdoc & Hb & _) & _)]. unfold document_ok in Hdoc. rewrite !andb_true_iff in Hdoc.
  destruct Hdoc as [[[Hdg _] _] _]. rewrite Hin in Hdg. rewrite Hdg, Hb, bool_decide_false by auto. cbn [negb orb].
  eapply runs_bind; [apply ad_deadline0|]. exact R.
Qed.
End Recovery.
End Quiet.

(** C7: Take any number of attempts at one request, each failing or stopping at
    any call, with nobody else touching the note.  If a record is left, then a
    recovery whose seam checks pass ends with a receipted placement: the note,
    unchanged, has its new name, its old name and both private links are gone. *)
Theorem placement_recovers sha256_hex float_json o intent w s r h root deadline listing grant uuid :
  intent_complete intent = true -> well_posed o intent = true -> untouched sha256_hex intent w ->
  rtc (attempted sha256_hex float_json o intent) (mkSystem w None) s ->
  record_of (s_world s) (sha256_hex (in_request_id intent)) r ->
  admits sha256_hex o intent h root (fst (pr_parents r)) (snd (pr_parents r)) deadline listing grant uuid ->
  leaf_ok intent (fst (pr_parents r)) listing (s_world s) -> probes_free uuid (s_world s) ->
  exists result w', exec h (place_artifact sha256_hex float_json o intent true deadline) (s_world s) = (result, w')
    /\ ps_status result = "convergence_pending" /\ placed sha256_hex intent r w'.
Proof.
  intros Hc Hw Hu Hs Hr Had Hl Hf. eapply go_place; try done; [|by destruct (pr_parents r)].
  eapply consistent_durable; [by eapply attempted_consistent|exact Hr].
Qed.
