(* ===== verification/PlacementOperations.v ===== *)
(** * Move and rename as kernel operations

    src/app/operations/placement_operations.py: the handler that turns an
    operation request into a placement intent and a placement's result into the
    kernel's owner result, with what it may claim about the source effect. *)
From Stdlib Require Import SpecFloat Ascii.
From S2P Require Import Prelude PyValue PyTime Sql Contracts ReceiptStore ExecutionKernel VaultRegistry ActiveContext ContextSelection Health HealthContract GovernedWrite Procs Placement PlacementProps PlacementRecovery.
Open Scope Z_scope.

Definition MOVE_OPERATION_ID : string := "artifact.move".
Definition RENAME_OPERATION_ID : string := "artifact.rename".

Record PlacementOperationServerConfig : Type := mkServerConfig {
  sc_owner : KnowledgePlacementOwner;
  sc_context : OperationContext;
  sc_artifact_id : string;
  sc_source : string }.

(** ** Documents *)

Definition policy_dict (p : GovernedWrite.PolicyDecision) : pydict :=
  [("decision_id", PStr (pd_decision_id p)); ("status", PStr (pd_status p)); ("action", PStr (pd_action p));
   ("write_class", PStr (pd_write_class p)); ("actor", PStr (pd_actor p)); ("resource", PStr (pd_resource p));
   ("reason", PStr (GovernedWrite.pd_reason p)); ("issued_at", PStr (pd_issued_at p)); ("source", PStr (pd_source p));
   ("contract_version", PStr (pd_contract_version p))].
Section Documents.
Context (float_json : spec_float -> pyval).
Definition token_dict (t : DecisionToken) : pydict :=
  [("token_id", PStr (dk_token_id t)); ("decision_id", PStr (dk_decision_id t)); ("action", PStr (dk_action t));
   ("write_class", PStr (dk_write_class t)); ("actor", PStr (dk_actor t)); ("resource", PStr (dk_resource t));
   ("issued_at", PStr (dk_issued_at t)); ("valid", PBool (dk_valid t));
   ("contract_version", PStr (dk_contract_version t));
   ("active_context", opt_json (fun c => PDict (context_dict float_json c)) (dk_active_context t));
   ("target_binding_id", opt_json PStr (dk_target_binding_id t))].
Definition authority_dict (a : AuthorityReceipt) : pydict :=
  [("receipt_id", PStr (ar_receipt_id a)); ("decision_token_id", PStr (ar_decision_token_id a));
   ("decision_id", PStr (ar_decision_id a)); ("action", PStr (ar_action a));
   ("write_class", PStr (ar_write_class a)); ("actor", PStr (ar_actor a)); ("resource", PStr (ar_resource a));
   ("outcome", PStr (ar_outcome a)); ("operation", PStr (ar_operation a)); ("adapter", PStr (ar_adapter a));
   ("state_owner", PStr (ar_state_owner a)); ("source_receipt_ref", PStr (ar_source_receipt_ref a));
   ("fallback_used", PBool (ar_fallback_used a)); ("recorded_at", PStr (ar_recorded_at a));
   ("trace_id", opt_json PStr (ar_trace_id a)); ("effect_id", opt_json PStr (ar_effect_id a));
   ("contract_version", PStr (ar_contract_version a));
   ("active_context", opt_json (fun c => PDict (context_dict float_json c)) (ar_active_context a));
   ("target_binding_id", opt_json PStr (ar_target_binding_id a))].
Definition write_receipt_dict (r : WriteReceipt) : pydict :=
  [("operation", PStr (wr_operation r));
   ("locator", PDict [("vault", PStr (wr_vault r)); ("path", PStr (wr_path r))]);
   ("adapter", PStr (wr_adapter r)); ("trace_id", opt_json PStr (wr_trace_id r));
   ("fallback_used", PBool (wr_fallback_used r)); ("note_class", PNone);
   ("writer_identity", opt_json PStr (wr_writer_identity r)); ("written_at", PNone);
   ("outcome", PStr (wr_outcome r)); ("conflict_artifact", PNone)].
Definition receipt_dict (t : placement_receipt) : pydict :=
  [("receipt_id", PStr (pt_receipt_id t)); ("artifact_id", PStr (pt_artifact_id t));
   ("source_locator", PStr (pt_source_locator t)); ("destination_locator", PStr (pt_destination_locator t));
   ("source_generation", PStr (pt_source_generation t));
   ("destination_generation", PStr (pt_destination_generation t));
   ("source_receipt", PDict (write_receipt_dict (pt_source_receipt t)));
   ("governed_write", PDict [("policy_decision", PDict (policy_dict (gg_policy_decision (pt_grant t))));
      ("decision_token", PDict (token_dict (gg_decision_token (pt_grant t))));
      ("authority_receipt", PDict (authority_dict (pt_authority_receipt t)))]);
   ("projection_repair", PList (map PStr (pt_projection_repair t)))].

(** ** The result *)

(** What is said of the source effect. *)
Definition source_effect (result : PlacementResult) (recover : bool) : SourceEffectStatus :=
  let source := if source_committed result then COMMITTED else NOT_APPLIED in
  let no_record := bool_decide (ps_record result = None) in
  let source := if String.eqb (ps_status result) "recovery_required" && no_record then UNKNOWN else source in
  let source := if recover && no_record && negb (String.eqb (ps_status result) "not_found") then UNKNOWN else source in
  if bool_decide (pr_phase <$> ps_record result = Some publishing) then UNKNOWN else source.
Definition _map (result : PlacementResult) (request : OperationRequest) (recover : bool) : res OwnerExecutionResult :=
  let source := source_effect result recover in
  let projection := if bool_decide (source = NOT_APPLIED) then NOT_REQUIRED else REBUILD_REQUIRED in
  let phase := opt_json (fun r => PStr (Phase_value (pr_phase r))) (ps_record result) in
  status ← OperationStatus_of (PStr (ps_status result));
  Ok (mkResult status []
    (match ps_reason result with Some r => if String.eqb r "" then [] else [r] | None => [] end)
    (match ps_record result with Some _ => PStr (rq_request_id request) | None => PNone end)
    (match ps_record result with
     | None => PNone
     | Some record =>
         match pr_receipt record with
         | Some t => PDict [("receipt_id", PStr (pt_receipt_id t)); ("placement", PDict (receipt_dict t))]
         | None => PDict [("placement", PDict
             [("recovery_ref", PStr (rq_request_id request)); ("phase", phase);
              ("source_locator", PStr (in_source (pr_intent record)));
              ("destination_locator", PStr (in_destination (pr_intent record)))])]
         end
     end)
    (Some (mkConvergence source projection projection projection
       [("owner", PStr "knowledge.placement"); ("phase", phase);
        ("locator_repair", PStr (if source_committed result then "source-backed replay"
                                 else if bool_decide (source = UNKNOWN)
                                      then "reconcile placement evidence before source-backed repair"
                                      else "not_required"))]))).

(** ** The handler *)

Definition context_same (a b : OperationContext) : bool :=
  String.eqb (ctx_active_context_ref a) (ctx_active_context_ref b)
  && py_eqb (ctx_vault_generation a) (ctx_vault_generation b)
  && py_eqb (PDict (ctx_extensions a)) (PDict (ctx_extensions b)).
Definition same_keys (d : pydict) (keys : list string) : bool :=
  forallb (fun k => dict_mem d k) keys && forallb (fun kv => existsb (String.eqb (fst kv)) keys) d.
(** [str(PurePosixPath(path).with_name(name))] for a name without separators. *)
Definition with_name (path name : string) : res string :=
  let parts := path_parts path in
  let anchor := if startswith "///" path then "/" else if startswith "//" path then "//"
                else if startswith "/" path then "/" else "" in
  if bool_decide (parts = []) then Raise (ValueError "has an empty name")
  else Ok (anchor +:+ join "/" (path_parent parts ++ [name])).

Context (sha256_hex : string -> string) (float_of : pyval -> option spec_float).

(** The [admission_deadline] argument: [float_of] reads an int or a float; a
    value of any other type is what [require_authority_deadline] refuses, as it
    refuses a float that is not finite. *)
Definition deadline_of (v : pyval) : option spec_float :=
  match v with
  | PNone => None
  | PInt _ | PFloat _ _ => Some (default S754_nan (float_of v))
  | _ => Some S754_nan
  end.

Definition refuse (status : OperationStatus) (reason : string) : OwnerExecutionResult :=
  mkResult status [] [reason] PNone PNone None.
(** The refusals, or the intent. *)
Definition admitted_intent (request : OperationRequest) (config : PlacementOperationServerConfig)
  : res (OwnerExecutionResult + PlacementIntent) :=
  let move := String.eqb (rq_operation_id request) MOVE_OPERATION_ID in
  let rename := String.eqb (rq_operation_id request) RENAME_OPERATION_ID in
  if negb (String.eqb (rq_operation_version request) "ygg.operation.v1")
     || negb (String.eqb (rq_mode request) "execute") || negb (move || rename)
  then Ok (inl (refuse NOT_SUPPORTED "placement supports only move/rename v1 execute"))
  else if negb (context_same (rq_context request) (sc_context config))
     || negb (String.eqb (ctx_active_context_ref (sc_context config)) (ow_context_ref (sc_owner config))
              && py_eqb (ctx_vault_generation (sc_context config)) (PStr (ow_vault_generation (sc_owner config))))
  then Ok (inl (refuse REJECTED "placement context differs from the immutable server binding"))
  else if negb (match rq_targets request with
                | [t] => py_eqb (PDict t) (PDict [("artifact_id", PStr (sc_artifact_id config))])
                | _ => false
                end) || String.eqb (sc_artifact_id config) ""
  then Ok (inl (refuse REJECTED "placement requires exactly the server-bound artifact"))
  else if match rq_provenance request with
          | Some p => negb (String.eqb (prov_actor p) (ow_actor (sc_owner config))) | None => false end
  then Ok (inl (refuse REJECTED "placement actor differs from the server principal"))
  else match rq_expected_version request with
  | PStr version =>
      if String.eqb version "" then Ok (inl (refuse CONFLICTED "expected source generation is required")) else
      let key := if move then "destination" else "name" in
      if negb (same_keys (rq_arguments request) [key; "destination_generation"])
         || negb (forallb (fun kv => is_nonempty_str (snd kv)) (rq_arguments request))
      then Ok (inl (refuse INVALID "placement requires a destination and its expected absent generation"))
      else
        let named := py_str (get (rq_arguments request) key) in
        if rename && (negb (String.eqb (path_name (path_parts named)) named) || has_char backslash named)
        then Ok (inl (refuse INVALID "rename accepts one portable filename"))
        else
          destination ← (if rename then with_name (sc_source config) named else Ok named);
          Ok (inr (mkIntent (rq_request_id request) (rq_operation_id request) (sc_artifact_id config)
            (sc_source config) destination version (py_str (get (rq_arguments request) "destination_generation"))
            (ctx_active_context_ref (sc_context config))
            (match ctx_vault_generation (sc_context config) with PStr g => g | _ => "" end)))
  | _ => Ok (inl (refuse CONFLICTED "expected source generation is required"))
  end.
Definition _execute (request : OperationRequest) (config : PlacementOperationServerConfig) (recover : bool)
  : prog (H:=host) (R:=evidence) (res OwnerExecutionResult) :=
  match admitted_intent request config with
  | Raise e => Done (Raise e)
  | Ok (inl refused) => Done (Ok refused)
  | Ok (inr intent) =>
      prog_bind (place_artifact sha256_hex float_json (sc_owner config) intent recover
                   (match rq_delegation request with
                    | None => None | Some d => deadline_of (get d "expires_at") end))
        (fun result => Done (_map result request recover))
  end.
Definition build_placement_operation_handlers (config : PlacementOperationServerConfig)
  : list (string * (OperationRequest -> prog (res OwnerExecutionResult))) :=
  map (fun operation => (operation, fun request => _execute request config false))
    [MOVE_OPERATION_ID; RENAME_OPERATION_ID].
Definition reconcile_placement_operation (request : OperationRequest) (config : PlacementOperationServerConfig)
  : prog (res OwnerExecutionResult) := _execute request config true.
End Documents.

(** ** What an answer may claim *)

Lemma admitted_request request config answer :
  admitted_intent request config = Ok answer ->
  match answer with
  | inl refused => or_convergence refused = None
  | inr intent => in_request_id intent = rq_request_id request
  end.
Proof.
  unfold admitted_intent. repeat (case_match; try (by intros [= <-]); try done);
    intros (? & _ & [= <-])%bind_ok; done.
Qed.
(** "Not applied" of a result with a record means an unpublished phase; of one
    without, that this attempt published nothing. *)
Lemma not_applied_honest hex recover l result w :
  outcome_ok hex recover l result w -> source_effect result recover = NOT_APPLIED ->
  (forall e, e ∈ fs_log w -> publishes hex e -> e ∈ l)
  /\ (recover = true \/ is_Some (ps_record result) -> quiet_log hex w).
Proof.
  intros (Hrec & Hnone & Hnf) Hs. unfold source_effect in Hs.
  case_bool_decide as Hph; [done|]. destruct (ps_record result) as [r|] eqn:Er.
  - rewrite bool_decide_false, !andb_false_r in Hs by done. cbn in Hs. 
    assert (Hu : unpublished (pr_phase r) = true).
    { unfold source_committed in Hs. rewrite Er in Hs. cbn in Hph. destruct (pr_phase r); done. }
    specialize (Hrec r eq_refl Hu). split; [|done]. intros e Hin Hp. by destruct (Hrec e Hin).
  - split; [by apply Hnone|]. intros [-> |[? ?]]; [|done]. apply Hnf; [done|].
    rewrite bool_decide_true in Hs by done. cbn in Hs.
    by destruct (String.eqb_spec (ps_status result) "not_found").
Qed.

(** C9: When the handler or the reconciliation answers that the source effect
    was not applied, then this call gave the note no new name, whatever failed
    and whoever interfered; and if the answer names the effect, or answers a
    reconciliation, then no earlier call for this request did either. *)
Theorem not_applied_is_true sha256_hex float_json float_of w0 s l request config recover out c w :
  no_placement_yet w0 -> rtc (happens sha256_hex float_json) (mkSystem w0 None) s ->
  Forall (fun ot => forall w, others w (fst ot w)) l ->
  prefix l (_execute float_json sha256_hex float_of request config recover) (s_world s) = (Done (Ok out), w) ->
  or_convergence out = Some c -> conv_source_effect c = NOT_APPLIED ->
  let hex := sha256_hex (rq_request_id request) in
  (forall e, e ∈ fs_log w -> publishes hex e -> e ∈ fs_log (s_world s))
  /\ (recover = true \/ or_effect_id out <> PNone -> forall e, e ∈ fs_log w -> ~ publishes hex e).
Proof.
  intros Hw Hs Hl Hrun Hc Hna hex. pose proof (happens_safe _ _ _ _ Hw Hs) as [Hi _].
  unfold _execute in Hrun. destruct (admitted_intent request config) as [answer|] eqn:Ea.
  2:{ by destruct l as [|[]]. }
  apply admitted_request in Ea. destruct answer as [refused|intent].
  { assert (refused = out) as -> by (by destruct l as [|[]]; injection Hrun). congruence. }
  set (Q := fun (r : res OwnerExecutionResult) (w : pl_world) => forall out c, r = Ok out ->
    or_convergence out = Some c -> conv_source_effect c = NOT_APPLIED ->
    (forall e, e ∈ fs_log w -> publishes hex e -> e ∈ fs_log (s_world s))
    /\ (recover = true \/ or_effect_id out <> PNone -> quiet_log hex w)).
  assert (HQ : Q (Ok out) w); [|by eapply HQ]. eapply (wp_prefix Q); [exact Hl| |exact Hrun].
  apply wp_bind. eapply wp_mono; [|apply (place_ok _ _ _ intent recover _ (fs_records (s_world s)) (fs_log (s_world s)));
    by split_and!].
  clear -Ea. intros result w' Hok out c Hout Hc Hna. unfold _map in Hout.
  apply bind_ok in Hout as (status & _ & [= <-]). cbn in Hc. injection Hc as <-. cbn in Hna.
  rewrite Ea in Hok. destruct (not_applied_honest _ _ _ _ _ Hok Hna) as [H1 H2]. split; [done|]. cbn.
  intros [Hr|Hr]; apply H2; [by left|right]. by destruct (ps_record result).
Qed.

(** ** Runs *)

Module PlacementRun.
Definition sha (s : string) : string := s.
Definition fj (f : spec_float) : pyval := PNone.
Definition registry : RegistrySnapshot :=
  mkRegistry CURRENT_REGISTRY_SCHEMA REGISTRY_AUTHORITY_DORMANT 1 "inst" None
    [("b", mkRegistration "b" "vault" "/vault" None None None None [])] [] [] None [] None None.
Definition principal : PrincipalContext := mkPrincipal "op" "human" "trusted_loopback" 0.
Definition epoch : string := Eval vm_compute in
  match build_authorizer (fun _ => true) registry with
  | Ok a => bv_epoch (registry_authorize sha a (mkBindingRequest principal "b" "operation.artifact.move" "vault_placement" "write"))
  | Raise _ => ""
  end.
Definition ctx : ActiveContextSetV1 :=
  mkContext "ctx" 1 WorkspaceState_none "default" [] None principal
    "inst" [mkBinding "b" 1 epoch None None None] 1 "epoch" "session_selection" "healthy" None None
    "single-node" None ACTIVE_CONTEXT_SET_V1 None.
Definition owner : KnowledgePlacementOwner :=
  mkOwner "/vault" (1, 2) "ctx" "1" "op" ctx "b" (Some "local-posix-v1") [].
Definition quiet_snapshot : health_snapshot :=
  mkSnapshot "running" "recent activity" "" None None 0 None ("active", "")
    (mkReadiness "not_selected" true "" 0 0) "pass" "pass" None (mkDeadLetters None None) "unknown"
    true None None [] None.
Definition good : host :=
  mkHost (Ok (S754_zero false)) (Ok (utc (738000 * day_us))) (Ok "u") (Ok true) (Ok (1, 2)) (Ok true) (Ok true)
    (Ok tt) (Ok registry) (Ok registry) Ok (fun _ => true) (fun _ => Ok true) (Ok quiet_snapshot)
    (fun _ => Ok false) (fun _ => Ok false) (fun _ => Ok "/vault") (fun _ => Ok true) (fun _ _ => Ok false)
    (fun path _ => Ok (mkIdentity false true "human_note" (if String.eqb path "in/a.md" then "note-1" else "note-2")))
    (fun d => Ok (if decide (d = (1, 2)) then ["in"; "out"] else ["a.md"; "c.md"]))
    (fun _ n => Ok (if String.eqb n "in" then (1, 3) else (1, 4)))
    (fun _ => Ok true) (Ok true) (Ok true) (Ok true) (Ok true) (Ok [("b", "/vault")]) (Ok true) (Ok "vault").
Definition note : file := mkFile true 5 77 420 0 0 "hello".
Definition start : pl_world :=
  mkFs {[ (PublicDir (1, 3), "a.md") := (1, 9); (PublicDir (1, 3), "c.md") := (1, 8) ]}
    {[ (1, 9) := note; (1, 8) := note ]} ∅ [].
Definition run_gen {A} (p : pl A) : res A := fst (fst (exec good (p None) start)).
Definition sgen : string := Eval vm_compute in
  match run_gen (source_generation sha owner "in/a.md" "note-1") with Ok s => s | Raise e => "" end.
Definition dgen : string := Eval vm_compute in
  match run_gen (destination_generation sha owner "out/b.md") with Ok s => s | Raise e => "" end.
Definition intent : PlacementIntent :=
  mkIntent "req" "artifact.move" "note-1" "in/a.md" "out/b.md" sgen dgen "ctx" "1".

(** The first [k] calls are carried out, nobody interferes. *)
Definition calls (k : nat) : list ((pl_world -> pl_world) * tick) := replicate k (fun w => w, Reply good).
Definition stopped (k : nat) : system PlacementResult :=
  let '(p, w) := prefix (calls k) (place_artifact sha fj owner intent false None) start in mkSystem w (Some p).
Lemma calls_respect (Rl : pl_world -> pl_world -> Prop) k :
  (forall w, Rl w w) -> Forall (fun ot => forall w, Rl w (fst ot w)) (calls k).
Proof. intros HR. by apply Forall_replicate. Qed.
Lemma stopped_reachable attempt Rl k :
  attempt (place_artifact sha fj owner intent false None) -> (forall w, Rl w w) ->
  rtc (sys_step attempt Rl) (mkSystem start None) (stopped k).
Proof.
  intros Ha HR. eapply rtc_l; [by apply step_start|]. unfold stopped.
  pose proof (prefix_reachable attempt Rl (calls k) (place_artifact sha fj owner intent false None) start
    (calls_respect Rl k HR)) as H.
  by destruct (prefix _ _ _).
Qed.
Lemma stopped_happens k : rtc (happens sha fj) (mkSystem start None) (stopped k).
Proof. apply stopped_reachable; [by eexists _, _, _, _|done]. Qed.
Definition no_record : PlacementRecord :=
  mkRecord intent "" None reserved (mkSnap (0, 0) 0 0 0 0 0 "") ((0, 0), (0, 0))
    (make_grant (_grant_binding owner intent) "" "" "" "" (utc 0)) None false.
Definition left_record (k : nat) : PlacementRecord :=
  match fs_records (s_world (stopped k)) !! "req.json" with Some (Doc r) => r | _ => no_record end.

(** The call that retires the source name. *)
Lemma spares_run :
  spares (s_world (stopped 350)) (s_world (own_next (Reply good) (stopped 350)))
  /\ fs_names (s_world (own_next (Reply good) (stopped 350))) !! (TxnDir "req", "retired") = Some (1, 9).
Proof.
  split; [|vm_compute; reflexivity].
  apply (placement_spares_files sha fj start (stopped 350)); [done|apply stopped_happens|].
  apply own_next_step. vm_compute. reflexivity.
Defined.
(** Stopped after the destination was named and before that was recorded. *)
Lemma retained_run :
  pr_phase (left_record 258) = publishing
  /\ fs_names (s_world (stopped 258)) !! (TxnDir "req", "original") = Some (1, 9).
Proof.
  split; [vm_compute; reflexivity|].
  change (Some (1, 9)) with (Some (sp_inode (mkSnap (1, 9) 5 77 420 0 0 "hello"))).
  replace (mkSnap (1, 9) 5 77 420 0 0 "hello") with (pr_snapshot (left_record 258)) by (vm_compute; reflexivity).
  apply (note_retained_until_committed sha fj start (stopped 258) "req" (left_record 258));
    [done|apply stopped_happens|vm_compute; reflexivity..].
Defined.
(** A second request meanwhile, for another note. *)
Definition intent2 : PlacementIntent := Eval vm_compute in
  mkIntent "req2" "artifact.move" "note-2" "in/c.md" "out/d.md"
    (match run_gen (source_generation sha owner "in/c.md" "note-2") with Ok s => s | Raise e => "" end)
    (match run_gen (destination_generation sha owner "out/d.md") with Ok s => s | Raise e => "" end) "ctx" "1".
Definition both : system PlacementResult :=
  let '(p, w) := prefix (calls 115) (place_artifact sha fj owner intent2 false None) (s_world (stopped 258)) in
  mkSystem w (Some p).
Lemma both_happens : rtc (happens sha fj) (mkSystem start None) both.
Proof.
  etrans; [apply (stopped_happens 258)|]. unfold both. destruct (stopped 258) as [w1 running].
  eapply rtc_l; [apply (step_start _ _ (place_artifact sha fj owner intent2 false None)); by eexists _, _, _, _|].
  pose proof (prefix_reachable (attempts sha fj) others (calls 115) (place_artifact sha fj owner intent2 false None) w1
    (calls_respect others 115 others_refl)) as H.
  cbn [s_world]. by destruct (prefix _ _ _).
Qed.
Definition second_record : PlacementRecord :=
  match fs_records (s_world both) !! "req2.json" with Some (Doc r) => r | _ => no_record end.
Lemma reservation_run :
  in_artifact_id (pr_intent (left_record 258)) <> in_artifact_id (pr_intent second_record)
  /\ pr_phase second_record = reserved.
Proof.
  split; [|vm_compute; reflexivity].
  apply (one_reservation_per_artifact sha fj start both "req" "req2"); [done|apply both_happens|..].
  - vm_compute. reflexivity.
  - vm_compute. reflexivity.
  - vm_compute. discriminate.
  - vm_compute. discriminate.
  - done.
Defined.

(** The same request again after the crash. *)
Definition again := prefix (calls 80) (place_artifact sha fj owner intent false None) (s_world (stopped 258)).
Lemma replay_run :
  fs_log (snd again) = fs_log (s_world (stopped 258))
  /\ match fst again with Done r => ps_status r = "recovery_required" | Call _ _ => False end.
Proof.
  split; [|vm_compute; reflexivity].
  assert (Hrun : exists r, again = (Done r, snd again)) by (eexists; vm_compute; reflexivity).
  destruct Hrun as [r Hrun].
  refine (replay_changes_nothing sha fj owner intent None (calls 80) (s_world (stopped 258)) r (snd again) _ _ Hrun).
  - eexists. vm_compute. reflexivity.
  - apply calls_respect, others_refl.
Defined.

Definition grant : GovernedWriteGrant :=
  match fst (fst (exec good (_effect_window sha owner intent None) start)) with
  | Ok g => g | Raise _ => make_grant (_grant_binding owner intent) "" "" "" "" (utc 0) end.
Lemma good_admits : admits sha owner intent good (1, 2) (1, 3) (1, 4) None ["a.md"; "c.md"] grant "u".
Proof. split; try (intros m w; reflexivity); try reflexivity. done. Qed.
Lemma recovers_run :
  exists result w', exec good (place_artifact sha fj owner intent true None) (s_world (stopped 258)) = (result, w')
    /\ ps_status result = "convergence_pending" /\ placed sha intent (left_record 258) w'.
Proof.
  apply (placement_recovers sha fj owner intent start (stopped 258) (left_record 258) good (1, 2) None ["a.md"; "c.md"] grant "u").
  - vm_compute. reflexivity.
  - vm_compute. reflexivity.
  - split_and!; vm_compute; reflexivity.
  - apply stopped_reachable; [by eexists _, _|done].
  - vm_compute. reflexivity.
  - replace (pr_parents (left_record 258)) with ((1, 3), (1, 4)) by (vm_compute; reflexivity). apply good_admits.
  - left. vm_compute. left.
  - repeat constructor; vm_compute; reflexivity.
Defined.

Definition config : PlacementOperationServerConfig :=
  mkServerConfig owner (Contracts.mkContext "ctx" (PStr "1") []) "note-1" "in/a.md".
Definition request : OperationRequest :=
  mkRequest "artifact.move" "req" (Contracts.mkContext "ctx" (PStr "1") []) [[("artifact_id", PStr "note-1")]]
    [("destination", PStr "out/b.md"); ("destination_generation", PStr dgen)] "ygg.operation.v1" "execute"
    (PStr sgen) None None None [].
(** The first record cannot be written. *)
Definition schedule : list ((pl_world -> pl_world) * tick) := calls 93 ++ [(fun w => w, Fault (OSError "EIO"))].
Definition answered := prefix schedule (_execute fj sha (fun _ => None) request config false) start.
Definition answer_given : OwnerExecutionResult :=
  match fst answered with Done (Ok out) => out | _ => refuse INVALID "" end.
Lemma schedule_respects : Forall (fun ot => forall w, others w (fst ot w)) schedule.
Proof. apply Forall_app. split; [by apply calls_respect|]. by repeat constructor. Qed.
Lemma not_applied_run :
  or_status answer_given = RECOVERY_REQUIRED
  /\ (forall e, e ∈ fs_log (snd answered) -> ~ publishes "req" e).
Proof.
  split; [vm_compute; reflexivity|].
  assert (Hrun : prefix schedule (_execute fj sha (fun _ => None) request config false) start = (Done (Ok answer_given), snd answered))
    by (vm_compute; reflexivity).
  refine (proj2 (not_applied_is_true sha fj (fun _ => None) start (mkSystem start None) schedule request config false
    answer_given (default (mkConvergence UNKNOWN PENDING PENDING PENDING []) (or_convergence answer_given)) (snd answered)
    _ _ _ Hrun _ _) _).
  - split; reflexivity.
  - apply rtc_refl.
  - exact schedule_respects.
  - vm_compute. reflexivity.
  - vm_compute. reflexivity.
  - right. vm_compute. discriminate.
Defined.
End PlacementRun.
