(* ===== verification/DeliveryContracts.v ===== *)
(** * Contracts of delivery runs

    src/app/builderops/delivery_orchestration_contracts.py: the versioned
    contracts that delivery runs exchange (plans, reducer events and effects,
    worker and review results), their model validators, their canonical JSON
    and the identities derived from it, and the resolution of an event's
    references against the evidence supplied with it.

    A contract is a record of its fields; the constraints that pydantic checks
    field by field (non-empty and hexadecimal strings, positive integers) are
    its reading of the types and are left out, the model validators are the
    functions [_validate_...].  SHA-256 is a parameter. *)
From Stdlib Require Import Ascii.
From S2P Require Import Prelude PyValue Sql.
Open Scope Z_scope.

Definition DELIVERY_INITIATION_VERSION : string := "builderops.delivery-initiation.v1".
Definition DELIVERY_PLAN_VERSION : string := "builderops.delivery-plan.v1".
Definition REDUCER_EVENT_VERSION : string := "builderops.delivery-reducer-event.v1".
Definition REDUCER_EFFECT_VERSION : string := "builderops.delivery-reducer-effect.v1".
Definition WORKER_RESULT_VERSION : string := "builderops.delivery-worker-result.v1".
Definition REVIEW_RESULT_VERSION : string := "builderops.delivery-review-result.v1".
Definition DELIVERY_ACCEPTANCE_PROFILE_VERSION : string := "builderops.delivery-acceptance-profile.v1".
Definition WORKER_CONTEXT_PACK_VERSION : string := "builderops.worker-context-pack.v1".
Definition WORKER_INVOCATION_VERSION : string := "builderops.worker-invocation.v1".
Definition WORKER_RESULT_V2_VERSION : string := "builderops.delivery-worker-result.v2".

(** ** Vocabularies *)

Inductive EffectClass : Type :=
  | claim_issue | launch_worker | await_ci | request_review
  | merge_pull_request | close_issue | record_known_defect | record_delivery_receipt.
Inductive ExceptionKind : Type :=
  | exc_authority_conflict | exc_dependency_blocked | exc_malformed_result | exc_external_state_unknown
  | exc_budget_exhausted | exc_review_blocking | exc_execution_failed | exc_cancelled.
(** In the order of their names. *)
Inductive AcceptanceEvidenceKind : Type :=
  | evk_issue_closed | evk_known_defect_recorded | evk_pull_request_merged | evk_required_checks_green | evk_review_accepted.
Inductive EffectOutcomeState : Type :=
  | out_claimed | out_worker_launched | out_checks_passed | out_review_recorded | out_merged | out_closed
  | out_known_defect_recorded | out_receipt_recorded | out_failed.
Inductive EventType : Type :=
  | evt_run_started | evt_effect_succeeded | evt_effect_failed | evt_authority_changed
  | evt_worker_result_recorded | evt_review_result_recorded | evt_timer_elapsed | evt_exception_recorded.
Inductive Severity : Type := P0 | P1 | P2 | P3.
Inductive Disposition : Type := disp_accept | disp_reject | disp_accept_with_risk.
Inductive WorkerStatus : Type := ws_completed | ws_blocked | ws_failed | ws_cancelled.
Inductive ValidationStatus : Type := vs_passed | vs_failed | vs_skipped.

#[export] Instance EffectClass_eq_dec : EqDecision EffectClass.
Proof. solve_decision. Defined.
#[export] Instance ExceptionKind_eq_dec : EqDecision ExceptionKind.
Proof. solve_decision. Defined.
#[export] Instance AcceptanceEvidenceKind_eq_dec : EqDecision AcceptanceEvidenceKind.
Proof. solve_decision. Defined.
#[export] Instance EffectOutcomeState_eq_dec : EqDecision EffectOutcomeState.
Proof. solve_decision. Defined.
#[export] Instance EventType_eq_dec : EqDecision EventType.
Proof. solve_decision. Defined.
#[export] Instance Severity_eq_dec : EqDecision Severity.
Proof. solve_decision. Defined.
#[export] Instance Disposition_eq_dec : EqDecision Disposition.
Proof. solve_decision. Defined.
#[export] Instance WorkerStatus_eq_dec : EqDecision WorkerStatus.
Proof. solve_decision. Defined.
#[export] Instance ValidationStatus_eq_dec : EqDecision ValidationStatus.
Proof. solve_decision. Defined.

Definition EffectClass_value (c : EffectClass) : string :=
  match c with
  | claim_issue => "claim_issue" | launch_worker => "launch_worker" | await_ci => "await_ci"
  | request_review => "request_review" | merge_pull_request => "merge_pull_request" | close_issue => "close_issue"
  | record_known_defect => "record_known_defect" | record_delivery_receipt => "record_delivery_receipt"
  end.
Definition ExceptionKind_value (k : ExceptionKind) : string :=
  match k with
  | exc_authority_conflict => "authority_conflict" | exc_dependency_blocked => "dependency_blocked"
  | exc_malformed_result => "malformed_result" | exc_external_state_unknown => "external_state_unknown"
  | exc_budget_exhausted => "budget_exhausted" | exc_review_blocking => "review_blocking"
  | exc_execution_failed => "execution_failed" | exc_cancelled => "cancelled"
  end.
Definition AcceptanceEvidenceKind_value (k : AcceptanceEvidenceKind) : string :=
  match k with
  | evk_issue_closed => "issue_closed" | evk_known_defect_recorded => "known_defect_recorded"
  | evk_pull_request_merged => "pull_request_merged" | evk_required_checks_green => "required_checks_green"
  | evk_review_accepted => "review_accepted"
  end.
Definition EffectOutcomeState_value (s : EffectOutcomeState) : string :=
  match s with
  | out_claimed => "claimed" | out_worker_launched => "worker_launched" | out_checks_passed => "checks_passed"
  | out_review_recorded => "review_recorded" | out_merged => "merged" | out_closed => "closed"
  | out_known_defect_recorded => "known_defect_recorded" | out_receipt_recorded => "receipt_recorded"
  | out_failed => "failed"
  end.
Definition EventType_value (t : EventType) : string :=
  match t with
  | evt_run_started => "run_started" | evt_effect_succeeded => "effect_succeeded" | evt_effect_failed => "effect_failed"
  | evt_authority_changed => "authority_changed" | evt_worker_result_recorded => "worker_result_recorded"
  | evt_review_result_recorded => "review_result_recorded" | evt_timer_elapsed => "timer_elapsed"
  | evt_exception_recorded => "exception_recorded"
  end.
Definition Severity_value (s : Severity) : string := match s with P0 => "P0" | P1 => "P1" | P2 => "P2" | P3 => "P3" end.
Definition Disposition_value (d : Disposition) : string :=
  match d with disp_accept => "accept" | disp_reject => "reject" | disp_accept_with_risk => "accept_with_risk" end.
Definition WorkerStatus_value (s : WorkerStatus) : string :=
  match s with ws_completed => "completed" | ws_blocked => "blocked" | ws_failed => "failed" | ws_cancelled => "cancelled" end.
Definition ValidationStatus_value (s : ValidationStatus) : string :=
  match s with vs_passed => "passed" | vs_failed => "failed" | vs_skipped => "skipped" end.

(** ** Records *)

Record ActorIdentity : Type := mkActor { ai_type : string; ai_id : string; ai_scope : string }.
Record SourceRef : Type := mkSource { sr_type : string; sr_id : string; sr_hash : string }.
Record Provenance : Type := mkProvenance {
  pv_created_at : string;
  pv_created_by : ActorIdentity;
  pv_source_refs : list SourceRef;
  pv_correlation_id : string }.
Record ContractRef : Type := mkRef { cr_schema : string; cr_id : string; cr_hash : string }.
Record IssueScope : Type := mkIssue {
  is_repository : string;
  is_number : Z;
  is_authority_id : string;
  is_contract_hash : string }.
Record AuthoritySnapshot : Type := mkAuthority {
  as_type : string;
  as_id : string;
  as_hash : string;
  as_state : string;
  as_labels : list string;
  as_observed_at : string }.
Record ScopeExclusion : Type := mkExclusion { sx_key : string; sx_reason : string; sx_issue : option IssueScope }.
Record PolicyProfile : Type := mkPolicy {
  pp_id : string;
  pp_version : string;
  pp_hash : string;
  pp_minimum_confidence : Z;
  pp_required_check_names : list string }.
Record DeliveryBudget : Type := mkBudget {
  db_max_parallel_workers : Z;
  db_max_worker_starts : Z;
  db_max_coordinator_turns : Z;
  db_max_total_tokens : Z;
  db_max_wall_time_seconds : Z }.
Record DependencyWave : Type := mkWave { dw_index : Z; dw_issues : list IssueScope }.
Record ExpectedAuthorityState : Type := mkExpected {
  ea_issue : IssueScope;
  ea_state : string;
  ea_required_labels : list string;
  ea_forbidden_labels : list string;
  ea_contract_hash : string }.
Record DeliveryPlan : Type := mkPlan {
  dp_id : string;
  dp_initiation_ref : ContractRef;
  dp_input_authorities : list AuthoritySnapshot;
  dp_final_scope : list IssueScope;
  dp_exclusions : list ScopeExclusion;
  dp_waves : list DependencyWave;
  dp_expected_states : list ExpectedAuthorityState;
  dp_policy : PolicyProfile;
  dp_budget : DeliveryBudget;
  dp_effect_allowlist : list EffectClass;
  dp_provenance : Provenance }.
Record DeliveryException : Type := mkException {
  dx_kind : ExceptionKind;
  dx_code : string;
  dx_message : string;
  dx_retryable : bool;
  dx_evidence_refs : list string }.
Record EffectOutcomeEvidence : Type := mkOutcome {
  oe_effect_class : EffectClass;
  oe_idempotency_key : string;
  oe_state : EffectOutcomeState;
  oe_keys : list string;
  oe_observed_at : string;
  oe_evidence_refs : list string }.
Record ReducerEvent : Type := mkEvent {
  ev_id : string;
  ev_input_hash : string;
  ev_run_id : string;
  ev_plan_ref : ContractRef;
  ev_sequence : Z;
  ev_type : EventType;
  ev_subject : option AuthoritySnapshot;
  ev_effect_ref : option ContractRef;
  ev_result_ref : option ContractRef;
  ev_exception : option DeliveryException;
  ev_outcome : option EffectOutcomeEvidence;
  ev_provenance : Provenance }.
Record ReducerEffect : Type := mkEffect {
  ef_id : string;
  ef_run_id : string;
  ef_plan_ref : ContractRef;
  ef_causal_event : ReducerEvent;
  ef_sequence : Z;
  ef_class : EffectClass;
  ef_issue : IssueScope;
  ef_pull_request : option Z;
  ef_head_sha : option string;
  ef_expected_authorities : list AuthoritySnapshot;
  ef_outcome_keys : list string;
  ef_defect_ref : option string;
  ef_defect_hash : option string;
  ef_idempotency_key : string;
  ef_input_hash : string;
  ef_provenance : Provenance }.
Record ValidationEvidence : Type := mkValidation {
  ve_name : string; ve_status : ValidationStatus; ve_evidence_ref : string; ve_head_sha : option string }.
Record StructuredWorkerResult : Type := mkWorkerResult {
  wr_id : string;
  wr_run_id : string;
  wr_plan_ref : ContractRef;
  wr_issue : IssueScope;
  wr_status : WorkerStatus;
  wr_head_sha : option string;
  wr_pull_request : option Z;
  wr_changed_files : list string;
  wr_validations : list ValidationEvidence;
  wr_exceptions : list DeliveryException;
  wr_summary : string;
  wr_provenance : Provenance }.
Record ReviewFinding : Type := mkFinding {
  rf_id : string;
  rf_severity : Severity;
  rf_summary : string;
  rf_protected_risk : bool;
  rf_false_green : bool;
  rf_evidence_refs : list string }.
Record ReviewResult : Type := mkReview {
  rr_id : string;
  rr_run_id : string;
  rr_plan_ref : ContractRef;
  rr_policy : PolicyProfile;
  rr_issue : IssueScope;
  rr_pull_request : Z;
  rr_head_sha : string;
  rr_disposition : Disposition;
  rr_confidence : Z;
  rr_findings : list ReviewFinding;
  rr_known_defect_refs : list string;
  rr_provenance : Provenance }.
Record DeliveryAcceptanceProfile : Type := mkProfile {
  ap_id : string; ap_required_evidence : list AcceptanceEvidenceKind; ap_provenance : Provenance }.
Record WorkerContextPack : Type := mkPack {
  cp_id : string;
  cp_run_id : string;
  cp_plan_ref : ContractRef;
  cp_effect_ref : ContractRef;
  cp_issue : IssueScope;
  cp_base_head_sha : option string;
  cp_required_skills : list string;
  cp_verify_targets : list string;
  cp_context_refs : list SourceRef;
  cp_provenance : Provenance }.
Record WorkerInvocation : Type := mkInvocation {
  wi_id : string;
  wi_run_id : string;
  wi_plan_ref : ContractRef;
  wi_effect_ref : ContractRef;
  wi_issue : IssueScope;
  wi_base_head_sha : option string;
  wi_context_pack_ref : ContractRef;
  wi_context_pack_hash : string;
  wi_runtime_target : string;
  wi_idempotency_key : string;
  wi_input_hash : string;
  wi_provenance : Provenance }.
Record WorkerCarrierEnvelope : Type := mkCarrier {
  wc_carrier_id : string; wc_provider_id : string; wc_model_ref : string;
  wc_session_ref : string; wc_usage_ref : string; wc_provenance_ref : string }.
Record WorkerResultV2 : Type := mkWorkerResultV2 {
  w2_id : string;
  w2_run_id : string;
  w2_plan_ref : ContractRef;
  w2_effect_ref : ContractRef;
  w2_issue : IssueScope;
  w2_base_head_sha : option string;
  w2_head_sha : option string;
  w2_pull_request : option Z;
  w2_context_pack_ref : ContractRef;
  w2_context_pack_hash : string;
  w2_invocation_ref : ContractRef;
  w2_invocation_key : string;
  w2_delivery_result : StructuredWorkerResult;
  w2_carrier : WorkerCarrierEnvelope;
  w2_provenance : Provenance }.
(** [reconciliation_owner] has one value. *)
Record OutstandingEffectObligation : Type := mkObligation {
  ob_effect_class : EffectClass;
  ob_idempotency_key : string;
  ob_outcome_keys : list string;
  ob_last_outcome : option EffectOutcomeState }.

#[export] Instance SourceRef_eq_dec : EqDecision SourceRef.
Proof. solve_decision. Defined.
#[export] Instance ContractRef_eq_dec : EqDecision ContractRef.
Proof. solve_decision. Defined.
#[export] Instance IssueScope_eq_dec : EqDecision IssueScope.
Proof. solve_decision. Defined.
#[export] Instance AuthoritySnapshot_eq_dec : EqDecision AuthoritySnapshot.
Proof. solve_decision. Defined.
#[export] Instance PolicyProfile_eq_dec : EqDecision PolicyProfile.
Proof. solve_decision. Defined.

(** ** Canonical JSON *)

Definition opt_value {A} (f : A -> pyval) (o : option A) : pyval := match o with Some a => f a | None => PNone end.
Definition strs (l : list string) : pyval := PList (map PStr l).
Abbreviation opt_text := (opt_value PStr).
Abbreviation opt_int := (opt_value PInt).

Definition dump_actor (a : ActorIdentity) : pyval :=
  PDict [("actor_type", PStr (ai_type a)); ("actor_id", PStr (ai_id a)); ("authority_scope", PStr (ai_scope a))].
Definition dump_source (r : SourceRef) : pyval :=
  PDict [("source_type", PStr (sr_type r)); ("source_id", PStr (sr_id r)); ("content_hash", PStr (sr_hash r))].
Definition dump_provenance (p : Provenance) : pyval :=
  PDict [("created_at", PStr (pv_created_at p)); ("created_by", dump_actor (pv_created_by p));
         ("source_refs", PList (map dump_source (pv_source_refs p))); ("correlation_id", PStr (pv_correlation_id p))].
Definition dump_ref (r : ContractRef) : pyval :=
  PDict [("schema_version", PStr (cr_schema r)); ("contract_id", PStr (cr_id r)); ("content_hash", PStr (cr_hash r))].
Definition dump_issue (i : IssueScope) : pyval :=
  PDict [("repository", PStr (is_repository i)); ("issue_number", PInt (is_number i));
         ("authority_id", PStr (is_authority_id i)); ("contract_hash", PStr (is_contract_hash i))].
(** What a hash binds of an authority: not when it was observed. *)
Definition authority_semantics (a : AuthoritySnapshot) : pydict :=
  [("authority_type", PStr (as_type a)); ("authority_id", PStr (as_id a)); ("content_hash", PStr (as_hash a));
   ("observed_state", PStr (as_state a)); ("observed_labels", strs (as_labels a))].
Definition dump_authority (a : AuthoritySnapshot) : pyval :=
  PDict (authority_semantics a ++ [("observed_at", PStr (as_observed_at a))]).
Definition dump_exclusion (x : ScopeExclusion) : pyval :=
  PDict [("scope_key", PStr (sx_key x)); ("reason", PStr (sx_reason x)); ("omitted_issue", opt_value dump_issue (sx_issue x))].
Definition dump_policy (p : PolicyProfile) : pyval :=
  PDict [("profile_id", PStr (pp_id p)); ("profile_version", PStr (pp_version p)); ("profile_hash", PStr (pp_hash p));
         ("minimum_review_confidence_basis_points", PInt (pp_minimum_confidence p));
         ("required_check_names", strs (pp_required_check_names p))].
Definition dump_budget (b : DeliveryBudget) : pyval :=
  PDict [("max_parallel_workers", PInt (db_max_parallel_workers b)); ("max_worker_starts", PInt (db_max_worker_starts b));
         ("max_coordinator_turns", PInt (db_max_coordinator_turns b)); ("max_total_tokens", PInt (db_max_total_tokens b));
         ("max_wall_time_seconds", PInt (db_max_wall_time_seconds b))].
Definition dump_wave (w : DependencyWave) : pyval :=
  PDict [("wave_index", PInt (dw_index w)); ("issues", PList (map dump_issue (dw_issues w)))].
Definition dump_expected (e : ExpectedAuthorityState) : pyval :=
  PDict [("issue", dump_issue (ea_issue e)); ("issue_state", PStr (ea_state e)); ("required_labels", strs (ea_required_labels e));
         ("forbidden_labels", strs (ea_forbidden_labels e)); ("expected_contract_hash", PStr (ea_contract_hash e))].
Definition dump_plan (p : DeliveryPlan) : pyval :=
  PDict [("schema_version", PStr DELIVERY_PLAN_VERSION); ("plan_id", PStr (dp_id p)); ("initiation_ref", dump_ref (dp_initiation_ref p));
         ("input_authorities", PList (map dump_authority (dp_input_authorities p)));
         ("final_scope", PList (map dump_issue (dp_final_scope p))); ("exclusions", PList (map dump_exclusion (dp_exclusions p)));
         ("dependency_waves", PList (map dump_wave (dp_waves p)));
         ("expected_states", PList (map dump_expected (dp_expected_states p))); ("policy_profile", dump_policy (dp_policy p));
         ("budget", dump_budget (dp_budget p));
         ("effect_allowlist", strs (map EffectClass_value (dp_effect_allowlist p))); ("provenance", dump_provenance (dp_provenance p))].
Definition dump_exception (x : DeliveryException) : pyval :=
  PDict [("kind", PStr (ExceptionKind_value (dx_kind x))); ("code", PStr (dx_code x)); ("message", PStr (dx_message x));
         ("retryable", PBool (dx_retryable x)); ("evidence_refs", strs (dx_evidence_refs x))].
Definition dump_outcome (o : EffectOutcomeEvidence) : pyval :=
  PDict [("effect_class", PStr (EffectClass_value (oe_effect_class o))); ("effect_idempotency_key", PStr (oe_idempotency_key o));
         ("outcome_state", PStr (EffectOutcomeState_value (oe_state o))); ("outcome_keys", strs (oe_keys o));
         ("observed_at", PStr (oe_observed_at o)); ("evidence_refs", strs (oe_evidence_refs o))].
Definition dump_event (e : ReducerEvent) : pyval :=
  PDict [("schema_version", PStr REDUCER_EVENT_VERSION); ("event_id", PStr (ev_id e)); ("input_hash", PStr (ev_input_hash e));
         ("run_id", PStr (ev_run_id e)); ("plan_ref", dump_ref (ev_plan_ref e)); ("sequence", PInt (ev_sequence e));
         ("event_type", PStr (EventType_value (ev_type e))); ("subject_authority", opt_value dump_authority (ev_subject e));
         ("effect_ref", opt_value dump_ref (ev_effect_ref e)); ("result_ref", opt_value dump_ref (ev_result_ref e));
         ("exception", opt_value dump_exception (ev_exception e)); ("effect_outcome", opt_value dump_outcome (ev_outcome e));
         ("provenance", dump_provenance (ev_provenance e))].
Definition dump_effect (e : ReducerEffect) : pyval :=
  PDict [("schema_version", PStr REDUCER_EFFECT_VERSION); ("effect_id", PStr (ef_id e)); ("run_id", PStr (ef_run_id e));
         ("plan_ref", dump_ref (ef_plan_ref e)); ("causal_event", dump_event (ef_causal_event e));
         ("sequence", PInt (ef_sequence e)); ("effect_class", PStr (EffectClass_value (ef_class e)));
         ("issue", dump_issue (ef_issue e)); ("pull_request_number", opt_int (ef_pull_request e));
         ("exact_head_sha", opt_text (ef_head_sha e));
         ("expected_authorities", PList (map dump_authority (ef_expected_authorities e)));
         ("expected_outcome_keys", strs (ef_outcome_keys e)); ("known_defect_registry_ref", opt_text (ef_defect_ref e));
         ("known_defect_finding_hash", opt_text (ef_defect_hash e)); ("idempotency_key", PStr (ef_idempotency_key e));
         ("input_hash", PStr (ef_input_hash e)); ("requires_live_authority_check", PBool true);
         ("authorized_by_plan_only", PBool false); ("provenance", dump_provenance (ef_provenance e))].
Definition dump_validation (v : ValidationEvidence) : pyval :=
  PDict [("name", PStr (ve_name v)); ("status", PStr (ValidationStatus_value (ve_status v)));
         ("evidence_ref", PStr (ve_evidence_ref v)); ("exact_head_sha", opt_text (ve_head_sha v))].
Definition dump_worker_result (r : StructuredWorkerResult) : pyval :=
  PDict [("schema_version", PStr WORKER_RESULT_VERSION); ("result_id", PStr (wr_id r)); ("run_id", PStr (wr_run_id r));
         ("plan_ref", dump_ref (wr_plan_ref r)); ("issue", dump_issue (wr_issue r));
         ("status", PStr (WorkerStatus_value (wr_status r))); ("exact_head_sha", opt_text (wr_head_sha r));
         ("pull_request_number", opt_int (wr_pull_request r)); ("changed_files", strs (wr_changed_files r));
         ("validations", PList (map dump_validation (wr_validations r)));
         ("exceptions", PList (map dump_exception (wr_exceptions r))); ("summary", PStr (wr_summary r));
         ("provenance", dump_provenance (wr_provenance r))].
Definition dump_finding (f : ReviewFinding) : pyval :=
  PDict [("finding_id", PStr (rf_id f)); ("severity", PStr (Severity_value (rf_severity f))); ("summary", PStr (rf_summary f));
         ("protected_risk", PBool (rf_protected_risk f)); ("false_green", PBool (rf_false_green f));
         ("evidence_refs", strs (rf_evidence_refs f))].
Definition dump_review (r : ReviewResult) : pyval :=
  PDict [("schema_version", PStr REVIEW_RESULT_VERSION); ("result_id", PStr (rr_id r)); ("run_id", PStr (rr_run_id r));
         ("plan_ref", dump_ref (rr_plan_ref r)); ("policy_profile", dump_policy (rr_policy r)); ("issue", dump_issue (rr_issue r));
         ("pull_request_number", PInt (rr_pull_request r)); ("exact_head_sha", PStr (rr_head_sha r));
         ("disposition", PStr (Disposition_value (rr_disposition r))); ("confidence_basis_points", PInt (rr_confidence r));
         ("findings", PList (map dump_finding (rr_findings r))); ("known_defect_refs", strs (rr_known_defect_refs r));
         ("provenance", dump_provenance (rr_provenance r))].
Definition dump_profile (p : DeliveryAcceptanceProfile) : pyval :=
  PDict [("schema_version", PStr DELIVERY_ACCEPTANCE_PROFILE_VERSION); ("profile_id", PStr (ap_id p));
         ("required_evidence", strs (map AcceptanceEvidenceKind_value (ap_required_evidence p)));
         ("provenance", dump_provenance (ap_provenance p))].
Definition dump_pack (p : WorkerContextPack) : pyval :=
  PDict [("schema_version", PStr WORKER_CONTEXT_PACK_VERSION); ("context_pack_id", PStr (cp_id p)); ("run_id", PStr (cp_run_id p));
         ("plan_ref", dump_ref (cp_plan_ref p)); ("effect_ref", dump_ref (cp_effect_ref p)); ("issue", dump_issue (cp_issue p));
         ("base_head_sha", opt_text (cp_base_head_sha p)); ("required_skills", strs (cp_required_skills p));
         ("verify_targets", strs (cp_verify_targets p)); ("context_refs", PList (map dump_source (cp_context_refs p)));
         ("provenance", dump_provenance (cp_provenance p))].
Definition dump_invocation (i : WorkerInvocation) : pyval :=
  PDict [("schema_version", PStr WORKER_INVOCATION_VERSION); ("invocation_id", PStr (wi_id i)); ("run_id", PStr (wi_run_id i));
         ("plan_ref", dump_ref (wi_plan_ref i)); ("effect_ref", dump_ref (wi_effect_ref i)); ("issue", dump_issue (wi_issue i));
         ("base_head_sha", opt_text (wi_base_head_sha i)); ("context_pack_ref", dump_ref (wi_context_pack_ref i));
         ("context_pack_hash", PStr (wi_context_pack_hash i)); ("runtime_target", PStr (wi_runtime_target i));
         ("idempotency_key", PStr (wi_idempotency_key i)); ("input_hash", PStr (wi_input_hash i));
         ("provenance", dump_provenance (wi_provenance i))].
(** [scope_key]: the repository is ASCII, so [casefold] is [lower]. *)
Definition scope_key (i : IssueScope) : string * Z := (lower (is_repository i), is_number i).
Definition scope_leb (a b : string * Z) : bool :=
  if String.eqb (fst a) (fst b) then snd a <=? snd b else String.leb (fst a) (fst b).

Definition canonical_json (v : pyval) : string := json_dumps "," ":" false v.

Section Hashes.
Context (sha256_hex : string -> string).

Definition canonical_hash (v : pyval) : string := sha256_hex (canonical_json v).

Definition delivery_event_input_hash (run_id : string) (plan_ref : ContractRef) (sequence : Z) (event_type : EventType)
    (subject_authority : option AuthoritySnapshot) (effect_ref result_ref : option ContractRef)
    (exception : option DeliveryException) (effect_outcome : option EffectOutcomeEvidence) : string :=
  canonical_hash (PDict
    [("run_id", PStr run_id); ("plan_ref", dump_ref plan_ref); ("sequence", PInt sequence);
     ("event_type", PStr (EventType_value event_type));
     ("subject_authority", opt_value (fun a => PDict (authority_semantics a)) subject_authority);
     ("effect_ref", opt_value dump_ref effect_ref); ("result_ref", opt_value dump_ref result_ref);
     ("exception", opt_value dump_exception exception); ("effect_outcome", opt_value dump_outcome effect_outcome)]).
Definition delivery_event_id (input_hash : string) : string := "builderops.delivery-event.v1:" +:+ input_hash.

Definition delivery_effect_input_hash (run_id : string) (plan_ref : ContractRef) (effect_class : EffectClass) (issue : IssueScope)
    (pull_request_number : option Z) (exact_head_sha : option string) (expected_authorities : list AuthoritySnapshot)
    (expected_outcome_keys : list string) (known_defect_registry_ref known_defect_finding_hash : option string) : string :=
  canonical_hash (PDict
    [("run_id", PStr run_id); ("plan_ref", dump_ref plan_ref); ("effect_class", PStr (EffectClass_value effect_class));
     ("issue", dump_issue issue); ("pull_request_number", opt_int pull_request_number);
     ("exact_head_sha", opt_text exact_head_sha);
     ("expected_authorities", PList (order_by (fun a b => String.leb (canonical_json a) (canonical_json b))
        (map (fun a => PDict (authority_semantics a)) expected_authorities)));
     ("expected_outcome_keys", strs expected_outcome_keys);
     ("known_defect_registry_ref", opt_text known_defect_registry_ref);
     ("known_defect_finding_hash", opt_text known_defect_finding_hash)]).
Definition delivery_effect_idempotency_key (input_hash : string) : string := "builderops.delivery-effect.v1:" +:+ input_hash.

Definition delivery_effect_expected_outcome_keys (effect_class : EffectClass) (run_id : string) (issue : IssueScope)
    (pull_request_number : option Z) (required_check_names : list string)
    (known_defect_registry_ref known_defect_finding_hash : option string) : res (list string) :=
  match effect_class with
  | claim_issue => Ok [is_authority_id issue +:+ "#claimed"]
  | launch_worker => Ok ["builderops:worker:" +:+ run_id +:+ ":" +:+ is_authority_id issue]
  | await_ci => Ok (map (fun name => "check-name:" +:+ name) (order_by String.leb required_check_names))
  | request_review => Ok ["builderops:review:" +:+ run_id +:+ ":" +:+ is_authority_id issue]
  | merge_pull_request =>
      Ok ["github:" +:+ is_repository issue +:+ "/pulls/" +:+ py_str (opt_int pull_request_number)]
  | close_issue => Ok [is_authority_id issue +:+ "#closed"]
  | record_known_defect =>
      match known_defect_registry_ref, known_defect_finding_hash with
      | Some ref, Some hash => Ok ["builderops:known-defect:" +:+ ref +:+ ":" +:+ hash]
      | _, _ => Raise (ValueError "known-defect effect requires exact registry and finding identity")
      end
  | record_delivery_receipt => Ok ["builderops:receipt:" +:+ run_id +:+ ":" +:+ is_authority_id issue]
  end.

Definition worker_invocation_input_hash (run_id : string) (plan_ref effect_ref : ContractRef) (issue : IssueScope)
    (base_head_sha : option string) (context_pack_ref : ContractRef) (runtime_target : string) : string :=
  canonical_hash (PDict
    [("run_id", PStr run_id); ("plan_ref", dump_ref plan_ref); ("effect_ref", dump_ref effect_ref); ("issue", dump_issue issue);
     ("base_head_sha", opt_text base_head_sha); ("context_pack_ref", dump_ref context_pack_ref);
     ("runtime_target", PStr runtime_target)]).
Definition worker_invocation_idempotency_key (input_hash : string) : string := "builderops.worker-invocation.v1:" +:+ input_hash.

Definition plan_ref_of (plan : DeliveryPlan) : ContractRef :=
  mkRef DELIVERY_PLAN_VERSION (dp_id plan) (canonical_hash (dump_plan plan)).
Definition effect_ref_of (effect : ReducerEffect) : ContractRef :=
  mkRef REDUCER_EFFECT_VERSION (ef_id effect) (canonical_hash (dump_effect effect)).
Definition worker_ref_of (r : StructuredWorkerResult) : ContractRef :=
  mkRef WORKER_RESULT_VERSION (wr_id r) (canonical_hash (dump_worker_result r)).
Definition review_ref_of (r : ReviewResult) : ContractRef :=
  mkRef REVIEW_RESULT_VERSION (rr_id r) (canonical_hash (dump_review r)).
Definition pack_ref_of (p : WorkerContextPack) : ContractRef :=
  mkRef WORKER_CONTEXT_PACK_VERSION (cp_id p) (canonical_hash (dump_pack p)).
Definition invocation_ref_of (i : WorkerInvocation) : ContractRef :=
  mkRef WORKER_INVOCATION_VERSION (wi_id i) (canonical_hash (dump_invocation i)).

(** ** Model validators *)

Definition reject (c : bool) (msg : string) : res unit := if c then Raise (ValueError msg) else Ok tt.
Definition _require_unique {A} `{EqDecision A} (values : list A) (label : string) : res unit :=
  reject (negb (bool_decide (NoDup values))) (label +:+ " must not contain duplicates").
Definition in_order {A} `{EqDecision A} (leb : A -> A -> bool) (l : list A) : bool := bool_decide (l = order_by leb l).
Definition pair_leb (a b : string * string) : bool :=
  if String.eqb (fst a) (fst b) then String.leb (snd a) (snd b) else String.leb (fst a) (fst b).
(** A unique and sorted tuple of strings. *)
Definition canonical_strings (values : list string) (label order_label : string) : res unit :=
  _ ← _require_unique values label;
  reject (negb (in_order String.leb values)) (order_label +:+ " must use canonical sorted order").
Fixpoint check_all {A} (check : A -> res unit) (l : list A) : res unit :=
  match l with [] => Ok tt | a :: l => _ ← check a; check_all check l end.
Definition check_some {A} (check : A -> res unit) (o : option A) : res unit := match o with Some a => check a | None => Ok tt end.

Definition source_keys (refs : list SourceRef) : list (string * string) := map (fun r => (sr_type r, sr_id r)) refs.
Definition _validate_source_refs (p : Provenance) : res unit :=
  _ ← reject (bool_decide (pv_source_refs p = [])) "provenance must carry at least one source ref";
  _ ← _require_unique (source_keys (pv_source_refs p)) "provenance source refs";
  reject (negb (in_order pair_leb (source_keys (pv_source_refs p))))
    "provenance source refs must use canonical sorted order".
Definition _validate_authority_id (i : IssueScope) : res unit :=
  reject (negb (String.eqb (is_authority_id i) ("github:" +:+ is_repository i +:+ "/issues/" +:+ pretty (is_number i))))
    "issue scope authority ID must bind repository and issue".
Definition _validate_labels (a : AuthoritySnapshot) : res unit :=
  canonical_strings (as_labels a) "authority snapshot labels" "authority snapshot labels".
Definition _validate_scope_identity (x : ScopeExclusion) : res unit :=
  match sx_issue x with
  | None => Ok tt
  | Some issue =>
      _ ← _validate_authority_id issue;
      reject (negb (String.eqb (sx_key x) (lower (is_repository issue) +:+ "#" +:+ pretty (is_number issue))))
        "issue exclusion must bind its canonical omitted-Issue identity"
  end.
Definition _validate_required_checks (p : PolicyProfile) : res unit :=
  _ ← reject (bool_decide (pp_required_check_names p = [])) "policy profile must name required delivery checks";
  canonical_strings (pp_required_check_names p) "required check names" "required check names".
Definition _validate_worker_budget (b : DeliveryBudget) : res unit :=
  reject (db_max_worker_starts b <? db_max_parallel_workers b) "max_worker_starts must be at least max_parallel_workers".
Definition _validate_issues (w : DependencyWave) : res unit :=
  _ ← check_all _validate_authority_id (dw_issues w);
  _ ← reject (bool_decide (dw_issues w = [])) "dependency wave must not be empty";
  _ ← _require_unique (map scope_key (dw_issues w)) "wave issues";
  reject (negb (in_order scope_leb (map scope_key (dw_issues w)))) "wave issues must use canonical sorted order".
Definition _validate_state (e : ExpectedAuthorityState) : res unit :=
  _ ← _validate_authority_id (ea_issue e);
  _ ← _require_unique (ea_required_labels e) "required labels";
  _ ← _require_unique (ea_forbidden_labels e) "forbidden labels";
  _ ← reject (negb (in_order String.leb (ea_required_labels e))) "required labels must use canonical sorted order";
  _ ← reject (negb (in_order String.leb (ea_forbidden_labels e))) "forbidden labels must use canonical sorted order";
  _ ← reject (existsb (fun l => existsb (String.eqb l) (ea_forbidden_labels e)) (ea_required_labels e))
        "labels cannot be both required and forbidden";
  reject (negb (String.eqb (ea_contract_hash e) (is_contract_hash (ea_issue e))))
    "expected contract hash must bind the issue contract".

Definition same_set {A} `{EqDecision A} (l k : list A) : bool :=
  forallb (fun x => bool_decide (x ∈ k)) l && forallb (fun x => bool_decide (x ∈ l)) k.
Definition scope_find (l : list IssueScope) (key : string * Z) : option IssueScope :=
  List.find (fun i => bool_decide (scope_key i = key)) l.
Definition authority_binding (plan : DeliveryPlan) (i : IssueScope) : option AuthoritySnapshot :=
  List.find (fun a => String.eqb (as_id a) (is_authority_id i) && String.eqb (as_hash a) (is_contract_hash i))
    (dp_input_authorities plan).
Definition planned (plan : DeliveryPlan) (i : IssueScope) : bool :=
  bool_decide (scope_find (dp_final_scope plan) (scope_key i) = Some i).
Definition contradicts_state (plan : DeliveryPlan) (e : ExpectedAuthorityState) : bool :=
  match authority_binding plan (ea_issue e) with
  | None => false
  | Some a =>
      negb (String.eqb (as_state a) (ea_state e))
      || negb (forallb (fun l => existsb (String.eqb l) (as_labels a)) (ea_required_labels e))
      || existsb (fun l => existsb (String.eqb l) (as_labels a)) (ea_forbidden_labels e)
  end.
Definition _validate_plan (p : DeliveryPlan) : res unit :=
  _ ← check_all _validate_labels (dp_input_authorities p);
  _ ← check_all _validate_authority_id (dp_final_scope p);
  _ ← check_all _validate_scope_identity (dp_exclusions p);
  _ ← check_all _validate_issues (dp_waves p);
  _ ← check_all _validate_state (dp_expected_states p);
  _ ← _validate_required_checks (dp_policy p);
  _ ← _validate_worker_budget (dp_budget p);
  _ ← _validate_source_refs (dp_provenance p);
  _ ← reject (negb (String.eqb (cr_schema (dp_initiation_ref p)) DELIVERY_INITIATION_VERSION))
        "plan initiation ref must bind DeliveryInitiation.v1";
  _ ← reject (bool_decide (dp_final_scope p = [])) "final scope must not be empty";
  let scope_keys := map scope_key (dp_final_scope p) in
  let exclusion_keys := map sx_key (dp_exclusions p) in
  let authority_ids := map as_id (dp_input_authorities p) in
  let expected_keys := map (fun e => scope_key (ea_issue e)) (dp_expected_states p) in
  _ ← _require_unique scope_keys "final scope";
  _ ← _require_unique exclusion_keys "scope exclusions";
  _ ← _require_unique authority_ids "input authority IDs";
  _ ← reject (negb (in_order scope_leb scope_keys)) "final scope must use canonical sorted order";
  _ ← reject (negb (in_order String.leb exclusion_keys)) "scope exclusions must use canonical sorted order";
  _ ← reject (negb (in_order String.leb authority_ids)) "input authorities must use canonical sorted order";
  _ ← reject (negb (in_order scope_leb expected_keys)) "expected states must use canonical sorted order";
  _ ← reject (existsb (fun a => String.ltb (pv_created_at (dp_provenance p)) (as_observed_at a)) (dp_input_authorities p))
        "input authority observations must precede plan provenance";
  _ ← reject (negb (bool_decide (map dw_index (dp_waves p) = map Z.of_nat (seq 0 (length (dp_waves p))))))
        "dependency waves must use contiguous zero-based indices";
  let wave_items := concat (map dw_issues (dp_waves p)) in
  let wave_keys := map scope_key wave_items in
  _ ← reject (negb (bool_decide (NoDup wave_keys)) || negb (same_set wave_keys scope_keys))
        "dependency waves must cover final scope exactly once";
  _ ← reject (negb (forallb (planned p) wave_items)) "dependency waves must preserve exact final-scope authority";
  _ ← reject (existsb (fun w => db_max_parallel_workers (dp_budget p) <? Z.of_nat (length (dw_issues w))) (dp_waves p))
        "dependency waves must not exceed max_parallel_workers";
  _ ← reject (negb (bool_decide (NoDup expected_keys)) || negb (same_set expected_keys scope_keys))
        "expected states must cover final scope exactly once";
  _ ← reject (negb (forallb (fun e => planned p (ea_issue e)) (dp_expected_states p)))
        "expected states must preserve exact final-scope authority";
  _ ← reject (negb (forallb (fun i => bool_decide (is_Some (authority_binding p i))) (dp_final_scope p)))
        "input authorities must bind every final scope item";
  _ ← reject (existsb (contradicts_state p) (dp_expected_states p))
        "input authority snapshot contradicts expected state or labels";
  _ ← reject (bool_decide (dp_effect_allowlist p = [])) "effect allowlist must not be empty";
  _ ← _require_unique (dp_effect_allowlist p) "effect allowlist";
  reject (negb (in_order String.leb (map EffectClass_value (dp_effect_allowlist p))))
    "effect allowlist must use canonical sorted order".

Definition _validate_exception (x : DeliveryException) : res unit :=
  _ ← reject (bool_decide (dx_evidence_refs x = [])) "delivery exception must carry evidence";
  canonical_strings (dx_evidence_refs x) "exception evidence refs" "exception evidence refs".
Definition _validate_outcome (o : EffectOutcomeEvidence) : res unit :=
  _ ← reject (bool_decide (oe_keys o = []) || bool_decide (oe_evidence_refs o = []))
        "effect outcome must carry keys and evidence";
  _ ← _require_unique (oe_keys o) "effect outcome keys";
  _ ← _require_unique (oe_evidence_refs o) "effect outcome evidence refs";
  _ ← reject (negb (in_order String.leb (oe_keys o))) "effect outcome keys must use canonical sorted order";
  reject (negb (in_order String.leb (oe_evidence_refs o))) "effect outcome evidence refs must use canonical sorted order".

(** What an event of a type carries: a subject, an effect, a result of a version, an exception. *)
Definition event_shape (t : EventType) : bool * option string * option string * bool :=
  match t with
  | evt_run_started => (false, None, None, false)
  | evt_effect_succeeded => (true, Some REDUCER_EFFECT_VERSION, None, false)
  | evt_effect_failed => (true, Some REDUCER_EFFECT_VERSION, None, true)
  | evt_authority_changed => (true, None, None, false)
  | evt_worker_result_recorded => (true, None, Some WORKER_RESULT_VERSION, false)
  | evt_review_result_recorded => (true, None, Some REVIEW_RESULT_VERSION, false)
  | evt_timer_elapsed => (false, None, None, false)
  | evt_exception_recorded => (false, None, None, true)
  end.
Definition is_effect_result (t : EventType) : bool :=
  match t with evt_effect_succeeded | evt_effect_failed => true | _ => false end.
Definition check_ref (version : option string) (ref : option ContractRef) (absent required : string) : res unit :=
  match version with
  | None => reject (bool_decide (is_Some ref)) absent
  | Some v => reject (negb (match ref with Some r => String.eqb (cr_schema r) v | None => false end)) required
  end.
Definition _validate_event (e : ReducerEvent) : res unit :=
  _ ← check_some _validate_labels (ev_subject e);
  _ ← check_some _validate_exception (ev_exception e);
  _ ← check_some _validate_outcome (ev_outcome e);
  _ ← _validate_source_refs (ev_provenance e);
  _ ← reject (negb (String.eqb (cr_schema (ev_plan_ref e)) DELIVERY_PLAN_VERSION)) "reducer event must bind DeliveryPlan.v1";
  _ ← reject (negb (Bool.eqb (bool_decide (ev_type e = evt_run_started)) (ev_sequence e =? 0)))
        "run-started must be sequence zero and later events must not";
  let '(requires_subject, effect_version, result_version, requires_exception) := event_shape (ev_type e) in
  _ ← reject (negb (Bool.eqb (bool_decide (is_Some (ev_subject e))) requires_subject))
        (EventType_value (ev_type e) +:+ " subject authority does not match event contract");
  _ ← check_ref effect_version (ev_effect_ref e) (EventType_value (ev_type e) +:+ " must not carry an effect ref")
        (EventType_value (ev_type e) +:+ " requires a typed reducer-effect ref");
  _ ← check_ref result_version (ev_result_ref e) (EventType_value (ev_type e) +:+ " must not carry a result ref")
        (EventType_value (ev_type e) +:+ " requires the matching structured-result ref");
  _ ← reject (negb (Bool.eqb (bool_decide (is_Some (ev_exception e))) requires_exception))
        (EventType_value (ev_type e) +:+ " typed exception does not match event contract");
  _ ← reject (negb (Bool.eqb (bool_decide (is_Some (ev_outcome e))) (is_effect_result (ev_type e))))
        "effect result events must carry typed outcome evidence";
  _ ← reject (match ev_subject e with Some a => String.ltb (pv_created_at (ev_provenance e)) (as_observed_at a) | None => false end)
        "event authority observation must precede event provenance";
  let expected := delivery_event_input_hash (ev_run_id e) (ev_plan_ref e) (ev_sequence e) (ev_type e) (ev_subject e)
    (ev_effect_ref e) (ev_result_ref e) (ev_exception e) (ev_outcome e) in
  _ ← reject (negb (String.eqb (ev_input_hash e) expected)) "reducer event input hash must bind semantic input";
  reject (negb (String.eqb (ev_id e) (delivery_event_id expected))) "reducer event identity must derive from semantic input".

Definition is_digit (c : ascii) : bool := (48 <=? code c)%N && (code c <=? 57)%N.
Definition is_upper_hex (c : ascii) : bool := is_digit c || (65 <=? code c)%N && (code c <=? 70)%N.
Fixpoint after_digits (s : string) : string :=
  match s with String c r => if is_digit c then after_digits r else s | EmptyString => s end.
Fixpoint all_chars (p : ascii -> bool) (s : string) : bool :=
  match s with String c r => p c && all_chars p r | EmptyString => true end.
(** [registry:<repository>/issues/[1-9][0-9]*:KD-[0-9A-F]{12}]. *)
Definition canonical_defect_ref (repository ref : string) : bool :=
  let prefix := "registry:" +:+ repository +:+ "/issues/" in
  startswith prefix ref
  && let rest := str_drop (String.length prefix) ref in
     match rest with
     | String c _ =>
         is_digit c && negb (Ascii.eqb c "0"%char)
         && let tail := after_digits rest in
            startswith ":KD-" tail
            && let digits := str_drop 4 tail in (String.length digits =? 12)%nat && all_chars is_upper_hex digits
     | EmptyString => false
     end.

Definition requires_pull_request (c : EffectClass) : bool := match c with claim_issue | launch_worker => false | _ => true end.
Definition is_known_defect (c : EffectClass) : bool := match c with record_known_defect => true | _ => false end.
Definition subjectless_cause (t : EventType) : bool :=
  match t with evt_run_started | evt_timer_elapsed | evt_exception_recorded => true | _ => false end.
Definition _validate_effect (e : ReducerEffect) : res unit :=
  let cause := ef_causal_event e in
  _ ← _validate_event cause;
  _ ← _validate_authority_id (ef_issue e);
  _ ← check_all _validate_labels (ef_expected_authorities e);
  _ ← _validate_source_refs (ef_provenance e);
  _ ← reject (negb (String.eqb (cr_schema (ef_plan_ref e)) DELIVERY_PLAN_VERSION)) "reducer effect must bind DeliveryPlan.v1";
  _ ← reject (negb (String.eqb (ev_run_id cause) (ef_run_id e)) || negb (bool_decide (ev_plan_ref cause = ef_plan_ref e))
              || (ef_sequence e <=? ev_sequence cause)) "reducer effect must embed an earlier causal event";
  _ ← reject (bool_decide (ef_expected_authorities e = [])) "reducer effect must bind expected live authority";
  _ ← reject (existsb (fun a => String.ltb (pv_created_at (ef_provenance e)) (as_observed_at a)) (ef_expected_authorities e))
        "effect authority observations must precede effect provenance";
  _ ← _require_unique (map as_id (ef_expected_authorities e)) "effect expected authority IDs";
  _ ← _require_unique (ef_outcome_keys e) "effect expected outcome keys";
  _ ← reject (negb (in_order String.leb (map as_id (ef_expected_authorities e))))
        "effect expected authorities must use canonical sorted order";
  _ ← reject (negb (in_order String.leb (ef_outcome_keys e))) "effect expected outcome keys must use canonical sorted order";
  _ ← reject (negb (existsb (fun a => String.eqb (as_id a) (is_authority_id (ef_issue e))
                                      && String.eqb (as_hash a) (is_contract_hash (ef_issue e))) (ef_expected_authorities e)))
        "effect authority snapshots must bind the issue";
  _ ← match ev_subject cause with
      | None => reject (negb (subjectless_cause (ev_type cause)))
                  "subjectless effect cause must be a run-started, timer, or exception event"
      | Some a => reject (negb (bool_decide (ef_expected_authorities e = [a])))
                    "effect authority must bind the current causal event state"
      end;
  _ ← reject (requires_pull_request (ef_class e)
              && (bool_decide (ef_pull_request e = None) || bool_decide (ef_head_sha e = None)))
        (EffectClass_value (ef_class e) +:+ " requires pull request and exact head");
  _ ← reject (negb (requires_pull_request (ef_class e))
              && (bool_decide (is_Some (ef_pull_request e)) || bool_decide (is_Some (ef_head_sha e))))
        (EffectClass_value (ef_class e) +:+ " must not carry pull request or exact head");
  _ ← reject (negb (Bool.eqb (bool_decide (is_Some (ef_defect_ref e))) (is_known_defect (ef_class e))
                    && Bool.eqb (bool_decide (is_Some (ef_defect_hash e))) (is_known_defect (ef_class e))))
        "only known-defect effects require an exact defect target";
  _ ← reject (match ef_defect_ref e with
              | Some ref => is_known_defect (ef_class e) && negb (canonical_defect_ref (is_repository (ef_issue e)) ref)
              | None => false
              end) "known-defect target must use canonical repository registry identity";
  let expected := delivery_effect_input_hash (ef_run_id e) (ef_plan_ref e) (ef_class e) (ef_issue e) (ef_pull_request e)
    (ef_head_sha e) (ef_expected_authorities e) (ef_outcome_keys e) (ef_defect_ref e) (ef_defect_hash e) in
  _ ← reject (negb (String.eqb (ef_input_hash e) expected)) "reducer effect input hash must bind exact semantic input";
  _ ← reject (negb (String.eqb (ef_idempotency_key e) (delivery_effect_idempotency_key expected)))
        "reducer effect idempotency key must derive from semantic input";
  reject (negb (String.eqb (ef_id e) (ef_idempotency_key e))) "reducer effect identity must equal its logical idempotency key".

Definition allowed_exception (s : WorkerStatus) (k : ExceptionKind) : bool :=
  match s, k with
  | ws_blocked, (exc_authority_conflict | exc_dependency_blocked | exc_budget_exhausted | exc_review_blocking)
  | ws_failed, (exc_malformed_result | exc_external_state_unknown | exc_execution_failed)
  | ws_cancelled, exc_cancelled => true
  | _, _ => false
  end.
Definition _validate_result (r : StructuredWorkerResult) : res unit :=
  _ ← _validate_authority_id (wr_issue r);
  _ ← check_all _validate_exception (wr_exceptions r);
  _ ← _validate_source_refs (wr_provenance r);
  _ ← reject (negb (String.eqb (cr_schema (wr_plan_ref r)) DELIVERY_PLAN_VERSION)) "worker result must bind DeliveryPlan.v1";
  _ ← _require_unique (wr_changed_files r) "changed files";
  _ ← _require_unique (map ve_name (wr_validations r)) "validation evidence";
  _ ← _require_unique (map dx_code (wr_exceptions r)) "worker exceptions";
  _ ← reject (negb (in_order String.leb (wr_changed_files r))) "changed files must use canonical sorted order";
  _ ← reject (negb (in_order String.leb (map ve_name (wr_validations r)))) "validation evidence must use canonical sorted order";
  _ ← reject (negb (in_order String.leb (map dx_code (wr_exceptions r)))) "worker exceptions must use canonical sorted order";
  match wr_status r with
  | ws_completed =>
      _ ← reject (bool_decide (wr_head_sha r = None) || bool_decide (wr_pull_request r = None))
            "completed worker result requires exact head and pull request";
      _ ← reject (bool_decide (wr_validations r = [])) "completed worker result requires validation evidence";
      _ ← reject (existsb (fun v => negb (bool_decide (ve_status v = vs_passed))) (wr_validations r))
            "completed worker result cannot carry non-passing validation";
      reject (existsb (fun v => negb (bool_decide (ve_head_sha v = wr_head_sha r))) (wr_validations r))
        "worker validation must bind the exact result head"
  | s =>
      _ ← reject (bool_decide (wr_exceptions r = [])) "non-completed worker result requires a typed exception";
      reject (existsb (fun x => negb (allowed_exception s (dx_kind x))) (wr_exceptions r))
        "worker exception kinds must match terminal status"
  end.

Definition _validate_finding (f : ReviewFinding) : res unit :=
  _ ← reject (bool_decide (rf_evidence_refs f = [])) "review finding must carry evidence";
  canonical_strings (rf_evidence_refs f) "review finding evidence refs" "review finding evidence refs".
Definition is_blocking (f : ReviewFinding) : bool :=
  match rf_severity f with P0 | P1 => true | _ => false end || rf_protected_risk f || rf_false_green f.
Definition is_P2 (f : ReviewFinding) : bool := match rf_severity f with P2 => true | _ => false end.
Definition _validate_review (r : ReviewResult) : res unit :=
  let rejected := bool_decide (rr_disposition r = disp_reject) in
  _ ← _validate_required_checks (rr_policy r);
  _ ← _validate_authority_id (rr_issue r);
  _ ← check_all _validate_finding (rr_findings r);
  _ ← _validate_source_refs (rr_provenance r);
  _ ← reject (negb (String.eqb (cr_schema (rr_plan_ref r)) DELIVERY_PLAN_VERSION)) "review result must bind DeliveryPlan.v1";
  _ ← _require_unique (map rf_id (rr_findings r)) "review finding IDs";
  _ ← _require_unique (rr_known_defect_refs r) "known defect refs";
  _ ← reject (negb (in_order String.leb (map rf_id (rr_findings r)))) "review findings must use canonical sorted order";
  _ ← reject (negb (in_order String.leb (rr_known_defect_refs r))) "known defect refs must use canonical sorted order";
  _ ← reject (existsb is_blocking (rr_findings r) && negb rejected) "blocking review evidence requires reject disposition";
  _ ← reject ((rr_confidence r <? pp_minimum_confidence (rr_policy r)) && negb rejected)
        "low-confidence review evidence requires reject disposition";
  _ ← reject (bool_decide (rr_disposition r = disp_accept) && negb (bool_decide (rr_findings r = [])))
        "accept disposition must not carry findings";
  _ ← reject (bool_decide (rr_disposition r = disp_accept_with_risk) && bool_decide (rr_findings r = []))
        "accept_with_risk requires at least one finding";
  _ ← reject (negb (bool_decide (rr_disposition r = disp_accept_with_risk)) && negb (bool_decide (rr_known_defect_refs r = [])))
        "known defect refs are only valid for accept_with_risk disposition";
  reject (length (List.filter is_P2 (rr_findings r)) <? length (rr_known_defect_refs r))%nat
    "review cannot carry more known-defect refs than P2 findings".

Definition _validate_profile (p : DeliveryAcceptanceProfile) : res unit :=
  _ ← _validate_source_refs (ap_provenance p);
  _ ← reject (bool_decide (ap_required_evidence p = [])) "acceptance profile must require explicit delivery evidence";
  canonical_strings (map AcceptanceEvidenceKind_value (ap_required_evidence p)) "acceptance profile evidence"
    "acceptance profile evidence".
Definition unmet_evidence (p : DeliveryAcceptanceProfile) (observed : list AcceptanceEvidenceKind) : list AcceptanceEvidenceKind :=
  List.filter (fun k => negb (bool_decide (k ∈ observed))) (ap_required_evidence p).

Definition _validate_pack (p : WorkerContextPack) : res unit :=
  _ ← _validate_authority_id (cp_issue p);
  _ ← _validate_source_refs (cp_provenance p);
  _ ← reject (negb (String.eqb (cr_schema (cp_plan_ref p)) DELIVERY_PLAN_VERSION)) "worker context pack must bind DeliveryPlan.v1";
  _ ← reject (negb (String.eqb (cr_schema (cp_effect_ref p)) REDUCER_EFFECT_VERSION))
        "worker context pack must bind its authorizing reducer effect";
  _ ← reject (bool_decide (cp_verify_targets p = [])) "worker context pack must name its verify targets";
  _ ← _require_unique (cp_required_skills p) "context pack required skills";
  _ ← _require_unique (cp_verify_targets p) "context pack verify targets";
  _ ← _require_unique (source_keys (cp_context_refs p)) "context pack context refs";
  _ ← reject (negb (in_order String.leb (cp_required_skills p))) "context pack required skills must use canonical sorted order";
  _ ← reject (negb (in_order String.leb (cp_verify_targets p))) "context pack verify targets must use canonical sorted order";
  reject (negb (in_order pair_leb (source_keys (cp_context_refs p)))) "context pack context refs must use canonical sorted order".
Definition _validate_invocation (i : WorkerInvocation) : res unit :=
  _ ← _validate_authority_id (wi_issue i);
  _ ← _validate_source_refs (wi_provenance i);
  _ ← reject (negb (String.eqb (cr_schema (wi_plan_ref i)) DELIVERY_PLAN_VERSION)) "worker invocation must bind DeliveryPlan.v1";
  _ ← reject (negb (String.eqb (cr_schema (wi_effect_ref i)) REDUCER_EFFECT_VERSION))
        "worker invocation must bind its authorizing reducer effect";
  _ ← reject (negb (String.eqb (cr_schema (wi_context_pack_ref i)) WORKER_CONTEXT_PACK_VERSION))
        "worker invocation must bind worker-context-pack.v1";
  _ ← reject (negb (String.eqb (cr_hash (wi_context_pack_ref i)) (wi_context_pack_hash i)))
        "worker invocation must repeat the exact context-pack hash";
  let expected := worker_invocation_input_hash (wi_run_id i) (wi_plan_ref i) (wi_effect_ref i) (wi_issue i)
    (wi_base_head_sha i) (wi_context_pack_ref i) (wi_runtime_target i) in
  _ ← reject (negb (String.eqb (wi_input_hash i) expected)) "worker invocation input hash must bind exact semantic input";
  _ ← reject (negb (String.eqb (wi_idempotency_key i) (worker_invocation_idempotency_key expected)))
        "worker invocation idempotency key must derive from semantic input";
  reject (negb (String.eqb (wi_id i) (wi_idempotency_key i))) "worker invocation identity must equal its start-once key".
Definition _validate_result_v2 (r : WorkerResultV2) : res unit :=
  let domain := w2_delivery_result r in
  _ ← _validate_authority_id (w2_issue r);
  _ ← _validate_result domain;
  _ ← _validate_source_refs (w2_provenance r);
  _ ← reject (negb (String.eqb (cr_schema (w2_plan_ref r)) DELIVERY_PLAN_VERSION)) "worker result must bind DeliveryPlan.v1";
  _ ← reject (negb (String.eqb (cr_schema (w2_effect_ref r)) REDUCER_EFFECT_VERSION))
        "worker result must bind its authorizing reducer effect";
  _ ← reject (negb (String.eqb (cr_schema (w2_context_pack_ref r)) WORKER_CONTEXT_PACK_VERSION))
        "worker result must bind worker-context-pack.v1";
  _ ← reject (negb (String.eqb (cr_schema (w2_invocation_ref r)) WORKER_INVOCATION_VERSION))
        "worker result must bind worker-invocation.v1";
  _ ← reject (negb (String.eqb (cr_hash (w2_context_pack_ref r)) (w2_context_pack_hash r)))
        "worker result must repeat the exact context-pack hash";
  _ ← reject (negb (String.eqb (cr_id (w2_invocation_ref r)) (w2_invocation_key r)))
        "worker result must repeat the exact invocation start-once key";
  _ ← reject (negb (String.eqb (wr_run_id domain) (w2_run_id r)) || negb (bool_decide (wr_plan_ref domain = w2_plan_ref r))
              || negb (bool_decide (wr_issue domain = w2_issue r)) || negb (bool_decide (wr_head_sha domain = w2_head_sha r))
              || negb (bool_decide (wr_pull_request domain = w2_pull_request r)))
        "worker result envelope and delivery-domain result must bind one run, plan, Issue, head, and pull request";
  reject (String.ltb (pv_created_at (w2_provenance r)) (pv_created_at (wr_provenance domain)))
    "worker result envelope must follow its delivery-domain result".
Definition _validate_obligation (o : OutstandingEffectObligation) : res unit :=
  _ ← reject (bool_decide (ob_outcome_keys o = [])) "outstanding effect obligation must carry outcome keys";
  canonical_strings (ob_outcome_keys o) "outstanding effect outcome keys" "outstanding effect outcome keys".
End Hashes.
