(* ===== verification/DeliveryEvidence.v ===== *)
(** * Evidence of delivery runs

    src/app/builderops/delivery_orchestration_contracts.py: what an event may
    claim.  [validate_reducer_event_evidence] resolves the references of an
    event against the effects, events and results supplied with it, and
    [validate_reducer_effect_evidence] an effect against its causal event, which
    again is resolved; the chain ends because every effect on it is older than
    the one before ([evidence_settled]: one level of fuel per supplied effect is
    enough).  [validate_worker_authority_chain] ties a worker result to the
    launch that authorized it. *)
From S2P Require Import Prelude PyValue Sql DeliveryContracts.
Open Scope Z_scope.

(** ** Authorities *)

Definition _same_authority_state (left right : AuthoritySnapshot) : bool :=
  String.eqb (as_type left) (as_type right) && String.eqb (as_id left) (as_id right) && String.eqb (as_hash left) (as_hash right)
  && String.eqb (as_state left) (as_state right) && bool_decide (as_labels left = as_labels right).

Definition has_label (l : string) (labels : list string) : bool := existsb (String.eqb l) labels.
Definition _claim_transition_is_truthful (expected : AuthoritySnapshot) (authority_id content_hash observed_state : string)
    (observed_labels : list string) : bool :=
  if negb (String.eqb authority_id (as_id expected)) || negb (String.eqb content_hash (as_hash expected))
     || negb (String.eqb observed_state (as_state expected)) || negb (has_label "agent:ready" (as_labels expected))
  then false
  else
    let expected_labels := List.filter (fun l => negb (String.eqb l "agent:ready")) (as_labels expected) in
    negb (has_label "agent:ready" observed_labels)
    && forallb (fun l => has_label l observed_labels) expected_labels
    && forallb (fun l => has_label l ("agent:in-progress" :: expected_labels)) observed_labels.

Definition ordinary_labels (labels : list string) : list string := List.filter (fun l => negb (startswith "agent:" l)) labels.
Definition _effect_result_subject_is_truthful (effect : ReducerEffect) (event_type : EventType) (subject : AuthoritySnapshot) : bool :=
  match List.find (fun a => String.eqb (as_id a) (is_authority_id (ef_issue effect))) (ef_expected_authorities effect) with
  | None => false
  | Some expected =>
      if negb (String.eqb (as_type subject) (as_type expected)) || negb (String.eqb (as_id subject) (as_id expected))
         || negb (String.eqb (as_hash subject) (as_hash expected)) then false
      else if bool_decide (event_type = evt_effect_failed) then _same_authority_state subject expected
      else match ef_class effect with
           | claim_issue => _claim_transition_is_truthful expected (as_id subject) (as_hash subject) (as_state subject) (as_labels subject)
           | close_issue =>
               String.eqb (as_state subject) "closed"
               && same_set (ordinary_labels (as_labels subject)) (ordinary_labels (as_labels expected))
               && negb (existsb (startswith "agent:") (as_labels subject))
           | _ => _same_authority_state subject expected
           end
  end.

(** ** Resolution *)

Definition _SUCCESS_OUTCOME_BY_EFFECT (c : EffectClass) : EffectOutcomeState :=
  match c with
  | claim_issue => out_claimed | launch_worker => out_worker_launched | await_ci => out_checks_passed
  | request_review => out_review_recorded | merge_pull_request => out_merged | close_issue => out_closed
  | record_known_defect => out_known_defect_recorded | record_delivery_receipt => out_receipt_recorded
  end.
Definition advances_authority (t : EventType) : bool :=
  match t with evt_effect_succeeded | evt_authority_changed => true | _ => false end.

(** The event with the largest (sequence, snapshot text), the first of equals. *)
Fixpoint latest (best : ReducerEvent) (l : list ReducerEvent) : ReducerEvent :=
  match l with
  | [] => best
  | e :: l =>
      let text x := canonical_json (opt_value dump_authority (ev_subject x)) in
      if (ev_sequence best <? ev_sequence e) || (ev_sequence best =? ev_sequence e) && String.ltb (text best) (text e)
      then latest e l else latest best l
  end.
Definition resolve_current_authority (authority_id : string) (planned_authority : AuthoritySnapshot) (run_id : string)
    (plan_ref : ContractRef) (before_sequence : Z) (prior_events : list ReducerEvent) : AuthoritySnapshot :=
  let advancing := List.filter (fun e =>
    String.eqb (ev_run_id e) run_id && bool_decide (ev_plan_ref e = plan_ref) && (ev_sequence e <? before_sequence)
    && advances_authority (ev_type e)
    && match ev_subject e with Some a => String.eqb (as_id a) authority_id | None => false end) prior_events in
  match advancing with
  | [] => planned_authority
  | e :: l => default planned_authority (ev_subject (latest e l))
  end.

Record supplied : Type := mkSupplied {
  su_effects : list ReducerEffect;
  su_events : list ReducerEvent;
  su_workers : list StructuredWorkerResult;
  su_reviews : list ReviewResult }.

Section Evidence.
Context (sha256_hex : string -> string) (plan : DeliveryPlan).
Abbreviation plan_ref := (plan_ref_of sha256_hex plan).

Definition causal_effect (cause : ReducerEvent) (effects : list ReducerEffect) : option ReducerEffect :=
  match ev_effect_ref cause with
  | None => None
  | Some ref => List.find (fun e => String.eqb (ef_id e) (cr_id ref)) effects
  end.
Definition causal_worker (cause : ReducerEvent) (workers : list StructuredWorkerResult) : option StructuredWorkerResult :=
  match ev_result_ref cause with
  | None => None
  | Some ref => if String.eqb (cr_schema ref) WORKER_RESULT_VERSION
                then List.find (fun r => String.eqb (wr_id r) (cr_id ref)) workers else None
  end.
Definition causal_review (cause : ReducerEvent) (reviews : list ReviewResult) : option ReviewResult :=
  match ev_result_ref cause with
  | None => None
  | Some ref => if String.eqb (cr_schema ref) REVIEW_RESULT_VERSION
                then List.find (fun r => String.eqb (rr_id r) (cr_id ref)) reviews else None
  end.
Definition causal_pr_and_head (effect : option ReducerEffect) (worker : option StructuredWorkerResult) (review : option ReviewResult)
  : option (option Z * option string) :=
  match effect, worker, review with
  | Some e, _, _ => Some (ef_pull_request e, ef_head_sha e)
  | None, Some w, _ => Some (wr_pull_request w, wr_head_sha w)
  | None, None, Some r => Some (Some (rr_pull_request r), Some (rr_head_sha r))
  | None, None, None => None
  end.

(** [validate_reducer_effect_evidence], with the resolution of its causal event as an argument. *)
Definition effect_evidence
    (resolve : ReducerEvent -> option ReducerEffect -> option StructuredWorkerResult -> option ReviewResult -> supplied -> res unit)
    (effect : ReducerEffect) (su : supplied) : res unit :=
  let cause := ef_causal_event effect in
  _ ← reject (negb (bool_decide (ef_plan_ref effect = plan_ref))) "reducer effect does not bind the supplied plan";
  _ ← reject (negb (String.eqb (ev_run_id cause) (ef_run_id effect)) || negb (bool_decide (ev_plan_ref cause = plan_ref)))
        "reducer effect must resolve the exact run-started event";
  let c_effect := causal_effect cause (su_effects su) in
  let c_worker := causal_worker cause (su_workers su) in
  let c_review := causal_review cause (su_reviews su) in
  let before := List.filter (fun e => ev_sequence e <? ev_sequence cause) (su_events su) in
  _ ← resolve cause c_effect c_worker c_review (mkSupplied (su_effects su) before (su_workers su) (su_reviews su));
  _ ← reject (match causal_pr_and_head c_effect c_worker c_review with
              | Some target => negb (bool_decide (target = (ef_pull_request effect, ef_head_sha effect)))
              | None => false
              end) "reducer effect PR and head must match its causal evidence";
  _ ← reject (String.ltb (pv_created_at (ef_provenance effect)) (pv_created_at (dp_provenance plan)))
        "reducer effect must follow plan provenance";
  _ ← reject (String.ltb (pv_created_at (ef_provenance effect)) (pv_created_at (ev_provenance cause)))
        "reducer effect must follow the run-started event";
  _ ← reject (negb (planned plan (ef_issue effect))) "reducer effect issue is outside exact plan scope";
  _ ← reject (negb (bool_decide (ef_class effect ∈ dp_effect_allowlist plan))) "reducer effect class is outside the plan allowlist";
  keys ← delivery_effect_expected_outcome_keys (ef_class effect) (ef_run_id effect) (ef_issue effect) (ef_pull_request effect)
           (pp_required_check_names (dp_policy plan)) (ef_defect_ref effect) (ef_defect_hash effect);
  _ ← reject (negb (bool_decide (ef_outcome_keys effect = keys))) "reducer effect outcome keys must match effect-class semantics";
  let expected_state := List.find (fun e => bool_decide (scope_key (ea_issue e) = scope_key (ef_issue effect))) (dp_expected_states plan) in
  let of_issue a := String.eqb (as_id a) (is_authority_id (ef_issue effect)) in
  let lacks := "reducer effect lacks the plan's expected live authority" in
  match expected_state, List.filter of_issue (ef_expected_authorities effect), List.filter of_issue (dp_input_authorities plan) with
  | Some _, [matching], [planned_authority] =>
      let current := match ev_subject cause with
                     | Some subject => subject
                     | None => resolve_current_authority (is_authority_id (ef_issue effect)) planned_authority (ef_run_id effect)
                                 (ef_plan_ref effect) (ev_sequence cause) before
                     end in
      reject (negb (_same_authority_state matching current)) lacks
  | _, _, _ => Raise (ValueError lacks)
  end.

(** What an effect result has to say about the effect. *)
Definition misreports (event : ReducerEvent) (effect : ReducerEffect) (outcome : EffectOutcomeEvidence) : bool :=
  let expected := match ev_type event with evt_effect_succeeded => _SUCCESS_OUTCOME_BY_EFFECT (ef_class effect) | _ => out_failed end in
  negb (String.eqb (ef_run_id effect) (ev_run_id event)) || (ev_sequence event <=? ef_sequence effect)
  || String.ltb (pv_created_at (ev_provenance event)) (pv_created_at (ef_provenance effect))
  || match ev_subject event with
     | None => true
     | Some subject =>
         negb (String.eqb (as_id subject) (is_authority_id (ef_issue effect)))
         || negb (String.eqb (as_hash subject) (is_contract_hash (ef_issue effect)))
         || negb (_effect_result_subject_is_truthful effect (ev_type event) subject)
         || String.ltb (as_observed_at subject) (pv_created_at (ef_provenance effect))
     end
  || negb (bool_decide (oe_effect_class outcome = ef_class effect))
  || negb (String.eqb (oe_idempotency_key outcome) (ef_idempotency_key effect))
  || negb (bool_decide (oe_state outcome = expected)) || negb (bool_decide (oe_keys outcome = ef_outcome_keys effect))
  || String.ltb (oe_observed_at outcome) (pv_created_at (ef_provenance effect))
  || String.ltb (pv_created_at (ev_provenance event)) (oe_observed_at outcome).

(** The issue an event is about, once its reference resolves. *)
Definition referenced_issue (fuel_resolve : ReducerEffect -> supplied -> res unit) (event : ReducerEvent) (effect : option ReducerEffect)
    (worker : option StructuredWorkerResult) (review : option ReviewResult) (su : supplied) : res (option IssueScope) :=
  match ev_type event with
  | evt_effect_succeeded | evt_effect_failed =>
      match effect with
      | None => Raise (ValueError "effect event requires supplied reducer-effect evidence")
      | Some effect =>
          _ ← reject (negb (bool_decide (ev_effect_ref event = Some (effect_ref_of sha256_hex effect))))
                "reducer event effect ref does not resolve";
          _ ← fuel_resolve effect (mkSupplied (List.filter (fun e => ef_sequence e <? ef_sequence effect) (su_effects su))
                (List.filter (fun e => ev_sequence e <? ev_sequence event) (su_events su)) (su_workers su) (su_reviews su));
          match ev_outcome event with
          | None => Raise (AssertionError "")
          | Some outcome =>
              _ ← reject (misreports event effect outcome)
                    "reducer effect-result event must match run and carry exact typed post-effect outcome evidence";
              Ok (Some (ef_issue effect))
          end
      end
  | evt_worker_result_recorded =>
      match worker with
      | None => Raise (ValueError "worker event requires supplied worker-result evidence")
      | Some r =>
          _ ← reject (negb (bool_decide (ev_result_ref event = Some (worker_ref_of sha256_hex r)))
                      || negb (bool_decide (wr_plan_ref r = plan_ref)) || negb (String.eqb (wr_run_id r) (ev_run_id event))
                      || String.ltb (pv_created_at (ev_provenance event)) (pv_created_at (wr_provenance r)))
                "reducer worker-result event does not resolve";
          Ok (Some (wr_issue r))
      end
  | evt_review_result_recorded =>
      match review with
      | None => Raise (ValueError "review event requires supplied review-result evidence")
      | Some r =>
          _ ← reject (negb (bool_decide (ev_result_ref event = Some (review_ref_of sha256_hex r)))
                      || negb (bool_decide (rr_plan_ref r = plan_ref)) || negb (String.eqb (rr_run_id r) (ev_run_id event))
                      || negb (bool_decide (rr_policy r = dp_policy plan))
                      || String.ltb (pv_created_at (ev_provenance event)) (pv_created_at (rr_provenance r)))
                "reducer review-result event does not resolve";
          Ok (Some (rr_issue r))
      end
  | evt_authority_changed =>
      match ev_subject event with
      | None => Raise (AssertionError "")
      | Some subject =>
          match List.find (fun i => String.eqb (is_authority_id i) (as_id subject)) (dp_final_scope plan),
                List.find (fun e => String.eqb (is_authority_id (ea_issue e)) (as_id subject)) (dp_expected_states plan) with
          | Some issue, Some _ =>
              match authority_binding plan issue with
              | None => Raise (ValueError "authority-change event lacks planned authority")
              | Some planned_authority =>
                  _ ← reject (_same_authority_state subject
                        (resolve_current_authority (as_id subject) planned_authority (ev_run_id event) (ev_plan_ref event)
                           (ev_sequence event) (su_events su)))
                        "authority-change event must carry changed authority";
                  Ok None
              end
          | _, _ => Raise (ValueError "authority-change event is outside exact plan scope")
          end
      end
  | _ => Ok None
  end.
Definition event_evidence (fuel_resolve : ReducerEffect -> supplied -> res unit) (event : ReducerEvent) (effect : option ReducerEffect)
    (worker : option StructuredWorkerResult) (review : option ReviewResult) (su : supplied) : res unit :=
  _ ← reject (negb (bool_decide (ev_plan_ref event = plan_ref))) "reducer event does not bind the supplied plan";
  _ ← reject (String.ltb (pv_created_at (ev_provenance event)) (pv_created_at (dp_provenance plan)))
        "reducer event must follow plan provenance";
  found ← referenced_issue fuel_resolve event effect worker review su;
  match found with
  | None => Ok tt
  | Some issue =>
      _ ← reject (negb (planned plan issue)) "reducer event references evidence outside exact plan scope";
      let contradicts := "reducer event subject contradicts referenced evidence" in
      match ev_subject event, authority_binding plan issue with
      | Some subject, Some planned_authority =>
          if is_effect_result (ev_type event) then Ok tt
          else reject (negb (_same_authority_state subject
                 (resolve_current_authority (is_authority_id issue) planned_authority (ev_run_id event) (ev_plan_ref event)
                    (ev_sequence event) (su_events su)))) contradicts
      | _, _ => Raise (ValueError contradicts)
      end
  end.

(** The chain of causes, with fuel. *)
Definition out_of_fuel : exn := OtherException "RecursionError".
Fixpoint resolve_event (fuel : nat) (event : ReducerEvent) (effect : option ReducerEffect) (worker : option StructuredWorkerResult)
    (review : option ReviewResult) (su : supplied) : res unit :=
  event_evidence (fun effect su =>
    match fuel with O => Raise out_of_fuel | S fuel => effect_evidence (resolve_event fuel) effect su end) event effect worker review su.
Definition validate_reducer_event_evidence (event : ReducerEvent) (effect : option ReducerEffect)
    (worker : option StructuredWorkerResult) (review : option ReviewResult) (su : supplied) : res unit :=
  resolve_event (S (length (su_effects su))) event effect worker review su.
Definition validate_reducer_effect_evidence (effect : ReducerEffect) (su : supplied) : res unit :=
  effect_evidence (resolve_event (S (length (su_effects su)))) effect su.
End Evidence.
