(* ===== verification/DeliveryReducer.v ===== *)
(** * The delivery-run reducer

    src/app/builderops/delivery_reducer.py: admitted events and lifecycle
    commands drive the Issues of one approved run through their phases; the
    reducer proposes effects, ledgers every effect it authorizes, and refuses
    what does not fit.  [reduce_delivery_run] and [reduce_lifecycle_command] are
    the two doors; [admit_reducer_event] is the only way to an event.

    Re-parsing a contract from its canonical bytes is running its validators
    again.  The persisted sidecars of [replay_delivery_sidecar] are left out
    (parsing of JSON by pydantic). *)
From S2P Require Import Prelude PyValue Sql DeliveryContracts DeliveryEvidence.
Open Scope Z_scope.

Inductive RunPhase : Type :=
  | ph_admitted | ph_claiming | ph_launching | ph_working | ph_awaiting_ci | ph_awaiting_review | ph_repairing
  | ph_recording_defect | ph_merging | ph_closing | ph_recording_receipt | ph_delivered | ph_blocked
  | ph_owner_decision | ph_system_blocked | ph_cancelled | ph_superseded.
Inductive ReducerSignal : Type :=
  | sig_run_started | sig_timer_elapsed | sig_claim_succeeded | sig_worker_launched | sig_checks_passed | sig_review_recorded
  | sig_known_defect_recorded | sig_merge_succeeded | sig_closure_succeeded | sig_receipt_recorded | sig_effect_failed
  | sig_authority_changed | sig_worker_result_recorded | sig_review_result_recorded | sig_exception_recorded.
Inductive RefusalReason : Type :=
  | duplicate_event | duplicate_command | foreign_run | stale_run_version | stale_plan_binding | terminal_run | paused_run
  | illegal_transition | pull_request_identity_conflict | head_evidence_conflict | unauthorized_command | unauthorized_effect.
Inductive LifecycleState : Type := life_active | life_paused | life_cancelled | life_superseded.
Inductive LifecycleVerb : Type := cmd_pause | cmd_resume | cmd_cancel | cmd_supersede.
#[export] Instance RunPhase_eq_dec : EqDecision RunPhase.
Proof. solve_decision. Defined.
#[export] Instance ReducerSignal_eq_dec : EqDecision ReducerSignal.
Proof. solve_decision. Defined.
#[export] Instance RefusalReason_eq_dec : EqDecision RefusalReason.
Proof. solve_decision. Defined.
#[export] Instance LifecycleState_eq_dec : EqDecision LifecycleState.
Proof. solve_decision. Defined.

Definition TERMINAL_PHASES (p : RunPhase) : bool :=
  match p with
  | ph_delivered | ph_blocked | ph_repairing | ph_owner_decision | ph_system_blocked | ph_cancelled | ph_superseded => true
  | _ => false
  end.
Definition ACTIVE_PHASES (p : RunPhase) : bool := negb (TERMINAL_PHASES p).

(** ** The transition matrix *)

Record TransitionRule : Type := mkRule {
  tr_legal : bool;
  tr_target_phase : option RunPhase;
  tr_emits : list EffectClass;
  tr_prerequisites : list string }.
Definition _ILLEGAL : TransitionRule := mkRule false None [] [].
Definition _legal (target_phase : option RunPhase) (prerequisites : list string) (emits : list EffectClass) : TransitionRule :=
  mkRule true target_phase emits prerequisites.
Definition REDUCER_TRANSITION_MATRIX (p : RunPhase) (s : ReducerSignal) : TransitionRule :=
  match p, s with
  | ph_admitted, (sig_run_started | sig_timer_elapsed) =>
      _legal (Some ph_claiming) ["the Issue's dependency wave is open"; "every earlier wave Issue reached delivered terminality"]
        [claim_issue]
  | ph_claiming, sig_claim_succeeded =>
      _legal (Some ph_launching) ["claim_issue succeeded with a truthful ready-to-claimed readback"] [launch_worker]
  | ph_launching, sig_worker_launched =>
      _legal (Some ph_working) ["launch_worker succeeded for the authorized invocation identity"] []
  | ph_working, sig_worker_result_recorded =>
      _legal None ["the worker result resolves the full pack/invocation/effect chain";
                   "the result names the launch effect this run authorized";
                   "the result repeats the reducer-authorized pull-request identity"] [await_ci]
  | ph_awaiting_ci, sig_checks_passed =>
      _legal (Some ph_awaiting_review) ["await_ci succeeded at the authorized pull request and exact head"] [request_review]
  | ph_awaiting_review, sig_review_recorded =>
      _legal (Some ph_awaiting_review) ["request_review succeeded; the structured verdict is still pending"] []
  | ph_awaiting_review, sig_review_result_recorded =>
      _legal None ["the structured verdict binds the authorized pull request and head";
                   "severity routing resolves from the verdict, never from prose"] [merge_pull_request; record_known_defect]
  | ph_recording_defect, sig_known_defect_recorded =>
      _legal (Some ph_merging) ["record_known_defect succeeded for the exact registry and finding"] [merge_pull_request]
  | ph_merging, sig_merge_succeeded =>
      _legal (Some ph_closing) ["merge_pull_request succeeded at the authorized exact head"] [close_issue]
  | ph_closing, sig_closure_succeeded =>
      _legal (Some ph_recording_receipt) ["close_issue succeeded with an observed closed Issue"] [record_delivery_receipt]
  | ph_recording_receipt, sig_receipt_recorded =>
      _legal (Some ph_delivered) ["record_delivery_receipt succeeded";
                                  "the bound acceptance profile is satisfied by lower-level evidence"] []
  | p, sig_effect_failed =>
      if ACTIVE_PHASES p
      then _legal None ["the failed effect resolves its exact idempotency and outcome keys";
                        "the failed effect names the authorized pull request and head";
                        "only a red required check awaited in awaiting_ci defers to repair"] []
      else _ILLEGAL
  | p, sig_authority_changed =>
      if ACTIVE_PHASES p then _legal None ["the observed authority change resolves against the immutable plan"] [] else _ILLEGAL
  | p, sig_exception_recorded =>
      if ACTIVE_PHASES p
      then _legal None ["the typed exception kind selects owner-decision, system-block, or block"] [] else _ILLEGAL
  | p, sig_timer_elapsed =>
      if ACTIVE_PHASES p then _legal (Some p) ["a timer tick re-derives due effects and never invents evidence"] [] else _ILLEGAL
  | _, _ => _ILLEGAL
  end.

(** ** State *)

Record EffectProposal : Type := mkProposal {
  po_class : EffectClass;
  po_issue : IssueScope;
  po_authorities : list AuthoritySnapshot;
  po_pull_request : option Z;
  po_head_sha : option string;
  po_defect_ref : option string;
  po_defect_hash : option string }.
Record EffectLedgerEntry : Type := mkEntry {
  lg_class : EffectClass;
  lg_key : string;
  lg_outcome_keys : list string;
  lg_outcome : option EffectOutcomeState;
  lg_proposal : option EffectProposal }.
Definition _FAILURE_PROVES_UNCOMMITTED (c : EffectClass) : bool :=
  match c with claim_issue | await_ci | close_issue => true | _ => false end.
Definition is_resolved_uncommitted (e : EffectLedgerEntry) : bool :=
  bool_decide (lg_outcome e = Some out_failed) && _FAILURE_PROVES_UNCOMMITTED (lg_class e).

Record IssueRunState : Type := mkIssueRun {
  ir_issue : IssueScope;
  ir_wave_index : Z;
  ir_authority : AuthoritySnapshot;
  ir_phase : RunPhase;
  ir_pull_request : option Z;
  ir_head_sha : option string;
  ir_invocation_key : option string;
  ir_defect_ref : option string;
  ir_defect_hash : option string;
  ir_evidence : list AcceptanceEvidenceKind;
  ir_ledger : list EffectLedgerEntry;
  ir_blocked_reason : option string }.
Definition unreconciled_effects (i : IssueRunState) : list EffectLedgerEntry :=
  List.filter (fun e => negb (is_resolved_uncommitted e)) (ir_ledger i).

Record DeliveryRunState : Type := mkRun {
  dr_run_id : string;
  dr_plan_ref : ContractRef;
  dr_profile_ref : ContractRef;
  dr_profile_hash : string;
  dr_required_evidence : list AcceptanceEvidenceKind;
  dr_required_check_names : list string;
  dr_control_scopes : list string;
  dr_version : Z;
  dr_lifecycle : LifecycleState;
  dr_issues : list IssueRunState;
  dr_seen_events : list string;
  dr_seen_commands : list string;
  dr_superseding_ref : option ContractRef }.
Definition key_of (i : IssueRunState) : string * Z := scope_key (ir_issue i).
Definition issue_state (s : DeliveryRunState) (key : string * Z) : option IssueRunState :=
  List.find (fun i => bool_decide (key_of i = key)) (dr_issues s).
Definition is_terminal (s : DeliveryRunState) : bool :=
  match dr_lifecycle s with
  | life_cancelled | life_superseded => true
  | _ => forallb (fun i => TERMINAL_PHASES (ir_phase i)) (dr_issues s)
  end.

Record Reduction : Type := mkReduction {
  rd_state : DeliveryRunState;
  rd_effects : list EffectProposal;
  rd_refusal : option RefusalReason;
  rd_obligations : list OutstandingEffectObligation }.
Record LifecycleCommand : Type := mkCommand {
  lc_command : LifecycleVerb;
  lc_id : string;
  lc_run_id : string;
  lc_expected_version : Z;
  lc_issued_by : ActorIdentity;
  lc_issued_at : string;
  lc_superseding_ref : option ContractRef }.

(** Updates. *)
Definition with_phase (p : RunPhase) (i : IssueRunState) : IssueRunState :=
  mkIssueRun (ir_issue i) (ir_wave_index i) (ir_authority i) p (ir_pull_request i) (ir_head_sha i) (ir_invocation_key i)
    (ir_defect_ref i) (ir_defect_hash i) (ir_evidence i) (ir_ledger i) (ir_blocked_reason i).
Definition with_reason (r : string) (i : IssueRunState) : IssueRunState :=
  mkIssueRun (ir_issue i) (ir_wave_index i) (ir_authority i) (ir_phase i) (ir_pull_request i) (ir_head_sha i) (ir_invocation_key i)
    (ir_defect_ref i) (ir_defect_hash i) (ir_evidence i) (ir_ledger i) (Some r).
Definition with_authority (a : AuthoritySnapshot) (i : IssueRunState) : IssueRunState :=
  mkIssueRun (ir_issue i) (ir_wave_index i) a (ir_phase i) (ir_pull_request i) (ir_head_sha i) (ir_invocation_key i)
    (ir_defect_ref i) (ir_defect_hash i) (ir_evidence i) (ir_ledger i) (ir_blocked_reason i).
Definition with_target (pr : option Z) (head : option string) (i : IssueRunState) : IssueRunState :=
  mkIssueRun (ir_issue i) (ir_wave_index i) (ir_authority i) (ir_phase i) pr head (ir_invocation_key i)
    (ir_defect_ref i) (ir_defect_hash i) (ir_evidence i) (ir_ledger i) (ir_blocked_reason i).
Definition with_invocation (k : string) (i : IssueRunState) : IssueRunState :=
  mkIssueRun (ir_issue i) (ir_wave_index i) (ir_authority i) (ir_phase i) (ir_pull_request i) (ir_head_sha i) (Some k)
    (ir_defect_ref i) (ir_defect_hash i) (ir_evidence i) (ir_ledger i) (ir_blocked_reason i).
Definition with_defect (ref hash : string) (i : IssueRunState) : IssueRunState :=
  mkIssueRun (ir_issue i) (ir_wave_index i) (ir_authority i) (ir_phase i) (ir_pull_request i) (ir_head_sha i) (ir_invocation_key i)
    (Some ref) (Some hash) (ir_evidence i) (ir_ledger i) (ir_blocked_reason i).
Definition with_kinds (l : list AcceptanceEvidenceKind) (i : IssueRunState) : IssueRunState :=
  mkIssueRun (ir_issue i) (ir_wave_index i) (ir_authority i) (ir_phase i) (ir_pull_request i) (ir_head_sha i) (ir_invocation_key i)
    (ir_defect_ref i) (ir_defect_hash i) l (ir_ledger i) (ir_blocked_reason i).
Definition with_ledger (l : list EffectLedgerEntry) (i : IssueRunState) : IssueRunState :=
  mkIssueRun (ir_issue i) (ir_wave_index i) (ir_authority i) (ir_phase i) (ir_pull_request i) (ir_head_sha i) (ir_invocation_key i)
    (ir_defect_ref i) (ir_defect_hash i) (ir_evidence i) l (ir_blocked_reason i).
Definition with_issues (l : list IssueRunState) (s : DeliveryRunState) : DeliveryRunState :=
  mkRun (dr_run_id s) (dr_plan_ref s) (dr_profile_ref s) (dr_profile_hash s) (dr_required_evidence s) (dr_required_check_names s)
    (dr_control_scopes s) (dr_version s) (dr_lifecycle s) l (dr_seen_events s) (dr_seen_commands s) (dr_superseding_ref s).
Definition next_version (lifecycle : LifecycleState) (events commands : list string) (s : DeliveryRunState) : DeliveryRunState :=
  mkRun (dr_run_id s) (dr_plan_ref s) (dr_profile_ref s) (dr_profile_hash s) (dr_required_evidence s) (dr_required_check_names s)
    (dr_control_scopes s) (dr_version s + 1) lifecycle (dr_issues s) events commands (dr_superseding_ref s).
Definition superseded_by (r : option ContractRef) (s : DeliveryRunState) : DeliveryRunState :=
  mkRun (dr_run_id s) (dr_plan_ref s) (dr_profile_ref s) (dr_profile_hash s) (dr_required_evidence s) (dr_required_check_names s)
    (dr_control_scopes s) (dr_version s) (dr_lifecycle s) (dr_issues s) (dr_seen_events s) (dr_seen_commands s) r.

(** ** Admission *)

Record AdmittedEvent : Type := mkAdmitted {
  ad_event : ReducerEvent;
  ad_signal : ReducerSignal;
  ad_effect : option ReducerEffect;
  ad_worker : option WorkerResultV2;
  ad_review : option ReviewResult;
  ad_issue : option IssueScope }.
(** What a caller supplies with an event. *)
Record evidence : Type := mkEvidence {
  sp_effect : option ReducerEffect;
  sp_worker : option WorkerResultV2;
  sp_review : option ReviewResult;
  sp_pack : option WorkerContextPack;
  sp_invocation : option WorkerInvocation;
  sp_launch : option ReducerEffect;
  sp_prior : supplied }.

Definition ReducerAdmissionError (msg : string) : exn := ValueError msg.
Definition _SUCCESS_SIGNAL_BY_OUTCOME (o : EffectOutcomeState) : res ReducerSignal :=
  match o with
  | out_claimed => Ok sig_claim_succeeded | out_worker_launched => Ok sig_worker_launched
  | out_checks_passed => Ok sig_checks_passed | out_review_recorded => Ok sig_review_recorded
  | out_known_defect_recorded => Ok sig_known_defect_recorded | out_merged => Ok sig_merge_succeeded
  | out_closed => Ok sig_closure_succeeded | out_receipt_recorded => Ok sig_receipt_recorded
  | out_failed => Raise (KeyError "failed")
  end.
Definition _issue_for_authority (plan : DeliveryPlan) (authority_id : string) : option IssueScope :=
  List.find (fun i => String.eqb (is_authority_id i) authority_id) (dp_final_scope plan).

Definition envelope_required : exn := ReducerAdmissionError
  "a worker-result event requires the carrier-neutral worker result envelope; delivery-domain bytes alone cannot advance the reducer".
Definition _resolve_signal (event : ReducerEvent) (plan : DeliveryPlan) (effect : option ReducerEffect)
    (worker : option WorkerResultV2) (review : option ReviewResult) : res (ReducerSignal * option IssueScope) :=
  match ev_type event with
  | evt_run_started => Ok (sig_run_started, None)
  | evt_timer_elapsed => Ok (sig_timer_elapsed, None)
  | evt_exception_recorded => Ok (sig_exception_recorded, None)
  | evt_authority_changed =>
      match ev_subject event with
      | None => Raise (AssertionError "")
      | Some a => Ok (sig_authority_changed, _issue_for_authority plan (as_id a))
      end
  | evt_worker_result_recorded =>
      match worker with
      | None => Raise envelope_required
      | Some r => Ok (sig_worker_result_recorded, Some (w2_issue r))
      end
  | evt_review_result_recorded =>
      match review with
      | None => Raise (AssertionError "")
      | Some r => Ok (sig_review_result_recorded, Some (rr_issue r))
      end
  | t =>
      match effect with
      | None => Raise (ReducerAdmissionError "an effect-result event requires its resolved reducer effect")
      | Some e =>
          match t with
          | evt_effect_failed => Ok (sig_effect_failed, Some (ef_issue e))
          | _ =>
              match ev_outcome event with
              | None => Raise (AssertionError "")
              | Some o => s ← _SUCCESS_SIGNAL_BY_OUTCOME (oe_state o); Ok (s, Some (ef_issue e))
              end
          end
      end
  end.

Section Reducer.
Context (sha256_hex : string -> string).

Definition validate_worker_authority_chain (result : WorkerResultV2) (pack : WorkerContextPack) (invocation : WorkerInvocation)
    (effect : ReducerEffect) (plan : DeliveryPlan) : res unit :=
  let plan_ref := plan_ref_of sha256_hex plan in
  let effect_ref := effect_ref_of sha256_hex effect in
  let pack_ref := pack_ref_of sha256_hex pack in
  let invocation_ref := invocation_ref_of sha256_hex invocation in
  _ ← reject (negb (bool_decide (ef_class effect = launch_worker))) "worker authority chain must resolve a launch-worker effect";
  _ ← reject (negb (bool_decide (ef_plan_ref effect = plan_ref))) "worker authority chain effect does not bind the plan";
  _ ← reject (negb (bool_decide (cp_plan_ref pack = plan_ref)) || negb (bool_decide (wi_plan_ref invocation = plan_ref))
              || negb (bool_decide (w2_plan_ref result = plan_ref))) "worker authority chain must bind exactly one plan";
  _ ← reject (negb (bool_decide (cp_effect_ref pack = effect_ref)) || negb (bool_decide (wi_effect_ref invocation = effect_ref))
              || negb (bool_decide (w2_effect_ref result = effect_ref)))
        "worker authority chain must bind exactly one authorizing effect";
  _ ← reject (negb (bool_decide (wi_context_pack_ref invocation = pack_ref))
              || negb (bool_decide (w2_context_pack_ref result = pack_ref)))
        "worker authority chain must resolve one context pack";
  _ ← reject (negb (bool_decide (w2_invocation_ref result = invocation_ref))) "worker authority chain must resolve one invocation";
  _ ← reject (negb (String.eqb (ef_run_id effect) (w2_run_id result)) || negb (String.eqb (cp_run_id pack) (w2_run_id result))
              || negb (String.eqb (wi_run_id invocation) (w2_run_id result))) "worker authority chain must bind exactly one run";
  _ ← reject (negb (bool_decide (ef_issue effect = w2_issue result)) || negb (bool_decide (cp_issue pack = w2_issue result))
              || negb (bool_decide (wi_issue invocation = w2_issue result))) "worker authority chain must bind exactly one Issue";
  _ ← reject (negb (bool_decide (cp_base_head_sha pack = w2_base_head_sha result))
              || negb (bool_decide (wi_base_head_sha invocation = w2_base_head_sha result)))
        "worker authority chain must bind exactly one base head";
  _ ← reject (negb (String.eqb (w2_invocation_key result) (wi_idempotency_key invocation)))
        "worker authority chain must bind exactly one start-once identity";
  reject (negb (planned plan (w2_issue result))) "worker authority chain Issue is outside exact plan scope".

Definition admit_reducer_event (event : ReducerEvent) (plan : DeliveryPlan) (sp : evidence) : res AdmittedEvent :=
  _ ← _validate_plan plan;
  _ ← _validate_event sha256_hex event;
  _ ← (if bool_decide (ev_type event = evt_worker_result_recorded) && bool_decide (sp_worker sp = None)
       then Raise envelope_required else Ok tt);
  _ ← check_some (_validate_effect sha256_hex) (sp_effect sp);
  _ ← check_some _validate_review (sp_review sp);
  domain ← match sp_worker sp with
           | None => Ok None
           | Some result =>
               _ ← _validate_result_v2 result;
               match sp_pack sp, sp_invocation sp, sp_launch sp with
               | Some pack, Some invocation, Some launch =>
                   _ ← _validate_pack pack;
                   _ ← _validate_invocation sha256_hex invocation;
                   _ ← _validate_effect sha256_hex launch;
                   _ ← validate_worker_authority_chain result pack invocation launch plan;
                   Ok (Some (w2_delivery_result result))
               | _, _, _ => Raise (ReducerAdmissionError
                   "worker evidence requires its context pack, invocation, and authorizing launch effect")
               end
           end;
  _ ← validate_reducer_event_evidence sha256_hex plan event (sp_effect sp) domain (sp_review sp) (sp_prior sp);
  '(signal, subject) ← _resolve_signal event plan (sp_effect sp) (sp_worker sp) (sp_review sp);
  Ok (mkAdmitted event signal (sp_effect sp) (sp_worker sp) (sp_review sp) subject).

(** ** The start of a run *)

Definition wave_of (plan : DeliveryPlan) (i : IssueScope) : option Z :=
  last (map dw_index (List.filter (fun w => existsb (fun j => bool_decide (scope_key j = scope_key i)) (dw_issues w)) (dp_waves plan))).
Definition authority_by_id (plan : DeliveryPlan) (id : string) : option AuthoritySnapshot :=
  last (List.filter (fun a => String.eqb (as_id a) id) (dp_input_authorities plan)).
Definition initial_issue (plan : DeliveryPlan) (i : IssueScope) : res IssueRunState :=
  match authority_by_id plan (is_authority_id i), wave_of plan i with
  | Some authority, Some wave => Ok (mkIssueRun i wave authority ph_admitted None None None None None [] [] None)
  | _, _ => Raise (ValueError "plan scope must bind one dependency wave and one input authority")
  end.
Definition sorted_set (l : list string) : list string := order_by String.leb (dict_fromkeys l).
Definition initial_delivery_run_state (run_id : string) (plan : DeliveryPlan) (profile : DeliveryAcceptanceProfile)
    (authorized_control_scopes : list string) : res DeliveryRunState :=
  _ ← reject (bool_decide (authorized_control_scopes = [])) "a run must bind at least one lifecycle control scope";
  issues ← mapM_res (initial_issue plan) (dp_final_scope plan);
  let profile_hash := canonical_hash sha256_hex (dump_profile profile) in
  Ok (mkRun run_id (plan_ref_of sha256_hex plan) (mkRef DELIVERY_ACCEPTANCE_PROFILE_VERSION (ap_id profile) profile_hash) profile_hash
        (ap_required_evidence profile) (pp_required_check_names (dp_policy plan)) (sorted_set authorized_control_scopes)
        0 life_active (order_by (fun a b => scope_leb (key_of a) (key_of b)) issues) [] [] None).

(** ** Helpers of the handlers *)

Definition _replace_issue (issues : list IssueRunState) (updated : IssueRunState) : list IssueRunState :=
  map (fun i => if bool_decide (key_of i = key_of updated) then updated else i) issues.
(** [tuple(sorted(set(...)))] of evidence kinds. *)
Definition sorted_kinds (l : list AcceptanceEvidenceKind) : list AcceptanceEvidenceKind :=
  List.filter (fun k => bool_decide (k ∈ l))
    [evk_issue_closed; evk_known_defect_recorded; evk_pull_request_merged; evk_required_checks_green; evk_review_accepted].
Definition _with_evidence (i : IssueRunState) (kinds : list AcceptanceEvidenceKind) : list AcceptanceEvidenceKind :=
  sorted_kinds (ir_evidence i ++ kinds).
Definition ACCEPTANCE_EVIDENCE_BY_EFFECT_OUTCOME (o : EffectOutcomeState) : option AcceptanceEvidenceKind :=
  match o with
  | out_checks_passed => Some evk_required_checks_green
  | out_merged => Some evk_pull_request_merged
  | out_closed => Some evk_issue_closed
  | out_known_defect_recorded => Some evk_known_defect_recorded
  | _ => None
  end.
Definition _effect_evidence (a : AdmittedEvent) : list AcceptanceEvidenceKind :=
  match ev_outcome (ad_event a) with
  | None => []
  | Some o => option_list (ACCEPTANCE_EVIDENCE_BY_EFFECT_OUTCOME (oe_state o))
  end.
Definition _HEAD_BOUND_EVIDENCE (k : AcceptanceEvidenceKind) : bool :=
  match k with evk_required_checks_green | evk_review_accepted => true | _ => false end.

Definition min_wave (l : list IssueRunState) : option Z :=
  foldr (fun i m => Some (match m with Some w => Z.min (ir_wave_index i) w | None => ir_wave_index i end)) None l.
Definition _open_wave_index (issues : list IssueRunState) : Z :=
  default 0 (min_wave (List.filter (fun i => negb (bool_decide (ir_phase i = ph_delivered))) issues)).

Definition claim_proposal (i : IssueRunState) : EffectProposal :=
  mkProposal claim_issue (ir_issue i) [ir_authority i] None None None None.
Definition opens (signal : ReducerSignal) (open_wave : Z) (i : IssueRunState) : bool :=
  (ir_wave_index i =? open_wave) && tr_legal (REDUCER_TRANSITION_MATRIX (ir_phase i) signal) && bool_decide (ir_phase i = ph_admitted).
Definition _open_due_claims (issues : list IssueRunState) (signal : ReducerSignal) : list IssueRunState * list EffectProposal :=
  let due := List.filter (opens signal (_open_wave_index issues)) issues in
  (foldl (fun l i => _replace_issue l (with_phase ph_claiming i)) issues due, map claim_proposal due).

Record EffectIdentity : Type := mkIdentity { ei_input_hash : string; ei_key : string; ei_outcome_keys : list string }.
Definition proposal_effect_identity (s : DeliveryRunState) (p : EffectProposal) : res EffectIdentity :=
  keys ← delivery_effect_expected_outcome_keys (po_class p) (dr_run_id s) (po_issue p) (po_pull_request p)
           (dr_required_check_names s) (po_defect_ref p) (po_defect_hash p);
  let input_hash := delivery_effect_input_hash sha256_hex (dr_run_id s) (dr_plan_ref s) (po_class p) (po_issue p)
    (po_pull_request p) (po_head_sha p) (po_authorities p) keys (po_defect_ref p) (po_defect_hash p) in
  Ok (mkIdentity input_hash (delivery_effect_idempotency_key input_hash) keys).

Definition find_entry (key : string) (ledger : list EffectLedgerEntry) : option EffectLedgerEntry :=
  List.find (fun e => String.eqb (lg_key e) key) ledger.
(** The entry of its key replaced, in the order of keys. *)
Definition put_entry (e : EffectLedgerEntry) (ledger : list EffectLedgerEntry) : list EffectLedgerEntry :=
  order_by (fun a b => String.leb (lg_key a) (lg_key b))
    (List.filter (fun x => negb (String.eqb (lg_key x) (lg_key e))) ledger ++ [e]).
Definition record_authorization (s : DeliveryRunState) (issues : list IssueRunState) (p : EffectProposal) : res (list IssueRunState) :=
  match List.find (fun i => bool_decide (key_of i = scope_key (po_issue p))) issues with
  | None => Ok issues
  | Some i =>
      identity ← proposal_effect_identity s p;
      match find_entry (ei_key identity) (ir_ledger i) with
      | Some existing =>
          if negb (is_resolved_uncommitted existing) then Ok issues
          else Ok (_replace_issue issues (with_ledger
                 (put_entry (mkEntry (po_class p) (ei_key identity) (ei_outcome_keys identity) None (Some p)) (ir_ledger i)) i))
      | None =>
          Ok (_replace_issue issues (with_ledger
                (put_entry (mkEntry (po_class p) (ei_key identity) (ei_outcome_keys identity) None (Some p)) (ir_ledger i)) i))
      end
  end.
Fixpoint _record_authorizations (s : DeliveryRunState) (issues : list IssueRunState) (proposals : list EffectProposal)
  : res (list IssueRunState) :=
  match proposals with
  | [] => Ok issues
  | p :: proposals => issues ← record_authorization s issues p; _record_authorizations s issues proposals
  end.

Definition _advance (s : DeliveryRunState) (a : AdmittedEvent) (issues : list IssueRunState) (effects : list EffectProposal) : res Reduction :=
  recorded ← _record_authorizations s issues effects;
  Ok (mkReduction (with_issues recorded
        (next_version (dr_lifecycle s) (sorted_set (ev_id (ad_event a) :: dr_seen_events s)) (dr_seen_commands s) s)) effects None []).
Definition _refuse (s : DeliveryRunState) (reason : RefusalReason) : res Reduction := Ok (mkReduction s [] (Some reason) []).

Definition _is_authorized_effect (i : IssueRunState) (e : ReducerEffect) : bool :=
  existsb (fun x => String.eqb (lg_key x) (ef_idempotency_key e) && bool_decide (lg_class x = ef_class e)) (ir_ledger i).
Definition _committed (i : IssueRunState) (a : AdmittedEvent) : list EffectLedgerEntry :=
  match ad_effect a, ev_outcome (ad_event a) with
  | Some e, Some o =>
      put_entry (mkEntry (ef_class e) (ef_idempotency_key e) (oe_keys o) (Some (oe_state o))
                   (find_entry (ef_idempotency_key e) (ir_ledger i) ≫= lg_proposal)) (ir_ledger i)
  | _, _ => ir_ledger i
  end.
Definition _authority_of (a : AdmittedEvent) (i : IssueRunState) : AuthoritySnapshot := default (ir_authority i) (ev_subject (ad_event a)).
Definition _authorized_target_matches (i : IssueRunState) (a : AdmittedEvent) : bool :=
  match ad_effect a with
  | None => false
  | Some e => bool_decide (ef_head_sha e = ir_head_sha i) && bool_decide (ef_pull_request e = ir_pull_request i)
  end.

(** ** Handlers *)

Definition _reduce_tick (s : DeliveryRunState) (a : AdmittedEvent) : res Reduction :=
  let '(issues, proposals) := _open_due_claims (dr_issues s) (ad_signal a) in
  _advance s a issues proposals.

Definition exception_target (k : ExceptionKind) : RunPhase :=
  match k with
  | exc_authority_conflict => ph_owner_decision
  | exc_dependency_blocked | exc_external_state_unknown => ph_system_blocked
  | _ => ph_blocked
  end.
Definition _reduce_exception (s : DeliveryRunState) (a : AdmittedEvent) : res Reduction :=
  match ev_exception (ad_event a) with
  | None => Raise (AssertionError "")
  | Some x =>
      let issues := map (fun i =>
        if tr_legal (REDUCER_TRANSITION_MATRIX (ir_phase i) sig_exception_recorded)
        then with_reason (ExceptionKind_value (dx_kind x)) (with_phase (exception_target (dx_kind x)) i) else i) (dr_issues s) in
      _advance s a issues []
  end.

Definition _reduce_claim_succeeded (s : DeliveryRunState) (a : AdmittedEvent) (i : IssueRunState) : res Reduction :=
  let authority := _authority_of a i in
  let updated := with_ledger (_committed i a) (with_authority authority (with_phase ph_launching i)) in
  _advance s a (_replace_issue (dr_issues s) updated) [mkProposal launch_worker (ir_issue i) [authority] None None None None].

Definition _reduce_worker_launched (s : DeliveryRunState) (a : AdmittedEvent) (i : IssueRunState) : res Reduction :=
  match ad_effect a with
  | None => Raise (AssertionError "")
  | Some e =>
      let updated := with_ledger (_committed i a) (with_invocation (ef_idempotency_key e)
        (with_authority (_authority_of a i) (with_phase ph_working i))) in
      _advance s a (_replace_issue (dr_issues s) updated) []
  end.

Definition drop_head_bound (l : list AcceptanceEvidenceKind) : list AcceptanceEvidenceKind :=
  List.filter (fun k => negb (_HEAD_BOUND_EVIDENCE k)) l.
Definition _reduce_worker_result (s : DeliveryRunState) (a : AdmittedEvent) (i : IssueRunState) : res Reduction :=
  match ad_worker a with
  | None => Raise (AssertionError "")
  | Some result =>
      if negb (bool_decide (ir_invocation_key i = Some (cr_id (w2_effect_ref result)))) then _refuse s illegal_transition
      else
        let domain := w2_delivery_result result in
        if negb (bool_decide (wr_status domain = ws_completed)) then
          _advance s a (_replace_issue (dr_issues s)
            (with_reason ("worker_" +:+ WorkerStatus_value (wr_status domain)) (with_phase ph_blocked i))) []
        else
          match w2_head_sha result, w2_pull_request result with
          | Some head, Some pr =>
              if match ir_pull_request i with Some p => negb (p =? pr) | None => false end
              then _refuse s pull_request_identity_conflict
              else
                let kinds := if negb (bool_decide (ir_head_sha i = Some head)) then drop_head_bound (ir_evidence i) else ir_evidence i in
                let authority := _authority_of a i in
                let updated := with_authority authority (with_kinds kinds (with_target (Some pr) (Some head)
                  (with_phase ph_awaiting_ci i))) in
                _advance s a (_replace_issue (dr_issues s) updated)
                  [mkProposal await_ci (ir_issue i) [authority] (Some pr) (Some head) None None]
          | _, _ => _refuse s head_evidence_conflict
          end
  end.

(** The outcome of an effect at the authorized target: its evidence and outcome recorded, the next phase, the next proposal. *)
Definition at_target (s : DeliveryRunState) (a : AdmittedEvent) (i : IssueRunState) (p : RunPhase) (next : EffectClass) : res Reduction :=
  let authority := _authority_of a i in
  let updated := with_authority authority (with_ledger (_committed i a)
    (with_kinds (_with_evidence i (_effect_evidence a)) (with_phase p i))) in
  _advance s a (_replace_issue (dr_issues s) updated)
    [mkProposal next (ir_issue i) [authority] (ir_pull_request i) (ir_head_sha i) None None].
Definition _reduce_checks_passed (s : DeliveryRunState) (a : AdmittedEvent) (i : IssueRunState) : res Reduction :=
  if negb (_authorized_target_matches i a) then _refuse s head_evidence_conflict
  else at_target s a i ph_awaiting_review request_review.

Definition _reduce_review_recorded (s : DeliveryRunState) (a : AdmittedEvent) (i : IssueRunState) : res Reduction :=
  if negb (_authorized_target_matches i a) then _refuse s head_evidence_conflict
  else _advance s a (_replace_issue (dr_issues s) (with_authority (_authority_of a i) (with_ledger (_committed i a) i))) [].

Definition _reduce_review_result (s : DeliveryRunState) (a : AdmittedEvent) (i : IssueRunState) : res Reduction :=
  match ad_review a with
  | None => Raise (AssertionError "")
  | Some review =>
      if negb (bool_decide (ir_pull_request i = Some (rr_pull_request review))) then _refuse s pull_request_identity_conflict
      else if negb (bool_decide (ir_head_sha i = Some (rr_head_sha review))) then _refuse s head_evidence_conflict
      else
        let authority := _authority_of a i in
        let blocked reason := _advance s a (_replace_issue (dr_issues s)
          (with_authority authority (with_reason reason (with_phase ph_blocked i)))) [] in
        if bool_decide (rr_disposition review = disp_reject) || existsb is_blocking (rr_findings review)
        then blocked "review_blocking"
        else if bool_decide (rr_disposition review = disp_accept) then
          let updated := with_authority authority (with_kinds (_with_evidence i [evk_review_accepted]) (with_phase ph_merging i)) in
          _advance s a (_replace_issue (dr_issues s) updated)
            [mkProposal merge_pull_request (ir_issue i) [authority] (ir_pull_request i) (ir_head_sha i) None None]
        else
          match List.filter is_P2 (rr_findings review), rr_known_defect_refs review with
          | [deferred], [ref] =>
              let finding_hash := canonical_hash sha256_hex (dump_finding deferred) in
              let updated := with_authority authority (with_defect ref finding_hash
                (with_kinds (_with_evidence i [evk_review_accepted]) (with_phase ph_recording_defect i))) in
              _advance s a (_replace_issue (dr_issues s) updated)
                [mkProposal record_known_defect (ir_issue i) [authority] (ir_pull_request i) (ir_head_sha i) (Some ref) (Some finding_hash)]
          | _, _ => blocked "review_disposition_not_one_deferred_p2"
          end
  end.

Definition _reduce_known_defect_recorded (s : DeliveryRunState) (a : AdmittedEvent) (i : IssueRunState) : res Reduction :=
  if negb (_authorized_target_matches i a) then _refuse s head_evidence_conflict
  else match ad_effect a with
       | None => Raise (AssertionError "")
       | Some e =>
           if negb (bool_decide (ef_defect_ref e = ir_defect_ref i)) || negb (bool_decide (ef_defect_hash e = ir_defect_hash i))
           then _refuse s illegal_transition
           else at_target s a i ph_merging merge_pull_request
       end.
Definition _reduce_merge_succeeded (s : DeliveryRunState) (a : AdmittedEvent) (i : IssueRunState) : res Reduction :=
  if negb (_authorized_target_matches i a) then _refuse s head_evidence_conflict else at_target s a i ph_closing close_issue.
Definition _reduce_closure_succeeded (s : DeliveryRunState) (a : AdmittedEvent) (i : IssueRunState) : res Reduction :=
  if negb (_authorized_target_matches i a) then _refuse s head_evidence_conflict
  else at_target s a i ph_recording_receipt record_delivery_receipt.

Definition _reduce_receipt_recorded (s : DeliveryRunState) (a : AdmittedEvent) (i : IssueRunState) : res Reduction :=
  if negb (_authorized_target_matches i a) then _refuse s head_evidence_conflict
  else
    let observed := _with_evidence i (_effect_evidence a) in
    let unmet := List.filter (fun k => negb (bool_decide (k ∈ observed))) (dr_required_evidence s) in
    let settled p := with_authority (_authority_of a i) (with_kinds observed (with_ledger (_committed i a) (with_phase p i))) in
    if bool_decide (unmet <> []) then
      _advance s a (_replace_issue (dr_issues s)
        (with_reason ("acceptance_evidence_unmet:" +:+ join "," (map AcceptanceEvidenceKind_value unmet)) (settled ph_blocked))) []
    else _advance s a (_replace_issue (dr_issues s) (settled ph_delivered)) [].

Definition _reduce_effect_failed (s : DeliveryRunState) (a : AdmittedEvent) (i : IssueRunState) : res Reduction :=
  match ad_effect a with
  | None => Raise (AssertionError "")
  | Some e =>
      if bool_decide (is_Some (ef_pull_request e)) && negb (_authorized_target_matches i a) then _refuse s head_evidence_conflict
      else
        let recorded x := with_authority (_authority_of a i) (with_ledger (_committed i a) x) in
        if negb (bool_decide (ef_class e = await_ci)) || negb (bool_decide (ir_phase i = ph_awaiting_ci)) then
          _advance s a (_replace_issue (dr_issues s)
            (recorded (with_reason ("effect_failed:" +:+ EffectClass_value (ef_class e)) (with_phase ph_blocked i)))) []
        else
          _advance s a (_replace_issue (dr_issues s)
            (recorded (with_kinds (drop_head_bound (ir_evidence i))
              (with_reason "ci_failed_repair_deferred" (with_phase ph_repairing i))))) []
  end.

Definition _reduce_authority_changed (s : DeliveryRunState) (a : AdmittedEvent) (i : IssueRunState) : res Reduction :=
  match ev_subject (ad_event a) with
  | None => Raise (AssertionError "")
  | Some observed =>
      if negb (String.eqb (as_hash observed) (is_contract_hash (ir_issue i))) then
        _advance s a (_replace_issue (dr_issues s) (with_reason "authority_contract_drift" (with_phase ph_owner_decision i))) []
      else _advance s a (_replace_issue (dr_issues s) (with_authority observed i)) []
  end.

Definition _ISSUE_HANDLERS (signal : ReducerSignal) : DeliveryRunState -> AdmittedEvent -> IssueRunState -> res Reduction :=
  match signal with
  | sig_claim_succeeded => _reduce_claim_succeeded
  | sig_worker_launched => _reduce_worker_launched
  | sig_worker_result_recorded => _reduce_worker_result
  | sig_checks_passed => _reduce_checks_passed
  | sig_review_recorded => _reduce_review_recorded
  | sig_review_result_recorded => _reduce_review_result
  | sig_known_defect_recorded => _reduce_known_defect_recorded
  | sig_merge_succeeded => _reduce_merge_succeeded
  | sig_closure_succeeded => _reduce_closure_succeeded
  | sig_receipt_recorded => _reduce_receipt_recorded
  | sig_effect_failed => _reduce_effect_failed
  | sig_authority_changed => _reduce_authority_changed
  | _ => fun _ _ _ => Raise (KeyError "signal")
  end.

Definition reduce_delivery_run (s : DeliveryRunState) (a : AdmittedEvent) : res Reduction :=
  let event := ad_event a in
  if negb (String.eqb (ev_run_id event) (dr_run_id s)) then _refuse s foreign_run
  else if bool_decide (dr_lifecycle s = life_cancelled) || bool_decide (dr_lifecycle s = life_superseded) then _refuse s terminal_run
  else if bool_decide (dr_lifecycle s = life_paused) then _refuse s paused_run
  else if existsb (String.eqb (ev_id event)) (dr_seen_events s) then _refuse s duplicate_event
  else if negb (bool_decide (ev_plan_ref event = dr_plan_ref s)) then _refuse s stale_plan_binding
  else
    match ad_signal a with
    | sig_run_started | sig_timer_elapsed => _reduce_tick s a
    | sig_exception_recorded => _reduce_exception s a
    | signal =>
        match ad_issue a with
        | None => _refuse s illegal_transition
        | Some issue =>
            match issue_state s (scope_key issue) with
            | None => _refuse s foreign_run
            | Some i =>
                if negb (tr_legal (REDUCER_TRANSITION_MATRIX (ir_phase i) signal)) then _refuse s illegal_transition
                else if match ad_effect a with Some e => negb (_is_authorized_effect i e) | None => false end
                then _refuse s unauthorized_effect
                else _ISSUE_HANDLERS signal s a i
            end
        end
    end.

(** ** Lifecycle commands *)

Definition obligation_of (e : EffectLedgerEntry) : OutstandingEffectObligation :=
  mkObligation (lg_class e) (lg_key e) (order_by String.leb (lg_outcome_keys e)) (lg_outcome e).
Definition outstanding_effect_obligations (s : DeliveryRunState) : res (list OutstandingEffectObligation) :=
  let records := foldl (fun d e => dict_set d (lg_key e) e) [] (concat (map unreconciled_effects (dr_issues s))) in
  mapM_res (fun kv => _ ← _validate_obligation (obligation_of (snd kv)); Ok (obligation_of (snd kv))) (sort_keys records).

Definition _RESUMABLE_EFFECT_BY_PHASE (p : RunPhase) : option EffectClass :=
  match p with
  | ph_claiming => Some claim_issue
  | ph_awaiting_ci => Some await_ci
  | ph_awaiting_review => Some request_review
  | ph_recording_defect => Some record_known_defect
  | ph_merging => Some merge_pull_request
  | ph_closing => Some close_issue
  | ph_recording_receipt => Some record_delivery_receipt
  | _ => None
  end.
Definition unanswered (c : EffectClass) (e : EffectLedgerEntry) : bool :=
  bool_decide (lg_class e = c) && bool_decide (lg_outcome e = None) && bool_decide (is_Some (lg_proposal e)).
Definition pending_of (open_wave : Z) (i : IssueRunState) : option EffectProposal :=
  if TERMINAL_PHASES (ir_phase i) then None
  else if bool_decide (ir_phase i = ph_admitted) then
    (if ir_wave_index i =? open_wave then Some (claim_proposal i) else None)
  else
    match _RESUMABLE_EFFECT_BY_PHASE (ir_phase i) with
    | None => None
    | Some c => List.find (unanswered c) (ir_ledger i) ≫= lg_proposal
    end.
Definition pending_effect_proposals (s : DeliveryRunState) : list EffectProposal :=
  omap (pending_of (_open_wave_index (dr_issues s))) (dr_issues s).

Definition reduce_lifecycle_command (s : DeliveryRunState) (c : LifecycleCommand) : res Reduction :=
  let verb := lc_command c in
  let is_supersede := match verb with cmd_supersede => true | _ => false end in
  if negb (String.eqb (lc_run_id c) (dr_run_id s)) then _refuse s foreign_run
  else if existsb (String.eqb (lc_id c)) (dr_seen_commands s) then _refuse s duplicate_command
  else if negb (existsb (String.eqb (ai_scope (lc_issued_by c))) (dr_control_scopes s)) then _refuse s unauthorized_command
  else if negb (lc_expected_version c =? dr_version s) then _refuse s stale_run_version
  else if bool_decide (dr_lifecycle s = life_cancelled) || bool_decide (dr_lifecycle s = life_superseded) then _refuse s terminal_run
  else if is_supersede && bool_decide (lc_superseding_ref c = None) then _refuse s unauthorized_command
  else if negb is_supersede && bool_decide (is_Some (lc_superseding_ref c)) then _refuse s unauthorized_command
  else
    let seen := sorted_set (lc_id c :: dr_seen_commands s) in
    let terminate lifecycle phase reason :=
      let issues := map (fun i => if TERMINAL_PHASES (ir_phase i) then i else with_reason reason (with_phase phase i)) (dr_issues s) in
      obligations ← outstanding_effect_obligations s;
      Ok (mkReduction (superseded_by (lc_superseding_ref c)
            (with_issues issues (next_version lifecycle (dr_seen_events s) seen s))) [] None obligations) in
    match verb with
    | cmd_pause =>
        if negb (bool_decide (dr_lifecycle s = life_active)) then _refuse s illegal_transition
        else Ok (mkReduction (next_version life_paused (dr_seen_events s) seen s) [] None [])
    | cmd_resume =>
        if negb (bool_decide (dr_lifecycle s = life_paused)) then _refuse s illegal_transition
        else
          let resumed := next_version life_active (dr_seen_events s) seen s in
          let proposals := pending_effect_proposals resumed in
          issues ← _record_authorizations resumed (dr_issues resumed) proposals;
          Ok (mkReduction (with_issues issues resumed) proposals None [])
    | cmd_cancel => terminate life_cancelled ph_cancelled "cancel"
    | cmd_supersede => terminate life_superseded ph_superseded "supersede"
    end.

(** ** Terminality and materialization *)

Definition resolve_terminal_delivery (s : DeliveryRunState) (issue : IssueScope) (profile : DeliveryAcceptanceProfile)
  : res (bool * list AcceptanceEvidenceKind) :=
  _ ← reject (negb (String.eqb (canonical_hash sha256_hex (dump_profile profile)) (dr_profile_hash s)))
        "acceptance profile does not match the immutable run binding";
  match issue_state s (scope_key issue) with
  | None => Raise (ValueError "Issue is outside the run's bound scope")
  | Some i =>
      let unmet := unmet_evidence profile (ir_evidence i) in
      Ok (bool_decide (unmet = []) && bool_decide (ir_phase i = ph_delivered), unmet)
  end.

Definition materialize_effect (p : EffectProposal) (s : DeliveryRunState) (plan : DeliveryPlan) (cause : ReducerEvent) (sequence : Z)
    (provenance : Provenance) (su : supplied) : res ReducerEffect :=
  _ ← reject (negb (String.eqb (cr_id (dr_plan_ref s)) (dp_id plan))) "effect materialization must use the run's bound plan";
  _ ← reject (negb (bool_decide (pp_required_check_names (dp_policy plan) = dr_required_check_names s)))
        "effect materialization must use the run's bound required checks";
  identity ← proposal_effect_identity s p;
  let effect := mkEffect (ei_key identity) (dr_run_id s) (dr_plan_ref s) cause sequence (po_class p) (po_issue p) (po_pull_request p)
    (po_head_sha p) (po_authorities p) (ei_outcome_keys identity) (po_defect_ref p) (po_defect_hash p) (ei_key identity)
    (ei_input_hash identity) provenance in
  _ ← _validate_effect sha256_hex effect;
  _ ← validate_reducer_effect_evidence sha256_hex plan effect su;
  Ok effect.
End Reducer.
