(* ===== verification/DeliveryApproval.v ===== *)
(** * Approved initiations of delivery runs

    src/app/builderops/delivery_orchestration_contracts.py: the approved
    initiation a plan is compiled from, its validation, and the validation of a
    plan against it.  [casefold] is [lower]: scope keys are ASCII text. *)
From S2P Require Import Prelude PyValue Sql DeliveryContracts.
Open Scope Z_scope.

Record ApprovalEvidence : Type := mkApproval {
  av_id : string;
  av_approver : ActorIdentity;
  av_approved_at : string;
  av_payload_hash : string;
  av_source_refs : list SourceRef }.
Record DeliveryInitiation : Type := mkInitiation {
  di_id : string;
  di_requested_scope : list IssueScope;
  di_exclusions : list ScopeExclusion;
  di_approval : ApprovalEvidence;
  di_policy : PolicyProfile;
  di_budget : DeliveryBudget;
  di_source_authorities : list AuthoritySnapshot;
  di_provenance : Provenance }.
#[export] Instance ScopeExclusion_eq_dec : EqDecision ScopeExclusion.
Proof. solve_decision. Defined.
#[export] Instance DeliveryBudget_eq_dec : EqDecision DeliveryBudget.
Proof. solve_decision. Defined.

Definition dump_approval (a : ApprovalEvidence) : pyval :=
  PDict [("approval_id", PStr (av_id a)); ("approver", dump_actor (av_approver a)); ("approved_at", PStr (av_approved_at a));
         ("approved_payload_hash", PStr (av_payload_hash a)); ("source_refs", PList (map dump_source (av_source_refs a)));
         ("immutable", PBool true); ("effect_authority", PBool false)].
Definition dump_initiation (i : DeliveryInitiation) : pyval :=
  PDict [("schema_version", PStr DELIVERY_INITIATION_VERSION); ("initiation_id", PStr (di_id i));
         ("requested_scope", PList (map dump_issue (di_requested_scope i))); ("exclusions", PList (map dump_exclusion (di_exclusions i)));
         ("approval_evidence", dump_approval (di_approval i)); ("policy_profile", dump_policy (di_policy i));
         ("budget", dump_budget (di_budget i)); ("source_authorities", PList (map dump_authority (di_source_authorities i)));
         ("provenance", dump_provenance (di_provenance i))].

Section Approval.
Context (sha256_hex : string -> string).

Definition delivery_initiation_approval_hash (i : DeliveryInitiation) : string :=
  canonical_hash sha256_hex (PDict
    [("schema_version", PStr DELIVERY_INITIATION_VERSION); ("initiation_id", PStr (di_id i));
     ("requested_scope", PList (map dump_issue (di_requested_scope i))); ("exclusions", PList (map dump_exclusion (di_exclusions i)));
     ("policy_profile", dump_policy (di_policy i)); ("budget", dump_budget (di_budget i));
     ("source_authorities", PList (map dump_authority (di_source_authorities i))); ("provenance", dump_provenance (di_provenance i));
     ("approval_context", PDict
        [("approval_id", PStr (av_id (di_approval i))); ("approver", dump_actor (av_approver (di_approval i)));
         ("approved_at", PStr (av_approved_at (di_approval i)));
         ("source_refs", PList (map dump_source (av_source_refs (di_approval i))));
         ("immutable", PBool true); ("effect_authority", PBool false)])]).
Definition initiation_ref_of (i : DeliveryInitiation) : ContractRef :=
  mkRef DELIVERY_INITIATION_VERSION (di_id i) (canonical_hash sha256_hex (dump_initiation i)).

Definition _validate_sources (a : ApprovalEvidence) : res unit :=
  _ ← reject (bool_decide (av_source_refs a = [])) "approval evidence must carry a source ref";
  _ ← _require_unique (source_keys (av_source_refs a)) "approval source refs";
  reject (negb (in_order pair_leb (source_keys (av_source_refs a)))) "approval source refs must use canonical sorted order".
Definition _validate_initiation (i : DeliveryInitiation) : res unit :=
  _ ← check_all _validate_authority_id (di_requested_scope i);
  _ ← check_all _validate_scope_identity (di_exclusions i);
  _ ← _validate_sources (di_approval i);
  _ ← _validate_required_checks (di_policy i);
  _ ← _validate_worker_budget (di_budget i);
  _ ← check_all _validate_labels (di_source_authorities i);
  _ ← _validate_source_refs (di_provenance i);
  _ ← reject (String.ltb (pv_created_at (di_provenance i)) (av_approved_at (di_approval i)))
        "initiation approval must precede initiation provenance";
  _ ← reject (bool_decide (di_requested_scope i = [])) "requested scope must not be empty";
  let scope_keys := map scope_key (di_requested_scope i) in
  let exclusion_keys := map sx_key (di_exclusions i) in
  let authority_ids := map as_id (di_source_authorities i) in
  _ ← _require_unique scope_keys "requested scope";
  _ ← _require_unique exclusion_keys "scope exclusions";
  _ ← _require_unique authority_ids "source authority IDs";
  _ ← reject (negb (in_order scope_leb scope_keys)) "requested scope must use canonical sorted order";
  _ ← reject (negb (in_order String.leb exclusion_keys)) "scope exclusions must use canonical sorted order";
  _ ← reject (negb (in_order String.leb authority_ids)) "source authorities must use canonical sorted order";
  _ ← reject (existsb (fun a => String.ltb (av_approved_at (di_approval i)) (as_observed_at a)) (di_source_authorities i))
        "source authority observations must precede approval";
  _ ← reject (negb (forallb (fun x => existsb (fun a => String.eqb (as_id a) (is_authority_id x) && String.eqb (as_hash a) (is_contract_hash x))
                                        (di_source_authorities i)) (di_requested_scope i)))
        "source authorities must bind every requested scope item";
  reject (negb (String.eqb (av_payload_hash (di_approval i)) (delivery_initiation_approval_hash i)))
    "approval evidence must bind the exact canonical initiation payload".

(** [f"{repository.casefold()}#{issue_number}"]. *)
Definition scope_ref (i : IssueScope) : string := lower (is_repository i) +:+ "#" +:+ pretty (is_number i).
(** The loop over the exclusions of a plan, with the references of the omitted Issues it collects. *)
Fixpoint issue_exclusions (approved : list IssueScope) (exclusions : list ScopeExclusion) : res (list string) :=
  match exclusions with
  | [] => Ok []
  | x :: exclusions =>
      let folded := lower (sx_key x) in
      let known := bool_decide (folded ∈ map scope_ref approved) in
      match sx_issue x with
      | None =>
          _ ← reject known "plan issue exclusions require typed omitted-Issue identity";
          issue_exclusions approved exclusions
      | Some omitted =>
          _ ← reject (negb known) "plan issue exclusion is outside approved initiation scope";
          _ ← match scope_find approved (scope_key omitted) with
              | None => Raise (KeyError "scope_key")
              | Some i => reject (negb (bool_decide (i = omitted))) "plan issue exclusion must preserve exact approved authority"
              end;
          refs ← issue_exclusions approved exclusions;
          Ok (folded :: refs)
      end
  end.
Definition validate_delivery_plan_evidence (plan : DeliveryPlan) (i : DeliveryInitiation) : res unit :=
  let approved := di_requested_scope i in
  let final_keys := map scope_key (dp_final_scope plan) in
  _ ← reject (negb (bool_decide (dp_initiation_ref plan = initiation_ref_of i))) "plan does not bind the supplied initiation";
  _ ← reject (String.ltb (pv_created_at (dp_provenance plan)) (pv_created_at (di_provenance i)))
        "plan provenance must follow initiation provenance";
  _ ← reject (negb (forallb (fun x => bool_decide (scope_find approved (scope_key x) = Some x)) (dp_final_scope plan)))
        "plan final scope must be an exact subset of approved scope";
  _ ← reject (negb (bool_decide (NoDup (map (fun x => lower (sx_key x)) (dp_exclusions plan)))))
        "plan exclusions must use unique canonical identities";
  refs ← issue_exclusions approved (dp_exclusions plan);
  _ ← reject (existsb (fun r => bool_decide (r ∈ refs)) (map scope_ref (dp_final_scope plan)))
        "plan final scope and issue exclusions must be disjoint";
  _ ← reject (negb (same_set refs (map scope_ref (List.filter (fun x => negb (bool_decide (scope_key x ∈ final_keys))) approved))))
        "plan issue exclusions must explain every omitted approved issue exactly";
  _ ← reject (negb (forallb (fun x => bool_decide (x ∈ dp_exclusions plan)) (di_exclusions i))) "plan must preserve initiation exclusions";
  _ ← reject (negb (bool_decide (dp_policy plan = di_policy i))) "plan policy profile must match approved initiation";
  reject (negb (bool_decide (dp_budget plan = di_budget i))) "plan budget must match approved initiation".
End Approval.
