(* ===== verification/DeliveryCompiler.v ===== *)
(** * The delivery-plan compiler

    src/app/builderops/delivery_plan_compiler.py: an approved initiation and a
    captured snapshot of its Issues become a plan with dependency waves, or
    typed refusals.

    The map of refusals is an ordered dict that the checks extend; [while] loops
    take fuel: propagation stops after at most one pass per Issue, waves after
    at most one per Issue, and the search for a cycle after at most one visit
    per dependency ([DeliveryCompilerProps] shows that this is enough).  Sets of
    keys are lists drop_keys duplicates.  What a target or an anchor of an Issue
    contract looks like (issue_contract_validation.py, a text grammar) is a
    parameter. *)
From S2P Require Import Prelude PyValue Sql DeliveryContracts DeliveryApproval.
Open Scope Z_scope.

Definition COMPILER_VERSION : string := "builderops.delivery-plan-compiler.v2".
Definition PLANNING_SNAPSHOT_VERSION : string := "builderops.delivery-planning-snapshot.v2".
Definition REQUIRED_SBS_IMPACT_FIELDS : list string :=
  ["Boundary risk"; "Derived/rebuildable impact"; "New or changed contract"; "Owner-doc impact"; "Persistence impact";
   "Primary subsystem"; "Secondary subsystem(s)"; "Transition debt impact"; "Write class"].
Definition _EFFECT_ALLOWLIST : list EffectClass :=
  [await_ci; claim_issue; close_issue; launch_worker; merge_pull_request; record_delivery_receipt; record_known_defect; request_review].

Inductive Priority : Type := prio_high | prio_medium | prio_low.
Inductive RiskClass : Type := risk_low | risk_medium | risk_high | risk_critical.
Inductive DeliveryStatus : Type := ds_undelivered | ds_active | ds_delivered.
Inductive ScopeRole : Type := role_delivery | role_validation_parent.
Inductive ResolutionTargetKind : Type := source_anchor | verify_target.
Inductive RefusalCode : Type :=
  | rc_approved_exclusion | rc_authority_ambiguity | rc_budget_exceeded | rc_contradictory_dependency_satisfaction
  | rc_dependency_blocked | rc_dependency_cycle | rc_duplicate_resolution_evidence | rc_invalid_agent_state_labels
  | rc_invalid_priority_labels | rc_invalid_type_labels | rc_malformed_sbs_impact | rc_mismatched_resolution_evidence
  | rc_missing_resolution_evidence | rc_missing_source_anchors | rc_missing_verify_targets | rc_mutation_overlap | rc_not_ready
  | rc_outside_approved_scope | rc_parent_validation_only | rc_priority_label_mismatch | rc_risk_policy_blocked | rc_stale_delivery
  | rc_stale_resolution_evidence | rc_unproven_dependency_satisfaction.
#[export] Instance Priority_eq_dec : EqDecision Priority.
Proof. solve_decision. Defined.
#[export] Instance RiskClass_eq_dec : EqDecision RiskClass.
Proof. solve_decision. Defined.
#[export] Instance DeliveryStatus_eq_dec : EqDecision DeliveryStatus.
Proof. solve_decision. Defined.
#[export] Instance ScopeRole_eq_dec : EqDecision ScopeRole.
Proof. solve_decision. Defined.
#[export] Instance ResolutionTargetKind_eq_dec : EqDecision ResolutionTargetKind.
Proof. solve_decision. Defined.
#[export] Instance RefusalCode_eq_dec : EqDecision RefusalCode.
Proof. solve_decision. Defined.
Definition Priority_value (p : Priority) : string := match p with prio_high => "high" | prio_medium => "medium" | prio_low => "low" end.
Definition RiskClass_value (r : RiskClass) : string :=
  match r with risk_low => "low" | risk_medium => "medium" | risk_high => "high" | risk_critical => "critical" end.
Definition DeliveryStatus_value (s : DeliveryStatus) : string :=
  match s with ds_undelivered => "undelivered" | ds_active => "active" | ds_delivered => "delivered" end.
Definition ScopeRole_value (r : ScopeRole) : string :=
  match r with role_delivery => "delivery" | role_validation_parent => "validation_parent" end.
Definition ResolutionTargetKind_value (k : ResolutionTargetKind) : string :=
  match k with source_anchor => "source_anchor" | verify_target => "verify_target" end.
Definition RefusalCode_value (c : RefusalCode) : string :=
  match c with
  | rc_approved_exclusion => "approved_exclusion" | rc_authority_ambiguity => "authority_ambiguity"
  | rc_budget_exceeded => "budget_exceeded"
  | rc_contradictory_dependency_satisfaction => "contradictory_dependency_satisfaction"
  | rc_dependency_blocked => "dependency_blocked" | rc_dependency_cycle => "dependency_cycle"
  | rc_duplicate_resolution_evidence => "duplicate_resolution_evidence"
  | rc_invalid_agent_state_labels => "invalid_agent_state_labels" | rc_invalid_priority_labels => "invalid_priority_labels"
  | rc_invalid_type_labels => "invalid_type_labels" | rc_malformed_sbs_impact => "malformed_sbs_impact"
  | rc_mismatched_resolution_evidence => "mismatched_resolution_evidence"
  | rc_missing_resolution_evidence => "missing_resolution_evidence" | rc_missing_source_anchors => "missing_source_anchors"
  | rc_missing_verify_targets => "missing_verify_targets" | rc_mutation_overlap => "mutation_overlap" | rc_not_ready => "not_ready"
  | rc_outside_approved_scope => "outside_approved_scope" | rc_parent_validation_only => "parent_validation_only"
  | rc_priority_label_mismatch => "priority_label_mismatch" | rc_risk_policy_blocked => "risk_policy_blocked"
  | rc_stale_delivery => "stale_delivery" | rc_stale_resolution_evidence => "stale_resolution_evidence"
  | rc_unproven_dependency_satisfaction => "unproven_dependency_satisfaction"
  end.

Record SbsImpactEntry : Type := mkImpact { im_field : string; im_value : string }.
Record DeliveryDependencySatisfactionEvidence : Type := mkSatisfaction {
  se_authority_id : string;
  se_contract_hash : string;
  se_evidence_authority_id : string;
  se_evidence_hash : string;
  se_observed_at : string }.
Record DeliveryDependency : Type := mkDependency {
  dd_issue : IssueScope;
  dd_satisfied : bool;
  dd_evidence : option DeliveryDependencySatisfactionEvidence }.
Record IssueContractResolutionEvidence : Type := mkResolution {
  re_issue_authority_id : string;
  re_issue_contract_hash : string;
  re_target_kind : ResolutionTargetKind;
  re_target : string;
  re_resolver_id : string;
  re_resolved_authority_id : string;
  re_resolved_hash : string;
  re_observed_at : string }.
Record DeliveryIssuePlanningSnapshot : Type := mkFact {
  pf_issue : IssueScope;
  pf_authority : AuthoritySnapshot;
  pf_priority : Priority;
  pf_risk_class : RiskClass;
  pf_source_anchors : list string;
  pf_verify_targets : list string;
  pf_resolution_evidence : list IssueContractResolutionEvidence;
  pf_sbs_impact : list SbsImpactEntry;
  pf_dependencies : list DeliveryDependency;
  pf_mutation_paths : list string;
  pf_delivery_status : DeliveryStatus;
  pf_linked_pr_head : option string;
  pf_parent_issue : option IssueScope;
  pf_scope_role : ScopeRole }.
Record DeliveryPlanningSnapshot : Type := mkSnapshotPlan {
  pn_id : string;
  pn_captured_at : string;
  pn_issues : list DeliveryIssuePlanningSnapshot }.
Record PlanRefusal : Type := mkRefusal {
  rl_code : RefusalCode;
  rl_issue : IssueScope;
  rl_detail : string;
  rl_related : list IssueScope }.
Record DeliveryPlanCompilation : Type := mkCompilation {
  cm_input_hash : string;
  cm_plan : option DeliveryPlan;
  cm_refusals : list PlanRefusal }.
(** The field validators of identities. *)
Definition stripped_identity (msg value : string) : res string :=
  if String.eqb (strip value) "" then Raise (ValueError msg) else Ok (strip value).
Definition _validate_evidence_identity : string -> res string :=
  stripped_identity "dependency satisfaction evidence identities must not be empty".
Definition _validate_canonical_identity : string -> res string := stripped_identity "resolution evidence identities must not be empty".
Definition _validate_snapshot_id : string -> res string := stripped_identity "snapshot_id must not be empty".

(** ** Refusals *)

Abbreviation scope := (string * Z)%type.
Abbreviation refusal_map := (list ((scope * RefusalCode * string) * PlanRefusal)).
Definition related_leb (a b : IssueScope) : bool :=
  if bool_decide (scope_key a = scope_key b)
  then (if String.eqb (is_contract_hash a) (is_contract_hash b) then String.leb (is_authority_id a) (is_authority_id b)
        else String.leb (is_contract_hash a) (is_contract_hash b))
  else scope_leb (scope_key a) (scope_key b).
(** [setdefault] in order, and the values. *)
Fixpoint first_of_scope (seen : list scope) (l : list IssueScope) : list IssueScope :=
  match l with
  | [] => []
  | i :: l => if bool_decide (scope_key i ∈ seen) then first_of_scope seen l else i :: first_of_scope (scope_key i :: seen) l
  end.
Definition add_refusal (issue : IssueScope) (code : RefusalCode) (detail : string) (related : list IssueScope) (m : refusal_map) : refusal_map :=
  let key := (scope_key issue, code, detail) in
  let existing := match od_get m key with Some r => rl_related r | None => [] end in
  od_set m key (mkRefusal code issue detail (first_of_scope [] (order_by related_leb (existing ++ related)))).
Definition add_refusal_if (c : bool) (issue : IssueScope) (code : RefusalCode) (detail : string) (related : list IssueScope) (m : refusal_map)
  : refusal_map := if c then add_refusal issue code detail related m else m.
Definition _issue_has_refusal (key : scope) (m : refusal_map) : bool := existsb (fun kv => bool_decide (fst (fst (fst kv)) = key)) m.
Definition _validate_related_issues (r : PlanRefusal) : res unit :=
  _ ← reject (String.eqb (strip (rl_detail r)) "") "plan refusal detail must not be empty";
  _ ← reject (negb (in_order scope_leb (map scope_key (rl_related r)))) "plan refusal related issues must use canonical order";
  reject (negb (bool_decide (NoDup (map scope_key (rl_related r))))) "plan refusal related issues must not contain duplicates".
Definition refusal_leb (a b : PlanRefusal) : bool :=
  if negb (bool_decide (scope_key (rl_issue a) = scope_key (rl_issue b))) then scope_leb (scope_key (rl_issue a)) (scope_key (rl_issue b))
  else if negb (bool_decide (rl_code a = rl_code b)) then String.leb (RefusalCode_value (rl_code a)) (RefusalCode_value (rl_code b))
  else String.leb (rl_detail a) (rl_detail b).

(** ** Checks of one Issue *)

Definition _authority_binds_issue (a : AuthoritySnapshot) (issue : IssueScope) (captured_at observed_not_before : string) : bool :=
  String.eqb (as_type a) "github_issue" && String.eqb (as_id a) (is_authority_id issue) && String.eqb (as_hash a) (is_contract_hash issue)
  && String.leb (as_observed_at a) captured_at && String.leb observed_not_before (as_observed_at a).

Definition _CANONICAL_TYPE_LABELS : list string := ["type:bug"; "type:refactor"; "type:task"].
Definition _CANONICAL_PRIORITY_LABELS (label : string) : option Priority :=
  if String.eqb label "prio:high" then Some prio_high else if String.eqb label "prio:med" then Some prio_medium
  else if String.eqb label "prio:low" then Some prio_low else None.
Definition labelled (prefix : string) (f : DeliveryIssuePlanningSnapshot) : list string :=
  List.filter (startswith prefix) (as_labels (pf_authority f)).
Definition _validate_pickup_authority (f : DeliveryIssuePlanningSnapshot) (m : refusal_map) : refusal_map :=
  let m := add_refusal_if (negb (bool_decide (labelled "agent:" f = ["agent:ready"]))) (pf_issue f) rc_invalid_agent_state_labels
    "executable Issue authority must contain exactly one agent-state label and it must be agent:ready" [] m in
  let m := add_refusal_if (match labelled "type:" f with [l] => negb (bool_decide (l ∈ _CANONICAL_TYPE_LABELS)) | _ => true end) (pf_issue f)
    rc_invalid_type_labels "executable Issue authority must contain exactly one canonical type label" [] m in
  match labelled "prio:" f with
  | [l] =>
      match _CANONICAL_PRIORITY_LABELS l with
      | Some p => add_refusal_if (negb (bool_decide (p = pf_priority f))) (pf_issue f) rc_priority_label_mismatch
                    "snapshot priority does not equal the live canonical priority label" [] m
      | None => add_refusal (pf_issue f) rc_invalid_priority_labels
                  "executable Issue authority must contain exactly one canonical priority label" [] m
      end
  | _ => add_refusal (pf_issue f) rc_invalid_priority_labels "executable Issue authority must contain exactly one canonical priority label" [] m
  end.

Definition facts_for (key : scope) (l : list DeliveryIssuePlanningSnapshot) : list DeliveryIssuePlanningSnapshot :=
  List.filter (fun f => bool_decide (scope_key (pf_issue f) = key)) l.
Definition _validate_dependency_satisfaction (d : DeliveryDependency) (dependent : DeliveryIssuePlanningSnapshot)
    (facts : list DeliveryIssuePlanningSnapshot) (captured_at observed_not_before : string) (m : refusal_map) : refusal_map :=
  let contradicts c detail := add_refusal_if c (pf_issue dependent) rc_contradictory_dependency_satisfaction detail [dd_issue d] m in
  if negb (dd_satisfied d) then
    contradicts (bool_decide (is_Some (dd_evidence d))) "unsatisfied dependency cannot carry delivered satisfaction evidence"
  else
    match facts_for (scope_key (dd_issue d)) facts with
    | [] =>
        match dd_evidence d with
        | None => add_refusal (pf_issue dependent) rc_unproven_dependency_satisfaction
                    "external satisfied dependency lacks immutable hash-bound delivered-authority evidence" [dd_issue d] m
        | Some e =>
            contradicts (negb (String.eqb (se_authority_id e) (is_authority_id (dd_issue d)))
                         || negb (String.eqb (se_contract_hash e) (is_contract_hash (dd_issue d)))
                         || String.ltb captured_at (se_observed_at e))
              "external dependency satisfaction evidence does not bind the declared dependency and closed authority"
        end
    | f :: rest =>
        if negb (bool_decide (rest = [])) || bool_decide (is_Some (dd_evidence d)) then
          contradicts true "same-snapshot dependency satisfaction must use one unambiguous live authority fact"
        else
          contradicts (negb (bool_decide (pf_issue f = dd_issue d))
                       || negb (_authority_binds_issue (pf_authority f) (dd_issue d) captured_at observed_not_before)
                       || negb (String.eqb (as_state (pf_authority f)) "closed")
                       || negb (bool_decide (pf_delivery_status f = ds_delivered))
                       || existsb (startswith "agent:") (as_labels (pf_authority f)))
            "same-snapshot dependency satisfaction contradicts its live delivered and closed authority"
    end.

Definition _clean_values (values : list string) : list string :=
  let cleaned := map strip (List.filter (fun v => negb (String.eqb (strip v) "")) values) in
  if negb (length cleaned =? length values)%nat || negb (bool_decide (NoDup cleaned)) then [] else order_by String.leb cleaned.
Definition _sbs_impact_is_complete (entries : list SbsImpactEntry) : bool :=
  let fields := map (fun e => strip (im_field e)) entries in
  (length fields =? length REQUIRED_SBS_IMPACT_FIELDS)%nat && bool_decide (NoDup fields) && same_set fields REQUIRED_SBS_IMPACT_FIELDS
  && forallb (fun e => negb (String.eqb (strip (im_value e)) "")) entries.
Definition _risk_is_allowed (profile_id : string) (r : RiskClass) : bool :=
  String.eqb profile_id "delivery-low-risk" && match r with risk_low | risk_medium => true | _ => false end.
(** A repeated identity, whether or not it repeats the same evidence. *)
Definition _dependencies_are_ambiguous (l : list DeliveryDependency) : bool := negb (bool_decide (NoDup (map (fun d => scope_key (dd_issue d)) l))).

(** ** Resolution evidence *)

Definition backtick : Ascii.ascii := Ascii.ascii_of_nat 96.
Definition starts_tick (s : string) : bool := match s with String c _ => Ascii.eqb c backtick | EmptyString => false end.
Definition _strip_backtick_pair (value : string) : string :=
  if starts_tick value && starts_tick (str_rev "" value) then str_take (String.length value - 2) (str_drop 1 value) else value.
(** [partition]: what precedes the separator, if it occurs. *)
Fixpoint partition_head (sep s : string) : option string :=
  if startswith sep s then Some ""
  else match s with EmptyString => None | String c r => String c <$> partition_head sep r end.
Definition after_prefix (prefix s : string) : option string := if startswith prefix s then Some (str_drop (String.length prefix) s) else None.
Definition _expected_resolution_identity (issue : IssueScope) (kind : ResolutionTargetKind) (target : string) : option (string * string) :=
  let canonical_target := strip target in
  let repo resolver path := (resolver, "git:" +:+ is_repository issue +:+ ":" +:+ path) in
  match kind with
  | source_anchor => repo "builderops.repo-anchor-resolver" <$> partition_head " :: " canonical_target
  | verify_target =>
      let unquoted := _strip_backtick_pair canonical_target in
      match after_prefix "runtime receipt: " unquoted with
      | Some receipt => Some ("builderops.runtime-receipt-resolver", "builderops:runtime-receipt-registry:" +:+ receipt)
      | None =>
          repo "builderops.repo-verify-target-resolver" <$>
            match after_prefix "doc writeback at " unquoted, after_prefix "roadmap diff: " unquoted with
            | Some t, _ | None, Some t => partition_head " :: " (_strip_backtick_pair t)
            | None, None => partition_head "::" unquoted
            end
      end
  end.

Definition re_key (e : IssueContractResolutionEvidence) : ResolutionTargetKind * string := (re_target_kind e, re_target e).
(** The keys of the grouped evidence, in order of first occurrence. *)
Fixpoint distinct {A} `{EqDecision A} (seen l : list A) : list A :=
  match l with
  | [] => []
  | x :: l => if bool_decide (x ∈ seen) then distinct seen l else x :: distinct (x :: seen) l
  end.
Definition entries_for (k : ResolutionTargetKind * string) (l : list IssueContractResolutionEvidence) : list IssueContractResolutionEvidence :=
  List.filter (fun e => bool_decide (re_key e = k)) l.
Definition declared_targets (f : DeliveryIssuePlanningSnapshot) (anchors targets : bool) : list (ResolutionTargetKind * string) :=
  (if anchors then map (pair source_anchor) (_clean_values (pf_source_anchors f)) else [])
  ++ (if targets then map (pair verify_target) (_clean_values (pf_verify_targets f)) else []).
Definition misbound (f : DeliveryIssuePlanningSnapshot) (expected : option (string * string)) (e : IssueContractResolutionEvidence) : bool :=
  match expected with
  | None => true
  | Some x =>
      negb (String.eqb (re_issue_authority_id e) (is_authority_id (pf_issue f)))
      || negb (String.eqb (re_issue_contract_hash e) (is_contract_hash (pf_issue f)))
      || negb (bool_decide ((re_resolver_id e, re_resolved_authority_id e) = x))
  end.
Definition check_target (f : DeliveryIssuePlanningSnapshot) (captured_at : string) (evidence : list IssueContractResolutionEvidence)
    (m : refusal_map) (k : ResolutionTargetKind * string) : refusal_map :=
  let entries := entries_for k evidence in
  let expected := _expected_resolution_identity (pf_issue f) (fst k) (snd k) in
  let m := add_refusal_if (existsb (misbound f expected) entries) (pf_issue f) rc_mismatched_resolution_evidence
    "resolution evidence does not exactly bind the Issue contract, target, resolver, and authority" [] m in
  add_refusal_if (existsb (fun e => String.ltb (re_observed_at e) (as_observed_at (pf_authority f)) || String.ltb captured_at (re_observed_at e)) entries)
    (pf_issue f) rc_stale_resolution_evidence "resolution evidence is outside the Issue-authority snapshot chronology" [] m.
Definition _validate_resolution_evidence (f : DeliveryIssuePlanningSnapshot) (captured_at : string) (anchors targets : bool) (m : refusal_map)
  : refusal_map :=
  let declared := declared_targets f anchors targets in
  let evidence := List.filter (fun e => match re_target_kind e with source_anchor => anchors | verify_target => targets end)
    (pf_resolution_evidence f) in
  let keys := distinct [] (map re_key evidence) in
  let m := add_refusal_if (existsb (fun k => negb (bool_decide (k ∈ keys))) declared) (pf_issue f) rc_missing_resolution_evidence
    "strict issue contract target lacks immutable resolution evidence" [] m in
  let m := add_refusal_if (existsb (fun k => negb (length (entries_for k evidence) =? 1)%nat) keys) (pf_issue f) rc_duplicate_resolution_evidence
    "strict issue contract target has duplicate resolution evidence" [] m in
  let m := add_refusal_if (existsb (fun k => negb (bool_decide (k ∈ declared))) keys) (pf_issue f) rc_mismatched_resolution_evidence
    "resolution evidence target is not an exact declared Issue-contract target" [] m in
  foldl (check_target f captured_at evidence) m (List.filter (fun k => bool_decide (k ∈ declared)) keys).

(** ** Mutation paths *)

Definition slash_char : Ascii.ascii := Ascii.ascii_of_nat 47.
Fixpoint split_path (s : string) : list string :=
  match s with
  | EmptyString => [""]
  | String a s =>
      if Ascii.eqb a slash_char then "" :: split_path s
      else match split_path s with p :: l => String a p :: l | [] => [String a ""] end
  end.
Fixpoint slashes (s : string) : string :=
  match s with
  | EmptyString => ""
  | String c s => String (if (Ascii.N_of_ascii c =? 92)%N then slash_char else c) (slashes s)
  end.
Definition norm_step (rooted : bool) (new : list string) (comp : string) : list string :=
  if String.eqb comp "" || String.eqb comp "." then new
  else if negb (String.eqb comp "..") || (negb rooted && bool_decide (new = [])) || bool_decide (last new = Some "..") then new ++ [comp]
  else removelast new.
(** [posixpath.normpath] and [lstrip("/")]: the leading slashes are dropped. *)
Definition _normalize_path (value : string) : string :=
  let path := slashes (strip value) in
  join "/" (foldl (norm_step (startswith "/" path)) [] (split_path path)).
Definition _paths_overlap (lhs rhs : string) : bool :=
  if String.eqb lhs "" || String.eqb rhs "" then false
  else String.eqb lhs rhs || startswith (rhs +:+ "/") lhs || startswith (lhs +:+ "/") rhs.
Definition normal_paths (f : DeliveryIssuePlanningSnapshot) : list string :=
  List.filter (fun p => negb (String.eqb p "")) (map _normalize_path (pf_mutation_paths f)).
Definition overlaps (f g : DeliveryIssuePlanningSnapshot) : bool :=
  existsb (fun l => existsb (_paths_overlap l) (normal_paths g)) (normal_paths f).

Abbreviation facts_dict := (list (scope * DeliveryIssuePlanningSnapshot)).
Definition fact_leb (a b : DeliveryIssuePlanningSnapshot) : bool := scope_leb (scope_key (pf_issue a)) (scope_key (pf_issue b)).
Definition overlap_detail : string := "likely mutation path overlaps approved peer".
Definition refuse_pair (lhs : DeliveryIssuePlanningSnapshot) (m : refusal_map) (rhs : DeliveryIssuePlanningSnapshot) : refusal_map :=
  if overlaps lhs rhs
  then add_refusal (pf_issue rhs) rc_mutation_overlap overlap_detail [pf_issue lhs]
         (add_refusal (pf_issue lhs) rc_mutation_overlap overlap_detail [pf_issue rhs] m)
  else m.
Fixpoint refuse_overlaps (items : list DeliveryIssuePlanningSnapshot) (m : refusal_map) : refusal_map :=
  match items with [] => m | lhs :: items => refuse_overlaps items (foldl (refuse_pair lhs) m items) end.
Definition _refuse_mutation_overlap (facts : facts_dict) (m : refusal_map) : refusal_map :=
  refuse_overlaps (order_by fact_leb (map snd facts)) m.

(** ** Dependencies *)

Definition open_deps (f : DeliveryIssuePlanningSnapshot) : list IssueScope :=
  map dd_issue (List.filter (fun d => negb (dd_satisfied d)) (pf_dependencies f)).
Definition propagate_one (approved : list IssueScope) (st : refusal_map * bool) (kf : scope * DeliveryIssuePlanningSnapshot) : refusal_map * bool :=
  let '(m, changed) := st in
  if _issue_has_refusal (fst kf) m then st
  else
    let blocked := List.filter (fun i => bool_decide (scope_key i ∈ map scope_key approved) && _issue_has_refusal (scope_key i) m)
      (open_deps (snd kf)) in
    if bool_decide (blocked = []) then st
    else (add_refusal (pf_issue (snd kf)) rc_dependency_blocked "internal dependency was excluded or refused" blocked m, true).
Fixpoint propagate (fuel : nat) (approved : list IssueScope) (facts : facts_dict) (m : refusal_map) : refusal_map :=
  match fuel with
  | O => m
  | S fuel => let '(m, changed) := foldl (propagate_one approved) (m, false) facts in if changed : bool then propagate fuel approved facts m else m
  end.
Definition key_leb (a b : scope * DeliveryIssuePlanningSnapshot) : bool := scope_leb (fst a) (fst b).
Definition _propagate_dependency_refusals (approved : list IssueScope) (facts : facts_dict) (m : refusal_map) : refusal_map :=
  propagate (S (length facts)) approved (order_by key_leb facts) m.

(** The unsatisfied dependencies of an Issue among the candidates, which are keys of [facts]. *)
Definition edges (facts : facts_dict) (candidates : list scope) (k : scope) : list scope :=
  match od_get facts k with
  | None => []
  | Some f => List.filter (fun k => bool_decide (k ∈ candidates)) (map scope_key (open_deps f))
  end.
(** The search from [start]: a stack, top first. *)
Fixpoint search (fuel : nat) (facts : facts_dict) (candidates : list scope) (start : scope) (pending visited : list scope) : bool :=
  match fuel, pending with
  | S fuel, current :: pending =>
      if bool_decide (current ∈ visited) then search fuel facts candidates start pending visited
      else
        let next := edges facts candidates current in
        if bool_decide (start ∈ next) then true else search fuel facts candidates start (rev next ++ pending) (current :: visited)
  | _, _ => false
  end.
Definition search_fuel (facts : facts_dict) : nat := S (list_sum (map (fun kf => length (open_deps (snd kf))) facts)).
Definition on_cycle (facts : facts_dict) (candidates : list scope) (start : scope) : bool :=
  search (search_fuel facts) facts candidates start [start] [].
Definition _dependency_cycle_keys (facts : facts_dict) (candidates : list scope) : list scope :=
  order_by scope_leb (List.filter (on_cycle facts candidates) candidates).

Definition priority_order (p : Priority) : Z := match p with prio_high => 0 | prio_medium => 1 | prio_low => 2 end.
Definition is_ready (facts : facts_dict) (completed : list scope) (k : scope) : bool :=
  forallb (fun d => bool_decide (d ∈ completed)) (edges facts (map fst facts) k).
Definition priority_of (facts : facts_dict) (k : scope) : Z :=
  match od_get facts k with Some f => priority_order (pf_priority f) | None => 0 end.
Definition ready_leb (facts : facts_dict) (a b : scope) : bool :=
  if priority_of facts a =? priority_of facts b then scope_leb a b else priority_of facts a <? priority_of facts b.
Fixpoint chunks (fuel n : nat) (l : list scope) : list (list scope) :=
  match fuel, l with
  | S fuel, _ :: _ => take n l :: chunks fuel n (drop n l)
  | _, _ => []
  end.
Definition issue_leb (a b : IssueScope) : bool := scope_leb (scope_key a) (scope_key b).
Definition wave_issues (facts : facts_dict) (chunk : list scope) : list IssueScope :=
  order_by issue_leb (map pf_issue (omap (od_get facts) chunk)).
(** Waves, as their Issues, in order. *)
Fixpoint build_waves (fuel : nat) (facts : facts_dict) (max_parallel : nat) (remaining completed : list scope) (waves : list (list IssueScope))
  : list (list IssueScope) * list scope :=
  match fuel, remaining with
  | _, [] => (waves, [])
  | O, _ => (waves, remaining)
  | S fuel, _ =>
      let ready := List.filter (is_ready facts completed) remaining in
      if bool_decide (ready = []) then (waves, _dependency_cycle_keys facts remaining)
      else
        let sorted := order_by (ready_leb facts) ready in
        build_waves fuel facts max_parallel (List.filter (fun k => negb (bool_decide (k ∈ ready))) remaining) (completed ++ ready)
          (waves ++ map (wave_issues facts) (chunks (length sorted) max_parallel sorted))
  end.
Definition numbered_waves (waves : list (list IssueScope)) : list DependencyWave :=
  zip_with (fun n w => mkWave (Z.of_nat n) w) (seq 0 (length waves)) waves.
Definition _build_dependency_waves (facts : facts_dict) (max_parallel : Z) : list DependencyWave * list scope :=
  let '(waves, cycle) := build_waves (length facts) facts (Z.to_nat max_parallel) (map fst facts) [] [] in
  (numbered_waves waves, cycle).

(** ** The canonical snapshot *)

Definition dump_satisfaction (e : DeliveryDependencySatisfactionEvidence) : pyval :=
  PDict [("schema_version", PStr "builderops.delivery-dependency-satisfaction-evidence.v1");
         ("dependency_authority_id", PStr (se_authority_id e)); ("dependency_contract_hash", PStr (se_contract_hash e));
         ("delivered_state", PStr "closed"); ("evidence_authority_id", PStr (se_evidence_authority_id e));
         ("evidence_content_hash", PStr (se_evidence_hash e)); ("observed_at", PStr (se_observed_at e))].
Definition dump_dependency (d : DeliveryDependency) : pyval :=
  PDict [("issue", dump_issue (dd_issue d)); ("satisfied", PBool (dd_satisfied d));
         ("satisfaction_evidence", opt_value dump_satisfaction (dd_evidence d))].
Definition dump_resolution (e : IssueContractResolutionEvidence) : pyval :=
  PDict [("schema_version", PStr "builderops.issue-contract-resolution-evidence.v1");
         ("issue_authority_id", PStr (re_issue_authority_id e)); ("issue_contract_hash", PStr (re_issue_contract_hash e));
         ("target_kind", PStr (ResolutionTargetKind_value (re_target_kind e))); ("target", PStr (re_target e));
         ("resolver_id", PStr (re_resolver_id e)); ("resolver_version", PStr "v1");
         ("resolved_authority_id", PStr (re_resolved_authority_id e)); ("resolved_content_hash", PStr (re_resolved_hash e));
         ("observed_at", PStr (re_observed_at e))].
Definition impact_payload (e : SbsImpactEntry) : pyval :=
  PDict [("field_name", PStr (strip (im_field e))); ("value", PStr (strip (im_value e)))].

Section Compiler.
Context (sha256_hex : string -> string).
Context (is_resolvable_verify_target is_durable_repo_anchor : string -> bool).

Definition hash_leb (a b : pyval) : bool := String.leb (canonical_hash sha256_hex a) (canonical_hash sha256_hex b).
Definition by_hash (l : list pyval) : pyval := PList (order_by hash_leb l).
Definition _canonical_issue_payload (f : DeliveryIssuePlanningSnapshot) : pyval :=
  PDict [("issue", dump_issue (pf_issue f)); ("authority", dump_authority (pf_authority f));
         ("priority", PStr (Priority_value (pf_priority f))); ("risk_class", PStr (RiskClass_value (pf_risk_class f)));
         ("delivery_status", PStr (DeliveryStatus_value (pf_delivery_status f))); ("linked_pr_head", opt_text (pf_linked_pr_head f));
         ("parent_issue", opt_value dump_issue (pf_parent_issue f)); ("scope_role", PStr (ScopeRole_value (pf_scope_role f)));
         ("source_anchors", strs (order_by String.leb (map strip (pf_source_anchors f))));
         ("verify_targets", strs (order_by String.leb (map strip (pf_verify_targets f))));
         ("resolution_evidence", by_hash (map dump_resolution (pf_resolution_evidence f)));
         ("sbs_impact", by_hash (map impact_payload (pf_sbs_impact f)));
         ("dependencies", by_hash (map dump_dependency (pf_dependencies f)));
         ("likely_mutation_paths", strs (order_by String.leb (map _normalize_path (pf_mutation_paths f))))].
Definition _canonical_snapshot_payload (s : DeliveryPlanningSnapshot) : pyval :=
  PDict [("schema_version", PStr PLANNING_SNAPSHOT_VERSION); ("snapshot_id", PStr (pn_id s)); ("captured_at", PStr (pn_captured_at s));
         ("issues", by_hash (map _canonical_issue_payload (pn_issues s)))].
Definition input_hash (i : DeliveryInitiation) (s : DeliveryPlanningSnapshot) : string :=
  canonical_hash sha256_hex (PDict
    [("compiler_version", PStr COMPILER_VERSION); ("initiation", dump_ref (initiation_ref_of sha256_hex i));
     ("snapshot", _canonical_snapshot_payload s)]).

(** ** Compilation *)

Definition _verify_targets_are_concrete (values : list string) : bool :=
  let cleaned := _clean_values values in negb (bool_decide (cleaned = [])) && forallb is_resolvable_verify_target cleaned.
Definition _source_anchors_are_concrete (values : list string) : bool :=
  let cleaned := _clean_values values in negb (bool_decide (cleaned = [])) && forallb is_durable_repo_anchor cleaned.

(** Facts outside the approved scope, grouped by Issue. *)
Definition refuse_outside (i : DeliveryInitiation) (s : DeliveryPlanningSnapshot) : refusal_map :=
  let keys := distinct [] (map (fun f => scope_key (pf_issue f)) (pn_issues s)) in
  let outside := List.filter (fun k => negb (bool_decide (k ∈ map scope_key (di_requested_scope i)))) keys in
  foldl (fun m f => add_refusal (pf_issue f) rc_outside_approved_scope "live snapshot issue is outside approved initiation scope" [] m) []
    (concat (map (fun k => facts_for k (pn_issues s)) outside)).
Definition check_dependency (i : DeliveryInitiation) (s : DeliveryPlanningSnapshot) (issue : IssueScope) (f : DeliveryIssuePlanningSnapshot)
    (m : refusal_map) (d : DeliveryDependency) : refusal_map :=
  let approved := scope_find (di_requested_scope i) (scope_key (dd_issue d)) in
  let m := add_refusal_if (match approved with Some a => negb (bool_decide (dd_issue d = a)) | None => false end) issue rc_authority_ambiguity
    "dependency evidence does not exactly bind the approved issue" [dd_issue d] m in
  let m := _validate_dependency_satisfaction d f (pn_issues s) (pn_captured_at s) (pv_created_at (di_provenance i)) m in
  add_refusal_if (bool_decide (approved = None) && negb (dd_satisfied d)) issue rc_dependency_blocked "external dependency is not delivered"
    [dd_issue d] m.
(** The checks of a fact that binds its Issue; it stays a candidate. *)
Definition check_fact (i : DeliveryInitiation) (s : DeliveryPlanningSnapshot) (issue : IssueScope) (f : DeliveryIssuePlanningSnapshot)
    (m : refusal_map) : refusal_map :=
  let m := add_refusal_if (negb (String.eqb (as_state (pf_authority f)) "open")) issue rc_not_ready "live issue authority is not open" [] m in
  let m := _validate_pickup_authority f m in
  let m := add_refusal_if (negb (bool_decide (pf_delivery_status f = ds_undelivered)) || bool_decide (is_Some (pf_linked_pr_head f))) issue
    rc_stale_delivery "issue already has active or delivered PR evidence" [] m in
  let targets := _verify_targets_are_concrete (pf_verify_targets f) in
  let anchors := _source_anchors_are_concrete (pf_source_anchors f) in
  let m := add_refusal_if (negb targets) issue rc_missing_verify_targets "strict issue contract has no concrete Verify target" [] m in
  let m := add_refusal_if (negb anchors) issue rc_missing_source_anchors "strict issue contract has no source anchor" [] m in
  let m := _validate_resolution_evidence f (pn_captured_at s) anchors targets m in
  let m := add_refusal_if (negb (_sbs_impact_is_complete (pf_sbs_impact f))) issue rc_malformed_sbs_impact
    "SBS Impact fields are missing, duplicated, or empty" [] m in
  let m := add_refusal_if (negb (_risk_is_allowed (pp_id (di_policy i)) (pf_risk_class f))) issue rc_risk_policy_blocked
    "issue risk class is not admitted by the approved policy profile" [] m in
  let m := add_refusal_if (_dependencies_are_ambiguous (pf_dependencies f)) issue rc_authority_ambiguity
    "dependency evidence contains contradictory identities" [] m in
  foldl (check_dependency i s issue f) m (pf_dependencies f).
(** One round of the loop over the requested scope. *)
Definition judge_issue (i : DeliveryInitiation) (s : DeliveryPlanningSnapshot) (st : refusal_map * facts_dict) (issue : IssueScope)
  : refusal_map * facts_dict :=
  let '(m, accepted) := st in
  let refused code detail := (add_refusal issue code detail [] m, accepted) in
  match facts_for (scope_key issue) (pn_issues s) with
  | [f] =>
      if String.ltb (pn_captured_at s) (pv_created_at (di_provenance i)) then
        refused rc_authority_ambiguity "live authority snapshot predates the approved initiation"
      else if negb (bool_decide (pf_issue f = issue))
              || negb (_authority_binds_issue (pf_authority f) issue (pn_captured_at s) (pv_created_at (di_provenance i))) then
        refused rc_authority_ambiguity "live authority does not exactly bind the approved issue"
      else if bool_decide (scope_key issue ∈ map scope_key (omap sx_issue (di_exclusions i))) then
        refused rc_approved_exclusion "approved initiation already excludes this issue"
      else if bool_decide (pf_scope_role f = role_validation_parent) then
        refused rc_parent_validation_only "real parent validation hub is not delivery or closure scope"
      else (check_fact i s issue f m, od_set accepted (scope_key issue) f)
  | _ => refused rc_authority_ambiguity "live snapshot must contain exactly one fact for the approved issue"
  end.

Definition unrefused (accepted : facts_dict) (m : refusal_map) : facts_dict :=
  List.filter (fun kf => negb (_issue_has_refusal (fst kf) m)) accepted.
(** The keys refused for a cycle are keys of approved Issues. *)
Definition cycle_detail : string := "internal dependency graph contains a cycle".
Definition refuse_keys (i : DeliveryInitiation) (code : RefusalCode) (detail : string) (keys : list scope) (m : refusal_map) : refusal_map :=
  foldl (fun m k => match scope_find (di_requested_scope i) k with Some issue => add_refusal issue code detail [] m | None => m end) m keys.
(** Refusals known before the budget: the checks, then cycles, then overlaps, each propagated. *)
Definition screen (i : DeliveryInitiation) (s : DeliveryPlanningSnapshot) : refusal_map * facts_dict :=
  let '(m, accepted) := foldl (judge_issue i s) (refuse_outside i s, []) (di_requested_scope i) in
  let approved := di_requested_scope i in
  let m := _propagate_dependency_refusals approved accepted m in
  let candidates := unrefused accepted m in
  let m := refuse_keys i rc_dependency_cycle cycle_detail (_dependency_cycle_keys candidates (map fst candidates)) m in
  let m := _propagate_dependency_refusals approved accepted m in
  let m := _refuse_mutation_overlap (unrefused accepted m) m in
  (_propagate_dependency_refusals approved accepted m, accepted).
Definition drop_keys (keys : list scope) (facts : facts_dict) : facts_dict := List.filter (fun kf => negb (bool_decide (fst kf ∈ keys))) facts.
(** The eligible facts with their waves, after the budget and any cycle that is left. *)
Definition schedule_waves (i : DeliveryInitiation) (m : refusal_map) (accepted : facts_dict) : refusal_map * facts_dict * list DependencyWave :=
  let max_parallel := db_max_parallel_workers (di_budget i) in
  let eligible := unrefused accepted m in
  let over := db_max_worker_starts (di_budget i) <? Z.of_nat (length eligible) in
  let m := if over then foldl (fun m kf => add_refusal (pf_issue (snd kf)) rc_budget_exceeded
                                 "eligible scope exceeds the approved worker-start budget" [] m) m eligible else m in
  let eligible := if over then [] else eligible in
  let '(waves, cycle_keys) := _build_dependency_waves eligible max_parallel in
  let m := refuse_keys i rc_dependency_cycle cycle_detail cycle_keys m in
  if bool_decide (cycle_keys = []) then (m, eligible, waves)
  else
    let m := _propagate_dependency_refusals (di_requested_scope i) accepted m in
    let eligible := unrefused accepted m in
    let '(waves, unresolved) := _build_dependency_waves eligible max_parallel in
    let m := refuse_keys i rc_dependency_cycle "internal dependency graph remains unresolved" unresolved m in
    if bool_decide (unresolved = []) then (m, eligible, waves)
    else
      let eligible := drop_keys unresolved eligible in
      (m, eligible, fst (_build_dependency_waves eligible max_parallel)).

Definition codes_for (key : scope) (refusals : list PlanRefusal) : list string :=
  order_by String.leb (dict_fromkeys (map (fun r => RefusalCode_value (rl_code r))
    (List.filter (fun r => bool_decide (scope_key (rl_issue r) = key)) refusals))).
Definition add_exclusion (included : list scope) (refusals : list PlanRefusal) (existing : list (string * ScopeExclusion)) (issue : IssueScope)
  : list (string * ScopeExclusion) :=
  let ref := scope_ref issue in
  if bool_decide (scope_key issue ∈ included) || bool_decide (is_Some (od_get existing (lower ref))) then existing
  else
    let codes := codes_for (scope_key issue) refusals in
    let codes := if bool_decide (codes = []) then ["authority_ambiguity"] else codes in
    od_set existing (lower ref) (mkExclusion ref ("delivery-plan-compiler:" +:+ join "," codes) (Some issue)).
Definition exclusion_leb (a b : ScopeExclusion) : bool := String.leb (sx_key a) (sx_key b).
Definition _compile_exclusions (i : DeliveryInitiation) (final_scope : list IssueScope) (refusals : list PlanRefusal) : list ScopeExclusion :=
  let existing := foldl (fun d x => od_set d (lower (sx_key x)) x) [] (di_exclusions i) in
  order_by exclusion_leb (map snd (foldl (add_exclusion (map scope_key final_scope) refusals) existing (di_requested_scope i))).
Definition _authority_scope (final_scope : list IssueScope) : string :=
  join "," (order_by String.leb (dict_fromkeys (map (fun x => lower (is_repository x)) final_scope))).

Definition expected_of (f : DeliveryIssuePlanningSnapshot) : ExpectedAuthorityState :=
  mkExpected (pf_issue f) "open" (order_by String.leb (as_labels (pf_authority f))) ["agent:blocked"; "agent:needs-human"]
    (is_contract_hash (pf_issue f)).
Definition authority_leb (a b : AuthoritySnapshot) : bool := String.leb (as_id a) (as_id b).
Definition latest_of (a b : string) : string := if String.ltb a b then b else a.
Definition plan_of (i : DeliveryInitiation) (s : DeliveryPlanningSnapshot) (eligible : facts_dict) (waves : list DependencyWave)
    (refusals : list PlanRefusal) : DeliveryPlan :=
  let facts := map snd eligible in
  let final_scope := order_by issue_leb (map pf_issue facts) in
  let hash := input_hash i s in
  mkPlan ("delivery-plan:" +:+ hash) (initiation_ref_of sha256_hex i) (order_by authority_leb (map pf_authority facts)) final_scope
    (_compile_exclusions i final_scope refusals) waves (map expected_of (order_by fact_leb facts)) (di_policy i) (di_budget i)
    _EFFECT_ALLOWLIST
    (mkProvenance (latest_of (pv_created_at (di_provenance i)) (pn_captured_at s))
       (mkActor "service" "builderops:delivery-plan-compiler.v2" (_authority_scope final_scope))
       [mkSource "delivery_initiation" (di_id i) (canonical_hash sha256_hex (dump_initiation i));
        mkSource "delivery_planning_snapshot" (pn_id s) (canonical_hash sha256_hex (_canonical_snapshot_payload s))]
       ("delivery-plan-compile:" +:+ hash)).
Definition refusal_key (r : PlanRefusal) : scope * RefusalCode * string := (scope_key (rl_issue r), rl_code r, rl_detail r).
Definition compilation_validate_result (c : DeliveryPlanCompilation) : res unit :=
  _ ← reject (negb (bool_decide (is_Some (cm_plan c))) && bool_decide (cm_refusals c = [])) "plan-less compilation must carry typed refusals";
  reject (negb (bool_decide (map refusal_key (cm_refusals c) = map refusal_key (order_by refusal_leb (cm_refusals c)))))
    "plan refusals must use canonical order".
Definition compile_delivery_plan (i : DeliveryInitiation) (s : DeliveryPlanningSnapshot) : res DeliveryPlanCompilation :=
  let '(m, accepted) := screen i s in
  let '(m, eligible, waves) := schedule_waves i m accepted in
  let refusals := order_by refusal_leb (map snd m) in
  plan ← (if bool_decide (eligible = []) then Ok None
          else
            let plan := plan_of i s eligible waves refusals in
            _ ← _validate_plan plan;
            _ ← validate_delivery_plan_evidence sha256_hex plan i;
            Ok (Some plan));
  let c := mkCompilation (input_hash i s) plan refusals in
  _ ← compilation_validate_result c;
  Ok c.
End Compiler.
