(* ===== verification/DeliveryGraph.v ===== *)
(** * The dependency graph of a delivery plan

    Refusals only accumulate, the search for cycles decides the transitive
    closure of the dependencies, propagation closes the refusals, and waves
    follow the dependencies. *)
From Stdlib Require Import Sorted.
From stdpp Require Import relations.
From S2P Require Import Prelude PyValue Sql DeliveryContracts DeliveryApproval DeliveryCompiler.
Open Scope Z_scope.

(** ** Lists *)

Lemma filter_elem {A} (p : A -> bool) x l : x ∈ List.filter p l <-> x ∈ l /\ p x = true.
Proof. by rewrite !list_elem_of_In, filter_In. Qed.
Lemma existsb_elem {A} (p : A -> bool) l : existsb p l = true <-> exists x, x ∈ l /\ p x = true.
Proof. rewrite existsb_exists. by setoid_rewrite list_elem_of_In. Qed.
Lemma forallb_elem {A} (p : A -> bool) l : forallb p l = true <-> forall x, x ∈ l -> p x = true.
Proof. rewrite forallb_forall. by setoid_rewrite list_elem_of_In. Qed.
Lemma NoDup_filter_bool {A} (p : A -> bool) l : NoDup l -> NoDup (List.filter p l).
Proof.
  induction 1 as [|x l Hx _ IH]; simpl; [constructor|]. destruct (p x); [|done].
  constructor; [|done]. rewrite filter_elem. tauto.
Qed.
Lemma NoDup_map_filter {A B} (f : A -> B) (p : A -> bool) l : NoDup (map f l) -> NoDup (map f (List.filter p l)).
Proof.
  induction l as [|x l IH]; simpl; [done|]. intros [Hx H]%NoDup_cons. destruct (p x); [|auto].
  simpl. constructor; [|auto]. rewrite !list_elem_of_In, in_map_iff. intros (y & E & Hy). apply filter_In in Hy as [Hy _].
  apply Hx, list_elem_of_In, in_map_iff. eauto.
Qed.
Lemma od_get_unique {K V} `{EqDecision K} (d : list (K * V)) k v : NoDup (map fst d) -> (k, v) ∈ d -> od_get d k = Some v.
Proof.
  induction d as [|[j w] d IH]; simpl; [by intros _ ?%not_elem_of_nil|]. intros [Hj Hn]%NoDup_cons [[= <- <-]|Hin]%elem_of_cons.
  - by rewrite decide_True.
  - rewrite decide_False; [auto|]. intros ->. apply Hj. apply list_elem_of_fmap. by exists (j, v).
Qed.
Lemma od_get_In {K V} `{EqDecision K} (d : list (K * V)) k : is_Some (od_get d k) <-> k ∈ map fst d.
Proof.
  induction d as [|[j w] d IH]; simpl; [split; [by intros []|by intros ?%not_elem_of_nil]|].
  rewrite elem_of_cons. case_decide; [split; [by left|by eexists]|]. rewrite IH. naive_solver.
Qed.
Lemma filter_length_lt {A} (p q : A -> bool) l x :
  (forall y, p y = true -> q y = true) -> x ∈ l -> p x = false -> q x = true -> (length (List.filter p l) < length (List.filter q l))%nat.
Proof.
  intros Hpq Hx Hp Hq. assert (Hle : forall k, (length (List.filter p k) <= length (List.filter q k))%nat).
  { induction k as [|y k IH]; simpl; [lia|]. destruct (p y) eqn:E; [rewrite (Hpq y E); simpl; lia|destruct (q y); simpl; lia]. }
  induction l as [|y l IH]; [by apply not_elem_of_nil in Hx|]. apply elem_of_cons in Hx as [<-|Hx]; simpl.
  - rewrite Hp, Hq. simpl. specialize (Hle l). lia.
  - specialize (IH Hx). destruct (p y) eqn:E; [rewrite (Hpq y E); simpl; lia|destruct (q y); simpl; lia].
Qed.
Lemma filter_length_le {A} (p : A -> bool) l : (length (List.filter p l) <= length l)%nat.
Proof. induction l as [|x l IH]; simpl; [done|]. destruct (p x); simpl; lia. Qed.

Lemma rev_elem {A} (x : A) l : x ∈ rev l <-> x ∈ l.
Proof. by rewrite !list_elem_of_In, <- in_rev. Qed.

(** ** Refusals accumulate *)

Abbreviation has_refusal m k := (_issue_has_refusal k m = true).
Lemma has_refuse issue code detail related m k :
  _issue_has_refusal k (add_refusal issue code detail related m) = bool_decide (scope_key issue = k) || _issue_has_refusal k m.
Proof.
  unfold add_refusal. set (r := mkRefusal _ _ _ _). clearbody r. unfold _issue_has_refusal.
  apply eq_true_iff_eq. rewrite orb_true_iff, !existsb_elem, bool_decide_eq_true. split.
  - intros (kv & [->|H]%od_set_elem & E%bool_decide_eq_true); [by left|]. right. exists kv. by rewrite bool_decide_eq_true.
  - set (key := (scope_key issue, code, detail)). assert (Hkeys : key ∈ map fst (od_set m key r)).
    { rewrite od_set_keys. case_decide; [done|]. apply elem_of_app. right. by apply list_elem_of_singleton. }
    intros [<-|([[[a b] c] r'] & H & E%bool_decide_eq_true)].
    + apply list_elem_of_fmap in Hkeys as (kv & E & H). exists kv. rewrite <- E, bool_decide_eq_true. done.
    + simpl in E. subst a. assert (H' : (k, b, c) ∈ map fst (od_set m key r)).
      { rewrite od_set_keys. apply (list_elem_of_fmap_2 fst) in H. simpl in H. case_decide; [done|]. apply elem_of_app. by left. }
      apply list_elem_of_fmap in H' as (kv & E & H'). exists kv. rewrite <- E, bool_decide_eq_true. done.
Qed.
Lemma has_refuse_if c issue code detail related m k :
  _issue_has_refusal k (add_refusal_if c issue code detail related m) = (c && bool_decide (scope_key issue = k)) || _issue_has_refusal k m.
Proof. unfold add_refusal_if. destruct c; [apply has_refuse|done]. Qed.
(** [m'] is [m] after more refusals. *)
Definition refusals_grow : refusal_map -> refusal_map -> Prop :=
  rtc (fun m m' => exists issue code detail related, m' = add_refusal issue code detail related m).
#[export] Instance grows_preorder : PreOrder refusals_grow.
Proof. split; unfold refusals_grow; typeclasses eauto. Qed.
Lemma grows_refuse issue code detail related m : refusals_grow m (add_refusal issue code detail related m).
Proof. apply rtc_once. eauto. Qed.
Lemma grows_refuse_if c issue code detail related m : refusals_grow m (add_refusal_if c issue code detail related m).
Proof. unfold add_refusal_if. destruct c; [apply grows_refuse|done]. Qed.
Lemma grows_has m m' k : refusals_grow m m' -> has_refusal m k -> has_refusal m' k.
Proof. induction 1 as [|a b c (issue & code & detail & related & ->) _ IH]; [done|]. intros H. apply IH. rewrite has_refuse, H. apply orb_true_r. Qed.
Lemma grows_foldl {A} (f : refusal_map -> A -> refusal_map) l : (forall m x, refusals_grow m (f m x)) -> forall m, refusals_grow m (foldl f m l).
Proof. intros H. induction l as [|x l IH]; intros m; simpl; [done|]. etrans; [apply H|apply IH]. Qed.
Lemma unrefused_grows m m' k : refusals_grow m m' -> _issue_has_refusal k m' = false -> _issue_has_refusal k m = false.
Proof. intros H E. destruct (_issue_has_refusal k m) eqn:F; [|done]. by rewrite (grows_has _ _ k H F) in E. Qed.

(** ** The search for cycles *)

Section Search.
Context (facts : facts_dict) (candidates : list scope).
Let R (a b : scope) : Prop := b ∈ edges facts candidates a.

Lemma search_sound start fuel : forall pending visited, (forall x, x ∈ pending -> rtc R start x) ->
  search fuel facts candidates start pending visited = true -> tc R start start.
Proof.
  induction fuel as [|fuel IH]; intros pending visited Hp; simpl; [done|]. destruct pending as [|x pending]; [done|].
  case_bool_decide as Hv; [apply IH; intros y Hy; apply Hp; by right|]. case_bool_decide as Hs.
  - intros _. eapply tc_rtc_l; [apply Hp; left|]. by apply tc_once.
  - apply IH. intros y. rewrite elem_of_app, rev_elem. intros [Hy|Hy]; [|apply Hp; by right].
    eapply rtc_r; [apply Hp; left|done].
Qed.

(** What the search can still push: the dependencies of the Issues not visited. *)
Definition pushes (visited : list scope) : nat :=
  list_sum (map (fun kf => if bool_decide (fst kf ∈ visited) then 0%nat else length (open_deps (snd kf))) facts).
Lemma edges_size k : (length (edges facts candidates k) <= match od_get facts k with Some f => length (open_deps f) | None => 0 end)%nat.
Proof. unfold edges. destruct (od_get facts k); [|done]. etrans; [apply filter_length_le|]. by rewrite length_map. Qed.
Lemma pushes_visit k visited : k ∉ visited -> (length (edges facts candidates k) + pushes (k :: visited) <= pushes visited)%nat.
Proof.
  intros Hk. pose proof (edges_size k) as He. unfold pushes.
  assert (Hle : forall l : facts_dict,
    (list_sum (map (fun kf => if bool_decide (fst kf ∈ k :: visited) then 0%nat else length (open_deps (snd kf))) l)
     <= list_sum (map (fun kf => if bool_decide (fst kf ∈ visited) then 0%nat else length (open_deps (snd kf))) l))%nat).
  { induction l as [|[j f] l IH]; simpl; [lia|]. destruct (bool_decide_reflect (j ∈ visited)).
    - rewrite bool_decide_true by (by right). lia.
    - destruct (bool_decide (j ∈ k :: visited)); lia. }
  destruct (od_get facts k) as [f|] eqn:E; [|specialize (Hle facts); lia].
  apply (Nat.le_trans _ (length (open_deps f) + list_sum (map (fun kf => if bool_decide (fst kf ∈ k :: visited) then 0%nat
    else length (open_deps (snd kf))) facts))); [lia|]. clear He.
  induction facts as [|[j g] l IH]; simpl in *; [done|]. destruct (decide (k = j)) as [->|Hj].
  - injection E as ->. rewrite (bool_decide_true (j ∈ j :: visited)) by left. rewrite (bool_decide_false (j ∈ visited)) by done.
    specialize (Hle l). lia.
  - specialize (IH E). destruct (bool_decide_reflect (j ∈ visited)).
    + rewrite bool_decide_true by (by right). lia.
    + rewrite bool_decide_false by (rewrite elem_of_cons; naive_solver). lia.
Qed.

(** Nothing reachable from a set that is closed and has no edge to [start] is [start]. *)
Lemma closed_avoids start (visited : list scope) :
  (forall v, v ∈ visited -> (start ∉ edges facts candidates v) /\ (forall y, R v y -> y ∈ visited)) ->
  forall x z, tc R x z -> x ∈ visited -> z <> start.
Proof.
  intros Hv x z H. induction H as [x z H|x y z Hxy _ IH]; intros Hx; destruct (Hv x Hx) as [Hn Hy]; [|by auto].
  intros ->. by apply Hn.
Qed.
Lemma search_complete start fuel : forall (pending visited : list scope), (length pending + pushes visited <= fuel)%nat ->
  (forall v, v ∈ visited -> (start ∉ edges facts candidates v) /\ (forall y, R v y -> (y ∈ visited) \/ (y ∈ pending))) ->
  (start ∈ visited) \/ (start ∈ pending) -> search fuel facts candidates start pending visited = false -> ~ tc R start start.
Proof.
  induction fuel as [|fuel IH]; intros pending visited Hf Hv Hs Hr.
  all: destruct pending as [|x pending];
    [intros Ht; apply (closed_avoids start visited) in Ht; [done| |by destruct Hs as [|[]%not_elem_of_nil]];
     intros v Hin; destruct (Hv v Hin) as [Hn Hy]; split; [done|]; intros y Hvy; by destruct (Hy y Hvy) as [|[]%not_elem_of_nil]|].
  { simpl in Hf. lia. }
  simpl in Hr, Hf. destruct (bool_decide_reflect (x ∈ visited)) as [Hx|Hx].
  - revert Hr. apply IH; [lia| |rewrite elem_of_cons in Hs; naive_solver].
    intros v Hin. destruct (Hv v Hin) as [Hn Hy]. split; [done|]. intros y [?|[->|?]%elem_of_cons]%Hy; auto.
  - destruct (bool_decide_reflect (start ∈ edges facts candidates x)) as [|Hn]; [done|].
    revert Hr. apply IH.
    + pose proof (pushes_visit x visited Hx). rewrite length_app, length_rev. lia.
    + intros v [->|Hin]%elem_of_cons.
      * split; [done|]. intros y Hy. right. rewrite elem_of_app, rev_elem. by left.
      * destruct (Hv v Hin) as [Hnv Hy]. split; [exact Hnv|].
        intros y [?|[->|?]%elem_of_cons]%Hy; rewrite elem_of_app, elem_of_cons; auto.
    + rewrite elem_of_app, elem_of_cons. destruct Hs as [|[->|]%elem_of_cons]; auto.
Qed.
Lemma search_decides start : on_cycle facts candidates start = true <-> tc R start start.
Proof.
  unfold on_cycle. split.
  - apply search_sound. intros x ->%list_elem_of_singleton. apply rtc_refl.
  - intros Ht. destruct (search _ _ _ _ _ _) eqn:E; [done|]. exfalso. revert E Ht. apply search_complete.
    + unfold search_fuel, pushes. simpl. lia.
    + by intros v ?%not_elem_of_nil.
    + right. by apply list_elem_of_singleton.
Qed.
End Search.

(** ** Propagation *)

Definition keyed_facts (facts : facts_dict) : Prop := forall kf, kf ∈ facts -> scope_key (pf_issue (snd kf)) = fst kf.
(** No candidate left depends on a refused Issue. *)
Definition refusals_closed (approved : list IssueScope) (facts : facts_dict) (m : refusal_map) : Prop :=
  forall k f, (k, f) ∈ facts -> _issue_has_refusal k m = false ->
  forall i, i ∈ open_deps f -> scope_key i ∈ map scope_key approved -> _issue_has_refusal (scope_key i) m = false.

Section Propagation.
Context (approved : list IssueScope).

Lemma propagate_one_changed st kf : refusals_grow (fst st) (fst (propagate_one approved st kf)) /\ (snd st = true -> snd (propagate_one approved st kf) = true).
Proof.
  destruct st as [m c]. unfold propagate_one. cbn [fst snd]. destruct (_issue_has_refusal (fst kf) m); [done|].
  case_bool_decide; [done|]. split; [apply grows_refuse|done].
Qed.
Lemma round_grows facts : forall st, refusals_grow (fst st) (fst (foldl (propagate_one approved) st facts))
  /\ (snd st = true -> snd (foldl (propagate_one approved) st facts) = true).
Proof.
  induction facts as [|kf facts IH]; intros st; simpl; [done|]. destruct (propagate_one_changed st kf) as [H1 H2].
  destruct (IH (propagate_one approved st kf)) as [H3 H4]. split; [by etrans|auto].
Qed.
(** A round that changes nothing found the refusals closed. *)
Lemma round_unchanged facts : forall m, snd (foldl (propagate_one approved) (m, false) facts) = false ->
  fst (foldl (propagate_one approved) (m, false) facts) = m /\ refusals_closed approved facts m.
Proof.
  induction facts as [|[k f] facts IH]; intros m; cbn [foldl]; [intros _; split; [done|]; by intros k f ?%not_elem_of_nil|].
  intros H. destruct (propagate_one approved (m, false) (k, f)) as [m' c] eqn:E.
  destruct c; [by rewrite (proj2 (round_grows facts (m', true)) eq_refl) in H|].
  assert (Hm : m' = m /\ (_issue_has_refusal k m = false -> forall i, i ∈ open_deps f -> scope_key i ∈ map scope_key approved ->
    _issue_has_refusal (scope_key i) m = false)).
  { unfold propagate_one in E. cbn [fst snd] in E. destruct (_issue_has_refusal k m); [by injection E as ->|].
    case_bool_decide as Hb; [|done]. injection E as ->. split; [done|]. intros _ i Hi Ha.
    destruct (_issue_has_refusal (scope_key i) m') eqn:F; [|done]. exfalso.
    apply (not_elem_of_nil i). rewrite <- Hb. apply filter_elem. split; [done|]. rewrite F, bool_decide_true by done. done. }
  destruct Hm as [-> Hk]. destruct (IH m H) as [-> Hc]. split; [done|]. intros k' f' [[= -> ->]|Hin]%elem_of_cons; [done|by eapply Hc].
Qed.
Lemma round_changed facts : keyed_facts facts -> forall m, snd (foldl (propagate_one approved) (m, false) facts) = true ->
  exists kf, kf ∈ facts /\ _issue_has_refusal (fst kf) m = false /\ has_refusal (fst (foldl (propagate_one approved) (m, false) facts)) (fst kf).
Proof.
  induction facts as [|[k f] facts IH]; intros Hk m; cbn [foldl]; [done|]. intros H.
  destruct (propagate_one approved (m, false) (k, f)) as [m' c] eqn:E. destruct c.
  - exists (k, f). split; [left|]. unfold propagate_one in E. cbn [fst snd] in *. destruct (_issue_has_refusal k m) eqn:F; [done|].
    split; [done|]. case_bool_decide; [done|]. injection E as <-. eapply grows_has; [apply (proj1 (round_grows facts _))|]. cbn [fst].
    rewrite has_refuse, bool_decide_true; [done|]. apply (Hk (k, f)). left.
  - assert (m' = m) as ->.
    { unfold propagate_one in E. cbn [fst snd] in E. destruct (_issue_has_refusal k m); [by injection E|]. case_bool_decide; [by injection E|done]. }
    destruct (IH ltac:(intros kf Hin; apply Hk; by right) m H) as (kf & Hin & ?). exists kf. split; [by right|done].
Qed.

Definition unrefused_count (facts : facts_dict) (m : refusal_map) : nat := length (List.filter (fun kf => negb (_issue_has_refusal (fst kf) m)) facts).
Lemma propagate_spec facts : keyed_facts facts -> forall fuel m, (unrefused_count facts m < fuel)%nat ->
  refusals_grow m (propagate fuel approved facts m) /\ refusals_closed approved facts (propagate fuel approved facts m).
Proof.
  intros Hk. induction fuel as [|fuel IH]; intros m Hf; simpl; [lia|].
  pose proof (round_grows facts (m, false)) as [Hg _]. pose proof (round_unchanged facts m) as Hu. pose proof (round_changed facts Hk m) as Hc.
  destruct (foldl (propagate_one approved) (m, false) facts) as [m' c]. cbn [fst snd] in *. destruct c.
  - destruct (Hc eq_refl) as (kf & Hin & H1 & H2). destruct (IH m') as [H3 H4].
    + apply (Nat.lt_le_trans _ (unrefused_count facts m)); [|lia]. unfold unrefused_count. apply filter_length_lt with kf; try done.
      * intros y. rewrite !negb_true_iff. by apply unrefused_grows.
      * by rewrite H2.
      * by rewrite H1.
    + split; [by etrans|done].
  - destruct (Hu eq_refl) as [-> ?]. done.
Qed.
Lemma propagate_dependencies_spec facts m : keyed_facts facts ->
  refusals_grow m (_propagate_dependency_refusals approved facts m)
  /\ refusals_closed approved facts (_propagate_dependency_refusals approved facts m).
Proof.
  intros Hk. unfold _propagate_dependency_refusals. destruct (propagate_spec (order_by key_leb facts)) with (S (length facts)) m as [H1 H2].
  - intros kf ?%order_by_elem. by apply Hk.
  - unfold unrefused_count. pose proof (filter_length_le (fun kf => negb (_issue_has_refusal (fst kf) m)) (order_by key_leb facts)) as H.
    rewrite (Permutation_length (order_by_perm key_leb facts)) in H. lia.
  - split; [done|]. intros k f Hin. apply H2. by apply order_by_elem.
Qed.
End Propagation.

(** ** Waves *)

Lemma scope_leb_total a b : scope_leb a b = false -> scope_leb b a = true.
Proof.
  unfold scope_leb. rewrite (String.eqb_sym (fst b)). destruct (String.eqb (fst a) (fst b)); [rewrite Z.leb_gt, Z.leb_le; lia|apply leb_false].
Qed.
Lemma scope_leb_trans a b c : scope_leb a b = true -> scope_leb b c = true -> scope_leb a c = true.
Proof.
  unfold scope_leb. destruct (String.eqb_spec (fst a) (fst b)) as [->|Hab]; [|].
  - destruct (String.eqb (fst b) (fst c)); [rewrite !Z.leb_le; lia|done].
  - destruct (String.eqb_spec (fst b) (fst c)) as [E|Hbc]; [rewrite E in Hab |- *; by rewrite (proj2 (String.eqb_neq _ _) Hab)|].
    intros H1 H2. destruct (String.eqb_spec (fst a) (fst c)) as [E|_]; [|by eapply leb_trans].
    rewrite E in H1, Hab. by rewrite (String.leb_antisym _ _ H1 H2) in Hab.
Qed.
Lemma scope_leb_antisym a b : scope_leb a b = true -> scope_leb b a = true -> a = b.
Proof.
  unfold scope_leb. destruct a as [r n], b as [r' n']. cbn [fst snd]. rewrite (String.eqb_sym r').
  destruct (String.eqb_spec r r') as [->|H]; [rewrite !Z.leb_le; intros; f_equal; lia|].
  intros H1 H2. by rewrite (String.leb_antisym _ _ H1 H2) in H.
Qed.

Lemma filter_partition {A} (p : A -> bool) l : List.filter p l ++ List.filter (fun x => negb (p x)) l ≡ₚ l.
Proof.
  induction l as [|x l IH]; simpl; [done|]. destruct (p x); simpl; [by constructor|]. rewrite <- Permutation_middle. by constructor.
Qed.
Lemma chunks_concat n fuel : (0 < n)%nat -> forall l, (length l <= fuel)%nat -> concat (chunks fuel n l) = l.
Proof.
  intros Hn. induction fuel as [|fuel IH]; intros l Hl; destruct l as [|x l]; simpl in *; [done|lia|done|].
  rewrite IH; [apply (take_drop n (x :: l))|]. rewrite length_drop. simpl. lia.
Qed.
Lemma chunks_bounds n fuel : (0 < n)%nat -> forall l c, c ∈ chunks fuel n l -> c <> [] /\ (length c <= n)%nat.
Proof.
  intros Hn. induction fuel as [|fuel IH]; intros l c; destruct l as [|x l]; cbn [chunks]; try by intros ?%not_elem_of_nil.
  intros [->|H]%elem_of_cons; [|by eapply IH]. split; [by destruct n; [lia|]|rewrite length_take; lia].
Qed.

Section Waves.
Context (facts : facts_dict) (max_parallel : nat).
Context (keyed : keyed_facts facts) (parallel : (0 < max_parallel)%nat).
Let R (a b : scope) : Prop := b ∈ edges facts (map fst facts) a.

Lemma edges_known a b : R a b -> b ∈ map fst facts.
Proof.
  unfold R, edges. destruct (od_get facts a); [|by intros ?%not_elem_of_nil]. intros [_ H]%filter_elem. by apply bool_decide_eq_true in H.
Qed.

Lemma tc_known a b : tc R a b -> b ∈ map fst facts.
Proof. induction 1 as [a b H|]; [by apply (edges_known a)|done]. Qed.

(** Without cycles every non-empty set of Issues has one whose dependencies are all outside of it. *)
Lemma acyclic_has_ready (remaining completed : list scope) : (forall k, ~ tc R k k) -> map fst facts ⊆ completed ++ remaining ->
  List.filter (is_ready facts completed) remaining = [] -> remaining = [].
Proof.
  intros Hac Hkeys Hr. destruct remaining as [|x rest] eqn:E; [done|]. exfalso. rewrite <- E in *.
  assert (Hsn : sn R x).
  { apply tc_finite_sn; [intros k H; by apply (Hac k)|]. exists (map fst facts). intros y. apply tc_known. }
  assert (Hin : x ∈ remaining) by (rewrite E; left). clear E rest. induction Hsn as [x _ IH].
  destruct (is_ready facts completed x) eqn:F.
  - apply (not_elem_of_nil x). rewrite <- Hr. by apply filter_elem.
  - unfold is_ready in F. apply not_true_iff_false in F. rewrite forallb_elem in F.
    assert (exists d, R x d /\ d ∉ completed) as (d & Hd & Hn).
    { destruct (existsb (fun d => negb (bool_decide (d ∈ completed))) (edges facts (map fst facts) x)) eqn:G.
      - apply existsb_elem in G as (d & ? & Hn%negb_true_iff%bool_decide_eq_false). by exists d.
      - exfalso. apply F. intros d Hd. apply not_true_iff_false in G. apply bool_decide_eq_true.
        destruct (decide (d ∈ completed)); [done|]. exfalso. apply G, existsb_elem. exists d. by rewrite bool_decide_false. }
    apply (IH d Hd). assert (d ∈ completed ++ remaining) as [?|?]%elem_of_app; [|done..]. by apply Hkeys, (edges_known x).
Qed.

Record wave_inv (completed : list scope) (waves : list (list IssueScope)) : Prop := {
  wi_covers : map scope_key (concat waves) ≡ₚ completed;
  wi_shape : forall w, w ∈ waves -> w <> [] /\ (length w <= max_parallel)%nat
    /\ StronglySorted (fun x y => issue_leb x y = true) w;
  wi_facts : forall i, i ∈ concat waves -> exists f, (scope_key i, f) ∈ facts /\ pf_issue f = i;
  wi_order : forall n w i d, waves !! n = Some w -> i ∈ w -> R (scope_key i) d ->
    exists m w', (m < n)%nat /\ waves !! m = Some w' /\ d ∈ map scope_key w' }.

Lemma wave_issues_keys chunk : chunk ⊆ map fst facts -> map scope_key (wave_issues facts chunk) ≡ₚ chunk.
Proof.
  intros Hc. unfold wave_issues. rewrite order_by_perm, map_map. induction chunk as [|k chunk IH]; simpl; [done|].
  assert (is_Some (od_get facts k)) as [f E] by (apply od_get_In, Hc; left). rewrite E. simpl.
  pose proof (keyed _ (od_get_elem _ _ _ E)) as Hkf. cbn [fst snd] in Hkf. rewrite Hkf. constructor. apply IH. intros x Hx. apply Hc. by right.
Qed.
Lemma wave_issues_facts chunk i : i ∈ wave_issues facts chunk -> exists f, (scope_key i, f) ∈ facts /\ pf_issue f = i.
Proof.
  unfold wave_issues. rewrite order_by_elem, list_elem_of_In, in_map_iff. intros (f & <- & Hf).
  apply list_elem_of_In, list_elem_of_omap in Hf as (k & _ & E). apply od_get_elem in E. exists f. split; [|done].
  pose proof (keyed _ E) as Hkf. cbn [fst snd] in Hkf. by rewrite Hkf.
Qed.
Lemma wave_issues_sorted chunk : StronglySorted (fun x y => issue_leb x y = true) (wave_issues facts chunk).
Proof.
  apply order_by_sorted; unfold issue_leb; [intros x y; apply scope_leb_total|intros x y z; apply scope_leb_trans].
Qed.
Lemma chunk_keys cs : concat cs ⊆ map fst facts -> map scope_key (concat (map (wave_issues facts) cs)) ≡ₚ concat cs.
Proof.
  induction cs as [|c l IH]; simpl; [done|]. intros Hr. rewrite map_app.
  rewrite wave_issues_keys by (intros x Hx; apply Hr, elem_of_app; by left). rewrite IH; [done|].
  intros x Hx. apply Hr, elem_of_app. by right.
Qed.
Lemma round_keys ready : ready ⊆ map fst facts ->
  map scope_key (concat (map (wave_issues facts) (chunks (length ready) max_parallel ready))) ≡ₚ ready.
Proof.
  intros Hr. pose proof (chunks_concat max_parallel (length ready) parallel ready (le_n _)) as E.
  rewrite chunk_keys; [by rewrite E|]. by rewrite E.
Qed.

Lemma wave_inv_round completed waves ready : wave_inv completed waves -> ready ⊆ map fst facts ->
  (forall k, k ∈ ready -> is_ready facts completed k = true) ->
  wave_inv (completed ++ ready) (waves ++ map (wave_issues facts) (chunks (length ready) max_parallel ready)).
Proof.
  intros [W1 W2 W3 W4] Hr Hready. pose proof (round_keys ready Hr) as Hk. set (new := map (wave_issues facts) _) in *. split.
  - by rewrite concat_app, map_app, W1, Hk.
  - intros w [H|H]%elem_of_app; [by apply W2|]. apply list_elem_of_In, in_map_iff in H as (c & <- & Hc%list_elem_of_In).
    destruct (chunks_bounds _ _ parallel _ _ Hc) as [H1 H2]. assert (Hck : map scope_key (wave_issues facts c) ≡ₚ c).
    { apply wave_issues_keys. intros x Hx. apply Hr. rewrite <- (chunks_concat max_parallel (length ready) parallel ready) by lia.
      apply list_elem_of_In, in_concat. exists c. by rewrite <- !list_elem_of_In. }
    repeat split; [|by rewrite <- (length_map scope_key), (Permutation_length Hck)|apply wave_issues_sorted].
    intros E. rewrite E in Hck. simpl in Hck. by apply H1, Permutation_nil.
  - intros i. rewrite concat_app, elem_of_app. intros [H|H]; [by apply W3|].
    apply list_elem_of_In, in_concat in H as (w & Hw & Hi%list_elem_of_In). apply in_map_iff in Hw as (c & <- & _). by eapply wave_issues_facts.
  - intros n w i d Hn Hi Hd. destruct (decide (n < length waves)%nat) as [Hlt|Hge].
    + rewrite lookup_app_l in Hn by done. destruct (W4 n w i d Hn Hi Hd) as (m & w' & Hm & Hw & ?). exists m, w'. split; [done|].
      by rewrite lookup_app_l by (by eapply lookup_lt_Some).
    + rewrite lookup_app_r in Hn by lia. assert (Hik : scope_key i ∈ ready).
      { rewrite <- Hk. apply (list_elem_of_fmap_2 scope_key), list_elem_of_In, in_concat. exists w. rewrite <- !list_elem_of_In.
        split; [by eapply list_elem_of_lookup_2|done]. }
      assert (Hdc : d ∈ completed).
      { pose proof (Hready _ Hik) as H. unfold is_ready in H. rewrite forallb_elem in H. by apply (bool_decide_eq_true_1 _ (H d Hd)). }
      rewrite <- W1 in Hdc. apply list_elem_of_fmap in Hdc as (j & -> & Hj). apply list_elem_of_In, in_concat in Hj as (w' & Hw & Hj).
      apply list_elem_of_In, list_elem_of_lookup_1 in Hw as (m & Hm). pose proof (lookup_lt_Some _ _ _ Hm). exists m, w'. repeat split; [lia| |].
      * by rewrite lookup_app_l.
      * by apply list_elem_of_fmap_2, list_elem_of_In.
Qed.
Lemma wave_inv_perm completed completed' waves : completed ≡ₚ completed' -> wave_inv completed waves -> wave_inv completed' waves.
Proof. intros E [W1 W2 W3 W4]. split; [by rewrite W1|done..]. Qed.

Lemma build_waves_spec fuel : (forall k, ~ tc R k k) -> forall remaining completed waves, (length remaining <= fuel)%nat ->
  completed ++ remaining ≡ₚ map fst facts -> wave_inv completed waves ->
  exists waves', build_waves fuel facts max_parallel remaining completed waves = (waves', []) /\ wave_inv (map fst facts) waves'.
Proof.
  intros Hac. induction fuel as [|fuel IH]; intros remaining completed waves Hf Hp Hw.
  all: destruct remaining as [|x rest] eqn:E; try (exists waves; split; [done|]; apply (wave_inv_perm completed); [by rewrite <- Hp, app_nil_r|done]).
  { simpl in Hf. lia. }
  cbn [build_waves]. rewrite <- E in *. set (ready := List.filter (is_ready facts completed) remaining).
  assert (Hne : ready <> []).
  { intros H. apply (acyclic_has_ready remaining completed) in H; [by rewrite E in H|done|]. by rewrite <- Hp. }
  rewrite bool_decide_false by done. assert (Hrest : List.filter (fun k => negb (bool_decide (k ∈ ready))) remaining
    = List.filter (fun k => negb (is_ready facts completed k)) remaining).
  { apply filter_ext_in. intros k Hk%list_elem_of_In. f_equal. unfold ready. apply eq_true_iff_eq.
    rewrite bool_decide_eq_true, filter_elem. tauto. }
  rewrite Hrest. set (sorted := order_by (ready_leb facts) ready). pose proof (order_by_perm (ready_leb facts) ready) as Hs. fold sorted in Hs.
  pose proof (filter_partition (is_ready facts completed) remaining) as Hpart. fold ready in Hpart.
  apply IH.
  - apply Permutation_length in Hpart. rewrite length_app in Hpart. destruct ready; [done|]. simpl in Hpart. lia.
  - by rewrite <- app_assoc, Hpart.
  - apply (wave_inv_perm (completed ++ sorted)); [by rewrite Hs|]. apply wave_inv_round; [done| |].
    + intros k Hk. rewrite <- Hp. apply elem_of_app. right. rewrite Hs in Hk. by apply filter_elem in Hk as [? _].
    + intros k Hk. rewrite Hs in Hk. by apply filter_elem in Hk as [_ ?].
Qed.
End Waves.
