(* ===== verification/DeliveryScreen.v ===== *)
(** * What the delivery-plan compiler accepts

    An Issue that ends drop_keys a refusal passed every check of its fact, and
    refusals are only ever added. *)
From Stdlib Require Import Sorted.
From stdpp Require Import relations.
From S2P Require Import Prelude PyValue Sql DeliveryContracts DeliveryApproval DeliveryCompiler DeliveryGraph.
Open Scope Z_scope.

(** A pass through [add_refusal] and [add_refusal_if]. *)
Ltac grow := repeat first
  [ reflexivity
  | apply grows_refuse
  | match goal with
    | |- refusals_grow _ (add_refusal_if _ _ _ _ _ _) => etransitivity; [|apply grows_refuse_if]
    | |- refusals_grow _ (add_refusal _ _ _ _ _) => etransitivity; [|apply grows_refuse]
    | |- refusals_grow _ (match ?x with _ => _ end) => destruct x
    end ].
(** A refusal that was not made: its condition was false. *)
Lemma unrefused_if c issue code detail related m k : _issue_has_refusal k (add_refusal_if c issue code detail related m) = false ->
  scope_key issue = k -> c = false /\ _issue_has_refusal k m = false.
Proof. rewrite has_refuse_if. intros [H1 H2]%orb_false_iff E. rewrite bool_decide_true, andb_true_r in H1 by done. done. Qed.

Lemma pickup_grows f m : refusals_grow m (_validate_pickup_authority f m).
Proof. unfold _validate_pickup_authority. grow. Qed.
Lemma satisfaction_grows d f facts captured approved_at m : refusals_grow m (_validate_dependency_satisfaction d f facts captured approved_at m).
Proof. unfold _validate_dependency_satisfaction. grow. Qed.
Lemma target_grows f captured evidence m k : refusals_grow m (check_target f captured evidence m k).
Proof. unfold check_target. grow. Qed.
Lemma resolution_grows f captured anchors targets m : refusals_grow m (_validate_resolution_evidence f captured anchors targets m).
Proof. unfold _validate_resolution_evidence. etransitivity; [|apply grows_foldl; intros; apply target_grows]. grow. Qed.

Lemma foldl_unrefused {A} (F : refusal_map -> A -> refusal_map) l k : (forall m x, refusals_grow m (F m x)) ->
  forall m, _issue_has_refusal k (foldl F m l) = false ->
  _issue_has_refusal k m = false /\ forall x, x ∈ l -> exists m', _issue_has_refusal k (F m' x) = false.
Proof.
  intros Hg. induction l as [|y l IH]; intros m; cbn [foldl]; [intros H; split; [done|]; by intros x ?%not_elem_of_nil|].
  intros H. destruct (IH _ H) as [H1 H2]. split; [by apply (unrefused_grows _ _ _ (Hg m y))|].
  intros x [->|Hx]%elem_of_cons; [by exists m|auto].
Qed.
Lemma distinct_elem {A} `{EqDecision A} (l : list A) : forall seen x, x ∈ distinct seen l <-> x ∈ l /\ x ∉ seen.
Proof.
  induction l as [|y l IH]; intros seen x; simpl; [rewrite elem_of_nil; tauto|]. case_bool_decide.
  - rewrite IH, elem_of_cons. naive_solver.
  - rewrite !elem_of_cons, IH, elem_of_cons. destruct (decide (x = y)); naive_solver.
Qed.
Lemma filter_all {A} (p : A -> bool) l : (forall x, p x = true) -> List.filter p l = l.
Proof. intros H. induction l as [|x l IH]; simpl; [done|]. by rewrite H, IH. Qed.

(** ** Facts that pass *)

Section Screen.
Context (is_resolvable_verify_target is_durable_repo_anchor : string -> bool) (i : DeliveryInitiation) (s : DeliveryPlanningSnapshot).
Abbreviation captured := (pn_captured_at s).
Abbreviation approved_at := (pv_created_at (di_provenance i)).
Abbreviation approved := (di_requested_scope i).

(** A dependency declared satisfied is delivered: in the snapshot by the one fact of a closed Issue,
    outside of it by evidence that binds the dependency. *)
Definition satisfaction_proven (d : DeliveryDependency) : Prop :=
  match facts_for (scope_key (dd_issue d)) (pn_issues s), dd_evidence d with
  | [], Some e => se_authority_id e = is_authority_id (dd_issue d) /\ se_contract_hash e = is_contract_hash (dd_issue d)
                  /\ String.ltb captured (se_observed_at e) = false
  | [g], None => pf_issue g = dd_issue d /\ _authority_binds_issue (pf_authority g) (dd_issue d) captured approved_at = true
                 /\ as_state (pf_authority g) = "closed" /\ pf_delivery_status g = ds_delivered
                 /\ existsb (startswith "agent:") (as_labels (pf_authority g)) = false
  | _, _ => False
  end.
Definition dependency_sound (d : DeliveryDependency) : Prop :=
  (forall a, scope_find approved (scope_key (dd_issue d)) = Some a -> dd_issue d = a)
  /\ (if dd_satisfied d then satisfaction_proven d else is_Some (scope_find approved (scope_key (dd_issue d)))).
(** Every target the Issue contract declares is resolved once, by evidence of this contract in time. *)
Definition target_resolved (f : DeliveryIssuePlanningSnapshot) (k : ResolutionTargetKind * string) : Prop :=
  exists e, entries_for k (pf_resolution_evidence f) = [e]
    /\ misbound f (_expected_resolution_identity (pf_issue f) (fst k) (snd k)) e = false
    /\ String.ltb (re_observed_at e) (as_observed_at (pf_authority f)) = false /\ String.ltb captured (re_observed_at e) = false.
Record executable (f : DeliveryIssuePlanningSnapshot) : Prop := {
  ex_open : as_state (pf_authority f) = "open";
  ex_ready : labelled "agent:" f = ["agent:ready"];
  ex_type : exists l, labelled "type:" f = [l] /\ l ∈ _CANONICAL_TYPE_LABELS;
  ex_priority : exists l, labelled "prio:" f = [l] /\ _CANONICAL_PRIORITY_LABELS l = Some (pf_priority f);
  ex_undelivered : pf_delivery_status f = ds_undelivered /\ pf_linked_pr_head f = None;
  ex_targets : _verify_targets_are_concrete is_resolvable_verify_target (pf_verify_targets f) = true;
  ex_anchors : _source_anchors_are_concrete is_durable_repo_anchor (pf_source_anchors f) = true;
  ex_resolved : forall k, k ∈ declared_targets f true true -> target_resolved f k;
  ex_impact : _sbs_impact_is_complete (pf_sbs_impact f) = true;
  ex_risk : _risk_is_allowed (pp_id (di_policy i)) (pf_risk_class f) = true;
  ex_dependencies : NoDup (map (fun d => scope_key (dd_issue d)) (pf_dependencies f))
    /\ forall d, d ∈ pf_dependencies f -> dependency_sound d }.

Lemma pickup_sound f m : _issue_has_refusal (scope_key (pf_issue f)) (_validate_pickup_authority f m) = false ->
  labelled "agent:" f = ["agent:ready"] /\ (exists l, labelled "type:" f = [l] /\ l ∈ _CANONICAL_TYPE_LABELS)
  /\ exists l, labelled "prio:" f = [l] /\ _CANONICAL_PRIORITY_LABELS l = Some (pf_priority f).
Proof.
  unfold _validate_pickup_authority. set (m1 := add_refusal_if _ _ _ _ _ m). set (m2 := add_refusal_if _ _ _ _ _ m1). intros H.
  assert (H2 : _issue_has_refusal (scope_key (pf_issue f)) m2 = false /\ exists l, labelled "prio:" f = [l] /\ _CANONICAL_PRIORITY_LABELS l = Some (pf_priority f)).
  { destruct (labelled "prio:" f) as [|l [|]]; try (by rewrite has_refuse, bool_decide_true in H).
    destruct (_CANONICAL_PRIORITY_LABELS l) as [p|] eqn:E; [|by rewrite has_refuse, bool_decide_true in H].
    apply unrefused_if in H as [->%negb_false_iff%bool_decide_eq_true ?]; [|done]. eauto. }
  destruct H2 as [H2 Hp]. apply unrefused_if in H2 as [Ht H1]; [|done]. apply unrefused_if in H1 as [Ha%negb_false_iff%bool_decide_eq_true _]; [|done].
  split; [done|]. split; [|done]. destruct (labelled "type:" f) as [|l [|]]; try done. exists l. split; [done|].
  by apply negb_false_iff, bool_decide_eq_true in Ht.
Qed.
Lemma satisfaction_sound d f m : _issue_has_refusal (scope_key (pf_issue f)) (_validate_dependency_satisfaction d f (pn_issues s) captured approved_at m) = false ->
  if dd_satisfied d then satisfaction_proven d else dd_evidence d = None.
Proof.
  unfold _validate_dependency_satisfaction, satisfaction_proven. destruct (dd_satisfied d); cbn [negb].
  2: { intros [H _]%unrefused_if; [|done]. apply bool_decide_eq_false in H. by apply eq_None_not_Some. }
  destruct (facts_for _ _) as [|g [|]].
  - destruct (dd_evidence d) as [e|]; [|by rewrite has_refuse, bool_decide_true]. intros [H _]%unrefused_if; [|done].
    apply orb_false_iff in H as [[H1%negb_false_iff%String.eqb_eq H2%negb_false_iff%String.eqb_eq]%orb_false_iff H3]. done.
  - rewrite (bool_decide_true ([] = [])) by done. cbn [negb orb]. destruct (dd_evidence d) as [e|].
    { rewrite (bool_decide_true (is_Some _)) by (by eexists). by intros [? _]%unrefused_if. }
    rewrite (bool_decide_false (is_Some _)) by (by intros []).
    intros [H _]%unrefused_if; [|done].
    repeat match type of H with _ || _ = false => apply orb_false_iff in H as [H ?] end. bool_prop. done.
  - rewrite bool_decide_false by done. cbn [negb orb]. by intros [? _]%unrefused_if.
Qed.
Lemma resolution_sound f m : _issue_has_refusal (scope_key (pf_issue f)) (_validate_resolution_evidence f captured true true m) = false ->
  forall k, k ∈ declared_targets f true true -> target_resolved f k.
Proof.
  unfold _validate_resolution_evidence. rewrite (filter_all _ (pf_resolution_evidence f)) by (by intros e; destruct (re_target_kind e)).
  set (keys := distinct [] _). intros [H Hk]%foldl_unrefused; [|intros; apply target_grows]. intros k Hd.
  apply unrefused_if in H as [_ H]; [|done]. apply unrefused_if in H as [Hone H]; [|done]. apply unrefused_if in H as [Hall _]; [|done].
  assert (Hin : k ∈ keys).
  { apply not_true_iff_false in Hall. rewrite existsb_elem in Hall. destruct (decide (k ∈ keys)); [done|].
    exfalso. apply Hall. exists k. by rewrite bool_decide_false. }
  assert (H1 : length (entries_for k (pf_resolution_evidence f)) = 1%nat).
  { apply not_true_iff_false in Hone. rewrite existsb_elem in Hone.
    destruct (Nat.eqb_spec (length (entries_for k (pf_resolution_evidence f))) 1) as [|Hn]; [done|].
    exfalso. apply Hone. exists k. by rewrite (proj2 (Nat.eqb_neq _ _) Hn). }
  destruct (Hk k) as [m' H']; [apply filter_elem; by rewrite bool_decide_true|]. unfold check_target in H'. unfold target_resolved.
  destruct (entries_for k (pf_resolution_evidence f)) as [|e [|]]; try done. exists e. split; [done|].
  apply unrefused_if in H' as [[[Ha Hb]%orb_false_iff _]%orb_false_iff H']; [|done].
  apply unrefused_if in H' as [[Hm _]%orb_false_iff _]; done.
Qed.
Lemma check_dependency_grows issue f m d : refusals_grow m (check_dependency i s issue f m d).
Proof. unfold check_dependency. etransitivity; [|apply grows_refuse_if]. etransitivity; [|apply satisfaction_grows]. apply grows_refuse_if. Qed.
Lemma check_dependency_sound f m d :
  _issue_has_refusal (scope_key (pf_issue f)) (check_dependency i s (pf_issue f) f m d) = false -> dependency_sound d.
Proof.
  unfold check_dependency, dependency_sound. intros [He H]%unrefused_if; [|done]. pose proof (satisfaction_sound _ _ _ H) as Hs.
  apply (unrefused_grows _ _ _ (satisfaction_grows _ _ _ _ _ _)) in H. apply unrefused_if in H as [Ha _]; [|done].
  destruct (scope_find approved (scope_key (dd_issue d))) as [a|].
  - split; [|destruct (dd_satisfied d); [done|by eexists]]. intros ? [= <-]. by apply negb_false_iff, bool_decide_eq_true in Ha.
  - split; [done|]. rewrite bool_decide_true in He by done. by destruct (dd_satisfied d).
Qed.
Abbreviation check := (check_fact is_resolvable_verify_target is_durable_repo_anchor i s).
Lemma check_fact_grows issue f m : refusals_grow m (check issue f m).
Proof.
  unfold check_fact. etransitivity; [|apply grows_foldl; intros; apply check_dependency_grows].
  do 3 (etransitivity; [|apply grows_refuse_if]). etransitivity; [|apply resolution_grows].
  do 3 (etransitivity; [|apply grows_refuse_if]). etransitivity; [|apply pickup_grows]. apply grows_refuse_if.
Qed.
Lemma check_fact_sound f m : _issue_has_refusal (scope_key (pf_issue f)) (check (pf_issue f) f m) = false -> executable f.
Proof.
  unfold check_fact. intros [H Hdeps]%foldl_unrefused; [|intros; apply check_dependency_grows].
  apply unrefused_if in H as [Hamb H]; [|done]. apply unrefused_if in H as [Hrisk H]; [|done]. apply unrefused_if in H as [Hsbs H]; [|done].
  pose proof H as Hres. apply (unrefused_grows _ _ _ (resolution_grows _ _ _ _ _)) in H.
  apply unrefused_if in H as [Hanc H]; [|done]. apply unrefused_if in H as [Htar H]; [|done].
  apply unrefused_if in H as [Hst H]; [|done]. pose proof (pickup_sound _ _ H) as (Hr & Ht & Hp).
  apply (unrefused_grows _ _ _ (pickup_grows _ _)) in H. apply unrefused_if in H as [Hop _]; [|done].
  unfold _dependencies_are_ambiguous in Hamb. apply orb_false_iff in Hst as [Hst Hpr].
  apply negb_false_iff in Hamb, Hrisk, Hsbs, Hanc, Htar, Hop, Hst. rewrite Hanc, Htar in Hres.
  apply bool_decide_eq_true in Hamb, Hst. apply bool_decide_eq_false in Hpr. apply String.eqb_eq in Hop.
  split; try done.
  - split; [done|]. by apply eq_None_not_Some.
  - by apply (resolution_sound f _ Hres).
  - split; [done|]. intros d Hd. destruct (Hdeps d Hd) as [m' H']. by eapply check_dependency_sound.
Qed.

(** ** The loop over the requested scope *)

(** What a candidate is, whether refused or not. *)
Record candidate (k : scope) (f : DeliveryIssuePlanningSnapshot) : Prop := {
  ca_requested : pf_issue f ∈ approved;
  ca_key : scope_key (pf_issue f) = k;
  ca_only : facts_for k (pn_issues s) = [f];
  ca_binds : _authority_binds_issue (pf_authority f) (pf_issue f) captured approved_at = true;
  ca_kept : k ∉ map scope_key (omap sx_issue (di_exclusions i));
  ca_role : pf_scope_role f = role_delivery }.
Definition screened (st : refusal_map * facts_dict) : Prop :=
  NoDup (map fst (snd st)) /\
  forall k f, (k, f) ∈ snd st -> candidate k f /\ (_issue_has_refusal k (fst st) = false -> executable f).
Abbreviation judge_one := (judge_issue is_resolvable_verify_target is_durable_repo_anchor i s).

Lemma judge_grows st issue : refusals_grow (fst st) (fst (judge_one st issue)).
Proof.
  destruct st as [m accepted]. unfold judge_issue. cbn [fst].
  repeat case_match; cbn [fst]; first [apply grows_refuse|apply check_fact_grows].
Qed.
Lemma judge_judged st issue : issue ∈ approved -> screened st -> screened (judge_one st issue).
Proof.
  intros Hi [Hn Hj]. assert (Hkeep : forall m', refusals_grow (fst st) m' -> screened (m', snd st)).
  { intros m' Hg. split; [done|]. intros k f Hin. destruct (Hj k f Hin) as [? Hx]. split; [done|]. intros Hu. by apply Hx, (unrefused_grows _ _ _ Hg). }
  destruct st as [m accepted]. cbn [fst snd] in *. unfold judge_issue.
  destruct (facts_for (scope_key issue) (pn_issues s)) as [|f [|]] eqn:Ef; try (apply Hkeep, grows_refuse).
  destruct (String.ltb captured approved_at); [apply Hkeep, grows_refuse|]. destruct (negb _ || _) eqn:Eb; [apply Hkeep, grows_refuse|].
  apply orb_false_iff in Eb as [<-%negb_false_iff%bool_decide_eq_true Eb%negb_false_iff].
  case_bool_decide as Hx; [apply Hkeep, grows_refuse|]. case_bool_decide as Hr; [apply Hkeep, grows_refuse|].
  split; cbn [fst snd].
  - rewrite od_set_keys. case_decide; [done|]. apply NoDup_app. split; [done|]. split; [|apply NoDup_singleton].
    intros x Hx' ->%list_elem_of_singleton. done.
  - intros k g [[= -> ->]|Hin]%od_set_elem.
    + split; [|by apply check_fact_sound]. split; try done. by destruct (pf_scope_role f).
    + destruct (Hj k g Hin) as [? He]. split; [done|]. intros H'. by apply He, (unrefused_grows _ _ _ (check_fact_grows _ _ _) H').
Qed.
Lemma judge_loop l : l ⊆ approved -> forall st, screened st -> screened (foldl judge_one st l) /\ refusals_grow (fst st) (fst (foldl judge_one st l)).
Proof.
  induction l as [|x l IH]; intros Hl st Hst; cbn [foldl]; [done|].
  destruct (IH ltac:(intros y Hy; apply Hl; by right) (judge_one st x)) as [H1 H2]; [apply judge_judged; [apply Hl; left|done]|].
  split; [done|]. etransitivity; [apply judge_grows|done].
Qed.
(** Every requested Issue is refused or a candidate. *)
Definition answered (st : refusal_map * facts_dict) (x : IssueScope) : Prop :=
  has_refusal (fst st) (scope_key x) \/ scope_key x ∈ map fst (snd st).
Lemma judge_answers st x y : answered st x \/ x = y -> answered (judge_one st y) x.
Proof.
  assert (Hr : forall code detail m accepted, answered (m, accepted) x \/ x = y -> answered (add_refusal y code detail [] m, accepted) x).
  { intros code detail m accepted [[H|H]| ->]; [left; eapply grows_has; [apply grows_refuse|done]|by right|left; cbn [fst]; by rewrite has_refuse, bool_decide_true]. }
  destruct st as [m accepted]. intros H. unfold judge_issue. repeat case_match; try (by apply Hr).
  unfold answered. cbn [fst snd]. rewrite od_set_keys. destruct H as [[H|H]| ->].
  - left. eapply grows_has; [apply check_fact_grows|done].
  - right. cbn [snd] in H. destruct (decide (scope_key y ∈ map fst accepted)); [done|]. apply elem_of_app. by left.
  - right. destruct (decide (scope_key y ∈ map fst accepted)); [done|]. apply elem_of_app. right. by apply list_elem_of_singleton.
Qed.
Lemma judge_loop_answers l : forall st x, answered st x \/ x ∈ l -> answered (foldl judge_one st l) x.
Proof.
  induction l as [|y l IH]; intros st x H; cbn [foldl]; [destruct H as [|[]%not_elem_of_nil]; done|]. apply IH.
  rewrite elem_of_cons in H. destruct (decide (x ∈ l)); [by right|]. left. apply judge_answers. tauto.
Qed.
End Screen.
