(* ===== verification/DeliverySteps.v ===== *)
(** * Steps of the delivery reducer

    What admission establishes about an event, what recording authorizations
    does to the Issues of a run, and the change each accepted event makes to its
    Issue ([changes]), on which the theorems about runs rest. *)
From S2P Require Import Prelude PyValue Sql DeliveryContracts DeliveryEvidence DeliveryReducer.
Open Scope Z_scope.

Lemma reject_ok c msg u : reject c msg = Ok u -> c = false.
Proof. by destruct c. Qed.

(** ** The chain of evidence ends *)

Section Fuel.
Context (sha256_hex : string -> string) (plan : DeliveryPlan).

(** How many levels the resolution of an event takes. *)
Definition levels (effect : option ReducerEffect) (su : supplied) : nat :=
  match effect with
  | None => 0
  | Some e => S (length (List.filter (fun x => ef_sequence x <? ef_sequence e) (su_effects su)))
  end.
Lemma filter_le {A} (p : A -> bool) l : (length (List.filter p l) <= length l)%nat.
Proof. induction l as [|x l IH]; simpl; [done|]. destruct (p x); simpl; lia. Qed.
Lemma filter_lt {A} (p : A -> bool) l x : In x l -> p x = false -> (length (List.filter p l) < length l)%nat.
Proof.
  induction l as [|y l IH]; simpl; [done|]. intros [->|Hx] E; [rewrite E; pose proof (filter_le p l); lia|].
  specialize (IH Hx E). destruct (p y); simpl; lia.
Qed.
Lemma causal_in cause effects e : causal_effect cause effects = Some e -> In e effects.
Proof. unfold causal_effect. destruct (ev_effect_ref cause); [|done]. intros H%find_some. tauto. Qed.

Lemma resolve_settled f1 : forall f2 event effect worker review su, (levels effect su <= f1)%nat -> (levels effect su <= f2)%nat ->
  resolve_event sha256_hex plan f1 event effect worker review su = resolve_event sha256_hex plan f2 event effect worker review su.
Proof.
  induction f1 as [f1 IH] using lt_wf_ind. intros f2 event effect worker review su H1 H2.
  destruct f1, f2; unfold resolve_event at 1 2; fold (resolve_event sha256_hex plan); unfold event_evidence, referenced_issue;
    (destruct effect as [e|]; [|done]); simpl in H1, H2; try lia.
  assert (E : forall su', su_effects su' = List.filter (fun x => ef_sequence x <? ef_sequence e) (su_effects su) ->
    effect_evidence sha256_hex plan (resolve_event sha256_hex plan f1) e su' = effect_evidence sha256_hex plan (resolve_event sha256_hex plan f2) e su').
  { intros su' Es. unfold effect_evidence. rewrite (IH f1 ltac:(lia) f2); [done|..]; unfold levels;
      (destruct (causal_effect _ _) as [c|] eqn:Ec; [|lia]); apply causal_in in Ec; cbn [su_effects];
      pose proof (filter_lt (fun x => ef_sequence x <? ef_sequence c) (su_effects su') c Ec (Z.ltb_irrefl _)) as Hl; rewrite Es in *; lia. }
  by rewrite E.
Qed.
Lemma evidence_settled fuel event effect worker review su : (S (length (su_effects su)) <= fuel)%nat ->
  resolve_event sha256_hex plan fuel event effect worker review su = validate_reducer_event_evidence sha256_hex plan event effect worker review su.
Proof.
  intros H. assert (Hl : (levels effect su <= S (length (su_effects su)))%nat).
  { unfold levels. destruct effect as [e|]; [|lia]. pose proof (filter_le (fun x => ef_sequence x <? ef_sequence e) (su_effects su)). lia. }
  apply resolve_settled; lia.
Qed.
End Fuel.

(** ** Admitted events *)

Definition signal_of (c : EffectClass) : ReducerSignal :=
  match c with
  | claim_issue => sig_claim_succeeded | launch_worker => sig_worker_launched | await_ci => sig_checks_passed
  | request_review => sig_review_recorded | merge_pull_request => sig_merge_succeeded | close_issue => sig_closure_succeeded
  | record_known_defect => sig_known_defect_recorded | record_delivery_receipt => sig_receipt_recorded
  end.

Section Admission.
Context (sha256_hex : string -> string) (plan : DeliveryPlan).

(** The outcome of an effect, as the event reports it. *)
Record outcome_of (a : AdmittedEvent) (e : ReducerEffect) (o : EffectOutcomeEvidence) : Prop := {
  of_effect : ad_effect a = Some e;
  of_issue : ad_issue a = Some (ef_issue e);
  of_outcome : ev_outcome (ad_event a) = Some o;
  of_keys : delivery_effect_expected_outcome_keys (ef_class e) (ef_run_id e) (ef_issue e) (ef_pull_request e)
    (pp_required_check_names (dp_policy plan)) (ef_defect_ref e) (ef_defect_hash e) = Ok (oe_keys o) }.
Definition vetted (a : AdmittedEvent) : Prop :=
  match ad_signal a with
  | sig_run_started | sig_timer_elapsed => True
  | sig_exception_recorded => is_Some (ev_exception (ad_event a))
  | sig_authority_changed => is_Some (ev_subject (ad_event a))
  | sig_worker_result_recorded => exists r, ad_worker a = Some r /\ ad_issue a = Some (w2_issue r) /\ _validate_result_v2 r = Ok tt
  | sig_review_result_recorded => exists r, ad_review a = Some r /\ ad_issue a = Some (rr_issue r) /\ _validate_review r = Ok tt
  | sig_effect_failed => exists e o, outcome_of a e o /\ oe_state o = out_failed
  | signal => exists e o, outcome_of a e o /\ oe_state o = _SUCCESS_OUTCOME_BY_EFFECT (ef_class e) /\ signal_of (ef_class e) = signal
  end.
Definition is_admitted (a : AdmittedEvent) : Prop := exists event sp, admit_reducer_event sha256_hex event plan sp = Ok a.

Lemma effect_resolves resolve e su u : effect_evidence sha256_hex plan resolve e su = Ok u ->
  delivery_effect_expected_outcome_keys (ef_class e) (ef_run_id e) (ef_issue e) (ef_pull_request e)
    (pp_required_check_names (dp_policy plan)) (ef_defect_ref e) (ef_defect_hash e) = Ok (ef_outcome_keys e).
Proof.
  unfold effect_evidence. intros H. do 8 (bound H as ? ?). bound H as keys Ek. bound H as ? E. apply reject_ok in E. bool_prop. by subst.
Qed.
(** What resolving an effect result says. *)
Lemma result_resolves event e worker review su u : is_effect_result (ev_type event) = true ->
  validate_reducer_event_evidence sha256_hex plan event e worker review su = Ok u ->
  exists e' o, e = Some e' /\ ev_outcome event = Some o
    /\ oe_state o = match ev_type event with evt_effect_succeeded => _SUCCESS_OUTCOME_BY_EFFECT (ef_class e') | _ => out_failed end
    /\ delivery_effect_expected_outcome_keys (ef_class e') (ef_run_id e') (ef_issue e') (ef_pull_request e')
         (pp_required_check_names (dp_policy plan)) (ef_defect_ref e') (ef_defect_hash e') = Ok (oe_keys o).
Proof.
  intros Ht H. unfold validate_reducer_event_evidence, resolve_event in H. unfold event_evidence in H. bound H as ? ?. bound H as ? ?. bound H as found Ef.
  clear H. unfold referenced_issue in Ef.
  assert (E : exists e' o, e = Some e' /\ ev_outcome event = Some o /\ misreports event e' o = false
    /\ exists r su', effect_evidence sha256_hex plan r e' su' = Ok tt).
  { destruct (ev_type event); try done; (destruct e as [e'|]; [|done]); bound Ef as ? ?; bound Ef as [] Ev;
      (destruct (ev_outcome event) as [o|]; [|done]); bound Ef as ? Em; apply reject_ok in Em; eauto 10. }
  destruct E as (e' & o & -> & -> & Em & r & su' & Ev). apply effect_resolves in Ev. unfold misreports in Em. bool_prop. exists e', o.
  split; [done|]. split; [done|]. split; [done|]. congruence.
Qed.
Lemma admitted_vetted a : is_admitted a -> vetted a.
Proof.
  intros (event & sp & H). unfold admit_reducer_event in H. bound H as ? ?. bound H as [] Ev. bound H as ? ?. bound H as ? ?. bound H as [] Hr.
  bound H as domain Ed. bound H as u Ee. bound H as [sg subj] Es. injection H as <-. unfold vetted. cbn [ad_signal ad_event ad_effect ad_worker ad_review ad_issue].
  unfold _validate_event in Ev. do 6 (bound Ev as ? ?). destruct (event_shape (ev_type event)) as [[[rs ev] rv] rx] eqn:Esh.
  bound Ev as ? Hsub. bound Ev as ? ?. bound Ev as ? ?. bound Ev as ? Hexc. apply reject_ok in Hsub, Hexc. bool_prop.
  apply Bool.eqb_prop in Hsub, Hexc.
  unfold _resolve_signal in Es. destruct (ev_type event) eqn:Et; simpl in Esh; injection Esh as <- <- <- <-;
    try (destruct (result_resolves event (sp_effect sp) domain (sp_review sp) (sp_prior sp) u) as (e & o & Eeff & Eo & Est & Ek);
         [by rewrite Et|done|]; rewrite Et in Est).
  - by injection Es as <- _.
  - rewrite Eeff, Eo in Es. bound Es as sg' Esg. injection Es as <- <-. rewrite Est in Esg.
    assert (Hsg : signal_of (ef_class e) = sg') by (destruct (ef_class e); by injection Esg as <-).
    assert (Ho : outcome_of (mkAdmitted event sg' (sp_effect sp) (sp_worker sp) (sp_review sp) (Some (ef_issue e))) e o) by (by split).
    destruct (ef_class e) eqn:Ec; simpl in Hsg; subst sg'; exists e, o; rewrite Ec; done.
  - rewrite Eeff in Es. injection Es as <- <-. exists e, o. by split.
  - destruct (ev_subject event); [|done]. by injection Es as <- _.
  - destruct (sp_worker sp) as [r|]; [|done]. injection Es as <- <-. bound Ed as [] Hv. by exists r.
  - destruct (sp_review sp) as [r|]; [|done]. injection Es as <- <-. by exists r.
  - by injection Es as <- _.
  - injection Es as <- _. by apply bool_decide_eq_true in Hexc.
Qed.
End Admission.

(** ** Ledgers and lists of Issues *)

Definition ledger_keys (i : IssueRunState) : list string := map lg_key (ir_ledger i).
Definition issue_keys (l : list IssueRunState) : list (string * Z) := map key_of l.

Lemma put_entry_elem e l x : x ∈ put_entry e l <-> x = e \/ (x ∈ l /\ lg_key x <> lg_key e).
Proof.
  unfold put_entry. rewrite order_by_elem, elem_of_app, list_elem_of_singleton, list_elem_of_In, filter_In, <- list_elem_of_In.
  rewrite negb_true_iff, String.eqb_neq. tauto.
Qed.
Lemma put_entry_keys e l k : k ∈ map lg_key (put_entry e l) <-> k = lg_key e \/ k ∈ map lg_key l.
Proof.
  rewrite !list_elem_of_fmap. split.
  - intros (x & -> & [->|[Hx _]]%put_entry_elem); eauto.
  - intros [->|(x & -> & Hx)]; [exists e; rewrite put_entry_elem; auto|].
    destruct (decide (lg_key x = lg_key e)) as [E|N]; [exists e|exists x]; rewrite put_entry_elem; auto.
Qed.
Lemma put_entry_nodup e l : NoDup (map lg_key l) -> NoDup (map lg_key (put_entry e l)).
Proof.
  intros Hn. unfold put_entry. rewrite (order_by_perm _ _), map_app. simpl. apply NoDup_app.
  assert (Hk : forall k, k ∈ map lg_key (List.filter (fun x => negb (String.eqb (lg_key x) (lg_key e))) l) -> k ∈ map lg_key l /\ k <> lg_key e).
  { intros k (x & -> & Hx)%list_elem_of_fmap. apply list_elem_of_In, filter_In in Hx as [Hx Hb]. bool_prop. split; [|done].
    apply list_elem_of_fmap. exists x. by rewrite list_elem_of_In. }
  split; [|split; [|apply NoDup_singleton]].
  - clear Hk. induction l as [|x l IH]; simpl; [constructor|]. simpl in Hn. apply NoDup_cons in Hn as [N1 N2].
    destruct (negb _); simpl; [|auto]. constructor; [|auto]. contradict N1. apply list_elem_of_fmap in N1 as (y & E & Hy).
    apply list_elem_of_In, filter_In in Hy as [Hy _]. apply list_elem_of_fmap. exists y. by rewrite list_elem_of_In.
  - intros k Hx ->%list_elem_of_singleton. by destruct (Hk _ Hx).
Qed.
Lemma find_entry_in k l e : find_entry k l = Some e -> e ∈ l /\ lg_key e = k.
Proof. intros [H1 H2]%find_some. apply String.eqb_eq in H2. by rewrite list_elem_of_In. Qed.
Lemma find_entry_none k l : find_entry k l = None -> k ∉ map lg_key l.
Proof. intros H (e & -> & He)%list_elem_of_fmap. apply list_elem_of_In in He. apply (find_none _ _ H), String.eqb_neq in He. done. Qed.
Lemma nodup_entry l e e' : NoDup (map lg_key l) -> e ∈ l -> e' ∈ l -> lg_key e = lg_key e' -> e = e'.
Proof.
  induction l as [|x l IH]; simpl; [by intros _ ?%not_elem_of_nil|]. intros [N1 N2]%NoDup_cons.
  intros [->|H1]%elem_of_cons [->|H2]%elem_of_cons E; auto; exfalso; apply N1; apply list_elem_of_fmap; eauto.
Qed.

Lemma replace_keys l u : issue_keys (_replace_issue l u) = issue_keys l.
Proof. unfold issue_keys, _replace_issue. rewrite map_map. apply map_ext. intros i. by case_bool_decide. Qed.
Lemma nodup_issue l i j : NoDup (issue_keys l) -> i ∈ l -> j ∈ l -> key_of i = key_of j -> i = j.
Proof.
  unfold issue_keys. induction l as [|x l IH]; simpl; [by intros _ ?%not_elem_of_nil|]. intros [N1 N2]%NoDup_cons.
  intros [->|H1]%elem_of_cons [->|H2]%elem_of_cons E; auto; exfalso; apply N1; apply list_elem_of_fmap; eauto.
Qed.
(** One Issue changed. *)
Lemma replace_one (R : IssueRunState -> IssueRunState -> Prop) l i u : NoDup (issue_keys l) -> i ∈ l -> key_of u = key_of i ->
  R i u -> (forall j, j ∈ l -> key_of j <> key_of i -> R j j) -> Forall2 R l (_replace_issue l u).
Proof.
  intros Hn Hi Hk Hr Ho. unfold _replace_issue. apply Forall2_fmap_r, Forall_Forall2_diag, Forall_forall. intros j Hj. simpl. case_bool_decide as E.
  - by rewrite (nodup_issue l j i Hn Hj Hi ltac:(congruence)).
  - apply Ho; congruence.
Qed.
Lemma issue_state_in s k i : issue_state s k = Some i -> i ∈ dr_issues s /\ key_of i = k.
Proof. unfold issue_state. intros [H1 H2]%find_some. apply bool_decide_eq_true in H2. by rewrite list_elem_of_In. Qed.

(** ** Recording authorizations *)

Section Record.
Context (sha256_hex : string -> string) (s : DeliveryRunState).
Abbreviation identity := (proposal_effect_identity sha256_hex s).

Definition entry_for (p : EffectProposal) (id : EffectIdentity) : EffectLedgerEntry :=
  mkEntry (po_class p) (ei_key id) (ei_outcome_keys id) None (Some p).
Record grown (ps : list EffectProposal) (i j : IssueRunState) : Prop := {
  gr_core : with_ledger [] j = with_ledger [] i;
  gr_keys : forall k, k ∈ ledger_keys i -> k ∈ ledger_keys j;
  gr_entries : forall e, e ∈ ir_ledger j -> e ∈ ir_ledger i
    \/ exists p id, p ∈ ps /\ identity p = Ok id /\ e = entry_for p id /\ scope_key (po_issue p) = key_of i;
  gr_nodup : NoDup (ledger_keys i) -> NoDup (ledger_keys j) }.

Lemma core_fields i j : with_ledger [] j = with_ledger [] i ->
  ir_issue j = ir_issue i /\ ir_wave_index j = ir_wave_index i /\ ir_authority j = ir_authority i /\ ir_phase j = ir_phase i
  /\ ir_pull_request j = ir_pull_request i /\ ir_head_sha j = ir_head_sha i /\ ir_invocation_key j = ir_invocation_key i
  /\ ir_defect_ref j = ir_defect_ref i /\ ir_defect_hash j = ir_defect_hash i /\ ir_evidence j = ir_evidence i.
Proof. destruct i, j. unfold with_ledger. simpl. by intros [= -> -> -> -> -> -> -> -> -> -> ->]. Qed.
Lemma core_key i j : with_ledger [] j = with_ledger [] i -> key_of j = key_of i.
Proof. intros H. unfold key_of. by destruct (core_fields _ _ H) as [-> _]. Qed.
Lemma grown_refl ps i : grown ps i i.
Proof. split; auto. Qed.
Lemma grown_trans ps qs i j k : grown ps i j -> grown qs j k -> grown (ps ++ qs) i k.
Proof.
  intros [A1 A2 A3 A4] [B1 B2 B3 B4]. split; [congruence|auto| |auto].
  intros e [He|(p & id & Hp & Hid & -> & Hs)]%B3; [destruct (A3 e He) as [|(p & id & Hp & Hid & -> & Hs)]; [by left|]|];
    right; exists p, id; rewrite elem_of_app; repeat split; auto. by rewrite <- (core_key _ _ A1).
Qed.
Lemma grown_issue_keys ps l l' : Forall2 (grown ps) l l' -> issue_keys l' = issue_keys l.
Proof. induction 1 as [|i j l l' H _ IH]; simpl; [done|]. by rewrite IH, (core_key _ _ (gr_core _ _ _ H)). Qed.

(** The key of a proposal is in the ledger of its Issue. *)
Definition ledgered (p : EffectProposal) (l : list IssueRunState) : Prop :=
  forall id, identity p = Ok id -> (exists i, i ∈ l /\ key_of i = scope_key (po_issue p)) ->
    exists i, i ∈ l /\ key_of i = scope_key (po_issue p) /\ ei_key id ∈ ledger_keys i.
Lemma ledgered_grown ps p l l' : Forall2 (grown ps) l l' -> ledgered p l -> ledgered p l'.
Proof.
  intros Hg Hl id Hid (j & Hj & Hk). apply list_elem_of_lookup in Hj as [n Hj]. destruct (Forall2_lookup_r _ _ _ _ _ Hg Hj) as (i & Hi & Hij).
  destruct (Hl id Hid) as (i' & Hi' & Hk' & Hin).
  { exists i. split; [by eapply list_elem_of_lookup_2|]. by rewrite <- (core_key _ _ (gr_core _ _ _ Hij)). }
  apply list_elem_of_lookup in Hi' as [n' Hi']. destruct (Forall2_lookup_l _ _ _ _ _ Hg Hi') as (j' & Hj' & Hij').
  exists j'. split; [by eapply list_elem_of_lookup_2|]. split; [by rewrite (core_key _ _ (gr_core _ _ _ Hij'))|by apply (gr_keys _ _ _ Hij')].
Qed.

Lemma record_one l p l' : NoDup (issue_keys l) -> record_authorization sha256_hex s l p = Ok l' ->
  Forall2 (grown [p]) l l' /\ ledgered p l'.
Proof.
  intros Hn. unfold record_authorization. destruct (List.find _ l) as [i|] eqn:Ef.
  - apply find_some in Ef as [Hi Hk]. apply bool_decide_eq_true in Hk. apply list_elem_of_In in Hi. intros H. bound H as id Eid.
    assert (Hput : l' = _replace_issue l (with_ledger (put_entry (entry_for p id) (ir_ledger i)) i)
      \/ (l' = l /\ ei_key id ∈ ledger_keys i)).
    { destruct (find_entry _ _) as [x|] eqn:Ex; [|by injection H as <-; left]. destruct (negb _); injection H as <-; [right|by left].
      split; [done|]. apply find_entry_in in Ex as [Hx <-]. apply list_elem_of_fmap. eauto. }
    destruct Hput as [->|[-> Hin]].
    + split.
      * apply (replace_one _ _ i); [done|done|done| |intros; apply grown_refl]. split; simpl; [done|..].
        -- intros k Hx. unfold ledger_keys. simpl. rewrite put_entry_keys. auto.
        -- intros e [->|[He _]]%put_entry_elem; [right|by left]. exists p, id. rewrite list_elem_of_singleton. done.
        -- apply put_entry_nodup.
      * intros id' Hid' _. rewrite Eid in Hid'. injection Hid' as <-. eexists. split; [|split].
        -- unfold _replace_issue. apply list_elem_of_fmap. exists i. split; [|done]. by rewrite bool_decide_true.
        -- done.
        -- unfold ledger_keys. simpl. rewrite put_entry_keys. by left.
    + split; [apply Forall2_same_length_lookup_2; [done|]; intros n x y H1 H2; rewrite H1 in H2; injection H2 as ->; apply grown_refl|].
      intros id' Hid' _. rewrite Eid in Hid'. injection Hid' as <-. eauto.
  - intros [= <-]. split; [apply Forall2_same_length_lookup_2; [done|]; intros n x y H1 H2; rewrite H1 in H2; injection H2 as ->; apply grown_refl|].
    intros id _ (i & Hi & Hk). apply list_elem_of_In in Hi. pose proof (find_none _ _ Ef i Hi) as E. cbv beta in E. by apply bool_decide_eq_false in E.
Qed.
Lemma record_all ps : forall l l', NoDup (issue_keys l) -> _record_authorizations sha256_hex s l ps = Ok l' ->
  Forall2 (grown ps) l l' /\ Forall (fun p => ledgered p l') ps.
Proof.
  induction ps as [|p ps IH]; intros l l' Hn; simpl.
  - intros [= <-]. split; [|constructor]. apply Forall2_same_length_lookup_2; [done|]. intros n x y H1 H2. rewrite H1 in H2. injection H2 as ->. apply grown_refl.
  - intros H. bound H as l1 E1. destruct (record_one _ _ _ Hn E1) as [G1 L1].
    assert (Hn1 : NoDup (issue_keys l1)) by (by rewrite (grown_issue_keys _ _ _ G1)). destruct (IH _ _ Hn1 H) as [G2 L2]. split.
    + apply Forall2_same_length_lookup_2; [by rewrite (Forall2_length _ _ _ G1), (Forall2_length _ _ _ G2)|].
      intros n x y Hx Hy. destruct (Forall2_lookup_l _ _ _ _ _ G1 Hx) as (z & Hz & H1). destruct (Forall2_lookup_l _ _ _ _ _ G2 Hz) as (y' & Hy' & H2).
      rewrite Hy in Hy'. injection Hy' as <-. apply (grown_trans [p] ps _ _ _ H1 H2).
    + constructor; [|done]. by eapply ledgered_grown.
Qed.
(** Recording succeeds when every identity does. *)
Lemma record_total ps : forall l, Forall (fun p => exists id, identity p = Ok id) ps -> exists l', _record_authorizations sha256_hex s l ps = Ok l'.
Proof.
  induction ps as [|p ps IH]; intros l H; simpl; [by eexists|]. inversion H as [|? ? [id Hid] Hps]; subst.
  unfold record_authorization. destruct (List.find _ l); [|by apply IH]. rewrite Hid. cbn [mbind res_bind].
  destruct (find_entry _ _); [destruct (negb _)|]; cbn [mbind res_bind]; by apply IH.
Qed.
End Record.

(** ** What an accepted event changes *)

Section Changes.
Context (sha256_hex : string -> string).

(** The outcomes that record evidence at the authorized target and propose the next effect. *)
Definition target_steps : list (ReducerSignal * RunPhase * RunPhase * EffectClass) :=
  [(sig_checks_passed, ph_awaiting_ci, ph_awaiting_review, request_review);
   (sig_known_defect_recorded, ph_recording_defect, ph_merging, merge_pull_request);
   (sig_merge_succeeded, ph_merging, ph_closing, close_issue);
   (sig_closure_succeeded, ph_closing, ph_recording_receipt, record_delivery_receipt)].
Definition reviewed_at (review : ReviewResult) (i : IssueRunState) : Prop :=
  ir_pull_request i = Some (rr_pull_request review) /\ ir_head_sha i = Some (rr_head_sha review).
Definition next_at (c : EffectClass) (authority : AuthoritySnapshot) (i : IssueRunState) : EffectProposal :=
  mkProposal c (ir_issue i) [authority] (ir_pull_request i) (ir_head_sha i) None None.

Inductive changes (required : list AcceptanceEvidenceKind) (a : AdmittedEvent) (i : IssueRunState)
  : IssueRunState -> list EffectProposal -> Prop :=
  | ch_claimed : ad_signal a = sig_claim_succeeded -> ir_phase i = ph_claiming ->
      changes required a i (with_ledger (_committed i a) (with_authority (_authority_of a i) (with_phase ph_launching i)))
        [mkProposal launch_worker (ir_issue i) [_authority_of a i] None None None None]
  | ch_launched e : ad_signal a = sig_worker_launched -> ad_effect a = Some e -> ir_phase i = ph_launching ->
      changes required a i (with_ledger (_committed i a) (with_invocation (ef_idempotency_key e)
        (with_authority (_authority_of a i) (with_phase ph_working i)))) []
  | ch_stopped reason : ir_phase i = ph_working -> ad_signal a = sig_worker_result_recorded ->
      changes required a i (with_reason reason (with_phase ph_blocked i)) []
  | ch_worked r pr head kinds : ad_signal a = sig_worker_result_recorded -> ir_phase i = ph_working -> ad_worker a = Some r ->
      ir_invocation_key i = Some (cr_id (w2_effect_ref r)) -> wr_status (w2_delivery_result r) = ws_completed ->
      w2_pull_request r = Some pr -> w2_head_sha r = Some head -> (forall k, k ∈ kinds -> k ∈ ir_evidence i) ->
      (forall k, k ∈ kinds -> _HEAD_BOUND_EVIDENCE k = true -> ir_head_sha i = Some head) ->
      changes required a i (with_authority (_authority_of a i) (with_kinds kinds (with_target (Some pr) (Some head) (with_phase ph_awaiting_ci i))))
        [mkProposal await_ci (ir_issue i) [_authority_of a i] (Some pr) (Some head) None None]
  | ch_target p next : (ad_signal a, ir_phase i, p, next) ∈ target_steps -> _authorized_target_matches i a = true ->
      changes required a i (with_authority (_authority_of a i) (with_ledger (_committed i a)
          (with_kinds (_with_evidence i (_effect_evidence a)) (with_phase p i))))
        [next_at next (_authority_of a i) i]
  | ch_review_recorded : ad_signal a = sig_review_recorded -> ir_phase i = ph_awaiting_review -> _authorized_target_matches i a = true ->
      changes required a i (with_authority (_authority_of a i) (with_ledger (_committed i a) i)) []
  | ch_review_blocked reason : ad_signal a = sig_review_result_recorded -> ir_phase i = ph_awaiting_review ->
      changes required a i (with_authority (_authority_of a i) (with_reason reason (with_phase ph_blocked i))) []
  | ch_accepted review : ad_signal a = sig_review_result_recorded -> ir_phase i = ph_awaiting_review -> ad_review a = Some review ->
      reviewed_at review i -> existsb is_blocking (rr_findings review) = false -> rr_disposition review = disp_accept ->
      changes required a i (with_authority (_authority_of a i) (with_kinds (_with_evidence i [evk_review_accepted]) (with_phase ph_merging i)))
        [next_at merge_pull_request (_authority_of a i) i]
  | ch_deferred review finding ref : ad_signal a = sig_review_result_recorded -> ir_phase i = ph_awaiting_review ->
      ad_review a = Some review -> reviewed_at review i -> existsb is_blocking (rr_findings review) = false ->
      rr_disposition review = disp_accept_with_risk -> List.filter is_P2 (rr_findings review) = [finding] -> rr_known_defect_refs review = [ref] ->
      let hash := canonical_hash sha256_hex (dump_finding finding) in
      changes required a i (with_authority (_authority_of a i) (with_defect ref hash
          (with_kinds (_with_evidence i [evk_review_accepted]) (with_phase ph_recording_defect i))))
        [mkProposal record_known_defect (ir_issue i) [_authority_of a i] (ir_pull_request i) (ir_head_sha i) (Some ref) (Some hash)]
  | ch_unmet reason : ad_signal a = sig_receipt_recorded -> ir_phase i = ph_recording_receipt -> _authorized_target_matches i a = true ->
      changes required a i (with_reason reason (with_authority (_authority_of a i) (with_kinds (_with_evidence i (_effect_evidence a))
          (with_ledger (_committed i a) (with_phase ph_blocked i))))) []
  | ch_delivered : ad_signal a = sig_receipt_recorded -> ir_phase i = ph_recording_receipt -> _authorized_target_matches i a = true ->
      (forall k, k ∈ required -> k ∈ _with_evidence i (_effect_evidence a)) ->
      changes required a i (with_authority (_authority_of a i) (with_kinds (_with_evidence i (_effect_evidence a))
          (with_ledger (_committed i a) (with_phase ph_delivered i)))) []
  | ch_failed e p reason kinds : ad_signal a = sig_effect_failed -> ad_effect a = Some e -> ACTIVE_PHASES (ir_phase i) = true ->
      p = ph_blocked \/ p = ph_repairing -> (forall k, k ∈ kinds -> k ∈ ir_evidence i) ->
      changes required a i (with_authority (_authority_of a i) (with_ledger (_committed i a) (with_kinds kinds (with_reason reason (with_phase p i))))) []
  | ch_drift reason : ad_signal a = sig_authority_changed -> ACTIVE_PHASES (ir_phase i) = true ->
      changes required a i (with_reason reason (with_phase ph_owner_decision i)) []
  | ch_relabelled observed : ad_signal a = sig_authority_changed -> ACTIVE_PHASES (ir_phase i) = true -> ev_subject (ad_event a) = Some observed ->
      changes required a i (with_authority observed i) [].

Lemma advance_accepted s a l ps r : _advance sha256_hex s a l ps = Ok r -> rd_refusal r = None.
Proof. unfold _advance. intros H. bound H as l' E. by injection H as <-. Qed.
Lemma refuse_not s why r : _refuse s why = Ok r -> rd_refusal r = None -> False.
Proof. by intros [= <-]. Qed.
Lemma kinds_sub i k : k ∈ drop_head_bound (ir_evidence i) -> k ∈ ir_evidence i.
Proof. unfold drop_head_bound. rewrite !list_elem_of_In, filter_In. tauto. Qed.
Lemma with_kinds_id i : with_kinds (ir_evidence i) i = i.
Proof. by destruct i. Qed.

Ltac refused H Hr := exfalso; exact (refuse_not _ _ _ H Hr).

Lemma handler_changes s a i r : tr_legal (REDUCER_TRANSITION_MATRIX (ir_phase i) (ad_signal a)) = true ->
  _ISSUE_HANDLERS sha256_hex (ad_signal a) s a i = Ok r -> rd_refusal r = None ->
  exists u ps, changes (dr_required_evidence s) a i u ps /\ _advance sha256_hex s a (_replace_issue (dr_issues s) u) ps = Ok r.
Proof.
  intros Hl H Hr. destruct (ad_signal a) eqn:Esg; cbn [_ISSUE_HANDLERS] in H; try done.
  - destruct (ir_phase i) eqn:Ep; try done. eexists _, _. split; [by apply ch_claimed|exact H].
  - destruct (ir_phase i) eqn:Ep; try done. unfold _reduce_worker_launched in H. destruct (ad_effect a) as [e|] eqn:Ee; [|done].
    eexists _, _. split; [by eapply ch_launched|exact H].
  - destruct (ir_phase i) eqn:Ep; try done. unfold _reduce_checks_passed in H. destruct (_authorized_target_matches i a) eqn:Et; simpl in H; [|refused H Hr].
    eexists _, _. split; [|exact H]. apply ch_target; [|done]. rewrite Esg, Ep. repeat constructor.
  - destruct (ir_phase i) eqn:Ep; try done. unfold _reduce_review_recorded in H. destruct (_authorized_target_matches i a) eqn:Et; simpl in H; [|refused H Hr].
    eexists _, _. split; [by apply ch_review_recorded|exact H].
  - destruct (ir_phase i) eqn:Ep; try done. unfold _reduce_known_defect_recorded in H. destruct (_authorized_target_matches i a) eqn:Et; simpl in H; [|refused H Hr].
    destruct (ad_effect a); [|done]. destruct (_ || _); [refused H Hr|].
    eexists _, _. split; [|exact H]. apply ch_target; [|done]. rewrite Esg, Ep. apply elem_of_cons; right. apply elem_of_cons; by left.
  - destruct (ir_phase i) eqn:Ep; try done. unfold _reduce_merge_succeeded in H. destruct (_authorized_target_matches i a) eqn:Et; simpl in H; [|refused H Hr].
    eexists _, _. split; [|exact H]. apply ch_target; [|done]. rewrite Esg, Ep. do 2 (apply elem_of_cons; right). apply elem_of_cons; by left.
  - destruct (ir_phase i) eqn:Ep; try done. unfold _reduce_closure_succeeded in H. destruct (_authorized_target_matches i a) eqn:Et; simpl in H; [|refused H Hr].
    eexists _, _. split; [|exact H]. apply ch_target; [|done]. rewrite Esg, Ep. do 3 (apply elem_of_cons; right). apply elem_of_cons; by left.
  - destruct (ir_phase i) eqn:Ep; try done. unfold _reduce_receipt_recorded in H. destruct (_authorized_target_matches i a) eqn:Et; simpl in H; [|refused H Hr].
    case_bool_decide as Eu; eexists _, _; (split; [|exact H]).
    + by apply ch_unmet.
    + apply ch_delivered; try done. intros k Hk. destruct (decide (k ∈ _with_evidence i (_effect_evidence a))); [done|]. exfalso.
      assert (Hin : In k (List.filter (fun k => negb (bool_decide (k ∈ _with_evidence i (_effect_evidence a)))) (dr_required_evidence s))).
      { apply filter_In. split; [by apply list_elem_of_In|]. by rewrite bool_decide_false. } by rewrite Eu in Hin.
  - unfold _reduce_effect_failed in H. destruct (ad_effect a) as [e|] eqn:Ee; [|done]. assert (Ha : ACTIVE_PHASES (ir_phase i) = true) by (by destruct (ir_phase i)).
    destruct (_ && _); [refused H Hr|]. destruct (_ || _); eexists _, _; (split; [|exact H]).
    + rewrite <- (with_kinds_id (with_reason _ _)). eapply ch_failed; eauto.
    + eapply ch_failed; eauto. intros k. apply kinds_sub.
  - unfold _reduce_authority_changed in H. destruct (ev_subject (ad_event a)) as [o|] eqn:Eo; [|done].
    assert (Ha : ACTIVE_PHASES (ir_phase i) = true) by (by destruct (ir_phase i)). destruct (negb _); eexists _, _; (split; [|exact H]).
    + by apply ch_drift.
    + by apply ch_relabelled.
  - destruct (ir_phase i) eqn:Ep; try done. unfold _reduce_worker_result in H. destruct (ad_worker a) as [w|] eqn:Ew; [|done].
    destruct (negb _) eqn:E1; [refused H Hr|]. destruct (negb (bool_decide (wr_status _ = _))) eqn:E2; [eexists _, _; split; [by apply ch_stopped|exact H]|].
    destruct (w2_head_sha w) as [head|] eqn:Eh, (w2_pull_request w) as [pr|] eqn:Epr; try refused H Hr.
    destruct (match ir_pull_request i with Some _ => _ | None => _ end); [refused H Hr|]. bool_prop.
    eexists _, _. split; [|exact H]. eapply ch_worked; eauto.
    + intros k. destruct (negb _); [apply kinds_sub|done].
    + intros k Hk Hb. destruct (negb _) eqn:En; [|by bool_prop]. exfalso. unfold drop_head_bound in Hk. apply list_elem_of_In, filter_In in Hk as [_ Hk]. by rewrite Hb in Hk.
  - destruct (ir_phase i) eqn:Ep; try done. unfold _reduce_review_result in H. destruct (ad_review a) as [v|] eqn:Ev; [|done].
    destruct (negb _) eqn:E1; [refused H Hr|]. destruct (negb (bool_decide (ir_head_sha i = _))) eqn:E2; [refused H Hr|].
    destruct (_ || _) eqn:E3; [eexists _, _; split; [by apply ch_review_blocked|exact H]|]. case_bool_decide as E4; bool_prop.
    + eexists _, _. split; [by eapply ch_accepted|exact H].
    + destruct (List.filter is_P2 (rr_findings v)) as [|x [|? ?]] eqn:Ef; try (eexists _, _; split; [by apply ch_review_blocked|exact H]).
      destruct (rr_known_defect_refs v) as [|y [|? ?]] eqn:Ek; try (eexists _, _; split; [by apply ch_review_blocked|exact H]).
      eexists _, _. split; [|exact H]. eapply ch_deferred; eauto; [by split|]. by destruct (rr_disposition v).
Qed.
(** Every handler refuses or advances. *)
Lemma handler_shape s a i r : _ISSUE_HANDLERS sha256_hex (ad_signal a) s a i = Ok r ->
  (exists why, r = mkReduction s [] (Some why) []) \/ exists l ps, _advance sha256_hex s a l ps = Ok r.
Proof.
  assert (Hf : forall why, _refuse s why = Ok r -> (exists why, r = mkReduction s [] (Some why) []) \/ exists l ps, _advance sha256_hex s a l ps = Ok r)
    by (intros why [= <-]; eauto).
  destruct (ad_signal a); cbn [_ISSUE_HANDLERS]; try done; intros H;
    unfold _reduce_claim_succeeded, _reduce_worker_launched, _reduce_worker_result, _reduce_checks_passed, _reduce_review_recorded,
      _reduce_review_result, _reduce_known_defect_recorded, _reduce_merge_succeeded, _reduce_closure_succeeded, _reduce_receipt_recorded,
      _reduce_effect_failed, _reduce_authority_changed, at_target in H;
    repeat (match type of H with
      | context [match ?x with _ => _ end] => match x with context [match _ with _ => _ end] => fail 1 | _ => destruct x end
      end; try done); first [by eapply Hf|by eauto].
Qed.
End Changes.
