(* ===== verification/DeliveryRuns.v ===== *)
(** * Delivery runs

    Any sequence of admitted events and lifecycle commands, from the start of a
    run: how the Issues evolve with each step, where proposals come from, and
    the invariant of the ledgers. *)
From S2P Require Import Prelude PyValue Sql DeliveryContracts DeliveryEvidence DeliveryReducer DeliverySteps.
Open Scope Z_scope.

(** The signals that report the outcome of an effect. *)
Definition is_report (g : ReducerSignal) : bool :=
  match g with
  | sig_claim_succeeded | sig_worker_launched | sig_checks_passed | sig_review_recorded | sig_known_defect_recorded | sig_merge_succeeded
  | sig_closure_succeeded | sig_receipt_recorded | sig_effect_failed => true
  | _ => false
  end.

Inductive input : Type := InEvent (a : AdmittedEvent) | InCommand (c : LifecycleCommand).

Section Runs.
Context (sha256_hex : string -> string) (plan : DeliveryPlan).
Abbreviation identity := (proposal_effect_identity sha256_hex).

Definition step (s : DeliveryRunState) (x : input) : res Reduction :=
  match x with
  | InEvent a => reduce_delivery_run sha256_hex s a
  | InCommand c => reduce_lifecycle_command sha256_hex s c
  end.
Definition proper (x : input) : Prop := match x with InEvent a => is_admitted sha256_hex plan a | InCommand _ => True end.
Abbreviation history := (list (DeliveryRunState * input * Reduction)).
Inductive runs (s0 : DeliveryRunState) : history -> DeliveryRunState -> Prop :=
  | runs_start : runs s0 [] s0
  | runs_step h s x r : runs s0 h s -> proper x -> step s x = Ok r -> runs s0 (h ++ [(s, x, r)]) (rd_state r).
Definition started (s0 : DeliveryRunState) : Prop :=
  _validate_plan plan = Ok tt /\ exists run_id profile scopes, initial_delivery_run_state sha256_hex run_id plan profile scopes = Ok s0.

(** ** One step *)

(** The event, if any, does not report an effect of the Issue. *)
Definition unreported (x : input) (i : IssueRunState) : Prop :=
  match x with InEvent a => is_report (ad_signal a) = false \/ scope_key <$> ad_issue a <> Some (key_of i) | InCommand _ => True end.
(** How an Issue moves, apart from new authorizations. *)
Inductive moved (s : DeliveryRunState) (x : input) (ps : list EffectProposal) (i : IssueRunState) : IssueRunState -> Prop :=
  | mv_stay : unreported x i -> moved s x ps i i
  | mv_open : unreported x i -> ir_phase i = ph_admitted -> ir_wave_index i = _open_wave_index (dr_issues s) -> moved s x ps i (with_phase ph_claiming i)
  | mv_exception p reason : unreported x i -> p = ph_owner_decision \/ p = ph_system_blocked \/ p = ph_blocked -> ACTIVE_PHASES (ir_phase i) = true ->
      moved s x ps i (with_reason reason (with_phase p i))
  | mv_change a issue u : x = InEvent a -> ad_issue a = Some issue -> scope_key issue = key_of i ->
      (forall e, ad_effect a = Some e -> _is_authorized_effect i e = true) ->
      changes sha256_hex (dr_required_evidence s) a i u ps -> moved s x ps i u
  | mv_end p reason : unreported x i -> p = ph_cancelled \/ p = ph_superseded -> ACTIVE_PHASES (ir_phase i) = true ->
      moved s x ps i (with_reason reason (with_phase p i)).

(** Where a proposal comes from. *)
Inductive proposed (s : DeliveryRunState) (x : input) (p : EffectProposal) : IssueRunState -> Prop :=
  | pr_claim i : ir_phase i = ph_admitted -> ir_wave_index i = _open_wave_index (dr_issues s) -> p = claim_proposal i -> proposed s x p i
  | pr_change a issue i u ps : x = InEvent a -> ad_issue a = Some issue -> scope_key issue = key_of i ->
      changes sha256_hex (dr_required_evidence s) a i u ps -> p ∈ ps -> proposed s x p i
  | pr_replay c e i : ACTIVE_PHASES (ir_phase i) = true -> ir_phase i <> ph_admitted -> _RESUMABLE_EFFECT_BY_PHASE (ir_phase i) = Some c ->
      e ∈ ir_ledger i -> lg_class e = c -> lg_proposal e = Some p -> proposed s x p i.

Definition same_binding (s t : DeliveryRunState) : Prop :=
  dr_run_id t = dr_run_id s /\ dr_plan_ref t = dr_plan_ref s /\ dr_required_evidence t = dr_required_evidence s
  /\ dr_required_check_names t = dr_required_check_names s.
Lemma same_identity s t p : same_binding s t -> identity t p = identity s p.
Proof. intros (H1 & H2 & H3 & H4). unfold proposal_effect_identity. by rewrite H1, H2, H4. Qed.

Lemma record_binding s t ps : same_binding s t -> forall l, _record_authorizations sha256_hex t l ps = _record_authorizations sha256_hex s l ps.
Proof.
  intros Hb. induction ps as [|p ps IH]; intros l; [done|]. cbn [_record_authorizations]. unfold record_authorization.
  rewrite (same_identity s t p Hb). destruct (match List.find _ l with Some _ => _ | None => _ end); cbn [mbind res_bind]; [apply IH|done].
Qed.

Record stepped (s : DeliveryRunState) (x : input) (r : Reduction) : Prop := {
  sd_issues : Forall2 (fun i j => exists u, moved s x (rd_effects r) i u /\ grown sha256_hex s (rd_effects r) u j)
    (dr_issues s) (dr_issues (rd_state r));
  sd_ledgered : Forall (fun p => ledgered sha256_hex s p (dr_issues (rd_state r))) (rd_effects r);
  sd_binding : same_binding s (rd_state r);
  sd_proposed : forall p, p ∈ rd_effects r -> exists i, i ∈ dr_issues s /\ proposed s x p i }.

Lemma changes_key required a i u ps : changes sha256_hex required a i u ps -> key_of u = key_of i.
Proof. by destruct 1. Qed.
Lemma moved_key s x ps i u : moved s x ps i u -> key_of u = key_of i.
Proof. destruct 1; try done. by eapply changes_key. Qed.

(** From the issues after the move to those after recording. *)
Lemma record_stepped s x l r recorded t ps : NoDup (issue_keys (dr_issues s)) ->
  Forall2 (moved s x ps) (dr_issues s) l -> _record_authorizations sha256_hex s l ps = Ok recorded ->
  same_binding s t -> (forall p, p ∈ ps -> exists i, i ∈ dr_issues s /\ proposed s x p i) ->
  r = mkReduction (with_issues recorded t) ps None [] -> stepped s x r.
Proof.
  intros Hn Hm Hr Hb Hp ->. assert (Hk : issue_keys l = issue_keys (dr_issues s)).
  { unfold issue_keys. clear -Hm. induction Hm as [|i u l l' H _ IH]; simpl; [done|]. by rewrite IH, (moved_key _ _ _ _ _ H). }
  destruct (record_all sha256_hex s ps l recorded ltac:(by rewrite Hk) Hr) as [G L]. split; cbn [rd_effects rd_state]; [|exact L|exact Hb|exact Hp]. cbn [dr_issues with_issues].
  apply Forall2_same_length_lookup_2; [by rewrite (Forall2_length _ _ _ Hm), (Forall2_length _ _ _ G)|]. intros n i j Hi Hj.
  destruct (Forall2_lookup_l _ _ _ _ _ Hm Hi) as (u & Hu & Hiu). destruct (Forall2_lookup_l _ _ _ _ _ G Hu) as (j' & Hj' & Huj).
  rewrite Hj in Hj'. injection Hj' as <-. eauto.
Qed.
Lemma advance_stepped s a l ps r : NoDup (issue_keys (dr_issues s)) -> Forall2 (moved s (InEvent a) ps) (dr_issues s) l ->
  (forall p, p ∈ ps -> exists i, i ∈ dr_issues s /\ proposed s (InEvent a) p i) -> _advance sha256_hex s a l ps = Ok r -> stepped s (InEvent a) r.
Proof.
  intros Hn Hm Hp H. unfold _advance in H. bound H as recorded E. injection H as <-. eapply record_stepped; [done|exact Hm|exact E| |exact Hp|reflexivity]. by repeat split.
Qed.

(** A tick opens the admitted Issues of the open wave. *)
Lemma opened_one s x ps due : (forall i, unreported x i) -> NoDup (issue_keys (dr_issues s)) -> NoDup (issue_keys due) ->
  (forall i, i ∈ due -> i ∈ dr_issues s /\ ir_phase i = ph_admitted /\ ir_wave_index i = _open_wave_index (dr_issues s)) ->
  forall l, Forall2 (fun i u => u = i \/ (u = with_phase ph_claiming i /\ ~ (i ∈ due) /\ moved s x ps i u)) (dr_issues s) l ->
  Forall2 (moved s x ps) (dr_issues s) (foldl (fun l i => _replace_issue l (with_phase ph_claiming i)) l due).
Proof.
  intros Hx Hn. induction due as [|d due IH]; intros Hd Hin l Hl; simpl.
  - eapply Forall2_impl; [exact Hl|]. intros i u [->|(-> & _ & H)]; [by constructor|done].
  - simpl in Hd. apply NoDup_cons in Hd as [N1 N2]. apply IH; [done|intros i Hi; apply Hin; by right|].
    apply Forall2_same_length_lookup_2; [unfold _replace_issue; by rewrite length_map, (Forall2_length _ _ _ Hl)|]. intros n i u Hi Hu.
    unfold _replace_issue in Hu. rewrite list_lookup_fmap in Hu. destruct (l !! n) as [u0|] eqn:E0; [|done]. simpl in Hu. injection Hu as <-.
    destruct (Forall2_lookup_l _ _ _ _ _ Hl Hi) as (u1 & Hu1 & H1). rewrite E0 in Hu1. injection Hu1 as <-.
    assert (Hku : key_of u0 = key_of i) by (by destruct H1 as [->|(-> & _)]). destruct (Hin d ltac:(by left)) as (Hds & Hdp & Hdw).
    case_bool_decide as Ek.
    + assert (Ei : i = d) by (eapply nodup_issue; [exact Hn|by eapply list_elem_of_lookup_2|exact Hds|rewrite <- Hku; exact Ek]). subst i.
      right. split; [done|]. split; [|by apply mv_open]. contradict N1. apply list_elem_of_fmap. eauto.
    + destruct H1 as [->|(-> & H1 & H2)]; [by left|right]. split; [done|]. split; [|done]. contradict H1. by right.
Qed.
Lemma filter_keys_nodup (f : IssueRunState -> bool) l : NoDup (issue_keys l) -> NoDup (issue_keys (List.filter f l)).
Proof.
  unfold issue_keys. induction l as [|i l IH]; simpl; [constructor|]. intros [N1 N2]%NoDup_cons. destruct (f i); simpl; [|auto].
  constructor; [|auto]. contradict N1. apply list_elem_of_fmap in N1 as (j & -> & Hj). apply list_elem_of_In, filter_In in Hj as [Hj _].
  apply list_elem_of_fmap. exists j. by rewrite list_elem_of_In.
Qed.
Lemma tick_stepped s a r : is_report (ad_signal a) = false -> NoDup (issue_keys (dr_issues s)) -> _reduce_tick sha256_hex s a = Ok r -> stepped s (InEvent a) r.
Proof.
  intros Hs Hn H. unfold _reduce_tick, _open_due_claims in H. set (due := List.filter _ (dr_issues s)) in H.
  assert (Hin : forall i, i ∈ due -> i ∈ dr_issues s /\ ir_phase i = ph_admitted /\ ir_wave_index i = _open_wave_index (dr_issues s)).
  { intros i Hi. unfold due in Hi. apply list_elem_of_In, filter_In in Hi as [Hi Ho]. rewrite list_elem_of_In. split; [done|]. unfold opens in Ho.
    bool_prop. split; [done|lia]. }
  eapply advance_stepped; [done| | |exact H].
  - apply opened_one; [by left|done| |done|].
    + by apply filter_keys_nodup.
    + apply Forall2_same_length_lookup_2; [done|]. intros n i u H1 H2. rewrite H1 in H2. injection H2 as ->. by left.
  - intros p (i & -> & Hi)%list_elem_of_fmap. destruct (Hin i Hi) as (H1 & H2 & H3). exists i. split; [done|by apply pr_claim].
Qed.
Lemma map_moved s x ps f : (forall i, i ∈ dr_issues s -> moved s x ps i (f i)) -> Forall2 (moved s x ps) (dr_issues s) (map f (dr_issues s)).
Proof. intros H. apply Forall2_fmap_r, Forall_Forall2_diag, Forall_forall. exact H. Qed.
Lemma exception_stepped s a r : is_report (ad_signal a) = false -> NoDup (issue_keys (dr_issues s)) -> _reduce_exception sha256_hex s a = Ok r -> stepped s (InEvent a) r.
Proof.
  intros Hs Hn H. unfold _reduce_exception in H. destruct (ev_exception (ad_event a)) as [x|]; [|done].
  eapply advance_stepped; [done| | |exact H]; [|by intros p ?%not_elem_of_nil]. apply map_moved. intros i _.
  destruct (tr_legal _) eqn:El; [|by constructor; left]. apply mv_exception; [by left| |by destruct (ir_phase i)]. unfold exception_target. destruct (dx_kind x); tauto.
Qed.
Lemma issue_stepped s a issue i r : NoDup (issue_keys (dr_issues s)) -> ad_issue a = Some issue -> issue_state s (scope_key issue) = Some i ->
  tr_legal (REDUCER_TRANSITION_MATRIX (ir_phase i) (ad_signal a)) = true ->
  (forall e, ad_effect a = Some e -> _is_authorized_effect i e = true) ->
  _ISSUE_HANDLERS sha256_hex (ad_signal a) s a i = Ok r -> rd_refusal r = None -> stepped s (InEvent a) r.
Proof.
  intros Hn Hi Hf Hl Ha H Hr. apply issue_state_in in Hf as [Hin Hk]. destruct (handler_changes _ _ _ _ _ Hl H Hr) as (u & ps & Hc & Hadv).
  eapply advance_stepped; [done| | |exact Hadv].
  - apply (replace_one _ _ i); [done|done|by eapply changes_key|by eapply mv_change|].
    intros j _ Nj. constructor. right. rewrite Hi. simpl. congruence.
  - intros p Hp. exists i. split; [done|]. by eapply pr_change.
Qed.
(** A refused step changes nothing and proposes nothing; any other moves the Issues. *)
Lemma event_stepped s a r : NoDup (issue_keys (dr_issues s)) -> reduce_delivery_run sha256_hex s a = Ok r ->
  (rd_state r = s /\ rd_effects r = [] /\ is_Some (rd_refusal r)) \/ (rd_refusal r = None /\ stepped s (InEvent a) r).
Proof.
  intros Hn H. unfold reduce_delivery_run in H.
  assert (Hf : forall why, _refuse s why = Ok r -> (rd_state r = s /\ rd_effects r = [] /\ is_Some (rd_refusal r)) \/ (rd_refusal r = None /\ stepped s (InEvent a) r))
    by (intros why [= <-]; left; eauto).
  do 5 (destruct (_ : bool) in H; [by eapply Hf|]).
  assert (Hok : forall l ps, _advance sha256_hex s a l ps = Ok r -> rd_refusal r = None) by (intros l ps; apply advance_accepted).
  assert (Htick : _reduce_tick sha256_hex s a = Ok r -> rd_refusal r = None)
    by (unfold _reduce_tick; destruct (_open_due_claims _ _); apply Hok).
  assert (Hexc : _reduce_exception sha256_hex s a = Ok r -> rd_refusal r = None)
    by (unfold _reduce_exception; destruct (ev_exception _); [apply Hok|done]).
  assert (Hiss : match ad_issue a with
    | Some issue => match issue_state s (scope_key issue) with
        | Some i => if negb (tr_legal (REDUCER_TRANSITION_MATRIX (ir_phase i) (ad_signal a))) then _refuse s illegal_transition
            else if match ad_effect a with Some e => negb (_is_authorized_effect i e) | None => false end
            then _refuse s unauthorized_effect else _ISSUE_HANDLERS sha256_hex (ad_signal a) s a i
        | None => _refuse s foreign_run end
    | None => _refuse s illegal_transition end = Ok r ->
    (rd_state r = s /\ rd_effects r = [] /\ is_Some (rd_refusal r)) \/ (rd_refusal r = None /\ stepped s (InEvent a) r)).
  { clear H. destruct (ad_issue a) as [issue|] eqn:Ei; [|apply Hf]. destruct (issue_state s (scope_key issue)) as [i|] eqn:Es; [|apply Hf].
    destruct (tr_legal _) eqn:El; simpl; [|apply Hf].
    destruct (match ad_effect a with Some e => _ | None => _ end) eqn:Ea; [apply Hf|]. intros H.
    destruct (rd_refusal r) eqn:Er; [left|right].
    - destruct (handler_shape _ _ _ _ _ H) as [[why ->]|(l & ps & Hadv)]; [done|]. apply advance_accepted in Hadv. congruence.
    - split; [done|]. eapply issue_stepped; eauto. intros e E. rewrite E in Ea. by bool_prop. }
  destruct (ad_signal a) eqn:Esg; try (by apply Hiss); right; (split; [auto|]);
    first [apply tick_stepped; by rewrite ?Esg|apply exception_stepped; by rewrite ?Esg].
Qed.
(** Steps that record nothing. *)
Lemma command_quiet s x r : Forall2 (moved s x []) (dr_issues s) (dr_issues (rd_state r)) -> rd_effects r = [] ->
  same_binding s (rd_state r) -> stepped s x r.
Proof.
  intros Hm He Hb. split; [| | |]; rewrite ?He; [|constructor|done|by intros p ?%not_elem_of_nil].
  eapply Forall2_impl; [exact Hm|]. intros i u H. exists u. split; [done|apply grown_refl].
Qed.
Lemma stay_moved s c ps : Forall2 (moved s (InCommand c) ps) (dr_issues s) (dr_issues s).
Proof. apply Forall_Forall2_diag, Forall_forall. intros; by constructor. Qed.
Lemma pending_proposed s x p : p ∈ pending_effect_proposals s -> exists i, i ∈ dr_issues s /\ proposed s x p i.
Proof.
  unfold pending_effect_proposals. intros (i & Hi & H)%list_elem_of_omap. exists i. split; [done|]. unfold pending_of in H.
  destruct (TERMINAL_PHASES _) eqn:Et; [done|]. case_bool_decide as Ep.
  - destruct (_ =? _) eqn:Ew; [|done]. injection H as <-. apply pr_claim; [done|lia|done].
  - destruct (_RESUMABLE_EFFECT_BY_PHASE _) as [c|] eqn:Ec; [|done]. apply bind_Some in H as (e & He & H). apply find_some in He as [He Hu].
    unfold unanswered in Hu. bool_prop. eapply pr_replay; eauto; [unfold ACTIVE_PHASES; by rewrite Et|by apply list_elem_of_In].
Qed.
Lemma command_stepped s c r : NoDup (issue_keys (dr_issues s)) -> reduce_lifecycle_command sha256_hex s c = Ok r ->
  (rd_state r = s /\ rd_effects r = [] /\ is_Some (rd_refusal r)) \/ (rd_refusal r = None /\ stepped s (InCommand c) r).
Proof.
  intros Hn H. unfold reduce_lifecycle_command in H.
  assert (Hf : forall why, _refuse s why = Ok r -> (rd_state r = s /\ rd_effects r = [] /\ is_Some (rd_refusal r)) \/ (rd_refusal r = None /\ stepped s (InCommand c) r))
    by (intros why [= <-]; left; eauto).
  do 5 (destruct (_ : bool) in H at 1; [by eapply Hf|]). do 2 (destruct (_ : bool) in H at 1; [by eapply Hf|]).
  destruct (lc_command c); cbv zeta in H.
  - destruct (bool_decide (dr_lifecycle s = life_active)); simpl in H; [|by eapply Hf]. clear Hf. injection H as <-. right. split; [done|].
    apply command_quiet; [exact (stay_moved s _ [])|done|by repeat split].
  - destruct (bool_decide (dr_lifecycle s = life_paused)); simpl in H; [|by eapply Hf]. clear Hf. bound H as l El. injection H as <-. right. split; [done|].
    rewrite (record_binding s) in El by (by repeat split). eapply record_stepped; [done|apply stay_moved|exact El| | |reflexivity]; [by repeat split|]. intros p Hp. by apply (pending_proposed s (InCommand c)) in Hp.
  - clear Hf. bound H as obl Eo. injection H as <-. right. split; [done|]. apply command_quiet; [|done|by repeat split]. apply map_moved. intros i _.
    destruct (TERMINAL_PHASES _) eqn:Et; [by constructor|]. apply mv_end; [done|by left|]. unfold ACTIVE_PHASES. by rewrite Et.
  - clear Hf. bound H as obl Eo. injection H as <-. right. split; [done|]. apply command_quiet; [|done|by repeat split]. apply map_moved. intros i _.
    destruct (TERMINAL_PHASES _) eqn:Et; [by constructor|]. apply mv_end; [done|by right|]. unfold ACTIVE_PHASES. by rewrite Et.
Qed.
Lemma step_cases s x r : NoDup (issue_keys (dr_issues s)) -> step s x = Ok r ->
  (rd_state r = s /\ rd_effects r = [] /\ is_Some (rd_refusal r)) \/ (rd_refusal r = None /\ stepped s x r).
Proof. destruct x; [apply event_stepped|apply command_stepped]. Qed.

(** Every Issue after a step comes from one before it. *)
Lemma stepped_in s x r j : stepped s x r -> j ∈ dr_issues (rd_state r) ->
  exists i u, i ∈ dr_issues s /\ moved s x (rd_effects r) i u /\ grown sha256_hex s (rd_effects r) u j /\ key_of j = key_of i.
Proof.
  intros [H _ _ _] Hj. apply list_elem_of_lookup in Hj as [n Hj]. destruct (Forall2_lookup_r _ _ _ _ _ H Hj) as (i & Hi & u & Hu & Hg).
  exists i, u. split; [by eapply list_elem_of_lookup_2|]. split; [done|]. split; [done|].
  rewrite (core_key _ _ (gr_core _ _ _ _ _ Hg)). by eapply moved_key.
Qed.
Lemma stepped_keys s x r : stepped s x r -> issue_keys (dr_issues (rd_state r)) = issue_keys (dr_issues s).
Proof.
  intros [H _ _ _]. unfold issue_keys. induction H as [|i j l l' (u & Hu & Hg) _ IH]; simpl; [done|].
  by rewrite IH, (core_key _ _ (gr_core _ _ _ _ _ Hg)), (moved_key _ _ _ _ _ Hu).
Qed.
End Runs.
