(* ===== verification/DeliveryLedger.v ===== *)
(** * The ledgers of a delivery run

    The invariant every run keeps ([wf]): Issues and ledger entries have
    distinct keys, an entry keeps the class, the Issue and a derivable identity
    of its proposal, and its outcome keys can be reported. *)
From S2P Require Import Prelude PyValue Sql RegistryProps DeliveryContracts DeliveryEvidence DeliveryReducer DeliverySteps DeliveryRuns.
Open Scope Z_scope.

Lemma keys_good c run issue pr checks ref hash keys : checks <> [] -> NoDup checks ->
  delivery_effect_expected_outcome_keys c run issue pr checks ref hash = Ok keys -> keys <> [] /\ NoDup keys.
Proof.
  intros Hc Hn H. assert (H1 : forall k, keys = [k] -> keys <> [] /\ NoDup keys) by (intros k ->; split; [done|apply NoDup_singleton]).
  unfold delivery_effect_expected_outcome_keys in H.
  destruct c; try (injection H as <-; by eapply H1).
  - injection H as <-. split; [|apply NoDup_fmap_2; [apply _|by rewrite order_by_perm]]. by intros E%map_eq_nil%order_by_nil.
  - destruct ref, hash; try done. injection H as <-. by eapply H1.
Qed.
(** A proposal has an identity unless it records an unnamed defect. *)
Lemma identity_total sha256_hex s p : po_class p <> record_known_defect \/ (is_Some (po_defect_ref p) /\ is_Some (po_defect_hash p)) ->
  exists id, proposal_effect_identity sha256_hex s p = Ok id.
Proof.
  intros H. unfold proposal_effect_identity, delivery_effect_expected_outcome_keys.
  destruct (po_class p); try (cbn [mbind res_bind]; by eexists).
  destruct H as [H|[[r ->] [h ->]]]; [done|]. cbn [mbind res_bind]. by eexists.
Qed.
Lemma identity_keys sha256_hex s p id : proposal_effect_identity sha256_hex s p = Ok id ->
  delivery_effect_expected_outcome_keys (po_class p) (dr_run_id s) (po_issue p) (po_pull_request p)
    (dr_required_check_names s) (po_defect_ref p) (po_defect_hash p) = Ok (ei_outcome_keys id).
Proof. unfold proposal_effect_identity. intros H. bound H as keys E. by injection H as <-. Qed.

Section Ledger.
Context (sha256_hex : string -> string) (plan : DeliveryPlan).
Abbreviation identity := (proposal_effect_identity sha256_hex).
Abbreviation admitted := (vetted plan).

Definition committed_entry (i : IssueRunState) (e : ReducerEffect) (o : EffectOutcomeEvidence) : EffectLedgerEntry :=
  mkEntry (ef_class e) (ef_idempotency_key e) (oe_keys o) (Some (oe_state o)) (find_entry (ef_idempotency_key e) (ir_ledger i) ≫= lg_proposal).
Lemma success_outcome c : _SUCCESS_OUTCOME_BY_EFFECT c <> out_failed.
Proof. by destruct c. Qed.

(** The ledger changes only by the reported outcome of an effect. *)
Lemma changes_ledger required a i u ps : admitted a -> changes sha256_hex required a i u ps ->
  (ir_ledger u = ir_ledger i /\ is_report (ad_signal a) = false) \/ exists e o, outcome_of plan a e o /\ ir_ledger u = put_entry (committed_entry i e o) (ir_ledger i)
    /\ is_report (ad_signal a) = true /\ (oe_state o = out_failed -> ad_signal a = sig_effect_failed).
Proof.
  intros Hv Hc. assert (Hput : forall e o, outcome_of plan a e o -> _committed i a = put_entry (committed_entry i e o) (ir_ledger i)).
  { intros e o [H1 _ H2 _]. unfold _committed. by rewrite H1, H2. }
  assert (Hs : forall c, ad_signal a = signal_of c -> exists e o, outcome_of plan a e o /\ oe_state o <> out_failed).
  { intros c E. unfold vetted in Hv. rewrite E in Hv.
    destruct c; destruct Hv as (e & o & Ho & Es & _); exists e, o; (split; [done|]); rewrite Es; apply success_outcome. }
  assert (Hcom : forall c, ad_signal a = signal_of c -> exists e o, outcome_of plan a e o
      /\ _committed i a = put_entry (committed_entry i e o) (ir_ledger i) /\ is_report (ad_signal a) = true /\ (oe_state o = out_failed -> ad_signal a = sig_effect_failed)).
  { intros c E. destruct (Hs c E) as (e & o & Ho & Hf). exists e, o.
    split; [done|]. split; [by apply Hput|]. split; [rewrite E; by destruct c|done]. }
  destruct Hc as [E1 E2|e E1 E2 E3|reason E1 E2|r pr head kinds E1 E2 E3 E4 E5 E6 E7 E8 E9|p next Ht Em|E1 E2 E3|reason E1 E2|review E1 E2 E3 E4 E5 E6
    |review finding ref E1 E2 E3 E4 E5 E6 E7 E8 hash|reason E1 E2 E3|E1 E2 E3 E4|e p reason kinds E1 E2 E3 E4 E5|reason E1 E2|o E1 E2 E3];
    try (left; split; [done|by rewrite ?E1, ?E2]); right; try by eapply (Hcom _ E1); cbn [ir_ledger with_ledger with_authority with_kinds with_reason with_phase with_invocation].
  - apply (Hcom claim_issue E1).
  - apply (Hcom launch_worker E1).
  - assert (Hsig : exists c, ad_signal a = signal_of c).
    { unfold target_steps in Ht. rewrite !elem_of_cons in Ht. destruct Ht as [[= -> _ _ _]|[[= -> _ _ _]|[[= -> _ _ _]|[[= -> _ _ _]|?%not_elem_of_nil]]]];
        [by exists await_ci|by exists record_known_defect|by exists merge_pull_request|by exists close_issue|done]. }
    destruct Hsig as [c Hsig]. apply (Hcom c Hsig).
  - apply (Hcom request_review E1).
  - apply (Hcom record_delivery_receipt E1).
  - apply (Hcom record_delivery_receipt E1).
  - unfold vetted in Hv. rewrite E1 in Hv. destruct Hv as (e' & o & Ho & Es). exists e', o. split; [done|]. split; [by apply Hput|]. by rewrite E1.
Qed.
Lemma changes_issue required a i u ps : changes sha256_hex required a i u ps -> ir_issue u = ir_issue i /\ ir_wave_index u = ir_wave_index i.
Proof. by destruct 1. Qed.
Lemma moved_issue s x ps i u : moved sha256_hex s x ps i u -> ir_issue u = ir_issue i /\ ir_wave_index u = ir_wave_index i.
Proof. destruct 1; try done. by eapply changes_issue. Qed.
Lemma changes_proposals required a i u ps p : changes sha256_hex required a i u ps -> p ∈ ps ->
  ps = [p] /\ po_issue p = ir_issue i
  /\ (po_class p <> record_known_defect \/ (is_Some (po_defect_ref p) /\ is_Some (po_defect_hash p))).
Proof.
  destruct 1 as [ | | | |q next Ht| | | | | | | | | ]; intros Hp; try (by apply not_elem_of_nil in Hp);
    apply list_elem_of_singleton in Hp as ->; (split; [done|]); (split; [done|]); simpl; try by left.
  - left. unfold target_steps in Ht. rewrite !elem_of_cons in Ht.
    by destruct Ht as [[= _ _ _ ->]|[[= _ _ _ ->]|[[= _ _ _ ->]|[[= _ _ _ ->]|?%not_elem_of_nil]]]].
  - right. split; by eexists.
Qed.

(** ** The invariant *)

Record entry_ok (s : DeliveryRunState) (k : string * Z) (e : EffectLedgerEntry) : Prop := {
  eo_proposal : forall p, lg_proposal e = Some p -> po_class p = lg_class e /\ scope_key (po_issue p) = k /\ exists id, identity s p = Ok id;
  eo_keys : lg_outcome_keys e <> [] /\ NoDup (lg_outcome_keys e) }.
Record issue_ok (s : DeliveryRunState) (i : IssueRunState) : Prop := {
  io_nodup : NoDup (ledger_keys i);
  io_entries : forall e, e ∈ ir_ledger i -> entry_ok s (key_of i) e;
  io_wave : wave_of plan (ir_issue i) = Some (ir_wave_index i) }.
Record wf (s : DeliveryRunState) : Prop := {
  wf_issues : NoDup (issue_keys (dr_issues s));
  wf_checks : dr_required_check_names s = pp_required_check_names (dp_policy plan);
  wf_each : forall i, i ∈ dr_issues s -> issue_ok s i }.
Context (plan_checks : pp_required_check_names (dp_policy plan) <> []) (plan_unique : NoDup (pp_required_check_names (dp_policy plan))).

Lemma entry_for_ok s k p id : dr_required_check_names s = pp_required_check_names (dp_policy plan) -> identity s p = Ok id ->
  scope_key (po_issue p) = k -> entry_ok s k (entry_for p id).
Proof.
  intros Hc Hid <-. split; simpl.
  - intros q [= <-]. eauto.
  - eapply keys_good; [exact plan_checks|exact plan_unique|]. rewrite <- Hc. by eapply identity_keys.
Qed.
Lemma committed_ok s a i e o : issue_ok s i -> outcome_of plan a e o -> _is_authorized_effect i e = true -> entry_ok s (key_of i) (committed_entry i e o).
Proof.
  intros [Hn He _] [_ _ _ Hk] Ha. split; simpl.
  - intros p (x & Hx & Hp)%bind_Some. apply find_entry_in in Hx as [Hx Hkx]. destruct (eo_proposal _ _ _ (He x Hx) p Hp) as (H1 & H2).
    split; [|done]. unfold _is_authorized_effect in Ha. apply existsb_exists in Ha as (y & Hy & Hb). bool_prop. apply list_elem_of_In in Hy.
    rewrite H1, (nodup_entry _ x y Hn Hx Hy); congruence.
  - eapply keys_good; [exact plan_checks|exact plan_unique|exact Hk].
Qed.
Lemma entry_ok_binding s t k e : same_binding s t -> entry_ok s k e -> entry_ok t k e.
Proof.
  intros Hb [H1 H2]. split; [|done]. intros p Hp. destruct (H1 p Hp) as (E1 & E2 & id & E3). split; [done|]. split; [done|]. exists id.
  by rewrite (same_identity sha256_hex s t p Hb).
Qed.

Lemma moved_ok s x ps i u : proper sha256_hex plan x -> issue_ok s i -> moved sha256_hex s x ps i u -> issue_ok s u.
Proof.
  intros Hx Hi Hm. destruct (moved_issue _ _ _ _ _ Hm) as [E1 E2].
  assert (Hk : key_of u = key_of i) by (unfold key_of; by rewrite E1).
  assert (Hl : ir_ledger u = ir_ledger i -> issue_ok s u).
  { intros E. destruct Hi as [H1 H2 H3]. split; [unfold ledger_keys; by rewrite E|by rewrite E, Hk|by rewrite E1, E2]. }
  destruct Hm as [ | | |a issue u -> Hai Hki Hauth Hc| ]; try (by apply Hl). apply admitted_vetted in Hx.
  destruct (changes_ledger _ _ _ _ _ Hx Hc) as [[E _]|(e & o & Ho & E & _)]; [by apply Hl|].
  split; [unfold ledger_keys; rewrite E; apply put_entry_nodup, Hi| |by rewrite E1, E2; apply Hi].
  rewrite E, Hk. intros y [->|[Hy _]]%put_entry_elem; [|by apply Hi]. eapply committed_ok; eauto. apply Hauth, Ho.
Qed.
Lemma grown_ok s ps u j : dr_required_check_names s = pp_required_check_names (dp_policy plan) -> issue_ok s u -> grown sha256_hex s ps u j -> issue_ok s j.
Proof.
  intros Hc [H1 H2 H3] [G1 G2 G3 G4]. pose proof (core_key _ _ G1) as Hk. destruct (core_fields _ _ G1) as (F1 & F2 & _). split; [auto| |by rewrite F1, F2].
  intros e [He|(p & id & Hp & Hid & -> & Hs)]%G3; rewrite Hk; [auto|]. by apply entry_for_ok.
Qed.
Lemma step_wf s x r : wf s -> proper sha256_hex plan x -> step sha256_hex s x = Ok r -> wf (rd_state r).
Proof.
  intros [W1 W2 W3] Hx Hs. destruct (step_cases sha256_hex s x r W1 Hs) as [(-> & _)|[_ Hst]]; [done|].
  split; [by rewrite (stepped_keys _ _ _ _ Hst)|by destruct (sd_binding _ _ _ _ Hst) as (_ & _ & _ & ->)|].
  intros j Hj. destruct (stepped_in _ _ _ _ _ Hst Hj) as (i & u & Hi & Hm & Hg & _).
  destruct (grown_ok _ _ _ _ W2 (moved_ok _ _ _ _ _ Hx (W3 i Hi) Hm) Hg) as [H1 H2 H3]. split; [done| |done]. intros e He.
  eapply entry_ok_binding; [by eapply sd_binding|by apply H2].
Qed.
End Ledger.

(** ** Reachable states *)

Lemma plan_facts plan : _validate_plan plan = Ok tt ->
  pp_required_check_names (dp_policy plan) <> [] /\ NoDup (pp_required_check_names (dp_policy plan)) /\ NoDup (map scope_key (dp_final_scope plan)).
Proof.
  unfold _validate_plan. intros H. do 5 (bound H as ? ?). bound H as ? Hc. do 4 (bound H as ? ?). cbv zeta in H. bound H as ? Hu. clear H.
  unfold _validate_required_checks in Hc. bound Hc as ? He. apply reject_ok in He. unfold canonical_strings in Hc. bound Hc as ? Hn.
  unfold _require_unique in Hn, Hu. apply reject_ok in Hn, Hu. bool_prop. done.
Qed.
Section Reachable.
Context (sha256_hex : string -> string) (plan : DeliveryPlan).

Lemma initial_issues l : forall issues, mapM_res (initial_issue plan) l = Ok issues ->
  issue_keys issues = map scope_key l /\ forall i, i ∈ issues -> ir_phase i = ph_admitted /\ ir_ledger i = [] /\ ir_evidence i = []
    /\ wave_of plan (ir_issue i) = Some (ir_wave_index i).
Proof.
  induction l as [|x l IH]; intros issues Ei; simpl in Ei.
  - injection Ei as <-. split; [done|]. by intros i ?%not_elem_of_nil.
  - bound Ei as i E1. bound Ei as rest E2. injection Ei as <-. destruct (IH _ E2) as [H1 H2]. unfold initial_issue in E1.
    destruct (authority_by_id _ _); [|done]. destruct (wave_of plan x) eqn:Ew; [|done]. injection E1 as <-. simpl. rewrite H1. split; [done|].
    intros j [->|Hj]%elem_of_cons; [|by apply H2]. done.
Qed.
Lemma initial_wf s0 : started sha256_hex plan s0 -> wf sha256_hex plan s0 /\ forall i, i ∈ dr_issues s0 -> ir_phase i = ph_admitted /\ ir_ledger i = [] /\ ir_evidence i = [].
Proof.
  intros (Hp & run_id & profile & scopes & H). destruct (plan_facts _ Hp) as (_ & _ & Hn). unfold initial_delivery_run_state in H.
  bound H as ? ?. bound H as issues Ei. injection H as <-. cbn [dr_issues]. pose proof (initial_issues _ _ Ei) as Hi.
  destruct Hi as [Hk Hi]. split.
  - split; cbn [dr_issues dr_required_check_names]; [|done|].
    + unfold issue_keys. rewrite (order_by_perm _ _). unfold issue_keys in Hk. by rewrite Hk.
    + intros i Hin%order_by_elem. destruct (Hi i Hin) as (H1 & H2 & _ & H3). split; [unfold ledger_keys; rewrite H2; constructor| |done].
      rewrite H2. by intros e ?%not_elem_of_nil.
  - intros i Hin%order_by_elem. destruct (Hi i Hin) as (H1 & H2 & H3 & _). done.
Qed.
Lemma runs_wf s0 h s : started sha256_hex plan s0 -> runs sha256_hex plan s0 h s -> wf sha256_hex plan s.
Proof.
  intros H0 H. induction H as [|h s x r H IH Hx Hs]; [by apply initial_wf|]. destruct (plan_facts plan (proj1 H0)) as (H1 & H2 & _).
  by eapply step_wf.
Qed.
(** Induction over a run, with the invariant at hand. *)
Lemma runs_ind_wf (P : list (DeliveryRunState * input * Reduction) -> DeliveryRunState -> Prop) s0 : started sha256_hex plan s0 -> P [] s0 ->
  (forall h s x r, runs sha256_hex plan s0 h s -> wf sha256_hex plan s -> P h s -> proper sha256_hex plan x -> step sha256_hex s x = Ok r ->
     rd_state r = s -> rd_effects r = [] -> is_Some (rd_refusal r) -> P (h ++ [(s, x, r)]) s) ->
  (forall h s x r, runs sha256_hex plan s0 h s -> wf sha256_hex plan s -> P h s -> proper sha256_hex plan x -> step sha256_hex s x = Ok r ->
     rd_refusal r = None -> stepped sha256_hex s x r -> P (h ++ [(s, x, r)]) (rd_state r)) ->
  forall h s, runs sha256_hex plan s0 h s -> P h s.
Proof.
  intros H0 Hz Hr Ha h s H. induction H as [|h s x r H IH Hx Hs]; [done|]. pose proof (runs_wf _ _ _ H0 H) as W.
  destruct (step_cases sha256_hex s x r (wf_issues _ _ _ W) Hs) as [(E1 & E2 & E3)|[E Hst]]; [rewrite E1|]; eauto.
Qed.
(** A run keeps the Issues of its plan. *)
Lemma runs_issues s0 h s : started sha256_hex plan s0 -> runs sha256_hex plan s0 h s -> issue_keys (dr_issues s) ≡ₚ map scope_key (dp_final_scope plan).
Proof.
  intros H0. apply (runs_ind_wf (fun h s => issue_keys (dr_issues s) ≡ₚ map scope_key (dp_final_scope plan)) s0); [done| |done|].
  - destruct H0 as (Hp & run_id & profile & scopes & H). unfold initial_delivery_run_state in H. bound H as ? ?. bound H as issues Ei.
    injection H as <-. cbn [dr_issues]. rewrite <- (proj1 (initial_issues _ _ Ei)). unfold issue_keys. by rewrite (order_by_perm _ _).
  - intros h' s' x r _ _ IH _ _ _ Hst. by rewrite (stepped_keys _ _ _ _ Hst).
Qed.
End Reachable.
