(* ===== verification/DeliveryTotal.v ===== *)
(** * The delivery reducer always answers

    No admitted event and no command raises from a reachable state; what a
    cancelled run reports. *)
From Stdlib Require Import Sorted.
From S2P Require Import Prelude PyValue Sql RegistryProps DimensionProps DeliveryContracts DeliveryEvidence DeliveryReducer DeliverySteps DeliveryRuns DeliveryLedger.
Open Scope Z_scope.

Lemma order_ins_least {A} (leb : A -> A -> bool) x l : Forall (fun y => leb x y = true) l -> order_ins leb x l = x :: l.
Proof. destruct 1 as [|y l H _]; simpl; [done|]. by rewrite H. Qed.
Lemma order_by_id {A} (leb : A -> A -> bool) l : StronglySorted (fun x y => leb x y = true) l -> order_by leb l = l.
Proof. induction 1 as [|x l _ IH Hx]; simpl; [done|]. rewrite IH. by apply order_ins_least. Qed.
Lemma order_strings_idem l : order_by String.leb (order_by String.leb l) = order_by String.leb l.
Proof. apply order_by_id, order_by_sorted; [apply leb_false|apply leb_trans]. Qed.

(** ** Obligations *)

Abbreviation by_key := (fun d (e : EffectLedgerEntry) => dict_set d (lg_key e) e).
Lemma by_key_elem l : forall d k e, (k, e) ∈ foldl by_key d l -> (k, e) ∈ d \/ (e ∈ l /\ k = lg_key e).
Proof.
  induction l as [|x l IH]; intros d k e; simpl; [by left|]. intros [H|[H ->]]%IH.
  - apply dict_set_elem in H as [[= -> ->]|H]; [|by left]. right. split; [left|done].
  - right. split; [by right|done].
Qed.
Lemma by_key_keys l : forall d k, k ∈ map fst (foldl by_key d l) <-> k ∈ map fst d \/ k ∈ map lg_key l.
Proof.
  induction l as [|x l IH]; intros d k; simpl; [by rewrite elem_of_nil; tauto|]. rewrite IH, elem_of_cons, dict_set_keys.
  destruct (existsb _ _) eqn:E; [|rewrite elem_of_app, list_elem_of_singleton; tauto].
  apply existsb_exists in E as (j & Hj & ->%String.eqb_eq). apply list_elem_of_In in Hj. naive_solver.
Qed.

Lemma outstanding_keys s obligations : outstanding_effect_obligations s = Ok obligations ->
  forall i e, i ∈ dr_issues s -> e ∈ ir_ledger i -> is_resolved_uncommitted e = false -> lg_key e ∈ map ob_idempotency_key obligations.
Proof.
  unfold outstanding_effect_obligations. intros H i e Hi He Hu. set (l := concat _) in H.
  assert (Hl : e ∈ l).
  { unfold l. apply list_elem_of_In, in_concat. exists (unreconciled_effects i). split; [by apply in_map, list_elem_of_In|].
    unfold unreconciled_effects. apply filter_In. by rewrite Hu, <- list_elem_of_In. }
  assert (Hk : lg_key e ∈ map fst (sort_keys (foldl by_key [] l))).
  { rewrite sort_keys_perm, by_key_keys. right. apply list_elem_of_fmap. eauto. }
  assert (Hkv : forall k x, (k, x) ∈ sort_keys (foldl by_key [] l) -> k = lg_key x).
  { intros k x Hx. rewrite sort_keys_perm in Hx. apply by_key_elem in Hx as [?%not_elem_of_nil|[_ ->]]; done. }
  clear Hl. revert obligations H Hk Hkv. induction (sort_keys (foldl by_key [] l)) as [|[k x] d IH]; intros obligations H Hk Hkv; simpl in *;
    [by apply not_elem_of_nil in Hk|].
  bound H as o Ho. bound Ho as u Ev. injection Ho as <-. bound H as rest Er. injection H as <-. simpl.
  apply elem_of_cons in Hk as [->|Hk]; apply elem_of_cons; [left; apply Hkv; left|right]. eapply IH; eauto. intros k' x' Hx. apply Hkv. by right.
Qed.
Lemma mapM_res_total {A B} (f : A -> res B) l : (forall x, x ∈ l -> exists y, f x = Ok y) -> exists ys, mapM_res f l = Ok ys.
Proof.
  induction l as [|x l IH]; intros H; simpl; [by eexists|]. destruct (H x ltac:(left)) as [y ->]. cbn [mbind res_bind].
  destruct IH as [ys ->]; [intros z Hz; apply H; by right|]. cbn [mbind res_bind]. by eexists.
Qed.
Lemma obligation_valid e : lg_outcome_keys e <> [] -> NoDup (lg_outcome_keys e) -> _validate_obligation (obligation_of e) = Ok tt.
Proof.
  intros He Hn. unfold _validate_obligation, canonical_strings, _require_unique, in_order, reject. cbn [ob_outcome_keys obligation_of].
  rewrite order_strings_idem, (bool_decide_false (order_by _ _ = [])) by (by intros ?%order_by_nil). cbn [mbind res_bind].
  rewrite (bool_decide_true (NoDup _)) by (by rewrite order_by_perm). cbn [mbind res_bind negb]. by rewrite bool_decide_true.
Qed.

(** ** No step raises *)

Section Total.
Context (sha256_hex : string -> string) (plan : DeliveryPlan).
Abbreviation identity := (proposal_effect_identity sha256_hex).

Lemma advance_total s a l ps : Forall (fun p => exists id, identity s p = Ok id) ps -> exists r, _advance sha256_hex s a l ps = Ok r.
Proof. intros H. unfold _advance. destruct (record_total sha256_hex s ps l H) as [l' ->]. cbn [mbind res_bind]. by eexists. Qed.
(** A proposal on its own, which names its defect if it records one. *)
Lemma advance_one s a l p : po_class p <> record_known_defect \/ (is_Some (po_defect_ref p) /\ is_Some (po_defect_hash p)) ->
  exists r, _advance sha256_hex s a l [p] = Ok r.
Proof. intros H. apply advance_total. constructor; [by apply identity_total|constructor]. Qed.
Lemma advance_none s a l : exists r, _advance sha256_hex s a l [] = Ok r.
Proof. apply advance_total. constructor. Qed.
Lemma refuse_total s why : exists r, _refuse s why = Ok r.
Proof. by eexists. Qed.
Create HintDb answers.
Hint Resolve refuse_total advance_none : answers.
Hint Extern 2 (exists r, _advance _ _ _ _ [_] = Ok r) => apply advance_one; simpl; first [by left|right; split; by eexists] : answers.

Lemma at_target_total s a i p c : c <> record_known_defect -> exists r, at_target sha256_hex s a i p c = Ok r.
Proof. intros H. unfold at_target. apply advance_one. by left. Qed.
Hint Resolve at_target_total : answers.
Lemma handler_total s a i : vetted plan a -> tr_legal (REDUCER_TRANSITION_MATRIX (ir_phase i) (ad_signal a)) = true ->
  match ad_signal a with sig_run_started | sig_timer_elapsed | sig_exception_recorded => False | _ => True end ->
  exists r, _ISSUE_HANDLERS sha256_hex (ad_signal a) s a i = Ok r.
Proof.
  intros Hv _ Hs. unfold vetted in Hv. destruct (ad_signal a) eqn:Esg; try done; cbn [_ISSUE_HANDLERS];
    unfold _reduce_claim_succeeded, _reduce_worker_launched, _reduce_worker_result, _reduce_checks_passed, _reduce_review_recorded,
      _reduce_review_result, _reduce_known_defect_recorded, _reduce_merge_succeeded, _reduce_closure_succeeded, _reduce_receipt_recorded,
      _reduce_effect_failed, _reduce_authority_changed;
    try (destruct Hv as (e & o & [He _ _ _] & _); rewrite ?He); try (destruct Hv as (v & -> & _)); try (destruct Hv as [v ->]);
    repeat (match goal with
      | |- exists r, (match ?x with _ => _ end) = Ok r => destruct x
      end); eauto with answers.
  all: cbv zeta; eauto with answers.
Qed.
Lemma event_total s a : is_admitted sha256_hex plan a -> exists r, reduce_delivery_run sha256_hex s a = Ok r.
Proof.
  intros Hv%admitted_vetted. unfold reduce_delivery_run. cbv zeta. do 5 (destruct (_ : bool); [by eexists|]).
  assert (Htick : exists r, _reduce_tick sha256_hex s a = Ok r).
  { unfold _reduce_tick, _open_due_claims. apply advance_total, Forall_forall. intros p (i & -> & _)%list_elem_of_fmap. apply identity_total. by left. }
  assert (Hexc : ad_signal a = sig_exception_recorded -> exists r, _reduce_exception sha256_hex s a = Ok r).
  { intros E. unfold vetted in Hv. rewrite E in Hv. destruct Hv as [x Hx]. unfold _reduce_exception. rewrite Hx. apply advance_none. }
  pose proof (handler_total s a) as Hh. destruct (ad_signal a) eqn:Esg; try (by apply Htick); try (by apply Hexc);
    (destruct (ad_issue a) as [issue|]; [|by eexists]); (destruct (issue_state s _) as [i|]; [|by eexists]);
    (destruct (tr_legal _) eqn:El; simpl; [|by eexists]); (destruct (match ad_effect a with Some e => _ | None => _ end); [by eexists|]);
    exact (Hh i Hv El I).
Qed.
Lemma proposed_total s x p i : wf sha256_hex plan s -> i ∈ dr_issues s -> proposed sha256_hex s x p i -> exists id, identity s p = Ok id.
Proof.
  intros W Hi Hp. destruct Hp as [i _ _ ->|a issue i u ps E1 E2 E3 E4 E5|c e i E1 E2 E3 E4 E5 E6]; [apply identity_total; by left| |].
  - apply identity_total. edestruct changes_proposals as (_ & _ & Hd); [done|done|exact Hd].
  - eapply eo_proposal; [|done]. eapply io_entries; [|done]. by eapply wf_each.
Qed.
Lemma command_total s c : wf sha256_hex plan s -> exists r, reduce_lifecycle_command sha256_hex s c = Ok r.
Proof.
  intros W. unfold reduce_lifecycle_command. cbv zeta. do 7 (destruct (_ : bool); [by eexists|]).
  assert (Ho : exists l, outstanding_effect_obligations s = Ok l).
  { unfold outstanding_effect_obligations. apply mapM_res_total. intros [k e] He. rewrite sort_keys_perm in He.
    apply by_key_elem in He as [?%not_elem_of_nil|[He _]]; [done|]. apply list_elem_of_In, in_concat in He as (l & (i & <- & Hi)%in_map_iff & He).
    apply filter_In in He as [He _]. apply list_elem_of_In in Hi. apply list_elem_of_In in He. cbn [snd].
    destruct (eo_keys _ _ _ _ (io_entries _ _ _ _ (wf_each _ _ _ W i Hi) e He)) as [H1 H2]. rewrite obligation_valid by done. by eexists. }
  destruct Ho as [l Hl]. destruct (lc_command c); rewrite ?Hl; cbn [mbind res_bind]; try by eexists.
  - destruct (negb _); by eexists.
  - destruct (negb _); [by eexists|]. rewrite (record_binding sha256_hex s) by (by repeat split).
    edestruct (record_total sha256_hex s) as [l' Hl']; [|rewrite Hl'; cbn [mbind res_bind]; by eexists].
    apply Forall_forall. intros p Hp. destruct (pending_proposed sha256_hex s (InCommand c) p Hp) as (i & Hi & Hpr). by eapply proposed_total.
Qed.

(** C20: The reducer always answers: whatever admitted event or lifecycle command
    arrives, in whatever order and however often, in any state a started run can
    reach, the reducer returns a reduction (a refusal at worst) and never
    raises: no handler meets the missing evidence it asserts, every proposed or
    resumed effect has an identity, and every obligation a cancelled run reports
    passes its own validator. *)
Theorem delivery_reducer_always_answers s0 h s x : started sha256_hex plan s0 -> runs sha256_hex plan s0 h s -> proper sha256_hex plan x ->
  exists r, step sha256_hex s x = Ok r.
Proof. intros H0 H Hx. destruct x as [a|c]; [by apply event_total|]. by eapply command_total, runs_wf. Qed.
End Total.
