(* ===== verification/DeliveryGates.v ===== *)
(** * Delivered Issues

    The way of an Issue to delivery: which accepted events stand behind its
    phase and behind the evidence it holds. *)
From S2P Require Import Prelude PyValue Sql DeliveryContracts DeliveryEvidence DeliveryReducer DeliverySteps DeliveryRuns DeliveryLedger.
Open Scope Z_scope.

Abbreviation history := (list (DeliveryRunState * input * Reduction)).
(** The events of an Issue that a step accepted. *)
Definition accepted_by (key : string * Z) (e : DeliveryRunState * input * Reduction) : option AdmittedEvent :=
  match e with
  | (_, InEvent a, r) => if bool_decide (rd_refusal r = None) && bool_decide (scope_key <$> ad_issue a = Some key) then Some a else None
  | _ => None
  end.
Definition accepted (key : string * Z) (h : history) : list AdmittedEvent := omap (accepted_by key) h.
Definition proposals (h : history) : list EffectProposal := concat (map (fun e => rd_effects (snd e)) h).

Lemma accepted_app key h k : accepted key (h ++ k) = accepted key h ++ accepted key k.
Proof. apply omap_app. Qed.
Lemma accepted_mono key h e a : a ∈ accepted key h -> a ∈ accepted key (h ++ [e]).
Proof. rewrite accepted_app, elem_of_app. auto. Qed.
Lemma accepted_now key h s a r issue : rd_refusal r = None -> ad_issue a = Some issue -> scope_key issue = key ->
  accepted key (h ++ [(s, InEvent a, r)]) = accepted key h ++ [a].
Proof. intros H1 H2 H3. rewrite accepted_app. simpl. by rewrite !bool_decide_true by (rewrite ?H2; simpl; congruence). Qed.
Lemma proposals_app h s x r : proposals (h ++ [(s, x, r)]) = proposals h ++ rd_effects r.
Proof. unfold proposals. rewrite map_app, concat_app. simpl. by rewrite app_nil_r. Qed.

(** ** Gates *)

Inductive gate : Type := g_claimed | g_launched | g_worked | g_checked | g_reviewed | g_merged | g_closed | g_receipted.
Definition gates : list gate := [g_claimed; g_launched; g_worked; g_checked; g_reviewed; g_merged; g_closed; g_receipted].
(** The event reports the success of an effect of the class. *)
Definition succeeded (c : EffectClass) (a : AdmittedEvent) (e : ReducerEffect) : Prop :=
  ad_effect a = Some e /\ ef_class e = c /\ ad_signal a = signal_of c
  /\ exists o, ev_outcome (ad_event a) = Some o /\ oe_state o = _SUCCESS_OUTCOME_BY_EFFECT c.
Definition succeeded_at (c : EffectClass) (i : IssueRunState) (a : AdmittedEvent) : Prop :=
  exists e, succeeded c a e /\ ef_pull_request e = ir_pull_request i /\ ef_head_sha e = ir_head_sha i.
Definition meets (i : IssueRunState) (g : gate) (a : AdmittedEvent) : Prop :=
  match g with
  | g_claimed => exists e, succeeded claim_issue a e
  | g_launched => exists e, succeeded launch_worker a e /\ ir_invocation_key i = Some (ef_idempotency_key e)
  | g_worked => exists w pr head, ad_worker a = Some w /\ wr_status (w2_delivery_result w) = ws_completed
      /\ ir_invocation_key i = Some (cr_id (w2_effect_ref w)) /\ w2_pull_request w = Some pr /\ w2_head_sha w = Some head
      /\ ir_pull_request i = Some pr /\ ir_head_sha i = Some head
  | g_checked => succeeded_at await_ci i a
  | g_reviewed => exists review, ad_review a = Some review /\ rr_disposition review <> disp_reject
      /\ existsb is_blocking (rr_findings review) = false /\ reviewed_at review i
  | g_merged => succeeded_at merge_pull_request i a
  | g_closed => succeeded_at close_issue i a
  | g_receipted => succeeded_at record_delivery_receipt i a
  end.
(** How many gates an Issue of a phase has passed. *)
Definition rank (p : RunPhase) : nat :=
  match p with
  | ph_launching => 1 | ph_working => 2 | ph_awaiting_ci => 3 | ph_awaiting_review => 4 | ph_recording_defect | ph_merging => 5
  | ph_closing => 6 | ph_recording_receipt => 7 | ph_delivered => 8 | _ => 0
  end%nat.
Definition evidence_signal (k : AcceptanceEvidenceKind) : ReducerSignal :=
  match k with
  | evk_required_checks_green => sig_checks_passed | evk_review_accepted => sig_review_result_recorded
  | evk_pull_request_merged => sig_merge_succeeded | evk_issue_closed => sig_closure_succeeded
  | evk_known_defect_recorded => sig_known_defect_recorded
  end.
Record passed (required : list AcceptanceEvidenceKind) (h : history) (i : IssueRunState) : Prop := {
  pa_trail : exists l, sublist l (accepted (key_of i) h) /\ Forall2 (meets i) (take (rank (ir_phase i)) gates) l;
  pa_evidence : forall k, k ∈ ir_evidence i -> exists a, a ∈ accepted (key_of i) h /\ ad_signal a = evidence_signal k;
  pa_required : ir_phase i = ph_delivered -> forall k, k ∈ required -> k ∈ ir_evidence i }.

Lemma passed_mono required h e i : passed required h i -> passed required (h ++ [e]) i.
Proof.
  intros [(l & Hl & Hf) H2 H3]. split; [|intros k Hk; destruct (H2 k Hk) as (a & Ha & Es); exists a; split; [by apply accepted_mono|done]|done].
  exists l. split; [|done]. rewrite accepted_app. by apply sublist_inserts_r.
Qed.
(** An Issue that differs in its ledger or authority only, or fell out. *)
Lemma passed_same required h i j : key_of j = key_of i -> ir_phase j = ir_phase i -> ir_pull_request j = ir_pull_request i -> ir_head_sha j = ir_head_sha i ->
  ir_invocation_key j = ir_invocation_key i -> ir_evidence j = ir_evidence i -> passed required h i -> passed required h j.
Proof.
  intros Hk Ep E1 E2 E3 E4 [H1 H2 H3].
  split; rewrite ?Hk, ?Ep, ?E4; [|done|done]. destruct H1 as (l & Hl & Hf). exists l. split; [done|]. eapply Forall2_impl; [exact Hf|].
  intros g a. unfold meets, succeeded_at, reviewed_at. by rewrite E1, E2, E3.
Qed.
Lemma passed_core required h i j : with_ledger [] j = with_ledger [] i -> passed required h i -> passed required h j.
Proof.
  intros H. destruct (core_fields _ _ H) as (_ & _ & _ & Ep & E1 & E2 & E3 & _ & _ & E4). by apply passed_same; [apply core_key|..].
Qed.
Lemma passed_out required h i u : key_of u = key_of i -> rank (ir_phase u) = 0%nat ->
  (forall k, k ∈ ir_evidence u -> exists a, a ∈ accepted (key_of i) h /\ ad_signal a = evidence_signal k) -> passed required h u.
Proof.
  intros Hk Hr He. split; rewrite ?Hk; [|done|].
  - exists []. rewrite Hr. split; [apply sublist_nil_l|constructor].
  - intros E. by rewrite E in Hr.
Qed.
Lemma with_evidence_elem i kinds k : k ∈ _with_evidence i kinds <-> k ∈ ir_evidence i \/ k ∈ kinds.
Proof.
  unfold _with_evidence, sorted_kinds. rewrite list_elem_of_In, filter_In, bool_decide_eq_true, elem_of_app.
  split; [tauto|]. intros H. split; [|done]. destruct k; simpl; tauto.
Qed.

Section Gates.
Context (sha256_hex : string -> string) (plan : DeliveryPlan).

Lemma vetted_succeeded c a : vetted plan a -> ad_signal a = signal_of c ->
  exists e, succeeded c a e /\ forall k, k ∈ _effect_evidence a -> evidence_signal k = signal_of c.
Proof.
  intros Hv Hs. unfold vetted in Hv. rewrite Hs in Hv.
  assert (H : exists e o, outcome_of plan a e o /\ oe_state o = _SUCCESS_OUTCOME_BY_EFFECT (ef_class e) /\ ef_class e = c).
  { destruct c; destruct Hv as (e & o & Ho & Es & Ec); exists e, o; (split; [done|]); (split; [done|]); by destruct (ef_class e). }
  destruct H as (e & o & [H1 _ H2 _] & Es & Ec). rewrite Ec in Es. exists e. split; [by repeat split; eauto|].
  intros k. unfold _effect_evidence. rewrite H2, Es. destruct c; simpl; rewrite ?list_elem_of_singleton; try (by intros ?%not_elem_of_nil); by intros ->.
Qed.
Lemma succeeded_target c i a e : succeeded c a e -> _authorized_target_matches i a = true -> succeeded_at c i a.
Proof. intros H Ht. exists e. split; [done|]. destruct H as (He & _). unfold _authorized_target_matches in Ht. rewrite He in Ht. by bool_prop. Qed.

(** One more gate. *)
Lemma trail_next h h' i u a g l : accepted (key_of u) h' = accepted (key_of i) h ++ [a] ->
  take (rank (ir_phase u)) gates = take (rank (ir_phase i)) gates ++ [g] ->
  (forall g a, g ∈ take (rank (ir_phase i)) gates -> meets i g a -> meets u g a) -> meets u g a ->
  sublist l (accepted (key_of i) h) -> Forall2 (meets i) (take (rank (ir_phase i)) gates) l ->
  exists l', sublist l' (accepted (key_of u) h') /\ Forall2 (meets u) (take (rank (ir_phase u)) gates) l'.
Proof.
  intros -> -> Hm Hg Hl Hf. exists (l ++ [a]). split; [by apply sublist_app|]. apply Forall2_app; [|by repeat constructor].
  clear -Hm Hf. induction Hf as [|g b gs l H _ IH]; constructor; [apply Hm; [left|done]|]. apply IH. intros g' b' Hg'. apply Hm. by right.
Qed.
Lemma changes_passed required h h' a i u ps : vetted plan a -> changes sha256_hex required a i u ps ->
  accepted (key_of i) h' = accepted (key_of i) h ++ [a] -> passed required h i -> passed required h' u.
Proof.
  intros Hv Hc Ha Hp. pose proof (changes_key _ _ _ _ _ _ Hc) as Hk.
  assert (Hp' : passed required h' i).
  { destruct Hp as [(l & Hl & Hf) H2 H3]. split; rewrite ?Ha; [|intros k Hk'; destruct (H2 k Hk') as (b & Hb & Es); exists b; split; [apply elem_of_app; by left|done]|done].
    exists l. split; [by apply sublist_inserts_r|done]. }
  assert (Hev : forall k c, ad_signal a = signal_of c -> k ∈ _with_evidence i (_effect_evidence a) ->
    exists b, b ∈ accepted (key_of i) h' /\ ad_signal b = evidence_signal k).
  { intros k c Hs [Hin|Hin]%with_evidence_elem; [by apply Hp'|]. destruct (vetted_succeeded c a Hv Hs) as (e & _ & He).
    exists a. rewrite Ha, elem_of_app, list_elem_of_singleton. split; [by right|]. by rewrite (He k Hin). }
  assert (Hrev : forall k, ad_signal a = sig_review_result_recorded -> k ∈ _with_evidence i [evk_review_accepted] ->
    exists b, b ∈ accepted (key_of i) h' /\ ad_signal b = evidence_signal k).
  { intros k Hs [Hin| ->%list_elem_of_singleton]%with_evidence_elem; [by apply Hp'|]. exists a. rewrite Ha, elem_of_app, list_elem_of_singleton. auto. }
  assert (Hnext : forall u g, key_of u = key_of i -> take (rank (ir_phase u)) gates = take (rank (ir_phase i)) gates ++ [g] ->
    (forall g b, g ∈ take (rank (ir_phase i)) gates -> meets i g b -> meets u g b) -> meets u g a ->
    (forall k, k ∈ ir_evidence u -> exists b, b ∈ accepted (key_of i) h' /\ ad_signal b = evidence_signal k) ->
    (ir_phase u = ph_delivered -> forall k, k ∈ required -> k ∈ ir_evidence u) -> passed required h' u).
  { intros v g Ek Et Hm Hg He Hq. destruct Hp as [(l & Hl & Hf) _ _]. split; [|by rewrite Ek|done]. eapply trail_next; eauto. by rewrite Ek. }
  assert (Hat : forall c p kinds l, ad_signal a = signal_of c -> _authorized_target_matches i a = true ->
    succeeded_at c (with_authority (_authority_of a i) (with_ledger l (with_kinds kinds (with_phase p i)))) a).
  { intros c p kinds l E Hm. destruct (vetted_succeeded c a Hv E) as (e & He & _). exact (succeeded_target c i a e He Hm). }
  destruct Hc as [E1 E2|e E1 E2 E3|reason E1 E2|r pr head kinds E1 E2 E3 E4 E5 E6 E7 E8 E9|p next Ht Em|E1 E2 E3|reason E1 E2|review E1 E2 E3 E4 E5 E6
    |review finding ref E1 E2 E3 E4 E5 E6 E7 E8 hash|reason E1 E2 E3|E1 E2 E3 E4|e p reason kinds E1 E2 E3 E4 E5|reason E1 E2|o E1 E2 E3];
    try (by eapply passed_out; [exact Hk|done|apply Hp']); try (by apply (passed_same _ _ i)).
  - apply (Hnext _ g_claimed); [done|by rewrite E2|by rewrite E2; intros g b ?%not_elem_of_nil| |apply Hp'|done].
    destruct (vetted_succeeded claim_issue a Hv E1) as (e & He & _). by exists e.
  - apply (Hnext _ g_launched); [done|by rewrite E3|rewrite E3; by intros g b ->%list_elem_of_singleton| |apply Hp'|done].
    destruct (vetted_succeeded launch_worker a Hv E1) as (e' & He & _). exists e'. split; [done|]. destruct He as (He & _). simpl. congruence.
  - apply (Hnext _ g_worked); [done|by rewrite E2| | | |done].
    + rewrite E2. intros g b Hg Hm. simpl in Hg. rewrite !elem_of_cons, elem_of_nil in Hg. by destruct Hg as [->|[->|[]]].
    + exists r, pr, head. done.
    + intros k Hin. apply Hp', E8, Hin.
  - assert (Hstep : exists c g, ad_signal a = signal_of c /\ take (rank p) gates = take (rank (ir_phase i)) gates ++ g /\ p <> ph_delivered
      /\ (g = [] \/ exists g0, g = [g0] /\ forall u, meets u g0 a = succeeded_at c u a)).
    { unfold target_steps in Ht. rewrite !elem_of_cons in Ht. destruct Ht as [[= E1 -> -> _]|[[= E1 -> -> _]|[[= E1 -> -> _]|[[= E1 -> -> _]|[]%elem_of_nil]]]].
      - exists await_ci, [g_checked]. eauto 10.
      - exists record_known_defect, []. eauto 10.
      - exists merge_pull_request, [g_merged]. eauto 10.
      - exists close_issue, [g_closed]. eauto 10. }
    destruct Hstep as (c & g & E1 & Et & Hd & [->|(g0 & -> & Hg)]).
    + rewrite app_nil_r in Et. destruct Hp' as [(l & Hl & Hf) _ _]. split; [|intros k; by apply (Hev k c)|done].
      exists l. split; [done|]. cbn [ir_phase with_phase with_kinds with_ledger with_authority]. by rewrite Et.
    + apply (Hnext _ g0); [done|exact Et|done| |intros k; by apply (Hev k c)|done]. rewrite Hg. by apply Hat.
  - apply (Hnext _ g_reviewed); [done|by rewrite E2|done| |intros k; by apply Hrev|done]. exists review. split; [done|]. split; [by rewrite E6|]. done.
  - apply (Hnext _ g_reviewed); [done|by rewrite E2|done| |intros k; by apply Hrev|done]. exists review. split; [done|]. split; [by rewrite E6|]. done.
  - eapply passed_out; [exact Hk|done|]. intros k. by apply (Hev k record_delivery_receipt).
  - apply (Hnext _ g_receipted); [done|by rewrite E2|done| |intros k; by apply (Hev k record_delivery_receipt)|by intros _].
    exact (Hat record_delivery_receipt ph_delivered [] [] E1 E3).
  - eapply passed_out; [exact Hk|by destruct E4 as [->| ->]|]. intros k Hin. by apply Hp', E5.
Qed.
Lemma moved_passed h s x r i u : proper sha256_hex plan x -> rd_refusal r = None -> moved sha256_hex s x (rd_effects r) i u ->
  passed (dr_required_evidence s) h i -> passed (dr_required_evidence s) (h ++ [(s, x, r)]) u.
Proof.
  intros Hx Hr Hm Hp. pose proof (passed_mono _ _ (s, x, r) _ Hp) as Hp'.
  destruct Hm as [ |E0 E1 E2|p reason E0 E1 E2|a issue u -> Hai Hki _ Hc|p reason E0 E1 E2]; [done| | | |];
    try (by eapply passed_out; [done|first [done|by destruct E1 as [->|[->| ->]]|by destruct E1 as [->| ->]]|apply Hp']).
  apply admitted_vetted in Hx. eapply changes_passed; [done|done| |exact Hp]. by eapply accepted_now.
Qed.
Lemma runs_passed s0 h s : started sha256_hex plan s0 -> runs sha256_hex plan s0 h s ->
  forall i, i ∈ dr_issues s -> passed (dr_required_evidence s) h i.
Proof.
  intros H0. revert h s.
  refine (runs_ind_wf sha256_hex plan (fun h s => forall i, i ∈ dr_issues s -> passed (dr_required_evidence s) h i) s0 H0 _ _ _).
  - intros i Hi. destruct (initial_wf _ _ _ H0) as [_ H]. destruct (H i Hi) as (H1 & _ & H2).
    eapply passed_out; [done|by rewrite H1|]. rewrite H2. by intros k ?%not_elem_of_nil.
  - intros h s x r _ _ IH _ _ _ _ _ i Hi. by apply passed_mono, IH.
  - intros h s x r _ _ IH Hx _ Hr Hst j Hj. destruct (stepped_in _ _ _ _ _ Hst Hj) as (i & u & Hi & Hm & Hg & _).
    destruct (sd_binding _ _ _ _ Hst) as (_ & _ & -> & _). eapply passed_core; [apply Hg|]. eapply moved_passed; eauto.
Qed.

(** C18: No Issue is delivered past a gate: behind every Issue the reducer calls
    delivered, whatever the sequence of admitted events and commands of its run,
    lie accepted events in this order: the claim, the launch of the worker, the
    completed result of that very invocation, the green required checks, a
    review that neither rejects nor blocks, the merge, the closure and the
    receipt; the last six at the one pull request and exact head the Issue was
    delivered with; and every kind of evidence the acceptance profile requires
    was itself reported by an accepted event of the Issue. *)
Theorem delivered_through_every_gate s0 h s i : started sha256_hex plan s0 -> runs sha256_hex plan s0 h s -> i ∈ dr_issues s ->
  ir_phase i = ph_delivered ->
  (exists l, sublist l (accepted (key_of i) h) /\ Forall2 (meets i) gates l)
  /\ forall k, k ∈ dr_required_evidence s -> exists a, a ∈ accepted (key_of i) h /\ ad_signal a = evidence_signal k.
Proof.
  intros H0 H Hi Hd. destruct (runs_passed _ _ _ H0 H i Hi) as [H1 H2 H3]. rewrite Hd in H1. split; [done|]. intros k Hk. by apply H2, H3.
Qed.
End Gates.
