(* ===== verification/DeliveryProps.v ===== *)
(** * Runs of the delivery reducer

    Every proposed effect is accounted for, a worker is proposed once, and waves
    open in order. *)
From S2P Require Import Prelude PyValue Sql DeliveryContracts DeliveryEvidence DeliveryReducer DeliverySteps DeliveryRuns DeliveryLedger DeliveryTotal DeliveryGates.
Open Scope Z_scope.

(** The reports of one effect, by its key. *)
Definition reports (key : string) (l : list AdmittedEvent) : list AdmittedEvent :=
  List.filter (fun a => is_report (ad_signal a)
    && match ad_effect a with Some e => String.eqb (ef_idempotency_key e) key | None => false end) l.

(** What an accepted cancellation reports. *)
Lemma terminate_obligations sha256_hex s c r : lc_command c = cmd_cancel \/ lc_command c = cmd_supersede ->
  reduce_lifecycle_command sha256_hex s c = Ok r -> rd_refusal r = None -> outstanding_effect_obligations s = Ok (rd_obligations r).
Proof.
  intros Hc H Hr. unfold reduce_lifecycle_command in H. cbv zeta in H. do 7 (destruct (_ : bool) in H at 1; [exfalso; by eapply refuse_not|]).
  destruct Hc as [Hc|Hc]; rewrite Hc in H; bound H as l El; by injection H as <-.
Qed.
(** An accepted report names an entry of its Issue's ledger. *)
Lemma accepted_authorized sha256_hex s a r e : reduce_delivery_run sha256_hex s a = Ok r -> rd_refusal r = None -> is_report (ad_signal a) = true ->
  ad_effect a = Some e -> exists i y, i ∈ dr_issues s /\ scope_key <$> ad_issue a = Some (key_of i) /\ y ∈ ir_ledger i
    /\ lg_key y = ef_idempotency_key e /\ lg_class y = ef_class e.
Proof.
  intros H Hr Hrep He. unfold reduce_delivery_run in H. cbv zeta in H. do 5 (destruct (_ : bool) in H at 1; [exfalso; by eapply refuse_not|]).
  destruct (ad_signal a); try done;
    (destruct (ad_issue a) as [issue|]; [|exfalso; by eapply refuse_not]); (destruct (issue_state s _) as [i|] eqn:Ei; [|exfalso; by eapply refuse_not]);
    (destruct (negb (tr_legal _)); [exfalso; by eapply refuse_not|]); rewrite He in H;
    (destruct (_is_authorized_effect i e) eqn:Ea; simpl in H; [|exfalso; by eapply refuse_not]);
    unfold _is_authorized_effect in Ea; apply existsb_exists in Ea as (y & Hy & Hb); bool_prop; apply list_elem_of_In in Hy;
    apply issue_state_in in Ei as [Hi Hk]; exists i, y; simpl; (split; [done|]); (split; [congruence|done]).
Qed.

Section Props.
Context (sha256_hex : string -> string) (plan : DeliveryPlan).
Abbreviation identity := (proposal_effect_identity sha256_hex).

Lemma stepped_out s x r i : stepped sha256_hex s x r -> i ∈ dr_issues s ->
  exists u j, j ∈ dr_issues (rd_state r) /\ moved sha256_hex s x (rd_effects r) i u /\ grown sha256_hex s (rd_effects r) u j /\ key_of j = key_of i.
Proof.
  intros [H _ _ _] Hi. apply list_elem_of_lookup in Hi as [n Hi]. destruct (Forall2_lookup_l _ _ _ _ _ H Hi) as (j & Hj & u & Hu & Hg).
  exists u, j. split; [by eapply list_elem_of_lookup_2|]. split; [done|]. split; [done|].
  rewrite (core_key _ _ (gr_core _ _ _ _ _ Hg)). by eapply moved_key.
Qed.
Lemma proposed_key s x p i : wf sha256_hex plan s -> i ∈ dr_issues s -> proposed sha256_hex s x p i -> scope_key (po_issue p) = key_of i.
Proof.
  intros W Hi Hp. destruct Hp as [i _ _ ->|a issue i u ps E1 E2 E3 E4 E5|c e i E1 E2 E3 E4 E5 E6]; [done| |].
  - by destruct (changes_proposals _ _ _ _ _ _ _ E4 E5) as (_ & -> & _).
  - by destruct (eo_proposal _ _ _ _ (io_entries _ _ _ _ (wf_each _ _ _ W i Hi) e E4) p E6) as (_ & H & _).
Qed.
Lemma moved_keys s x ps i u k : proper sha256_hex plan x -> moved sha256_hex s x ps i u -> k ∈ ledger_keys i -> k ∈ ledger_keys u.
Proof.
  intros Hx [ | | |a issue v -> Hai Hki Ha Hc| ] Hk; try done. apply admitted_vetted in Hx. unfold ledger_keys.
  destruct (changes_ledger sha256_hex plan _ _ _ _ _ Hx Hc) as [[-> _]|(e & o & _ & -> & _)]; [done|]. apply put_entry_keys. by right.
Qed.

(** ** Every proposal is in the ledger *)

Definition kept (s : DeliveryRunState) (p : EffectProposal) : Prop :=
  exists i id, i ∈ dr_issues s /\ key_of i = scope_key (po_issue p) /\ identity s p = Ok id /\ ei_key id ∈ ledger_keys i.
Lemma runs_kept s0 h s : started sha256_hex plan s0 -> runs sha256_hex plan s0 h s -> forall p, p ∈ proposals h -> kept s p.
Proof.
  intros H0. revert h s. refine (runs_ind_wf sha256_hex plan (fun h s => forall p, p ∈ proposals h -> kept s p) s0 H0 _ _ _).
  - by intros p ?%not_elem_of_nil.
  - intros h s x r _ _ IH _ _ _ He _ p. rewrite proposals_app, He, app_nil_r. apply IH.
  - intros h s x r _ W IH Hx _ _ Hst p. pose proof (sd_binding _ _ _ _ Hst) as Hb. rewrite proposals_app, elem_of_app. intros [Hp|Hp].
    + destruct (IH p Hp) as (i & id & Hi & Hk & Hid & Hin). destruct (stepped_out _ _ _ _ Hst Hi) as (u & j & Hj & Hm & Hg & Ek).
      exists j, id. split; [done|]. split; [congruence|]. split; [by rewrite (same_identity _ s)|]. by eapply gr_keys, moved_keys.
    + destruct (sd_proposed _ _ _ _ Hst p Hp) as (i & Hi & Hpr). destruct (proposed_total _ _ _ _ _ _ W Hi Hpr) as [id Hid].
      pose proof (proposed_key _ _ _ _ W Hi Hpr) as Hk. destruct (stepped_out _ _ _ _ Hst Hi) as (u & j & Hj & _ & _ & Ek).
      destruct (proj1 (Forall_forall _ _) (sd_ledgered _ _ _ _ Hst) p Hp id Hid) as (j' & Hj' & Hk' & Hin); [exists j; split; [done|congruence]|].
      exists j', id. split; [done|]. split; [done|]. split; [by rewrite (same_identity _ s)|done].
Qed.

(** ** Every entry goes back to a proposal, its outcome to the last report *)

Definition told (key : string * Z) (h : history) (e : EffectLedgerEntry) (o : EffectOutcomeState) : Prop :=
  exists a f w, last (reports (lg_key e) (accepted key h)) = Some a /\ ad_effect a = Some f /\ ef_idempotency_key f = lg_key e
    /\ ef_class f = lg_class e /\ ev_outcome (ad_event a) = Some w /\ oe_state w = o /\ (o = out_failed -> ad_signal a = sig_effect_failed).
Record traced (s : DeliveryRunState) (h : history) (i : IssueRunState) (e : EffectLedgerEntry) : Prop := {
  td_origin : exists p id, p ∈ proposals h /\ identity s p = Ok id /\ ei_key id = lg_key e /\ po_class p = lg_class e
    /\ scope_key (po_issue p) = key_of i;
  td_outcome : forall o, lg_outcome e = Some o -> told (key_of i) h e o }.

Lemma traced_binding s t h i j e : same_binding s t -> key_of j = key_of i -> traced s h i e -> traced t h j e.
Proof.
  intros Hb Hk [(p & id & H1 & H2 & H3) H4]. split; rewrite Hk; [|done]. exists p, id. split; [done|]. split; [|done].
  by rewrite (same_identity _ s).
Qed.
(** A step that does not report the effect. *)
Lemma traced_mono s h i e x r : (forall a, accepted_by (key_of i) (s, x, r) = Some a -> reports (lg_key e) [a] = []) ->
  traced s h i e -> traced s (h ++ [(s, x, r)]) i e.
Proof.
  intros Ha [(p & id & H1 & H2) H3]. split.
  - exists p, id. split; [|done]. rewrite proposals_app, elem_of_app. by left.
  - intros o Ho. destruct (H3 o Ho) as (b & f & w & Hl & Hr). exists b, f, w. split; [|done]. rewrite accepted_app. unfold reports in *. rewrite List.filter_app.
    assert (E : List.filter (fun a => is_report (ad_signal a) && match ad_effect a with Some e0 => String.eqb (ef_idempotency_key e0) (lg_key e) | None => false end)
      (accepted (key_of i) [(s, x, r)]) = []).
    { unfold accepted. cbn [omap list_omap]. destruct (accepted_by _ _) as [a|] eqn:E; [by apply Ha|done]. }
    by rewrite E, app_nil_r.
Qed.
Lemma unreported_none s x r i k : unreported x i -> forall a, accepted_by (key_of i) (s, x, r) = Some a -> reports k [a] = [].
Proof.
  intros Hu a H. destruct x as [b|c]; [|done]. simpl in H. destruct (_ && _) eqn:E; [|done]. injection H as ->. bool_prop.
  destruct Hu as [Hu|Hu]; [|done]. unfold reports. simpl. by rewrite Hu.
Qed.
Lemma moved_traced s h x r i u e : wf sha256_hex plan s -> i ∈ dr_issues s -> proper sha256_hex plan x -> rd_refusal r = None ->
  moved sha256_hex s x (rd_effects r) i u -> (forall e, e ∈ ir_ledger i -> traced s h i e) -> e ∈ ir_ledger u -> traced s (h ++ [(s, x, r)]) i e.
Proof.
  intros W Hi Hx Hr Hm IH He.
  assert (Hsame : (forall a, accepted_by (key_of i) (s, x, r) = Some a -> reports (lg_key e) [a] = []) -> e ∈ ir_ledger i ->
    traced s (h ++ [(s, x, r)]) i e) by (intros; apply traced_mono; auto).
  destruct Hm as [E0|E0 E1 E2|p reason E0 E1 E2|a issue u -> Hai Hki Hauth Hc|p reason E0 E1 E2];
    try (apply Hsame; [by apply unreported_none|exact He]).
  assert (Hacc : forall b, accepted_by (key_of i) (s, InEvent a, r) = Some b -> b = a) by (intros b Hb; simpl in Hb; destruct (_ && _); congruence).
  apply admitted_vetted in Hx. destruct (changes_ledger sha256_hex plan _ _ _ _ _ Hx Hc) as [[El Hn]|(f & o & Ho & El & Hrep & Hf)].
  - rewrite El in He. apply Hsame; [|done]. intros b ->%Hacc. unfold reports. simpl. by rewrite Hn.
  - rewrite El in He. destruct Ho as [H1 H2 H3 H4]. apply put_entry_elem in He as [->|[He Nk]].
    + split; cbn [lg_key lg_class lg_outcome committed_entry].
      * pose proof (Hauth f H1) as Ha. unfold _is_authorized_effect in Ha. apply existsb_exists in Ha as (y & Hy & Hb). bool_prop.
        apply list_elem_of_In in Hy. destruct (IH y Hy) as [(p & id & Hp & Hid & Hk & Hcl & Hs) _]. exists p, id.
        rewrite proposals_app, elem_of_app. repeat split; [by left|done|congruence|congruence|done].
      * intros w [= <-]. exists a, f, o. rewrite (accepted_now _ _ _ _ _ _ Hr Hai Hki). unfold reports. rewrite List.filter_app. simpl.
        rewrite Hrep, H1, String.eqb_refl. simpl. rewrite last_snoc. done.
    + apply Hsame; [|done]. intros b ->%Hacc. unfold reports. simpl. rewrite H1. simpl in Nk.
      rewrite (proj2 (String.eqb_neq _ _)) by congruence. by rewrite andb_false_r.
Qed.
Lemma runs_traced s0 h s : started sha256_hex plan s0 -> runs sha256_hex plan s0 h s ->
  forall i e, i ∈ dr_issues s -> e ∈ ir_ledger i -> traced s h i e.
Proof.
  intros H0. revert h s.
  refine (runs_ind_wf sha256_hex plan (fun h s => forall i e, i ∈ dr_issues s -> e ∈ ir_ledger i -> traced s h i e) s0 H0 _ _ _).
  - intros i e Hi He. destruct (initial_wf _ _ _ H0) as [_ H]. destruct (H i Hi) as (_ & H1 & _). rewrite H1 in He. by apply not_elem_of_nil in He.
  - intros h s x r _ _ IH _ _ _ _ [why Hr] i e Hi He. apply traced_mono; [|by apply IH]. intros a H. destruct x; [|done]. simpl in H. by rewrite Hr in H.
  - intros h s x r _ W IH Hx _ Hr Hst j e Hj He. destruct (stepped_in _ _ _ _ _ Hst Hj) as (i & u & Hi & Hm & Hg & Hk).
    eapply traced_binding; [by eapply sd_binding|exact Hk|]. destruct (gr_entries _ _ _ _ _ Hg e He) as [Hu|(p & id & Hp & Hid & -> & Hs)].
    + eapply moved_traced; eauto.
    + split; [|done]. exists p, id. rewrite proposals_app, elem_of_app. repeat split; [by right|done|]. rewrite Hs. by eapply moved_key.
Qed.

(** C19: A cancelled run accounts for everything it set in motion: when a cancel or
    supersede command is accepted, every effect the run ever proposed, in any of
    its steps, is among the reported obligations under its idempotency key,
    unless the last accepted report about that very effect is its failure and
    its class is one whose failure proves that nothing was committed. *)
Theorem cancellation_accounts_for_every_effect s0 h s c r p : started sha256_hex plan s0 -> runs sha256_hex plan s0 h s ->
  lc_command c = cmd_cancel \/ lc_command c = cmd_supersede -> step sha256_hex s (InCommand c) = Ok r -> rd_refusal r = None -> p ∈ proposals h ->
  exists id, identity s p = Ok id /\
    (ei_key id ∈ map ob_idempotency_key (rd_obligations r)
     \/ exists a e, last (reports (ei_key id) (accepted (scope_key (po_issue p)) h)) = Some a /\ ad_signal a = sig_effect_failed
          /\ ad_effect a = Some e /\ _FAILURE_PROVES_UNCOMMITTED (ef_class e) = true).
Proof.
  intros H0 H Hc Hs Hr Hp. destruct (runs_kept _ _ _ H0 H p Hp) as (i & id & Hi & Hk & Hid & Hin). exists id. split; [done|].
  apply list_elem_of_fmap in Hin as (e & -> & He). destruct (is_resolved_uncommitted e) eqn:Eu; [right|left].
  - unfold is_resolved_uncommitted in Eu. bool_prop. destruct (td_outcome _ _ _ _ (runs_traced _ _ _ H0 H i e Hi He) out_failed) as (a & f & w & Hl & Ha & Ek & Ec & _ & _ & Hf); [done|].
    exists a, f. rewrite <- Hk, Ec. auto.
  - eapply outstanding_keys; [|exact Hi|exact He|exact Eu]. by eapply terminate_obligations.
Qed.

(** Only the run's own effects count: whatever effect report a run accepts is
    about an effect the run itself proposed earlier, for that Issue, with that
    class and under that idempotency key. *)
Lemma accepted_reports_were_proposed s0 h s a r e : started sha256_hex plan s0 -> runs sha256_hex plan s0 h s ->
  step sha256_hex s (InEvent a) = Ok r -> rd_refusal r = None -> is_report (ad_signal a) = true -> ad_effect a = Some e ->
  exists p id, p ∈ proposals h /\ identity s p = Ok id /\ ei_key id = ef_idempotency_key e /\ po_class p = ef_class e
    /\ Some (scope_key (po_issue p)) = scope_key <$> ad_issue a.
Proof.
  intros H0 H Hs Hr Hrep He. destruct (accepted_authorized _ _ _ _ _ Hs Hr Hrep He) as (i & y & Hi & Hk & Hy & Eky & Ecy).
  destruct (td_origin _ _ _ _ (runs_traced _ _ _ H0 H i y Hi Hy)) as (p & id & Hp & Hid & E1 & E2 & E3). exists p, id.
  repeat split; congruence.
Qed.

(** ** Waves *)

Lemma min_wave_le l i : i ∈ l -> exists w, min_wave l = Some w /\ w <= ir_wave_index i.
Proof.
  unfold min_wave. induction l as [|x l IH]; [by intros ?%not_elem_of_nil|]. simpl. intros [->|H]%elem_of_cons.
  - destruct (foldr _ None l); eexists; (split; [done|]); lia.
  - destruct (IH H) as (w & -> & Hw). eexists. split; [done|]. lia.
Qed.
(** Below the open wave everything is delivered. *)
Lemma open_wave_least l i : i ∈ l -> ir_wave_index i < _open_wave_index l -> ir_phase i = ph_delivered.
Proof.
  intros Hi Hw. destruct (decide (ir_phase i = ph_delivered)) as [|N]; [done|]. exfalso. unfold _open_wave_index in Hw.
  destruct (min_wave_le (List.filter (fun i => negb (bool_decide (ir_phase i = ph_delivered))) l) i) as (w & E & Hle).
  - apply list_elem_of_In, filter_In. rewrite <- list_elem_of_In. split; [done|]. by rewrite bool_decide_false.
  - rewrite E in Hw. simpl in Hw. lia.
Qed.
Definition under_way (p : RunPhase) : bool := ACTIVE_PHASES p && negb (bool_decide (p = ph_admitted)).
Definition wave_done (s : DeliveryRunState) (w : Z) : Prop := forall j, j ∈ dr_issues s -> ir_wave_index j < w -> ir_phase j = ph_delivered.

Lemma changes_under required a i u ps : changes sha256_hex required a i u ps -> under_way (ir_phase u) = true \/ ps <> [] -> under_way (ir_phase i) = true.
Proof.
  intros Hc Hu. destruct Hc as [E1 E2|e E1 E2 E3|reason E1 E2|r pr head kinds E1 E2 E3 E4 E5 E6 E7 E8 E9|p next Ht Em|E1 E2 E3|reason E1 E2|review E1 E2 E3 E4 E5 E6
    |review finding ref E1 E2 E3 E4 E5 E6 E7 E8 hash|reason E1 E2 E3|E1 E2 E3 E4|e p reason kinds E1 E2 E3 E4 E5|reason E1 E2|o E1 E2 E3];
    try (by rewrite ?E1, ?E2, ?E3); try (by destruct Hu as [Hu|Hu]).
  - unfold target_steps in Ht. rewrite !elem_of_cons in Ht. by destruct Ht as [[= _ -> _ _]|[[= _ -> _ _]|[[= _ -> _ _]|[[= _ -> _ _]|[]%elem_of_nil]]]].
  - destruct Hu as [Hu|Hu]; [|done]. simpl in Hu. by destruct E4 as [->| ->].
Qed.
Lemma changes_delivered required a i u ps : changes sha256_hex required a i u ps -> ir_phase i <> ph_delivered.
Proof.
  intros Hc E. destruct Hc as [E1 E2|e E1 E2 E3|reason E1 E2|r pr head kinds E1 E2 E3 E4 E5 E6 E7 E8 E9|p next Ht Em|E1 E2 E3|reason E1 E2|review E1 E2 E3 E4 E5 E6
    |review finding ref E1 E2 E3 E4 E5 E6 E7 E8 hash|reason E1 E2 E3|E1 E2 E3 E4|e p reason kinds E1 E2 E3 E4 E5|reason E1 E2|o E1 E2 E3]; rewrite E in *; try done.
  unfold target_steps in Ht. rewrite !elem_of_cons in Ht. by destruct Ht as [?|[?|[?|[?|[]%elem_of_nil]]]].
Qed.
Lemma stepped_delivered s x r w : stepped sha256_hex s x r -> wave_done s w -> wave_done (rd_state r) w.
Proof.
  intros Hst Hw j Hj Hlt. destruct (stepped_in _ _ _ _ _ Hst Hj) as (i & u & Hi & Hm & Hg & _).
  destruct (core_fields _ _ (gr_core _ _ _ _ _ Hg)) as (_ & Ew & _ & Ep & _). destruct (moved_issue _ _ _ _ _ _ Hm) as [_ Ew'].
  assert (Hd : ir_phase i = ph_delivered) by (apply Hw; [done|lia]). rewrite Ep.
  destruct Hm as [ |E0 E1 E2|p reason E0 E1 E2|a issue u -> Hai Hki _ Hc|p reason E0 E1 E2]; try done; try (by rewrite Hd in *).
  by apply changes_delivered in Hc.
Qed.
Lemma proposed_under s x p i : proposed sha256_hex s x p i -> under_way (ir_phase i) = true \/ ir_wave_index i = _open_wave_index (dr_issues s).
Proof.
  intros Hp. destruct Hp as [i E1 E2 ->|a issue i u ps E1 E2 E3 E4 E5|c e i E1 E2 E3 E4 E5 E6]; [by right| |]; left.
  - eapply changes_under; [done|right]. intros ->. by apply not_elem_of_nil in E5.
  - unfold under_way. rewrite E1. simpl. by rewrite bool_decide_false.
Qed.
Lemma runs_waves s0 h s : started sha256_hex plan s0 -> runs sha256_hex plan s0 h s ->
  forall i, i ∈ dr_issues s -> under_way (ir_phase i) = true -> wave_done s (ir_wave_index i).
Proof.
  intros H0. revert h s.
  refine (runs_ind_wf sha256_hex plan (fun h s => forall i, i ∈ dr_issues s -> under_way (ir_phase i) = true -> wave_done s (ir_wave_index i)) s0 H0 _ _ _).
  - intros i Hi. destruct (initial_wf _ _ _ H0) as [_ H]. destruct (H i Hi) as (-> & _). done.
  - by intros h s x r _ _ IH _ _ _ _ _.
  - intros h s x r _ W IH Hx _ Hr Hst j Hj Hu. destruct (stepped_in _ _ _ _ _ Hst Hj) as (i & u & Hi & Hm & Hg & _).
    destruct (core_fields _ _ (gr_core _ _ _ _ _ Hg)) as (_ & Ew & _ & Ep & _). destruct (moved_issue _ _ _ _ _ _ Hm) as [_ Ew'].
    rewrite Ew, Ew'. rewrite Ep in Hu. eapply stepped_delivered; [done|].
    destruct Hm as [ |E0 E1 E2|p reason E0 E1 E2|a issue u -> Hai Hki _ Hc|p reason E0 E1 E2]; [by apply IH| | | |].
    + rewrite E2. intros k Hk. by apply open_wave_least.
    + by destruct E1 as [->|[->| ->]].
    + apply IH; [done|]. eapply changes_under; eauto.
    + by destruct E1 as [->| ->].
Qed.
Lemma wave_of_key i j : scope_key i = scope_key j -> wave_of plan i = wave_of plan j.
Proof. intros E. unfold wave_of. by rewrite E. Qed.

(** Waves open in order: whatever effect a step proposes for an Issue, every Issue of
    an earlier wave is already delivered. *)
Lemma earlier_waves_delivered s0 h s x r p j v w : started sha256_hex plan s0 -> runs sha256_hex plan s0 h s -> proper sha256_hex plan x ->
  step sha256_hex s x = Ok r -> p ∈ rd_effects r -> wave_of plan (po_issue p) = Some w ->
  j ∈ dr_issues s -> wave_of plan (ir_issue j) = Some v -> v < w -> ir_phase j = ph_delivered.
Proof.
  intros H0 H Hx Hs Hp Hw Hj Hv Hlt. pose proof (runs_wf _ _ _ _ _ H0 H) as W.
  destruct (step_cases _ _ _ _ (wf_issues _ _ _ W) Hs) as [(_ & E & _)|[_ Hst]]; [rewrite E in Hp; by apply not_elem_of_nil in Hp|].
  destruct (sd_proposed _ _ _ _ Hst p Hp) as (i & Hi & Hpr). pose proof (proposed_key _ _ _ _ W Hi Hpr) as Hk.
  pose proof (io_wave _ _ _ _ (wf_each _ _ _ W i Hi)) as Hwi. rewrite <- (wave_of_key (po_issue p)) in Hwi by exact Hk.
  pose proof (io_wave _ _ _ _ (wf_each _ _ _ W j Hj)) as Hwj. assert (Hd : ir_wave_index j < ir_wave_index i) by congruence.
  destruct (proposed_under _ _ _ _ Hpr) as [Hu|Ho]; [by eapply (runs_waves _ _ _ H0 H i Hi Hu)|]. eapply open_wave_least; [done|lia].
Qed.

(** ** Launches *)

Definition is_launch (key : string * Z) (p : EffectProposal) : bool :=
  bool_decide (po_class p = launch_worker) && bool_decide (scope_key (po_issue p) = key).
Definition launches (key : string * Z) (h : history) : list EffectProposal := List.filter (is_launch key) (proposals h).
Definition launched (p : RunPhase) : nat := match p with ph_admitted | ph_claiming => 0 | _ => 1 end.

Lemma event_one s a r p : NoDup (issue_keys (dr_issues s)) -> reduce_delivery_run sha256_hex s a = Ok r -> p ∈ rd_effects r ->
  po_class p = claim_issue \/ rd_effects r = [p].
Proof.
  intros Hn H Hp. destruct (event_stepped _ _ _ _ Hn H) as [(_ & E & _)|[Hr _]]; [rewrite E in Hp; by apply not_elem_of_nil in Hp|].
  assert (Heff : forall l ps, _advance sha256_hex s a l ps = Ok r -> rd_effects r = ps).
  { intros l ps Ha. unfold _advance in Ha. bound Ha as l' El. by injection Ha as <-. }
  unfold reduce_delivery_run in H. cbv zeta in H. do 5 (destruct (_ : bool) in H at 1; [exfalso; by eapply refuse_not|]).
  assert (Htick : _reduce_tick sha256_hex s a = Ok r -> po_class p = claim_issue).
  { unfold _reduce_tick, _open_due_claims. intros Ha%Heff. rewrite Ha in Hp. by apply list_elem_of_fmap in Hp as (i & -> & _). }
  assert (Hexc : _reduce_exception sha256_hex s a = Ok r -> False).
  { unfold _reduce_exception. destruct (ev_exception _); [|done]. intros Ha%Heff. rewrite Ha in Hp. by apply not_elem_of_nil in Hp. }
  assert (Hh : forall i, tr_legal (REDUCER_TRANSITION_MATRIX (ir_phase i) (ad_signal a)) = true -> _ISSUE_HANDLERS sha256_hex (ad_signal a) s a i = Ok r -> rd_effects r = [p]).
  { intros i Hl Hh. destruct (handler_changes _ _ _ _ _ Hl Hh Hr) as (u & ps & Hc & Ha%Heff). rewrite Ha in Hp |- *.
    by destruct (changes_proposals _ _ _ _ _ _ _ Hc Hp) as [E _]. }
  destruct (ad_signal a); try (left; by apply Htick); try (exfalso; by apply Hexc); right;
    (destruct (ad_issue a) as [issue|]; [|exfalso; by eapply refuse_not]); (destruct (issue_state s _) as [i|] eqn:Ei; [|exfalso; by eapply refuse_not]);
    (destruct (tr_legal _) eqn:El; simpl in H; [|exfalso; by eapply refuse_not]);
    (destruct (match ad_effect a with Some e => _ | None => _ end); [exfalso; by eapply refuse_not|]); by eapply Hh.
Qed.
Lemma changes_launched required a i u ps : changes sha256_hex required a i u ps -> (launched (ir_phase i) <= launched (ir_phase u))%nat
  /\ forall p, p ∈ ps -> po_class p = launch_worker -> ad_signal a = sig_claim_succeeded /\ ir_phase i = ph_claiming.
Proof.
  intros Hc. assert (H1 : forall p q : RunPhase, q <> ph_admitted -> q <> ph_claiming -> (launched p <= launched q)%nat) by (intros [] []; simpl; try done; lia).
  destruct Hc as [E1 E2|e E1 E2 E3|reason E1 E2|r pr head kinds E1 E2 E3 E4 E5 E6 E7 E8 E9|p next Ht Em|E1 E2 E3|reason E1 E2|review E1 E2 E3 E4 E5 E6
    |review finding ref E1 E2 E3 E4 E5 E6 E7 E8 hash|reason E1 E2 E3|E1 E2 E3 E4|e p reason kinds E1 E2 E3 E4 E5|reason E1 E2|o E1 E2 E3];
    try (split; [first [by apply H1|reflexivity]|]); try (by intros q ?%not_elem_of_nil); try (by intros q ->%list_elem_of_singleton).
  - assert (Hq : p <> ph_admitted /\ p <> ph_claiming /\ next <> launch_worker).
    { unfold target_steps in Ht. rewrite !elem_of_cons in Ht. by destruct Ht as [[= _ _ -> ->]|[[= _ _ -> ->]|[[= _ _ -> ->]|[[= _ _ -> ->]|[]%elem_of_nil]]]]. }
    destruct Hq as (Q1 & Q2 & Q3). split; [by apply H1|]. intros q ->%list_elem_of_singleton E. done.
  - split; [|by intros q ?%not_elem_of_nil]. apply H1; simpl; by destruct E4 as [->| ->].
Qed.
(** A launch is proposed when the claim of its Issue succeeds, and at no other time. *)
Lemma launch_proposed s x p i : wf sha256_hex plan s -> i ∈ dr_issues s -> proposed sha256_hex s x p i -> po_class p = launch_worker ->
  ir_phase i = ph_claiming /\ exists a, x = InEvent a /\ ad_signal a = sig_claim_succeeded /\ scope_key <$> ad_issue a = Some (key_of i).
Proof.
  intros W Hi Hp Hl. destruct Hp as [i E1 E2 ->|a issue i u ps -> E2 E3 E4 E5|c e i E1 E2 E3 E4 E5 E6]; [done| |].
  - destruct (proj2 (changes_launched _ _ _ _ _ E4) p E5 Hl) as [Es Ep]. split; [done|]. exists a. split; [done|]. split; [done|]. rewrite E2. exact (f_equal Some E3).
  - exfalso. destruct (eo_proposal _ _ _ _ (io_entries _ _ _ _ (wf_each _ _ _ W i Hi) e E4) p E6) as (H & _). rewrite Hl, E5 in H. rewrite <- H in E3. by destruct (ir_phase i).
Qed.
Lemma moved_launched s x ps i u : moved sha256_hex s x ps i u -> (launched (ir_phase i) <= launched (ir_phase u))%nat
  /\ forall a, x = InEvent a -> ad_signal a = sig_claim_succeeded -> scope_key <$> ad_issue a = Some (key_of i) -> ir_phase u = ph_launching.
Proof.
  intros Hm. assert (Hun : unreported x i -> forall a, x = InEvent a -> ad_signal a = sig_claim_succeeded -> scope_key <$> ad_issue a = Some (key_of i) -> ir_phase u = ph_launching).
  { intros Hu a -> Es Ek. exfalso. destruct Hu as [Hu|Hu]; [by rewrite Es in Hu|done]. }
  destruct Hm as [E0|E0 E1 E2|p reason E0 E1 E2|a issue u -> Hai Hki _ Hc|p reason E0 E1 E2]; (split; [|try by apply Hun]).
  - done.
  - by rewrite E1.
  - destruct E1 as [->|[->| ->]]; simpl; destruct (ir_phase i); simpl; lia.
  - by eapply changes_launched.
  - intros b [= <-] Es _. destruct Hc as [ | | | |p next Ht Em| | | | | | | | | ]; try congruence; [done|].
    exfalso. rewrite Es in Ht. unfold target_steps in Ht. rewrite !elem_of_cons in Ht. by destruct Ht as [?|[?|[?|[?|[]%elem_of_nil]]]].
  - destruct E1 as [->| ->]; simpl; destruct (ir_phase i); simpl; lia.
Qed.
Lemma step_launches s x r i u : wf sha256_hex plan s -> step sha256_hex s x = Ok r -> stepped sha256_hex s x r -> i ∈ dr_issues s ->
  moved sha256_hex s x (rd_effects r) i u ->
  (length (List.filter (is_launch (key_of i)) (rd_effects r)) + launched (ir_phase i) <= launched (ir_phase u))%nat.
Proof.
  intros W Hs Hst Hi Hm. destruct (moved_launched _ _ _ _ _ Hm) as [Hle Hcl].
  destruct (List.filter (is_launch (key_of i)) (rd_effects r)) as [|p l] eqn:Ef; [done|].
  assert (Hp : p ∈ rd_effects r /\ is_launch (key_of i) p = true).
  { rewrite list_elem_of_In, <- filter_In, Ef. by left. }
  destruct Hp as [Hp Hb]. unfold is_launch in Hb. bool_prop. destruct (sd_proposed _ _ _ _ Hst p Hp) as (i' & Hi' & Hpr).
  assert (i' = i) as -> by (eapply nodup_issue; [apply W|done|done|]; rewrite <- (proposed_key _ _ _ _ W Hi' Hpr); done).
  destruct (launch_proposed _ _ _ _ W Hi Hpr) as (Ep & a & -> & Es & Ek); [done|]. rewrite (Hcl a eq_refl Es Ek), Ep.
  destruct (event_one s a r p (wf_issues _ _ _ W) Hs Hp) as [E|E]; [congruence|]. rewrite E in Ef.
  pose proof (filter_le (is_launch (key_of i)) [p]) as Hf. rewrite Ef in Hf. simpl in *. lia.
Qed.
Lemma runs_launches s0 h s : started sha256_hex plan s0 -> runs sha256_hex plan s0 h s ->
  forall i, i ∈ dr_issues s -> (length (launches (key_of i) h) <= launched (ir_phase i))%nat.
Proof.
  intros H0. revert h s.
  refine (runs_ind_wf sha256_hex plan (fun h s => forall i, i ∈ dr_issues s -> (length (launches (key_of i) h) <= launched (ir_phase i))%nat) s0 H0 _ _ _).
  - intros i _. simpl. lia.
  - intros h s x r _ _ IH _ _ _ He _ i Hi. unfold launches. rewrite proposals_app, He, app_nil_r. by apply IH.
  - intros h s x r _ W IH Hx Hs Hr Hst j Hj. destruct (stepped_in _ _ _ _ _ Hst Hj) as (i & u & Hi & Hm & Hg & ->).
    destruct (core_fields _ _ (gr_core _ _ _ _ _ Hg)) as (_ & _ & _ & -> & _). pose proof (step_launches _ _ _ _ _ W Hs Hst Hi Hm) as H1.
    pose proof (IH i Hi) as H2. unfold launches in *. rewrite proposals_app, List.filter_app, length_app. lia.
Qed.

(** C21: A worker is launched once: over a whole run the reducer proposes at most
    one launch of a worker for an Issue, however often events are delivered, and
    whatever pauses, resumes and re-read authorities lie between. *)
Theorem one_launch_per_issue s0 h s key : started sha256_hex plan s0 -> runs sha256_hex plan s0 h s -> (length (launches key h) <= 1)%nat.
Proof.
  intros H0 H. destruct (launches key h) as [|p l] eqn:E; [simpl; lia|].
  assert (Hp : p ∈ proposals h /\ is_launch key p = true) by (rewrite list_elem_of_In, <- filter_In; fold (launches key h); rewrite E; by left).
  destruct Hp as [Hp Hb]. unfold is_launch in Hb. bool_prop. destruct (runs_kept _ _ _ H0 H p Hp) as (i & _ & Hi & Hk & _).
  pose proof (runs_launches _ _ _ H0 H i Hi) as Hl. replace (key_of i) with key in Hl by congruence. rewrite E in Hl.
  destruct (ir_phase i); simpl in *; lia.
Qed.

(** A failure report about checks the Issue already passed, at its own pull
    request and head, is not refused: it blocks the Issue, in any active phase. *)
Lemma late_failure_blocks s a i e r : i ∈ dr_issues s -> NoDup (issue_keys (dr_issues s)) -> ad_effect a = Some e -> ef_class e = await_ci ->
  _authorized_target_matches i a = true -> ir_phase i <> ph_awaiting_ci -> _reduce_effect_failed sha256_hex s a i = Ok r ->
  rd_refusal r = None /\ exists j, j ∈ dr_issues (rd_state r) /\ key_of j = key_of i /\ ir_phase j = ph_blocked.
Proof.
  intros Hi Hn He Hc Ht Hp H. unfold _reduce_effect_failed in H. rewrite He, Hc, Ht, andb_false_r in H.
  rewrite (bool_decide_false (ir_phase i = ph_awaiting_ci)), orb_true_r in H by done. split; [by eapply advance_accepted|].
  unfold _advance in H. simpl in H. injection H as <-. cbn [rd_state dr_issues with_issues]. eexists. split; [|split].
  - unfold _replace_issue. apply list_elem_of_fmap. exists i. split; [|done]. by rewrite bool_decide_true.
  - done.
  - done.
Qed.
End Props.
