(* ===== verification/DeliveryPlanProps.v ===== *)
(** * What a compiled delivery plan guarantees

    The Issues of a compiled plan passed every check, their unsatisfied
    dependencies are planned in earlier waves, no two of them touch overlapping
    paths, and no proposed effect of a run of the plan overtakes a dependency. *)
From Stdlib Require Import Sorted.
From stdpp Require Import relations.
From S2P Require Import Prelude PyValue Sql DeliveryContracts DeliveryApproval DeliveryCompiler DeliveryGraph DeliveryScreen DeliveryReducer DeliverySteps DeliveryRuns DeliveryLedger DeliveryProps.
Open Scope Z_scope.

(** ** Overlapping paths *)

Lemma paths_overlap_sym a b : _paths_overlap a b = _paths_overlap b a.
Proof.
  unfold _paths_overlap. rewrite orb_comm. destruct (_ || _); [done|]. rewrite (String.eqb_sym b a).
  by rewrite <- !orb_assoc, (orb_comm (startswith (b +:+ "/") a)).
Qed.
Lemma overlaps_sym f g : overlaps f g = overlaps g f.
Proof.
  assert (H : forall f g, overlaps f g = true -> overlaps g f = true); [|apply eq_true_iff_eq; split; apply H].
  intros a b. unfold overlaps. rewrite !existsb_elem. intros (x & Hx & H). apply existsb_elem in H as (y & Hy & H).
  exists y. split; [done|]. apply existsb_elem. exists x. by rewrite paths_overlap_sym.
Qed.
Lemma refuse_pair_grows f m g : refusals_grow m (refuse_pair f m g).
Proof. unfold refuse_pair. destruct (overlaps f g); [|done]. etrans; apply grows_refuse. Qed.
Lemma refuse_pairs f l : forall m g, g ∈ l -> overlaps f g = true ->
  has_refusal (foldl (refuse_pair f) m l) (scope_key (pf_issue f)) /\ has_refusal (foldl (refuse_pair f) m l) (scope_key (pf_issue g)).
Proof.
  induction l as [|x l IH]; intros m g; [by intros ?%not_elem_of_nil|]. intros [->|Hg]%elem_of_cons Ho; cbn [foldl]; [|by apply IH].
  pose proof (grows_foldl (refuse_pair f) l (refuse_pair_grows f) (refuse_pair f m x)) as Hgr. unfold refuse_pair in *. rewrite Ho in *.
  split; apply (grows_has _ _ _ Hgr); rewrite !has_refuse; [|by rewrite bool_decide_true].
  rewrite (bool_decide_true (scope_key (pf_issue f) = scope_key (pf_issue f))) by done. apply orb_true_r.
Qed.
Lemma refuse_overlaps_spec l : forall m, refusals_grow m (refuse_overlaps l m) /\
  forall f g, f ∈ l -> g ∈ l -> pf_issue f <> pf_issue g -> overlaps f g = true -> has_refusal (refuse_overlaps l m) (scope_key (pf_issue f)).
Proof.
  induction l as [|x l IH]; intros m; cbn [refuse_overlaps]; [split; [done|]; by intros f g ?%not_elem_of_nil|].
  destruct (IH (foldl (refuse_pair x) m l)) as [Hg Hr]. split; [etrans; [|exact Hg]; apply grows_foldl, refuse_pair_grows|].
  intros f g [->|Hf]%elem_of_cons [->|Hg']%elem_of_cons Hne Ho; [done| | |by eapply Hr]; apply (grows_has _ _ _ Hg).
  - exact (proj1 (refuse_pairs x l m g Hg' Ho)).
  - rewrite overlaps_sym in Ho. exact (proj2 (refuse_pairs x l m f Hf Ho)).
Qed.

(** ** The screen *)

Section Plan.
Context (sha256_hex : string -> string) (is_resolvable_verify_target is_durable_repo_anchor : string -> bool).
Context (i : DeliveryInitiation) (s : DeliveryPlanningSnapshot).
Abbreviation approved := (di_requested_scope i).
Abbreviation screened_ok := (screened is_resolvable_verify_target is_durable_repo_anchor i s).
Abbreviation fit := (executable is_resolvable_verify_target is_durable_repo_anchor i s).

Lemma unrefused_elem accepted m k f : (k, f) ∈ unrefused accepted m <-> (k, f) ∈ accepted /\ _issue_has_refusal k m = false.
Proof. unfold unrefused. by rewrite filter_elem, negb_true_iff. Qed.
Lemma scope_find_known l x : x ∈ l -> exists y, scope_find l (scope_key x) = Some y /\ scope_key y = scope_key x.
Proof.
  intros Hx. unfold scope_find. destruct (List.find _ l) as [y|] eqn:E.
  - exists y. split; [done|]. apply find_some in E as [_ E]. by apply bool_decide_eq_true in E.
  - apply list_elem_of_In in Hx. apply (find_none _ _ E) in Hx. by apply bool_decide_eq_false in Hx.
Qed.
Lemma refuse_keys_spec code detail keys : forall m, refusals_grow m (refuse_keys i code detail keys m) /\
  forall x, x ∈ approved -> scope_key x ∈ keys -> has_refusal (refuse_keys i code detail keys m) (scope_key x).
Proof.
  assert (Hg : forall m k, refusals_grow m (match scope_find approved k with Some issue => add_refusal issue code detail [] m | None => m end)).
  { intros m k. destruct (scope_find approved k); [apply grows_refuse|done]. }
  unfold refuse_keys. induction keys as [|k keys IH]; intros m; cbn [foldl]; [split; [done|]; by intros x _ ?%not_elem_of_nil|].
  edestruct IH as [H1 H2]. split; [etrans; [apply Hg|exact H1]|]. intros x Hx [<-|Hk]%elem_of_cons; [|by apply H2].
  apply (grows_has _ _ _ H1). destruct (scope_find_known _ _ Hx) as (y & -> & E). rewrite has_refuse, bool_decide_true; done.
Qed.
Lemma screened_grows m m' accepted : refusals_grow m m' -> screened_ok (m, accepted) -> screened_ok (m', accepted).
Proof.
  intros Hg [Hn H]. split; [done|]. intros k f Hin. destruct (H k f Hin) as [? Hx]. split; [done|]. intros Hu.
  by apply Hx, (unrefused_grows _ _ _ Hg).
Qed.
Lemma screened_keyed st : screened_ok st -> keyed_facts (snd st).
Proof. intros [_ H] [k f] Hin. apply (H k f Hin). Qed.

(** The graph of the facts left has no cycle once the cycles of a larger set are refused. *)
Lemma edges_mono (small large : facts_dict) a b : NoDup (map fst large) -> small ⊆ large ->
  b ∈ edges small (map fst small) a -> b ∈ edges large (map fst large) a.
Proof.
  intros Hn Hsub. unfold edges. destruct (od_get small a) as [f|] eqn:E; [|by intros ?%not_elem_of_nil].
  rewrite (od_get_unique large a f Hn) by (by apply Hsub, od_get_elem). rewrite !filter_elem, !bool_decide_eq_true. intros [Hb Hk]. split; [done|].
  apply list_elem_of_fmap in Hk as (kf & -> & Hk). apply list_elem_of_fmap_2. auto.
Qed.
Record screen_result (m : refusal_map) (accepted : facts_dict) : Prop := {
  sc_grown : refusals_grow [] m;
  sc_screened : screened_ok (m, accepted);
  sc_answered : forall x, x ∈ approved -> has_refusal m (scope_key x) \/ scope_key x ∈ map fst accepted;
  sc_closed : refusals_closed approved accepted m;
  sc_acyclic : forall k, ~ tc (fun a b => b ∈ edges (unrefused accepted m) (map fst (unrefused accepted m)) a) k k;
  sc_disjoint : forall k f l g, (k, f) ∈ unrefused accepted m -> (l, g) ∈ unrefused accepted m -> k <> l -> overlaps f g = false }.
Lemma unrefused_sub accepted m m' : refusals_grow m m' -> unrefused accepted m' ⊆ unrefused accepted m.
Proof. intros Hg [k f]. rewrite !unrefused_elem. intros [? ?]. split; [done|]. by apply (unrefused_grows _ _ _ Hg). Qed.
Lemma unrefused_unique accepted m : NoDup (map fst accepted) -> NoDup (map fst (unrefused accepted m)).
Proof. apply NoDup_map_filter. Qed.
Lemma left_acyclic accepted m m' : screened_ok (m', accepted) -> refusals_grow m m' ->
  (forall x, x ∈ approved -> scope_key x ∈ _dependency_cycle_keys (unrefused accepted m) (map fst (unrefused accepted m)) ->
    has_refusal m' (scope_key x)) ->
  forall k, ~ tc (fun a b => b ∈ edges (unrefused accepted m') (map fst (unrefused accepted m')) a) k k.
Proof.
  intros [Hn Hj] Hg Hc k Ht. pose proof (unrefused_sub accepted m m' Hg) as Hsub. cbn [fst snd] in *.
  pose proof (tc_known _ _ _ Ht) as Hin. apply list_elem_of_fmap in Hin as ([k' f] & -> & Hin). cbn [fst] in *.
  pose proof (proj1 (unrefused_elem _ _ _ _) Hin) as [Ha Hu]. apply not_true_iff_false in Hu. apply Hu.
  destruct (Hj _ _ Ha) as [[Hreq Hkey _ _ _ _] _]. rewrite <- Hkey in *. apply Hc; [done|]. unfold _dependency_cycle_keys.
  apply order_by_elem, filter_elem. split.
  - apply list_elem_of_fmap. exists (scope_key (pf_issue f), f). split; [done|]. by apply Hsub.
  - apply search_decides. revert Ht. apply (tc_congruence id). intros a b. apply edges_mono; [by apply unrefused_unique|done].
Qed.
Abbreviation screen_plan := (screen is_resolvable_verify_target is_durable_repo_anchor i s).
Lemma screen_spec : screen_result (fst screen_plan) (snd screen_plan).
Proof.
  unfold screen. destruct (judge_loop is_resolvable_verify_target is_durable_repo_anchor i s approved (fun x H => H) (refuse_outside i s, []))
    as [Hj G0]; [split; [constructor|]; by intros k f ?%not_elem_of_nil|].
  assert (Gz : refusals_grow [] (refuse_outside i s)) by (apply grows_foldl; intros; apply grows_refuse).
  pose proof (fun x H => judge_loop_answers is_resolvable_verify_target is_durable_repo_anchor i s approved (refuse_outside i s, []) x (or_intror H)) as Han.
  unfold answered in Han. destruct (foldl _ _ _) as [m0 accepted]. cbn [fst snd] in *. pose proof (screened_keyed _ Hj) as Hk. cbn [snd] in Hk.
  destruct (propagate_dependencies_spec approved accepted m0 Hk) as [G1 _]. set (m1 := _propagate_dependency_refusals _ _ m0) in *.
  set (cycles := _dependency_cycle_keys _ _). destruct (refuse_keys_spec rc_dependency_cycle cycle_detail cycles m1) as [G2 Hc].
  set (m2 := refuse_keys _ _ _ _ m1) in *.
  destruct (propagate_dependencies_spec approved accepted m2 Hk) as [G3 _]. set (m3 := _propagate_dependency_refusals _ _ m2) in *.
  unfold _refuse_mutation_overlap. set (peers := order_by fact_leb _).
  destruct (refuse_overlaps_spec peers m3) as [G4 Ho]. set (m4 := refuse_overlaps peers m3) in *.
  destruct (propagate_dependencies_spec approved accepted m4 Hk) as [G5 Hcl]. set (m5 := _propagate_dependency_refusals _ _ m4) in *.
  assert (G45 : refusals_grow m3 m5) by (by etrans). assert (G25 : refusals_grow m2 m5) by (by etrans). assert (G15 : refusals_grow m1 m5) by (by etrans).
  pose proof (screened_grows _ _ _ (transitivity G1 G15) Hj) as Hj5. split; [by etrans; [|exact G15]; etrans; [|exact G1]; etrans|done| |done| |].
  - intros x [H|H]%Han; [left; by apply (grows_has _ _ _ G15), (grows_has _ _ _ G1)|by right].
  - apply (left_acyclic accepted m1); [done..|]. intros x Hx Hxc. by apply (grows_has _ _ _ G25), Hc.
  - intros k f l g Hf Hg Hne. destruct (overlaps f g) eqn:E; [|done]. exfalso.
    assert (Hpeer : forall k f, (k, f) ∈ unrefused accepted m5 -> f ∈ peers).
    { intros k' f' H. apply order_by_elem, list_elem_of_fmap. exists (k', f'). split; [done|]. by apply (unrefused_sub _ _ _ G45). }
    apply unrefused_elem in Hf as Hf'. destruct Hf' as [Ha Hu]. apply unrefused_elem in Hg as Hg'. destruct Hg' as [Hb _].
    pose proof (Hk _ Ha) as Ekf. pose proof (Hk _ Hb) as Ekg. cbn [fst snd] in *.
    apply not_true_iff_false in Hu. apply Hu. rewrite <- Ekf. apply (grows_has _ _ _ G5), (Ho f g); [by eapply Hpeer..| |done]. congruence.
Qed.

(** ** The schedule *)

Lemma refuse_all code detail (l : facts_dict) m kf : kf ∈ l ->
  has_refusal (foldl (fun m kf => add_refusal (pf_issue (snd kf)) code detail [] m) m l) (scope_key (pf_issue (snd kf))).
Proof.
  revert m. induction l as [|x l IH]; intros m; [by intros ?%not_elem_of_nil|]. intros [->|H]%elem_of_cons; cbn [foldl]; [|by apply IH].
  eapply grows_has; [apply grows_foldl; intros; apply grows_refuse|]. by rewrite has_refuse, bool_decide_true.
Qed.

Abbreviation parallel := (db_max_parallel_workers (di_budget i)).
Abbreviation over E := (db_max_worker_starts (di_budget i) <? Z.of_nat (length E)).
Lemma schedule_spec m accepted : screen_result m accepted -> 0 < parallel ->
  if over (unrefused accepted m) then exists m', schedule_waves i m accepted = (m', [], []) /\ refusals_grow m m'
       /\ forall k f, (k, f) ∈ unrefused accepted m -> has_refusal m' k
  else exists ws, schedule_waves i m accepted = (m, unrefused accepted m, numbered_waves ws)
       /\ wave_inv (unrefused accepted m) (Z.to_nat parallel) (map fst (unrefused accepted m)) ws.
Proof.
  intros [_ Hj _ Hcl Hac _] Hpar. assert (Hk : keyed_facts (unrefused accepted m)).
  { intros [k f] [Hin _]%unrefused_elem. by apply (screened_keyed _ Hj (k, f)). }
  unfold schedule_waves. destruct (over (unrefused accepted m)).
  { eexists. split; [reflexivity|]. cbn [refuse_keys foldl]. split; [apply grows_foldl; intros; apply grows_refuse|]. intros k f.
    pose proof (Hk (k, f)) as Hkf. cbn [fst snd] in Hkf. intros Hin. rewrite <- (Hkf Hin). by apply (refuse_all _ _ _ _ (k, f)). }
  destruct (build_waves_spec (unrefused accepted m) (Z.to_nat parallel) Hk ltac:(lia) (length (unrefused accepted m)) Hac
    (map fst (unrefused accepted m)) [] []) as (ws & E & Hw).
  - by rewrite length_map.
  - done.
  - split; [done|by intros w ?%not_elem_of_nil..|by intros n w x d ?].
  - exists ws. unfold _build_dependency_waves. rewrite E. cbn [refuse_keys foldl]. by rewrite bool_decide_true.
Qed.

(** ** Compiled plans *)

Abbreviation compile := (compile_delivery_plan sha256_hex is_resolvable_verify_target is_durable_repo_anchor i s).
(** The facts of a compiled plan and their waves. *)
Record compiled (p : DeliveryPlan) (facts : facts_dict) (ws : list (list IssueScope)) : Prop := {
  cd_facts : exists m accepted, screen_result m accepted /\ facts = unrefused accepted m;
  cd_waves : wave_inv facts (Z.to_nat parallel) (map fst facts) ws;
  cd_scope : dp_final_scope p = order_by issue_leb (map pf_issue (map snd facts));
  cd_plan_waves : dp_waves p = numbered_waves ws;
  cd_valid : _validate_plan p = Ok tt;
  cd_evidence : validate_delivery_plan_evidence sha256_hex p i = Ok tt }.
(** What an answer of the compiler is: a plan of the facts left, or none and every fact refused. *)
Lemma compile_cases c : 0 < parallel -> compile = Ok c -> exists m accepted m',
  screen_result m accepted /\ refusals_grow m m' /\ cm_refusals c = order_by refusal_leb (map snd m') /\
  ((cm_plan c = None /\ forall k f, (k, f) ∈ unrefused accepted m -> has_refusal m' k)
   \/ exists p ws, m' = m /\ cm_plan c = Some p /\ compiled p (unrefused accepted m) ws).
Proof.
  intros Hpar H. unfold compile_delivery_plan in H. pose proof screen_spec as Hsc. destruct screen_plan as [m accepted]. cbn [fst snd] in Hsc.
  pose proof (schedule_spec m accepted Hsc Hpar) as Hs. destruct (over (unrefused accepted m)).
  - destruct Hs as (m' & E & Hg & Hall). rewrite E in H. rewrite bool_decide_true in H by done. cbn [mbind res_bind] in H. bound H as u Eu.
    injection H as <-. exists m, accepted, m'. repeat (split; [done|]). left. split; [done|exact Hall].
  - destruct Hs as (ws & E & Hw). rewrite E in H. bound H as o Eo. bound H as u3 E3. injection H as <-. exists m, accepted, m.
    repeat (split; [done|]). case_bool_decide as He.
    + injection Eo as <-. left. split; [done|]. rewrite He. by intros k f ?%not_elem_of_nil.
    + bound Eo as u1 E1. bound Eo as u2 E2. injection Eo as <-. destruct u1, u2. right. eexists _, ws. repeat (split; [done|]). split; eauto.
Qed.
Lemma compile_compiled c p : 0 < parallel -> compile = Ok c -> cm_plan c = Some p -> exists facts ws, compiled p facts ws.
Proof. intros Hpar H Hp. destruct (compile_cases c Hpar H) as (m & accepted & m' & _ & _ & _ & [[E _]|(q & ws & _ & E & C)]); naive_solver. Qed.

Lemma compiled_fact p facts ws x : compiled p facts ws -> x ∈ dp_final_scope p ->
  exists f, (scope_key x, f) ∈ facts /\ pf_issue f = x /\ candidate i s (scope_key x) f /\ fit f.
Proof.
  intros [(m & accepted & [_ Hj _ _ _ _] & ->) _ -> _ _ _] Hx. rewrite order_by_elem in Hx.
  apply list_elem_of_fmap in Hx as (f & -> & Hf). apply list_elem_of_fmap in Hf as ([k g] & -> & Hf). cbn [snd].
  pose proof (proj1 (unrefused_elem _ _ _ _) Hf) as [Ha Hu]. destruct (proj2 Hj k g Ha) as [Hc He]. destruct (ca_key _ _ _ _ Hc).
  exists g. auto.
Qed.
Lemma compiled_scope p facts ws k f : compiled p facts ws -> (k, f) ∈ facts -> pf_issue f ∈ dp_final_scope p.
Proof.
  intros C Hf. rewrite (cd_scope _ _ _ C), order_by_elem. apply list_elem_of_fmap_2, (list_elem_of_fmap_2 snd _ _ Hf).
Qed.
(** A planned Issue is the approved one of its key. *)
Lemma evidence_approved p x : validate_delivery_plan_evidence sha256_hex p i = Ok tt -> x ∈ dp_final_scope p ->
  scope_find approved (scope_key x) = Some x.
Proof.
  unfold validate_delivery_plan_evidence. intros H Hx. bound H as u1 E1. bound H as u2 E2. bound H as u3 E3. clear H.
  unfold reject in E3. destruct (forallb _ _) eqn:F; [|done]. rewrite forallb_elem in F. by apply (bool_decide_eq_true_1 _ (F x Hx)).
Qed.
(** An unsatisfied dependency of a planned Issue is planned too. *)
Lemma compiled_dependency p facts ws k f d : compiled p facts ws -> (k, f) ∈ facts -> d ∈ pf_dependencies f -> dd_satisfied d = false ->
  dd_issue d ∈ dp_final_scope p /\ scope_key (dd_issue d) ∈ edges facts (map fst facts) k.
Proof.
  intros C Hf Hd Hs. destruct (cd_facts _ _ _ C) as (m & accepted & [_ Hj Han Hcl _ _] & Efacts).
  assert (Hf' := Hf). rewrite Efacts in Hf'. apply unrefused_elem in Hf' as [Ha Hu]. destruct (proj2 Hj k f Ha) as [_ He].
  destruct (proj2 (ex_dependencies _ _ _ _ _ (He Hu)) d Hd) as [Hap Hsat]. rewrite Hs in Hsat. destruct Hsat as [a Ea].
  assert (Hopen : dd_issue d ∈ open_deps f).
  { apply list_elem_of_fmap. exists d. split; [done|]. apply filter_elem. by rewrite Hs. }
  assert (Hin : dd_issue d ∈ approved).
  { rewrite (Hap a Ea). apply find_some in Ea as [Ea _]. by apply list_elem_of_In. }
  assert (Hkey : scope_key (dd_issue d) ∈ map scope_key approved) by (by apply list_elem_of_fmap_2).
  pose proof (Hcl k f Ha Hu _ Hopen Hkey) as Hdu. destruct (Han _ Hin) as [H|H]; [by rewrite H in Hdu|].
  apply list_elem_of_fmap in H as ([k' g] & Ek & Hg). cbn [fst] in Ek. subst k'.
  assert (Hgf : (scope_key (dd_issue d), g) ∈ facts) by (rewrite Efacts; by apply unrefused_elem).
  pose proof (compiled_scope _ _ _ _ _ C Hgf) as Hsc. pose proof (ca_key _ _ _ _ (proj1 (proj2 Hj _ _ Hg))) as Hkg.
  pose proof (evidence_approved _ _ (cd_evidence _ _ _ C) Hsc) as Eg. rewrite Hkg in Eg. split; [by rewrite (Hap _ Eg)|].
  unfold edges. rewrite (od_get_unique facts k f); [|rewrite Efacts; apply unrefused_unique, Hj|done].
  rewrite filter_elem, bool_decide_eq_true. split; [by apply list_elem_of_fmap_2|].
  apply (list_elem_of_fmap_2 fst _ _ Hgf).
Qed.

(** The index of an Issue in numbered waves. *)
Lemma no_wave ws k key : key ∉ map scope_key (concat ws) ->
  List.filter (fun w => existsb (fun j => bool_decide (scope_key j = key)) (dw_issues w))
    (zip_with (fun n w => mkWave (Z.of_nat n) w) (seq k (length ws)) ws) = [].
Proof.
  revert k. induction ws as [|w ws IH]; intros k H; simpl; [done|]. simpl in H. rewrite map_app, elem_of_app in H.
  destruct (existsb _ w) eqn:E; [|apply IH; tauto]. exfalso. apply H. left. apply existsb_elem in E as (j & Hj & <-%bool_decide_eq_true_1).
  by apply list_elem_of_fmap_2.
Qed.
Lemma the_wave ws : forall k n w key, NoDup (map scope_key (concat ws)) -> ws !! n = Some w -> key ∈ map scope_key w ->
  List.filter (fun w => existsb (fun j => bool_decide (scope_key j = key)) (dw_issues w))
    (zip_with (fun n w => mkWave (Z.of_nat n) w) (seq k (length ws)) ws) = [mkWave (Z.of_nat (k + n)) w].
Proof.
  induction ws as [|v ws IH]; intros k n w key Hn Hw Hk; [done|]. cbn [length seq zip_with List.filter dw_issues]. cbn [concat] in Hn.
  rewrite map_app in Hn. apply NoDup_app in Hn as (_ & Hd & Hn). destruct n as [|n]; simpl in Hw.
  - injection Hw as ->. rewrite Nat.add_0_r. apply list_elem_of_fmap in Hk as Hk'. destruct Hk' as (j & Ej & Hj). replace (existsb _ w) with true.
    + by rewrite no_wave by (by apply Hd).
    + symmetry. apply existsb_elem. exists j. by rewrite bool_decide_true.
  - replace (existsb _ v) with false.
    + rewrite (IH (S k) n w key Hn Hw Hk). do 2 f_equal. lia.
    + symmetry. apply not_true_iff_false. rewrite existsb_elem. intros (j & Hj & <-%bool_decide_eq_true_1).
      apply (Hd (scope_key j)); [by apply list_elem_of_fmap_2|]. apply list_elem_of_fmap in Hk as (x & -> & Hx).
      apply list_elem_of_fmap_2, list_elem_of_In, in_concat. exists w. rewrite <- !list_elem_of_In. split; [by eapply list_elem_of_lookup_2|done].
Qed.
Lemma compiled_wave p facts ws n w x : compiled p facts ws -> ws !! n = Some w -> scope_key x ∈ map scope_key w -> wave_of p x = Some (Z.of_nat n).
Proof.
  intros C Hw Hx. unfold wave_of. rewrite (cd_plan_waves _ _ _ C). unfold numbered_waves. rewrite (the_wave ws 0 n w); [done| |done..].
  rewrite (wi_covers _ _ _ _ (cd_waves _ _ _ C)). destruct (cd_facts _ _ _ C) as (m & accepted & Hs & ->).
  apply unrefused_unique, (sc_screened _ _ Hs).
Qed.
Lemma compiled_order p facts ws x f d : compiled p facts ws -> (scope_key x, f) ∈ facts -> d ∈ pf_dependencies f -> dd_satisfied d = false ->
  exists v w, wave_of p (dd_issue d) = Some v /\ wave_of p x = Some w /\ v < w.
Proof.
  intros C Hf Hd Hs. destruct (compiled_dependency _ _ _ _ _ _ C Hf Hd Hs) as [_ He]. pose proof (cd_waves _ _ _ C) as W.
  assert (Hx : scope_key x ∈ map scope_key (concat ws)).
  { rewrite (wi_covers _ _ _ _ W). apply (list_elem_of_fmap_2 fst _ _ Hf). }
  apply list_elem_of_fmap in Hx as (y & Ey & Hy). apply list_elem_of_In, in_concat in Hy as (w & Hw & Hy).
  apply list_elem_of_In in Hw, Hy. apply list_elem_of_lookup_1 in Hw as [n Hn]. rewrite Ey in He.
  destruct (wi_order _ _ _ _ W n w y _ Hn Hy He) as (v & w' & Hlt & Hv & Hdk).
  exists (Z.of_nat v), (Z.of_nat n). split; [by apply (compiled_wave _ _ _ _ _ _ C Hv)|]. split; [|lia].
  apply (compiled_wave _ _ _ _ _ _ C Hn). rewrite Ey. by apply list_elem_of_fmap_2.
Qed.

(** C23: A compiled plan is executable as it stands: each Issue it schedules was
    approved and not excluded, is described by exactly one fact of the snapshot,
    which binds the approved contract and passes every check (open, ready and
    undelivered, canonical labels, every contract target resolved once by evidence
    of this contract, an admitted risk, every satisfied dependency proven
    delivered), and no two of its Issues claim overlapping mutation paths. *)
Theorem compiled_issues_are_executable c p : 0 < parallel -> compile = Ok c -> cm_plan c = Some p ->
  (forall x, x ∈ dp_final_scope p -> exists f, candidate i s (scope_key x) f /\ pf_issue f = x /\ fit f)
  /\ forall f g, f ∈ pn_issues s -> g ∈ pn_issues s -> pf_issue f ∈ dp_final_scope p -> pf_issue g ∈ dp_final_scope p ->
     scope_key (pf_issue f) <> scope_key (pf_issue g) -> overlaps f g = false.
Proof.
  intros Hpar H Hp. destruct (compile_compiled c p Hpar H Hp) as (facts & ws & C). split.
  - intros x Hx. destruct (compiled_fact _ _ _ _ C Hx) as (f & _ & ? & ? & ?). eauto.
  - assert (Hone : forall f, f ∈ pn_issues s -> pf_issue f ∈ dp_final_scope p -> (scope_key (pf_issue f), f) ∈ facts).
    { intros f Hf Hx. destruct (compiled_fact _ _ _ _ C Hx) as (f' & Hin & _ & Hc & _). pose proof (ca_only _ _ _ _ Hc) as E.
      assert (Hf' : f ∈ facts_for (scope_key (pf_issue f)) (pn_issues s)) by (apply filter_elem; by rewrite bool_decide_true).
      rewrite E in Hf'. apply list_elem_of_singleton in Hf' as <-. done. }
    intros f g Hf Hg Hfs Hgs Hne. destruct (cd_facts _ _ _ C) as (m & accepted & Hsc & Efacts).
    apply (sc_disjoint _ _ Hsc (scope_key (pf_issue f)) f (scope_key (pf_issue g)) g); [rewrite <- Efacts; by apply Hone..|done].
Qed.

(** Refusals are filed under their own key. *)
Definition filed (m : refusal_map) : Prop := forall k r, (k, r) ∈ m -> refusal_key r = k.
Lemma grows_filed m m' : refusals_grow m m' -> filed m -> filed m'.
Proof.
  induction 1 as [|a b c (issue & code & detail & related & ->) _ IH]; [done|]. intros H. apply IH. unfold add_refusal.
  by intros k r [[= -> ->]|Hin]%od_set_elem; [|apply H].
Qed.
Lemma filed_refusal m k : filed m -> has_refusal m k <-> exists r, r ∈ order_by refusal_leb (map snd m) /\ scope_key (rl_issue r) = k.
Proof.
  intros H. unfold _issue_has_refusal. rewrite existsb_elem. setoid_rewrite order_by_elem. split.
  - intros ([key r] & Hin & <-%bool_decide_eq_true_1). exists r. split; [apply (list_elem_of_fmap_2 snd _ _ Hin)|]. by rewrite <- (H _ _ Hin).
  - intros (r & Hin & <-). apply list_elem_of_fmap in Hin as ([key r'] & -> & Hin). exists (key, r'). split; [done|].
    apply bool_decide_eq_true. cbn [fst snd]. by rewrite <- (H _ _ Hin).
Qed.

(** C24: Every requested Issue gets exactly one answer: it is scheduled by the plan
    if and only if no refusal names it.  Nothing approved is dropped without a typed
    refusal, and no refused Issue is scheduled. *)
Theorem planned_or_refused c : 0 < parallel -> compile = Ok c -> forall x, x ∈ approved ->
  (exists p, cm_plan c = Some p /\ scope_key x ∈ map scope_key (dp_final_scope p))
  <-> ~ exists r, r ∈ cm_refusals c /\ scope_key (rl_issue r) = scope_key x.
Proof.
  intros Hpar H x Hx. destruct (compile_cases c Hpar H) as (m & accepted & m' & Hsc & Hg & -> & Hc).
  rewrite <- filed_refusal by (apply (grows_filed []); [etrans; [apply (sc_grown _ _ Hsc)|done]|by intros k r ?%not_elem_of_nil]).
  assert (Hun : _issue_has_refusal (scope_key x) m = false -> exists f, (scope_key x, f) ∈ unrefused accepted m).
  { intros Hu. destruct (sc_answered _ _ Hsc x Hx) as [Hr|Hin]; [by rewrite Hr in Hu|]. apply list_elem_of_fmap in Hin as ([k f] & Ek & Hin).
    cbn [fst] in Ek. subst k. exists f. by apply unrefused_elem. }
  destruct Hc as [[-> Hall]|(p & ws & -> & -> & C)].
  - split; [by intros (p & ? & _)|]. intros Hn. exfalso. apply Hn.
    destruct (_issue_has_refusal (scope_key x) m) eqn:F; [by apply (grows_has _ _ _ Hg)|]. destruct (Hun eq_refl) as [f Hf]. by eapply Hall.
  - split.
    + intros (q & [= <-] & Hin) Hr. apply list_elem_of_fmap in Hin as (y & Ey & Hy).
      destruct (compiled_fact _ _ _ _ C Hy) as (f & [_ Hu]%unrefused_elem & _). congruence.
    + intros Hn. exists p. split; [done|]. apply not_true_iff_false in Hn. destruct (Hun Hn) as [f Hf].
      pose proof (proj1 (unrefused_elem _ _ _ _) Hf) as [Ha _]. rewrite <- (ca_key _ _ _ _ (proj1 (proj2 (sc_screened _ _ Hsc) _ _ Ha))).
      by apply list_elem_of_fmap_2, (compiled_scope _ _ _ _ _ C Hf).
Qed.

(** C22: Compiler and reducer together keep dependencies: in any run of a compiled
    plan, whatever effect a step proposes for an Issue, every dependency that the
    snapshot reports unsatisfied for that Issue is an Issue of the run, planned in
    an earlier wave, and already delivered. *)
Theorem effects_wait_for_dependencies c p s0 h st x r q f d : 0 < parallel -> compile = Ok c -> cm_plan c = Some p ->
  started sha256_hex p s0 -> runs sha256_hex p s0 h st -> proper sha256_hex p x -> step sha256_hex st x = Ok r -> q ∈ rd_effects r ->
  f ∈ pn_issues s -> scope_key (pf_issue f) = scope_key (po_issue q) -> d ∈ pf_dependencies f -> dd_satisfied d = false ->
  (exists v w, wave_of p (dd_issue d) = Some v /\ wave_of p (po_issue q) = Some w /\ v < w)
  /\ exists j, j ∈ dr_issues st /\ scope_key (ir_issue j) = scope_key (dd_issue d) /\ ir_phase j = ph_delivered.
Proof.
  intros Hpar Hc Hp H0 H Hx Hs Hq Hf Hk Hd Hu. destruct (compile_compiled c p Hpar Hc Hp) as (facts & ws & C).
  pose proof (runs_issues _ _ _ _ _ H0 H) as Hkeys. pose proof (runs_wf _ _ _ _ _ H0 H) as W.
  assert (Hin : scope_key (po_issue q) ∈ map scope_key (dp_final_scope p)).
  { destruct (step_cases _ _ _ _ (wf_issues _ _ _ W) Hs) as [(_ & E & _)|[_ Hst]]; [rewrite E in Hq; by apply not_elem_of_nil in Hq|].
    destruct (sd_proposed _ _ _ _ Hst q Hq) as (i' & Hi' & Hpr). rewrite (proposed_key _ _ _ _ _ _ W Hi' Hpr), <- Hkeys. by apply list_elem_of_fmap_2. }
  apply list_elem_of_fmap in Hin as (y & Ey & Hy). destruct (compiled_fact _ _ _ _ C Hy) as (g & Hg & _ & Hcand & _).
  assert (g = f) as ->.
  { pose proof (ca_only _ _ _ _ Hcand) as E. assert (Hf' : f ∈ facts_for (scope_key y) (pn_issues s)).
    { apply filter_elem. by rewrite bool_decide_true by congruence. }
    rewrite E in Hf'. by apply list_elem_of_singleton in Hf'. }
  destruct (compiled_order _ _ _ _ _ _ C Hg Hd Hu) as (v & w & Hv & Hw & Hlt).
  pose proof (proj1 (compiled_dependency _ _ _ _ _ _ C Hg Hd Hu)) as Hdep. apply (list_elem_of_fmap_2 scope_key) in Hdep.
  assert (Hj : scope_key (dd_issue d) ∈ issue_keys (dr_issues st)) by (by rewrite Hkeys).
  rewrite (wave_of_key _ y (po_issue q)) in Hw by done. split; [eauto|].
  apply list_elem_of_fmap in Hj as (j & Ej & Hj). exists j. split; [done|]. split; [done|]. rewrite (wave_of_key _ _ (ir_issue j)) in Hv by done.
  by eapply earlier_waves_delivered.
Qed.
End Plan.
