(* ===== verification/DeliveryPlanTotal.v ===== *)
(** * The delivery-plan compiler always answers

    On a valid initiation whose exclusions name approved Issues only with their
    typed identity, every validator the compiled plan passes through accepts it:
    the compiler returns a plan or typed refusals and never raises. *)
From Stdlib Require Import Sorted.
From stdpp Require Import relations.
From S2P Require Import Prelude PyValue Sql StateAxes DeliveryContracts DeliveryApproval DeliveryCompiler DeliveryGraph DeliveryScreen DeliveryReducer DeliverySteps DeliveryRuns DeliveryLedger DeliveryTotal DeliveryProps DeliveryPlanProps.
Open Scope Z_scope.

(** ** Numerals in identities *)

Definition numeral_char (c : Ascii.ascii) : bool := let n := Ascii.N_of_ascii c in (n =? 45)%N || ((48 <=? n)%N && (n <=? 57)%N).
Fixpoint numeral (s : string) : bool := match s with EmptyString => true | String c s => numeral_char c && numeral s end.
Lemma numeral_N_char n : numeral_char (pretty_N_char n) = true.
Proof. unfold pretty_N_char. by repeat case_match. Qed.
Lemma numeral_go n : forall s, numeral s = true -> numeral (pretty_N_go n s) = true.
Proof.
  induction (N.lt_wf_0 n) as [n _ IH]. intros s Hs. destruct (decide (0 < n)%N) as [Hn|Hn].
  - rewrite pretty_N_go_step by done. apply IH; [apply N.div_lt; lia|]. simpl. by rewrite numeral_N_char.
  - assert (n = 0)%N as -> by lia. by rewrite pretty_N_go_0.
Qed.
Lemma numeral_pretty (n : Z) : numeral (pretty n) = true.
Proof.
  assert (H : forall k : N, numeral (pretty k) = true).
  { intros k. unfold pretty, pretty_N. case_decide; [done|]. by apply numeral_go. }
  destruct n as [|p|p]; [done|apply (H (Npos p))|]. change (pretty (Zneg p)) with ("-" +:+ pretty (Npos p)). simpl. apply H.
Qed.
Lemma lower_numeral s : numeral s = true -> lower s = s.
Proof.
  induction s as [|c s IH]; simpl; [done|]. intros [Hc Hs]%andb_true_iff. rewrite (IH Hs). f_equal. revert Hc. clear.
  destruct c as [[] [] [] [] [] [] [] []]; vm_compute; congruence.
Qed.
Lemma lower_app a b : lower (a +:+ b) = lower a +:+ lower b.
Proof. induction a as [|c a IH]; [done|]. cbn [lower]. rewrite !append_cons. cbn [lower]. by rewrite IH. Qed.
(** A separator that no numeral holds splits uniquely. *)
Lemma separator_inj c a b x y : numeral_char c = false -> numeral x = true -> numeral y = true ->
  a +:+ String c x = b +:+ String c y -> a = b /\ x = y.
Proof.
  intros Hc Hx Hy. revert b. assert (Hno : forall b x y, numeral x = true -> x <> b +:+ String c y).
  { induction b as [|d b IH]; intros u v Hu ->; rewrite ?append_cons in Hu; apply andb_true_iff in Hu as [H1 H2]; [congruence|by apply (IH _ v H2)]. }
  induction a as [|d a IH]; intros [|e b] H; rewrite ?append_cons in H; injection H.
  - auto.
  - intros E _. by apply Hno in E.
  - intros E _. symmetry in E. by apply Hno in E.
  - intros E ->. by destruct (IH b E) as [-> ->].
Qed.
Lemma text_length_app a b : String.length (a +:+ b) = (String.length a + String.length b)%nat.
Proof. induction a as [|c a IH]; [done|]. rewrite append_cons. simpl. by rewrite IH. Qed.
Lemma append_inj_r a b c : a +:+ c = b +:+ c -> a = b.
Proof.
  revert b. induction a as [|d a IH]; intros [|e b] H; rewrite ?append_cons in H; [done| | |injection H as -> H; f_equal; auto].
  all: apply (f_equal String.length) in H; cbn [String.length] in H; rewrite !text_length_app in H; cbn [String.length] in H; lia.
Qed.
Lemma scope_ref_lower x : lower (scope_ref x) = scope_ref x.
Proof. unfold scope_ref. by rewrite !lower_app, lower_idem, (lower_numeral (pretty _)) by apply numeral_pretty. Qed.
Lemma scope_ref_inj x y : scope_ref x = scope_ref y -> scope_key x = scope_key y.
Proof.
  unfold scope_ref, scope_key. intros H. apply separator_inj in H as [-> H]; [|done|apply numeral_pretty..]. by apply (inj pretty) in H as ->.
Qed.
Lemma authority_id_inj x y : _validate_authority_id x = Ok tt -> _validate_authority_id y = Ok tt -> is_authority_id x = is_authority_id y ->
  scope_key x = scope_key y.
Proof.
  unfold _validate_authority_id. intros Hx%reject_ok Hy%reject_ok. apply negb_false_iff, String.eqb_eq in Hx, Hy. rewrite Hx, Hy. intros H.
  unfold scope_key. change ("/issues/" +:+ pretty (is_number x)) with ("/issues" +:+ String slash_char (pretty (is_number x))) in H.
  change ("/issues/" +:+ pretty (is_number y)) with ("/issues" +:+ String slash_char (pretty (is_number y))) in H.
  rewrite <- !append_assoc in H. apply separator_inj in H as [H1 H2]; [|done|apply numeral_pretty..]. apply (inj pretty) in H2 as ->.
  apply append_inj_r, (inj (String.append "github:")) in H1. by rewrite H1.
Qed.

(** ** Sorted tuples *)

Lemma sorted_map {A B} (R : B -> B -> Prop) (f : A -> B) l : StronglySorted (fun x y => R (f x) (f y)) l -> StronglySorted R (map f l).
Proof. induction 1 as [|x l _ IH Hx]; simpl; constructor; [done|]. by apply Forall_map. Qed.
Lemma in_order_keys {A K} `{EqDecision K} (leb : K -> K -> bool) (key : A -> K) l :
  (forall x y, leb x y = false -> leb y x = true) -> (forall x y z, leb x y = true -> leb y z = true -> leb x z = true) ->
  in_order leb (map key (order_by (fun a b => leb (key a) (key b)) l)) = true.
Proof.
  intros Ht Hr. apply bool_decide_eq_true. symmetry. apply order_by_id, (sorted_map (fun x y => leb x y = true)), order_by_sorted.
  - intros x y. apply Ht.
  - intros x y z. apply Hr.
Qed.
Lemma same_set_perm {A} `{EqDecision A} (l k : list A) : l ≡ₚ k -> same_set l k = true.
Proof.
  intros H. unfold same_set. apply andb_true_iff. split; apply forallb_elem; intros x Hx; apply bool_decide_eq_true; [by rewrite <- H|by rewrite H].
Qed.
Lemma scope_find_unique l x : NoDup (map scope_key l) -> x ∈ l -> scope_find l (scope_key x) = Some x.
Proof.
  unfold scope_find. induction l as [|y l IH]; simpl; [by intros _ ?%not_elem_of_nil|]. intros [Hy Hn]%NoDup_cons [->|Hx]%elem_of_cons.
  - by rewrite bool_decide_true.
  - rewrite bool_decide_false; [auto|]. intros E. apply Hy. rewrite E. by apply list_elem_of_fmap_2.
Qed.
Lemma reject_no c msg : c = false -> reject c msg = Ok tt.
Proof. by intros ->. Qed.
Lemma then_ok (a b : res unit) : a = Ok tt -> b = Ok tt -> (_ ← a; b) = Ok tt.
Proof. by intros -> ->. Qed.
Lemma check_all_ok {A} (f : A -> res unit) l : (forall x, x ∈ l -> f x = Ok tt) -> check_all f l = Ok tt.
Proof. induction l as [|x l IH]; intros H; simpl; [done|]. apply then_ok; [apply H; left|apply IH; intros y Hy; apply H; by right]. Qed.
Lemma check_all_each {A} (f : A -> res unit) l : check_all f l = Ok tt -> forall x, x ∈ l -> f x = Ok tt.
Proof.
  induction l as [|y l IH]; simpl; [by intros _ x ?%not_elem_of_nil|]. intros H. bound H as [] E. intros x [->|Hx]%elem_of_cons; [done|auto].
Qed.
Lemma unique_ok {A} `{EqDecision A} (l : list A) label : NoDup l -> _require_unique l label = Ok tt.
Proof. intros H. apply reject_no. by rewrite bool_decide_true. Qed.
Lemma require_unique {A} `{EqDecision A} (l : list A) label u : _require_unique l label = Ok u -> NoDup l.
Proof. intros H%reject_ok. by apply negb_false_iff, bool_decide_eq_true in H. Qed.

Lemma ltb_leb a b : String.ltb a b = negb (String.leb b a).
Proof. unfold String.ltb, String.leb. rewrite (String.compare_antisym b a). by destruct (String.compare a b). Qed.
Lemma text_leb_refl a : String.leb a a = true.
Proof. destruct (String.leb a a) eqn:E; [done|]. by rewrite (leb_false _ _ E) in E. Qed.
Lemma latest_bounds a b : String.leb a (latest_of a b) = true /\ String.leb b (latest_of a b) = true.
Proof.
  unfold latest_of. rewrite ltb_leb. destruct (String.leb b a) eqn:E; cbn [negb]; [by rewrite E, text_leb_refl|].
  by rewrite text_leb_refl, (leb_false _ _ E).
Qed.
Lemma od_set_NoDup {K V} `{EqDecision K} (d : list (K * V)) k v : NoDup (map fst d) -> NoDup (map fst (od_set d k v)).
Proof.
  intros H. rewrite od_set_keys. destruct (decide (k ∈ map fst d)); [done|]. apply NoDup_app. split; [done|]. split; [|apply NoDup_singleton].
  by intros x Hx ->%list_elem_of_singleton.
Qed.

(** ** Inputs in order *)

Section Total.
Context (sha256_hex : string -> string) (is_resolvable_verify_target is_durable_repo_anchor : string -> bool).
Context (i : DeliveryInitiation) (s : DeliveryPlanningSnapshot).
Abbreviation approved := (di_requested_scope i).
Abbreviation parallel := (db_max_parallel_workers (di_budget i)).
Abbreviation fit := (executable is_resolvable_verify_target is_durable_repo_anchor i s).

(** An exclusion of the initiation that names an approved Issue carries it; one that carries an Issue carries an approved one. *)
Definition exclusion_orderly (x : ScopeExclusion) : Prop :=
  match sx_issue x with Some o => o ∈ approved | None => lower (sx_key x) ∉ map scope_ref approved end.
Record orderly : Prop := {
  or_valid : _validate_initiation sha256_hex i = Ok tt;
  or_parallel : 0 < parallel;
  or_distinct : NoDup (map (fun x => lower (sx_key x)) (di_exclusions i));
  or_exclusions : forall x, x ∈ di_exclusions i -> exclusion_orderly x;
  or_facts : forall f, f ∈ pn_issues s -> _validate_labels (pf_authority f) = Ok tt }.

Context (inputs : orderly).

Record initiation_facts : Prop := {
  if_scope : forall x, x ∈ approved -> _validate_authority_id x = Ok tt;
  if_exclusions : forall x, x ∈ di_exclusions i -> _validate_scope_identity x = Ok tt;
  if_checks : _validate_required_checks (di_policy i) = Ok tt;
  if_budget : _validate_worker_budget (di_budget i) = Ok tt;
  if_nonempty : approved <> [];
  if_unique : NoDup (map scope_key approved) }.
Lemma initiation_valid : initiation_facts.
Proof.
  pose proof (or_valid inputs) as H. unfold _validate_initiation in H. cbv zeta in H.
  bound H as [] E1. bound H as [] E2. bound H as [] E3. bound H as [] E4. bound H as [] E5. bound H as [] E6. bound H as [] E7. bound H as [] E8.
  bound H as [] E9. bound H as [] E10. clear H. split; try done.
  - by apply check_all_each.
  - by apply check_all_each.
  - apply reject_ok in E9. by apply bool_decide_eq_false in E9.
  - by apply require_unique in E10.
Qed.

(** ** The facts of a plan *)

Context (facts : facts_dict) (ws : list (list IssueScope)) (refusals : list PlanRefusal).
Context (each : forall k f, (k, f) ∈ facts -> candidate i s k f /\ fit f) (unique_facts : NoDup (map fst facts)) (some_fact : facts <> []).
Context (waves : wave_inv facts (Z.to_nat parallel) (map fst facts) ws).
Let p : DeliveryPlan := plan_of sha256_hex i s facts (numbered_waves ws) refusals.

Lemma facts_key : map (fun f => scope_key (pf_issue f)) (map snd facts) = map fst facts.
Proof. rewrite map_map. apply map_ext_in. intros [k f] Hin%list_elem_of_In. apply (ca_key _ _ _ _ (proj1 (each k f Hin))). Qed.
Lemma final_keys : map scope_key (dp_final_scope p) ≡ₚ map fst facts.
Proof. unfold p. cbn [dp_final_scope plan_of]. by rewrite order_by_perm, map_map, facts_key. Qed.
Lemma final_unique : NoDup (map scope_key (dp_final_scope p)).
Proof. by rewrite final_keys. Qed.
Lemma final_elem x : x ∈ dp_final_scope p <-> exists k f, (k, f) ∈ facts /\ pf_issue f = x.
Proof.
  unfold p. cbn [dp_final_scope plan_of]. rewrite order_by_elem, map_map, list_elem_of_fmap. split.
  - intros ([k f] & -> & H). eauto.
  - intros (k & f & H & <-). by exists (k, f).
Qed.
Lemma final_approved x : x ∈ dp_final_scope p -> x ∈ approved.
Proof. intros (k & f & Hin & <-)%final_elem. apply (each k f Hin). Qed.
Lemma planned_in x : x ∈ dp_final_scope p -> planned p x = true.
Proof. intros H. apply bool_decide_eq_true. by apply scope_find_unique; [apply final_unique|]. Qed.
Lemma wave_issue_final x : x ∈ concat ws -> x ∈ dp_final_scope p.
Proof. intros (f & Hf & <-)%(wi_facts _ _ _ _ waves). apply final_elem. eauto. Qed.
Lemma fact_elem k f : (k, f) ∈ facts -> f ∈ pn_issues s.
Proof.
  intros Hin. pose proof (ca_only _ _ _ _ (proj1 (each k f Hin))) as E. assert (H : f ∈ facts_for k (pn_issues s)) by (rewrite E; left).
  by apply filter_elem in H as [? _].
Qed.

(** Authorities bind the planned Issues, one each. *)
Lemma authority_elem a : a ∈ dp_input_authorities p <-> exists k f, (k, f) ∈ facts /\ pf_authority f = a.
Proof.
  unfold p. cbn [dp_input_authorities plan_of]. rewrite order_by_elem, map_map, list_elem_of_fmap. split.
  - intros ([k f] & -> & H). eauto.
  - intros (k & f & H & <-). by exists (k, f).
Qed.
Lemma authority_binds k f : (k, f) ∈ facts -> as_id (pf_authority f) = is_authority_id (pf_issue f)
  /\ as_hash (pf_authority f) = is_contract_hash (pf_issue f) /\ String.leb (as_observed_at (pf_authority f)) (pn_captured_at s) = true.
Proof.
  intros Hin. pose proof (ca_binds _ _ _ _ (proj1 (each k f Hin))) as H. unfold _authority_binds_issue in H. bool_prop. done.
Qed.
Lemma same_authority k f k' f' : (k, f) ∈ facts -> (k', f') ∈ facts -> as_id (pf_authority f) = as_id (pf_authority f') -> (k, f) = (k', f').
Proof.
  intros H H' E. rewrite (proj1 (authority_binds _ _ H)), (proj1 (authority_binds _ _ H')) in E.
  destruct (each k f H) as [C _], (each k' f' H') as [C' _].
  apply authority_id_inj in E; [|apply (if_scope initiation_valid), C|apply (if_scope initiation_valid), C'].
  rewrite (ca_key _ _ _ _ C), (ca_key _ _ _ _ C') in E. subst k'. f_equal. pose proof (ca_only _ _ _ _ C). pose proof (ca_only _ _ _ _ C'). congruence.
Qed.
Lemma authorities_unique : NoDup (map as_id (dp_input_authorities p)).
Proof.
  unfold p. cbn [dp_input_authorities plan_of]. rewrite order_by_perm, !map_map.
  apply NoDup_fmap_2_strong; [|by eapply NoDup_fmap_1]. intros [k f] [k' f']. apply same_authority.
Qed.
Lemma binding_of k f : (k, f) ∈ facts -> authority_binding p (pf_issue f) = Some (pf_authority f).
Proof.
  intros Hin. unfold authority_binding. destruct (List.find _ _) as [a|] eqn:E.
  - apply find_some in E as [Ha Hb]. bool_prop. apply list_elem_of_In, authority_elem in Ha as (k' & f' & Hin' & <-).
    f_equal. destruct (authority_binds _ _ Hin) as (H1 & _). pose proof (same_authority k' f' k f Hin' Hin ltac:(congruence)). congruence.
  - pose proof (find_none _ _ E (pf_authority f) ltac:(apply list_elem_of_In, authority_elem; eauto)) as H.
    destruct (authority_binds _ _ Hin) as (E1 & E2 & _). cbv beta in H. by rewrite E1, E2, !String.eqb_refl in H.
Qed.
Lemma fact_labels k f : (k, f) ∈ facts -> NoDup (as_labels (pf_authority f)).
Proof.
  intros Hin. pose proof (or_facts inputs f (fact_elem _ _ Hin)) as H. unfold _validate_labels, canonical_strings in H. bound H as [] E. by apply require_unique in E.
Qed.
Lemma label_ready k f l : (k, f) ∈ facts -> l ∈ as_labels (pf_authority f) -> startswith "agent:" l = true -> l = "agent:ready".
Proof.
  intros Hin Hl Hs. assert (H : l ∈ labelled "agent:" f) by (by apply filter_elem). rewrite (ex_ready _ _ _ _ _ (proj2 (each k f Hin))) in H.
  by apply list_elem_of_singleton in H.
Qed.
Lemma no_forbidden k f l : (k, f) ∈ facts -> l ∈ as_labels (pf_authority f) -> existsb (String.eqb l) ["agent:blocked"; "agent:needs-human"] = false.
Proof.
  intros Hin Hl. apply not_true_iff_false. rewrite existsb_elem. intros (x & Hx & <-%String.eqb_eq).
  apply elem_of_cons in Hx as [->|Hx]; [by apply (label_ready k f) in Hl|]. apply list_elem_of_singleton in Hx as ->. by apply (label_ready k f) in Hl.
Qed.
Lemma expected_elem e : e ∈ dp_expected_states p <-> exists k f, (k, f) ∈ facts /\ e = expected_of f.
Proof.
  unfold p. cbn [dp_expected_states plan_of]. rewrite list_elem_of_fmap. setoid_rewrite order_by_elem. setoid_rewrite list_elem_of_fmap. split.
  - intros (f & -> & [k g] & -> & Hin). eauto.
  - intros (k & f & Hin & ->). exists f. split; [done|]. by exists (k, f).
Qed.
Lemma expected_valid k f : (k, f) ∈ facts -> _validate_state (expected_of f) = Ok tt.
Proof.
  intros Hin. pose proof (fact_labels _ _ Hin) as Hn. unfold _validate_state. cbn [ea_issue ea_required_labels ea_forbidden_labels ea_contract_hash expected_of].
  apply then_ok; [apply (if_scope initiation_valid), (each k f Hin)|]. apply then_ok; [apply unique_ok; by rewrite order_by_perm|].
  apply then_ok; [reflexivity|]. apply then_ok; [apply reject_no; unfold in_order; by rewrite order_strings_idem, bool_decide_true|].
  apply then_ok; [reflexivity|]. apply then_ok; [|apply reject_no; by rewrite String.eqb_refl].
  apply reject_no, not_true_iff_false. rewrite existsb_elem. intros (l & Hl%order_by_elem & E). by rewrite (no_forbidden _ _ _ Hin Hl) in E.
Qed.
Lemma expected_agrees k f : (k, f) ∈ facts -> contradicts_state p (expected_of f) = false.
Proof.
  intros Hin. unfold contradicts_state. cbn [ea_issue ea_state ea_required_labels ea_forbidden_labels expected_of]. rewrite (binding_of _ _ Hin).
  rewrite (ex_open _ _ _ _ _ (proj2 (each k f Hin))). change (negb (String.eqb "open" "open")) with false. apply orb_false_iff. split.
  - apply negb_false_iff, forallb_elem. intros l Hl%order_by_elem. apply existsb_elem. exists l. by rewrite String.eqb_refl.
  - apply not_true_iff_false. rewrite existsb_elem. intros (l & Hl & E). apply existsb_elem in E as (l' & Hl' & <-%String.eqb_eq).
    pose proof (no_forbidden _ _ _ Hin Hl') as H. apply not_true_iff_false in H. apply H, existsb_elem. exists l. by rewrite String.eqb_refl.
Qed.

Lemma numbered_elem w : w ∈ numbered_waves ws -> dw_issues w ∈ ws.
Proof.
  unfold numbered_waves. generalize 0%nat. clear. induction ws as [|v l IH]; intros n; simpl; [by intros ?%not_elem_of_nil|].
  intros [->|H]%elem_of_cons; [left|right; by apply (IH (S n))].
Qed.
Lemma numbered_issues : map dw_issues (numbered_waves ws) = ws.
Proof. unfold numbered_waves. generalize 0%nat. clear. induction ws as [|v l IH]; intros n; simpl; [done|]. by rewrite IH. Qed.
Lemma numbered_index : map dw_index (numbered_waves ws) = map Z.of_nat (seq 0 (length (numbered_waves ws))).
Proof.
  assert (H : forall l n, length (zip_with (fun n w => mkWave (Z.of_nat n) w) (seq n (length l)) l) = length l
    /\ map dw_index (zip_with (fun n w => mkWave (Z.of_nat n) w) (seq n (length l)) l) = map Z.of_nat (seq n (length l))).
  { induction l as [|w l IH]; intros n; simpl; [done|]. destruct (IH (S n)) as [-> ->]. done. }
  unfold numbered_waves. by destruct (H ws 0%nat) as [-> ->].
Qed.
Lemma wave_in_concat w x : w ∈ ws -> x ∈ w -> x ∈ concat ws.
Proof. intros Hw Hx. apply list_elem_of_In, in_concat. exists w. by rewrite <- !list_elem_of_In. Qed.
Lemma waves_unique : NoDup (map scope_key (concat ws)).
Proof. by rewrite (wi_covers _ _ _ _ waves). Qed.
Lemma NoDup_concat_in {A B} (f : A -> B) (l : list (list A)) w : NoDup (map f (concat l)) -> w ∈ l -> NoDup (map f w).
Proof.
  induction l as [|v l IH]; simpl; [by intros _ ?%not_elem_of_nil|]. rewrite map_app. intros (H1 & _ & H2)%NoDup_app [->|Hw]%elem_of_cons; auto.
Qed.
Lemma wave_valid w : w ∈ numbered_waves ws -> _validate_issues w = Ok tt.
Proof.
  intros Hw%numbered_elem. destruct (wi_shape _ _ _ _ waves _ Hw) as (Hne & _ & Hs). unfold _validate_issues.
  apply then_ok; [apply check_all_ok; intros x Hx; by apply (if_scope initiation_valid), final_approved, wave_issue_final, (wave_in_concat _ _ Hw)|].
  apply then_ok; [apply reject_no; by rewrite bool_decide_false|].
  apply then_ok; [apply unique_ok; by apply (NoDup_concat_in _ ws); [apply waves_unique|]|].
  apply reject_no, negb_false_iff, bool_decide_eq_true. symmetry. by apply order_by_id, (sorted_map (fun x y => scope_leb x y = true)).
Qed.
(** ** Exclusions *)

Abbreviation included := (map scope_key (dp_final_scope p)).
(** The dict of exclusions while Issues are added. *)
Record exclusion_inv (todo : list IssueScope) (d : list (string * ScopeExclusion)) : Prop := {
  xi_unique : NoDup (map fst d);
  xi_keyed : forall k x, (k, x) ∈ d -> k = lower (sx_key x);
  xi_kept : forall x, x ∈ di_exclusions i -> (lower (sx_key x), x) ∈ d;
  xi_origin : forall k x, (k, x) ∈ d -> (x ∈ di_exclusions i)
    \/ exists o, sx_issue x = Some o /\ o ∈ approved /\ (scope_key o ∉ included) /\ sx_key x = scope_ref o;
  xi_covers : forall o, o ∈ approved -> scope_key o ∉ included -> (o ∈ todo) \/ (scope_ref o ∈ map fst d) }.
Lemma initial_exclusions l d : NoDup (map fst d ++ map (fun x => lower (sx_key x)) l) ->
  foldl (fun d x => od_set d (lower (sx_key x)) x) d l = d ++ map (fun x => (lower (sx_key x), x)) l.
Proof.
  revert d. induction l as [|x l IH]; intros d H; cbn [foldl map]; [by rewrite app_nil_r|].
  assert (E : od_get d (lower (sx_key x)) = None).
  { apply eq_None_not_Some. rewrite od_get_In. intros Hx. apply NoDup_app in H as (_ & H & _). apply (H _ Hx). left. }
  rewrite od_set_new by done. rewrite IH; [by rewrite <- app_assoc|]. by rewrite map_app, <- app_assoc.
Qed.
Lemma exclusion_start : exclusion_inv approved (foldl (fun d x => od_set d (lower (sx_key x)) x) [] (di_exclusions i)).
Proof.
  rewrite initial_exclusions by apply (or_distinct inputs). cbn [app]. split.
  - rewrite map_map. apply (or_distinct inputs).
  - intros k x (y & [= -> ->] & _)%list_elem_of_fmap. done.
  - intros x Hx. apply list_elem_of_fmap. eauto.
  - intros k x (y & [= -> ->] & Hy)%list_elem_of_fmap. by left.
  - auto.
Qed.
Lemma exclusion_step x todo d : x ∈ approved -> exclusion_inv (x :: todo) d -> exclusion_inv todo (add_exclusion included refusals d x).
Proof.
  intros Hx [H1 H2 H3 H4 H5]. unfold add_exclusion. rewrite scope_ref_lower. destruct (bool_decide_reflect (scope_key x ∈ included)) as [Hin|Hout].
  - split; try done. intros o Ho Hn. destruct (H5 o Ho Hn) as [[->|?]%elem_of_cons|?]; auto. done.
  - cbn [orb]. case_bool_decide as Hs.
    + split; try done. intros o Ho Hn. destruct (H5 o Ho Hn) as [[->|?]%elem_of_cons|?]; auto. right. by apply od_get_In.
    + assert (Hnew : od_get d (scope_ref x) = None) by (by apply eq_None_not_Some). rewrite od_set_new by done. split.
      * rewrite <- od_set_new by done. by apply od_set_NoDup.
      * intros k e [?|[= -> ->]%list_elem_of_singleton]%elem_of_app; [auto|]. cbn [sx_key]. by rewrite scope_ref_lower.
      * intros e He. apply elem_of_app. auto.
      * intros k e [?|[= -> ->]%list_elem_of_singleton]%elem_of_app; [by eapply H4|]. right. exists x. done.
      * intros o Ho Hn. rewrite map_app, elem_of_app. destruct (H5 o Ho Hn) as [[->|?]%elem_of_cons|?]; auto. right. right. by apply list_elem_of_singleton.
Qed.
Lemma exclusion_loop l : l ⊆ approved -> forall d, exclusion_inv l d -> exclusion_inv [] (foldl (add_exclusion included refusals) d l).
Proof.
  induction l as [|x l IH]; intros Hl d Hd; cbn [foldl]; [done|]. apply IH; [intros y Hy; apply Hl; by right|].
  apply exclusion_step; [apply Hl; left|done].
Qed.
Lemma plan_exclusions : exists d, dp_exclusions p = order_by exclusion_leb (map snd d) /\ exclusion_inv [] d.
Proof.
  eexists. split; [reflexivity|]. apply exclusion_loop; [done|]. apply exclusion_start.
Qed.
Lemma exclusions_valid x : x ∈ dp_exclusions p -> _validate_scope_identity x = Ok tt.
Proof.
  destruct plan_exclusions as (d & -> & D). rewrite order_by_elem. intros ([k y] & -> & Hy)%list_elem_of_fmap. cbn [snd].
  destruct (xi_origin _ _ D k y Hy) as [H|(o & E & Ho & _ & Ek)]; [by apply (if_exclusions initiation_valid)|].
  unfold _validate_scope_identity. rewrite E, Ek. apply then_ok; [by apply (if_scope initiation_valid)|]. apply reject_no. unfold scope_ref. by rewrite String.eqb_refl.
Qed.
Lemma exclusions_folded : NoDup (map (fun x => lower (sx_key x)) (dp_exclusions p)).
Proof.
  destruct plan_exclusions as (d & -> & D). rewrite order_by_perm, map_map. rewrite <- (map_ext_in fst); [apply D|].
  intros [k x] Hin%list_elem_of_In. apply (xi_keyed _ _ D _ _ Hin).
Qed.
Lemma exclusions_unique : NoDup (map sx_key (dp_exclusions p)).
Proof. apply (NoDup_fmap_1 lower). pose proof exclusions_folded as H. by rewrite <- map_map in H. Qed.

(** ** The validators accept the plan *)

Lemma sources_valid : _validate_source_refs (dp_provenance p) = Ok tt.
Proof.
  unfold _validate_source_refs. apply then_ok; [reflexivity|]. apply then_ok.
  - apply unique_ok. apply NoDup_cons. split; [|apply NoDup_singleton]. by intros [=]%list_elem_of_singleton.
  - apply reject_no, negb_false_iff, bool_decide_eq_true. reflexivity.
Qed.
Lemma final_nonempty : dp_final_scope p <> [].
Proof. intros E. pose proof final_keys as H. rewrite E in H. apply Permutation_nil in H. by destruct facts. Qed.
Lemma observed_before a : a ∈ dp_input_authorities p -> String.ltb (pv_created_at (dp_provenance p)) (as_observed_at a) = false.
Proof.
  intros (k & f & Hin & <-)%authority_elem. rewrite ltb_leb. apply negb_false_iff.
  exact (leb_trans _ _ _ (proj2 (proj2 (authority_binds _ _ Hin))) (proj2 (latest_bounds _ _))).
Qed.
Lemma wave_small w : w ∈ numbered_waves ws -> (db_max_parallel_workers (dp_budget p) <? Z.of_nat (length (dw_issues w))) = false.
Proof.
  intros Hw%numbered_elem. pose proof (proj1 (proj2 (wi_shape _ _ _ _ waves _ Hw))). pose proof (or_parallel inputs).
  apply Z.ltb_ge. unfold p. cbn [dp_budget plan_of]. lia.
Qed.
Lemma expected_keys : map (fun e => scope_key (ea_issue e)) (dp_expected_states p) = map (fun f => scope_key (pf_issue f)) (order_by fact_leb (map snd facts)).
Proof. apply map_map. Qed.
Lemma expected_perm : map (fun e => scope_key (ea_issue e)) (dp_expected_states p) ≡ₚ map scope_key (dp_final_scope p).
Proof. rewrite expected_keys, order_by_perm, facts_key. symmetry. apply final_keys. Qed.
Lemma existsb_none {A} (f : A -> bool) l : (forall x, x ∈ l -> f x = false) -> existsb f l = false.
Proof. intros H. apply not_true_iff_false. rewrite existsb_elem. intros (x & Hx & E). by rewrite H in E. Qed.
Lemma covers_ok (l k : list scope) : NoDup k -> l ≡ₚ k -> negb (bool_decide (NoDup l)) || negb (same_set l k) = false.
Proof. intros Hn H. rewrite bool_decide_true by (by rewrite H). by rewrite same_set_perm. Qed.

Lemma plan_valid : _validate_plan p = Ok tt.
Proof.
  pose proof initiation_valid as I. unfold _validate_plan. cbv zeta.
  apply then_ok; [apply check_all_ok; intros a (k & f & Hin & <-)%authority_elem; by apply (or_facts inputs), (fact_elem k)|].
  apply then_ok; [apply check_all_ok; intros x Hx; by apply (if_scope I), final_approved|].
  apply then_ok; [apply check_all_ok, exclusions_valid|]. apply then_ok; [apply check_all_ok, wave_valid|].
  apply then_ok; [apply check_all_ok; intros e (k & f & Hin & ->)%expected_elem; by apply (expected_valid k)|].
  apply then_ok; [apply I|]. apply then_ok; [apply I|]. apply then_ok; [apply sources_valid|]. apply then_ok; [reflexivity|].
  apply then_ok; [apply reject_no, bool_decide_eq_false, final_nonempty|].
  apply then_ok; [apply unique_ok, final_unique|]. apply then_ok; [apply unique_ok, exclusions_unique|]. apply then_ok; [apply unique_ok, authorities_unique|].
  apply then_ok; [apply reject_no, negb_false_iff, (in_order_keys scope_leb scope_key); [apply scope_leb_total|apply scope_leb_trans]|].
  apply then_ok; [apply reject_no, negb_false_iff, (in_order_keys String.leb sx_key); [apply leb_false|apply leb_trans]|].
  apply then_ok; [apply reject_no, negb_false_iff, (in_order_keys String.leb as_id); [apply leb_false|apply leb_trans]|].
  apply then_ok; [apply reject_no, negb_false_iff; rewrite expected_keys; apply (in_order_keys scope_leb); [apply scope_leb_total|apply scope_leb_trans]|].
  apply then_ok; [apply reject_no, existsb_none, observed_before|].
  apply then_ok; [apply reject_no, negb_false_iff, bool_decide_eq_true, numbered_index|].
  change (dp_waves p) with (numbered_waves ws). rewrite numbered_issues.
  apply then_ok; [apply reject_no, covers_ok; [apply final_unique|by rewrite (wi_covers _ _ _ _ waves), final_keys]|].
  apply then_ok; [apply reject_no, negb_false_iff, forallb_elem; intros x Hx; by apply planned_in, wave_issue_final|].
  apply then_ok; [apply reject_no, existsb_none, wave_small|]. apply then_ok; [apply reject_no, covers_ok; [apply final_unique|apply expected_perm]|].
  apply then_ok; [apply reject_no, negb_false_iff, forallb_elem; intros e (k & f & Hin & ->)%expected_elem; apply planned_in, final_elem; eauto|].
  apply then_ok; [apply reject_no, negb_false_iff, forallb_elem; intros x (k & f & Hin & <-)%final_elem; rewrite (binding_of _ _ Hin); by apply bool_decide_eq_true|].
  apply then_ok; [apply reject_no, existsb_none; intros e (k & f & Hin & ->)%expected_elem; by apply (expected_agrees k)|].
  reflexivity.
Qed.

(** The references of the typed exclusions. *)
Definition typed_refs (l : list ScopeExclusion) : list string := omap (fun x => (fun _ => lower (sx_key x)) <$> sx_issue x) l.
Lemma issue_exclusions_ok l : (forall x, x ∈ l -> exclusion_orderly x /\ forall o, sx_issue x = Some o -> sx_key x = scope_ref o) ->
  issue_exclusions approved l = Ok (typed_refs l).
Proof.
  induction l as [|x l IH]; intros H; [done|]. cbn [issue_exclusions]. destruct (H x ltac:(left)) as [Ho Hk]. unfold exclusion_orderly in Ho.
  specialize (IH ltac:(intros y Hy; apply H; by right)). unfold typed_refs in *. simpl. destruct (sx_issue x) as [o|].
  - rewrite (Hk o eq_refl), scope_ref_lower. rewrite bool_decide_true by (by apply list_elem_of_fmap_2). cbn [negb reject mbind res_bind].
    rewrite (scope_find_unique approved o (if_unique initiation_valid) Ho). rewrite bool_decide_true by done. cbn [negb reject mbind res_bind].
    by rewrite IH.
  - rewrite bool_decide_false by done. cbn [reject mbind res_bind]. by rewrite IH.
Qed.
Lemma exclusion_fine x : x ∈ dp_exclusions p -> exclusion_orderly x /\ forall o, sx_issue x = Some o -> sx_key x = scope_ref o /\ scope_key o ∉ included.
Proof.
  destruct plan_exclusions as (d & -> & D). rewrite order_by_elem. intros ([k y] & -> & Hy)%list_elem_of_fmap. cbn [snd].
  destruct (xi_origin _ _ D k y Hy) as [H|(o & E & Ho & Hn & Ek)].
  - split; [by apply (or_exclusions inputs)|]. intros o E. pose proof (if_exclusions initiation_valid y H) as V. unfold _validate_scope_identity in V.
    rewrite E in V. bound V as [] E1. apply reject_ok, negb_false_iff, String.eqb_eq in V. split; [done|]. rewrite final_keys.
    intros ([k' f] & Ek & Hin)%list_elem_of_fmap. cbn [fst] in Ek. apply (ca_kept _ _ _ _ (proj1 (each k' f Hin))). rewrite <- Ek.
    apply list_elem_of_fmap_2, list_elem_of_omap. eauto.
  - unfold exclusion_orderly. rewrite E. split; [done|]. by intros ? [= <-].
Qed.
Lemma typed_elem r : r ∈ typed_refs (dp_exclusions p) <-> exists x o, x ∈ dp_exclusions p /\ sx_issue x = Some o /\ o ∈ approved /\ r = scope_ref o
  /\ (scope_key o ∉ included).
Proof.
  unfold typed_refs. rewrite list_elem_of_omap. split.
  - intros (x & Hx & (o & Eo & ->)%fmap_Some). destruct (exclusion_fine x Hx) as [Ho Hk]. unfold exclusion_orderly in Ho. rewrite Eo in Ho.
    destruct (Hk o Eo) as [-> Hn]. exists x, o. by rewrite scope_ref_lower.
  - intros (x & o & Hx & Eo & Ho & -> & Hn). exists x. split; [done|]. rewrite Eo. simpl. destruct (exclusion_fine x Hx) as [_ Hk].
    by rewrite (proj1 (Hk o Eo)), scope_ref_lower.
Qed.
Lemma omitted_typed o : o ∈ approved -> (scope_key o ∉ included) -> scope_ref o ∈ typed_refs (dp_exclusions p).
Proof.
  intros Ho Hn. destruct plan_exclusions as (d & E & D). destruct (xi_covers _ _ D o Ho Hn) as [[]%not_elem_of_nil|H].
  apply list_elem_of_fmap in H as ([k x] & Ek & Hx). cbn [fst] in Ek. pose proof (xi_keyed _ _ D _ _ Hx) as Hk.
  assert (Hin : x ∈ dp_exclusions p) by (rewrite E, order_by_elem; apply (list_elem_of_fmap_2 snd _ _ Hx)).
  apply list_elem_of_omap. exists x. split; [done|]. destruct (exclusion_fine x Hin) as [Hf _]. unfold exclusion_orderly in Hf.
  destruct (sx_issue x); [simpl; congruence|]. exfalso. apply Hf. rewrite <- Hk, <- Ek. by apply list_elem_of_fmap_2.
Qed.
Lemma evidence_valid : validate_delivery_plan_evidence sha256_hex p i = Ok tt.
Proof.
  pose proof initiation_valid as I. unfold validate_delivery_plan_evidence. cbv zeta.
  apply then_ok; [apply reject_no; by rewrite bool_decide_true|].
  apply then_ok; [apply reject_no; rewrite ltb_leb; apply negb_false_iff; exact (proj1 (latest_bounds _ _))|].
  apply then_ok; [apply reject_no, negb_false_iff, forallb_elem; intros x Hx; apply bool_decide_eq_true, scope_find_unique; [apply I|by apply final_approved]|].
  apply then_ok; [apply reject_no; rewrite bool_decide_true by apply exclusions_folded; done|].
  rewrite (issue_exclusions_ok (dp_exclusions p)) by (intros x Hx; destruct (exclusion_fine x Hx); naive_solver). cbn [mbind res_bind].
  apply then_ok.
  { apply reject_no, existsb_none. intros r (y & -> & Hy)%list_elem_of_fmap. apply bool_decide_eq_false. intros (x & o & _ & _ & _ & E & Hn)%typed_elem.
    apply Hn. rewrite <- (scope_ref_inj _ _ E). by apply list_elem_of_fmap_2. }
  apply then_ok.
  { apply reject_no, negb_false_iff. unfold same_set. apply andb_true_iff. split; apply forallb_elem; intros r Hr; apply bool_decide_eq_true.
    - apply typed_elem in Hr as (x & o & _ & _ & Ho & -> & Hn). apply list_elem_of_fmap_2, filter_elem. by rewrite bool_decide_false.
    - apply list_elem_of_fmap in Hr as (o & -> & [Ho Hn]%filter_elem). apply omitted_typed; [done|]. by apply negb_true_iff, bool_decide_eq_false in Hn. }
  apply then_ok; [|by apply then_ok; apply reject_no; rewrite bool_decide_true].
  apply reject_no, negb_false_iff, forallb_elem. intros x Hx. apply bool_decide_eq_true. destruct plan_exclusions as (d & -> & D).
  apply order_by_elem. apply (list_elem_of_fmap_2 snd _ _ (xi_kept _ _ D x Hx)).
Qed.
End Total.

(** ** The order of refusals *)

Lemma code_value_inj c d : RefusalCode_value c = RefusalCode_value d -> c = d.
Proof. destruct c, d; first [done|intros E; vm_compute in E; discriminate]. Qed.
Lemma refusal_leb_total a b : refusal_leb a b = false -> refusal_leb b a = true.
Proof.
  unfold refusal_leb. destruct (bool_decide_reflect (scope_key (rl_issue a) = scope_key (rl_issue b))) as [->|N]; cbn [negb].
  - rewrite (bool_decide_true (scope_key (rl_issue b) = _)) by done. cbn [negb].
    destruct (bool_decide_reflect (rl_code a = rl_code b)) as [->|N]; cbn [negb].
    + rewrite (bool_decide_true (rl_code b = _)) by done. apply leb_false.
    + rewrite (bool_decide_false (rl_code b = _)) by done. apply leb_false.
  - rewrite (bool_decide_false (scope_key (rl_issue b) = _)) by done. apply scope_leb_total.
Qed.
Lemma refusal_leb_iff a b : refusal_leb a b = true <->
  (scope_key (rl_issue a) <> scope_key (rl_issue b) /\ scope_leb (scope_key (rl_issue a)) (scope_key (rl_issue b)) = true)
  \/ (scope_key (rl_issue a) = scope_key (rl_issue b) /\ rl_code a <> rl_code b
      /\ String.leb (RefusalCode_value (rl_code a)) (RefusalCode_value (rl_code b)) = true)
  \/ (scope_key (rl_issue a) = scope_key (rl_issue b) /\ rl_code a = rl_code b /\ String.leb (rl_detail a) (rl_detail b) = true).
Proof.
  unfold refusal_leb. case_bool_decide; cbn [negb]; [|tauto]. case_bool_decide; cbn [negb]; tauto.
Qed.
Lemma refusal_leb_trans a b c : refusal_leb a b = true -> refusal_leb b c = true -> refusal_leb a c = true.
Proof.
  rewrite !refusal_leb_iff. intros [[N1 H1]|[(E1 & N1 & H1)|(E1 & E1' & H1)]] [[N2 H2]|[(E2 & N2 & H2)|(E2 & E2' & H2)]];
    rewrite ?E1, <- ?E2, ?E1', <- ?E2'; try tauto.
  - left. split; [|by eapply scope_leb_trans]. intros E. rewrite E in H1. by apply N2, scope_leb_antisym.
  - right. left. split; [done|]. split; [|by eapply leb_trans]. intros E. rewrite E in H1. by apply N2, code_value_inj, String.leb_antisym.
  - right. right. split; [done|]. split; [done|]. by eapply leb_trans.
Qed.
Lemma refusals_ordered l : map refusal_key (order_by refusal_leb l) = map refusal_key (order_by refusal_leb (order_by refusal_leb l)).
Proof. by rewrite (order_by_id refusal_leb (order_by refusal_leb l)) by (apply order_by_sorted; [apply refusal_leb_total|apply refusal_leb_trans]). Qed.

(** ** Related Issues of a refusal *)

Lemma scope_leb_refl k : scope_leb k k = true.
Proof. destruct (scope_leb k k) eqn:E; [done|]. by rewrite (scope_leb_total _ _ E) in E. Qed.
Lemma related_leb_iff a b : related_leb a b = true <->
  (scope_key a <> scope_key b /\ scope_leb (scope_key a) (scope_key b) = true)
  \/ (scope_key a = scope_key b /\ is_contract_hash a <> is_contract_hash b /\ String.leb (is_contract_hash a) (is_contract_hash b) = true)
  \/ (scope_key a = scope_key b /\ is_contract_hash a = is_contract_hash b /\ String.leb (is_authority_id a) (is_authority_id b) = true).
Proof. unfold related_leb. case_bool_decide; [|tauto]. destruct (String.eqb_spec (is_contract_hash a) (is_contract_hash b)); tauto. Qed.
Lemma related_leb_total a b : related_leb a b = false -> related_leb b a = true.
Proof.
  intros H. apply not_true_iff_false in H. rewrite related_leb_iff in H |- *. destruct (decide (scope_key a = scope_key b)) as [E|N].
  - destruct (decide (is_contract_hash a = is_contract_hash b)) as [E'|N'].
    + right. right. repeat split; [done..|]. apply leb_false, not_true_iff_false. tauto.
    + right. left. repeat split; [done|congruence|]. apply leb_false, not_true_iff_false. tauto.
  - left. split; [congruence|]. apply scope_leb_total, not_true_iff_false. tauto.
Qed.
Lemma related_leb_trans a b c : related_leb a b = true -> related_leb b c = true -> related_leb a c = true.
Proof.
  rewrite !related_leb_iff. intros [[N1 H1]|[(E1 & N1 & H1)|(E1 & E1' & H1)]] [[N2 H2]|[(E2 & N2 & H2)|(E2 & E2' & H2)]];
    rewrite ?E1, <- ?E2, ?E1', <- ?E2'; try tauto.
  - left. split; [|by eapply scope_leb_trans]. intros E. rewrite E in H1. by apply N2, scope_leb_antisym.
  - right. left. split; [done|]. split; [|by eapply leb_trans]. intros E. rewrite E in H1. by apply N2, String.leb_antisym.
  - right. right. split; [done|]. split; [done|]. by eapply leb_trans.
Qed.
Lemma related_keys a b : related_leb a b = true -> scope_leb (scope_key a) (scope_key b) = true.
Proof. rewrite related_leb_iff. intros [[_ ?]|[(-> & _)|(-> & _)]]; [done|apply scope_leb_refl..]. Qed.
Lemma first_elem l : forall seen x, x ∈ first_of_scope seen l -> (x ∈ l) /\ (scope_key x ∉ seen).
Proof.
  induction l as [|y l IH]; intros seen x; cbn [first_of_scope]; [by intros ?%not_elem_of_nil|]. case_bool_decide as H.
  - intros [? ?]%IH. split; [by right|done].
  - intros [->|[? Hn]%IH]%elem_of_cons; [split; [left|done]|]. split; [by right|]. rewrite elem_of_cons in Hn. tauto.
Qed.
Lemma first_unique l : forall seen, NoDup (map scope_key (first_of_scope seen l)).
Proof.
  induction l as [|y l IH]; intros seen; cbn [first_of_scope]; [constructor|]. case_bool_decide; [done|]. cbn [map]. constructor; [|done].
  intros (x & -> & [_ Hx]%first_elem)%list_elem_of_fmap. apply Hx. left.
Qed.
Lemma first_sorted l : StronglySorted (fun x y => related_leb x y = true) l ->
  forall seen, StronglySorted (fun x y => scope_leb x y = true) (map scope_key (first_of_scope seen l)).
Proof.
  induction 1 as [|y l _ IH Hy]; intros seen; cbn [first_of_scope]; [constructor|]. case_bool_decide; [done|]. cbn [map]. constructor; [done|].
  apply Forall_map, Forall_forall. intros x [Hx _]%first_elem. by apply related_keys, (proj1 (Forall_forall _ _) Hy).
Qed.
(** The validator of a refusal accepts every refusal the compiler files. *)
Lemma refusal_accepted issue code detail related m r : strip detail <> "" ->
  od_get (add_refusal issue code detail related m) (scope_key issue, code, detail) = Some r -> _validate_related_issues r = Ok tt.
Proof.
  intros Hd H. unfold add_refusal in H. rewrite od_get_set, decide_True in H by done. injection H as <-.
  unfold _validate_related_issues. cbn [rl_detail rl_related]. apply then_ok; [apply reject_no; by apply String.eqb_neq|].
  apply then_ok; apply reject_no, negb_false_iff, bool_decide_eq_true; [|apply first_unique]. symmetry.
  apply order_by_id, first_sorted, order_by_sorted; [apply related_leb_total|apply related_leb_trans].
Qed.

Section Answers.
Context (sha256_hex : string -> string) (is_resolvable_verify_target is_durable_repo_anchor : string -> bool).
Context (i : DeliveryInitiation) (s : DeliveryPlanningSnapshot).
Abbreviation compile := (compile_delivery_plan sha256_hex is_resolvable_verify_target is_durable_repo_anchor i s).

Lemma result_valid hash plan l : (plan = None -> l <> []) -> compilation_validate_result (mkCompilation hash plan (order_by refusal_leb l)) = Ok tt.
Proof.
  intros H. unfold compilation_validate_result. cbn [cm_plan cm_refusals]. apply then_ok; apply reject_no.
  - destruct plan as [p|]; [by rewrite bool_decide_true by (by eexists)|]. apply andb_false_iff. right. apply bool_decide_eq_false.
    intros E%order_by_nil. by apply H.
  - by rewrite bool_decide_true by apply refusals_ordered.
Qed.

(** C25: The compiler always answers: whatever the snapshot holds, on a valid
    initiation whose exclusions identify the approved Issues they name (and carry
    no other Issue), compilation raises from none of the validators of the plan, of
    its evidence or of the result; it returns a plan or typed refusals. *)
Theorem compiler_always_answers : orderly sha256_hex i s -> exists c, compile = Ok c.
Proof.
  intros O. pose proof (initiation_valid sha256_hex i s O) as I. unfold compile_delivery_plan.
  pose proof (screen_spec is_resolvable_verify_target is_durable_repo_anchor i s) as Hsc. destruct (screen _ _ i s) as [m accepted]. cbn [fst snd] in Hsc.
  pose proof (schedule_spec _ _ i s m accepted Hsc (or_parallel _ _ _ O)) as Hs.
  assert (Hne : forall m', refusals_grow m m' -> (forall k f, (k, f) ∈ unrefused accepted m -> has_refusal m' k) -> map snd m' <> []).
  { intros m' Hg Hall E. destruct (di_requested_scope i) as [|x l] eqn:Ex; [by destruct (if_nonempty _ I)|].
    assert (Hx : has_refusal m' (scope_key x)).
    { destruct (_issue_has_refusal (scope_key x) m) eqn:F; [by apply (grows_has _ _ _ Hg)|].
      destruct (sc_answered _ _ _ _ _ _ Hsc x ltac:(rewrite Ex; left)) as [H|H]; [by rewrite H in F|].
      apply list_elem_of_fmap in H as ([k f] & Ek & Hin). cbn [fst] in Ek. subst k. apply (Hall _ f). by apply unrefused_elem. }
    unfold _issue_has_refusal in Hx. apply map_eq_nil in E. by rewrite E in Hx. }
  destruct (_ <? Z.of_nat (length (unrefused accepted m))).
  - destruct Hs as (m' & -> & Hg & Hall). rewrite bool_decide_true by done. cbn [mbind res_bind].
    rewrite result_valid by (intros _; by apply Hne). cbn [mbind res_bind]. by eexists.
  - destruct Hs as (ws & -> & Hw). case_bool_decide as He.
    + cbn [mbind res_bind]. rewrite result_valid; [cbn [mbind res_bind]; by eexists|]. intros _. apply Hne; [done|]. rewrite He. by intros k f ?%not_elem_of_nil.
    + pose proof (sc_screened _ _ _ _ _ _ Hsc) as [Hn Hj]. cbn [fst snd] in Hn, Hj.
      assert (Heach : forall k f, (k, f) ∈ unrefused accepted m -> candidate i s k f /\ executable is_resolvable_verify_target is_durable_repo_anchor i s f).
      { intros k f [Ha Hu]%unrefused_elem. destruct (Hj k f Ha). auto. }
      rewrite (plan_valid _ _ _ _ _ O _ _ _ Heach (unrefused_unique _ _ Hn) He Hw). cbn [mbind res_bind].
      rewrite (evidence_valid _ _ _ _ _ O _ _ _ Heach). cbn [mbind res_bind]. rewrite result_valid by done. cbn [mbind res_bind]. by eexists.
Qed.
End Answers.
