(* ===== verification/DeliveryExample.v ===== *)
(** * A delivery run, worked out

    A compiled plan of two Issues in two waves: the first is claimed, worked on, checked, reviewed,
    merged, closed and delivered, then the second wave opens and the run is
    cancelled.  The events carry derived identities and pass admission; a
    checksum stands for SHA-256.  The theorems about runs are applied to it. *)
From S2P Require Import Prelude PyValue Sql DeliveryContracts DeliveryApproval DeliveryCompiler DeliveryEvidence DeliveryReducer DeliverySteps DeliveryRuns DeliveryLedger DeliveryTotal DeliveryGates DeliveryProps DeliveryGraph DeliveryScreen DeliveryPlanProps DeliveryPlanTotal.
Open Scope Z_scope.

Module DeliveryRun.

Fixpoint checksum (acc : N) (s : string) : N :=
  match s with EmptyString => acc | String c r => checksum (N.land (acc * 33 + code c) 1099511627775) r end.
Definition sha (s : string) : string := pretty (checksum 7 s).

Definition stamp (n : Z) : string := "2026-01-01T00:00:" +:+ pretty (100 + n).
Definition prov (n : Z) : Provenance := mkProvenance (stamp n) (mkActor "service" "builder" "delivery") [mkSource "plan" "p" "h"] "c".
Definition issue (n : Z) : IssueScope := mkIssue "o/r" n ("github:o/r/issues/" +:+ pretty n) "contract".
Definition authority (n : Z) (labels : list string) (state : string) (t : Z) : AuthoritySnapshot :=
  mkAuthority "github_issue" (is_authority_id (issue n)) "contract" state labels (stamp t).
Definition policy : PolicyProfile := mkPolicy "delivery-low-risk" "v1" "ph" 50 ["lint"; "tests"].

(** ** What the plan is compiled from

    Four approved Issues, the fourth excluded by the approval; the second waits
    for the first and has a delivered dependency outside the scope, the third is
    too risky. *)
Definition unsigned (exclusions : list ScopeExclusion) (payload : string) : DeliveryInitiation :=
  mkInitiation "init-1" [issue 1; issue 2; issue 3; issue 4] exclusions
    (mkApproval "approval-1" (mkActor "human" "o" "owner") (stamp 0) payload [mkSource "approval" "a" "h"]) policy (mkBudget 2 4 10 1000 1000)
    [authority 1 [] "open" 0; authority 2 [] "open" 0; authority 3 [] "open" 0; authority 4 [] "open" 0] (prov 0).
Definition signed (exclusions : list ScopeExclusion) : DeliveryInitiation :=
  unsigned exclusions (delivery_initiation_approval_hash sha (unsigned exclusions "")).
Definition initiation : DeliveryInitiation := signed [mkExclusion "o/r#4" "later" (Some (issue 4))].
Definition resolution (n : Z) (kind : ResolutionTargetKind) (target resolver path : string) : IssueContractResolutionEvidence :=
  mkResolution (is_authority_id (issue n)) "contract" kind target resolver ("git:o/r:" +:+ path) "content" (stamp 0).
Definition fact (n : Z) (risk : RiskClass) (deps : list DeliveryDependency) (paths : list string) : DeliveryIssuePlanningSnapshot :=
  mkFact (issue n) (authority n ["agent:ready"; "prio:high"; "type:task"] "open" 0) prio_high risk ["src/a.py :: f"] ["tests/test_a.py::test_f"]
    [resolution n source_anchor "src/a.py :: f" "builderops.repo-anchor-resolver" "src/a.py";
     resolution n verify_target "tests/test_a.py::test_f" "builderops.repo-verify-target-resolver" "tests/test_a.py"]
    (map (fun x => mkImpact x "none") REQUIRED_SBS_IMPACT_FIELDS) deps paths ds_undelivered None None role_delivery.
Definition delivered_outside : DeliveryDependency :=
  mkDependency (issue 9) true (Some (mkSatisfaction (is_authority_id (issue 9)) "contract" "ledger" "h" (stamp 0))).
Definition waiting : DeliveryDependency := mkDependency (issue 1) false None.
Definition snapshot : DeliveryPlanningSnapshot :=
  mkSnapshotPlan "snapshot-1" (stamp 0)
    [fact 1 risk_low [] ["src/a"]; fact 2 risk_medium [waiting; delivered_outside] ["src/b/"]; fact 3 risk_critical [] []; fact 4 risk_low [] []].
Definition known (_ : string) : bool := true.
Definition compile_with (i : DeliveryInitiation) : res DeliveryPlanCompilation := compile_delivery_plan sha known known i snapshot.
Definition compilation : DeliveryPlanCompilation :=
  Eval vm_compute in match compile_with initiation with Ok c => c | Raise _ => mkCompilation "" None [] end.
Lemma compiled_inputs : compile_with initiation = Ok compilation.
Proof. by vm_compute. Qed.
Definition plan : DeliveryPlan :=
  Eval vm_compute in match cm_plan compilation with
    | Some p => p
    | None => mkPlan "" (mkRef "" "" "") [] [] [] [] [] policy (mkBudget 0 0 0 0 0) [] (prov 0)
    end.
Lemma compiled_plan : cm_plan compilation = Some plan.
Proof. reflexivity. Qed.
Definition profile : DeliveryAcceptanceProfile :=
  mkProfile "profile-1" [evk_issue_closed; evk_pull_request_merged; evk_required_checks_green; evk_review_accepted] (prov 0).

(** ** Driving a run *)

Record drive : Type := mkDrive {
  dv_state : DeliveryRunState;
  dv_history : history;
  dv_time : Z;
  dv_effects : list ReducerEffect;
  dv_events : list ReducerEvent;
  dv_workers : list StructuredWorkerResult;
  dv_reviews : list ReviewResult;
  dv_proposed : list EffectProposal }.
Definition prior (d : drive) : supplied := mkSupplied (dv_effects d) (dv_events d) (dv_workers d) (dv_reviews d).
Definition event_at (t : Z) (ty : EventType) (subject : option AuthoritySnapshot) (effect_ref result_ref : option ContractRef)
    (exc : option DeliveryException) (outcome : option EffectOutcomeEvidence) : ReducerEvent :=
  let h := delivery_event_input_hash sha "run-1" (plan_ref_of sha plan) t ty subject effect_ref result_ref exc outcome in
  mkEvent (delivery_event_id h) h "run-1" (plan_ref_of sha plan) t ty subject effect_ref result_ref exc outcome (prov t).
Definition feed (event : ReducerEvent) (sp : evidence) (d : drive) : res drive :=
  a ← admit_reducer_event sha event plan sp;
  r ← step sha (dv_state d) (InEvent a);
  Ok (mkDrive (rd_state r) (dv_history d ++ [(dv_state d, InEvent a, r)]) (dv_time d + 1) (dv_effects d) (dv_events d ++ [event])
        (dv_workers d) (dv_reviews d) (rd_effects r)).
Definition control (verb : LifecycleVerb) (id : string) (d : drive) : LifecycleCommand :=
  mkCommand verb id "run-1" (dr_version (dv_state d)) (mkActor "human" "o" "owner") (stamp (dv_time d)) None.
Definition order (verb : LifecycleVerb) (id : string) (d : drive) : res drive :=
  r ← step sha (dv_state d) (InCommand (control verb id d));
  Ok (mkDrive (rd_state r) (dv_history d ++ [(dv_state d, InCommand (control verb id d), r)])
        (dv_time d) (dv_effects d) (dv_events d) (dv_workers d) (dv_reviews d) (rd_effects r)).
(** The one proposal of the last step becomes an effect. *)
Definition execute (d : drive) : res drive :=
  match dv_proposed d, last (dv_events d) with
  | [p], Some cause =>
      e ← materialize_effect sha p (dv_state d) plan cause (dv_time d) (prov (dv_time d)) (prior d);
      Ok (mkDrive (dv_state d) (dv_history d) (dv_time d + 1) (dv_effects d ++ [e]) (dv_events d) (dv_workers d) (dv_reviews d) [])
  | _, _ => Raise (ValueError "one proposal")
  end.
Definition no_evidence (d : drive) : evidence := mkEvidence None None None None None None (prior d).
Definition tick (ty : EventType) (d : drive) : res drive := feed (event_at (dv_time d) ty None None None None None) (no_evidence d) d.
(** The success of the last effect, or its failure. *)
Definition report (e : ReducerEffect) (ok : bool) (subject : AuthoritySnapshot) (d : drive) : res drive :=
  let t := dv_time d in
  let o := mkOutcome (ef_class e) (ef_idempotency_key e) (if ok then _SUCCESS_OUTCOME_BY_EFFECT (ef_class e) else out_failed) (ef_outcome_keys e)
    (stamp t) ["evidence"] in
  feed (event_at t (if ok then evt_effect_succeeded else evt_effect_failed) (Some subject) (Some (effect_ref_of sha e)) None
         (if ok then None else Some (mkException exc_execution_failed "code" "message" false ["evidence"])) (Some o))
    (mkEvidence (Some e) None None None None None (prior d)) d.
Definition succeed (subject : Z -> AuthoritySnapshot) (d : drive) : res drive :=
  match last (dv_effects d) with Some e => report e true (subject (dv_time d)) d | None => Raise (ValueError "an effect") end.
Definition work (d : drive) : res drive :=
  let t := dv_time d in
  match last (dv_effects d) with
  | None => Raise (ValueError "a launch")
  | Some launch =>
      let launch_ref := effect_ref_of sha launch in
      let pack := mkPack "pack-1" "run-1" (plan_ref_of sha plan) launch_ref (issue 1) (Some "base") [] ["tests"] [] (prov t) in
      let pack_ref := pack_ref_of sha pack in
      let h := worker_invocation_input_hash sha "run-1" (plan_ref_of sha plan) launch_ref (issue 1) (Some "base") pack_ref "local" in
      let k := worker_invocation_idempotency_key h in
      let invocation := mkInvocation k "run-1" (plan_ref_of sha plan) launch_ref (issue 1) (Some "base") pack_ref (cr_hash pack_ref) "local" k h (prov t) in
      let domain := mkWorkerResult "result-1" "run-1" (plan_ref_of sha plan) (issue 1) ws_completed (Some "head") (Some 7) ["a.py"]
        [mkValidation "tests" vs_passed "log" (Some "head")] [] "done" (prov t) in
      let result := mkWorkerResultV2 "result-1" "run-1" (plan_ref_of sha plan) launch_ref (issue 1) (Some "base") (Some "head") (Some 7)
        pack_ref (cr_hash pack_ref) (invocation_ref_of sha invocation) k domain (mkCarrier "c" "p" "m" "s" "u" "v") (prov t) in
      let event := event_at t evt_worker_result_recorded (Some (authority 1 ["agent:in-progress"; "prio:high"; "type:task"] "open" t)) None (Some (worker_ref_of sha domain)) None None in
      d ← feed event (mkEvidence None (Some result) None (Some pack) (Some invocation) (Some launch) (prior d)) d;
      Ok (mkDrive (dv_state d) (dv_history d) (dv_time d) (dv_effects d) (dv_events d) (dv_workers d ++ [domain]) (dv_reviews d) (dv_proposed d))
  end.
Definition review (d : drive) : res drive :=
  let t := dv_time d in
  let r := mkReview "review-1" "run-1" (plan_ref_of sha plan) policy (issue 1) 7 "head" disp_accept 90 [] [] (prov t) in
  let event := event_at t evt_review_result_recorded (Some (authority 1 ["agent:in-progress"; "prio:high"; "type:task"] "open" t)) None (Some (review_ref_of sha r)) None None in
  d ← feed event (mkEvidence None None (Some r) None None None (prior d)) d;
  Ok (mkDrive (dv_state d) (dv_history d) (dv_time d) (dv_effects d) (dv_events d) (dv_workers d) (dv_reviews d ++ [r]) (dv_proposed d)).

Definition begin : res drive :=
  s ← initial_delivery_run_state sha "run-1" plan profile ["owner"]; Ok (mkDrive s [] 0 [] [] [] [] []).
Definition claimed (t : Z) : AuthoritySnapshot := authority 1 ["agent:in-progress"; "prio:high"; "type:task"] "open" t.
Definition closed (t : Z) : AuthoritySnapshot := authority 1 ["prio:high"; "type:task"] "closed" t.
(** The first Issue up to its merge, and then to its delivery. *)
Definition merges : res drive :=
  d ← begin; d ← tick evt_run_started d; d ← execute d; d ← succeed claimed d; d ← execute d; d ← succeed claimed d; d ← work d;
  d ← execute d; d ← succeed claimed d; d ← review d; d ← execute d; succeed claimed d.
Definition delivers : res drive :=
  d ← merges; d ← execute d; d ← succeed closed d; d ← execute d; succeed closed d.

(** ** What is driven is a run *)

Definition is_run (d : drive) : Prop := exists s0, started sha plan s0 /\ runs sha plan s0 (dv_history d) (dv_state d).
Lemma begin_run d : begin = Ok d -> is_run d.
Proof.
  unfold begin. intros H. bound H as s E. injection H as <-. exists s. split; [|constructor]. split; [by vm_compute|]. by exists "run-1", profile, ["owner"].
Qed.
Lemma feed_run event sp d d' : is_run d -> feed event sp d = Ok d' -> is_run d'.
Proof.
  intros (s0 & H0 & H) E. unfold feed in E. bound E as a Ea. bound E as r Er. injection E as <-. exists s0. split; [exact H0|].
  apply runs_step; [exact H|by exists event, sp|exact Er].
Qed.
Lemma order_run verb id d d' : is_run d -> order verb id d = Ok d' -> is_run d'.
Proof. intros (s0 & H0 & H) E. unfold order in E. bound E as r Er. injection E as <-. exists s0. split; [exact H0|].
  exact (runs_step sha plan s0 (dv_history d) (dv_state d) (InCommand (control verb id d)) r H I Er).
Qed.
Lemma execute_run d d' : is_run d -> execute d = Ok d' -> is_run d'.
Proof.
  intros H E. unfold execute in E. destruct (dv_proposed d) as [|p [|? ?]]; try done. destruct (last (dv_events d)); [|done].
  bound E as e Ee. by injection E as <-.
Qed.
Lemma tick_run ty d d' : is_run d -> tick ty d = Ok d' -> is_run d'.
Proof. intros H E. unfold tick in E. exact (feed_run _ _ _ _ H E). Qed.
Lemma succeed_run f d d' : is_run d -> succeed f d = Ok d' -> is_run d'.
Proof. intros H E. unfold succeed, report in E. destruct (last (dv_effects d)); [|done]. cbv zeta in E. exact (feed_run _ _ _ _ H E). Qed.
Lemma work_run d d' : is_run d -> work d = Ok d' -> is_run d'.
Proof.
  intros H E. unfold work in E. destruct (last (dv_effects d)) as [launch|]; [|done]. cbv zeta in E. bound E as d1 E1. injection E as <-.
  exact (feed_run _ _ _ _ H E1).
Qed.
Lemma review_run d d' : is_run d -> review d = Ok d' -> is_run d'.
Proof. intros H E. unfold review in E. cbv zeta in E. bound E as d1 E1. injection E as <-. exact (feed_run _ _ _ _ H E1). Qed.
Ltac driven := repeat match goal with
  | E : begin = Ok ?d |- _ => apply begin_run in E
  | H : is_run ?d, E : tick _ ?d = Ok _ |- _ => apply (tick_run _ _ _ H) in E; clear H
  | H : is_run ?d, E : execute ?d = Ok _ |- _ => apply (execute_run _ _ H) in E; clear H
  | H : is_run ?d, E : succeed _ ?d = Ok _ |- _ => apply (succeed_run _ _ _ H) in E; clear H
  | H : is_run ?d, E : work ?d = Ok _ |- _ => apply (work_run _ _ H) in E; clear H
  | H : is_run ?d, E : review ?d = Ok _ |- _ => apply (review_run _ _ H) in E; clear H
  end.
Lemma merges_run d : merges = Ok d -> is_run d.
Proof. unfold merges. intros H. repeat (bound H as ? ?). by driven. Qed.
Lemma delivers_run d : delivers = Ok d -> is_run d.
Proof. unfold delivers. intros H. bound H as d0 E0. apply merges_run in E0. repeat (bound H as ? ?). by driven. Qed.

(** ** The state after the first delivery *)

Definition cancel : drive -> LifecycleCommand := control cmd_cancel "cancel-1".
Definition next_tick (d : drive) : res AdmittedEvent :=
  admit_reducer_event sha (event_at (dv_time d) evt_timer_elapsed None None None None None) plan (no_evidence d).
(** The first Issue is delivered; a tick claims the second; a cancellation is accepted. *)
Definition facts (d : drive) : bool :=
  match dr_issues (dv_state d), next_tick d, step sha (dv_state d) (InCommand (cancel d)), proposals (dv_history d) with
  | i :: _, Ok a, Ok c, q :: _ =>
      bool_decide (ir_phase i = ph_delivered) && bool_decide (wave_of plan (ir_issue i) = Some 0) && bool_decide (rd_refusal c = None)
      && match step sha (dv_state d) (InEvent a) with
         | Ok r => match rd_effects r with p :: _ => bool_decide (wave_of plan (po_issue p) = Some 1) | [] => false end
         | Raise _ => false
         end
  | _, _, _, _ => false
  end.
Lemma delivers_facts : match delivers with Ok d => facts d | Raise _ => false end = true.
Proof. vm_compute. reflexivity. Qed.
Record delivered_first (d : drive) (i : IssueRunState) (a : AdmittedEvent) (r c : Reduction) (p q : EffectProposal) : Prop := {
  df_run : is_run d;
  df_issue : i ∈ dr_issues (dv_state d) /\ ir_phase i = ph_delivered /\ wave_of plan (ir_issue i) = Some 0;
  df_admitted : proper sha plan (InEvent a);
  df_tick : step sha (dv_state d) (InEvent a) = Ok r /\ p ∈ rd_effects r /\ wave_of plan (po_issue p) = Some 1;
  df_cancel : step sha (dv_state d) (InCommand (cancel d)) = Ok c /\ rd_refusal c = None;
  df_proposal : q ∈ proposals (dv_history d) }.
Lemma facts_first d : is_run d -> facts d = true -> exists i a r c p q, delivered_first d i a r c p q.
Proof.
  intros Hrun H. unfold facts in H.
  destruct (dr_issues (dv_state d)) as [|i l] eqn:Ei; [discriminate|]. destruct (next_tick d) as [a|] eqn:Ea; [|discriminate].
  destruct (step sha (dv_state d) (InCommand (cancel d))) as [c|] eqn:Ec; [|discriminate].
  destruct (proposals (dv_history d)) as [|q qs] eqn:Eq; [discriminate|].
  destruct (step sha (dv_state d) (InEvent a)) as [r|] eqn:Er; [|by rewrite andb_false_r in H].
  destruct (rd_effects r) as [|p ps] eqn:Ep; [by rewrite andb_false_r in H|].
  apply andb_true_iff in H as [H H4]. apply andb_true_iff in H as [H H3]. apply andb_true_iff in H as [H1 H2].
  apply bool_decide_eq_true in H1, H2, H3, H4.
  exists i, a, r, c, p, q. split; rewrite ?Ei, ?Ep, ?Eq; [exact Hrun| | | | |left].
  - split; [left|]. split; [exact H1|exact H2].
  - eexists _, _. exact Ea.
  - split; [exact Er|]. split; [left|exact H4].
  - split; [exact Ec|exact H3].
Qed.
Lemma first_delivered : exists d i a r c p q, delivers = Ok d /\ delivered_first d i a r c p q.
Proof.
  pose proof delivers_facts as H. destruct delivers as [d|] eqn:E; [|discriminate]. apply delivers_run in E.
  destruct (facts_first d E H) as (i & a & r & c & p & q & Hd). exists d, i, a, r, c, p, q. split; [reflexivity|exact Hd].
Qed.

(** Witness: the run after the delivery answers. *)
Lemma delivery_answers : exists d r, delivers = Ok d /\ step sha (dv_state d) (InCommand (cancel d)) = Ok r.
Proof.
  destruct first_delivered as (d & i & a & r & c & p & q & Ed & [(s0 & H0 & H) _ _ _ _ _]).
  destruct (delivery_reducer_always_answers sha plan s0 (dv_history d) (dv_state d) (InCommand (cancel d)) H0 H I) as [r' Hr].
  exists d, r'. split; [exact Ed|exact Hr].
Defined.
(** Witness: the first Issue passed every gate. *)
Lemma delivery_gates : exists d i, delivers = Ok d /\ i ∈ dr_issues (dv_state d) /\ ir_phase i = ph_delivered
  /\ (exists l, sublist l (accepted (key_of i) (dv_history d)) /\ Forall2 (meets i) gates l).
Proof.
  destruct first_delivered as (d & i & a & r & c & p & q & Ed & [(s0 & H0 & H) (Hi & Hp & _) _ _ _ _]).
  destruct (delivered_through_every_gate sha plan s0 (dv_history d) (dv_state d) i H0 H Hi Hp) as [Hg _].
  exists d, i. split; [exact Ed|]. split; [exact Hi|]. split; [exact Hp|exact Hg].
Defined.
(** Witness: cancelling it. *)
Lemma delivery_cancelled : exists d q id, delivers = Ok d /\ q ∈ proposals (dv_history d) /\ proposal_effect_identity sha (dv_state d) q = Ok id.
Proof.
  destruct first_delivered as (d & i & a & r & c & p & q & Ed & [(s0 & H0 & H) _ _ _ (Hc & Hr) Hq]).
  destruct (cancellation_accounts_for_every_effect sha plan s0 (dv_history d) (dv_state d) (cancel d) c q H0 H (or_introl eq_refl) Hc Hr Hq) as (id & Hid & _).
  exists d, q, id. split; [exact Ed|]. split; [exact Hq|exact Hid].
Defined.
(** Witness: one launch so far. *)
Lemma delivery_launches : exists d, delivers = Ok d /\ (length (launches (scope_key (issue 1)) (dv_history d)) <= 1)%nat.
Proof.
  destruct first_delivered as (d & i & a & r & c & p & q & Ed & [(s0 & H0 & H) _ _ _ _ _]).
  exists d. split; [exact Ed|]. exact (one_launch_per_issue sha plan s0 (dv_history d) (dv_state d) (scope_key (issue 1)) H0 H).
Defined.

(** ** Witnesses for the compiler *)

Lemma inputs_orderly : orderly sha initiation snapshot.
Proof.
  split; [by vm_compute|by vm_compute|by apply NoDup_singleton| |].
  - intros x ->%list_elem_of_singleton. cbn. do 3 right. left.
  - intros f Hf. repeat (apply elem_of_cons in Hf as [->|Hf]; [by vm_compute|]). by apply not_elem_of_nil in Hf.
Qed.
(** Witness: the inputs of the example are in order. *)
Lemma compiler_answers_here : exists c, compile_with initiation = Ok c.
Proof. exact (compiler_always_answers sha known known initiation snapshot inputs_orderly). Defined.
(** Witness: the first Issue is planned, the third is not. *)
Lemma example_answers : (exists p, cm_plan compilation = Some p /\ scope_key (issue 1) ∈ map scope_key (dp_final_scope p))
  /\ ~ (exists p, cm_plan compilation = Some p /\ scope_key (issue 3) ∈ map scope_key (dp_final_scope p)).
Proof.
  pose proof (planned_or_refused sha known known initiation snapshot compilation ltac:(by vm_compute) compiled_inputs) as H. split.
  - apply (H (issue 1)); [left|]. intros (r & Hr & E). repeat (apply elem_of_cons in Hr as [->|Hr]; [discriminate E|]). by apply not_elem_of_nil in Hr.
  - intros Hp. apply (H (issue 3)) in Hp; [|do 2 right; left]. apply Hp. eexists. split; [left|reflexivity].
Defined.
(** Witness: the two scheduled Issues are executable and apart. *)
Lemma example_executable : (exists f, candidate initiation snapshot (scope_key (issue 2)) f /\ pf_issue f = issue 2 /\ executable known known initiation snapshot f)
  /\ overlaps (fact 1 risk_low [] ["src/a"]) (fact 2 risk_medium [waiting; delivered_outside] ["src/b/"]) = false.
Proof.
  destruct (compiled_issues_are_executable sha known known initiation snapshot compilation plan ltac:(by vm_compute) compiled_inputs compiled_plan) as [H1 H2].
  split; [apply H1; right; left|]. apply H2; [left|right; left|left|right; left|discriminate].
Defined.
Lemma second_wave x : wave_of plan x = Some 1 -> scope_key (issue 2) = scope_key x.
Proof.
  unfold wave_of. change (dp_waves plan) with [mkWave 0 [issue 1]; mkWave 1 [issue 2]]. cbn [List.filter dw_issues existsb].
  destruct (bool_decide_reflect (scope_key (issue 2) = scope_key x)) as [|_]; [done|].
  destruct (bool_decide (scope_key (issue 1) = scope_key x)); discriminate.
Qed.
(** Witness: when the second Issue is claimed, its dependency is delivered. *)
Lemma example_waits : exists d j, delivers = Ok d /\ j ∈ dr_issues (dv_state d) /\ scope_key (ir_issue j) = scope_key (issue 1) /\ ir_phase j = ph_delivered.
Proof.
  destruct first_delivered as (d & i & a & r & c & p & q & Ed & [(s0 & H0 & H) _ Ha (Hs & Hp & Hw) _ _]).
  pose proof (second_wave (po_issue p) Hw) as Hk.
  destruct (effects_wait_for_dependencies sha known known initiation snapshot compilation plan s0 (dv_history d) (dv_state d) (InEvent a) r p
    (fact 2 risk_medium [waiting; delivered_outside] ["src/b/"]) waiting ltac:(by vm_compute) compiled_inputs compiled_plan H0 H Ha Hs Hp
    ltac:(right; left) Hk ltac:(left) eq_refl) as (_ & j & Hj & Ej & Pj).
  exists d, j. split; [exact Ed|]. split; [exact Hj|]. split; [exact Ej|exact Pj].
Defined.

(** ** Exclusions the compiler does not survive *)

Definition message (r : res DeliveryPlanCompilation) : string :=
  match r with Ok _ => "answered" | Raise (ValueError m) => m | Raise (KeyError m) => "KeyError" | Raise _ => "" end.
(** Each of these initiations is valid, and on each the compiler raises instead of
    refusing: an exclusion that names an approved Issue without its typed identity,
    one whose typed Issue was never requested, and two whose keys differ in case. *)
Lemma disorderly_exclusions :
  (fun x => (_validate_initiation sha (signed x), message (compile_with (signed x)))) <$>
    [[mkExclusion "o/r#4" "later" None]; [mkExclusion "o/r#8" "later" (Some (issue 8))]; [mkExclusion "A" "one" None; mkExclusion "a" "two" None]]
  = [(Ok tt, "plan issue exclusions require typed omitted-Issue identity"); (Ok tt, "plan issue exclusion is outside approved initiation scope");
     (Ok tt, "plan must preserve initiation exclusions")].
Proof. vm_compute. reflexivity. Qed.

(** ** Shorter runs *)

Definition claims : res drive := d ← begin; d ← tick evt_run_started d; execute d.
Definition claim_report (d : drive) : res AdmittedEvent :=
  match last (dv_effects d) with
  | None => Raise (ValueError "an effect")
  | Some e =>
      let t := dv_time d in
      admit_reducer_event sha (event_at t evt_effect_succeeded (Some (claimed t)) (Some (effect_ref_of sha e)) None None
        (Some (mkOutcome (ef_class e) (ef_idempotency_key e) out_claimed (ef_outcome_keys e) (stamp t) ["evidence"]))) plan
        (mkEvidence (Some e) None None None None None (prior d))
  end.
Definition reported (d : drive) : bool :=
  match claim_report d with
  | Ok a => match step sha (dv_state d) (InEvent a), ad_effect a with
            | Ok r, Some _ => bool_decide (rd_refusal r = None) && is_report (ad_signal a)
            | _, _ => false
            end
  | Raise _ => false
  end.
Lemma claims_reported : match claims with Ok d => reported d | Raise _ => false end = true.
Proof. vm_compute. reflexivity. Qed.
(** Witness: the report of the claim is about the proposed claim. *)
Lemma delivery_reports : exists d a e p id, claims = Ok d /\ claim_report d = Ok a /\ p ∈ proposals (dv_history d)
  /\ proposal_effect_identity sha (dv_state d) p = Ok id /\ ad_effect a = Some e /\ ei_key id = ef_idempotency_key e.
Proof.
  pose proof claims_reported as H. destruct claims as [d|] eqn:E; [|discriminate].
  assert (Hrun : is_run d) by (unfold claims in E; repeat (bound E as ? ?); by driven). clear E. destruct Hrun as (s0 & H0 & Hr). unfold reported in H.
  destruct (claim_report d) as [a|] eqn:Ea; [|discriminate]. destruct (step sha (dv_state d) (InEvent a)) as [r|] eqn:Er; [|discriminate].
  destruct (ad_effect a) as [e|] eqn:Ee; [|discriminate]. apply andb_true_iff in H as [H1 H2]. apply bool_decide_eq_true in H1.
  destruct (accepted_reports_were_proposed sha plan s0 (dv_history d) (dv_state d) a r e H0 Hr Er H1 H2 Ee) as (p & id & Hp & Hid & Hk & _).
  exists d, a, e, p, id. split; [reflexivity|]. split; [exact Ea|]. split; [exact Hp|]. split; [exact Hid|]. split; [exact Ee|exact Hk].
Defined.

(** The refusals of a run, the phases it ends in and the classes of effects its last step reports as obligations. *)
Definition outcome (d : res drive) : option (list (option RefusalReason) * list RunPhase * list EffectClass) :=
  match d with
  | Ok d => Some (map (fun e => rd_refusal (snd e)) (dv_history d), map ir_phase (dr_issues (dv_state d)),
                  match last (dv_history d) with Some e => map ob_effect_class (rd_obligations (snd e)) | None => [] end)
  | Raise _ => None
  end.
(** Resume proposes the claim of an Issue that is still admitted, and the reducer
    refuses the report that the claim succeeded: the Issue was not moved to
    claiming.  Only a later tick moves it. *)
Lemma resumed_claim_refused : outcome (d ← begin; d ← order cmd_pause "pause-1" d; d ← tick evt_run_started d; d ← order cmd_resume "resume-1" d;
    d ← execute d; succeed claimed d)
  = Some ([None; Some paused_run; None; Some illegal_transition], [ph_admitted; ph_admitted], []).
Proof. vm_compute. reflexivity. Qed.
(** A failure report about a claim that already succeeded is accepted; it
    overwrites the outcome, and the cancellation no longer reports the claim. *)
Definition late_failure (d : drive) : res drive :=
  match dv_effects d with e :: _ => report e false (authority 1 ["agent:ready"; "prio:high"; "type:task"] "open" (dv_time d)) d | [] => Raise (ValueError "an effect") end.
Lemma late_failure_hides_claim : outcome (d ← claims; d ← succeed claimed d; order cmd_cancel "cancel-1" d)
    = Some ([None; None; None], [ph_cancelled; ph_cancelled], [claim_issue; launch_worker])
  /\ outcome (d ← claims; d ← succeed claimed d; d ← late_failure d; order cmd_cancel "cancel-1" d)
    = Some ([None; None; None; None], [ph_blocked; ph_cancelled], [launch_worker]).
Proof. vm_compute. split; reflexivity. Qed.
End DeliveryRun.
